(* ===== verification/_CoqProject ===== *)
-Q . S2P
Prelude.v
Serialize.v
ArithUint256.v
Transaction.v
Chain.v
Pow.v
VersionBits.v
Merkle.v
Script.v
OpNames.v
Interpreter.v
SigHash.v
Regex.v
AssetTypes.v
AssetNames.v
Verifier.v
LRUCache.v
Coins.v
Chainstate.v
Base58.v
Standard.v
AssetScripts.v
AssetChecks.v
AssetsCache.v
AssetStore.v
AssetConnect.v
TxVerify.v
BlockChecks.v
AssetBalance.v
ConnectBlock.v
AssetUndo.v
Disconnect.v
Supply.v
BlockRules.v
AssetDump.v
ChainSelect.v
ChainLive.v
HashStream.v
Sha2.v
Sha1.v
Ripemd160.v
Hashers.v
