(* ===== verification/Prelude.v ===== *)
(** * Phicoin Core: verification development

    Phicoin Core is a full node of a proof-of-work cryptocurrency with user-defined
    assets.  A node keeps a tree of block headers (src/src/chain.h), decides which
    headers carry enough work (pow.cpp) and which consensus rules are active
    (versionbits.cpp), checks that the transactions of a block are the ones its
    header commits to (consensus/merkle.cpp), runs the scripts that guard the coins a
    transaction spends (script/interpreter.cpp) over the bytes a signature commits
    to, and applies the block to the set of unspent coins (coins.cpp, validation.cpp),
    which a database keeps across crashes (txdb.cpp).  Outputs may carry assets, whose
    names, data and scripts are in assets/.  Addresses are base58 strings (base58.cpp)
    that stand for standard scripts (script/standard.cpp).

    ** Conventions

    A [w]-bit integer is a [Z] and every conversion, wrap-around and truncation of the
    source is written out ([uwrap], [swrap], [u32], [i64], ...).  A byte is a [Z] in
    [[0, 256)]; byte vectors, scripts and [std::string]s are lists of bytes.  Code that
    throws, asserts or fails returns [result E A]: [Ok] with the value, [Err] with the
    reason.  Objects that are mutated are passed as explicit state.  A pointer to a
    block index entry is an address in a heap; an iterator into a script is the suffix
    it points at.  A loop of the source is a structural [Fixpoint] where its bound is a
    list, and runs on fuel otherwise; the lemmas named [..._total] or [..._spec] show
    that the fuel given by the caller is enough, so no theorem holds because a loop ran
    out of fuel.  Code outside the program (boost, LevelDB, the elliptic curve library)
    and the hash functions are arguments: members of a class ([Crypto], [BoostSplit],
    [MapOrder], [BatchLimit], [TxHash], ...) whose laws state their documented
    behaviour.  Theorems that assume such a class come with a witness at an instance.

    ** Files

    - Prelude.v: machine integers, little-endian digit strings ([digits_val]), results,
      bounded loops ([for_upto], [while]) and the lemmas and tactics all files share.
    - Serialize.v: src/src/serialize.h and streams.h.  Fixed-width integers, compact
      sizes, variable-length integers, vectors; class [Serial].  Every encoding is read
      back and only canonical encodings are accepted.
    - ArithUint256.v: arith_uint256.{h,cpp}.  The limb-level operators, proved to be the
      operations on numbers modulo [2^256]; the compact form of targets.
    - Transaction.v: primitives/transaction.*, block.*, amount.h, uint256.h.  Data types
      and wire formats with and without witnesses; [GetValueOut].
    - Chain.v: chain.{h,cpp} and [AddToBlockIndex].  The block tree as a heap, the
      invariant every reachable tree has, skip-list ancestors, [CChain], locators, forks.
    - Pow.v: pow.cpp.  Dark Gravity Wave, the Bitcoin retarget rule, [CheckProofOfWork].
    - VersionBits.v: versionbits.cpp.  The BIP9 state machine with its cache against a
      reference that recomputes every period.
    - Merkle.v: consensus/merkle.cpp.  The one-pass root, branch and mutation flag
      against the tree built level by level.
    - Script.v, OpNames.v: script/script.{h,cpp}.  Opcodes, script numbers, builders, the
      parser, script predicates, signature operation counts, [FindAndDelete].
    - Interpreter.v: script/interpreter.cpp.  [EvalScript] with every opcode,
      [VerifyScript], witness programs; bounds on stacks and on the operation count,
      absence of failed assertions, exact behaviour of pay-to-pubkey-hash and multisig.
    - SigHash.v: the signature hash and [TransactionSignatureChecker]; what a signature
      commits to.
    - Regex.v: the matcher of [std::regex] for the patterns the code uses.
    - AssetTypes.v: assets/assettypes.{h,cpp} and the script constructors and readers of
      assets/assets.cpp.
    - AssetNames.v: the name rules of assets/assets.cpp against a grammar of names.
    - Verifier.v: LibBoolEE.cpp and the verifier strings of assets/assets.cpp.  The
      evaluator terminates on every string and computes the boolean value of a formula.
    - LRUCache.v: [CLRUCache] of assets/assettypes.h, a list and a map of iterators into it,
      against a list in the order of use.
    - Coins.v: coins.{h,cpp} and the coin database of txdb.cpp.  A cache over any view
      refines one map from outpoints to coins; a database write interrupted anywhere
      leaves the record needed to finish it.
    - Chainstate.v: the coins that a transaction adds, spends and restores,
      [RollforwardBlock], [ReplayBlocks].  Replay completes an interrupted write.
    - Base58.v: base58.{h,cpp}.  Radix conversion, checksums, addresses.
    - Standard.v: script/standard.{h,cpp}.  Script classification and the builders.
    - AssetScripts.v: the asset outputs of a transaction, the burn rules and the form of
      issues and reissues (assets/assets.cpp).
    - AssetChecks.v: the checks of asset operations against the chain's assets, a class
      of look-ups (assets/assets.cpp).
    - AssetsCache.v: the asset cache of assets/assets.cpp, the global cache and the two
      databases under it: every operation, the look-ups, [Flush], [DumpCacheToDatabase].
    - AssetStore.v: the look-ups answer what the caches and the databases determine, and
      [Flush] keeps the answers.
    - AssetConnect.v: the calls of [AddCoins], [SpendCoin], [ConnectBlock] and
      [DisconnectBlock] into the asset cache.
    - TxVerify.v: consensus/tx_verify.cpp.  Finality, relative locks, [CheckTransaction],
      [CheckTxInputs], [CheckTxAssets]; when inputs and fees are accepted.
    - BlockChecks.v: the rules of validation.cpp for headers and blocks, the witness
      commitment, checkpoints, script flags; classes for the proof-of-work hashes.
    - AssetBalance.v: what acceptance means for assets: conservation modulo [2^64], the
      token that every issue, reissue, tag and freeze needs, and which reissues the two
      overloads of [ContextualCheckReissueAsset] allow.
    - ConnectBlock.v: [CheckInputs], [UpdateCoins] and [ConnectBlock] of validation.cpp on
      the coins, the assets and the script cache, with the coinbase rule.
    - AssetUndo.v: what disconnecting a block restores of the answers about assets: all but
      the reissuable flag of the assets it reissued.
    - Disconnect.v: [ApplyTxInUndo] and [DisconnectBlock] of validation.cpp on the coins and
      the assets.  Disconnecting a block undoes connecting it, and the verdict.
    - Supply.v: the coins of a chain of connected blocks are worth at most the subsidies and
      the values of asset outputs that were not counted; the coinbase pays the developers.
    - BlockRules.v: the commitment of a miner is accepted, the script cache changes no
      verdict, the signature operation limit is exact, what the header check trusts.
    - AssetDump.v: writing the cache to the databases keeps every answer, except for reissue
      data of an asset that is gone; states in which the caches answer wrongly.
    - ChainSelect.v: the choice of the active chain in validation.cpp.  The order of the
      candidates, [FindMostWorkChain], [ActivateBestChain], the marks of invalid blocks,
      [InvalidateBlock], [PreciousBlock], [AcceptBlockHeader], [AcceptBlock],
      [ProcessNewBlock], over any store of coins and assets.
    - ChainLive.v: [ActivateBestChain] returns over any store that reports no corruption,
      and leaves the best candidate active, the best accepted chain when verdicts on a
      block do not change; a block that may be corrupted is retried without end.
    - HashStream.v: a hash object that reads a message in pieces goes through the blocks of
      the whole padded message.
    - Sha2.v, Sha1.v, Ripemd160.v: the unrolled transformations of src/src/crypto against
      the rounds of the standards; the constants of SHA-2 as roots of primes.
    - Hashers.v: the classes [CSHA256], [CSHA1], [CSHA512], [CRIPEMD160], HMAC, the double
      hashes of hash.h; an instance of the hash functions the interpreter uses.

    ** Not modelled

    Networking, RPC, wallet, graphical interface, mempool policy, databases below the
    key-value interface, start-up and logging: input/output, threads, clocks and
    floating point over the whole node state.  The elliptic curve library and the
    proof-of-work hashes appear as parameters of the models.
*)

From Stdlib Require Export ZArith Bool.
From stdpp Require Export base decidable list.
From Stdlib Require Export Lia.

Open Scope Z_scope.

(** ** Machine integers

    A [w]-bit unsigned integer is a [Z] in [[0, 2^w)]; C++'s conversions and
    wrap-around are the functions below. *)

Definition uwrap (w z : Z) : Z := z mod 2 ^ w.
Definition swrap (w z : Z) : Z := (z + 2 ^ (w - 1)) mod 2 ^ w - 2 ^ (w - 1).

Definition u8 : Z → Z := uwrap 8.
Definition u16 : Z → Z := uwrap 16.
Definition u32 : Z → Z := uwrap 32.
Definition u64 : Z → Z := uwrap 64.
Definition i32 : Z → Z := swrap 32.
Definition i64 : Z → Z := swrap 64.

Definition ufits (w z : Z) : Prop := 0 <= z < 2 ^ w.
Definition sfits (w z : Z) : Prop := - 2 ^ (w - 1) <= z < 2 ^ (w - 1).

(** A byte string is a list of [Z], each an unsigned byte. *)
Definition is_byte (b : Z) : Prop := 0 <= b < 256.
Definition bytes_ok (l : list Z) : Prop := Forall is_byte l.
Definition is_byteb (b : Z) : bool := (0 <=? b) && (b <? 256).

(** [a & b != 0] in a condition. *)
Definition flag_set (flags mask : Z) : bool := negb (Z.land flags mask =? 0).

(** ** Results of fallible code *)

Inductive result (E A : Type) : Type :=
| Ok (a : A)
| Err (e : E).
Arguments Ok {E A} _.
Arguments Err {E A} _.

Definition rbind {E A B : Type} (r : result E A) (k : A → result E B) : result E B :=
  match r with Ok a => k a | Err e => Err e end.

Definition is_ok {E A : Type} (r : result E A) : bool :=
  match r with Ok _ => true | Err _ => false end.

Declare Scope code_scope.
Delimit Scope code_scope with code.
Notation "'let?' x ':=' r 'in' k" := (rbind r (fun x => k))
  (at level 200, x pattern, r at level 100, k at level 200,
   format "'[v' 'let?'  x  ':='  r  'in' '/' k ']'") : code_scope.
Open Scope code_scope.

(** ** Counted and conditional loops *)

(** [for (i = i0; i < i0 + n; i++) s = f i s] *)
Fixpoint for_from {S : Type} (i : nat) (n : nat) (f : nat → S → S) (s : S) : S :=
  match n with
  | O => s
  | Datatypes.S n' => for_from (Datatypes.S i) n' f (f i s)
  end.

Definition for_upto {S : Type} (n : nat) (f : nat → S → S) (s : S) : S :=
  for_from 0 n f s.

(** [while (c s) s = f s], at most [fuel] iterations; [None] when they are
    not enough. *)
Fixpoint while {S : Type} (fuel : nat) (c : S → bool) (f : S → S) (s : S) : option S :=
  if c s then
    match fuel with
    | O => None
    | Datatypes.S n => while n c f (f s)
    end
  else Some s.

(** ** Digit sequences, least significant digit first *)

Fixpoint digits_val (w : Z) (l : list Z) : Z :=
  match l with
  | [] => 0
  | d :: l' => d + 2 ^ w * digits_val w l'
  end.

Fixpoint digits_of (w : Z) (n : nat) (z : Z) : list Z :=
  match n with
  | O => []
  | S n' => z mod 2 ^ w :: digits_of w n' (z / 2 ^ w)
  end.

Definition digits_ok (w : Z) (l : list Z) : Prop := Forall (ufits w) l.

(** ** Tactics and hints *)

Create HintDb phi discriminated.

Ltac inv H := inversion H; subst; clear H.

(** Split every [if] and [match] on an atomic scrutinee of the goal. *)
Ltac case_all :=
  repeat match goal with
  | |- context [match ?x with _ => _ end] =>
      lazymatch x with
      | context [match _ with _ => _ end] => fail
      | _ => destruct x eqn:?
      end
  end.

Ltac case_all_in H :=
  repeat match type of H with
  | context [match ?x with _ => _ end] =>
      lazymatch x with
      | context [match _ with _ => _ end] => fail
      | _ => destruct x eqn:?
      end
  end.

(** Boolean tests on [Z] to propositions. *)
Ltac breflect :=
  repeat match goal with
  | H : _ && _ = true |- _ => apply andb_prop in H; destruct H
  | H : _ || _ = false |- _ => apply orb_false_elim in H; destruct H
  | H : negb _ = true |- _ => apply negb_true_iff in H
  | H : negb _ = false |- _ => apply negb_false_iff in H
  | H : (_ =? _) = true |- _ => apply Z.eqb_eq in H
  | H : (_ =? _) = false |- _ => apply Z.eqb_neq in H
  | H : (_ <? _) = true |- _ => apply Z.ltb_lt in H
  | H : (_ <? _) = false |- _ => apply Z.ltb_ge in H
  | H : (_ <=? _) = true |- _ => apply Z.leb_le in H
  | H : (_ <=? _) = false |- _ => apply Z.leb_gt in H
  | H : (_ >? _) = true |- _ => rewrite Z.gtb_ltb in H; apply Z.ltb_lt in H
  | H : (_ >? _) = false |- _ => rewrite Z.gtb_ltb in H; apply Z.ltb_ge in H
  | H : (_ >=? _) = true |- _ => rewrite Z.geb_leb in H; apply Z.leb_le in H
  | H : (_ >=? _) = false |- _ => rewrite Z.geb_leb in H; apply Z.leb_gt in H
  end.

(** ** Lemmas: machine integers *)

Lemma pow2_pos w : 0 <= w → 0 < 2 ^ w.
Proof. intros; apply Z.pow_pos_nonneg; lia. Qed.

Lemma uwrap_range w z : 0 <= w → ufits w (uwrap w z).
Proof. intros. apply Z.mod_pos_bound, pow2_pos; lia. Qed.

Lemma uwrap_id w z : ufits w z → uwrap w z = z.
Proof. apply Z.mod_small. Qed.

Lemma swrap_range w z : 0 < w → sfits w (swrap w z).
Proof.
  intros Hw. unfold sfits, swrap.
  pose proof (Z.mod_pos_bound (z + 2 ^ (w - 1)) (2 ^ w) (pow2_pos w ltac:(lia))).
  replace (2 ^ w) with (2 * 2 ^ (w - 1)) in *; [lia|].
  rewrite <- Z.pow_succ_r by lia. f_equal; lia.
Qed.

Lemma swrap_id w z : 0 < w → sfits w z → swrap w z = z.
Proof.
  intros Hw [Hl Hu]. unfold swrap. rewrite Z.mod_small; [lia|].
  replace (2 ^ w) with (2 * 2 ^ (w - 1)); [lia|].
  rewrite <- Z.pow_succ_r by lia. f_equal; lia.
Qed.

Lemma i64_add_l a b : i64 (i64 a + b) = i64 (a + b).
Proof.
  unfold i64, swrap. set (k := 2 ^ (64 - 1)).
  replace ((a + k) mod 2 ^ 64 - k + b + k) with ((a + k) mod 2 ^ 64 + b) by lia.
  rewrite Z.add_mod_idemp_l by lia. do 2 f_equal. lia.
Qed.

Lemma i64_sub_l a b : i64 (i64 a - b) = i64 (a - b).
Proof. rewrite <- !Z.add_opp_r. apply i64_add_l. Qed.

Lemma i64_eq_mod a b : i64 a = i64 b → a mod 2 ^ 64 = b mod 2 ^ 64.
Proof.
  unfold i64, swrap. set (k := 2 ^ (64 - 1)). intros H. assert ((a + k) mod 2 ^ 64 = (b + k) mod 2 ^ 64) as E by lia.
  replace a with (a + k - k) by lia. replace b with (b + k - k) by lia.
  rewrite <- (Zminus_mod_idemp_l (a + k)), <- (Zminus_mod_idemp_l (b + k)). by rewrite E.
Qed.

Lemma i64_small a : 0 <= a < 2 ^ 63 → i64 a = a.
Proof. intros Ha. unfold i64. apply swrap_id; [lia|]. unfold sfits. change (2 ^ (64 - 1)) with (2 ^ 63). lia. Qed.

Lemma uwrap_land w z : 0 <= w → Z.land z (2 ^ w - 1) = uwrap w z.
Proof.
  intros. unfold uwrap. rewrite <- Z.land_ones by lia.
  now rewrite Z.ones_equiv, Z.sub_1_r.
Qed.

Lemma ufits_bits w z : 0 <= w → ufits w z ↔ 0 <= z ∧ ∀ i, w <= i → Z.testbit z i = false.
Proof.
  intros Hw. unfold ufits. split.
  - intros [H0 H1]. split; [done|]. intros i Hi.
    rewrite <- (Z.mod_small z (2 ^ w)) by lia.
    apply Z.mod_pow2_bits_high; lia.
  - intros [H0 H1]. split; [done|].
    assert (z = z mod 2 ^ w) as ->; [|apply Z.mod_pos_bound, pow2_pos; lia].
    apply Z.bits_inj'. intros i Hi.
    destruct (Z.lt_ge_cases i w).
    + now rewrite Z.mod_pow2_bits_low by lia.
    + rewrite Z.mod_pow2_bits_high by lia. auto.
Qed.

Lemma ufits_lor w a b : 0 <= w → ufits w a → ufits w b → ufits w (Z.lor a b).
Proof.
  intros Hw Ha Hb. apply ufits_bits in Ha, Hb; try done. apply ufits_bits; [done|].
  destruct Ha as [Ha Ha'], Hb as [Hb Hb']. split; [now apply Z.lor_nonneg|].
  intros i Hi. rewrite Z.lor_spec, Ha', Hb'; auto.
Qed.

Lemma ufits_land w a b : 0 <= w → ufits w a → 0 <= b → ufits w (Z.land a b).
Proof.
  intros Hw Ha Hb. apply ufits_bits in Ha; try done. apply ufits_bits; [done|].
  destruct Ha as [Ha Ha']. split; [apply Z.land_nonneg; lia|].
  intros i Hi. rewrite Z.land_spec, Ha'; auto.
Qed.

Lemma ufits_0 w : 0 <= w → ufits w 0.
Proof. intros. split; [lia|]. apply pow2_pos; lia. Qed.

Lemma lor_disjoint a b : Z.land a b = 0 → Z.lor a b = a + b.
Proof. intros H. rewrite Z.add_nocarry_lxor by done. symmetry. by apply Z.lxor_lor. Qed.

Lemma lor_pow2 x r : 0 <= r → Z.testbit x r = false → Z.lor x (2 ^ r) = x + 2 ^ r.
Proof.
  intros Hr Hx. apply lor_disjoint. apply Z.bits_inj'. intros i Hi.
  rewrite Z.land_spec, Z.bits_0. destruct (Z.eq_dec i r) as [->|].
  - by rewrite Hx.
  - rewrite Z.pow2_bits_false by lia. apply andb_false_r.
Qed.

(** Disjoint bit ranges: [a | (b << w)] is [a + b * 2^w]. *)
Lemma lor_add_shift w a b : 0 <= w → ufits w a → Z.lor a (b * 2 ^ w) = a + b * 2 ^ w.
Proof.
  intros Hw Ha. rewrite <- Z.shiftl_mul_pow2 by lia. apply lor_disjoint.
  apply Z.bits_inj'. intros i Hi.
  rewrite Z.land_spec, Z.bits_0. destruct (Z.lt_ge_cases i w).
  - rewrite Z.shiftl_spec_low by lia. apply andb_false_r.
  - apply ufits_bits in Ha as [_ Ha]; [|lia]. rewrite Ha by lia. done.
Qed.

(** Bits and masks. *)
Lemma land_le_r a b : 0 <= b → Z.land a b <= b.
Proof.
  intros Hb. rewrite Z.land_comm. rewrite <- (Z.lor_ldiff_and b a) at 2.
  rewrite lor_disjoint.
  - assert (0 <= Z.ldiff b a); [apply Z.ldiff_nonneg; lia|lia].
  - apply Z.bits_inj'. intros i _. rewrite Z.land_spec, Z.ldiff_spec, Z.land_spec, Z.bits_0.
    by destruct (Z.testbit b i), (Z.testbit a i).
Qed.

Lemma land_pow2_testbit p n : 0 <= n → (Z.land p (Z.shiftl 1 n) =? 0) = negb (Z.testbit p n).
Proof.
  intros Hn. rewrite Z.shiftl_1_l. destruct (Z.testbit p n) eqn:Hb; simpl.
  - apply Z.eqb_neq. intros H0. assert (Z.testbit (Z.land p (2 ^ n)) n = true) as H.
    { rewrite Z.land_spec, Hb, Z.pow2_bits_true by done. done. }
    by rewrite H0, Z.bits_0 in H.
  - apply Z.eqb_eq. apply Z.bits_inj'. intros i Hi.
    rewrite Z.land_spec, Z.bits_0. destruct (Z.eq_dec i n) as [->|].
    + by rewrite Hb.
    + rewrite Z.pow2_bits_false by lia. apply andb_false_r.
Qed.

Lemma testbit_top p n : 0 <= n → 0 <= p < 2 ^ (n + 1) → Z.testbit p n = (2 ^ n <=? p).
Proof.
  intros Hn Hp. rewrite Z.pow_add_r in Hp by lia.
  destruct (Z.leb_spec (2 ^ n) p).
  - apply Z.testbit_true; [lia|]. replace (p / 2 ^ n) with 1; [done|].
    apply Z.div_unique with (r := p - 2 ^ n); lia.
  - apply Z.testbit_false; [lia|]. rewrite Z.div_small by lia. done.
Qed.

Lemma land_ones_mod a w : 0 <= w → Z.land a (2 ^ w - 1) = a mod 2 ^ w.
Proof. intros. by rewrite uwrap_land. Qed.

Lemma mask_high_zero a w : 0 <= w → 0 <= a < 2 ^ w → Z.land a (Z.lnot (2 ^ w - 1)) = 0.
Proof.
  intros Hw Ha. apply Z.bits_inj'. intros i Hi. rewrite Z.land_spec, Z.bits_0, Z.lnot_spec by done.
  replace (2 ^ w - 1) with (Z.ones w) by (rewrite Z.ones_equiv; lia).
  destruct (Z.lt_ge_cases i w).
  - rewrite Z.ones_spec_low by lia. apply andb_false_r.
  - apply ufits_bits in Ha as [_ Ha]; [|done]. by rewrite Ha.
Qed.

(** ** Lemmas: loops *)

Lemma for_from_S_r {S} i n f (s : S) :
  for_from i (Datatypes.S n) f s = f (i + n)%nat (for_from i n f s).
Proof.
  revert i s; induction n as [|n IH]; intros i s; simpl.
  - now rewrite Nat.add_0_r.
  - change (for_from (Datatypes.S (Datatypes.S i)) n f (f (Datatypes.S i) (f i s)))
      with (for_from (Datatypes.S i) (Datatypes.S n) f (f i s)).
    rewrite IH. simpl. f_equal. lia.
Qed.

Lemma for_upto_S {S} n f (s : S) :
  for_upto (Datatypes.S n) f s = f n (for_upto n f s).
Proof. unfold for_upto. now rewrite for_from_S_r. Qed.

(** The invariant rule for counted loops. *)
Lemma for_upto_ind {S} (P : nat → S → Prop) n f s :
  P O s →
  (∀ i t, (i < n)%nat → P i t → P (Datatypes.S i) (f i t)) →
  P n (for_upto n f s).
Proof.
  induction n as [|n IH]; intros H0 HS; [done|].
  rewrite for_upto_S. apply HS; [lia|]. apply IH; [done|].
  intros; apply HS; [lia|done].
Qed.

(** Termination of [while] by a measure, with its invariant. *)
Lemma while_total {S} (P : S → Prop) (m : S → nat) fuel c f s :
  P s → (m s <= fuel)%nat →
  (∀ t, P t → c t = true → P (f t) ∧ (m (f t) < m t)%nat) →
  ∃ t, while fuel c f s = Some t ∧ P t ∧ c t = false.
Proof.
  revert s; induction fuel as [|n IH]; intros s HP Hm Hstep; simpl;
    destruct (c s) eqn:Hc; eauto.
  - destruct (Hstep s HP Hc). lia.
  - destruct (Hstep s HP Hc). apply IH; auto. lia.
Qed.

(** ** Lemmas: digit sequences *)

Lemma digits_val_nonneg w l : 0 <= w → digits_ok w l → 0 <= digits_val w l.
Proof.
  intros Hw. induction 1 as [|d l [Hd _] _ IH]; simpl; [lia|].
  pose proof (pow2_pos w Hw). nia.
Qed.

Lemma digits_val_bound w l :
  0 <= w → digits_ok w l → 0 <= digits_val w l < 2 ^ (w * Z.of_nat (length l)).
Proof.
  intros Hw. induction 1 as [|d l [Hd Hd'] _ IH]; cbn [digits_val length].
  - rewrite Z.mul_0_r. simpl; lia.
  - rewrite Nat2Z.inj_succ, Z.mul_succ_r, Z.pow_add_r by lia.
    pose proof (pow2_pos w Hw). nia.
Qed.

Lemma digits_val_app w l1 l2 :
  0 <= w →
  digits_val w (l1 ++ l2)
  = digits_val w l1 + 2 ^ (w * Z.of_nat (length l1)) * digits_val w l2.
Proof.
  intros Hw. induction l1 as [|d l1 IH]; cbn [digits_val length app].
  - rewrite Z.mul_0_r. change (2 ^ 0) with 1. lia.
  - rewrite IH, Nat2Z.inj_succ, Z.mul_succ_r, (Z.add_comm _ w), Z.pow_add_r by lia.
    ring.
Qed.

Lemma digits_of_length w n z : length (digits_of w n z) = n.
Proof. revert z; induction n as [|n IH]; intros; simpl; auto. Qed.

Lemma digits_of_ok w n z : 0 <= w → digits_ok w (digits_of w n z).
Proof.
  intros Hw. revert z; induction n as [|n IH]; intros z; constructor; [|apply IH].
  apply Z.mod_pos_bound, pow2_pos; lia.
Qed.

Lemma digits_val_of w n z :
  0 <= w → digits_val w (digits_of w n z) = z mod 2 ^ (w * Z.of_nat n).
Proof.
  intros Hw. revert z; induction n as [|n IH]; intros z; cbn [digits_of digits_val].
  - rewrite Z.mul_0_r. now rewrite Z.mod_1_r.
  - rewrite IH, Nat2Z.inj_succ, Z.mul_succ_r, (Z.add_comm _ w), Z.pow_add_r by lia.
    pose proof (pow2_pos w Hw).
    pose proof (pow2_pos (w * Z.of_nat n) ltac:(lia)).
    rewrite Z.rem_mul_r by lia. lia.
Qed.

Lemma digits_of_val w l :
  0 <= w → digits_ok w l → digits_of w (length l) (digits_val w l) = l.
Proof.
  intros Hw. induction 1 as [|d l [Hd Hd'] _ IH]; cbn [digits_of digits_val length]; [done|].
  pose proof (pow2_pos w Hw).
  rewrite Z.mul_comm, Z.mod_add by lia. rewrite Z.mod_small by lia.
  rewrite Z.div_add by lia. rewrite Z.div_small by lia. now rewrite Z.add_0_l, IH.
Qed.

Lemma digits_val_inj w l1 l2 :
  0 <= w → digits_ok w l1 → digits_ok w l2 → length l1 = length l2 →
  digits_val w l1 = digits_val w l2 → l1 = l2.
Proof.
  intros Hw H1 H2 Hlen Hv.
  rewrite <- (digits_of_val w l1), <- (digits_of_val w l2) by done. congruence.
Qed.

Lemma digits_nth_ok w l i : 0 <= w → digits_ok w l → ufits w (nth i l 0).
Proof.
  intros Hw Hl. destruct (nth_in_or_default i l 0) as [Hin| ->]; [|by apply ufits_0].
  unfold digits_ok in Hl. rewrite List.Forall_forall in Hl. auto.
Qed.

Lemma digits_insert_ok w l i x : digits_ok w l → ufits w x → digits_ok w (<[i:=x]> l).
Proof. intros. by apply Forall_insert. Qed.

Lemma nth_insert_eq {A} (d : A) l i x : (i < length l)%nat → nth i (<[i:=x]> l) d = x.
Proof.
  intros H. rewrite nth_lookup, list_lookup_insert_eq by done. done.
Qed.

Lemma nth_insert_ne {A} (d : A) l i j x : i ≠ j → nth j (<[i:=x]> l) d = nth j l d.
Proof. intros H. rewrite !nth_lookup, list_lookup_insert_ne by done. done. Qed.

Lemma digits_val_insert w l i x :
  0 <= w → (i < length l)%nat →
  digits_val w (<[i:=x]> l) = digits_val w l + (x - nth i l 0) * 2 ^ (w * Z.of_nat i).
Proof.
  intros Hw. revert i; induction l as [|d l IH]; intros i Hi; simpl in Hi; [lia|].
  destruct i as [|i]; cbn [insert list_insert digits_val nth].
  - rewrite Z.mul_0_r. change (2 ^ 0) with 1. lia.
  - rewrite IH by lia. rewrite Nat2Z.inj_succ, Z.mul_succ_r, (Z.add_comm _ w), Z.pow_add_r by lia.
    ring.
Qed.

Lemma digits_val_take_S w l i :
  0 <= w → (i < length l)%nat →
  digits_val w (take (S i) l)
  = digits_val w (take i l) + nth i l 0 * 2 ^ (w * Z.of_nat i).
Proof.
  intros Hw. revert i; induction l as [|d l IH]; intros i Hi; simpl in Hi; [lia|].
  destruct i as [|i]; cbn [take digits_val nth].
  - change (Z.of_nat 0) with 0. rewrite !Z.mul_0_r. change (2 ^ 0) with 1. lia.
  - rewrite (IH i) by lia. rewrite Nat2Z.inj_succ, Z.mul_succ_r, (Z.add_comm _ w), Z.pow_add_r by lia.
    ring.
Qed.

Lemma digits_val_replicate0 w n : digits_val w (replicate n 0) = 0.
Proof. induction n as [|n IH]; simpl; lia. Qed.

Lemma digits_of_nth w n z i :
  0 <= w → (i < n)%nat → nth i (digits_of w n z) 0 = (z / 2 ^ (w * Z.of_nat i)) mod 2 ^ w.
Proof.
  intros Hw. revert z i; induction n as [|n IH]; intros z i Hi; [lia|].
  destruct i as [|i]; cbn [digits_of nth].
  - rewrite Z.mul_0_r. now rewrite Z.div_1_r.
  - rewrite IH by lia. rewrite Nat2Z.inj_succ, Z.mul_succ_r, (Z.add_comm _ w), Z.pow_add_r by lia.
    rewrite Z.div_div; [done|apply Z.pow_nonzero; lia|apply pow2_pos; lia].
Qed.

Lemma list_eq_nth {A} (d : A) l1 l2 :
  length l1 = length l2 → (∀ i, (i < length l1)%nat → nth i l1 d = nth i l2 d) → l1 = l2.
Proof. intros Hl H. by apply (List.nth_ext l1 l2 d d). Qed.

#[export] Hint Resolve digits_insert_ok : phi.
#[export] Hint Resolve uwrap_range uwrap_id digits_of_ok ufits_0 : phi.
