(* ===== verification/Serialize.v ===== *)
(** * Serialization: src/src/serialize.h, streams.h and crypto/common.h

    An output stream is the list of the bytes written to it; an input stream
    is the list of the bytes left to read, and a reader returns the object and
    what is left, or the exception it throws.  [CDataStream]'s 32-bit read
    position does not wrap for buffers below 4 GiB, and sizes read from a
    stream are bounded by [MAX_SIZE], so positions are natural numbers here.

    The class [Serial] is the contract of a serializable type: what [>>] reads
    back is what [<<] wrote.  Instances are given for the integers, vectors,
    pairs and 256-bit blobs that the other components are made of. *)

From S2P Require Import Prelude.

(** ** crypto/common.h: fixed-width words in memory (on any host) *)

Definition ReadLE16 (ptr : list Z) : Z := digits_val 8 (take 2 ptr).
Definition ReadLE32 (ptr : list Z) : Z := digits_val 8 (take 4 ptr).
Definition ReadLE64 (ptr : list Z) : Z := digits_val 8 (take 8 ptr).
Definition WriteLE16 (x : Z) : list Z := digits_of 8 2 x.
Definition WriteLE32 (x : Z) : list Z := digits_of 8 4 x.
Definition WriteLE64 (x : Z) : list Z := digits_of 8 8 x.
Definition ReadBE32 (ptr : list Z) : Z := digits_val 8 (rev (take 4 ptr)).
Definition ReadBE64 (ptr : list Z) : Z := digits_val 8 (rev (take 8 ptr)).
Definition WriteBE32 (x : Z) : list Z := rev (digits_of 8 4 x).
Definition WriteBE64 (x : Z) : list Z := rev (digits_of 8 8 x).

(** [while (x) { x >>= 1; ++ret; }] *)
Fixpoint CountBits_loop (fuel : nat) (x ret : Z) : Z :=
  match fuel with
  | O => ret
  | S n => if x =? 0 then ret else CountBits_loop n (Z.shiftr x 1) (ret + 1)
  end.
Definition CountBits (x : Z) : Z := CountBits_loop 64 x 0.

(** ** Streams *)

Inductive ser_error :=
| EndOfData            (* CDataStream::read(): end of data *)
| NegativeIgnore       (* CDataStream::ignore(): nSize negative *)
| NonCanonicalSize     (* non-canonical ReadCompactSize() *)
| SizeTooLarge         (* ReadCompactSize(): size too large *)
| VarIntTooLarge       (* ReadVarInt(): size too large *)
| UnknownTxData        (* Unknown transaction optional data *)
| StringTooLong.       (* String length limit exceeded *)

Definition reader (A : Type) : Type := list Z → result ser_error (A * list Z).

Definition rret {A} (a : A) : reader A := fun s => Ok (a, s).
Definition rfail {A} (e : ser_error) : reader A := fun _ => Err e.
Definition rseq {A B} (r : reader A) (k : A → reader B) : reader B :=
  fun s => let? (a, s') := r s in k a s'.

Notation "x <-- r ;; k" := (rseq r (fun x => k))
  (at level 100, r at next level, right associativity) : code_scope.

(** [CDataStream::read] *)
Definition stream_read (nSize : nat) : reader (list Z) := fun s =>
  if (nSize =? 0)%nat then Ok ([], s)
  else if (length s <? nSize)%nat then Err EndOfData
  else Ok (take nSize s, drop nSize s).

(** [CDataStream::ignore] *)
Definition stream_ignore (nSize : Z) : reader unit := fun s =>
  if nSize <? 0 then Err NegativeIgnore
  else if Z.of_nat (length s) <? nSize then Err EndOfData
  else Ok (tt, drop (Z.to_nat nSize) s).

(** ** Lowest-level words *)

Definition ser_writedata8 (obj : Z) : list Z := [u8 obj].
Definition ser_writedata16 (obj : Z) : list Z := WriteLE16 (u16 obj).
Definition ser_writedata32 (obj : Z) : list Z := WriteLE32 (u32 obj).
Definition ser_writedata32be (obj : Z) : list Z := WriteBE32 (u32 obj).
Definition ser_writedata64 (obj : Z) : list Z := WriteLE64 (u64 obj).

Definition ser_readdata8 : reader Z :=
  b <-- stream_read 1 ;; rret (digits_val 8 b).
Definition ser_readdata16 : reader Z :=
  b <-- stream_read 2 ;; rret (ReadLE16 b).
Definition ser_readdata32 : reader Z :=
  b <-- stream_read 4 ;; rret (ReadLE32 b).
Definition ser_readdata32be : reader Z :=
  b <-- stream_read 4 ;; rret (ReadBE32 b).
Definition ser_readdata64 : reader Z :=
  b <-- stream_read 8 ;; rret (ReadLE64 b).

(** ** Compact sizes *)

Definition MAX_SIZE : Z := 0x02000000.

Definition GetSizeOfCompactSize (nSize : Z) : Z :=
  if nSize <? 253 then 1
  else if nSize <=? 0xffff then 1 + 2
  else if nSize <=? 0xffffffff then 1 + 4
  else 1 + 8.

Definition WriteCompactSize (nSize : Z) : list Z :=
  if nSize <? 253 then ser_writedata8 nSize
  else if nSize <=? 0xffff then ser_writedata8 253 ++ ser_writedata16 nSize
  else if nSize <=? 0xffffffff then ser_writedata8 254 ++ ser_writedata32 nSize
  else ser_writedata8 255 ++ ser_writedata64 nSize.

Definition ReadCompactSize : reader Z :=
  chSize <-- ser_readdata8 ;;
  nSizeRet <--
    (if chSize <? 253 then rret chSize
     else if chSize =? 253 then
       n <-- ser_readdata16 ;; if n <? 253 then rfail NonCanonicalSize else rret n
     else if chSize =? 254 then
       n <-- ser_readdata32 ;; if n <? 0x10000 then rfail NonCanonicalSize else rret n
     else
       n <-- ser_readdata64 ;; if n <? 0x100000000 then rfail NonCanonicalSize else rret n) ;;
  if nSizeRet >? MAX_SIZE then rfail SizeTooLarge else rret nSizeRet.

(** ** Variable-length integers of an unsigned type with [w] bits *)

Fixpoint GetSizeOfVarInt_loop (fuel : nat) (n nRet : Z) : Z :=
  match fuel with
  | O => nRet
  | S f => let nRet := nRet + 1 in
           if n <=? 0x7F then nRet
           else GetSizeOfVarInt_loop f (Z.shiftr n 7 - 1) nRet
  end.

(** The loop of [WriteVarInt] fills [tmp] from index 0; the bytes are written
    from the last one back, so each new byte goes in front of [tmp].  [room]
    is the number of free slots of the array, and [None] a write past it. *)
Fixpoint WriteVarInt_loop (room : nat) (n : Z) (tmp : list Z) : option (list Z) :=
  match room with
  | O => None
  | S r =>
      let tmp' := Z.lor (Z.land n 0x7F) (match tmp with [] => 0x00 | _ => 0x80 end) :: tmp in
      if n <=? 0x7F then Some tmp'
      else WriteVarInt_loop r (Z.shiftr n 7 - 1) tmp'
  end.

(** [unsigned char tmp[(sizeof(n)*8+6)/7]] *)
Definition varint_slots (w : Z) : nat := Z.to_nat ((w + 6) / 7).
Definition WriteVarInt (w n : Z) : option (list Z) := WriteVarInt_loop (varint_slots w) n [].
Definition GetSizeOfVarInt (w n : Z) : Z := GetSizeOfVarInt_loop (varint_slots w) n 0.

(** One iteration reads one byte, so the loop recurses on the stream. *)
Fixpoint ReadVarInt_loop (w n : Z) (s : list Z) : result ser_error (Z * list Z) :=
  match s with
  | [] => Err EndOfData
  | chData :: s' =>
      let imax := 2 ^ w - 1 in
      if n >? Z.shiftr imax 7 then Err VarIntTooLarge
      else
        let n := Z.lor (Z.shiftl n 7) (Z.land chData 0x7F) in
        if negb (Z.land chData 0x80 =? 0) then
          if n =? imax then Err VarIntTooLarge
          else ReadVarInt_loop w (n + 1) s'
        else Ok (n, s')
  end.
Definition ReadVarInt (w : Z) : reader Z := ReadVarInt_loop w 0.

(** ** Blobs, strings and vectors *)

(** [std::vector<unsigned char>], [prevector] of bytes, [std::string] *)
Definition Serialize_bytes (v : list Z) : list Z :=
  WriteCompactSize (Z.of_nat (length v)) ++ v.

(** [while (i < nSize) { blk = min(nSize - i, 5000000); read; i += blk; }];
    every block has at least one byte, so [nSize] iterations are enough. *)
Fixpoint read_blocks (fuel : nat) (nSize i : Z) (v : list Z) : reader (list Z) :=
  match fuel with
  | O => rret v
  | S f =>
      if i <? nSize then
        let blk := Z.min (nSize - i) (1 + 4999999) in
        b <-- stream_read (Z.to_nat blk) ;;
        read_blocks f nSize (i + blk) (v ++ b)
      else rret v
  end.
Definition Unserialize_bytes : reader (list Z) :=
  nSize <-- ReadCompactSize ;;
  let nSize := u32 nSize in
  read_blocks (Z.to_nat nSize) nSize 0 [].

(** [LimitedString<Limit>] *)
Definition Unserialize_limited (Limit : Z) : reader (list Z) :=
  size <-- ReadCompactSize ;;
  if size >? Limit then rfail StringTooLong
  else if negb (size =? 0) then stream_read (Z.to_nat size) else rret [].

(** [std::vector<T>] for any other [T] *)
Definition Serialize_vector {A} (ser : A → list Z) (v : list A) : list Z :=
  WriteCompactSize (Z.of_nat (length v)) ++ flat_map ser v.

Fixpoint read_elements {A} (deser : reader A) (n : nat) : reader (list A) :=
  match n with
  | O => rret []
  | S n' => x <-- deser ;; xs <-- read_elements deser n' ;; rret (x :: xs)
  end.
Definition Unserialize_vector {A} (deser : reader A) : reader (list A) :=
  nSize <-- ReadCompactSize ;;
  read_elements deser (Z.to_nat (u32 nSize)).

(** ** The contract of serializable types *)

Class Serial (A : Type) := {
  ser : A → list Z;
  deser : reader A;
  ser_ok : A → Prop;
  ser_deser : ∀ a rest, ser_ok a → deser (ser a ++ rest) = Ok (a, rest)
}.

(** ** Lemmas: words *)

Lemma bytes_digits l : bytes_ok l ↔ digits_ok 8 l.
Proof. done. Qed.

Lemma bytes_ok_app l1 l2 : bytes_ok (l1 ++ l2) ↔ bytes_ok l1 ∧ bytes_ok l2.
Proof. apply Forall_app. Qed.

Lemma stream_read_app n b rest : length b = n → stream_read n (b ++ rest) = Ok (b, rest).
Proof.
  intros <-. unfold stream_read. destruct (Nat.eqb_spec (length b) 0).
  - by destruct b.
  - rewrite length_app. destruct (Nat.ltb_spec (length b + length rest) (length b)); [lia|].
    by rewrite take_app_length, drop_app_length.
Qed.

Lemma stream_read_inv n s b rest : stream_read n s = Ok (b, rest) → s = b ++ rest ∧ length b = n.
Proof.
  unfold stream_read. destruct (Nat.eqb_spec n 0) as [->|]; [by intros [= <- <-]|].
  destruct (Nat.ltb_spec (length s) n); [done|]. intros [= <- <-].
  by rewrite take_drop, length_take_le.
Qed.

Lemma rseq_ok {A B} (r : reader A) (k : A → reader B) s a s' :
  r s = Ok (a, s') → rseq r k s = k a s'.
Proof. intros H. unfold rseq. by rewrite H. Qed.

Lemma rseq_inv {A B} (r : reader A) (k : A → reader B) s y :
  rseq r k s = Ok y → ∃ a s', r s = Ok (a, s') ∧ k a s' = Ok y.
Proof. unfold rseq. destruct (r s) as [[a s']|]; simpl; [eauto|done]. Qed.

(** A word of [n] bytes: what is read is what was written, and only those
    bytes are read as it. *)
Lemma word_roundtrip n x rest : ufits (8 * Z.of_nat n) x →
  (b <-- stream_read n ;; rret (digits_val 8 (take n b))) (digits_of 8 n x ++ rest) = Ok (x, rest).
Proof.
  intros Hx. erewrite rseq_ok by (apply stream_read_app, digits_of_length).
  unfold rret. rewrite firstn_all2 by (by rewrite digits_of_length).
  by rewrite digits_val_of, Z.mod_small by (lia || done).
Qed.

Lemma word_canonical n s x rest : bytes_ok s →
  (b <-- stream_read n ;; rret (digits_val 8 (take n b))) s = Ok (x, rest) →
  s = digits_of 8 n x ++ rest ∧ ufits (8 * Z.of_nat n) x.
Proof.
  intros Hs H. apply rseq_inv in H as (b & s' & Hb & [= <- <-]).
  apply stream_read_inv in Hb as [-> <-]. apply bytes_ok_app in Hs as [Hb _].
  rewrite firstn_all2 by lia. rewrite digits_of_val by done.
  split; [done|]. by apply digits_val_bound.
Qed.

Lemma ser_readdata8_eq s :
  ser_readdata8 s = (b <-- stream_read 1 ;; rret (digits_val 8 (take 1 b))) s.
Proof.
  unfold ser_readdata8, rseq, rret. destruct (stream_read 1 s) as [[b r]|] eqn:H; [|done].
  apply stream_read_inv in H as [_ H]. simpl. by rewrite firstn_all2 by lia.
Qed.

Lemma readdata8_write x rest : ufits 8 x →
  ser_readdata8 (ser_writedata8 x ++ rest) = Ok (x, rest).
Proof.
  intros Hx. rewrite ser_readdata8_eq. unfold ser_writedata8, u8. rewrite uwrap_id by done.
  rewrite <- (word_roundtrip 1 x rest) by done. cbn [digits_of]. by rewrite Z.mod_small.
Qed.

Lemma readdata16_write x rest : ufits 16 x →
  ser_readdata16 (ser_writedata16 x ++ rest) = Ok (x, rest).
Proof.
  intros Hx. unfold ser_writedata16, u16. rewrite uwrap_id by done. by apply (word_roundtrip 2).
Qed.

Lemma readdata32_write x rest : ufits 32 x →
  ser_readdata32 (ser_writedata32 x ++ rest) = Ok (x, rest).
Proof.
  intros Hx. unfold ser_writedata32, u32. rewrite uwrap_id by done. by apply (word_roundtrip 4).
Qed.

Lemma readdata64_write x rest : ufits 64 x →
  ser_readdata64 (ser_writedata64 x ++ rest) = Ok (x, rest).
Proof.
  intros Hx. unfold ser_writedata64, u64. rewrite uwrap_id by done. by apply (word_roundtrip 8).
Qed.

Lemma readdata8_inv s x rest : bytes_ok s → ser_readdata8 s = Ok (x, rest) →
  s = ser_writedata8 x ++ rest ∧ ufits 8 x.
Proof.
  intros Hs H. rewrite ser_readdata8_eq in H. apply (word_canonical 1) in H as [-> Hx]; [|done].
  split; [|done]. by unfold ser_writedata8, u8, uwrap.
Qed.

Lemma readdata16_inv s x rest : bytes_ok s → ser_readdata16 s = Ok (x, rest) →
  s = ser_writedata16 x ++ rest ∧ ufits 16 x.
Proof.
  intros Hs H. apply (word_canonical 2) in H as [-> Hx]; [|done].
  split; [|done]. unfold ser_writedata16, u16. by rewrite uwrap_id.
Qed.

Lemma readdata32_inv s x rest : bytes_ok s → ser_readdata32 s = Ok (x, rest) →
  s = ser_writedata32 x ++ rest ∧ ufits 32 x.
Proof.
  intros Hs H. apply (word_canonical 4) in H as [-> Hx]; [|done].
  split; [|done]. unfold ser_writedata32, u32. by rewrite uwrap_id.
Qed.

Lemma readdata64_inv s x rest : bytes_ok s → ser_readdata64 s = Ok (x, rest) →
  s = ser_writedata64 x ++ rest ∧ ufits 64 x.
Proof.
  intros Hs H. apply (word_canonical 8) in H as [-> Hx]; [|done].
  split; [|done]. unfold ser_writedata64, u64. by rewrite uwrap_id.
Qed.

Lemma rseq_assoc {A B C} (r : reader A) (k : A → reader B) (l : B → reader C) s :
  rseq (rseq r k) l s = rseq r (fun a => rseq (k a) l) s.
Proof. unfold rseq. by destruct (r s) as [[a s']|]. Qed.

Lemma rseq_ret {A B} (a : A) (k : A → reader B) s : rseq (rret a) k s = k a s.
Proof. done. Qed.

(** ** Lemmas: compact sizes *)

(** Reading back any 64-bit size that was written: it is returned when the
    limit allows it and refused otherwise. *)
Lemma ReadCompactSize_write n rest : ufits 64 n →
  ReadCompactSize (WriteCompactSize n ++ rest)
  = if n >? MAX_SIZE then Err SizeTooLarge else Ok (n, rest).
Proof.
  intros Hn. unfold WriteCompactSize, ReadCompactSize.
  destruct (Z.ltb_spec n 253) as [H1|H1]; [|destruct (Z.leb_spec n 0xffff) as [H2|H2];
    [|destruct (Z.leb_spec n 0xffffffff) as [H3|H3]]]; rewrite <- ?app_assoc;
    erewrite rseq_ok by (apply readdata8_write; unfold ufits in *; lia); cbn [Z.ltb Z.eqb Z.compare Pos.compare Pos.compare_cont Pos.eqb].
  - rewrite (proj2 (Z.ltb_lt n 253)) by lia. unfold rseq, rret; simpl. by destruct (n >? MAX_SIZE).
  - rewrite rseq_assoc. erewrite rseq_ok by (apply readdata16_write; unfold ufits in *; lia).
    rewrite (proj2 (Z.ltb_ge n 253)) by lia. unfold rseq, rret; simpl. by destruct (n >? MAX_SIZE).
  - rewrite rseq_assoc. erewrite rseq_ok by (apply readdata32_write; unfold ufits in *; lia).
    rewrite (proj2 (Z.ltb_ge n 0x10000)) by lia. unfold rseq, rret; simpl. by destruct (n >? MAX_SIZE).
  - rewrite rseq_assoc. erewrite rseq_ok by (by apply readdata64_write).
    rewrite (proj2 (Z.ltb_ge n 0x100000000)) by lia. unfold rseq, rret; simpl. by destruct (n >? MAX_SIZE).
Qed.

(** Only the canonical encoding of a size is accepted. *)
Lemma ReadCompactSize_inv s n rest : bytes_ok s → ReadCompactSize s = Ok (n, rest) →
  s = WriteCompactSize n ++ rest ∧ 0 <= n <= MAX_SIZE.
Proof.
  intros Hs H. unfold ReadCompactSize in H.
  apply rseq_inv in H as (ch & s1 & H1 & H). apply rseq_inv in H as (m & s2 & H2 & H).
  destruct (Z.gtb_spec m MAX_SIZE) as [|Hmax]; [done|]. injection H as <- <-.
  apply readdata8_inv in H1 as [-> Hch]; [|done]. apply bytes_ok_app in Hs as [_ Hs].
  unfold WriteCompactSize. unfold ufits in Hch.
  destruct (Z.ltb_spec ch 253) as [Hlt|Hge].
  { injection H2 as <- <-. rewrite (proj2 (Z.ltb_lt ch 253)) by lia. split; [done|lia]. }
  destruct (Z.eqb_spec ch 253) as [->|]; [|destruct (Z.eqb_spec ch 254) as [->|]];
    apply rseq_inv in H2 as (k & s3 & H2 & H3); case_all_in H3; try done;
    injection H3 as <- <-; breflect.
  - apply readdata16_inv in H2 as [-> Hk]; [|done]. unfold ufits in Hk.
    rewrite (proj2 (Z.ltb_ge k 253)), (proj2 (Z.leb_le k 0xffff)) by lia.
    rewrite <- app_assoc. split; [done|lia].
  - apply readdata32_inv in H2 as [-> Hk]; [|done]. unfold ufits in Hk.
    rewrite (proj2 (Z.ltb_ge k 253)), (proj2 (Z.leb_gt k 0xffff)), (proj2 (Z.leb_le k 0xffffffff)) by lia.
    rewrite <- app_assoc. split; [done|lia].
  - apply readdata64_inv in H2 as [-> Hk]; [|done]. unfold ufits in Hk.
    unfold MAX_SIZE in Hmax. lia.
Qed.

Lemma WriteCompactSize_length n : Z.of_nat (length (WriteCompactSize n)) = GetSizeOfCompactSize n.
Proof. unfold WriteCompactSize, GetSizeOfCompactSize. by case_all. Qed.

(** ** Lemmas: variable-length integers *)

Lemma land_7f n : Z.land n 0x7F = n mod 2 ^ 7.
Proof. change 0x7F with (2 ^ 7 - 1). by rewrite uwrap_land. Qed.

(** The byte for a group of seven bits, with and without the continuation
    flag. *)
Lemma varint_byte n (c : bool) :
  let b := Z.lor (Z.land n 0x7F) (if c then 0x80 else 0x00) in
  0 <= b < 256 ∧ Z.land b 0x7F = n mod 2 ^ 7 ∧ (Z.land b 0x80 =? 0) = negb c.
Proof.
  cbv zeta. rewrite !land_7f. pose proof (Z.mod_pos_bound n (2 ^ 7) ltac:(lia)) as Hm.
  set (m := n mod 2 ^ 7) in *. change (Z.land ?x 0x80 =? 0) with (Z.land x (Z.shiftl 1 7) =? 0).
  rewrite land_pow2_testbit by lia. destruct c.
  - change 0x80 with (1 * 2 ^ 7). rewrite lor_add_shift by (unfold ufits; lia).
    rewrite testbit_top by lia. split; [lia|]. rewrite Z.mod_add, Z.mod_small by lia.
    by rewrite (proj2 (Z.leb_le (2 ^ 7) _)) by lia.
  - rewrite Z.lor_0_r, testbit_top by lia. split; [lia|]. rewrite Z.mod_small by lia.
    by rewrite (proj2 (Z.leb_gt (2 ^ 7) _)) by lia.
Qed.

(** Shifting a group in: [(n << 7) | (b & 0x7F)]. *)
Lemma varint_shift_in n m : 0 <= n → Z.lor (Z.shiftl n 7) (m mod 2 ^ 7) = n * 2 ^ 7 + m mod 2 ^ 7.
Proof.
  intros. rewrite Z.lor_comm, Z.shiftl_mul_pow2 by lia.
  rewrite lor_add_shift; [lia|lia|]. apply Z.mod_pos_bound. lia.
Qed.

Lemma varint_rejoin n : Z.lor (Z.shiftl (Z.shiftr n 7) 7) (n mod 2 ^ 7) = n.
Proof.
  rewrite Z.lor_comm, Z.shiftl_mul_pow2, Z.shiftr_div_pow2 by lia.
  rewrite lor_add_shift; [|lia|apply Z.mod_pos_bound; lia].
  pose proof (Z.div_mod n (2 ^ 7)). lia.
Qed.

Lemma WriteVarInt_read w room n tmp out rest : 7 <= w → 0 <= n < 2 ^ w →
  (tmp = [] ∨ n < 2 ^ w - 1) → WriteVarInt_loop room n tmp = Some out →
  ReadVarInt_loop w 0 (out ++ rest)
  = match tmp with [] => Ok (n, rest) | _ => ReadVarInt_loop w (n + 1) (tmp ++ rest) end.
Proof.
  intros Hw. revert n tmp; induction room as [|r IH]; intros n tmp Hn Ht H; [done|].
  cbn [WriteVarInt_loop] in H. set (c := match tmp with [] => false | _ => true end).
  replace (match tmp with [] => 0 | _ => 128 end) with (if c then 128 else 0) in H
    by (unfold c; by destruct tmp).
  destruct (varint_byte n c) as (Hb & Hlow & Hflag).
  set (b := Z.lor (Z.land n 127) (if c then 128 else 0)) in *.
  assert (∀ acc, (acc = 0 ∧ n <= 0x7F) ∨ acc = Z.shiftr n 7 →
    ReadVarInt_loop w acc ((b :: tmp) ++ rest)
    = match tmp with [] => Ok (n, rest) | _ => ReadVarInt_loop w (n + 1) (tmp ++ rest) end) as Hstep.
  { intros acc Hacc. cbn [app ReadVarInt_loop]. rewrite Hlow, Hflag.
    assert (Z.lor (Z.shiftl acc 7) (n mod 2 ^ 7) = n) as ->.
    { destruct Hacc as [[-> ?]| ->]; [|apply varint_rejoin].
      rewrite varint_shift_in, Z.mod_small by lia. lia. }
    destruct (Z.gtb_spec acc (Z.shiftr (2 ^ w - 1) 7)) as [Hgt|_].
    { exfalso. rewrite !Z.shiftr_div_pow2 in * by lia.
      assert (n / 2 ^ 7 <= (2 ^ w - 1) / 2 ^ 7) by (apply Z.div_le_mono; lia).
      assert (0 <= n / 2 ^ 7) by (apply Z.div_pos; lia). lia. }
    unfold c. destruct tmp as [|t tmp]; cbn [negb]; [done|].
    destruct Ht as [Ht|Ht]; [done|]. by rewrite (proj2 (Z.eqb_neq n (2 ^ w - 1))) by lia. }
  destruct (Z.leb_spec n 0x7F).
  - injection H as <-. apply Hstep. by left.
  - assert (1 <= Z.shiftr n 7 /\ Z.shiftr n 7 < 2 ^ w) as [H1 H2].
    { rewrite Z.shiftr_div_pow2 by lia. split; [apply Z.div_le_lower_bound; lia|].
      apply Z.div_lt_upper_bound; lia. }
    rewrite (IH (Z.shiftr n 7 - 1) (b :: tmp)); [|lia|right; lia|done].
    rewrite Z.sub_add. apply Hstep. by right.
Qed.

Lemma WriteVarInt_total room n tmp : (0 < room)%nat → n < 2 ^ (7 * Z.of_nat room) →
  ∃ out, WriteVarInt_loop room n tmp = Some out.
Proof.
  revert n tmp; induction room as [|r IH]; intros n tmp Hr Hn; [lia|]. cbn [WriteVarInt_loop].
  destruct (Z.leb_spec n 0x7F); [eauto|]. destruct (decide (r = O)) as [->|].
  { change (2 ^ (7 * Z.of_nat 1)) with 128 in Hn. lia. }
  apply IH; [lia|]. rewrite Z.shiftr_div_pow2 by lia.
  assert (n / 2 ^ 7 < 2 ^ (7 * Z.of_nat r)); [|lia]. apply Z.div_lt_upper_bound; [lia|].
  rewrite <- Z.pow_add_r by lia. by replace (7 + 7 * Z.of_nat r) with (7 * Z.of_nat (S r)) by lia.
Qed.

Lemma varint_slots_enough w : 1 <= w → (0 < varint_slots w)%nat ∧ w <= 7 * Z.of_nat (varint_slots w).
Proof.
  intros Hw. unfold varint_slots. pose proof (Z.div_mod (w + 6) 7 ltac:(lia)).
  pose proof (Z.mod_pos_bound (w + 6) 7 ltac:(lia)). set (q := (w + 6) / 7) in *. lia.
Qed.

Lemma WriteVarInt_some w n : 1 <= w → 0 <= n < 2 ^ w → ∃ out, WriteVarInt w n = Some out.
Proof.
  intros Hw Hn. destruct (varint_slots_enough w Hw) as [Hr He].
  apply WriteVarInt_total; [done|]. apply Z.lt_le_trans with (2 ^ w); [lia|].
  by apply Z.pow_le_mono_r.
Qed.

Lemma WriteVarInt_loop_more r k n tmp out :
  WriteVarInt_loop r n tmp = Some out → WriteVarInt_loop (r + k) n tmp = Some out.
Proof.
  revert n tmp; induction r as [|r IH]; intros n tmp; cbn [WriteVarInt_loop Nat.add]; [done|].
  destruct (n <=? 127); auto.
Qed.

Lemma WriteVarInt_loop_fuel r r' n tmp out out' :
  WriteVarInt_loop r n tmp = Some out → WriteVarInt_loop r' n tmp = Some out' → out = out'.
Proof.
  intros H H'. apply (WriteVarInt_loop_more _ r') in H. apply (WriteVarInt_loop_more _ r) in H'.
  rewrite Nat.add_comm in H'. congruence.
Qed.

(** The writer, run from the number that was read, retraces the bytes. *)
Lemma ReadVarInt_loop_inv w acc s n rest : 7 <= w → bytes_ok s → 0 <= acc →
  ReadVarInt_loop w acc s = Ok (n, rest) →
  0 <= n < 2 ^ w ∧ ∃ b, b ≠ [] ∧ s = b ++ rest ∧
    ∀ r, WriteVarInt_loop (length b + r) n []
         = if acc =? 0 then Some b else WriteVarInt_loop r (acc - 1) b.
Proof.
  intros Hw Hs. revert acc; induction Hs as [|ch s Hch Hs IH]; intros acc Hacc H; [done|].
  cbn [ReadVarInt_loop] in H. destruct (Z.gtb_spec acc (Z.shiftr (2 ^ w - 1) 7)) as [|Hle]; [done|].
  rewrite land_7f, varint_shift_in in H by done.
  pose proof (Z.mod_pos_bound ch (2 ^ 7) ltac:(lia)) as Hm.
  assert (acc * 2 ^ 7 + ch mod 2 ^ 7 < 2 ^ w) as Hfit.
  { rewrite Z.shiftr_div_pow2 in Hle by lia. pose proof (Z.div_mod (2 ^ w - 1) (2 ^ 7) ltac:(lia)).
    assert ((2 ^ w - 1) mod 2 ^ 7 = 2 ^ 7 - 1).
    { replace w with ((w - 7) + 7) by lia. rewrite Z.pow_add_r by lia.
      pose proof (pow2_pos (w - 7) ltac:(lia)).
      symmetry. apply Z.mod_unique with (2 ^ (w - 7) - 1); lia. }
    lia. }
  set (k := acc * 2 ^ 7 + ch mod 2 ^ 7) in *.
  assert (0 <= k) by lia.
  assert (k mod 2 ^ 7 = ch mod 2 ^ 7) as Hkm
    by (unfold k; by rewrite Z.add_comm, Z.mod_add, Z.mod_mod by lia).
  assert (Z.shiftr k 7 = acc) as Hks.
  { rewrite Z.shiftr_div_pow2 by lia. unfold k. rewrite Z.add_comm, Z.div_add, Z.div_small; lia. }
  assert ((k <=? 0x7F) = (acc =? 0)) as Hk7.
  { destruct (Z.eqb_spec acc 0); [apply Z.leb_le|apply Z.leb_gt]; lia. }
  change (Z.land ch 128 =? 0) with (Z.land ch (Z.shiftl 1 7) =? 0) in H.
  unfold is_byte in Hch. rewrite land_pow2_testbit, negb_involutive, testbit_top in H by lia.
  destruct (Z.leb_spec (2 ^ 7) ch) as [Hc|Hc].
  - destruct (Z.eqb_spec k (2 ^ w - 1)) as [|Hne]; [done|].
    destruct (IH (k + 1) ltac:(lia) H) as (Hn & b & Hb & -> & Hwr). split; [done|].
    exists (ch :: b). split; [done|]. split; [done|]. intros r.
    replace (length (ch :: b) + r)%nat with (length b + S r)%nat by (simpl; lia).
    rewrite Hwr. rewrite (proj2 (Z.eqb_neq (k + 1) 0)) by lia. rewrite Z.add_simpl_r.
    cbn [WriteVarInt_loop]. rewrite Hk7, Hks, land_7f, Hkm.
    replace (match b with [] => 0 | _ => 128 end) with (1 * 2 ^ 7) by (by destruct b).
    rewrite lor_add_shift by (unfold ufits; lia).
    replace (ch mod 2 ^ 7 + 1 * 2 ^ 7) with ch; [by destruct (acc =? 0)|].
    rewrite <- (Z.mod_unique ch (2 ^ 7) 1 (ch - 2 ^ 7)); lia.
  - injection H as <- <-. split; [lia|]. exists [ch]. split; [done|]. split; [done|]. intros r.
    cbn [length Nat.add WriteVarInt_loop]. rewrite Hk7, Hks, land_7f, Hkm, Z.lor_0_r.
    rewrite Z.mod_small by lia. by destruct (acc =? 0).
Qed.

Lemma WriteVarInt_size room n tmp out ret : WriteVarInt_loop room n tmp = Some out →
  GetSizeOfVarInt_loop room n ret = ret + Z.of_nat (length out) - Z.of_nat (length tmp).
Proof.
  revert n tmp ret; induction room as [|r IH]; intros n tmp ret H; [done|].
  cbn [WriteVarInt_loop GetSizeOfVarInt_loop] in *. destruct (n <=? 127).
  - injection H as <-. cbn [length]. lia.
  - rewrite (IH _ _ _ H). cbn [length]. lia.
Qed.

(** ** Lemmas: blobs and vectors *)

Lemma stream_read_exact n s : (n <= length s)%nat → stream_read n s = Ok (take n s, drop n s).
Proof.
  intros. unfold stream_read. destruct (Nat.eqb_spec n 0) as [->|]; [done|].
  destruct (Nat.ltb_spec (length s) n); [lia|done].
Qed.

Lemma read_blocks_spec fuel nSize i v s :
  0 <= i <= nSize → nSize - i <= Z.of_nat fuel → nSize - i <= Z.of_nat (length s) →
  read_blocks fuel nSize i v s
  = Ok (v ++ take (Z.to_nat (nSize - i)) s, drop (Z.to_nat (nSize - i)) s).
Proof.
  revert i v s; induction fuel as [|f IH]; intros i v s Hi Hf Hs.
  { replace (nSize - i) with 0 by lia. cbn. unfold rret. by rewrite app_nil_r. }
  cbn [read_blocks]. destruct (Z.ltb_spec i nSize).
  - set (blk := Z.min (nSize - i) (1 + 4999999)).
    erewrite rseq_ok by (apply stream_read_exact; lia).
    rewrite IH by (rewrite ?length_drop; lia).
    replace (Z.to_nat (nSize - i)) with (Z.to_nat blk + Z.to_nat (nSize - (i + blk)))%nat by lia.
    rewrite drop_drop, <- app_assoc. f_equal. f_equal. f_equal.
    rewrite <- (take_drop (Z.to_nat blk) (take (Z.to_nat blk + _) s)).
    rewrite take_take, skipn_firstn_comm. f_equal; f_equal; lia.
  - replace (nSize - i) with 0 by lia. cbn. unfold rret. by rewrite app_nil_r.
Qed.

Lemma Unserialize_bytes_write v rest : Z.of_nat (length v) <= MAX_SIZE →
  Unserialize_bytes (Serialize_bytes v ++ rest) = Ok (v, rest).
Proof.
  intros Hv. unfold Unserialize_bytes, Serialize_bytes. rewrite <- app_assoc.
  unfold MAX_SIZE in Hv.
  erewrite rseq_ok; cycle 1.
  { rewrite ReadCompactSize_write by (unfold ufits; lia).
    by rewrite Z.gtb_ltb, (proj2 (Z.ltb_ge MAX_SIZE _)) by (unfold MAX_SIZE; lia). }
  cbv zeta. unfold u32. rewrite uwrap_id by (unfold ufits; lia).
  rewrite read_blocks_spec by (rewrite ?length_app; lia).
  rewrite Z.sub_0_r, Nat2Z.id, take_app_length, drop_app_length. done.
Qed.

Lemma read_elements_write {A} (ser : A → list Z) (deser : reader A) v rest :
  (∀ x r, x ∈ v → deser (ser x ++ r) = Ok (x, r)) →
  read_elements deser (length v) (flat_map ser v ++ rest) = Ok (v, rest).
Proof.
  induction v as [|x v IH]; intros H; cbn [read_elements flat_map length]; [done|].
  rewrite <- app_assoc. erewrite rseq_ok by (apply H; left).
  erewrite rseq_ok by (apply IH; intros; apply H; by right). done.
Qed.

Lemma Unserialize_vector_write {A} (ser : A → list Z) (deser : reader A) v rest :
  Z.of_nat (length v) <= MAX_SIZE →
  (∀ x r, x ∈ v → deser (ser x ++ r) = Ok (x, r)) →
  Unserialize_vector deser (Serialize_vector ser v ++ rest) = Ok (v, rest).
Proof.
  intros Hv H. unfold Unserialize_vector, Serialize_vector. rewrite <- app_assoc.
  unfold MAX_SIZE in Hv.
  erewrite rseq_ok; cycle 1.
  { rewrite ReadCompactSize_write by (unfold ufits; lia).
    by rewrite Z.gtb_ltb, (proj2 (Z.ltb_ge MAX_SIZE _)) by (unfold MAX_SIZE; lia). }
  unfold u32. rewrite uwrap_id by (unfold ufits; lia). rewrite Nat2Z.id.
  by apply read_elements_write.
Qed.

(** Signed words are cast to the unsigned type and back. *)
Definition ser_int32 (x : Z) : list Z := ser_writedata32 x.
Definition deser_int32 : reader Z := x <-- ser_readdata32 ;; rret (i32 x).
Definition ser_int64 (x : Z) : list Z := ser_writedata64 x.
Definition deser_int64 : reader Z := x <-- ser_readdata64 ;; rret (i64 x).

Lemma swrap_uwrap w x : 0 < w → sfits w x → swrap w (uwrap w x) = x.
Proof.
  intros Hw Hx. rewrite <- (swrap_id w x) at 2 by done. unfold swrap, uwrap.
  f_equal. by rewrite Z.add_mod_idemp_l by (apply Z.pow_nonzero; lia).
Qed.

Lemma deser_int32_write x rest : sfits 32 x → deser_int32 (ser_int32 x ++ rest) = Ok (x, rest).
Proof.
  intros Hx. unfold deser_int32, ser_int32, ser_writedata32, u32.
  assert (WriteLE32 (uwrap 32 x) = ser_writedata32 (uwrap 32 x)) as ->
    by (unfold ser_writedata32, u32; by rewrite (uwrap_id 32 (uwrap 32 x)) by (by apply uwrap_range)).
  erewrite rseq_ok by (apply readdata32_write; by apply uwrap_range).
  unfold rret, i32. by rewrite swrap_uwrap.
Qed.

Lemma deser_int64_write x rest : sfits 64 x → deser_int64 (ser_int64 x ++ rest) = Ok (x, rest).
Proof.
  intros Hx. unfold deser_int64, ser_int64, ser_writedata64, u64.
  assert (WriteLE64 (uwrap 64 x) = ser_writedata64 (uwrap 64 x)) as ->
    by (unfold ser_writedata64, u64; by rewrite (uwrap_id 64 (uwrap 64 x)) by (by apply uwrap_range)).
  erewrite rseq_ok by (apply readdata64_write; by apply uwrap_range).
  unfold rret, i64. by rewrite swrap_uwrap.
Qed.

#[global] Hint Resolve readdata8_write readdata16_write readdata32_write readdata64_write
  deser_int32_write deser_int64_write Unserialize_bytes_write : phi.

(** Run a reader on what the matching writers produced. *)
Ltac read_step :=
  first [ erewrite rseq_ok by (solve [eauto with phi nocore | apply stream_read_app; eauto | apply ser_deser; eauto])
        | match goal with |- rseq (rseq _ _) _ _ = _ => rewrite rseq_assoc end ].
Ltac read_all := repeat (rewrite <- ?app_assoc; read_step); unfold rret.

(** ** Properties *)

(** Variable-length integers of an unsigned type of [w >= 7] bits. *)
Lemma varint_codec w : 7 <= w →
  (∀ n rest, ufits w n → ∃ out, WriteVarInt w n = Some out ∧
      ReadVarInt w (out ++ rest) = Ok (n, rest) ∧
      GetSizeOfVarInt w n = Z.of_nat (length out)) ∧
  (∀ s n rest, bytes_ok s → ReadVarInt w s = Ok (n, rest) →
      ufits w n ∧ ∃ out, WriteVarInt w n = Some out ∧ s = out ++ rest).
Proof.
  intros Hw. split.
  - intros n rest Hn. destruct (WriteVarInt_some w n ltac:(lia) Hn) as [out Ho].
    exists out. split; [done|]. split.
    + unfold ReadVarInt. rewrite (WriteVarInt_read w (varint_slots w) n [] out rest); auto.
    + unfold GetSizeOfVarInt. rewrite (WriteVarInt_size _ _ _ _ 0 Ho). simpl. lia.
  - intros s n rest Hs H.
    destruct (ReadVarInt_loop_inv w 0 s n rest Hw Hs ltac:(lia) H) as (Hn & b & _ & -> & Hwr).
    split; [done|]. destruct (WriteVarInt_some w n ltac:(lia) Hn) as [out Ho].
    exists out. split; [done|]. f_equal. symmetry.
    exact (WriteVarInt_loop_fuel _ _ _ _ _ _ Ho (Hwr 0%nat)).
Qed.

(** The two encodings of integers.  Compact sizes: every 64-bit size that is
    written is read back, unless it exceeds [MAX_SIZE], when reading it fails;
    and a size that is accepted from arbitrary input was written in its one
    canonical form, so no two byte strings denote the same size.
    Variable-length integers of an unsigned type of 7 bits or more: the fixed
    temporary array always has room, reading what was written returns the
    number, [GetSizeOfVarInt] is the length written, and whatever is read
    successfully from arbitrary bytes is the unique encoding of a number that
    fits the type ("every integer has exactly one encoding"). *)
Theorem integer_encodings_canonical :
  (∀ n rest, ufits 64 n →
     ReadCompactSize (WriteCompactSize n ++ rest)
       = (if n >? MAX_SIZE then Err SizeTooLarge else Ok (n, rest)) ∧
     Z.of_nat (length (WriteCompactSize n)) = GetSizeOfCompactSize n) ∧
  (∀ s m rest, bytes_ok s → ReadCompactSize s = Ok (m, rest) →
     s = WriteCompactSize m ++ rest ∧ 0 <= m <= MAX_SIZE) ∧
  (∀ w n rest, 7 <= w → ufits w n → ∃ out, WriteVarInt w n = Some out ∧
      ReadVarInt w (out ++ rest) = Ok (n, rest) ∧
      GetSizeOfVarInt w n = Z.of_nat (length out)) ∧
  (∀ w s n rest, 7 <= w → bytes_ok s → ReadVarInt w s = Ok (n, rest) →
      ufits w n ∧ ∃ out, WriteVarInt w n = Some out ∧ s = out ++ rest).
Proof.
  split; [|split; [exact ReadCompactSize_inv|]].
  - intros n rest Hn. split; [by apply ReadCompactSize_write|apply WriteCompactSize_length].
  - split; intros w; intros; by eapply (varint_codec w).
Qed.

Lemma integer_encodings_canonical_witness :
  ReadCompactSize (WriteCompactSize 70000 ++ [7]) = Ok (70000, [7]) ∧
  [253; 253; 0; 9] = WriteCompactSize 253 ++ [9] ∧
  (∃ out, WriteVarInt 32 65535 = Some out ∧ ReadVarInt 32 (out ++ [1]) = Ok (65535, [1]) ∧
    GetSizeOfVarInt 32 65535 = Z.of_nat (length out)).
Proof.
  destruct integer_encodings_canonical as (H1 & H2 & H3 & _). split; [|split].
  - apply (H1 70000 [7]). vm_compute; split; congruence.
  - apply (H2 [253; 253; 0; 9] 253 [9]); [repeat constructor; lia|reflexivity].
  - apply (H3 32 65535 [1] ltac:(lia)). vm_compute; split; congruence.
Defined.
