(* ===== verification/ArithUint256.v ===== *)
(** * 256-bit unsigned integers: src/src/arith_uint256.h and arith_uint256.cpp

    [base_uint<256>] is an array [pn] of eight 32-bit limbs, least significant
    first; here it is a list of eight [Z].  Every operator is the loop of the
    source over the limbs, with the 64-bit intermediate values and the
    truncations written out.  The lemmas show that each operator computes the
    expected function of the number the limbs stand for, modulo [2^256]. *)

From S2P Require Import Prelude.

Module base_uint.

Definition WIDTH : nat := 8.
Abbreviation uint := (list Z).

(** Reading [pn[i]]; the source never leaves the array. *)
Notation "pn .[ i ]" := (nth i pn 0) (at level 2, left associativity, format "pn .[ i ]").

Definition zero : uint := replicate WIDTH 0.

(** [base_uint(uint64_t b)] and [operator=(uint64_t b)] *)
Definition of_u64 (b : Z) : uint :=
  <[1%nat := u32 (Z.shiftr b 32)]> (<[0%nat := u32 b]> zero).

Definition is_null (pn : uint) : bool := forallb (fun d => d =? 0) pn.

Definition compl (pn : uint) : uint := map (fun d => u32 (Z.lnot d)) pn.

(** [while (i < WIDTH && ++pn[i] == 0) i++;] *)
Fixpoint incr (pn : uint) : uint :=
  match pn with
  | [] => []
  | d :: pn' => let d' := u32 (d + 1) in
      if d' =? 0 then d' :: incr pn' else d' :: pn'
  end.

(** [while (i < WIDTH && --pn[i] == (uint32_t)-1) i++;] *)
Fixpoint decr (pn : uint) : uint :=
  match pn with
  | [] => []
  | d :: pn' => let d' := u32 (d - 1) in
      if d' =? u32 (-1) then d' :: decr pn' else d' :: pn'
  end.

Definition neg (pn : uint) : uint := incr (compl pn).

Definition lxor (a b : uint) : uint :=
  for_upto WIDTH (fun i pn => <[i := Z.lxor pn.[i] b.[i]]> pn) a.
Definition land (a b : uint) : uint :=
  for_upto WIDTH (fun i pn => <[i := Z.land pn.[i] b.[i]]> pn) a.
Definition lor (a b : uint) : uint :=
  for_upto WIDTH (fun i pn => <[i := Z.lor pn.[i] b.[i]]> pn) a.

Definition lxor_u64 (a : uint) (b : Z) : uint :=
  let a := <[0%nat := Z.lxor a.[0] (u32 b)]> a in
  <[1%nat := Z.lxor a.[1] (u32 (Z.shiftr b 32))]> a.
Definition lor_u64 (a : uint) (b : Z) : uint :=
  let a := <[0%nat := Z.lor a.[0] (u32 b)]> a in
  <[1%nat := Z.lor a.[1] (u32 (Z.shiftr b 32))]> a.

(** [operator<<=(unsigned int shift)] *)
Definition shl (a : uint) (shift : Z) : uint :=
  let k := Z.to_nat (shift / 32) in
  let shift := shift mod 32 in
  for_upto WIDTH (fun i pn =>
    let pn :=
      if ((i + k + 1 <? WIDTH)%nat && negb (shift =? 0))
      then <[(i + k + 1)%nat := Z.lor pn.[i + k + 1] (Z.shiftr a.[i] (32 - shift))]> pn
      else pn in
    if (i + k <? WIDTH)%nat
    then <[(i + k)%nat := Z.lor pn.[i + k] (u32 (Z.shiftl a.[i] shift))]> pn
    else pn) zero.

(** [operator>>=(unsigned int shift)] *)
Definition shr (a : uint) (shift : Z) : uint :=
  let k := Z.to_nat (shift / 32) in
  let shift := shift mod 32 in
  for_upto WIDTH (fun i pn =>
    let pn :=
      if ((k + 1 <=? i)%nat && negb (shift =? 0))
      then <[(i - k - 1)%nat := Z.lor pn.[i - k - 1] (u32 (Z.shiftl a.[i] (32 - shift)))]> pn
      else pn in
    if (k <=? i)%nat
    then <[(i - k)%nat := Z.lor pn.[i - k] (Z.shiftr a.[i] shift)]> pn
    else pn) zero.

(** [operator+=(const base_uint& b)] *)
Definition add (a b : uint) : uint :=
  fst (for_upto WIDTH (fun i '(pn, carry) =>
    let n := u64 (u64 (carry + pn.[i]) + b.[i]) in
    (<[i := Z.land n 0xffffffff]> pn, Z.shiftr n 32)) (a, 0)).

Definition sub (a b : uint) : uint := add a (neg b).
Definition add_u64 (a : uint) (b64 : Z) : uint := add a (of_u64 b64).
Definition sub_u64 (a : uint) (b64 : Z) : uint := add a (neg (of_u64 b64)).

(** [operator*=(uint32_t b32)] *)
Definition mul_u32 (a : uint) (b32 : Z) : uint :=
  fst (for_upto WIDTH (fun i '(pn, carry) =>
    let n := u64 (carry + u64 (b32 * pn.[i])) in
    (<[i := Z.land n 0xffffffff]> pn, Z.shiftr n 32)) (a, 0)).

(** [operator*=(const base_uint& b)] *)
Definition mul (a b : uint) : uint :=
  for_upto WIDTH (fun j pn =>
    fst (for_upto (WIDTH - j) (fun i '(pn, carry) =>
      let n := u64 (u64 (carry + pn.[i + j]) + u64 (a.[j] * b.[i])) in
      (<[(i + j)%nat := Z.land n 0xffffffff]> pn, Z.shiftr n 32)) (pn, 0))) zero.

(** [CompareTo]: the loop from the most significant limb down; [pos] limbs are
    left. *)
Fixpoint CompareTo_from (pos : nat) (a b : uint) : Z :=
  match pos with
  | O => 0
  | S i => if a.[i] <? b.[i] then -1
           else if a.[i] >? b.[i] then 1
           else CompareTo_from i a b
  end.
Definition CompareTo (a b : uint) : Z := CompareTo_from WIDTH a b.

Definition gtb (a b : uint) : bool := CompareTo a b >? 0.
Definition ltb (a b : uint) : bool := CompareTo a b <? 0.
Definition geb (a b : uint) : bool := CompareTo a b >=? 0.
Definition leb (a b : uint) : bool := CompareTo a b <=? 0.

Fixpoint high_limbs_null (n : nat) (pn : uint) : bool :=
  match n with
  | O => true
  | S i => if negb (pn.[i + 2] =? 0) then false else high_limbs_null i pn
  end.

(** [EqualTo(uint64_t b)] *)
Definition EqualTo (pn : uint) (b : Z) : bool :=
  if negb (high_limbs_null (WIDTH - 2) pn) then false
  else if negb (pn.[1] =? Z.shiftr b 32) then false
  else if negb (pn.[0] =? Z.land b 0xffffffff) then false
  else true.

(** [bits()]: the position of the highest set bit plus one. *)
Fixpoint word_bits (nbits : nat) (p : Z) : Z :=
  match nbits with
  | O => 1
  | S m => if negb (Z.land p (Z.shiftl 1 (Z.of_nat nbits)) =? 0)
           then Z.of_nat nbits + 1 else word_bits m p
  end.
Fixpoint bits_from (pos : nat) (pn : uint) : Z :=
  match pos with
  | O => 0
  | S i => if negb (pn.[i] =? 0) then 32 * Z.of_nat i + word_bits 31 pn.[i]
           else bits_from i pn
  end.
Definition bits (pn : uint) : Z := bits_from WIDTH pn.

Inductive uint_error := DivisionByZero.

(** The loop of [operator/=]; [n] is [shift + 1]. *)
Fixpoint div_loop (n : nat) (num div pn : uint) : uint :=
  match n with
  | O => pn
  | S shift =>
      let '(num, pn) :=
        if geb num div
        then (sub num div,
              <[(shift / 32)%nat := Z.lor pn.[shift / 32]
                  (Z.shiftl 1 (Z.land (Z.of_nat shift) 31))]> pn)
        else (num, pn) in
      div_loop shift num (shr div 1) pn
  end.

(** [operator/=] *)
Definition div (a b : uint) : result uint_error uint :=
  let num_bits := bits a in
  let div_bits := bits b in
  if div_bits =? 0 then Err DivisionByZero
  else if div_bits >? num_bits then Ok zero
  else
    let shift := num_bits - div_bits in
    Ok (div_loop (Z.to_nat (shift + 1)) a (shl b shift) zero).

Definition GetLow64 (pn : uint) : Z := Z.lor pn.[0] (u64 (Z.shiftl pn.[1] 32)).

End base_uint.

Module arith_uint256.
Import base_uint.

(** [SetCompact]: the number, [*pfNegative] and [*pfOverflow]. *)
Definition SetCompact (nCompact : Z) : uint * bool * bool :=
  let nSize := Z.shiftr nCompact 24 in
  let nWord := Z.land nCompact 0x007fffff in
  let nWord := if nSize <=? 3 then Z.shiftr nWord (8 * (3 - nSize)) else nWord in
  let this := if nSize <=? 3 then of_u64 nWord
              else shl (of_u64 nWord) (8 * (nSize - 3)) in
  let fNegative := negb (nWord =? 0) && negb (Z.land nCompact 0x00800000 =? 0) in
  let fOverflow := negb (nWord =? 0) &&
    ((nSize >? 34) || ((nWord >? 0xff) && (nSize >? 33))
                   || ((nWord >? 0xffff) && (nSize >? 32))) in
  (this, fNegative, fOverflow).

Inductive assert_error := AssertionFailed.

(** [GetCompact]; a failed [assert] is an error. *)
Definition GetCompact (this : uint) (fNegative : bool) : result assert_error Z :=
  let nSize := (bits this + 7) / 8 in
  let nCompact :=
    if nSize <=? 3 then u32 (u64 (Z.shiftl (GetLow64 this) (8 * (3 - nSize))))
    else u32 (GetLow64 (shr this (8 * (nSize - 3)))) in
  let '(nCompact, nSize) :=
    if negb (Z.land nCompact 0x00800000 =? 0)
    then (Z.shiftr nCompact 8, nSize + 1) else (nCompact, nSize) in
  if negb (Z.land nCompact (Z.lnot 0x007fffff) =? 0) then Err AssertionFailed
  else if negb (nSize <? 256) then Err AssertionFailed
  else
    let nCompact := Z.lor nCompact (u32 (Z.shiftl nSize 24)) in
    Ok (Z.lor nCompact
          (if fNegative && negb (Z.land nCompact 0x007fffff =? 0)
           then 0x00800000 else 0)).

End arith_uint256.

(** ** Representation invariant and abstraction *)

Module uint_facts.
Import base_uint arith_uint256.

Definition wf (pn : uint) : Prop := length pn = WIDTH ∧ digits_ok 32 pn.
Definition val (pn : uint) : Z := digits_val 32 pn.
Definition M : Z := 2 ^ 256.

Lemma val_bound a : wf a → 0 <= val a < M.
Proof.
  intros [Hl Hd]. pose proof (digits_val_bound 32 a ltac:(lia) Hd) as H.
  rewrite Hl in H. exact H.
Qed.

Lemma val_inj a b : wf a → wf b → val a = val b → a = b.
Proof. intros [? ?] [? ?] ?. apply (digits_val_inj 32); try done; congruence. Qed.

Lemma wf_nth a i : wf a → ufits 32 a.[i].
Proof. intros [_ H]. by apply digits_nth_ok. Qed.

Lemma wf_insert a i x : wf a → ufits 32 x → wf (<[i:=x]> a).
Proof. intros [Hl Hd] Hx. split; [by rewrite length_insert|by apply digits_insert_ok]. Qed.

Lemma wf_zero : wf zero.
Proof. split; [done|]. apply Forall_replicate. by apply ufits_0. Qed.

Lemma val_zero : val zero = 0.
Proof. reflexivity. Qed.

Lemma wf_of_u64 b : wf (of_u64 b).
Proof. apply wf_insert; [apply wf_insert; [apply wf_zero|]|]; by apply uwrap_range. Qed.

Lemma val_of_u64 b : ufits 64 b → val (of_u64 b) = b.
Proof.
  intros Hb. unfold of_u64, val, zero. cbn -[u32 Z.shiftr].
  unfold u32, uwrap. rewrite Z.shiftr_div_pow2 by lia.
  unfold ufits in Hb. rewrite (Z.mod_small (b / 2 ^ 32)).
  - pose proof (Z.div_mod b (2 ^ 32)). lia.
  - split; [apply Z.div_pos; lia|]. apply Z.div_lt_upper_bound; lia.
Qed.

(** A 64-bit sum or product split into its low limb and its carry. *)
Lemma limb_split n : ufits 64 n →
  ufits 32 (Z.land n 0xffffffff) ∧ ufits 32 (Z.shiftr n 32) ∧
  Z.land n 0xffffffff + Z.shiftr n 32 * 2 ^ 32 = n.
Proof.
  intros Hn. change 0xffffffff with (2 ^ 32 - 1). rewrite uwrap_land by lia.
  unfold uwrap. rewrite Z.shiftr_div_pow2 by lia. unfold ufits in *.
  pose proof (Z.mod_pos_bound n (2 ^ 32) ltac:(lia)).
  pose proof (Z.div_mod n (2 ^ 32) ltac:(lia)).
  repeat split; lia.
Qed.

Lemma pow32_S i : 2 ^ (32 * Z.of_nat (S i)) = 2 ^ (32 * Z.of_nat i) * 2 ^ 32.
Proof. rewrite <- Z.pow_add_r by lia. f_equal. lia. Qed.

Lemma add_spec a b : wf a → wf b → wf (add a b) ∧ val (add a b) = (val a + val b) mod M.
Proof.
  intros Ha Hb. unfold add.
  set (f := fun i '(pn, carry) => _).
  pose (P := fun (i : nat) (s : uint * Z) =>
    wf s.1 ∧ ufits 32 s.2 ∧ (∀ j, (i <= j)%nat → (s.1).[j] = a.[j]) ∧
    val s.1 + s.2 * 2 ^ (32 * Z.of_nat i) = val a + val (take i b)).
  assert (P WIDTH (for_upto WIDTH f (a, 0))) as H.
  { apply for_upto_ind.
    - split; [done|]. split; [by apply ufits_0|]. split; [done|]. cbn [fst snd]. change (val (take 0 b)) with 0. lia.
    - intros i [pn c] Hi (Hwf & Hc & Hsame & Hv). cbn [fst snd] in *.
      pose proof (wf_nth a i Ha) as Hai. pose proof (wf_nth b i Hb) as Hbi.
      unfold f. rewrite Hsame by lia. unfold ufits in Hai, Hbi, Hc.
      unfold u64. rewrite (uwrap_id 64 (c + _)) by (unfold ufits; lia).
      rewrite uwrap_id by (unfold ufits; lia).
      destruct (limb_split (c + a.[i] + b.[i])) as (Hlo & Hhi & Hsum); [unfold ufits; lia|].
      split; [by apply wf_insert|]. split; [done|]. cbn [fst snd]. split.
      { intros j Hj. rewrite nth_insert_ne by lia. apply Hsame. lia. }
      unfold val in *. destruct Hwf as [Hlen _]. destruct Hb as [Hlenb _].
      rewrite digits_val_insert, digits_val_take_S, Hsame, pow32_S by lia.
      set (E := 2 ^ (32 * Z.of_nat i)) in *. nia. }
  destruct (for_upto WIDTH f (a, 0)) as [pn c]. destruct H as (Hwf & Hc & _ & Hv).
  cbn [fst snd] in *. split; [done|]. pose proof (val_bound pn Hwf).
  rewrite (firstn_all2 b) in Hv by (destruct Hb; lia).
  unfold val in *. rewrite <- Hv. change (2 ^ (32 * Z.of_nat WIDTH)) with M.
  rewrite Z.mod_add by done. by rewrite Z.mod_small.
Qed.

Lemma take_all_wf (b : uint) : wf b → take WIDTH b = b.
Proof. intros [Hl _]. apply firstn_all2. lia. Qed.

Lemma mul_u32_spec a b32 : wf a → ufits 32 b32 →
  wf (mul_u32 a b32) ∧ val (mul_u32 a b32) = (val a * b32) mod M.
Proof.
  intros Ha Hb. unfold mul_u32.
  set (f := fun i '(pn, carry) => _).
  pose (P := fun (i : nat) (s : uint * Z) =>
    wf s.1 ∧ ufits 32 s.2 ∧ (∀ j, (i <= j)%nat → (s.1).[j] = a.[j]) ∧
    val s.1 + s.2 * 2 ^ (32 * Z.of_nat i) = val a - val (take i a) + b32 * val (take i a)).
  assert (P WIDTH (for_upto WIDTH f (a, 0))) as H.
  { apply for_upto_ind.
    - split; [done|]. split; [by apply ufits_0|]. split; [done|].
      cbn [fst snd]. change (val (take 0 a)) with 0. lia.
    - intros i [pn c] Hi (Hwf & Hc & Hsame & Hv). cbn [fst snd] in *.
      pose proof (wf_nth a i Ha) as Hai.
      unfold f. rewrite Hsame by lia. unfold ufits in Hai, Hb, Hc.
      unfold u64. rewrite (uwrap_id 64 (b32 * _)) by (unfold ufits; nia).
      rewrite uwrap_id by (unfold ufits; nia).
      destruct (limb_split (c + b32 * a.[i])) as (Hlo & Hhi & Hsum); [unfold ufits; nia|].
      split; [by apply wf_insert|]. split; [done|]. cbn [fst snd]. split.
      { intros j Hj. rewrite nth_insert_ne by lia. apply Hsame. lia. }
      unfold val in *. destruct Hwf as [Hlen _]. destruct Ha as [Hlena _].
      rewrite digits_val_insert, digits_val_take_S, Hsame, pow32_S by lia.
      set (E := 2 ^ (32 * Z.of_nat i)) in *. nia. }
  destruct (for_upto WIDTH f (a, 0)) as [pn c]. destruct H as (Hwf & Hc & _ & Hv).
  cbn [fst snd] in *. split; [done|]. pose proof (val_bound pn Hwf).
  rewrite take_all_wf in Hv by done.
  replace (val a * b32) with (val pn + c * M) by (change (2 ^ (32 * Z.of_nat WIDTH)) with M in Hv; lia).
  rewrite Z.mod_add by done. by rewrite Z.mod_small.
Qed.

(** One row of the schoolbook multiplication: [pn += a_j * b * 2^(32 j)]. *)
Lemma mul_row_spec aj b j pn : ufits 32 aj → wf b → wf pn → (j <= WIDTH)%nat →
  let pn' := fst (for_upto (WIDTH - j) (fun i '(pn, carry) =>
      let n := u64 (u64 (carry + pn.[i + j]) + u64 (aj * b.[i])) in
      (<[(i + j)%nat := Z.land n 0xffffffff]> pn, Z.shiftr n 32)) (pn, 0)) in
  wf pn' ∧ val pn' = (val pn + aj * val b * 2 ^ (32 * Z.of_nat j)) mod M.
Proof.
  intros Haj Hb Hpn Hj. cbv zeta.
  set (f := fun i '(pn, carry) => _).
  pose (P := fun (i : nat) (s : uint * Z) =>
    wf s.1 ∧ ufits 32 s.2 ∧ (∀ k, (i + j <= k)%nat → (s.1).[k] = pn.[k]) ∧
    val s.1 + s.2 * 2 ^ (32 * Z.of_nat (i + j))
    = val pn + aj * val (take i b) * 2 ^ (32 * Z.of_nat j)).
  assert (P (WIDTH - j)%nat (for_upto (WIDTH - j) f (pn, 0))) as H.
  { apply for_upto_ind.
    - split; [done|]. split; [by apply ufits_0|]. split; [done|].
      cbn [fst snd]. change (val (take 0 b)) with 0. lia.
    - intros i [q c] Hi (Hwf & Hc & Hsame & Hv). cbn [fst snd] in *.
      pose proof (wf_nth pn (i + j) Hpn) as Hpi. pose proof (wf_nth b i Hb) as Hbi.
      unfold f. rewrite Hsame by lia. unfold ufits in Hpi, Hbi, Haj, Hc.
      unfold u64. rewrite (uwrap_id 64 (c + _)) by (unfold ufits; lia).
      rewrite (uwrap_id 64 (aj * _)) by (unfold ufits; nia).
      rewrite uwrap_id by (unfold ufits; nia).
      destruct (limb_split (c + pn.[i + j] + aj * b.[i])) as (Hlo & Hhi & Hsum);
        [unfold ufits; nia|].
      split; [by apply wf_insert|]. split; [done|]. cbn [fst snd]. split.
      { intros k Hk. rewrite nth_insert_ne by lia. apply Hsame. lia. }
      unfold val in *. destruct Hwf as [Hlen _]. destruct Hb as [Hlenb _].
      rewrite digits_val_insert, digits_val_take_S, Hsame by lia.
      change (S i + j)%nat with (S (i + j)). rewrite pow32_S.
      replace (2 ^ (32 * Z.of_nat (i + j)))
        with (2 ^ (32 * Z.of_nat i) * 2 ^ (32 * Z.of_nat j)) in *
        by (rewrite <- Z.pow_add_r by lia; f_equal; lia).
      set (E := 2 ^ (32 * Z.of_nat i)) in *. set (F := 2 ^ (32 * Z.of_nat j)) in *. nia. }
  destruct (for_upto (WIDTH - j) f (pn, 0)) as [q c]. destruct H as (Hwf & Hc & _ & Hv).
  cbn [fst snd] in *. split; [done|]. pose proof (val_bound q Hwf).
  assert (val b = val (take (WIDTH - j) b)
          + 2 ^ (32 * Z.of_nat (WIDTH - j)) * val (drop (WIDTH - j) b)) as Hsplit.
  { unfold val. rewrite <- (firstn_skipn (WIDTH - j) b) at 1.
    rewrite digits_val_app by lia. rewrite length_take_le; [done|]. destruct Hb; lia. }
  replace (val pn + aj * val b * 2 ^ (32 * Z.of_nat j))
    with (val q + (c + aj * val (drop (WIDTH - j) b)) * M).
  { rewrite Z.mod_add by done. by rewrite Z.mod_small. }
  rewrite Hsplit. replace (WIDTH - j + j)%nat with WIDTH in Hv by lia.
  change (2 ^ (32 * Z.of_nat WIDTH)) with M in Hv.
  assert (M = 2 ^ (32 * Z.of_nat (WIDTH - j)) * 2 ^ (32 * Z.of_nat j)) as HM.
  { rewrite <- Z.pow_add_r by lia. unfold M. f_equal. unfold WIDTH in *. lia. }
  nia.
Qed.

Lemma mul_spec a b : wf a → wf b → wf (mul a b) ∧ val (mul a b) = (val a * val b) mod M.
Proof.
  intros Ha Hb. unfold mul.
  set (f := fun j pn => _).
  assert (wf (for_upto WIDTH f zero) ∧
          val (for_upto WIDTH f zero) = (val (take WIDTH a) * val b) mod M) as H.
  { apply (for_upto_ind (fun i pn => wf pn ∧ val pn = (val (take i a) * val b) mod M)).
    - split; [apply wf_zero|]. reflexivity.
    - intros j pn Hj [Hwf Hv]. unfold f.
      destruct (mul_row_spec a.[j] b j pn) as [Hwf' Hv']; try done;
        [by apply wf_nth|lia|].
      split; [exact Hwf'|]. etransitivity; [exact Hv'|]. rewrite Hv. unfold val. destruct Ha as [Hlen _].
      rewrite digits_val_take_S by lia.
      rewrite Z.add_mod_idemp_l by done. f_equal. ring. }
  by rewrite take_all_wf in H.
Qed.

(** *** Complement, increment, negation, subtraction *)

Lemma u32_lnot d : ufits 32 d → u32 (Z.lnot d) = 2 ^ 32 - 1 - d.
Proof.
  intros [? ?]. unfold u32, uwrap. replace (Z.lnot d) with (2 ^ 32 - 1 - d + (-1) * 2 ^ 32)
    by (unfold Z.lnot; lia).
  rewrite Z.mod_add by lia. apply Z.mod_small. lia.
Qed.

Lemma compl_spec a : wf a → wf (compl a) ∧ val (compl a) = M - 1 - val a.
Proof.
  intros [Hl Hd]. split.
  - split; [unfold compl; by rewrite length_map|].
    apply List.Forall_map. eapply Forall_impl; [exact Hd|].
    intros d Hd'. rewrite u32_lnot by done. unfold ufits in *; lia.
  - assert (∀ l, digits_ok 32 l →
      val (compl l) = 2 ^ (32 * Z.of_nat (length l)) - 1 - val l) as H.
    { induction 1 as [|d l Hd' _ IH]; [reflexivity|].
      unfold val, compl in *. cbn [map digits_val length].
      rewrite IH, u32_lnot, pow32_S by done. lia. }
    rewrite H, Hl by done. reflexivity.
Qed.

Lemma incr_digits l : digits_ok 32 l →
  length (incr l) = length l ∧ digits_ok 32 (incr l) ∧
  digits_val 32 (incr l) = (digits_val 32 l + 1) mod 2 ^ (32 * Z.of_nat (length l)).
Proof.
  induction 1 as [|d l Hd Hl (IH1 & IH2 & IH3)]; [split_and!; [done|constructor|done]|].
  pose proof (digits_val_bound 32 l ltac:(lia) Hl) as Hb.
  cbn [incr]. unfold u32 in *.
  assert (uwrap 32 (d + 1) = if d =? 2 ^ 32 - 1 then 0 else d + 1) as ->.
  { unfold ufits in Hd. destruct (Z.eqb_spec d (2 ^ 32 - 1)) as [->|]; [done|].
    apply uwrap_id. split; lia. }
  unfold ufits in Hd. cbn [length]. rewrite pow32_S. set (E := 2 ^ (32 * _)) in *.
  destruct (Z.eqb_spec d (2 ^ 32 - 1)) as [->|].
  - rewrite Z.eqb_refl. cbn [length digits_val]. rewrite IH1, IH3. split_and!; [done| |].
    + constructor; [by apply ufits_0|done].
    + replace (2 ^ 32 - 1 + 2 ^ 32 * digits_val 32 l + 1)
        with (2 ^ 32 * (digits_val 32 l + 1)) by lia.
      rewrite (Z.mul_comm E), Z.mul_mod_distr_l by lia. lia.
  - destruct (Z.eqb_spec (d + 1) 0); [lia|]. cbn [length digits_val]. split_and!; [done| |].
    + constructor; [split; lia|done].
    + symmetry. rewrite Z.mod_small; lia.
Qed.

Lemma incr_spec a : wf a → wf (incr a) ∧ val (incr a) = (val a + 1) mod M.
Proof.
  intros [Hl Hd]. destruct (incr_digits a Hd) as (H1 & H2 & H3).
  split; [split; congruence|]. unfold val. rewrite H3, Hl. reflexivity.
Qed.

Lemma decr_digits l : digits_ok 32 l →
  length (decr l) = length l ∧ digits_ok 32 (decr l) ∧
  digits_val 32 (decr l) = (digits_val 32 l - 1) mod 2 ^ (32 * Z.of_nat (length l)).
Proof.
  induction 1 as [|d l Hd Hl (IH1 & IH2 & IH3)]; [split_and!; [done|constructor|done]|].
  pose proof (digits_val_bound 32 l ltac:(lia) Hl) as Hb.
  cbn [decr]. unfold u32 in *. change (uwrap 32 (-1)) with (2 ^ 32 - 1).
  assert (uwrap 32 (d - 1) = if d =? 0 then 2 ^ 32 - 1 else d - 1) as ->.
  { unfold ufits in Hd. destruct (Z.eqb_spec d 0) as [->|]; [done|].
    apply uwrap_id. split; lia. }
  unfold ufits in Hd. cbn [length]. rewrite pow32_S. set (E := 2 ^ (32 * _)) in *.
  destruct (Z.eqb_spec d 0) as [->|].
  - rewrite Z.eqb_refl. cbn [length digits_val]. rewrite IH1, IH3. split_and!; [done| |].
    + constructor; [split; lia|done].
    + replace (0 + 2 ^ 32 * digits_val 32 l - 1)
        with ((2 ^ 32 - 1) + 2 ^ 32 * (digits_val 32 l - 1)) by lia.
      rewrite (Z.mul_comm E), Z.rem_mul_r by lia.
      rewrite (Z.mul_comm (2 ^ 32) (_ - 1)), Z.mod_add by lia.
      rewrite Z.div_add by lia. reflexivity.
  - destruct (Z.eqb_spec (d - 1) (2 ^ 32 - 1)); [lia|]. cbn [length digits_val].
    split_and!; [done| |].
    + constructor; [split; lia|done].
    + symmetry. rewrite Z.mod_small; lia.
Qed.

Lemma decr_spec a : wf a → wf (decr a) ∧ val (decr a) = (val a - 1) mod M.
Proof.
  intros [Hl Hd]. destruct (decr_digits a Hd) as (H1 & H2 & H3).
  split; [split; congruence|]. unfold val. rewrite H3, Hl. reflexivity.
Qed.

Lemma neg_spec a : wf a → wf (neg a) ∧ val (neg a) = (- val a) mod M.
Proof.
  intros Ha. destruct (compl_spec a Ha) as [Hc Hv]. destruct (incr_spec _ Hc) as [Hi Hv'].
  split; [done|]. unfold neg. rewrite Hv', Hv.
  replace (M - 1 - val a + 1) with (- val a + 1 * M) by lia. by rewrite Z.mod_add.
Qed.

Lemma sub_spec a b : wf a → wf b → wf (sub a b) ∧ val (sub a b) = (val a - val b) mod M.
Proof.
  intros Ha Hb. destruct (neg_spec b Hb) as [Hn Hv].
  destruct (add_spec a (neg b)) as [Hw Hv']; try done.
  split; [done|]. unfold sub. rewrite Hv', Hv, Z.add_mod_idemp_r by done. f_equal; lia.
Qed.

(** *** Comparison *)

Lemma CompareTo_from_spec a b n : wf a → wf b → (n <= WIDTH)%nat →
  CompareTo_from n a b = Z.sgn (val (take n a) - val (take n b)).
Proof.
  intros Ha Hb. induction n as [|i IH]; intros Hn; [done|].
  cbn [CompareTo_from]. pose proof (wf_nth a i Ha). pose proof (wf_nth b i Hb).
  assert (∀ c, wf c → 0 <= val (take i c) < 2 ^ (32 * Z.of_nat i)) as Hbound.
  { intros c [Hlc Hc]. pose proof (digits_val_bound 32 (take i c) ltac:(lia)) as H1.
    rewrite length_take_le in H1 by lia. apply H1. by apply Forall_take. }
  pose proof (Hbound a Ha). pose proof (Hbound b Hb).
  unfold val in *. destruct Ha as [Hla _], Hb as [Hlb _].
  rewrite !digits_val_take_S by lia. rewrite IH by lia.
  set (E := 2 ^ (32 * _)) in *. unfold ufits in *.
  destruct (Z.ltb_spec a.[i] b.[i]); [symmetry; apply Z.sgn_neg; nia|].
  rewrite Z.gtb_ltb. destruct (Z.ltb_spec b.[i] a.[i]); [symmetry; apply Z.sgn_pos; nia|].
  f_equal. nia.
Qed.

Lemma CompareTo_spec a b : wf a → wf b → CompareTo a b = Z.sgn (val a - val b).
Proof.
  intros Ha Hb. unfold CompareTo. rewrite CompareTo_from_spec by done.
  by rewrite !take_all_wf.
Qed.

Lemma gtb_spec a b : wf a → wf b → gtb a b = (val a >? val b).
Proof.
  intros. unfold gtb. rewrite CompareTo_spec, !Z.gtb_ltb by done.
  destruct (Z.ltb_spec (val b) (val a)); [rewrite Z.sgn_pos by lia; done|].
  apply Z.ltb_ge. lia.
Qed.

Lemma ltb_spec a b : wf a → wf b → ltb a b = (val a <? val b).
Proof.
  intros. unfold ltb. rewrite CompareTo_spec by done.
  destruct (Z.ltb_spec (val a) (val b)); [rewrite Z.sgn_neg by lia; done|].
  apply Z.ltb_ge. lia.
Qed.

Lemma geb_spec a b : wf a → wf b → geb a b = (val b <=? val a).
Proof.
  intros. unfold geb. rewrite CompareTo_spec, Z.geb_leb by done.
  destruct (Z.leb_spec (val b) (val a)); [apply Z.leb_le; lia|].
  rewrite Z.sgn_neg by lia. done.
Qed.

(** *** Bit length *)

(** The number of bits of [z]: zero for zero, otherwise [log2 z + 1]. *)
Definition nbits (z : Z) : Z := if z =? 0 then 0 else Z.log2 z + 1.

Lemma nbits_bounds z : 0 < z → 2 ^ (nbits z - 1) <= z < 2 ^ nbits z.
Proof.
  intros Hz. unfold nbits. destruct (Z.eqb_spec z 0); [lia|].
  replace (Z.log2 z + 1 - 1) with (Z.log2 z) by lia. apply Z.log2_spec. done.
Qed.

Lemma nbits_nonneg z : 0 <= nbits z.
Proof. unfold nbits. destruct (_ =? _); [lia|]. pose proof (Z.log2_nonneg z). lia. Qed.

Lemma nbits_le z n : 0 <= n → 0 <= z < 2 ^ n → nbits z <= n.
Proof.
  intros Hn Hz. unfold nbits. destruct (Z.eqb_spec z 0); [lia|].
  assert (Z.log2 z < n); [|lia]. apply Z.log2_lt_pow2; lia.
Qed.

Lemma nbits_unique z n : 0 < n → 2 ^ (n - 1) <= z < 2 ^ n → nbits z = n.
Proof.
  intros Hn Hz. unfold nbits. pose proof (pow2_pos (n - 1) ltac:(lia)).
  destruct (Z.eqb_spec z 0); [lia|].
  rewrite (Z.log2_unique z (n - 1)); [lia|lia|]. by rewrite Z.sub_1_r, Z.succ_pred, <- Z.sub_1_r.
Qed.

Lemma word_bits_spec n p : 0 < p < 2 ^ (Z.of_nat n + 1) → word_bits n p = nbits p.
Proof.
  induction n as [|m IH]; intros Hp.
  - assert (p = 1) as -> by (cbn in Hp; lia). done.
  - cbn [word_bits]. rewrite land_pow2_testbit, negb_involutive, testbit_top by lia.
    destruct (Z.leb_spec (2 ^ Z.of_nat (S m)) p).
    + symmetry. apply nbits_unique; [lia|]. rewrite Z.add_simpl_r. lia.
    + apply IH. rewrite Nat2Z.inj_succ, Z.add_1_r in *. lia.
Qed.

Lemma nbits_high x d n : 0 <= n → 0 <= x < 2 ^ n → 0 < d → nbits (x + d * 2 ^ n) = n + nbits d.
Proof.
  intros Hn Hx Hd. pose proof (nbits_bounds d Hd) as Hb. pose proof (nbits_nonneg d).
  assert (0 < nbits d). { unfold nbits in *. destruct (Z.eqb_spec d 0); [lia|].
    pose proof (Z.log2_nonneg d). lia. }
  pose proof (pow2_pos n Hn). apply nbits_unique; [lia|].
  replace (n + nbits d - 1) with (n + (nbits d - 1)) by lia.
  rewrite !Z.pow_add_r by lia. nia.
Qed.

Lemma take_bound c i : wf c → (i <= WIDTH)%nat → 0 <= val (take i c) < 2 ^ (32 * Z.of_nat i).
Proof.
  intros [Hlc Hc] Hi. pose proof (digits_val_bound 32 (take i c) ltac:(lia)) as H1.
  rewrite length_take_le in H1 by lia. apply H1. by apply Forall_take.
Qed.

Lemma bits_from_spec a n : wf a → (n <= WIDTH)%nat → bits_from n a = nbits (val (take n a)).
Proof.
  intros Ha. induction n as [|i IH]; intros Hn; [done|]. cbn [bits_from].
  pose proof (wf_nth a i Ha) as Hi. pose proof (take_bound a i Ha ltac:(lia)).
  unfold val in *. destruct Ha as [Hla _]. rewrite digits_val_take_S by lia.
  destruct (Z.eqb_spec a.[i] 0) as [->|Hnz]; cbn [negb].
  - rewrite IH by lia. f_equal. lia.
  - unfold ufits in Hi. rewrite nbits_high by lia. f_equal.
    apply word_bits_spec. change (2 ^ (Z.of_nat 31 + 1)) with (2 ^ 32). lia.
Qed.

Lemma bits_spec a : wf a → bits a = nbits (val a).
Proof.
  intros Ha. unfold bits. rewrite bits_from_spec by done. by rewrite take_all_wf.
Qed.

Lemma bits_range a : wf a → 0 <= bits a <= 256.
Proof.
  intros Ha. rewrite bits_spec by done. pose proof (val_bound a Ha).
  split; [apply nbits_nonneg|apply nbits_le; [lia|done]].
Qed.

(** *** Shifts *)

Lemma digit_bits z n w i : 0 <= n → 0 <= w → 0 <= i →
  Z.testbit ((z / 2 ^ n) mod 2 ^ w) i = (i <? w) && Z.testbit z (i + n).
Proof.
  intros. rewrite <- Z.shiftr_div_pow2 by lia. destruct (Z.ltb_spec i w).
  - rewrite Z.mod_pow2_bits_low by lia. by rewrite Z.shiftr_spec by lia.
  - by rewrite Z.mod_pow2_bits_high by lia.
Qed.

Lemma digit_add x b e n w : 0 <= n → 0 <= w → ufits e x → 0 <= e →
  ((x + b * 2 ^ e) / 2 ^ n) mod 2 ^ w
  = Z.lor ((x / 2 ^ n) mod 2 ^ w) ((b * 2 ^ e / 2 ^ n) mod 2 ^ w).
Proof.
  intros. rewrite <- lor_add_shift by done. apply Z.bits_inj'. intros i Hi.
  rewrite Z.lor_spec, !digit_bits, Z.lor_spec by lia.
  by destruct (i <? w).
Qed.

Lemma digit_shifted d p q : ufits 32 d → 0 <= p → 0 <= q →
  (d * 2 ^ p / 2 ^ q) mod 2 ^ 32
  = if q <=? p then (d * 2 ^ (p - q)) mod 2 ^ 32 else d / 2 ^ (q - p).
Proof.
  intros Hd Hp Hq. destruct (Z.leb_spec q p).
  - replace p with ((p - q) + q) at 1 by lia. rewrite Z.pow_add_r by lia.
    rewrite Z.mul_assoc, Z.div_mul by (apply Z.pow_nonzero; lia). done.
  - assert (2 ^ q = 2 ^ (q - p) * 2 ^ p) as -> by (rewrite <- Z.pow_add_r by lia; f_equal; lia).
    pose proof (pow2_pos p Hp). pose proof (pow2_pos (q - p) ltac:(lia)).
    rewrite Z.div_mul_cancel_r by lia.
    apply Z.mod_small. unfold ufits in Hd.
    split; [apply Z.div_pos; lia|]. apply Z.div_lt_upper_bound; nia.
Qed.

(** A left shift by 32 or more leaves nothing in the low 32 bits. *)
Lemma mod_shift_zero d e : 32 <= e → (d * 2 ^ e) mod 2 ^ 32 = 0.
Proof.
  intros. replace e with ((e - 32) + 32) by lia. rewrite Z.pow_add_r, Z.mul_assoc by lia.
  apply Z.mod_mul. lia.
Qed.

Lemma div_shift_zero d e : ufits 32 d → 32 <= e → d / 2 ^ e = 0.
Proof.
  intros [? ?] ?. apply Z.div_small. split; [done|].
  apply Z.lt_le_trans with (2 ^ 32); [done|]. apply Z.pow_le_mono_r; lia.
Qed.

(** The limb list after one more limb has been or-ed in. *)
Lemma digits_or_step (pn : uint) x b e n (upd : uint) :
  0 <= n → ufits e x → 0 <= e →
  pn = digits_of 32 WIDTH (x / 2 ^ n) → length upd = WIDTH →
  (∀ m, (m < WIDTH)%nat →
     upd.[m] = Z.lor pn.[m] ((b * 2 ^ e / 2 ^ (n + 32 * Z.of_nat m)) mod 2 ^ 32)) →
  upd = digits_of 32 WIDTH ((x + b * 2 ^ e) / 2 ^ n).
Proof.
  intros Hn Hx He Hpn Hlen Hupd. apply (list_eq_nth 0).
  - by rewrite digits_of_length.
  - intros m Hm. rewrite Hlen in Hm. rewrite Hupd, Hpn by done.
    rewrite !digits_of_nth by (done || lia).
    rewrite !Z.div_div by (try (apply Z.pow_nonzero; lia); apply pow2_pos; lia).
    rewrite <- !Z.pow_add_r by lia. by rewrite digit_add by (done || lia).
Qed.

Lemma digits_of_eq_wf pn z : pn = digits_of 32 WIDTH z → wf pn ∧ val pn = z mod M.
Proof.
  intros ->. split; [split; [apply digits_of_length|by apply digits_of_ok]|].
  unfold val. by rewrite digits_val_of.
Qed.

Lemma shift_decomp sh : 0 <= sh →
  sh = 32 * Z.of_nat (Z.to_nat (sh / 32)) + sh mod 32 ∧ 0 <= sh mod 32 < 32.
Proof.
  intros. rewrite Z2Nat.id by (apply Z.div_pos; lia).
  split; [apply Z.div_mod; lia|apply Z.mod_pos_bound; lia].
Qed.

Lemma take_S_val a i : wf a → (i < WIDTH)%nat →
  val (take (S i) a) = val (take i a) + a.[i] * 2 ^ (32 * Z.of_nat i).
Proof. intros [Hl _] Hi. unfold val. apply digits_val_take_S; lia. Qed.

Lemma lookup_step_nth (pn : uint) i j x y m : length pn = WIDTH → (m < WIDTH)%nat → i ≠ j →
  (<[j := y]> (<[i := x]> pn)).[m]
  = if decide (m = j) then y else if decide (m = i) then x else pn.[m].
Proof.
  intros Hl Hm Hij. destruct (decide (m = j)) as [->|].
  - apply nth_insert_eq. rewrite length_insert. lia.
  - rewrite nth_insert_ne by done. destruct (decide (m = i)) as [->|].
    + apply nth_insert_eq. lia.
    + by rewrite nth_insert_ne.
Qed.

Lemma shl_spec a sh : wf a → 0 <= sh →
  wf (shl a sh) ∧ val (shl a sh) = (val a * 2 ^ sh) mod M.
Proof.
  intros Ha Hsh. apply digits_of_eq_wf.
  destruct (shift_decomp sh Hsh) as [Hdec Hs]. unfold shl.
  set (k := Z.to_nat (sh / 32)) in *. set (s := sh mod 32) in *.
  set (f := fun i pn => _).
  assert (for_upto WIDTH f zero = digits_of 32 WIDTH (val (take WIDTH a) * 2 ^ sh / 2 ^ 0)) as ->;
    [|by rewrite take_all_wf, Z.div_1_r].
  apply (for_upto_ind (fun i pn => pn = digits_of 32 WIDTH (val (take i a) * 2 ^ sh / 2 ^ 0)));
    [done|].
  intros i pn Hi Hpn. rewrite take_S_val, Z.mul_add_distr_r, <- Z.mul_assoc, <- Z.pow_add_r
    by (done || lia).
  pose proof (wf_nth a i Ha) as Hai.
  assert (length pn = WIDTH) as Hlen by (rewrite Hpn; apply digits_of_length).
  assert (∀ m, (m < WIDTH)%nat → (f i pn).[m] =
    Z.lor pn.[m] ((a.[i] * 2 ^ (32 * Z.of_nat i + sh) / 2 ^ (0 + 32 * Z.of_nat m)) mod 2 ^ 32))
    as Hupd.
  { intros m Hm. rewrite digit_shifted by (done || lia). unfold f, u32, uwrap.
    rewrite Z.shiftr_div_pow2, Z.shiftl_mul_pow2 by lia.
    destruct (Nat.ltb_spec (i + k + 1) WIDTH); destruct (Nat.ltb_spec (i + k) WIDTH); try lia;
      destruct (Z.eqb_spec s 0); cbn [andb negb];
      rewrite ?nth_insert_ne by lia;
      destruct (Nat.lt_trichotomy m (i + k)%nat) as [|[->|]];
      rewrite ?(nth_insert_eq _ _ (i + k)%nat), ?(nth_insert_ne _ _ (i + k)%nat)
        by (rewrite ?length_insert; lia).
    all: try (destruct (Nat.eq_dec m (i + k + 1)%nat) as [->|]).
    all: rewrite ?nth_insert_eq, ?nth_insert_ne by lia.
    all: match goal with |- context [?q <=? ?p] => destruct (Z.leb_spec q p); try lia end.
    all: try (rewrite mod_shift_zero by lia; by rewrite Z.lor_0_r).
    all: try (rewrite div_shift_zero by (done || lia); by rewrite Z.lor_0_r).
    all: f_equal; repeat (lia || f_equal). }
  eapply (digits_or_step pn _ a.[i] (32 * Z.of_nat i + sh) 0); try done; try lia.
  - pose proof (take_bound a i Ha ltac:(lia)). pose proof (pow2_pos sh Hsh).
    unfold ufits. rewrite Z.pow_add_r by lia. nia.
  - unfold f. case_all; rewrite ?length_insert; done.
Qed.

Lemma shr_spec a sh : wf a → 0 <= sh → wf (shr a sh) ∧ val (shr a sh) = val a / 2 ^ sh.
Proof.
  intros Ha Hsh.
  assert (shr a sh = digits_of 32 WIDTH (val a / 2 ^ sh)) as Heq.
  2:{ destruct (digits_of_eq_wf _ _ Heq) as [Hwf ->]. split; [done|].
      apply Z.mod_small. pose proof (val_bound a Ha). pose proof (pow2_pos sh Hsh).
      split; [apply Z.div_pos; lia|]. apply Z.div_lt_upper_bound; nia. }
  destruct (shift_decomp sh Hsh) as [Hdec Hs]. unfold shr.
  set (k := Z.to_nat (sh / 32)) in *. set (s := sh mod 32) in *.
  set (f := fun i pn => _).
  replace (val a) with (val (take WIDTH a)) by (by rewrite take_all_wf).
  apply (for_upto_ind (fun i pn => pn = digits_of 32 WIDTH (val (take i a) / 2 ^ sh))).
  { change (val (take 0 a)) with 0. rewrite Z.div_0_l by (apply Z.pow_nonzero; lia). done. }
  intros i pn Hi Hpn. rewrite take_S_val by done.
  pose proof (wf_nth a i Ha) as Hai.
  assert (length pn = WIDTH) as Hlen by (rewrite Hpn; apply digits_of_length).
  assert (∀ m, (m < WIDTH)%nat → (f i pn).[m] =
    Z.lor pn.[m] ((a.[i] * 2 ^ (32 * Z.of_nat i) / 2 ^ (sh + 32 * Z.of_nat m)) mod 2 ^ 32))
    as Hupd.
  { intros m Hm. rewrite digit_shifted by (done || lia). unfold f, u32, uwrap.
    rewrite Z.shiftr_div_pow2, Z.shiftl_mul_pow2 by lia.
    destruct (Nat.leb_spec (k + 1) i); destruct (Nat.leb_spec k i); try lia;
      destruct (Z.eqb_spec s 0); cbn [andb negb];
      (destruct (Nat.eq_dec m (i - k)%nat) as [->|];
       [|destruct (Nat.eq_dec m (i - k - 1)%nat) as [->|]]);
      rewrite ?(nth_insert_eq _ _ (i - k)%nat), ?(nth_insert_ne _ _ (i - k)%nat)
        by (rewrite ?length_insert; lia).
    all: rewrite ?nth_insert_eq, ?nth_insert_ne by lia.
    all: match goal with |- context [?q <=? ?p] => destruct (Z.leb_spec q p); try lia end.
    all: try (rewrite mod_shift_zero by lia; by rewrite Z.lor_0_r).
    all: try (rewrite div_shift_zero by (done || lia); by rewrite Z.lor_0_r).
    all: f_equal.
    all: try (solve [repeat (lia || f_equal)]).
    all: match goal with |- _ = (_ * 2 ^ ?e) mod _ => replace e with 0 by lia end.
    all: replace s with 0 by lia.
    all: change (2 ^ 0) with 1; rewrite Z.div_1_r, Z.mul_1_r; symmetry; by apply Z.mod_small. }
  eapply (digits_or_step pn _ a.[i] (32 * Z.of_nat i) sh); try done; try lia.
  - apply take_bound; [done|lia].
  - unfold f. case_all; rewrite ?length_insert; done.
Qed.

(** *** Division *)

Lemma val_testbit a i n : wf a → (i < WIDTH)%nat → 0 <= n < 32 →
  Z.testbit a.[i] n = Z.testbit (val a) (n + 32 * Z.of_nat i).
Proof.
  intros [Hl Hd] Hi Hn. rewrite <- (digits_of_val 32 a) at 1 by done.
  rewrite Hl, digits_of_nth, digit_bits by lia.
  by rewrite (proj2 (Z.ltb_lt n 32)) by lia.
Qed.

Lemma testbit_multiple q n k : 0 <= k < n → Z.testbit (q * 2 ^ n) k = false.
Proof. intros. rewrite <- Z.shiftl_mul_pow2 by lia. apply Z.shiftl_spec_low; lia. Qed.

(** Setting a clear bit of the quotient adds that power of two. *)
Lemma set_bit_spec pn shift : wf pn → (shift < 256)%nat →
  Z.testbit (val pn) (Z.of_nat shift) = false →
  let pn' := <[(shift / 32)%nat := Z.lor pn.[shift / 32]
                (Z.shiftl 1 (Z.land (Z.of_nat shift) 31))]> pn in
  wf pn' ∧ val pn' = val pn + 2 ^ Z.of_nat shift.
Proof.
  intros Hpn Hs Hbit. cbv zeta.
  change 31 with (2 ^ 5 - 1). rewrite uwrap_land by lia. unfold uwrap. change (2 ^ 5) with 32.
  set (r := Z.of_nat shift mod 32). set (j := (shift / 32)%nat).
  assert (0 <= r < 32) as Hr by (apply Z.mod_pos_bound; lia).
  assert (Z.of_nat shift = r + 32 * Z.of_nat j) as Hdec.
  { unfold r, j. rewrite Nat2Z.inj_div. change (Z.of_nat 32) with 32.
    pose proof (Z.div_mod (Z.of_nat shift) 32 ltac:(lia)). lia. }
  assert (j < WIDTH)%nat as Hj by (unfold j; apply Nat.Div0.div_lt_upper_bound; unfold WIDTH; lia).
  assert (Z.testbit pn.[j] r = false) as Hb by (rewrite val_testbit by done; congruence).
  rewrite Z.shiftl_1_l.
  pose proof (wf_nth pn j Hpn) as Hnj.
  assert (ufits 32 (2 ^ r)) as Hp.
  { split; [apply Z.pow_nonneg; lia|]. apply Z.pow_lt_mono_r; lia. }
  split; [apply wf_insert; [done|by apply ufits_lor]|].
  rewrite lor_pow2 by (done || lia). unfold val. destruct Hpn as [Hl _].
  rewrite digits_val_insert, Hdec, Z.pow_add_r by lia. ring.
Qed.

Lemma div_loop_spec n num dv pn D q :
  wf num → wf dv → wf pn → (n <= 256)%nat → 0 < D →
  ((0 < n)%nat → val dv = D * 2 ^ (Z.of_nat n - 1)) →
  val num < D * 2 ^ Z.of_nat n →
  val pn = q * 2 ^ Z.of_nat n →
  wf (div_loop n num dv pn) ∧
  val (div_loop n num dv pn) = q * 2 ^ Z.of_nat n + val num / D.
Proof.
  revert num dv pn q. induction n as [|shift IH];
    intros num dv pn q Hnum Hdv Hpn Hn HD Hvdv Hlt Hvpn.
  - cbn [div_loop]. split; [done|]. rewrite Hvpn. change (2 ^ Z.of_nat 0) with 1 in *.
    pose proof (val_bound num Hnum). rewrite Z.div_small by lia. lia.
  - specialize (Hvdv ltac:(lia)).
    replace (Z.of_nat (S shift)) with (Z.of_nat shift + 1) in * by lia.
    rewrite Z.add_simpl_r in Hvdv. rewrite Z.pow_add_r in * by lia.
    change (2 ^ 1) with 2 in *.
    set (E := 2 ^ Z.of_nat shift) in *.
    assert (0 < E) as HE by (apply pow2_pos; lia).
    destruct (shr_spec dv 1 Hdv ltac:(lia)) as [Hdv' Hvdv'].
    assert ((0 < shift)%nat → val (shr dv 1) = D * 2 ^ (Z.of_nat shift - 1)) as Hnext.
    { intros. rewrite Hvdv', Hvdv. unfold E.
      replace (Z.of_nat shift) with (Z.of_nat shift - 1 + 1) at 1 by lia.
      rewrite Z.pow_add_r, Z.mul_assoc by lia. apply Z.div_mul. lia. }
    pose proof (val_bound num Hnum). pose proof (val_bound dv Hdv).
    cbn [div_loop]. rewrite geb_spec by done.
    destruct (Z.leb_spec (val dv) (val num)).
    + destruct (sub_spec num dv) as [Hsub Hvsub]; try done.
      rewrite Z.mod_small in Hvsub by lia.
      destruct (set_bit_spec pn shift) as [Hpn' Hvpn']; try done.
      { replace (val pn) with (q * 2 ^ (Z.of_nat shift + 1))
          by (rewrite Hvpn, Z.pow_add_r by lia; done).
        apply testbit_multiple. lia. }
      destruct (IH (sub num dv) (shr dv 1) _ (2 * q + 1) Hsub Hdv' Hpn') as [Hw Hv];
        try done; try lia.
      split; [done|]. etransitivity; [exact Hv|]. rewrite Hvsub, Hvdv.
      replace (val num - D * E) with (val num + (- E) * D) by ring.
      rewrite Z.div_add by lia. lia.
    + destruct (IH num (shr dv 1) pn (2 * q)) as [Hw Hv]; try done; try lia.
      split; [done|lia].
Qed.

Lemma div_spec a b : wf a → wf b → val b ≠ 0 →
  ∃ q, div a b = Ok q ∧ wf q ∧ val q = val a / val b.
Proof.
  intros Ha Hb Hnz. unfold div.
  pose proof (val_bound a Ha) as Hba. pose proof (val_bound b Hb) as Hbb.
  pose proof (bits_range a Ha). rewrite !bits_spec in * by done.
  assert (nbits (val b) ≠ 0) as Hnb.
  { unfold nbits. destruct (Z.eqb_spec (val b) 0); [done|].
    pose proof (Z.log2_nonneg (val b)). lia. }
  pose proof (nbits_nonneg (val b)). pose proof (nbits_bounds (val b) ltac:(lia)) as Hbd.
  rewrite (proj2 (Z.eqb_neq _ _)) by done. rewrite Z.gtb_ltb.
  destruct (Z.ltb_spec (nbits (val a)) (nbits (val b))) as [Hlt|Hge].
  - exists zero. split; [done|]. split; [apply wf_zero|]. symmetry. apply Z.div_small.
    split; [lia|]. destruct (Z.eq_dec (val a) 0) as [->|]; [lia|].
    pose proof (nbits_bounds (val a) ltac:(lia)) as Hbda.
    apply Z.lt_le_trans with (2 ^ nbits (val a)); [lia|].
    apply Z.le_trans with (2 ^ (nbits (val b) - 1)); [|lia]. apply Z.pow_le_mono_r; lia.
  - assert (val a ≠ 0) as Hanz. { intros E. rewrite E in Hge. unfold nbits in Hge at 2.
      cbn in Hge. lia. }
    pose proof (nbits_bounds (val a) ltac:(lia)) as Hbda.
    set (sh := nbits (val a) - nbits (val b)) in *.
    destruct (shl_spec b sh Hb ltac:(lia)) as [Hws Hvs].
    assert (val b * 2 ^ sh < M) as HsM.
    { apply Z.lt_le_trans with (2 ^ nbits (val b) * 2 ^ sh).
      - apply Z.mul_lt_mono_pos_r; [apply pow2_pos|]; lia.
      - rewrite <- Z.pow_add_r by lia. unfold M, sh. apply Z.pow_le_mono_r; lia. }
    pose proof (pow2_pos sh ltac:(lia)).
    rewrite Z.mod_small in Hvs by nia.
    destruct (div_loop_spec (Z.to_nat (sh + 1)) a (shl b sh) zero (val b) 0) as [Hw Hv];
      try done; try lia; try apply wf_zero.
    + rewrite Z2Nat.id by lia. by rewrite Z.add_simpl_r.
    + rewrite Z2Nat.id by lia.
      apply Z.lt_le_trans with (2 ^ nbits (val a)); [lia|].
      apply Z.le_trans with (2 ^ (nbits (val b) - 1) * 2 ^ (sh + 1)).
      * rewrite <- Z.pow_add_r by lia. apply Z.pow_le_mono_r; lia.
      * apply Z.mul_le_mono_nonneg_r; [apply Z.pow_nonneg|]; lia.
    + exists (div_loop (Z.to_nat (sh + 1)) a (shl b sh) zero).
      split; [done|]. split; [done|]. lia.
Qed.

Lemma div_zero a b : wf b → val b = 0 → div a b = Err DivisionByZero.
Proof. intros Hb H0. unfold div. rewrite (bits_spec b), H0 by done. done. Qed.

(** *** Low words and equality with a 64-bit number *)

Lemma GetLow64_spec a : wf a → GetLow64 a = val a mod 2 ^ 64.
Proof.
  intros Ha. pose proof (wf_nth a 0 Ha) as H0. pose proof (wf_nth a 1 Ha) as H1.
  unfold GetLow64, u64. rewrite uwrap_id.
  - rewrite Z.shiftl_mul_pow2, lor_add_shift by (done || lia).
    destruct Ha as [Hl Hd]. do 2 (destruct a as [|? a]; [done|]).
    cbn [nth] in *. unfold val. cbn [digits_val].
    replace (z + 2 ^ 32 * (z0 + 2 ^ 32 * digits_val 32 a))
      with (z + z0 * 2 ^ 32 + digits_val 32 a * 2 ^ 64) by lia.
    rewrite Z.mod_add by lia. symmetry. apply Z.mod_small. unfold ufits in *. lia.
  - rewrite Z.shiftl_mul_pow2 by lia. unfold ufits in *. lia.
Qed.

Lemma high_limbs_null_spec a n : wf a → (n + 2 <= WIDTH)%nat →
  high_limbs_null n a = (val (take (n + 2) a) <? 2 ^ 64).
Proof.
  intros Ha. induction n as [|i IH]; intros Hn; cbn [high_limbs_null].
  - symmetry. apply Z.ltb_lt. apply (take_bound a 2 Ha). lia.
  - replace (S i + 2)%nat with (S (i + 2)) by lia. rewrite take_S_val by (done || lia).
    pose proof (wf_nth a (i + 2) Ha) as Hi. pose proof (take_bound a (i + 2) Ha ltac:(lia)).
    rewrite IH by lia. unfold ufits in Hi.
    assert (2 ^ 64 <= 2 ^ (32 * Z.of_nat (i + 2))) by (apply Z.pow_le_mono_r; lia).
    set (E := 2 ^ (32 * Z.of_nat (i + 2))) in *.
    destruct (Z.eqb_spec a.[i + 2] 0) as [->|]; cbn [negb]; [f_equal; lia|].
    symmetry. apply Z.ltb_ge. nia.
Qed.

Lemma EqualTo_spec a b : wf a → ufits 64 b → EqualTo a b = (val a =? b).
Proof.
  intros Ha Hb. unfold EqualTo. rewrite high_limbs_null_spec by done.
  change (WIDTH - 2 + 2)%nat with WIDTH. rewrite take_all_wf by done.
  change 0xffffffff with (2 ^ 32 - 1). rewrite uwrap_land, Z.shiftr_div_pow2 by lia.
  unfold uwrap, ufits in *. pose proof (Z.div_mod b (2 ^ 32)).
  pose proof (Z.mod_pos_bound b (2 ^ 32)).
  destruct (Z.ltb_spec (val a) (2 ^ 64)); cbn [negb].
  - pose proof (GetLow64_spec a Ha) as Hlow.
    pose proof (wf_nth a 0 Ha). pose proof (wf_nth a 1 Ha). unfold ufits in *.
    unfold GetLow64, u64 in Hlow. rewrite uwrap_id, Z.shiftl_mul_pow2, lor_add_shift in Hlow
      by (unfold ufits; rewrite ?Z.shiftl_mul_pow2; lia).
    pose proof (val_bound a Ha). rewrite Z.mod_small in Hlow by lia. rewrite <- Hlow.
    destruct (Z.eqb_spec a.[1] (b / 2 ^ 32)), (Z.eqb_spec a.[0] (b mod 2 ^ 32)); cbn [negb];
      symmetry; (apply Z.eqb_eq || apply Z.eqb_neq); lia.
  - symmetry. apply Z.eqb_neq. lia.
Qed.

(** *** The compact encoding *)

(** The mantissa and the size byte that [GetCompact] chooses for a number. *)
Definition compact_raw (v n : Z) : Z :=
  if n <=? 3 then v * 2 ^ (8 * (3 - n)) else v / 2 ^ (8 * (n - 3)).
Definition compact_fields (v : Z) : Z * Z :=
  let n := (nbits v + 7) / 8 in
  let m := compact_raw v n in
  if 2 ^ 23 <=? m then (m / 2 ^ 8, n + 1) else (m, n).

(** The number a mantissa and a size byte stand for. *)
Definition compact_value (m n : Z) : Z :=
  if n <=? 3 then m / 2 ^ (8 * (3 - n)) else m * 2 ^ (8 * (n - 3)).

Lemma compact_raw_bound v n : 0 <= v < M → n = (nbits v + 7) / 8 →
  0 <= n <= 32 ∧ v < 2 ^ (8 * n) ∧ (v ≠ 0 → 2 ^ (8 * (n - 1)) <= v).
Proof.
  intros Hv ->. pose proof (nbits_nonneg v). pose proof (nbits_le v 256 ltac:(lia) Hv).
  pose proof (Z.div_mod (nbits v + 7) 8 ltac:(lia)).
  pose proof (Z.mod_pos_bound (nbits v + 7) 8 ltac:(lia)).
  set (k := (nbits v + 7) / 8) in *.
  assert (8 * k <= nbits v + 7 < 8 * k + 8) as Hk by lia.
  split; [lia|]. destruct (Z.eq_dec v 0) as [->|].
  - split; [apply pow2_pos; lia|done].
  - pose proof (nbits_bounds v ltac:(lia)). split.
    + apply Z.lt_le_trans with (2 ^ nbits v); [lia|]. apply Z.pow_le_mono_r; lia.
    + intros _. apply Z.le_trans with (2 ^ (nbits v - 1)); [|lia].
      destruct (Z.le_gt_cases 0 (8 * (k - 1))); [apply Z.pow_le_mono_r; lia|].
      rewrite (Z.pow_neg_r 2 (8 * (k - 1))) by lia. apply Z.pow_nonneg. lia.
Qed.

Lemma compact_raw_range v k : 0 <= v < M → k = (nbits v + 7) / 8 →
  0 <= compact_raw v k < 2 ^ 24 ∧ (v ≠ 0 → 2 ^ 16 <= compact_raw v k).
Proof.
  intros Hv Hk0. destruct (compact_raw_bound v k Hv Hk0) as (Hk & Hlt & Hge).
  unfold compact_raw. destruct (Z.leb_spec k 3).
  - assert (2 ^ (8 * k) * 2 ^ (8 * (3 - k)) = 2 ^ 24) as HE
      by (rewrite <- Z.pow_add_r by lia; f_equal; lia).
    pose proof (pow2_pos (8 * (3 - k)) ltac:(lia)). split; [nia|]. intros Hnz.
    specialize (Hge Hnz). destruct (Z.eq_dec k 0) as [E|].
    { rewrite E in Hlt. cbn in Hlt. lia. }
    assert (2 ^ (8 * (k - 1)) * 2 ^ (8 * (3 - k)) = 2 ^ 16) as HE'
      by (rewrite <- Z.pow_add_r by lia; f_equal; lia).
    nia.
  - pose proof (pow2_pos (8 * (k - 3)) ltac:(lia)). split.
    + split; [apply Z.div_pos; lia|]. apply Z.div_lt_upper_bound; [lia|].
      rewrite <- Z.pow_add_r by lia. replace (8 * (k - 3) + 24) with (8 * k) by lia. lia.
    + intros Hnz. specialize (Hge Hnz). apply Z.div_le_lower_bound; [lia|].
      rewrite <- Z.pow_add_r by lia. replace (8 * (k - 3) + 16) with (8 * (k - 1)) by lia. lia.
Qed.

(** The mantissa has 23 bits, keeps the sign bit clear, and stands for the
    number with its low [n - 3] bytes dropped. *)
Lemma compact_fields_spec v m n : 0 <= v < M → compact_fields v = (m, n) →
  0 <= m < 2 ^ 23 ∧ 0 <= n <= 33 ∧ (n = 33 → m < 2 ^ 16) ∧
  m = compact_raw v n ∧ (v ≠ 0 → 2 ^ 15 <= m).
Proof.
  intros Hv. unfold compact_fields. set (k := (nbits v + 7) / 8).
  destruct (compact_raw_bound v k Hv eq_refl) as (Hk & _ & _).
  destruct (compact_raw_range v k Hv eq_refl) as [Hr Hr'].
  destruct (Z.leb_spec (2 ^ 23) (compact_raw v k)) as [Hbig|Hsmall]; intros [= <- <-].
  - assert (2 ^ 15 <= compact_raw v k / 2 ^ 8 < 2 ^ 16) as Hm.
    { split; [apply Z.div_le_lower_bound|apply Z.div_lt_upper_bound]; lia. }
    split_and!; try lia. unfold compact_raw.
    destruct (Z.leb_spec k 3); destruct (Z.leb_spec (k + 1) 3); try lia.
    + replace (8 * (3 - k)) with (8 * (3 - (k + 1)) + 8) by lia.
      rewrite Z.pow_add_r, Z.mul_assoc by lia. apply Z.div_mul. lia.
    + replace k with 3 by lia. cbn. by rewrite Z.mul_1_r.
    + rewrite Z.div_div by (try apply Z.pow_nonzero; lia).
      rewrite <- Z.pow_add_r by lia. f_equal. f_equal. lia.
  - split_and!; try lia; done.
Qed.

(** The word the code shifts out of the limbs is the raw mantissa. *)
Lemma GetCompact_word a k : wf a → k = (nbits (val a) + 7) / 8 →
  (if k <=? 3 then u32 (u64 (Z.shiftl (GetLow64 a) (8 * (3 - k))))
   else u32 (GetLow64 (shr a (8 * (k - 3))))) = compact_raw (val a) k.
Proof.
  intros Ha Hk0. pose proof (val_bound a Ha) as Hv.
  destruct (compact_raw_bound _ k Hv Hk0) as (Hk & Hlt & _).
  destruct (compact_raw_range _ k Hv Hk0) as [Hr _].
  unfold compact_raw in *. destruct (Z.leb_spec k 3).
  - rewrite GetLow64_spec, Z.mod_small, Z.shiftl_mul_pow2 by
      (done || lia || (split; [lia|]; apply Z.lt_le_trans with (2 ^ (8 * k)); [lia|];
       apply Z.pow_le_mono_r; lia)).
    unfold u32, u64. rewrite (uwrap_id 64), (uwrap_id 32); unfold ufits; lia.
  - destruct (shr_spec a (8 * (k - 3)) Ha ltac:(lia)) as [Hw Hvs].
    rewrite GetLow64_spec, Hvs, Z.mod_small by (done || lia).
    unfold u32. apply uwrap_id. unfold ufits; lia.
Qed.

(** Assembling the two fields with [|] adds them. *)
Lemma compact_assemble m n (fneg : bool) : 0 <= m < 2 ^ 23 → 0 <= n < 256 →
  Z.lor (Z.lor m (u32 (Z.shiftl n 24)))
    (if fneg && negb (Z.land (Z.lor m (u32 (Z.shiftl n 24))) 0x007fffff =? 0)
     then 0x00800000 else 0)
  = m + n * 2 ^ 24 + (if fneg && negb (m =? 0) then 2 ^ 23 else 0).
Proof.
  intros Hm Hn. unfold u32. rewrite uwrap_id by (unfold ufits; rewrite Z.shiftl_mul_pow2; lia).
  rewrite Z.shiftl_mul_pow2, (lor_add_shift 24) by (unfold ufits; lia).
  change 0x007fffff with (2 ^ 23 - 1). rewrite land_ones_mod by lia.
  assert (m + n * 2 ^ 24 = m + (n * 2) * 2 ^ 23) as -> by lia.
  rewrite Z.mod_add, Z.mod_small by lia.
  destruct (fneg && negb (m =? 0)); [|rewrite Z.lor_0_r; lia].
  change 0x00800000 with (2 ^ 23). apply lor_pow2; [lia|].
  rewrite Z.testbit_false, Z.div_add, Z.div_small, Z.add_0_l by lia. apply Z.mod_mul. lia.
Qed.

Lemma GetCompact_spec a fneg m n : wf a → compact_fields (val a) = (m, n) →
  GetCompact a fneg = Ok (m + n * 2 ^ 24 + (if fneg && negb (m =? 0) then 2 ^ 23 else 0)).
Proof.
  intros Ha Hf. pose proof (val_bound a Ha) as Hv.
  destruct (compact_fields_spec _ _ _ Hv Hf) as (Hm & Hn & _).
  unfold compact_fields in Hf. unfold GetCompact. rewrite bits_spec by done.
  set (k := (nbits (val a) + 7) / 8) in *.
  destruct (compact_raw_range (val a) k Hv eq_refl) as [Hr _].
  rewrite GetCompact_word by done.
  change 0x00800000 with (Z.shiftl 1 23) at 1.
  rewrite land_pow2_testbit, negb_involutive, testbit_top by lia.
  destruct (Z.leb_spec (2 ^ 23) (compact_raw (val a) k)); injection Hf as <- <-;
    rewrite ?Z.shiftr_div_pow2 by lia;
    change 0x007fffff with (2 ^ 23 - 1) at 1; rewrite mask_high_zero by lia; cbn [negb Z.eqb];
    rewrite (proj2 (Z.ltb_lt _ 256)) by lia; cbn [negb];
    by rewrite compact_assemble by lia.
Qed.

(** What [SetCompact] decodes. *)
Lemma SetCompact_spec c m n s :
  0 <= m < 2 ^ 23 → 0 <= n < 256 → 0 <= s < 2 → c = m + s * 2 ^ 23 + n * 2 ^ 24 →
  let w := if n <=? 3 then m / 2 ^ (8 * (3 - n)) else m in
  ∃ a, SetCompact c = (a, negb (w =? 0) && (s =? 1),
         negb (w =? 0) && ((n >? 34) || ((w >? 0xff) && (n >? 33)) || ((w >? 0xffff) && (n >? 32))))
       ∧ wf a ∧ val a = compact_value m n mod M.
Proof.
  intros Hm Hn Hs Hc. cbv zeta. unfold SetCompact, compact_value.
  assert (Z.shiftr c 24 = n) as ->.
  { rewrite Z.shiftr_div_pow2 by lia. symmetry. apply Z.div_unique with (m + s * 2 ^ 23); lia. }
  assert (Z.land c 0x007fffff = m) as ->.
  { change 0x007fffff with (2 ^ 23 - 1). rewrite land_ones_mod by lia. subst c.
    replace (m + s * 2 ^ 23 + n * 2 ^ 24) with (m + (s + n * 2) * 2 ^ 23) by lia.
    rewrite Z.mod_add by lia. apply Z.mod_small. lia. }
  assert (negb (Z.land c 0x00800000 =? 0) = (s =? 1)) as ->.
  { change 0x00800000 with (Z.shiftl 1 23). rewrite land_pow2_testbit, negb_involutive by lia.
    assert (c / 2 ^ 23 = s + n * 2) as Hd.
    { subst c. replace (m + s * 2 ^ 23 + n * 2 ^ 24) with (m + (s + n * 2) * 2 ^ 23) by lia.
      rewrite Z.div_add, Z.div_small; lia. }
    destruct (Z.eqb_spec s 1); [apply Z.testbit_true|apply Z.testbit_false]; try lia;
      rewrite Hd, Z.mod_add, Z.mod_small; lia. }
  destruct (Z.leb_spec n 3).
  - rewrite Z.shiftr_div_pow2 by lia. eexists. split; [reflexivity|].
    assert (0 <= m / 2 ^ (8 * (3 - n)) < 2 ^ 23) as Hw.
    { pose proof (pow2_pos (8 * (3 - n)) ltac:(lia)).
      split; [apply Z.div_pos; lia|]. apply Z.div_lt_upper_bound; nia. }
    split; [apply wf_of_u64|]. rewrite val_of_u64 by (unfold ufits; lia).
    symmetry. apply Z.mod_small. unfold M. lia.
  - destruct (shl_spec (of_u64 m) (8 * (n - 3)) (wf_of_u64 m) ltac:(lia)) as [Hw Hv].
    eexists. split; [reflexivity|]. split; [done|].
    by rewrite Hv, val_of_u64 by (unfold ufits; lia).
Qed.

(** Any 32-bit word decodes to a well-formed number below [2^256 - 1]. *)
Lemma SetCompact_total c : ufits 32 c →
  ∃ a neg over, SetCompact c = (a, neg, over) ∧ wf a ∧ val a < M - 1.
Proof.
  intros Hc. unfold ufits in Hc.
  pose proof (Z.div_mod c (2 ^ 24) ltac:(lia)). pose proof (Z.mod_pos_bound c (2 ^ 24) ltac:(lia)).
  set (r := c mod 2 ^ 24) in *.
  pose proof (Z.div_mod r (2 ^ 23) ltac:(lia)). pose proof (Z.mod_pos_bound r (2 ^ 23) ltac:(lia)).
  set (m := r mod 2 ^ 23) in *. set (n := c / 2 ^ 24) in *. set (s := r / 2 ^ 23) in *.
  destruct (SetCompact_spec c m n s) as (a & Hs & Hwf & Hv); [lia..|].
  do 3 eexists. split; [exact Hs|]. split; [done|].
  pose proof (val_bound a Hwf). assert (val a ≠ M - 1); [|lia]. rewrite Hv. unfold compact_value.
  destruct (Z.leb_spec n 3).
  - assert (0 <= m / 2 ^ (8 * (3 - n)) <= m).
    { pose proof (pow2_pos (8 * (3 - n)) ltac:(lia)). split; [apply Z.div_pos; lia|].
      apply Z.div_le_upper_bound; nia. }
    unfold M. rewrite Z.mod_small by lia. lia.
  - intros Heq. apply (f_equal (fun x => x mod 2 ^ 8)) in Heq. revert Heq. unfold M.
    rewrite Z.mod_mod_divide by (exists (2 ^ 248); done).
    replace (8 * (n - 3)) with (8 * (n - 4) + 8) by lia.
    rewrite Z.pow_add_r, Z.mul_assoc, Z.mod_mul by lia. vm_compute. discriminate.
Qed.

(** Truncating to the mantissa loses less than one part in [2^15]. *)
Lemma compact_value_raw v m n : 0 <= v < M → compact_fields v = (m, n) →
  0 <= compact_value m n <= v ∧ (v - compact_value m n) * 2 ^ 15 <= v.
Proof.
  intros Hv Hf. destruct (compact_fields_spec _ _ _ Hv Hf) as (Hm & Hn & _ & Hraw & Hlow).
  unfold compact_value, compact_raw in *. destruct (Z.leb_spec n 3).
  - rewrite Hraw, Z.div_mul by (apply Z.pow_nonzero; lia). lia.
  - pose proof (pow2_pos (8 * (n - 3)) ltac:(lia)) as Hp.
    set (E := 2 ^ (8 * (n - 3))) in *.
    pose proof (Z.div_mod v E ltac:(lia)). pose proof (Z.mod_pos_bound v E ltac:(lia)).
    rewrite <- Hraw in *. destruct (Z.eq_dec v 0) as [->|Hnz]; [nia|].
    specialize (Hlow Hnz). nia.
Qed.

Lemma compact_raw_div v n : 0 <= n → compact_raw v n = v * 2 ^ 24 / 2 ^ (8 * n).
Proof.
  intros Hn. unfold compact_raw. destruct (Z.leb_spec n 3).
  - replace 24 with (8 * (3 - n) + 8 * n) by lia. rewrite Z.pow_add_r, Z.mul_assoc by lia.
    symmetry. apply Z.div_mul, Z.pow_nonzero; lia.
  - replace (8 * n) with (8 * (n - 3) + 24) by lia. rewrite Z.pow_add_r by lia.
    symmetry. apply Z.div_mul_cancel_r; [apply Z.pow_nonzero|]; lia.
Qed.

Lemma compact_raw_step v n n' : 0 <= v → 0 <= n < n' → compact_raw v n' <= compact_raw v n / 2 ^ 8.
Proof.
  intros Hv Hn. rewrite !compact_raw_div by lia.
  rewrite Z.div_div by (try apply Z.pow_nonzero; lia). rewrite <- Z.pow_add_r by lia.
  apply Z.div_le_compat_l; [nia|]. split; [apply pow2_pos; lia|apply Z.pow_le_mono_r; lia].
Qed.

(** The size byte is the only one that leaves a mantissa of 16 to 23 bits. *)
Lemma compact_size_unique v n n' : 0 <= v → 0 <= n → 0 <= n' →
  2 ^ 15 <= compact_raw v n < 2 ^ 23 → 2 ^ 15 <= compact_raw v n' < 2 ^ 23 → n = n'.
Proof.
  intros Hv Hn Hn' H1 H2.
  destruct (Z.lt_trichotomy n n') as [Hlt|[->|Hlt]]; [|done|];
    [pose proof (compact_raw_step v n n' Hv ltac:(lia))
    |pose proof (compact_raw_step v n' n Hv ltac:(lia))];
    [assert (compact_raw v n / 2 ^ 8 < 2 ^ 15)|assert (compact_raw v n' / 2 ^ 8 < 2 ^ 15)];
    try (apply Z.div_lt_upper_bound; lia); lia.
Qed.

(** Mantissas and sizes that [GetCompact] can produce for a nonzero number. *)
Definition compact_canonical (m n : Z) : Prop :=
  2 ^ 15 <= m < 2 ^ 23 ∧ 1 <= n <= 33 ∧ (n = 33 → m < 2 ^ 16) ∧
  (n < 3 → m mod 2 ^ (8 * (3 - n)) = 0).

Lemma compact_raw_value m n : compact_canonical m n → compact_raw (compact_value m n) n = m.
Proof.
  intros (Hm & Hn & _ & Hlow). unfold compact_raw, compact_value. destruct (Z.leb_spec n 3).
  - rewrite Z.mul_comm. symmetry. apply Z.div_exact; [apply Z.pow_nonzero; lia|].
    destruct (Z.eq_dec n 3) as [->|]; [apply Z.mod_1_r|apply Hlow; lia].
  - apply Z.div_mul, Z.pow_nonzero; lia.
Qed.

Lemma compact_value_bound m n : compact_canonical m n → 0 < compact_value m n < M.
Proof.
  intros Hc. pose proof (compact_raw_value m n Hc) as Hr. destruct Hc as (Hm & Hn & Hbig & _).
  unfold M. unfold compact_value in *. destruct (Z.leb_spec n 3).
  - assert (0 <= m / 2 ^ (8 * (3 - n)) <= m).
    { pose proof (pow2_pos (8 * (3 - n)) ltac:(lia)). split; [apply Z.div_pos; lia|].
      apply Z.div_le_upper_bound; nia. }
    split; [|lia]. destruct (Z.eq_dec (m / 2 ^ (8 * (3 - n))) 0) as [E|]; [|lia].
    rewrite E in Hr. unfold compact_raw in Hr.
    rewrite (proj2 (Z.leb_le n 3)), Z.mul_0_l in Hr by lia. lia.
  - pose proof (pow2_pos (8 * (n - 3)) ltac:(lia)). split; [nia|].
    destruct (Z.eq_dec n 33) as [->|].
    + specialize (Hbig eq_refl). change (2 ^ (8 * (33 - 3))) with (2 ^ 240). lia.
    + assert (2 ^ (8 * (n - 3)) <= 2 ^ 232) by (apply Z.pow_le_mono_r; lia). nia.
Qed.

Lemma compact_fields_value m n : compact_canonical m n →
  compact_fields (compact_value m n) = (m, n).
Proof.
  intros Hc. pose proof (compact_value_bound m n Hc) as Hv.
  pose proof (compact_raw_value m n Hc) as Hr. destruct Hc as (Hm & Hn & _).
  destruct (compact_fields (compact_value m n)) as [m' n'] eqn:Hf.
  destruct (compact_fields_spec (compact_value m n) _ _ ltac:(lia) Hf) as (Hm' & Hn' & _ & Hraw & Hlow).
  specialize (Hlow ltac:(lia)).
  assert (n' = n) as -> by (apply (compact_size_unique (compact_value m n)); lia).
  f_equal. congruence.
Qed.

Lemma SetCompact_positive m n : 0 <= m < 2 ^ 23 → 0 <= n <= 33 → (n = 33 → m < 2 ^ 16) →
  ∃ a, SetCompact (m + n * 2 ^ 24) = (a, false, false) ∧ wf a ∧ val a = compact_value m n mod M.
Proof.
  intros Hm Hn H33.
  destruct (SetCompact_spec (m + n * 2 ^ 24) m n 0) as (a & Hset & Hwf & Hval); try lia.
  exists a. split; [|done]. rewrite Hset. f_equal; [f_equal; apply andb_false_r|].
  apply andb_false_intro2. rewrite !orb_false_iff, !andb_false_iff, !Z.gtb_ltb, !Z.ltb_ge.
  destruct (Z.leb_spec n 3); lia.
Qed.

Lemma GetCompact_lossy a : wf a →
  ∃ c a', GetCompact a false = Ok c ∧ ufits 32 c ∧
    SetCompact c = (a', false, false) ∧ wf a' ∧
    val a' <= val a ∧ (val a - val a') * 2 ^ 15 <= val a.
Proof.
  intros Ha. pose proof (val_bound a Ha) as Hv.
  destruct (compact_fields (val a)) as [m n] eqn:Hf.
  destruct (compact_fields_spec _ _ _ Hv Hf) as (Hm & Hn & H33 & Hraw & Hlow).
  destruct (compact_value_raw _ _ _ Hv Hf) as [Hle Hloss].
  destruct (SetCompact_positive m n Hm Hn H33) as (a' & Hset & Hwf & Hval).
  exists (m + n * 2 ^ 24), a'. rewrite (GetCompact_spec a false m n) by done.
  rewrite Z.mod_small in Hval by lia. rewrite Hval.
  split; [cbn [andb]; f_equal; lia|]. split; [unfold ufits; lia|]. split_and!; (done || lia).
Qed.

(** ** Properties *)

(** C38: the operators of [arith_uint256] are the operations on the numbers
    their limbs stand for, and they keep eight 32-bit limbs.  Sums, differences,
    products, negation and steps are taken modulo [2^256], so the carries,
    borrows and 64-bit partial products lose nothing; shifts by any amount
    multiply and divide by powers of two; [bits] is the length in base two and
    the comparisons order the numbers; long division returns the floor of the
    quotient, and fails with [uint_error] exactly for a zero divisor. *)
Theorem uint256_arithmetic a b c n k : wf a → wf b → ufits 32 c → 0 <= n → ufits 64 k →
  (wf (add a b) ∧ val (add a b) = (val a + val b) mod M) ∧
  (wf (sub a b) ∧ val (sub a b) = (val a - val b) mod M) ∧
  (wf (mul a b) ∧ val (mul a b) = (val a * val b) mod M) ∧
  (wf (mul_u32 a c) ∧ val (mul_u32 a c) = (val a * c) mod M) ∧
  (wf (neg a) ∧ val (neg a) = (- val a) mod M) ∧
  (wf (incr a) ∧ val (incr a) = (val a + 1) mod M) ∧
  (wf (decr a) ∧ val (decr a) = (val a - 1) mod M) ∧
  (wf (shl a n) ∧ val (shl a n) = (val a * 2 ^ n) mod M) ∧
  (wf (shr a n) ∧ val (shr a n) = val a / 2 ^ n) ∧
  bits a = nbits (val a) ∧
  CompareTo a b = Z.sgn (val a - val b) ∧
  EqualTo a k = (val a =? k) ∧
  (if val b =? 0 then div a b = Err DivisionByZero
   else ∃ q, div a b = Ok q ∧ wf q ∧ val q = val a / val b).
Proof.
  intros Ha Hb Hc Hn Hk.
  split; [by apply add_spec|]. split; [by apply sub_spec|]. split; [by apply mul_spec|].
  split; [by apply mul_u32_spec|]. split; [by apply neg_spec|]. split; [by apply incr_spec|].
  split; [by apply decr_spec|]. split; [by apply shl_spec|]. split; [by apply shr_spec|].
  split; [by apply bits_spec|]. split; [by apply CompareTo_spec|]. split; [by apply EqualTo_spec|].
  destruct (Z.eqb_spec (val b) 0); [by apply div_zero|by apply div_spec].
Qed.

Lemma uint256_arithmetic_witness :
  val (mul (of_u64 (2 ^ 63)) (of_u64 33)) = (2 ^ 63 * 33) mod M ∧
  ∃ q, div (of_u64 (2 ^ 63)) (of_u64 33) = Ok q ∧ wf q ∧ val q = 2 ^ 63 / 33.
Proof.
  destruct (uint256_arithmetic (of_u64 (2 ^ 63)) (of_u64 33) 7 255 3
    (wf_of_u64 _) (wf_of_u64 _) ltac:(vm_compute; split; congruence) ltac:(lia)
    ltac:(vm_compute; split; congruence)) as (_ & _ & [_ H] & _ & _ & _ & _ & _ & _ & _ & _ & _ & Hd).
  split; [exact H|exact Hd].
Defined.

(** The compact form of difficulty targets.  Every 256-bit target has one:
    [GetCompact] never fails an assertion, fits in 32 bits, and [SetCompact]
    reads it back without reporting a sign or an overflow, as a target that is
    not larger and loses less than one part in [2^15].  A canonical compact word
    (sign bit clear, normalised mantissa, size at most 33 bytes) survives
    decoding and encoding unchanged. *)
Theorem compact_roundtrip :
  (∀ a, wf a → ∃ c a', GetCompact a false = Ok c ∧ ufits 32 c ∧
    SetCompact c = (a', false, false) ∧ wf a' ∧
    val a' <= val a ∧ (val a - val a') * 2 ^ 15 <= val a) ∧
  (∀ m n, compact_canonical m n → ∃ a, SetCompact (m + n * 2 ^ 24) = (a, false, false) ∧ wf a ∧
    GetCompact a false = Ok (m + n * 2 ^ 24)).
Proof.
  split; [exact GetCompact_lossy|]. intros m n Hc. pose proof (compact_value_bound m n Hc) as Hv.
  pose proof (compact_fields_value m n Hc) as Hf.
  destruct (compact_fields_spec (compact_value m n) _ _ ltac:(lia) Hf) as (Hm & Hn & H33 & _ & _).
  destruct (SetCompact_positive m n Hm Hn H33) as (a & Hset & Hwf & Hval).
  rewrite Z.mod_small in Hval by lia. exists a. split; [done|]. split; [done|].
  rewrite (GetCompact_spec a false m n) by (try rewrite Hval; done).
  cbn [andb]. f_equal. lia.
Qed.

Lemma compact_roundtrip_witness :
  (∃ c a', GetCompact (of_u64 123456789) false = Ok c ∧ ufits 32 c ∧
    SetCompact c = (a', false, false) ∧ wf a' ∧
    val a' <= 123456789 ∧ (123456789 - val a') * 2 ^ 15 <= 123456789) ∧
  ∃ a, SetCompact 0x1d00ffff = (a, false, false) ∧ wf a ∧ GetCompact a false = Ok 0x1d00ffff.
Proof.
  destruct compact_roundtrip as [H1 H2]. split.
  - apply (H1 (of_u64 123456789) (wf_of_u64 _)).
  - apply (H2 0xffff 0x1d). vm_compute. repeat split; congruence.
Defined.

End uint_facts.
