(* ===== verification/Transaction.v ===== *)
(** * Transactions and blocks: src/src/primitives/{transaction,block}.{h,cpp},
    src/src/amount.h, src/src/uint256.h

    The data types of transactions and block headers with their binary
    formats.  A [uint256] is its 32 bytes of memory.  The stream version flag
    [SERIALIZE_TRANSACTION_NO_WITNESS] is the argument [fAllowWitness]. *)

From S2P Require Import Prelude Serialize.

(** ** uint256.h *)

Abbreviation uint256 := (list Z).

Definition blob_null : uint256 := replicate 32 0.
Definition blob_IsNull (data : uint256) : bool := forallb (fun b => b =? 0) data.

(** [memcmp]: the sign of the first difference. *)
Fixpoint blob_Compare (a b : list Z) : Z :=
  match a, b with
  | x :: a', y :: b' => if x =? y then blob_Compare a' b' else if x <? y then -1 else 1
  | _, _ => 0
  end.
Definition blob_eqb (a b : uint256) : bool := blob_Compare a b =? 0.
Definition blob_ltb (a b : uint256) : bool := blob_Compare a b <? 0.

Definition blob_ok (h : uint256) : Prop := length h = 32%nat ∧ bytes_ok h.
Definition ser_uint256 (h : uint256) : list Z := h.
Definition deser_uint256 : reader uint256 := stream_read 32.

(** ** amount.h *)

Definition COIN : Z := 100000000.
Definition MAX_MONEY : Z := 50000000000 * COIN.
Definition MoneyRange (nValue : Z) : bool := (nValue >=? 0) && (nValue <=? MAX_MONEY).

(** ** Outpoints, inputs, outputs *)

Record COutPoint := mkOutPoint { op_hash : uint256; op_n : Z }.

Definition OutPoint_null : COutPoint := mkOutPoint blob_null (u32 (-1)).
Definition OutPoint_IsNull (o : COutPoint) : bool :=
  blob_IsNull (op_hash o) && (op_n o =? u32 (-1)).
Definition OutPoint_ltb (a b : COutPoint) : bool :=
  let cmp := blob_Compare (op_hash a) (op_hash b) in
  (cmp <? 0) || ((cmp =? 0) && (op_n a <? op_n b)).
Definition OutPoint_eqb (a b : COutPoint) : bool :=
  blob_eqb (op_hash a) (op_hash b) && (op_n a =? op_n b).

Abbreviation CScript := (list Z).

Record CTxIn := mkTxIn {
  prevout : COutPoint;
  scriptSig : CScript;
  nSequence : Z;
  scriptWitness : list (list Z)   (* CScriptWitness::stack *)
}.

Definition SEQUENCE_FINAL : Z := 0xffffffff.
Definition SEQUENCE_LOCKTIME_DISABLE_FLAG : Z := Z.shiftl 1 31.
Definition SEQUENCE_LOCKTIME_TYPE_FLAG : Z := Z.shiftl 1 22.
Definition SEQUENCE_LOCKTIME_MASK : Z := 0x0000ffff.
Definition SEQUENCE_LOCKTIME_GRANULARITY : Z := 9.

Record CTxOut := mkTxOut { nValue : Z; scriptPubKey : CScript }.

Definition TxOut_null : CTxOut := mkTxOut (-1) [].
Definition TxOut_IsNull (o : CTxOut) : bool := nValue o =? -1.

Record CTransaction := mkTx {
  tx_nVersion : Z;
  vin : list CTxIn;
  vout : list CTxOut;
  nLockTime : Z
}.

Definition tx_IsNull (tx : CTransaction) : bool :=
  match vin tx, vout tx with [], [] => true | _, _ => false end.
Definition IsCoinBase (tx : CTransaction) : bool :=
  match vin tx with [i] => OutPoint_IsNull (prevout i) | _ => false end.
Definition WitnessIsNull (stack : list (list Z)) : bool :=
  match stack with [] => true | _ => false end.
Definition HasWitness (tx : CTransaction) : bool :=
  existsb (fun i => negb (WitnessIsNull (scriptWitness i))) (vin tx).

(** ** Serialization *)

Definition ser_OutPoint (o : COutPoint) : list Z :=
  ser_uint256 (op_hash o) ++ ser_writedata32 (op_n o).
Definition deser_OutPoint : reader COutPoint :=
  h <-- deser_uint256 ;; i <-- ser_readdata32 ;; rret (mkOutPoint h i).

Definition ser_TxIn (i : CTxIn) : list Z :=
  ser_OutPoint (prevout i) ++ Serialize_bytes (scriptSig i) ++ ser_writedata32 (nSequence i).
Definition deser_TxIn : reader CTxIn :=
  o <-- deser_OutPoint ;; s <-- Unserialize_bytes ;; q <-- ser_readdata32 ;;
  rret (mkTxIn o s q []).

Definition ser_TxOut (o : CTxOut) : list Z :=
  ser_int64 (nValue o) ++ Serialize_bytes (scriptPubKey o).
Definition deser_TxOut : reader CTxOut :=
  v <-- deser_int64 ;; s <-- Unserialize_bytes ;; rret (mkTxOut v s).

(** [s << tx.vin[i].scriptWitness.stack], a vector of byte vectors. *)
Definition ser_stack (stack : list (list Z)) : list Z := Serialize_vector Serialize_bytes stack.
Definition deser_stack : reader (list (list Z)) := Unserialize_vector Unserialize_bytes.

Definition SerializeTransaction (fAllowWitness : bool) (tx : CTransaction) : list Z :=
  let flags := if fAllowWitness then (if HasWitness tx then Z.lor 0 1 else 0) else 0 in
  ser_int32 (tx_nVersion tx) ++
  (if negb (flags =? 0)
   then Serialize_vector ser_TxIn [] ++ ser_writedata8 flags else []) ++
  Serialize_vector ser_TxIn (vin tx) ++
  Serialize_vector ser_TxOut (vout tx) ++
  (if negb (Z.land flags 1 =? 0)
   then flat_map (fun i => ser_stack (scriptWitness i)) (vin tx) else []) ++
  ser_writedata32 (nLockTime tx).

(** [for (i...) s >> tx.vin[i].scriptWitness.stack;] *)
Fixpoint read_witnesses (ins : list CTxIn) : reader (list CTxIn) :=
  match ins with
  | [] => rret []
  | i :: ins' =>
      w <-- deser_stack ;; r <-- read_witnesses ins' ;;
      rret (mkTxIn (prevout i) (scriptSig i) (nSequence i) w :: r)
  end.

Definition UnserializeTransaction (fAllowWitness : bool) : reader CTransaction :=
  version <-- deser_int32 ;;
  ins <-- Unserialize_vector deser_TxIn ;;
  body <--
    (if (length ins =? 0)%nat && fAllowWitness then
       flags <-- ser_readdata8 ;;
       if negb (flags =? 0) then
         ins <-- Unserialize_vector deser_TxIn ;;
         outs <-- Unserialize_vector deser_TxOut ;;
         rret (flags, ins, outs)
       else rret (flags, ins, [])
     else
       outs <-- Unserialize_vector deser_TxOut ;;
       rret (0, ins, outs)) ;;
  let '(flags, ins, outs) := body in
  wit <--
    (if negb (Z.land flags 1 =? 0) && fAllowWitness then
       ins' <-- read_witnesses ins ;; rret (Z.lxor flags 1, ins')
     else rret (flags, ins)) ;;
  let '(flags, ins) := wit in
  if negb (flags =? 0) then rfail UnknownTxData
  else
    lock <-- ser_readdata32 ;;
    rret (mkTx version ins outs lock).

(** ** Total output value *)

Inductive value_error := ValueOutOfRange.

(** The addition is done in [int64_t] before the range test. *)
Fixpoint GetValueOut_from (IsAssetScript : CScript → bool) (fAreEnforcedValues : bool)
    (outs : list CTxOut) (nValueOut : Z) : result value_error Z :=
  match outs with
  | [] => Ok nValueOut
  | o :: outs' =>
      if negb fAreEnforcedValues && IsAssetScript (scriptPubKey o)
      then GetValueOut_from IsAssetScript fAreEnforcedValues outs' nValueOut
      else
        let nValueOut := i64 (nValueOut + nValue o) in
        if negb (MoneyRange (nValue o)) || negb (MoneyRange nValueOut)
        then Err ValueOutOfRange
        else GetValueOut_from IsAssetScript fAreEnforcedValues outs' nValueOut
  end.
Definition GetValueOut (IsAssetScript : CScript → bool) (fAreEnforcedValues : bool)
    (tx : CTransaction) : result value_error Z :=
  GetValueOut_from IsAssetScript fAreEnforcedValues (vout tx) 0.

(** ** Block headers and blocks *)

Record CBlockHeader := mkHeader {
  nVersion : Z;
  hashPrevBlock : uint256;
  hashMerkleRoot : uint256;
  nTime : Z;
  nBits : Z;
  nNonce : Z;
  nHeight : Z;
  nNonce64 : Z;
  mix_hash : uint256
}.

Definition header_null : CBlockHeader :=
  mkHeader 0 blob_null blob_null 0 0 0 0 0 blob_null.
Definition header_IsNull (h : CBlockHeader) : bool := nBits h =? 0.
Definition GetBlockTime (h : CBlockHeader) : Z := nTime h.

Definition nPHIHASHActivationTime : Z := 1749020401.       (* [nGenesisTime + 1], set for every network *)

Definition ser_header (h : CBlockHeader) : list Z :=
  ser_int32 (nVersion h) ++ ser_uint256 (hashPrevBlock h) ++
  ser_uint256 (hashMerkleRoot h) ++ ser_writedata32 (nTime h) ++ ser_writedata32 (nBits h) ++
  (if nTime h <? nPHIHASHActivationTime then ser_writedata32 (nNonce h)
   else ser_writedata32 (nHeight h) ++ ser_writedata64 (nNonce64 h) ++ ser_uint256 (mix_hash h)).

(** Deserialization into a header constructed by [SetNull]. *)
Definition deser_header : reader CBlockHeader :=
  ver <-- deser_int32 ;;
  prev <-- deser_uint256 ;;
  root <-- deser_uint256 ;;
  time <-- ser_readdata32 ;;
  bits <-- ser_readdata32 ;;
  if time <? nPHIHASHActivationTime then
    nonce <-- ser_readdata32 ;;
    rret (mkHeader ver prev root time bits nonce 0 0 blob_null)
  else
    height <-- ser_readdata32 ;; nonce64 <-- ser_readdata64 ;; mix <-- deser_uint256 ;;
    rret (mkHeader ver prev root time bits 0 height nonce64 mix).

(** [CPHIHASHInput]: the header without the nonce and the mix hash. *)
Definition ser_PHIHASHInput (h : CBlockHeader) : list Z :=
  ser_int32 (nVersion h) ++ ser_uint256 (hashPrevBlock h) ++
  ser_uint256 (hashMerkleRoot h) ++ ser_writedata32 (nTime h) ++ ser_writedata32 (nBits h) ++
  ser_writedata32 (nHeight h).

Record CBlock := mkBlock { blk_header : CBlockHeader; vtx : list CTransaction }.

Definition ser_block (fAllowWitness : bool) (b : CBlock) : list Z :=
  ser_header (blk_header b) ++ Serialize_vector (SerializeTransaction fAllowWitness) (vtx b).
Definition deser_block (fAllowWitness : bool) : reader CBlock :=
  h <-- deser_header ;; txs <-- Unserialize_vector (UnserializeTransaction fAllowWitness) ;;
  rret (mkBlock h txs).

(** ** Well-formed values *)

Definition OutPoint_ok (o : COutPoint) : Prop := length (op_hash o) = 32%nat ∧ ufits 32 (op_n o).
Definition vector_fits {A} (v : list A) : Prop := Z.of_nat (length v) <= MAX_SIZE.
Definition TxIn_ok (i : CTxIn) : Prop :=
  OutPoint_ok (prevout i) ∧ vector_fits (scriptSig i) ∧ ufits 32 (nSequence i).
Definition witness_ok (i : CTxIn) : Prop :=
  vector_fits (scriptWitness i) ∧ Forall vector_fits (scriptWitness i).
Definition TxOut_ok (o : CTxOut) : Prop := sfits 64 (nValue o) ∧ vector_fits (scriptPubKey o).
Definition tx_ok (tx : CTransaction) : Prop :=
  sfits 32 (tx_nVersion tx) ∧ vector_fits (vin tx) ∧ Forall TxIn_ok (vin tx) ∧
  Forall witness_ok (vin tx) ∧
  vector_fits (vout tx) ∧ Forall TxOut_ok (vout tx) ∧ ufits 32 (nLockTime tx).

(** What a stream without witnesses keeps of an input. *)
Definition strip_input (i : CTxIn) : CTxIn := mkTxIn (prevout i) (scriptSig i) (nSequence i) [].
Definition strip_witness (tx : CTransaction) : CTransaction :=
  mkTx (tx_nVersion tx) (map strip_input (vin tx)) (vout tx) (nLockTime tx).

(** ** Round trips *)

Lemma deser_OutPoint_write o rest : OutPoint_ok o → deser_OutPoint (ser_OutPoint o ++ rest) = Ok (o, rest).
Proof.
  destruct o as [h n]. intros [Hh Hn]; cbn in Hh, Hn. unfold deser_OutPoint, ser_OutPoint, deser_uint256, ser_uint256.
  by read_all.
Qed.
#[global] Hint Resolve deser_OutPoint_write : phi.

Lemma deser_TxIn_write i rest : TxIn_ok i → deser_TxIn (ser_TxIn i ++ rest) = Ok (strip_input i, rest).
Proof.
  intros (Ho & Hs & Hq). unfold deser_TxIn, ser_TxIn, strip_input. by read_all.
Qed.

Lemma deser_TxOut_write o rest : TxOut_ok o → deser_TxOut (ser_TxOut o ++ rest) = Ok (o, rest).
Proof. intros [Hv Hs]. destruct o. unfold deser_TxOut, ser_TxOut. by read_all. Qed.
#[global] Hint Resolve deser_TxOut_write : phi.

Lemma deser_stack_write i rest : witness_ok i →
  deser_stack (ser_stack (scriptWitness i) ++ rest) = Ok (scriptWitness i, rest).
Proof.
  intros [Hl Hf]. apply Unserialize_vector_write; [done|].
  intros x r Hx. rewrite Forall_forall in Hf. apply Unserialize_bytes_write. by apply Hf.
Qed.
#[global] Hint Resolve deser_stack_write : phi.

(** Elements that are read back as another value. *)
Lemma read_elements_map {A B} (ser : A → list Z) (deser : reader B) (f : A → B) v rest :
  (∀ x r, x ∈ v → deser (ser x ++ r) = Ok (f x, r)) →
  read_elements deser (length v) (flat_map ser v ++ rest) = Ok (map f v, rest).
Proof.
  induction v as [|x v IH]; intros H; cbn [read_elements flat_map length map]; [done|].
  rewrite <- app_assoc. erewrite rseq_ok by (apply H; left).
  erewrite rseq_ok by (apply IH; intros; apply H; by right). done.
Qed.

Lemma Unserialize_vector_map {A B} (ser : A → list Z) (deser : reader B) (f : A → B) v rest :
  vector_fits v → (∀ x r, x ∈ v → deser (ser x ++ r) = Ok (f x, r)) →
  Unserialize_vector deser (Serialize_vector ser v ++ rest) = Ok (map f v, rest).
Proof.
  intros Hv H. unfold Unserialize_vector, Serialize_vector. rewrite <- app_assoc.
  unfold vector_fits, MAX_SIZE in Hv.
  erewrite rseq_ok; cycle 1.
  { rewrite ReadCompactSize_write by (unfold ufits; lia).
    by rewrite Z.gtb_ltb, (proj2 (Z.ltb_ge MAX_SIZE _)) by (unfold MAX_SIZE; lia). }
  unfold u32. rewrite uwrap_id by (unfold ufits; lia). rewrite Nat2Z.id.
  by apply read_elements_map.
Qed.

Lemma deser_vin_write ins rest : vector_fits ins → Forall TxIn_ok ins →
  Unserialize_vector deser_TxIn (Serialize_vector ser_TxIn ins ++ rest) = Ok (map strip_input ins, rest).
Proof.
  intros Hl Hf. apply Unserialize_vector_map; [done|]. intros x r Hx.
  apply deser_TxIn_write. rewrite Forall_forall in Hf. by apply Hf.
Qed.

Lemma deser_vout_write outs rest : vector_fits outs → Forall TxOut_ok outs →
  Unserialize_vector deser_TxOut (Serialize_vector ser_TxOut outs ++ rest) = Ok (outs, rest).
Proof.
  intros Hl Hf. apply Unserialize_vector_write; [done|]. intros x r Hx.
  apply deser_TxOut_write. rewrite Forall_forall in Hf. by apply Hf.
Qed.
#[global] Hint Resolve deser_vin_write deser_vout_write : phi.

Lemma read_witnesses_write ins rest : Forall witness_ok ins →
  read_witnesses (map strip_input ins) (flat_map (fun i => ser_stack (scriptWitness i)) ins ++ rest)
  = Ok (ins, rest).
Proof.
  induction 1 as [|i ins Hi Hf IH]; cbn [map read_witnesses flat_map]; [done|].
  rewrite <- app_assoc. erewrite rseq_ok by eauto with phi nocore. erewrite rseq_ok by apply IH.
  by destruct i.
Qed.
#[global] Hint Resolve read_witnesses_write : phi.

Lemma HasWitness_false tx : HasWitness tx = false → strip_witness tx = tx.
Proof.
  destruct tx as [ver ins outs lock]. unfold HasWitness, strip_witness. cbn [vin tx_nVersion vout nLockTime].
  intros H. f_equal. induction ins as [|[o s q w] ins IH]; [done|].
  cbn [existsb scriptWitness] in H. apply orb_false_iff in H as [Hw H].
  destruct w; [|done]. cbn [map]. by rewrite IH.
Qed.

Lemma map_strip_length ins : length (map strip_input ins) = length ins.
Proof. apply length_map. Qed.

(** The basic format, read by a stream for which an empty [vin] is not
    mistaken for the extended format. *)
Lemma deser_tx_basic fAllow tx rest : tx_ok tx → (vin tx ≠ [] ∨ fAllow = false) →
  UnserializeTransaction fAllow (SerializeTransaction false tx ++ rest) = Ok (strip_witness tx, rest).
Proof.
  intros (Hv & Hil & Hi & Hw & Hol & Ho & Hlk) Hne.
  unfold UnserializeTransaction, SerializeTransaction. change (Z.land 0 1) with 0. cbn [Z.eqb negb app].
  rewrite <- !app_assoc. erewrite rseq_ok by eauto with phi nocore. erewrite rseq_ok by eauto with phi.
  assert ((length (map strip_input (vin tx)) =? 0)%nat && fAllow = false) as ->.
  { destruct Hne as [Hne| ->]; [|apply andb_false_r]. rewrite length_map.
    by destruct (vin tx). }
  rewrite rseq_assoc. erewrite rseq_ok by eauto with phi nocore.
  rewrite rseq_ret. change (Z.land 0 1) with 0. cbn [Z.eqb negb andb].
  rewrite rseq_ret. cbn [Z.eqb negb].
  erewrite rseq_ok by eauto with phi nocore. done.
Qed.

Lemma deser_tx_extended tx rest : tx_ok tx → HasWitness tx = true →
  UnserializeTransaction true (SerializeTransaction true tx ++ rest) = Ok (tx, rest).
Proof.
  intros (Hv & Hil & Hi & Hw & Hol & Ho & Hlk) Hwit.
  unfold UnserializeTransaction, SerializeTransaction. rewrite Hwit.
  change (Z.lor 0 1) with 1. change (Z.land 1 1) with 1. cbn [Z.eqb negb].
  rewrite <- !app_assoc. erewrite rseq_ok by eauto with phi nocore.
  erewrite rseq_ok by (apply (deser_vin_write []); [done|constructor]).
  cbn [map length Nat.eqb andb]. rewrite rseq_assoc. erewrite rseq_ok by (by apply readdata8_write).
  cbn [Z.eqb negb]. rewrite rseq_assoc. erewrite rseq_ok by eauto with phi nocore.
  rewrite rseq_assoc. erewrite rseq_ok by eauto with phi nocore.
  rewrite rseq_ret. change (Z.land 1 1) with 1. cbn [Z.eqb negb andb].
  rewrite rseq_assoc. erewrite rseq_ok by eauto with phi nocore.
  rewrite rseq_ret. change (Z.lxor 1 1) with 0. cbn [Z.eqb negb].
  erewrite rseq_ok by eauto with phi nocore. by destruct tx.
Qed.

Lemma ser_tx_no_witness tx : HasWitness tx = false →
  SerializeTransaction true tx = SerializeTransaction false tx.
Proof. intros H. unfold SerializeTransaction. by rewrite H. Qed.

Lemma HasWitness_vin tx : HasWitness tx = true → vin tx ≠ [].
Proof. unfold HasWitness. by destruct (vin tx). Qed.

Lemma deser_tx_write tx rest : tx_ok tx → vin tx ≠ [] →
  UnserializeTransaction true (SerializeTransaction true tx ++ rest) = Ok (tx, rest).
Proof.
  intros Hok Hne. destruct (HasWitness tx) eqn:Hw; [by apply deser_tx_extended|].
  rewrite ser_tx_no_witness, deser_tx_basic by auto. by rewrite HasWitness_false.
Qed.

(** ** Block headers *)

(** The fields of the other proof-of-work era are not transmitted and keep the
    value [SetNull] gives them. *)
Definition header_ok (h : CBlockHeader) : Prop :=
  sfits 32 (nVersion h) ∧ length (hashPrevBlock h) = 32%nat ∧ length (hashMerkleRoot h) = 32%nat ∧
  ufits 32 (nTime h) ∧ ufits 32 (nBits h) ∧
  if nTime h <? nPHIHASHActivationTime
  then ufits 32 (nNonce h) ∧ nHeight h = 0 ∧ nNonce64 h = 0 ∧ mix_hash h = blob_null
  else nNonce h = 0 ∧ ufits 32 (nHeight h) ∧ ufits 64 (nNonce64 h) ∧ length (mix_hash h) = 32%nat.

Lemma deser_header_write h rest : header_ok h → deser_header (ser_header h ++ rest) = Ok (h, rest).
Proof.
  destruct h as [ver prev root time bits nonce height nonce64 mix].
  unfold header_ok, deser_header, ser_header, deser_uint256, ser_uint256.
  cbn [nVersion hashPrevBlock hashMerkleRoot nTime nBits nNonce nHeight nNonce64 mix_hash].
  intros (Hv & Hp & Hr & Ht & Hb & Hera).
  destruct (time <? nPHIHASHActivationTime) eqn:E; [destruct Hera as (Hn & -> & -> & ->)
    |destruct Hera as (-> & Hh & Hn & Hm)]; read_all; rewrite E; by read_all.
Qed.
#[global] Hint Resolve deser_header_write : phi.

Definition block_ok (b : CBlock) : Prop :=
  header_ok (blk_header b) ∧ vector_fits (vtx b) ∧
  Forall (fun tx => tx_ok tx ∧ vin tx ≠ []) (vtx b).

(** ** Output values *)

Definition sum_values (outs : list CTxOut) : Z := foldr (fun o s => nValue o + s) 0 outs.

Lemma MoneyRange_true v : MoneyRange v = true ↔ 0 <= v <= MAX_MONEY.
Proof. unfold MoneyRange. rewrite andb_true_iff, Z.geb_le, Z.leb_le. done. Qed.

Lemma MoneyRange_false v : MoneyRange v = false ↔ ¬ (0 <= v <= MAX_MONEY).
Proof. rewrite <- MoneyRange_true. by destruct (MoneyRange v). Qed.

Lemma sum_values_nonneg outs :
  forallb (fun o => MoneyRange (nValue o)) outs = true → 0 <= sum_values outs.
Proof.
  induction outs as [|o outs IH]; cbn [forallb sum_values foldr]; [lia|].
  rewrite andb_true_iff, MoneyRange_true. intros [Ho H].
  specialize (IH H). unfold sum_values in IH. lia.
Qed.

(** Two amounts in range can exceed [int64_t], but then their wrapped sum is
    negative: it is never in range. *)
Lemma wrapped_sum_range a b : 0 <= a <= MAX_MONEY → 0 <= b <= MAX_MONEY →
  MoneyRange (i64 (a + b)) = (a + b <=? MAX_MONEY) ∧
  (a + b <= MAX_MONEY → i64 (a + b) = a + b).
Proof.
  intros Ha Hb. change MAX_MONEY with 5000000000000000000 in *. unfold i64, swrap.
  change (2 ^ (64 - 1)) with 9223372036854775808. change (2 ^ 64) with 18446744073709551616.
  split.
  - destruct (Z.leb_spec (a + b) 5000000000000000000); [apply MoneyRange_true|apply MoneyRange_false];
      change MAX_MONEY with 5000000000000000000.
    + rewrite Z.mod_small by lia. lia.
    + destruct (Z.lt_ge_cases (a + b) 9223372036854775808).
      * rewrite Z.mod_small by lia. lia.
      * rewrite <- (Z.mod_unique (a + b + 9223372036854775808) 18446744073709551616 1
            (a + b + 9223372036854775808 - 18446744073709551616)) by lia. lia.
  - intros. rewrite Z.mod_small by lia. lia.
Qed.

Lemma GetValueOut_from_spec IsAsset outs acc : 0 <= acc <= MAX_MONEY →
  GetValueOut_from IsAsset true outs acc
  = if forallb (fun o => MoneyRange (nValue o)) outs && (acc + sum_values outs <=? MAX_MONEY)
    then Ok (acc + sum_values outs) else Err ValueOutOfRange.
Proof.
  revert acc; induction outs as [|o outs IH]; intros acc Hacc; cbn [GetValueOut_from forallb andb negb].
  - cbn [sum_values foldr]. rewrite Z.add_0_r, (proj2 (Z.leb_le _ _)) by lia. done.
  - change (sum_values (o :: outs)) with (nValue o + sum_values outs).
    destruct (MoneyRange (nValue o)) eqn:Ho; cbn [negb andb orb]; [|done].
    apply MoneyRange_true in Ho. destruct (wrapped_sum_range acc (nValue o) Hacc Ho) as [Hr Hid].
    rewrite Hr. rewrite Z.add_assoc. destruct (Z.leb_spec (acc + nValue o) MAX_MONEY); cbn [negb].
    + rewrite Hid by done. apply IH. lia.
    + destruct (forallb _ outs) eqn:Hf; [|done]. apply sum_values_nonneg in Hf.
      cbn [andb]. by rewrite (proj2 (Z.leb_gt _ _)) by lia.
Qed.

(** ** Properties *)

(** The byte after the version says which format a transaction is written in: it is the
    number of inputs, and zero for the empty list that marks the extended format. *)
Definition extended_format (bytes : list Z) : Prop := nth 4 bytes 0 = 0.

Lemma compact_first n : 0 < n → ∃ b l, WriteCompactSize n = b :: l ∧ b ≠ 0.
Proof.
  intros Hn. unfold WriteCompactSize, ser_writedata8. repeat case_match; eexists _, _; (split; [reflexivity|]); try done.
  apply Z.ltb_lt in H. unfold u8. rewrite uwrap_id; [lia|unfold ufits; lia].
Qed.
Lemma format_marked allow tx : vin tx ≠ [] →
  extended_format (SerializeTransaction allow tx) ↔ allow = true ∧ HasWitness tx = true.
Proof.
  intros Hne. unfold extended_format, SerializeTransaction. rewrite app_nth2 by (vm_compute; lia). change (4 - length (ser_int32 (tx_nVersion tx)))%nat with 0%nat.
  destruct (compact_first (Z.of_nat (length (vin tx)))) as (x & l & Hx & Hx0); [destruct (vin tx); [done|cbn; lia]|].
  destruct allow, (HasWitness tx); cbn; unfold Serialize_vector; rewrite ?Hx; cbn; naive_solver.
Qed.

(** C39: transactions survive the wire.  A transaction with at least one input, fields that
    fit their widths and vectors within the limit of the reader, written and read by
    streams that allow witnesses, is read back whole; on streams that do not, it is read
    back without its witnesses.  The extended format is chosen exactly when the stream
    allows witnesses and an input has one, and the empty input list that marks it is
    never mistaken for the transaction's own. *)
Theorem transaction_roundtrip tx rest : tx_ok tx → vin tx ≠ [] →
  UnserializeTransaction true (SerializeTransaction true tx ++ rest) = Ok (tx, rest) ∧
  UnserializeTransaction true (SerializeTransaction false tx ++ rest) = Ok (strip_witness tx, rest) ∧
  UnserializeTransaction false (SerializeTransaction false tx ++ rest) = Ok (strip_witness tx, rest) ∧
  (∀ allow, extended_format (SerializeTransaction allow tx) ↔ allow = true ∧ HasWitness tx = true).
Proof.
  intros Hok Hne. split; [by apply deser_tx_write|]. split; [by apply deser_tx_basic; auto|]. split; [by apply deser_tx_basic; auto|].
  intros allow. by apply format_marked.
Qed.

Definition sample_tx : CTransaction :=
  mkTx 2 [mkTxIn (mkOutPoint blob_null 7) [0x51] 0xfffffffe [[1; 2]; []]]
       [mkTxOut 5000 [0x51]] 17.

Lemma sample_tx_ok : tx_ok sample_tx.
Proof. unfold tx_ok. repeat split; repeat constructor; vm_compute; congruence. Qed.

Lemma transaction_roundtrip_witness :
  UnserializeTransaction true (SerializeTransaction true sample_tx ++ [9]) = Ok (sample_tx, [9]).
Proof. apply (transaction_roundtrip sample_tx [9] sample_tx_ok). discriminate. Defined.

(** Blocks survive the wire: the header in the format of its era (chosen by
    its own time stamp) and every transaction with its witnesses. *)
Theorem block_roundtrip b rest : block_ok b →
  deser_block true (ser_block true b ++ rest) = Ok (b, rest).
Proof.
  intros (Hh & Hl & Hf). unfold deser_block, ser_block. rewrite <- app_assoc.
  erewrite rseq_ok by eauto with phi nocore.
  erewrite rseq_ok; cycle 1.
  { apply Unserialize_vector_write; [done|]. intros tx r Hin. rewrite Forall_forall in Hf.
    destruct (Hf tx Hin). by apply deser_tx_write. }
  by destruct b.
Qed.

Definition sample_block : CBlock :=
  mkBlock (mkHeader (-1) blob_null blob_null 1750518590 0x1d00ffff 0 12 99 blob_null) [sample_tx].

Lemma block_roundtrip_witness :
  deser_block true (ser_block true sample_block ++ []) = Ok (sample_block, []).
Proof.
  apply (block_roundtrip sample_block []). split; [|split].
  - vm_compute. repeat split; congruence.
  - vm_compute. congruence.
  - constructor; [|constructor]. split; [apply sample_tx_ok|discriminate].
Defined.

(** With enforced values, [GetValueOut] returns the exact sum of the output
    values when every value and the sum are in the money range, and throws
    otherwise, for outputs of any 64-bit value: although two amounts in range
    can overflow [int64_t], a wrapped sum is never taken for a valid one. *)
Theorem GetValueOut_exact IsAssetScript tx :
  GetValueOut IsAssetScript true tx
  = if forallb (fun o => MoneyRange (nValue o)) (vout tx) && (sum_values (vout tx) <=? MAX_MONEY)
    then Ok (sum_values (vout tx)) else Err ValueOutOfRange.
Proof. unfold GetValueOut. rewrite GetValueOut_from_spec; [done|vm_compute; split; congruence]. Qed.

(** The sum of two amounts that are both in range may not fit [int64_t], the
    type in which it is computed. *)
Lemma money_sum_overflows :
  MoneyRange MAX_MONEY = true ∧ ¬ sfits 64 (MAX_MONEY + MAX_MONEY).
Proof. split; [done|]. vm_compute. intros [_ H]. discriminate. Qed.
