(* ===== verification/Chain.v ===== *)
(** * The block index: src/src/chain.h, chain.cpp and the part of
    validation.cpp that grows it

    Block index entries live in a heap; a [CBlockIndex*] is an address
    ([positive]), [nullptr] is [None].  [GetAncestor] follows the skip
    pointers; the lemmas compare it with following [pprev] step by step, under
    the invariant [tree_ok] that [AddToBlockIndex] maintains.  Heights are
    mathematical integers: an [int] height does not wrap before 2^31 blocks. *)

From stdpp Require Import gmap sorting.
From S2P Require Import Prelude Serialize ArithUint256 Transaction.
Import base_uint arith_uint256 uint_facts.

(** ** Block status *)

Definition BLOCK_VALID_TREE : Z := 2.
Definition BLOCK_VALID_TRANSACTIONS : Z := 3.
Definition BLOCK_VALID_CHAIN : Z := 4.
Definition BLOCK_VALID_SCRIPTS : Z := 5.
Definition BLOCK_VALID_MASK : Z :=
  Z.lor 1 (Z.lor BLOCK_VALID_TREE (Z.lor BLOCK_VALID_TRANSACTIONS
    (Z.lor BLOCK_VALID_CHAIN BLOCK_VALID_SCRIPTS))).
Definition BLOCK_HAVE_DATA : Z := 8.
Definition BLOCK_HAVE_UNDO : Z := 16.
Definition BLOCK_FAILED_VALID : Z := 32.
Definition BLOCK_FAILED_CHILD : Z := 64.
Definition BLOCK_FAILED_MASK : Z := Z.lor BLOCK_FAILED_VALID BLOCK_FAILED_CHILD.

Definition ptr : Type := positive.

(** The fields of [CBlockIndex] that the modelled code reads or writes;
    [phashBlock] is the hash it points to. *)
Record CBlockIndex := mkIndex {
  phashBlock : uint256;
  pprev : option ptr;
  pskip : option ptr;
  bi_nHeight : Z;
  nChainWork : uint;
  nTx : Z;
  nChainTx : Z;
  nStatus : Z;
  bi_header : CBlockHeader;   (* nVersion, hashMerkleRoot, nTime, nBits, nonces *)
  nSequenceId : Z;
  nTimeMax : Z
}.
Definition bi_nTime (b : CBlockIndex) : Z := nTime (bi_header b).
Definition bi_nBits (b : CBlockIndex) : Z := nBits (bi_header b).
Definition bi_nVersion (b : CBlockIndex) : Z := nVersion (bi_header b).

Definition set_nStatus (b : CBlockIndex) (s : Z) : CBlockIndex :=
  mkIndex (phashBlock b) (pprev b) (pskip b) (bi_nHeight b) (nChainWork b) (nTx b) (nChainTx b)
    s (bi_header b) (nSequenceId b) (nTimeMax b).

Definition set_hash (b : CBlockIndex) (h : uint256) : CBlockIndex :=
  mkIndex h (pprev b) (pskip b) (bi_nHeight b) (nChainWork b) (nTx b) (nChainTx b)
    (nStatus b) (bi_header b) (nSequenceId b) (nTimeMax b).
Definition set_pprev (b : CBlockIndex) (q : option ptr) (h : Z) : CBlockIndex :=
  mkIndex (phashBlock b) q (pskip b) h (nChainWork b) (nTx b) (nChainTx b)
    (nStatus b) (bi_header b) (nSequenceId b) (nTimeMax b).
Definition set_pskip (b : CBlockIndex) (s : option ptr) : CBlockIndex :=
  mkIndex (phashBlock b) (pprev b) s (bi_nHeight b) (nChainWork b) (nTx b) (nChainTx b)
    (nStatus b) (bi_header b) (nSequenceId b) (nTimeMax b).
Definition set_work (b : CBlockIndex) (t : Z) (w : uint) : CBlockIndex :=
  mkIndex (phashBlock b) (pprev b) (pskip b) (bi_nHeight b) w (nTx b) (nChainTx b)
    (nStatus b) (bi_header b) (nSequenceId b) t.

(** [CBlockIndex(const CBlockHeader& block)] *)
Definition index_of_header (h : CBlockHeader) : CBlockIndex :=
  mkIndex [] None None (nHeight h) zero 0 0 0 h 0 0.

Inductive chain_error := NullDereference | ChainAssert | OutOfFuel | UintError.

Definition IsValid (b : CBlockIndex) (nUpTo : Z) : result chain_error bool :=
  if negb (Z.land nUpTo (Z.lnot BLOCK_VALID_MASK) =? 0) then Err ChainAssert
  else if negb (Z.land (nStatus b) BLOCK_FAILED_MASK =? 0) then Ok false
  else Ok (Z.land (nStatus b) BLOCK_VALID_MASK >=? nUpTo).

Definition RaiseValidity (b : CBlockIndex) (nUpTo : Z) : result chain_error (bool * CBlockIndex) :=
  if negb (Z.land nUpTo (Z.lnot BLOCK_VALID_MASK) =? 0) then Err ChainAssert
  else if negb (Z.land (nStatus b) BLOCK_FAILED_MASK =? 0) then Ok (false, b)
  else if Z.land (nStatus b) BLOCK_VALID_MASK <? nUpTo
  then Ok (true, set_nStatus b (Z.lor (Z.land (nStatus b) (Z.lnot BLOCK_VALID_MASK)) nUpTo))
  else Ok (false, b).

(** ** Ancestors *)

Abbreviation heap := (gmap ptr CBlockIndex).

Definition deref (st : heap) (p : ptr) : result chain_error CBlockIndex :=
  match st !! p with Some b => Ok b | None => Err NullDereference end.

Definition InvertLowestOne (n : Z) : Z := Z.land n (n - 1).

Definition GetSkipHeight (height : Z) : Z :=
  if height <? 2 then 0
  else if negb (Z.land height 1 =? 0)
  then InvertLowestOne (InvertLowestOne (height - 1)) + 1
  else InvertLowestOne height.

Fixpoint GetAncestor_loop (fuel : nat) (st : heap) (pindexWalk : ptr) (heightWalk height : Z)
    : result chain_error ptr :=
  if heightWalk >? height then
    match fuel with
    | O => Err OutOfFuel
    | S f =>
        let heightSkip := GetSkipHeight heightWalk in
        let heightSkipPrev := GetSkipHeight (heightWalk - 1) in
        let? b := deref st pindexWalk in
        match pskip b with
        | Some skip =>
            if (heightSkip =? height) ||
               ((heightSkip >? height) && negb ((heightSkipPrev <? heightSkip - 2) &&
                                                (heightSkipPrev >=? height)))
            then GetAncestor_loop f st skip heightSkip height
            else match pprev b with
                 | None => Err ChainAssert
                 | Some q => GetAncestor_loop f st q (heightWalk - 1) height
                 end
        | None =>
            match pprev b with
            | None => Err ChainAssert
            | Some q => GetAncestor_loop f st q (heightWalk - 1) height
            end
        end
    end
  else Ok pindexWalk.

(** Every iteration lowers [heightWalk], so [nHeight] iterations are enough. *)
Definition GetAncestor (st : heap) (this : ptr) (height : Z) : result chain_error (option ptr) :=
  let? b := deref st this in
  if (height >? bi_nHeight b) || (height <? 0) then Ok None
  else let? p := GetAncestor_loop (Z.to_nat (bi_nHeight b)) st this (bi_nHeight b) height in
       Ok (Some p).

(** The value [BuildSkip] stores in [pskip] of an entry with this [pprev] and
    [nHeight]. *)
Definition BuildSkip (st : heap) (prev : option ptr) (h : Z) : result chain_error (option ptr) :=
  match prev with
  | None => Ok None
  | Some q => GetAncestor st q (GetSkipHeight h)
  end.

(** ** Work *)

Definition GetBlockProof (nBits : Z) : result uint_error uint :=
  let '(bnTarget, fNegative, fOverflow) := SetCompact nBits in
  if fNegative || fOverflow || EqualTo bnTarget 0 then Ok (of_u64 0)
  else let? q := div (compl bnTarget) (add bnTarget (of_u64 1)) in
       Ok (add q (of_u64 1)).

(** [sign * r.GetLow64()] is a product in [uint64_t], returned as [int64_t]. *)
Definition GetBlockProofEquivalentTime (to_work from_work : uint) (tip_nBits nPowTargetSpacing : Z)
    : result uint_error Z :=
  let '(r, sign) := if gtb to_work from_work then (sub to_work from_work, 1)
                    else (sub from_work to_work, -1) in
  let? proof := GetBlockProof tip_nBits in
  let? r := div (mul r (of_u64 nPowTargetSpacing)) proof in
  if bits r >? 63 then Ok (sign * (2 ^ 63 - 1))
  else Ok (i64 (u64 (u64 sign * GetLow64 r))).

(** ** Fork points *)

Fixpoint LastCommonAncestor_loop (fuel : nat) (st : heap) (pa pb : option ptr)
    : result chain_error (option ptr * option ptr) :=
  match pa, pb with
  | Some a, Some b =>
      if (a =? b)%positive then Ok (pa, pb)
      else match fuel with
           | O => Err OutOfFuel
           | S f => let? ba := deref st a in let? bb := deref st b in
                    LastCommonAncestor_loop f st (pprev ba) (pprev bb)
           end
  | _, _ => Ok (pa, pb)
  end.

Definition LastCommonAncestor (st : heap) (pa pb : ptr) : result chain_error (option ptr) :=
  let? ba := deref st pa in
  let? bb := deref st pb in
  let? (pa', pb') :=
    (if bi_nHeight ba >? bi_nHeight bb then
       let? a := GetAncestor st pa (bi_nHeight bb) in Ok (a, Some pb)
     else if bi_nHeight bb >? bi_nHeight ba then
       let? b := GetAncestor st pb (bi_nHeight ba) in Ok (Some pa, b)
     else Ok (Some pa, Some pb)) in
  let? (ra, rb) := LastCommonAncestor_loop
    (S (Z.to_nat (Z.min (bi_nHeight ba) (bi_nHeight bb)))) st pa' pb' in
  if decide (ra = rb) then Ok ra else Err ChainAssert.

(** ** Median time *)

Definition nMedianTimeSpan : nat := 11.

(** The times of the block and up to [n - 1] of its predecessors. *)
Fixpoint collect_times (n : nat) (st : heap) (pindex : option ptr) : result chain_error (list Z) :=
  match n, pindex with
  | S n', Some p =>
      let? b := deref st p in
      let? ts := collect_times n' st (pprev b) in
      Ok (bi_nTime b :: ts)
  | _, _ => Ok []
  end.

Definition GetMedianTimePast (st : heap) (this : ptr) : result chain_error Z :=
  let? ts := collect_times nMedianTimeSpan st (Some this) in
  let sorted := merge_sort Z.le (reverse ts) in
  Ok (nth (length sorted / 2) sorted 0).

(** ** CChain *)

Abbreviation CChain := (list (option ptr)).

Definition Genesis (vChain : CChain) : option ptr :=
  match vChain with [] => None | p :: _ => p end.
Definition Tip (vChain : CChain) : option ptr :=
  match vChain with [] => None | _ => nth (length vChain - 1) vChain None end.
Definition chain_at (vChain : CChain) (h : Z) : option ptr :=
  if (h <? 0) || (h >=? Z.of_nat (length vChain)) then None else nth (Z.to_nat h) vChain None.
Definition Contains (st : heap) (vChain : CChain) (p : ptr) : result chain_error bool :=
  let? b := deref st p in
  Ok (bool_decide (chain_at vChain (bi_nHeight b) = Some p)).
Definition Next (st : heap) (vChain : CChain) (p : ptr) : result chain_error (option ptr) :=
  let? c := Contains st vChain p in
  let? b := deref st p in
  Ok (if c then chain_at vChain (bi_nHeight b + 1) else None).
Definition Height (vChain : CChain) : Z := Z.of_nat (length vChain) - 1.

(** [vChain.resize(n)] *)
Definition resize (n : nat) (vChain : CChain) : CChain :=
  take n vChain ++ replicate (n - length vChain) None.

Fixpoint SetTip_loop (fuel : nat) (st : heap) (vChain : CChain) (pindex : option ptr)
    : result chain_error CChain :=
  match pindex with
  | None => Ok vChain
  | Some p =>
      let? b := deref st p in
      if bool_decide (nth (Z.to_nat (bi_nHeight b)) vChain None = Some p) then Ok vChain
      else match fuel with
           | O => Err OutOfFuel
           | S f => SetTip_loop f st (<[Z.to_nat (bi_nHeight b) := Some p]> vChain) (pprev b)
           end
  end.

Definition SetTip (st : heap) (vChain : CChain) (pindex : option ptr) : result chain_error CChain :=
  match pindex with
  | None => Ok []
  | Some p =>
      let? b := deref st p in
      let n := Z.to_nat (bi_nHeight b + 1) in
      SetTip_loop n st (resize n vChain) (Some p)
  end.

Fixpoint FindFork_loop (fuel : nat) (st : heap) (vChain : CChain) (pindex : option ptr)
    : result chain_error (option ptr) :=
  match pindex with
  | None => Ok None
  | Some p =>
      let? c := Contains st vChain p in
      if c then Ok (Some p)
      else match fuel with
           | O => Err OutOfFuel
           | S f => let? b := deref st p in FindFork_loop f st vChain (pprev b)
           end
  end.

Definition FindFork (st : heap) (vChain : CChain) (pindex : option ptr) : result chain_error (option ptr) :=
  match pindex with
  | None => Ok None
  | Some p =>
      let? b := deref st p in
      let? start := (if bi_nHeight b >? Height vChain then GetAncestor st p (Height vChain)
                     else Ok (Some p)) in
      FindFork_loop (S (Z.to_nat (bi_nHeight b))) st vChain start
  end.

(** [GetLocator]: the heights of the entries go down, so [nHeight + 1]
    iterations are enough. *)
Fixpoint GetLocator_loop (fuel : nat) (st : heap) (vChain : CChain) (pindex : option ptr)
    (nStep : Z) (vHave : list ptr) : result chain_error (list ptr) :=
  match pindex with
  | None => Ok vHave
  | Some p =>
      let? b := deref st p in
      let vHave := vHave ++ [p] in
      if bi_nHeight b =? 0 then Ok vHave
      else match fuel with
           | O => Err OutOfFuel
           | S f =>
               let h := Z.max (bi_nHeight b - nStep) 0 in
               let? c := Contains st vChain p in
               let? next := (if c then Ok (chain_at vChain h) else GetAncestor st p h) in
               GetLocator_loop f st vChain next
                 (if (10 <? length vHave)%nat then nStep * 2 else nStep) vHave
           end
  end.

(** The blocks of the locator; their hashes are what is sent. *)
Definition GetLocator (st : heap) (vChain : CChain) (pindex : option ptr) : result chain_error (list ptr) :=
  let start := match pindex with None => Tip vChain | _ => pindex end in
  match start with
  | None => Ok []
  | Some p => let? b := deref st p in
              GetLocator_loop (Z.to_nat (bi_nHeight b)) st vChain start 1 []
  end.

(** [std::lower_bound] by halving, and [FindEarliestAtLeast]. *)
Fixpoint lower_bound (fuel : nat) (less : nat → bool) (first len : nat) : nat :=
  match fuel with
  | O => first
  | S f =>
      if (len =? 0)%nat then first
      else
        let half := (len / 2)%nat in
        let middle := (first + half)%nat in
        if less middle then lower_bound f less (S middle) (len - half - 1)
        else lower_bound f less first half
  end.

Definition time_max_below (st : heap) (vChain : CChain) (nTime : Z) (i : nat) : bool :=
  match nth i vChain None with
  | Some p => match st !! p with Some b => nTimeMax b <? nTime | None => false end
  | None => false
  end.

Definition FindEarliestAtLeast (st : heap) (vChain : CChain) (nTime : Z) : option ptr :=
  nth (lower_bound (length vChain) (time_max_below st vChain nTime) 0 (length vChain)) vChain None.

(** ** Growing the block tree (validation.cpp)

    [mapBlockIndex] owns the entries; [next_ptr] is the next address [new]
    returns.  The block hash functions are an argument. *)

Record BlockTree := mkTree {
  mapBlockIndex : gmap (list Z) ptr;
  tree_heap : heap;
  next_ptr : ptr;
  pindexBestHeader : option ptr;
  setDirtyBlockIndex : gset ptr
}.

Definition empty_tree : BlockTree := mkTree ∅ ∅ 1%positive None ∅.

(** The entry for [block] at the address [new], linked to its parent when the
    parent is known. *)
Definition link_parent (st : heap) (new : ptr) (prev : option ptr) (entry : CBlockIndex)
    : result chain_error CBlockIndex :=
  match prev with
  | None => Ok entry
  | Some q =>
      let? bq := deref (<[new := entry]> st) q in
      let entry := set_pprev entry (Some q) (bi_nHeight bq + 1) in
      let? skip := BuildSkip (<[new := entry]> st) (Some q) (bi_nHeight entry) in
      Ok (set_pskip entry skip)
  end.

(** [nTimeMax] and [nChainWork] *)
Definition accumulate (st : heap) (new : ptr) (entry : CBlockIndex) : result chain_error CBlockIndex :=
  let? (timemax, prevwork) :=
    match pprev entry with
    | None => Ok (bi_nTime entry, of_u64 0)
    | Some q => let? bq := deref (<[new := entry]> st) q in
                Ok (Z.max (nTimeMax bq) (bi_nTime entry), nChainWork bq)
    end in
  match GetBlockProof (bi_nBits entry) with
  | Err _ => Err UintError
  | Ok proof => Ok (set_work entry timemax (add prevwork proof))
  end.

Definition AddToBlockIndex (GetHash : CBlockHeader → uint256) (t : BlockTree) (block : CBlockHeader)
    : result chain_error (BlockTree * ptr) :=
  let hash := GetHash block in
  match mapBlockIndex t !! hash with
  | Some p => Ok (t, p)
  | None =>
      let st := tree_heap t in
      let new := next_ptr t in
      let mbi := <[hash := new]> (mapBlockIndex t) in
      let entry := set_hash (index_of_header block) hash in
      let? entry := link_parent st new (mbi !! hashPrevBlock block) entry in
      let? entry := accumulate st new entry in
      let? (_, entry) := RaiseValidity entry BLOCK_VALID_TREE in
      let? better :=
        match pindexBestHeader t with
        | None => Ok true
        | Some p => let? b := deref (<[new := entry]> st) p in
                    Ok (ltb (nChainWork b) (nChainWork entry))
        end in
      Ok (mkTree mbi (<[new := entry]> st) (Pos.succ new)
            (if better : bool then Some new else pindexBestHeader t)
            ({[new]} ∪ setDirtyBlockIndex t), new)
  end.

(** [GetBlockSubsidy]; [2.5 * COIN] is exact in a [double]. *)
Definition GetBlockSubsidy (nHeight nSubsidyHalvingInterval : Z) : Z :=
  let halvings := Z.quot nHeight nSubsidyHalvingInterval in
  if nHeight =? 1 then 320000005 * COIN
  else if halvings >=? 1 then 250000000
  else 5 * COIN.

(** ** The invariant of the tree *)

(** Following [pprev] [n] times. *)
Fixpoint up (st : heap) (n : nat) (p : ptr) : option ptr :=
  match n with
  | O => Some p
  | S n' => match st !! p with
            | Some b => match pprev b with Some q => up st n' q | None => None end
            | None => None
            end
  end.

(** The ancestor at a height, by definition. *)
Definition ancestor_at (st : heap) (p : ptr) (h : Z) : option ptr :=
  match st !! p with
  | Some b => if (0 <=? h) && (h <=? bi_nHeight b) then up st (Z.to_nat (bi_nHeight b - h)) p else None
  | None => None
  end.

(** What holds of an entry given the entries before it. *)
Definition entry_ok (st : heap) (b : CBlockIndex) : Prop :=
  (wf (nChainWork b) ∧ ufits 32 (bi_nBits b)) ∧
  match pprev b with
  | None => bi_nHeight b = 0 ∧ pskip b = None ∧ nTimeMax b = bi_nTime b
  | Some q => ∃ bq, st !! q = Some bq ∧ 0 <= bi_nHeight bq ∧ bi_nHeight b = bi_nHeight bq + 1 ∧
      pskip b = ancestor_at st q (GetSkipHeight (bi_nHeight b)) ∧
      nTimeMax b = Z.max (nTimeMax bq) (bi_nTime b) ∧
      ∃ w, GetBlockProof (bi_nBits b) = Ok w ∧ nChainWork b = add (nChainWork bq) w
  end.

Definition heap_ok (st : heap) : Prop := ∀ p b, st !! p = Some b → entry_ok st b.

Record tree_ok (t : BlockTree) : Prop := {
  ok_heap : heap_ok (tree_heap t);
  ok_map : ∀ h p, mapBlockIndex t !! h = Some p →
     ∃ b, tree_heap t !! p = Some b ∧ phashBlock b = h;
  ok_fresh : ∀ p, is_Some (tree_heap t !! p) → (p < next_ptr t)%positive;
  ok_best : match pindexBestHeader t with
     | None => tree_heap t = ∅
     | Some p => ∃ b, tree_heap t !! p = Some b ∧
         ∀ q bq, tree_heap t !! q = Some bq → val (nChainWork bq) <= val (nChainWork b)
     end
}.

(** ** Lemmas: skip heights *)

Lemma InvertLowestOne_bound n : 0 < n → 0 <= InvertLowestOne n < n.
Proof.
  intros Hn. unfold InvertLowestOne. split; [apply Z.land_nonneg; lia|].
  assert (Z.land n (n - 1) <= n - 1); [|lia].
  apply land_le_r. lia.
Qed.

Lemma GetSkipHeight_bound h : 0 < h → 0 <= GetSkipHeight h < h.
Proof.
  intros Hh. unfold GetSkipHeight. destruct (Z.ltb_spec h 2); [lia|].
  destruct (negb (Z.land h 1 =? 0)); [|apply InvertLowestOne_bound; lia].
  pose proof (InvertLowestOne_bound (h - 1) ltac:(lia)) as H1.
  destruct (Z.eq_dec (InvertLowestOne (h - 1)) 0) as [->|].
  - change (InvertLowestOne 0) with 0. lia.
  - pose proof (InvertLowestOne_bound (InvertLowestOne (h - 1)) ltac:(lia)). lia.
Qed.

(** ** Lemmas: ancestors *)

Section Ancestors.
Context (st : heap) (Hst : heap_ok st).

Lemma entry_height p b : st !! p = Some b → 0 <= bi_nHeight b.
Proof.
  intros Hb. destruct (Hst p b Hb) as [_ H].
  destruct (pprev b); [destruct H as (bq & _ & ? & ? & _)|destruct H]; lia.
Qed.

Lemma up_add n m p : up st (n + m) p = match up st n p with Some q => up st m q | None => None end.
Proof.
  revert p; induction n as [|n IH]; intros p; cbn [up Nat.add]; [done|].
  destruct (st !! p) as [b|]; [|done]. destruct (pprev b); [apply IH|done].
Qed.

Lemma up_height n p b : st !! p = Some b → Z.of_nat n <= bi_nHeight b →
  ∃ q bq, up st n p = Some q ∧ st !! q = Some bq ∧ bi_nHeight bq = bi_nHeight b - Z.of_nat n.
Proof.
  revert p b; induction n as [|n IH]; intros p b Hb Hn; cbn [up].
  - exists p, b. split_and!; [done|done|lia].
  - rewrite Hb. destruct (Hst p b Hb) as [_ H]. destruct (pprev b) as [q|]; [|lia].
    destruct H as (bq & Hq & Hge & Hh & _).
    destruct (IH q bq Hq ltac:(lia)) as (r & br & Hr & Hbr & Hhr).
    exists r, br. split_and!; [done|done|lia].
Qed.

Lemma ancestor_at_spec p b h : st !! p = Some b → 0 <= h <= bi_nHeight b →
  ∃ q bq, ancestor_at st p h = Some q ∧ st !! q = Some bq ∧ bi_nHeight bq = h ∧
          up st (Z.to_nat (bi_nHeight b - h)) p = Some q.
Proof.
  intros Hb Hh. unfold ancestor_at. rewrite Hb.
  rewrite (proj2 (Z.leb_le 0 h)), (proj2 (Z.leb_le h _)) by lia. cbn [andb].
  destruct (up_height (Z.to_nat (bi_nHeight b - h)) p b Hb ltac:(lia)) as (q & bq & Hq & Hbq & Heq).
  exists q, bq. split_and!; [done|done|lia|done].
Qed.

(** Ancestors of ancestors. *)
Lemma ancestor_at_trans p b q h h' : st !! p = Some b → 0 <= h' <= h → h <= bi_nHeight b →
  ancestor_at st p h = Some q → ancestor_at st q h' = ancestor_at st p h'.
Proof.
  intros Hb Hh' Hh Hq.
  destruct (ancestor_at_spec p b h Hb ltac:(lia)) as (q' & bq & Hq' & Hbq & Hhq & Hup).
  assert (q' = q) as -> by congruence. unfold ancestor_at. rewrite Hb, Hbq.
  rewrite (proj2 (Z.leb_le 0 h')), !(proj2 (Z.leb_le h' _)) by lia. cbn [andb].
  replace (Z.to_nat (bi_nHeight b - h')) with
    (Z.to_nat (bi_nHeight b - h) + Z.to_nat (bi_nHeight bq - h'))%nat by lia.
  by rewrite up_add, Hup.
Qed.

Lemma ancestor_at_self p b : st !! p = Some b → ancestor_at st p (bi_nHeight b) = Some p.
Proof.
  intros Hb. pose proof (entry_height p b Hb). unfold ancestor_at. rewrite Hb.
  rewrite (proj2 (Z.leb_le 0 _)), (proj2 (Z.leb_le _ (bi_nHeight b))) by lia. cbn [andb].
  by rewrite Z.sub_diag.
Qed.

Lemma ancestor_at_prev p b q h : st !! p = Some b → pprev b = Some q → 0 <= h < bi_nHeight b →
  ancestor_at st q h = ancestor_at st p h.
Proof.
  intros Hb Hq Hh. destruct (Hst p b Hb) as [_ H]. rewrite Hq in H.
  destruct H as (bq & Hbq & Hge & Heq & _).
  apply (ancestor_at_trans p b q (bi_nHeight bq)); [done|lia|lia|].
  unfold ancestor_at. rewrite Hb.
  rewrite (proj2 (Z.leb_le 0 _)), (proj2 (Z.leb_le _ (bi_nHeight b))) by lia. cbn [andb].
  replace (Z.to_nat (bi_nHeight b - bi_nHeight bq)) with 1%nat by lia. cbn [up].
  by rewrite Hb, Hq.
Qed.

Lemma pprev_above p b : st !! p = Some b → 0 < bi_nHeight b → ∃ q, pprev b = Some q.
Proof.
  intros Hb Hpos. destruct (Hst p b Hb) as [_ H].
  destruct (pprev b) as [q|]; [eauto|]. destruct H; lia.
Qed.

Lemma pprev_entry p b q : st !! p = Some b → pprev b = Some q →
  ∃ bq, st !! q = Some bq ∧ bi_nHeight bq = bi_nHeight b - 1.
Proof.
  intros Hb Hq. destruct (Hst p b Hb) as [_ H]. rewrite Hq in H.
  destruct H as (bq & Hbq & _ & Heq & _). exists bq. split; [done|lia].
Qed.

(** The skip pointer is the ancestor at the skip height. *)
Lemma pskip_ancestor p b s : st !! p = Some b → pskip b = Some s →
  0 < bi_nHeight b ∧ ancestor_at st p (GetSkipHeight (bi_nHeight b)) = Some s ∧
  ∃ bs, st !! s = Some bs ∧ bi_nHeight bs = GetSkipHeight (bi_nHeight b).
Proof.
  intros Hb Hs. pose proof (Hst p b Hb) as [_ H]. destruct (pprev b) as [q|] eqn:Hq.
  - destruct H as (bq & Hbq & Hge & Heq & Hsk & _).
    assert (0 < bi_nHeight b) as Hpos by lia. split; [done|].
    pose proof (GetSkipHeight_bound _ Hpos).
    rewrite Hs in Hsk. rewrite <- (ancestor_at_prev p b q) by (done || lia). split; [done|].
    destruct (ancestor_at_spec q bq (GetSkipHeight (bi_nHeight b)) Hbq ltac:(lia))
      as (s' & bs & Hs' & Hbs & Hh & _).
    exists bs. split; [|done]. congruence.
  - destruct H as (_ & Hn & _). congruence.
Qed.

Lemma GetAncestor_loop_spec fuel p b h :
  st !! p = Some b → 0 <= h <= bi_nHeight b → bi_nHeight b - h <= Z.of_nat fuel →
  ∃ q, GetAncestor_loop fuel st p (bi_nHeight b) h = Ok q ∧ ancestor_at st p h = Some q.
Proof.
  revert p b; induction fuel as [|f IH]; intros p b Hb Hh Hf; cbn [GetAncestor_loop];
    destruct (Z.gtb_spec (bi_nHeight b) h).
  - lia.
  - replace h with (bi_nHeight b) by lia. eauto using ancestor_at_self.
  - unfold deref. rewrite Hb. cbn [rbind].
    destruct (pprev_above p b Hb ltac:(lia)) as [q Hq].
    destruct (pprev_entry p b q Hb Hq) as (bq & Hbq & Hhq).
    assert (∃ r, GetAncestor_loop f st q (bi_nHeight b - 1) h = Ok r ∧ ancestor_at st p h = Some r) as Hprev.
    { destruct (IH q bq Hbq ltac:(lia) ltac:(lia)) as (r & Hr & Ha). exists r.
      rewrite <- Hhq, <- (ancestor_at_prev p b q) by (done || lia). done. }
    rewrite Hq. destruct (pskip b) as [s|] eqn:Hs; [|done].
    destruct (_ || _) eqn:Hc; [|done].
    destruct (pskip_ancestor p b s Hb Hs) as (_ & Ha & bs & Hbs & Hhs).
    pose proof (GetSkipHeight_bound (bi_nHeight b) ltac:(lia)).
    assert (h <= bi_nHeight bs) as Hle.
    { apply orb_prop in Hc as [Hc|Hc]; [|apply andb_prop in Hc as [Hc _]];
        [apply Z.eqb_eq in Hc|rewrite Z.gtb_ltb in Hc; apply Z.ltb_lt in Hc]; lia. }
    rewrite <- Hhs in *. destruct (IH s bs Hbs ltac:(lia) ltac:(lia)) as (r & Hr & Har).
    exists r. split; [done|]. rewrite <- Har.
    symmetry. apply (ancestor_at_trans p b s (bi_nHeight bs)); (done || lia).
  - replace h with (bi_nHeight b) by lia. eauto using ancestor_at_self.
Qed.

Lemma GetAncestor_spec p b h : st !! p = Some b → GetAncestor st p h = Ok (ancestor_at st p h).
Proof.
  intros Hb. unfold GetAncestor, deref. rewrite Hb. cbn [rbind].
  destruct ((h >? bi_nHeight b) || (h <? 0)) eqn:Hr.
  - unfold ancestor_at. rewrite Hb. destruct (Z.leb_spec 0 h), (Z.leb_spec h (bi_nHeight b)); try done.
    apply orb_prop in Hr as [Hr|Hr]; [rewrite Z.gtb_ltb in Hr|]; apply Z.ltb_lt in Hr; lia.
  - apply orb_false_elim in Hr as [H1 H2]. rewrite Z.gtb_ltb in H1.
    apply Z.ltb_ge in H1, H2. pose proof (entry_height p b Hb).
    destruct (GetAncestor_loop_spec (Z.to_nat (bi_nHeight b)) p b h Hb ltac:(lia) ltac:(lia)) as (q & Hq & Ha).
    rewrite Hq, Ha. done.
Qed.

Lemma BuildSkip_spec q bq h : st !! q = Some bq →
  BuildSkip st (Some q) h = Ok (ancestor_at st q (GetSkipHeight h)).
Proof. intros. unfold BuildSkip. by eapply GetAncestor_spec. Qed.

End Ancestors.

(** ** Lemmas: work *)

(** The number of hashes a compact target stands for. *)
Definition target_work (c : Z) : Z :=
  let '(a, neg, over) := SetCompact c in
  if neg || over || (val a =? 0) then 0 else 2 ^ 256 / (val a + 1).

(** [~t / (t + 1) + 1] is [2^256 / (t + 1)]: the wrap-around is harmless. *)
Lemma GetBlockProof_spec c : ufits 32 c →
  ∃ w, GetBlockProof c = Ok w ∧ wf w ∧ val w = target_work c.
Proof.
  intros Hc. unfold GetBlockProof, target_work.
  destruct (SetCompact_total c Hc) as (a & neg & over & -> & Hwf & Hmax).
  rewrite EqualTo_spec by (done || by apply ufits_0).
  destruct (neg || over || (val a =? 0)) eqn:Hbad.
  { exists (of_u64 0). split; [done|]. split; [apply wf_of_u64|done]. }
  apply orb_false_elim in Hbad as [_ Hnz]. apply Z.eqb_neq in Hnz.
  pose proof (val_bound a Hwf) as Ha. destruct (compl_spec a Hwf) as [Hcw Hcv].
  assert (val (of_u64 1) = 1) as H1 by (apply val_of_u64; vm_compute; split; congruence).
  destruct (add_spec a (of_u64 1) Hwf (wf_of_u64 1)) as [Haw Hav].
  rewrite H1, Z.mod_small in Hav by lia.
  destruct (div_spec (compl a) (add a (of_u64 1)) Hcw Haw ltac:(lia)) as (q & Hq & Hqw & Hqv).
  rewrite Hq. cbn [rbind]. eexists. split; [done|].
  destruct (add_spec q (of_u64 1) Hqw (wf_of_u64 1)) as [Hrw Hrv]. split; [done|].
  rewrite Hrv, H1, Hqv, Hcv, Hav. unfold M in *.
  assert ((2 ^ 256 - 1 - val a) / (val a + 1) + 1 = 2 ^ 256 / (val a + 1)) as ->.
  { rewrite <- Z.div_add by lia. f_equal. lia. }
  apply Z.mod_small. split; [apply Z.div_pos; lia|]. apply Z.div_lt_upper_bound; nia.
Qed.

(** ** Lemmas: adding an entry *)

Lemma deref_ext st st' p b : st ⊆ st' → deref st p = Ok b → deref st' p = Ok b.
Proof.
  unfold deref. intros Hs. destruct (st !! p) as [b'|] eqn:Hp; [|done].
  intros [= <-]. by rewrite (lookup_weaken _ _ _ _ Hp Hs).
Qed.

Lemma GetAncestor_loop_ext st st' fuel p hw h q : st ⊆ st' →
  GetAncestor_loop fuel st p hw h = Ok q → GetAncestor_loop fuel st' p hw h = Ok q.
Proof.
  intros Hs. revert p hw; induction fuel as [|f IH]; intros p hw; cbn [GetAncestor_loop];
    destruct (hw >? h); try done.
  destruct (deref st p) as [b|] eqn:Hb; [|done]. rewrite (deref_ext _ _ _ _ Hs Hb). cbn [rbind].
  destruct (pskip b), (pprev b); try done; try (destruct (_ || _)); eauto.
Qed.

Lemma GetAncestor_ext st st' p h r : st ⊆ st' →
  GetAncestor st p h = Ok r → GetAncestor st' p h = Ok r.
Proof.
  intros Hs. unfold GetAncestor. destruct (deref st p) as [b|] eqn:Hb; [|done].
  rewrite (deref_ext _ _ _ _ Hs Hb). cbn [rbind]. destruct (_ || _); [done|].
  destruct (GetAncestor_loop _ st _ _ _) as [q|] eqn:Hq; [|done].
  by rewrite (GetAncestor_loop_ext _ _ _ _ _ _ _ Hs Hq).
Qed.

Lemma up_ext st st' n p q : st ⊆ st' → up st n p = Some q → up st' n p = Some q.
Proof.
  intros Hs. revert p; induction n as [|n IH]; intros p; cbn [up]; [done|].
  destruct (st !! p) as [b|] eqn:Hb; [|done]. rewrite (lookup_weaken _ _ _ _ Hb Hs).
  destruct (pprev b); auto.
Qed.

Lemma ancestor_at_ext st st' p b h : heap_ok st → st ⊆ st' → st !! p = Some b →
  ancestor_at st' p h = ancestor_at st p h.
Proof.
  intros Hok Hs Hb. destruct (decide (0 <= h <= bi_nHeight b)) as [Hr|Hr].
  - destruct (ancestor_at_spec st Hok p b h Hb Hr) as (q & bq & -> & _ & _ & Hup).
    unfold ancestor_at. rewrite (lookup_weaken _ _ _ _ Hb Hs).
    rewrite (proj2 (Z.leb_le 0 h)), (proj2 (Z.leb_le h _)) by lia. by eapply up_ext.
  - unfold ancestor_at. rewrite Hb, (lookup_weaken _ _ _ _ Hb Hs).
    by destruct (Z.leb_spec 0 h), (Z.leb_spec h (bi_nHeight b)); try lia.
Qed.

Lemma entry_ok_ext st st' b : heap_ok st → st ⊆ st' → entry_ok st b → entry_ok st' b.
Proof.
  intros Hok Hs [Hw H]. split; [done|]. destruct (pprev b) as [q|]; [|done].
  destruct H as (bq & Hbq & Hge & Hh & Hsk & Ht & Hwk). exists bq.
  split; [by apply (lookup_weaken st)|]. split_and!; try done.
  rewrite (ancestor_at_ext st st' q bq) by done. done.
Qed.

Lemma heap_ok_insert st p b : heap_ok st → st !! p = None → entry_ok st b → heap_ok (<[p := b]> st).
Proof.
  intros Hok Hp Hb. assert (st ⊆ <[p := b]> st) as Hs by (by apply insert_subseteq).
  intros q bq. rewrite lookup_insert_Some. intros [[<- <-]|[_ Hq]];
    apply (entry_ok_ext st); eauto.
Qed.

Lemma RaiseValidity_entry b : ∃ r s, RaiseValidity b BLOCK_VALID_TREE = Ok (r, set_nStatus b s).
Proof.
  unfold RaiseValidity. destruct b; cbn [nStatus set_nStatus].
  change (negb (Z.land BLOCK_VALID_TREE (Z.lnot BLOCK_VALID_MASK) =? 0)) with false.
  case_all; try discriminate; eexists _, _; reflexivity.
Qed.

(** The entry [AddToBlockIndex] builds. *)
Lemma new_entry_ok t new hash block : tree_ok t → ufits 32 (nBits block) →
  tree_heap t !! new = None →
  (mapBlockIndex t !! hashPrevBlock block = None → nHeight block = 0) →
  ∃ e1 e2, link_parent (tree_heap t) new (mapBlockIndex t !! hashPrevBlock block)
             (set_hash (index_of_header block) hash) = Ok e1 ∧
    accumulate (tree_heap t) new e1 = Ok e2 ∧ entry_ok (tree_heap t) e2 ∧ phashBlock e2 = hash ∧
    bi_header e2 = block ∧ pprev e2 = mapBlockIndex t !! hashPrevBlock block.
Proof.
  intros Ht Hbits Hfresh Hgen. destruct (GetBlockProof_spec _ Hbits) as (w & Hw & Hww & _).
  pose proof (ok_heap t Ht) as Hok. unfold link_parent, accumulate, BuildSkip, deref.
  destruct (mapBlockIndex t !! hashPrevBlock block) as [q|] eqn:Hm.
  - destruct (ok_map t Ht _ _ Hm) as (bq & Hq & _). assert (q ≠ new) by congruence.
    rewrite lookup_insert_ne, Hq by done. cbn [rbind].
    rewrite (GetAncestor_ext (tree_heap t) _ q _ (ancestor_at (tree_heap t) q (GetSkipHeight (bi_nHeight bq + 1))));
      [|by apply insert_subseteq|by eapply GetAncestor_spec].
    cbn [rbind]. do 2 eexists. split; [done|]. cbn [pprev set_pskip set_pprev bi_nBits bi_header set_hash index_of_header].
    rewrite lookup_insert_ne, Hq by done. cbn [rbind]. unfold bi_nBits; cbn [bi_header set_pskip set_pprev set_hash index_of_header].
    rewrite Hw. split; [done|]. split; [|done].
    destruct (Hok q bq Hq) as [[Hwq _] _]. split; [split; [by apply add_spec|done]|]. exists bq. split; [done|].
    split; [by apply (entry_height _ Hok q)|]. split_and!; try done. by exists w.
  - do 2 eexists. split; [done|]. cbn [pprev set_hash index_of_header rbind].
    unfold bi_nBits; cbn [bi_header set_hash index_of_header]. rewrite Hw. split; [done|].
    split; [|done]. split; [split; [apply add_spec; [apply wf_of_u64|done]|done]|]. split; [by apply Hgen|done].
Qed.

(** The best header stays one with the most work. *)
Lemma best_header_step t new e : tree_ok t → tree_heap t !! new = None → wf (nChainWork e) →
  ∃ better : bool,
    match pindexBestHeader t with
    | None => Ok true
    | Some p => let? b := deref (<[new := e]> (tree_heap t)) p in Ok (ltb (nChainWork b) (nChainWork e))
    end = Ok better ∧
    match (if better then Some new else pindexBestHeader t) with
    | None => False
    | Some p => ∃ b, <[new := e]> (tree_heap t) !! p = Some b ∧
       ∀ q bq, <[new := e]> (tree_heap t) !! q = Some bq → val (nChainWork bq) <= val (nChainWork b)
    end.
Proof.
  intros Ht Hfresh Hwe.
  assert (tree_heap t ⊆ <[new := e]> (tree_heap t)) as Hsub by (by apply insert_subseteq).
  pose proof (ok_best t Ht) as Hb. destruct (pindexBestHeader t) as [p|].
  - destruct Hb as (b & Hp & Hmax). unfold deref. rewrite (lookup_weaken _ _ _ _ Hp Hsub). cbn [rbind].
    eexists. split; [done|]. destruct (ok_heap t Ht p b Hp) as [[Hwb _] _].
    rewrite ltb_spec by done. destruct (Z.ltb_spec (val (nChainWork b)) (val (nChainWork e))).
    + exists e. split; [apply lookup_insert_eq|]. intros q bq. rewrite lookup_insert_Some.
      intros [[<- <-]|[_ Hq]]; [done|]. specialize (Hmax q bq Hq). lia.
    + exists b. split; [by apply (lookup_weaken (tree_heap t))|]. intros q bq. rewrite lookup_insert_Some.
      intros [[<- <-]|[_ Hq]]; [done|by apply (Hmax q)].
  - exists true. split; [done|]. exists e. split; [apply lookup_insert_eq|]. intros q bq.
    rewrite lookup_insert_Some, Hb. intros [[<- <-]|[_ Hq]]; done.
Qed.

Lemma AddToBlockIndex_ok GetHash t block : tree_ok t → ufits 32 (nBits block) →
  GetHash block ≠ hashPrevBlock block →
  (mapBlockIndex t !! hashPrevBlock block = None → nHeight block = 0) →
  ∃ t' p, AddToBlockIndex GetHash t block = Ok (t', p) ∧ tree_ok t' ∧
    tree_heap t ⊆ tree_heap t' ∧ mapBlockIndex t' !! GetHash block = Some p ∧
    (mapBlockIndex t !! GetHash block = None →
     mapBlockIndex t' = <[GetHash block := p]> (mapBlockIndex t) ∧
     ∃ e, tree_heap t' = <[p := e]> (tree_heap t) ∧ tree_heap t !! p = None ∧
          bi_header e = block ∧ pprev e = mapBlockIndex t !! hashPrevBlock block).
Proof.
  intros Ht Hbits Hself Hgen. unfold AddToBlockIndex.
  destruct (mapBlockIndex t !! GetHash block) as [p|] eqn:Hdup; [by exists t, p|].
  rewrite lookup_insert_ne by done.
  assert (tree_heap t !! next_ptr t = None) as Hfresh.
  { destruct (tree_heap t !! next_ptr t) eqn:E; [|done].
    pose proof (ok_fresh t Ht (next_ptr t) (mk_is_Some _ _ E)). lia. }
  destruct (new_entry_ok t (next_ptr t) (GetHash block) block) as (e1 & e2 & -> & H2 & He & Hh & Hhd & Hpp); try done.
  cbn [rbind]. rewrite H2. cbn [rbind]. destruct (RaiseValidity_entry e2) as (r & s & ->). cbn [rbind].
  set (e := set_nStatus e2 s). assert (entry_ok (tree_heap t) e) as He' by done.
  assert (tree_heap t ⊆ <[next_ptr t:=e]> (tree_heap t)) as Hsub by (by apply insert_subseteq).
  destruct (best_header_step t (next_ptr t) e Ht Hfresh ltac:(apply He')) as (better & -> & Hbest).
  cbn [rbind]. do 2 eexists. split; [done|].
  split; [|split; [done|split; [apply lookup_insert_eq|by intros _; split; [|exists e]]]].
  constructor; cbn [tree_heap mapBlockIndex next_ptr pindexBestHeader].
  - by apply heap_ok_insert; [apply Ht| |].
  - intros h p. rewrite lookup_insert_Some. intros [[<- <-]|[_ Hp]].
    + exists e. split; [apply lookup_insert_eq|done].
    + destruct (ok_map t Ht h p Hp) as (b & Hb & Hbh). exists b. split; [|done].
      by apply (lookup_weaken (tree_heap t)).
  - intros p [b Hp]. apply lookup_insert_Some in Hp as [[<- _]|[_ Hp]]; [lia|].
    pose proof (ok_fresh t Ht p (mk_is_Some _ _ Hp)). lia.
  - by destruct (if better then Some (next_ptr t) else pindexBestHeader t).
Qed.

(** ** The active chain *)

(** [c] is the path from the genesis block to [t]. *)
Definition is_chain (st : heap) (c : CChain) (t : ptr) : Prop :=
  ∃ b, st !! t = Some b ∧ Z.of_nat (length c) = bi_nHeight b + 1 ∧
       ∀ i, (i < length c)%nat → nth i c None = ancestor_at st t (Z.of_nat i).

Definition chain_ok (st : heap) (c : CChain) : Prop := c = [] ∨ ∃ t, is_chain st c t.

(** [r] is the highest block on both paths, if there is one. *)
Definition last_common (st : heap) (a b : ptr) (r : option ptr) : Prop :=
  match r with
  | Some q => ∃ h, ancestor_at st a h = Some q ∧ ancestor_at st b h = Some q ∧
      ∀ h', h < h' → ancestor_at st a h' = ancestor_at st b h' → ancestor_at st a h' = None
  | None => ∀ h', ancestor_at st a h' = ancestor_at st b h' → ancestor_at st a h' = None
  end.

Section Paths.
Context (st : heap) (Hst : heap_ok st).

Lemma ancestor_at_range p h q : ancestor_at st p h = Some q →
  ∃ b bq, st !! p = Some b ∧ 0 <= h <= bi_nHeight b ∧ st !! q = Some bq ∧ bi_nHeight bq = h.
Proof.
  intros H. destruct (st !! p) as [b|] eqn:Hb; [|unfold ancestor_at in H; by rewrite Hb in H].
  destruct (decide (0 <= h <= bi_nHeight b)) as [Hr|Hr].
  - destruct (ancestor_at_spec st Hst p b h Hb Hr) as (q' & bq & Hq & Hbq & Hh & _).
    exists b, bq. split_and!; try done; try lia. congruence.
  - exfalso. unfold ancestor_at in H. rewrite Hb in H.
    destruct (Z.leb_spec 0 h), (Z.leb_spec h (bi_nHeight b)); try done; lia.
Qed.

Lemma ancestor_at_out p b h : st !! p = Some b → ¬ 0 <= h <= bi_nHeight b → ancestor_at st p h = None.
Proof.
  intros Hb Hr. unfold ancestor_at. rewrite Hb.
  by destruct (Z.leb_spec 0 h), (Z.leb_spec h (bi_nHeight b)); try lia.
Qed.

Lemma chain_at_nil h : chain_at [] h = None.
Proof. unfold chain_at. destruct (_ || _); [done|]. by apply nth_overflow; simpl; lia. Qed.

Lemma chain_at_ancestor c t h : is_chain st c t → chain_at c h = ancestor_at st t h.
Proof.
  intros (b & Hb & Hlen & Hc). unfold chain_at.
  destruct (Z.ltb_spec h 0); cbn [orb].
  { symmetry. apply (ancestor_at_out t b); [done|lia]. }
  rewrite Z.geb_leb. destruct (Z.leb_spec (Z.of_nat (length c)) h).
  { symmetry. apply (ancestor_at_out t b); [done|lia]. }
  rewrite Hc by lia. f_equal. lia.
Qed.

(** *** SetTip *)

Lemma nth_resize n (c : CChain) i : (i < n)%nat → nth i (resize n c) None = nth i c None.
Proof.
  intros Hi. unfold resize. destruct (Nat.lt_ge_cases i (length c)).
  - rewrite app_nth1 by (rewrite length_take; lia). rewrite !nth_lookup.
    by rewrite lookup_take_lt by lia.
  - rewrite app_nth2 by (rewrite length_take; lia). rewrite (nth_overflow c) by lia.
    rewrite nth_lookup. destruct (replicate _ None !! _) eqn:E; [|done].
    by apply lookup_replicate_1 in E as [-> _].
Qed.

Lemma resize_length n (c : CChain) : length (resize n c) = n.
Proof. unfold resize. rewrite length_app, length_take, length_replicate. lia. Qed.

(** A path that passes through [q] agrees with every other one below [q]. *)
Lemma chain_below c q bq i : chain_ok st c → st !! q = Some bq →
  nth (Z.to_nat (bi_nHeight bq)) c None = Some q → (i <= Z.to_nat (bi_nHeight bq))%nat →
  nth i c None = ancestor_at st q (Z.of_nat i).
Proof.
  intros [->|(t & b & Hb & Hlen & Hc)] Hq Hn Hi; [by rewrite nth_overflow in Hn by (simpl; lia)|].
  pose proof (entry_height st Hst q bq Hq).
  destruct (Nat.lt_ge_cases (Z.to_nat (bi_nHeight bq)) (length c));
    [|by rewrite nth_overflow in Hn by lia].
  rewrite Hc in Hn by lia. rewrite Hc by lia. rewrite Z2Nat.id in Hn by lia.
  symmetry. apply (ancestor_at_trans st Hst t b q (bi_nHeight bq)); (done || lia).
Qed.

Lemma SetTip_loop_spec c p b fuel vc q bq : chain_ok st c → st !! p = Some b →
  st !! q = Some bq → ancestor_at st p (bi_nHeight bq) = Some q →
  bi_nHeight bq + 1 <= Z.of_nat fuel →
  Z.of_nat (length vc) = bi_nHeight b + 1 →
  (∀ i, (i <= Z.to_nat (bi_nHeight bq))%nat → nth i vc None = nth i c None) →
  (∀ i, (Z.to_nat (bi_nHeight bq) < i < length vc)%nat → nth i vc None = ancestor_at st p (Z.of_nat i)) →
  ∃ c', SetTip_loop fuel st vc (Some q) = Ok c' ∧ is_chain st c' p.
Proof.
  intros Hc Hb. revert vc q bq; induction fuel as [|f IH]; intros vc q bq Hq Ha Hf Hlen Hlo Hhi;
    pose proof (entry_height st Hst q bq Hq) as H0; [lia|].
  destruct (ancestor_at_range _ _ _ Ha) as (b' & _ & Hb' & Hr & _). assert (b' = b) as -> by congruence.
  cbn [SetTip_loop]. unfold deref. rewrite Hq. cbn [rbind]. case_bool_decide as Hcase.
  - exists vc. split; [done|]. exists b. split; [done|]. split; [done|]. intros i Hi.
    destruct (Nat.le_gt_cases i (Z.to_nat (bi_nHeight bq))) as [Hle|Hgt]; [|apply Hhi; lia].
    rewrite Hlo by done. rewrite Hlo in Hcase by done. rewrite (chain_below c q bq) by done.
    apply (ancestor_at_trans st Hst p b q (bi_nHeight bq)); (done || lia).
  - assert (∀ i, (Z.to_nat (bi_nHeight bq) <= i < length vc)%nat →
      nth i (<[Z.to_nat (bi_nHeight bq):=Some q]> vc) None = ancestor_at st p (Z.of_nat i)) as Hset.
    { intros i Hi. destruct (decide (i = Z.to_nat (bi_nHeight bq))) as [->|].
      - rewrite nth_insert_eq by lia. by rewrite Z2Nat.id by lia.
      - rewrite nth_insert_ne by lia. apply Hhi. lia. }
    destruct (pprev bq) as [q'|] eqn:Hq'.
    + destruct (pprev_entry st Hst q bq q' Hq Hq') as (bq' & Hbq' & Hh').
      pose proof (entry_height st Hst q' bq' Hbq').
      apply (IH _ q' bq'); rewrite ?length_insert; try done; try lia.
      * rewrite <- (ancestor_at_trans st Hst p b q (bi_nHeight bq)) by (done || lia).
        rewrite <- (ancestor_at_prev st Hst q bq q') by (done || lia). by apply ancestor_at_self.
      * intros i Hi. rewrite nth_insert_ne by lia. apply Hlo. lia.
      * intros i Hi. apply Hset. lia.
    + exists (<[Z.to_nat (bi_nHeight bq):=Some q]> vc). split; [by destruct f|].
      exists b. split; [done|]. rewrite length_insert. split; [done|]. intros i Hi. apply Hset.
      destruct (Hst q bq Hq) as [_ Hroot]. rewrite Hq' in Hroot. lia.
Qed.

Lemma SetTip_spec c p b : chain_ok st c → st !! p = Some b →
  ∃ c', SetTip st c (Some p) = Ok c' ∧ is_chain st c' p.
Proof.
  intros Hc Hb. pose proof (entry_height st Hst p b Hb). unfold SetTip, deref. rewrite Hb. cbn [rbind].
  apply (SetTip_loop_spec c p b _ _ p b); rewrite ?resize_length; try done; try lia.
  - by apply ancestor_at_self.
  - intros i Hi. apply nth_resize. lia.
Qed.

(** *** Fork points *)

Lemma Contains_spec c t p b : is_chain st c t → st !! p = Some b →
  Contains st c p = Ok (bool_decide (ancestor_at st t (bi_nHeight b) = Some p)).
Proof. intros Hc Hb. unfold Contains, deref. rewrite Hb. cbn [rbind]. by rewrite (chain_at_ancestor c t). Qed.

(** Above the height of [q], the two paths have no block in common. *)
Definition apart_above (a b : ptr) (h : Z) : Prop :=
  ∀ h', h < h' → ancestor_at st a h' = ancestor_at st b h' → ancestor_at st a h' = None.

Lemma FindFork_loop_spec fuel c t p b q bq : is_chain st c t → st !! p = Some b → st !! q = Some bq →
  ancestor_at st p (bi_nHeight bq) = Some q → bi_nHeight bq + 1 <= Z.of_nat fuel →
  apart_above p t (bi_nHeight bq) →
  ∃ r, FindFork_loop fuel st c (Some q) = Ok r ∧ last_common st p t r.
Proof.
  intros Hc Hb. revert q bq; induction fuel as [|f IH]; intros q bq Hq Ha Hf Habove;
    pose proof (entry_height st Hst q bq Hq) as H0; [lia|].
  destruct (ancestor_at_range _ _ _ Ha) as (b' & _ & Hb' & Hr & _). assert (b' = b) as -> by congruence.
  cbn [FindFork_loop]. rewrite (Contains_spec c t q bq) by done. cbn [rbind]. case_bool_decide as Hin.
  { eexists. split; [done|]. exists (bi_nHeight bq). done. }
  unfold deref. rewrite Hq. cbn [rbind].
  assert (apart_above p t (bi_nHeight bq - 1)) as Habove'.
  { intros h' Hh' Heq. destruct (Z.eq_dec h' (bi_nHeight bq)) as [->|]; [congruence|].
    apply Habove; [lia|done]. }
  destruct (pprev bq) as [q'|] eqn:Hq'.
  - destruct (pprev_entry st Hst q bq q' Hq Hq') as (bq' & Hbq' & Hh').
    pose proof (entry_height st Hst q' bq' Hbq').
    apply (IH q' bq'); try done; try lia; [|by rewrite Hh'].
    rewrite <- (ancestor_at_trans st Hst p b q (bi_nHeight bq)) by (done || lia).
    rewrite <- (ancestor_at_prev st Hst q bq q') by (done || lia). by apply ancestor_at_self.
  - exists None. split; [by destruct f|]. intros h' Heq.
    destruct (Hst q bq Hq) as [_ Hroot]. rewrite Hq' in Hroot.
    destruct (Z.lt_ge_cases h' 0); [|apply Habove'; [lia|done]].
    by apply (ancestor_at_out p b); [|lia].
Qed.

Lemma FindFork_spec c t p b : is_chain st c t → st !! p = Some b →
  ∃ r, FindFork st c (Some p) = Ok r ∧ last_common st p t r.
Proof.
  intros Hc Hb. pose proof (entry_height st Hst p b Hb). unfold FindFork, deref. rewrite Hb. cbn [rbind].
  destruct Hc as (bt & Hbt & Hlen & Hc'). pose proof (entry_height st Hst t bt Hbt).
  assert (is_chain st c t) as Hc by (by exists bt). unfold Height.
  destruct (Z.gtb_spec (bi_nHeight b) (Z.of_nat (length c) - 1)).
  - rewrite (GetAncestor_spec st Hst p b) by done. cbn [rbind].
    destruct (ancestor_at_spec st Hst p b (Z.of_nat (length c) - 1) Hb ltac:(lia)) as (q & bq & Hq & Hbq & Hh & _).
    rewrite Hq. apply (FindFork_loop_spec _ c t p b q bq); rewrite ?Hh; try done; try lia.
    intros h' Hh' Heq. rewrite Heq. apply (ancestor_at_out t bt); [done|lia].
  - cbn [rbind]. apply (FindFork_loop_spec _ c t p b p b); try done; try lia.
    + by apply ancestor_at_self.
    + intros h' Hh' Heq. apply (ancestor_at_out p b); [done|lia].
Qed.

Lemma LastCommonAncestor_loop_spec fuel a b qa qb ba bb ea eb :
  st !! a = Some ba → st !! b = Some bb → st !! qa = Some ea → st !! qb = Some eb →
  bi_nHeight ea = bi_nHeight eb → bi_nHeight ea + 1 <= Z.of_nat fuel →
  ancestor_at st a (bi_nHeight ea) = Some qa → ancestor_at st b (bi_nHeight ea) = Some qb →
  apart_above a b (bi_nHeight ea) →
  ∃ r, LastCommonAncestor_loop fuel st (Some qa) (Some qb) = Ok (r, r) ∧ last_common st a b r.
Proof.
  intros Ha Hb. revert qa qb ea eb; induction fuel as [|f IH]; intros qa qb ea eb Hqa Hqb Hh Hf Haa Hbb Habove;
    pose proof (entry_height st Hst qa ea Hqa) as H0; [lia|].
  destruct (ancestor_at_range _ _ _ Haa) as (b' & _ & Hb' & Hra & _). assert (b' = ba) as -> by congruence.
  destruct (ancestor_at_range _ _ _ Hbb) as (b'' & _ & Hb'' & Hrb & _). assert (b'' = bb) as -> by congruence.
  cbn [LastCommonAncestor_loop]. destruct (Pos.eqb_spec qa qb) as [->|Hne].
  { eexists. split; [done|]. exists (bi_nHeight ea). done. }
  unfold deref. rewrite Hqa, Hqb. cbn [rbind].
  assert (apart_above a b (bi_nHeight ea - 1)) as Habove'.
  { intros h' Hh' Heq. destruct (Z.eq_dec h' (bi_nHeight ea)) as [->|]; [congruence|].
    apply Habove; [lia|done]. }
  destruct (Z.eq_dec (bi_nHeight ea) 0) as [Hz|Hz].
  - exists None. destruct (Hst qa ea Hqa) as [_ Hroot]. destruct (Hst qb eb Hqb) as [_ Hroot'].
    destruct (pprev ea); [destruct Hroot as (? & ? & ? & ? & _); lia|].
    destruct (pprev eb); [destruct Hroot' as (? & ? & ? & ? & _); lia|].
    split; [by destruct f|]. intros h' Heq.
    destruct (Z.lt_ge_cases h' 0); [by apply (ancestor_at_out a ba); [|lia]|apply Habove'; [lia|done]].
  - destruct (pprev_above st Hst qa ea Hqa ltac:(lia)) as [qa' Hpa].
    destruct (pprev_above st Hst qb eb Hqb ltac:(lia)) as [qb' Hpb].
    destruct (pprev_entry st Hst qa ea qa' Hqa Hpa) as (ea' & Hea' & Hha).
    destruct (pprev_entry st Hst qb eb qb' Hqb Hpb) as (eb' & Heb' & Hhb).
    rewrite Hpa, Hpb. apply (IH qa' qb' ea' eb'); try done; try lia.
    + rewrite <- (ancestor_at_trans st Hst a ba qa (bi_nHeight ea)) by (done || lia).
      rewrite <- (ancestor_at_prev st Hst qa ea qa') by (done || lia). by apply ancestor_at_self.
    + rewrite <- (ancestor_at_trans st Hst b bb qb (bi_nHeight ea)) by (done || lia).
      rewrite <- (ancestor_at_prev st Hst qb eb qb') by (done || lia).
      replace (bi_nHeight ea') with (bi_nHeight eb') by lia. by apply ancestor_at_self.
    + by rewrite Hha.
Qed.

Lemma LastCommonAncestor_spec a b ba bb : st !! a = Some ba → st !! b = Some bb →
  ∃ r, LastCommonAncestor st a b = Ok r ∧ last_common st a b r.
Proof.
  intros Ha Hb. pose proof (entry_height st Hst a ba Ha). pose proof (entry_height st Hst b bb Hb).
  unfold LastCommonAncestor, deref. rewrite Ha, Hb. cbn [rbind].
  set (h := Z.min (bi_nHeight ba) (bi_nHeight bb)).
  destruct (ancestor_at_spec st Hst a ba h Ha ltac:(lia)) as (qa & ea & Hqa & Hea & Hha & _).
  destruct (ancestor_at_spec st Hst b bb h Hb ltac:(lia)) as (qb & eb & Hqb & Heb & Hhb & _).
  assert ((if bi_nHeight ba >? bi_nHeight bb
    then let? x := GetAncestor st a (bi_nHeight bb) in Ok (x, Some b)
    else if bi_nHeight bb >? bi_nHeight ba
    then let? x := GetAncestor st b (bi_nHeight ba) in Ok (Some a, x)
    else Ok (Some a, Some b)) = Ok (Some qa, Some qb)) as ->.
  { rewrite (GetAncestor_spec st Hst a ba), (GetAncestor_spec st Hst b bb) by done. cbn [rbind].
    pose proof (ancestor_at_self st Hst a ba Ha). pose proof (ancestor_at_self st Hst b bb Hb).
    destruct (Z.gtb_spec (bi_nHeight ba) (bi_nHeight bb)); [|destruct (Z.gtb_spec (bi_nHeight bb) (bi_nHeight ba))].
    - replace h with (bi_nHeight bb) in * by lia. rewrite Hqa. do 3 f_equal. congruence.
    - replace h with (bi_nHeight ba) in * by lia. rewrite Hqb. do 3 f_equal. congruence.
    - assert (h = bi_nHeight ba ∧ h = bi_nHeight bb) as [E1 E2] by lia.
      rewrite E1 in Hqa. rewrite E2 in Hqb. do 2 f_equal; congruence. }
  cbn [rbind].
  destruct (LastCommonAncestor_loop_spec (S (Z.to_nat h)) a b qa qb ba bb ea eb) as (r & Hr & Hlc);
    rewrite ?Hha; try done; try lia.
  - intros h' Hh' Heq. destruct (Z.le_gt_cases (bi_nHeight ba) (bi_nHeight bb)).
    + apply (ancestor_at_out a ba); [done|lia].
    + rewrite Heq. apply (ancestor_at_out b bb); [done|lia].
  - rewrite Hr. cbn [rbind]. exists r. split; [|done]. by rewrite decide_True.
Qed.

(** *** Locators *)

(** Blocks on the path to [p], at strictly decreasing heights, down to the
    genesis block. *)
Fixpoint descending (p : ptr) (h : Z) (l : list ptr) : Prop :=
  match l with
  | [] => h = 0
  | q :: l' => ∃ h', 0 <= h' < h ∧ ancestor_at st p h' = Some q ∧ descending p h' l'
  end.

Lemma GetLocator_loop_spec fuel c p b q bq step have : chain_ok st c → st !! p = Some b →
  st !! q = Some bq → ancestor_at st p (bi_nHeight bq) = Some q →
  bi_nHeight bq <= Z.of_nat fuel → 1 <= step →
  ∃ l, GetLocator_loop fuel st c (Some q) step have = Ok (have ++ q :: l) ∧
       descending p (bi_nHeight bq) l.
Proof.
  intros Hc Hb. revert q bq step have; induction fuel as [|f IH]; intros q bq step have Hq Ha Hf Hstep;
    pose proof (entry_height st Hst q bq Hq) as H0; cbn [GetLocator_loop]; unfold deref; rewrite Hq; cbn [rbind];
    destruct (Z.eqb_spec (bi_nHeight bq) 0) as [Hz|Hz]; try (exists []; done); [lia|].
  destruct (ancestor_at_range _ _ _ Ha) as (b' & _ & Hb' & Hr & _). assert (b' = b) as -> by congruence.
  set (h := Z.max (bi_nHeight bq - step) 0).
  destruct (ancestor_at_spec st Hst q bq h Hq ltac:(lia)) as (r & br & Hr1 & Hbr & Hhr & _).
  assert ((let? cont := Contains st c q in
           let? next := (if cont : bool then Ok (chain_at c h) else GetAncestor st q h) in
           GetLocator_loop f st c next (if (10 <? length (have ++ [q]))%nat then step * 2 else step) (have ++ [q]))
          = GetLocator_loop f st c (Some r) (if (10 <? length (have ++ [q]))%nat then step * 2 else step) (have ++ [q])) as ->.
  { unfold Contains, deref. rewrite Hq. cbn [rbind]. rewrite (GetAncestor_spec st Hst q bq), Hr1 by done.
    case_bool_decide as Hin; [|done]. cbn [rbind]. f_equal.
    destruct Hc as [->|(t & Ht)]; [by rewrite chain_at_nil in Hin|].
    rewrite (chain_at_ancestor c t) in Hin |- * by done.
    destruct (ancestor_at_range _ _ _ Hin) as (bt & _ & Hbt & ? & _).
    rewrite <- Hr1. symmetry. by apply (ancestor_at_trans st Hst t bt q (bi_nHeight bq)); (done || lia). }
  assert (ancestor_at st p h = Some r) as Hpr.
  { rewrite <- (ancestor_at_trans st Hst p b q (bi_nHeight bq)) by (done || lia). done. }
  destruct (IH r br (if (10 <? length (have ++ [q]))%nat then step * 2 else step) (have ++ [q]))
    as (l & Hl & Hd); rewrite ?Hhr; try done; try lia; [by case_match; lia|].
  rewrite Hl. exists (r :: l). rewrite <- app_assoc. split; [done|].
  exists h. split; [lia|]. rewrite Hhr in Hd. done.
Qed.

Lemma GetLocator_spec c p b : chain_ok st c → st !! p = Some b →
  ∃ l, GetLocator st c (Some p) = Ok (p :: l) ∧ descending p (bi_nHeight b) l.
Proof.
  intros Hc Hb. pose proof (entry_height st Hst p b Hb). unfold GetLocator, deref. rewrite Hb. cbn [rbind].
  apply (GetLocator_loop_spec _ c p b p b 1 []); try done; try lia. by apply ancestor_at_self.
Qed.

(** *** Times *)

Lemma up_nTimeMax n p b q bq : st !! p = Some b → up st n p = Some q → st !! q = Some bq →
  nTimeMax bq <= nTimeMax b.
Proof.
  revert p b; induction n as [|n IH]; intros p b Hb Hup Hbq; cbn [up] in Hup.
  - injection Hup as ->. assert (b = bq) as -> by congruence. lia.
  - rewrite Hb in Hup. destruct (Hst p b Hb) as [_ He]. destruct (pprev b) as [r|]; [|done].
    destruct He as (br & Hbr & _ & _ & _ & Ht & _). specialize (IH r br Hbr Hup Hbq). lia.
Qed.

Lemma nTimeMax_mono p b q bq h : st !! p = Some b → ancestor_at st p h = Some q → st !! q = Some bq →
  nTimeMax bq <= nTimeMax b.
Proof.
  intros Hb Hq Hbq. unfold ancestor_at in Hq. rewrite Hb in Hq.
  destruct (_ && _); [|done]. by eapply up_nTimeMax.
Qed.

Lemma collect_times_spec n p b : st !! p = Some b →
  ∃ ts, collect_times n st (Some p) = Ok ts ∧ length ts = Nat.min n (S (Z.to_nat (bi_nHeight b))).
Proof.
  revert p b; induction n as [|n IH]; intros p b Hb; cbn [collect_times]; [by exists []|].
  pose proof (entry_height st Hst p b Hb).
  unfold deref. rewrite Hb. cbn [rbind]. destruct (pprev b) as [q|] eqn:Hq.
  - destruct (pprev_entry st Hst p b q Hb Hq) as (bq & Hbq & Hh).
    pose proof (entry_height st Hst q bq Hbq).
    destruct (IH q bq Hbq) as (ts & -> & Hl). eexists. split; [done|]. cbn [length]. lia.
  - destruct (Hst p b Hb) as [_ Hroot]. rewrite Hq in Hroot.
    exists [bi_nTime b]. split; [by destruct n|]. cbn [length]. lia.
Qed.

End Paths.

Lemma lower_bound_spec fuel less first len :
  (len <= fuel)%nat →
  (∀ i j, (first <= i)%nat → (i <= j)%nat → (j < first + len)%nat → less j = true → less i = true) →
  let r := lower_bound fuel less first len in
  (first <= r <= first + len)%nat ∧
  (∀ i, (first <= i < r)%nat → less i = true) ∧
  (∀ i, (r <= i < first + len)%nat → less i = false).
Proof.
  revert first len; induction fuel as [|f IH]; intros first len Hf Hm; cbn [lower_bound].
  { split; [lia|]. split; intros; lia. }
  destruct (Nat.eqb_spec len 0) as [->|]; [split; [lia|]; split; intros; lia|].
  pose proof (Nat.div_lt len 2 ltac:(lia) ltac:(lia)). set (half := (len / 2)%nat) in *.
  destruct (less (first + half)%nat) eqn:Hl.
  - destruct (IH (S (first + half)) (len - half - 1)%nat) as (Hr & Hlo & Hhi); [lia|intros; eapply Hm; eauto; lia|].
    split; [lia|]. split; [|intros; apply Hhi; lia]. intros i Hi.
    destruct (Nat.le_gt_cases i (first + half)); [|apply Hlo; lia].
    apply (Hm i (first + half)%nat); (done || lia).
  - destruct (IH first half) as (Hr & Hlo & Hhi); [lia|intros; eapply Hm; eauto; lia|].
    split; [lia|]. split; [done|]. intros i Hi.
    destruct (Nat.lt_ge_cases i (first + half)); [apply Hhi; lia|].
    destruct (less i) eqn:Hi'; [|done]. rewrite (Hm (first + half)%nat i) in Hl; (done || lia).
Qed.

(** ** Medians *)

Lemma filter_nil_all {A} (P : A → Prop) `{!∀ x, Decision (P x)} l : (∀ x, x ∈ l → ¬ P x) → filter P l = [].
Proof.
  induction l as [|x l IH]; intros Hn; [done|]. rewrite filter_cons_False by (apply Hn; left).
  apply IH. intros y Hy. apply Hn. by right.
Qed.

(** In a sorted list, at most [k] elements are below the one at index [k] and
    at most [length l - k - 1] are above it. *)
Lemma sorted_split (l : list Z) k : StronglySorted Z.le l → (k < length l)%nat →
  (length (filter (fun x => (x < nth k l 0)%Z) l) <= k)%nat ∧
  (length (filter (fun x => (nth k l 0 < x)%Z) l) <= length l - k - 1)%nat.
Proof.
  intros Hs. revert k. induction Hs as [|x l Hs IH Hall]; intros k Hk; [simpl in Hk; lia|].
  rewrite Forall_forall in Hall. destruct k as [|k]; cbn [nth].
  - split.
    + rewrite filter_nil_all; [done|]. intros y [->|Hy]%elem_of_cons; [lia|]. specialize (Hall y Hy). lia.
    + rewrite filter_cons_False by lia. pose proof (length_filter (fun y => (x < y)%Z) l). cbn [length]. lia.
  - simpl in Hk. destruct (IH k ltac:(lia)) as [H1 H2]. split.
    + destruct (decide (x < nth k l 0)); [rewrite filter_cons_True by done|rewrite filter_cons_False by done];
        cbn [length]; lia.
    + rewrite filter_cons_False; [cbn [length]; lia|].
      assert (x <= nth k l 0); [|lia]. apply Hall. apply list_elem_of_In, nth_In. lia.
Qed.

Lemma GetMedianTimePast_spec st p b : heap_ok st → st !! p = Some b →
  ∃ ts m, collect_times nMedianTimeSpan st (Some p) = Ok ts ∧
    length ts = Nat.min nMedianTimeSpan (S (Z.to_nat (bi_nHeight b))) ∧
    GetMedianTimePast st p = Ok m ∧ m ∈ ts ∧
    (length (filter (fun x => (x < m)%Z) ts) <= length ts / 2)%nat ∧
    (length (filter (fun x => (m < x)%Z) ts) <= (length ts - 1) / 2)%nat.
Proof.
  intros Hok Hb. destruct (collect_times_spec st Hok nMedianTimeSpan p b Hb) as (ts & Hts & Hlen).
  unfold GetMedianTimePast. rewrite Hts. cbn [rbind]. exists ts. eexists. split; [done|]. split; [done|].
  split; [done|]. set (l := merge_sort Z.le (reverse ts)).
  assert (l ≡ₚ ts) as Hp by (unfold l; rewrite merge_sort_Permutation; apply reverse_Permutation).
  assert (length l = length ts) as Hll by (by rewrite Hp).
  assert (0 < length ts)%nat by (rewrite Hlen; unfold nMedianTimeSpan; lia).
  pose proof (Nat.div_lt (length l) 2 ltac:(lia) ltac:(lia)) as Hk.
  assert (StronglySorted Z.le l) as Hs.
  { apply (StronglySorted_merge_sort Z.le). }
  destruct (sorted_split l (length l / 2) Hs Hk) as [Hlo Hhi].
  split; [|split].
  - rewrite <- Hp. apply list_elem_of_In, nth_In. done.
  - rewrite <- Hp at 1. rewrite <- Hll. exact Hlo.
  - rewrite <- Hp at 1. etransitivity; [exact Hhi|]. rewrite Hll.
    pose proof (Nat.div_mod_eq (length ts) 2). pose proof (Nat.mod_upper_bound (length ts) 2 ltac:(lia)).
    pose proof (Nat.div_mod_eq (length ts - 1) 2). pose proof (Nat.mod_upper_bound (length ts - 1) 2 ltac:(lia)). lia.
Qed.

Lemma FindEarliestAtLeast_spec st c t time : heap_ok st → is_chain st c t →
  match FindEarliestAtLeast st c time with
  | Some p => ∃ b, st !! p = Some b ∧ ancestor_at st t (bi_nHeight b) = Some p ∧ time <= nTimeMax b ∧
      ∀ h q bq, h < bi_nHeight b → ancestor_at st t h = Some q → st !! q = Some bq → nTimeMax bq < time
  | None => ∀ h q bq, ancestor_at st t h = Some q → st !! q = Some bq → nTimeMax bq < time
  end.
Proof.
  intros Hok Hc. pose proof Hc as (bt & Hbt & Hlen & Hnth). unfold FindEarliestAtLeast.
  assert (∀ i, (i < length c)%nat → ∃ q bq, nth i c None = Some q ∧ st !! q = Some bq ∧
            bi_nHeight bq = Z.of_nat i ∧ time_max_below st c time i = (nTimeMax bq <? time)) as Hat.
  { intros i Hi. destruct (ancestor_at_spec st Hok t bt (Z.of_nat i) Hbt ltac:(lia)) as (q & bq & Hq & Hbq & Hh & _).
    exists q, bq. rewrite Hnth by done. split_and!; try done. unfold time_max_below. by rewrite Hnth, Hq, Hbq. }
  destruct (lower_bound_spec (length c) (time_max_below st c time) 0 (length c)) as (Hr & Hlo & Hhi); [lia| |].
  { intros i j _ Hij Hj Hless. destruct (Hat i ltac:(lia)) as (q & bq & Hq & Hbq & Hhq & ->).
    destruct (Hat j ltac:(lia)) as (r & br & Hr & Hbr & Hhr & Hb). rewrite Hb in Hless. apply Z.ltb_lt in Hless.
    rewrite Hnth in Hq, Hr by lia. apply Z.ltb_lt.
    assert (ancestor_at st r (Z.of_nat i) = Some q) as Hqr.
    { rewrite <- Hq. apply (ancestor_at_trans st Hok t bt r (Z.of_nat j)); (done || lia). }
    pose proof (nTimeMax_mono st Hok r br q bq _ Hbr Hqr Hbq). lia. }
  set (r := lower_bound _ _ _ _) in *.
  assert (∀ h q bq, h < Z.of_nat r → ancestor_at st t h = Some q → st !! q = Some bq → nTimeMax bq < time) as Hbelow.
  { intros h q bq Hh Hq Hbq. destruct (ancestor_at_range st Hok _ _ _ Hq) as (? & ? & ? & ? & ? & ?).
    destruct (Hat (Z.to_nat h) ltac:(lia)) as (q' & bq' & Hq' & Hbq' & _ & Hl).
    rewrite Hnth, Z2Nat.id in Hq' by lia. assert (bq' = bq) as -> by congruence.
    rewrite Hlo in Hl by lia. symmetry in Hl. by apply Z.ltb_lt in Hl. }
  destruct (Nat.lt_ge_cases r (length c)) as [Hlt|Hge].
  - destruct (Hat r Hlt) as (q & bq & Hq & Hbq & Hh & Hl). rewrite Hq. exists bq. split; [done|].
    rewrite Hh. split; [by rewrite <- Hnth|]. split; [|done].
    rewrite Hhi in Hl by lia. symmetry in Hl. by apply Z.ltb_ge in Hl.
  - rewrite nth_overflow by lia. intros h q bq Hq Hbq.
    destruct (ancestor_at_range st Hok _ _ _ Hq) as (? & ? & ? & ? & ? & ?).
    eapply Hbelow; [|done|done]. assert (x = bt) as -> by congruence. lia.
Qed.

(** ** Reachable trees

    [AcceptBlockHeader] adds a header whose parent is known, or the genesis
    block to an empty tree; a block cannot contain its own hash. *)
Inductive tree_step (GetHash : CBlockHeader → uint256) (t t' : BlockTree) : Prop :=
| tree_step_add block p :
    ufits 32 (nBits block) →
    GetHash block ≠ hashPrevBlock block →
    (mapBlockIndex t !! hashPrevBlock block = None → mapBlockIndex t = ∅ ∧ nHeight block = 0) →
    AddToBlockIndex GetHash t block = Ok (t', p) →
    tree_step GetHash t t'.

Lemma empty_tree_ok : tree_ok empty_tree.
Proof. constructor; cbn; [intros p b Hp|intros h p Hp|intros p [b Hp]|done]; by rewrite lookup_empty in Hp. Qed.

Lemma tree_step_ok GetHash t t' : tree_ok t → tree_step GetHash t t' → tree_ok t'.
Proof.
  intros Ht [block p Hb Hs Hg Ha].
  destruct (AddToBlockIndex_ok GetHash t block Ht Hb Hs) as (t2 & p2 & H2 & Hok & _); [naive_solver|].
  rewrite Ha in H2. by injection H2 as <- <-.
Qed.

Lemma reachable_ok GetHash t : rtc (tree_step GetHash) empty_tree t → tree_ok t.
Proof.
  intros H. remember empty_tree as e eqn:He. assert (tree_ok e) as Hok by (subst; apply empty_tree_ok).
  clear He. induction H as [|a b c Hab _ IH]; [done|]. by eapply IH, tree_step_ok.
Qed.

(** A small tree for the witnesses: three blocks, the last two on the first;
    the hash of a header is its nonce. *)
Definition nonce_hash (h : CBlockHeader) : uint256 := [nNonce h].
Definition sample_header (nonce prev time : Z) : CBlockHeader :=
  mkHeader 1 [prev] [] time 0x1d00ffff nonce 0 0 [].
Definition add_header (t : BlockTree) (h : CBlockHeader) : BlockTree :=
  match AddToBlockIndex nonce_hash t h with Ok (t', _) => t' | Err _ => t end.
Definition tree1 : BlockTree := Eval vm_compute in add_header empty_tree (sample_header 1 0 100).
Definition tree2 : BlockTree := Eval vm_compute in add_header tree1 (sample_header 2 1 200).
Definition sample_tree : BlockTree := Eval vm_compute in add_header tree2 (sample_header 3 1 150).

Lemma sample_step1 : tree_step nonce_hash empty_tree tree1.
Proof.
  apply (tree_step_add _ _ _ (sample_header 1 0 100) 1%positive).
  - vm_compute; split; congruence.
  - discriminate.
  - intros _. split; reflexivity.
  - vm_compute. reflexivity.
Qed.

Lemma sample_step2 : tree_step nonce_hash tree1 tree2.
Proof.
  apply (tree_step_add _ _ _ (sample_header 2 1 200) 2%positive).
  - vm_compute; split; congruence.
  - discriminate.
  - intros H. vm_compute in H. discriminate.
  - vm_compute. reflexivity.
Qed.

Lemma sample_step3 : tree_step nonce_hash tree2 sample_tree.
Proof.
  apply (tree_step_add _ _ _ (sample_header 3 1 150) 3%positive).
  - vm_compute; split; congruence.
  - discriminate.
  - intros H. vm_compute in H. discriminate.
  - vm_compute. reflexivity.
Qed.

Lemma sample_tree_reachable : rtc (tree_step nonce_hash) empty_tree sample_tree.
Proof.
  apply (rtc_l _ _ tree1 _ sample_step1), (rtc_l _ _ tree2 _ sample_step2), rtc_once, sample_step3.
Qed.

(** A chain of [n] blocks in a row. *)
Definition linear_header (ver bits t0 : Z) (i : nat) : CBlockHeader :=
  mkHeader ver [Z.of_nat i] [] (t0 + 15 * Z.of_nat i) bits (Z.of_nat i + 1) 0 0 [].
Fixpoint linear_tree (ver bits t0 : Z) (n : nat) : BlockTree :=
  match n with
  | O => empty_tree
  | S i => add_header (linear_tree ver bits t0 i) (linear_header ver bits t0 i)
  end.

Lemma linear_tree_spec ver bits t0 n : ufits 32 bits →
  let t := linear_tree ver bits t0 n in
  rtc (tree_step nonce_hash) empty_tree t ∧
  (∀ h p, mapBlockIndex t !! h = Some p → ∃ k, (1 <= k <= n)%nat ∧ h = [Z.of_nat k]) ∧
  (∀ p b, tree_heap t !! p = Some b → ∃ i, (i < n)%nat ∧ bi_header b = linear_header ver bits t0 i) ∧
  ((0 < n)%nat → ∃ p b, mapBlockIndex t !! [Z.of_nat n] = Some p ∧ tree_heap t !! p = Some b ∧
                  bi_nHeight b = Z.of_nat n - 1).
Proof.
  intros Hbits. cbv zeta. induction n as [|n (Hr & Hm & Hh & Htip)].
  { split; [apply rtc_refl|]. split; [intros h p Hp|split; [intros p b Hp|lia]];
      cbn in Hp; by rewrite lookup_empty in Hp. }
  set (t := linear_tree ver bits t0 n) in *. set (hd := linear_header ver bits t0 n).
  assert (nonce_hash hd ≠ hashPrevBlock hd) as Hself by (intros [=]; lia).
  assert (mapBlockIndex t !! nonce_hash hd = None) as Hnew.
  { destruct (mapBlockIndex t !! nonce_hash hd) as [p|] eqn:E; [|done].
    destruct (Hm _ _ E) as (k & Hk & [=]). lia. }
  assert (n = 0%nat → t = empty_tree) as Hzero by (intros ->; done).
  destruct (AddToBlockIndex_ok nonce_hash t hd (reachable_ok _ t Hr) Hbits Hself ltac:(done))
    as (t' & p & Ha & Hok & Hsub & Hp & Hex). destruct (Hex Hnew) as (Hmap & e & Hheap & Hfresh & Hhd & Hpp).
  assert (linear_tree ver bits t0 (S n) = t') as ->
    by (change (add_header t hd = t'); unfold add_header; by rewrite Ha).
  split_and!.
  - eapply rtc_r; [exact Hr|]. apply (tree_step_add _ _ _ hd p); try done. intros Hno.
    destruct n; [by rewrite Hzero|]. destruct Htip as (q & b & Hq & _); [lia|].
    change (hashPrevBlock hd) with [Z.of_nat (S n)] in Hno. congruence.
  - intros h q. rewrite Hmap, lookup_insert_Some. intros [[<- <-]|[_ Hq]].
    + exists (S n). split; [lia|]. unfold nonce_hash, hd; cbn. f_equal. lia.
    + destruct (Hm h q Hq) as (k & Hk & ->). exists k. split; [lia|done].
  - intros q b. rewrite Hheap, lookup_insert_Some. intros [[<- <-]|[_ Hq]]; [exists n; split; [lia|done]|].
    destruct (Hh q b Hq) as (i & Hi & Hb). exists i. split; [lia|done].
  - intros _. exists p, e. replace [Z.of_nat (S n)] with (nonce_hash hd)
      by (unfold nonce_hash, hd; cbn; f_equal; lia). split; [done|].
    assert (tree_heap t' !! p = Some e) as He by (rewrite Hheap; apply lookup_insert_eq). split; [done|].
    destruct (ok_heap t' Hok p e He) as [_ Hent]. rewrite Hpp in Hent.
    change (hashPrevBlock hd) with [Z.of_nat n] in Hent. destruct n as [|n].
    + rewrite Hzero in Hent by done. cbn [mapBlockIndex empty_tree] in Hent.
      rewrite lookup_empty in Hent. destruct Hent as [-> _]. done.
    + destruct Htip as (q & b & Hq & Hbq & Hhq); [lia|]. rewrite Hq in Hent.
      destruct Hent as (bq & Hbq' & _ & -> & _).
      assert (bq = b) as -> by (apply (lookup_weaken _ _ _ _ Hbq) in Hsub; congruence). lia.
Qed.

(** Dereferencing in a concrete tree, for the witnesses. *)
Definition entry_at (t : BlockTree) (p : ptr) : CBlockIndex :=
  match tree_heap t !! p with Some b => b | None => index_of_header header_null end.

(** ** Properties *)

(** C2: every tree built by [AddToBlockIndex] is well formed: heights increase
    by one along [pprev], skip pointers are the ancestors at their skip height,
    [nTimeMax] and [nChainWork] accumulate along the path, and the best header
    has the most work of all; and adding one more header never fails. *)
Theorem block_tree_invariant GetHash t block :
  rtc (tree_step GetHash) empty_tree t → ufits 32 (nBits block) →
  GetHash block ≠ hashPrevBlock block →
  (mapBlockIndex t !! hashPrevBlock block = None → nHeight block = 0) →
  tree_ok t ∧
  ∃ t' p, AddToBlockIndex GetHash t block = Ok (t', p) ∧ tree_ok t' ∧
    tree_heap t ⊆ tree_heap t' ∧ mapBlockIndex t' !! GetHash block = Some p.
Proof.
  intros Hr Hb Hs Hg. pose proof (reachable_ok GetHash t Hr) as Ht. split; [done|].
  destruct (AddToBlockIndex_ok GetHash t block Ht Hb Hs Hg) as (t' & p & H1 & H2 & H3 & H4 & _).
  by exists t', p.
Qed.

Lemma block_tree_invariant_witness : tree_ok sample_tree.
Proof.
  apply (block_tree_invariant nonce_hash sample_tree (sample_header 4 2 300) sample_tree_reachable).
  - vm_compute; split; congruence.
  - discriminate.
  - intros H. vm_compute in H. discriminate.
Defined.

(** The skip list computes ancestors: in every reachable tree [GetAncestor]
    terminates within its fuel, fails no assertion, and returns the block that
    following [pprev] one step at a time reaches, or null exactly when the
    height is out of range. *)
Theorem GetAncestor_correct GetHash t p b h :
  rtc (tree_step GetHash) empty_tree t → tree_heap t !! p = Some b →
  GetAncestor (tree_heap t) p h = Ok (ancestor_at (tree_heap t) p h) ∧
  (ancestor_at (tree_heap t) p h = None ↔ ¬ 0 <= h <= bi_nHeight b).
Proof.
  intros Hr Hb. pose proof (ok_heap t (reachable_ok GetHash t Hr)) as Hok.
  split; [by apply (GetAncestor_spec _ Hok p b)|]. split.
  - intros Hn Hh. destruct (ancestor_at_spec _ Hok p b h Hb Hh) as (q & _ & Hq & _). congruence.
  - by apply ancestor_at_out.
Qed.

Lemma GetAncestor_correct_witness :
  GetAncestor (tree_heap sample_tree) 3%positive 0 = Ok (Some 1%positive).
Proof.
  destruct (GetAncestor_correct nonce_hash sample_tree 3%positive (entry_at sample_tree 3%positive) 0
    sample_tree_reachable ltac:(vm_compute; reflexivity)) as [H _].
  rewrite H. vm_compute. reflexivity.
Defined.

(** The active chain: [SetTip] turns any valid chain (or none) into the
    whole path from the genesis block to the new tip, although it stops at the
    first entry that is already in place. *)
Theorem SetTip_correct GetHash t c p b :
  rtc (tree_step GetHash) empty_tree t → chain_ok (tree_heap t) c → tree_heap t !! p = Some b →
  ∃ c', SetTip (tree_heap t) c (Some p) = Ok c' ∧ is_chain (tree_heap t) c' p ∧
        ∀ h, chain_at c' h = ancestor_at (tree_heap t) p h.
Proof.
  intros Hr Hc Hb. pose proof (ok_heap t (reachable_ok GetHash t Hr)) as Hok.
  destruct (SetTip_spec _ Hok c p b Hc Hb) as (c' & Hc' & Hi). exists c'. split_and!; try done.
  intros h. by apply chain_at_ancestor.
Qed.

Lemma SetTip_correct_witness :
  ∃ c', SetTip (tree_heap sample_tree) [] (Some 2%positive) = Ok c' ∧
        is_chain (tree_heap sample_tree) c' 2%positive.
Proof.
  destruct (SetTip_correct nonce_hash sample_tree [] 2%positive (entry_at sample_tree 2%positive)
    sample_tree_reachable (or_introl eq_refl) ltac:(vm_compute; reflexivity)) as (c' & H1 & H2 & _).
  exists c'. split; [exact H1|exact H2].
Defined.

(** Fork points: [LastCommonAncestor] of two blocks and [FindFork] of a
    block against the active chain both return the highest block that lies on
    the two paths, or null when the paths are disjoint; neither fails. *)
Theorem fork_point_correct GetHash t c tip p b :
  rtc (tree_step GetHash) empty_tree t → is_chain (tree_heap t) c tip → tree_heap t !! p = Some b →
  (∃ r, FindFork (tree_heap t) c (Some p) = Ok r ∧ last_common (tree_heap t) p tip r) ∧
  (∃ r, LastCommonAncestor (tree_heap t) p tip = Ok r ∧ last_common (tree_heap t) p tip r).
Proof.
  intros Hr Hc Hb. pose proof (ok_heap t (reachable_ok GetHash t Hr)) as Hok.
  split; [by eapply FindFork_spec|]. destruct Hc as (bt & Hbt & _). by eapply LastCommonAncestor_spec.
Qed.

Lemma fork_point_correct_witness :
  ∃ r, LastCommonAncestor (tree_heap sample_tree) 3%positive 2%positive = Ok r ∧
       last_common (tree_heap sample_tree) 3%positive 2%positive r.
Proof.
  apply (fork_point_correct nonce_hash sample_tree [Some 1%positive; Some 2%positive] 2%positive 3%positive
    (entry_at sample_tree 3%positive) sample_tree_reachable); [|vm_compute; reflexivity].
  exists (entry_at sample_tree 2%positive). split; [vm_compute; reflexivity|].
  split; [vm_compute; reflexivity|]. intros i Hi. simpl in Hi.
  destruct i as [|[|i]]; [vm_compute; reflexivity|vm_compute; reflexivity|lia].
Defined.

(** Block locators start at the given block, list blocks of its path at
    strictly decreasing heights, and always reach the genesis block. *)
Theorem GetLocator_correct GetHash t c p b :
  rtc (tree_step GetHash) empty_tree t → chain_ok (tree_heap t) c → tree_heap t !! p = Some b →
  ∃ l, GetLocator (tree_heap t) c (Some p) = Ok (p :: l) ∧
       descending (tree_heap t) p (bi_nHeight b) l.
Proof.
  intros Hr Hc Hb. apply GetLocator_spec; [|done..]. apply (ok_heap t), (reachable_ok GetHash t Hr).
Qed.

Lemma GetLocator_correct_witness :
  ∃ l, GetLocator (tree_heap sample_tree) [] (Some 3%positive) = Ok (3%positive :: l) ∧
       descending (tree_heap sample_tree) 3%positive 1 l.
Proof.
  apply (GetLocator_correct nonce_hash sample_tree [] 3%positive (entry_at sample_tree 3%positive)
    sample_tree_reachable (or_introl eq_refl)). vm_compute. reflexivity.
Defined.

(** The proof of a block is the expected number of hashes,
    [2^256 / (target + 1)], computed without ever forming [2^256]; it is zero
    exactly for the targets that no hash may satisfy. *)
Theorem GetBlockProof_exact c : ufits 32 c →
  ∃ w a neg over, GetBlockProof c = Ok w ∧ wf w ∧ SetCompact c = (a, neg, over) ∧
    val w = (if neg || over || (val a =? 0) then 0 else 2 ^ 256 / (val a + 1)) ∧
    (neg = false → over = false → val a ≠ 0 → 0 < val w).
Proof.
  intros Hc. destruct (GetBlockProof_spec c Hc) as (w & Hw & Hwf & Hv). unfold target_work in Hv.
  destruct (SetCompact_total c Hc) as (a & neg & over & Hs & Ha & Hmax). rewrite Hs in Hv.
  exists w, a, neg, over. split_and!; try done. intros -> -> Hnz. rewrite Hv. cbn [orb].
  rewrite (proj2 (Z.eqb_neq _ 0)) by done. pose proof (val_bound a Ha). unfold M in *.
  assert (1 <= 2 ^ 256 / (val a + 1)); [|lia]. apply Z.div_le_lower_bound; lia.
Qed.

Lemma GetBlockProof_exact_witness : ∃ w, GetBlockProof 0x1d00ffff = Ok w ∧ wf w.
Proof.
  destruct (GetBlockProof_exact 0x1d00ffff ltac:(vm_compute; split; congruence))
    as (w & a & neg & over & H1 & H2 & _). exists w. split; [exact H1|exact H2].
Defined.

(** The median time of a block is one of the times of the block and its at
    most ten predecessors, with no more than half of them on either side. *)
Theorem median_time_correct GetHash t p b :
  rtc (tree_step GetHash) empty_tree t → tree_heap t !! p = Some b →
  ∃ ts m, collect_times nMedianTimeSpan (tree_heap t) (Some p) = Ok ts ∧
    length ts = Nat.min nMedianTimeSpan (S (Z.to_nat (bi_nHeight b))) ∧
    GetMedianTimePast (tree_heap t) p = Ok m ∧ m ∈ ts ∧
    (length (filter (fun x => (x < m)%Z) ts) <= length ts / 2)%nat ∧
    (length (filter (fun x => (m < x)%Z) ts) <= (length ts - 1) / 2)%nat.
Proof.
  intros Hr Hb. apply GetMedianTimePast_spec; [|done]. apply (ok_heap t), (reachable_ok GetHash t Hr).
Qed.

Lemma median_time_correct_witness : ∃ m, GetMedianTimePast (tree_heap sample_tree) 3%positive = Ok m.
Proof.
  destruct (median_time_correct nonce_hash sample_tree 3%positive (entry_at sample_tree 3%positive)
    sample_tree_reachable ltac:(vm_compute; reflexivity)) as (ts & m & _ & _ & H & _).
  exists m. exact H.
Defined.

(** The binary search for a time on the active chain finds the lowest block
    whose maximal time reaches it, or nothing when no block does. *)
Theorem FindEarliestAtLeast_correct GetHash t c tip time :
  rtc (tree_step GetHash) empty_tree t → is_chain (tree_heap t) c tip →
  match FindEarliestAtLeast (tree_heap t) c time with
  | Some p => ∃ b, tree_heap t !! p = Some b ∧ ancestor_at (tree_heap t) tip (bi_nHeight b) = Some p ∧
      time <= nTimeMax b ∧
      ∀ h q bq, h < bi_nHeight b → ancestor_at (tree_heap t) tip h = Some q →
        tree_heap t !! q = Some bq → nTimeMax bq < time
  | None => ∀ h q bq, ancestor_at (tree_heap t) tip h = Some q → tree_heap t !! q = Some bq →
      nTimeMax bq < time
  end.
Proof.
  intros Hr Hc. apply FindEarliestAtLeast_spec; [|done]. apply (ok_heap t), (reachable_ok GetHash t Hr).
Qed.

Lemma FindEarliestAtLeast_correct_witness :
  FindEarliestAtLeast (tree_heap sample_tree) [Some 1%positive; Some 2%positive] 120 = Some 2%positive ∧
  ∃ b, tree_heap sample_tree !! 2%positive = Some b ∧ 120 <= nTimeMax b.
Proof.
  split; [vm_compute; reflexivity|].
  destruct (FindEarliestAtLeast_correct nonce_hash sample_tree [Some 1%positive; Some 2%positive] 2%positive 120
    sample_tree_reachable) as (b & H1 & _ & H2 & _).
  - exists (entry_at sample_tree 2%positive). split; [vm_compute; reflexivity|].
    split; [vm_compute; reflexivity|]. intros i Hi. simpl in Hi.
    destruct i as [|[|i]]; [vm_compute; reflexivity|vm_compute; reflexivity|lia].
  - exists b. split; [exact H1|exact H2].
Defined.
