(* ===== verification/Pow.v ===== *)
(** * Proof of work: src/src/pow.cpp, and the conversions of arith_uint256.cpp

    Difficulty retargeting (Dark Gravity Wave and the Bitcoin rule) over the
    block index, and the check of a block hash against its target.  The
    overloads the compiler selects are written out: [bnNew *= int64_t] is the
    32-bit multiplication, [bnNew /= int64_t] converts through [uint64_t]. *)

From stdpp Require Import gmap.
From S2P Require Import Prelude Serialize ArithUint256 Transaction Chain.
Import base_uint arith_uint256 uint_facts.

(** ** Conversions between blobs and numbers *)

Definition ArithToUint256 (a : uint) : uint256 :=
  for_upto WIDTH (fun x b => take (x * 4) b ++ WriteLE32 a.[x] ++ drop (x * 4 + 4) b) blob_null.

Definition UintToArith256 (a : uint256) : uint :=
  for_upto WIDTH (fun x b => <[x := ReadLE32 (drop (x * 4) a)]> b) zero.

(** ** Consensus parameters *)

Record Params := mkParams {
  powLimit : uint256;
  phihashLimit : uint256;
  fPowAllowMinDifficultyBlocks : bool;
  fPowNoRetargeting : bool;
  nPowTargetSpacing : Z;
  nPowTargetTimespan : Z;
  nDGWActivationBlock : Z
}.
Definition DifficultyAdjustmentInterval (p : Params) : Z :=
  Z.quot (nPowTargetTimespan p) (nPowTargetSpacing p).
Definition IsDGWActive (p : Params) (nBlockNumber : Z) : bool :=
  u32 nBlockNumber >=? nDGWActivationBlock p.

Definition get_compact (a : uint) : result chain_error Z :=
  match GetCompact a false with Ok c => Ok c | Err _ => Err ChainAssert end.
Definition divide (a b : uint) : result chain_error uint :=
  match div a b with Ok q => Ok q | Err _ => Err UintError end.

(** The target of a compact word, without its flags. *)
Definition set_compact (c : Z) : uint := (SetCompact c).1.1.

(** ** Dark Gravity Wave *)

Definition nPastBlocks : Z := 240.

(** [while (pindex->pprev && pindex->nHeight % interval != 0 && pindex->nBits
    == limit) pindex = pindex->pprev; return pindex->nBits;] *)
Fixpoint last_special (fuel : nat) (st : heap) (interval limit : Z) (pindex : ptr)
    : result chain_error Z :=
  let? b := deref st pindex in
  match pprev b with
  | Some q =>
      if negb (Z.rem (bi_nHeight b) interval =? 0) && (bi_nBits b =? limit) then
        match fuel with
        | O => Err OutOfFuel
        | S f => last_special f st interval limit q
        end
      else Ok (bi_nBits b)
  | None => Ok (bi_nBits b)
  end.

(** The averaging loop; [n] iterations are left and the next one has
    [nCountBlocks]. *)
Fixpoint dgw_loop (n : nat) (st : heap) (nCountBlocks : Z) (pindex : ptr)
    (bnPastTargetAvg : uint) (nPHIHASHBlocksFound : Z) : result chain_error (ptr * uint * Z) :=
  match n with
  | O => Ok (pindex, bnPastTargetAvg, nPHIHASHBlocksFound)
  | S n' =>
      let? b := deref st pindex in
      let bnTarget := set_compact (bi_nBits b) in
      let? avg :=
        (if nCountBlocks =? 1 then Ok bnTarget
         else divide (add (mul_u32 bnPastTargetAvg nCountBlocks) bnTarget) (of_u64 (nCountBlocks + 1))) in
      let found := if bi_nTime b >=? nPHIHASHActivationTime
                   then nPHIHASHBlocksFound + 1 else nPHIHASHBlocksFound in
      let? next :=
        (if negb (nCountBlocks =? nPastBlocks)
         then match pprev b with None => Err ChainAssert | Some q => Ok q end
         else Ok pindex) in
      dgw_loop n' st (nCountBlocks + 1) next avg found
  end.

(** Clamp to a third and to three times, retarget, clamp to the limit. *)
Definition dgw_retarget (avg limit : uint) (nActualTimespan nTargetTimespan : Z) : result chain_error uint :=
  let ts := if nActualTimespan <? Z.quot nTargetTimespan 3 then Z.quot nTargetTimespan 3 else nActualTimespan in
  let ts := if ts >? nTargetTimespan * 3 then nTargetTimespan * 3 else ts in
  let bnNew := mul_u32 avg (u32 ts) in
  let? bnNew := divide bnNew (of_u64 (u64 nTargetTimespan)) in
  Ok (if gtb bnNew limit then limit else bnNew).

Definition DarkGravityWave (st : heap) (pindexLast : ptr) (pblock : CBlockHeader) (params : Params)
    : result chain_error Z :=
  let? nProofOfWorkLimit := get_compact (UintToArith256 (powLimit params)) in
  let bnPowLimit := UintToArith256 (powLimit params) in
  let? last := deref st pindexLast in
  if bi_nHeight last <? nPastBlocks then get_compact bnPowLimit
  else if fPowAllowMinDifficultyBlocks params && fPowNoRetargeting params then
    if GetBlockTime pblock >? bi_nTime last + nPowTargetSpacing params * 2 then Ok nProofOfWorkLimit
    else last_special (Z.to_nat (bi_nHeight last)) st (DifficultyAdjustmentInterval params)
           nProofOfWorkLimit pindexLast
  else
    let? (pindex, bnPastTargetAvg, nPHIHASHBlocksFound) :=
      dgw_loop (Z.to_nat nPastBlocks) st 1 pindexLast zero 0 in
    if (nTime pblock >=? nPHIHASHActivationTime) && negb (nPHIHASHBlocksFound =? nPastBlocks)
    then get_compact (UintToArith256 (phihashLimit params))
    else
      let? first := deref st pindex in
      let nActualTimespan := bi_nTime last - bi_nTime first in
      let nTargetTimespan := nPastBlocks * nPowTargetSpacing params in
      let? bnNew := dgw_retarget bnPastTargetAvg bnPowLimit nActualTimespan nTargetTimespan in
      get_compact bnNew.

(** ** The Bitcoin rule *)

Definition CalculateNextWorkRequired (last : CBlockIndex) (nFirstBlockTime : Z) (params : Params)
    : result chain_error Z :=
  if fPowNoRetargeting params then Ok (bi_nBits last)
  else
    let T := nPowTargetTimespan params in
    let nActualTimespan := bi_nTime last - nFirstBlockTime in
    let nActualTimespan := if nActualTimespan <? Z.quot T 4 then Z.quot T 4 else nActualTimespan in
    let nActualTimespan := if nActualTimespan >? T * 4 then T * 4 else nActualTimespan in
    let bnPowLimit := UintToArith256 (powLimit params) in
    let bnNew := mul_u32 (set_compact (bi_nBits last)) (u32 nActualTimespan) in
    let? bnNew := divide bnNew (of_u64 (u64 T)) in
    get_compact (if gtb bnNew bnPowLimit then bnPowLimit else bnNew).

Definition GetNextWorkRequiredBTC (st : heap) (pindexLast : ptr) (pblock : CBlockHeader) (params : Params)
    : result chain_error Z :=
  let? nProofOfWorkLimit := get_compact (UintToArith256 (powLimit params)) in
  let? last := deref st pindexLast in
  if negb (Z.rem (bi_nHeight last + 1) (DifficultyAdjustmentInterval params) =? 0) then
    if fPowAllowMinDifficultyBlocks params then
      if GetBlockTime pblock >? bi_nTime last + nPowTargetSpacing params * 2 then Ok nProofOfWorkLimit
      else last_special (Z.to_nat (bi_nHeight last)) st (DifficultyAdjustmentInterval params)
             nProofOfWorkLimit pindexLast
    else Ok (bi_nBits last)
  else
    let nHeightFirst := i32 (bi_nHeight last - (DifficultyAdjustmentInterval params - 1)) in
    if negb (nHeightFirst >=? 0) then Err ChainAssert
    else
      let? pindexFirst := GetAncestor st pindexLast nHeightFirst in
      match pindexFirst with
      | None => Err ChainAssert
      | Some q => let? first := deref st q in
                  CalculateNextWorkRequired last (bi_nTime first) params
      end.

Definition GetNextWorkRequired (st : heap) (pindexLast : ptr) (pblock : CBlockHeader) (params : Params)
    : result chain_error Z :=
  let? last := deref st pindexLast in
  if IsDGWActive params (bi_nHeight last + 1)
  then DarkGravityWave st pindexLast pblock params
  else GetNextWorkRequiredBTC st pindexLast pblock params.

(** ** Checking a hash *)

Definition CheckProofOfWork (hash : uint256) (nBits : Z) (params : Params) : bool :=
  let '(bnTarget, fNegative, fOverflow) := SetCompact nBits in
  if fNegative || EqualTo bnTarget 0 || fOverflow || gtb bnTarget (UintToArith256 (powLimit params))
  then false
  else if gtb (UintToArith256 hash) bnTarget then false
  else true.

(** ** Lemmas: conversions *)

Lemma UintToArith256_words a :
  UintToArith256 a = map (fun x => ReadLE32 (drop (x * 4) a)) (seq 0 8).
Proof. reflexivity. Qed.

(** Regrouping bytes into 32-bit words does not change the number. *)
Lemma words_val n a : length a = (n * 4)%nat →
  digits_val 32 (map (fun x => ReadLE32 (drop (x * 4) a)) (seq 0 n)) = digits_val 8 a.
Proof.
  revert a; induction n as [|n IH]; intros a Ha; [by destruct a|].
  cbn [seq map digits_val]. rewrite <- seq_shift, map_map.
  rewrite (map_ext _ (fun x => ReadLE32 (drop (x * 4) (drop 4 a)))) by
    (intros x; rewrite drop_drop; f_equal; f_equal; lia).
  rewrite IH by (rewrite length_drop; lia). unfold ReadLE32. cbn [Nat.mul]. change (drop 0 a) with a.
  rewrite <- (take_drop 4 a) at 3. rewrite digits_val_app by lia.
  rewrite length_take_le by lia. done.
Qed.

Lemma UintToArith256_spec a : blob_ok a → wf (UintToArith256 a) ∧ val (UintToArith256 a) = digits_val 8 a.
Proof.
  intros [Hl Hb]. rewrite UintToArith256_words. split.
  - split; [done|]. apply Forall_map, Forall_forall. intros x _. cbn. unfold ReadLE32.
    assert (bytes_ok (take 4 (drop (x * 4) a))) as Hk by (by apply Forall_take, Forall_drop).
    pose proof (digits_val_bound 8 _ ltac:(lia) Hk) as H. split; [lia|].
    apply Z.lt_le_trans with (2 ^ (8 * Z.of_nat (length (take 4 (drop (x * 4) a))))); [lia|].
    apply Z.pow_le_mono_r; [lia|]. rewrite length_take. lia.
  - unfold val. by rewrite words_val.
Qed.

Lemma ArithToUint256_bytes a : wf a → ArithToUint256 a = flat_map WriteLE32 a.
Proof.
  intros [Hl _]. destruct a as [|a0 [|a1 [|a2 [|a3 [|a4 [|a5 [|a6 [|a7 [|]]]]]]]]]; try done.
Qed.

Lemma UintToArith256_ArithToUint256 a : wf a → UintToArith256 (ArithToUint256 a) = a.
Proof.
  intros Ha. rewrite ArithToUint256_bytes by done. destruct Ha as [Hl Hd].
  assert (∀ l : uint, digits_ok 32 l →
    map (fun x => ReadLE32 (drop (x * 4) (flat_map WriteLE32 l))) (seq 0 (length l)) = l) as H.
  { induction 1 as [|d l Hd' Hl' IH]; [done|]. cbn [length seq map flat_map]. f_equal.
    - cbn [Nat.mul]. unfold ReadLE32. rewrite drop_0, take_app_le by done.
      rewrite firstn_all2 by done. unfold WriteLE32. rewrite digits_val_of by lia. by apply Z.mod_small.
    - rewrite <- seq_shift, map_map. rewrite <- IH at 2. by apply map_ext. }
  rewrite UintToArith256_words. specialize (H a Hd). by rewrite Hl in H.
Qed.

(** ** Lemmas: retargeting *)

Lemma get_compact_spec a : wf a →
  ∃ c a', get_compact a = Ok c ∧ ufits 32 c ∧ SetCompact c = (a', false, false) ∧ wf a' ∧ val a' <= val a.
Proof.
  intros Ha. destruct (GetCompact_lossy a Ha) as (c & a' & Hg & Hc & Hs & Hw & Hle & _).
  exists c, a'. unfold get_compact. by rewrite Hg.
Qed.

Lemma divide_u64_spec a n : wf a → 0 < n < 2 ^ 64 →
  ∃ q, divide a (of_u64 n) = Ok q ∧ wf q ∧ val q = val a / n.
Proof.
  intros Ha Hn. assert (val (of_u64 n) = n) as Hv by (apply val_of_u64; unfold ufits; lia).
  destruct (div_spec a (of_u64 n) Ha (wf_of_u64 n) ltac:(lia)) as (q & Hq & Hw & Hval).
  exists q. unfold divide. rewrite Hq, Hval, Hv. done.
Qed.

Lemma set_compact_wf c : ufits 32 c → wf (set_compact c).
Proof. intros Hc. unfold set_compact. by destruct (SetCompact_total c Hc) as (a & neg & over & -> & Hw & _). Qed.

(** The targets of the [n] blocks up to [p] lie between [lo] and [hi]. *)
Definition past_targets (st : heap) (p : ptr) (n : nat) (lo hi : Z) : Prop :=
  ∀ k q bq, (k < n)%nat → up st k p = Some q → st !! q = Some bq →
    lo <= val (set_compact (bi_nBits bq)) <= hi.

Lemma past_targets_prev st p b q n lo hi : st !! p = Some b → pprev b = Some q →
  past_targets st p (S n) lo hi → past_targets st q n lo hi.
Proof.
  intros Hb Hq H k r br Hk Hup. apply (H (S k)); [lia|]. cbn [up]. by rewrite Hb, Hq.
Qed.

(** The [n] blocks up to [p] are of the PHIHASH era. *)
Definition past_era (st : heap) (p : ptr) (n : nat) : Prop :=
  ∀ k q bq, (k < n)%nat → up st k p = Some q → st !! q = Some bq → nPHIHASHActivationTime <= bi_nTime bq.

Lemma past_era_prev st p b q n : st !! p = Some b → pprev b = Some q →
  past_era st p (S n) → past_era st q n.
Proof.
  intros Hb Hq H k r br Hk Hup. apply (H (S k)); [lia|]. cbn [up]. by rewrite Hb, Hq.
Qed.

(** The running value stays between the smallest and the largest target. *)
Lemma weighted_mean_bounds avg t n lo hi : 0 <= lo → 0 < n → lo <= avg <= hi → lo <= t <= hi →
  lo <= (avg * n + t) / (n + 1) <= hi.
Proof.
  intros H0 Hn Ha Ht. split.
  - apply Z.div_le_lower_bound; [lia|]. nia.
  - assert ((avg * n + t) / (n + 1) < hi + 1); [|lia]. apply Z.div_lt_upper_bound; [lia|]. nia.
Qed.

Lemma dgw_loop_spec st n cnt p b avg found : heap_ok st → st !! p = Some b →
  cnt + Z.of_nat n = nPastBlocks + 1 → 1 <= cnt → Z.of_nat n - 1 <= bi_nHeight b → wf avg →
  ∃ q bq avg' found', dgw_loop n st cnt p avg found = Ok (q, avg', found') ∧
    st !! q = Some bq ∧ wf avg' ∧ (past_era st p n → found' = found + Z.of_nat n) ∧
    (∀ lo hi, 0 <= lo → past_targets st p n lo hi → hi * (nPastBlocks + 1) < M →
       (cnt ≠ 1 → lo <= val avg <= hi) → (cnt = 1 → (0 < n)%nat) → lo <= val avg' <= hi).
Proof.
  intros Hok. revert cnt p b avg found.
  induction n as [|n IH]; intros cnt p b avg found Hb Hcnt Hc1 Hh Ha; cbn [dgw_loop].
  { exists p, b, avg, found. split_and!; try done; [lia|]. intros lo hi _ _ _ H1 H2.
    destruct (Z.eq_dec cnt 1) as [->|]; [specialize (H2 eq_refl); lia|auto]. }
  unfold deref. rewrite Hb. cbn [rbind]. unfold nPastBlocks in *.
  destruct (Hok p b Hb) as [[_ Hbits] _]. pose proof (set_compact_wf _ Hbits) as Ht.
  set (t := set_compact (bi_nBits b)) in *.
  assert (∃ a1, (if cnt =? 1 then Ok t else divide (add (mul_u32 avg cnt) t) (of_u64 (cnt + 1))) = Ok a1 ∧
    wf a1 ∧ ∀ lo hi, 0 <= lo → lo <= val t <= hi → hi * 241 < M → (cnt ≠ 1 → lo <= val avg <= hi) →
      lo <= val a1 <= hi) as (a1 & Ha1 & Hw1 & Hb1).
  { destruct (Z.eqb_spec cnt 1) as [->|Hne]; [by exists t|].
    destruct (mul_u32_spec avg cnt Ha) as [Hm Hmv]; [unfold ufits; lia|].
    destruct (add_spec _ t Hm Ht) as [Hs Hsv].
    destruct (divide_u64_spec _ (cnt + 1) Hs ltac:(lia)) as (a1 & Hd & Hw & Hv).
    exists a1. split_and!; try done. intros lo hi H0 Hbt Hno Hav. specialize (Hav Hne).
    rewrite Hv, Hsv, Hmv. rewrite (Z.mod_small (val avg * cnt)) by nia.
    rewrite Z.mod_small by nia. apply weighted_mean_bounds; lia. }
  rewrite Ha1. cbn [rbind]. set (found1 := if bi_nTime b >=? nPHIHASHActivationTime then found + 1 else found).
  assert (∃ q bq, (if negb (cnt =? 240) then match pprev b with Some q => Ok q | None => Err ChainAssert end
      else Ok p) = Ok q ∧ st !! q = Some bq ∧ Z.of_nat n - 1 <= bi_nHeight bq ∧
      (past_era st p (S n) → past_era st q n) ∧
      ∀ lo hi, past_targets st p (S n) lo hi → past_targets st q n lo hi) as (q & bq & Hq & Hbq & Hhq & Hera & Hpt).
  { destruct (Z.eqb_spec cnt 240) as [->|Hne]; cbn [negb].
    - assert (n = 0%nat) as -> by lia.
      exists p, b. split_and!; try done; [lia|intros _ k|intros lo hi _ k]; lia.
    - destruct (pprev_above st Hok p b Hb ltac:(lia)) as [q Hq]. rewrite Hq.
      destruct (pprev_entry st Hok p b q Hb Hq) as (bq & Hbq & Hhq).
      exists q, bq. split_and!; try done; [lia|by apply (past_era_prev st p b)|].
      intros lo hi. by apply (past_targets_prev st p b). }
  rewrite Hq. cbn [rbind].
  destruct (IH (cnt + 1) q bq a1 found1 Hbq ltac:(lia) ltac:(lia) ltac:(lia) Hw1)
    as (q' & bq' & avg' & found' & Hl & Hbq' & Hw' & Hfound & Hbound).
  exists q', bq', avg', found'. split_and!; try done.
  { intros He. rewrite Hfound by auto. unfold found1.
    rewrite (proj2 (Z.geb_le _ _)) by (apply (He 0%nat p b); [lia|done|done]). lia. }
  intros lo hi H0 Hp Hno Hav _.
  apply Hbound; auto; [|lia]. intros _. apply Hb1; auto.
  apply (Hp 0%nat p b); [lia|done|done].
Qed.

Lemma dgw_retarget_spec avg limit act T : wf avg → wf limit → 3 <= T → T * 3 < 2 ^ 32 →
  ∃ bn, dgw_retarget avg limit act T = Ok bn ∧ wf bn ∧ val bn <= val limit ∧
    (val avg * (T * 3) < M →
     Z.min (val avg * (T / 3) / T) (val limit) <= val bn <= Z.min (3 * val avg) (val limit)).
Proof.
  intros Ha Hl HT HT3. unfold dgw_retarget. rewrite Z.quot_div_nonneg by lia.
  set (ts1 := if act <? T / 3 then T / 3 else act). set (ts := if ts1 >? T * 3 then T * 3 else ts1).
  assert (0 <= T / 3) by (apply Z.div_pos; lia).
  assert (T / 3 <= T) by (apply Z.div_le_upper_bound; lia).
  assert (T / 3 <= ts <= T * 3) as Hts.
  { assert (T / 3 <= ts1) by (unfold ts1; destruct (Z.ltb_spec act (T / 3)); lia).
    unfold ts. rewrite Z.gtb_ltb. destruct (Z.ltb_spec (T * 3) ts1); lia. }
  unfold u32, u64. rewrite !uwrap_id by (unfold ufits; lia).
  destruct (mul_u32_spec avg ts Ha) as [Hm Hmv]; [unfold ufits; lia|].
  destruct (divide_u64_spec (mul_u32 avg ts) T Hm ltac:(lia)) as (q & Hq & Hw & Hv).
  rewrite Hq. cbn [rbind]. eexists. split; [done|].
  assert (wf (if gtb q limit then limit else q)) as Hwf by (by destruct (gtb q limit)).
  assert (val (if gtb q limit then limit else q) = Z.min (val q) (val limit)) as Hval.
  { rewrite gtb_spec, Z.gtb_ltb by done. destruct (Z.ltb_spec (val limit) (val q)); lia. }
  split; [done|]. rewrite Hval. split; [lia|]. intros Hno.
  pose proof (val_bound avg Ha). rewrite Z.mod_small in Hmv by nia. rewrite Hv, Hmv.
  assert (val avg * (T / 3) / T <= val avg * ts / T) by (apply Z.div_le_mono; nia).
  assert (val avg * ts / T <= 3 * val avg).
  { apply Z.div_le_upper_bound; nia. }
  lia.
Qed.

Lemma last_special_spec st fuel interval limit p b (P : Z → Prop) : heap_ok st → st !! p = Some b →
  bi_nHeight b <= Z.of_nat fuel →
  (∀ k q bq, up st k p = Some q → st !! q = Some bq → P (bi_nBits bq)) →
  ∃ c, last_special fuel st interval limit p = Ok c ∧ P c.
Proof.
  intros Hok. revert p b; induction fuel as [|f IH]; intros p b Hb Hf HP; cbn [last_special];
    unfold deref; rewrite Hb; cbn [rbind]; pose proof (entry_height st Hok p b Hb);
    destruct (pprev b) as [q|] eqn:Hq; try (eexists; split; [done|]; by apply (HP 0%nat p b));
    destruct (pprev_entry st Hok p b q Hb Hq) as (bq & Hbq & Hhq);
    pose proof (entry_height st Hok q bq Hbq); [lia|].
  destruct (_ && _); [|eexists; split; [done|]; by apply (HP 0%nat p b)].
  apply (IH q bq); [done|lia|]. intros k r br Hk. apply (HP (S k)). cbn [up]. by rewrite Hb, Hq.
Qed.

(** ** Valid parameters and valid difficulty bits *)

Definition params_ok (p : Params) : Prop :=
  blob_ok (powLimit p) ∧ blob_ok (phihashLimit p) ∧
  digits_val 8 (phihashLimit p) <= digits_val 8 (powLimit p) ∧
  1 <= nPowTargetSpacing p ∧ nPastBlocks * nPowTargetSpacing p * 3 < 2 ^ 32 ∧
  nPowTargetSpacing p <= nPowTargetTimespan p ∧ nPowTargetTimespan p * 4 < 2 ^ 32.

(** Bits that decode to a target within the limit. *)
Definition valid_bits (p : Params) (c : Z) : Prop :=
  ufits 32 c ∧ ∃ a, SetCompact c = (a, false, false) ∧ wf a ∧ val a <= digits_val 8 (powLimit p).

Lemma get_compact_valid p a : wf a → val a <= digits_val 8 (powLimit p) →
  ∃ c, get_compact a = Ok c ∧ valid_bits p c.
Proof.
  intros Ha Hle. destruct (get_compact_spec a Ha) as (c & a' & Hg & Hc & Hs & Hw & Hv).
  exists c. split; [done|]. split; [done|]. exists a'. split_and!; try done. lia.
Qed.

Section Retargeting.
Context (st : heap) (Hst : heap_ok st) (params : Params) (Hp : params_ok params).
Context (pindexLast : ptr) (last : CBlockIndex) (Hlast : st !! pindexLast = Some last).
Context (Hbits : ∀ k q bq, up st k pindexLast = Some q → st !! q = Some bq → valid_bits params (bi_nBits bq)).
Context (pblock : CBlockHeader).

Let limit_spec : wf (UintToArith256 (powLimit params)) ∧
  val (UintToArith256 (powLimit params)) = digits_val 8 (powLimit params).
Proof. apply UintToArith256_spec, Hp. Qed.

Lemma special_rule_valid interval c :
  ∃ r, last_special (Z.to_nat (bi_nHeight last)) st interval c pindexLast = Ok r ∧ valid_bits params r.
Proof.
  apply (last_special_spec st _ _ _ _ last (valid_bits params) Hst Hlast); [|done].
  pose proof (entry_height st Hst pindexLast last Hlast). lia.
Qed.

Lemma DarkGravityWave_valid :
  ∃ c, DarkGravityWave st pindexLast pblock params = Ok c ∧ valid_bits params c.
Proof.
  destruct limit_spec as [Hlw Hlv]. destruct Hp as (_ & Hph & Hple & Hsp & Hspan & _).
  unfold DarkGravityWave.
  destruct (get_compact_valid params _ Hlw ltac:(lia)) as (cl & Hcl & Hvl).
  rewrite Hcl. cbn [rbind]. unfold deref. rewrite Hlast. cbn [rbind].
  destruct (Z.ltb_spec (bi_nHeight last) nPastBlocks); [eauto|].
  destruct (_ && _).
  { destruct (_ >? _); [eauto|]. apply special_rule_valid. }
  destruct (dgw_loop_spec st (Z.to_nat nPastBlocks) 1 pindexLast last zero 0 Hst Hlast)
    as (q & bq & avg & found & -> & Hbq & Hw & _); [done|lia|unfold nPastBlocks in *; lia|apply wf_zero|].
  cbn [rbind]. destruct (_ && _).
  - destruct (UintToArith256_spec _ Hph) as [Hphw Hphv]. apply get_compact_valid; [done|lia].
  - rewrite Hbq. cbn [rbind].
    destruct (dgw_retarget_spec avg (UintToArith256 (powLimit params)) (bi_nTime last - bi_nTime bq)
      (nPastBlocks * nPowTargetSpacing params) Hw Hlw) as (bn & -> & Hbw & Hbl & _);
      [unfold nPastBlocks in *; lia..|]. cbn [rbind]. apply get_compact_valid; [done|lia].
Qed.

Lemma CalculateNextWorkRequired_valid t :
  ∃ c, CalculateNextWorkRequired last t params = Ok c ∧ valid_bits params c.
Proof.
  destruct limit_spec as [Hlw Hlv]. destruct Hp as (_ & _ & _ & Hsp & _ & Hts & Hts4).
  unfold CalculateNextWorkRequired. destruct (fPowNoRetargeting params).
  { eexists. split; [done|]. by apply (Hbits 0%nat pindexLast). }
  destruct (Hst _ _ Hlast) as [[_ Hb32] _]. pose proof (set_compact_wf _ Hb32) as Hw.
  destruct (mul_u32_spec (set_compact (bi_nBits last))
    (u32 (let ts := if bi_nTime last - t <? nPowTargetTimespan params ÷ 4 then nPowTargetTimespan params ÷ 4
            else bi_nTime last - t in if ts >? nPowTargetTimespan params * 4
            then nPowTargetTimespan params * 4 else ts)) Hw) as [Hm _]; [by apply uwrap_range|].
  unfold u64. rewrite (uwrap_id 64) by (unfold ufits; lia).
  destruct (divide_u64_spec _ (nPowTargetTimespan params) Hm ltac:(lia)) as (q & Hq & Hqw & _).
  cbv zeta in Hq |- *. rewrite Hq. cbn [rbind]. apply get_compact_valid; [by destruct (gtb _ _)|].
  rewrite gtb_spec, Z.gtb_ltb by done.
  destruct (Z.ltb_spec (val (UintToArith256 (powLimit params))) (val q)); lia.
Qed.

Lemma GetNextWorkRequiredBTC_valid : bi_nHeight last < 2 ^ 31 - 1 →
  ∃ c, GetNextWorkRequiredBTC st pindexLast pblock params = Ok c ∧ valid_bits params c.
Proof.
  intros Hmax. destruct limit_spec as [Hlw Hlv]. pose proof (entry_height st Hst pindexLast last Hlast).
  pose proof Hp as (_ & _ & _ & Hsp & _ & Hts & Hts4).
  unfold GetNextWorkRequiredBTC.
  destruct (get_compact_valid params _ Hlw ltac:(lia)) as (cl & Hcl & Hvl).
  rewrite Hcl. cbn [rbind]. unfold deref. rewrite Hlast. cbn [rbind].
  destruct (negb _) eqn:Hrem.
  { destruct (fPowAllowMinDifficultyBlocks params); [destruct (_ >? _); [eauto|apply special_rule_valid]|].
    eexists. split; [done|]. by apply (Hbits 0%nat pindexLast). }
  apply negb_false_iff, Z.eqb_eq in Hrem. unfold DifficultyAdjustmentInterval in *.
  rewrite Z.quot_div_nonneg in * by lia. set (I := nPowTargetTimespan params / nPowTargetSpacing params) in *.
  assert (1 <= I) by (apply Z.div_le_lower_bound; lia).
  rewrite Z.rem_mod_nonneg in Hrem by lia.
  assert (I <= bi_nHeight last + 1).
  { apply Z.divide_pos_le; [lia|]. by apply Z.mod_divide; [lia|]. }
  unfold i32. rewrite swrap_id by (unfold sfits; lia). rewrite Z.geb_leb, (proj2 (Z.leb_le 0 _)) by lia.
  cbn [negb]. rewrite (GetAncestor_spec st Hst pindexLast last) by done. cbn [rbind].
  destruct (ancestor_at_spec st Hst pindexLast last (bi_nHeight last - (I - 1)) Hlast ltac:(lia))
    as (q & bq & -> & Hbq & _). rewrite Hbq. cbn [rbind]. apply CalculateNextWorkRequired_valid.
Qed.

Lemma GetNextWorkRequired_valid : bi_nHeight last < 2 ^ 31 - 1 →
  ∃ c, GetNextWorkRequired st pindexLast pblock params = Ok c ∧ valid_bits params c.
Proof.
  intros Hmax. unfold GetNextWorkRequired, deref. rewrite Hlast. cbn [rbind].
  destruct (IsDGWActive params _); [apply DarkGravityWave_valid|by apply GetNextWorkRequiredBTC_valid].
Qed.

(** The step Dark Gravity Wave takes from the last 240 targets. *)
Lemma DarkGravityWave_step lo hi : nPastBlocks <= bi_nHeight last →
  fPowAllowMinDifficultyBlocks params && fPowNoRetargeting params = false →
  (nTime pblock < nPHIHASHActivationTime ∨ past_era st pindexLast (Z.to_nat nPastBlocks)) →
  0 <= lo → past_targets st pindexLast (Z.to_nat nPastBlocks) lo hi →
  hi * (nPastBlocks + 1) < M → hi * (nPastBlocks * nPowTargetSpacing params * 3) < M →
  let T := nPastBlocks * nPowTargetSpacing params in
  let limit := digits_val 8 (powLimit params) in
  ∃ bn c, DarkGravityWave st pindexLast pblock params = Ok c ∧ get_compact bn = Ok c ∧ wf bn ∧
    Z.min (lo * (T / 3) / T) limit <= val bn <= Z.min (3 * hi) limit.
Proof.
  intros Hh Hspec Hera Hlo Hpast Hno1 Hno2. cbv zeta.
  destruct limit_spec as [Hlw Hlv]. pose proof Hp as (_ & _ & _ & Hsp & Hspan & _).
  unfold DarkGravityWave. destruct (get_compact_spec _ Hlw) as (cl & a' & Hcl & _).
  rewrite Hcl. cbn [rbind]. unfold deref. rewrite Hlast. cbn [rbind].
  rewrite (proj2 (Z.ltb_ge _ _) Hh), Hspec.
  destruct (dgw_loop_spec st (Z.to_nat nPastBlocks) 1 pindexLast last zero 0 Hst Hlast)
    as (q & bq & avg & found & -> & Hbq & Hw & Hfound & Havg); [done|lia|unfold nPastBlocks in *; lia|apply wf_zero|].
  cbn [rbind].
  assert ((nTime pblock >=? nPHIHASHActivationTime) && negb (found =? nPastBlocks) = false) as ->.
  { destruct Hera as [Hera|Hera].
    - rewrite Z.geb_leb, (proj2 (Z.leb_gt _ _)) by done. done.
    - rewrite (Hfound Hera). apply andb_false_r. }
  rewrite Hbq. cbn [rbind]. specialize (Havg lo hi Hlo Hpast Hno1 ltac:(done) ltac:(unfold nPastBlocks; lia)).
  set (T := nPastBlocks * nPowTargetSpacing params) in *.
  assert (3 <= T) by (unfold T, nPastBlocks; lia).
  destruct (dgw_retarget_spec avg (UintToArith256 (powLimit params)) (bi_nTime last - bi_nTime bq) T Hw Hlw)
    as (bn & -> & Hbw & _ & Hbound); [lia..|]. cbn [rbind]. specialize (Hbound ltac:(nia)).
  rewrite Hlv in Hbound. destruct (get_compact_spec bn Hbw) as (c & ? & Hc & _).
  exists bn, c. split; [done|]. split; [done|]. split; [done|].
  assert (lo * (T / 3) / T <= val avg * (T / 3) / T).
  { apply Z.div_le_mono; [lia|]. assert (0 <= T / 3) by (apply Z.div_pos; lia). nia. }
  lia.
Qed.
End Retargeting.

(** Main network parameters (chainparams.cpp); a [uint256] lists its least
    significant byte first. *)
Definition main_params : Params :=
  mkParams (replicate 29 255 ++ [15; 0; 0]) (replicate 27 255 ++ replicate 5 0)
    false false 15 3600 1.

Lemma main_params_ok : params_ok main_params.
Proof.
  split_and!; try (vm_compute; congruence);
    (split; [reflexivity|]; unfold bytes_ok; repeat constructor; vm_compute; congruence).
Qed.

Lemma sample_bits_valid : valid_bits main_params 0x1d00ffff.
Proof.
  split; [vm_compute; split; congruence|]. exists (set_compact 0x1d00ffff). split; [reflexivity|].
  split; [apply set_compact_wf; vm_compute; split; congruence|]. vm_compute. congruence.
Qed.

(** ** Properties *)

(** C40: a hash passes the proof-of-work check exactly when the claimed bits
    decode to a positive target, without sign or overflow, that does not exceed
    the network limit, and the hash read as a little-endian number does not
    exceed the target. *)
Theorem CheckProofOfWork_correct hash c params :
  blob_ok hash → blob_ok (powLimit params) → ufits 32 c →
  CheckProofOfWork hash c params = true ↔
  ∃ a, SetCompact c = (a, false, false) ∧ wf a ∧
       0 < val a <= digits_val 8 (powLimit params) ∧ digits_val 8 hash <= val a.
Proof.
  intros Hh Hl Hc. destruct (UintToArith256_spec hash Hh) as [Hhw Hhv].
  destruct (UintToArith256_spec _ Hl) as [Hlw Hlv]. unfold CheckProofOfWork.
  destruct (SetCompact_total c Hc) as (a & neg & over & -> & Ha & _). pose proof (val_bound a Ha).
  rewrite EqualTo_spec, !gtb_spec, Hhv, Hlv by (done || by apply ufits_0).
  rewrite !Z.gtb_ltb. split.
  - destruct neg, over, (Z.eqb_spec (val a) 0), (Z.ltb_spec (digits_val 8 (powLimit params)) (val a)),
      (Z.ltb_spec (val a) (digits_val 8 hash)); cbn [orb]; intros Ht; try done.
    exists a. split_and!; (done || lia).
  - intros (a' & [= -> -> ->] & _ & Hb & Hle). cbn [orb].
    rewrite (proj2 (Z.eqb_neq _ 0)), (proj2 (Z.ltb_ge _ _)), (proj2 (Z.ltb_ge (val a') _)) by lia. done.
Qed.

Lemma CheckProofOfWork_correct_witness : CheckProofOfWork blob_null 0x1d00ffff main_params = true.
Proof.
  apply (CheckProofOfWork_correct blob_null 0x1d00ffff main_params).
  - split; [reflexivity|]. unfold bytes_ok. repeat constructor; vm_compute; congruence.
  - apply main_params_ok.
  - vm_compute; split; congruence.
  - exists (set_compact 0x1d00ffff). split; [reflexivity|].
    split; [apply set_compact_wf; vm_compute; split; congruence|].
    split; vm_compute; [split|]; congruence.
Defined.

(** On every reachable block tree whose blocks carry valid difficulty bits,
    [GetNextWorkRequired] (either rule, every special case) terminates without
    failing an assertion and returns 32-bit difficulty bits that decode to a
    target within the network limit, so validity of the bits is an invariant. *)
Theorem next_work_valid GetHash t pindexLast last pblock params :
  rtc (tree_step GetHash) empty_tree t → params_ok params →
  tree_heap t !! pindexLast = Some last → bi_nHeight last < 2 ^ 31 - 1 →
  (∀ k q bq, up (tree_heap t) k pindexLast = Some q → tree_heap t !! q = Some bq →
     valid_bits params (bi_nBits bq)) →
  ∃ c, GetNextWorkRequired (tree_heap t) pindexLast pblock params = Ok c ∧ valid_bits params c.
Proof.
  intros Hr Hp Hl Hh Hb. pose proof (ok_heap t (reachable_ok GetHash t Hr)) as Hok.
  by apply (GetNextWorkRequired_valid (tree_heap t) Hok params Hp pindexLast last).
Qed.

Lemma next_work_valid_witness :
  ∃ c, GetNextWorkRequired (tree_heap sample_tree) 3%positive (sample_header 4 3 300) main_params = Ok c ∧
       valid_bits main_params c.
Proof.
  apply (next_work_valid nonce_hash sample_tree 3%positive (entry_at sample_tree 3%positive)
    (sample_header 4 3 300) main_params sample_tree_reachable main_params_ok).
  - vm_compute. reflexivity.
  - vm_compute. reflexivity.
  - intros k q bq Hk Hq.
    assert (∀ q bq, tree_heap sample_tree !! q = Some bq → bi_nBits bq = 0x1d00ffff) as H.
    { intros q0 b0 H0. destruct q0 as [[q0|q0|]|[q0|q0|]|]; vm_compute in H0; try discriminate;
        injection H0 as <-; reflexivity. }
    rewrite (H q bq Hq). apply sample_bits_valid.
Defined.

(** One step of Dark Gravity Wave is bounded: when the last 240 targets lie
    between [lo] and [hi] and the products do not overflow 256 bits, the new
    target, before its compact truncation, lies between a third of [lo] and
    three times [hi], cut at the network limit, whatever the time stamps. *)
Theorem DarkGravityWave_bounded GetHash t pindexLast last pblock params lo hi :
  rtc (tree_step GetHash) empty_tree t → params_ok params →
  tree_heap t !! pindexLast = Some last → nPastBlocks <= bi_nHeight last →
  fPowAllowMinDifficultyBlocks params && fPowNoRetargeting params = false →
  (nTime pblock < nPHIHASHActivationTime ∨ past_era (tree_heap t) pindexLast (Z.to_nat nPastBlocks)) →
  0 <= lo → past_targets (tree_heap t) pindexLast (Z.to_nat nPastBlocks) lo hi →
  hi * (nPastBlocks + 1) < M → hi * (nPastBlocks * nPowTargetSpacing params * 3) < M →
  let T := nPastBlocks * nPowTargetSpacing params in
  let limit := digits_val 8 (powLimit params) in
  ∃ bn c, DarkGravityWave (tree_heap t) pindexLast pblock params = Ok c ∧ get_compact bn = Ok c ∧ wf bn ∧
    Z.min (lo * (T / 3) / T) limit <= val bn <= Z.min (3 * hi) limit.
Proof.
  intros Hr Hp Hl. pose proof (ok_heap t (reachable_ok GetHash t Hr)) as Hok.
  by apply (DarkGravityWave_step (tree_heap t) Hok params Hp pindexLast last Hl).
Qed.

Lemma DarkGravityWave_bounded_witness :
  ∃ t p bn c, DarkGravityWave (tree_heap t) p (linear_header 1 0x1d00ffff 1750518590 241) main_params
              = Ok c ∧ get_compact bn = Ok c ∧ wf bn.
Proof.
  destruct (linear_tree_spec 1 0x1d00ffff 1750518590 241 ltac:(vm_compute; split; congruence))
    as (Hr & _ & Hh & Htip). destruct (Htip ltac:(lia)) as (p & b & _ & Hb & Hht). clear Htip.
  remember (linear_tree 1 0x1d00ffff 1750518590 241) as dgw_tree eqn:Heq. clear Heq.
  assert (∀ q bq, tree_heap dgw_tree !! q = Some bq → bi_nBits bq = 0x1d00ffff) as Hbits.
  { intros q bq Hq. destruct (Hh q bq Hq) as (i & _ & Hi). unfold bi_nBits. by rewrite Hi. }
  destruct (DarkGravityWave_bounded nonce_hash dgw_tree p b (linear_header 1 0x1d00ffff 1750518590 241)
    main_params (0xffff * 2 ^ 208) (0xffff * 2 ^ 208) Hr main_params_ok Hb) as (bn & c & H1 & H2 & H3 & _).
  - rewrite Hht. vm_compute. congruence.
  - reflexivity.
  - right. intros k q bq _ _ Hq. destruct (Hh q bq Hq) as (i & _ & Hi). unfold bi_nTime. rewrite Hi.
    unfold linear_header, nPHIHASHActivationTime; cbn [nTime]. lia.
  - lia.
  - intros k q bq _ _ Hq. rewrite (Hbits q bq Hq). vm_compute. split; congruence.
  - vm_compute. reflexivity.
  - vm_compute. reflexivity.
  - exists dgw_tree, p, bn, c. split; [exact H1|]. split; [exact H2|exact H3].
Defined.

(** Test network parameters: the limit is [2^256 - 1]. *)
Definition test_params : Params :=
  mkParams (replicate 32 255) (replicate 29 255 ++ replicate 3 0) false false 15 900 1.

(** With the test network's limit of [2^256 - 1] the averaging loop
    overflows: over blocks that all carry the bits of the limit itself, which
    [DarkGravityWave] hands out for the first 240 blocks, the average after two
    blocks is already less than half of every target averaged. *)
Theorem testnet_average_overflows :
  let bits := 0x2100ffff in
  let st := tree_heap (linear_tree 1 bits 0 3) in
  get_compact (UintToArith256 (powLimit test_params)) = Ok bits ∧
  ∃ q avg found, dgw_loop 2 st 1 3%positive zero 0 = Ok (q, avg, found) ∧
    val avg * 2 < val (set_compact bits).
Proof.
  cbv zeta. split; [vm_compute; reflexivity|]. do 3 eexists. split; [vm_compute; reflexivity|].
  vm_compute. reflexivity.
Qed.
