(* ===== verification/VersionBits.v ===== *)
(** * Version bits deployments: src/src/versionbits.{h,cpp}

    [AbstractThresholdConditionChecker] is the class [Checker]; the deployment
    checker is its instance.  [GetStateFor] keeps a cache of the states it has
    computed and walks backwards only to the first known one.  The reference
    definition [period_state] recomputes every period from the genesis block,
    and the theorems show that caching and the early exit never change a
    result. *)

From stdpp Require Import gmap sorting.
From S2P Require Import Prelude Serialize ArithUint256 Transaction Chain.

Inductive ThresholdState :=
| THRESHOLD_DEFINED
| THRESHOLD_STARTED
| THRESHOLD_LOCKED_IN
| THRESHOLD_ACTIVE
| THRESHOLD_FAILED.

#[global] Instance ThresholdState_eq_dec : EqDecision ThresholdState.
Proof. solve_decision. Defined.

(** The virtual functions, for fixed consensus parameters. *)
Class Checker := {
  Condition : CBlockIndex → bool;
  BeginTime : Z;
  EndTime : Z;
  Period : Z;
  Threshold : Z
}.

Abbreviation ThresholdConditionCache := (gmap (option ptr) ThresholdState).

Record BIP9Stats := mkStats {
  stats_period : Z; stats_threshold : Z; stats_elapsed : Z; stats_count : Z; stats_possible : bool
}.

Section Checkers.
Context `{Checker}.

(** The last block of the previous period. *)
Definition period_start (st : heap) (p : ptr) : result chain_error (option ptr) :=
  let? b := deref st p in
  GetAncestor st p (bi_nHeight b - Z.rem (bi_nHeight b + 1) Period).

(** Walk backwards in steps of [nPeriod]; the list is the stack [vToCompute],
    its last element first. *)
Fixpoint walk_back (fuel : nat) (st : heap) (cache : ThresholdConditionCache)
    (pindexPrev : option ptr) (vToCompute : list ptr)
    : result chain_error (ThresholdConditionCache * option ptr * list ptr) :=
  match cache !! pindexPrev with
  | Some _ => Ok (cache, pindexPrev, vToCompute)
  | None =>
      match pindexPrev with
      | None => Ok (<[None := THRESHOLD_DEFINED]> cache, None, vToCompute)
      | Some p =>
          let? m := GetMedianTimePast st p in
          if m <? BeginTime then Ok (<[Some p := THRESHOLD_DEFINED]> cache, Some p, vToCompute)
          else match fuel with
               | O => Err OutOfFuel
               | S f =>
                   let? b := deref st p in
                   let? prev := GetAncestor st p (bi_nHeight b - Period) in
                   walk_back f st cache prev (p :: vToCompute)
               end
      end
  end.

(** [for (i = 0; i < nPeriod; i++) { if (Condition(pindexCount)) count++;
    pindexCount = pindexCount->pprev; }] *)
Fixpoint count_signals (n : nat) (st : heap) (pindexCount : option ptr) (count : Z)
    : result chain_error Z :=
  match n with
  | O => Ok count
  | S n' =>
      match pindexCount with
      | None => Err NullDereference
      | Some p => let? b := deref st p in
                  count_signals n' st (pprev b) (if Condition b then count + 1 else count)
      end
  end.

(** The [switch] of the forward walk. *)
Definition next_state (st : heap) (state : ThresholdState) (p : ptr) : result chain_error ThresholdState :=
  match state with
  | THRESHOLD_DEFINED =>
      let? m := GetMedianTimePast st p in
      Ok (if m >=? EndTime then THRESHOLD_FAILED
          else if m >=? BeginTime then THRESHOLD_STARTED else state)
  | THRESHOLD_STARTED =>
      let? m := GetMedianTimePast st p in
      if m >=? EndTime then Ok THRESHOLD_FAILED
      else
        let? count := count_signals (Z.to_nat Period) st (Some p) 0 in
        Ok (if count >=? Threshold then THRESHOLD_LOCKED_IN else state)
  | THRESHOLD_LOCKED_IN => Ok THRESHOLD_ACTIVE
  | THRESHOLD_FAILED | THRESHOLD_ACTIVE => Ok state
  end.

Fixpoint walk_forward (st : heap) (cache : ThresholdConditionCache) (state : ThresholdState)
    (vToCompute : list ptr) : result chain_error (ThresholdState * ThresholdConditionCache) :=
  match vToCompute with
  | [] => Ok (state, cache)
  | p :: rest =>
      let? state := next_state st state p in
      walk_forward st (<[Some p := state]> cache) state rest
  end.

(** Each backward step lowers the height, which bounds their number. *)
Definition GetStateFor (st : heap) (pindexPrev : option ptr) (cache : ThresholdConditionCache)
    : result chain_error (ThresholdState * ThresholdConditionCache) :=
  let? start :=
    match pindexPrev with None => Ok None | Some p => period_start st p end in
  let? fuel :=
    match start with None => Ok 0%nat | Some p => let? b := deref st p in Ok (S (Z.to_nat (bi_nHeight b))) end in
  let? (cache, known, vToCompute) := walk_back fuel st cache start [] in
  match cache !! known with
  | None => Err ChainAssert
  | Some state => walk_forward st cache state vToCompute
  end.

(** The loop of [GetStateStatisticsFor], down to the end of the last period. *)
Fixpoint count_period (fuel : nat) (st : heap) (end_height : Z) (p : ptr) (count : Z)
    : result chain_error Z :=
  let? b := deref st p in
  if end_height =? bi_nHeight b then Ok count
  else match fuel with
       | O => Err OutOfFuel
       | S f =>
           let count := if Condition b then count + 1 else count in
           match pprev b with
           | None => Err NullDereference
           | Some q => count_period f st end_height q count
           end
       end.

Definition GetStateStatisticsFor (st : heap) (pindex : option ptr) : result chain_error BIP9Stats :=
  match pindex with
  | None => Ok (mkStats Period Threshold 0 0 false)
  | Some p =>
      let? pindexEndOfPrevPeriod := period_start st p in
      let? b := deref st p in
      match pindexEndOfPrevPeriod with
      | None => Err NullDereference
      | Some e =>
          let? be := deref st e in
          let elapsed := bi_nHeight b - bi_nHeight be in
          let? count := count_period (Z.to_nat (bi_nHeight b)) st (bi_nHeight be) p 0 in
          Ok (mkStats Period Threshold elapsed count (Period - Threshold >=? elapsed - count))
      end
  end.

Fixpoint since_loop (fuel : nat) (st : heap) (cache : ThresholdConditionCache)
    (initial : ThresholdState) (pindexPrev : ptr) : result chain_error (Z * ThresholdConditionCache) :=
  let? b := deref st pindexPrev in
  let? previousPeriodParent := GetAncestor st pindexPrev (bi_nHeight b - Period) in
  match previousPeriodParent with
  | None => Ok (bi_nHeight b + 1, cache)
  | Some q =>
      let? (s, cache) := GetStateFor st (Some q) cache in
      if decide (s = initial) then
        match fuel with
        | O => Err OutOfFuel
        | S f => since_loop f st cache initial q
        end
      else Ok (bi_nHeight b + 1, cache)
  end.

Definition GetStateSinceHeightFor (st : heap) (pindexPrev : option ptr) (cache : ThresholdConditionCache)
    : result chain_error (Z * ThresholdConditionCache) :=
  let? (initialState, cache) := GetStateFor st pindexPrev cache in
  if decide (initialState = THRESHOLD_DEFINED) then Ok (0, cache)
  else match pindexPrev with
       | None => Err NullDereference
       | Some p =>
           let? start := period_start st p in
           match start with
           | None => Err NullDereference
           | Some q => let? b := deref st q in
                       since_loop (Z.to_nat (bi_nHeight b)) st cache initialState q
           end
       end.
End Checkers.

(** ** The deployment checker *)

Record BIP9Deployment := mkDeployment {
  dep_bit : Z;
  nStartTime : Z;
  nTimeout : Z;
  nOverrideMinerConfirmationWindow : Z;
  nOverrideRuleChangeActivationThreshold : Z
}.

Definition Mask (d : BIP9Deployment) : Z := u32 (Z.shiftl 1 (dep_bit d)).

Definition VersionBitsConditionChecker (d : BIP9Deployment)
    (nMinerConfirmationWindow nRuleChangeActivationThreshold : Z) : Checker := {|
  Condition b := negb (Z.land (u32 (bi_nVersion b)) (Mask d) =? 0);
  BeginTime := nStartTime d;
  EndTime := nTimeout d;
  Period := i32 (if nOverrideMinerConfirmationWindow d >? 0
                 then nOverrideMinerConfirmationWindow d else nMinerConfirmationWindow);
  Threshold := i32 (if nOverrideRuleChangeActivationThreshold d >? 0
                    then nOverrideRuleChangeActivationThreshold d else nRuleChangeActivationThreshold)
|}.

Definition VERSIONBITS_TOP_BITS : Z := 0x20000000.
Definition VERSIONBITS_TOP_BITS_ASSETS : Z := 0x30000000.

(** [VersionBitsCache]: one cache per deployment. *)
Abbreviation VersionBitsCache := (list ThresholdConditionCache).

Definition VersionBitsState (st : heap) (pindexPrev : option ptr) (window threshold : Z)
    (deps : list BIP9Deployment) (pos : nat) (caches : VersionBitsCache)
    : result chain_error (ThresholdState * VersionBitsCache) :=
  match deps !! pos, caches !! pos with
  | Some d, Some cache =>
      let? (s, cache) := @GetStateFor (VersionBitsConditionChecker d window threshold) st pindexPrev cache in
      Ok (s, <[pos := cache]> caches)
  | _, _ => Err NullDereference
  end.

(** [ComputeBlockVersion] (validation.cpp). *)
Fixpoint ComputeBlockVersion_loop (n : nat) (i : nat) (st : heap) (pindexPrev : option ptr)
    (window threshold : Z) (deps : list BIP9Deployment) (caches : VersionBitsCache) (nVersion : Z)
    : result chain_error (Z * VersionBitsCache) :=
  match n with
  | O => Ok (nVersion, caches)
  | S n' =>
      let? (state, caches) := VersionBitsState st pindexPrev window threshold deps i caches in
      let nVersion :=
        match state, deps !! i with
        | (THRESHOLD_LOCKED_IN | THRESHOLD_STARTED), Some d => i32 (Z.lor (u32 nVersion) (Mask d))
        | _, _ => nVersion
        end in
      ComputeBlockVersion_loop n' (S i) st pindexPrev window threshold deps caches nVersion
  end.

Definition ComputeBlockVersion (st : heap) (pindexPrev : option ptr) (fAssetsDeployed : bool)
    (window threshold : Z) (deps : list BIP9Deployment) (caches : VersionBitsCache)
    : result chain_error (Z * VersionBitsCache) :=
  ComputeBlockVersion_loop (length deps) 0 st pindexPrev window threshold deps caches
    (if fAssetsDeployed then VERSIONBITS_TOP_BITS_ASSETS else VERSIONBITS_TOP_BITS).

(** ** Reference definition *)

Section Reference.
Context `{Checker}.

(** The state of the [k]-th period, from the last block [p] of the period
    before it; the genesis block is by definition DEFINED. *)
Fixpoint period_state (st : heap) (k : nat) (p : option ptr) : result chain_error ThresholdState :=
  match k, p with
  | S k', Some q =>
      let? b := deref st q in
      let? prev := GetAncestor st q (bi_nHeight b - Period) in
      let? s := period_state st k' prev in
      next_state st s q
  | _, _ => Ok THRESHOLD_DEFINED
  end.

(** The number of whole periods up to a block that ends one. *)
Definition period_index (st : heap) (p : option ptr) : nat :=
  match p with
  | None => 0
  | Some q => match st !! q with
              | Some b => Z.to_nat ((bi_nHeight b + 1) / Period)
              | None => 0
              end
  end.

Definition state_of (st : heap) (p : option ptr) : result chain_error ThresholdState :=
  period_state st (period_index st p) p.
End Reference.

(** ** Median times never decrease along a chain *)

(** The rule of [ContextualCheckBlockHeader]: a block is later than the median
    time of its parent. *)
Definition times_ok (st : heap) : Prop :=
  ∀ p b q m, st !! p = Some b → pprev b = Some q → GetMedianTimePast st q = Ok m → m < bi_nTime b.

Lemma collect_times_take st n p ts :
  collect_times (S n) st p = Ok ts → collect_times n st p = Ok (take n ts).
Proof.
  revert p ts; induction n as [|n IH]; intros p ts H; [by destruct p|].
  change (match p with
    | Some q => let? b := deref st q in let? r := collect_times (S n) st (pprev b) in Ok (bi_nTime b :: r)
    | None => Ok [] end = Ok ts) in H.
  destruct p as [q|]; [|by injection H as <-]. cbn [collect_times].
  destruct (deref st q) as [b|]; [|done]. cbn [rbind] in *.
  destruct (collect_times (S n) st (pprev b)) as [r|] eqn:Hr; [|done]. injection H as <-.
  by rewrite (IH _ _ Hr).
Qed.

(** The element at index [k] of the sorted list is at least [m] when at least
    [length l - k] elements are. *)
Lemma sorted_nth_ge (l : list Z) k m : StronglySorted Z.le l → (k < length l)%nat →
  (length l - k <= length (filter (fun x => (m <= x)%Z) l))%nat → m <= nth k l 0.
Proof.
  intros Hs Hk Hc. destruct (Z.le_gt_cases m (nth k l 0)) as [|Hlt]; [done|exfalso].
  destruct (sorted_split l k Hs Hk) as [_ Hhi].
  assert (length (filter (fun x => (m <= x)%Z) l) <= length (filter (fun x => (nth k l 0 < x)%Z) l))%nat; [|lia].
  apply submseteq_length. apply sublist_submseteq.
  clear Hs Hk Hc Hhi. generalize (nth k l 0) Hlt. clear. intros y Hlt.
  induction l as [|x l IH]; [done|]. rewrite !filter_cons.
  destruct (decide (m <= x)), (decide (y < x)); try lia; [by constructor|by constructor|done].
Qed.

Lemma filter_ge_length (l : list Z) m :
  (length (filter (fun x => (m <= x)%Z) l) + length (filter (fun x => (x < m)%Z) l) = length l)%nat.
Proof.
  induction l as [|x l IH]; [done|]. rewrite !filter_cons.
  destruct (decide (m <= x)), (decide (x < m)); try lia; cbn [length]; lia.
Qed.

Lemma filter_take_length (P : Z → Prop) `{!∀ x, Decision (P x)} (l : list Z) n :
  (length (filter P l) <= length (filter P (take n l)) + (length l - n))%nat.
Proof.
  rewrite <- (take_drop n l) at 1. rewrite filter_app, length_app.
  pose proof (length_filter P (drop n l)). rewrite length_drop in *. lia.
Qed.

Lemma median_mono st p b q m m' : heap_ok st → times_ok st → st !! p = Some b → pprev b = Some q →
  GetMedianTimePast st q = Ok m → GetMedianTimePast st p = Ok m' → m <= m'.
Proof.
  intros Hok Ht Hb Hq Hm Hm'. pose proof (Ht p b q m Hb Hq Hm) as Hlate.
  destruct (pprev_entry st Hok p b q Hb Hq) as (bq & Hbq & _).
  destruct (GetMedianTimePast_spec st q bq Hok Hbq) as (ts & m0 & Hts & Hlen & Hm0 & _ & Hlow & _).
  assert (m0 = m) as -> by congruence.
  unfold GetMedianTimePast in Hm'. unfold nMedianTimeSpan in *.
  assert (collect_times 11 st (Some p) = Ok (bi_nTime b :: take 10 ts)) as Hp.
  { apply collect_times_take in Hts.
    change ((let? e := deref st p in let? r := collect_times 10 st (pprev e) in Ok (bi_nTime e :: r))
            = Ok (bi_nTime b :: take 10 ts)).
    unfold deref. rewrite Hb. cbn [rbind]. by rewrite Hq, Hts. }
  rewrite Hp in Hm'. cbn [rbind] in Hm'. injection Hm' as <-.
  set (w := bi_nTime b :: take 10 ts) in *. set (l := merge_sort Z.le (reverse w)).
  assert (l ≡ₚ w) as Hperm by (unfold l; rewrite merge_sort_Permutation; apply reverse_Permutation).
  assert (length l = length w) as Hll by (by rewrite Hperm).
  assert (length w = S (Nat.min 10 (length ts))) as Hlw by (unfold w; cbn [length]; by rewrite length_take).
  pose proof (Nat.div_lt (length l) 2 ltac:(lia) ltac:(lia)) as Hk.
  apply sorted_nth_ge; [apply (StronglySorted_merge_sort Z.le)|exact Hk|].
  assert (length (filter (fun x => (m <= x)%Z) w) = S (length (filter (fun x => (m <= x)%Z) (take 10 ts)))) as Hf
    by (unfold w; rewrite filter_cons_True by lia; done).
  rewrite Hperm, Hf. change ((Nat.divmod (length w) 1 0 1).1) with (length w / 2)%nat.
  pose proof (filter_ge_length ts m). pose proof (filter_take_length (fun x => (m <= x)%Z) ts 10).
  pose proof (Nat.div_mod_eq (length ts) 2). pose proof (Nat.mod_upper_bound (length ts) 2 ltac:(lia)).
  pose proof (Nat.div_mod_eq (length w) 2). pose proof (Nat.mod_upper_bound (length w) 2 ltac:(lia)).
  lia.
Qed.

(** ** Transitions *)

Inductive bip9_step : ThresholdState → ThresholdState → Prop :=
| bip9_stay s : s ≠ THRESHOLD_LOCKED_IN → bip9_step s s
| bip9_start : bip9_step THRESHOLD_DEFINED THRESHOLD_STARTED
| bip9_lock : bip9_step THRESHOLD_STARTED THRESHOLD_LOCKED_IN
| bip9_activate : bip9_step THRESHOLD_LOCKED_IN THRESHOLD_ACTIVE
| bip9_fail_defined : bip9_step THRESHOLD_DEFINED THRESHOLD_FAILED
| bip9_fail_started : bip9_step THRESHOLD_STARTED THRESHOLD_FAILED.

(** ** Caching is sound *)

Section Soundness.
Context `{Checker} (st : heap) (Hst : heap_ok st) (Htimes : times_ok st).
Context (Hperiod : 0 < Period) (Hwindow : BeginTime <= EndTime).

(** Entries that end a period. *)
Definition aligned (p : option ptr) : Prop :=
  match p with
  | None => True
  | Some q => ∃ b, st !! q = Some b ∧ (bi_nHeight b + 1) mod Period = 0
  end.

Definition prev_period (q : ptr) : option ptr :=
  match st !! q with Some b => ancestor_at st q (bi_nHeight b - Period) | None => None end.

Lemma median_total p b : st !! p = Some b → ∃ m, GetMedianTimePast st p = Ok m.
Proof. intros Hb. destruct (GetMedianTimePast_spec st p b Hst Hb) as (ts & m & _ & _ & Hm & _). eauto. Qed.

Lemma median_up n p b q m m' : st !! p = Some b → up st n p = Some q →
  GetMedianTimePast st q = Ok m → GetMedianTimePast st p = Ok m' → m <= m'.
Proof.
  revert p b m'; induction n as [|n IH]; intros p b m' Hb Hup Hm Hm'; cbn [up] in Hup.
  - injection Hup as ->. assert (m = m') as -> by congruence. lia.
  - rewrite Hb in Hup. destruct (pprev b) as [r|] eqn:Hr; [|done].
    destruct (pprev_entry st Hst p b r Hb Hr) as (br & Hbr & _).
    destruct (median_total r br Hbr) as [mr Hmr]. specialize (IH r br mr Hbr Hup Hm Hmr).
    pose proof (median_mono st p b r mr m' Hst Htimes Hb Hr Hmr Hm'). lia.
Qed.

Lemma aligned_height q b : st !! q = Some b → aligned (Some q) →
  Period <= bi_nHeight b + 1 ∧ ∃ k, bi_nHeight b + 1 = Z.of_nat (S k) * Period ∧ period_index st (Some q) = S k.
Proof.
  intros Hb (b' & Hb' & Hmod). assert (b' = b) as -> by congruence. assert (Period ≠ 0) as HP by lia.
  pose proof (entry_height st Hst q b Hb). pose proof (Z.div_exact (bi_nHeight b + 1) Period HP) as [_ Hd].
  specialize (Hd Hmod). unfold period_index. rewrite Hb. set (d := (bi_nHeight b + 1) / Period) in *.
  assert (1 <= d) by nia. split; [nia|]. exists (Z.to_nat (d - 1)). split; [nia|lia].
Qed.

(** The block that ends the period before, if there is one. *)
Lemma prev_period_spec q b : st !! q = Some b → aligned (Some q) →
  GetAncestor st q (bi_nHeight b - Period) = Ok (prev_period q) ∧ aligned (prev_period q) ∧
  S (period_index st (prev_period q)) = period_index st (Some q) ∧
  (∀ r, prev_period q = Some r → ∃ br n, st !! r = Some br ∧ bi_nHeight br = bi_nHeight b - Period ∧ up st n q = Some r).
Proof.
  intros Hb Ha. destruct (aligned_height q b Hb Ha) as (Hge & k & Hk & Hidx).
  rewrite (GetAncestor_spec st Hst q b) by done. unfold prev_period. rewrite Hb. split; [done|].
  destruct (Z.lt_ge_cases (bi_nHeight b - Period) 0) as [Hneg|Hpos].
  - rewrite (ancestor_at_out st q b) by (done || lia). split; [done|]. split; [|done].
    rewrite Hidx. cbn [period_index]. assert (k = 0%nat) as -> by nia. done.
  - assert (0 <= bi_nHeight b - Period <= bi_nHeight b) as Hrange by lia.
    destruct (ancestor_at_spec st Hst q b (bi_nHeight b - Period) Hb Hrange) as (r & br & -> & Hbr & Hhr & Hup).
    split; [|split].
    + exists br. split; [done|]. rewrite Hhr.
      replace (bi_nHeight b - Period + 1) with (Z.of_nat k * Period) by lia. by apply Z.mod_mul; lia.
    + rewrite Hidx. cbn [period_index]. rewrite Hbr, Hhr.
      replace (bi_nHeight b - Period + 1) with (Z.of_nat k * Period) by lia.
      rewrite Z.div_mul by lia. lia.
    + intros r' [= <-]. eauto.
Qed.

Lemma state_of_step q b : st !! q = Some b → aligned (Some q) →
  state_of st (Some q) = let? s := state_of st (prev_period q) in next_state st s q.
Proof.
  intros Hb Ha. destruct (prev_period_spec q b Hb Ha) as (Hg & _ & Hidx & _).
  unfold state_of. rewrite <- Hidx. cbn [period_state]. unfold deref. rewrite Hb. cbn [rbind].
  by rewrite Hg.
Qed.

Lemma count_signals_total n p b c : st !! p = Some b → Z.of_nat n <= bi_nHeight b + 1 →
  ∃ r, count_signals n st (Some p) c = Ok r ∧ c <= r <= c + Z.of_nat n.
Proof.
  revert p b c; induction n as [|n IH]; intros p b c Hb Hn; cbn [count_signals].
  { exists c. split; [done|lia]. }
  unfold deref. rewrite Hb. cbn [rbind]. set (c' := if Condition b then c + 1 else c).
  assert (c <= c' <= c + 1) by (unfold c'; destruct (Condition b); lia).
  destruct n as [|n]; [exists c'; split; [done|lia]|].
  destruct (pprev_above st Hst p b Hb ltac:(lia)) as [q Hq]. rewrite Hq.
  destruct (pprev_entry st Hst p b q Hb Hq) as (bq & Hbq & Hhq).
  destruct (IH q bq c' Hbq ltac:(lia)) as (r & Hr & Hrc). exists r. split; [done|lia].
Qed.

Lemma next_state_total s q b : st !! q = Some b → aligned (Some q) → ∃ s', next_state st s q = Ok s'.
Proof.
  intros Hb Ha. destruct (aligned_height q b Hb Ha) as (Hge & _).
  destruct (median_total q b Hb) as [m Hm].
  assert (Z.of_nat (Z.to_nat Period) <= bi_nHeight b + 1) as Hcnt by lia.
  destruct (count_signals_total (Z.to_nat Period) q b 0 Hb Hcnt) as (c & Hc & _).
  unfold next_state. destruct s; try rewrite Hm; cbn [rbind]; try by eauto.
  destruct (m >=? EndTime); [by eauto|]. rewrite Hc. cbn [rbind]. eauto.
Qed.

Lemma state_of_total p : aligned p → ∃ s, state_of st p = Ok s.
Proof.
  remember (period_index st p) as k eqn:Hk. revert p Hk; induction k as [|k IH]; intros p Hk Ha.
  - unfold state_of. rewrite <- Hk. cbn. by destruct p; eauto.
  - destruct p as [q|]; [|done]. pose proof Ha as (b & Hb & _).
    destruct (prev_period_spec q b Hb Ha) as (_ & Hpa & Hidx & _).
    destruct (IH (prev_period q) ltac:(lia) Hpa) as [s Hs].
    rewrite (state_of_step q b Hb Ha), Hs. cbn [rbind]. by apply (next_state_total s q b).
Qed.

(** Before the start time every earlier period is DEFINED too. *)
Lemma early_defined q m : aligned (Some q) → GetMedianTimePast st q = Ok m → m < BeginTime →
  state_of st (Some q) = Ok THRESHOLD_DEFINED.
Proof.
  remember (period_index st (Some q)) as k eqn:Hk. revert q m Hk; induction k as [|k IH]; intros q m Hk Ha Hm Hlt.
  - unfold state_of. by rewrite <- Hk.
  - pose proof Ha as (b & Hb & _). destruct (prev_period_spec q b Hb Ha) as (_ & Hpa & Hidx & Hprev).
    rewrite (state_of_step q b Hb Ha).
    assert (state_of st (prev_period q) = Ok THRESHOLD_DEFINED) as ->.
    { destruct (prev_period q) as [r|] eqn:Hr; [|done].
      destruct (Hprev r eq_refl) as (br & n & Hbr & _ & Hup). destruct (median_total r br Hbr) as [mr Hmr].
      apply (IH r mr); try done; [lia|]. pose proof (median_up n q b r mr m Hb Hup Hmr Hm). lia. }
    cbn [rbind next_state]. rewrite Hm. cbn [rbind].
    rewrite !Z.geb_leb, !(proj2 (Z.leb_gt _ m)) by lia. done.
Qed.

Definition cache_ok (cache : ThresholdConditionCache) : Prop :=
  ∀ p s, cache !! p = Some s → state_of st p = Ok s.

Lemma cache_ok_insert cache p s : cache_ok cache → state_of st p = Ok s → cache_ok (<[p := s]> cache).
Proof. intros Hc Hs q s'. rewrite lookup_insert_Some. intros [[<- <-]|[_ Hq]]; auto. Qed.

(** The stack: each entry ends the period after the one below it. *)
Fixpoint linked (p : option ptr) (v : list ptr) : Prop :=
  match v with
  | [] => True
  | q :: v' => aligned (Some q) ∧ prev_period q = p ∧ linked (Some q) v'
  end.
Fixpoint bottom (p : option ptr) (v : list ptr) : option ptr :=
  match v with [] => p | q :: v' => bottom (Some q) v' end.

Lemma walk_back_spec fuel cache p v : cache_ok cache → aligned p → linked p v →
  (period_index st p <= fuel)%nat →
  ∃ cache' known s v', walk_back fuel st cache p v = Ok (cache', known, v') ∧ cache_ok cache' ∧
    cache' !! known = Some s ∧ linked known v' ∧ bottom known v' = bottom p v.
Proof.
  revert cache p v; induction fuel as [|f IH]; intros cache p v Hc Ha Hl Hf; cbn [walk_back];
    (destruct (cache !! p) as [s|] eqn:Hp; [by exists cache, p, s, v|]);
    (destruct p as [q|]; [|exists (<[None:=THRESHOLD_DEFINED]> cache), None, THRESHOLD_DEFINED, v;
       split_and!; try done; [by apply cache_ok_insert|apply lookup_insert_eq]]);
    pose proof Ha as (b & Hb & _); destruct (aligned_height q b Hb Ha) as (_ & k & _ & Hidx);
    [lia|].
  destruct (median_total q b Hb) as [m Hm]. rewrite Hm. cbn [rbind].
  destruct (Z.ltb_spec m BeginTime).
  { exists (<[Some q:=THRESHOLD_DEFINED]> cache), (Some q), THRESHOLD_DEFINED, v.
    split_and!; try done; [|apply lookup_insert_eq].
    apply cache_ok_insert; [done|]. by apply (early_defined q m). }
  destruct (prev_period_spec q b Hb Ha) as (Hg & Hpa & Hpi & _).
  unfold deref. rewrite Hb. cbn [rbind]. rewrite Hg. cbn [rbind].
  destruct (IH cache (prev_period q) (q :: v)) as (cache' & known & s & v' & Hw & ?); [done|done|done|lia|].
  exists cache', known, s, v'. done.
Qed.

Lemma walk_forward_spec cache p s v : cache_ok cache → state_of st p = Ok s → linked p v →
  ∃ s' cache', walk_forward st cache s v = Ok (s', cache') ∧ cache_ok cache' ∧
    state_of st (bottom p v) = Ok s'.
Proof.
  revert cache p s; induction v as [|q v IH]; intros cache p s Hc Hs Hl; cbn [walk_forward]; [by exists s, cache|].
  destruct Hl as (Ha & Hprev & Hl). pose proof Ha as (b & Hb & _).
  destruct (next_state_total s q b Hb Ha) as [s' Hs']. rewrite Hs'. cbn [rbind bottom].
  assert (state_of st (Some q) = Ok s') as Hq by (rewrite (state_of_step q b Hb Ha), Hprev, Hs; done).
  apply IH; [by apply cache_ok_insert|done|done].
Qed.

(** The state for a block with the parent [pindexPrev]. *)
Definition block_state (pindexPrev : option ptr) : result chain_error ThresholdState :=
  match pindexPrev with
  | None => Ok THRESHOLD_DEFINED
  | Some p => match st !! p with
              | Some b => state_of st (ancestor_at st p (bi_nHeight b - (bi_nHeight b + 1) mod Period))
              | None => Err NullDereference
              end
  end.

Lemma period_start_spec p b : st !! p = Some b →
  let start := ancestor_at st p (bi_nHeight b - (bi_nHeight b + 1) mod Period) in
  period_start st p = Ok start ∧ aligned start ∧
  (∀ q, start = Some q → ∃ bq, st !! q = Some bq ∧ bi_nHeight bq = bi_nHeight b - (bi_nHeight b + 1) mod Period).
Proof.
  intros Hb start. pose proof (entry_height st Hst p b Hb).
  pose proof (Z.mod_pos_bound (bi_nHeight b + 1) Period Hperiod) as Hm.
  unfold period_start, deref. rewrite Hb. cbn [rbind]. rewrite Z.rem_mod_nonneg by lia.
  rewrite (GetAncestor_spec st Hst p b) by done. fold start. split; [done|].
  destruct (Z.lt_ge_cases (bi_nHeight b - (bi_nHeight b + 1) mod Period) 0).
  - assert (start = None) as -> by (apply (ancestor_at_out st p b); [done|lia]). done.
  - assert (0 <= bi_nHeight b - (bi_nHeight b + 1) mod Period <= bi_nHeight b) as Hrange by lia.
    destruct (ancestor_at_spec st Hst p b (bi_nHeight b - (bi_nHeight b + 1) mod Period) Hb Hrange)
      as (q & bq & Hq & Hbq & Hh & _). fold start in Hq. rewrite Hq. split.
    + exists bq. split; [done|]. rewrite Hh.
      replace (bi_nHeight b - (bi_nHeight b + 1) mod Period + 1)
        with (bi_nHeight b + 1 - (bi_nHeight b + 1) mod Period) by lia.
      rewrite Zminus_mod_idemp_r, Z.sub_diag. by apply Z.mod_0_l; lia.
    + intros ? [= <-]. eauto.
Qed.

Lemma period_index_le q b : st !! q = Some b → (period_index st (Some q) <= S (Z.to_nat (bi_nHeight b)))%nat.
Proof.
  intros Hb. pose proof (entry_height st Hst q b Hb). unfold period_index. rewrite Hb.
  assert ((bi_nHeight b + 1) / Period <= bi_nHeight b + 1); [|lia].
  apply Z.div_le_upper_bound; nia.
Qed.

Lemma GetStateFor_spec p cache : cache_ok cache → (∀ q, p = Some q → is_Some (st !! q)) →
  ∃ s cache', GetStateFor st p cache = Ok (s, cache') ∧ cache_ok cache' ∧ block_state p = Ok s.
Proof.
  intros Hc Hp. unfold GetStateFor.
  assert (∃ start, match p with None => Ok None | Some p => period_start st p end = Ok start ∧ aligned start ∧
    block_state p = state_of st start ∧ (∀ q, start = Some q → is_Some (st !! q))) as (start & -> & Ha & Hbs & Hin).
  { destruct p as [p|]; [|by exists None]. destruct (Hp p eq_refl) as [b Hb].
    destruct (period_start_spec p b Hb) as (Hs & Ha & Hq). eexists. split; [exact Hs|]. split; [done|].
    cbn [block_state]. rewrite Hb. split; [done|]. intros q Hq'. destruct (Hq q Hq') as (bq & -> & _). eauto. }
  cbn [rbind]. set (fuel := match start with None => 0%nat | Some q =>
    match st !! q with Some b => S (Z.to_nat (bi_nHeight b)) | None => 0%nat end end).
  assert (match start with None => Ok 0%nat | Some q => let? b := deref st q in Ok (S (Z.to_nat (bi_nHeight b))) end
    = Ok fuel) as ->.
  { unfold fuel. destruct start as [q|]; [|done]. destruct (Hin q eq_refl) as [b Hb]. unfold deref. by rewrite Hb. }
  cbn [rbind].
  destruct (walk_back_spec fuel cache start [] Hc Ha I) as (cache' & known & s & v' & Hw & Hc' & Hk & Hl & Hbot).
  { unfold fuel. destruct start as [q|]; [|done]. destruct (Hin q eq_refl) as [b Hb]. rewrite Hb.
    by apply period_index_le. }
  rewrite Hw. cbn [rbind]. rewrite Hk.
  destruct (walk_forward_spec cache' known s v' Hc' (Hc' _ _ Hk) Hl) as (s' & c'' & Hf & Hc'' & Hs').
  exists s', c''. split; [done|]. split; [done|]. rewrite Hbs. cbn [bottom] in Hbot. by rewrite Hbot in Hs'.
Qed.

(** *** The state machine *)

Lemma next_state_step s q s' : next_state st s q = Ok s' → bip9_step s s'.
Proof.
  unfold next_state. destruct (GetMedianTimePast st q) as [m|], (count_signals (Z.to_nat Period) st (Some q) 0)
    as [c|]; destruct s; cbn [rbind]; intros Hn; try done; case_all_in Hn; simplify_eq; by constructor.
Qed.

Lemma active_forever q b : st !! q = Some b → aligned (Some q) →
  state_of st (prev_period q) = Ok THRESHOLD_ACTIVE → state_of st (Some q) = Ok THRESHOLD_ACTIVE.
Proof. intros Hb Ha Hs. by rewrite (state_of_step q b Hb Ha), Hs. Qed.
End Soundness.

Lemma count_period_spec `{Checker} (st : heap) (Hst : heap_ok st) fuel e p b c :
  st !! p = Some b → 0 <= e <= bi_nHeight b → bi_nHeight b - e <= Z.of_nat fuel →
  ∃ r, count_period fuel st e p c = Ok r ∧ c <= r <= c + (bi_nHeight b - e).
Proof.
  revert p b c; induction fuel as [|f IH]; intros p b c Hb He Hf; cbn [count_period]; unfold deref;
    rewrite Hb; cbn [rbind]; destruct (Z.eqb_spec e (bi_nHeight b)); try (exists c; split; [done|lia]); [lia|].
  destruct (pprev_above st Hst p b Hb ltac:(lia)) as [q Hq]. rewrite Hq.
  destruct (pprev_entry st Hst p b q Hb Hq) as (bq & Hbq & Hhq).
  set (c' := if Condition b then c + 1 else c).
  assert (c <= c' <= c + 1) by (unfold c'; destruct (Condition b); lia).
  destruct (IH q bq c' Hbq ltac:(lia) ltac:(lia)) as (r & Hr & Hrc). exists r. split; [done|lia].
Qed.

(** ** Properties *)

(** C31: caching deployment states is sound.  On every reachable tree whose block
    times obey the median-time rule, [GetStateFor] never fails, and for any
    cache of correct states it returns the state that recomputing every period
    from the genesis block gives, and leaves only correct states in the cache.
    The early exit before the start time relies on median times never
    decreasing, which is proved from the median-time rule. *)
Theorem GetStateFor_sound `{Checker} GetHash t cache p :
  rtc (tree_step GetHash) empty_tree t → times_ok (tree_heap t) → 0 < Period → BeginTime <= EndTime →
  cache_ok (tree_heap t) cache → (∀ q, p = Some q → is_Some (tree_heap t !! q)) →
  ∃ s cache', GetStateFor (tree_heap t) p cache = Ok (s, cache') ∧
    cache_ok (tree_heap t) cache' ∧ block_state (tree_heap t) p = Ok s.
Proof.
  intros Hr Ht Hp Hw Hc Hin. pose proof (ok_heap t (reachable_ok GetHash t Hr)) as Hok.
  by apply GetStateFor_spec.
Qed.

(** A deployment with one-block periods, on bit 0. *)
Definition sample_deployment : BIP9Deployment := mkDeployment 0 100 1000 1 1.

Lemma sample_times_ok : times_ok (tree_heap sample_tree).
Proof.
  intros p b q m Hb Hq Hm. destruct p as [[p|p|]|[p|p|]|]; vm_compute in Hb; try discriminate;
    injection Hb as <-; cbn [pprev] in Hq; try discriminate; injection Hq as <-;
    vm_compute in Hm; injection Hm as <-; vm_compute; reflexivity.
Qed.

Lemma GetStateFor_sound_witness :
  ∃ s cache', @GetStateFor (VersionBitsConditionChecker sample_deployment 240 160)
                (tree_heap sample_tree) (Some 3%positive) ∅ = Ok (s, cache').
Proof.
  destruct (@GetStateFor_sound (VersionBitsConditionChecker sample_deployment 240 160)
    nonce_hash sample_tree ∅ (Some 3%positive) sample_tree_reachable sample_times_ok)
    as (s & cache' & H & _).
  - vm_compute. reflexivity.
  - vm_compute. congruence.
  - intros p s Hp. rewrite lookup_empty in Hp. discriminate.
  - intros q [= <-]. vm_compute. eauto.
  - exists s, cache'. exact H.
Defined.

(** Deployments follow the BIP9 state machine.  From one period to the next
    the state stays or takes one of the five transitions; LOCKED_IN always
    becomes ACTIVE, ACTIVE and FAILED are final, and lock-in happens only before
    the timeout with at least the threshold of signalling blocks in the
    period. *)
Theorem bip9_state_machine `{Checker} GetHash t q b s s' :
  rtc (tree_step GetHash) empty_tree t → 0 < Period → tree_heap t !! q = Some b →
  aligned (tree_heap t) (Some q) →
  state_of (tree_heap t) (prev_period (tree_heap t) q) = Ok s → state_of (tree_heap t) (Some q) = Ok s' →
  bip9_step s s' ∧ (s = THRESHOLD_ACTIVE → s' = THRESHOLD_ACTIVE) ∧
  (s = THRESHOLD_STARTED → s' = THRESHOLD_LOCKED_IN →
   ∃ m c, GetMedianTimePast (tree_heap t) q = Ok m ∧ m < EndTime ∧
     count_signals (Z.to_nat Period) (tree_heap t) (Some q) 0 = Ok c ∧ Threshold <= c <= Period).
Proof.
  intros Hr Hp Hb Ha Hs Hs'. pose proof (ok_heap t (reachable_ok GetHash t Hr)) as Hok.
  rewrite (state_of_step _ Hok Hp q b Hb Ha), Hs in Hs'. cbn [rbind] in Hs'.
  split; [by eapply next_state_step|]. split; [by intros ->; injection Hs'|]. intros -> ->.
  destruct (aligned_height _ Hok Hp q b Hb Ha) as (Hge & _).
  assert (Z.of_nat (Z.to_nat Period) <= bi_nHeight b + 1) as Hn by lia.
  destruct (count_signals_total _ Hok (Z.to_nat Period) q b 0 Hb Hn) as (c & Hc & Hb').
  destruct (median_total _ Hok q b Hb) as [m Hm]. cbn [next_state] in Hs'. rewrite Hm, Hc in Hs'.
  cbn [rbind] in Hs'. rewrite !Z.geb_leb in Hs'. destruct (Z.leb_spec EndTime m); [done|].
  destruct (Z.leb_spec Threshold c); [|done]. exists m, c. split_and!; (done || lia).
Qed.

Lemma bip9_state_machine_witness : bip9_step THRESHOLD_STARTED THRESHOLD_LOCKED_IN.
Proof.
  apply (@bip9_state_machine (VersionBitsConditionChecker sample_deployment 240 160)
    nonce_hash sample_tree 2%positive (entry_at sample_tree 2%positive) THRESHOLD_STARTED THRESHOLD_LOCKED_IN
    sample_tree_reachable).
  - vm_compute. reflexivity.
  - vm_compute. reflexivity.
  - exists (entry_at sample_tree 2%positive). split; vm_compute; reflexivity.
  - vm_compute. reflexivity.
  - vm_compute. reflexivity.
Defined.

(** [GetStateStatisticsFor] dereferences a null pointer for every block
    before the end of the first period, whose previous period has no last
    block; for all later blocks it succeeds with counts within the period. *)
Theorem GetStateStatisticsFor_first_period `{Checker} GetHash t p b :
  rtc (tree_step GetHash) empty_tree t → 0 < Period → tree_heap t !! p = Some b →
  if bi_nHeight b + 1 <? Period
  then GetStateStatisticsFor (tree_heap t) (Some p) = Err NullDereference
  else ∃ stats, GetStateStatisticsFor (tree_heap t) (Some p) = Ok stats ∧
         0 <= stats_count stats <= stats_elapsed stats ∧ stats_elapsed stats < Period.
Proof.
  intros Hr Hp Hb. pose proof (ok_heap t (reachable_ok GetHash t Hr)) as Hok.
  pose proof (entry_height _ Hok p b Hb). cbn [GetStateStatisticsFor].
  destruct (period_start_spec (tree_heap t) Hok Hp p b Hb) as (-> & _ & Hq). cbn [rbind].
  assert (deref (tree_heap t) p = Ok b) as Hd by (unfold deref; by rewrite Hb).
  rewrite Hd. cbn [rbind]. destruct (Z.ltb_spec (bi_nHeight b + 1) Period).
  - rewrite Z.mod_small by lia. by rewrite (ancestor_at_out _ p b) by (done || lia).
  - pose proof (Z.mod_pos_bound (bi_nHeight b + 1) Period Hp) as Hm.
    assert (0 <= bi_nHeight b - (bi_nHeight b + 1) mod Period <= bi_nHeight b) as Hrange by lia.
    destruct (ancestor_at_spec _ Hok p b _ Hb Hrange) as (e & be & He & Hbe & Hhe & _).
    assert (deref (tree_heap t) e = Ok be) as Hde by (unfold deref; by rewrite Hbe).
    rewrite He, Hde. cbn [rbind].
    destruct (count_period_spec _ Hok (Z.to_nat (bi_nHeight b)) (bi_nHeight be) p b 0 Hb) as (c & -> & Hc); [lia..|].
    cbn [rbind]. eexists. split; [done|]. cbn [stats_count stats_elapsed]. lia.
Qed.

Lemma GetStateStatisticsFor_first_period_witness :
  @GetStateStatisticsFor (VersionBitsConditionChecker (mkDeployment 0 100 1000 24 18) 240 160)
    (tree_heap sample_tree) (Some 3%positive) = Err NullDereference.
Proof.
  apply (@GetStateStatisticsFor_first_period (VersionBitsConditionChecker (mkDeployment 0 100 1000 24 18) 240 160)
    nonce_hash sample_tree 3%positive (entry_at sample_tree 3%positive) sample_tree_reachable).
  - vm_compute. reflexivity.
  - vm_compute. reflexivity.
Defined.
