(* ===== verification/Merkle.v ===== *)
(** * Merkle trees: src/src/consensus/merkle.cpp

    [MerkleComputation] computes a root, a branch and the mutation flag in one
    pass with constant space: [inner] holds one subtree per set bit of [count].
    The reference definition builds the tree level by level.  The hash of two
    concatenated 32-byte blobs ([CHash256], double SHA-256) is the argument
    [hash2]. *)

From S2P Require Import Prelude Serialize Transaction.

Section Merkle.
Variable hash2 : uint256 → uint256 → uint256.

(** [count & (((uint32_t)1) << level)] is zero *)
Definition bit_clear (count : Z) (level : nat) : bool :=
  Z.land count (u32 (Z.shiftl 1 (Z.of_nat level))) =? 0.

Record merkle_state := mkMerkle {
  m_inner : list uint256;       (* uint256 inner[32] *)
  m_matchlevel : Z;
  m_mutated : bool;
  m_branch : list uint256
}.

(** The branch updates both loops make at a level; [matchh] afterwards. *)
Definition record_branch (want : bool) (inner : list uint256) (matchlevel : Z) (level : nat)
    (h : uint256) (matchh : bool) (branch : list uint256) : bool * list uint256 :=
  if want then
    if matchh then (matchh, branch ++ [nth level inner []])
    else if matchlevel =? Z.of_nat level then (true, branch ++ [h])
    else (matchh, branch)
  else (matchh, branch).

(** The inner [for] loop over the levels, for one leaf; at most 32 levels. *)
Fixpoint add_leaf_loop (fuel : nat) (want : bool) (count : Z) (level : nat) (h : uint256) (matchh : bool)
    (s : merkle_state) : option merkle_state :=
  if bit_clear count level then
    match fuel with
    | O => None
    | S f =>
        let '(matchh', branch) :=
          record_branch want (m_inner s) (m_matchlevel s) level h matchh (m_branch s) in
        let mutated := m_mutated s || blob_eqb (nth level (m_inner s) []) h in
        let h := hash2 (nth level (m_inner s) []) h in
        add_leaf_loop f want count (S level) h matchh'
          (mkMerkle (m_inner s) (m_matchlevel s) mutated branch)
    end
  else
    Some (mkMerkle (<[level := h]> (m_inner s))
            (if matchh then Z.of_nat level else m_matchlevel s) (m_mutated s) (m_branch s)).

(** [while (count < leaves.size())] *)
Fixpoint add_leaves (leaves : list uint256) (want : bool) (branchpos count : Z) (s : merkle_state)
    : option (Z * merkle_state) :=
  match leaves with
  | [] => Some (count, s)
  | h :: rest =>
      let matchh := count =? branchpos in
      let count := u32 (count + 1) in
      match add_leaf_loop 32 want count 0 h matchh s with
      | None => None
      | Some s => add_leaves rest want branchpos count s
      end
  end.

(** [while (!(count & (1 << level))) level++;] *)
Fixpoint first_level (fuel : nat) (count : Z) (level : nat) : option nat :=
  if bit_clear count level then
    match fuel with O => None | S f => first_level f count (S level) end
  else Some level.

(** The propagation loop of the sweep. *)
Fixpoint sweep_up (fuel : nat) (want : bool) (s : merkle_state) (count : Z) (level : nat) (h : uint256)
    (matchh : bool) (branch : list uint256) : option (nat * uint256 * bool * list uint256) :=
  if bit_clear count level then
    match fuel with
    | O => None
    | S f =>
        let '(matchh', branch) := record_branch want (m_inner s) (m_matchlevel s) level h matchh branch in
        sweep_up f want s count (S level) (hash2 (nth level (m_inner s) []) h) matchh' branch
    end
  else Some (level, h, matchh, branch).

(** [while (count != (1 << level))] *)
Fixpoint sweep (fuel : nat) (want : bool) (s : merkle_state) (count : Z) (level : nat) (h : uint256)
    (matchh : bool) (branch : list uint256) : option (uint256 * list uint256) :=
  if count =? u32 (Z.shiftl 1 (Z.of_nat level)) then Some (h, branch)
  else match fuel with
       | O => None
       | S f =>
           let branch := if want && matchh then branch ++ [h] else branch in
           let h := hash2 h h in
           let count := u32 (count + u32 (Z.shiftl 1 (Z.of_nat level))) in
           match sweep_up 32 want s count (S level) h matchh branch with
           | None => None
           | Some (level, h, matchh, branch) => sweep f want s count level h matchh branch
           end
       end.

(** The root, the mutation flag and the branch. *)
Definition MerkleComputation (leaves : list uint256) (branchpos : Z) (want : bool)
    : option (uint256 * bool * list uint256) :=
  match leaves with
  | [] => Some (blob_null, false, [])
  | _ =>
      let s0 := mkMerkle (replicate 32 []) (-1) false [] in
      match add_leaves leaves want branchpos 0 s0 with
      | None => None
      | Some (count, s) =>
          match first_level 32 count 0 with
          | None => None
          | Some level =>
              let h := nth level (m_inner s) [] in
              let matchh := m_matchlevel s =? Z.of_nat level in
              match sweep 32 want s count level h matchh (m_branch s) with
              | None => None
              | Some (root, branch) => Some (root, m_mutated s, branch)
              end
          end
      end
  end.

Definition ComputeMerkleRoot (leaves : list uint256) : option (uint256 * bool) :=
  option_map (fun '(root, mutated, _) => (root, mutated)) (MerkleComputation leaves (u32 (-1)) false).

Definition ComputeMerkleBranch (leaves : list uint256) (position : Z) : option (list uint256) :=
  option_map (fun '(_, _, branch) => branch) (MerkleComputation leaves position true).

Fixpoint ComputeMerkleRootFromBranch (hash : uint256) (vMerkleBranch : list uint256) (nIndex : Z) : uint256 :=
  match vMerkleBranch with
  | [] => hash
  | it :: rest =>
      let hash := if negb (Z.land nIndex 1 =? 0) then hash2 it hash else hash2 hash it in
      ComputeMerkleRootFromBranch hash rest (Z.shiftr nIndex 1)
  end.

(** The roots of a block; [GetHash] and [GetWitnessHash] of a transaction are
    arguments. *)
Definition BlockMerkleRoot (GetHash : CTransaction → uint256) (block : CBlock) : option (uint256 * bool) :=
  ComputeMerkleRoot (map GetHash (vtx block)).
Definition BlockWitnessMerkleRoot (GetWitnessHash : CTransaction → uint256) (block : CBlock)
    : option (uint256 * bool) :=
  match vtx block with
  | [] => None   (* leaves[0] of an empty vector *)
  | _ :: rest => ComputeMerkleRoot (blob_null :: map GetWitnessHash rest)
  end.
Definition BlockMerkleBranch (GetHash : CTransaction → uint256) (block : CBlock) (position : Z)
    : option (list uint256) :=
  ComputeMerkleBranch (map GetHash (vtx block)) position.

(** ** The tree, level by level *)

(** An odd last hash is combined with itself. *)
Fixpoint pairup (l : list uint256) : list uint256 :=
  match l with
  | [] => []
  | [x] => [hash2 x x]
  | x :: y :: l' => hash2 x y :: pairup l'
  end.

Fixpoint tree_level (leaves : list uint256) (l : nat) : list uint256 :=
  match l with O => leaves | S l' => pairup (tree_level leaves l') end.

(** The root by building whole levels. *)
Fixpoint root_by_levels (fuel : nat) (l : list uint256) : uint256 :=
  match fuel, l with
  | _, [] => blob_null
  | _, [x] => x
  | S f, _ => root_by_levels f (pairup l)
  | O, x :: _ => x
  end.
Definition merkle_root (leaves : list uint256) : uint256 := root_by_levels (length leaves) leaves.

(** ** Lemmas: levels *)

Lemma pairup_cons2 x y l : pairup (x :: y :: l) = hash2 x y :: pairup l.
Proof. done. Qed.

(** Induction two elements at a time. *)
Lemma list_ind2 {A} (P : list A → Prop) :
  P [] → (∀ x, P [x]) → (∀ x y l, P l → P (x :: y :: l)) → ∀ l, P l.
Proof.
  intros H0 H1 H2 l. assert (P l ∧ ∀ x, P (x :: l)) as [? _]; [|done].
  induction l as [|y l [IH1 IH2]]; split; auto.
Qed.

Lemma pairup_length l : Z.of_nat (length (pairup l)) = (Z.of_nat (length l) + 1) / 2.
Proof.
  induction l as [|x|x y l IH] using list_ind2; [done..|].
  rewrite pairup_cons2. cbn [length]. rewrite !Nat2Z.inj_succ, IH.
  replace (Z.succ (Z.succ (Z.of_nat (length l))) + 1) with (Z.of_nat (length l) + 1 + 1 * 2) by lia.
  rewrite Z.div_add by lia. lia.
Qed.

Lemma pairup_nth l j : (2 * j < length l)%nat →
  nth j (pairup l) [] = hash2 (nth (2 * j) l []) (nth (Nat.min (2 * j + 1) (length l - 1)) l []).
Proof.
  revert j. induction l as [|x|x y l IH] using list_ind2; intros j Hj; cbn [length] in Hj; [lia| |].
  - assert (j = 0%nat) as -> by lia. done.
  - rewrite pairup_cons2. destruct j as [|j]; [done|]. cbn [nth].
    rewrite IH by lia. replace (2 * S j)%nat with (S (S (2 * j))) by lia. cbn [nth].
    f_equal. cbn [length]. replace (Nat.min (S (S (2 * j)) + 1) (S (S (length l)) - 1))%nat
      with (S (S (Nat.min (2 * j + 1) (length l - 1)))) by lia. done.
Qed.

Lemma MerkleComputation_nonempty leaves pos want : leaves ≠ [] →
  MerkleComputation leaves pos want =
  '(count, s) ← add_leaves leaves want pos 0 (mkMerkle (replicate 32 []) (-1) false []);
  level ← first_level 32 count 0;
  '(root, branch) ← sweep 32 want s count level (nth level (m_inner s) [])
    (m_matchlevel s =? Z.of_nat level) (m_branch s);
  Some (root, m_mutated s, branch).
Proof. by destruct leaves. Qed.

Section Levels.
Variable leaves : list uint256.
Let n : Z := Z.of_nat (length leaves).
Hypothesis Hn : 1 <= n <= 2 ^ 31.

(** The hash at position [j] of level [l], and the width of the level. *)
Definition tree_at (l : nat) (j : Z) : uint256 := nth (Z.to_nat j) (tree_level leaves l) [].
Definition width (l : nat) : Z := Z.of_nat (length (tree_level leaves l)).
Let pw (l : nat) : Z := 2 ^ Z.of_nat l.

Lemma pw_pos l : 0 < pw l.
Proof. apply Z.pow_pos_nonneg; lia. Qed.

Lemma pw_S l : pw (S l) = 2 * pw l.
Proof. unfold pw. rewrite Nat2Z.inj_succ, Z.pow_succ_r by lia. done. Qed.

(** Halving: even and odd numerators. *)
Lemma half_cases a : (∃ b, a = 2 * b ∧ Z.odd a = false ∧ Z.even a = true)
                   ∨ (∃ b, a = 2 * b + 1 ∧ Z.odd a = true ∧ Z.even a = false).
Proof.
  destruct (Z.Even_or_Odd a) as [[b ->]|[b ->]]; [left|right]; exists b.
  - by rewrite Z.odd_mul, Z.even_mul.
  - by rewrite Z.add_comm, Z.odd_add_mul_2, Z.even_add_mul_2.
Qed.

Lemma div_pw_S a l : a / pw (S l) = a / pw l / 2.
Proof. rewrite pw_S, (Z.mul_comm 2), <- Z.div_div; [done| |lia]. pose proof (pw_pos l). lia. Qed.

Lemma width_0 : width 0 = n.
Proof. done. Qed.

Lemma width_S l : width (S l) = (width l + 1) / 2.
Proof. apply pairup_length. Qed.

(** [width l] is [n / 2^l] rounded up. *)
Lemma width_ceil l : (width l - 1) * pw l < n <= width l * pw l.
Proof.
  induction l as [|l IH]; [rewrite width_0; change (pw 0) with 1; lia|].
  rewrite width_S, pw_S. pose proof (pw_pos l).
  destruct (half_cases (width l)) as [(b & Hb & _)|(b & Hb & _)]; rewrite Hb in *.
  - replace ((2 * b + 1) / 2) with b by (apply Z.div_unique with 1; lia). nia.
  - replace ((2 * b + 1 + 1) / 2) with (b + 1) by (apply Z.div_unique with 0; lia). nia.
Qed.

Lemma width_pos l : 1 <= width l.
Proof. pose proof (width_ceil l). pose proof (pw_pos l). nia. Qed.

Lemma tree_at_pair l j : 0 <= j → 2 * j + 1 < width l →
  tree_at (S l) j = hash2 (tree_at l (2 * j)) (tree_at l (2 * j + 1)).
Proof.
  intros Hj Hw. unfold width in Hw. unfold tree_at. cbn [tree_level]. rewrite pairup_nth by lia.
  f_equal; f_equal; lia.
Qed.

Lemma tree_at_last l j : 0 <= j → 2 * j + 1 = width l →
  tree_at (S l) j = hash2 (tree_at l (2 * j)) (tree_at l (2 * j)).
Proof.
  intros Hj Hw. unfold width in Hw. unfold tree_at. cbn [tree_level]. rewrite pairup_nth by lia.
  f_equal; f_equal; lia.
Qed.

Lemma bit_clear_spec c l : 0 <= c → (l < 32)%nat → bit_clear c l = Z.even (c / pw l).
Proof.
  intros Hc Hl. unfold bit_clear, u32. rewrite uwrap_id.
  - rewrite land_pow2_testbit by lia. rewrite Z.testbit_odd, Z.shiftr_div_pow2 by lia.
    by rewrite Z.negb_odd.
  - rewrite Z.shiftl_1_l. split; [apply Z.pow_nonneg; lia|]. apply Z.pow_lt_mono_r; lia.
Qed.

Lemma pw_bound l : pw l <= 2 ^ 31 → (l <= 31)%nat.
Proof. unfold pw. intros H. apply Z.pow_le_mono_r_iff in H; lia. Qed.

(** *** Adding a leaf *)

Lemma div_pw_le a l m : (l <= m)%nat → a / pw m = a / pw l / pw (m - l).
Proof.
  intros Hl. rewrite Z.div_div; [|pose proof (pw_pos l); lia|apply pw_pos].
  f_equal. unfold pw. rewrite <- Z.pow_add_r by lia. f_equal. lia.
Qed.

Lemma block_index c q l : c + 1 = (q + 1) * pw l → c / pw l = q ∧ (c + 1) / pw l = q + 1.
Proof.
  intros Hc. pose proof (pw_pos l). split.
  - symmetry. apply Z.div_unique with (pw l - 1); lia.
  - rewrite Hc. apply Z.div_mul. lia.
Qed.

Lemma div_above c b l m : c + 1 = (2 * b + 1) * pw l → (l < m)%nat → (c + 1) / pw m = c / pw m.
Proof.
  intros Hc Hm. rewrite !(div_pw_le _ (S l) m) by lia. f_equal.
  pose proof (pw_pos l). rewrite pw_S.
  transitivity b; [symmetry; apply Z.div_unique with (pw l)|apply Z.div_unique with (pw l - 1)]; lia.
Qed.

Lemma odd_below c q l l' : c + 1 = (q + 1) * pw l → (l' < l)%nat → Z.odd ((c + 1) / pw l') = false.
Proof.
  intros Hc Hl. assert (pw l = pw l' * (2 * pw (l - l' - 1))) as E.
  { unfold pw. rewrite <- Z.pow_succ_r, <- Z.pow_add_r by lia. f_equal. lia. }
  rewrite Hc, E. replace ((q + 1) * (pw l' * (2 * pw (l - l' - 1))))
    with ((q + 1) * pw (l - l' - 1) * 2 * pw l') by ring.
  rewrite Z.div_mul by (pose proof (pw_pos l'); lia). rewrite Z.odd_mul. apply andb_false_r.
Qed.

Variable pos : Z.

(** The sibling, at level [l], of the path from the leaf at [pos]. *)
Definition sibling (l : nat) : uint256 :=
  let i := pos / 2 ^ Z.of_nat l in
  tree_at l (if Z.even i then Z.min (i + 1) (width l - 1) else i - 1).
Definition siblings (m : nat) : list uint256 := map sibling (seq 0 m).

Lemma siblings_S m : siblings (S m) = siblings m ++ [sibling m].
Proof. unfold siblings. by rewrite seq_S, map_app. Qed.

(** Two equal hashes are combined among the first [c] leaves. *)
Definition equal_pair (c : Z) : Prop :=
  ∃ l j, 0 <= j ∧ (2 * j + 2) * 2 ^ Z.of_nat l <= c ∧ tree_at l (2 * j) = tree_at l (2 * j + 1).

Definition inner_ok (c : Z) (inner : list uint256) : Prop :=
  length inner = 32%nat ∧
  ∀ l, (l < 32)%nat → Z.odd (c / pw l) = true → nth l inner [] = tree_at l (c / pw l - 1).

Definition branch_ok (c : Z) (ml : Z) (br : list uint256) : Prop :=
  (c <= pos ∧ ml = -1 ∧ br = []) ∨
  (pos < c ∧ ∃ m, (m < 32)%nat ∧ ml = Z.of_nat m ∧ Z.odd (c / pw m) = true ∧
                  pos / pw m = c / pw m - 1 ∧ br = siblings m).

(** While the leaf [c] is carried upwards, at level [l]. *)
Definition carry_branch (c : Z) (l : nat) (matchh : bool) (ml : Z) (br : list uint256) : Prop :=
  (matchh = true ∧ pos <= c ∧ pos / pw l = c / pw l ∧ br = siblings l) ∨
  (matchh = false ∧ c < pos ∧ ml = -1 ∧ br = []) ∨
  (matchh = false ∧ pos < c ∧ ∃ m, (l <= m < 32)%nat ∧ ml = Z.of_nat m ∧ Z.odd (c / pw m) = true ∧
                  pos / pw m = c / pw m - 1 ∧ br = siblings m).

(** One carry: the left neighbour stored at level [l] joins the hash. *)
Lemma carry_branch_step c b l matchh ml br inner h matchh' br' :
  c + 1 = (2 * b + 2) * pw l → 0 <= b → 2 * b + 1 < width l →
  nth l inner [] = tree_at l (2 * b) → h = tree_at l (2 * b + 1) →
  carry_branch c l matchh ml br →
  record_branch true inner ml l h matchh br = (matchh', br') →
  carry_branch c (S l) matchh' ml br'.
Proof.
  intros Hc Hb Hw Hin Hh Hbr. destruct (block_index c (2 * b + 1) l ltac:(lia)) as [Hq _].
  assert (∀ a, a / pw l = 2 * b + 1 ∨ a / pw l = 2 * b → a / pw (S l) = b) as Hhalf.
  { intros a Ha. rewrite div_pw_S. symmetry.
    destruct Ha as [->| ->]; [apply Z.div_unique with 1|apply Z.div_unique with 0]; lia. }
  unfold record_branch. destruct Hbr as [(-> & Hp & Hidx & ->)|[(-> & Hp & -> & ->)|(-> & Hp & m & Hm & -> & Ho & Hidx & ->)]].
  - intros [= <- <-]. left. split_and!; [done|done|rewrite !Hhalf by (left; lia); done|].
    rewrite siblings_S. f_equal. f_equal. unfold sibling. fold (pw l). rewrite Hidx, Hq, Hin.
    replace (Z.even (2 * b + 1)) with false by (by rewrite Z.add_comm, Z.even_add_mul_2).
    f_equal. lia.
  - rewrite (proj2 (Z.eqb_neq (-1) _)) by lia. intros [= <- <-]. right. left. done.
  - destruct (Z.eqb_spec (Z.of_nat m) (Z.of_nat l)) as [Heq|Hne]; intros [= <- <-].
    + assert (m = l) as -> by lia. left. split_and!; [done|lia|rewrite !Hhalf by (first [left; lia|right; lia]); done|].
      rewrite siblings_S. f_equal. f_equal. unfold sibling. fold (pw l). rewrite Hidx, Hq, Hh.
      replace (2 * b + 1 - 1) with (2 * b) by lia. rewrite Z.even_mul. cbn [Z.even orb]. f_equal. lia.
    + right. right. split_and!; [done|done|]. exists m. split_and!; (done || lia).
Qed.

(** The hash is stored; the invariant holds for [c + 1]. *)
Lemma inner_ok_store c b l inner h : c + 1 = (2 * b + 1) * pw l → 0 <= c → (l < 32)%nat →
  inner_ok c inner → h = tree_at l (2 * b) → inner_ok (c + 1) (<[l := h]> inner).
Proof.
  intros Hc H0 Hl [Hlen Hin] Hh. split; [by rewrite length_insert|]. intros l' Hl' Ho.
  destruct (lt_eq_lt_dec l' l) as [[Hlt| ->]|Hgt].
  - rewrite (odd_below c (2 * b) l l') in Ho; (done || lia).
  - rewrite nth_insert_eq by lia. destruct (block_index c (2 * b) l ltac:(lia)) as [_ ->].
    rewrite Hh. f_equal. lia.
  - rewrite nth_insert_ne by lia. rewrite (div_above c b l l') in * by done. by apply Hin.
Qed.

Lemma branch_ok_store c b l matchh ml br : c + 1 = (2 * b + 1) * pw l → (l < 32)%nat →
  carry_branch c l matchh ml br →
  branch_ok (c + 1) (if matchh then Z.of_nat l else ml) br.
Proof.
  intros Hc Hl Hbr. destruct (block_index c (2 * b) l ltac:(lia)) as [Hq Hq'].
  destruct Hbr as [(-> & Hp & Hidx & ->)|[(-> & Hp & -> & ->)|(-> & Hp & m & Hm & -> & Ho & Hidx & ->)]].
  - right. split; [lia|]. exists l. rewrite Hq'. split_and!; [done|done| |lia|done].
    by rewrite Z.add_comm, Z.odd_add_mul_2.
  - left. split_and!; [lia|done|done].
  - right. split; [lia|]. exists m. assert (l ≠ m).
    { intros ->. rewrite Hq, Z.odd_mul in Ho. done. }
    rewrite (div_above c b l m) by lia. split_and!; (done || lia).
Qed.

Hypothesis hash2_length : ∀ a b, length (hash2 a b) = 32%nat.
Hypothesis leaves_length : Forall (fun h => length h = 32%nat) leaves.

Lemma tree_at_length l j : 0 <= j < width l → length (tree_at l j) = 32%nat.
Proof.
  unfold width, tree_at. intros Hj. destruct l as [|l].
  - rewrite Forall_forall in leaves_length. apply leaves_length. apply list_elem_of_In, nth_In.
    cbn [tree_level] in Hj |- *. lia.
  - cbn [tree_level] in *. pose proof (pairup_length (tree_level leaves l)) as Hp.
    rewrite pairup_nth; [apply hash2_length|].
    pose proof (Z.div_mod (Z.of_nat (length (tree_level leaves l)) + 1) 2 ltac:(lia)).
    pose proof (Z.mod_pos_bound (Z.of_nat (length (tree_level leaves l)) + 1) 2 ltac:(lia)). lia.
Qed.

Lemma blob_Compare_eq a b : length a = length b → blob_eqb a b = true ↔ a = b.
Proof.
  unfold blob_eqb. revert b; induction a as [|x a IH]; intros [|y b] Hl; cbn [blob_Compare]; try done.
  destruct (Z.eqb_spec x y) as [->|Hne].
  - rewrite IH by (by injection Hl). split; [by intros ->|by intros [=]].
  - split; [by destruct (x <? y)|by intros [=]].
Qed.

Definition carry_mutated (c : Z) (l : nat) (mutated : bool) : Prop :=
  mutated = true ↔ equal_pair c ∨
    ∃ l' j, (l' < l)%nat ∧ 0 <= j ∧ (2 * j + 2) * pw l' = c + 1 ∧ tree_at l' (2 * j) = tree_at l' (2 * j + 1).

Lemma carry_mutated_step c b l mutated x : c + 1 = (2 * b + 2) * pw l → 0 <= b → 2 * b + 1 < width l →
  x = tree_at l (2 * b) → carry_mutated c l mutated →
  carry_mutated c (S l) (mutated || blob_eqb x (tree_at l (2 * b + 1))).
Proof.
  intros Hc Hb Hw -> Hm. unfold carry_mutated in *. rewrite orb_true_iff, Hm.
  rewrite blob_Compare_eq by (rewrite !tree_at_length by lia; done). split.
  - intros [[H|(l' & j & Hl & Hj)]|H]; [by left|right; exists l', j; split; [lia|done]|].
    right. exists l, b. split_and!; (done || lia).
  - intros [H|(l' & j & Hl & Hj & Hcj & Heq)]; [by left; left|].
    destruct (decide (l' = l)) as [->|]; [|left; right; exists l', j; split_and!; (done || lia)].
    right. pose proof (pw_pos l). assert (j = b) as -> by nia. done.
Qed.

Lemma carry_mutated_store c b l mutated : c + 1 = (2 * b + 1) * pw l →
  carry_mutated c l mutated → mutated = true ↔ equal_pair (c + 1).
Proof.
  intros Hc Hm. unfold carry_mutated in Hm. rewrite Hm. split.
  - intros [(l' & j & Hj & Hle & Heq)|(l' & j & Hl & Hj & Hcj & Heq)]; exists l', j; fold (pw l') in *;
      split_and!; (done || lia).
  - intros (l' & j & Hj & Hle & Heq). fold (pw l') in Hle.
    destruct (Z.le_gt_cases ((2 * j + 2) * pw l') c); [left; exists l', j; done|].
    right. exists l', j. assert ((2 * j + 2) * pw l' = c + 1) as E by lia. split_and!; try done.
    destruct (Nat.lt_ge_cases l' l); [done|exfalso].
    assert (pw l' = pw (l' - l) * pw l) as Ep by (unfold pw; rewrite <- Z.pow_add_r by lia; f_equal; lia).
    rewrite Ep in E. pose proof (pw_pos l). assert ((2 * j + 2) * pw (l' - l) = 2 * b + 1) by nia. lia.
Qed.

(** The state after [c] leaves. *)
Definition state_ok (want : bool) (c : Z) (s : merkle_state) : Prop :=
  inner_ok c (m_inner s) ∧
  (want = true → branch_ok c (m_matchlevel s) (m_branch s)) ∧
  (m_mutated s = true ↔ equal_pair c).

Lemma add_leaf_loop_spec fuel want c l q matchh s :
  0 <= c < n → c + 1 = (q + 1) * pw l → 0 <= q → (32 <= l + fuel)%nat →
  inner_ok c (m_inner s) →
  (want = true → carry_branch c l matchh (m_matchlevel s) (m_branch s)) →
  carry_mutated c l (m_mutated s) →
  ∃ s', add_leaf_loop fuel want (c + 1) l (tree_at l q) matchh s = Some s' ∧ state_ok want (c + 1) s'.
Proof.
  revert l q matchh s; induction fuel as [|f IH]; intros l q matchh s Hc Hq Hq0 Hf Hin Hbr Hmut;
    pose proof (pw_pos l) as Hp; assert ((l <= 31)%nat) as Hl by (apply pw_bound; nia); [lia|].
  cbn [add_leaf_loop]. rewrite bit_clear_spec by lia.
  destruct (block_index c q l Hq) as [Hi Hi']. rewrite Hi'.
  destruct (half_cases (q + 1)) as [(b' & Hb' & _ & ->)|(b' & Hb' & _ & ->)].
  - pose proof (width_ceil l) as Hwc. set (b := b' - 1). assert (q = 2 * b + 1) as -> by lia.
    assert (2 * b + 1 < width l) as Hw by nia.
    destruct Hin as [Hlen Hin]. assert (nth l (m_inner s) [] = tree_at l (2 * b)) as Hleft.
    { rewrite Hin, Hi; [f_equal; lia|lia|]. by rewrite Hi, Z.add_comm, Z.odd_add_mul_2. }
    rewrite Hleft. destruct (record_branch want (m_inner s) (m_matchlevel s) l (tree_at l (2 * b + 1)) matchh (m_branch s))
      as [matchh' br'] eqn:Hrec.
    rewrite <- (tree_at_pair l b) by lia.
    apply IH; cbn [m_inner m_matchlevel m_branch m_mutated]; try done; try lia.
    + rewrite pw_S. lia.
    + intros ->. apply (carry_branch_step c b l matchh _ (m_branch s) (m_inner s) (tree_at l (2 * b + 1)));
        auto; lia.
    + apply carry_mutated_step; auto; lia.
  - eexists. split; [done|]. assert (q = 2 * b') as -> by lia.
    split_and!; cbn [m_inner m_matchlevel m_branch m_mutated].
    + eapply inner_ok_store; eauto; lia.
    + intros Hw. eapply branch_ok_store; [exact Hq|lia|by apply Hbr].
    + eapply carry_mutated_store; eauto.
Qed.

Lemma add_leaves_spec want rest c s : 0 <= c → drop (Z.to_nat c) leaves = rest → c <= n →
  state_ok want c s → (want = true → 0 <= pos) →
  ∃ s', add_leaves rest want pos c s = Some (n, s') ∧ state_ok want n s'.
Proof.
  revert c s; induction rest as [|h rest IH]; intros c s Hc Hd Hcn Hs Hpos; cbn [add_leaves].
  - assert (c = n) as ->; [|by exists s].
    apply (f_equal length) in Hd. rewrite length_drop in Hd. cbn [length] in Hd. unfold n in *. lia.
  - assert (c < n) as Hlt.
    { apply (f_equal length) in Hd. rewrite length_drop in Hd. cbn [length] in Hd. unfold n in *. lia. }
    unfold u32. rewrite uwrap_id by (unfold ufits; lia).
    assert (h = tree_at 0 c) as ->.
    { unfold tree_at. cbn [tree_level]. rewrite nth_lookup.
      rewrite <- (Nat.add_0_r (Z.to_nat c)), <- lookup_drop, Hd. done. }
    destruct Hs as (Hin & Hbr & Hmut).
    destruct (add_leaf_loop_spec 32 want c 0 c (c =? pos) s) as (s' & -> & Hs'); try done; try lia.
    + change (pw 0) with 1. lia.
    + intros Hw. destruct (Hbr Hw) as [(Hle & Hml & Hb)|(Hlt' & m & Hm & Hml & Ho & Hi & Hb)].
      * destruct (Z.eqb_spec c pos) as [->|]; [left|right; left; split_and!; (done || lia)].
        split_and!; done || lia.
      * rewrite (proj2 (Z.eqb_neq c pos)) by lia. right. right. split_and!; try done.
        exists m. split_and!; (done || lia).
    + unfold carry_mutated. rewrite Hmut. split; [by left|]. intros [?|(l' & j & Hl & _)]; [done|lia].
    + apply IH; try done; try lia. rewrite Z2Nat.inj_add by lia. change (Z.to_nat 1) with 1%nat.
      rewrite <- drop_drop, Hd. done.
Qed.

(** *** The final sweep *)

Definition sweep_branch (s : merkle_state) (l : nat) (matchh : bool) (br : list uint256) : Prop :=
  (matchh = true ∧ pos / pw l = width l - 1 ∧ br = siblings l) ∨
  (matchh = false ∧ ∃ m, (l <= m < 32)%nat ∧ m_matchlevel s = Z.of_nat m ∧ Z.odd (n / pw m) = true ∧
     pos / pw m = n / pw m - 1 ∧ br = siblings m).

(** No level below [l] is already the root. *)
Definition below_top (l : nat) : Prop := l = 0%nat ∨ 1 < width (l - 1).

Lemma sweep_up_spec fuel want s l matchh br :
  inner_ok n (m_inner s) → (want = true → sweep_branch s l matchh br) →
  n < width l * pw l → below_top l → (32 <= l + fuel)%nat → (l <= 31)%nat →
  ∃ l' matchh' br', sweep_up fuel want s (width l * pw l) l (tree_at l (width l - 1)) matchh br
      = Some (l', tree_at l' (width l' - 1), matchh', br') ∧
    (l <= l' <= 31)%nat ∧ width l' * pw l' = width l * pw l ∧ Z.odd (width l') = true ∧
    (want = true → sweep_branch s l' matchh' br') ∧ below_top l'.
Proof.
  intros [Hlen Hin]. revert l matchh br; induction fuel as [|f IH]; intros l matchh br Hbr Hlt Htop Hf Hl; [lia|].
  pose proof (pw_pos l) as Hp. pose proof (width_ceil l) as Hwc. pose proof (width_pos l).
  cbn [sweep_up]. rewrite bit_clear_spec by nia. rewrite Z.div_mul by lia.
  assert (n / pw l = width l - 1) as Hdiv by (symmetry; apply Z.div_unique with (n - (width l - 1) * pw l); nia).
  destruct (half_cases (width l)) as [(b & Hb & Ho & ->)|(b & Hb & Ho & ->)].
  - assert (nth l (m_inner s) [] = tree_at l (2 * (b - 1))) as Hleft.
    { rewrite Hin, Hdiv; [f_equal; lia|lia|]. rewrite Hdiv, Hb.
      replace (2 * b - 1) with (1 + 2 * (b - 1)) by lia. by rewrite Z.odd_add_mul_2. }
    assert (width (S l) = b) as Hws by (rewrite width_S, Hb; symmetry; apply Z.div_unique with 1; lia).
    assert ((l < 31)%nat) as Hl'.
    { destruct (Nat.lt_ge_cases l 31); [done|exfalso]. assert (l = 31%nat) as -> by lia.
      change (pw 31) with (2 ^ 31) in *. nia. }
    destruct (record_branch want (m_inner s) (m_matchlevel s) l (tree_at l (width l - 1)) matchh br)
      as [matchh1 br1] eqn:Hrec.
    rewrite Hleft. replace (tree_at l (width l - 1)) with (tree_at l (2 * (b - 1) + 1)) in * by (f_equal; lia).
    rewrite <- tree_at_pair by lia.
    replace (width l * pw l) with (width (S l) * pw (S l)) in * by (rewrite Hws, pw_S; lia).
    replace (b - 1) with (width (S l) - 1) by lia.
    destruct (IH (S l) matchh1 br1) as (l' & m' & br' & Hres & Hll & Hww & Hodd & Hbr'); try done; try lia;
      [|right; cbn; rewrite Nat.sub_0_r; lia|exists l', m', br'; split_and!; (done || lia || apply Hbr')].
    intros ->. unfold record_branch in Hrec.
    assert (∀ a, a / pw l = width l - 1 ∨ a / pw l = width l - 2 → a / pw (S l) = width (S l) - 1) as Hhalf.
    { intros a Ha. rewrite div_pw_S. symmetry.
      destruct Ha as [->| ->]; [apply Z.div_unique with 1|apply Z.div_unique with 0]; lia. }
    destruct (Hbr eq_refl) as [(-> & Hi & ->)|(-> & m & Hm & Hml & Hom & Hi & ->)].
    + injection Hrec as <- <-. left. split_and!; [done|apply Hhalf; by left|].
      rewrite siblings_S. f_equal. f_equal. unfold sibling. fold (pw l). rewrite Hi, Hleft.
      replace (Z.even (width l - 1)) with false by
        (rewrite Hb; replace (2 * b - 1) with (1 + 2 * (b - 1)) by lia; by rewrite Z.even_add_mul_2).
      f_equal. lia.
    + rewrite Hml in Hrec. destruct (Z.eqb_spec (Z.of_nat m) (Z.of_nat l)) as [Heq|Hne]; injection Hrec as <- <-.
      * assert (m = l) as -> by lia. left. split_and!; [done|apply Hhalf; right; lia|].
        rewrite siblings_S. f_equal. f_equal. unfold sibling. fold (pw l). rewrite Hi, Hdiv.
        replace (width l - 1 - 1) with (2 * (b - 1)) by lia. rewrite Z.even_mul. cbn [Z.even orb]. f_equal. lia.
      * right. split; [done|]. exists m. split_and!; (done || lia).
  - exists l, matchh, br. split_and!; (done || lia).
Qed.

Lemma sweep_spec fuel want s l matchh br :
  inner_ok n (m_inner s) → (want = true → sweep_branch s l matchh br) →
  Z.odd (width l) = true → (32 <= l + fuel)%nat → (l <= 31)%nat →
  (n < width l * pw l ∨ matchh = true ∨ want = false ∨ m_matchlevel s ≠ Z.of_nat l) → below_top l →
  ∃ L br', sweep fuel want s (width l * pw l) l (tree_at l (width l - 1)) matchh br
      = Some (tree_at L 0, br') ∧ width L = 1 ∧ (L <= 31)%nat ∧ below_top L ∧
    (want = true → br' = siblings L ∧ pos / pw L = 0).
Proof.
  intros Hin. revert l matchh br; induction fuel as [|f IH]; intros l matchh br Hbr Ho Hf Hl Hnm Htop; [lia|].
  pose proof (pw_pos l) as Hp. pose proof (width_ceil l) as Hwc. pose proof (width_pos l).
  assert (u32 (Z.shiftl 1 (Z.of_nat l)) = pw l) as Hu.
  { unfold u32. rewrite Z.shiftl_1_l, uwrap_id; [done|]. split; [apply Z.pow_nonneg; lia|].
    apply Z.pow_lt_mono_r; lia. }
  cbn [sweep]. rewrite Hu. destruct (Z.eqb_spec (width l * pw l) (pw l)) as [Heq|Hne].
  - assert (width l = 1) as Hw1 by nia. rewrite Hw1. exists l, br. split_and!; try done. intros Hw.
    destruct (Hbr Hw) as [(-> & Hi & ->)|(-> & m & Hm & Hml & Hom & Hi & ->)]; [split; [done|lia]|exfalso].
    assert (n / pw m ≠ 0) by (intros E; by rewrite E in Hom).
    destruct (decide (m = l)) as [->|].
    + destruct Hnm as [Hlt|[Hx|[Hx|Hx]]]; try done; [|congruence].
      rewrite Z.div_small in H0 by lia. done.
    + rewrite Z.div_small in H0; [done|]. split; [lia|]. rewrite Hw1, Z.mul_1_l in Hwc.
      apply Z.le_lt_trans with (pw l); [lia|]. apply Z.pow_lt_mono_r; lia.
  - destruct (half_cases (width l)) as [(b & Hb & Ho' & _)|(b & Hb & Ho' & _)]; [congruence|].
    assert (width (S l) = b + 1) as Hws by (rewrite width_S, Hb; symmetry; apply Z.div_unique with 0; lia).
    assert (1 <= b) by nia.
    assert ((l < 31)%nat) as Hl'.
    { destruct (Nat.lt_ge_cases l 31); [done|exfalso]. assert (l = 31%nat) as -> by lia.
      change (pw 31) with (2 ^ 31) in *. nia. }
    assert (width (S l) * pw (S l) <= 2 ^ 31) as Hmax.
    { assert (2 ^ 31 = pw (31 - S l) * pw (S l)) as E
        by (unfold pw; rewrite <- Z.pow_add_r by lia; f_equal; lia).
      pose proof (width_ceil (S l)). pose proof (pw_pos (S l)). pose proof (pw_pos (31 - S l)). nia. }
    unfold u32. rewrite !(uwrap_id 32 (width l * pw l + pw l)) by (unfold ufits; rewrite Hws, pw_S in Hmax; nia).
    replace (tree_at l (width l - 1)) with (tree_at l (2 * b)) by (f_equal; lia).
    rewrite <- (tree_at_last l b) by lia.
    replace (width l * pw l + pw l) with (width (S l) * pw (S l)) by (rewrite Hws, Hb, pw_S; ring).
    replace (tree_at (S l) b) with (tree_at (S l) (width (S l) - 1)) by (f_equal; lia).
    set (br1 := if want && matchh then br ++ [tree_at l (2 * b)] else br).
    destruct (sweep_up_spec 32 want s (S l) matchh br1 Hin) as (l' & m' & br' & -> & Hll & Hww & Hodd & Hbr' & Htop').
    + intros ->. destruct (Hbr eq_refl) as [(-> & Hi & ->)|(-> & m & Hm & Hml & Hom & Hi & ->)].
      * left. split_and!; [done| |].
        -- rewrite div_pw_S, Hi, Hb, Hws. symmetry. apply Z.div_unique with 0; lia.
        -- unfold br1. cbn [andb]. rewrite siblings_S. f_equal. f_equal. unfold sibling. fold (pw l).
           rewrite Hi, Hb. replace (2 * b + 1 - 1) with (2 * b) by lia. rewrite Z.even_mul. cbn [Z.even orb].
           f_equal. lia.
      * right. split; [done|]. exists m. split_and!; try done; try lia.
        assert (m ≠ l); [|lia]. intros ->. destruct Hnm as [Hlt|[Hx|[Hx|Hx]]]; try done.
        assert (n / pw l = width l - 1) as E by (symmetry; apply Z.div_unique with (n - (width l - 1) * pw l); nia).
        rewrite E, Hb in Hom. replace (2 * b + 1 - 1) with (2 * b) in Hom by lia. by rewrite Z.odd_mul in Hom.
    + rewrite Hws, pw_S. nia.
    + right. cbn. rewrite Nat.sub_0_r. lia.
    + lia.
    + lia.
    + rewrite <- Hww. apply IH; try done; try lia. left. rewrite Hww, Hws, pw_S. nia.
Qed.

Lemma first_level_spec fuel c l : 0 < c <= 2 ^ 31 → (∃ q, c = q * pw l) → (32 <= l + fuel)%nat →
  ∃ l', first_level fuel c l = Some l' ∧ (l <= l' <= 31)%nat ∧ ∃ q, c = q * pw l' ∧ Z.odd q = true.
Proof.
  revert l; induction fuel as [|f IH]; intros l Hc [q Hq] Hf; pose proof (pw_pos l);
    assert (1 <= q) by nia;
    assert ((l <= 31)%nat) as Hl by (apply pw_bound; rewrite Hq in Hc; nia); [lia|].
  cbn [first_level]. rewrite bit_clear_spec, Hq, Z.div_mul by lia.
  destruct (half_cases q) as [(b & -> & Ho & ->)|(b & -> & Ho & ->)].
  - destruct (IH (S l)) as (l' & Hl1 & Hl2 & Hl3); [lia|exists b; rewrite pw_S; lia|lia|].
    rewrite Hq in Hl1, Hl3. exists l'. split_and!; (done || lia).
  - exists l. split_and!; [done|lia|lia|]. by exists (2 * b + 1).
Qed.

Lemma MerkleComputation_spec want : (want = true → 0 <= pos < n) →
  ∃ L mutated br, MerkleComputation leaves pos want = Some (tree_at L 0, mutated, br) ∧
    width L = 1 ∧ below_top L ∧ (mutated = true ↔ equal_pair n) ∧
    (want = true → br = siblings L ∧ pos / 2 ^ Z.of_nat L = 0).
Proof.
  intros Hpos. rewrite MerkleComputation_nonempty by (intros E; unfold n in Hn; rewrite E in Hn; cbn in Hn; lia).
  set (s0 := mkMerkle (replicate 32 []) (-1) false []).
  destruct (add_leaves_spec want leaves 0 s0) as (s & -> & Hin & Hbr & Hmut); try done; try lia.
  { split_and!.
    - split; [done|]. intros l Hl Ho. by rewrite Zdiv_0_l in Ho.
    - intros Hw. left. split_and!; [specialize (Hpos Hw); lia|done|done].
    - split; [done|]. intros (l & j & Hj & Hle & _). fold (pw l) in Hle. pose proof (pw_pos l). nia. }
  { intros Hw. specialize (Hpos Hw). lia. }
  cbn [mbind option_bind]. destruct (first_level_spec 32 n 0) as (l & -> & Hl & q & Hq & Hodd); [lia|exists n; change (pw 0) with 1; lia|lia|]; cbn [mbind option_bind].
  pose proof (pw_pos l) as Hp. assert (1 <= q) by nia.
  assert (n / pw l = q) as Hdiv by (rewrite Hq; apply Z.div_mul; lia).
  assert (width l = q) as Hw by (pose proof (width_ceil l); nia).
  destruct Hin as [Hlen Hin]. rewrite (Hin l), Hdiv by (rewrite ?Hdiv; (done || lia)).
  replace n with (width l * pw l) by lia. replace (tree_at l (q - 1)) with (tree_at l (width l - 1)) by (f_equal; lia).
  destruct (sweep_spec 32 want s l (m_matchlevel s =? Z.of_nat l) (m_branch s)) as (L & br & -> & HL & HL31 & Htop & Hbr').
  - done.
  - intros Hwant. destruct (Hbr Hwant) as [[Hle _]|(Hlt & m & Hm & Hml & Ho & Hi & Hb)];
      [specialize (Hpos Hwant); lia|]. rewrite Hml.
    destruct (Z.eqb_spec (Z.of_nat m) (Z.of_nat l)) as [E|E].
    + assert (m = l) as -> by lia. left. split_and!; [done|lia|done].
    + right. split; [done|]. exists m. split_and!; try done.
      destruct (Nat.lt_ge_cases m l); [|lia]. exfalso.
      rewrite <- (Z.sub_add 1 n), (odd_below (n - 1) (q - 1) l m) in Ho by lia. done.
  - by rewrite Hw.
  - lia.
  - lia.
  - destruct (Z.eqb_spec (m_matchlevel s) (Z.of_nat l)); auto.
  - destruct l as [|l]; [by left|]. right. cbn. rewrite Nat.sub_0_r.
    pose proof (width_S l) as Hws. rewrite Hw in Hws. pose proof (width_ceil l). rewrite pw_S in Hq.
    pose proof (pw_pos l). nia.
  - exists L, (m_mutated s), br. split_and!; try done. replace (width l * pw l) with n by lia. done.
Qed.

(** *** Branches lead to the root *)

Lemma from_branch_spec m l : 0 <= pos < n →
  ComputeMerkleRootFromBranch (tree_at l (pos / pw l)) (map sibling (seq l m)) (pos / pw l)
  = tree_at (l + m) (pos / pw (l + m)).
Proof.
  intros Hpos. revert l; induction m as [|m IH]; intros l; [by rewrite Nat.add_0_r|].
  cbn [seq map ComputeMerkleRootFromBranch]. rewrite Z.shiftr_div_pow2 by lia. change (2 ^ 1) with 2.
  rewrite <- div_pw_S. replace (l + S m)%nat with (S l + m)%nat by lia. rewrite <- (IH (S l)). f_equal.
  pose proof (pw_pos l). pose proof (width_ceil l).
  assert (0 <= pos / pw l < width l) as Hi.
  { split; [apply Z.div_pos; lia|]. apply Z.div_lt_upper_bound; nia. }
  change 1 with (Z.shiftl 1 0) at 1. rewrite land_pow2_testbit, Z.bit0_odd, negb_involutive by lia.
  unfold sibling. fold (pw l). rewrite div_pw_S.
  destruct (half_cases (pos / pw l)) as [(b & Hb & -> & ->)|(b & Hb & -> & ->)]; rewrite Hb in *.
  - replace (2 * b / 2) with b by (apply Z.div_unique with 0; lia).
    destruct (Z.eq_dec (2 * b + 1) (width l)) as [E|E].
    + rewrite (tree_at_last l b) by lia. f_equal. f_equal. lia.
    + rewrite (tree_at_pair l b) by lia. f_equal. f_equal. lia.
  - replace ((2 * b + 1) / 2) with b by (apply Z.div_unique with 1; lia).
    rewrite (tree_at_pair l b) by lia. f_equal. f_equal. lia.
Qed.

(** *** The level-by-level root *)

Lemma width_antitone l m : (l <= m)%nat → width m <= width l.
Proof.
  induction 1 as [|m _ IH]; [done|]. rewrite width_S. pose proof (width_pos m).
  assert ((width m + 1) / 2 <= width m); [apply Z.div_le_upper_bound; lia|lia].
Qed.

Lemma root_level_unique L M : width L = 1 → below_top L → width M = 1 → below_top M → L = M.
Proof.
  intros HL HbL HM HbM. destruct (Nat.lt_trichotomy L M) as [H|[H|H]]; [|done|]; exfalso.
  - destruct HbM as [->|HbM]; [lia|]. pose proof (width_antitone L (M - 1)). lia.
  - destruct HbL as [->|HbL]; [lia|]. pose proof (width_antitone M (L - 1)). lia.
Qed.

Lemma root_level_bound L : below_top L → (L <= length leaves)%nat.
Proof.
  intros [->|H]; [lia|]. destruct L as [|L]; [lia|]. cbn in H. rewrite Nat.sub_0_r in H.
  pose proof (width_ceil L). pose proof (pw_pos L).
  assert (Z.of_nat L < pw L) by (unfold pw; apply Z.pow_gt_lin_r; lia). unfold n in *. nia.
Qed.

Lemma root_by_levels_spec k l fuel : width (l + k) = 1 → below_top (l + k) → (k <= fuel)%nat →
  root_by_levels fuel (tree_level leaves l) = tree_at (l + k) 0.
Proof.
  revert l fuel; induction k as [|k IH]; intros l fuel Hw Hb Hf.
  - rewrite Nat.add_0_r in *. unfold width, tree_at in *.
    destruct (tree_level leaves l) as [|x [|y t]]; cbn [length] in Hw; try lia. by destruct fuel.
  - destruct fuel as [|fuel]; [lia|]. replace (l + S k)%nat with (S l + k)%nat in * by lia.
    rewrite <- (IH (S l) fuel) by (done || lia).
    destruct Hb as [?|Hb]; [lia|]. pose proof (width_antitone l (S l + k - 1) ltac:(lia)).
    assert (2 <= width l) by lia. unfold width in *. cbn [tree_level].
    by destruct (tree_level leaves l) as [|x [|y t]]; cbn [length] in *; [lia|lia|].
Qed.

Lemma merkle_root_level L : width L = 1 → below_top L → merkle_root leaves = tree_at L 0.
Proof. intros Hw Hb. apply (root_by_levels_spec L 0); [done..|]. by apply root_level_bound. Qed.

End Levels.

(** *** Appending whole subtrees *)

Lemma pairup_app_even xs ys k : length xs = (2 * k)%nat → pairup (xs ++ ys) = pairup xs ++ pairup ys.
Proof.
  revert k; induction xs as [|x|x y xs IH] using list_ind2; intros k Hk; [done|cbn in Hk; lia|].
  destruct k as [|k]; [cbn in Hk; lia|]. cbn [app]. rewrite !pairup_cons2. cbn [app]. f_equal.
  apply (IH k). cbn [length] in Hk. lia.
Qed.

Lemma pairup_length_even xs k : length xs = (2 * k)%nat → length (pairup xs) = k.
Proof.
  intros Hk. pose proof (pairup_length xs) as H. rewrite Hk in H.
  rewrite <- (Z.div_unique (Z.of_nat (2 * k) + 1) 2 (Z.of_nat k) 1) in H; lia.
Qed.

Lemma tree_level_app l xs ys k : length xs = (k * 2 ^ l)%nat →
  tree_level (xs ++ ys) l = tree_level xs l ++ tree_level ys l ∧ length (tree_level xs l) = k.
Proof.
  revert k; induction l as [|l IH]; intros k Hk; cbn [tree_level]; [split; [done|cbn in Hk; lia]|].
  destruct (IH (2 * k)%nat) as [-> Hlen]; [rewrite Hk; cbn; lia|].
  split; [by apply pairup_app_even with k|by apply pairup_length_even].
Qed.

Lemma tree_level_plus xs l m : tree_level xs (l + m) = tree_level (tree_level xs l) m.
Proof.
  induction m as [|m IH]; [by rewrite Nat.add_0_r|]. rewrite Nat.add_succ_r. cbn [tree_level]. by rewrite IH.
Qed.

(** Repeating the last subtree of an odd level leaves the next level as it is. *)
Lemma tree_level_duplicate l xs ys j : length xs = (2 * j * 2 ^ l)%nat → length ys = (2 ^ l)%nat →
  tree_level (xs ++ ys ++ ys) (S l) = tree_level (xs ++ ys) (S l) ∧
  ∃ t h, tree_level (xs ++ ys ++ ys) l = t ++ [h; h] ∧ length t = (2 * j)%nat.
Proof.
  intros Hx Hy. cbn [tree_level].
  destruct (tree_level_app l xs (ys ++ ys) (2 * j) Hx) as [-> Hlen].
  destruct (tree_level_app l xs ys (2 * j) Hx) as [-> _].
  destruct (tree_level_app l ys ys 1) as [-> Hl1]; [lia|].
  destruct (tree_level ys l) as [|h [|? ?]]; try done.
  rewrite !(pairup_app_even (tree_level xs l) _ j) by done. split; [done|]. by exists (tree_level xs l), h.
Qed.

Lemma duplicate_pair xs ys l j : length xs = (2 * j * 2 ^ l)%nat → length ys = (2 ^ l)%nat →
  equal_pair (xs ++ ys ++ ys) (Z.of_nat (length (xs ++ ys ++ ys))).
Proof.
  intros Hx Hy. destruct (tree_level_duplicate l xs ys j Hx Hy) as [_ (t & h & Ht & Htl)].
  exists l, (Z.of_nat j). unfold tree_at. rewrite Ht. split_and!; [lia| |].
  - rewrite !length_app, Hx, Hy. rewrite !Nat2Z.inj_add, !Nat2Z.inj_mul, Nat2Z.inj_pow. nia.
  - rewrite !app_nth2 by lia.
    replace (Z.to_nat (2 * Z.of_nat j) - length t)%nat with 0%nat by lia.
    by replace (Z.to_nat (2 * Z.of_nat j + 1) - length t)%nat with 1%nat by lia.
Qed.

Lemma duplicate_root xs ys l j M : (1 <= j)%nat →
  length xs = (2 * j * 2 ^ l)%nat → length ys = (2 ^ l)%nat →
  1 <= Z.of_nat (length (xs ++ ys)) <= 2 ^ 31 → 1 <= Z.of_nat (length (xs ++ ys ++ ys)) <= 2 ^ 31 →
  width (xs ++ ys ++ ys) M = 1 → below_top (xs ++ ys ++ ys) M →
  width (xs ++ ys) M = 1 ∧ below_top (xs ++ ys) M ∧ tree_at (xs ++ ys ++ ys) M 0 = tree_at (xs ++ ys) M 0.
Proof.
  intros Hj Hx Hy Hn Hn' HwM HbM.
  destruct (tree_level_duplicate l xs ys j Hx Hy) as [Heq (t & h & Ht & Htl)].
  assert (∀ m, (S l <= m)%nat → tree_level (xs ++ ys ++ ys) m = tree_level (xs ++ ys) m) as Hup.
  { intros m Hm. replace m with (S l + (m - S l))%nat by lia. by rewrite !tree_level_plus, Heq. }
  assert (2 < width (xs ++ ys ++ ys) l) as Hwl by (unfold width; rewrite Ht, length_app; cbn [length]; lia).
  assert (S l <= M)%nat as HlM.
  { destruct (Nat.lt_ge_cases M (S l)); [|done]. pose proof (width_antitone _ Hn' M l). lia. }
  unfold below_top, width, tree_at in *. rewrite (Hup M HlM) in *. split_and!; try done.
  destruct HbM as [?|HbM]; [lia|right]. destruct (decide (M = S l)) as [->|]; [|by rewrite (Hup (M - 1)%nat) in HbM by lia].
  cbn. rewrite Nat.sub_0_r. destruct (tree_level_app l xs ys (2 * j) Hx) as [-> Hlen].
  destruct (tree_level_app l ys [] 1) as [_ Hl1]; [lia|]. rewrite length_app. lia.
Qed.

(** ** Properties *)

Section Properties.
Hypothesis hash2_length : ∀ a b, length (hash2 a b) = 32%nat.

Lemma ComputeMerkleRoot_spec leaves :
  1 <= Z.of_nat (length leaves) <= 2 ^ 31 → Forall (fun h => length h = 32%nat) leaves →
  ∃ mutated, ComputeMerkleRoot leaves = Some (merkle_root leaves, mutated) ∧
    (mutated = true ↔ equal_pair leaves (Z.of_nat (length leaves))).
Proof.
  intros Hn Hlen. unfold ComputeMerkleRoot.
  destruct (MerkleComputation_spec leaves Hn (u32 (-1)) hash2_length Hlen false)
    as (L & mutated & br & -> & Hw & Hb & Hm & _); [done|].
  exists mutated. rewrite (merkle_root_level leaves Hn L) by done. done.
Qed.

(** C25: for any list of one to 2^31 hashes, [ComputeMerkleRoot] (32 slots of
    working memory, one pass) returns the root obtained by pairing hashes level by
    level, and its mutation flag is set exactly when two equal hashes form a
    complete pair at some level. *)
Theorem ComputeMerkleRoot_correct leaves :
  1 <= Z.of_nat (length leaves) <= 2 ^ 31 → Forall (fun h => length h = 32%nat) leaves →
  ∃ mutated, ComputeMerkleRoot leaves = Some (merkle_root leaves, mutated) ∧
    (mutated = true ↔ equal_pair leaves (Z.of_nat (length leaves))).
Proof. by apply ComputeMerkleRoot_spec. Qed.

(** A branch computed for any position of the list, folded with the leaf at that
    position by [ComputeMerkleRootFromBranch], gives the root that
    [ComputeMerkleRoot] computes. *)
Theorem merkle_branch_verifies leaves pos :
  1 <= Z.of_nat (length leaves) <= 2 ^ 31 → Forall (fun h => length h = 32%nat) leaves →
  0 <= pos < Z.of_nat (length leaves) →
  ∃ branch mutated root, ComputeMerkleBranch leaves pos = Some branch ∧
    ComputeMerkleRoot leaves = Some (root, mutated) ∧
    ComputeMerkleRootFromBranch (nth (Z.to_nat pos) leaves []) branch pos = root.
Proof.
  intros Hn Hlen Hpos. unfold ComputeMerkleBranch, ComputeMerkleRoot.
  destruct (MerkleComputation_spec leaves Hn pos hash2_length Hlen true)
    as (L & mutated & br & -> & Hw & Hb & _ & Hbr); [done|]. destruct Hbr as [-> Htop]; [done|].
  destruct (MerkleComputation_spec leaves Hn (u32 (-1)) hash2_length Hlen false)
    as (M & mutated' & br' & -> & HwM & HbM & _); [done|].
  rewrite (root_level_unique leaves Hn M L) in * by done.
  eexists _, _, _. split_and!; [done..|].
  pose proof (from_branch_spec leaves Hn pos L 0 Hpos) as E. cbn [Nat.add] in E.
  change (2 ^ Z.of_nat 0) with 1 in E. rewrite Z.div_1_r, Htop in E. exact E.
Qed.

(** The duplication attack of CVE-2012-2459 is caught.  When a level has an odd
    number of subtrees, repeating the last subtree gives a longer list with the
    same root; [ComputeMerkleRoot] returns that root with the mutation flag set. *)
Theorem duplicated_subtree_detected xs ys l j : (1 <= j)%nat →
  length xs = (2 * j * 2 ^ l)%nat → length ys = (2 ^ l)%nat →
  Z.of_nat (length (xs ++ ys ++ ys)) <= 2 ^ 31 → Forall (fun h => length h = 32%nat) (xs ++ ys) →
  ∃ root mutated, ComputeMerkleRoot (xs ++ ys) = Some (root, mutated) ∧
    ComputeMerkleRoot (xs ++ ys ++ ys) = Some (root, true).
Proof.
  intros Hj Hx Hy Hmax Hlen.
  assert (Forall (fun h => length h = 32%nat) (xs ++ ys ++ ys)) as Hlen' by (rewrite !Forall_app in *; tauto).
  assert (1 <= 2 ^ l)%nat by (apply Nat.neq_0_lt_0, Nat.pow_nonzero; lia).
  assert (1 <= Z.of_nat (length (xs ++ ys ++ ys)) <= 2 ^ 31) as Hn' by (rewrite !length_app in *; nia).
  assert (1 <= Z.of_nat (length (xs ++ ys)) <= 2 ^ 31) as Hn by (rewrite !length_app in *; nia).
  unfold ComputeMerkleRoot.
  destruct (MerkleComputation_spec _ Hn (u32 (-1)) hash2_length Hlen false)
    as (L & mut & br & -> & Hw & Hb & _); [done|].
  destruct (MerkleComputation_spec _ Hn' (u32 (-1)) hash2_length Hlen' false)
    as (M & mut' & br' & -> & HwM & HbM & Hm & _); [done|].
  destruct (duplicate_root xs ys l j M Hj Hx Hy Hn Hn' HwM HbM) as (HwM' & HbM' & HtM).
  rewrite (root_level_unique _ Hn L M) by done. rewrite HtM.
  destruct mut'; [by exists (tree_at (xs ++ ys) M 0), mut|].
  assert (false = true) by by apply Hm, (duplicate_pair xs ys l j). done.
Qed.

End Properties.
End Merkle.

(** ** Witnesses *)

(** A concrete 32-byte combining function. *)
Definition mix (a b : uint256) : uint256 :=
  map (fun i => uwrap 8 (3 * nth i a 0 + 5 * nth i b 0 + Z.of_nat i + 1)) (seq 0 32).
Definition leaf_of (i : nat) : uint256 := replicate 32 (Z.of_nat i).

Lemma mix_length a b : length (mix a b) = 32%nat.
Proof. done. Qed.

Lemma ComputeMerkleRoot_correct_witness :
  ∃ mutated, ComputeMerkleRoot mix (map leaf_of (seq 0 7)) = Some (merkle_root mix (map leaf_of (seq 0 7)), mutated) ∧
    (mutated = true ↔ equal_pair mix (map leaf_of (seq 0 7)) 7).
Proof.
  apply (ComputeMerkleRoot_correct mix mix_length (map leaf_of (seq 0 7))); [done|].
  repeat constructor.
Defined.

Lemma merkle_branch_verifies_witness :
  ∃ branch mutated root, ComputeMerkleBranch mix (map leaf_of (seq 0 7)) 5 = Some branch ∧
    ComputeMerkleRoot mix (map leaf_of (seq 0 7)) = Some (root, mutated) ∧
    ComputeMerkleRootFromBranch mix (leaf_of 5) branch 5 = root.
Proof.
  apply (merkle_branch_verifies mix mix_length (map leaf_of (seq 0 7)) 5); [done| |done].
  repeat constructor.
Defined.

Lemma duplicated_subtree_detected_witness :
  ∃ root mutated, ComputeMerkleRoot mix (map leaf_of [1; 2; 3; 4; 5; 6]%nat) = Some (root, mutated) ∧
    ComputeMerkleRoot mix (map leaf_of [1; 2; 3; 4; 5; 6; 5; 6]%nat) = Some (root, true).
Proof.
  apply (duplicated_subtree_detected mix mix_length (map leaf_of [1; 2; 3; 4]%nat) (map leaf_of [5; 6]%nat) 1 1);
    [lia|done|done|done|repeat constructor].
Defined.
