(* ===== verification/Script.v ===== *)
(** * Scripts: src/src/script/script.h and script.cpp

    Opcodes, script numbers, the builders that append to a script, the parser
    [GetOp2], and the predicates on whole scripts.  An iterator [pc] into a
    script is the suffix it points at; [end()] is the empty suffix. *)

From S2P Require Import Prelude Serialize Transaction.

(** ** Opcodes *)

Abbreviation OP_0 := (0x00) (only parsing).
Abbreviation OP_FALSE := OP_0 (only parsing).
Abbreviation OP_PUSHDATA1 := (0x4c) (only parsing).
Abbreviation OP_PUSHDATA2 := (0x4d) (only parsing).
Abbreviation OP_PUSHDATA4 := (0x4e) (only parsing).
Abbreviation OP_1NEGATE := (0x4f) (only parsing).
Abbreviation OP_RESERVED := (0x50) (only parsing).
Abbreviation OP_1 := (0x51) (only parsing).
Abbreviation OP_TRUE := OP_1 (only parsing).
Abbreviation OP_2 := (0x52) (only parsing).
Abbreviation OP_3 := (0x53) (only parsing).
Abbreviation OP_4 := (0x54) (only parsing).
Abbreviation OP_5 := (0x55) (only parsing).
Abbreviation OP_6 := (0x56) (only parsing).
Abbreviation OP_7 := (0x57) (only parsing).
Abbreviation OP_8 := (0x58) (only parsing).
Abbreviation OP_9 := (0x59) (only parsing).
Abbreviation OP_10 := (0x5a) (only parsing).
Abbreviation OP_11 := (0x5b) (only parsing).
Abbreviation OP_12 := (0x5c) (only parsing).
Abbreviation OP_13 := (0x5d) (only parsing).
Abbreviation OP_14 := (0x5e) (only parsing).
Abbreviation OP_15 := (0x5f) (only parsing).
Abbreviation OP_16 := (0x60) (only parsing).
Abbreviation OP_NOP := (0x61) (only parsing).
Abbreviation OP_VER := (0x62) (only parsing).
Abbreviation OP_IF := (0x63) (only parsing).
Abbreviation OP_NOTIF := (0x64) (only parsing).
Abbreviation OP_VERIF := (0x65) (only parsing).
Abbreviation OP_VERNOTIF := (0x66) (only parsing).
Abbreviation OP_ELSE := (0x67) (only parsing).
Abbreviation OP_ENDIF := (0x68) (only parsing).
Abbreviation OP_VERIFY := (0x69) (only parsing).
Abbreviation OP_RETURN := (0x6a) (only parsing).
Abbreviation OP_TOALTSTACK := (0x6b) (only parsing).
Abbreviation OP_FROMALTSTACK := (0x6c) (only parsing).
Abbreviation OP_2DROP := (0x6d) (only parsing).
Abbreviation OP_2DUP := (0x6e) (only parsing).
Abbreviation OP_3DUP := (0x6f) (only parsing).
Abbreviation OP_2OVER := (0x70) (only parsing).
Abbreviation OP_2ROT := (0x71) (only parsing).
Abbreviation OP_2SWAP := (0x72) (only parsing).
Abbreviation OP_IFDUP := (0x73) (only parsing).
Abbreviation OP_DEPTH := (0x74) (only parsing).
Abbreviation OP_DROP := (0x75) (only parsing).
Abbreviation OP_DUP := (0x76) (only parsing).
Abbreviation OP_NIP := (0x77) (only parsing).
Abbreviation OP_OVER := (0x78) (only parsing).
Abbreviation OP_PICK := (0x79) (only parsing).
Abbreviation OP_ROLL := (0x7a) (only parsing).
Abbreviation OP_ROT := (0x7b) (only parsing).
Abbreviation OP_SWAP := (0x7c) (only parsing).
Abbreviation OP_TUCK := (0x7d) (only parsing).
Abbreviation OP_CAT := (0x7e) (only parsing).
Abbreviation OP_SUBSTR := (0x7f) (only parsing).
Abbreviation OP_LEFT := (0x80) (only parsing).
Abbreviation OP_RIGHT := (0x81) (only parsing).
Abbreviation OP_SIZE := (0x82) (only parsing).
Abbreviation OP_INVERT := (0x83) (only parsing).
Abbreviation OP_AND := (0x84) (only parsing).
Abbreviation OP_OR := (0x85) (only parsing).
Abbreviation OP_XOR := (0x86) (only parsing).
Abbreviation OP_EQUAL := (0x87) (only parsing).
Abbreviation OP_EQUALVERIFY := (0x88) (only parsing).
Abbreviation OP_RESERVED1 := (0x89) (only parsing).
Abbreviation OP_RESERVED2 := (0x8a) (only parsing).
Abbreviation OP_1ADD := (0x8b) (only parsing).
Abbreviation OP_1SUB := (0x8c) (only parsing).
Abbreviation OP_2MUL := (0x8d) (only parsing).
Abbreviation OP_2DIV := (0x8e) (only parsing).
Abbreviation OP_NEGATE := (0x8f) (only parsing).
Abbreviation OP_ABS := (0x90) (only parsing).
Abbreviation OP_NOT := (0x91) (only parsing).
Abbreviation OP_0NOTEQUAL := (0x92) (only parsing).
Abbreviation OP_ADD := (0x93) (only parsing).
Abbreviation OP_SUB := (0x94) (only parsing).
Abbreviation OP_MUL := (0x95) (only parsing).
Abbreviation OP_DIV := (0x96) (only parsing).
Abbreviation OP_MOD := (0x97) (only parsing).
Abbreviation OP_LSHIFT := (0x98) (only parsing).
Abbreviation OP_RSHIFT := (0x99) (only parsing).
Abbreviation OP_BOOLAND := (0x9a) (only parsing).
Abbreviation OP_BOOLOR := (0x9b) (only parsing).
Abbreviation OP_NUMEQUAL := (0x9c) (only parsing).
Abbreviation OP_NUMEQUALVERIFY := (0x9d) (only parsing).
Abbreviation OP_NUMNOTEQUAL := (0x9e) (only parsing).
Abbreviation OP_LESSTHAN := (0x9f) (only parsing).
Abbreviation OP_GREATERTHAN := (0xa0) (only parsing).
Abbreviation OP_LESSTHANOREQUAL := (0xa1) (only parsing).
Abbreviation OP_GREATERTHANOREQUAL := (0xa2) (only parsing).
Abbreviation OP_MIN := (0xa3) (only parsing).
Abbreviation OP_MAX := (0xa4) (only parsing).
Abbreviation OP_WITHIN := (0xa5) (only parsing).
Abbreviation OP_RIPEMD160 := (0xa6) (only parsing).
Abbreviation OP_SHA1 := (0xa7) (only parsing).
Abbreviation OP_SHA256 := (0xa8) (only parsing).
Abbreviation OP_HASH160 := (0xa9) (only parsing).
Abbreviation OP_HASH256 := (0xaa) (only parsing).
Abbreviation OP_CODESEPARATOR := (0xab) (only parsing).
Abbreviation OP_CHECKSIG := (0xac) (only parsing).
Abbreviation OP_CHECKSIGVERIFY := (0xad) (only parsing).
Abbreviation OP_CHECKMULTISIG := (0xae) (only parsing).
Abbreviation OP_CHECKMULTISIGVERIFY := (0xaf) (only parsing).
Abbreviation OP_NOP1 := (0xb0) (only parsing).
Abbreviation OP_CHECKLOCKTIMEVERIFY := (0xb1) (only parsing).
Abbreviation OP_NOP2 := OP_CHECKLOCKTIMEVERIFY (only parsing).
Abbreviation OP_CHECKSEQUENCEVERIFY := (0xb2) (only parsing).
Abbreviation OP_NOP3 := OP_CHECKSEQUENCEVERIFY (only parsing).
Abbreviation OP_NOP4 := (0xb3) (only parsing).
Abbreviation OP_NOP5 := (0xb4) (only parsing).
Abbreviation OP_NOP6 := (0xb5) (only parsing).
Abbreviation OP_NOP7 := (0xb6) (only parsing).
Abbreviation OP_NOP8 := (0xb7) (only parsing).
Abbreviation OP_NOP9 := (0xb8) (only parsing).
Abbreviation OP_NOP10 := (0xb9) (only parsing).
Abbreviation OP_PHI_ASSET := (0xc0) (only parsing).
Abbreviation OP_SMALLINTEGER := (0xfa) (only parsing).
Abbreviation OP_PUBKEYS := (0xfb) (only parsing).
Abbreviation OP_PUBKEYHASH := (0xfd) (only parsing).
Abbreviation OP_PUBKEY := (0xfe) (only parsing).
Abbreviation OP_INVALIDOPCODE := (0xff) (only parsing).

(** An opcode is the value of its byte. *)
Definition opcodetype : Type := Z.

Definition MAX_SCRIPT_ELEMENT_SIZE : Z := 520.
Definition MAX_OPS_PER_SCRIPT : Z := 201.
Definition MAX_PUBKEYS_PER_MULTISIG : Z := 20.
Definition MAX_SCRIPT_SIZE : Z := 10000.
Definition MAX_STACK_SIZE : Z := 1000.
Definition LOCKTIME_THRESHOLD : Z := 500000000.
Definition MAX_OPCODE : Z := OP_NOP10.

(** [v.size()] *)
Definition size {A} (l : list A) : Z := Z.of_nat (length l).

(** ** Script numbers *)

Definition nDefaultMaxNumSize : Z := 4.

(** [while (absvalue) { result.push_back(absvalue & 0xff); absvalue >>= 8; }];
    a 64-bit value has at most 8 bytes. *)
Fixpoint abs_bytes (fuel : nat) (absvalue : Z) : list Z :=
  match fuel with
  | O => []
  | S f => if absvalue =? 0 then [] else Z.land absvalue 0xff :: abs_bytes f (Z.shiftr absvalue 8)
  end.

(** [CScriptNum::serialize] *)
Definition serialize (value : Z) : list Z :=
  if value =? 0 then []
  else
    let neg := value <? 0 in
    let absvalue := u64 (if neg then - value else value) in
    let result := abs_bytes 8 absvalue in
    let back := List.last result 0 in
    if negb (Z.land back 0x80 =? 0) then result ++ [if neg then 0x80 else 0]
    else if neg then removelast result ++ [Z.lor back 0x80]
    else result.

(** [result |= vch[i] << 8*i] *)
Fixpoint or_bytes (vch : list Z) (i : Z) (result : Z) : Z :=
  match vch with
  | [] => result
  | b :: rest => or_bytes rest (i + 1) (Z.lor result (i64 (Z.shiftl b (8 * i))))
  end.

(** [CScriptNum::set_vch] *)
Definition set_vch (vch : list Z) : Z :=
  match vch with
  | [] => 0
  | _ =>
      let result := or_bytes vch 0 0 in
      if negb (Z.land (List.last vch 0) 0x80 =? 0) then
        i64 (- i64 (Z.land (u64 result) (u64 (Z.lnot (Z.shiftl 0x80 (8 * (size vch - 1)))))))
      else result
  end.

(** The constructor from bytes; [None] when it throws [scriptnum_error]. *)
Definition CScriptNum (vch : list Z) (fRequireMinimal : bool) (nMaxNumSize : Z) : option Z :=
  if size vch >? nMaxNumSize then None
  else if fRequireMinimal && (size vch >? 0) && (Z.land (List.last vch 0) 0x7f =? 0)
            && ((size vch <=? 1) || (Z.land (nth (length vch - 2) vch 0) 0x80 =? 0)) then None
  else Some (set_vch vch).

Definition getint (m_value : Z) : Z :=
  if m_value >? 2 ^ 31 - 1 then 2 ^ 31 - 1
  else if m_value <? - 2 ^ 31 then - 2 ^ 31
  else m_value.

(** ** Building scripts *)

(** [operator<<(const std::vector<unsigned char>&)]; a size beyond 32 bits throws. *)
Definition push_data (b : list Z) : option CScript :=
  if size b <? OP_PUSHDATA1 then Some (size b :: b)
  else if size b <=? 0xff then Some (OP_PUSHDATA1 :: size b :: b)
  else if size b <=? 0xffff then Some (OP_PUSHDATA2 :: WriteLE16 (size b) ++ b)
  else if size b <=? 0xffffffff then Some (OP_PUSHDATA4 :: WriteLE32 (size b) ++ b)
  else None.

(** [push_int64] *)
Definition push_int64 (n : Z) : option CScript :=
  if (n =? -1) || ((n >=? 1) && (n <=? 16)) then Some [u8 (n + (OP_1 - 1))]
  else if n =? 0 then Some [OP_0]
  else push_data (serialize n).

(** ** Parsing scripts *)

(** What [GetOp2] leaves behind: the opcode, the data and the iterator; on
    failure the opcode is [OP_INVALIDOPCODE], the data is empty and the iterator
    may have moved. *)
Inductive getop :=
| GotOp (opcode : Z) (vch : list Z) (pc : CScript)
| NoOp (pc : CScript).

(** The operand length: [None] with the iterator where it stopped. *)
Definition read_push_size (opcode : Z) (pc : CScript) : option Z * CScript :=
  if opcode <? OP_PUSHDATA1 then (Some opcode, pc)
  else if opcode =? OP_PUSHDATA1 then
    match pc with b :: pc' => (Some b, pc') | [] => (None, pc) end
  else if opcode =? OP_PUSHDATA2 then
    if size pc <? 2 then (None, pc) else (Some (ReadLE16 pc), drop 2 pc)
  else
    if size pc <? 4 then (None, pc) else (Some (ReadLE32 pc), drop 4 pc).

Definition GetOp2 (pc : CScript) : getop :=
  match pc with
  | [] => NoOp pc
  | opcode :: pc =>
      if opcode <=? OP_PUSHDATA4 then
        match read_push_size opcode pc with
        | (None, pc) => NoOp pc
        | (Some nSize, pc) =>
            if size pc <? nSize then NoOp pc
            else GotOp opcode (take (Z.to_nat nSize) pc) (drop (Z.to_nat nSize) pc)
        end
      else if opcode =? OP_PHI_ASSET then GotOp opcode pc []
      else GotOp opcode [] pc
  end.

(** [DecodeOP_N] and [EncodeOP_N]; [None] when the assertion fails. *)
Definition DecodeOP_N (opcode : Z) : option Z :=
  if opcode =? OP_0 then Some 0
  else if (opcode >=? OP_1) && (opcode <=? OP_16) then Some (opcode - (OP_1 - 1))
  else None.
Definition EncodeOP_N (n : Z) : option Z :=
  if (n >=? 0) && (n <=? 16) then Some (if n =? 0 then OP_0 else OP_1 + n - 1) else None.

(** [std::equal(b.begin(), b.end(), pc)] with enough bytes left at [pc] *)
Definition starts_with (b pc : CScript) : bool :=
  bool_decide (take (length b) pc = b).

(** The inner [while] of [FindAndDelete]. *)
Fixpoint skip_matches (fuel : nat) (b pc : CScript) (nFound : Z) : CScript * Z :=
  match fuel with
  | O => (pc, nFound)
  | S f => if starts_with b pc then skip_matches f b (drop (length b) pc) (nFound + 1) else (pc, nFound)
  end.

(** The [do ... while] loop: [pc2] and [pc] delimit the bytes to keep. *)
Fixpoint delete_loop (fuel : nat) (b result pc2 pc : CScript) (nFound : Z) : CScript * CScript * Z :=
  match fuel with
  | O => (result, pc2, nFound)
  | S f =>
      let result := result ++ take (length pc2 - length pc) pc2 in
      let '(pc, nFound) := skip_matches (length pc) b pc nFound in
      let pc2 := pc in
      match GetOp2 pc with
      | GotOp _ _ pc => delete_loop f b result pc2 pc nFound
      | NoOp _ => (result, pc2, nFound)
      end
  end.

(** The script afterwards and the number of deletions. *)
Definition FindAndDelete (script b : CScript) : CScript * Z :=
  match b with
  | [] => (script, 0)
  | _ =>
      let '(result, pc2, nFound) := delete_loop (S (length script)) b [] script script 0 in
      if nFound >? 0 then (result ++ pc2, nFound) else (script, nFound)
  end.

(** [Find]: how often an opcode occurs. *)
Fixpoint Find_loop (fuel : nat) (op : Z) (pc : CScript) (nFound : Z) : Z :=
  match fuel with
  | O => nFound
  | S f =>
      match GetOp2 pc with
      | GotOp opcode _ pc => Find_loop f op pc (if opcode =? op then nFound + 1 else nFound)
      | NoOp _ => nFound
      end
  end.
Definition Find (script : CScript) (op : Z) : Z := Find_loop (length script) op script 0.

(** ** Counting signature operations *)

Fixpoint GetSigOpCount_loop (fuel : nat) (fAccurate : bool) (pc : CScript) (lastOpcode n : Z) : Z :=
  match fuel with
  | O => n
  | S f =>
      match GetOp2 pc with
      | NoOp _ => n
      | GotOp opcode _ pc =>
          let n :=
            if (opcode =? OP_CHECKSIG) || (opcode =? OP_CHECKSIGVERIFY) then u32 (n + 1)
            else if (opcode =? OP_CHECKMULTISIG) || (opcode =? OP_CHECKMULTISIGVERIFY) then
              if fAccurate && (lastOpcode >=? OP_1) && (lastOpcode <=? OP_16)
              then u32 (n + (lastOpcode - (OP_1 - 1)))   (* DecodeOP_N(lastOpcode) *)
              else u32 (n + MAX_PUBKEYS_PER_MULTISIG)
            else n in
          GetSigOpCount_loop f fAccurate pc opcode n
      end
  end.
Definition GetSigOpCount (script : CScript) (fAccurate : bool) : Z :=
  GetSigOpCount_loop (length script) fAccurate script OP_INVALIDOPCODE 0.

(** ** Script templates *)

(** [( *this)[i]], inside the script *)
Abbreviation at_ s i := (nth i s 0).

Definition IsPayToPublicKeyHash (s : CScript) : bool :=
  (size s =? 25) && (at_ s 0 =? OP_DUP) && (at_ s 1 =? OP_HASH160) && (at_ s 2 =? 0x14)
  && (at_ s 23 =? OP_EQUALVERIFY) && (at_ s 24 =? OP_CHECKSIG).

Definition IsPayToScriptHash (s : CScript) : bool :=
  (size s =? 23) && (at_ s 0 =? OP_HASH160) && (at_ s 1 =? 0x14) && (at_ s 22 =? OP_EQUAL).

Definition IsPayToWitnessScriptHash (s : CScript) : bool :=
  (size s =? 34) && (at_ s 0 =? OP_0) && (at_ s 1 =? 0x20).

(** The version and the program of a witness program. *)
Definition IsWitnessProgram (s : CScript) : option (Z * list Z) :=
  if (size s <? 4) || (size s >? 42) then None
  else if negb (at_ s 0 =? OP_0) && ((at_ s 0 <? OP_1) || (at_ s 0 >? OP_16)) then None
  else if at_ s 1 + 2 =? size s then
    match DecodeOP_N (at_ s 0) with
    | Some version => Some (version, drop 2 s)
    | None => None
    end
  else None.

Definition IsPayToPublicKey (s : CScript) : bool :=
  if size s =? 35 then ((at_ s 1 =? 0x02) || (at_ s 1 =? 0x03)) && (at_ s 34 =? OP_CHECKSIG)
  else if size s =? 67 then (at_ s 1 =? 0x04) && (at_ s 66 =? OP_CHECKSIG)
  else false.

(** The data of the last push, [Err] when an opcode is bad or not a push; shared
    by the loops of [GetSigOpCount(scriptSig)] and [IsPushOnly]. *)
Fixpoint last_push (fuel : nat) (pc : CScript) (vData : list Z) : option (list Z) :=
  match pc, fuel with
  | [], _ => Some vData
  | _, O => None
  | _, S f =>
      match GetOp2 pc with
      | NoOp _ => None
      | GotOp opcode vData pc => if opcode >? OP_16 then None else last_push f pc vData
      end
  end.

Definition IsPushOnly (s : CScript) : bool :=
  match last_push (length s) s [] with Some _ => true | None => false end.

Definition GetSigOpCountP2SH (scriptPubKey scriptSig : CScript) : Z :=
  if negb (IsPayToScriptHash scriptPubKey) then GetSigOpCount scriptPubKey true
  else
    match last_push (length scriptSig) scriptSig [] with
    | None => 0
    | Some vData => GetSigOpCount vData true
    end.

Fixpoint HasValidOps_loop (fuel : nat) (it : CScript) : bool :=
  match it, fuel with
  | [], _ => true
  | _, O => false
  | _, S f =>
      match GetOp2 it with
      | NoOp _ => false
      | GotOp opcode item it =>
          if (opcode >? MAX_OPCODE) || (size item >? MAX_SCRIPT_ELEMENT_SIZE) then false
          else HasValidOps_loop f it
      end
  end.
Definition HasValidOps (s : CScript) : bool := HasValidOps_loop (length s) s.

(** ** Asset scripts: assets/assets.h and script.cpp *)

Definition PHI_R : Z := 114.
Definition PHI_V : Z := 118.
Definition PHI_N : Z := 110.
Definition PHI_Q : Z := 113.
Definition PHI_T : Z := 116.
Definition PHI_O : Z := 111.

(** [txnouttype] of script/standard.h *)
Definition TX_NEW_ASSET : Z := 8.
Definition TX_REISSUE_ASSET : Z := 9.
Definition TX_TRANSFER_ASSET : Z := 10.

Record asset_script := mkAssetScript { as_nType : Z; as_fIsOwner : bool; as_nStartingIndex : Z }.

(** The three marker bytes from position [i] on; [Err i] is a read past the end. *)
Definition read_byte (s : CScript) (i : nat) : result nat Z :=
  match s !! i with Some b => Ok b | None => Err i end.
Definition asset_marker (s : CScript) (i : nat) : result nat (option nat) :=
  let? b0 := read_byte s i in
  if negb (b0 =? PHI_R) then Ok None
  else
    let? b1 := read_byte s (i + 1) in
    if negb (b1 =? PHI_V) then Ok None
    else
      let? b2 := read_byte s (i + 2) in
      if negb (b2 =? PHI_N) then Ok None else Ok (Some (i + 3)%nat).

(** Where the type byte of an asset script is. *)
Definition asset_index (s : CScript) : result nat (option nat) :=
  let? b26 := read_byte s 26 in
  if b26 <? OP_PUSHDATA1 then asset_marker s 27
  else if b26 =? OP_PUSHDATA1 then asset_marker s 28
  else if b26 =? OP_PUSHDATA2 then asset_marker s 29
  else Ok None.

Definition IsAssetScript (s : CScript) : result nat (option asset_script) :=
  if negb (size s >? 31) then Ok None
  else
    let? b25 := read_byte s 25 in
    if negb (b25 =? OP_PHI_ASSET) then Ok None
    else
      let? index := asset_index s in
      match index with
      | None => Ok None
      | Some index =>
          let start := Z.of_nat index + 1 in
          let? b := read_byte s index in
          if b =? PHI_T then Ok (Some (mkAssetScript TX_TRANSFER_ASSET false start))
          else if (b =? PHI_Q) && (size s >? 39) then Ok (Some (mkAssetScript TX_NEW_ASSET false start))
          else if b =? PHI_O then Ok (Some (mkAssetScript TX_NEW_ASSET true start))
          else if b =? PHI_R then Ok (Some (mkAssetScript TX_REISSUE_ASSET false start))
          else Ok None
      end.

Definition asset_is (p : asset_script → bool) (s : CScript) : result nat bool :=
  let? a := IsAssetScript s in
  Ok (match a with Some a => p a | None => false end).
Definition IsNewAsset : CScript → result nat bool :=
  asset_is (fun a => negb (as_fIsOwner a) && (as_nType a =? TX_NEW_ASSET)).
Definition IsOwnerAsset : CScript → result nat bool :=
  asset_is (fun a => as_fIsOwner a && (as_nType a =? TX_NEW_ASSET)).
Definition IsReissueAsset : CScript → result nat bool :=
  asset_is (fun a => as_nType a =? TX_REISSUE_ASSET).
Definition IsTransferAsset : CScript → result nat bool :=
  asset_is (fun a => as_nType a =? TX_TRANSFER_ASSET).

Definition IsNullAssetTxDataScript (s : CScript) : bool :=
  (size s >? 23) && (at_ s 0 =? OP_PHI_ASSET) && (at_ s 1 =? 0x14).
Definition IsNullGlobalRestrictionAssetTxDataScript (s : CScript) : bool :=
  (size s >? 6) && (at_ s 0 =? OP_PHI_ASSET) && (at_ s 1 =? OP_RESERVED) && (at_ s 2 =? OP_RESERVED).
Definition IsNullAssetVerifierTxDataScript (s : CScript) : bool :=
  (size s >? 3) && (at_ s 0 =? OP_PHI_ASSET) && (at_ s 1 =? OP_RESERVED) && negb (at_ s 2 =? OP_RESERVED).
Definition IsNullAsset (s : CScript) : bool :=
  IsNullAssetTxDataScript s || IsNullGlobalRestrictionAssetTxDataScript s || IsNullAssetVerifierTxDataScript s.

(** ** Lemmas: script numbers *)

Lemma byte_land_80 b : is_byte b → (Z.land b 0x80 =? 0) = (b <? 128).
Proof.
  intros Hb. change (Z.land b 0x80) with (Z.land b (Z.shiftl 1 7)). rewrite land_pow2_testbit by lia.
  rewrite testbit_top by (unfold is_byte in Hb; cbn; lia). change (2 ^ 7) with 128.
  destruct (Z.leb_spec 128 b), (Z.ltb_spec b 128); (done || lia).
Qed.

Lemma byte_land_7f b : is_byte b → (Z.land b 0x7f =? 0) = (b =? 0) || (b =? 128).
Proof.
  intros Hb. unfold is_byte in Hb. rewrite land_7f. change (2 ^ 7) with 128.
  destruct (Z.lt_ge_cases b 128).
  - rewrite Z.mod_small by lia. destruct (Z.eqb_spec b 128); [lia|]. by rewrite orb_false_r.
  - replace (b mod 128) with (b - 128) by (apply Z.mod_unique with 1; lia).
    destruct (Z.eqb_spec b 0), (Z.eqb_spec b 128), (Z.eqb_spec (b - 128) 0); (done || lia).
Qed.

Lemma abs_bytes_digits fuel l : bytes_ok l → (length l <= fuel)%nat → l = [] ∨ List.last l 0 ≠ 0 →
  abs_bytes fuel (digits_val 8 l) = l.
Proof.
  intros Hl; revert fuel; induction Hl as [|b l Hb Hl IH]; intros fuel Hf Hlast; [by destruct fuel|].
  destruct fuel as [|fuel]; [cbn in Hf; lia|]. cbn [length] in Hf.
  assert (0 <= digits_val 8 l) as Hd by (apply digits_val_nonneg; [lia|by apply bytes_digits]).
  assert (digits_val 8 (b :: l) ≠ 0) as Hne.
  { destruct Hlast as [?|Hlast]; [done|]. destruct l as [|c l]; [cbn in Hlast |- *; lia|].
    intros E. assert (digits_val 8 (c :: l) = 0) as E0 by (cbn [digits_val] in *; unfold is_byte in Hb; lia).
    specialize (IH (length (c :: l)) ltac:(lia) (or_intror Hlast)). rewrite E0 in IH. done. }
  cbn [abs_bytes]. destruct (Z.eqb_spec (digits_val 8 (b :: l)) 0); [done|].
  change 0xff with (2 ^ 8 - 1). rewrite land_ones_mod, Z.shiftr_div_pow2 by lia. cbn [digits_val].
  unfold is_byte in Hb. rewrite (Z.mul_comm (2 ^ 8)), Z.mod_add, Z.div_add by lia.
  rewrite Z.mod_small, Z.div_small, Z.add_0_l by lia. f_equal. apply IH; [lia|].
  destruct l as [|c l]; [by left|right]. by destruct Hlast.
Qed.

Lemma abs_bytes_spec fuel a : 0 < a < 2 ^ (8 * Z.of_nat fuel) →
  ∃ l t, abs_bytes fuel a = l ++ [t] ∧ bytes_ok l ∧ 0 < t < 256 ∧ a = digits_val 8 (l ++ [t]).
Proof.
  revert a; induction fuel as [|f IH]; intros a Ha; [cbn in Ha; lia|].
  cbn [abs_bytes]. destruct (Z.eqb_spec a 0); [lia|].
  change 0xff with (2 ^ 8 - 1). rewrite land_ones_mod, Z.shiftr_div_pow2 by lia.
  pose proof (Z.mod_pos_bound a (2 ^ 8) ltac:(lia)). pose proof (Z.div_mod a (2 ^ 8) ltac:(lia)).
  destruct (Z.eq_dec (a / 2 ^ 8) 0) as [E|E].
  - exists [], (a mod 2 ^ 8). rewrite E. split_and!; [by destruct f|constructor|lia..|]. cbn [app digits_val]. lia.
  - assert (0 <= a / 2 ^ 8) by (apply Z.div_pos; lia).
    destruct (IH (a / 2 ^ 8)) as (l & t & -> & Hl & Ht & Hv).
    + split; [lia|]. apply Z.div_lt_upper_bound; [lia|].
      rewrite <- Z.pow_add_r by lia. replace (8 + 8 * Z.of_nat f) with (8 * Z.of_nat (S f)) by lia. lia.
    + exists (a mod 2 ^ 8 :: l), t. split_and!; [done|constructor; [unfold is_byte; lia|done]|lia..|].
      cbn [app digits_val]. lia.
Qed.

Lemma or_bytes_spec l i r : bytes_ok l → 0 <= i → i + size l <= 7 → ufits (8 * i) r →
  or_bytes l i r = r + 2 ^ (8 * i) * digits_val 8 l.
Proof.
  intros Hl; revert i r; induction Hl as [|b l Hb Hl IH]; intros i r Hi Hlen Hr; cbn [or_bytes digits_val]; [lia|].
  unfold size in *. cbn [length] in Hlen. unfold is_byte in Hb.
  assert (2 ^ (8 * i) <= 2 ^ 48) by (apply Z.pow_le_mono_r; lia).
  pose proof (pow2_pos (8 * i) ltac:(lia)).
  rewrite Z.shiftl_mul_pow2 by lia. unfold i64. rewrite swrap_id; [|lia|split; [nia|]; nia].
  rewrite lor_add_shift by (done || lia).
  replace (2 ^ 8) with (2 ^ (8 * (i + 1)) / 2 ^ (8 * i)) at 1
    by (rewrite <- Z.pow_sub_r by lia; f_equal; lia).
  assert (2 ^ (8 * (i + 1)) = 2 ^ 8 * 2 ^ (8 * i)) as E by (rewrite <- Z.pow_add_r by lia; f_equal; lia).
  rewrite IH; [rewrite E, Z.div_mul by lia; ring|lia|lia|].
  unfold ufits in *. rewrite E. nia.
Qed.

(** Clearing a set bit of a 64-bit word. *)
Lemma clear_bit_u64 r k : 0 <= r < 2 ^ 64 → 0 <= k → Z.testbit r k = true →
  Z.land r (u64 (Z.lnot (2 ^ k))) = r - 2 ^ k.
Proof.
  intros Hr Hk Hb. unfold u64. rewrite <- uwrap_land, (Z.land_comm (Z.lnot _)), Z.land_assoc by lia.
  rewrite uwrap_land, uwrap_id by (done || lia). rewrite <- Z.ldiff_land.
  symmetry. apply Z.sub_nocarry_ldiff. apply Z.bits_inj'. intros i Hi. rewrite Z.ldiff_spec, Z.bits_0.
  destruct (Z.eq_dec i k) as [->|]; [by rewrite Hb, andb_false_r|]. by rewrite Z.pow2_bits_false by lia.
Qed.

Lemma set_vch_spec l t : bytes_ok l → is_byte t → size l <= 6 →
  set_vch (l ++ [t]) =
    if t <? 128 then digits_val 8 (l ++ [t]) else - digits_val 8 (l ++ [t - 128]).
Proof.
  intros Hl Ht Hlen. unfold set_vch.
  destruct (l ++ [t]) as [|x xs] eqn:Hlt; [by destruct l|]. rewrite <- Hlt in *. clear x xs Hlt.
  assert (bytes_ok (l ++ [t])) as Hlt by (apply bytes_ok_app; split; [done|by constructor]).
  assert (size (l ++ [t]) = size l + 1) as Hsz by (unfold size; rewrite length_app; cbn; lia).
  rewrite or_bytes_spec by (done || lia || (apply ufits_0; lia)).
  change (2 ^ (8 * 0)) with 1. rewrite Z.mul_1_l, Z.add_0_l, List.last_last, byte_land_80 by done.
  destruct (Z.ltb_spec t 128); cbn [negb]; [done|]. rewrite Hsz. replace (size l + 1 - 1) with (size l) by lia.
  set (V := digits_val 8 (l ++ [t])). unfold is_byte in Ht. assert (0 <= size l) by (unfold size; lia).
  assert (digits_val 8 l < 2 ^ (8 * size l) ∧ 0 <= digits_val 8 l) as [Hdl Hd0].
  { pose proof (digits_val_bound 8 l ltac:(lia) (proj1 (bytes_digits l) Hl)). unfold size. lia. }
  assert (V = digits_val 8 l + t * 2 ^ (8 * size l)) as HV.
  { unfold V, size. rewrite digits_val_app by lia. cbn [digits_val]. lia. }
  assert (digits_val 8 (l ++ [t - 128]) = V - 2 ^ (8 * size l + 7)) as ->.
  { rewrite HV, digits_val_app, Z.pow_add_r by lia. cbn [digits_val]. unfold size. lia. }
  rewrite Z.shiftl_mul_pow2 by lia. change 0x80 with (2 ^ 7). rewrite <- Z.pow_add_r by lia.
  replace (7 + 8 * size l) with (8 * size l + 7) by lia.
  assert (2 ^ (8 * size l) <= 2 ^ 48) by (apply Z.pow_le_mono_r; lia).
  pose proof (pow2_pos (8 * size l) ltac:(lia)).
  assert (0 <= V < 2 ^ 56) by nia.
  assert (2 ^ (8 * size l + 7) <= V) by (rewrite Z.pow_add_r by lia; nia).
  unfold u64 at 1. rewrite (uwrap_id 64 V), clear_bit_u64; try (done || lia || (split; lia)).
  - unfold i64. rewrite (swrap_id 64 (V - _)), swrap_id; unfold sfits; lia.
  - rewrite testbit_top; [by apply Z.leb_le|lia|]. split; [lia|].
    replace (8 * size l + 7 + 1) with (8 + 8 * size l) by lia. rewrite Z.pow_add_r by lia. nia.
Qed.

Lemma serialize_of_digits l t neg : bytes_ok l → 0 < t < 256 → size l <= 7 →
  serialize (if neg : bool then - digits_val 8 (l ++ [t]) else digits_val 8 (l ++ [t])) =
    if t <? 128 then l ++ [if neg then t + 128 else t] else l ++ [t; if neg then 128 else 0].
Proof.
  intros Hl Ht Hlen. set (a := digits_val 8 (l ++ [t])).
  assert (bytes_ok (l ++ [t])) as Hlt by (apply bytes_ok_app; split; [done|constructor; [unfold is_byte; lia|constructor]]).
  assert (0 < a) as Ha.
  { unfold a. rewrite digits_val_app by lia. cbn [digits_val].
    pose proof (digits_val_nonneg 8 l ltac:(lia) (proj1 (bytes_digits l) Hl)).
    pose proof (pow2_pos (8 * Z.of_nat (length l)) ltac:(lia)). nia. }
  assert (a < 2 ^ 64) as Hmax.
  { pose proof (digits_val_bound 8 (l ++ [t]) ltac:(lia) (proj1 (bytes_digits _) Hlt)) as [_ Hb].
    eapply Z.lt_le_trans; [exact Hb|]. apply Z.pow_le_mono_r; [lia|].
    unfold size in Hlen. rewrite length_app. cbn [length]. lia. }
  assert (abs_bytes 8 a = l ++ [t]) as Hab.
  { apply abs_bytes_digits; [done|unfold size in Hlen; rewrite length_app; cbn [length]; lia|].
    right. rewrite List.last_last. lia. }
  unfold serialize. replace (u64 _) with a by (unfold u64; rewrite uwrap_id; [|split]; destruct neg;
    match goal with |- context [?x <? 0] => destruct (Z.ltb_spec x 0) end; lia).
  rewrite Hab.
  rewrite List.last_last, removelast_last, byte_land_80 by (unfold is_byte; lia).
  assert (((if neg then - a else a) =? 0) = false) as -> by (apply Z.eqb_neq; destruct neg; lia).
  assert (((if neg then - a else a) <? 0) = neg) as -> by (destruct neg; [apply Z.ltb_lt|apply Z.ltb_ge]; lia).
  destruct (Z.ltb_spec t 128); cbn [negb]; [|by rewrite <- app_assoc].
  destruct neg; [|done]. change 0x80 with (2 ^ 7). rewrite lor_pow2; [done|lia|].
  rewrite testbit_top by lia. apply Z.leb_gt. lia.
Qed.

Lemma digits_top_length l t k : bytes_ok l → 0 < t → 0 <= k → digits_val 8 (l ++ [t]) < 2 ^ k →
  8 * size l < k ∧ (k <= 8 * size l + 8 → t < 2 ^ (k - 8 * size l)).
Proof.
  intros Hl Ht Hk H. rewrite digits_val_app in H by lia. cbn [digits_val] in H. fold (size l) in H.
  rewrite Z.mul_0_r, Z.add_0_r in H.
  pose proof (digits_val_nonneg 8 l ltac:(lia) (proj1 (bytes_digits l) Hl)).
  assert (0 <= size l) by (unfold size; lia). pose proof (pow2_pos (8 * size l) ltac:(lia)).
  assert (8 * size l < k) as Hlt by (apply (Z.pow_lt_mono_r_iff 2); [lia|lia|nia]).
  split; [done|]. intros _. replace k with (k - 8 * size l + 8 * size l) in H by lia.
  rewrite Z.pow_add_r in H by lia. nia.
Qed.

Lemma serialize_bytes n : n ≠ 0 → Z.abs n < 2 ^ 63 →
  ∃ l t, bytes_ok l ∧ 0 < t < 256 ∧ Z.abs n = digits_val 8 (l ++ [t]) ∧
    serialize n = if t <? 128 then l ++ [if n <? 0 then t + 128 else t]
                  else l ++ [t; if n <? 0 then 128 else 0].
Proof.
  intros Hn Ha. destruct (abs_bytes_spec 8 (Z.abs n)) as (l & t & _ & Hl & Ht & Hv); [lia|].
  exists l, t. split_and!; [done|lia..|done|].
  destruct (digits_top_length l t 63) as [Hlen _]; [done|lia..|]. rewrite <- serialize_of_digits by (done || lia).
  f_equal. destruct (Z.ltb_spec n 0); lia.
Qed.

Lemma CScriptNum_serialize k n fMin : 1 <= k <= 7 → Z.abs n < 2 ^ (8 * k - 1) →
  CScriptNum (serialize n) fMin k = Some n.
Proof.
  intros Hk Hn. destruct (Z.eq_dec n 0) as [->|Hne].
  { unfold CScriptNum. change (serialize 0) with (@nil Z). change (size (@nil Z)) with 0.
    destruct (Z.gtb_spec 0 k); [lia|]. by rewrite andb_false_r. }
  assert (2 ^ (8 * k - 1) <= 2 ^ 63) by (apply Z.pow_le_mono_r; lia).
  destruct (serialize_bytes n Hne ltac:(lia)) as (l & t & Hl & Ht & Hv & ->).
  destruct (digits_top_length l t (8 * k - 1)) as [Hlen Htop]; [done|lia..|].
  destruct (Z.ltb_spec t 128) as [Hlt|Hge].
  - set (c := if n <? 0 then t + 128 else t).
    assert (is_byte c ∧ c ≠ 0 ∧ c ≠ 128) as (Hc & Hc0 & Hc1) by (unfold c, is_byte; destruct (n <? 0); lia).
    unfold CScriptNum. replace (size (l ++ [c])) with (size l + 1) by (unfold size; rewrite length_app; cbn [length]; lia).
    destruct (Z.gtb_spec (size l + 1) k); [lia|]. rewrite List.last_last, byte_land_7f by done.
    destruct (Z.eqb_spec c 0), (Z.eqb_spec c 128); try done. rewrite andb_false_r. cbn [andb orb].
    rewrite set_vch_spec by (done || lia). f_equal. unfold c in *. destruct (Z.ltb_spec n 0).
    + destruct (Z.ltb_spec (t + 128) 128); [lia|]. replace (t + 128 - 128) with t by lia. lia.
    + destruct (Z.ltb_spec t 128); lia.
  - assert (8 * size l + 8 < 8 * k - 1) as Hlen2.
    { destruct (Z.le_gt_cases (8 * k - 1) (8 * size l + 8)) as [Hle|]; [|lia]. specialize (Htop Hle).
      assert (8 * k - 1 - 8 * size l = 7) as E by lia. rewrite E in Htop. lia. }
    set (c := if n <? 0 then 128 else 0).
    assert (is_byte c) as Hc by (unfold c, is_byte; destruct (n <? 0); lia).
    assert (bytes_ok (l ++ [t])) as Hlt2 by (apply bytes_ok_app; split; [done|constructor; [unfold is_byte; lia|constructor]]).
    replace (l ++ [t; c]) with ((l ++ [t]) ++ [c]) by (by rewrite <- app_assoc).
    unfold CScriptNum. replace (size ((l ++ [t]) ++ [c])) with (size l + 2) by (unfold size; rewrite !length_app; cbn [length]; lia).
    destruct (Z.gtb_spec (size l + 2) k); [lia|].
    replace (length ((l ++ [t]) ++ [c]) - 2)%nat with (length l) by (rewrite !length_app; cbn [length]; lia).
    rewrite <- app_assoc, app_nth2, Nat.sub_diag by lia. cbn [app nth].
    rewrite byte_land_80 by (unfold is_byte; lia). destruct (Z.ltb_spec t 128); [lia|].
    destruct (Z.leb_spec (size l + 2) 1); [unfold size in *; lia|]. rewrite !andb_false_r.
    replace (l ++ [t; c]) with ((l ++ [t]) ++ [c]) by (by rewrite <- app_assoc).
    rewrite set_vch_spec; [|done|done|unfold size in *; rewrite length_app; cbn [length]; lia]. f_equal.
    assert (∀ l', digits_val 8 (l' ++ [0]) = digits_val 8 l') as Hz by (intros l'; rewrite digits_val_app by lia; cbn; lia).
    unfold c. destruct (Z.ltb_spec n 0).
    + change (128 <? 128) with false. change (128 - 128) with 0. cbv iota. rewrite Hz. lia.
    + change (0 <? 128) with true. cbv iota. rewrite Hz. lia.
Qed.

Lemma list_snoc {A} (l : list A) : l ≠ [] → ∃ l' x, l = l' ++ [x].
Proof. intros H. destruct (exists_last H) as (l' & x & ->). eauto. Qed.

Lemma serialize_CScriptNum k vch n : 1 <= k <= 7 → bytes_ok vch → CScriptNum vch true k = Some n →
  serialize n = vch.
Proof.
  intros Hk Hb. unfold CScriptNum. destruct (Z.gtb_spec (size vch) k) as [|Hlen]; [done|].
  destruct (decide (vch = [])) as [->|Hne]; [by intros [= <-]|].
  destruct (list_snoc vch Hne) as (l & b & ->). apply bytes_ok_app in Hb as [Hl Hb]. inv Hb.
  assert (size (l ++ [b]) = size l + 1) as Hsz by (unfold size; rewrite length_app; cbn [length]; lia).
  rewrite Hsz in *. destruct (Z.gtb_spec (size l + 1) 0); [|unfold size in *; lia].
  rewrite List.last_last, byte_land_7f, set_vch_spec by (done || lia). cbn [andb].
  assert (is_byte b) as Hbb by done. unfold is_byte in Hbb.
  assert (∀ l' t, digits_val 8 (l' ++ [t; 0]) = digits_val 8 (l' ++ [t])) as Hz.
  { intros l' t. rewrite !digits_val_app by lia. cbn [digits_val]. lia. }
  destruct (decide (b = 0 ∨ b = 128)) as [Hb0|Hb0].
  - replace ((b =? 0) || (b =? 128)) with true by (destruct Hb0 as [-> | ->]; done). cbn [andb].
    destruct (Z.leb_spec (size l + 1) 1) as [|Hl2]; [done|]. cbn [orb].
    destruct (list_snoc l) as (l' & t & ->); [intros ->; unfold size in Hl2; cbn in Hl2; lia|].
    apply bytes_ok_app in Hl as [Hl' Ht]. inv Ht.
    replace (length ((l' ++ [t]) ++ [b]) - 2)%nat with (length l') by (rewrite !length_app; cbn [length]; lia).
    rewrite <- app_assoc, app_nth2, Nat.sub_diag by lia. cbn [app nth]. rewrite byte_land_80 by done.
    destruct (Z.ltb_spec t 128); [done|]. intros [= <-].
    assert (is_byte t) as Htb by done. unfold is_byte in Htb.
    assert (size l' <= 7) by (unfold size in *; rewrite length_app in *; cbn [length] in *; lia).
    rewrite <- !app_assoc. cbn [app].
    destruct Hb0 as [-> | ->];
      [change (0 <? 128) with true|change (128 <? 128) with false; change (128 - 128) with 0]; cbv iota.
    + rewrite (Hz l' t), (serialize_of_digits l' t false) by (done || lia).
      destruct (Z.ltb_spec t 128); [lia|done].
    + rewrite (Hz l' t), (serialize_of_digits l' t true) by (done || lia).
      destruct (Z.ltb_spec t 128); [lia|done].
  - destruct (Z.eqb_spec b 0), (Z.eqb_spec b 128); try tauto. cbn [andb orb]. intros [= <-].
    destruct (Z.ltb_spec b 128).
    + rewrite (serialize_of_digits l b false) by (done || lia). destruct (Z.ltb_spec b 128); [done|lia].
    + rewrite (serialize_of_digits l (b - 128) true) by (done || lia).
      destruct (Z.ltb_spec (b - 128) 128); [|lia]. f_equal. f_equal. lia.
Qed.

(** ** Lemmas: parsing *)

Lemma size_app {A} (l1 l2 : list A) : size (l1 ++ l2) = size l1 + size l2.
Proof. unfold size. rewrite length_app. lia. Qed.
Lemma size_cons {A} (x : A) l : size (x :: l) = 1 + size l.
Proof. unfold size. cbn [length]. lia. Qed.
Lemma size_nonneg {A} (l : list A) : 0 <= size l.
Proof. unfold size. lia. Qed.

Lemma read_push_size_suffix opcode pc nSize pc' :
  read_push_size opcode pc = (nSize, pc') → ∃ pre, pc = pre ++ pc'.
Proof.
  unfold read_push_size. intros H. case_all_in H; inv H; try (by exists []).
  - by exists [z].
  - exists (take 2 pc). by rewrite take_drop.
  - exists (take 4 pc). by rewrite take_drop.
Qed.

(** A successful parse consumes at least the opcode. *)
Lemma GetOp2_suffix pc op v pc' : GetOp2 pc = GotOp op v pc' → ∃ b pre, pc = b :: pre ++ pc'.
Proof.
  unfold GetOp2. destruct pc as [|b pc]; [done|]. destruct (b <=? OP_PUSHDATA4).
  - destruct (read_push_size b pc) as [[nSize|] pc1] eqn:Hr; [|done].
    apply read_push_size_suffix in Hr as [pre ->]. destruct (size pc1 <? nSize); [done|].
    intros [= _ _ <-]. exists b, (pre ++ take (Z.to_nat nSize) pc1). by rewrite <- app_assoc, take_drop.
  - destruct (b =? OP_PHI_ASSET); intros [= _ _ <-]; [exists b, pc; by rewrite app_nil_r|by exists b, []].
Qed.

Lemma GetOp2_length pc op v pc' : GetOp2 pc = GotOp op v pc' → (length pc' < length pc)%nat.
Proof. intros H. apply GetOp2_suffix in H as (b & pre & ->). cbn [length]. rewrite length_app. lia. Qed.

Lemma GetOp2_opcode pc op v pc' : bytes_ok pc → GetOp2 pc = GotOp op v pc' → is_byte op.
Proof.
  unfold GetOp2. destruct pc as [|b pc]; [done|]. intros Hb H. inv Hb. case_all_in H; by inv H.
Qed.

Lemma ReadLE_write n x rest : ufits (8 * Z.of_nat n) x →
  digits_val 8 (take n (digits_of 8 n x ++ rest)) = x.
Proof.
  intros Hx. rewrite take_app_length' by (by rewrite digits_of_length).
  rewrite digits_val_of by lia. by apply Z.mod_small.
Qed.

(** What [<<] appends, [GetOp2] reads back. *)
Lemma push_data_parse b s rest : push_data b = Some s →
  ∃ op, 0 <= op <= OP_PUSHDATA4 ∧ GetOp2 (s ++ rest) = GotOp op b rest.
Proof.
  pose proof (size_nonneg b) as Hsz. unfold push_data. intros H.
  assert (∀ op pc, read_push_size op pc = (Some (size b), b ++ rest) → op <= OP_PUSHDATA4 →
    GetOp2 (op :: pc) = GotOp op b rest) as Hget.
  { intros op pc Hr Hop. unfold GetOp2. destruct (Z.leb_spec op OP_PUSHDATA4); [|lia]. rewrite Hr.
    rewrite size_app. destruct (Z.ltb_spec (size b + size rest) (size b)); [pose proof (size_nonneg rest); lia|].
    unfold size. rewrite Nat2Z.id, take_app_length, drop_app_length. done. }
  assert (∀ n, ufits (8 * Z.of_nat n) (size b) →
    digits_val 8 (take n (digits_of 8 n (size b) ++ b ++ rest)) = size b ∧
    drop n (digits_of 8 n (size b) ++ b ++ rest) = b ++ rest ∧
    (size (digits_of 8 n (size b) ++ b ++ rest) <? Z.of_nat n) = false) as Hle.
  { intros n Hn. rewrite ReadLE_write by done. split_and!; [done| |].
    - by rewrite drop_app_length' by (by rewrite digits_of_length).
    - apply Z.ltb_ge. rewrite size_app. unfold size at 1. rewrite digits_of_length.
      pose proof (size_nonneg (b ++ rest)). lia. }
  case_all_in H; inv H; breflect; rewrite <- ?app_comm_cons, <- ?app_assoc; unfold WriteLE16, WriteLE32;
    eexists; (split; [|apply Hget; [|lia]]); try lia; unfold read_push_size.
  - destruct (Z.ltb_spec (size b) 76); [done|lia].
  - done.
  - destruct (Hle 2%nat) as (Hv & Hd & Hs); [unfold ufits; lia|].
    change (77 <? 76) with false. change (77 =? 76) with false. change (77 =? 77) with true. cbv iota.
    cbn [digits_of app] in Hv, Hd, Hs. change (Z.of_nat 2) with 2 in Hs. unfold ReadLE16. by rewrite Hs, Hv, Hd.
  - destruct (Hle 4%nat) as (Hv & Hd & Hs); [unfold ufits; lia|].
    change (78 <? 76) with false. change (78 =? 76) with false. change (78 =? 77) with false. cbv iota.
    cbn [digits_of app] in Hv, Hd, Hs. change (Z.of_nat 4) with 4 in Hs. unfold ReadLE32. by rewrite Hs, Hv, Hd.
Qed.

(** ** Deleting a pattern

    The reference: at every opcode boundary, drop the pattern while it is there,
    then keep one whole operation. *)
Inductive deleted (b : CScript) : CScript → CScript → Z → Prop :=
| deleted_stop s pc : starts_with b s = false → GetOp2 s = NoOp pc → deleted b s s 0
| deleted_match s r n : starts_with b s = true → deleted b (drop (length b) s) r n → deleted b s r (n + 1)
| deleted_keep op v kept s r n : starts_with b (kept ++ s) = false → GetOp2 (kept ++ s) = GotOp op v s →
    deleted b s r n → deleted b (kept ++ s) (kept ++ r) n.

Lemma starts_with_app b s : starts_with b s = true → s = b ++ drop (length b) s.
Proof. unfold starts_with. intros H%bool_decide_eq_true. by rewrite <- H at 1; rewrite take_drop. Qed.

Lemma skip_matches_spec fuel b pc n : b ≠ [] → (length pc <= fuel)%nat →
  ∃ pc' k, skip_matches fuel b pc n = (pc', n + k) ∧ starts_with b pc' = false ∧
    (length pc' <= length pc)%nat ∧ ∀ r m, deleted b pc' r m → deleted b pc r (m + k).
Proof.
  intros Hb. assert (length b ≠ 0%nat) as Hb0 by (by destruct b).
  assert (∀ pc, length pc = 0%nat → starts_with b pc = false) as Hnil.
  { intros [|? ?] Hpc; [|done]. apply bool_decide_eq_false. rewrite take_nil. congruence. }
  revert pc n; induction fuel as [|f IH]; intros pc n Hf; cbn [skip_matches].
  - exists pc, 0. rewrite Z.add_0_r. split_and!; [done|apply Hnil; lia|lia|].
    intros r m. by rewrite Z.add_0_r.
  - destruct (starts_with b pc) eqn:Hs.
    + assert (length pc ≠ 0%nat) by (intros E; rewrite (Hnil pc E) in Hs; done).
      assert (length (drop (length b) pc) < length pc)%nat as Hlt by (rewrite length_drop; lia).
      destruct (IH (drop (length b) pc) (n + 1)) as (pc' & k & -> & Hs' & Hl & Hd); [lia|].
      exists pc', (1 + k). split_and!; [f_equal; lia|done|lia|].
      intros r m Hr. replace (m + (1 + k)) with (m + k + 1) by lia. apply deleted_match; auto.
    + exists pc, 0. rewrite Z.add_0_r. split_and!; [done|done|lia|]. intros r m. by rewrite Z.add_0_r.
Qed.

Lemma delete_loop_spec fuel b result kept pc n : b ≠ [] → (length pc < fuel)%nat →
  ∃ r m result' pc2' n', delete_loop fuel b result (kept ++ pc) pc n = (result', pc2', n') ∧
    deleted b pc r m ∧ result' ++ pc2' = result ++ kept ++ r ∧ n' = n + m.
Proof.
  intros Hb. revert result kept pc n; induction fuel as [|f IH]; intros result kept pc n Hf; [lia|].
  cbn [delete_loop]. rewrite length_app, Nat.add_sub, take_app_length.
  destruct (skip_matches_spec (length pc) b pc n Hb) as (pc1 & k & -> & Hs & Hl & Hd); [lia|].
  destruct (GetOp2 pc1) as [op v pc3|pc3] eqn:Hg.
  - destruct (GetOp2_suffix _ _ _ _ Hg) as (o & pre & Hpc1).
    destruct (IH (result ++ kept) (o :: pre) pc3 (n + k)) as (r & m & res' & pc2' & n' & Hres & Hdel & Happ & ->).
    { apply GetOp2_length in Hg. lia. }
    change ((o :: pre) ++ pc3) with (o :: pre ++ pc3) in Hres. rewrite <- Hpc1 in Hres.
    exists ((o :: pre) ++ r), (m + k), res', pc2', (n + k + m). split_and!; [done| | |lia].
    + apply Hd. rewrite Hpc1. change (o :: pre ++ pc3) with ((o :: pre) ++ pc3).
      eapply deleted_keep; [by rewrite <- app_comm_cons, <- Hpc1..|done].
    + by rewrite Happ, <- app_assoc.
  - exists pc1, (0 + k), (result ++ kept), pc1, (n + k). split_and!; [done| |by rewrite <- app_assoc|lia].
    apply Hd. by eapply deleted_stop.
Qed.

Lemma deleted_count b s r n : deleted b s r n → 0 <= n ∧ size s = size r + n * size b ∧ (n = 0 → r = s).
Proof.
  induction 1 as [s pc Hs Hg|s r n Hs Hd (Hn & Hsz & _)|op v kept s r n Hs Hg Hd (Hn & Hsz & Heq)].
  - split_and!; [lia|lia|done].
  - split_and!; [lia| |lia]. rewrite (starts_with_app b s Hs), size_app. lia.
  - rewrite !size_app. split_and!; [lia|lia|]. intros Hz. by rewrite (Heq Hz).
Qed.

Lemma FindAndDelete_deleted script b : b ≠ [] →
  ∃ r n, FindAndDelete script b = (r, n) ∧ deleted b script r n.
Proof.
  intros Hb. assert (FindAndDelete script b =
    let '(result, pc2, nFound) := delete_loop (S (length script)) b [] script script 0 in
    if nFound >? 0 then (result ++ pc2, nFound) else (script, nFound)) as -> by (by destruct b).
  destruct (delete_loop_spec (S (length script)) b [] [] script 0 Hb ltac:(lia))
    as (r & m & res & pc2 & n' & Hloop & Hd & Happ & ->).
  cbn [app] in *. rewrite Hloop. destruct (deleted_count b script r m Hd) as (Hm & _ & Heq).
  exists r, m. split; [|done]. rewrite Z.add_0_l. destruct (Z.gtb_spec m 0); [by rewrite Happ|].
  f_equal. symmetry. apply Heq. lia.
Qed.

(** A pattern that begins no operation is never found. *)
Lemma deleted_none b s r n : deleted b s r n →
  (∀ pre s', s = pre ++ s' → starts_with b s' = false) → r = s ∧ n = 0.
Proof.
  induction 1 as [s pc Hs Hg|s r n Hs Hd IH|op v kept s r n Hs Hg Hd IH]; intros Hno; [done| |].
  - by rewrite (Hno [] s eq_refl) in Hs.
  - destruct IH as [-> ->]; [|done]. intros pre s' ->. apply (Hno (kept ++ pre)). by rewrite app_assoc.
Qed.

(** ** Lemmas: templates, counts, asset markers *)

Lemma snoc_nth (l : list Z) k : length l = S k → l = take k l ++ [nth k l 0].
Proof.
  intros Hl. rewrite <- (take_drop k l) at 1. f_equal.
  assert (length (drop k l) = 1%nat) as Hd by (rewrite length_drop; lia).
  destruct (drop k l) as [|x [|? ?]] eqn:E; try (cbn in Hd; lia).
  f_equal. rewrite <- (take_drop k l), E, app_nth2, length_take, Nat.min_l, Nat.sub_diag; (done || rewrite ?length_take; lia).
Qed.

Lemma IsPayToScriptHash_shape s : IsPayToScriptHash s = true ↔
  ∃ h, length h = 20%nat ∧ s = OP_HASH160 :: 0x14 :: h ++ [OP_EQUAL].
Proof.
  unfold IsPayToScriptHash, size. split.
  - intros H. breflect. destruct s as [|x0 [|x1 s]]; cbn [length nth] in *; try lia.
    exists (take 20 s). split; [rewrite length_take; lia|]. subst. do 2 f_equal.
    rewrite (snoc_nth s 20) at 1 by lia. by replace (nth 20 s 0) with OP_EQUAL by done.
  - intros (h & Hh & ->). cbn [length nth]. rewrite length_app, Hh, app_nth2 by lia. by rewrite Hh.
Qed.

Lemma IsPayToPublicKeyHash_shape s : IsPayToPublicKeyHash s = true ↔
  ∃ h, length h = 20%nat ∧ s = OP_DUP :: OP_HASH160 :: 0x14 :: h ++ [OP_EQUALVERIFY; OP_CHECKSIG].
Proof.
  unfold IsPayToPublicKeyHash, size. split.
  - intros H. breflect. destruct s as [|x0 [|x1 [|x2 s]]]; cbn [length nth] in *; try lia.
    exists (take 20 s). split; [rewrite length_take; lia|]. subst. do 3 f_equal.
    rewrite (snoc_nth s 21) at 1 by lia. replace (nth 21 s 0) with OP_CHECKSIG by done.
    rewrite (snoc_nth (take 21 s) 20) at 1 by (rewrite length_take; lia).
    rewrite take_take, Nat.min_l, <- app_assoc by lia. cbn [app]. do 2 f_equal.
    rewrite nth_lookup, lookup_take_lt, <- nth_lookup by lia. done.
  - intros (h & Hh & ->). cbn [length nth]. rewrite length_app, Hh, !app_nth2 by lia. by rewrite Hh.
Qed.

Lemma IsWitnessProgram_shape s v p : IsWitnessProgram s = Some (v, p) ↔
  0 <= v <= 16 ∧ 2 <= size p <= 40 ∧ s = (if v =? 0 then OP_0 else OP_1 + v - 1) :: size p :: p.
Proof.
  unfold IsWitnessProgram. split.
  - intros H. destruct s as [|x0 [|x1 s]];
      [done|unfold size in H; cbn in H; done|].
    rewrite !size_cons in H. cbn [nth] in H. change (drop 2 (x0 :: x1 :: s)) with (drop 0 s) in H. pose proof (size_nonneg s).
    unfold DecodeOP_N in H. case_all_in H; inv H; repeat match goal with
      | H : _ && _ = false |- _ => apply andb_false_iff in H as [?|?]
      | H : _ || _ = true |- _ => apply orb_true_iff in H as [?|?] end; breflect; try lia.
    all: rewrite ?drop_0; split_and!; try lia;
      match goal with |- context [?w =? 0] => destruct (Z.eqb_spec w 0); try lia end;
      f_equal; try lia; f_equal; lia.
  - intros (Hv & Hp & ->). rewrite !size_cons. cbn [nth drop].
    destruct (Z.ltb_spec (1 + (1 + size p)) 4), (Z.gtb_spec (1 + (1 + size p)) 42); try lia. cbn [orb].
    unfold DecodeOP_N. replace (size p + 2 =? 1 + (1 + size p)) with true by (symmetry; apply Z.eqb_eq; lia).
    destruct (Z.eqb_spec v 0) as [->|Hv0]; [done|].
    destruct (Z.eqb_spec (OP_1 + v - 1) OP_0), (Z.ltb_spec (OP_1 + v - 1) OP_1),
      (Z.gtb_spec (OP_1 + v - 1) OP_16), (Z.geb_spec (OP_1 + v - 1) OP_1), (Z.leb_spec (OP_1 + v - 1) OP_16); try lia.
    cbn [andb orb negb]. do 2 f_equal. lia.
Qed.

Lemma GetSigOpCount_loop_bounds f pc lst n1 n2 : 0 <= n1 <= n2 → n2 + 20 * Z.of_nat f < 2 ^ 32 →
  0 <= GetSigOpCount_loop f true pc lst n1 <= GetSigOpCount_loop f false pc lst n2 ∧
  GetSigOpCount_loop f false pc lst n2 <= n2 + 20 * Z.of_nat f.
Proof.
  revert pc lst n1 n2; induction f as [|f IH]; intros pc lst n1 n2 Hn Hmax; cbn [GetSigOpCount_loop]; [lia|].
  destruct (GetOp2 pc) as [op v pc'|]; [|lia]. unfold MAX_PUBKEYS_PER_MULTISIG.
  assert (∀ n k, 0 <= k → 0 <= n → n <= n2 → k <= 20 → u32 (n + k) = n + k) as Hw
    by (intros n k ? ? ? ?; unfold u32; apply uwrap_id; split; lia).
  destruct (_ || _); [|destruct (_ || _)].
  - rewrite !Hw by lia. destruct (IH pc' op (n1 + 1) (n2 + 1)) as [? ?]; lia.
  - cbn [andb]. destruct (Z.geb_spec lst OP_1), (Z.leb_spec lst OP_16); cbn [andb]; rewrite !Hw by lia;
      match goal with |- context [GetSigOpCount_loop f true pc' op ?a] =>
        destruct (IH pc' op a (n2 + 20)) as [? ?]; lia end.
  - destruct (IH pc' op n1 n2) as [? ?]; lia.
Qed.

Lemma read_byte_ok s i b : read_byte s i = Ok b ↔ s !! i = Some b.
Proof. unfold read_byte. destruct (s !! i); split; congruence. Qed.

Lemma read_byte_total s i : (i < length s)%nat → ∃ b, read_byte s i = Ok b ∧ s !! i = Some b.
Proof.
  intros Hi. unfold read_byte. destruct (lookup_lt_is_Some_2 s i Hi) as [b ->]. eauto.
Qed.

Lemma asset_marker_total s i : (i + 2 < length s)%nat →
  asset_marker s i = Ok (if bool_decide (take 3 (drop i s) = [PHI_R; PHI_V; PHI_N]) then Some (i + 3)%nat else None).
Proof.
  intros Hi. unfold asset_marker.
  destruct (read_byte_total s i) as (b0 & -> & H0); [lia|].
  destruct (read_byte_total s (i + 1)) as (b1 & -> & H1); [lia|].
  destruct (read_byte_total s (i + 2)) as (b2 & -> & H2); [lia|].
  assert (take 3 (drop i s) = [b0; b1; b2]) as ->.
  { apply list_eq. intros [|[|[|j]]]; rewrite ?lookup_take_lt, ?lookup_drop by lia;
      rewrite ?Nat.add_0_r; try done. by rewrite lookup_take_ge by lia. }
  cbn [rbind]. destruct (Z.eqb_spec b0 PHI_R), (Z.eqb_spec b1 PHI_V), (Z.eqb_spec b2 PHI_N); cbn [negb];
    case_bool_decide; congruence.
Qed.

Lemma asset_index_spec s b26 : (32 <= length s)%nat → s !! 26%nat = Some b26 →
  ∃ index, asset_index s = Ok index ∧
    (∀ i, index = Some i → (i <= 32)%nat ∧
      (i = 32%nat → b26 = OP_PUSHDATA2 ∧ take 3 (drop 29 s) = [PHI_R; PHI_V; PHI_N])) ∧
    (b26 = OP_PUSHDATA2 → take 3 (drop 29 s) = [PHI_R; PHI_V; PHI_N] → index = Some 32%nat).
Proof.
  intros Hlen H26. unfold asset_index. rewrite (proj2 (read_byte_ok s 26 b26) H26). cbn [rbind].
  rewrite !asset_marker_total by lia.
  destruct (Z.ltb_spec b26 OP_PUSHDATA1), (Z.eqb_spec b26 OP_PUSHDATA1), (Z.eqb_spec b26 OP_PUSHDATA2); try lia;
    eexists; (split; [reflexivity|]); split; repeat case_bool_decide; intros; simplify_eq; try (split; [lia|]);
    intros; simplify_eq; try lia; try done.
Qed.

(** ** Properties *)

(** Script numbers have one encoding each.  With a size limit of [k] bytes
    (4 and 5 are used), every number of absolute value below [2^(8k-1)] is
    serialized to bytes the constructor accepts and maps back to it, and the only
    bytes the constructor accepts as minimal for a number are its serialization. *)
Theorem scriptnum_codec k : 1 <= k <= 7 →
  (∀ n fRequireMinimal, Z.abs n < 2 ^ (8 * k - 1) → CScriptNum (serialize n) fRequireMinimal k = Some n) ∧
  (∀ vch n, bytes_ok vch → CScriptNum vch true k = Some n → serialize n = vch).
Proof.
  intros Hk. split; intros.
  - by apply CScriptNum_serialize.
  - by apply serialize_CScriptNum with k.
Qed.

Lemma scriptnum_codec_witness : CScriptNum (serialize (-255)) true 4 = Some (-255) ∧ serialize (-255) = [0xff; 0x80].
Proof.
  destruct (scriptnum_codec 4) as [H1 H2]; [lia|]. split; [by apply H1|]. apply H2; [|reflexivity].
  repeat constructor; lia.
Defined.

(** [FindAndDelete] is the deletion at operation boundaries: it returns the
    script and the count that the reference relation [deleted] describes, always
    with as many bytes fewer as the pattern's length times the count. *)
Theorem FindAndDelete_correct script b : b ≠ [] →
  ∃ r n, FindAndDelete script b = (r, n) ∧ deleted b script r n ∧ size script = size r + n * size b.
Proof.
  intros Hb. destruct (FindAndDelete_deleted script b Hb) as (r & n & Hf & Hd).
  exists r, n. split_and!; [done..|]. by apply deleted_count in Hd as (_ & ? & _).
Qed.

Lemma FindAndDelete_correct_witness :
  ∃ r n, FindAndDelete [OP_CODESEPARATOR; 2; OP_CODESEPARATOR; OP_1; OP_CODESEPARATOR; OP_CHECKSIG] [OP_CODESEPARATOR] = (r, n)
    ∧ r = [2; OP_CODESEPARATOR; OP_1; OP_CHECKSIG] ∧ n = 2.
Proof.
  destruct (FindAndDelete_correct [OP_CODESEPARATOR; 2; OP_CODESEPARATOR; OP_1; OP_CODESEPARATOR; OP_CHECKSIG]
    [OP_CODESEPARATOR]) as (r & n & Hf & _); [done|].
  exists r, n. split; [done|]. vm_compute in Hf. by inversion Hf.
Defined.

(** Data appended with [<<] is read back by [GetOp2] as one push of exactly
    that data, whatever follows it; every successful parse moves the iterator
    forward, so the parsing loops terminate. *)
Theorem push_parse_roundtrip b s rest : push_data b = Some s →
  (∃ op, 0 <= op <= OP_PUSHDATA4 ∧ GetOp2 (s ++ rest) = GotOp op b rest) ∧
  (∀ pc op v pc', GetOp2 pc = GotOp op v pc' → (length pc' < length pc)%nat).
Proof. intros H. split; [by apply push_data_parse|]. apply GetOp2_length. Qed.

Lemma push_parse_roundtrip_witness :
  ∃ s, push_data (replicate 80 7) = Some s ∧
    ∃ op, 0 <= op <= OP_PUSHDATA4 ∧ GetOp2 (s ++ [OP_CHECKSIG]) = GotOp op (replicate 80 7) [OP_CHECKSIG].
Proof.
  eexists. split; [reflexivity|].
  apply (push_parse_roundtrip (replicate 80 7) (OP_PUSHDATA1 :: 80 :: replicate 80 7) [OP_CHECKSIG] eq_refl).
Defined.

(** The template tests accept exactly the scripts they are named for:
    pay-to-script-hash, pay-to-pubkey-hash and witness programs of version 0 to 16
    with 2 to 40 bytes. *)
Theorem script_templates_exact s :
  (IsPayToScriptHash s = true ↔ ∃ h, length h = 20%nat ∧ s = OP_HASH160 :: 0x14 :: h ++ [OP_EQUAL]) ∧
  (IsPayToPublicKeyHash s = true ↔
     ∃ h, length h = 20%nat ∧ s = OP_DUP :: OP_HASH160 :: 0x14 :: h ++ [OP_EQUALVERIFY; OP_CHECKSIG]) ∧
  (∀ v p, IsWitnessProgram s = Some (v, p) ↔
     0 <= v <= 16 ∧ 2 <= size p <= 40 ∧ s = (if v =? 0 then OP_0 else OP_1 + v - 1) :: size p :: p).
Proof.
  split_and!; [apply IsPayToScriptHash_shape|apply IsPayToPublicKeyHash_shape|apply IsWitnessProgram_shape].
Qed.

(** [IsAssetScript] reads one byte past the end of the script for exactly one
    class of scripts: 32 bytes, [OP_PHI_ASSET] at 25, [OP_PUSHDATA2] at 26 and the
    marker bytes at 29 to 31; every other script is classified within bounds. *)
Theorem IsAssetScript_overread s i : IsAssetScript s = Err i ↔
  i = 32%nat ∧ length s = 32%nat ∧ s !! 25%nat = Some OP_PHI_ASSET ∧ s !! 26%nat = Some OP_PUSHDATA2 ∧
  take 3 (drop 29 s) = [PHI_R; PHI_V; PHI_N].
Proof.
  unfold IsAssetScript, size. destruct (Z.gtb_spec (Z.of_nat (length s)) 31) as [Hl|Hl]; cbn [negb];
    [|split; [done|]; lia].
  destruct (read_byte_total s 25) as (b25 & -> & H25); [lia|]. cbn [rbind].
  destruct (read_byte_total s 26) as (b26 & _ & H26); [lia|].
  destruct (asset_index_spec s b26) as (index & -> & Hi & Hconv); [lia|done|]. cbn [rbind].
  destruct (Z.eqb_spec b25 OP_PHI_ASSET) as [->|]; cbn [negb]; [|split; [done|]; intros; naive_solver].
  destruct index as [j|].
  - destruct (Hi j eq_refl) as [Hj Hj32]. unfold read_byte. destruct (s !! j) as [b|] eqn:Hb; cbn [rbind].
    + split; [case_all; done|]. intros (-> & Hlen & _ & H26' & Hm).
      specialize (Hconv ltac:(congruence) Hm). injection Hconv as ->.
      apply lookup_lt_Some in Hb. lia.
    + apply lookup_ge_None in Hb. assert (j = 32%nat ∧ length s = 32%nat) as [-> Hlen] by lia.
      destruct (Hj32 eq_refl) as [-> Hm]. split; [intros [= <-]; by split_and!|]. by intros (-> & _).
  - split; [done|]. intros (_ & _ & _ & H26' & Hm). specialize (Hconv ltac:(congruence) Hm). done.
Qed.

(** For scripts up to 2^26 bytes the accurate count of signature operations is
    never above the legacy count, which is at most 20 per byte. *)
Theorem sigop_count_bounds s : Z.of_nat (length s) <= 2 ^ 26 →
  0 <= GetSigOpCount s true <= GetSigOpCount s false ∧ GetSigOpCount s false <= 20 * size s.
Proof.
  intros Hl. unfold GetSigOpCount, size.
  destruct (GetSigOpCount_loop_bounds (length s) s OP_INVALIDOPCODE 0 0) as [? ?]; lia.
Qed.

Lemma sigop_count_bounds_witness :
  GetSigOpCount [OP_2; OP_2; OP_CHECKMULTISIG] true = 2 ∧
  0 <= GetSigOpCount [OP_2; OP_2; OP_CHECKMULTISIG] true <= GetSigOpCount [OP_2; OP_2; OP_CHECKMULTISIG] false.
Proof. split; [reflexivity|]. apply sigop_count_bounds. vm_compute. discriminate. Defined.
