(* ===== verification/OpNames.v ===== *)
(** * Names of opcodes: src/src/script/script.h and script.cpp

    The enumeration [opcodetype] as a table of its constants, and [GetOpName],
    which prints an opcode. *)

From stdpp Require Import strings pretty.
From S2P Require Import Prelude Serialize Transaction Script.

Local Open Scope string_scope.
Local Open Scope Z_scope.

(** The constants of the enumeration in their order. *)
Definition opcodetype_constants : list (string * opcodetype) := [
  ("OP_0", OP_0); ("OP_FALSE", OP_FALSE); ("OP_PUSHDATA1", OP_PUSHDATA1);
  ("OP_PUSHDATA2", OP_PUSHDATA2); ("OP_PUSHDATA4", OP_PUSHDATA4); ("OP_1NEGATE", OP_1NEGATE);
  ("OP_RESERVED", OP_RESERVED); ("OP_1", OP_1); ("OP_2", OP_2);
  ("OP_3", OP_3); ("OP_4", OP_4); ("OP_5", OP_5);
  ("OP_6", OP_6); ("OP_7", OP_7); ("OP_8", OP_8);
  ("OP_9", OP_9); ("OP_10", OP_10); ("OP_11", OP_11);
  ("OP_12", OP_12); ("OP_13", OP_13); ("OP_14", OP_14);
  ("OP_15", OP_15); ("OP_16", OP_16); ("OP_NOP", OP_NOP);
  ("OP_VER", OP_VER); ("OP_IF", OP_IF); ("OP_NOTIF", OP_NOTIF);
  ("OP_VERIF", OP_VERIF); ("OP_VERNOTIF", OP_VERNOTIF); ("OP_ELSE", OP_ELSE);
  ("OP_ENDIF", OP_ENDIF); ("OP_VERIFY", OP_VERIFY); ("OP_RETURN", OP_RETURN);
  ("OP_TOALTSTACK", OP_TOALTSTACK); ("OP_FROMALTSTACK", OP_FROMALTSTACK); ("OP_2DROP", OP_2DROP);
  ("OP_2DUP", OP_2DUP); ("OP_3DUP", OP_3DUP); ("OP_2OVER", OP_2OVER);
  ("OP_2ROT", OP_2ROT); ("OP_2SWAP", OP_2SWAP); ("OP_IFDUP", OP_IFDUP);
  ("OP_DEPTH", OP_DEPTH); ("OP_DROP", OP_DROP); ("OP_DUP", OP_DUP);
  ("OP_NIP", OP_NIP); ("OP_OVER", OP_OVER); ("OP_PICK", OP_PICK);
  ("OP_ROLL", OP_ROLL); ("OP_ROT", OP_ROT); ("OP_SWAP", OP_SWAP);
  ("OP_TUCK", OP_TUCK); ("OP_CAT", OP_CAT); ("OP_SUBSTR", OP_SUBSTR);
  ("OP_LEFT", OP_LEFT); ("OP_RIGHT", OP_RIGHT); ("OP_SIZE", OP_SIZE);
  ("OP_INVERT", OP_INVERT); ("OP_AND", OP_AND); ("OP_OR", OP_OR);
  ("OP_XOR", OP_XOR); ("OP_EQUAL", OP_EQUAL); ("OP_EQUALVERIFY", OP_EQUALVERIFY);
  ("OP_RESERVED1", OP_RESERVED1); ("OP_RESERVED2", OP_RESERVED2); ("OP_1ADD", OP_1ADD);
  ("OP_1SUB", OP_1SUB); ("OP_2MUL", OP_2MUL); ("OP_2DIV", OP_2DIV);
  ("OP_NEGATE", OP_NEGATE); ("OP_ABS", OP_ABS); ("OP_NOT", OP_NOT);
  ("OP_0NOTEQUAL", OP_0NOTEQUAL); ("OP_ADD", OP_ADD); ("OP_SUB", OP_SUB);
  ("OP_MUL", OP_MUL); ("OP_DIV", OP_DIV); ("OP_MOD", OP_MOD);
  ("OP_LSHIFT", OP_LSHIFT); ("OP_RSHIFT", OP_RSHIFT); ("OP_BOOLAND", OP_BOOLAND);
  ("OP_BOOLOR", OP_BOOLOR); ("OP_NUMEQUAL", OP_NUMEQUAL); ("OP_NUMEQUALVERIFY", OP_NUMEQUALVERIFY);
  ("OP_NUMNOTEQUAL", OP_NUMNOTEQUAL); ("OP_LESSTHAN", OP_LESSTHAN); ("OP_GREATERTHAN", OP_GREATERTHAN);
  ("OP_LESSTHANOREQUAL", OP_LESSTHANOREQUAL); ("OP_GREATERTHANOREQUAL", OP_GREATERTHANOREQUAL); ("OP_MIN", OP_MIN);
  ("OP_MAX", OP_MAX); ("OP_WITHIN", OP_WITHIN); ("OP_RIPEMD160", OP_RIPEMD160);
  ("OP_SHA1", OP_SHA1); ("OP_SHA256", OP_SHA256); ("OP_HASH160", OP_HASH160);
  ("OP_HASH256", OP_HASH256); ("OP_CODESEPARATOR", OP_CODESEPARATOR); ("OP_CHECKSIG", OP_CHECKSIG);
  ("OP_CHECKSIGVERIFY", OP_CHECKSIGVERIFY); ("OP_CHECKMULTISIG", OP_CHECKMULTISIG); ("OP_CHECKMULTISIGVERIFY", OP_CHECKMULTISIGVERIFY);
  ("OP_NOP1", OP_NOP1); ("OP_CHECKLOCKTIMEVERIFY", OP_CHECKLOCKTIMEVERIFY); ("OP_NOP2", OP_NOP2);
  ("OP_CHECKSEQUENCEVERIFY", OP_CHECKSEQUENCEVERIFY); ("OP_NOP3", OP_NOP3); ("OP_NOP4", OP_NOP4);
  ("OP_NOP5", OP_NOP5); ("OP_NOP6", OP_NOP6); ("OP_NOP7", OP_NOP7);
  ("OP_NOP8", OP_NOP8); ("OP_NOP9", OP_NOP9); ("OP_NOP10", OP_NOP10);
  ("OP_PHI_ASSET", OP_PHI_ASSET); ("OP_SMALLINTEGER", OP_SMALLINTEGER); ("OP_PUBKEYS", OP_PUBKEYS);
  ("OP_PUBKEYHASH", OP_PUBKEYHASH); ("OP_PUBKEY", OP_PUBKEY); ("OP_INVALIDOPCODE", OP_INVALIDOPCODE)
].

Definition GetOpName (opcode : opcodetype) : string :=
  match opcode with
  (* push value *)
  | OP_0 => "0"
  | OP_PUSHDATA1 => "OP_PUSHDATA1"
  | OP_PUSHDATA2 => "OP_PUSHDATA2"
  | OP_PUSHDATA4 => "OP_PUSHDATA4"
  | OP_1NEGATE => "-1"
  | OP_RESERVED => "OP_RESERVED"
  | OP_1 => "1"
  | OP_2 => "2"
  | OP_3 => "3"
  | OP_4 => "4"
  | OP_5 => "5"
  | OP_6 => "6"
  | OP_7 => "7"
  | OP_8 => "8"
  | OP_9 => "9"
  | OP_10 => "10"
  | OP_11 => "11"
  | OP_12 => "12"
  | OP_13 => "13"
  | OP_14 => "14"
  | OP_15 => "15"
  | OP_16 => "16"
  (* control *)
  | OP_NOP => "OP_NOP"
  | OP_VER => "OP_VER"
  | OP_IF => "OP_IF"
  | OP_NOTIF => "OP_NOTIF"
  | OP_VERIF => "OP_VERIF"
  | OP_VERNOTIF => "OP_VERNOTIF"
  | OP_ELSE => "OP_ELSE"
  | OP_ENDIF => "OP_ENDIF"
  | OP_VERIFY => "OP_VERIFY"
  | OP_RETURN => "OP_RETURN"
  (* stack ops *)
  | OP_TOALTSTACK => "OP_TOALTSTACK"
  | OP_FROMALTSTACK => "OP_FROMALTSTACK"
  | OP_2DROP => "OP_2DROP"
  | OP_2DUP => "OP_2DUP"
  | OP_3DUP => "OP_3DUP"
  | OP_2OVER => "OP_2OVER"
  | OP_2ROT => "OP_2ROT"
  | OP_2SWAP => "OP_2SWAP"
  | OP_IFDUP => "OP_IFDUP"
  | OP_DEPTH => "OP_DEPTH"
  | OP_DROP => "OP_DROP"
  | OP_DUP => "OP_DUP"
  | OP_NIP => "OP_NIP"
  | OP_OVER => "OP_OVER"
  | OP_PICK => "OP_PICK"
  | OP_ROLL => "OP_ROLL"
  | OP_ROT => "OP_ROT"
  | OP_SWAP => "OP_SWAP"
  | OP_TUCK => "OP_TUCK"
  (* splice ops *)
  | OP_CAT => "OP_CAT"
  | OP_SUBSTR => "OP_SUBSTR"
  | OP_LEFT => "OP_LEFT"
  | OP_RIGHT => "OP_RIGHT"
  | OP_SIZE => "OP_SIZE"
  (* bit logic *)
  | OP_INVERT => "OP_INVERT"
  | OP_AND => "OP_AND"
  | OP_OR => "OP_OR"
  | OP_XOR => "OP_XOR"
  | OP_EQUAL => "OP_EQUAL"
  | OP_EQUALVERIFY => "OP_EQUALVERIFY"
  | OP_RESERVED1 => "OP_RESERVED1"
  | OP_RESERVED2 => "OP_RESERVED2"
  (* numeric *)
  | OP_1ADD => "OP_1ADD"
  | OP_1SUB => "OP_1SUB"
  | OP_2MUL => "OP_2MUL"
  | OP_2DIV => "OP_2DIV"
  | OP_NEGATE => "OP_NEGATE"
  | OP_ABS => "OP_ABS"
  | OP_NOT => "OP_NOT"
  | OP_0NOTEQUAL => "OP_0NOTEQUAL"
  | OP_ADD => "OP_ADD"
  | OP_SUB => "OP_SUB"
  | OP_MUL => "OP_MUL"
  | OP_DIV => "OP_DIV"
  | OP_MOD => "OP_MOD"
  | OP_LSHIFT => "OP_LSHIFT"
  | OP_RSHIFT => "OP_RSHIFT"
  | OP_BOOLAND => "OP_BOOLAND"
  | OP_BOOLOR => "OP_BOOLOR"
  | OP_NUMEQUAL => "OP_NUMEQUAL"
  | OP_NUMEQUALVERIFY => "OP_NUMEQUALVERIFY"
  | OP_NUMNOTEQUAL => "OP_NUMNOTEQUAL"
  | OP_LESSTHAN => "OP_LESSTHAN"
  | OP_GREATERTHAN => "OP_GREATERTHAN"
  | OP_LESSTHANOREQUAL => "OP_LESSTHANOREQUAL"
  | OP_GREATERTHANOREQUAL => "OP_GREATERTHANOREQUAL"
  | OP_MIN => "OP_MIN"
  | OP_MAX => "OP_MAX"
  | OP_WITHIN => "OP_WITHIN"
  (* crypto *)
  | OP_RIPEMD160 => "OP_RIPEMD160"
  | OP_SHA1 => "OP_SHA1"
  | OP_SHA256 => "OP_SHA256"
  | OP_HASH160 => "OP_HASH160"
  | OP_HASH256 => "OP_HASH256"
  | OP_CODESEPARATOR => "OP_CODESEPARATOR"
  | OP_CHECKSIG => "OP_CHECKSIG"
  | OP_CHECKSIGVERIFY => "OP_CHECKSIGVERIFY"
  | OP_CHECKMULTISIG => "OP_CHECKMULTISIG"
  | OP_CHECKMULTISIGVERIFY => "OP_CHECKMULTISIGVERIFY"
  (* expansion *)
  | OP_NOP1 => "OP_NOP1"
  | OP_CHECKLOCKTIMEVERIFY => "OP_CHECKLOCKTIMEVERIFY"
  | OP_CHECKSEQUENCEVERIFY => "OP_CHECKSEQUENCEVERIFY"
  | OP_NOP4 => "OP_NOP4"
  | OP_NOP5 => "OP_NOP5"
  | OP_NOP6 => "OP_NOP6"
  | OP_NOP7 => "OP_NOP7"
  | OP_NOP8 => "OP_NOP8"
  | OP_NOP9 => "OP_NOP9"
  | OP_NOP10 => "OP_NOP10"
  | OP_PHI_ASSET => "OP_PHI_ASSET"
  | OP_INVALIDOPCODE => "OP_INVALIDOPCODE"
  | _ => "OP_UNKNOWN"
  end.

(** ** Lemmas *)

Definition all_opcodes : list Z := seqZ 0 256.

(** No two opcodes print alike, apart from the unknown ones. *)
Lemma GetOpName_injective o1 o2 : o1 ∈ all_opcodes → o2 ∈ all_opcodes →
  GetOpName o1 = GetOpName o2 → GetOpName o1 = "OP_UNKNOWN" ∨ o1 = o2.
Proof.
  intros H1 H2 He.
  assert (forallb (λ a, forallb (λ b, negb (String.eqb (GetOpName a) (GetOpName b)) ||
    String.eqb (GetOpName a) "OP_UNKNOWN" || (a =? b)) all_opcodes) all_opcodes = true) as Hall
    by (vm_compute; reflexivity).
  rewrite forallb_forall in Hall. specialize (Hall o1 (proj1 (list_elem_of_In _ _) H1)).
  rewrite forallb_forall in Hall. specialize (Hall o2 (proj1 (list_elem_of_In _ _) H2)).
  rewrite He, String.eqb_refl in Hall. cbn [negb orb] in Hall.
  apply orb_prop in Hall as [Hn|Hn]; [left; rewrite He; by apply String.eqb_eq|right; by apply Z.eqb_eq].
Qed.

(** Every constant of the enumeration that is not an alias or a template
    parameter prints as its own name, or as the number it pushes. *)
Lemma GetOpName_constants : Forall (λ c, GetOpName c.2 = c.1 ∨
    (∃ n, DecodeOP_N c.2 = Some n ∧ GetOpName c.2 = pretty n) ∨
    c.1 ∈ ["OP_FALSE"; "OP_TRUE"; "OP_1NEGATE"; "OP_NOP2"; "OP_NOP3";
           "OP_SMALLINTEGER"; "OP_PUBKEYS"; "OP_PUBKEYHASH"; "OP_PUBKEY"]) opcodetype_constants.
Proof.
  unfold opcodetype_constants.
  repeat (apply Forall_cons; split); [..|by apply Forall_nil]; cbn [fst snd]; first [left; reflexivity|right; left; eexists; split; reflexivity|
    right; right; apply (bool_decide_unpack _); vm_compute; exact I].
Qed.
