(* ===== verification/Interpreter.v ===== *)
(** * The script interpreter: src/src/script/interpreter.{h,cpp}

    [EvalScript] is a loop over the operations of a script; each [case] of the
    source's [switch] is one definition on the evaluation state.  A stack is
    stored with its top at the head, so [stacktop(-i)] is the [i]-th element.
    Hash functions, signature verification and the low-S test are the operations
    of the class [Crypto]; the virtual methods of [BaseSignatureChecker] are the
    class [SignatureChecker]. *)

From S2P Require Import Prelude Serialize Transaction Script.

(** ** Errors, flags, interfaces *)

Inductive ScriptError :=
| SCRIPT_ERR_OK | SCRIPT_ERR_UNKNOWN_ERROR | SCRIPT_ERR_EVAL_FALSE | SCRIPT_ERR_OP_RETURN
| SCRIPT_ERR_SCRIPT_SIZE | SCRIPT_ERR_PUSH_SIZE | SCRIPT_ERR_OP_COUNT | SCRIPT_ERR_STACK_SIZE
| SCRIPT_ERR_SIG_COUNT | SCRIPT_ERR_PUBKEY_COUNT
| SCRIPT_ERR_VERIFY | SCRIPT_ERR_EQUALVERIFY | SCRIPT_ERR_CHECKMULTISIGVERIFY
| SCRIPT_ERR_CHECKSIGVERIFY | SCRIPT_ERR_NUMEQUALVERIFY
| SCRIPT_ERR_BAD_OPCODE | SCRIPT_ERR_DISABLED_OPCODE | SCRIPT_ERR_INVALID_STACK_OPERATION
| SCRIPT_ERR_INVALID_ALTSTACK_OPERATION | SCRIPT_ERR_UNBALANCED_CONDITIONAL
| SCRIPT_ERR_NEGATIVE_LOCKTIME | SCRIPT_ERR_UNSATISFIED_LOCKTIME
| SCRIPT_ERR_SIG_HASHTYPE | SCRIPT_ERR_SIG_DER | SCRIPT_ERR_MINIMALDATA | SCRIPT_ERR_SIG_PUSHONLY
| SCRIPT_ERR_SIG_HIGH_S | SCRIPT_ERR_SIG_NULLDUMMY | SCRIPT_ERR_PUBKEYTYPE | SCRIPT_ERR_CLEANSTACK
| SCRIPT_ERR_MINIMALIF | SCRIPT_ERR_SIG_NULLFAIL
| SCRIPT_ERR_DISCOURAGE_UPGRADABLE_NOPS | SCRIPT_ERR_DISCOURAGE_UPGRADABLE_WITNESS_PROGRAM
| SCRIPT_ERR_WITNESS_PROGRAM_WRONG_LENGTH | SCRIPT_ERR_WITNESS_PROGRAM_WITNESS_EMPTY
| SCRIPT_ERR_WITNESS_PROGRAM_MISMATCH | SCRIPT_ERR_WITNESS_MALLEATED | SCRIPT_ERR_WITNESS_MALLEATED_P2SH
| SCRIPT_ERR_WITNESS_UNEXPECTED | SCRIPT_ERR_WITNESS_PUBKEYTYPE.

(** [return set_error(...)], a failed [assert], or a loop bound reached. *)
Inductive script_failure := Fail (e : ScriptError) | Abort | OutOfFuel.

Definition SIGHASH_ALL : Z := 1.
Definition SIGHASH_NONE : Z := 2.
Definition SIGHASH_SINGLE : Z := 3.
Definition SIGHASH_ANYONECANPAY : Z := 0x80.

Definition SCRIPT_VERIFY_P2SH : Z := Z.shiftl 1 0.
Definition SCRIPT_VERIFY_STRICTENC : Z := Z.shiftl 1 1.
Definition SCRIPT_VERIFY_DERSIG : Z := Z.shiftl 1 2.
Definition SCRIPT_VERIFY_LOW_S : Z := Z.shiftl 1 3.
Definition SCRIPT_VERIFY_NULLDUMMY : Z := Z.shiftl 1 4.
Definition SCRIPT_VERIFY_SIGPUSHONLY : Z := Z.shiftl 1 5.
Definition SCRIPT_VERIFY_MINIMALDATA : Z := Z.shiftl 1 6.
Definition SCRIPT_VERIFY_DISCOURAGE_UPGRADABLE_NOPS : Z := Z.shiftl 1 7.
Definition SCRIPT_VERIFY_CLEANSTACK : Z := Z.shiftl 1 8.
Definition SCRIPT_VERIFY_CHECKLOCKTIMEVERIFY : Z := Z.shiftl 1 9.
Definition SCRIPT_VERIFY_CHECKSEQUENCEVERIFY : Z := Z.shiftl 1 10.
Definition SCRIPT_VERIFY_WITNESS : Z := Z.shiftl 1 11.
Definition SCRIPT_VERIFY_DISCOURAGE_UPGRADABLE_WITNESS_PROGRAM : Z := Z.shiftl 1 12.
Definition SCRIPT_VERIFY_MINIMALIF : Z := Z.shiftl 1 13.
Definition SCRIPT_VERIFY_NULLFAIL : Z := Z.shiftl 1 14.
Definition SCRIPT_VERIFY_WITNESS_PUBKEYTYPE : Z := Z.shiftl 1 15.

Inductive SigVersion := SIGVERSION_BASE | SIGVERSION_WITNESS_V0.
#[global] Instance SigVersion_eq_dec : EqDecision SigVersion.
Proof. solve_decision. Defined.

Abbreviation valtype := (list Z).

(** What the interpreter needs of the cryptographic code: the hashers, with the
    lengths of what they write, [CPubKey::CheckLowS] and [CPubKey::Verify]. *)
Class Crypto := {
  CRIPEMD160 : valtype → valtype;
  CSHA1 : valtype → valtype;
  CSHA256 : valtype → valtype;
  CheckLowS : valtype → bool;
  PubKey_Verify : valtype → uint256 → valtype → bool;   (* key, hash, signature *)
  ripemd160_output : ∀ m, length (CRIPEMD160 m) = 20%nat ∧ bytes_ok (CRIPEMD160 m);
  sha1_output : ∀ m, length (CSHA1 m) = 20%nat ∧ bytes_ok (CSHA1 m);
  sha256_output : ∀ m, length (CSHA256 m) = 32%nat ∧ bytes_ok (CSHA256 m)
}.

(** [BaseSignatureChecker] *)
Class SignatureChecker := {
  CheckSig : valtype → valtype → CScript → SigVersion → bool;   (* signature, key, code *)
  CheckLockTime : Z → bool;
  CheckSequence : Z → bool
}.
Definition BaseSignatureChecker : SignatureChecker :=
  {| CheckSig _ _ _ _ := false; CheckLockTime _ := false; CheckSequence _ := false |}.

Definition CHash160 `{Crypto} (m : valtype) : valtype := CRIPEMD160 (CSHA256 m).
Definition CHash256 `{Crypto} (m : valtype) : valtype := CSHA256 (CSHA256 m).

(** ** Booleans and encodings *)

Fixpoint CastToBool (vch : valtype) : bool :=
  match vch with
  | [] => false
  | b :: rest =>
      if negb (b =? 0) then
        match rest with [] => negb (b =? 0x80) | _ => true end
      else CastToBool rest
  end.

Definition IsCompressedOrUncompressedPubKey (vchPubKey : valtype) : bool :=
  if size vchPubKey <? 33 then false
  else if at_ vchPubKey 0 =? 0x04 then size vchPubKey =? 65
  else if (at_ vchPubKey 0 =? 0x02) || (at_ vchPubKey 0 =? 0x03) then size vchPubKey =? 33
  else false.

Definition IsCompressedPubKey (vchPubKey : valtype) : bool :=
  (size vchPubKey =? 33) && ((at_ vchPubKey 0 =? 0x02) || (at_ vchPubKey 0 =? 0x03)).

Definition IsValidSignatureEncoding (sig : valtype) : bool :=
  let lenR := at_ sig 3 in
  let lenS := at_ sig (Z.to_nat (5 + lenR)) in
  if size sig <? 9 then false
  else if size sig >? 73 then false
  else if negb (at_ sig 0 =? 0x30) then false
  else if negb (at_ sig 1 =? size sig - 3) then false
  else if 5 + lenR >=? size sig then false
  else if negb (lenR + lenS + 7 =? size sig) then false
  else if negb (at_ sig 2 =? 0x02) then false
  else if lenR =? 0 then false
  else if negb (Z.land (at_ sig 4) 0x80 =? 0) then false
  else if (lenR >? 1) && (at_ sig 4 =? 0x00) && (Z.land (at_ sig 5) 0x80 =? 0) then false
  else if negb (at_ sig (Z.to_nat (lenR + 4)) =? 0x02) then false
  else if lenS =? 0 then false
  else if negb (Z.land (at_ sig (Z.to_nat (lenR + 6))) 0x80 =? 0) then false
  else if (lenS >? 1) && (at_ sig (Z.to_nat (lenR + 6)) =? 0x00)
            && (Z.land (at_ sig (Z.to_nat (lenR + 7))) 0x80 =? 0) then false
  else true.

Definition IsLowDERSignature `{Crypto} (vchSig : valtype) : result script_failure unit :=
  if negb (IsValidSignatureEncoding vchSig) then Err (Fail SCRIPT_ERR_SIG_DER)
  else if negb (CheckLowS (removelast vchSig)) then Err (Fail SCRIPT_ERR_SIG_HIGH_S)
  else Ok tt.

Definition IsDefinedHashtypeSignature (vchSig : valtype) : bool :=
  if size vchSig =? 0 then false
  else
    let nHashType := u8 (Z.land (List.last vchSig 0) (Z.lnot SIGHASH_ANYONECANPAY)) in
    negb ((nHashType <? SIGHASH_ALL) || (nHashType >? SIGHASH_SINGLE)).

Definition CheckSignatureEncoding `{Crypto} (vchSig : valtype) (flags : Z) : result script_failure unit :=
  if size vchSig =? 0 then Ok tt
  else if flag_set flags (Z.lor (Z.lor SCRIPT_VERIFY_DERSIG SCRIPT_VERIFY_LOW_S) SCRIPT_VERIFY_STRICTENC)
            && negb (IsValidSignatureEncoding vchSig) then Err (Fail SCRIPT_ERR_SIG_DER)
  else
    let? _ := (if flag_set flags SCRIPT_VERIFY_LOW_S then IsLowDERSignature vchSig else Ok tt) in
    if flag_set flags SCRIPT_VERIFY_STRICTENC && negb (IsDefinedHashtypeSignature vchSig)
    then Err (Fail SCRIPT_ERR_SIG_HASHTYPE)
    else Ok tt.

Definition CheckPubKeyEncoding (vchPubKey : valtype) (flags : Z) (sigversion : SigVersion)
    : result script_failure unit :=
  if flag_set flags SCRIPT_VERIFY_STRICTENC && negb (IsCompressedOrUncompressedPubKey vchPubKey)
  then Err (Fail SCRIPT_ERR_PUBKEYTYPE)
  else if flag_set flags SCRIPT_VERIFY_WITNESS_PUBKEYTYPE && bool_decide (sigversion = SIGVERSION_WITNESS_V0)
            && negb (IsCompressedPubKey vchPubKey)
  then Err (Fail SCRIPT_ERR_WITNESS_PUBKEYTYPE)
  else Ok tt.

Definition CheckMinimalPush (data : valtype) (opcode : Z) : bool :=
  if size data =? 0 then opcode =? OP_0
  else if (size data =? 1) && (at_ data 0 >=? 1) && (at_ data 0 <=? 16) then opcode =? OP_1 + (at_ data 0 - 1)
  else if (size data =? 1) && (at_ data 0 =? 0x81) then opcode =? OP_1NEGATE
  else if size data <=? 75 then opcode =? size data
  else if size data <=? 255 then opcode =? OP_PUSHDATA1
  else if size data <=? 65535 then opcode =? OP_PUSHDATA2
  else true.

(** ** The evaluation state *)

Record eval_state := mkEval {
  st_stack : list valtype;
  st_altstack : list valtype;
  st_vfExec : list bool;            (* innermost conditional first *)
  st_pbegincodehash : CScript;
  st_nOpCount : Z
}.

Definition set_stack (st : eval_state) (s : list valtype) : eval_state :=
  mkEval s (st_altstack st) (st_vfExec st) (st_pbegincodehash st) (st_nOpCount st).
Definition set_stacks (st : eval_state) (s a : list valtype) : eval_state :=
  mkEval s a (st_vfExec st) (st_pbegincodehash st) (st_nOpCount st).
Definition set_vfExec (st : eval_state) (v : list bool) : eval_state :=
  mkEval (st_stack st) (st_altstack st) v (st_pbegincodehash st) (st_nOpCount st).
Definition set_codehash (st : eval_state) (pc : CScript) : eval_state :=
  mkEval (st_stack st) (st_altstack st) (st_vfExec st) pc (st_nOpCount st).
Definition set_nOpCount (st : eval_state) (n : Z) : eval_state :=
  mkEval (st_stack st) (st_altstack st) (st_vfExec st) (st_pbegincodehash st) n.

Abbreviation eval_result := (result script_failure eval_state).
Abbreviation fail e := (Err (Fail e)).

Definition vchFalse : valtype := [].
Definition vchTrue : valtype := [1].
Definition bool_vch (b : bool) : valtype := if b then vchTrue else vchFalse.

(** A stack element as a number; a thrown [scriptnum_error] ends the evaluation. *)
Definition to_num (vch : valtype) (fRequireMinimal : bool) (nMaxNumSize : Z) : result script_failure Z :=
  match CScriptNum vch fRequireMinimal nMaxNumSize with
  | Some n => Ok n
  | None => fail SCRIPT_ERR_UNKNOWN_ERROR
  end.

(** [operator+=], [operator-=] and unary minus with their assertions. *)
Definition num_add (m_value rhs : Z) : result script_failure Z :=
  if (rhs =? 0) || ((rhs >? 0) && (m_value <=? 2 ^ 63 - 1 - rhs)) || ((rhs <? 0) && (m_value >=? - 2 ^ 63 - rhs))
  then Ok (m_value + rhs) else Err Abort.
Definition num_sub (m_value rhs : Z) : result script_failure Z :=
  if (rhs =? 0) || ((rhs >? 0) && (m_value >=? - 2 ^ 63 + rhs)) || ((rhs <? 0) && (m_value <=? 2 ^ 63 - 1 + rhs))
  then Ok (m_value - rhs) else Err Abort.
Definition num_neg (m_value : Z) : result script_failure Z :=
  if m_value =? - 2 ^ 63 then Err Abort else Ok (- m_value).
Definition num_of_bool (b : bool) : Z := if b then 1 else 0.

(** ** One definition per group of opcodes *)

Section Eval.
Context `{Crypto} `{SignatureChecker}.
Variable flags : Z.
Variable sigversion : SigVersion.

Definition fRequireMinimal : bool := flag_set flags SCRIPT_VERIFY_MINIMALDATA.
Definition num (vch : valtype) : result script_failure Z := to_num vch fRequireMinimal nDefaultMaxNumSize.

(** [OP_1NEGATE], [OP_1] to [OP_16] *)
Definition op_small_int (opcode : Z) (st : eval_state) : eval_result :=
  Ok (set_stack st (serialize (opcode - (OP_1 - 1)) :: st_stack st)).

(** A disabled or reserved no-op. *)
Definition op_upgradable_nop (st : eval_state) : eval_result :=
  if flag_set flags SCRIPT_VERIFY_DISCOURAGE_UPGRADABLE_NOPS
  then fail SCRIPT_ERR_DISCOURAGE_UPGRADABLE_NOPS else Ok st.

Definition op_checklocktimeverify (st : eval_state) : eval_result :=
  if negb (flag_set flags SCRIPT_VERIFY_CHECKLOCKTIMEVERIFY) then op_upgradable_nop st
  else
    match st_stack st with
    | [] => fail SCRIPT_ERR_INVALID_STACK_OPERATION
    | top :: _ =>
        let? nLockTime := to_num top fRequireMinimal 5 in
        if nLockTime <? 0 then fail SCRIPT_ERR_NEGATIVE_LOCKTIME
        else if negb (CheckLockTime nLockTime) then fail SCRIPT_ERR_UNSATISFIED_LOCKTIME
        else Ok st
    end.

Definition op_checksequenceverify (st : eval_state) : eval_result :=
  if negb (flag_set flags SCRIPT_VERIFY_CHECKSEQUENCEVERIFY) then op_upgradable_nop st
  else
    match st_stack st with
    | [] => fail SCRIPT_ERR_INVALID_STACK_OPERATION
    | top :: _ =>
        let? nSequence := to_num top fRequireMinimal 5 in
        if nSequence <? 0 then fail SCRIPT_ERR_NEGATIVE_LOCKTIME
        else if negb (Z.land nSequence SEQUENCE_LOCKTIME_DISABLE_FLAG =? 0) then Ok st
        else if negb (CheckSequence nSequence) then fail SCRIPT_ERR_UNSATISFIED_LOCKTIME
        else Ok st
    end.

(** [OP_IF], [OP_NOTIF] *)
Definition op_if (fExec : bool) (opcode : Z) (st : eval_state) : eval_result :=
  if fExec then
    match st_stack st with
    | [] => fail SCRIPT_ERR_UNBALANCED_CONDITIONAL
    | vch :: rest =>
        let minimalif := bool_decide (sigversion = SIGVERSION_WITNESS_V0)
                         && flag_set flags SCRIPT_VERIFY_MINIMALIF in
        if minimalif && (size vch >? 1) then fail SCRIPT_ERR_MINIMALIF
        else if minimalif && (size vch =? 1) && negb (at_ vch 0 =? 1) then fail SCRIPT_ERR_MINIMALIF
        else
          let fValue := CastToBool vch in
          let fValue := if opcode =? OP_NOTIF then negb fValue else fValue in
          Ok (set_vfExec (set_stack st rest) (fValue :: st_vfExec st))
    end
  else Ok (set_vfExec st (false :: st_vfExec st)).

Definition op_else (st : eval_state) : eval_result :=
  match st_vfExec st with
  | [] => fail SCRIPT_ERR_UNBALANCED_CONDITIONAL
  | b :: rest => Ok (set_vfExec st (negb b :: rest))
  end.

Definition op_endif (st : eval_state) : eval_result :=
  match st_vfExec st with
  | [] => fail SCRIPT_ERR_UNBALANCED_CONDITIONAL
  | _ :: rest => Ok (set_vfExec st rest)
  end.

Definition op_verify (st : eval_state) : eval_result :=
  match st_stack st with
  | [] => fail SCRIPT_ERR_INVALID_STACK_OPERATION
  | top :: rest => if CastToBool top then Ok (set_stack st rest) else fail SCRIPT_ERR_VERIFY
  end.

Definition op_toaltstack (st : eval_state) : eval_result :=
  match st_stack st with
  | [] => fail SCRIPT_ERR_INVALID_STACK_OPERATION
  | top :: rest => Ok (set_stacks st rest (top :: st_altstack st))
  end.

Definition op_fromaltstack (st : eval_state) : eval_result :=
  match st_altstack st with
  | [] => fail SCRIPT_ERR_INVALID_ALTSTACK_OPERATION
  | top :: rest => Ok (set_stacks st (top :: st_stack st) rest)
  end.

(** Operations that only move elements; comments as in the source, bottom first. *)
Definition op_2drop (st : eval_state) : eval_result :=   (* x1 x2 -- *)
  match st_stack st with
  | _ :: _ :: rest => Ok (set_stack st rest)
  | _ => fail SCRIPT_ERR_INVALID_STACK_OPERATION
  end.
Definition op_2dup (st : eval_state) : eval_result :=   (* x1 x2 -- x1 x2 x1 x2 *)
  match st_stack st with
  | x2 :: x1 :: rest => Ok (set_stack st (x2 :: x1 :: x2 :: x1 :: rest))
  | _ => fail SCRIPT_ERR_INVALID_STACK_OPERATION
  end.
Definition op_3dup (st : eval_state) : eval_result :=   (* x1 x2 x3 -- x1 x2 x3 x1 x2 x3 *)
  match st_stack st with
  | x3 :: x2 :: x1 :: rest => Ok (set_stack st (x3 :: x2 :: x1 :: x3 :: x2 :: x1 :: rest))
  | _ => fail SCRIPT_ERR_INVALID_STACK_OPERATION
  end.
Definition op_2over (st : eval_state) : eval_result :=   (* x1 x2 x3 x4 -- x1 x2 x3 x4 x1 x2 *)
  match st_stack st with
  | x4 :: x3 :: x2 :: x1 :: rest => Ok (set_stack st (x2 :: x1 :: x4 :: x3 :: x2 :: x1 :: rest))
  | _ => fail SCRIPT_ERR_INVALID_STACK_OPERATION
  end.
Definition op_2rot (st : eval_state) : eval_result :=   (* x1 x2 x3 x4 x5 x6 -- x3 x4 x5 x6 x1 x2 *)
  match st_stack st with
  | x6 :: x5 :: x4 :: x3 :: x2 :: x1 :: rest =>
      Ok (set_stack st (x2 :: x1 :: x6 :: x5 :: x4 :: x3 :: rest))
  | _ => fail SCRIPT_ERR_INVALID_STACK_OPERATION
  end.
Definition op_2swap (st : eval_state) : eval_result :=   (* x1 x2 x3 x4 -- x3 x4 x1 x2 *)
  match st_stack st with
  | x4 :: x3 :: x2 :: x1 :: rest => Ok (set_stack st (x2 :: x1 :: x4 :: x3 :: rest))
  | _ => fail SCRIPT_ERR_INVALID_STACK_OPERATION
  end.
Definition op_ifdup (st : eval_state) : eval_result :=   (* x - 0 | x x *)
  match st_stack st with
  | x :: rest => Ok (set_stack st (if CastToBool x then x :: x :: rest else x :: rest))
  | _ => fail SCRIPT_ERR_INVALID_STACK_OPERATION
  end.
Definition op_depth (st : eval_state) : eval_result :=   (* -- stacksize *)
  Ok (set_stack st (serialize (size (st_stack st)) :: st_stack st)).
Definition op_drop (st : eval_state) : eval_result :=   (* x -- *)
  match st_stack st with
  | _ :: rest => Ok (set_stack st rest)
  | _ => fail SCRIPT_ERR_INVALID_STACK_OPERATION
  end.
Definition op_dup (st : eval_state) : eval_result :=   (* x -- x x *)
  match st_stack st with
  | x :: rest => Ok (set_stack st (x :: x :: rest))
  | _ => fail SCRIPT_ERR_INVALID_STACK_OPERATION
  end.
Definition op_nip (st : eval_state) : eval_result :=   (* x1 x2 -- x2 *)
  match st_stack st with
  | x2 :: _ :: rest => Ok (set_stack st (x2 :: rest))
  | _ => fail SCRIPT_ERR_INVALID_STACK_OPERATION
  end.
Definition op_over (st : eval_state) : eval_result :=   (* x1 x2 -- x1 x2 x1 *)
  match st_stack st with
  | x2 :: x1 :: rest => Ok (set_stack st (x1 :: x2 :: x1 :: rest))
  | _ => fail SCRIPT_ERR_INVALID_STACK_OPERATION
  end.
Definition op_pick_roll (opcode : Z) (st : eval_state) : eval_result :=
  match st_stack st with
  | top :: ((_ :: _) as rest) =>
      let? n := num top in
      let n := getint n in
      if (n <? 0) || (n >=? size rest) then fail SCRIPT_ERR_INVALID_STACK_OPERATION
      else
        let n := Z.to_nat n in
        let vch := nth n rest [] in
        let rest := if opcode =? OP_ROLL then take n rest ++ drop (S n) rest else rest in
        Ok (set_stack st (vch :: rest))
  | _ => fail SCRIPT_ERR_INVALID_STACK_OPERATION
  end.
Definition op_rot (st : eval_state) : eval_result :=   (* x1 x2 x3 -- x2 x3 x1 *)
  match st_stack st with
  | x3 :: x2 :: x1 :: rest => Ok (set_stack st (x1 :: x3 :: x2 :: rest))
  | _ => fail SCRIPT_ERR_INVALID_STACK_OPERATION
  end.
Definition op_swap (st : eval_state) : eval_result :=   (* x1 x2 -- x2 x1 *)
  match st_stack st with
  | x2 :: x1 :: rest => Ok (set_stack st (x1 :: x2 :: rest))
  | _ => fail SCRIPT_ERR_INVALID_STACK_OPERATION
  end.
Definition op_tuck (st : eval_state) : eval_result :=   (* x1 x2 -- x2 x1 x2 *)
  match st_stack st with
  | x2 :: x1 :: rest => Ok (set_stack st (x2 :: x1 :: x2 :: rest))
  | _ => fail SCRIPT_ERR_INVALID_STACK_OPERATION
  end.
Definition op_size (st : eval_state) : eval_result :=   (* in -- in size *)
  match st_stack st with
  | x :: rest => Ok (set_stack st (serialize (size x) :: x :: rest))
  | _ => fail SCRIPT_ERR_INVALID_STACK_OPERATION
  end.

(** [OP_EQUAL], [OP_EQUALVERIFY] *)
Definition op_equal (opcode : Z) (st : eval_state) : eval_result :=
  match st_stack st with
  | x2 :: x1 :: rest =>
      let fEqual := bool_decide (x1 = x2) in
      if opcode =? OP_EQUALVERIFY then
        if fEqual then Ok (set_stack st rest) else fail SCRIPT_ERR_EQUALVERIFY
      else Ok (set_stack st (bool_vch fEqual :: rest))
  | _ => fail SCRIPT_ERR_INVALID_STACK_OPERATION
  end.

Definition unary_num (opcode bn : Z) : result script_failure Z :=
  if opcode =? OP_1ADD then num_add bn 1
  else if opcode =? OP_1SUB then num_sub bn 1
  else if opcode =? OP_NEGATE then num_neg bn
  else if opcode =? OP_ABS then (if bn <? 0 then num_neg bn else Ok bn)
  else if opcode =? OP_NOT then Ok (num_of_bool (bn =? 0))
  else if opcode =? OP_0NOTEQUAL then Ok (num_of_bool (negb (bn =? 0)))
  else Err Abort.

Definition op_unary (opcode : Z) (st : eval_state) : eval_result :=   (* in -- out *)
  match st_stack st with
  | x :: rest =>
      let? bn := num x in
      let? bn := unary_num opcode bn in
      Ok (set_stack st (serialize bn :: rest))
  | _ => fail SCRIPT_ERR_INVALID_STACK_OPERATION
  end.

Definition binary_num (opcode bn1 bn2 : Z) : result script_failure Z :=
  if opcode =? OP_ADD then Ok (i64 (bn1 + bn2))
  else if opcode =? OP_SUB then Ok (i64 (bn1 - bn2))
  else if opcode =? OP_BOOLAND then Ok (num_of_bool (negb (bn1 =? 0) && negb (bn2 =? 0)))
  else if opcode =? OP_BOOLOR then Ok (num_of_bool (negb (bn1 =? 0) || negb (bn2 =? 0)))
  else if opcode =? OP_NUMEQUAL then Ok (num_of_bool (bn1 =? bn2))
  else if opcode =? OP_NUMEQUALVERIFY then Ok (num_of_bool (bn1 =? bn2))
  else if opcode =? OP_NUMNOTEQUAL then Ok (num_of_bool (negb (bn1 =? bn2)))
  else if opcode =? OP_LESSTHAN then Ok (num_of_bool (bn1 <? bn2))
  else if opcode =? OP_GREATERTHAN then Ok (num_of_bool (bn1 >? bn2))
  else if opcode =? OP_LESSTHANOREQUAL then Ok (num_of_bool (bn1 <=? bn2))
  else if opcode =? OP_GREATERTHANOREQUAL then Ok (num_of_bool (bn1 >=? bn2))
  else if opcode =? OP_MIN then Ok (if bn1 <? bn2 then bn1 else bn2)
  else if opcode =? OP_MAX then Ok (if bn1 >? bn2 then bn1 else bn2)
  else Err Abort.

Definition op_binary (opcode : Z) (st : eval_state) : eval_result :=   (* x1 x2 -- out *)
  match st_stack st with
  | x2 :: x1 :: rest =>
      let? bn1 := num x1 in
      let? bn2 := num x2 in
      let? bn := binary_num opcode bn1 bn2 in
      if opcode =? OP_NUMEQUALVERIFY then
        if CastToBool (serialize bn) then Ok (set_stack st rest) else fail SCRIPT_ERR_NUMEQUALVERIFY
      else Ok (set_stack st (serialize bn :: rest))
  | _ => fail SCRIPT_ERR_INVALID_STACK_OPERATION
  end.

Definition op_within (st : eval_state) : eval_result :=   (* x min max -- out *)
  match st_stack st with
  | x3 :: x2 :: x1 :: rest =>
      let? bn1 := num x1 in
      let? bn2 := num x2 in
      let? bn3 := num x3 in
      Ok (set_stack st (bool_vch ((bn2 <=? bn1) && (bn1 <? bn3)) :: rest))
  | _ => fail SCRIPT_ERR_INVALID_STACK_OPERATION
  end.

Definition op_hash (opcode : Z) (st : eval_state) : eval_result :=   (* in -- hash *)
  match st_stack st with
  | vch :: rest =>
      let vchHash :=
        if opcode =? OP_RIPEMD160 then CRIPEMD160 vch
        else if opcode =? OP_SHA1 then CSHA1 vch
        else if opcode =? OP_SHA256 then CSHA256 vch
        else if opcode =? OP_HASH160 then CHash160 vch
        else CHash256 vch in
      Ok (set_stack st (vchHash :: rest))
  | _ => fail SCRIPT_ERR_INVALID_STACK_OPERATION
  end.

(** [scriptCode.FindAndDelete(CScript(vchSig))] before segregated witness *)
Definition drop_signature (scriptCode : CScript) (vchSig : valtype) : result script_failure CScript :=
  match sigversion with
  | SIGVERSION_BASE =>
      match push_data vchSig with
      | Some b => Ok (FindAndDelete scriptCode b).1
      | None => fail SCRIPT_ERR_UNKNOWN_ERROR   (* operator<< throws *)
      end
  | SIGVERSION_WITNESS_V0 => Ok scriptCode
  end.

(** [OP_CHECKSIG], [OP_CHECKSIGVERIFY] *)
Definition op_checksig (opcode : Z) (st : eval_state) : eval_result :=   (* sig pubkey -- bool *)
  match st_stack st with
  | vchPubKey :: vchSig :: rest =>
      let? scriptCode := drop_signature (st_pbegincodehash st) vchSig in
      let? _ := CheckSignatureEncoding vchSig flags in
      let? _ := CheckPubKeyEncoding vchPubKey flags sigversion in
      let fSuccess := CheckSig vchSig vchPubKey scriptCode sigversion in
      if negb fSuccess && flag_set flags SCRIPT_VERIFY_NULLFAIL && negb (size vchSig =? 0)
      then fail SCRIPT_ERR_SIG_NULLFAIL
      else if opcode =? OP_CHECKSIGVERIFY then
        if fSuccess then Ok (set_stack st rest) else fail SCRIPT_ERR_CHECKSIGVERIFY
      else Ok (set_stack st (bool_vch fSuccess :: rest))
  | _ => fail SCRIPT_ERR_INVALID_STACK_OPERATION
  end.

Fixpoint drop_signatures (scriptCode : CScript) (sigs : list valtype) : result script_failure CScript :=
  match sigs with
  | [] => Ok scriptCode
  | vchSig :: sigs =>
      let? scriptCode := drop_signature scriptCode vchSig in
      drop_signatures scriptCode sigs
  end.

(** [while (fSuccess && nSigsCount > 0)]: [keys] and [sigs] are the remaining
    ones, so [nKeysCount] and [nSigsCount] are their lengths. *)
Fixpoint multisig_loop (scriptCode : CScript) (keys sigs : list valtype) : result script_failure bool :=
  match sigs, keys with
  | [], _ => Ok true
  | _ :: _, [] => Ok false
  | vchSig :: sigs', vchPubKey :: keys' =>
      let? _ := CheckSignatureEncoding vchSig flags in
      let? _ := CheckPubKeyEncoding vchPubKey flags sigversion in
      let fOk := CheckSig vchSig vchPubKey scriptCode sigversion in
      let sigs := if fOk then sigs' else sigs in
      if size sigs >? size keys' then Ok false
      else multisig_loop scriptCode keys' sigs
  end.

(** [while (i-- > 1)]: pop [n] arguments; after a failure every signature has to
    be empty. *)
Fixpoint multisig_cleanup (n : nat) (fSuccess : bool) (ikey2 : Z) (stack : list valtype)
    : result script_failure (list valtype) :=
  match n, stack with
  | O, _ => Ok stack
  | S _, [] => fail SCRIPT_ERR_UNKNOWN_ERROR   (* popstack() throws *)
  | S n, top :: rest =>
      if negb fSuccess && flag_set flags SCRIPT_VERIFY_NULLFAIL && (ikey2 =? 0) && negb (size top =? 0)
      then fail SCRIPT_ERR_SIG_NULLFAIL
      else multisig_cleanup n fSuccess (if ikey2 >? 0 then ikey2 - 1 else ikey2) rest
  end.

(** The key and signature counts and the arguments they delimit. *)
Definition multisig_args (st : eval_state) : result script_failure (eval_state * list valtype * list valtype) :=
  let stack := st_stack st in
  if size stack <? 1 then fail SCRIPT_ERR_INVALID_STACK_OPERATION
  else
    let? nKeys := num (nth 0 stack []) in
    let nKeysCount := getint nKeys in
    if (nKeysCount <? 0) || (nKeysCount >? MAX_PUBKEYS_PER_MULTISIG) then fail SCRIPT_ERR_PUBKEY_COUNT
    else
      let st := set_nOpCount st (st_nOpCount st + nKeysCount) in
      if st_nOpCount st >? MAX_OPS_PER_SCRIPT then fail SCRIPT_ERR_OP_COUNT
      else if size stack <? 2 + nKeysCount then fail SCRIPT_ERR_INVALID_STACK_OPERATION
      else
        let nk := Z.to_nat nKeysCount in
        let? nSigs := num (nth (1 + nk) stack []) in
        let nSigsCount := getint nSigs in
        if (nSigsCount <? 0) || (nSigsCount >? nKeysCount) then fail SCRIPT_ERR_SIG_COUNT
        else if size stack <? 3 + nKeysCount + nSigsCount then fail SCRIPT_ERR_INVALID_STACK_OPERATION
        else Ok (st, take nk (drop 1 stack), take (Z.to_nat nSigsCount) (drop (2 + nk) stack)).

(** [OP_CHECKMULTISIG], [OP_CHECKMULTISIGVERIFY] *)
Definition op_checkmultisig (opcode : Z) (st : eval_state) : eval_result :=
  let? args := multisig_args st in
  let '(st, keys, sigs) := args in
  let? scriptCode := drop_signatures (st_pbegincodehash st) sigs in
  let? fSuccess := multisig_loop scriptCode keys sigs in
  let? stack := multisig_cleanup (2 + length keys + length sigs) fSuccess (size keys + 2) (st_stack st) in
  match stack with
  | [] => fail SCRIPT_ERR_INVALID_STACK_OPERATION
  | dummy :: rest =>
      if flag_set flags SCRIPT_VERIFY_NULLDUMMY && negb (size dummy =? 0) then fail SCRIPT_ERR_SIG_NULLDUMMY
      else if opcode =? OP_CHECKMULTISIGVERIFY then
        if fSuccess then Ok (set_stack st rest) else fail SCRIPT_ERR_CHECKMULTISIGVERIFY
      else Ok (set_stack st (bool_vch fSuccess :: rest))
  end.

(** ** The switch *)

Definition is_one_of (opcode : Z) (l : list Z) : bool := existsb (Z.eqb opcode) l.

Definition disabled_opcodes : list Z :=
  [OP_CAT; OP_SUBSTR; OP_LEFT; OP_RIGHT; OP_INVERT; OP_AND; OP_OR; OP_XOR; OP_2MUL; OP_2DIV;
   OP_MUL; OP_DIV; OP_MOD; OP_LSHIFT; OP_RSHIFT].

Definition eval_control (fExec : bool) (opcode : Z) (st : eval_state) : option eval_result :=
  if (opcode =? OP_1NEGATE) || ((opcode >=? OP_1) && (opcode <=? OP_16)) then Some (op_small_int opcode st)
  else if opcode =? OP_NOP then Some (Ok st)
  else if opcode =? OP_CHECKLOCKTIMEVERIFY then Some (op_checklocktimeverify st)
  else if opcode =? OP_CHECKSEQUENCEVERIFY then Some (op_checksequenceverify st)
  else if is_one_of opcode [OP_NOP1; OP_NOP4; OP_NOP5; OP_NOP6; OP_NOP7; OP_NOP8; OP_NOP9; OP_NOP10]
  then Some (op_upgradable_nop st)
  else if (opcode =? OP_IF) || (opcode =? OP_NOTIF) then Some (op_if fExec opcode st)
  else if opcode =? OP_ELSE then Some (op_else st)
  else if opcode =? OP_ENDIF then Some (op_endif st)
  else if opcode =? OP_VERIFY then Some (op_verify st)
  else if opcode =? OP_RETURN then Some (fail SCRIPT_ERR_OP_RETURN)
  else None.

Definition eval_stackop (opcode : Z) (st : eval_state) : option eval_result :=
  if opcode =? OP_TOALTSTACK then Some (op_toaltstack st)
  else if opcode =? OP_FROMALTSTACK then Some (op_fromaltstack st)
  else if opcode =? OP_2DROP then Some (op_2drop st)
  else if opcode =? OP_2DUP then Some (op_2dup st)
  else if opcode =? OP_3DUP then Some (op_3dup st)
  else if opcode =? OP_2OVER then Some (op_2over st)
  else if opcode =? OP_2ROT then Some (op_2rot st)
  else if opcode =? OP_2SWAP then Some (op_2swap st)
  else if opcode =? OP_IFDUP then Some (op_ifdup st)
  else if opcode =? OP_DEPTH then Some (op_depth st)
  else if opcode =? OP_DROP then Some (op_drop st)
  else if opcode =? OP_DUP then Some (op_dup st)
  else if opcode =? OP_NIP then Some (op_nip st)
  else if opcode =? OP_OVER then Some (op_over st)
  else if (opcode =? OP_PICK) || (opcode =? OP_ROLL) then Some (op_pick_roll opcode st)
  else if opcode =? OP_ROT then Some (op_rot st)
  else if opcode =? OP_SWAP then Some (op_swap st)
  else if opcode =? OP_TUCK then Some (op_tuck st)
  else if opcode =? OP_SIZE then Some (op_size st)
  else None.

Definition eval_data (opcode : Z) (pc : CScript) (st : eval_state) : option eval_result :=
  if (opcode =? OP_EQUAL) || (opcode =? OP_EQUALVERIFY) then Some (op_equal opcode st)
  else if is_one_of opcode [OP_1ADD; OP_1SUB; OP_NEGATE; OP_ABS; OP_NOT; OP_0NOTEQUAL]
  then Some (op_unary opcode st)
  else if is_one_of opcode [OP_ADD; OP_SUB; OP_BOOLAND; OP_BOOLOR; OP_NUMEQUAL; OP_NUMEQUALVERIFY; OP_NUMNOTEQUAL;
                            OP_LESSTHAN; OP_GREATERTHAN; OP_LESSTHANOREQUAL; OP_GREATERTHANOREQUAL; OP_MIN; OP_MAX]
  then Some (op_binary opcode st)
  else if opcode =? OP_WITHIN then Some (op_within st)
  else if is_one_of opcode [OP_RIPEMD160; OP_SHA1; OP_SHA256; OP_HASH160; OP_HASH256] then Some (op_hash opcode st)
  else if opcode =? OP_CODESEPARATOR then Some (Ok (set_codehash st pc))
  else if (opcode =? OP_CHECKSIG) || (opcode =? OP_CHECKSIGVERIFY) then Some (op_checksig opcode st)
  else if (opcode =? OP_CHECKMULTISIG) || (opcode =? OP_CHECKMULTISIGVERIFY) then Some (op_checkmultisig opcode st)
  else if opcode =? OP_PHI_ASSET then Some (Ok st)
  else None.

(** [switch (opcode)] *)
Definition eval_opcode (fExec : bool) (opcode : Z) (pc : CScript) (st : eval_state) : eval_result :=
  match eval_control fExec opcode st with
  | Some r => r
  | None =>
      match eval_stackop opcode st with
      | Some r => r
      | None => match eval_data opcode pc st with Some r => r | None => fail SCRIPT_ERR_BAD_OPCODE end
      end
  end.

(** The counts and guards before the switch, the switch, the size limit after it. *)
Definition eval_guards (opcode : Z) (vchPushValue : valtype) (st : eval_state) : eval_result :=
  if size vchPushValue >? MAX_SCRIPT_ELEMENT_SIZE then fail SCRIPT_ERR_PUSH_SIZE
  else
    let st := if opcode >? OP_16 then set_nOpCount st (st_nOpCount st + 1) else st in
    if (opcode >? OP_16) && (st_nOpCount st >? MAX_OPS_PER_SCRIPT) then fail SCRIPT_ERR_OP_COUNT
    else if is_one_of opcode disabled_opcodes then fail SCRIPT_ERR_DISABLED_OPCODE
    else Ok st.

Definition eval_exec (opcode : Z) (vchPushValue : valtype) (pc : CScript) (st : eval_state) : eval_result :=
  let fExec := forallb id (st_vfExec st) in
  if fExec && (0 <=? opcode) && (opcode <=? OP_PUSHDATA4) then
    if fRequireMinimal && negb (CheckMinimalPush vchPushValue opcode) then fail SCRIPT_ERR_MINIMALDATA
    else Ok (set_stack st (vchPushValue :: st_stack st))
  else if fExec || ((OP_IF <=? opcode) && (opcode <=? OP_ENDIF)) then eval_opcode fExec opcode pc st
  else Ok st.

Definition eval_step (opcode : Z) (vchPushValue : valtype) (pc : CScript) (st : eval_state) : eval_result :=
  let? st := eval_guards opcode vchPushValue st in
  let? st := eval_exec opcode vchPushValue pc st in
  if size (st_stack st) + size (st_altstack st) >? MAX_STACK_SIZE then fail SCRIPT_ERR_STACK_SIZE
  else Ok st.

(** [while (pc < pend)] *)
Fixpoint eval_loop (fuel : nat) (pc : CScript) (st : eval_state) : eval_result :=
  match pc, fuel with
  | [], _ => Ok st
  | _, O => Err OutOfFuel
  | _, S f =>
      match GetOp2 pc with
      | NoOp _ => fail SCRIPT_ERR_BAD_OPCODE
      | GotOp opcode vchPushValue pc =>
          let? st := eval_step opcode vchPushValue pc st in
          eval_loop f pc st
      end
  end.

(** The stack left by a script that runs to its end. *)
Definition EvalScript (stack : list valtype) (script : CScript) : result script_failure (list valtype) :=
  if size script >? MAX_SCRIPT_SIZE then fail SCRIPT_ERR_SCRIPT_SIZE
  else
    let? st := eval_loop (length script) script (mkEval stack [] [] script 0) in
    match st_vfExec st with
    | [] => Ok (st_stack st)
    | _ => fail SCRIPT_ERR_UNBALANCED_CONDITIONAL
    end.

End Eval.

(** ** Verifying a spend *)

Section Verify.
Context `{Crypto} `{SignatureChecker}.
Variable flags : Z.

(** [scriptPubKey << OP_DUP << OP_HASH160 << program << OP_EQUALVERIFY << OP_CHECKSIG] *)
Definition p2pkh_script (program : list Z) : result script_failure CScript :=
  match push_data program with
  | Some b => Ok (OP_DUP :: OP_HASH160 :: b ++ [OP_EQUALVERIFY; OP_CHECKSIG])
  | None => Err Abort
  end.

(** The script a version-0 program stands for and the stack it starts with;
    [witness] is stored bottom first, as in the transaction. *)
Definition witness_v0 (witness : list valtype) (program : list Z)
    : result script_failure (CScript * list valtype) :=
  if size program =? 32 then
    match rev witness with
    | [] => fail SCRIPT_ERR_WITNESS_PROGRAM_WITNESS_EMPTY
    | scriptPubKey :: stack =>
        if negb (bool_decide (CSHA256 scriptPubKey = program)) then fail SCRIPT_ERR_WITNESS_PROGRAM_MISMATCH
        else Ok (scriptPubKey, stack)
    end
  else if size program =? 20 then
    if negb (size witness =? 2) then fail SCRIPT_ERR_WITNESS_PROGRAM_MISMATCH
    else
      let? scriptPubKey := p2pkh_script program in
      Ok (scriptPubKey, rev witness)
  else fail SCRIPT_ERR_WITNESS_PROGRAM_WRONG_LENGTH.

Definition VerifyWitnessProgram (witness : list valtype) (witversion : Z) (program : list Z)
    : result script_failure unit :=
  if witversion =? 0 then
    let? start := witness_v0 witness program in
    let '(scriptPubKey, stack) := start in
    if existsb (fun e => size e >? MAX_SCRIPT_ELEMENT_SIZE) stack then fail SCRIPT_ERR_PUSH_SIZE
    else
      let? stack := EvalScript flags SIGVERSION_WITNESS_V0 stack scriptPubKey in
      match stack with
      | [top] => if CastToBool top then Ok tt else fail SCRIPT_ERR_EVAL_FALSE
      | _ => fail SCRIPT_ERR_EVAL_FALSE
      end
  else if flag_set flags SCRIPT_VERIFY_DISCOURAGE_UPGRADABLE_WITNESS_PROGRAM
  then fail SCRIPT_ERR_DISCOURAGE_UPGRADABLE_WITNESS_PROGRAM
  else Ok tt.

(** [stack.resize(1)] *)
Definition resize1 (stack : list valtype) : list valtype := [List.last stack []].

(** The result has to be non-empty and true on top. *)
Definition eval_true (stack : list valtype) : result script_failure unit :=
  match stack with
  | [] => fail SCRIPT_ERR_EVAL_FALSE
  | top :: _ => if CastToBool top then Ok tt else fail SCRIPT_ERR_EVAL_FALSE
  end.

(** A witness program found in [script]; [malleated] is the error when the
    scriptSig is not what it has to be. *)
Definition verify_witness (script scriptSig : CScript) (expected : option CScript) (malleated : ScriptError)
    (witness stack : list valtype) : result script_failure (list valtype * bool) :=
  if flag_set flags SCRIPT_VERIFY_WITNESS then
    match IsWitnessProgram script with
    | Some (witnessversion, witnessprogram) =>
        match expected with
        | None => Err Abort   (* operator<< throws *)
        | Some expected =>
            if negb (bool_decide (scriptSig = expected)) then fail malleated
            else
              let? _ := VerifyWitnessProgram witness witnessversion witnessprogram in
              Ok (resize1 stack, true)
        end
    | None => Ok (stack, false)
    end
  else Ok (stack, false).

(** Evaluation of the redeem script on the stack the scriptSig left. *)
Definition verify_p2sh (scriptSig : CScript) (witness stackCopy : list valtype)
    : result script_failure (list valtype * bool) :=
  if negb (IsPushOnly scriptSig) then fail SCRIPT_ERR_SIG_PUSHONLY
  else
    match stackCopy with
    | [] => Err Abort   (* assert(!stack.empty()) *)
    | pubKey2 :: stack =>
        let? stack := EvalScript flags SIGVERSION_BASE stack pubKey2 in
        let? _ := eval_true stack in
        verify_witness pubKey2 scriptSig (push_data pubKey2) SCRIPT_ERR_WITNESS_MALLEATED_P2SH witness stack
    end.

(** The clean-stack and unexpected-witness checks, with their assertions. *)
Definition verify_final (stack : list valtype) (hadWitness : bool) (witness : list valtype)
    : result script_failure unit :=
  let? _ :=
    (if flag_set flags SCRIPT_VERIFY_CLEANSTACK then
       if negb (flag_set flags SCRIPT_VERIFY_P2SH) then Err Abort
       else if negb (flag_set flags SCRIPT_VERIFY_WITNESS) then Err Abort
       else if negb (size stack =? 1) then fail SCRIPT_ERR_CLEANSTACK
       else Ok tt
     else Ok tt) in
  if flag_set flags SCRIPT_VERIFY_WITNESS then
    if negb (flag_set flags SCRIPT_VERIFY_P2SH) then Err Abort
    else if negb hadWitness && negb (WitnessIsNull witness) then fail SCRIPT_ERR_WITNESS_UNEXPECTED
    else Ok tt
  else Ok tt.

Definition VerifyScript (scriptSig scriptPubKey : CScript) (witness : list valtype)
    : result script_failure unit :=
  if flag_set flags SCRIPT_VERIFY_SIGPUSHONLY && negb (IsPushOnly scriptSig) then fail SCRIPT_ERR_SIG_PUSHONLY
  else
    let? stackCopy := EvalScript flags SIGVERSION_BASE [] scriptSig in
    let? stack := EvalScript flags SIGVERSION_BASE stackCopy scriptPubKey in
    let? _ := eval_true stack in
    let? bare := verify_witness scriptPubKey scriptSig (Some []) SCRIPT_ERR_WITNESS_MALLEATED witness stack in
    let '(stack, hadWitness) := bare in
    let? nested :=
      (if flag_set flags SCRIPT_VERIFY_P2SH && IsPayToScriptHash scriptPubKey then
         let? p := verify_p2sh scriptSig witness stackCopy in
         Ok (p.1, p.2 || hadWitness)
       else Ok (stack, hadWitness)) in
    let '(stack, hadWitness) := nested in
    verify_final stack hadWitness witness.

(** ** Counting signature operations in witnesses *)

Definition WitnessSigOps (witversion : Z) (witprogram : list Z) (witness : list valtype) : Z :=
  if witversion =? 0 then
    if size witprogram =? 20 then 1
    else if (size witprogram =? 32) && (size witness >? 0) then GetSigOpCount (List.last witness []) true
    else 0
  else 0.

Definition CountWitnessSigOps (scriptSig scriptPubKey : CScript) (witness : list valtype)
    : result script_failure Z :=
  if negb (flag_set flags SCRIPT_VERIFY_WITNESS) then Ok 0
  else if negb (flag_set flags SCRIPT_VERIFY_P2SH) then Err Abort
  else
    match IsWitnessProgram scriptPubKey with
    | Some (version, program) => Ok (WitnessSigOps version program witness)
    | None =>
        if IsPayToScriptHash scriptPubKey && IsPushOnly scriptSig then
          match last_push (length scriptSig) scriptSig [] with
          | Some data =>
              match IsWitnessProgram data with
              | Some (version, program) => Ok (WitnessSigOps version program witness)
              | None => Ok 0
              end
          | None => Ok 0
          end
        else Ok 0
    end.

End Verify.

(** ** Lemmas: what every operation preserves *)

Definition elem_ok (e : valtype) : Prop := size e <= MAX_SCRIPT_ELEMENT_SIZE ∧ bytes_ok e.

(** Element sizes, bytes and the operation count; the total stack size is
    bounded after each operation. *)
Definition state_ok (st : eval_state) : Prop :=
  Forall elem_ok (st_stack st) ∧ Forall elem_ok (st_altstack st) ∧ 0 <= st_nOpCount st <= MAX_OPS_PER_SCRIPT.

(** A result that is a proper failure or satisfies [P]. *)
Definition safe {A} (P : A → Prop) (r : result script_failure A) : Prop :=
  match r with Ok a => P a | Err (Fail _) => True | Err _ => False end.

Lemma safe_bind {A B} (P : A → Prop) (Q : B → Prop) (r : result script_failure A) k :
  safe P r → (∀ a, P a → safe Q (k a)) → safe Q (rbind r k).
Proof. destruct r as [a|[]]; cbn; auto. Qed.

Lemma safe_weaken {A} (P Q : A → Prop) r : safe P r → (∀ a, P a → Q a) → safe Q r.
Proof. destruct r as [a|[]]; cbn; auto. Qed.

Lemma abs_bytes_length fuel a : (length (abs_bytes fuel a) <= fuel)%nat.
Proof. revert a; induction fuel as [|f IH]; intros a; cbn [abs_bytes]; [done|]. case_match; cbn [length]; [lia|]. specialize (IH (Z.shiftr a 8)). lia. Qed.

Lemma abs_bytes_ok fuel a : 0 <= a → bytes_ok (abs_bytes fuel a).
Proof.
  revert a; induction fuel as [|f IH]; intros a Ha; cbn [abs_bytes]; [constructor|].
  case_match; constructor; [|apply IH; by apply Z.shiftr_nonneg].
  change 0xff with (2 ^ 8 - 1). rewrite land_ones_mod by lia. apply (Z.mod_pos_bound a (2 ^ 8)). lia.
Qed.

Lemma last_byte l : bytes_ok l → is_byte (List.last l 0).
Proof. induction 1 as [|b l Hb Hl IH]; [unfold is_byte; cbn; lia|]. by destruct l. Qed.

Lemma removelast_bytes l : bytes_ok l → bytes_ok (removelast l).
Proof. induction 1 as [|b l Hb Hl IH]; [constructor|]. destruct l; [constructor|]. by constructor. Qed.

Lemma removelast_length {A} (l : list A) : (length (removelast l) <= length l - 1)%nat.
Proof. induction l as [|x [|y l] IH]; cbn [removelast length] in *; lia. Qed.

Lemma serialize_elem n : elem_ok (serialize n).
Proof.
  unfold elem_ok, serialize. case_match; [split; [done|constructor]|].
  set (r := abs_bytes 8 _). assert (bytes_ok r) as Hr by (apply abs_bytes_ok, uwrap_range; lia).
  pose proof (abs_bytes_length 8 (u64 (if n <? 0 then - n else n))) as Hlen. fold r in Hlen.
  pose proof (last_byte r Hr) as Hb. unfold is_byte in Hb. pose proof (removelast_length r).
  assert (∀ l c, (length l <= 8)%nat → bytes_ok l → is_byte c → size (l ++ [c]) <= MAX_SCRIPT_ELEMENT_SIZE ∧ bytes_ok (l ++ [c])) as Happ.
  { intros l c Hl Hlb Hc. unfold size, MAX_SCRIPT_ELEMENT_SIZE. rewrite length_app. cbn [length].
    split; [lia|]. apply bytes_ok_app. split; [done|by constructor]. }
  case_match; [|case_match].
  - apply Happ; [lia|done|]. unfold is_byte. case_match; lia.
  - apply Happ; [lia|by apply removelast_bytes|].
    assert (ufits 8 (Z.lor (List.last r 0) 0x80)) as [? ?]; [apply ufits_lor; unfold ufits; lia|].
    unfold is_byte. lia.
  - split; [|done]. unfold size, MAX_SCRIPT_ELEMENT_SIZE. lia.
Qed.

Lemma bool_vch_elem b : elem_ok (bool_vch b).
Proof. destruct b; split; [done|repeat constructor; lia|done|constructor]. Qed.

Lemma hash_elem l n : length l = n ∧ bytes_ok l → (n <= 520)%nat → elem_ok l.
Proof. intros [<- Hb] Hn. split; [|done]. unfold size, MAX_SCRIPT_ELEMENT_SIZE. lia. Qed.

#[local] Hint Resolve serialize_elem bool_vch_elem : script.

Lemma CScriptNum_range vch f k n : 1 <= k <= 7 → bytes_ok vch → CScriptNum vch f k = Some n →
  Z.abs n < 2 ^ (8 * k - 1).
Proof.
  intros Hk Hb. unfold CScriptNum. destruct (Z.gtb_spec (size vch) k) as [|Hlen]; [done|].
  case_match; [done|]. intros [= <-].
  destruct (decide (vch = [])) as [->|Hne]; [apply pow2_pos; lia|].
  destruct (list_snoc vch Hne) as (l & b & ->). apply bytes_ok_app in Hb as [Hl Hb]. inv Hb.
  rewrite size_app in Hlen. change (size [b]) with 1 in Hlen. rewrite set_vch_spec by (done || lia).
  assert (∀ t, 0 <= t < 128 → 0 <= digits_val 8 (l ++ [t]) < 2 ^ (8 * k - 1)) as Hbound.
  { intros t Ht. rewrite digits_val_app by lia. cbn [digits_val]. rewrite Z.mul_0_r, Z.add_0_r.
    pose proof (digits_val_bound 8 l ltac:(lia) (proj1 (bytes_digits l) Hl)) as Hd. fold (size l) in *.
    assert (2 ^ (8 * size l) * 128 <= 2 ^ (8 * k - 1)); [|nia].
    change 128 with (2 ^ 7). pose proof (size_nonneg l). rewrite <- Z.pow_add_r by lia.
    apply Z.pow_le_mono_r; lia. }
  assert (is_byte b) as Hbb by done. unfold is_byte in Hbb.
  destruct (Z.ltb_spec b 128); [pose proof (Hbound b)|pose proof (Hbound (b - 128))]; lia.
Qed.

Section Safety.
Context `{Crypto} `{SignatureChecker}.
Variable flags : Z.
Variable sigversion : SigVersion.

Lemma to_num_safe vch f k : 1 <= k <= 7 → elem_ok vch → safe (fun n => Z.abs n < 2 ^ (8 * k - 1)) (to_num vch f k).
Proof.
  intros Hk [_ Hb]. unfold to_num. destruct (CScriptNum vch f k) eqn:E; [|done]. by eapply CScriptNum_range.
Qed.

Lemma num_safe vch : elem_ok vch → safe (fun n => Z.abs n < 2 ^ 31) (num flags vch).
Proof. intros Hv. apply (to_num_safe vch (fRequireMinimal flags) 4); [lia|done]. Qed.

Lemma unary_num_safe opcode n : Z.abs n < 2 ^ 31 →
  is_one_of opcode [OP_1ADD; OP_1SUB; OP_NEGATE; OP_ABS; OP_NOT; OP_0NOTEQUAL] = true →
  safe (fun _ => True) (unary_num opcode n).
Proof.
  intros Hn Hop. unfold unary_num, num_add, num_sub, num_neg. unfold is_one_of in Hop. cbn [existsb] in Hop.
  repeat (case_match; cbn [safe]; try done); breflect; try lia;
    repeat match goal with H : _ && _ = false |- _ => apply andb_false_iff in H as [?|?] end; breflect; lia.
Qed.

Lemma binary_num_safe opcode a b :
  is_one_of opcode [OP_ADD; OP_SUB; OP_BOOLAND; OP_BOOLOR; OP_NUMEQUAL; OP_NUMEQUALVERIFY; OP_NUMNOTEQUAL;
    OP_LESSTHAN; OP_GREATERTHAN; OP_LESSTHANOREQUAL; OP_GREATERTHANOREQUAL; OP_MIN; OP_MAX] = true →
  safe (fun _ => True) (binary_num opcode a b).
Proof.
  intros Hop. unfold is_one_of in Hop. cbn [existsb] in Hop. unfold binary_num.
  repeat (match goal with |- safe _ (if ?c then _ else _) => destruct c; [done|] end).
  cbn [orb] in Hop. done.
Qed.

(** Unfold an operation, split its branches and rebuild the stack facts. *)
Ltac solve_op :=
  intros (Hstk & Halt & Hcount); repeat case_match; cbn [safe]; try done; unfold state_ok; cbn;
  decompose_Forall_hyps; split_and!; try lia; repeat apply Forall_cons_2; auto with script.

Lemma op_pick_roll_safe opcode st : state_ok st → safe state_ok (op_pick_roll flags opcode st).
Proof.
  intros (Hstk & Halt & Hcount). unfold op_pick_roll.
  destruct (st_stack st) as [|top [|x rest]]; [done..|]. inv Hstk.
  eapply safe_bind; [by apply num_safe|]. cbn. intros n _. case_match; [done|].
  apply orb_false_iff in H1 as [Hn1 Hn2]. breflect. cbn [safe]. unfold state_ok. cbn.
  set (l := x :: rest) in *. assert (elem_ok (nth (Z.to_nat (getint n)) l [])) as Hnth.
  { eapply Forall_forall; [done|]. apply list_elem_of_In, nth_In. unfold size in *. lia. }
  split_and!; [|done|lia..]. constructor; [done|]. case_match; [|done].
  apply Forall_app. split; [by apply Forall_take|]. by apply (Forall_drop _ (S (Z.to_nat (getint n))) l).
Qed.

Lemma eval_stackop_safe opcode st r : state_ok st → eval_stackop flags opcode st = Some r → safe state_ok r.
Proof.
  intros Hst. unfold eval_stackop.
  repeat (match goal with |- (if ?c then _ else _) = _ → _ => destruct c end; try (intros [= <-])); try done;
    try (by apply op_pick_roll_safe); destruct st as [stk alt vf pcs nops]; revert Hst;
    unfold state_ok at 1; cbn [st_stack st_altstack st_nOpCount];
    unfold op_toaltstack, op_fromaltstack, op_2drop, op_2dup, op_3dup, op_2over, op_2rot, op_2swap, op_ifdup,
      op_depth, op_drop, op_dup, op_nip, op_over, op_rot, op_swap, op_tuck, op_size; cbn [st_stack st_altstack];
    solve_op.
Qed.

Lemma op_upgradable_nop_safe st : state_ok st → safe state_ok (op_upgradable_nop flags st).
Proof. unfold op_upgradable_nop. by case_match. Qed.

Lemma op_locktime_safe st : state_ok st →
  safe state_ok (op_checklocktimeverify flags st) ∧ safe state_ok (op_checksequenceverify flags st).
Proof.
  intros Hst. pose proof Hst as (Hstk & _). unfold op_checklocktimeverify, op_checksequenceverify.
  split; (case_match; [by apply op_upgradable_nop_safe|]); (destruct (st_stack st) as [|top rest]; [done|]); inv Hstk;
    (eapply safe_bind; [by apply (to_num_safe top _ 5)|]); intros n _; by repeat case_match.
Qed.

Lemma eval_control_safe fExec opcode st r : state_ok st →
  eval_control flags sigversion fExec opcode st = Some r → safe state_ok r.
Proof.
  intros Hst. unfold eval_control.
  repeat (match goal with |- (if ?c then _ else _) = _ → _ => destruct c end; try (intros [= <-])); try done;
    try (by apply op_locktime_safe); try (by apply op_upgradable_nop_safe).
  all: unfold op_small_int, op_if, op_else, op_endif, op_verify; destruct st as [stk alt vf pcs nops]; revert Hst;
    unfold state_ok at 1; cbn [st_stack st_altstack st_nOpCount st_vfExec]; solve_op.
Qed.

Lemma CheckSignatureEncoding_safe sig : safe (fun _ => True) (CheckSignatureEncoding sig flags).
Proof. unfold CheckSignatureEncoding, IsLowDERSignature. by repeat case_match. Qed.

Lemma CheckPubKeyEncoding_safe key : safe (fun _ => True) (CheckPubKeyEncoding key flags sigversion).
Proof. unfold CheckPubKeyEncoding. by repeat case_match. Qed.

Lemma drop_signature_safe code sig : safe (fun _ => True) (drop_signature sigversion code sig).
Proof. unfold drop_signature. by repeat case_match. Qed.

Lemma drop_signatures_safe code sigs : safe (fun _ => True) (drop_signatures sigversion code sigs).
Proof.
  revert code; induction sigs as [|s sigs IH]; intros code; [done|]. cbn [drop_signatures].
  eapply safe_bind; [apply drop_signature_safe|]. auto.
Qed.

Lemma multisig_loop_safe code keys sigs : safe (fun _ => True) (multisig_loop flags sigversion code keys sigs).
Proof.
  revert sigs; induction keys as [|k keys IH]; intros [|s sigs]; try done. cbn [multisig_loop].
  eapply safe_bind; [apply CheckSignatureEncoding_safe|]. intros _ _.
  eapply safe_bind; [apply CheckPubKeyEncoding_safe|]. intros _ _. case_match; [done|]. apply IH.
Qed.

Lemma multisig_cleanup_safe n ok ikey2 stk : safe (fun s => s = drop n stk) (multisig_cleanup flags n ok ikey2 stk).
Proof.
  revert ikey2 stk; induction n as [|n IH]; intros ikey2 stk; cbn [multisig_cleanup]; [done|].
  destruct stk as [|top rest]; [done|]. case_match; [done|]. apply IH.
Qed.

Lemma multisig_args_safe st : state_ok st →
  safe (fun '(st', _, _) => state_ok st' ∧ st_stack st' = st_stack st) (multisig_args flags st).
Proof.
  intros (Hstk & Halt & Hcount). unfold multisig_args. case_match; [done|].
  assert (∀ i, elem_ok (nth i (st_stack st) [])) as Hnth.
  { intros i. destruct (nth_in_or_default i (st_stack st) []) as [Hin| ->]; [|split; [done|constructor]].
    apply (proj1 (Forall_forall elem_ok (st_stack st)) Hstk). by apply list_elem_of_In. }
  eapply safe_bind; [apply num_safe, Hnth|]. intros nk _. cbn.
  case_match eqn:Hk; [done|]. apply orb_false_iff in Hk as [Hk _]. breflect.
  case_match; [done|]. case_match; [done|]. breflect.
  eapply safe_bind; [apply num_safe, Hnth|]. intros ns _. cbn.
  case_match; [done|]. case_match; [done|]. cbn. unfold state_ok. cbn. split_and!; (done || lia).
Qed.

Lemma op_checkmultisig_safe opcode st : state_ok st → safe state_ok (op_checkmultisig flags sigversion opcode st).
Proof.
  intros Hst. unfold op_checkmultisig. eapply safe_bind; [by apply multisig_args_safe|].
  intros [[st' keys] sigs] [(Hstk & Halt & Hcount) _].
  eapply safe_bind; [apply drop_signatures_safe|]. intros code _.
  eapply safe_bind; [apply multisig_loop_safe|]. intros ok _.
  eapply safe_bind; [apply multisig_cleanup_safe|]. intros stk ->.
  destruct (drop _ _) as [|dummy rest] eqn:E; [done|].
  assert (Forall elem_ok (dummy :: rest)) as Hd by (rewrite <- E; by apply Forall_drop). inv Hd.
  repeat case_match; try done; cbn; unfold state_ok; cbn; split_and!; try (done || lia); by apply Forall_cons_2; auto with script.
Qed.

Lemma op_checksig_safe opcode st : state_ok st → safe state_ok (op_checksig flags sigversion opcode st).
Proof.
  intros (Hstk & Halt & Hcount). unfold op_checksig. destruct (st_stack st) as [|key [|sig rest]]; [done..|].
  decompose_Forall_hyps. eapply safe_bind; [apply drop_signature_safe|]. intros code _.
  eapply safe_bind; [apply CheckSignatureEncoding_safe|]. intros _ _.
  eapply safe_bind; [apply CheckPubKeyEncoding_safe|]. intros _ _.
  repeat case_match; try done; cbn; unfold state_ok; cbn; split_and!; try (done || lia); by apply Forall_cons_2; auto with script.
Qed.

Lemma op_hash_safe opcode st : state_ok st → safe state_ok (op_hash opcode st).
Proof.
  intros (Hstk & Halt & Hcount). unfold op_hash. destruct (st_stack st) as [|x rest]; [done|]. inv Hstk.
  cbn. unfold state_ok. cbn. split_and!; try (done || lia). apply Forall_cons_2; [|done].
  unfold CHash160, CHash256. repeat case_match;
    (eapply hash_elem; [first [apply ripemd160_output|apply sha1_output|apply sha256_output]|lia]).
Qed.

Lemma op_arith_safe opcode st : state_ok st →
  (is_one_of opcode [OP_1ADD; OP_1SUB; OP_NEGATE; OP_ABS; OP_NOT; OP_0NOTEQUAL] = true →
     safe state_ok (op_unary flags opcode st)) ∧
  (is_one_of opcode [OP_ADD; OP_SUB; OP_BOOLAND; OP_BOOLOR; OP_NUMEQUAL; OP_NUMEQUALVERIFY; OP_NUMNOTEQUAL;
     OP_LESSTHAN; OP_GREATERTHAN; OP_LESSTHANOREQUAL; OP_GREATERTHANOREQUAL; OP_MIN; OP_MAX] = true →
     safe state_ok (op_binary flags opcode st)) ∧
  safe state_ok (op_within flags st).
Proof.
  intros (Hstk & Halt & Hcount). unfold op_unary, op_binary, op_within.
  assert (∀ e rest, elem_ok e → Forall elem_ok rest → state_ok (set_stack st (e :: rest))) as Hpush.
  { intros e rest He Hr. unfold state_ok. cbn. split_and!; [by apply Forall_cons_2|done|lia..]. }
  destruct (st_stack st) as [|x3 rest] eqn:E; [done|]. decompose_Forall_hyps. split_and!.
  - intros Hop. eapply safe_bind; [by apply num_safe|]. intros n Hn.
    eapply safe_bind; [by apply unary_num_safe|]. intros m _. cbn. auto with script.
  - intros Hop. destruct rest as [|x2 rest]; [done|]. decompose_Forall_hyps.
    eapply safe_bind; [by apply num_safe|]. intros n1 _. eapply safe_bind; [by apply num_safe|]. intros n2 _.
    eapply safe_bind; [by apply binary_num_safe|]. intros m _. repeat case_match; try done; cbn; auto with script.
  - destruct rest as [|x2 [|x1 rest]]; [done..|]. decompose_Forall_hyps.
    do 3 (eapply safe_bind; [by apply num_safe|]; intros ? _). cbn. auto with script.
Qed.

Lemma eval_data_safe opcode pc st r : state_ok st → eval_data flags sigversion opcode pc st = Some r → safe state_ok r.
Proof.
  intros Hst. destruct (op_arith_safe opcode st Hst) as (Hun & Hbin & Hwithin). unfold eval_data.
  repeat (match goal with |- (if ?c then _ else _) = _ → _ => destruct c end; try (intros [= <-])); try done; auto;
    try (by apply op_hash_safe); try (by apply op_checksig_safe); try (by apply op_checkmultisig_safe).
  unfold op_equal. destruct st as [stk alt vf pcs nops]; revert Hst;
    unfold state_ok at 1; cbn [st_stack st_altstack st_nOpCount st_vfExec]; solve_op.
Qed.

Lemma eval_opcode_safe fExec opcode pc st : state_ok st → safe state_ok (eval_opcode flags sigversion fExec opcode pc st).
Proof.
  intros Hst. unfold eval_opcode. destruct (eval_control _ _ _ _ _) eqn:E1; [by eapply eval_control_safe|].
  destruct (eval_stackop _ _ _) eqn:E2; [by eapply eval_stackop_safe|].
  destruct (eval_data _ _ _ _ _) eqn:E3; [by eapply eval_data_safe|done].
Qed.

(** The bound on the total stack size holds after every operation. *)
Definition bounded (st : eval_state) : Prop :=
  state_ok st ∧ size (st_stack st) + size (st_altstack st) <= MAX_STACK_SIZE.

Lemma eval_step_safe opcode v pc st : state_ok st → bytes_ok v → safe bounded (eval_step flags sigversion opcode v pc st).
Proof.
  intros Hst Hv. unfold eval_step. eapply (safe_bind (fun st' => state_ok st' ∧ size v <= MAX_SCRIPT_ELEMENT_SIZE)).
  - unfold eval_guards. destruct Hst as (Hstk & Halt & Hcount). repeat case_match; try done; breflect; cbn;
      unfold state_ok; cbn; split_and!; try (done || lia).
    match goal with H : _ && _ = false |- _ => apply andb_false_iff in H as [?|?] end; breflect; cbn in *; lia.
  - intros st1 [Hst1 Hsz]. eapply (safe_bind state_ok).
    + unfold eval_exec. repeat case_match; try done; [|by apply eval_opcode_safe].
      destruct Hst1 as (Hstk & Halt & Hcount). cbn. unfold state_ok. cbn. split_and!; try (done || lia).
      apply Forall_cons_2; [|done]. by split.
    + intros st2 Hst2. case_match; [done|]. breflect. by split.
Qed.

Lemma GetOp2_bytes pc op v pc' : bytes_ok pc → GetOp2 pc = GotOp op v pc' → bytes_ok v ∧ bytes_ok pc'.
Proof.
  unfold GetOp2. destruct pc as [|b pc]; [done|]. intros Hb. inv Hb. destruct (b <=? OP_PUSHDATA4).
  - destruct (read_push_size b pc) as [[nSize|] pc1] eqn:Hr; [|done].
    apply read_push_size_suffix in Hr as [pre ->]. apply bytes_ok_app in H4 as [_ Hpc1].
    case_match; [done|]. intros [= _ <- <-]. split; [by apply Forall_take|by apply Forall_drop].
  - case_match; intros [= _ <- <-]; split; (done || constructor).
Qed.

Lemma eval_loop_safe (B : Prop) fuel pc st : bytes_ok pc → (length pc <= fuel)%nat →
  state_ok st → (B → bounded st) →
  safe (fun st' => state_ok st' ∧ (B → bounded st')) (eval_loop flags sigversion fuel pc st).
Proof.
  revert pc st; induction fuel as [|f IH]; intros pc st Hpc Hf Hst HB; destruct pc as [|b pc]; try done;
    [cbn in Hf; lia|].
  cbn [eval_loop]. destruct (GetOp2 (b :: pc)) as [op v pc'|] eqn:Hg; [|done].
  destruct (GetOp2_bytes _ _ _ _ Hpc Hg) as [Hv Hpc']. apply GetOp2_length in Hg. cbn [length] in *.
  eapply safe_bind; [by apply eval_step_safe|]. intros st' Hst'. apply IH; (done || lia || apply Hst').
Qed.

Lemma eval_loop_nonempty fuel b pc st : bytes_ok (b :: pc) → (length (b :: pc) <= fuel)%nat → state_ok st →
  safe (fun st' => state_ok st' ∧ bounded st') (eval_loop flags sigversion fuel (b :: pc) st).
Proof.
  intros Hpc Hf Hst. destruct fuel as [|f]; [cbn in Hf; lia|]. cbn [eval_loop]. destruct (GetOp2 (b :: pc)) as [op v pc'|] eqn:Hg; [|done].
  destruct (GetOp2_bytes _ _ _ _ Hpc Hg) as [Hv Hpc']. apply GetOp2_length in Hg. cbn [length] in *.
  eapply safe_bind; [by apply eval_step_safe|]. intros st' Hst'.
  eapply safe_weaken; [apply (eval_loop_safe True); [done|lia|apply Hst'|intros _; apply Hst']|]. intros st'' [? Hb]. split; [done|by apply Hb].
Qed.

Lemma EvalScript_result stk script : Forall elem_ok stk → bytes_ok script →
  safe (fun s => Forall elem_ok s ∧ (size s <= MAX_STACK_SIZE ∨ script = [] ∧ s = stk))
    (EvalScript flags sigversion stk script).
Proof.
  intros Hstk Hb. unfold EvalScript. case_match; [done|].
  assert (state_ok (mkEval stk [] [] script 0)) as Hst by (split_and!; [done|constructor|done|done]).
  destruct script as [|b pc].
  - cbn. split; [done|]. by right.
  - eapply safe_bind; [by apply eval_loop_nonempty|]. intros st [(Hs & _) [_ Hle]]. case_match; [|done]. cbn. split; [done|]. left.
    pose proof (size_nonneg (st_altstack st)). lia.
Qed.

End Safety.

(** ** Lemmas: the operations of the standard scripts *)

Section Standard.
Context `{Crypto} `{SignatureChecker}.
Variable flags : Z.
Variable sigversion : SigVersion.

(** A script that starts with an opcode that is not a push. *)
Lemma eval_loop_op f op pc st : OP_PUSHDATA4 < op → op ≠ OP_PHI_ASSET →
  eval_loop flags sigversion (S f) (op :: pc) st =
  let? st := eval_step flags sigversion op [] pc st in eval_loop flags sigversion f pc st.
Proof.
  intros Hop Hne. cbn [eval_loop]. unfold GetOp2.
  destruct (Z.leb_spec op OP_PUSHDATA4); [lia|]. by destruct (Z.eqb_spec op OP_PHI_ASSET).
Qed.

(** A script that starts with a direct push. *)
Lemma eval_loop_push f b pc st : 1 < size b <= 75 → forallb id (st_vfExec st) = true →
  1 + size (st_stack st) + size (st_altstack st) <= MAX_STACK_SIZE →
  eval_loop flags sigversion (S f) (size b :: b ++ pc) st =
  eval_loop flags sigversion f pc (set_stack st (b :: st_stack st)).
Proof.
  intros Hb Hexec Hsz. cbn [eval_loop].
  destruct (push_data_parse b (size b :: b) pc) as (op & Hop & Hg).
  { unfold push_data. destruct (Z.ltb_spec (size b) OP_PUSHDATA1); [done|lia]. }
  assert (op = size b) as ->.
  { unfold GetOp2 in Hg. cbn [app] in Hg. case_all_in Hg; by inv Hg. }
  change ((size b :: b) ++ pc) with (size b :: b ++ pc) in Hg. rewrite Hg.
  unfold eval_step, eval_guards, MAX_SCRIPT_ELEMENT_SIZE.
  destruct (Z.gtb_spec (size b) 520); [lia|]. destruct (Z.gtb_spec (size b) OP_16); [lia|]. cbn [andb].
  replace (is_one_of (size b) disabled_opcodes) with false.
  2:{ symmetry. unfold is_one_of, disabled_opcodes. cbn [existsb].
      repeat match goal with |- context [size b =? ?k] => destruct (Z.eqb_spec (size b) k); [lia|] end. done. }
  cbn [rbind]. unfold eval_exec. rewrite Hexec. cbn [andb].
  destruct (Z.leb_spec 0 (size b)), (Z.leb_spec (size b) OP_PUSHDATA4); try lia. cbn [andb].
  replace (CheckMinimalPush b (size b)) with true.
  2:{ symmetry. unfold CheckMinimalPush. destruct (Z.eqb_spec (size b) 0), (Z.eqb_spec (size b) 1); try lia.
      cbn [andb]. destruct (Z.leb_spec (size b) 75); [|lia]. apply Z.eqb_refl. }
  rewrite andb_false_r. cbn [rbind set_stack st_stack st_altstack]. rewrite size_cons.
  destruct (Z.gtb_spec (1 + size (st_stack st) + size (st_altstack st)) MAX_STACK_SIZE); [lia|]. done.
Qed.

Definition p2pkh (h : list Z) : CScript := OP_DUP :: OP_HASH160 :: 0x14 :: h ++ [OP_EQUALVERIFY; OP_CHECKSIG].
Definition p2sh (h : list Z) : CScript := OP_HASH160 :: 0x14 :: h ++ [OP_EQUAL].

(** What checking one signature against one key gives. *)
Definition checksig_result (code : CScript) (key sig : valtype) : result script_failure bool :=
  let? scriptCode := drop_signature sigversion code sig in
  let? _ := CheckSignatureEncoding sig flags in
  let? _ := CheckPubKeyEncoding key flags sigversion in
  let fSuccess := CheckSig sig key scriptCode sigversion in
  if negb fSuccess && flag_set flags SCRIPT_VERIFY_NULLFAIL && negb (size sig =? 0)
  then fail SCRIPT_ERR_SIG_NULLFAIL else Ok fSuccess.

Lemma step_checksig key sig code n pc : 0 <= n <= 200 →
  eval_step flags sigversion OP_CHECKSIG [] pc (mkEval [key; sig] [] [] code n) =
  let? b := checksig_result code key sig in Ok (mkEval [bool_vch b] [] [] code (n + 1)).
Proof.
  intros Hn. unfold eval_step, eval_guards. cbn [st_nOpCount set_nOpCount]. unfold MAX_OPS_PER_SCRIPT.
  change (OP_CHECKSIG >? OP_16) with true. change (size [] >? MAX_SCRIPT_ELEMENT_SIZE) with false.
  change (is_one_of OP_CHECKSIG disabled_opcodes) with false. cbv iota. cbn [st_nOpCount set_nOpCount andb].
  destruct (Z.gtb_spec (n + 1) 201); [lia|]. cbn [rbind]. unfold eval_exec.
  change (eval_opcode flags sigversion _ OP_CHECKSIG pc) with (op_checksig flags sigversion OP_CHECKSIG).
  cbn [st_vfExec set_nOpCount forallb id andb orb]. change (OP_CHECKSIG <=? OP_PUSHDATA4) with false. cbn [andb]. cbv iota.
  unfold op_checksig, checksig_result. cbn [st_stack set_nOpCount st_pbegincodehash].
  destruct (drop_signature _ _ _); [|done]. cbn [rbind].
  destruct (CheckSignatureEncoding _ _); [|done]. cbn [rbind].
  destruct (CheckPubKeyEncoding _ _ _); [|done]. cbn [rbind]. by destruct (_ && negb (size sig =? 0)).
Qed.

Lemma step_equalverify a b key sig code pc :
  eval_step flags sigversion OP_EQUALVERIFY [] pc (mkEval [b; a; key; sig] [] [] code 2) =
  if bool_decide (a = b) then Ok (mkEval [key; sig] [] [] code 3) else fail SCRIPT_ERR_EQUALVERIFY.
Proof.
  unfold eval_step. change (eval_guards OP_EQUALVERIFY [] _)
    with (@Ok script_failure _ (mkEval [b; a; key; sig] [] [] code 3)). cbn [rbind].
  change (eval_exec flags sigversion OP_EQUALVERIFY [] pc (mkEval [b; a; key; sig] [] [] code 3))
    with (if bool_decide (a = b) then @Ok script_failure _ (mkEval [key; sig] [] [] code 3)
          else fail SCRIPT_ERR_EQUALVERIFY).
  by destruct (bool_decide (a = b)).
Qed.

Lemma EvalScript_p2pkh h key sig : length h = 20%nat →
  EvalScript flags sigversion [key; sig] (p2pkh h) =
  if bool_decide (CHash160 key = h) then let? b := checksig_result (p2pkh h) key sig in Ok [bool_vch b]
  else fail SCRIPT_ERR_EQUALVERIFY.
Proof.
  intros Hh. unfold EvalScript. assert (length (p2pkh h) = 25%nat) as Hlen.
  { unfold p2pkh. cbn [length]. rewrite length_app, Hh. done. }
  unfold size at 1. rewrite Hlen. change (Z.of_nat 25 >? MAX_SCRIPT_SIZE) with false. cbv iota.
  set (code := p2pkh h) at 2. unfold p2pkh at 1.
  rewrite (eval_loop_op 24 OP_DUP) by done.
  change (eval_step flags sigversion OP_DUP [] _ _) with (@Ok script_failure _ (mkEval [key; key; sig] [] [] code 1)).
  cbn [rbind]. rewrite (eval_loop_op 23 OP_HASH160) by done.
  change (eval_step flags sigversion OP_HASH160 [] _ _)
    with (@Ok script_failure _ (mkEval [CHash160 key; key; sig] [] [] code 2)).
  cbn [rbind]. replace 0x14 with (size h) by (unfold size; by rewrite Hh).
  rewrite eval_loop_push by (unfold size; rewrite ?Hh; cbn; lia || done).
  unfold set_stack. cbn [st_stack st_altstack st_vfExec st_pbegincodehash st_nOpCount].
  rewrite (eval_loop_op 21 OP_EQUALVERIFY) by done.
  rewrite step_equalverify. destruct (bool_decide (CHash160 key = h)); cbn [rbind]; [|done].
  rewrite (eval_loop_op 20 OP_CHECKSIG), step_checksig by (done || lia).
  subst code. by destruct (checksig_result (p2pkh h) key sig).
Qed.

Lemma EvalScript_p2sh_empty h : length h = 20%nat →
  EvalScript flags sigversion [] (p2sh h) = fail SCRIPT_ERR_INVALID_STACK_OPERATION.
Proof.
  intros Hh. unfold EvalScript. assert (length (p2sh h) = 23%nat) as Hlen.
  { unfold p2sh. cbn [length]. rewrite length_app, Hh. done. }
  unfold size. rewrite Hlen. change (Z.of_nat 23 >? MAX_SCRIPT_SIZE) with false. cbv iota.
  unfold p2sh at 1. rewrite (eval_loop_op 22 OP_HASH160) by done. done.
Qed.

Lemma EvalScript_two_pushes key sig : 1 < size sig <= 75 → 1 < size key <= 75 →
  EvalScript flags sigversion [] (size sig :: sig ++ size key :: key) = Ok [key; sig].
Proof.
  intros Hs Hk. unfold EvalScript. set (script := size sig :: sig ++ size key :: key).
  assert (size script = 2 + size sig + size key) as Hsz.
  { unfold script. rewrite size_cons, size_app, size_cons. lia. }
  unfold MAX_SCRIPT_SIZE. destruct (Z.gtb_spec (size script) 10000); [lia|].
  assert (∃ f, length script = S (S f)) as [f ->] by (exists (length script - 2)%nat; unfold size in *; lia).
  unfold script at 1. rewrite eval_loop_push by (done || (cbn; lia)).
  unfold set_stack. cbn [st_stack st_altstack st_vfExec st_pbegincodehash st_nOpCount].
  rewrite <- (app_nil_r key) at 2. rewrite eval_loop_push by (done || (cbn; lia)).
  by destruct f.
Qed.

Lemma IsPushOnly_two_pushes (key sig : valtype) : size sig <= 75 → size key <= 75 →
  IsPushOnly (size sig :: sig ++ size key :: key) = true.
Proof.
  intros Hs Hk. unfold IsPushOnly.
  assert (∀ (b : valtype) pc f v, size b <= 75 →
    last_push (S f) (size b :: b ++ pc) v = last_push f pc b) as Hstep.
  { intros b pc f v Hb. cbn [last_push].
    destruct (push_data_parse b (size b :: b) pc) as (op & Hop & Hg).
    { unfold push_data. destruct (Z.ltb_spec (size b) OP_PUSHDATA1); [done|lia]. }
    change ((size b :: b) ++ pc) with (size b :: b ++ pc) in Hg. rewrite Hg.
    destruct (Z.gtb_spec op OP_16); [lia|]. done. }
  assert (∃ f, length (size sig :: sig ++ size key :: key) = S (S f)) as [f ->].
  { exists (length sig + length key)%nat. cbn [length]. rewrite length_app. cbn [length]. lia. }
  rewrite Hstep by done. rewrite <- (app_nil_r key) at 2. rewrite Hstep by done. by destruct f.
Qed.
End Standard.

(** Patterns that match at no operation boundary are not deleted. *)
Definition undeleted (b s : CScript) : Prop := ∀ r n, deleted b s r n → r = s ∧ n = 0.

Lemma undeleted_nil b : b ≠ [] → undeleted b [].
Proof.
  intros Hb r n Hd. inversion Hd as [s pc Hs Hg|s r' n' Hs Hd'|op v kept s r' n' Hs Hg Hd' He]; subst; [done| |].
  - unfold starts_with in Hs. rewrite take_nil in Hs. by apply bool_decide_eq_true in Hs as <-.
  - rewrite He in Hg. done.
Qed.

Lemma undeleted_step b s op v s' : starts_with b s = false → GetOp2 s = GotOp op v s' →
  undeleted b s' → undeleted b s.
Proof.
  intros Hb Hg IH r n Hd. inversion Hd as [s0 pc Hs Hg'|s0 r' n' Hs Hd'|op' v' kept s0 r' n' Hs Hg' Hd' He]; subst.
  - congruence.
  - congruence.
  - rewrite Hg' in Hg. injection Hg as <- <- <-. by destruct (IH _ _ Hd') as [-> ->].
Qed.

Lemma starts_with_head x b y s : x ≠ y → starts_with (x :: b) (y :: s) = false.
Proof. intros Hne. apply bool_decide_eq_false. cbn [length take]. congruence. Qed.

Lemma FindAndDelete_p2pkh h (sig : valtype) : length h = 20%nat → 1 < size sig <= 75 → size sig ≠ 20 →
  (FindAndDelete (p2pkh h) (size sig :: sig)).1 = p2pkh h.
Proof.
  intros Hh Hs Hne. destruct (FindAndDelete_deleted (p2pkh h) (size sig :: sig)) as (r & n & -> & Hd); [done|].
  cbn. assert (undeleted (size sig :: sig) (p2pkh h)) as Hu; [|by apply Hu in Hd as [-> _]].
  destruct (push_data_parse h (0x14 :: h) [OP_EQUALVERIFY; OP_CHECKSIG]) as (op & _ & Hg).
  { unfold push_data, size. by rewrite Hh. }
  unfold p2pkh. eapply undeleted_step; [apply starts_with_head; lia|done|].
  eapply undeleted_step; [apply starts_with_head; lia|done|].
  eapply undeleted_step; [apply starts_with_head; lia|exact Hg|].
  eapply undeleted_step; [apply starts_with_head; lia|done|].
  eapply undeleted_step; [apply starts_with_head; lia|done|]. by apply undeleted_nil.
Qed.

(** ** Lemmas: multisig *)

Section Multisig.
Context `{Crypto} `{SignatureChecker}.
Variable flags : Z.
Variable sigversion : SigVersion.
Variable code : CScript.

(** An assignment of keys to signatures that keeps the order of both. *)
Inductive matching : list valtype → list valtype → Prop :=
| matching_nil keys : matching [] keys
| matching_take sig key sigs keys : CheckSig sig key code sigversion = true →
    matching sigs keys → matching (sig :: sigs) (key :: keys)
| matching_skip key sigs keys : matching sigs keys → matching sigs (key :: keys).

Lemma matching_length sigs keys : matching sigs keys → size sigs <= size keys.
Proof. induction 1; rewrite ?size_cons in *; [unfold size; cbn; lia|lia..]. Qed.

Lemma matching_tail sig sigs keys : matching (sig :: sigs) keys → matching sigs keys.
Proof.
  remember (sig :: sigs) as l eqn:E. intros Hm. revert sig sigs E.
  induction Hm as [|s k ss ks Hc Hm IH|k ss ks Hm IH]; intros sig sigs E; [done| |].
  - injection E as -> ->. by apply matching_skip.
  - apply matching_skip. by eapply IH.
Qed.

(** Taking the first key that fits loses no assignment. *)
Lemma matching_greedy sig key sigs keys : CheckSig sig key code sigversion = true →
  matching (sig :: sigs) (key :: keys) ↔ matching sigs keys.
Proof.
  intros Hc. split; [|by apply matching_take].
  intros Hm. inversion Hm; subst; [done|by eapply matching_tail].
Qed.

Lemma matching_reject sig key sigs keys : CheckSig sig key code sigversion = false →
  matching (sig :: sigs) (key :: keys) ↔ matching (sig :: sigs) keys.
Proof. intros Hc. split; [|by apply matching_skip]. intros Hm. inversion Hm; subst; [congruence|done]. Qed.

Lemma multisig_loop_spec sigs keys :
  Forall (fun s => CheckSignatureEncoding s flags = Ok tt) sigs →
  Forall (fun k => CheckPubKeyEncoding k flags sigversion = Ok tt) keys →
  ∃ b, multisig_loop flags sigversion code keys sigs = Ok b ∧ (b = true ↔ matching sigs keys).
Proof.
  intros Hs Hk; revert sigs Hs. induction Hk as [|key keys Hkey Hk IH]; intros sigs Hs.
  - destruct sigs as [|s sigs]; [exists true; split; [done|]; split; [constructor|done]|].
    exists false. split; [done|]. split; [done|]. intros Hm. inversion Hm.
  - destruct Hs as [|sig sigs Hsig Hs]; [exists true; split; [done|]; split; [constructor|done]|].
    cbn [multisig_loop]. rewrite Hsig, Hkey. cbn [rbind].
    assert (∀ l, size l > size keys → ¬ matching l keys) as Hlen.
    { intros l Hl Hm%matching_length. lia. }
    destruct (CheckSig sig key code sigversion) eqn:Hc.
    + setoid_rewrite matching_greedy; [|done]. destruct (Z.gtb_spec (size sigs) (size keys)); [|by apply IH].
      exists false. split; [done|]. split; [done|]. intros Hm. by apply Hlen in Hm; [|lia].
    + setoid_rewrite matching_reject; [|done].
      destruct (Z.gtb_spec (size (sig :: sigs)) (size keys)); [|apply IH; by constructor].
      exists false. split; [done|]. split; [done|]. intros Hm. by apply Hlen in Hm; [|lia].
Qed.
End Multisig.

(** ** Lemmas: DER signatures *)

(** A positive integer in its shortest big-endian form. *)
Definition der_int (l : valtype) : Prop :=
  match l with
  | [] => False
  | b :: rest => b < 128 ∧ (b = 0 → match rest with [] => True | c :: _ => 128 <= c end)
  end.

Definition der_signature (R S : valtype) (hashtype : Z) : valtype :=
  0x30 :: (size R + size S + 4) :: 0x02 :: size R :: R ++ 0x02 :: size S :: S ++ [hashtype].

Definition der_frame (x0 x1 x2 : Z) (R : valtype) (y lenS : Z) (S : valtype) (hashtype : Z) : valtype :=
  x0 :: x1 :: x2 :: size R :: R ++ y :: lenS :: S ++ [hashtype].

Lemma der_frame_size x0 x1 x2 R y lenS S ht : size (der_frame x0 x1 x2 R y lenS S ht) = size R + size S + 7.
Proof. unfold der_frame. rewrite !size_cons, size_app, !size_cons, size_app. change (size [ht]) with 1. lia. Qed.

(** Reading a frame past its first four bytes, past [R] and past the second header. *)
Lemma der_frame_nth x0 x1 x2 R y lenS S ht :
  let sig := der_frame x0 x1 x2 R y lenS S ht in
  nth (Z.to_nat (size R + 4)) sig 0 = y ∧ nth (Z.to_nat (5 + size R)) sig 0 = lenS ∧
  nth (Z.to_nat (size R + 6)) sig 0 = nth 0 (S ++ [ht]) 0 ∧
  nth (Z.to_nat (size R + 7)) sig 0 = nth 1 (S ++ [ht]) 0 ∧
  nth 4 sig 0 = nth 0 (R ++ [y; lenS]) 0 ∧ nth 5 sig 0 = nth 1 (R ++ [y; lenS]) 0.
Proof.
  cbn zeta. unfold der_frame.
  assert (∀ j, 0 <= j → nth (Z.to_nat (size R + 4 + j)) (x0 :: x1 :: x2 :: size R :: R ++ y :: lenS :: S ++ [ht]) 0
    = nth (Z.to_nat j) (y :: lenS :: S ++ [ht]) 0) as Hr.
  { intros j Hj. replace (Z.to_nat (size R + 4 + j)) with (4 + (length R + Z.to_nat j))%nat
      by (unfold size; lia). cbn [Nat.add nth]. rewrite app_nth2 by lia.
    by replace (length R + Z.to_nat j - length R)%nat with (Z.to_nat j) by lia. }
  split_and!.
  - rewrite <- (Z.add_0_r (size R + 4)). by rewrite Hr.
  - replace (5 + size R) with (size R + 4 + 1) by lia. by rewrite Hr.
  - replace (size R + 6) with (size R + 4 + 2) by lia. by rewrite Hr.
  - replace (size R + 7) with (size R + 4 + 3) by lia. by rewrite Hr.
  - by destruct R.
  - by destruct R as [|? [|? ?]].
Qed.

Lemma der_frame_exists sig lr ls : at_ sig 3 = lr → at_ sig (Z.to_nat (5 + lr)) = ls →
  0 <= lr → 0 <= ls → lr + ls + 7 = size sig →
  ∃ R y S ht, sig = der_frame (at_ sig 0) (at_ sig 1) (at_ sig 2) R y (size S) S ht ∧ size R = lr ∧ size S = ls.
Proof.
  intros H3 Hls HR HS Hsum.
  destruct sig as [|x0 [|x1 [|x2 [|x3 t]]]]; try (unfold size in Hsum; cbn in Hsum; lia).
  change (x3 = lr) in H3. subst x3. rewrite !size_cons in *. set (R := take (Z.to_nat lr) t).
  assert (size R = lr) as HszR by (unfold R, size in *; rewrite length_take; lia).
  destruct (drop (Z.to_nat lr) t) as [|y [|z u]] eqn:E.
  1, 2: assert (length (drop (Z.to_nat lr) t) <= 1)%nat as Hl by (rewrite E; cbn; lia);
    rewrite length_drop in Hl; unfold size in *; lia.
  assert (size u = ls + 1) as Hu.
  { assert (length (drop (Z.to_nat lr) t) = S (S (length u))) as Hl by (by rewrite E).
    rewrite length_drop in Hl. unfold size in *. lia. }
  assert (t = R ++ y :: z :: u) as Ht by (unfold R; rewrite <- E; by rewrite take_drop).
  assert (z = ls) as Hz.
  { rewrite <- Hls. replace (Z.to_nat (5 + lr)) with (4 + (length R + 1))%nat by (unfold size in *; lia).
    cbn [Nat.add nth]. rewrite Ht, app_nth2 by lia. by replace (length R + 1 - length R)%nat with 1%nat by lia. }
  destruct (list_snoc u) as (S & ht & ->); [intros ->; unfold size in Hu; cbn in Hu; lia|].
  exists R, y, S, ht. rewrite size_app in Hu. change (size [ht]) with 1 in Hu.
  split_and!; [|done|lia]. unfold der_frame. cbn [nth]. rewrite HszR. rewrite Ht at 1. subst z.
  by replace (size S) with ls by lia.
Qed.

Lemma der_int_tests R rest : bytes_ok R →
  (size R ≠ 0 ∧ Z.land (nth 0 (R ++ rest) 0) 0x80 = 0 ∧
   (size R >? 1) && (nth 0 (R ++ rest) 0 =? 0) && (Z.land (nth 1 (R ++ rest) 0) 0x80 =? 0) = false)
  ↔ der_int R.
Proof.
  intros Hb. rewrite <- (Z.eqb_eq (Z.land _ _)). destruct R as [|b [|b' R]]; [cbn; tauto| |].
  - inv Hb. cbn [app nth der_int]. rewrite byte_land_80, Z.ltb_lt by done. change (size [b]) with 1. split; [tauto|].
    intros [? _]. by split_and!.
  - inv Hb. inv H2. cbn [app nth]. rewrite !byte_land_80, Z.ltb_lt by done. rewrite !size_cons.
    pose proof (size_nonneg R). destruct (Z.gtb_spec (1 + (1 + size R)) 1); [|lia]. cbn [andb der_int].
    destruct (Z.eqb_spec b 0), (Z.ltb_spec b' 128); cbn [andb]; (split; [intros (? & ? & ?)|intros [? Hc]]);
      split_and!; try done; try lia; specialize (Hc ltac:(done)); lia.
Qed.

Lemma reject_if (c k : bool) : (if c then false else k) = true ↔ c = false ∧ k = true.
Proof. by destruct c, k; intuition. Qed.

Lemma der_frame_valid x0 x1 x2 R y S ht : bytes_ok R → bytes_ok S →
  IsValidSignatureEncoding (der_frame x0 x1 x2 R y (size S) S ht) = true ↔
  size R + size S + 7 <= 73 ∧ x0 = 0x30 ∧ x1 = size R + size S + 4 ∧ x2 = 0x02 ∧ y = 0x02 ∧ der_int R ∧ der_int S.
Proof.
  intros HR HS. destruct (der_frame_nth x0 x1 x2 R y (size S) S ht) as (E1 & E2 & E3 & E4 & E5 & E6).
  set (sig := der_frame x0 x1 x2 R y (size S) S ht) in *. assert (at_ sig 3 = size R) as E7 by done.
  unfold IsValidSignatureEncoding. rewrite E7, E1, E2, E3, E4, E5, E6.
  assert (size sig = size R + size S + 7) as -> by apply der_frame_size.
  change (at_ sig 0) with x0. change (at_ sig 1) with x1. change (at_ sig 2) with x2.
  pose proof (size_nonneg R). pose proof (size_nonneg S).
  repeat rewrite reject_if. rewrite !negb_false_iff, !Z.eqb_eq, !Z.eqb_neq.
  rewrite Z.ltb_ge, Z.gtb_ltb, Z.ltb_ge, Z.geb_leb, Z.leb_gt.
  rewrite <- (der_int_tests R [y; size S]), <- (der_int_tests S [ht]) by done. intuition lia.
Qed.

Lemma at_bytes l i : bytes_ok l → is_byte (at_ l i).
Proof.
  intros Hl. destruct (nth_in_or_default i l 0) as [Hin| ->]; [|unfold is_byte; lia].
  unfold bytes_ok in Hl. rewrite List.Forall_forall in Hl. auto.
Qed.

Lemma signature_encoding_shape sig : bytes_ok sig →
  IsValidSignatureEncoding sig = true ↔
  ∃ R S ht, sig = der_signature R S ht ∧ der_int R ∧ der_int S ∧ size sig <= 73.
Proof.
  intros Hb. split.
  - intros Hv. set (lr := at_ sig 3). set (ls := at_ sig (Z.to_nat (5 + lr))).
    assert (0 <= lr) as Hlr by apply (at_bytes sig 3 Hb).
    assert (0 <= ls) as Hls by apply (at_bytes sig (Z.to_nat (5 + lr)) Hb).
    assert (lr + ls + 7 = size sig) as Hsum.
    { unfold IsValidSignatureEncoding in Hv. fold lr in Hv. fold ls in Hv. rewrite !reject_if in Hv.
      apply Z.eqb_eq, negb_false_iff. tauto. }
    destruct (der_frame_exists sig lr ls eq_refl eq_refl Hlr Hls Hsum) as (R & y & S & ht & E & HR & HS).
    assert (bytes_ok R ∧ bytes_ok S) as [HbR HbS].
    { rewrite E in Hb. unfold der_frame in Hb. do 4 apply Forall_cons in Hb as [_ Hb].
      apply bytes_ok_app in Hb as [? Hb]. do 2 apply Forall_cons in Hb as [_ Hb]. apply bytes_ok_app in Hb as [? _]. done. }
    rewrite E in Hv. apply der_frame_valid in Hv as (Hmax & H0 & H1 & H2 & -> & HdR & HdS); [|done..].
    exists R, S, ht. split_and!; [|done|done|lia]. rewrite E, H0, H1, H2. done.
  - intros (R & S & ht & -> & HR & HS & Hmax).
    change (der_signature R S ht) with (der_frame 0x30 (size R + size S + 4) 0x02 R 0x02 (size S) S ht) in *.
    rewrite der_frame_size in Hmax. unfold der_frame in Hb. do 4 apply Forall_cons in Hb as [_ Hb].
    apply bytes_ok_app in Hb as [? Hb]. do 2 apply Forall_cons in Hb as [_ Hb]. apply bytes_ok_app in Hb as [? _].
    apply der_frame_valid; [done..|]. split_and!; (done || lia).
Qed.

(** ** Lemmas: a whole [OP_CHECKMULTISIG] *)

Section MultisigOp.
Context `{Crypto} `{SignatureChecker}.
Variable flags : Z.
Variable sigversion : SigVersion.

Definition nonempty (e : valtype) : bool := negb (size e =? 0).

Lemma multisig_cleanup_pre ok pre n stk :
  multisig_cleanup flags (length pre + n) ok (size pre) (pre ++ stk) = multisig_cleanup flags n ok 0 stk.
Proof.
  induction pre as [|x pre IH]; [done|]. cbn [length Nat.add app multisig_cleanup]. rewrite size_cons.
  pose proof (size_nonneg pre). destruct (Z.eqb_spec (1 + size pre) 0); [lia|]. rewrite andb_false_r. cbn [andb].
  destruct (Z.gtb_spec (1 + size pre) 0); [|lia]. replace (1 + size pre - 1) with (size pre) by lia. apply IH.
Qed.

Lemma multisig_cleanup_sigs ok sigs rest :
  multisig_cleanup flags (length sigs) ok 0 (sigs ++ rest) =
  if negb ok && flag_set flags SCRIPT_VERIFY_NULLFAIL && existsb nonempty sigs
  then fail SCRIPT_ERR_SIG_NULLFAIL else Ok rest.
Proof.
  induction sigs as [|s sigs IH]; [cbn; by rewrite andb_false_r|].
  cbn [length app multisig_cleanup existsb]. change (0 =? 0) with true. rewrite andb_true_r. fold (nonempty s).
  change (0 >? 0) with false. cbv iota. rewrite IH.
  by destruct (negb ok && flag_set flags SCRIPT_VERIFY_NULLFAIL), (nonempty s).
Qed.

(** The stack of a multisig check: key count, keys, signature count, signatures, dummy. *)
Definition multisig_stack (keys sigs : list valtype) (dummy : valtype) (rest : list valtype) : list valtype :=
  serialize (size keys) :: keys ++ serialize (size sigs) :: sigs ++ dummy :: rest.

Lemma num_small n : 0 <= n <= 20 → num flags (serialize n) = Ok n ∧ getint n = n.
Proof.
  intros Hn. unfold num, to_num. rewrite CScriptNum_serialize by (unfold nDefaultMaxNumSize; lia).
  split; [done|]. unfold getint. destruct (Z.gtb_spec n (2 ^ 31 - 1)), (Z.ltb_spec n (- 2 ^ 31)); lia.
Qed.

Lemma multisig_args_spec st keys sigs dummy rest :
  st_stack st = multisig_stack keys sigs dummy rest → size keys <= MAX_PUBKEYS_PER_MULTISIG →
  size sigs <= size keys → st_nOpCount st + size keys <= MAX_OPS_PER_SCRIPT →
  multisig_args flags st = Ok (set_nOpCount st (st_nOpCount st + size keys), keys, sigs).
Proof.
  intros Hst Hk Hs Hops. pose proof (size_nonneg keys) as Hk0. pose proof (size_nonneg sigs) as Hs0.
  pose proof (size_nonneg rest). unfold multisig_args. rewrite Hst. unfold multisig_stack.
  assert (size (serialize (size keys) :: keys ++ serialize (size sigs) :: sigs ++ dummy :: rest)
    = size keys + size sigs + 3 + size rest) as -> by (rewrite !size_cons, size_app, size_cons, size_app, size_cons; lia).
  unfold MAX_PUBKEYS_PER_MULTISIG in *.
  destruct (Z.ltb_spec (size keys + size sigs + 3 + size rest) 1); [lia|]. cbn [nth].
  destruct (num_small (size keys)) as [-> Hgk]; [lia|]. cbn [rbind]. rewrite Hgk.
  destruct (Z.ltb_spec (size keys) 0), (Z.gtb_spec (size keys) 20); try lia. cbn [orb set_nOpCount st_nOpCount].
  destruct (Z.gtb_spec (st_nOpCount st + size keys) MAX_OPS_PER_SCRIPT); [lia|].
  destruct (Z.ltb_spec (size keys + size sigs + 3 + size rest) (2 + size keys)); [lia|].
  replace (Z.to_nat (size keys)) with (length keys) by (unfold size; lia).
  cbn [Nat.add nth drop]. rewrite app_nth2, Nat.sub_diag by lia. cbn [nth].
  destruct (num_small (size sigs)) as [-> Hgs]; [lia|]. cbn [rbind]. rewrite Hgs.
  destruct (Z.ltb_spec (size sigs) 0), (Z.gtb_spec (size sigs) (size keys)); try lia. cbn [orb].
  destruct (Z.ltb_spec (size keys + size sigs + 3 + size rest) (3 + size keys + size sigs)); [lia|].
  replace (Z.to_nat (size sigs)) with (length sigs) by (unfold size; lia).
  rewrite drop_0, take_app_length. do 2 f_equal.
  replace (S (length keys)) with (length (keys ++ [serialize (size sigs)])) by (rewrite length_app; cbn; lia).
  replace (keys ++ serialize (size sigs) :: sigs ++ dummy :: rest)
    with ((keys ++ [serialize (size sigs)]) ++ sigs ++ dummy :: rest) by (by rewrite <- app_assoc).
  by rewrite drop_app_length, take_app_length.
Qed.

Lemma op_checkmultisig_spec st keys sigs dummy rest code :
  st_stack st = multisig_stack keys sigs dummy rest → size keys <= MAX_PUBKEYS_PER_MULTISIG →
  size sigs <= size keys → st_nOpCount st + size keys <= MAX_OPS_PER_SCRIPT →
  drop_signatures sigversion (st_pbegincodehash st) sigs = Ok code →
  Forall (fun s => CheckSignatureEncoding s flags = Ok tt) sigs →
  Forall (fun k => CheckPubKeyEncoding k flags sigversion = Ok tt) keys →
  ∃ b, (b = true ↔ matching sigversion code sigs keys) ∧
    op_checkmultisig flags sigversion OP_CHECKMULTISIG st =
    if negb b && flag_set flags SCRIPT_VERIFY_NULLFAIL && existsb nonempty sigs then fail SCRIPT_ERR_SIG_NULLFAIL
    else if flag_set flags SCRIPT_VERIFY_NULLDUMMY && nonempty dummy then fail SCRIPT_ERR_SIG_NULLDUMMY
    else Ok (set_stack (set_nOpCount st (st_nOpCount st + size keys)) (bool_vch b :: rest)).
Proof.
  intros Hst Hk Hs Hops Hcode Hse Hke. unfold op_checkmultisig.
  rewrite (multisig_args_spec st keys sigs dummy rest) by done. cbn [rbind set_nOpCount st_pbegincodehash st_stack].
  rewrite Hcode. cbn [rbind].
  destruct (multisig_loop_spec flags sigversion code sigs keys Hse Hke) as (b & -> & Hb). cbn [rbind].
  exists b. split; [done|]. rewrite Hst. unfold multisig_stack.
  set (pre := serialize (size keys) :: keys ++ [serialize (size sigs)]).
  replace (serialize (size keys) :: keys ++ serialize (size sigs) :: sigs ++ dummy :: rest)
    with (pre ++ sigs ++ dummy :: rest) by (unfold pre; cbn [app]; by rewrite <- app_assoc).
  replace (2 + length keys + length sigs)%nat with (length pre + length sigs)%nat
    by (unfold pre; cbn [length]; rewrite length_app; cbn [length]; lia).
  replace (size keys + 2) with (size pre) by (unfold pre; rewrite size_cons, size_app; change (size [_]) with 1; lia).
  rewrite multisig_cleanup_pre, multisig_cleanup_sigs.
  destruct (negb b && flag_set flags SCRIPT_VERIFY_NULLFAIL && existsb nonempty sigs); [done|]. cbn [rbind].
  change (negb (size dummy =? 0)) with (nonempty dummy). by destruct (flag_set flags SCRIPT_VERIFY_NULLDUMMY && nonempty dummy).
Qed.
End MultisigOp.

(** ** Lemmas: verification never aborts *)

Section VerifySafety.
Context `{Crypto} `{SignatureChecker}.
Variable flags : Z.

(** The combinations the assertions require. *)
Definition coherent : Prop :=
  (flag_set flags SCRIPT_VERIFY_CLEANSTACK = true → flag_set flags SCRIPT_VERIFY_WITNESS = true) ∧
  (flag_set flags SCRIPT_VERIFY_WITNESS = true → flag_set flags SCRIPT_VERIFY_P2SH = true).

Lemma witness_v0_safe witness program : Forall bytes_ok witness → bytes_ok program →
  safe (fun '(s, stk) => bytes_ok s ∧ Forall bytes_ok stk) (witness_v0 witness program).
Proof.
  intros Hw Hp. unfold witness_v0, p2pkh_script. assert (Forall bytes_ok (rev witness)) as Hr by (by apply Forall_rev).
  destruct (size program =? 32).
  - destruct (rev witness) as [|s stk]; [done|]. inv Hr. by case_match.
  - destruct (Z.eqb_spec (size program) 20) as [E|]; [|done]. case_match; [done|].
    unfold push_data. rewrite E. change (20 <? 76) with true. cbv iota. cbn [rbind safe]. split; [|done].
    repeat (constructor; [unfold is_byte; lia|]). apply Forall_app. split; [done|].
    repeat (constructor; [unfold is_byte; lia|]). constructor.
Qed.

Lemma VerifyWitnessProgram_safe witness v program : Forall bytes_ok witness → bytes_ok program →
  safe (fun _ => True) (VerifyWitnessProgram flags witness v program).
Proof.
  intros Hw Hp. unfold VerifyWitnessProgram. case_match; [|by case_match].
  eapply safe_bind; [by apply witness_v0_safe|]. intros [s stk] [Hs Hstk].
  destruct (existsb _ stk) eqn:Hex; [done|].
  eapply safe_bind; [apply EvalScript_result; [|done]|].
  - apply Forall_forall. intros e He. split; [|by eapply (proj1 (Forall_forall _ _) Hstk)].
    destruct (Z.gtb_spec (size e) MAX_SCRIPT_ELEMENT_SIZE) as [Hgt|]; [|done]. exfalso.
    assert (existsb (fun e => size e >? MAX_SCRIPT_ELEMENT_SIZE) stk = true); [|congruence].
    apply existsb_exists. exists e. split; [by apply list_elem_of_In|]. rewrite Z.gtb_ltb. by apply Z.ltb_lt.
  - intros [|top [|? ?]] _; try done. by case_match.
Qed.

Lemma IsWitnessProgram_bytes s v p : bytes_ok s → IsWitnessProgram s = Some (v, p) → bytes_ok p.
Proof. intros Hb Hw. apply IsWitnessProgram_shape in Hw as (_ & _ & ->). inv Hb. by inv H4. Qed.

Lemma verify_witness_safe script scriptSig expected e witness stk :
  Forall bytes_ok witness → bytes_ok script → expected ≠ None →
  safe (fun _ => True) (verify_witness flags script scriptSig expected e witness stk).
Proof.
  intros Hw Hs He. unfold verify_witness. case_match; [|done].
  destruct (IsWitnessProgram script) as [[v p]|] eqn:Hp; [|done]. destruct expected as [x|]; [|done]. case_match; [done|].
  eapply safe_bind; [apply VerifyWitnessProgram_safe; [done|by eapply IsWitnessProgram_bytes]|]. done.
Qed.

Lemma eval_true_safe stk : safe (fun _ => True) (eval_true stk).
Proof. unfold eval_true. repeat (case_match; try done). Qed.

Lemma verify_p2sh_safe scriptSig witness stk : Forall bytes_ok witness → Forall elem_ok stk → stk ≠ [] →
  safe (fun _ => True) (verify_p2sh flags scriptSig witness stk).
Proof.
  intros Hw Hstk Hne. unfold verify_p2sh. case_match; [done|]. destruct stk as [|pubKey2 stk]; [done|].
  apply Forall_cons in Hstk as [[Hsz Hb] Hstk]. eapply safe_bind; [by apply EvalScript_result|]. intros s _.
  eapply safe_bind; [apply eval_true_safe|]. intros _ _. apply verify_witness_safe; [done..|].
  unfold push_data, MAX_SCRIPT_ELEMENT_SIZE in *. repeat (case_match; [done|]). breflect. lia.
Qed.

Lemma verify_final_safe stk had witness : coherent → safe (fun _ => True) (verify_final flags stk had witness).
Proof.
  intros [Hc Hw]. unfold verify_final.
  destruct (flag_set flags SCRIPT_VERIFY_CLEANSTACK), (flag_set flags SCRIPT_VERIFY_WITNESS),
    (flag_set flags SCRIPT_VERIFY_P2SH); try (by specialize (Hc eq_refl)); try (by specialize (Hw eq_refl));
    by destruct (size stk =? 1), had, (WitnessIsNull witness).
Qed.

Lemma VerifyScript_safe scriptSig scriptPubKey witness : coherent →
  bytes_ok scriptSig → bytes_ok scriptPubKey → Forall bytes_ok witness →
  safe (fun _ => True) (VerifyScript flags scriptSig scriptPubKey witness).
Proof.
  intros Hco Hsig Hpub Hw. unfold VerifyScript. case_match; [done|].
  eapply safe_bind; [by apply EvalScript_result; [constructor|]|]. intros stackCopy [Hcopy _].
  destruct (EvalScript flags SIGVERSION_BASE stackCopy scriptPubKey) as [stk|e] eqn:Hev.
  2:{ pose proof (EvalScript_result flags SIGVERSION_BASE stackCopy scriptPubKey Hcopy Hpub) as Hres.
      rewrite Hev in Hres. by destruct e. }
  cbn [rbind]. eapply safe_bind; [apply eval_true_safe|]. intros _ _.
  eapply safe_bind; [by apply verify_witness_safe|]. intros [stk' had] _.
  eapply (safe_bind (fun _ => True)); [|by intros [s h] _; apply verify_final_safe].
  destruct (flag_set flags SCRIPT_VERIFY_P2SH && IsPayToScriptHash scriptPubKey) eqn:Hp; [|done].
  apply andb_prop in Hp as [_ Hp]. apply IsPayToScriptHash_shape in Hp as (h & Hh & ->).
  eapply safe_bind; [apply verify_p2sh_safe; [done|done|]|done].
  intros ->. change (OP_HASH160 :: 0x14 :: h ++ [OP_EQUAL]) with (p2sh h) in Hev.
  by rewrite EvalScript_p2sh_empty in Hev.
Qed.
End VerifySafety.

(** ** Properties *)

(** C1: from a stack whose elements have at most 520 bytes (both callers of [EvalScript]
    ensure that), evaluating a script of any bytes ends: within one iteration per script
    byte it returns a stack or one of the script errors, and no assertion of the number
    arithmetic fails.  The elements of a stack it returns have at most 520 bytes, and
    there are at most 1000 of them however many there were before; only the empty script
    returns a larger stack, the one it was given. *)
Theorem EvalScript_bounded `{Crypto} `{SignatureChecker} flags sigversion stack script :
  Forall elem_ok stack → bytes_ok script →
  match EvalScript flags sigversion stack script with
  | Ok stack' => Forall elem_ok stack' ∧ (size stack' <= MAX_STACK_SIZE ∨ script = [] ∧ stack' = stack)
  | Err e => ∃ serror, e = Fail serror
  end.
Proof.
  intros Hstk Hb. pose proof (EvalScript_result flags sigversion stack script Hstk Hb) as Hr.
  destruct (EvalScript flags sigversion stack script) as [s|[]]; cbn in Hr; [naive_solver|eauto|done|done].
Qed.

(** C28: with flags that respect the documented combinations (clean stack needs
    witness, witness needs P2SH), [VerifyScript] never fails one of its
    assertions, in particular the one that the stack is not empty before the
    redeem script is taken from it: it accepts or returns a script error. *)
Theorem VerifyScript_no_abort `{Crypto} `{SignatureChecker} flags scriptSig scriptPubKey witness :
  coherent flags → bytes_ok scriptSig → bytes_ok scriptPubKey → Forall bytes_ok witness →
  VerifyScript flags scriptSig scriptPubKey witness = Ok tt ∨
  ∃ serror, VerifyScript flags scriptSig scriptPubKey witness = Err (Fail serror).
Proof.
  intros Hc Hs Hp Hw. pose proof (VerifyScript_safe flags scriptSig scriptPubKey witness Hc Hs Hp Hw) as Hr.
  destruct (VerifyScript _ _ _ _) as [[]|[]]; cbn in Hr; (done || eauto).
Qed.

(** C29: a pay-to-pubkey-hash output is spent by exactly the right key and signature.
    The scriptSig pushes a signature and a key of 2 to 75 bytes each; the flags respect
    the documented combinations (clean stack needs witness, witness needs P2SH); and the
    signature does not have the 20 bytes of a key hash, which could delete the hash from
    the script that is signed.  Then [VerifyScript] accepts iff the key hashes to the
    program, both encodings pass the checks of the flags, the signature checker accepts
    the signature over the unmodified output script, and, under the witness flag, the
    witness is empty. *)
Theorem p2pkh_spend_exact `{Crypto} `{SignatureChecker} flags h (key sig : valtype) (witness : list valtype) :
  coherent flags → length h = 20%nat → 1 < size sig <= 75 → size sig ≠ 20 → 1 < size key <= 75 →
  VerifyScript flags (size sig :: sig ++ size key :: key) (p2pkh h) witness = Ok tt ↔
  CHash160 key = h ∧ CheckSignatureEncoding sig flags = Ok tt ∧
  CheckPubKeyEncoding key flags SIGVERSION_BASE = Ok tt ∧ CheckSig sig key (p2pkh h) SIGVERSION_BASE = true ∧
  (flag_set flags SCRIPT_VERIFY_WITNESS = true → witness = []).
Proof.
  intros Hc Hh Hs Hs20 Hk. unfold VerifyScript. rewrite IsPushOnly_two_pushes by lia. rewrite andb_false_r.
  rewrite EvalScript_two_pushes by done. cbn [rbind]. rewrite EvalScript_p2pkh by done.
  case_bool_decide as Hhash; [|cbn; naive_solver].
  unfold checksig_result, drop_signature. unfold push_data at 1.
  destruct (Z.ltb_spec (size sig) OP_PUSHDATA1); [|lia]. rewrite FindAndDelete_p2pkh by done. cbn [rbind].
  destruct (CheckSignatureEncoding sig flags) as [[]|]; [|cbn; naive_solver]. cbn [rbind].
  destruct (CheckPubKeyEncoding key flags SIGVERSION_BASE) as [[]|]; [|cbn; naive_solver]. cbn [rbind].
  destruct (CheckSig sig key (p2pkh h) SIGVERSION_BASE); cbn [negb andb].
  - cbn [rbind bool_vch vchTrue eval_true]. change (CastToBool [1]) with true. cbn [rbind].
    assert (length (p2pkh h) = 25%nat) as Hl by (unfold p2pkh; cbn [length]; rewrite length_app, Hh; done).
    assert (IsWitnessProgram (p2pkh h) = None) as Hnw by (unfold IsWitnessProgram, size; by rewrite Hl).
    assert (IsPayToScriptHash (p2pkh h) = false) as Hnp by (unfold IsPayToScriptHash, size; by rewrite Hl).
    unfold verify_witness. rewrite Hnw, Hnp, andb_false_r.
    assert (∀ b : bool, (if b then Ok ([vchTrue], false) else Ok ([vchTrue], false)) = @Ok script_failure _ ([vchTrue], false))
      as Hif by (by intros []). rewrite Hif. cbn [rbind].
    destruct Hc as [Hc1 Hc2]. unfold verify_final.
    destruct (flag_set flags SCRIPT_VERIFY_CLEANSTACK), (flag_set flags SCRIPT_VERIFY_WITNESS),
      (flag_set flags SCRIPT_VERIFY_P2SH); try specialize (Hc1 eq_refl); try specialize (Hc2 eq_refl); try discriminate;
      destruct witness; cbn; naive_solver.
  - destruct (_ && _); cbn; (split; [done|]); by intros (_ & _ & _ & ? & _).
Qed.

(** C30: [OP_CHECKMULTISIG] accepts exactly when the signatures can be assigned to
    keys in order.  With arguments laid out as [multisig_stack] and encodings the
    flags accept, the pushed value is true iff an order-preserving assignment
    exists (the single pass over the keys misses none); a failure with a
    non-empty signature is an error under NULLFAIL, a non-empty dummy under
    NULLDUMMY. *)
Theorem checkmultisig_exact `{Crypto} `{SignatureChecker} flags sigversion st keys sigs dummy rest code :
  st_stack st = multisig_stack keys sigs dummy rest → size keys <= MAX_PUBKEYS_PER_MULTISIG →
  size sigs <= size keys → st_nOpCount st + size keys <= MAX_OPS_PER_SCRIPT →
  drop_signatures sigversion (st_pbegincodehash st) sigs = Ok code →
  Forall (fun s => CheckSignatureEncoding s flags = Ok tt) sigs →
  Forall (fun k => CheckPubKeyEncoding k flags sigversion = Ok tt) keys →
  ∃ b, (b = true ↔ matching sigversion code sigs keys) ∧
    op_checkmultisig flags sigversion OP_CHECKMULTISIG st =
    if negb b && flag_set flags SCRIPT_VERIFY_NULLFAIL && existsb nonempty sigs then fail SCRIPT_ERR_SIG_NULLFAIL
    else if flag_set flags SCRIPT_VERIFY_NULLDUMMY && nonempty dummy then fail SCRIPT_ERR_SIG_NULLDUMMY
    else Ok (set_stack (set_nOpCount st (st_nOpCount st + size keys)) (bool_vch b :: rest)).
Proof. apply op_checkmultisig_spec. Qed.

(** [IsValidSignatureEncoding] accepts exactly the strict DER encodings of two
    positive integers in shortest form, followed by a hash-type byte, of at most 73
    bytes. *)
Theorem signature_encoding_exact sig : bytes_ok sig →
  IsValidSignatureEncoding sig = true ↔
  ∃ R S ht, sig = der_signature R S ht ∧ der_int R ∧ der_int S ∧ size sig <= 73.
Proof. apply signature_encoding_shape. Qed.

(** ** Witnesses *)

(** Hashers that pad or cut the message, and a checker that accepts a signature
    equal to its key with a byte in front. *)
Definition toy_hash (n : nat) (m : valtype) : valtype := map (uwrap 8) (take n (m ++ replicate n 0)).
Lemma toy_hash_output n m : length (toy_hash n m) = n ∧ bytes_ok (toy_hash n m).
Proof.
  unfold toy_hash. split.
  - rewrite length_map, length_take, length_app, length_replicate. lia.
  - apply Forall_map, Forall_true. intros b. apply (uwrap_range 8). lia.
Qed.
#[local] Instance toy_crypto : Crypto := {|
  CRIPEMD160 := toy_hash 20; CSHA1 := toy_hash 20; CSHA256 := toy_hash 32;
  CheckLowS _ := true; PubKey_Verify _ _ _ := true;
  ripemd160_output := toy_hash_output 20; sha1_output := toy_hash_output 20; sha256_output := toy_hash_output 32 |}.
#[local] Instance toy_checker : SignatureChecker := {|
  CheckSig sig key _ _ := bool_decide (sig = 9 :: key); CheckLockTime _ := true; CheckSequence _ := true |}.

Definition toy_key : valtype := 0x02 :: replicate 32 7.
Definition toy_flags : Z := Z.lor SCRIPT_VERIFY_P2SH SCRIPT_VERIFY_WITNESS.

Lemma EvalScript_bounded_witness :
  match EvalScript toy_flags SIGVERSION_BASE [[2]] [OP_DUP; OP_ADD; OP_4; OP_EQUAL] with
  | Ok stack' => Forall elem_ok stack' ∧ (size stack' <= MAX_STACK_SIZE ∨ [OP_DUP; OP_ADD; OP_4; OP_EQUAL] = [] ∧ stack' = [[2]])
  | Err e => ∃ serror, e = Fail serror
  end ∧ EvalScript toy_flags SIGVERSION_BASE [[2]] [OP_DUP; OP_ADD; OP_4; OP_EQUAL] = Ok [[1]].
Proof.
  split; [|vm_compute; reflexivity]. apply EvalScript_bounded.
  - repeat constructor; try lia. vm_compute. discriminate.
  - repeat constructor; lia.
Defined.

Lemma VerifyScript_no_abort_witness :
  VerifyScript toy_flags [3; OP_1; OP_1; OP_ADD] (p2sh (toy_hash 20 [OP_1; OP_1; OP_ADD])) [] = Ok tt ∨
  ∃ serror, VerifyScript toy_flags [3; OP_1; OP_1; OP_ADD] (p2sh (toy_hash 20 [OP_1; OP_1; OP_ADD])) [] = Err (Fail serror).
Proof.
  apply VerifyScript_no_abort.
  - split; done.
  - repeat constructor; lia.
  - vm_compute. repeat constructor; discriminate.
  - constructor.
Defined.

Lemma p2pkh_spend_exact_witness :
  VerifyScript toy_flags (size (9 :: toy_key) :: (9 :: toy_key) ++ size toy_key :: toy_key) (p2pkh (CHash160 toy_key)) [] = Ok tt.
Proof.
  apply (p2pkh_spend_exact toy_flags (CHash160 toy_key) toy_key (9 :: toy_key) []); try (vm_compute; done).
Defined.

Lemma checkmultisig_exact_witness :
  ∃ b, (b = true ↔ matching SIGVERSION_WITNESS_V0 [] [[9; 2]; [9; 4]] [[2]; [3]; [4]]) ∧
    op_checkmultisig 0 SIGVERSION_WITNESS_V0 OP_CHECKMULTISIG
      (mkEval (multisig_stack [[2]; [3]; [4]] [[9; 2]; [9; 4]] [] []) [] [] [] 1) =
    Ok (mkEval [bool_vch b] [] [] [] 4).
Proof.
  destruct (checkmultisig_exact 0 SIGVERSION_WITNESS_V0
    (mkEval (multisig_stack [[2]; [3]; [4]] [[9; 2]; [9; 4]] [] []) [] [] [] 1)
    [[2]; [3]; [4]] [[9; 2]; [9; 4]] [] [] []) as (b & Hb & Hop);
    [done|done|done|done|done|repeat constructor|repeat constructor|].
  exists b. split; [exact Hb|]. rewrite Hop. change (flag_set 0 SCRIPT_VERIFY_NULLFAIL) with false.
    rewrite andb_false_r. reflexivity.
Defined.

Lemma signature_encoding_exact_witness :
  IsValidSignatureEncoding [0x30; 6; 0x02; 1; 5; 0x02; 1; 6; 1] = true.
Proof.
  apply signature_encoding_exact; [repeat constructor; lia|].
  exists [5], [6], 1. split_and!; [done|cbn; lia|cbn; lia|vm_compute; discriminate].
Defined.
