(* ===== verification/SigHash.v ===== *)
(** * Signature hashes and the transaction signature checker:
    src/src/script/interpreter.cpp (from CTransactionSignatureSerializer to
    CheckSequence), src/src/pubkey.h

    What a signature commits to, as the bytes that are hashed, and the instance of
    [SignatureChecker] that verifies the inputs of a transaction. *)

From S2P Require Import Prelude Serialize Transaction Script Interpreter.

(** ** The bytes of a legacy signature hash *)

(** How many [OP_CODESEPARATOR]s [GetOp] meets. *)
Fixpoint count_separators (fuel : nat) (it : CScript) (nCodeSeparators : Z) : Z :=
  match fuel with
  | O => nCodeSeparators
  | S f =>
      match GetOp2 it with
      | GotOp opcode _ it =>
          count_separators f it (if opcode =? OP_CODESEPARATOR then nCodeSeparators + 1 else nCodeSeparators)
      | NoOp _ => nCodeSeparators
      end
  end.

(** The second pass: what has been written, [itBegin] and [it]. *)
Fixpoint write_sections (fuel : nat) (itBegin it : CScript) (written : list Z) : list Z * CScript * CScript :=
  match fuel with
  | O => (written, itBegin, it)
  | S f =>
      match GetOp2 it with
      | GotOp opcode _ it =>
          if opcode =? OP_CODESEPARATOR
          then write_sections f it it (written ++ take (length itBegin - length it - 1) itBegin)
          else write_sections f itBegin it written
      | NoOp it => (written, itBegin, it)
      end
  end.

Definition SerializeScriptCode (scriptCode : CScript) : list Z :=
  let fuel := S (length scriptCode) in
  let nCodeSeparators := count_separators fuel scriptCode 0 in
  let '(written, itBegin, it) := write_sections fuel scriptCode scriptCode [] in
  WriteCompactSize (size scriptCode - nCodeSeparators)
  ++ written ++ (match itBegin with [] => [] | _ => take (length itBegin - length it) itBegin end).

Section Serializer.
Variable txTo : CTransaction.
Variable scriptCode : CScript.
Variable nIn : nat.
Variable nHashType : Z.

Definition fAnyoneCanPay : bool := negb (Z.land nHashType SIGHASH_ANYONECANPAY =? 0).
Definition fHashSingle : bool := Z.land nHashType 0x1f =? SIGHASH_SINGLE.
Definition fHashNone : bool := Z.land nHashType 0x1f =? SIGHASH_NONE.

Definition TxIn_default : CTxIn := mkTxIn OutPoint_null [] SEQUENCE_FINAL [].
Definition input_at (i : nat) : CTxIn := nth i (vin txTo) TxIn_default.

Definition SerializeInput (nInput : nat) : list Z :=
  let nInput := if fAnyoneCanPay then nIn else nInput in
  ser_OutPoint (prevout (input_at nInput))
  ++ (if negb (nInput =? nIn)%nat then Serialize_bytes [] else SerializeScriptCode scriptCode)
  ++ (if negb (nInput =? nIn)%nat && (fHashSingle || fHashNone)
      then ser_int32 0 else ser_writedata32 (nSequence (input_at nInput))).

Definition SerializeOutput (nOutput : nat) : list Z :=
  if fHashSingle && negb (nOutput =? nIn)%nat then ser_TxOut TxOut_null
  else ser_TxOut (nth nOutput (vout txTo) TxOut_null).

Definition SerializeSignature : list Z :=
  let nInputs := if fAnyoneCanPay then 1%nat else length (vin txTo) in
  let nOutputs := if fHashNone then 0%nat else if fHashSingle then (nIn + 1)%nat else length (vout txTo) in
  ser_int32 (tx_nVersion txTo)
  ++ WriteCompactSize (Z.of_nat nInputs) ++ concat (map SerializeInput (seq 0 nInputs))
  ++ WriteCompactSize (Z.of_nat nOutputs) ++ concat (map SerializeOutput (seq 0 nOutputs))
  ++ ser_writedata32 (nLockTime txTo).
End Serializer.

(** ** Signature hashes *)

Record PrecomputedTransactionData := mkPrecomputed {
  pre_hashPrevouts : uint256;
  pre_hashSequence : uint256;
  pre_hashOutputs : uint256;
  pre_ready : bool
}.

(** [uint256S("00..01")], least significant byte first *)
Definition uint256_one : uint256 := 1 :: replicate 31 0.

Section SigHash.
Context `{Crypto}.

(** [CHashWriter::GetHash] over what was written *)
Definition hash_writer (written : list Z) : uint256 := CHash256 written.

Definition GetPrevoutHash (txTo : CTransaction) : uint256 :=
  hash_writer (concat (map (fun txin => ser_OutPoint (prevout txin)) (vin txTo))).
Definition GetSequenceHash (txTo : CTransaction) : uint256 :=
  hash_writer (concat (map (fun txin => ser_writedata32 (nSequence txin)) (vin txTo))).
Definition GetOutputsHash (txTo : CTransaction) : uint256 :=
  hash_writer (concat (map ser_TxOut (vout txTo))).

Definition precompute (txTo : CTransaction) : PrecomputedTransactionData :=
  if HasWitness txTo
  then mkPrecomputed (GetPrevoutHash txTo) (GetSequenceHash txTo) (GetOutputsHash txTo) true
  else mkPrecomputed blob_null blob_null blob_null false.

(** The bytes hashed for a version-0 witness program. *)
Definition witness_preimage (scriptCode : CScript) (txTo : CTransaction) (nIn : nat) (nHashType amount : Z)
    (cache : option PrecomputedTransactionData) : list Z :=
  let cached (f : PrecomputedTransactionData → uint256) (h : uint256) :=
    match cache with Some c => if pre_ready c then f c else h | None => h end in
  let anyone := negb (Z.land nHashType SIGHASH_ANYONECANPAY =? 0) in
  let single := Z.land nHashType 0x1f =? SIGHASH_SINGLE in
  let none := Z.land nHashType 0x1f =? SIGHASH_NONE in
  let hashPrevouts := if negb anyone then cached pre_hashPrevouts (GetPrevoutHash txTo) else blob_null in
  let hashSequence :=
    if negb anyone && negb single && negb none then cached pre_hashSequence (GetSequenceHash txTo) else blob_null in
  let hashOutputs :=
    if negb single && negb none then cached pre_hashOutputs (GetOutputsHash txTo)
    else if single && (Z.of_nat nIn <? size (vout txTo)) then hash_writer (ser_TxOut (nth nIn (vout txTo) TxOut_null))
    else blob_null in
  let txin := input_at txTo nIn in
  ser_int32 (tx_nVersion txTo) ++ ser_uint256 hashPrevouts ++ ser_uint256 hashSequence
  ++ ser_OutPoint (prevout txin) ++ Serialize_bytes scriptCode ++ ser_int64 amount
  ++ ser_writedata32 (nSequence txin) ++ ser_uint256 hashOutputs
  ++ ser_writedata32 (nLockTime txTo) ++ ser_int32 nHashType.

(** [None] when the assertion on [nIn] fails. *)
Definition SignatureHash (scriptCode : CScript) (txTo : CTransaction) (nIn : nat) (nHashType amount : Z)
    (sigversion : SigVersion) (cache : option PrecomputedTransactionData) : option uint256 :=
  if negb (Z.of_nat nIn <? size (vin txTo)) then None
  else
    match sigversion with
    | SIGVERSION_WITNESS_V0 =>
        Some (hash_writer (witness_preimage scriptCode txTo nIn nHashType amount cache))
    | SIGVERSION_BASE =>
        if (Z.land nHashType 0x1f =? SIGHASH_SINGLE) && (Z.of_nat nIn >=? size (vout txTo)) then Some uint256_one
        else Some (hash_writer (SerializeSignature txTo scriptCode nIn nHashType ++ ser_int32 nHashType))
    end.

(** ** CPubKey and the checker *)

Definition PubKey_GetLen (chHeader : Z) : Z :=
  if (chHeader =? 2) || (chHeader =? 3) then 33
  else if (chHeader =? 4) || (chHeader =? 6) || (chHeader =? 7) then 65
  else 0.

(** The key data after [CPubKey(vch)], [None] when it is invalid. *)
Definition PubKey_Set (vch : valtype) : option valtype :=
  let len := match vch with [] => 0 | b :: _ => PubKey_GetLen b end in
  if negb (len =? 0) && (len =? size vch) then Some vch else None.

Variable txTo : CTransaction.
Variable nIn : nat.
Variable amount : Z.
Variable txdata : option PrecomputedTransactionData.

Definition tx_CheckSig (vchSigIn vchPubKey : valtype) (scriptCode : CScript) (sigversion : SigVersion) : bool :=
  match PubKey_Set vchPubKey, vchSigIn with
  | None, _ => false
  | Some _, [] => false
  | Some pubkey, _ =>
      let nHashType := List.last vchSigIn 0 in
      match SignatureHash scriptCode txTo nIn nHashType amount sigversion txdata with
      | Some sighash => PubKey_Verify pubkey sighash (removelast vchSigIn)
      | None => false   (* the assertion fails *)
      end
  end.

Definition tx_CheckLockTime (nLockTime_arg : Z) : bool :=
  if negb (((nLockTime txTo <? LOCKTIME_THRESHOLD) && (nLockTime_arg <? LOCKTIME_THRESHOLD))
           || ((nLockTime txTo >=? LOCKTIME_THRESHOLD) && (nLockTime_arg >=? LOCKTIME_THRESHOLD))) then false
  else if nLockTime_arg >? nLockTime txTo then false
  else if SEQUENCE_FINAL =? nSequence (input_at txTo nIn) then false
  else true.

Definition tx_CheckSequence (nSequence_arg : Z) : bool :=
  let txToSequence := nSequence (input_at txTo nIn) in
  if u32 (tx_nVersion txTo) <? 2 then false
  else if negb (Z.land txToSequence SEQUENCE_LOCKTIME_DISABLE_FLAG =? 0) then false
  else
    let nLockTimeMask := Z.lor SEQUENCE_LOCKTIME_TYPE_FLAG SEQUENCE_LOCKTIME_MASK in
    let txToSequenceMasked := Z.land txToSequence nLockTimeMask in
    let nSequenceMasked := Z.land nSequence_arg nLockTimeMask in
    if negb (((txToSequenceMasked <? SEQUENCE_LOCKTIME_TYPE_FLAG) && (nSequenceMasked <? SEQUENCE_LOCKTIME_TYPE_FLAG))
             || ((txToSequenceMasked >=? SEQUENCE_LOCKTIME_TYPE_FLAG) && (nSequenceMasked >=? SEQUENCE_LOCKTIME_TYPE_FLAG)))
    then false
    else if nSequenceMasked >? txToSequenceMasked then false
    else true.

Definition TransactionSignatureChecker : SignatureChecker :=
  {| CheckSig := tx_CheckSig; CheckLockTime := tx_CheckLockTime; CheckSequence := tx_CheckSequence |}.

End SigHash.

(** ** Lemmas: script code *)

(** Scripts that parse to their end. *)
Inductive well_formed : CScript → Prop :=
| well_formed_nil : well_formed []
| well_formed_op op v kept s : GetOp2 (kept ++ s) = GotOp op v s → well_formed s → well_formed (kept ++ s).

Lemma GetOp2_head b pc op v pc' : GetOp2 (b :: pc) = GotOp op v pc' →
  op = b ∧ (b = OP_CODESEPARATOR → pc' = pc).
Proof.
  unfold GetOp2. intros H. case_all_in H; inv H; (split; [done|]); intros ->; (done || (exfalso; breflect; lia)).
Qed.

Lemma GetOp2_kept op v kept s : GetOp2 (kept ++ s) = GotOp op v s →
  ∃ pre, kept = op :: pre ∧ (op = OP_CODESEPARATOR → pre = []).
Proof.
  intros Hg. destruct kept as [|b pre].
  - apply GetOp2_length in Hg. cbn in Hg. lia.
  - cbn [app] in Hg. apply GetOp2_head in Hg as [-> Hsep]. exists pre. split; [done|]. intros Hb.
    specialize (Hsep Hb). rewrite <- (app_nil_l s) in Hsep at 1. by apply app_inv_tail in Hsep.
Qed.

Definition separator : CScript := [OP_CODESEPARATOR].

Lemma deleted_functional b s r1 n1 r2 n2 : deleted b s r1 n1 → deleted b s r2 n2 → r1 = r2 ∧ n1 = n2.
Proof.
  intros Hd. revert r2 n2. induction Hd as [s pc Hs Hg|s r n Hs Hd IH|op v kept s r n Hs Hg Hd IH]; intros r2 n2 H2;
    inversion H2 as [s0 pc0 Hs0 Hg0|s0 r0 n0 Hs0 Hd0|op0 v0 kept0 s0 r0 n0 Hs0 Hg0 Hd0 He]; subst; try congruence.
  - done.
  - destruct (IH _ _ Hd0) as [-> ->]. done.
  - rewrite He, Hg in Hg0. injection Hg0 as <- <- <-. apply app_inv_tail in He as ->.
    destruct (IH _ _ Hd0) as [-> ->]. done.
Qed.

Lemma write_sections_spec it : well_formed it → ∃ r n, deleted separator it r n ∧
  ∀ fuel pre w c, (length it < fuel)%nat →
    count_separators fuel it c = c + n ∧
    ∃ w' b', write_sections fuel (pre ++ it) it w = (w', b', []) ∧ w' ++ b' = w ++ pre ++ r.
Proof.
  induction 1 as [|op v kept s Hg Hwf (r & n & Hd & IH)].
  - exists [], 0. split; [by eapply deleted_stop|]. intros [|f] pre w c Hf; [cbn in Hf; lia|].
    cbn. split; [lia|]. exists w, pre. by rewrite !app_nil_r.
  - destruct (GetOp2_kept _ _ _ _ Hg) as (pre0 & -> & Hsep).
    assert (starts_with separator ((op :: pre0) ++ s) = (op =? OP_CODESEPARATOR)) as Hst.
    { unfold starts_with, separator. cbn [length take app]. rewrite take_0.
      destruct (Z.eqb_spec op OP_CODESEPARATOR); [apply bool_decide_eq_true|apply bool_decide_eq_false]; congruence. }
    destruct (Z.eqb_spec op OP_CODESEPARATOR) as [->|Hne].
    + rewrite (Hsep eq_refl) in *. cbn [app] in *. exists r, (n + 1). split.
      { apply deleted_match; [done|]. by cbn [separator length drop]; rewrite drop_0. }
      intros [|f] pre w c Hf; [lia|]. cbn [length] in Hf. cbn [count_separators write_sections]. rewrite Hg.
      change (OP_CODESEPARATOR =? OP_CODESEPARATOR) with true. cbv iota.
      destruct (IH f [] (w ++ pre) (c + 1)) as (-> & w' & b' & Hw & Happ); [lia|]. split; [lia|].
      exists w', b'. cbn [app] in Hw. rewrite length_app. cbn [length].
      replace (length pre + S (length s) - length s - 1)%nat with (length pre) by lia.
      rewrite take_app_length. split; [done|]. by rewrite Happ, <- app_assoc.
    + exists ((op :: pre0) ++ r), n. split; [by eapply deleted_keep|].
      intros [|f] pre w c Hf; [lia|]. cbn [count_separators write_sections]. rewrite Hg.
      destruct (Z.eqb_spec op OP_CODESEPARATOR); [done|]. apply GetOp2_length in Hg.
      destruct (IH f (pre ++ op :: pre0) w c) as (-> & w' & b' & Hw & Happ); [lia|]. split; [done|].
      exists w', b'. rewrite <- app_assoc in Hw. split; [done|]. by rewrite Happ, <- app_assoc.
Qed.

Lemma SerializeScriptCode_deleted s : well_formed s →
  SerializeScriptCode s = Serialize_bytes (FindAndDelete s separator).1.
Proof.
  intros Hwf. destruct (write_sections_spec s Hwf) as (r & n & Hd & Hspec).
  destruct (Hspec (S (length s)) [] [] 0 ltac:(lia)) as (Hc & w' & b' & Hw & Happ).
  destruct (FindAndDelete_deleted s separator) as (r2 & n2 & Hf & Hd2); [done|].
  destruct (deleted_functional _ _ _ _ _ _ Hd Hd2) as [<- <-].
  unfold SerializeScriptCode. cbn [app] in Hw. rewrite Hc, Hw, Hf. cbn [fst app] in *.
  destruct (deleted_count _ _ _ _ Hd) as (_ & Hsz & _). change (size separator) with 1 in Hsz.
  unfold Serialize_bytes. replace (size s - (0 + n)) with (size r) by lia. unfold size. f_equal.
  rewrite <- Happ. f_equal. destruct b' as [|x b']; [done|]. apply firstn_all2. cbn [length]. lia.
Qed.

(** ** Lemmas: what the hash depends on *)

Section Commitments.
Context `{Crypto}.

(** Two transactions that agree on what is always signed and on input [nIn]. *)
Definition agree (tx1 tx2 : CTransaction) (nIn : nat) : Prop :=
  tx_nVersion tx1 = tx_nVersion tx2 ∧ nLockTime tx1 = nLockTime tx2 ∧
  prevout (input_at tx1 nIn) = prevout (input_at tx2 nIn) ∧
  nSequence (input_at tx1 nIn) = nSequence (input_at tx2 nIn) ∧
  Z.of_nat nIn < size (vin tx1) ∧ Z.of_nat nIn < size (vin tx2).

Lemma sighash_anyonecanpay code tx1 tx2 nIn ht amount sv : agree tx1 tx2 nIn → vout tx1 = vout tx2 →
  fAnyoneCanPay ht = true →
  SignatureHash code tx1 nIn ht amount sv None = SignatureHash code tx2 nIn ht amount sv None.
Proof.
  intros (Hver & Hlock & Hprev & Hseq & Hi1 & Hi2) Hout Hany. unfold SignatureHash.
  destruct (Z.ltb_spec (Z.of_nat nIn) (size (vin tx1))), (Z.ltb_spec (Z.of_nat nIn) (size (vin tx2))); try lia.
  cbn [negb]. rewrite <- Hout. destruct sv.
  - case_match; [done|]. do 3 f_equal. unfold SerializeSignature. rewrite Hany, Hver, Hlock, Hout. do 3 f_equal.
    + cbn [map seq concat]. unfold SerializeInput. by rewrite Hany, Hprev, Hseq.
    + unfold SerializeOutput. by rewrite Hout.
  - do 2 f_equal. unfold witness_preimage. unfold fAnyoneCanPay in Hany. rewrite Hany. cbn [negb andb].
    unfold GetOutputsHash. by rewrite Hver, Hlock, Hprev, Hseq, Hout.
Qed.

Lemma sighash_none code tx1 tx2 nIn ht amount sv : agree tx1 tx2 nIn → vin tx1 = vin tx2 →
  fHashNone ht = true →
  SignatureHash code tx1 nIn ht amount sv None = SignatureHash code tx2 nIn ht amount sv None.
Proof.
  intros (Hver & Hlock & _ & _ & Hi1 & Hi2) Hin Hnone. unfold SignatureHash. rewrite <- Hin.
  destruct (Z.ltb_spec (Z.of_nat nIn) (size (vin tx1))); [|lia]. cbn [negb].
  assert (input_at tx1 = input_at tx2) as Hat by (unfold input_at; by rewrite Hin).
  assert ((Z.land ht 0x1f =? SIGHASH_SINGLE) = false) as Hns.
  { unfold fHashNone in Hnone. apply Z.eqb_eq in Hnone. by rewrite Hnone. }
  destruct sv.
  - rewrite Hns. cbn [andb]. do 3 f_equal. unfold SerializeSignature. rewrite Hnone, Hver, Hlock, Hin. do 3 f_equal.
    f_equal. apply map_ext. intros k. unfold SerializeInput. by rewrite Hat.
  - do 2 f_equal. unfold witness_preimage. unfold fHashNone in Hnone. rewrite Hns, Hnone. cbn [negb andb].
    rewrite !andb_false_r. unfold GetPrevoutHash, GetSequenceHash. by rewrite Hver, Hlock, Hat, Hin.
Qed.

Lemma sighash_cached code tx nIn ht amount sv :
  SignatureHash code tx nIn ht amount sv (Some (precompute tx)) = SignatureHash code tx nIn ht amount sv None.
Proof.
  unfold SignatureHash. destruct (negb _), sv; try done. unfold witness_preimage, precompute.
  by destruct (HasWitness tx).
Qed.
End Commitments.

(** ** Lemmas: what the hash commits to *)

Lemma reader_inj {A} (d : reader A) s x y r1 r2 : d s = Ok (x, r1) → d s = Ok (y, r2) → x = y ∧ r1 = r2.
Proof. intros H1 H2. rewrite H1 in H2. by injection H2 as -> ->. Qed.

(** Self-delimiting, non-empty encodings concatenate injectively. *)
Lemma concat_inj {A} (ser : A → list Z) (deser : reader A) (ok : A → Prop) l1 l2 :
  (∀ x rest, ok x → deser (ser x ++ rest) = Ok (x, rest)) → (∀ x, ser x ≠ []) →
  Forall ok l1 → Forall ok l2 → concat (map ser l1) = concat (map ser l2) → l1 = l2.
Proof.
  intros Hd Hne H1. revert l2. induction H1 as [|x l1 Hx H1 IH]; intros l2 H2 He.
  - destruct l2 as [|y l2]; [done|]. cbn in He. symmetry in He. apply app_eq_nil in He as [He _]. by destruct (Hne y).
  - destruct H2 as [|y l2 Hy H2]; cbn in He; [apply app_eq_nil in He as [He _]; by destruct (Hne x)|].
    pose proof (Hd x (concat (map ser l1)) Hx) as Hp. rewrite He in Hp.
    destruct (reader_inj _ _ _ _ _ _ Hp (Hd y _ Hy)) as [-> He']. f_equal. auto.
Qed.

Lemma map_nth_seq {A} (d : A) l : map (λ k, nth k l d) (seq 0 (length l)) = l.
Proof.
  apply (list_eq_nth d); rewrite length_map, length_seq; [done|]. intros i Hi.
  rewrite (nth_indep _ d (nth (length l) l d)) by (by rewrite length_map, length_seq).
  rewrite (map_nth (λ k, nth k l d)), seq_nth by done. done.
Qed.

(** The part of an input every signature with SIGHASH_ALL covers. *)
Definition signed_part (i : CTxIn) : COutPoint * Z := (prevout i, nSequence i).

Definition same_signed (tx1 tx2 : CTransaction) : Prop :=
  tx_nVersion tx1 = tx_nVersion tx2 ∧ map signed_part (vin tx1) = map signed_part (vin tx2) ∧
  vout tx1 = vout tx2 ∧ nLockTime tx1 = nLockTime tx2.

(** The transaction a legacy SIGHASH_ALL signature is a signature of. *)
Definition signed_input (tx : CTransaction) (code : CScript) (nIn k : nat) : CTxIn :=
  mkTxIn (prevout (input_at tx k)) (if (k =? nIn)%nat then code else []) (nSequence (input_at tx k)) [].
Definition signed_tx (tx : CTransaction) (code : CScript) (nIn : nat) : CTransaction :=
  mkTx (tx_nVersion tx) (map (signed_input tx code nIn) (seq 0 (length (vin tx)))) (vout tx) (nLockTime tx).

Definition hash_all (ht : Z) : Prop := fAnyoneCanPay ht = false ∧ fHashSingle ht = false ∧ fHashNone ht = false.

Lemma SerializeSignature_all tx code nIn ht : well_formed code → hash_all ht →
  SerializeSignature tx code nIn ht
  = SerializeTransaction false (signed_tx tx (FindAndDelete code separator).1 nIn).
Proof.
  intros Hwf (Ha & Hs & Hn). unfold SerializeSignature, SerializeTransaction. rewrite Ha, Hs, Hn.
  change (Z.land 0 1) with 0. cbn [Z.eqb negb app signed_tx vin vout tx_nVersion nLockTime].
  unfold Serialize_vector. rewrite !flat_map_concat_map, length_map, length_seq, map_map, <- !app_assoc. do 3 f_equal.
  - f_equal. apply map_ext. intros k. unfold SerializeInput, ser_TxIn, signed_input.
    rewrite Ha, Hs, Hn. cbn [prevout scriptSig nSequence orb]. rewrite andb_false_r.
    destruct (k =? nIn)%nat; cbn [negb]; [|done]. by rewrite SerializeScriptCode_deleted.
  - do 2 f_equal. rewrite <- (map_nth_seq TxOut_null (vout tx)) at 2. rewrite map_map. f_equal.
    apply map_ext. intros k. unfold SerializeOutput. by rewrite Hs.
Qed.

Lemma signed_tx_ok tx code nIn : tx_ok tx → vector_fits code → tx_ok (signed_tx tx code nIn).
Proof.
  intros (Hv & Hil & Hi & Hw & Hol & Ho & Hlk) Hc. unfold tx_ok, signed_tx. cbn [tx_nVersion vin vout nLockTime].
  split_and!; try done.
  - unfold vector_fits. by rewrite length_map, length_seq.
  - apply Forall_map, Forall_forall. intros k Hk%elem_of_seq. unfold TxIn_ok, signed_input.
    cbn [prevout scriptSig nSequence]. assert (TxIn_ok (input_at tx k)) as (Hp & _ & Hq).
    { eapply Forall_forall; [exact Hi|]. apply list_elem_of_In, nth_In. lia. }
    split_and!; [done| |done]. case_match; [done|]. unfold vector_fits. cbn. unfold MAX_SIZE. lia.
  - apply Forall_map, Forall_forall. intros k _. unfold witness_ok, signed_input, vector_fits, MAX_SIZE. cbn.
    split; [lia|constructor].
Qed.

Lemma signed_parts tx code nIn : map signed_part (vin (signed_tx tx code nIn)) = map signed_part (vin tx).
Proof.
  cbn [signed_tx vin]. rewrite map_map. rewrite <- (map_nth_seq TxIn_default (vin tx)) at 2. by rewrite map_map.
Qed.

Lemma strip_signed tx code nIn : strip_witness (signed_tx tx code nIn) = signed_tx tx code nIn.
Proof. unfold strip_witness. cbn [signed_tx vin vout]. by rewrite map_map. Qed.

Lemma signed_tx_inj tx1 tx2 code1 code2 nIn : signed_tx tx1 code1 nIn = signed_tx tx2 code2 nIn →
  (nIn < length (vin tx1))%nat → same_signed tx1 tx2 ∧ code1 = code2.
Proof.
  intros He Hn. split.
  - split_and!; [by apply (f_equal tx_nVersion) in He| |by apply (f_equal vout) in He|by apply (f_equal nLockTime) in He].
    by rewrite <- (signed_parts tx1 code1 nIn), He, signed_parts.
  - apply (f_equal vin) in He. cbn [signed_tx vin] in He.
    assert (length (vin tx1) = length (vin tx2)) as Hl.
    { apply (f_equal length) in He. by rewrite !length_map, !length_seq in He. }
    apply (f_equal (λ l, l !! nIn)) in He. rewrite !list_lookup_fmap, !lookup_seq_lt in He by lia.
    cbn in He. unfold signed_input in He. rewrite Nat.eqb_refl in He. by injection He.
Qed.

Lemma FindAndDelete_fits code : vector_fits code → vector_fits (FindAndDelete code separator).1.
Proof.
  intros Hf. destruct (FindAndDelete_deleted code separator) as (r & n & -> & Hd); [done|].
  apply deleted_count in Hd as (? & ? & _). unfold vector_fits, size in *. cbn [fst].
  change (Z.of_nat (length separator)) with 1 in *. lia.
Qed.

Lemma legacy_preimage_inj tx1 tx2 code1 code2 nIn ht : tx_ok tx1 → tx_ok tx2 →
  well_formed code1 → well_formed code2 → vector_fits code1 → vector_fits code2 → hash_all ht →
  (nIn < length (vin tx1))%nat → 
  SerializeSignature tx1 code1 nIn ht ++ ser_int32 ht = SerializeSignature tx2 code2 nIn ht ++ ser_int32 ht →
  same_signed tx1 tx2 ∧ (FindAndDelete code1 separator).1 = (FindAndDelete code2 separator).1.
Proof.
  intros Hok1 Hok2 Hw1 Hw2 Hf1 Hf2 Hall Hn He. rewrite !SerializeSignature_all in He by done.
  apply signed_tx_inj with nIn; [|done].
  pose proof (deser_tx_basic false (signed_tx tx1 (FindAndDelete code1 separator).1 nIn) (ser_int32 ht)) as Hr1.
  pose proof (deser_tx_basic false (signed_tx tx2 (FindAndDelete code2 separator).1 nIn) (ser_int32 ht)) as Hr2.
  rewrite He in Hr1. rewrite !strip_signed in *. eapply reader_inj; [apply Hr1|apply Hr2]; auto;
    apply signed_tx_ok; auto using FindAndDelete_fits.
Qed.

Section Binding.
Context `{Crypto}.

(** Reads back the fixed fields of a version-0 witness hash. *)
Definition read_preimage : reader (Z * uint256 * uint256 * COutPoint * CScript * Z * Z * uint256 * Z) :=
  v <-- deser_int32 ;; p <-- deser_uint256 ;; q <-- deser_uint256 ;; o <-- deser_OutPoint ;;
  c <-- Unserialize_bytes ;; a <-- deser_int64 ;; sq <-- ser_readdata32 ;; h <-- deser_uint256 ;;
  l <-- ser_readdata32 ;; rret (v, p, q, o, c, a, sq, h, l).

Lemma hash_writer_read m rest : deser_uint256 (ser_uint256 (hash_writer m) ++ rest) = Ok (hash_writer m, rest).
Proof. apply stream_read_app. apply sha256_output. Qed.

Lemma input_at_ok tx nIn : tx_ok tx → (nIn < length (vin tx))%nat → TxIn_ok (input_at tx nIn).
Proof.
  intros (_ & _ & Hi & _) Hn. eapply Forall_forall; [exact Hi|]. apply list_elem_of_In, nth_In. lia.
Qed.

Lemma read_preimage_write tx code nIn ht amount : tx_ok tx → vector_fits code → sfits 64 amount → hash_all ht →
  (nIn < length (vin tx))%nat →
  read_preimage (witness_preimage code tx nIn ht amount None)
  = Ok (tx_nVersion tx, GetPrevoutHash tx, GetSequenceHash tx, prevout (input_at tx nIn), code, amount,
        nSequence (input_at tx nIn), GetOutputsHash tx, nLockTime tx, ser_int32 ht).
Proof.
  intros Hok Hc Ha (Hany & Hs & Hn) Hin. destruct (input_at_ok tx nIn Hok Hin) as (Hp & _ & Hq).
  destruct Hok as (Hv & _ & _ & _ & _ & _ & Hlk).
  unfold witness_preimage. unfold fAnyoneCanPay in Hany. unfold fHashSingle in Hs. unfold fHashNone in Hn.
  rewrite Hany, Hs, Hn. cbn [negb andb].
  unfold read_preimage, GetPrevoutHash, GetSequenceHash, GetOutputsHash.
  rewrite (rseq_ok _ _ _ _ _ (deser_int32_write _ _ Hv)).
  rewrite (rseq_ok _ _ _ _ _ (hash_writer_read _ _)). rewrite (rseq_ok _ _ _ _ _ (hash_writer_read _ _)).
  rewrite (rseq_ok _ _ _ _ _ (deser_OutPoint_write _ _ Hp)).
  rewrite (rseq_ok _ _ _ _ _ (Unserialize_bytes_write _ _ Hc)).
  rewrite (rseq_ok _ _ _ _ _ (deser_int64_write _ _ Ha)).
  rewrite (rseq_ok _ _ _ _ _ (readdata32_write _ _ Hq)).
  rewrite (rseq_ok _ _ _ _ _ (hash_writer_read _ _)).
  by rewrite (rseq_ok _ _ _ _ _ (readdata32_write _ _ Hlk)).
Qed.

(** The byte strings hashed on the way to a signature hash with SIGHASH_ALL. *)
Definition preimage (code : CScript) (tx : CTransaction) (nIn : nat) (ht amount : Z) (sv : SigVersion) : list Z :=
  match sv with
  | SIGVERSION_BASE => SerializeSignature tx code nIn ht ++ ser_int32 ht
  | SIGVERSION_WITNESS_V0 => witness_preimage code tx nIn ht amount None
  end.
Definition prevouts_data (tx : CTransaction) : list Z :=
  concat (map (fun txin => ser_OutPoint (prevout txin)) (vin tx)).
Definition sequences_data (tx : CTransaction) : list Z :=
  concat (map (fun txin => ser_writedata32 (nSequence txin)) (vin tx)).
Definition outputs_data (tx : CTransaction) : list Z := concat (map ser_TxOut (vout tx)).

Definition no_collision (a b : list Z) : Prop := hash_writer a = hash_writer b → a = b.

Lemma prevouts_inj tx1 tx2 : tx_ok tx1 → tx_ok tx2 → prevouts_data tx1 = prevouts_data tx2 →
  map prevout (vin tx1) = map prevout (vin tx2).
Proof.
  intros (_ & _ & H1 & _) (_ & _ & H2 & _) He. apply (concat_inj ser_OutPoint deser_OutPoint OutPoint_ok).
  - intros. by apply deser_OutPoint_write.
  - intros o He'. apply (f_equal length) in He'. unfold ser_OutPoint in He'. rewrite length_app in He'.
    cbn in He'. lia.
  - apply Forall_map. eapply Forall_impl; [exact H1|]. by intros i [? _].
  - apply Forall_map. eapply Forall_impl; [exact H2|]. by intros i [? _].
  - by rewrite !map_map.
Qed.

Lemma sequences_inj tx1 tx2 : tx_ok tx1 → tx_ok tx2 → sequences_data tx1 = sequences_data tx2 →
  map nSequence (vin tx1) = map nSequence (vin tx2).
Proof.
  intros (_ & _ & H1 & _) (_ & _ & H2 & _) He. apply (concat_inj ser_writedata32 ser_readdata32 (ufits 32)).
  - intros. by apply readdata32_write.
  - done.
  - apply Forall_map. eapply Forall_impl; [exact H1|]. by intros i (_ & _ & ?).
  - apply Forall_map. eapply Forall_impl; [exact H2|]. by intros i (_ & _ & ?).
  - by rewrite !map_map.
Qed.

Lemma outputs_inj tx1 tx2 : tx_ok tx1 → tx_ok tx2 → outputs_data tx1 = outputs_data tx2 → vout tx1 = vout tx2.
Proof.
  intros (_ & _ & _ & _ & _ & H1 & _) (_ & _ & _ & _ & _ & H2 & _) He.
  apply (concat_inj ser_TxOut deser_TxOut TxOut_ok); [|done|done|done|done]. intros. by apply deser_TxOut_write.
Qed.

Lemma signed_part_map l1 l2 : map prevout l1 = map prevout l2 → map nSequence l1 = map nSequence l2 →
  map signed_part l1 = map signed_part l2.
Proof.
  revert l2. induction l1 as [|i l1 IH]; intros [|j l2]; try done. cbn. intros [=] [=]. f_equal; [|by apply IH].
  unfold signed_part. congruence.
Qed.

Lemma witness_preimage_inj tx1 tx2 code1 code2 nIn ht amount1 amount2 : tx_ok tx1 → tx_ok tx2 →
  vector_fits code1 → vector_fits code2 → sfits 64 amount1 → sfits 64 amount2 → hash_all ht →
  (nIn < length (vin tx1))%nat → (nIn < length (vin tx2))%nat →
  no_collision (prevouts_data tx1) (prevouts_data tx2) → no_collision (sequences_data tx1) (sequences_data tx2) →
  no_collision (outputs_data tx1) (outputs_data tx2) →
  witness_preimage code1 tx1 nIn ht amount1 None = witness_preimage code2 tx2 nIn ht amount2 None →
  same_signed tx1 tx2 ∧ code1 = code2 ∧ amount1 = amount2.
Proof.
  intros Hok1 Hok2 Hf1 Hf2 Ha1 Ha2 Hall Hn1 Hn2 Hcp Hcs Hco He.
  pose proof (read_preimage_write _ _ _ _ _ Hok1 Hf1 Ha1 Hall Hn1) as Hr1.
  pose proof (read_preimage_write _ _ _ _ _ Hok2 Hf2 Ha2 Hall Hn2) as Hr2. rewrite He, Hr2 in Hr1.
  injection Hr1 as Hv Hp Hs _ Hc Ha _ Ho Hl.
  split; [|done]. split_and!; [done| | |done].
  - apply signed_part_map; [by apply prevouts_inj, Hcp|by apply sequences_inj, Hcs].
  - by apply outputs_inj, Hco.
Qed.
End Binding.

(** ** Properties *)

(** Skipping code separators while hashing is deleting them first.  For a
    script that parses to its end, [SerializeScriptCode] writes exactly the
    serialization of the script from which [FindAndDelete] removed every
    [OP_CODESEPARATOR]. *)
Theorem SerializeScriptCode_correct s : well_formed s →
  SerializeScriptCode s = Serialize_bytes (FindAndDelete s [OP_CODESEPARATOR]).1.
Proof. apply SerializeScriptCode_deleted. Qed.

Lemma SerializeScriptCode_correct_witness :
  SerializeScriptCode [OP_1; OP_CODESEPARATOR; 1; OP_CODESEPARATOR; OP_CHECKSIG] = [4; OP_1; 1; OP_CODESEPARATOR; OP_CHECKSIG].
Proof.
  rewrite SerializeScriptCode_correct; [reflexivity|].
  apply (well_formed_op OP_1 [] [OP_1]); [done|]. apply (well_formed_op OP_CODESEPARATOR [] [OP_CODESEPARATOR]); [done|].
  apply (well_formed_op 1 [OP_CODESEPARATOR] [1; OP_CODESEPARATOR]); [done|].
  apply (well_formed_op OP_CHECKSIG [] [OP_CHECKSIG]); [done|]. constructor.
Defined.

(** What a signature leaves open, in legacy and in witness hashes: with
    ANYONECANPAY the other inputs, with NONE all outputs; transactions that differ
    only there have the same signature hash.  Using the cached hashes of the
    transaction gives the same hash as computing them. *)
Theorem sighash_commitments `{Crypto} code tx1 tx2 nIn nHashType amount sigversion : agree tx1 tx2 nIn →
  (fAnyoneCanPay nHashType = true → vout tx1 = vout tx2 →
     SignatureHash code tx1 nIn nHashType amount sigversion None = SignatureHash code tx2 nIn nHashType amount sigversion None) ∧
  (fHashNone nHashType = true → vin tx1 = vin tx2 →
     SignatureHash code tx1 nIn nHashType amount sigversion None = SignatureHash code tx2 nIn nHashType amount sigversion None) ∧
  SignatureHash code tx1 nIn nHashType amount sigversion (Some (precompute tx1))
    = SignatureHash code tx1 nIn nHashType amount sigversion None.
Proof.
  intros Ha. split_and!; intros; [by apply sighash_anyonecanpay|by apply sighash_none|apply sighash_cached].
Qed.

Definition spend (script : CScript) (seq : Z) (n : Z) : CTxIn := mkTxIn (mkOutPoint (replicate 32 5) n) script seq [].
Definition two_inputs (other : Z) (outs : list CTxOut) : CTransaction :=
  mkTx 2 [spend [OP_1] 7 0; spend [] other 1] outs 100.

Lemma sighash_commitments_witness :
  SignatureHash (H := toy_crypto) [OP_1] (two_inputs 8 [mkTxOut 5 []]) 0 (Z.lor SIGHASH_ALL SIGHASH_ANYONECANPAY) 10 SIGVERSION_BASE None
  = SignatureHash (H := toy_crypto) [OP_1] (two_inputs 9 [mkTxOut 5 []]) 0 (Z.lor SIGHASH_ALL SIGHASH_ANYONECANPAY) 10 SIGVERSION_BASE None
  ∧ SignatureHash (H := toy_crypto) [OP_1] (two_inputs 8 [mkTxOut 5 []]) 1 SIGHASH_NONE 10 SIGVERSION_WITNESS_V0 None
  = SignatureHash (H := toy_crypto) [OP_1] (two_inputs 8 [mkTxOut 6 []]) 1 SIGHASH_NONE 10 SIGVERSION_WITNESS_V0 None.
Proof.
  split.
  - refine (proj1 (sighash_commitments (H := toy_crypto) _ _ _ _ _ _ _ _) _ _); [split_and!; done|done|done].
  - refine (proj1 (proj2 (sighash_commitments (H := toy_crypto) _ _ _ _ _ _ _ _)) _ _); [split_and!; done|done|done].
Defined.

(** C3: a signature with SIGHASH_ALL binds the whole transaction.  If two
    well-formed transactions have the same signature hash for an input, and the
    byte strings hashed on the way are not a collision of the hash function, then they agree on version,
    lock time, outputs and on the outpoint and sequence number of every input; a
    legacy hash also fixes the script code up to its code separators, and a
    witness hash the whole script code and the amount. *)
Theorem sighash_all_binding `{Crypto} tx1 tx2 code1 code2 nIn nHashType amount1 amount2 sigversion :
  tx_ok tx1 → tx_ok tx2 → well_formed code1 → well_formed code2 → vector_fits code1 → vector_fits code2 →
  sfits 64 amount1 → sfits 64 amount2 → hash_all nHashType →
  no_collision (preimage code1 tx1 nIn nHashType amount1 sigversion) (preimage code2 tx2 nIn nHashType amount2 sigversion) →
  no_collision (prevouts_data tx1) (prevouts_data tx2) → no_collision (sequences_data tx1) (sequences_data tx2) →
  no_collision (outputs_data tx1) (outputs_data tx2) →
  ∀ h, SignatureHash code1 tx1 nIn nHashType amount1 sigversion None = Some h →
    SignatureHash code2 tx2 nIn nHashType amount2 sigversion None = Some h →
  same_signed tx1 tx2 ∧
  match sigversion with
  | SIGVERSION_BASE => (FindAndDelete code1 [OP_CODESEPARATOR]).1 = (FindAndDelete code2 [OP_CODESEPARATOR]).1
  | SIGVERSION_WITNESS_V0 => code1 = code2 ∧ amount1 = amount2
  end.
Proof.
  intros Hok1 Hok2 Hw1 Hw2 Hf1 Hf2 Ha1 Ha2 Hall Hc Hcp Hcs Hco h. unfold SignatureHash.
  destruct (Z.ltb_spec (Z.of_nat nIn) (size (vin tx1))) as [Hn1|]; [|done].
  destruct (Z.ltb_spec (Z.of_nat nIn) (size (vin tx2))) as [Hn2|]; [|done].
  cbn [negb]. destruct Hall as (Hany & Hs & Hn) eqn:Heq; clear Heq. unfold size in *.
  destruct sigversion.
  - unfold fHashSingle in Hs. rewrite Hs. cbn [andb]. intros [= <-] [= He]. symmetry in He. apply Hc in He.
    eapply legacy_preimage_inj; try done. lia.
  - intros [= <-] [= He]. symmetry in He. apply Hc in He. eapply witness_preimage_inj; try done; lia.
Qed.

Lemma sighash_all_binding_witness :
  same_signed (mkTx 2 [spend [OP_1] 7 0] [mkTxOut 5 []] 100) (mkTx 2 [spend [] 7 0] [mkTxOut 5 []] 100)
  ∧ (FindAndDelete [OP_1; OP_CODESEPARATOR] [OP_CODESEPARATOR]).1 = (FindAndDelete [OP_1] [OP_CODESEPARATOR]).1.
Proof.
  assert (∀ script, vector_fits script → tx_ok (mkTx 2 [spend script 7 0] [mkTxOut 5 []] 100)) as Hok.
  { intros script Hs. split_and!; repeat constructor; done. }
  assert (well_formed [OP_1]) as Hw1 by (apply (well_formed_op OP_1 [] [OP_1] []); [done|constructor]).
  assert (well_formed [OP_1; OP_CODESEPARATOR]) as Hw2.
  { apply (well_formed_op OP_1 [] [OP_1]); [done|].
    apply (well_formed_op OP_CODESEPARATOR [] [OP_CODESEPARATOR] []); [done|constructor]. }
  eapply (sighash_all_binding (H := toy_crypto) _ _ [OP_1; OP_CODESEPARATOR] [OP_1] 0 SIGHASH_ALL 10 10 SIGVERSION_BASE);
    try (by apply Hok); done.
Defined.
