(* ===== verification/Regex.v ===== *)
(** * Regular expressions: what the code uses of [std::regex]

    Expressions of the ECMAScript grammar over bytes, built from character classes,
    concatenation, alternation and repetition, and [std::regex_match], which accepts
    a string when the whole of it is in the language.  The anchors [^] at the start
    and [$] at the end of a pattern always hold there and are left out.  The matcher
    works with derivatives; [regex_match_matches] relates it to the language. *)

From S2P Require Import Prelude.

(** A character class: [[A-Z]], [[^~#!]], [.]. *)
Inductive regex :=
| Void
| Eps
| Cls (p : Z → bool)
| Cat (r1 r2 : regex)
| Alt (r1 r2 : regex)
| Star (r : regex).

Fixpoint nullable (r : regex) : bool :=
  match r with
  | Void | Cls _ => false
  | Eps | Star _ => true
  | Cat a b => nullable a && nullable b
  | Alt a b => nullable a || nullable b
  end.

(** Constructors that keep derivatives small. *)
Definition cat (a b : regex) : regex :=
  match a, b with Void, _ | _, Void => Void | Eps, _ => b | _, _ => Cat a b end.
Definition alt (a b : regex) : regex :=
  match a, b with Void, _ => b | _, Void => a | _, _ => Alt a b end.

Fixpoint deriv (c : Z) (r : regex) : regex :=
  match r with
  | Void | Eps => Void
  | Cls p => if p c then Eps else Void
  | Cat a b => if nullable a then alt (cat (deriv c a) b) (deriv c b) else cat (deriv c a) b
  | Alt a b => alt (deriv c a) (deriv c b)
  | Star a => cat (deriv c a) (Star a)
  end.

(** [std::regex_match(s, r)] *)
Fixpoint regex_match (s : list Z) (r : regex) : bool :=
  match s with
  | [] => nullable r
  | c :: s => regex_match s (deriv c r)
  end.

(** [r+], [r{n}], [r{0,n}], [r{n,}] *)
Definition Plus (r : regex) : regex := Cat r (Star r).
Fixpoint Times (n : nat) (r : regex) : regex := match n with O => Eps | S n => Cat r (Times n r) end.
Fixpoint UpTo (n : nat) (r : regex) : regex := match n with O => Eps | S n => Alt Eps (Cat r (UpTo n r)) end.
Definition AtLeast (n : nat) (r : regex) : regex := Cat (Times n r) (Star r).

(** Byte classes. *)
Definition in_range (lo hi c : Z) : bool := (lo <=? c) && (c <=? hi).
Definition one_of (l : list Z) (c : Z) : bool := existsb (Z.eqb c) l.
Definition Chr (c : Z) : regex := Cls (Z.eqb c).

(** The language of an expression. *)
Inductive matches : regex → list Z → Prop :=
| m_eps : matches Eps []
| m_cls p c : p c = true → matches (Cls p) [c]
| m_cat a b s t : matches a s → matches b t → matches (Cat a b) (s ++ t)
| m_alt_l a b s : matches a s → matches (Alt a b) s
| m_alt_r a b s : matches b s → matches (Alt a b) s
| m_star_nil a : matches (Star a) []
| m_star a c s t : matches a (c :: s) → matches (Star a) t → matches (Star a) (c :: s ++ t).

Create HintDb regex.
#[export] Hint Constructors matches : regex.

(** ** The matcher decides the language *)

Lemma nullable_matches r : nullable r = true ↔ matches r [].
Proof.
  split.
  - induction r; cbn; try done; eauto with regex.
    + intros [H1 H2]%andb_prop. apply (m_cat _ _ [] []); auto.
    + intros [H|H]%orb_prop; eauto with regex.
  - remember [] as s eqn:Hs. induction 1; cbn; try done.
    + apply app_eq_nil in Hs as [-> ->]. by rewrite IHmatches1, IHmatches2.
    + by rewrite IHmatches.
    + rewrite IHmatches by done. apply orb_true_r.
Qed.

Lemma matches_void s : ¬ matches Void s.
Proof. by inversion 1. Qed.

Lemma matches_cat a b s : matches (Cat a b) s ↔ ∃ s1 s2, s = s1 ++ s2 ∧ matches a s1 ∧ matches b s2.
Proof. split; [inversion 1; subst; eauto|]. intros (s1 & s2 & -> & H1 & H2). eauto with regex. Qed.

Lemma matches_alt a b s : matches (Alt a b) s ↔ matches a s ∨ matches b s.
Proof. split; [inversion 1; subst; eauto|]. intros [?|?]; eauto with regex. Qed.

Lemma matches_eps s : matches Eps s ↔ s = [].
Proof. split; [by inversion 1|]. intros ->. constructor. Qed.

Lemma matches_cls p s : matches (Cls p) s ↔ ∃ c, s = [c] ∧ p c = true.
Proof. split; [inversion 1; subst; eauto|]. intros (c & -> & H). eauto with regex. Qed.

Lemma matches_smart_cat a b s : matches (cat a b) s ↔ matches (Cat a b) s.
Proof.
  assert (cat a b = Cat a b ∨ (cat a b = Void ∧ (a = Void ∨ b = Void)) ∨ (a = Eps ∧ cat a b = b)) as Hcases
    by (destruct a, b; cbn; auto).
  destruct Hcases as [->|[[-> Hv]|[-> ->]]]; [done| |].
  - split; [intros []%matches_void|]. rewrite matches_cat. intros (s1 & s2 & -> & H1 & H2).
    destruct Hv as [->| ->]; [by apply matches_void in H1|by apply matches_void in H2].
  - rewrite matches_cat. setoid_rewrite matches_eps. split; [intros H; by exists [], s|]. by intros (s1 & s2 & -> & -> & H).
Qed.

Lemma matches_smart_alt a b s : matches (alt a b) s ↔ matches (Alt a b) s.
Proof.
  assert (alt a b = Alt a b ∨ (a = Void ∧ alt a b = b) ∨ (b = Void ∧ alt a b = a)) as Hcases
    by (destruct a, b; cbn; auto).
  destruct Hcases as [->|[[-> ->]|[-> ->]]]; [done| |]; rewrite matches_alt; split; auto;
    by intros [?|?]; try (by exfalso; eapply matches_void).
Qed.

Lemma deriv_matches c r : ∀ s, matches (deriv c r) s ↔ matches r (c :: s).
Proof.
  induction r as [| |p|a IHa b IHb|a IHa b IHb|a IHa]; intros s; cbn.
  - split; intros H; inversion H.
  - split; intros H; inversion H.
  - rewrite matches_cls. destruct (p c) eqn:Hp; rewrite ?matches_eps.
    + split; [by intros ->; eauto|]. by intros (d & [= -> ->] & _).
    + split; [intros []%matches_void|]. intros (d & [= -> ->] & ?). congruence.
  - assert (matches (cat (deriv c a) b) s ↔ ∃ s1 s2, s = s1 ++ s2 ∧ matches a (c :: s1) ∧ matches b s2) as Hc.
    { rewrite matches_smart_cat, matches_cat. by setoid_rewrite IHa. }
    destruct (nullable a) eqn:Hn; rewrite ?matches_smart_alt, ?matches_alt, Hc, ?IHb, matches_cat; split.
    + intros [(s1 & s2 & -> & H1 & H2)|H]; [by exists (c :: s1), s2|].
      exists [], (c :: s). split_and!; [done| |done]. by apply nullable_matches.
    + intros ([|d s1] & s2 & Heq & H1 & H2); [right; cbn in Heq; by subst|]. left. simplify_list_eq. eauto.
    + intros (s1 & s2 & -> & H1 & H2). by exists (c :: s1), s2.
    + intros ([|d s1] & s2 & Heq & H1 & H2); [|simplify_list_eq; by eauto].
      apply nullable_matches in H1. congruence.
  - by rewrite matches_smart_alt, !matches_alt, IHa, IHb.
  - rewrite matches_smart_cat, matches_cat. split.
    + intros (s1 & s2 & -> & H1 & H2). apply IHa in H1. by constructor.
    + inversion 1; subst. do 2 eexists. split; [done|]. by rewrite IHa.
Qed.

(** [regex_match] accepts exactly the language. *)
Lemma regex_match_matches s : ∀ r, regex_match s r = true ↔ matches r s.
Proof. induction s as [|c s IH]; intros r; cbn; [apply nullable_matches|]. by rewrite IH, deriv_matches. Qed.

(** ** Repetitions of a class *)

Lemma matches_star_cls p s : matches (Star (Cls p)) s ↔ Forall (fun c => p c = true) s.
Proof.
  split.
  - remember (Star (Cls p)) as r eqn:Hr. induction 1; try done. injection Hr as ->.
    apply matches_cls in H as (d & [= -> ->] & Hd). constructor; auto.
  - induction 1 as [|c s Hc _ IH]; [constructor|]. apply (m_star _ c [] s); [by constructor|done].
Qed.

Lemma matches_cls_cat p r s : matches (Cat (Cls p) r) s ↔ ∃ c t, s = c :: t ∧ p c = true ∧ matches r t.
Proof.
  rewrite matches_cat. split.
  - intros (s1 & s2 & -> & (c & -> & Hc)%matches_cls & H). by exists c, s2.
  - intros (c & t & -> & Hc & H). exists [c], t. split_and!; [done|by constructor|done].
Qed.

Lemma matches_plus_cls p s : matches (Plus (Cls p)) s ↔ s ≠ [] ∧ Forall (fun c => p c = true) s.
Proof.
  unfold Plus. rewrite matches_cls_cat. split.
  - intros (c & t & -> & Hc & Ht%matches_star_cls). split; [done|]. by constructor.
  - intros [Hs H]. destruct s as [|c s]; [done|]. inv H. exists c, s. by rewrite matches_star_cls.
Qed.

Lemma matches_upto_cls n p : ∀ s, matches (UpTo n (Cls p)) s ↔ (length s <= n)%nat ∧ Forall (fun c => p c = true) s.
Proof.
  induction n as [|n IH]; intros s; cbn.
  - rewrite matches_eps. split; [by intros ->|]. destruct s; [done|]. cbn. intros [? _]. lia.
  - rewrite matches_alt, matches_eps, matches_cls_cat. setoid_rewrite IH. split.
    + intros [->|(c & t & -> & Hc & Hl & Ht)]; [split; [cbn; lia|done]|]. split; [cbn; lia|by constructor].
    + intros [Hl H]. destruct H as [|c t Hc Ht]; [by left|]. right. exists c, t. cbn in Hl. split_and!; (done || lia).
Qed.

Lemma matches_atleast_cls n p s :
  matches (AtLeast n (Cls p)) s ↔ (n <= length s)%nat ∧ Forall (fun c => p c = true) s.
Proof.
  unfold AtLeast. revert s. induction n as [|n IH]; intros s; cbn [Times].
  - rewrite matches_cat. setoid_rewrite matches_eps. setoid_rewrite matches_star_cls. split.
    + intros (s1 & s2 & -> & -> & H). split; [lia|done].
    + intros [_ H]. by exists [], s.
  - split.
    + rewrite matches_cat. intros (s1 & s2 & -> & (c & t & -> & Hc & Ht)%matches_cls_cat & H2). cbn.
      assert (matches (Cat (Times n (Cls p)) (Star (Cls p))) (t ++ s2)) as [Hl Hf]%IH by (by constructor).
      split; [lia|by constructor].
    + intros [Hl H]. destruct H as [|c t Hc Ht]; [cbn in Hl; lia|]. cbn in Hl.
      assert (matches (Cat (Times n (Cls p)) (Star (Cls p))) t) as Hm by (apply IH; split; [lia|done]).
      apply matches_cat in Hm as (s1 & s2 & -> & H1 & H2). rewrite matches_cat. exists (c :: s1), s2. split_and!; try done.
      apply matches_cls_cat. eauto.
Qed.
