(* ===== verification/AssetTypes.v ===== *)
(** * Asset data: src/src/assets/assettypes.{h,cpp}, the constructors and scripts
    of assets/assets.cpp and the amounts of script/script.cpp

    The records that asset outputs carry, their wire formats, the scripts that
    carry them, and how much of an asset a script holds.  A [std::string] is the
    list of its bytes.  A reader starts from a freshly constructed object. *)

From S2P Require Import Prelude Serialize Transaction Script.

Definition MAX_UNIT : Z := 8.
Definition MIN_UNIT : Z := 0.
Definition DEFAULT_UNITS : Z := 0.
Definition DEFAULT_REISSUABLE : Z := 1.
Definition DEFAULT_HAS_IPFS : Z := 0.
Definition OWNER_TAG : list Z := [33].
Definition OWNER_LENGTH : Z := 1.
Definition OWNER_ASSET_AMOUNT : Z := 1 * COIN.
Definition UNIQUE_ASSET_AMOUNT : Z := 1 * COIN.
Definition UNIQUE_ASSET_UNITS : Z := 0.
Definition QUALIFIER_ASSET_MIN_AMOUNT : Z := 1 * COIN.
Definition QUALIFIER_ASSET_MAX_AMOUNT : Z := 10 * COIN.

Inductive AssetType :=
| ROOT | SUB | UNIQUE | MSGCHANNEL | QUALIFIER | SUB_QUALIFIER | RESTRICTED | VOTE | REISSUE | OWNER
| NULL_ADD_QUALIFIER | INVALID.
#[global] Instance AssetType_eq_dec : EqDecision AssetType.
Proof. solve_decision. Defined.

Definition asset_types : list AssetType :=
  [ROOT; SUB; UNIQUE; MSGCHANNEL; QUALIFIER; SUB_QUALIFIER; RESTRICTED; VOTE; REISSUE; OWNER; NULL_ADD_QUALIFIER; INVALID].
Definition IntFromAssetType (type : AssetType) : Z :=
  match type with
  | ROOT => 0 | SUB => 1 | UNIQUE => 2 | MSGCHANNEL => 3 | QUALIFIER => 4 | SUB_QUALIFIER => 5 | RESTRICTED => 6
  | VOTE => 7 | REISSUE => 8 | OWNER => 9 | NULL_ADD_QUALIFIER => 10 | INVALID => 11
  end.
(** The cast is meaningful for the values of the enumeration. *)
Definition AssetTypeFromInt (nType : Z) : option AssetType :=
  if nType <? 0 then None else nth_error asset_types (Z.to_nat nType).

Inductive QualifierType := REMOVE_QUALIFIER | ADD_QUALIFIER.
Inductive RestrictedType := UNFREEZE_ADDRESS | FREEZE_ADDRESS | GLOBAL_UNFREEZE | GLOBAL_FREEZE.
#[global] Instance QualifierType_eq_dec : EqDecision QualifierType.
Proof. solve_decision. Defined.
#[global] Instance RestrictedType_eq_dec : EqDecision RestrictedType.
Proof. solve_decision. Defined.

(** ** Wire formats *)

(** [int8_t] *)
Definition ser_int8 (x : Z) : list Z := ser_writedata8 x.
Definition deser_int8 : reader Z := b <-- ser_readdata8 ;; rret (swrap 8 b).

(** [Unserialize(Stream&, std::basic_string<C>&)] *)
Definition Unserialize_string : reader (list Z) :=
  nSize <-- ReadCompactSize ;;
  let nSize := u32 nSize in
  if negb (nSize =? 0) then stream_read (Z.to_nat nSize) else rret [].

Definition IPFS_SHA2_256 : Z := 0x12.
Definition TXID_NOTIFIER : Z := 0x54.
Definition IPFS_SHA2_256_LEN : Z := 0x20.

(** [ReadWriteAssetHash]: the bytes written, or the hash read, with the value
    returned. *)
Definition WriteAssetHash (strIPFSHash : list Z) : list Z * bool :=
  if size strIPFSHash =? 34 then (ser_writedata8 IPFS_SHA2_256 ++ Serialize_bytes (drop 2 strIPFSHash), true)
  else if size strIPFSHash =? 32 then (ser_writedata8 TXID_NOTIFIER ++ Serialize_bytes strIPFSHash, true)
  else ([], false).
Definition ReadAssetHash : reader (list Z * bool) := fun s =>
  if size s >=? 33 then
    (sha2_256 <-- ser_readdata8 ;; hash <-- Unserialize_string ;;
     rret ((if sha2_256 =? IPFS_SHA2_256 then [IPFS_SHA2_256; IPFS_SHA2_256_LEN] else []) ++ take 32 hash, true)) s
  else Ok (([], false), s).

Record CNewAsset := mkNewAsset {
  na_strName : list Z; na_nAmount : Z; na_units : Z; na_nReissuable : Z; na_nHasIPFS : Z; na_strIPFSHash : list Z
}.
#[global] Instance CNewAsset_eq_dec : EqDecision CNewAsset.
Proof. solve_decision. Defined.
Definition NewAsset_null : CNewAsset := mkNewAsset [] 0 MAX_UNIT 0 0 [].
Definition NewAsset_IsNull (a : CNewAsset) : bool := bool_decide (na_strName a = []).
(** The constructors: [int] arguments are truncated to [int8_t]. *)
Definition NewAsset_make (strName : list Z) (nAmount units nReissuable nHasIPFS : Z) (strIPFSHash : list Z) : CNewAsset :=
  mkNewAsset strName nAmount (swrap 8 units) (swrap 8 nReissuable) (swrap 8 nHasIPFS) strIPFSHash.
Definition NewAsset_default (strName : list Z) (nAmount : Z) : CNewAsset :=
  mkNewAsset strName nAmount DEFAULT_UNITS DEFAULT_REISSUABLE DEFAULT_HAS_IPFS [].

Definition ser_NewAsset (a : CNewAsset) : list Z :=
  Serialize_bytes (na_strName a) ++ ser_int64 (na_nAmount a) ++ ser_int8 (na_units a) ++ ser_int8 (na_nReissuable a)
  ++ ser_int8 (na_nHasIPFS a) ++ (if na_nHasIPFS a =? 1 then fst (WriteAssetHash (na_strIPFSHash a)) else []).
Definition deser_NewAsset : reader CNewAsset :=
  name <-- Unserialize_string ;; amount <-- deser_int64 ;; units <-- deser_int8 ;; re <-- deser_int8 ;;
  has <-- deser_int8 ;;
  h <-- (if has =? 1 then ReadAssetHash else rret ([], false)) ;;
  rret (mkNewAsset name amount units re has (fst h)).

Record CDatabasedAssetData := mkDatabasedAsset { da_asset : CNewAsset; da_nHeight : Z; da_blockHash : uint256 }.
Definition ser_DatabasedAssetData (d : CDatabasedAssetData) : list Z :=
  ser_NewAsset (da_asset d) ++ ser_int32 (da_nHeight d) ++ ser_uint256 (da_blockHash d).
Definition deser_DatabasedAssetData : reader CDatabasedAssetData :=
  a <-- deser_NewAsset ;; h <-- deser_int32 ;; b <-- deser_uint256 ;; rret (mkDatabasedAsset a h b).

Record CAssetTransfer := mkTransfer { tr_strName : list Z; tr_nAmount : Z; tr_message : list Z; tr_nExpireTime : Z }.
Definition Transfer_null : CAssetTransfer := mkTransfer [] 0 [] 0.
Definition Transfer_make (strAssetName : list Z) (nAmount : Z) (message : list Z) (nExpireTime : Z) : CAssetTransfer :=
  mkTransfer strAssetName nAmount message (match message with [] => 0 | _ => nExpireTime end).
Definition ser_Transfer (t : CAssetTransfer) : list Z :=
  let '(h, validIPFS) := WriteAssetHash (tr_message t) in
  Serialize_bytes (tr_strName t) ++ ser_int64 (tr_nAmount t) ++ h
  ++ (if validIPFS && negb (tr_nExpireTime t =? 0) then ser_int64 (tr_nExpireTime t) else []).
Definition deser_Transfer : reader CAssetTransfer :=
  name <-- Unserialize_string ;; amount <-- deser_int64 ;; h <-- ReadAssetHash ;;
  fun s =>
    if snd h && (size s >=? 8)
    then (e <-- deser_int64 ;; rret (mkTransfer name amount (fst h) e)) s
    else Ok (mkTransfer name amount (fst h) 0, s).

Record CReissueAsset := mkReissue {
  re_strName : list Z; re_nAmount : Z; re_nUnits : Z; re_nReissuable : Z; re_strIPFSHash : list Z
}.
Definition Reissue_null : CReissueAsset := mkReissue [] 0 0 1 [].
Definition Reissue_make (strAssetName : list Z) (nAmount nUnits nReissuable : Z) (strIPFSHash : list Z) : CReissueAsset :=
  mkReissue strAssetName nAmount (swrap 8 nUnits) (swrap 8 nReissuable) strIPFSHash.
Definition Reissue_IsNull (r : CReissueAsset) : bool := bool_decide (re_strName r = []) || (re_nAmount r <? 0).
Definition ser_Reissue (r : CReissueAsset) : list Z :=
  Serialize_bytes (re_strName r) ++ ser_int64 (re_nAmount r) ++ ser_int8 (re_nUnits r) ++ ser_int8 (re_nReissuable r)
  ++ fst (WriteAssetHash (re_strIPFSHash r)).
Definition deser_Reissue : reader CReissueAsset :=
  name <-- Unserialize_string ;; amount <-- deser_int64 ;; units <-- deser_int8 ;; re <-- deser_int8 ;;
  h <-- ReadAssetHash ;; rret (mkReissue name amount units re (fst h)).

Record CNullAssetTxData := mkNullData { nd_asset_name : list Z; nd_flag : Z }.
Definition NullData_null : CNullAssetTxData := mkNullData [] (-1).
Definition ser_NullData (d : CNullAssetTxData) : list Z := Serialize_bytes (nd_asset_name d) ++ ser_int8 (nd_flag d).
Definition deser_NullData : reader CNullAssetTxData :=
  name <-- Unserialize_string ;; flag <-- deser_int8 ;; rret (mkNullData name flag).

(** [CNullAssetTxVerifierString] is its string. *)
Definition ser_Verifier (verifier_string : list Z) : list Z := Serialize_bytes verifier_string.
Definition deser_Verifier : reader (list Z) := Unserialize_string.

(** ** Scripts that carry assets *)

(** [script << OP_PHI_ASSET << vchMessage << OP_DROP]; [None] is the exception of
    a push that is too large. *)
Definition append_asset (script vchMessage : CScript) : option CScript :=
  match push_data vchMessage with
  | Some p => Some (script ++ OP_PHI_ASSET :: p ++ [OP_DROP])
  | None => None
  end.

Definition NewAsset_ConstructTransaction (a : CNewAsset) (script : CScript) : option CScript :=
  append_asset script ([PHI_R; PHI_V; PHI_N; PHI_Q] ++ ser_NewAsset a).
Definition NewAsset_ConstructOwnerTransaction (a : CNewAsset) (script : CScript) : option CScript :=
  append_asset script ([PHI_R; PHI_V; PHI_N; PHI_O] ++ Serialize_bytes (na_strName a ++ OWNER_TAG)).
Definition Transfer_ConstructTransaction (t : CAssetTransfer) (script : CScript) : option CScript :=
  append_asset script ([PHI_R; PHI_V; PHI_N; PHI_T] ++ ser_Transfer t).
Definition Reissue_ConstructTransaction (r : CReissueAsset) (script : CScript) : option CScript :=
  append_asset script ([PHI_R; PHI_V; PHI_N; PHI_R] ++ ser_Reissue r).

Definition NullData_ConstructTransaction (d : CNullAssetTxData) (script : CScript) : option CScript :=
  match push_data (ser_NullData d) with Some p => Some (script ++ p) | None => None end.
Definition NullData_ConstructGlobalRestrictionTransaction (d : CNullAssetTxData) (script : CScript) : option CScript :=
  match push_data (ser_NullData d) with
  | Some p => Some (script ++ [OP_PHI_ASSET; OP_RESERVED; OP_RESERVED] ++ p)
  | None => None
  end.
Definition Verifier_ConstructTransaction (verifier : list Z) (script : CScript) : option CScript :=
  match push_data (ser_Verifier verifier) with
  | Some p => Some (script ++ [OP_PHI_ASSET; OP_RESERVED] ++ p)
  | None => None
  end.

(** [ssAsset >> asset] in a [try] block *)
Definition parse_from {A} (r : reader A) (bytes : list Z) : option A :=
  match r bytes with Ok (a, _) => Some a | Err _ => None end.

(** The readers of the three null-data scripts. *)
Definition OFFSET_THREE : nat := 3.
Definition OFFSET_FOUR : nat := 4.
Definition OFFSET_TWENTY_THREE : nat := 23.
Definition NullData_from (s : CScript) : option CNullAssetTxData :=
  if negb (IsNullAssetTxDataScript s) then None else parse_from deser_NullData (drop OFFSET_TWENTY_THREE s).
Definition GlobalAssetNullDataFromScript (s : CScript) : option CNullAssetTxData :=
  if negb (IsNullGlobalRestrictionAssetTxDataScript s) then None else parse_from deser_NullData (drop OFFSET_FOUR s).
Definition AssetNullVerifierDataFromScript (s : CScript) : option (list Z) :=
  if negb (IsNullAssetVerifierTxDataScript s) then None else parse_from deser_Verifier (drop OFFSET_THREE s).

(** ** Amounts *)

(** Where the data of an asset script of a kind starts. *)
Definition asset_start (p : asset_script → bool) (s : CScript) : result nat (option nat) :=
  let? a := IsAssetScript s in
  Ok (match a with
      | Some a => if p a then Some (Z.to_nat (as_nStartingIndex a)) else None
      | None => None
      end).
Definition ScriptNewAsset : CScript → result nat (option nat) :=
  asset_start (fun a => (as_nType a =? TX_NEW_ASSET) && negb (as_fIsOwner a)).
Definition ScriptTransferAsset : CScript → result nat (option nat) :=
  asset_start (fun a => as_nType a =? TX_TRANSFER_ASSET).
Definition ScriptReissueAsset : CScript → result nat (option nat) :=
  asset_start (fun a => as_nType a =? TX_REISSUE_ASSET).

Definition amount_from {A} (start : CScript → result nat (option nat)) (r : reader A) (amount : A → Z) (s : CScript)
    : result nat (option Z) :=
  let? i := start s in
  Ok (match i with
      | None => None
      | Some i => match parse_from r (drop i s) with Some a => Some (amount a) | None => None end
      end).
Definition AmountFromNewAssetScript : CScript → result nat (option Z) := amount_from ScriptNewAsset deser_NewAsset na_nAmount.
Definition AmountFromTransferScript : CScript → result nat (option Z) := amount_from ScriptTransferAsset deser_Transfer tr_nAmount.
Definition AmountFromReissueScript : CScript → result nat (option Z) := amount_from ScriptReissueAsset deser_Reissue re_nAmount.

Definition GetAssetAmountFromScript (s : CScript) : result nat (option Z) :=
  let? a := IsAssetScript s in
  match a with
  | None => Ok None
  | Some a =>
      if (as_nType a =? TX_NEW_ASSET) && negb (as_fIsOwner a) then AmountFromNewAssetScript s
      else if as_nType a =? TX_TRANSFER_ASSET then AmountFromTransferScript s
      else if (as_nType a =? TX_NEW_ASSET) && as_fIsOwner a then Ok (Some OWNER_ASSET_AMOUNT)
      else if as_nType a =? TX_REISSUE_ASSET then AmountFromReissueScript s
      else Ok None
  end.

Definition IsUnspendable (s : CScript) : result nat bool :=
  if (size s >? 0) && (at_ s 0 =? OP_RETURN) then Ok true
  else if (size s >? 0) && (at_ s 0 =? OP_PHI_ASSET) then Ok true
  else if size s >? MAX_SCRIPT_SIZE then Ok true
  else let? a := GetAssetAmountFromScript s in
       Ok (match a with Some n => n =? 0 | None => false end).

(** ** Lemmas: wire formats *)

Lemma AssetTypeFromInt_of t : AssetTypeFromInt (IntFromAssetType t) = Some t.
Proof. by destruct t. Qed.

Lemma Unserialize_string_write v rest : vector_fits v → Unserialize_string (Serialize_bytes v ++ rest) = Ok (v, rest).
Proof.
  intros Hv. unfold vector_fits, MAX_SIZE in Hv. unfold Unserialize_string, Serialize_bytes. rewrite <- app_assoc.
  erewrite rseq_ok; [|rewrite ReadCompactSize_write by (unfold ufits; lia);
    destruct (Z.gtb_spec (Z.of_nat (length v)) MAX_SIZE); [unfold MAX_SIZE in *; lia|reflexivity]].
  unfold u32. rewrite uwrap_id by (unfold ufits; lia). destruct (Z.eqb_spec (Z.of_nat (length v)) 0) as [He|].
  - destruct v; [done|cbn in He; lia].
  - cbn [negb]. rewrite Nat2Z.id. by apply stream_read_app.
Qed.

Lemma deser_int8_write x rest : sfits 8 x → deser_int8 (ser_int8 x ++ rest) = Ok (x, rest).
Proof.
  intros Hx. unfold deser_int8, ser_int8. assert (ser_writedata8 x = ser_writedata8 (uwrap 8 x)) as ->.
  { unfold ser_writedata8, u8. by rewrite (uwrap_id 8 (uwrap 8 x)) by (apply uwrap_range; lia). }
  rewrite (rseq_ok _ _ _ _ _ (readdata8_write (uwrap 8 x) rest ltac:(apply uwrap_range; lia))).
  unfold rret. by rewrite swrap_uwrap by done.
Qed.

(** A hash that is written is 32 bytes, or 34 bytes with the multihash prefix. *)
Definition hash_ok (h : list Z) : Prop :=
  length h = 32%nat ∨ (length h = 34%nat ∧ take 2 h = [IPFS_SHA2_256; IPFS_SHA2_256_LEN]).

Lemma ReadAssetHash_write h rest : hash_ok h →
  ReadAssetHash (fst (WriteAssetHash h) ++ rest) = Ok ((h, true), rest) ∧ snd (WriteAssetHash h) = true.
Proof.
  assert (∀ m body, ufits 8 m → length body = 32%nat →
    ReadAssetHash ((ser_writedata8 m ++ Serialize_bytes body) ++ rest)
    = Ok (((if m =? IPFS_SHA2_256 then [IPFS_SHA2_256; IPFS_SHA2_256_LEN] else []) ++ body, true), rest)) as Hread.
  { intros m body Hm Hb. unfold ReadAssetHash.
    assert (size ((ser_writedata8 m ++ Serialize_bytes body) ++ rest) >= 33) as Hsz.
    { unfold Serialize_bytes, size, WriteCompactSize. rewrite Hb. cbn. rewrite !length_app, Hb. cbn. lia. }
    destruct (Z.geb_spec (size ((ser_writedata8 m ++ Serialize_bytes body) ++ rest)) 33); [|lia].
    rewrite <- app_assoc. rewrite (rseq_ok _ _ _ _ _ (readdata8_write m _ Hm)).
    rewrite (rseq_ok _ _ _ _ _ (Unserialize_string_write body rest ltac:(unfold vector_fits, MAX_SIZE; lia))).
    unfold rret. by rewrite (take_ge body) by lia. }
  intros [Hl|[Hl Hp]]; unfold WriteAssetHash, size; rewrite Hl.
  - change (Z.of_nat 32 =? 34) with false. change (Z.of_nat 32 =? 32) with true. cbn [fst snd]. by rewrite Hread by (done || unfold ufits, TXID_NOTIFIER; lia).
  - change (Z.of_nat 34 =? 34) with true. cbn [fst snd]. rewrite Hread by (unfold ufits, IPFS_SHA2_256; rewrite ?length_drop; lia). change (IPFS_SHA2_256 =? IPFS_SHA2_256) with true.
    cbv iota. by rewrite <- Hp, take_drop.
Qed.

(** An absent hash: nothing is written, and fewer than 33 bytes follow. *)
Definition opt_hash_ok (h : list Z) : Prop := h = [] ∨ hash_ok h.

Lemma ReadAssetHash_opt h rest : opt_hash_ok h → size rest < 33 →
  ReadAssetHash (fst (WriteAssetHash h) ++ rest) = Ok ((h, bool_decide (h ≠ [])), rest) ∧
  snd (WriteAssetHash h) = bool_decide (h ≠ []).
Proof.
  intros [->|Hh] Hr.
  - change (WriteAssetHash []) with (@nil Z, false). cbn [fst snd app]. unfold ReadAssetHash.
    destruct (Z.geb_spec (size rest) 33); [lia|]. by rewrite bool_decide_false by (by intros []).
  - rewrite bool_decide_true by (intros ->; by destruct Hh as [?|[? ?]]). by apply ReadAssetHash_write.
Qed.

Definition NewAsset_ok (a : CNewAsset) : Prop :=
  vector_fits (na_strName a) ∧ sfits 64 (na_nAmount a) ∧ sfits 8 (na_units a) ∧ sfits 8 (na_nReissuable a) ∧
  sfits 8 (na_nHasIPFS a) ∧ (if na_nHasIPFS a =? 1 then opt_hash_ok (na_strIPFSHash a) else na_strIPFSHash a = []).
Definition Transfer_ok (t : CAssetTransfer) : Prop :=
  vector_fits (tr_strName t) ∧ sfits 64 (tr_nAmount t) ∧ opt_hash_ok (tr_message t) ∧ sfits 64 (tr_nExpireTime t) ∧
  (tr_message t = [] → tr_nExpireTime t = 0).
Definition Reissue_ok (r : CReissueAsset) : Prop :=
  vector_fits (re_strName r) ∧ sfits 64 (re_nAmount r) ∧ sfits 8 (re_nUnits r) ∧ sfits 8 (re_nReissuable r) ∧
  opt_hash_ok (re_strIPFSHash r).

Lemma deser_NewAsset_write a rest : NewAsset_ok a → size rest < 33 → deser_NewAsset (ser_NewAsset a ++ rest) = Ok (a, rest).
Proof.
  intros (Hn & Ha & Hu & Hr & Hi & Hh) Hrest. unfold deser_NewAsset, ser_NewAsset. rewrite <- !app_assoc.
  rewrite (rseq_ok _ _ _ _ _ (Unserialize_string_write _ _ Hn)), (rseq_ok _ _ _ _ _ (deser_int64_write _ _ Ha)).
  rewrite (rseq_ok _ _ _ _ _ (deser_int8_write _ _ Hu)), (rseq_ok _ _ _ _ _ (deser_int8_write _ _ Hr)).
  rewrite (rseq_ok _ _ _ _ _ (deser_int8_write _ _ Hi)). destruct a as [n am u re i h]. cbn in *.
  destruct (i =? 1).
  - by rewrite (rseq_ok _ _ _ _ _ (proj1 (ReadAssetHash_opt _ _ Hh Hrest))).
  - subst h. done.
Qed.

Lemma deser_Transfer_write t rest : Transfer_ok t → size rest < 8 → deser_Transfer (ser_Transfer t ++ rest) = Ok (t, rest).
Proof.
  intros (Hn & Ha & Hm & He & H0) Hrest. unfold deser_Transfer, ser_Transfer. destruct t as [n am m e].
  cbn [tr_strName tr_nAmount tr_message tr_nExpireTime] in *.
  destruct (WriteAssetHash m) as [hb hv] eqn:Hw. rewrite <- !app_assoc.
  rewrite (rseq_ok _ _ _ _ _ (Unserialize_string_write _ _ Hn)), (rseq_ok _ _ _ _ _ (deser_int64_write _ _ Ha)).
  assert (size ((if hv && negb (e =? 0) then ser_int64 e else []) ++ rest) < 33) as Hsz.
  { rewrite size_app. destruct (hv && negb (e =? 0)); unfold size in *; cbn; lia. }
  destruct (ReadAssetHash_opt m _ Hm Hsz) as [Hr Hv]. rewrite Hw in Hr, Hv. cbn [fst snd] in Hr, Hv.
  rewrite (rseq_ok _ _ _ _ _ Hr). cbn [fst snd]. subst hv.
  case_bool_decide as Hne; cbn [andb].
  - destruct (Z.eqb_spec e 0) as [->|Hz]; cbn [negb app].
    + destruct (Z.geb_spec (size rest) 8); [lia|done].
    + assert (size (ser_int64 e ++ rest) >= 8) by (rewrite size_app; unfold size; cbn; lia).
      destruct (Z.geb_spec (size (ser_int64 e ++ rest)) 8); [|lia].
      by rewrite (rseq_ok _ _ _ _ _ (deser_int64_write _ _ He)).
  - cbn [app]. rewrite H0 by (destruct m; [done|by destruct Hne]). done.
Qed.

Lemma deser_Reissue_write r rest : Reissue_ok r → size rest < 33 → deser_Reissue (ser_Reissue r ++ rest) = Ok (r, rest).
Proof.
  intros (Hn & Ha & Hu & Hr & Hh) Hrest. unfold deser_Reissue, ser_Reissue. rewrite <- !app_assoc.
  rewrite (rseq_ok _ _ _ _ _ (Unserialize_string_write _ _ Hn)), (rseq_ok _ _ _ _ _ (deser_int64_write _ _ Ha)).
  rewrite (rseq_ok _ _ _ _ _ (deser_int8_write _ _ Hu)), (rseq_ok _ _ _ _ _ (deser_int8_write _ _ Hr)).
  rewrite (rseq_ok _ _ _ _ _ (proj1 (ReadAssetHash_opt _ _ Hh Hrest))). by destruct r.
Qed.

Lemma deser_NullData_write d rest : vector_fits (nd_asset_name d) → sfits 8 (nd_flag d) →
  deser_NullData (ser_NullData d ++ rest) = Ok (d, rest).
Proof.
  intros Hn Hf. unfold deser_NullData, ser_NullData. rewrite <- app_assoc.
  rewrite (rseq_ok _ _ _ _ _ (Unserialize_string_write _ _ Hn)), (rseq_ok _ _ _ _ _ (deser_int8_write _ _ Hf)). by destruct d.
Qed.

(** ** Lemmas: scripts *)

Lemma read_byte_app p l j b : (length p <= j)%nat → l !! (j - length p)%nat = Some b → read_byte (p ++ l) j = Ok b.
Proof. intros Hj Hb. unfold read_byte. by rewrite lookup_app_r, Hb. Qed.

Lemma WriteLE16_shape n : ∃ b0 b1, WriteLE16 n = [b0; b1].
Proof. eexists _, _. reflexivity. Qed.

(** An appended asset is found where [IsAssetScript] looks for it. *)
Lemma append_asset_found script t d s : length script = 25%nat → size d <= 60000 →
  append_asset script ([PHI_R; PHI_V; PHI_N; t] ++ d) = Some s →
  ∃ i, asset_index s = Ok (Some i) ∧ read_byte s 25 = Ok OP_PHI_ASSET ∧ read_byte s i = Ok t ∧
    drop (i + 1) s = d ++ [OP_DROP] ∧ 32 + size d <= size s <= 40 + size d.
Proof.
  intros Hs Hd. unfold append_asset. set (msg := [PHI_R; PHI_V; PHI_N; t] ++ d).
  assert (size msg = 4 + size d) as Hm by (unfold msg; by rewrite size_app). pose proof (size_nonneg d).
  unfold push_data. rewrite Hm.
  assert (∀ pre, asset_index (script ++ OP_PHI_ASSET :: pre ++ msg ++ [OP_DROP]) = Ok (Some (29 + length pre)%nat) →
    (length pre <= 3)%nat → (0 < length pre)%nat → 
    let s := script ++ OP_PHI_ASSET :: (pre ++ msg) ++ [OP_DROP] in
    ∃ i, asset_index s = Ok (Some i) ∧ read_byte s 25 = Ok OP_PHI_ASSET ∧ read_byte s i = Ok t ∧
      drop (i + 1) s = d ++ [OP_DROP] ∧ 32 + size d <= size s <= 40 + size d) as Hgen.
  { intros pre Hi Hp1 Hp2. cbv zeta. rewrite <- app_assoc. exists (29 + length pre)%nat. split; [done|].
    split; [apply read_byte_app; rewrite Hs; [lia|done]|]. split; [|split].
    - apply read_byte_app; rewrite Hs; [lia|]. rewrite app_comm_cons, lookup_app_r by (cbn [length]; lia).
      by replace (29 + length pre - 25 - length (OP_PHI_ASSET :: pre))%nat with 3%nat by (cbn [length]; lia).
    - rewrite drop_app_ge by lia. rewrite Hs. replace (29 + length pre + 1 - 25)%nat with (S (length pre + 4))%nat by lia.
      cbn [drop]. rewrite drop_app_ge by lia. by replace (length pre + 4 - length pre)%nat with 4%nat by lia.
    - rewrite size_app, size_cons, !size_app, Hm. unfold size in *. cbn [length]. lia. }
  assert (∀ l k, (25 <= k)%nat → read_byte (script ++ l) k = match l !! (k - 25)%nat with Some b => Ok b | None => Err k end) as Hrb.
  { intros l k Hk. unfold read_byte. by rewrite lookup_app_r, Hs by lia. }
  unfold asset_index, asset_marker in Hgen.
  destruct (Z.ltb_spec (4 + size d) OP_PUSHDATA1) as [Hlt|Hge]; [|destruct (Z.leb_spec (4 + size d) 0xff)].
  - intros [= <-]. apply (Hgen [4 + size d]); [|cbn; lia|cbn; lia]. rewrite !Hrb by lia. unfold msg. cbn -[Z.add Z.ltb].
    destruct (Z.ltb_spec (4 + size d) OP_PUSHDATA1); [done|lia].
  - intros [= <-]. apply (Hgen [OP_PUSHDATA1; 4 + size d]); [|cbn; lia|cbn; lia]. by rewrite !Hrb by lia.
  - destruct (Z.leb_spec (4 + size d) 0xffff); [|lia]. destruct (WriteLE16_shape (4 + size d)) as (b0 & b1 & ->).
    intros [= <-]. apply (Hgen [OP_PUSHDATA2; b0; b1]); [|cbn; lia|cbn; lia]. by rewrite !Hrb by lia.
Qed.

Lemma Serialize_bytes_size v : 1 + size v <= size (Serialize_bytes v) <= 9 + size v.
Proof.
  unfold Serialize_bytes. rewrite size_app. unfold size at 2 4. rewrite WriteCompactSize_length. unfold GetSizeOfCompactSize, size.
  repeat case_match; lia.
Qed.

Lemma WriteAssetHash_size h : 0 <= size (fst (WriteAssetHash h)) <= 60.
Proof.
  unfold WriteAssetHash. split; [apply size_nonneg|].
  destruct (Z.eqb_spec (size h) 34); [|destruct (Z.eqb_spec (size h) 32)]; cbn [fst]; [..|unfold size; cbn; lia];
    rewrite size_app; pose proof (Serialize_bytes_size (drop 2 h)); pose proof (Serialize_bytes_size h);
    unfold size in *; rewrite length_drop in *; cbn [length ser_writedata8]; lia.
Qed.

Lemma ser_NewAsset_size a : size (na_strName a) <= 256 → 12 <= size (ser_NewAsset a) <= 400.
Proof.
  intros Hn. unfold ser_NewAsset. rewrite !size_app. pose proof (Serialize_bytes_size (na_strName a)).
  pose proof (WriteAssetHash_size (na_strIPFSHash a)). pose proof (size_nonneg (na_strName a)).
  change (size (ser_int64 _)) with 8. change (size (ser_int8 _)) with 1.
  destruct (na_nHasIPFS a =? 1); [lia|]. change (size (@nil Z)) with 0. lia.
Qed.

Lemma ser_Transfer_size t : size (tr_strName t) <= 256 → size (ser_Transfer t) <= 400.
Proof.
  intros Hn. unfold ser_Transfer. pose proof (Serialize_bytes_size (tr_strName t)). pose proof (WriteAssetHash_size (tr_message t)).
  destruct (WriteAssetHash (tr_message t)) as [h v]. cbn [fst] in *. rewrite !size_app. change (size (ser_int64 _)) with 8.
  destruct (v && _); [change (size (ser_int64 _)) with 8; lia|change (size (@nil Z)) with 0; lia].
Qed.

Lemma ser_Reissue_size r : size (re_strName r) <= 256 → size (ser_Reissue r) <= 400.
Proof.
  intros Hn. unfold ser_Reissue. rewrite !size_app. pose proof (Serialize_bytes_size (re_strName r)).
  pose proof (WriteAssetHash_size (re_strIPFSHash r)). change (size (ser_int64 _)) with 8. change (size (ser_int8 _)) with 1. lia.
Qed.

Lemma append_asset_some script msg : size msg <= 60000 → ∃ s, append_asset script msg = Some s.
Proof.
  intros Hm. unfold append_asset, push_data. repeat (case_match; [by eexists|]). lia.
Qed.

(** The classification of an appended asset. *)
Lemma append_asset_classified script t d s : length script = 25%nat → size d <= 60000 → (t = PHI_Q → 8 <= size d) →
  t ∈ [PHI_T; PHI_Q; PHI_O; PHI_R] →
  append_asset script ([PHI_R; PHI_V; PHI_N; t] ++ d) = Some s →
  ∃ i, IsAssetScript s = Ok (Some (mkAssetScript
         (if t =? PHI_T then TX_TRANSFER_ASSET else if t =? PHI_R then TX_REISSUE_ASSET else TX_NEW_ASSET)
         (t =? PHI_O) (Z.of_nat i))) ∧ drop i s = d ++ [OP_DROP].
Proof.
  intros Hs Hd Hq Ht Happ. destruct (append_asset_found script t d s Hs Hd Happ) as (i & Hi & H25 & Hti & Hdrop & Hsz).
  exists (i + 1)%nat. split; [|done]. unfold IsAssetScript. pose proof (size_nonneg d).
  destruct (Z.gtb_spec (size s) 31); [|lia]. cbn [negb]. rewrite H25. cbn [rbind].
  change (OP_PHI_ASSET =? OP_PHI_ASSET) with true. cbn [negb]. rewrite Hi. cbn [rbind]. rewrite Hti. cbn [rbind].
  replace (Z.of_nat (i + 1)) with (Z.of_nat i + 1) by lia.
  rewrite !elem_of_cons in Ht. destruct Ht as [->|[->|[->|[->|Ht]]]]; [done| |done|done|by apply elem_of_nil in Ht].
  specialize (Hq eq_refl). destruct (Z.gtb_spec (size s) 39); [done|lia].
Qed.

Lemma parse_from_app {A} (r : reader A) bytes a rest : r bytes = Ok (a, rest) → parse_from r bytes = Some a.
Proof. intros H. unfold parse_from. by rewrite H. Qed.

(** ** Properties *)

(** C37: asset data survives its script.  A new asset, its owner token, a transfer
    or a reissue appended to any 25-byte script is recognised as what it is, its
    data is read back unchanged past the trailing [OP_DROP], and the amount found
    for the output is the amount of the asset. *)
Theorem asset_script_roundtrip script : length script = 25%nat →
  (∀ a, NewAsset_ok a → size (na_strName a) <= 256 → ∃ s i, NewAsset_ConstructTransaction a script = Some s ∧
     ScriptNewAsset s = Ok (Some i) ∧ parse_from deser_NewAsset (drop i s) = Some a ∧
     GetAssetAmountFromScript s = Ok (Some (na_nAmount a))) ∧
  (∀ a, size (na_strName a) <= 256 → ∃ s i, NewAsset_ConstructOwnerTransaction a script = Some s ∧
     IsAssetScript s = Ok (Some (mkAssetScript TX_NEW_ASSET true (Z.of_nat i))) ∧
     parse_from Unserialize_string (drop i s) = Some (na_strName a ++ OWNER_TAG) ∧
     GetAssetAmountFromScript s = Ok (Some OWNER_ASSET_AMOUNT)) ∧
  (∀ t, Transfer_ok t → size (tr_strName t) <= 256 → ∃ s i, Transfer_ConstructTransaction t script = Some s ∧
     ScriptTransferAsset s = Ok (Some i) ∧ parse_from deser_Transfer (drop i s) = Some t ∧
     GetAssetAmountFromScript s = Ok (Some (tr_nAmount t))) ∧
  (∀ r, Reissue_ok r → size (re_strName r) <= 256 → ∃ s i, Reissue_ConstructTransaction r script = Some s ∧
     ScriptReissueAsset s = Ok (Some i) ∧ parse_from deser_Reissue (drop i s) = Some r ∧
     GetAssetAmountFromScript s = Ok (Some (re_nAmount r))).
Proof.
  intros Hs.
  assert (∀ t d, size d <= 500 → (t = PHI_Q → 8 <= size d) → t ∈ [PHI_T; PHI_Q; PHI_O; PHI_R] →
    ∃ s i, append_asset script ([PHI_R; PHI_V; PHI_N; t] ++ d) = Some s ∧
      IsAssetScript s = Ok (Some (mkAssetScript
         (if t =? PHI_T then TX_TRANSFER_ASSET else if t =? PHI_R then TX_REISSUE_ASSET else TX_NEW_ASSET)
         (t =? PHI_O) (Z.of_nat i))) ∧ drop i s = d ++ [OP_DROP]) as Hgen.
  { intros t d Hd Hq Ht. destruct (append_asset_some script ([PHI_R; PHI_V; PHI_N; t] ++ d)) as [s Happ].
    { rewrite size_app. unfold size at 1. cbn. lia. }
    destruct (append_asset_classified script t d s) as (i & Hi & Hdr); try done; [lia|]. by exists s, i. }
  assert (size [OP_DROP] = 1) as Hdrop by done.
  split_and!.
  - intros a Ha Hn. pose proof (ser_NewAsset_size a Hn).
    destruct (Hgen PHI_Q (ser_NewAsset a)) as (s & i & Happ & Hi & Hdr); [lia|lia|by repeat constructor|]. exists s, i. cbn in Hi.
    unfold ScriptNewAsset, GetAssetAmountFromScript, AmountFromNewAssetScript, amount_from, ScriptNewAsset, asset_start.
    rewrite Hi. cbn -[drop Z.to_nat]. rewrite Nat2Z.id, Hdr. rewrite (parse_from_app _ _ a [OP_DROP]) by (apply deser_NewAsset_write; done || lia). done.
  - intros a Hn. pose proof (Serialize_bytes_size (na_strName a ++ OWNER_TAG)) as Hsz. rewrite size_app in Hsz.
    change (size OWNER_TAG) with 1 in Hsz.
    destruct (Hgen PHI_O (Serialize_bytes (na_strName a ++ OWNER_TAG))) as (s & i & Happ & Hi & Hdr); [lia|done|by repeat constructor|].
    exists s, i. cbn in Hi. unfold GetAssetAmountFromScript. rewrite Hi. split_and!; [done|done| |done].
    rewrite Hdr. apply parse_from_app with [OP_DROP]. apply Unserialize_string_write. unfold vector_fits, MAX_SIZE, size in *.
    rewrite length_app. cbn. lia.
  - intros t Ht Hn. pose proof (ser_Transfer_size t Hn).
    destruct (Hgen PHI_T (ser_Transfer t)) as (s & i & Happ & Hi & Hdr); [lia|done|by repeat constructor|]. exists s, i. cbn in Hi.
    unfold ScriptTransferAsset, GetAssetAmountFromScript, AmountFromTransferScript, amount_from, ScriptTransferAsset, asset_start.
    rewrite Hi. cbn -[drop Z.to_nat]. rewrite Nat2Z.id, Hdr. rewrite (parse_from_app _ _ t [OP_DROP]) by (apply deser_Transfer_write; done || lia). done.
  - intros r Hr Hn. pose proof (ser_Reissue_size r Hn).
    destruct (Hgen PHI_R (ser_Reissue r)) as (s & i & Happ & Hi & Hdr); [lia|done|by repeat constructor|]. exists s, i. cbn in Hi.
    unfold ScriptReissueAsset, GetAssetAmountFromScript, AmountFromReissueScript, amount_from, ScriptReissueAsset, asset_start.
    rewrite Hi. cbn -[drop Z.to_nat]. rewrite Nat2Z.id, Hdr. rewrite (parse_from_app _ _ r [OP_DROP]) by (apply deser_Reissue_write; done || lia). done.
Qed.

Definition new_asset_example : CNewAsset := mkNewAsset [80; 72; 73] (5 * COIN) 2 1 0 [].
Definition p2pkh_example : CScript := [OP_DUP; OP_HASH160; 20] ++ repeat 7 20 ++ [OP_EQUALVERIFY; OP_CHECKSIG].

Lemma asset_script_roundtrip_witness : ∃ s i,
  NewAsset_ConstructTransaction new_asset_example p2pkh_example = Some s ∧
  ScriptNewAsset s = Ok (Some i) ∧ parse_from deser_NewAsset (drop i s) = Some new_asset_example ∧
  GetAssetAmountFromScript s = Ok (Some (5 * COIN)).
Proof.
  apply (proj1 (asset_script_roundtrip p2pkh_example eq_refl) new_asset_example).
  - unfold NewAsset_ok, vector_fits, sfits. vm_compute. repeat split; discriminate.
  - vm_compute. discriminate.
Defined.

Lemma push_data_short_shape b : size b < 76 → push_data b = Some (size b :: b).
Proof. intros H. unfold push_data. destruct (Z.ltb_spec (size b) OP_PUSHDATA1); [done|lia]. Qed.

Lemma Serialize_bytes_short v : size v < 253 → Serialize_bytes v = size v :: v.
Proof.
  intros H. pose proof (size_nonneg v). unfold Serialize_bytes, WriteCompactSize. fold (size v).
  destruct (Z.ltb_spec (size v) 253); [|lia]. unfold ser_writedata8, u8. cbn. by rewrite uwrap_id by (unfold ufits; lia).
Qed.

Lemma parse_string_short n v rest : n = size v → n < 253 → parse_from deser_Verifier (n :: v ++ rest) = Some v.
Proof.
  intros -> H. apply parse_from_app with rest. unfold deser_Verifier.
  rewrite <- (Unserialize_string_write v rest) by (unfold vector_fits, MAX_SIZE, size in *; lia).
  by rewrite Serialize_bytes_short.
Qed.

Lemma null_data_read_back d id : length id = 20%nat → size (nd_asset_name d) <= 73 → sfits 8 (nd_flag d) →
  (NullData_ConstructTransaction d (OP_PHI_ASSET :: 20 :: id) ≫= NullData_from) = Some d ∧
  (2 <= size (nd_asset_name d) →
   (NullData_ConstructGlobalRestrictionTransaction d [] ≫= GlobalAssetNullDataFromScript) = Some d).
Proof.
  intros Hid Hn Hf. pose proof (size_nonneg (nd_asset_name d)).
    assert (vector_fits (nd_asset_name d)) as Hv by (unfold vector_fits, MAX_SIZE, size in *; lia).
    assert (size (ser_NullData d) = 2 + size (nd_asset_name d)) as Hsz.
    { unfold ser_NullData. rewrite Serialize_bytes_short, size_app, size_cons by lia. change (size (ser_int8 _)) with 1. lia. }
    pose proof (deser_NullData_write d [] Hv Hf) as Hr. rewrite app_nil_r in Hr.
    unfold NullData_ConstructTransaction, NullData_ConstructGlobalRestrictionTransaction.
    rewrite push_data_short_shape by lia. cbn [mbind option_bind app]. split; [|intros Hlo].
    + unfold NullData_from, IsNullAssetTxDataScript. rewrite !size_cons, size_app, size_cons.
      replace (size id) with 20 by (unfold size; lia).
      destruct (Z.gtb_spec (1 + (1 + (20 + (1 + size (ser_NullData d))))) 23); [|lia]. cbn [at_ nth andb negb].
      change (OP_PHI_ASSET =? OP_PHI_ASSET) with true. cbn [andb negb Z.eqb Pos.eqb].
      replace (drop OFFSET_TWENTY_THREE (OP_PHI_ASSET :: 20 :: id ++ size (ser_NullData d) :: ser_NullData d)) with (ser_NullData d).
      { by apply parse_from_app with []. }
      unfold OFFSET_TWENTY_THREE. cbn [drop]. rewrite drop_app_ge by lia. by rewrite Hid.
    + unfold GlobalAssetNullDataFromScript, IsNullGlobalRestrictionAssetTxDataScript. rewrite !size_cons.
      destruct (Z.gtb_spec (1 + (1 + (1 + (1 + size (ser_NullData d))))) 6); [|lia]. cbn [at_ nth andb negb].
      change (OP_PHI_ASSET =? OP_PHI_ASSET) with true. change (OP_RESERVED =? OP_RESERVED) with true. cbn [andb negb].
      by apply parse_from_app with [].
Qed.

Lemma verifier_read_back v : size v <= 74 → (Verifier_ConstructTransaction v [] ≫= AssetNullVerifierDataFromScript) = Some v.
Proof.
  intros Hv. pose proof (size_nonneg v). unfold Verifier_ConstructTransaction, ser_Verifier.
    rewrite Serialize_bytes_short, push_data_short_shape by (rewrite ?size_cons; lia). cbn [mbind option_bind app].
    unfold AssetNullVerifierDataFromScript, IsNullAssetVerifierTxDataScript. rewrite !size_cons.
    destruct (Z.gtb_spec (1 + (1 + (1 + (1 + size v)))) 3); [|lia]. cbn [at_ nth andb negb].
    change (OP_PHI_ASSET =? OP_PHI_ASSET) with true. change (OP_RESERVED =? OP_RESERVED) with true. cbn [andb negb].
    destruct (Z.eqb_spec (1 + size v) OP_RESERVED); [lia|]. cbn [negb]. unfold OFFSET_THREE. cbn [drop].
    rewrite <- (app_nil_r v) at 2. apply parse_string_short; lia.
Qed.

Lemma verifier_misread v : 75 <= size v <= 251 →
  (Verifier_ConstructTransaction v [] ≫= AssetNullVerifierDataFromScript) = Some (size v :: v).
Proof.
  intros Hv. unfold Verifier_ConstructTransaction, ser_Verifier, push_data.
    rewrite Serialize_bytes_short, size_cons by lia.
    destruct (Z.ltb_spec (1 + size v) 76); [lia|]. destruct (Z.leb_spec (1 + size v) 255); [|lia]. cbn [mbind option_bind app].
    unfold AssetNullVerifierDataFromScript, IsNullAssetVerifierTxDataScript. rewrite !size_cons.
    destruct (Z.gtb_spec (1 + (1 + (1 + (1 + (1 + size v))))) 3); [|lia]. cbn [at_ nth andb negb].
    change (OP_PHI_ASSET =? OP_PHI_ASSET) with true. change (OP_RESERVED =? OP_RESERVED) with true.
    change (76 =? OP_RESERVED) with false. cbn [negb andb]. unfold OFFSET_THREE. cbn [drop].
    pose proof (parse_string_short (1 + size v) (size v :: v) []) as Hp. rewrite app_nil_r, size_cons in Hp.
    apply Hp; lia.
Qed.

(** A long name is pushed with [OP_PUSHDATA1]: the string read starts at the
    length byte of the push, takes everything, and leaves nothing for the flag. *)
Lemma deser_NullData_truncated v : size v < 253 → parse_from deser_NullData (size v :: v) = None.
Proof.
  intros Hv. unfold parse_from, deser_NullData. rewrite <- (Serialize_bytes_short v), <- (app_nil_r (Serialize_bytes v)) by done.
  by rewrite (rseq_ok _ _ _ _ _ (Unserialize_string_write v [] ltac:(unfold vector_fits, MAX_SIZE, size in *; lia))).
Qed.

Lemma null_data_lost d id : length id = 20%nat → 74 <= size (nd_asset_name d) <= 250 →
  (NullData_ConstructTransaction d (OP_PHI_ASSET :: 20 :: id) ≫= NullData_from) = None ∧
  (NullData_ConstructGlobalRestrictionTransaction d [] ≫= GlobalAssetNullDataFromScript) = None.
Proof.
  intros Hid Hn.
  assert (size (ser_NullData d) = 2 + size (nd_asset_name d)) as Hsz.
  { unfold ser_NullData. rewrite Serialize_bytes_short, size_app, size_cons by lia. change (size (ser_int8 _)) with 1. lia. }
  assert (push_data (ser_NullData d) = Some (OP_PUSHDATA1 :: size (ser_NullData d) :: ser_NullData d)) as Hpush.
  { unfold push_data. destruct (Z.ltb_spec (size (ser_NullData d)) OP_PUSHDATA1); [lia|].
    destruct (Z.leb_spec (size (ser_NullData d)) 0xff); [done|lia]. }
  unfold NullData_ConstructTransaction, NullData_ConstructGlobalRestrictionTransaction. rewrite Hpush.
  cbn [mbind option_bind app]. split.
  - unfold NullData_from. case_match; [done|].
    replace (drop OFFSET_TWENTY_THREE _) with (size (ser_NullData d) :: ser_NullData d).
    { apply deser_NullData_truncated. lia. }
    unfold OFFSET_TWENTY_THREE. cbn [drop]. rewrite drop_app_ge by lia. by rewrite Hid.
  - unfold GlobalAssetNullDataFromScript. case_match; [done|]. cbn [drop OFFSET_FOUR].
    apply deser_NullData_truncated. lia.
Qed.

(** The data of the null-asset outputs.  A qualifier or freeze tag for a
    20-byte hash and a global restriction are read back when their
    name has at most 73 bytes, and a verifier string when it has at most 74.  The
    fixed offsets of the readers skip one byte of push opcode, so past that length
    the data does not survive: tags and restrictions for a name of 74 to 250 bytes
    are not read at all, and a verifier string of 75 to 251 bytes is read back with
    one extra byte in front, the byte of its length. *)
Theorem null_data_roundtrip :
  (∀ d id, length id = 20%nat → size (nd_asset_name d) <= 73 → sfits 8 (nd_flag d) →
     (NullData_ConstructTransaction d (OP_PHI_ASSET :: 20 :: id) ≫= NullData_from) = Some d ∧
     (2 <= size (nd_asset_name d) →
      (NullData_ConstructGlobalRestrictionTransaction d [] ≫= GlobalAssetNullDataFromScript) = Some d)) ∧
  (∀ d id, length id = 20%nat → 74 <= size (nd_asset_name d) <= 250 →
     (NullData_ConstructTransaction d (OP_PHI_ASSET :: 20 :: id) ≫= NullData_from) = None ∧
     (NullData_ConstructGlobalRestrictionTransaction d [] ≫= GlobalAssetNullDataFromScript) = None) ∧
  (∀ v, size v <= 74 → (Verifier_ConstructTransaction v [] ≫= AssetNullVerifierDataFromScript) = Some v) ∧
  (∀ v, 75 <= size v <= 251 → (Verifier_ConstructTransaction v [] ≫= AssetNullVerifierDataFromScript)
     = Some (size v :: v)).
Proof. split_and!; auto using null_data_read_back, null_data_lost, verifier_read_back, verifier_misread. Qed.

Lemma null_data_roundtrip_witness :
  (Verifier_ConstructTransaction (repeat 65 75) [] ≫= AssetNullVerifierDataFromScript) = Some (75 :: repeat 65 75).
Proof. apply (proj2 (proj2 (proj2 null_data_roundtrip)) (repeat 65 75)). vm_compute. split; discriminate. Defined.
