(* ===== verification/AssetNames.v ===== *)
(** * Asset names: src/src/assets/assets.cpp, the name patterns and their checks

    Which strings are asset names, of which type, and how the name of a parent, a
    unique asset or an owner token is derived.  A string is the list of its bytes.
    The patterns are those of the source, matched by [regex_match].

    [boost::split] is outside the program: class [BoostSplit] states its documented
    behaviour, that it cuts a string at every delimiter, and every theorem holds for
    any function that does so. *)

From S2P Require Import Prelude Serialize Transaction Script Regex AssetTypes.

(** [parts] put together with the delimiter between them. *)
Fixpoint join (d : Z) (parts : list (list Z)) : list Z :=
  match parts with
  | [] => []
  | [p] => p
  | p :: ps => p ++ d :: join d ps
  end.

(** [boost::split(parts, s, boost::is_any_of(d))]: [s] is cut at every [d]. *)
Class BoostSplit := {
  split : Z → list Z → list (list Z);
  split_nonempty : ∀ d s, split d s ≠ [];
  split_free : ∀ d s, Forall (fun p => d ∉ p) (split d s);
  split_join : ∀ d s, join d (split d s) = s
}.

(** A function with that behaviour. *)
Fixpoint split_at (d : Z) (s : list Z) : list (list Z) :=
  match s with
  | [] => [[]]
  | c :: s =>
      if c =? d then [] :: split_at d s
      else match split_at d s with p :: ps => (c :: p) :: ps | [] => [[c]] end
  end.

Definition MAX_NAME_LENGTH : Z := 256.
Definition MAX_CHANNEL_NAME_LENGTH : Z := 12.
Definition MIN_ASSET_LENGTH : Z := 1.

(** ** Character classes *)

Definition upper : Z → bool := in_range 65 90.
Definition lower : Z → bool := in_range 97 122.
Definition num : Z → bool := in_range 48 57.
(** [[A-Z0-9]] *)
Definition alnum (c : Z) : bool := upper c || num c.
(** [[A-Z0-9-]] *)
Definition label_char (c : Z) : bool := alnum c || (c =? 45).
(** [[-A-Za-z0-9@$%&*()[\]{}?:]] *)
Definition unique_char (c : Z) : bool :=
  label_char c || lower c || one_of [64; 36; 37; 38; 42; 40; 41; 91; 93; 123; 125; 63; 58] c.
(** [[A-Z0-9._]] *)
Definition dotted_char (c : Z) : bool := alnum c || one_of [46; 95] c.
(** [.] matches all but line terminators. *)
Definition dot (c : Z) : bool := negb (one_of [10; 13] c).
(** [[^^~#!]] and [[^~#!\/]] *)
Definition before_tag (c : Z) : bool := negb (one_of [94; 126; 35; 33] c).
Definition in_tag (c : Z) : bool := negb (one_of [126; 35; 33; 47] c).

(** ** Patterns *)

Definition ROOT_NAME_CHARACTERS : regex :=
  Alt (Cls upper) (Cat (Cls upper) (Cat (UpTo 62 (Cls label_char)) (Cls alnum))).
Definition SUB_NAME_CHARACTERS : regex :=
  Alt (Cls alnum) (Cat (Cls alnum) (Cat (UpTo 61 (Cls label_char)) (Cls alnum))).
Definition UNIQUE_TAG_CHARACTERS : regex := Plus (Cls unique_char).
Definition MSG_CHANNEL_TAG_CHARACTERS : regex := Plus (Cls (fun c => alnum c || lower c)).
Definition VOTE_TAG_CHARACTERS : regex := Plus (Cls alnum).
Definition QUALIFIER_NAME_CHARACTERS : regex := Cat (Chr 35) (AtLeast 3 (Cls label_char)).
Definition SUB_QUALIFIER_NAME_CHARACTERS : regex := Cat (Chr 35) (Plus (Cls label_char)).
Definition RESTRICTED_NAME_CHARACTERS : regex := Cat (Chr 36) (AtLeast 3 (Cls label_char)).
Definition DOUBLE_HYPHEN : regex := Cat (Star (Cls dot)) (Cat (AtLeast 2 (Chr 45)) (Star (Cls dot))).
Definition LEADING_HYPHEN : regex := Cat (Chr 45) (Star (Cls dot)).
Definition TRAILING_HYPHEN : regex := Cat (Star (Cls dot)) (Chr 45).
Definition QUALIFIER_LEADING_HYPHEN : regex := Cat (Cls (one_of [35; 36])) (Cat (Chr 45) (Star (Cls dot))).
Definition PUNYCODE_SUFFIX : regex := Cat (Plus (Cls alnum)) (Star (Cat (Chr 45) (Plus (Cls alnum)))).

Definition SUB_NAME_DELIMITER : Z := 47.
Definition UNIQUE_TAG_DELIMITER : Z := 35.
Definition MSG_CHANNEL_TAG_DELIMITER : Z := 126.
Definition VOTE_TAG_DELIMITER : Z := 94.

Definition UNIQUE_INDICATOR : regex := Cat (Plus (Cls before_tag)) (Cat (Chr 35) (Plus (Cls in_tag))).
Definition MSG_CHANNEL_INDICATOR : regex := Cat (Plus (Cls before_tag)) (Cat (Chr 126) (Plus (Cls in_tag))).
Definition OWNER_INDICATOR : regex := Cat (Plus (Cls before_tag)) (Chr 33).
Definition VOTE_INDICATOR : regex := Cat (Plus (Cls before_tag)) (Cat (Chr 94) (Plus (Cls in_tag))).
Definition QUALIFIER_INDICATOR : regex := Cat (Chr 35) (AtLeast 3 (Cls dotted_char)).
Definition SUB_QUALIFIER_INDICATOR : regex :=
  Cat (Chr 35) (Cat (Plus (Cls dotted_char)) (Cat (Chr 47) (Cat (Chr 35) (Plus (Cls dotted_char))))).
Definition RESTRICTED_INDICATOR : regex := Cat (Chr 36) (AtLeast 3 (Cls dotted_char)).

(** ** The checks *)

Definition IsRootNameValid (name : list Z) : bool := regex_match name ROOT_NAME_CHARACTERS.
Definition IsQualifierNameValid (name : list Z) : bool :=
  regex_match name QUALIFIER_NAME_CHARACTERS && negb (regex_match name DOUBLE_HYPHEN)
  && negb (regex_match name QUALIFIER_LEADING_HYPHEN) && negb (regex_match name TRAILING_HYPHEN).
Definition no_stray_hyphen (name : list Z) : bool :=
  negb (regex_match name DOUBLE_HYPHEN) && negb (regex_match name LEADING_HYPHEN)
  && negb (regex_match name TRAILING_HYPHEN).
Definition IsRestrictedNameValid (name : list Z) : bool :=
  regex_match name RESTRICTED_NAME_CHARACTERS && no_stray_hyphen name.
Definition IsSubQualifierNameValid (name : list Z) : bool :=
  regex_match name SUB_QUALIFIER_NAME_CHARACTERS && no_stray_hyphen name.

(** ["XN--"] *)
Definition punycode_prefix : list Z := [88; 78; 45; 45].
Definition IsValidUppercasePunycode (name : list Z) : bool :=
  if (size name <? 5) || negb (bool_decide (take 4 name = punycode_prefix)) then false
  else regex_match (drop 4 name) PUNYCODE_SUFFIX.

Definition IsSubNameValid (name : list Z) : bool :=
  if negb (regex_match name SUB_NAME_CHARACTERS) then false
  else if IsValidUppercasePunycode name then true
  else no_stray_hyphen name.
Definition IsUniqueTagValid (tag : list Z) : bool := regex_match tag UNIQUE_TAG_CHARACTERS.
Definition IsVoteTagValid (tag : list Z) : bool := regex_match tag VOTE_TAG_CHARACTERS.
Definition IsMsgChannelTagValid (tag : list Z) : bool :=
  regex_match tag MSG_CHANNEL_TAG_CHARACTERS && no_stray_hyphen tag.

(** The error texts of [IsTypeCheckNameValid]. *)
Inductive name_error :=
| GreaterThanMaxLength (n : Z)
| ChannelGreaterThanMaxLength (n : Z)
| InvalidCharacters (type : AssetType)
| TooShort
| SubTooShort.

Section names.
  Context `{Split : BoostSplit}.

(** [parts.front()], [parts.back()] *)
Definition front (parts : list (list Z)) : list Z := default [] (head parts).
Definition back (parts : list (list Z)) : list Z := default [] (last parts).

Definition IsNameValidBeforeTag (name : list Z) : bool :=
  let parts := split SUB_NAME_DELIMITER name in
  if negb (IsRootNameValid (front parts)) then false else forallb IsSubNameValid (tail parts).

Definition IsQualifierNameValidBeforeTag (name : list Z) : bool :=
  let parts := split SUB_NAME_DELIMITER name in
  if negb (IsQualifierNameValid (front parts)) then false
  else if Nat.ltb 2 (length parts) then false
  else forallb IsSubQualifierNameValid (tail parts).

Definition IsAssetNameASubasset (name : list Z) : bool :=
  let parts := split SUB_NAME_DELIMITER name in
  if negb (IsRootNameValid (front parts)) then false else Nat.ltb 1 (length parts).
Definition IsAssetNameASubQualifier (name : list Z) : bool :=
  let parts := split SUB_NAME_DELIMITER name in
  if negb (IsQualifierNameValid (front parts)) then false else Nat.ltb 1 (length parts).

Definition check (b : bool) (e : name_error) : result name_error () := if b then Ok () else Err e.

Definition IsTypeCheckNameValid (type : AssetType) (name : list Z) : result name_error () :=
  let? _ := check (negb (size name >? (match type with
      | UNIQUE | MSGCHANNEL | OWNER | VOTE | QUALIFIER | SUB_QUALIFIER | RESTRICTED => MAX_NAME_LENGTH
      | _ => MAX_NAME_LENGTH - 1 end)))
    (GreaterThanMaxLength (match type with
      | UNIQUE | MSGCHANNEL | OWNER | VOTE | QUALIFIER | SUB_QUALIFIER | RESTRICTED => MAX_NAME_LENGTH
      | _ => MAX_NAME_LENGTH - 1 end)) in
  match type with
  | UNIQUE =>
      let parts := split UNIQUE_TAG_DELIMITER name in
      check (IsNameValidBeforeTag (front parts) && IsUniqueTagValid (back parts)) (InvalidCharacters UNIQUE)
  | MSGCHANNEL =>
      let parts := split MSG_CHANNEL_TAG_DELIMITER name in
      let valid := IsNameValidBeforeTag (front parts) && IsMsgChannelTagValid (back parts) in
      let? _ := check (negb (size (back parts) >? MAX_CHANNEL_NAME_LENGTH)) (ChannelGreaterThanMaxLength MAX_CHANNEL_NAME_LENGTH) in
      check valid (InvalidCharacters MSGCHANNEL)
  | OWNER => check (IsNameValidBeforeTag (take (length name - 1) name)) (InvalidCharacters OWNER)
  | VOTE =>
      let parts := split VOTE_TAG_DELIMITER name in
      check (IsNameValidBeforeTag (front parts) && IsVoteTagValid (back parts)) (InvalidCharacters VOTE)
  | QUALIFIER | SUB_QUALIFIER => check (IsQualifierNameValidBeforeTag name) (InvalidCharacters QUALIFIER)
  | RESTRICTED => check (IsRestrictedNameValid name) (InvalidCharacters RESTRICTED)
  | _ =>
      if negb (IsAssetNameASubasset name) && (size name <? MIN_ASSET_LENGTH) then Err TooShort
      else
        let valid := IsNameValidBeforeTag name in
        if negb valid && IsAssetNameASubasset name && (size name <? MIN_ASSET_LENGTH) then Err SubTooShort
        else check valid (InvalidCharacters ROOT)
  end.

(** [IsAssetNameValid]: the type when the name is valid, the error text when it is
    not; no error text is set for an overlong name. *)
Definition typed (r : result name_error ()) (type : AssetType) : result (option name_error) AssetType :=
  match r with Ok _ => Ok type | Err e => Err (Some e) end.
Definition IsAssetNameValid (name : list Z) : result (option name_error) AssetType :=
  if size name >? 266 then Err None
  else if regex_match name UNIQUE_INDICATOR then typed (IsTypeCheckNameValid UNIQUE name) UNIQUE
  else if regex_match name MSG_CHANNEL_INDICATOR then typed (IsTypeCheckNameValid MSGCHANNEL name) MSGCHANNEL
  else if regex_match name OWNER_INDICATOR then typed (IsTypeCheckNameValid OWNER name) OWNER
  else if regex_match name VOTE_INDICATOR then typed (IsTypeCheckNameValid VOTE name) VOTE
  else if regex_match name QUALIFIER_INDICATOR then
    typed (IsTypeCheckNameValid QUALIFIER name) (if IsAssetNameASubQualifier name then SUB_QUALIFIER else QUALIFIER)
  else if regex_match name SUB_QUALIFIER_INDICATOR then
    typed (IsTypeCheckNameValid SUB_QUALIFIER name) (if IsAssetNameASubQualifier name then SUB_QUALIFIER else INVALID)
  else if regex_match name RESTRICTED_INDICATOR then typed (IsTypeCheckNameValid RESTRICTED name) RESTRICTED
  else
    let type := if IsAssetNameASubasset name then SUB else ROOT in
    typed (IsTypeCheckNameValid type name) type.

Definition IsAssetNameARoot (name : list Z) : bool := match IsAssetNameValid name with Ok ROOT => true | _ => false end.
Definition IsAssetNameAnOwner (name : list Z) : bool := is_ok (IsAssetNameValid name) && regex_match name OWNER_INDICATOR.
Definition IsAssetNameAnRestricted (name : list Z) : bool :=
  is_ok (IsAssetNameValid name) && regex_match name RESTRICTED_INDICATOR.
Definition IsAssetNameAQualifier (name : list Z) (fOnlyQualifiers : bool) : bool :=
  if fOnlyQualifiers then is_ok (IsAssetNameValid name) && regex_match name QUALIFIER_INDICATOR
  else is_ok (IsAssetNameValid name)
       && (regex_match name QUALIFIER_INDICATOR || regex_match name SUB_QUALIFIER_INDICATOR).
Definition IsAssetNameAnMsgChannel (name : list Z) : bool :=
  is_ok (IsAssetNameValid name) && regex_match name MSG_CHANNEL_INDICATOR.

(** ** Derived names *)

Definition RestrictedNameToOwnerName (name : list Z) : list Z :=
  if negb (IsAssetNameAnRestricted name) then [] else drop 1 name ++ OWNER_TAG.

(** [name.find_last_of(d)] *)
Fixpoint find_last_of (d : Z) (s : list Z) : option nat :=
  match s with
  | [] => None
  | c :: s => match find_last_of d s with Some i => Some (S i) | None => if c =? d then Some O else None end
  end.

Definition parent_index (type : AssetType) (name : list Z) : option nat :=
  match type with
  | SUB | SUB_QUALIFIER => find_last_of SUB_NAME_DELIMITER name
  | UNIQUE => find_last_of UNIQUE_TAG_DELIMITER name
  | MSGCHANNEL => find_last_of MSG_CHANNEL_TAG_DELIMITER name
  | VOTE => find_last_of VOTE_TAG_DELIMITER name
  | _ => None
  end.
Definition GetParentName (name : list Z) : list Z :=
  match IsAssetNameValid name with
  | Err _ => []
  | Ok type => match parent_index type name with Some index => take index name | None => name end
  end.

Definition GetUniqueAssetName (parent tag : list Z) : list Z :=
  let unique := parent ++ 35 :: tag in
  match IsAssetNameValid unique with Ok UNIQUE => unique | _ => [] end.

End names.

(** ** What names look like *)

Definition first_is (p : Z → bool) (s : list Z) : Prop := ∃ c t, s = c :: t ∧ p c = true.
Definition last_is (p : Z → bool) (s : list Z) : Prop := ∃ t c, s = t ++ [c] ∧ p c = true.
Notation all p := (Forall (fun c => p c = true)).
Definition double_hyphen (s : list Z) : Prop := ∃ a b, s = a ++ 45 :: 45 :: b.

(** A domain label: bounded length, letters, digits and hyphens, no hyphen at the ends. *)
Definition domain_label (first : Z → bool) (max : nat) (s : list Z) : Prop :=
  (length s <= max)%nat ∧ all label_char s ∧ first_is first s ∧ last_is alnum s.
(** An internationalised label: ["XN--"] and groups of letters and digits separated by hyphens. *)
Definition punycode (s : list Z) : Prop :=
  ∃ groups, groups ≠ [] ∧ Forall (fun g => g ≠ [] ∧ all alnum g) groups ∧ s = punycode_prefix ++ join 45 groups.
Definition root_label : list Z → Prop := domain_label upper 64.
Definition sub_label (s : list Z) : Prop := domain_label alnum 63 s ∧ (¬ double_hyphen s ∨ punycode s).
(** A root label and any number of sub labels. *)
Definition name_path (s : list Z) : Prop := ∃ r subs, s = join 47 (r :: subs) ∧ root_label r ∧ Forall sub_label subs.

(** The names of each type.  Only the parts before the first and after the last
    [^] of a vote name are checked: between them any [junk] is accepted. *)
Definition valid_name (t : AssetType) (s : list Z) : Prop :=
  match t with
  | ROOT => root_label s
  | SUB => size s <= 255 ∧ ∃ r subs, s = join 47 (r :: subs) ∧ root_label r ∧ Forall sub_label subs ∧ subs ≠ []
  | UNIQUE => size s <= 256 ∧ ∃ p tag, s = p ++ 35 :: tag ∧ name_path p ∧ tag ≠ [] ∧ all unique_char tag
  | MSGCHANNEL => size s <= 256 ∧ ∃ p tag, s = p ++ 126 :: tag ∧ name_path p ∧ tag ≠ [] ∧
      all (fun c => alnum c || lower c) tag ∧ size tag <= 12
  | OWNER => size s <= 256 ∧ ∃ p, s = p ++ [33] ∧ name_path p
  | VOTE => size s <= 256 ∧ ∃ p junk tag, s = p ++ 94 :: junk ++ tag ∧ name_path p ∧ tag ≠ [] ∧ all alnum tag ∧
      all in_tag junk ∧ (junk = [] ∨ ∃ j, junk = j ++ [94])
  | QUALIFIER => size s <= 256 ∧ ∃ q, s = 35 :: q ∧ all alnum q ∧ (3 <= length q)%nat
  | SUB_QUALIFIER => size s <= 256 ∧ ∃ q u, s = 35 :: q ++ 47 :: 35 :: u ∧ all alnum q ∧ (3 <= length q)%nat ∧
      all alnum u ∧ u ≠ []
  | RESTRICTED => size s <= 256 ∧ ∃ q, s = 36 :: q ∧ all alnum q ∧ (3 <= length q)%nat
  | REISSUE | NULL_ADD_QUALIFIER | INVALID => False
  end.

(** ** Lemmas: splitting *)

Lemma split_at_nonempty d s : split_at d s ≠ [].
Proof. destruct s as [|c s]; cbn; [done|]. destruct (c =? d); [done|]. by destruct (split_at d s). Qed.

Lemma split_at_free d s : Forall (fun p => d ∉ p) (split_at d s).
Proof.
  induction s as [|c s IH]; cbn; [constructor; [by intros ?%elem_of_nil|constructor]|].
  destruct (Z.eqb_spec c d) as [->|Hc]; [constructor; [by intros ?%elem_of_nil|done]|].
  destruct (split_at d s) as [|p ps]; inv IH; constructor; rewrite ?elem_of_cons, ?elem_of_nil; naive_solver.
Qed.

Lemma split_at_join d s : join d (split_at d s) = s.
Proof.
  induction s as [|c s IH]; cbn; [done|]. pose proof (split_at_nonempty d s).
  destruct (Z.eqb_spec c d) as [->|Hc]; destruct (split_at d s) as [|p ps]; try done; cbn in *; [by rewrite <- IH|].
  destruct ps; by rewrite <- IH.
Qed.

#[global] Instance split_at_instance : BoostSplit :=
  {| split := split_at; split_nonempty := split_at_nonempty; split_free := split_at_free; split_join := split_at_join |}.

Lemma app_free_inj (d : Z) a1 a2 b1 b2 : d ∉ a1 → d ∉ a2 → a1 ++ d :: b1 = a2 ++ d :: b2 → a1 = a2 ∧ b1 = b2.
Proof.
  revert a2. induction a1 as [|c a1 IH]; intros [|e a2]; cbn; rewrite ?elem_of_cons; intros H1 H2 Heq; injection Heq; intros; subst;
    [done|naive_solver..|]. destruct (IH a2) as [-> ->]; naive_solver.
Qed.

Lemma join_cons d p q ps : join d (p :: q :: ps) = p ++ d :: join d (q :: ps).
Proof. done. Qed.

Lemma join_inj d ps : ∀ qs, ps ≠ [] → qs ≠ [] → Forall (fun p => d ∉ p) ps → Forall (fun p => d ∉ p) qs →
  join d ps = join d qs → ps = qs.
Proof.
  induction ps as [|p ps IH]; intros [|q qs] Hp Hq Fp Fq; try done. inv Fp. inv Fq.
  destruct ps as [|p' ps], qs as [|q' qs]; rewrite ?join_cons.
  - cbn. congruence.
  - cbn [join]. intros ->. rewrite elem_of_app, elem_of_cons in *. naive_solver.
  - cbn [join]. intros <-. rewrite elem_of_app, elem_of_cons in *. naive_solver.
  - intros [-> Hj]%app_free_inj; [|done..]. f_equal. by apply IH.
Qed.

Lemma split_parts `{BoostSplit} d ps : ps ≠ [] → Forall (fun p => d ∉ p) ps → split d (join d ps) = ps.
Proof. intros H0 Hf. apply (join_inj d); auto using split_nonempty, split_free, split_join. Qed.

Lemma split_two `{BoostSplit} d a b : d ∉ a → d ∉ b → split d (a ++ d :: b) = [a; b].
Proof. intros Ha Hb. apply (split_parts d [a; b]); [done|]. by repeat constructor. Qed.

Lemma split_one `{BoostSplit} d a : d ∉ a → split d a = [a].
Proof. intros Ha. apply (split_parts d [a]); [done|]. by repeat constructor. Qed.

Lemma join_snoc d ps q : ps ≠ [] → join d (ps ++ [q]) = join d ps ++ d :: q.
Proof.
  induction ps as [|p ps IH]; [done|]. intros _. destruct ps as [|p2 ps]; [done|].
  change ((p :: p2 :: ps) ++ [q]) with (p :: p2 :: (ps ++ [q])). rewrite !join_cons, <- app_assoc. cbn [app]. do 2 f_equal. by apply IH.
Qed.

Lemma split_cons `{BoostSplit} d a b : d ∉ a → split d (a ++ d :: b) = a :: split d b.
Proof.
  intros Ha. pose proof (split_nonempty d b). apply (join_inj d); auto using split_nonempty, split_free.
  rewrite split_join. destruct (split d b) eqn:Hs; [done|]. by rewrite join_cons, <- Hs, split_join.
Qed.

Lemma split_snoc `{BoostSplit} d a b : d ∉ b → split d (a ++ d :: b) = split d a ++ [b].
Proof.
  intros Hb. apply (join_inj d).
  - apply split_nonempty.
  - by destruct (split d a).
  - apply split_free.
  - apply Forall_app. split; [apply split_free|by repeat constructor].
  - by rewrite split_join, join_snoc, split_join by apply split_nonempty.
Qed.

(** ** Lemmas: character classes *)

Ltac chars := unfold unique_char, dotted_char, label_char, alnum, upper, lower, num, dot, before_tag, in_tag, in_range, one_of in *;
  cbn [existsb] in *; lia.

Lemma all_impl (p q : Z → bool) s : (∀ c, p c = true → q c = true) → all p s → all q s.
Proof. intros Hpq H. eapply Forall_impl; [exact H|]. auto. Qed.

Lemma all_free (p : Z → bool) d s : p d = false → all p s → d ∉ s.
Proof. intros Hd H Hin. rewrite Forall_forall in H. specialize (H _ Hin). cbn in H. congruence. Qed.

Lemma matches_chr c s : matches (Chr c) s ↔ s = [c].
Proof.
  unfold Chr. rewrite matches_cls. split; [|intros ->; exists c; by rewrite Z.eqb_refl].
  by intros (d & -> & ->%Z.eqb_eq).
Qed.

Lemma matches_chr_cat c r s : matches (Cat (Chr c) r) s ↔ ∃ t, s = c :: t ∧ matches r t.
Proof.
  unfold Chr. rewrite matches_cls_cat. split; [by intros (d & t & -> & ->%Z.eqb_eq & H); eauto|].
  intros (t & -> & H). exists c, t. by rewrite Z.eqb_refl.
Qed.

(** ** Lemmas: labels *)

Lemma matches_label f n s : (∀ c, f c = true → alnum c = true) →
  matches (Alt (Cls f) (Cat (Cls f) (Cat (UpTo n (Cls label_char)) (Cls alnum)))) s ↔ domain_label f (n + 2) s.
Proof.
  intros Hf. assert (∀ c, alnum c = true → label_char c = true) as Hl by (intros c; chars).
  rewrite matches_alt, matches_cls, matches_cls_cat. setoid_rewrite matches_cat. setoid_rewrite matches_upto_cls.
  setoid_rewrite matches_cls. split.
  - intros [(c & -> & Hc)|(c & t & -> & Hc & m & s2 & -> & [Hm Hall] & (d & -> & Hd))].
    + split_and!; [cbn; lia|repeat constructor; auto|by exists c, []|exists [], c; auto].
    + split_and!; [cbn; rewrite length_app; cbn; lia| |by eexists _, _|by exists (c :: m), d].
      constructor; [auto|]. apply Forall_app. split; [done|]. repeat constructor; auto.
  - intros (Hlen & Hall & (c & t & -> & Hc) & (m & d & Heq & Hd)). destruct m as [|c' m]; simplify_list_eq.
    + left. eauto.
    + right. exists c', (m ++ [d]). split_and!; try done. exists m, [d]. apply Forall_cons in Hall as [_ Hall].
      apply Forall_app in Hall as [Hall _]. cbn in Hlen. rewrite length_app in Hlen. cbn in Hlen.
      split_and!; [done|lia|done|by exists d].
Qed.

Lemma IsRootNameValid_spec s : IsRootNameValid s = true ↔ root_label s.
Proof. unfold IsRootNameValid. rewrite regex_match_matches. apply (matches_label upper 62). intros c. chars. Qed.

Lemma label_dot s : all label_char s → all dot s.
Proof. apply all_impl. intros c. chars. Qed.

Lemma matches_double_hyphen s : all dot s → matches DOUBLE_HYPHEN s ↔ double_hyphen s.
Proof.
  intros Hdot. unfold DOUBLE_HYPHEN, double_hyphen, Chr. rewrite matches_cat. setoid_rewrite matches_cat.
  setoid_rewrite matches_star_cls. setoid_rewrite matches_atleast_cls. split.
  - intros (a & s2 & -> & _ & m & b & -> & [Hm Hall] & _). destruct m as [|c1 [|c2 m]]; cbn in Hm; [lia..|].
    apply Forall_cons in Hall as [<-%Z.eqb_eq Hall]. apply Forall_cons in Hall as [<-%Z.eqb_eq _].
    by exists a, (m ++ b).
  - intros (a & b & ->). rewrite !Forall_app, !Forall_cons in Hdot. exists a, (45 :: 45 :: b).
    split_and!; [done|naive_solver|]. exists [45; 45], b. split_and!; [done|cbn; lia|by repeat constructor|naive_solver].
Qed.

Lemma matches_leading_hyphen s : matches LEADING_HYPHEN s → ∃ t, s = 45 :: t.
Proof. unfold LEADING_HYPHEN. rewrite matches_chr_cat. naive_solver. Qed.

Lemma matches_trailing_hyphen s : matches TRAILING_HYPHEN s → ∃ t, s = t ++ [45].
Proof. unfold TRAILING_HYPHEN. rewrite matches_cat. setoid_rewrite matches_chr. naive_solver. Qed.

Lemma regex_match_false s r : regex_match s r = false ↔ ¬ matches r s.
Proof. rewrite <- regex_match_matches. by destruct (regex_match s r). Qed.

(** A string without a hyphen passes every test on hyphens. *)
Lemma no_hyphen s : 45 ∉ s →
  no_stray_hyphen s = true ∧ regex_match s QUALIFIER_LEADING_HYPHEN = false.
Proof.
  intros Hs. unfold no_stray_hyphen. rewrite !andb_true_iff, !negb_true_iff, !regex_match_false. split_and!.
  - unfold DOUBLE_HYPHEN, Chr. rewrite matches_cat. setoid_rewrite matches_cat. setoid_rewrite matches_atleast_cls.
    intros (a & s2 & -> & _ & m & b & -> & [Hm Hall] & _). destruct m as [|c m]; [cbn in Hm; lia|].
    apply Forall_cons in Hall as [<-%Z.eqb_eq _]. apply Hs. rewrite !elem_of_app, elem_of_cons. auto.
  - intros (t & ->)%matches_leading_hyphen. apply Hs, elem_of_cons. auto.
  - intros (t & ->)%matches_trailing_hyphen. apply Hs. rewrite elem_of_app, elem_of_cons. auto.
  - unfold QUALIFIER_LEADING_HYPHEN. rewrite matches_cls_cat. setoid_rewrite matches_chr_cat.
    intros (c & t & -> & _ & u & -> & _). apply Hs. rewrite !elem_of_cons. auto.
Qed.

(** For a label the hyphen tests only exclude two hyphens in a row. *)
Lemma no_stray_hyphen_label s : domain_label alnum 63 s → no_stray_hyphen s = true ↔ ¬ double_hyphen s.
Proof.
  intros (_ & Hall & (c & t & -> & Hc) & (u & d & Heq & Hd)). unfold no_stray_hyphen.
  rewrite !andb_true_iff, !negb_true_iff, !regex_match_false, matches_double_hyphen by (by apply label_dot).
  split; [naive_solver|]. intros H. split_and!; [done| |].
  - intros (t' & [= -> ->])%matches_leading_hyphen. done.
  - intros (t' & Ht)%matches_trailing_hyphen. rewrite Heq in Ht. apply app_inj_tail in Ht as [_ ->]. done.
Qed.

Lemma matches_groups s : matches (Star (Cat (Chr 45) (Plus (Cls alnum)))) s →
  ∃ gs, Forall (fun g => g ≠ [] ∧ all alnum g) gs ∧ s = concat (map (cons 45) gs).
Proof.
  remember (Star _) as r eqn:Hr. induction 1; try done; [by exists []|]. injection Hr as ->.
  apply matches_chr_cat in H as (g & Heq & Hg). rewrite matches_plus_cls in Hg.
  destruct (IHmatches2 eq_refl) as (gs & Hgs & ->). exists (g :: gs). split; [by constructor|].
  cbn. by simplify_eq.
Qed.

Lemma join_concat d g gs : join d (g :: gs) = g ++ concat (map (cons d) gs).
Proof. revert g. induction gs as [|h gs IH]; intros g; [cbn; by rewrite app_nil_r|]. rewrite join_cons, IH. done. Qed.

Lemma matches_punycode s : matches PUNYCODE_SUFFIX s ↔
  ∃ gs, gs ≠ [] ∧ Forall (fun g => g ≠ [] ∧ all alnum g) gs ∧ s = join 45 gs.
Proof.
  unfold PUNYCODE_SUFFIX. rewrite matches_cat. split.
  - intros (s1 & s2 & -> & H1%matches_plus_cls & (gs & Hgs & ->)%matches_groups). exists (s1 :: gs).
    rewrite join_concat. split_and!; [done|by constructor|done].
  - intros ([|g gs] & Hne & Hgs & ->); [done|]. rewrite join_concat. apply Forall_cons in Hgs as [Hg Hgs].
    exists g, (concat (map (cons 45) gs)). split_and!; [done|by apply matches_plus_cls|].
    clear Hne Hg g. induction Hgs as [|g gs Hg Hgs IH]; [constructor|]. cbn. apply m_star; [|done].
    apply matches_chr_cat. exists g. split; [done|]. by apply matches_plus_cls.
Qed.

Lemma IsValidUppercasePunycode_spec s : IsValidUppercasePunycode s = true ↔ punycode s.
Proof.
  unfold IsValidUppercasePunycode, punycode, size. split.
  - destruct (Z.ltb_spec (Z.of_nat (length s)) 5); [done|]. case_bool_decide as Ht; [|done]. cbn [orb negb].
    rewrite regex_match_matches, matches_punycode. intros (gs & Hne & Hgs & Heq). exists gs. split_and!; [done..|].
    by rewrite <- Heq, <- Ht, take_drop.
  - intros (gs & Hne & Hgs & ->). destruct gs as [|g gs]; [done|].
    assert (g ≠ []) as Hg by (apply Forall_cons in Hgs; naive_solver). rewrite join_concat in *.
    destruct g as [|c g]; [done|]. destruct (Z.ltb_spec (Z.of_nat (length (punycode_prefix ++ (c :: g) ++ concat (map (cons 45) gs)))) 5).
    { rewrite !length_app in *. cbn in *. lia. }
    rewrite bool_decide_true by done. cbn [orb negb]. rewrite regex_match_matches, matches_punycode.
    exists ((c :: g) :: gs). by rewrite join_concat.
Qed.

Lemma IsSubNameValid_spec s : IsSubNameValid s = true ↔ sub_label s.
Proof.
  unfold IsSubNameValid, sub_label.
  assert (regex_match s SUB_NAME_CHARACTERS = true ↔ domain_label alnum 63 s) as Hm.
  { rewrite regex_match_matches. by apply (matches_label alnum 61). }
  destruct (regex_match s SUB_NAME_CHARACTERS); cbn [negb]; [|split; [done|]; intros [?%Hm _]; done].
  destruct Hm as [Hm _]. specialize (Hm eq_refl). pose proof (IsValidUppercasePunycode_spec s).
  pose proof (no_stray_hyphen_label s Hm). destruct (IsValidUppercasePunycode s); naive_solver.
Qed.

(** ** Lemmas: paths *)

Definition path_char (c : Z) : bool := label_char c || (c =? 47).

Lemma root_label_free s : root_label s → 47 ∉ s.
Proof. intros (_ & Hall & _). by apply (all_free label_char). Qed.
Lemma sub_label_free s : sub_label s → 47 ∉ s.
Proof. intros [(_ & Hall & _) _]. by apply (all_free label_char). Qed.

Lemma path_free r subs : root_label r → Forall sub_label subs → Forall (fun p => 47 ∉ p) (r :: subs).
Proof.
  intros Hr Hs. constructor; [by apply root_label_free|]. eapply Forall_impl; [exact Hs|]. apply sub_label_free.
Qed.

Lemma join_path_chars ls : Forall (all label_char) ls → all path_char (join 47 ls).
Proof.
  assert (∀ s, all label_char s → all path_char s) as Hi by (intros s; apply all_impl; unfold path_char; intros c; chars).
  induction 1 as [|l ls Hl Hls IH]; [constructor|]. destruct ls as [|l2 ls]; [by apply Hi|]. rewrite join_cons.
  apply Forall_app. split; [by apply Hi|]. by constructor.
Qed.

Lemma name_path_chars s : name_path s → s ≠ [] ∧ all path_char s.
Proof.
  intros (r & subs & -> & Hr & Hs). split.
  - destruct Hr as (_ & _ & (c & t & -> & _) & _). destruct subs; [done|]. by rewrite join_cons.
  - apply join_path_chars. constructor; [by destruct Hr as (_ & H & _)|].
    eapply Forall_impl; [exact Hs|]. by intros l [(_ & H & _) _].
Qed.

Section names.
  Context `{Split : BoostSplit}.

Lemma split_path r subs : root_label r → Forall sub_label subs → split SUB_NAME_DELIMITER (join 47 (r :: subs)) = r :: subs.
Proof. intros Hr Hs. apply split_parts; [done|]. by apply path_free. Qed.

Lemma IsNameValidBeforeTag_spec s : IsNameValidBeforeTag s = true ↔ name_path s.
Proof.
  unfold IsNameValidBeforeTag, name_path. split.
  - pose proof (split_nonempty SUB_NAME_DELIMITER s). pose proof (split_join SUB_NAME_DELIMITER s) as Hj.
    destruct (split SUB_NAME_DELIMITER s) as [|r subs]; [done|]. change (front (r :: subs)) with r. cbn [tail].
    destruct (IsRootNameValid r) eqn:Hr; [|done]. cbn [negb]. intros Hs. exists r, subs. split_and!; [done| |].
    + by apply IsRootNameValid_spec.
    + apply Forall_forall. intros l Hl. apply IsSubNameValid_spec. rewrite forallb_forall in Hs. by apply Hs, list_elem_of_In.
  - intros (r & subs & -> & Hr & Hs). rewrite split_path by done. change (front (r :: subs)) with r. cbn [tail].
    rewrite (proj2 (IsRootNameValid_spec r)) by done. cbn [negb]. apply forallb_forall. intros l Hl.
    apply IsSubNameValid_spec. rewrite Forall_forall in Hs. by apply Hs, list_elem_of_In.
Qed.

Lemma IsAssetNameASubasset_path r subs : root_label r → Forall sub_label subs →
  IsAssetNameASubasset (join 47 (r :: subs)) = bool_decide (subs ≠ []).
Proof.
  intros Hr Hs. unfold IsAssetNameASubasset. rewrite split_path by done. change (front (r :: subs)) with r. cbn [tail].
  rewrite (proj2 (IsRootNameValid_spec r)) by done. destruct subs; [done|]. by rewrite bool_decide_true by done.
Qed.

Lemma all_label_alnum q : all label_char q → all dotted_char q → all alnum q.
Proof. intros H1 H2. rewrite Forall_forall in *. intros c Hc. specialize (H1 c Hc). specialize (H2 c Hc). cbn in *. chars. Qed.

Lemma alnum_free q : all alnum q → 45 ∉ q ∧ 47 ∉ q ∧ all label_char q ∧ all dotted_char q.
Proof.
  intros H. split_and!; [by apply (all_free alnum)|by apply (all_free alnum)|eapply all_impl, H|eapply all_impl, H];
    intros c; chars.
Qed.

(** Qualifier and restricted names, once the indicator has excluded hyphens. *)
Lemma marked_name_alnum m q : m ∈ [35; 36] → all alnum q →
  no_stray_hyphen (m :: q) = true ∧ regex_match (m :: q) QUALIFIER_LEADING_HYPHEN = false.
Proof.
  intros Hm Hq. apply no_hyphen. rewrite elem_of_cons. destruct (alnum_free q Hq) as (H45 & _).
  intros [H|H]; [subst; rewrite !elem_of_cons, elem_of_nil in Hm; lia|done].
Qed.

Lemma IsQualifierNameValid_spec q : all dotted_char q →
  IsQualifierNameValid (35 :: q) = true ↔ all alnum q ∧ (3 <= length q)%nat.
Proof.
  intros Hd. unfold IsQualifierNameValid, QUALIFIER_NAME_CHARACTERS.
  rewrite !andb_true_iff, !negb_true_iff, regex_match_matches, matches_chr_cat. setoid_rewrite matches_atleast_cls. split.
  - intros [[[(t & [= <-] & Hl & Hall) _] _] _]. split; [by apply all_label_alnum|done].
  - intros [Ha Hl]. destruct (marked_name_alnum 35 q) as [Hs Hq]; [by repeat constructor|done|].
    unfold no_stray_hyphen in Hs. rewrite !andb_true_iff, !negb_true_iff in Hs.
    destruct (alnum_free q Ha) as (_ & _ & ? & _). naive_solver.
Qed.

Lemma IsSubQualifierNameValid_spec q : all dotted_char q →
  IsSubQualifierNameValid (35 :: q) = true ↔ all alnum q ∧ q ≠ [].
Proof.
  intros Hd. unfold IsSubQualifierNameValid, SUB_QUALIFIER_NAME_CHARACTERS.
  rewrite !andb_true_iff, regex_match_matches, matches_chr_cat. setoid_rewrite matches_plus_cls. split.
  - intros [(t & [= <-] & Hne & Hall) _]. split; [by apply all_label_alnum|done].
  - intros [Ha Hl]. destruct (marked_name_alnum 35 q) as [Hs Hq]; [by repeat constructor|done|].
    destruct (alnum_free q Ha) as (_ & _ & ? & _). naive_solver.
Qed.

Lemma IsRestrictedNameValid_spec q : all dotted_char q →
  IsRestrictedNameValid (36 :: q) = true ↔ all alnum q ∧ (3 <= length q)%nat.
Proof.
  intros Hd. unfold IsRestrictedNameValid, RESTRICTED_NAME_CHARACTERS.
  rewrite !andb_true_iff, regex_match_matches, matches_chr_cat. setoid_rewrite matches_atleast_cls. split.
  - intros [(t & [= <-] & Hne & Hall) _]. split; [by apply all_label_alnum|done].
  - intros [Ha Hl]. destruct (marked_name_alnum 36 q) as [Hs Hq]; [by repeat constructor|done|].
    destruct (alnum_free q Ha) as (_ & _ & ? & _). naive_solver.
Qed.

(** ** Lemmas: indicators *)

Lemma tag_indicator d s :
  regex_match s (Cat (Plus (Cls before_tag)) (Cat (Chr d) (Plus (Cls in_tag)))) = true ↔
  ∃ p t, s = p ++ d :: t ∧ (p ≠ [] ∧ all before_tag p) ∧ (t ≠ [] ∧ all in_tag t).
Proof.
  rewrite regex_match_matches, matches_cat. setoid_rewrite matches_chr_cat. setoid_rewrite matches_plus_cls. naive_solver.
Qed.

Lemma owner_indicator s : regex_match s OWNER_INDICATOR = true ↔ ∃ p, s = p ++ [33] ∧ p ≠ [] ∧ all before_tag p.
Proof.
  unfold OWNER_INDICATOR. rewrite regex_match_matches, matches_cat. setoid_rewrite matches_chr. setoid_rewrite matches_plus_cls.
  naive_solver.
Qed.

Lemma marked_indicator m s : regex_match s (Cat (Chr m) (AtLeast 3 (Cls dotted_char))) = true ↔
  ∃ q, s = m :: q ∧ (3 <= length q)%nat ∧ all dotted_char q.
Proof. rewrite regex_match_matches, matches_chr_cat. by setoid_rewrite matches_atleast_cls. Qed.

Lemma sub_qualifier_indicator s : regex_match s SUB_QUALIFIER_INDICATOR = true ↔
  ∃ q u, s = 35 :: q ++ 47 :: 35 :: u ∧ (q ≠ [] ∧ all dotted_char q) ∧ (u ≠ [] ∧ all dotted_char u).
Proof.
  unfold SUB_QUALIFIER_INDICATOR. rewrite regex_match_matches, matches_chr_cat. setoid_rewrite matches_cat at 1.
  setoid_rewrite matches_chr_cat. setoid_rewrite matches_chr_cat. setoid_rewrite matches_plus_cls. naive_solver.
Qed.

(** The first four indicators need their mark, and a first character that is no mark. *)
Lemma tag_indicator_absent d s : d ∉ s →
  regex_match s (Cat (Plus (Cls before_tag)) (Cat (Chr d) (Plus (Cls in_tag)))) = false.
Proof.
  intros Hd. apply not_true_iff_false. rewrite tag_indicator. intros (p & t & -> & _). apply Hd.
  rewrite elem_of_app, elem_of_cons. auto.
Qed.

Lemma owner_indicator_absent s : 33 ∉ s → regex_match s OWNER_INDICATOR = false.
Proof.
  intros Hd. apply not_true_iff_false. rewrite owner_indicator. intros (p & -> & _). apply Hd.
  rewrite elem_of_app, elem_of_cons. auto.
Qed.

Lemma tag_indicator_marked d m t : before_tag m = false →
  regex_match (m :: t) (Cat (Plus (Cls before_tag)) (Cat (Chr d) (Plus (Cls in_tag)))) = false.
Proof.
  intros Hm. apply not_true_iff_false. rewrite tag_indicator. intros (p & t' & Heq & [Hp Hall] & _).
  destruct p as [|c p]; [done|]. simplify_list_eq. apply Forall_cons in Hall as [? _]. congruence.
Qed.

Lemma owner_indicator_marked m t : before_tag m = false → regex_match (m :: t) OWNER_INDICATOR = false.
Proof.
  intros Hm. apply not_true_iff_false. rewrite owner_indicator. intros (p & Heq & Hp & Hall).
  destruct p as [|c p]; [done|]. simplify_list_eq. apply Forall_cons in Hall as [? _]. congruence.
Qed.

Lemma marked_indicator_other m c t : c ≠ m → regex_match (c :: t) (Cat (Chr m) (AtLeast 3 (Cls dotted_char))) = false.
Proof. intros Hc. apply not_true_iff_false. rewrite marked_indicator. naive_solver. Qed.

Lemma sub_qualifier_indicator_other c t : c ≠ 35 → regex_match (c :: t) SUB_QUALIFIER_INDICATOR = false.
Proof. intros Hc. apply not_true_iff_false. rewrite sub_qualifier_indicator. naive_solver. Qed.

(** ** Lemmas: type checks *)

Lemma check_ok b e : check b e = Ok () ↔ b = true.
Proof. by destruct b. Qed.
Lemma typed_ok r t t' : typed r t = Ok t' ↔ r = Ok () ∧ t' = t.
Proof. destruct r as [[]|]; cbn; naive_solver. Qed.
Lemma check_bind b e (r : result name_error ()) : (let? _ := check b e in r) = Ok () ↔ b = true ∧ r = Ok ().
Proof. destruct b; cbn; naive_solver. Qed.
Lemma not_gtb a b : negb (a >? b) = true ↔ a <= b.
Proof. rewrite negb_true_iff. destruct (Z.gtb_spec a b); split; (done || lia). Qed.

Lemma check_unique p tag : 35 ∉ p → 35 ∉ tag → IsTypeCheckNameValid UNIQUE (p ++ 35 :: tag) = Ok () ↔
  size (p ++ 35 :: tag) <= 256 ∧ name_path p ∧ tag ≠ [] ∧ all unique_char tag.
Proof.
  intros Hp Ht. unfold IsTypeCheckNameValid. rewrite check_bind, not_gtb, split_two by done.
  change (front [p; tag]) with p. change (back [p; tag]) with tag.
  rewrite check_ok, andb_true_iff, IsNameValidBeforeTag_spec.
  unfold IsUniqueTagValid, UNIQUE_TAG_CHARACTERS. by rewrite regex_match_matches, matches_plus_cls.
Qed.

Lemma back_split d s : ∃ junk, s = junk ++ back (split d s) ∧ (junk = [] ∨ ∃ j, junk = j ++ [d]).
Proof.
  pose proof (split_nonempty d s) as Hne. pose proof (split_join d s) as Hj. destruct (split d s) as [|q ps] using rev_ind; [done|].
  unfold back. rewrite last_snoc. cbn. rewrite <- Hj. destruct (decide (ps = [])) as [->|Hps].
  - exists []. cbn. auto.
  - exists (join d ps ++ [d]). rewrite join_snoc, <- app_assoc by done. split; [done|]. right. by eexists.
Qed.

Lemma back_split_tag d junk tag : d ∉ tag → (junk = [] ∨ ∃ j, junk = j ++ [d]) → back (split d (junk ++ tag)) = tag.
Proof.
  intros Ht [->|(j & ->)]; cbn [app].
  - by rewrite split_one.
  - rewrite <- app_assoc. cbn [app]. rewrite split_snoc by done. unfold back. by rewrite last_snoc.
Qed.

Lemma check_vote p rest : 94 ∉ p → IsTypeCheckNameValid VOTE (p ++ 94 :: rest) = Ok () ↔
  size (p ++ 94 :: rest) <= 256 ∧ name_path p ∧ ∃ junk tag, rest = junk ++ tag ∧ tag ≠ [] ∧ all alnum tag ∧
    (junk = [] ∨ ∃ j, junk = j ++ [94]).
Proof.
  intros Hp. unfold IsTypeCheckNameValid. rewrite check_bind, not_gtb, split_cons by done.
  change (front (p :: split 94 rest)) with p.
  assert (back (p :: split 94 rest) = back (split 94 rest)) as ->.
  { pose proof (split_nonempty 94 rest). by destruct (split 94 rest). }
  rewrite check_ok, andb_true_iff, IsNameValidBeforeTag_spec.
  unfold IsVoteTagValid, VOTE_TAG_CHARACTERS. rewrite regex_match_matches, matches_plus_cls. split.
  - intros (H1 & H2 & H3 & H4). split_and!; [done..|]. destruct (back_split 94 rest) as (junk & Heq & Hj). eauto 10.
  - intros (H1 & H2 & junk & tag & -> & H3 & H4 & Hj). rewrite back_split_tag; [done| |done]. by apply (all_free alnum).
Qed.

Lemma check_channel p tag : 126 ∉ p → 126 ∉ tag → IsTypeCheckNameValid MSGCHANNEL (p ++ 126 :: tag) = Ok () ↔
  size (p ++ 126 :: tag) <= 256 ∧ name_path p ∧ tag ≠ [] ∧ all (fun c => alnum c || lower c) tag ∧ size tag <= 12.
Proof.
  intros Hp Ht. unfold IsTypeCheckNameValid. rewrite check_bind, not_gtb, split_two by done.
  change (front [p; tag]) with p. change (back [p; tag]) with tag.
  rewrite check_bind, not_gtb, check_ok, andb_true_iff, IsNameValidBeforeTag_spec.
  unfold IsMsgChannelTagValid, MSG_CHANNEL_TAG_CHARACTERS. rewrite andb_true_iff, regex_match_matches, matches_plus_cls.
  unfold MAX_NAME_LENGTH, MAX_CHANNEL_NAME_LENGTH. split; [naive_solver|]. intros (H1 & H2 & H3 & H4 & H5).
  split_and!; try done. apply no_hyphen. by apply (all_free (fun c => alnum c || lower c)).
Qed.

Lemma check_owner p : IsTypeCheckNameValid OWNER (p ++ [33]) = Ok () ↔ size (p ++ [33]) <= 256 ∧ name_path p.
Proof.
  unfold IsTypeCheckNameValid. rewrite check_bind, not_gtb, check_ok, <- IsNameValidBeforeTag_spec, length_app.
  cbn [length]. rewrite take_app_le by lia. by rewrite take_ge by lia.
Qed.

Lemma check_restricted q : all dotted_char q → IsTypeCheckNameValid RESTRICTED (36 :: q) = Ok () ↔
  size (36 :: q) <= 256 ∧ all alnum q ∧ (3 <= length q)%nat.
Proof.
  intros Hq. unfold IsTypeCheckNameValid. by rewrite check_bind, not_gtb, check_ok, IsRestrictedNameValid_spec.
Qed.

Lemma dotted_free q : all dotted_char q → 47 ∉ 35 :: q.
Proof. intros Hq. rewrite elem_of_cons. intros [?|Hin]; [done|]. by apply (all_free dotted_char 47) in Hq. Qed.

Lemma check_qualifier q : all dotted_char q →
  (IsTypeCheckNameValid QUALIFIER (35 :: q) = Ok () ↔ size (35 :: q) <= 256 ∧ all alnum q ∧ (3 <= length q)%nat) ∧
  IsAssetNameASubQualifier (35 :: q) = false.
Proof.
  intros Hq. pose proof (dotted_free q Hq). unfold IsTypeCheckNameValid, IsQualifierNameValidBeforeTag, IsAssetNameASubQualifier.
  rewrite check_bind, not_gtb, check_ok, split_one by done. change (front [35 :: q]) with (35 :: q). cbn [length Nat.ltb Nat.leb tail forallb].
  rewrite <- (IsQualifierNameValid_spec q Hq). by destruct (IsQualifierNameValid (35 :: q)).
Qed.

Lemma check_sub_qualifier q u : all dotted_char q → all dotted_char u →
  IsTypeCheckNameValid SUB_QUALIFIER (35 :: q ++ 47 :: 35 :: u) = Ok () ↔
    size (35 :: q ++ 47 :: 35 :: u) <= 256 ∧ IsAssetNameASubQualifier (35 :: q ++ 47 :: 35 :: u) = true ∧
    all alnum q ∧ (3 <= length q)%nat ∧ all alnum u ∧ u ≠ [].
Proof.
  intros Hq Hu. pose proof (dotted_free q Hq). pose proof (dotted_free u Hu).
  unfold IsTypeCheckNameValid, IsQualifierNameValidBeforeTag, IsAssetNameASubQualifier.
  change (35 :: q ++ 47 :: 35 :: u) with ((35 :: q) ++ 47 :: (35 :: u)).
  rewrite check_bind, not_gtb, check_ok, split_two by done. change (front [35 :: q; 35 :: u]) with (35 :: q).
  cbn [length Nat.ltb Nat.leb tail forallb].
  pose proof (IsQualifierNameValid_spec q Hq). pose proof (IsSubQualifierNameValid_spec u Hu).
  destruct (IsQualifierNameValid (35 :: q)), (IsSubQualifierNameValid (35 :: u)); cbn; naive_solver.
Qed.

Lemma check_path s : let type := if IsAssetNameASubasset s then SUB else ROOT in
  IsTypeCheckNameValid type s = Ok () ↔ size s <= 255 ∧ name_path s.
Proof.
  cbv zeta. rewrite <- IsNameValidBeforeTag_spec.
  assert (IsTypeCheckNameValid ROOT s = Ok () ↔ size s <= 255 ∧ IsNameValidBeforeTag s = true) as Hroot.
  { unfold IsTypeCheckNameValid. rewrite check_bind, not_gtb. unfold MAX_NAME_LENGTH, MIN_ASSET_LENGTH.
    destruct (IsNameValidBeforeTag s) eqn:Hv.
    - apply IsNameValidBeforeTag_spec, name_path_chars in Hv as [Hne _]. destruct s as [|c s]; [done|].
      destruct (Z.ltb_spec (size (c :: s)) 1) as [Hlt|_]; [unfold size in Hlt; cbn in Hlt; lia|].
      rewrite !andb_false_r. by rewrite check_ok.
    - cbn [negb andb]. repeat case_match; naive_solver. }
  by destruct (IsAssetNameASubasset s).
Qed.

(** ** Lemmas: classification *)

Lemma before_tag_free p : all before_tag p → 35 ∉ p ∧ 126 ∉ p ∧ 33 ∉ p ∧ 94 ∉ p.
Proof. intros H. split_and!; by apply (all_free before_tag). Qed.
Lemma path_before_tag p : name_path p → p ≠ [] ∧ all before_tag p.
Proof. intros [Hne H]%name_path_chars. split; [done|]. eapply all_impl, H. unfold path_char. intros c. chars. Qed.
Lemma app_mark_free d p m (t : list Z) : d ∉ p → d ≠ m → d ∉ t → d ∉ p ++ m :: t.
Proof. rewrite elem_of_app, elem_of_cons. tauto. Qed.

Lemma valid_name_sound name t : IsAssetNameValid name = Ok t → valid_name t name.
Proof.
  unfold IsAssetNameValid. destruct (size name >? 266); [done|].
  destruct (regex_match name UNIQUE_INDICATOR) eqn:Hu.
  { apply tag_indicator in Hu as (p & tag & -> & [_ Hp%before_tag_free] & [_ Ht]). rewrite typed_ok, check_unique.
    - intros [Hc ->]. cbn. naive_solver.
    - naive_solver.
    - by apply (all_free in_tag). }
  clear Hu. destruct (regex_match name MSG_CHANNEL_INDICATOR) eqn:Hu.
  { apply tag_indicator in Hu as (p & tag & -> & [_ Hp%before_tag_free] & [_ Ht]). rewrite typed_ok, check_channel.
    - intros [Hc ->]. cbn. naive_solver.
    - naive_solver.
    - by apply (all_free in_tag). }
  clear Hu. destruct (regex_match name OWNER_INDICATOR) eqn:Hu.
  { apply owner_indicator in Hu as (p & -> & _). rewrite typed_ok, check_owner. intros [[H1 H2] ->]. cbn; naive_solver. }
  clear Hu. destruct (regex_match name VOTE_INDICATOR) eqn:Hu.
  { apply tag_indicator in Hu as (p & rest & -> & [_ Hp%before_tag_free] & [_ Ht]). rewrite typed_ok, check_vote by naive_solver.
    intros [(H1 & H2 & junk & tag & -> & H3 & H4 & H5) ->]. apply Forall_app in Ht as [Hj _]. split; [done|].
    by exists p, junk, tag. }
  clear Hu. destruct (regex_match name QUALIFIER_INDICATOR) eqn:Hu.
  { apply marked_indicator in Hu as (q & -> & _ & Hq). destruct (check_qualifier q Hq) as [Hc ->].
    rewrite typed_ok, Hc. intros [(H1 & H2 & H3) ->]. cbn; naive_solver. }
  clear Hu. destruct (regex_match name SUB_QUALIFIER_INDICATOR) eqn:Hu.
  { apply sub_qualifier_indicator in Hu as (q & u & -> & [_ Hq] & [_ Hu]). rewrite typed_ok, check_sub_qualifier by done.
    intros [(H1 & -> & H2 & H3 & H4 & H5) ->]. cbn; naive_solver. }
  clear Hu. destruct (regex_match name RESTRICTED_INDICATOR) eqn:Hu.
  { apply marked_indicator in Hu as (q & -> & _ & Hq). rewrite typed_ok, check_restricted by done.
    intros [(H1 & H2 & H3) ->]. cbn; naive_solver. }
  clear Hu. rewrite typed_ok, check_path. intros [(Hsz & r & subs & -> & Hr & Hs) ->].
  rewrite IsAssetNameASubasset_path by done. case_bool_decide as Hne; [cbn; naive_solver|].
  destruct subs; [exact Hr|naive_solver].
Qed.

(** None of the marks of the first four indicators occurs. *)
Lemma untagged s : all (fun c => before_tag c) s →
  regex_match s UNIQUE_INDICATOR = false ∧ regex_match s MSG_CHANNEL_INDICATOR = false ∧
  regex_match s OWNER_INDICATOR = false ∧ regex_match s VOTE_INDICATOR = false.
Proof.
  intros (H35 & H126 & H33 & H94)%before_tag_free.
  split_and!; [by apply tag_indicator_absent..|by apply owner_indicator_absent|by apply tag_indicator_absent].
Qed.

(** The first character is a qualifier's mark. *)
Lemma marked_untagged t :
  regex_match (35 :: t) UNIQUE_INDICATOR = false ∧ regex_match (35 :: t) MSG_CHANNEL_INDICATOR = false ∧
  regex_match (35 :: t) OWNER_INDICATOR = false ∧ regex_match (35 :: t) VOTE_INDICATOR = false.
Proof. split_and!; by (apply tag_indicator_marked || apply owner_indicator_marked). Qed.

Lemma path_classified r subs : root_label r → Forall sub_label subs → size (join 47 (r :: subs)) <= 255 →
  IsAssetNameValid (join 47 (r :: subs)) = Ok (if bool_decide (subs ≠ []) then SUB else ROOT).
Proof.
  intros Hr Hs Hsz. assert (name_path (join 47 (r :: subs))) as Hp by (by exists r, subs).
  pose proof (proj2 (path_before_tag _ Hp)) as Hb. destruct (untagged _ Hb) as (H1 & H2 & H3 & H4).
  assert (∃ c t, join 47 (r :: subs) = c :: t ∧ c ≠ 35 ∧ c ≠ 36) as (c & t & Hc & H35 & H36).
  { destruct Hr as (_ & _ & (c & t & -> & Hc) & _). rewrite join_concat. exists c, (t ++ concat (map (cons 47) subs)).
    split_and!; [done|intros ->; done|intros ->; done]. }
  unfold IsAssetNameValid. destruct (Z.gtb_spec (size (join 47 (r :: subs))) 266); [lia|].
  rewrite H1, H2, H3, H4. unfold QUALIFIER_INDICATOR, RESTRICTED_INDICATOR.
  assert (∀ m, c ≠ m → regex_match (join 47 (r :: subs)) (Cat (Chr m) (AtLeast 3 (Cls dotted_char))) = false) as Hmark
    by (intros m Hm; rewrite Hc; by apply marked_indicator_other).
  rewrite !Hmark by done. assert (regex_match (join 47 (r :: subs)) SUB_QUALIFIER_INDICATOR = false) as ->
    by (rewrite Hc; by apply sub_qualifier_indicator_other).
  rewrite typed_ok, check_path, IsAssetNameASubasset_path by done. done.
Qed.

Lemma tagged_classified p m tag : name_path p → tag ≠ [] → all in_tag tag →
  (m = 35 ∨ (m = 126 ∧ 35 ∉ tag) ∨ (m = 94 ∧ 35 ∉ tag ∧ 126 ∉ tag ∧ 33 ∉ tag)) → size (p ++ m :: tag) <= 256 →
  let t := if m =? 35 then UNIQUE else if m =? 126 then MSGCHANNEL else VOTE in
  IsAssetNameValid (p ++ m :: tag) = typed (IsTypeCheckNameValid t (p ++ m :: tag)) t.
Proof.
  intros [Hpne Hp]%path_before_tag Hne Ht Hm Hsz. cbv zeta.
  assert (regex_match (p ++ m :: tag) (Cat (Plus (Cls before_tag)) (Cat (Chr m) (Plus (Cls in_tag)))) = true) as Hi
    by (apply tag_indicator; eauto 10).
  destruct (before_tag_free p Hp) as (H35 & H126 & H33 & H94).
  unfold IsAssetNameValid. destruct (Z.gtb_spec (size (p ++ m :: tag)) 266); [lia|].
  destruct Hm as [->|[[-> Hm]|(-> & Hm1 & Hm2 & Hm3)]].
  - unfold UNIQUE_INDICATOR. by rewrite Hi.
  - unfold UNIQUE_INDICATOR, MSG_CHANNEL_INDICATOR. rewrite tag_indicator_absent by (by apply app_mark_free). by rewrite Hi.
  - unfold UNIQUE_INDICATOR, MSG_CHANNEL_INDICATOR, VOTE_INDICATOR.
    rewrite (tag_indicator_absent 35), (tag_indicator_absent 126) by (by apply app_mark_free).
    rewrite owner_indicator_absent by (by apply app_mark_free). by rewrite Hi.
Qed.

Lemma in_tag_free tag : all in_tag tag → 35 ∉ tag ∧ 126 ∉ tag ∧ 33 ∉ tag.
Proof. intros H. split_and!; by apply (all_free in_tag). Qed.

(** A string that starts with a qualifier's mark reaches the two qualifier tests. *)
Lemma qualifier_classified s : size s <= 256 → valid_name QUALIFIER s → IsAssetNameValid s = Ok QUALIFIER.
Proof.
  intros Hsz (_ & q & -> & Hq & Hl). destruct (alnum_free q Hq) as (_ & _ & _ & Hd).
  destruct (marked_untagged q) as (H1 & H2 & H3 & H4). unfold IsAssetNameValid.
  destruct (Z.gtb_spec (size (35 :: q)) 266); [lia|]. rewrite H1, H2, H3, H4. unfold QUALIFIER_INDICATOR.
  rewrite (proj2 (marked_indicator 35 (35 :: q))) by eauto. destruct (check_qualifier q Hd) as [Hc ->].
  apply typed_ok. by rewrite Hc.
Qed.

Lemma sub_qualifier_classified s : size s <= 256 → valid_name SUB_QUALIFIER s → IsAssetNameValid s = Ok SUB_QUALIFIER.
Proof.
  intros Hsz (_ & q & u & -> & Hq & Hl & Hu & Hne). destruct (alnum_free q Hq) as (_ & _ & _ & Hd).
  destruct (alnum_free u Hu) as (_ & _ & _ & Hdu). set (t := q ++ 47 :: 35 :: u) in *.
  destruct (marked_untagged t) as (H1 & H2 & H3 & H4). unfold IsAssetNameValid.
  destruct (Z.gtb_spec (size (35 :: t)) 266); [lia|]. rewrite H1, H2, H3, H4.
  assert (regex_match (35 :: t) QUALIFIER_INDICATOR = false) as ->.
  { apply not_true_iff_false. unfold QUALIFIER_INDICATOR. rewrite marked_indicator. intros (q' & [= <-] & _ & Hall).
    subst t. apply Forall_app in Hall as [_ Hall]. apply Forall_cons in Hall as [? _]. done. }
  assert (q ≠ []) by (by intros ->; cbn in Hl; lia).
  rewrite (proj2 (sub_qualifier_indicator (35 :: t))) by (subst t; eauto 10).
  assert (IsAssetNameASubQualifier (35 :: t) = true) as Hsub.
  { unfold IsAssetNameASubQualifier. change (35 :: t) with ((35 :: q) ++ 47 :: (35 :: u)).
    rewrite split_two by (by apply dotted_free). change (front [35 :: q; 35 :: u]) with (35 :: q).
    by rewrite (proj2 (IsQualifierNameValid_spec q Hd)). }
  rewrite Hsub. apply typed_ok. split; [|done]. by apply check_sub_qualifier.
Qed.

Lemma restricted_classified s : size s <= 256 → valid_name RESTRICTED s → IsAssetNameValid s = Ok RESTRICTED.
Proof.
  intros Hsz (_ & q & -> & Hq & Hl). destruct (alnum_free q Hq) as (_ & _ & _ & Hd).
  destruct (untagged (36 :: q)) as (H1 & H2 & H3 & H4).
  { constructor; [done|]. eapply all_impl, Hq. intros c. chars. }
  unfold IsAssetNameValid. destruct (Z.gtb_spec (size (36 :: q)) 266); [lia|]. rewrite H1, H2, H3, H4.
  unfold QUALIFIER_INDICATOR, RESTRICTED_INDICATOR.
  rewrite (marked_indicator_other 35), sub_qualifier_indicator_other, (proj2 (marked_indicator 36 (36 :: q))) by eauto.
  apply typed_ok. by rewrite check_restricted.
Qed.

Lemma owner_classified s : size s <= 256 → valid_name OWNER s → IsAssetNameValid s = Ok OWNER.
Proof.
  intros Hsz (_ & p & -> & Hp). destruct (path_before_tag p Hp) as [Hne Hb]. destruct (before_tag_free p Hb) as (H35 & H126 & _ & _).
  unfold IsAssetNameValid. destruct (Z.gtb_spec (size (p ++ [33])) 266); [lia|]. unfold UNIQUE_INDICATOR, MSG_CHANNEL_INDICATOR.
  rewrite (tag_indicator_absent 35), (tag_indicator_absent 126) by (apply app_mark_free; by (done || intros ?%elem_of_nil)).
  rewrite (proj2 (owner_indicator (p ++ [33]))) by eauto. apply typed_ok. by rewrite check_owner.
Qed.

Lemma valid_name_complete name t : valid_name t name → IsAssetNameValid name = Ok t.
Proof.
  intros Hv. destruct t; try done.
  - apply (path_classified name []); [done..|]. destruct Hv as [Hl _]. unfold size. cbn. lia.
  - destruct Hv as (Hsz & r & subs & -> & Hr & Hs & Hne). rewrite path_classified by done. by rewrite bool_decide_true.
  - destruct Hv as (Hsz & p & tag & -> & Hp & Hne & Ht). pose proof (proj2 (path_before_tag p Hp)) as Hb%before_tag_free.
    rewrite tagged_classified; [|done|done|eapply all_impl, Ht; intros c; chars|by left|done].
    apply typed_ok. split; [|done]. rewrite check_unique; [done|naive_solver|by apply (all_free unique_char)].
  - destruct Hv as (Hsz & p & tag & -> & Hp & Hne & Ht & Hl). pose proof (proj2 (path_before_tag p Hp)) as Hb%before_tag_free.
    assert (all in_tag tag) as [H35 H126]%in_tag_free by (eapply all_impl, Ht; intros c; chars).
    rewrite tagged_classified; [|done|done|eapply all_impl, Ht; intros c; chars|right; left; naive_solver|done].
    apply typed_ok. split; [|done]. rewrite check_channel; [done|naive_solver|naive_solver].
  - apply qualifier_classified; [by destruct Hv|done].
  - apply sub_qualifier_classified; [by destruct Hv|done].
  - apply restricted_classified; [by destruct Hv|done].
  - destruct Hv as (Hsz & p & junk & tag & -> & Hp & Hne & Ht & Hj & Hshape).
    pose proof (proj2 (path_before_tag p Hp)) as Hb%before_tag_free.
    assert (all in_tag (junk ++ tag)) as Hin.
    { apply Forall_app. split; [done|]. eapply all_impl, Ht. intros c. chars. }
    destruct (in_tag_free _ Hin) as (H35 & H126 & H33).
    rewrite tagged_classified; [|done|by destruct junk|done|right; right; done|done].
    apply typed_ok. split; [|done]. rewrite check_vote by naive_solver. eauto 10.
  - apply owner_classified; [by destruct Hv|done].
Qed.

(** ** Lemmas: derived names *)

Lemma find_last_of_none d s : d ∉ s → find_last_of d s = None.
Proof.
  induction s as [|c s IH]; [done|]. rewrite elem_of_cons. intros Hd. cbn. rewrite IH by tauto.
  destruct (Z.eqb_spec c d); [subst; tauto|done].
Qed.

Lemma find_last_of_app d p t : d ∉ t → find_last_of d (p ++ d :: t) = Some (length p).
Proof.
  intros Ht. induction p as [|c p IH]; cbn; [by rewrite find_last_of_none, Z.eqb_refl|]. by rewrite IH.
Qed.

(** The parent of a name that ends in a mark and a part without it. *)
Lemma parent_before_mark d name t p rest : IsAssetNameValid name = Ok t →
  (∀ s, parent_index t s = find_last_of d s) → name = p ++ d :: rest → d ∉ rest → GetParentName name = p.
Proof.
  intros Hv Hi -> Hr. unfold GetParentName. rewrite Hv, Hi, find_last_of_app by done. by rewrite take_app_le, take_ge by lia.
Qed.

Lemma path_valid p : name_path p → size p <= 255 → ∃ t, IsAssetNameValid p = Ok t ∧ (t = ROOT ∨ t = SUB).
Proof.
  intros (r & subs & -> & Hr & Hs) Hsz. rewrite path_classified by done. eexists. split; [done|]. case_bool_decide; auto.
Qed.

Lemma path_snoc r subs : root_label r → Forall sub_label subs → subs ≠ [] →
  ∃ p l, join 47 (r :: subs) = p ++ 47 :: l ∧ sub_label l ∧ name_path p.
Proof.
  intros Hr Hs Hne. destruct subs as [|l subs] using rev_ind; [done|]. apply Forall_app in Hs as [Hs Hl].
  exists (join 47 (r :: subs)), l. apply Forall_cons in Hl as [Hl _]. split_and!; [|done|by exists r, subs].
  by apply (join_snoc 47 (r :: subs)).
Qed.

Lemma parent_valid d p rest : name_path p → size (p ++ d :: rest) <= 256 →
  ∃ t, IsAssetNameValid p = Ok t ∧ (t = ROOT ∨ t = SUB).
Proof. intros Hp Hsz. apply path_valid; [done|]. unfold size in *. rewrite length_app in Hsz. cbn in Hsz. lia. Qed.

Lemma owner_of_restricted q : all alnum q → (3 <= length q)%nat → size (36 :: q) <= 256 →
  IsAssetNameValid (q ++ [33]) = Ok OWNER ↔ first_is upper q ∧ (length q <= 64)%nat.
Proof.
  intros Hq Hl Hsz. assert (47 ∉ q) as H47 by (by apply (all_free alnum)). split.
  - intros (_ & p & [-> _]%app_inj_tail & (r & subs & -> & Hr & Hs))%valid_name_sound.
    assert (subs = []) as ->.
    { destruct subs; [done|]. exfalso. apply H47. rewrite join_cons, elem_of_app, elem_of_cons. auto. }
    destruct Hr as (Hlen & _ & Hf & _). done.
  - intros [Hf Hlen]. apply valid_name_complete. split.
    { unfold size in *. rewrite length_app. cbn in *. lia. }
    exists q. split; [done|]. exists q, []. split_and!; [done| |constructor]. split_and!; [lia| |done|].
    + eapply all_impl, Hq. intros c. chars.
    + destruct q as [|c q] using rev_ind; [cbn in Hl; lia|]. exists q, c. split; [done|].
      apply Forall_app in Hq as [_ Hq]. by apply Forall_cons in Hq as [? _].
Qed.

(** Neither [_] nor [.] is in a valid name, but for the middle of a vote name. *)
Lemma path_char_free p d : name_path p → path_char d = false → d ∉ p.
Proof. intros Hp Hd. apply (all_free path_char); [done|]. by apply name_path_chars. Qed.

Lemma valid_name_free name t d : valid_name t name → t ≠ VOTE → d = 95 ∨ d = 46 → d ∉ name.
Proof.
  intros Hv Ht Hd. assert (∀ p, name_path p → d ∉ p) as Hp by (intros p Hp; apply path_char_free; [done|by destruct Hd as [-> | ->]]).
  assert (∀ q, all alnum q → d ∉ q) as Ha by (intros q; apply all_free; by destruct Hd as [-> | ->]).
  destruct t; try done.
  - apply Hp. exists name, []. by split_and!.
  - destruct Hv as (_ & r & subs & -> & Hr & Hs & _). apply Hp. by exists r, subs.
  - destruct Hv as (_ & p & tag & -> & H & _ & Hu). rewrite elem_of_app, elem_of_cons.
    assert (d ∉ tag) by (eapply (all_free unique_char); [by destruct Hd as [-> | ->]|done]). specialize (Hp p H). naive_solver lia.
  - destruct Hv as (_ & p & tag & -> & H & _ & Hu & _). rewrite elem_of_app, elem_of_cons.
    assert (d ∉ tag) by (eapply (all_free (fun c => alnum c || lower c)); [by destruct Hd as [-> | ->]|done]). specialize (Hp p H). naive_solver lia.
  - destruct Hv as (_ & q & -> & Hq & _). rewrite elem_of_cons. specialize (Ha q Hq). naive_solver lia.
  - destruct Hv as (_ & q & u & -> & Hq & _ & Hu & _). rewrite elem_of_cons, elem_of_app, !elem_of_cons. pose proof (Ha q Hq). pose proof (Ha u Hu). naive_solver lia.
  - destruct Hv as (_ & q & -> & Hq & _). rewrite elem_of_cons. specialize (Ha q Hq). naive_solver lia.
  - destruct Hv as (_ & p & -> & H). rewrite elem_of_app, elem_of_cons, elem_of_nil. specialize (Hp p H). naive_solver lia.
Qed.

Lemma letters_root name : all upper name → (1 <= length name <= 64)%nat → valid_name ROOT name.
Proof.
  intros Hu Hl. destruct name as [|c l _] using rev_ind; [cbn in Hl; lia|]. assert (upper c = true) as Hc by (apply Forall_app in Hu as [_ Hu]; by apply Forall_cons in Hu as [? _]).
  split; [lia|]. split; [eapply all_impl, Hu; intros x; chars|]. split; [|exists l, c; split; [done|revert Hc; chars]].
  destruct l as [|x l]; [by exists c, []|]. exists x, (l ++ [c]). split; [done|]. by apply Forall_cons in Hu as [? _].
Qed.

(** ** Properties *)

(** C32: asset names.  [IsAssetNameValid] accepts exactly the names of the grammar
    [valid_name] and gives each its type: paths of domain labels (upper case, no hyphen at
    the ends, two hyphens in a row only in a root label or after ["XN--"]), with a unique,
    channel, owner or vote mark after them, and marked qualifier and restricted names of
    letters and digits only.  Of a vote name only the parts before the first and after the
    last mark are checked, and any characters the pattern lets through may stand between.
    This is not what the unit tests of names expect: no valid name, but for the middle of a
    vote name, has an underscore or a dot, and every word of 1 to 64 upper case letters
    is a root name, "NO" and "PHI" included. *)
Theorem asset_name_classification name t :
  (IsAssetNameValid name = Ok t ↔ valid_name t name) ∧
  (IsAssetNameValid name = Ok t → t ≠ VOTE → 95 ∉ name ∧ 46 ∉ name) ∧
  (all upper name → (1 <= length name <= 64)%nat → IsAssetNameValid name = Ok ROOT).
Proof.
  split; [split; [apply valid_name_sound|apply valid_name_complete]|].
  split; [|intros Hu Hl; by apply valid_name_complete, letters_root].
  intros Hv%valid_name_sound Ht. split; eapply valid_name_free; eauto.
Qed.

(** Names derived from names.  The parent of a sub, unique or channel name is
    the valid root or sub name before its last mark, that of a sub qualifier the
    qualifier before it, every root, qualifier, restricted or owner name is its own
    parent, and a vote name's parent ends where its last mark starts.  A unique name
    is built from exactly its parent and tag.  The owner name of a restricted asset
    is an owner name only when the part after [$] starts with a letter and has at
    most 64 characters. *)
Theorem derived_names name t : IsAssetNameValid name = Ok t →
  let p := GetParentName name in
  match t with
  | SUB => (∃ l, name = p ++ 47 :: l ∧ sub_label l) ∧ ∃ t', IsAssetNameValid p = Ok t' ∧ (t' = ROOT ∨ t' = SUB)
  | UNIQUE => (∃ tag, name = p ++ 35 :: tag ∧ GetUniqueAssetName p tag = name) ∧
              ∃ t', IsAssetNameValid p = Ok t' ∧ (t' = ROOT ∨ t' = SUB)
  | MSGCHANNEL => (∃ tag, name = p ++ 126 :: tag ∧ size tag <= 12) ∧
                  ∃ t', IsAssetNameValid p = Ok t' ∧ (t' = ROOT ∨ t' = SUB)
  | SUB_QUALIFIER => ∃ u, name = p ++ 47 :: 35 :: u ∧ IsAssetNameValid p = Ok QUALIFIER
  | VOTE => ∃ tag, name = p ++ 94 :: tag ∧ all alnum tag
  | RESTRICTED => p = name ∧ ∃ q, name = 36 :: q ∧ RestrictedNameToOwnerName name = q ++ OWNER_TAG ∧
      (IsAssetNameValid (RestrictedNameToOwnerName name) = Ok OWNER ↔ first_is upper q ∧ (length q <= 64)%nat)
  | _ => p = name
  end.
Proof.
  intros Hok p. pose proof (valid_name_sound _ _ Hok) as Hv. destruct t; try (subst p; unfold GetParentName; by rewrite Hok).
  - destruct Hv as (Hsz & r & subs & Heq & Hr & Hs & Hne). destruct (path_snoc r subs Hr Hs Hne) as (p' & l & Hj & Hl & Hp').
    rewrite Hj in Heq. assert (p = p') as -> by (eapply (parent_before_mark 47); eauto using sub_label_free).
    split; [eauto|]. apply (parent_valid 47 p' l); [done|]. rewrite <- Heq. lia.
  - destruct Hv as (Hsz & p' & tag & -> & Hp & Hne & Ht).
    assert (p = p') as -> by (eapply (parent_before_mark 35); eauto; by apply (all_free unique_char)).
    split; [|by eapply parent_valid]. exists tag. split; [done|]. unfold GetUniqueAssetName. by rewrite Hok.
  - destruct Hv as (Hsz & p' & tag & -> & Hp & Hne & Ht & Hl).
    assert (p = p') as -> by (eapply (parent_before_mark 126); eauto; by apply (all_free (fun c => alnum c || lower c))).
    split; [by exists tag|by eapply parent_valid].
  - destruct Hv as (Hsz & q & u & -> & Hq & Hl & Hu & Hne). destruct (alnum_free u Hu) as (_ & H47 & _).
    assert (p = 35 :: q) as ->.
    { apply (parent_before_mark 47 _ SUB_QUALIFIER (35 :: q) (35 :: u) Hok); [done..|]. rewrite elem_of_cons. naive_solver. }
    exists u. split; [done|]. apply qualifier_classified; unfold size in *; cbn in Hsz |- *; rewrite length_app in Hsz; cbn in Hsz; [lia|].
    split; [unfold size; cbn; lia|]. eauto.
  - split; [subst p; unfold GetParentName; by rewrite Hok|]. destruct Hv as (Hsz & q & -> & Hq & Hl). exists q.
    assert (RestrictedNameToOwnerName (36 :: q) = q ++ [33]) as ->; [|by split_and!; [..|apply owner_of_restricted]].
    unfold RestrictedNameToOwnerName, IsAssetNameAnRestricted. rewrite Hok. unfold RESTRICTED_INDICATOR.
    destruct (alnum_free q Hq) as (_ & _ & _ & Hd). by rewrite (proj2 (marked_indicator 36 (36 :: q))) by eauto.
  - destruct Hv as (Hsz & p' & junk & tag & -> & Hp & Hne & Ht & Hj & [->|(j & ->)]); exists tag; (split; [|done]).
    + assert (p = p') as ->; [|done]. eapply (parent_before_mark 94); eauto. by apply (all_free alnum).
    + assert (p = p' ++ 94 :: j) as ->; [|by rewrite <- !app_assoc].
      apply (parent_before_mark 94 _ VOTE (p' ++ 94 :: j) tag Hok); [done|by rewrite <- !app_assoc|by apply (all_free alnum)].
Qed.
End names.

Lemma asset_name_classification_witness : IsAssetNameValid [65; 66; 94; 37; 94; 67] = Ok VOTE ∧ IsAssetNameValid [80; 72; 73] = Ok ROOT.
Proof.
  split; [|apply (asset_name_classification [80; 72; 73] ROOT); [by repeat constructor|cbn; lia]].
  apply (proj1 (asset_name_classification [65; 66; 94; 37; 94; 67] VOTE)). split; [by vm_compute|].
  exists [65; 66], [37; 94], [67]. split_and!; [done| |done|by repeat constructor|by repeat constructor|right; by exists [37]].
  exists [65; 66], []. split_and!; [done| |constructor]. split_and!; [cbn; lia|by repeat constructor|by exists 65, [66]|by exists [65], 66].
Defined.

Lemma derived_names_witness : ∃ tag, [65; 66; 35; 97] = GetParentName [65; 66; 35; 97] ++ 35 :: tag.
Proof.
  destruct (derived_names (Split := split_at_instance) [65; 66; 35; 97] UNIQUE ltac:(vm_compute; reflexivity)) as [(tag & H & _) _]. exists tag. exact H.
Defined.
