(* ===== verification/Verifier.v ===== *)
(** * Verifier strings: src/src/LibBoolEE.{h,cpp} and assets/assets.cpp

    A restricted asset carries a boolean formula over qualifier names.  [singleParse]
    cuts a formula at the top-level occurrences of an operator, [resolve] evaluates
    it by recursion on the pieces, and [CheckVerifierString] decides which strings
    are accepted.  A formula is the list of its bytes; [isalnum] and [isspace] are
    those of the C locale, where no byte from 128 on is a letter or a space.

    The recursion of [resolve] runs on fuel; [resolve] gives it one more than the
    length of the string, and [resolve_total] shows that this is enough for every
    string. *)

From stdpp Require Import gmap.
From S2P Require Import Prelude Regex AssetTypes AssetNames.

(** ** Characters *)

Definition isspace (c : Z) : bool := in_range 9 13 c || (c =? 32).
Definition isalnum (c : Z) : bool := upper c || lower c || num c.
Definition belongsToName (ch : Z) : bool := isalnum ch || (ch =? 95) || (ch =? 35) || (ch =? 46).

Definition removeWhitespaces (source : list Z) : list Z := filter (fun c => isspace c = false) source.
Definition removeCharacter (source : list Z) (ch : Z) : list Z := filter (fun c => ch ≠ c) source.

(** ** Parsing and evaluation *)

(** The exceptions of [LibBoolEE]; [OutOfRange] is that of [std::string::substr]. *)
Inductive bool_error :=
  | EmptySubexpression
  | UnknownOperator (op : Z) (formula : list Z)
  | WrongParity (formula : list Z)
  | NotAFormula (source : list Z)
  | VariableNotFound (source : list Z)
  | OutOfRange
  | NoFuel.

(** [s.substr(pos, n)]; [n] is at most what is left in every call. *)
Definition substr (s : list Z) (pos n : Z) : result bool_error (list Z) :=
  if (pos <? 0) || (pos >? Z.of_nat (length s)) then Err OutOfRange
  else Ok (take (Z.to_nat n) (drop (Z.to_nat pos) s)).

Record parse_state := mkParse {
  start_pos : Z;
  parity_count : Z;
  subexpressions : list (list Z);
}.

(** One turn of the loop of [singleParse] at the character [c] of index [i]. *)
Definition parse_char (formula : list Z) (op c i : Z) (st : parse_state) : result bool_error parse_state :=
  let '(mkParse start parity subs) := st in
  if c =? 41 then Ok (mkParse start (parity - 1) subs)
  else if c =? 40 then Ok (mkParse (if start =? -1 then i else start) (parity + 1) subs)
  else if parity =? 0 then
    if start =? -1 then
      Ok (mkParse (if belongsToName c || (c =? 33) then i else start) parity subs)
    else if negb (belongsToName c || (c =? 33)) then
      if op =? c then
        let? sub := substr formula start (i - start) in
        Ok (mkParse (i + 1) parity (subs ++ [sub]))
      else if negb (c =? 38) && negb (c =? 124) then Err (UnknownOperator c formula)
      else Ok st
    else Ok st
  else Ok st.

Fixpoint parse_loop (formula : list Z) (op : Z) (rest : list Z) (i : Z) (st : parse_state)
    : result bool_error parse_state :=
  match rest with
  | [] => Ok st
  | c :: rest => let? st := parse_char formula op c i st in parse_loop formula op rest (i + 1) st
  end.

Definition singleParse (formula : list Z) (op : Z) : result bool_error (list (list Z)) :=
  let? st := parse_loop formula op formula 0 (mkParse (-1) 0 []) in
  let? subs :=
    if start_pos st =? -1 then Ok (subexpressions st)
    else
      let? sub := substr formula (start_pos st) (Z.of_nat (length formula) - start_pos st) in
      Ok (subexpressions st ++ [sub]) in
  if parity_count st =? 0 then Ok subs else Err (WrongParity formula).

(** A valuation of the variables, [std::map<std::string, bool>]. *)
Notation Vals := (gmap (list Z) bool).

(** The two loops over the subexpressions: every one of them is evaluated. *)
Fixpoint resolve_all (f : list Z → result bool_error bool) (combine : bool → bool → bool) (acc : bool)
    (subs : list (list Z)) : result bool_error bool :=
  match subs with
  | [] => Ok acc
  | s :: subs => let? b := f s in resolve_all f combine (combine acc b) subs
  end.

(** [resolveRec], with [resolve] for the recursive calls. *)
Definition resolveRec (resolve : list Z → result bool_error bool) (source : list Z) (valuation : Vals)
    : result bool_error bool :=
  if decide (source = []) then Err EmptySubexpression
  else
    let? subs_or := singleParse source 124 in
    let is_or := negb (length subs_or =? 1)%nat in
    let? subs := if is_or then Ok subs_or else singleParse source 38 in
    if (length subs =? 0)%nat then Err (NotAFormula source)
    else if (length subs =? 1)%nat then
      if nth 0 source 0 =? 33 then
        let? s := substr source 1 (Z.of_nat (length source) - 1) in
        let? b := resolve s in Ok (negb b)
      else if nth 0 source 0 =? 40 then
        let? s := substr source 1 (Z.of_nat (length source) - 2) in resolve s
      else if decide (source = [49]) then Ok true
      else if decide (source = [48]) then Ok false
      else match valuation !! source with
           | None => Err (VariableNotFound source)
           | Some b => Ok b
           end
    else if is_or then resolve_all resolve orb false subs
    else resolve_all resolve andb true subs.

Fixpoint resolve_fuel (fuel : nat) (source : list Z) (valuation : Vals) : result bool_error bool :=
  match fuel with
  | O => Err NoFuel
  | S fuel =>
      resolveRec (fun s => resolve_fuel fuel s valuation) (removeWhitespaces source) valuation
  end.
Definition resolve (source : list Z) (valuation : Vals) : result bool_error bool :=
  resolve_fuel (S (length source)) source valuation.

(** ** Verifier strings *)

Definition qualifier_char (c : Z) : bool := upper c || num c || (c =? 95) || (c =? 46).

(** [std::set<std::string>]: sorted, without duplicates. *)
Fixpoint string_ltb (a b : list Z) : bool :=
  match a, b with
  | _, [] => false
  | [], _ :: _ => true
  | x :: a, y :: b => if x =? y then string_ltb a b else x <? y
  end.
Fixpoint set_insert (x : list Z) (s : list (list Z)) : list (list Z) :=
  match s with
  | [] => [x]
  | y :: s' => if string_ltb x y then x :: s else if decide (x = y) then s else y :: set_insert x s'
  end.

(** [regex_search] with the pattern [A-Z0-9_.]+ finds the first maximal run of these
    characters; the search goes on after it.  [run] is the run being read. *)
Fixpoint search_runs (s run : list Z) (qualifiers : list (list Z)) : list (list Z) :=
  match s with
  | [] => if decide (run = []) then qualifiers else set_insert run qualifiers
  | c :: s =>
      if qualifier_char c then search_runs s (run ++ [c]) qualifiers
      else search_runs s [] (if decide (run = []) then qualifiers else set_insert run qualifiers)
  end.
Definition ExtractVerifierStringQualifiers (verifier : list Z) (qualifiers : list (list Z)) : list (list Z) :=
  search_runs verifier [] qualifiers.

Definition GetStrippedVerifierString (verifier : list Z) : list Z :=
  removeCharacter (removeWhitespaces verifier) 35.

Inductive verifier_error :=
  | VerifierEmpty
  | VerifierTooLong
  | VerifierInvalidName (qualifier : list Z)
  | VerifierSyntax (e : bool_error).

(** Insert every qualifier as true, or fail at the first name that is not valid. *)
Fixpoint qualifier_vals (qualifiers : list (list Z)) (vals : Vals) : result verifier_error Vals :=
  match qualifiers with
  | [] => Ok vals
  | q :: qs =>
      if negb (IsQualifierNameValid (35 :: q)) then Err (VerifierInvalidName q)
      else qualifier_vals qs (match vals !! q with Some _ => vals | None => <[q := true]> vals end)
  end.

Definition CheckVerifierString (verifier : list Z) (setFoundQualifiers : list (list Z))
    : result verifier_error (list (list Z)) :=
  if decide (verifier = [116; 114; 117; 101]) then Ok setFoundQualifiers
  else if decide (verifier = []) then Err VerifierEmpty
  else
    let strippedVerifier := GetStrippedVerifierString verifier in
    if Z.of_nat (length strippedVerifier) >? 80 then Err VerifierTooLong
    else
      let setFoundQualifiers := ExtractVerifierStringQualifiers strippedVerifier setFoundQualifiers in
      let? vals := qualifier_vals setFoundQualifiers ∅ in
      match resolve verifier vals with
      | Ok _ => Ok setFoundQualifiers
      | Err e => Err (VerifierSyntax e)
      end.

(** What the verifier checks ask of the asset cache: which assets have been issued
    and which qualifiers an address carries. *)
Class QualifierView := {
  CheckIfAssetExists : list Z → bool;
  CheckForAddressQualifier : list Z → list Z → bool;
}.

Inductive context_error :=
  | ContextCheck (e : verifier_error)
  | NonIssuedQualifier
  | AddressFailedVerification
  | ContextSyntax (e : bool_error).

Definition add_address_val `{QualifierView} (check_address : list Z) (vals : Vals) (q : list Z) : Vals :=
  match vals !! q with
  | Some _ => vals
  | None => <[q := CheckForAddressQualifier (35 :: q) check_address]> vals
  end.
Definition address_vals `{QualifierView} (qualifiers : list (list Z)) (check_address : list Z) : Vals :=
  fold_left (add_address_val check_address) qualifiers ∅.

Definition ContextualCheckVerifierString `{QualifierView} (verifier check_address : list Z)
    : result context_error () :=
  if decide (verifier = [116; 114; 117; 101]) then Ok ()
  else
    match CheckVerifierString verifier [] with
    | Err e => Err (ContextCheck e)
    | Ok setFoundQualifiers =>
        if negb (forallb (fun q => CheckIfAssetExists (35 :: q)) setFoundQualifiers) then Err NonIssuedQualifier
        else if decide (check_address = []) then Ok ()
        else
          match resolve verifier (address_vals setFoundQualifiers check_address) with
          | Ok true => Ok ()
          | Ok false => Err AddressFailedVerification
          | Err e => Err (ContextSyntax e)
          end
    end.

(** ** The language of formulas

    Disjunctions of conjunctions of literals, names, negations and parentheses, with
    the formula each string denotes. *)

Inductive formula :=
  | Lit (b : bool)
  | Var (x : list Z)
  | Not (f : formula)
  | And (f g : formula)
  | Or (f g : formula).

Definition name_ok (x : list Z) : Prop :=
  x ≠ [] ∧ x ≠ [48] ∧ x ≠ [49] ∧ Forall (fun c => belongsToName c = true) x.

Inductive unary : list Z → formula → Prop :=
  | u_true : unary [49] (Lit true)
  | u_false : unary [48] (Lit false)
  | u_var x : name_ok x → unary x (Var x)
  | u_not s f : unary s f → unary (33 :: s) (Not f)
  | u_paren s f : disj s f → unary (40 :: s ++ [41]) f
with conj : list Z → formula → Prop :=
  | c_one s f : unary s f → conj s f
  | c_and s t f g : conj s f → unary t g → conj (s ++ 38 :: t) (And f g)
with disj : list Z → formula → Prop :=
  | d_one s f : conj s f → disj s f
  | d_or s t f g : disj s f → conj t g → disj (s ++ 124 :: t) (Or f g).

Scheme unary_mind := Induction for unary Sort Prop
  with conj_mind := Induction for conj Sort Prop
  with disj_mind := Induction for disj Sort Prop.
Combined Scheme formula_mind from unary_mind, conj_mind, disj_mind.

(** The meaning of a formula; both sides of an operator are evaluated, so that a
    variable without a value is always reported. *)
Fixpoint eval (v : Vals) (f : formula) : result bool_error bool :=
  match f with
  | Lit b => Ok b
  | Var x => match v !! x with Some b => Ok b | None => Err (VariableNotFound x) end
  | Not f => let? a := eval v f in Ok (negb a)
  | And f g => let? a := eval v f in let? b := eval v g in Ok (a && b)
  | Or f g => let? a := eval v f in let? b := eval v g in Ok (a || b)
  end.

(** ** Totality *)

Definition parse_ok (n i : Z) (st : parse_state) : Prop :=
  -1 <= start_pos st <= i ∧ Forall (fun s => Z.of_nat (length s) < n) (subexpressions st) ∧
  (subexpressions st = [] ∨ 1 <= start_pos st).

Lemma parse_ok_step n i start parity subs start' parity' : parse_ok n i (mkParse start parity subs) → 0 <= i →
  start' = start ∨ (start = -1 ∧ start' = i) → parse_ok n (i + 1) (mkParse start' parity' subs).
Proof. intros (Hs & Hl & Hn) Hi Hst. cbn in *. split_and!; cbn; [lia..|done|]. destruct Hn; [by left|right; lia]. Qed.

Lemma parse_char_ok F op c i st : 0 <= i < Z.of_nat (length F) → parse_ok (Z.of_nat (length F)) i st →
  match parse_char F op c i st with
  | Ok st' => parse_ok (Z.of_nat (length F)) (i + 1) st'
  | Err e => e = UnknownOperator c F
  end.
Proof.
  intros Hi Hok. destruct st as [start parity subs]. unfold parse_char.
  repeat match goal with
  | |- match (if op =? c then _ else _) with _ => _ end => destruct (Z.eqb_spec op c)
  | |- match (if ?b then _ else _) with _ => _ end => destruct b eqn:?
  end; breflect; try done;
    try (eapply parse_ok_step; [done|lia|]; try case_all; breflect; first [by left|right; by split]).
  destruct Hok as (Hs & Hl & Hn). cbn in Hs, Hl, Hn. unfold substr.
  rewrite (proj2 (Z.ltb_ge start 0)) by lia. rewrite Z.gtb_ltb, (proj2 (Z.ltb_ge _ start)) by lia. cbn.
  split_and!; cbn; [lia..| |right; lia]. apply Forall_app. split; [done|]. constructor; [|done].
  rewrite length_take, length_drop. lia.
Qed.

Lemma parse_loop_ok F op rest : ∀ i st, 0 <= i → i + Z.of_nat (length rest) = Z.of_nat (length F) →
  parse_ok (Z.of_nat (length F)) i st →
  match parse_loop F op rest i st with
  | Ok st' => parse_ok (Z.of_nat (length F)) (Z.of_nat (length F)) st'
  | Err e => ∃ c, e = UnknownOperator c F
  end.
Proof.
  induction rest as [|c rest IH]; intros i st Hi Hlen Hok; cbn [parse_loop length] in *.
  - replace i with (Z.of_nat (length F)) in Hok by lia. done.
  - pose proof (parse_char_ok F op c i st ltac:(lia) Hok) as Hc.
    destruct (parse_char F op c i st) as [st'|e]; cbn [rbind]; [|by exists c]. apply IH; [lia..|done].
Qed.

(** Cutting fails only for an unknown operator or unbalanced parentheses, and when it
    finds several pieces each is shorter than the formula. *)
Lemma singleParse_ok F op :
  match singleParse F op with
  | Ok subs => (length subs <= 1)%nat ∨ Forall (fun s => (length s < length F)%nat) subs
  | Err e => e = WrongParity F ∨ ∃ c, e = UnknownOperator c F
  end.
Proof.
  unfold singleParse.
  pose proof (parse_loop_ok F op F 0 (mkParse (-1) 0 []) ltac:(lia) ltac:(lia)) as H.
  destruct (parse_loop _ _ _ _ _) as [[start parity subs]|e]; cbn [rbind]; [|right; apply H; split_and!; cbn; auto; lia].
  destruct H as (Hs & Hl & Hn); [split_and!; cbn; auto; lia|]. cbn in *.
  assert (Forall (λ s : list Z, (length s < length F)%nat) subs) as Hsub by (eapply Forall_impl; [done|]; cbn; lia).
  destruct (Z.eqb_spec start (-1)); cbn [rbind].
  - destruct (parity =? 0); [by right|by left].
  - unfold substr. rewrite (proj2 (Z.ltb_ge start 0)) by lia. rewrite Z.gtb_ltb, (proj2 (Z.ltb_ge _ start)) by lia.
    cbn. destruct (parity =? 0); [|by left]. destruct Hn as [->|Hn]; [left; cbn; lia|].
    right. apply Forall_app. split; [done|]. constructor; [|done]. rewrite length_take, length_drop. lia.
Qed.

Lemma removeWhitespaces_length s : (length (removeWhitespaces s) <= length s)%nat.
Proof. apply length_filter. Qed.

Lemma substr_ok s pos n : 0 <= pos <= Z.of_nat (length s) → substr s pos n = Ok (take (Z.to_nat n) (drop (Z.to_nat pos) s)).
Proof.
  intros Hp. unfold substr. rewrite (proj2 (Z.ltb_ge pos 0)) by lia.
  by rewrite Z.gtb_ltb, (proj2 (Z.ltb_ge _ pos)) by lia.
Qed.

(** The exceptions that the source throws by itself. *)
Definition thrown (e : bool_error) : Prop := e ≠ OutOfRange ∧ e ≠ NoFuel.
Definition total {A} (r : result bool_error A) : Prop := match r with Ok _ => True | Err e => thrown e end.

Lemma total_bind {A B} (r : result bool_error A) (k : A → result bool_error B) :
  total r → (∀ a, r = Ok a → total (k a)) → total (rbind r k).
Proof. destruct r; cbn; auto. Qed.

Lemma resolve_all_total g combine subs : ∀ acc, Forall (fun s => total (g s)) subs → total (resolve_all g combine acc subs).
Proof.
  induction subs as [|s subs IH]; intros acc Hs; cbn [resolve_all]; [done|].
  apply Forall_cons in Hs as [Hs Hr]. apply total_bind; auto.
Qed.

Lemma singleParse_total F op : total (singleParse F op).
Proof.
  pose proof (singleParse_ok F op) as H. destruct (singleParse F op) as [|e]; [done|].
  destruct H as [->|[c ->]]; done.
Qed.

Lemma resolveRec_total g s v : (∀ t, (length t < length s)%nat → total (g t)) → total (resolveRec g s v).
Proof.
  intros Hg. unfold resolveRec. case_decide as Hs; [done|].
  assert (0 < length s)%nat as Hlen by (destruct s; [done|cbn; lia]).
  assert (∀ op subs, singleParse s op = Ok subs → (2 <= length subs)%nat → Forall (fun t => total (g t)) subs) as Hparts.
  { intros op subs Hp Hl. pose proof (singleParse_ok s op) as H. rewrite Hp in H.
    destruct H; [lia|]. eapply Forall_impl; eauto. }
  apply total_bind; [apply singleParse_total|]. intros subs_or Hor.
  apply total_bind; [destruct (negb _); [done|apply singleParse_total]|]. intros subs Hsubs.
  destruct (length subs =? 0)%nat eqn:H0; [done|]. apply Nat.eqb_neq in H0.
  destruct (length subs =? 1)%nat eqn:H1.
  - rewrite !substr_ok by lia. cbn [rbind].
    assert (∀ n, (n <= length s)%nat → total (g (take n (drop (Z.to_nat 1) s)))) as Hsub.
    { intros n Hn. apply Hg. rewrite length_take, length_drop. lia. }
    destruct (nth 0 s 0 =? 33); [apply total_bind; [apply Hsub; lia|done]|].
    destruct (nth 0 s 0 =? 40); [apply Hsub; lia|]. repeat case_decide; try done. by destruct (v !! s).
  - apply Nat.eqb_neq in H1.
    assert (Forall (fun t => total (g t)) subs) as Hall.
    { destruct (negb (length subs_or =? 1)%nat); [injection Hsubs as ->|]; eapply Hparts; eauto; lia. }
    destruct (negb _); by apply resolve_all_total.
Qed.

Lemma resolve_fuel_total fuel : ∀ s v, (length s < fuel)%nat → total (resolve_fuel fuel s v).
Proof.
  induction fuel as [|fuel IH]; intros s v Hf; [lia|]. cbn [resolve_fuel]. apply resolveRec_total.
  intros t Ht. apply IH. pose proof (removeWhitespaces_length s). lia.
Qed.

(** ** Formulas are parsed into their pieces *)

Lemma name_char c : belongsToName c = true →
  (c =? 41) = false ∧ (c =? 40) = false ∧ (c =? 33) = false ∧ (c =? 38) = false ∧ (c =? 124) = false ∧ isspace c = false.
Proof.
  unfold belongsToName, isalnum, isspace, upper, lower, num, in_range. intros H. breflect; split_and!; lia.
Qed.

(** A piece is read without touching the pieces found so far; inside parentheses
    nothing at all happens. *)
Definition skipped (s : list Z) : Prop := ∀ F op rest i start p subs, start ≠ -1 → 0 < p →
  parse_loop F op (s ++ rest) i (mkParse start p subs) = parse_loop F op rest (i + Z.of_nat (length s)) (mkParse start p subs).
Definition piece (op : Z) (s : list Z) : Prop := ∀ F rest i start subs, 0 <= i →
  parse_loop F op (s ++ rest) i (mkParse start 0 subs)
  = parse_loop F op rest (i + Z.of_nat (length s)) (mkParse (if start =? -1 then i else start) 0 subs).

Definition is_op (op : Z) : Prop := op = 38 ∨ op = 124.

Lemma skipped_char c : c ≠ 40 → c ≠ 41 → skipped [c].
Proof.
  intros H0 H1 F op rest i start p subs Hs Hp. cbn [app parse_loop length]. unfold parse_char.
  rewrite (proj2 (Z.eqb_neq c 41)), (proj2 (Z.eqb_neq c 40)), (proj2 (Z.eqb_neq p 0)) by lia. done.
Qed.

Lemma skipped_app s t : skipped s → skipped t → skipped (s ++ t).
Proof.
  intros Hs Ht F op rest i start p subs Hst Hp. rewrite <- app_assoc, Hs, Ht by done. f_equal. rewrite length_app. lia.
Qed.

Lemma skipped_name s : Forall (fun c => belongsToName c = true) s → skipped s.
Proof.
  induction 1 as [|c s Hc Hs IH]; [intros F op rest i start p subs _ _; by rewrite Z.add_0_r|].
  apply (skipped_app [c] s); [|done]. destruct (name_char c Hc) as (?&?&_). apply skipped_char; breflect; lia.
Qed.

Lemma skipped_paren s : skipped s → skipped (40 :: s ++ [41]).
Proof.
  intros Hs F op rest i start p subs Hst Hp. cbn [app parse_loop]. unfold parse_char at 1. cbn [rbind].
  change (40 =? 41) with false. change (40 =? 40) with true. cbn iota. cbn [rbind].
  rewrite (proj2 (Z.eqb_neq start (-1))) by done. rewrite <- app_assoc, Hs by lia. cbn [app parse_loop].
  unfold parse_char. change (41 =? 41) with true. cbn [rbind]. f_equal; [|f_equal; lia].
  cbn [length]. rewrite length_app. cbn [length]. lia.
Qed.

Lemma formula_skipped :
  (∀ s f, unary s f → skipped s) ∧ (∀ s f, conj s f → skipped s) ∧ (∀ s f, disj s f → skipped s).
Proof.
  apply formula_mind; intros; auto using skipped_paren.
  - by apply skipped_char.
  - by apply skipped_char.
  - by apply skipped_name, n.
  - apply (skipped_app [33] s); [by apply skipped_char|done].
  - apply skipped_app; [done|]. apply (skipped_app [38] t); [by apply skipped_char|done].
  - apply skipped_app; [done|]. apply (skipped_app [124] t); [by apply skipped_char|done].
Qed.

Lemma piece_app op s t : piece op s → piece op t → piece op (s ++ t).
Proof.
  intros Hs Ht F rest i start subs Hi. rewrite <- app_assoc, Hs, Ht by lia.
  f_equal; [rewrite length_app; lia|]. f_equal. destruct (Z.eqb_spec start (-1)); case_all; breflect; lia.
Qed.

Lemma piece_char op c : belongsToName c || (c =? 33) = true → piece op [c].
Proof.
  intros Hc F rest i start subs Hi.
  assert ((c =? 41) = false ∧ (c =? 40) = false) as [H1 H2].
  { apply orb_true_iff in Hc as [Hc| ->%Z.eqb_eq]; [|done]. by destruct (name_char c Hc) as (?&?&_). }
  cbn [app parse_loop length]. unfold parse_char. rewrite H1, H2, Hc. cbn.
  by destruct (start =? -1) eqn:Hst; rewrite ?Hst; cbn [rbind].
Qed.

Lemma piece_name op s : Forall (fun c => belongsToName c = true) s → s ≠ [] → piece op s.
Proof.
  induction 1 as [|c s Hc Hs IH]; [done|]. intros _.
  assert (piece op [c]) as Hp by (apply piece_char; by rewrite Hc).
  destruct s as [|d s]; [done|]. apply (piece_app op [c] (d :: s)); auto.
Qed.

Lemma piece_paren op s : skipped s → piece op (40 :: s ++ [41]).
Proof.
  intros Hs F rest i start subs Hi. cbn [app parse_loop]. unfold parse_char at 1.
  change (40 =? 41) with false. change (40 =? 40) with true. cbn iota. cbn [rbind].
  rewrite <- app_assoc, Hs by (case_all; breflect; lia). cbn [app parse_loop].
  unfold parse_char. change (41 =? 41) with true. cbn [rbind]. f_equal.
  cbn [length]. rewrite length_app. cbn [length]. lia.
Qed.

Lemma unary_piece op s f : unary s f → piece op s.
Proof.
  induction 1; [by apply piece_char..| | |].
  - destruct H as (Hn & _ & _ & Hx). by apply piece_name.
  - apply (piece_app op [33] s); [by apply piece_char|done].
  - apply piece_paren. destruct formula_skipped as (_&_&Hsk); eauto.
Qed.

Lemma conj_piece s f : conj s f → piece 124 s.
Proof.
  induction 1 as [s f H|s t f g Hs IH Ht]; [by eapply unary_piece|].
  intros F rest i start subs Hi. rewrite <- app_assoc, IH by done. cbn [app parse_loop].
  unfold parse_char at 1. change (38 =? 41) with false. change (38 =? 40) with false. change (belongsToName 38) with false.
  change (124 =? 38) with false. cbn.
  assert (((if start =? -1 then i else start) =? -1) = false) as -> by (apply Z.eqb_neq; case_all; breflect; lia).
  cbn [rbind]. rewrite (unary_piece 124 t g Ht) by lia. rewrite length_app. cbn [length].
  f_equal; [lia|]. f_equal. case_all; breflect; lia.
Qed.

(** The pieces of a chain of operands. *)
Fixpoint eval_chain (v : Vals) (combine : bool → bool → bool) (acc : bool) (fs : list formula) : result bool_error bool :=
  match fs with
  | [] => Ok acc
  | f :: fs => let? b := eval v f in eval_chain v combine (combine acc b) fs
  end.

Lemma eval_chain_snoc v combine fs g : ∀ acc, eval_chain v combine acc (fs ++ [g])
  = (let? a := eval_chain v combine acc fs in let? b := eval v g in Ok (combine a b)).
Proof.
  induction fs as [|f fs IH]; intros acc; cbn [eval_chain app]; [done|].
  destruct (eval v f); cbn [rbind]; [apply IH|done].
Qed.

Lemma conj_chain s f : conj s f → ∃ qs, qs ≠ [] ∧ s = join 38 qs.*1 ∧ Forall (fun q => unary q.1 q.2) qs ∧
  ∀ v, eval v f = eval_chain v andb true qs.*2.
Proof.
  induction 1 as [s f H|s t f g Hs (qs & Hne & -> & Hu & Hev) Ht].
  - exists [(s, f)]. split_and!; [done|done|by constructor|]. intros v. cbn. by destruct (eval v f) as [[]|].
  - exists (qs ++ [(t, g)]). rewrite !fmap_app. cbn [fmap list_fmap fst snd]. split_and!.
    + by destruct qs.
    + by rewrite join_snoc by (by destruct qs).
    + apply Forall_app; split; [done|by apply Forall_singleton].
    + intros v. rewrite eval_chain_snoc, <- Hev. done.
Qed.

Lemma disj_chain s f : disj s f → ∃ qs, qs ≠ [] ∧ s = join 124 qs.*1 ∧ Forall (fun q => conj q.1 q.2) qs ∧
  ∀ v, eval v f = eval_chain v orb false qs.*2.
Proof.
  induction 1 as [s f H|s t f g Hs (qs & Hne & -> & Hu & Hev) Ht].
  - exists [(s, f)]. split_and!; [done|done|by constructor|]. intros v. cbn. by destruct (eval v f).
  - exists (qs ++ [(t, g)]). rewrite !fmap_app. cbn [fmap list_fmap fst snd]. split_and!.
    + by destruct qs.
    + by rewrite join_snoc by (by destruct qs).
    + apply Forall_app; split; [done|by apply Forall_singleton].
    + intros v. rewrite eval_chain_snoc, <- Hev. done.
Qed.

Lemma parse_op F op rest i start subs : is_op op → 0 <= start <= Z.of_nat (length F) →
  parse_loop F op (op :: rest) i (mkParse start 0 subs)
  = parse_loop F op rest (i + 1) (mkParse (i + 1) 0 (subs ++ [take (Z.to_nat (i - start)) (drop (Z.to_nat start) F)])).
Proof.
  intros Hop Hs. cbn [parse_loop]. unfold parse_char.
  replace (op =? 41) with false by (destruct Hop as [-> | ->]; done).
  replace (op =? 40) with false by (destruct Hop as [-> | ->]; done).
  replace (belongsToName op || (op =? 33)) with false by (destruct Hop as [-> | ->]; done).
  rewrite (proj2 (Z.eqb_neq start (-1))) by lia. rewrite !Z.eqb_refl, substr_ok by lia. done.
Qed.

Lemma parse_pieces op ps : is_op op → Forall (piece op) ps → ∀ p F pre i start subs, piece op p →
  F = pre ++ join op (p :: ps) → i = Z.of_nat (length pre) → start = -1 ∨ start = i →
  ∃ start', parse_loop F op (join op (p :: ps)) i (mkParse start 0 subs)
    = Ok (mkParse start' 0 (subs ++ removelast (p :: ps))) ∧ 0 <= start' <= Z.of_nat (length F) ∧
      drop (Z.to_nat start') F = List.last (p :: ps) [].
Proof.
  intros Hop. induction 1 as [|q ps Hq Hps IH]; intros p F pre i start subs Hp HF Hi Hst.
  - cbn [join] in *. pose proof (Hp F [] i start subs ltac:(lia)) as E. rewrite app_nil_r in E. rewrite E.
    cbn [parse_loop removelast List.last].
    exists i. rewrite app_nil_r. replace (if start =? -1 then i else start) with i by (case_all; breflect; lia).
    split; [done|]. rewrite HF, length_app, Hi, Nat2Z.id, drop_app_length. split; [lia|done].
  - rewrite join_cons in HF |- * by done. rewrite Hp by lia.
    replace (if start =? -1 then i else start) with i by (case_all; breflect; lia).
    assert (Z.of_nat (length F) >= i) as HlF by (rewrite HF, length_app; lia).
    rewrite parse_op by (try done; lia).
    destruct (IH q F (pre ++ p ++ [op]) (i + Z.of_nat (length p) + 1) (i + Z.of_nat (length p) + 1)
      (subs ++ [take (Z.to_nat (i + Z.of_nat (length p) - i)) (drop (Z.to_nat i) F)]) Hq) as (start' & -> & H1 & H2).
    + rewrite HF. rewrite <- !app_assoc. done.
    + rewrite !length_app. cbn [length]. lia.
    + by right.
    + exists start'. split_and!; [|lia..|].
      * f_equal. f_equal. rewrite <- app_assoc. f_equal. rewrite HF, Hi, Nat2Z.id, drop_app_length.
        replace (Z.to_nat _) with (length p) by lia. by rewrite take_app_length.
      * rewrite H2. done.
Qed.

Lemma singleParse_pieces op p ps : is_op op → Forall (piece op) (p :: ps) → singleParse (join op (p :: ps)) op = Ok (p :: ps).
Proof.
  intros Hop Hall. apply Forall_cons in Hall as [Hp Hps]. unfold singleParse.
  destruct (parse_pieces op ps Hop Hps p (join op (p :: ps)) [] 0 (-1) [] Hp eq_refl eq_refl ltac:(by left))
    as (start & -> & Hs & Hd). cbn [rbind start_pos subexpressions parity_count].
  rewrite (proj2 (Z.eqb_neq start (-1))) by lia. rewrite substr_ok by lia. cbn [rbind].
  rewrite take_ge by (rewrite length_drop; lia). rewrite Hd. cbn [Z.eqb app].
  by rewrite <- app_removelast_last by done.
Qed.

(** ** Formulas evaluate to their meaning *)

Definition spaceless (s : list Z) : Prop := Forall (fun c => isspace c = false) s.

Lemma formula_spaceless :
  (∀ s f, unary s f → spaceless s) ∧ (∀ s f, conj s f → spaceless s) ∧ (∀ s f, disj s f → spaceless s).
Proof.
  apply formula_mind; intros; unfold spaceless; repeat first [done | apply Forall_cons; split | apply Forall_app; split
    | by constructor].
  destruct n as (_ & _ & _ & Hx). eapply Forall_impl; [done|]. cbn. intros c Hc. apply (name_char c Hc).
Qed.

Lemma removeWhitespaces_id s : spaceless s → removeWhitespaces s = s.
Proof.
  unfold removeWhitespaces. induction 1 as [|c s Hc Hs IH]; [done|]. by rewrite filter_cons_True, IH.
Qed.

Lemma formula_nonempty :
  (∀ s f, unary s f → s ≠ []) ∧ (∀ s f, conj s f → s ≠ []) ∧ (∀ s f, disj s f → s ≠ []).
Proof.
  apply formula_mind; intros; try done; [by apply n| |]; by destruct s.
Qed.

Lemma singleParse_shorter F op subs : singleParse F op = Ok subs → (2 <= length subs)%nat →
  Forall (fun s => (length s < length F)%nat) subs.
Proof. intros H Hl. pose proof (singleParse_ok F op) as Hok. rewrite H in Hok. destruct Hok; [lia|done]. Qed.

Lemma resolve_all_chain g v combine qs : ∀ acc, Forall (fun q => g q.1 = eval v q.2) qs →
  resolve_all g combine acc qs.*1 = eval_chain v combine acc qs.*2.
Proof.
  induction qs as [|q qs IH]; intros acc H; [done|]. apply Forall_cons in H as [Hq H].
  cbn [fmap list_fmap resolve_all eval_chain]. rewrite Hq. destruct (eval v q.2); cbn [rbind]; [by apply IH|done].
Qed.

Lemma chain_pieces op (P : list Z → formula → Prop) qs : (∀ s f, P s f → piece op s) →
  Forall (fun q => P q.1 q.2) qs → Forall (piece op) qs.*1.
Proof. intros HP Hall. apply Forall_fmap. eapply Forall_impl; [done|]. cbn. eauto. Qed.

Lemma parsed_chain op (P : list Z → formula → Prop) qs : is_op op → (∀ s f, P s f → piece op s) → qs ≠ [] →
  Forall (fun q => P q.1 q.2) qs → singleParse (join op qs.*1) op = Ok qs.*1.
Proof.
  intros Hop HP Hne Hall. pose proof (chain_pieces op P qs HP Hall) as Hp. destruct qs as [|q qs]; [done|].
  by apply singleParse_pieces.
Qed.

Lemma unary_parsed s f op : unary s f → is_op op → singleParse s op = Ok [s].
Proof. intros Hu Hop. apply (singleParse_pieces op s []); [done|]. constructor; [by eapply unary_piece|done]. Qed.

Lemma substr_inner c s d : substr (c :: s ++ [d]) 1 (Z.of_nat (length (c :: s ++ [d])) - 2) = Ok s.
Proof.
  rewrite substr_ok by (cbn [length]; lia). cbn [drop]. change (drop (Z.to_nat 1) (c :: s ++ [d])) with (s ++ [d]).
  f_equal. rewrite take_app_le by (cbn [length]; rewrite length_app; cbn [length]; lia).
  apply take_ge. cbn [length]. rewrite length_app. cbn [length]. lia.
Qed.

Lemma resolveRec_unary g s f v : unary s f →
  (∀ t h, disj t h → (length t < length s)%nat → g t = eval v h) → resolveRec g s v = eval v f.
Proof.
  intros Hu Hg. unfold resolveRec.
  rewrite decide_False by (destruct formula_nonempty as (?&?&?); eauto).
  rewrite !(unary_parsed s f) by (done || by (left + right)). cbn [rbind length negb Nat.eqb].
  destruct Hu as [| |x Hx|s f Hs|s f Hs]; [done|done| | |].
  - destruct Hx as (Hne & H0 & H1 & Hc). destruct x as [|c x]; [done|]. cbn [nth].
    apply Forall_cons in Hc as [Hc _]. destruct (name_char c Hc) as (_ & -> & -> & _).
    by rewrite !decide_False by done.
  - cbn [nth]. change (33 =? 33) with true. cbn iota. rewrite substr_ok by (cbn [length]; lia). cbn [rbind eval].
    change (drop (Z.to_nat 1) (33 :: s)) with s. rewrite take_ge by (cbn [length]; lia).
    by rewrite (Hg s f) by (cbn [length]; try lia; by do 2 constructor).
  - cbn [nth]. change (40 =? 33) with false. change (40 =? 40) with true. cbn iota. rewrite substr_inner. cbn [rbind].
    apply Hg; [done|]. cbn [length]. rewrite length_app. cbn [length]. lia.
Qed.

Lemma resolveRec_conj g s f v : conj s f →
  (∀ t h, disj t h → (length t < length s)%nat → g t = eval v h) → resolveRec g s v = eval v f.
Proof.
  intros Hc Hg. destruct (conj_chain s f Hc) as (qs & Hne & Hs & Hq & Hev). rewrite Hev.
  pose proof (parsed_chain 38 unary qs ltac:(by left) (unary_piece 38) Hne Hq) as Hp. rewrite <- Hs in Hp.
  assert (singleParse s 124 = Ok [s]) as Ho.
  { apply (singleParse_pieces 124 s []); [by right|]. constructor; [by eapply conj_piece|done]. }
  destruct qs as [|q [|q2 qs]]; [done| |].
  - apply Forall_cons in Hq as [Hq _]. cbn in Hs. subst s. rewrite (resolveRec_unary g q.1 q.2 v) by done.
    cbn. by destruct (eval v q.2) as [[]|].
  - unfold resolveRec. rewrite decide_False by (destruct formula_nonempty as (?&?&?); eauto).
    rewrite Ho. cbn [rbind length negb Nat.eqb]. rewrite Hp. cbn [rbind fmap list_fmap length Nat.eqb].
    change (q.1 :: q2.1 :: (fst <$> qs)) with (q :: q2 :: qs).*1. apply resolve_all_chain.
    pose proof (singleParse_shorter s 38 _ Hp ltac:(cbn; lia)) as Hsh. apply Forall_fmap in Hsh.
    eapply Forall_impl; [apply Forall_and; split; [apply Hq|apply Hsh]|]. cbn. intros [t h] [Hu Hl].
    apply Hg; [by do 2 constructor|done].
Qed.

Lemma resolveRec_disj g s f v : disj s f →
  (∀ t h, disj t h → (length t < length s)%nat → g t = eval v h) → resolveRec g s v = eval v f.
Proof.
  intros Hd Hg. destruct (disj_chain s f Hd) as (qs & Hne & Hs & Hq & Hev). rewrite Hev.
  pose proof (parsed_chain 124 conj qs ltac:(by right) conj_piece Hne Hq) as Hp. rewrite <- Hs in Hp.
  destruct qs as [|q [|q2 qs]]; [done| |].
  - apply Forall_cons in Hq as [Hq _]. cbn in Hs. subst s. rewrite (resolveRec_conj g q.1 q.2 v) by done.
    cbn. by destruct (eval v q.2).
  - unfold resolveRec. rewrite decide_False by (destruct formula_nonempty as (?&?&?); eauto).
    rewrite Hp. cbn [rbind fmap list_fmap length negb Nat.eqb].
    change (q.1 :: q2.1 :: (fst <$> qs)) with (q :: q2 :: qs).*1. apply resolve_all_chain.
    pose proof (singleParse_shorter s 124 _ Hp ltac:(cbn; lia)) as Hsh. apply Forall_fmap in Hsh.
    eapply Forall_impl; [apply Forall_and; split; [apply Hq|apply Hsh]|]. cbn. intros [t h] [Hu Hl].
    apply Hg; [by constructor|done].
Qed.

Lemma resolve_fuel_formula fuel : ∀ s t f v, removeWhitespaces s = t → disj t f → (length t < fuel)%nat →
  resolve_fuel fuel s v = eval v f.
Proof.
  induction fuel as [|fuel IH]; intros s t f v Hs Hd Hf; [lia|]. cbn [resolve_fuel]. rewrite Hs.
  apply resolveRec_disj; [done|]. intros u h Hu Hl. apply (IH u u); [|done|lia].
  apply removeWhitespaces_id. destruct formula_spaceless as (_&_&H); eauto.
Qed.

(** ** Fuel *)

Lemma resolve_all_ext g g' combine subs : ∀ acc, Forall (fun s => g s = g' s) subs →
  resolve_all g combine acc subs = resolve_all g' combine acc subs.
Proof.
  induction subs as [|s subs IH]; intros acc H; [done|]. apply Forall_cons in H as [Hs H]. cbn [resolve_all].
  rewrite Hs. destruct (g' s); cbn [rbind]; auto.
Qed.

Lemma resolveRec_ext g g' s v : (∀ t, (length t < length s)%nat → g t = g' t) → resolveRec g s v = resolveRec g' s v.
Proof.
  intros Hg. unfold resolveRec. case_decide as Hs; [done|].
  assert (0 < length s)%nat as Hlen by (destruct s; [done|cbn; lia]).
  assert (∀ op subs, singleParse s op = Ok subs → (2 <= length subs)%nat → Forall (fun t => g t = g' t) subs) as Hparts.
  { intros op subs Hp Hl. eapply Forall_impl; [by eapply singleParse_shorter|]. cbn. auto. }
  destruct (singleParse s 124) as [subs_or|] eqn:Hor; [|done]. cbn [rbind].
  destruct (if negb (length subs_or =? 1)%nat then _ else _) as [subs|] eqn:Hsubs; [|done]. cbn [rbind].
  destruct (length subs =? 0)%nat eqn:H0; [done|]. apply Nat.eqb_neq in H0.
  destruct (length subs =? 1)%nat eqn:H1.
  - rewrite !substr_ok by lia. cbn [rbind].
    assert (∀ n, (n <= length s)%nat → g (take n (drop (Z.to_nat 1) s)) = g' (take n (drop (Z.to_nat 1) s))) as Hsub.
    { intros n Hn. apply Hg. rewrite length_take, length_drop. lia. }
    by rewrite !Hsub by lia.
  - apply Nat.eqb_neq in H1.
    assert (Forall (fun t => g t = g' t) subs) as Hall.
    { destruct (negb (length subs_or =? 1)%nat); [injection Hsubs as ->|]; eapply Hparts; eauto; lia. }
    destruct (negb _); by apply resolve_all_ext.
Qed.

Lemma resolve_fuel_enough fuel : ∀ fuel' s v, (length s < fuel)%nat → (length s < fuel')%nat →
  resolve_fuel fuel s v = resolve_fuel fuel' s v.
Proof.
  induction fuel as [|fuel IH]; intros fuel' s v H H'; [lia|]. destruct fuel' as [|fuel']; [lia|].
  cbn [resolve_fuel]. apply resolveRec_ext. intros t Ht. pose proof (removeWhitespaces_length s). apply IH; lia.
Qed.

(** ** Whether a string resolves depends only on which variables have values *)

Definition covers (v w : Vals) : Prop := ∀ x, is_Some (v !! x) → is_Some (w !! x).

Lemma resolve_all_covers g g' combine subs : ∀ acc acc', (∀ s b, g s = Ok b → ∃ b', g' s = Ok b') →
  ∀ b, resolve_all g combine acc subs = Ok b → ∃ b', resolve_all g' combine acc' subs = Ok b'.
Proof.
  induction subs as [|s subs IH]; intros acc acc' Hg b H; cbn [resolve_all] in *; [by eexists|].
  destruct (g s) as [a|] eqn:Ha; [|done]. cbn [rbind] in H. destruct (Hg _ _ Ha) as [a' ->]. cbn [rbind]. eauto.
Qed.

Lemma resolveRec_covers g g' s v w : covers v w → (∀ s b, g s = Ok b → ∃ b', g' s = Ok b') →
  ∀ b, resolveRec g s v = Ok b → ∃ b', resolveRec g' s w = Ok b'.
Proof.
  intros Hc Hg b. unfold resolveRec. case_decide; [done|].
  destruct (singleParse s 124) as [subs_or|]; [|done]. cbn [rbind].
  destruct (if negb (length subs_or =? 1)%nat then _ else _) as [subs|]; [|done]. cbn [rbind].
  destruct (length subs =? 0)%nat; [done|]. destruct (length subs =? 1)%nat.
  - destruct (nth 0 s 0 =? 33).
    + destruct (substr s 1 _) as [t|]; [|done]. cbn [rbind]. intros Hr.
      destruct (g t) as [a|] eqn:Ha; [|done]. destruct (Hg _ _ Ha) as [a' ->]. by eexists.
    + destruct (nth 0 s 0 =? 40).
      { destruct (substr s 1 _) as [t|]; [|done]. cbn [rbind]. apply Hg. }
      repeat case_decide; eauto. destruct (v !! s) as [a|] eqn:Ha; [|done]. intros _.
      destruct (Hc s) as [a' ->]; eauto.
  - destruct (negb _); intros Hr; eapply resolve_all_covers; eauto.
Qed.

Lemma resolve_fuel_covers v w fuel : covers v w → ∀ s b, resolve_fuel fuel s v = Ok b → ∃ b', resolve_fuel fuel s w = Ok b'.
Proof.
  intros Hc. induction fuel as [|fuel IH]; intros s b; [done|]. cbn [resolve_fuel].
  by apply resolveRec_covers.
Qed.

Lemma qualifier_vals_ok qs : ∀ vals vals', qualifier_vals qs vals = Ok vals' →
  Forall (fun q => IsQualifierNameValid (35 :: q) = true) qs ∧
  ∀ x, is_Some (vals' !! x) → is_Some (vals !! x) ∨ x ∈ qs.
Proof.
  induction qs as [|q qs IH]; intros vals vals' H; cbn [qualifier_vals] in H.
  - injection H as ->. split; [done|]. auto.
  - destruct (IsQualifierNameValid (35 :: q)) eqn:Hq; [|done]. cbn [negb] in H.
    destruct (IH _ _ H) as [Hall Hdom]. split; [by constructor|]. intros x Hx.
    destruct (Hdom x Hx) as [Hv|Hv]; [|right; by constructor].
    destruct (vals !! q) eqn:E; [by left|]. destruct (decide (x = q)) as [->|Hn]; [right; by constructor|].
    rewrite lookup_insert_ne in Hv by done. by left.
Qed.

Lemma address_vals_covers `{QualifierView} qs address : ∀ (vals : Vals) x, is_Some (vals !! x) ∨ x ∈ qs →
  is_Some (fold_left (add_address_val address) qs vals !! x).
Proof.
  induction qs as [|q qs IH]; intros vals x Hx; cbn [fold_left].
  - destruct Hx as [Hx|Hx]; [done|by apply elem_of_nil in Hx].
  - apply IH. unfold add_address_val. destruct Hx as [Hx|[->|Hx]%elem_of_cons]; [|left|by right].
    + left. destruct (vals !! q) eqn:E; [done|]. destruct (decide (x = q)) as [->|]; [by rewrite lookup_insert_eq|].
      by rewrite lookup_insert_ne.
    + destruct (vals !! q) eqn:E; [by eexists|]. by rewrite lookup_insert_eq.
Qed.

Lemma CheckVerifierString_accepted verifier found qs : CheckVerifierString verifier found = Ok qs →
  verifier ≠ [116; 114; 117; 101] →
  Forall (fun q => IsQualifierNameValid (35 :: q) = true) qs ∧
  ∃ vals b, (∀ x, is_Some (vals !! x) → x ∈ qs) ∧ resolve verifier vals = Ok b.
Proof.
  unfold CheckVerifierString. intros H Hn. rewrite decide_False in H by done. case_decide; [done|].
  destruct (_ >? 80); [done|]. destruct (qualifier_vals _ ∅) as [vals|] eqn:Hv; [|done]. cbn [rbind] in H.
  destruct (resolve verifier vals) as [b|] eqn:Hr; [|done]. injection H as <-.
  destruct (qualifier_vals_ok _ _ _ Hv) as [Hall Hdom]. split; [done|]. exists vals, b. split; [|done].
  intros x Hx. destruct (Hdom x Hx) as [[? Hs]|]; [by rewrite lookup_empty in Hs|done].
Qed.

(** Characters that stand for nothing at the start of a chain. *)
Definition junk (c : Z) : Prop :=
  belongsToName c = false ∧ c ≠ 33 ∧ c ≠ 40 ∧ c ≠ 41 ∧ isspace c = false.

Lemma parse_junk F op pre : Forall junk pre → ∀ rest i,
  parse_loop F op (pre ++ rest) i (mkParse (-1) 0 []) = parse_loop F op rest (i + Z.of_nat (length pre)) (mkParse (-1) 0 []).
Proof.
  induction 1 as [|c pre (Hn & H1 & H2 & H3 & _) Hpre IH]; intros rest i; [by rewrite Z.add_0_r|].
  cbn [app parse_loop]. unfold parse_char.
  rewrite (proj2 (Z.eqb_neq c 41)), (proj2 (Z.eqb_neq c 40)), (proj2 (Z.eqb_neq c 33)), Hn by done. cbn [rbind orb].
  change (0 =? 0) with true. change (-1 =? -1) with true. cbn iota. cbn [rbind].
  rewrite IH. f_equal. cbn [length]. lia.
Qed.

Lemma singleParse_junk op pre p ps : is_op op → Forall junk pre → Forall (piece op) (p :: ps) →
  singleParse (pre ++ join op (p :: ps)) op = Ok (p :: ps).
Proof.
  intros Hop Hj Hall. apply Forall_cons in Hall as [Hp Hps]. unfold singleParse. rewrite parse_junk by done.
  destruct (parse_pieces op ps Hop Hps p (pre ++ join op (p :: ps)) pre (0 + Z.of_nat (length pre)) (-1) [] Hp eq_refl
    ltac:(lia) ltac:(by left)) as (start & -> & Hs & Hd). cbn [rbind start_pos subexpressions parity_count].
  rewrite (proj2 (Z.eqb_neq start (-1))) by lia. rewrite substr_ok by lia. cbn [rbind].
  rewrite take_ge by (rewrite length_drop; lia). rewrite Hd. cbn [Z.eqb app].
  by rewrite <- app_removelast_last by done.
Qed.

(** ** Properties *)

(** C34: evaluating a verifier string terminates on every string and valuation, well
    formed or not: the recursion depth never exceeds the length of the string (any
    fuel above it gives the same result), no access is out of range, and a failure
    is one of the exceptions the code throws. *)
Theorem resolve_total s v :
  (match resolve s v with Ok _ => True | Err e => e ≠ NoFuel ∧ e ≠ OutOfRange end) ∧
  ∀ fuel, (length s < fuel)%nat → resolve_fuel fuel s v = resolve s v.
Proof.
  split; [|intros fuel Hf; apply resolve_fuel_enough; lia].
  pose proof (resolve_fuel_total (S (length s)) s v ltac:(lia)) as H. unfold resolve.
  destruct (resolve_fuel _ s v) as [b|e]; [done|]. destruct H. by split.
Qed.

Lemma resolve_total_witness :
  resolve_fuel 100 [40; 49; 41; 40] ∅ = resolve [40; 49; 41; 40] ∅ ∧
  resolve [40; 49; 41; 40] ∅ = Err (WrongParity [40; 49; 41; 40]).
Proof.
  split; [apply (resolve_total [40; 49; 41; 40] ∅); cbn; lia|vm_compute; reflexivity].
Defined.

(** C27: verifier strings mean what they say.  A string that is, up to white space, a
    disjunction of conjunctions of literals, names, negations and parenthesised formulas
    evaluates to the meaning of that formula.  Any string other than "true" that the
    syntax check accepts, such a formula or not, names only valid qualifiers and can be
    evaluated for every address of every state: the contextual check then never fails on
    syntax, and it succeeds exactly when all the qualifiers have been issued and, unless
    the address is empty, the string evaluates to true for the qualifiers the address
    carries.  The string "true" is not evaluated: both checks accept it for every address,
    and it names no qualifier. *)
Theorem verifier_semantics `{QualifierView} verifier :
  (∀ t f v, removeWhitespaces verifier = t → disj t f → resolve verifier v = eval v f) ∧
  (∀ qs address, CheckVerifierString verifier [] = Ok qs → verifier ≠ [116; 114; 117; 101] →
     Forall (fun q => IsQualifierNameValid (35 :: q) = true) qs ∧
     (∃ b, resolve verifier (address_vals qs address) = Ok b) ∧
     (ContextualCheckVerifierString verifier address = Ok () ↔
        Forall (fun q => CheckIfAssetExists (35 :: q) = true) qs ∧
        (address = [] ∨ resolve verifier (address_vals qs address) = Ok true)) ∧
     ∀ e, ContextualCheckVerifierString verifier address = Err e → e = NonIssuedQualifier ∨ e = AddressFailedVerification) ∧
  (verifier = [116; 114; 117; 101] → CheckVerifierString verifier [] = Ok [] ∧ ∀ address, ContextualCheckVerifierString verifier address = Ok ()).
Proof.
  split; [intros t f v Ht Hf; apply (resolve_fuel_formula _ _ t); [done..|]; rewrite <- Ht; pose proof (removeWhitespaces_length verifier); lia|].
  split; [|by intros ->]. intros qs address Hc Hn.
  destruct (CheckVerifierString_accepted _ _ _ Hc Hn) as (Hq & vals & b & Hdom & Hb). split; [done|].
  assert (∃ b', resolve verifier (address_vals qs address) = Ok b') as [b' Hb'].
  { apply (resolve_fuel_covers vals (address_vals qs address) _) with (b := b); [|done].
    intros x Hx. apply address_vals_covers. right. by apply Hdom. }
  split; [by exists b'|]. unfold ContextualCheckVerifierString. rewrite decide_False by done. rewrite Hc, Hb'.
  destruct (forallb _ qs) eqn:Hex; cbn [negb].
  - assert (Forall (λ q : list Z, CheckIfAssetExists (35 :: q) = true) qs) as Hissued
      by (apply Forall_forall; intros x Hx; rewrite forallb_forall in Hex; by apply Hex, list_elem_of_In).
    case_decide as Ha; [split; [|done]; by split; [intros _; split; [|left]|]|].
    destruct b'; (split; [split|]); try done; try naive_solver.
  - split; [|intros e [= <-]; by left]. split; [done|]. intros [Hall _]. exfalso.
    apply not_true_iff_false in Hex. apply Hex. apply forallb_forall. intros x Hx.
    rewrite Forall_forall in Hall. apply Hall. by apply list_elem_of_In.
Qed.

(** The parser does not insist on formulas: characters that are neither names, [!],
    parentheses nor space are skipped before the first operand of a chain, so any of
    them in front of a disjunction leaves its value as it is. *)
Lemma leading_characters_ignored pre s t f g v : Forall junk pre → disj s f → conj t g →
  resolve (pre ++ s ++ 124 :: t) v = eval v (Or f g).
Proof.
  intros Hj Hs Ht. destruct (disj_chain s f Hs) as (qs & Hne & Hq & Hall & Hev). cbn [eval]. rewrite Hev.
  rewrite <- (eval_chain_snoc v orb qs.*2 g false). change [g] with [(t, g)].*2. rewrite <- fmap_app.
  assert (s ++ 124 :: t = join 124 (qs ++ [(t, g)]).*1) as Hu.
  { rewrite fmap_app, Hq. cbn [fmap list_fmap fst]. by rewrite join_snoc by (by destruct qs). }
  assert (Forall (λ q, conj q.1 q.2) (qs ++ [(t, g)])) as Hq2 by (apply Forall_app; split; [done|by apply Forall_singleton]).
  assert (spaceless (pre ++ s ++ 124 :: t)) as Hsp.
  { apply Forall_app. split; [eapply Forall_impl; [apply Hj|by intros c (_&_&_&_&?)]|].
    destruct formula_spaceless as (_&_&H). eapply H. by constructor. }
  assert (singleParse (pre ++ s ++ 124 :: t) 124 = Ok (qs ++ [(t, g)]).*1) as Hp.
  { rewrite Hu. pose proof (chain_pieces 124 conj _ conj_piece Hq2) as Hpc. destruct qs as [|q qs]; [done|].
    by apply singleParse_junk; [right| |]. }
  assert (2 <= length (qs ++ [(t, g)]).*1)%nat as Hl2.
  { rewrite length_fmap, length_app. destruct qs; [done|cbn; lia]. }
  pose proof (singleParse_shorter _ _ _ Hp Hl2) as Hsh. unfold resolve. cbn [resolve_fuel].
  rewrite removeWhitespaces_id by done. unfold resolveRec. rewrite decide_False by (by destruct pre, s).
  rewrite Hp. cbn [rbind]. destruct (length (qs ++ [(t, g)]).*1) as [|[|n]] eqn:Hl; [lia..|]. cbn [Nat.eqb negb rbind].
  rewrite Hl. cbn [Nat.eqb]. apply resolve_all_chain. apply Forall_fmap in Hsh.
  eapply Forall_impl; [apply Forall_and; split; [apply Hq2|apply Hsh]|]. cbn. intros [p h] [Hc Hlp].
  apply (resolve_fuel_formula _ p p); [|by constructor|done]. apply removeWhitespaces_id.
  destruct formula_spaceless as (_&H&_). eauto.
Qed.

(** A state in which the address 66 carries one of two qualifiers. *)
Definition sample_view : QualifierView := {|
  CheckIfAssetExists _ := true;
  CheckForAddressQualifier q a := bool_decide (q = [35; 75; 89; 67]) && bool_decide (a = [66])
|}.

(** [KYC & !(AML | CTF)] *)
Definition sample_verifier : list Z := [75; 89; 67; 32; 38; 32; 33; 40; 65; 77; 76; 124; 67; 84; 70; 41].
Definition sample_formula : formula := And (Var [75; 89; 67]) (Not (Or (Var [65; 77; 76]) (Var [67; 84; 70]))).

Lemma verifier_semantics_witness :
  (∀ v, resolve sample_verifier v = eval v sample_formula) ∧
  ContextualCheckVerifierString (H := sample_view) sample_verifier [66] = Ok ().
Proof.
  assert (disj (removeWhitespaces sample_verifier) sample_formula) as Hd.
  { change (removeWhitespaces sample_verifier) with [75; 89; 67; 38; 33; 40; 65; 77; 76; 124; 67; 84; 70; 41]. unfold sample_formula. apply d_one.
    apply (c_and [75; 89; 67] [33; 40; 65; 77; 76; 124; 67; 84; 70; 41]); [apply c_one, u_var; repeat constructor; done|].
    apply u_not, (u_paren [65; 77; 76; 124; 67; 84; 70]), (d_or [65; 77; 76] [67; 84; 70]); [apply d_one, c_one, u_var; repeat constructor; done|].
    apply c_one, u_var; repeat constructor; done. }
  destruct (verifier_semantics (H := sample_view) sample_verifier) as (Hf & Hc & _).
  split; [intros v; exact (Hf _ _ v eq_refl Hd)|]. apply (Hc [[65; 77; 76]; [67; 84; 70]; [75; 89; 67]] [66]).
  - vm_compute. reflexivity.
  - done.
  - split; [repeat constructor|]. right. vm_compute. reflexivity.
Defined.
