(* ===== verification/LRUCache.v ===== *)
(** * The least-recently-used cache: [CLRUCache] of assets/assettypes.h

    A doubly linked list of key-value pairs, most recently used first, and a map from
    keys to iterators into it.  A node of the list has an address, which stays the same
    when the node is moved; the map holds addresses.  The model is proved to behave as
    a list of pairs without the map: this is the view the asset caches are built on. *)

From stdpp Require Import gmap.
From S2P Require Import Prelude.

Module LRU.
Section lru.
Context {K : Type} `{Countable K} {V : Type}.

Abbreviation node := (positive * (K * V))%type.
Record CLRUCache := mkLRU {
  cacheItemsList : list node;
  cacheItemsMap : gmap K positive;
  maxSize : Z;
  next_node : positive              (* the address the next node gets *)
}.

Inductive lru_error :=
  | NoSuchKey                       (* std::range_error *)
  | DanglingIterator.

Definition LRU_new (max_size : Z) : CLRUCache := mkLRU [] ∅ max_size 1.

(** [cacheItemsList.erase(it)] *)
Definition list_erase (it : positive) (l : list node) : list node := filter (fun n => n.1 ≠ it) l.

(** The node last in the list goes when the map has become larger than allowed. *)
Definition evict (c : CLRUCache) : CLRUCache :=
  if maxSize c <? Z.of_nat (map_size (cacheItemsMap c)) then
    match last (cacheItemsList c) with
    | Some (_, (k, _)) => mkLRU (removelast (cacheItemsList c)) (delete k (cacheItemsMap c)) (maxSize c) (next_node c)
    | None => c
    end
  else c.

Definition Put (c : CLRUCache) (key : K) (value : V) : CLRUCache :=
  let items := (next_node c, (key, value)) :: cacheItemsList c in
  let '(items, m) :=
    match cacheItemsMap c !! key with
    | Some it => (list_erase it items, delete key (cacheItemsMap c))
    | None => (items, cacheItemsMap c)
    end in
  evict (mkLRU items (<[key := next_node c]> m) (maxSize c) (Pos.succ (next_node c))).

Definition Erase (c : CLRUCache) (key : K) : CLRUCache :=
  match cacheItemsMap c !! key with
  | Some it => mkLRU (list_erase it (cacheItemsList c)) (delete key (cacheItemsMap c)) (maxSize c) (next_node c)
  | None => c
  end.

(** [cacheItemsList.splice(begin, cacheItemsList, it->second)] and the value there. *)
Definition Get (c : CLRUCache) (key : K) : result lru_error (V * CLRUCache) :=
  match cacheItemsMap c !! key with
  | None => Err NoSuchKey
  | Some it =>
      match list_find (fun n => n.1 = it) (cacheItemsList c) with
      | None => Err DanglingIterator
      | Some (_, n) =>
          Ok (snd (snd n), mkLRU (n :: list_erase it (cacheItemsList c)) (cacheItemsMap c) (maxSize c) (next_node c))
      end
  end.

Definition Exists (c : CLRUCache) (key : K) : bool := bool_decide (is_Some (cacheItemsMap c !! key)).
Definition Size (c : CLRUCache) : Z := Z.of_nat (map_size (cacheItemsMap c)).
Definition Clear (c : CLRUCache) : CLRUCache := mkLRU [] ∅ (maxSize c) (next_node c).
Definition SetNull (c : CLRUCache) : CLRUCache := mkLRU [] ∅ 0 (next_node c).
Definition SetSize (c : CLRUCache) (size : Z) : CLRUCache := mkLRU (cacheItemsList c) (cacheItemsMap c) size (next_node c).

(** The copy constructor: the list is copied to new nodes, the map with the iterators it
    has.  [base] is the address of the first new node. *)
Definition LRU_copy (c : CLRUCache) (base : positive) : CLRUCache :=
  let nodes := imap (fun i n => (Pos.of_nat (i + Pos.to_nat base), snd n)) (cacheItemsList c) in
  mkLRU nodes (cacheItemsMap c) (maxSize c) (Pos.of_nat (length (cacheItemsList c) + Pos.to_nat base)).

(** ** The list of pairs behind the map *)

Abbreviation items := (list (K * V)).
Definition contents (c : CLRUCache) : items := (cacheItemsList c).*2.
Definition without (k : K) (l : items) : items := filter (fun p => p.1 ≠ k) l.
Definition find (k : K) (l : items) : option V := snd <$> (snd <$> list_find (fun p => p.1 = k) l).

Definition put_spec (max : Z) (k : K) (v : V) (l : items) : items :=
  let l := (k, v) :: without k l in
  if max <? Z.of_nat (length l) then removelast l else l.

Record lru_ok (c : CLRUCache) : Prop := {
  lru_fresh : Forall (fun n => (n.1 < next_node c)%positive) (cacheItemsList c);
  lru_nodes : NoDup (cacheItemsList c).*1;
  lru_keys : NoDup (contents c).*1;
  lru_map : ∀ k it, cacheItemsMap c !! k = Some it ↔ ∃ v, (it, (k, v)) ∈ cacheItemsList c
}.

Implicit Types (c : CLRUCache) (k : K) (v : V).

Lemma filter_id {A} (P : A → Prop) `{∀ x, Decision (P x)} (l : list A) : (∀ x, x ∈ l → P x) → filter P l = l.
Proof.
  induction l as [|x l IH]; intros Hl; [done|]. rewrite filter_cons_True by (apply Hl; left). f_equal. apply IH. intros y Hy. apply Hl. by right.
Qed.

Lemma NoDup_fst_inj {A B} (l : list (A * B)) a b b' : NoDup l.*1 → (a, b) ∈ l → (a, b') ∈ l → b = b'.
Proof.
  induction l as [|[x y] l IH]; intros Hn Hb Hb'; [by apply elem_of_nil in Hb|]. cbn in Hn. apply NoDup_cons in Hn as [Hx Hn].
  apply elem_of_cons in Hb as [Hb|Hb]; apply elem_of_cons in Hb' as [Hb'|Hb']; simplify_eq; auto; exfalso; apply Hx.
  - by apply (list_elem_of_fmap_2 fst) in Hb'.
  - by apply (list_elem_of_fmap_2 fst) in Hb.
Qed.

Lemma elem_of_list_erase it l n : n ∈ list_erase it l ↔ n.1 ≠ it ∧ n ∈ l.
Proof. unfold list_erase. by rewrite list_elem_of_filter. Qed.

Lemma without_notin k l : k ∉ l.*1 → without k l = l.
Proof. intros Hk. apply filter_id. intros [k' v] Hp E. cbn in E. subst. apply Hk. by apply (list_elem_of_fmap_2 fst) in Hp. Qed.

Lemma list_erase_contents it k v l : NoDup l.*1 → NoDup l.*2.*1 → (it, (k, v)) ∈ l → (list_erase it l).*2 = without k l.*2.
Proof.
  induction l as [|[i [k' v']] l IH]; intros Hn Hk Hp; [by apply elem_of_nil in Hp|]. cbn in Hn, Hk.
  apply NoDup_cons in Hn as [Hi Hn], Hk as [Hk' Hk].
  unfold list_erase, without in *. rewrite fmap_cons, !filter_cons. cbn [fst snd].
  apply elem_of_cons in Hp as [[= -> -> ->]|Hp].
  - destruct (decide (i ≠ i)), (decide (k' ≠ k')); try done.
    rewrite filter_id; [symmetry; by apply without_notin|]. intros [i' q] Hx E. cbn in E. subst. apply Hi. by apply (list_elem_of_fmap_2 fst) in Hx.
  - assert (i ≠ it) by (intros ->; apply Hi; by apply (list_elem_of_fmap_2 fst) in Hp).
    assert (k' ≠ k) by (intros ->; apply Hk'; apply (list_elem_of_fmap_2 snd), (list_elem_of_fmap_2 fst) in Hp; done).
    rewrite !decide_True by done. cbn. f_equal. by apply IH.
Qed.

Lemma lru_new_ok max : lru_ok (LRU_new max).
Proof.
  split; cbn; [constructor..|]. intros k it. rewrite lookup_empty. split; [done|]. intros [v Hv]. by apply elem_of_nil in Hv.
Qed.

Lemma key_in_map c k : lru_ok c → k ∈ (contents c).*1 ↔ is_Some (cacheItemsMap c !! k).
Proof.
  intros Hc. split.
  - intros Hk. apply list_elem_of_fmap in Hk as ([k' v] & -> & Hp). apply list_elem_of_fmap in Hp as ([it q] & Hq & Hp).
    cbn in Hq. subst q. exists it. apply (lru_map c Hc). by exists v.
  - intros [it Hit]. apply (lru_map c Hc) in Hit as [v Hv].
    by apply (list_elem_of_fmap_2 snd), (list_elem_of_fmap_2 fst) in Hv.
Qed.

Lemma map_size_length c : lru_ok c → map_size (cacheItemsMap c) = length (contents c).
Proof.
  intros Hc. change (map_size (cacheItemsMap c)) with (size (cacheItemsMap c)). rewrite <- (size_dom (D := gset K)).
  rewrite <- (length_fmap fst), <- (size_list_to_set (C := gset K)) by apply Hc. f_equal. apply set_eq. intros k.
  by rewrite elem_of_dom, elem_of_list_to_set, <- key_in_map.
Qed.

Lemma erase_ok c k it : lru_ok c → cacheItemsMap c !! k = Some it →
  lru_ok (mkLRU (list_erase it (cacheItemsList c)) (delete k (cacheItemsMap c)) (maxSize c) (next_node c)) ∧
  (list_erase it (cacheItemsList c)).*2 = without k (contents c).
Proof.
  intros Hc Hit. pose proof (proj1 (lru_map c Hc k it) Hit) as [v Hv].
  assert ((list_erase it (cacheItemsList c)).*2 = without k (contents c)) as Hw
    by (eapply list_erase_contents; [apply Hc|apply Hc|exact Hv]).
  split; [|done]. constructor; cbn.
  - apply Forall_forall. intros n Hn. apply elem_of_list_erase in Hn as [_ Hn]. revert n Hn. apply Forall_forall, Hc.
  - unfold list_erase. eapply sublist_NoDup; [apply Hc|]. apply fmap_sublist, sublist_filter.
  - unfold contents. cbn. rewrite Hw. eapply sublist_NoDup; [apply (lru_keys c Hc)|]. apply fmap_sublist, sublist_filter.
  - intros k' it'. rewrite lookup_delete_Some, (lru_map c Hc). setoid_rewrite elem_of_list_erase. cbn. split.
    + intros [Hk [v' Hv']]. exists v'. split; [|done]. intros ->. apply Hk.
      pose proof (NoDup_fst_inj _ _ _ _ (lru_nodes c Hc) Hv Hv'). congruence.
    + intros (v' & Hi & Hv'). split; [|by exists v']. intros ->. apply Hi.
      assert (cacheItemsMap c !! k' = Some it') by (apply (lru_map c Hc); by exists v'). congruence.
Qed.

Lemma Erase_spec c k : lru_ok c → lru_ok (Erase c k) ∧ contents (Erase c k) = without k (contents c).
Proof.
  intros Hc. unfold Erase. destruct (cacheItemsMap c !! k) as [it|] eqn:Hit; [by apply erase_ok|].
  split; [done|]. symmetry. apply without_notin. rewrite key_in_map, Hit by done. intros [? [=]].
Qed.

Definition push (c : CLRUCache) k v : CLRUCache :=
  mkLRU ((next_node c, (k, v)) :: cacheItemsList c) (<[k := next_node c]> (cacheItemsMap c)) (maxSize c) (Pos.succ (next_node c)).

Lemma push_ok c k v : lru_ok c → cacheItemsMap c !! k = None → lru_ok (push c k v).
Proof.
  intros Hc Hk. assert (∀ n, n ∈ cacheItemsList c → (n.1 < next_node c)%positive) as Hf by (apply Forall_forall, Hc).
  constructor; cbn.
  - constructor; [cbn; lia|]. apply Forall_forall. intros n Hn. specialize (Hf n Hn). lia.
  - apply NoDup_cons. split; [|apply Hc]. intros Hn. apply list_elem_of_fmap in Hn as (n & Hn & Hin). specialize (Hf n Hin). lia.
  - unfold contents. cbn. apply NoDup_cons. split; [|apply Hc]. change (k ∉ (contents c).*1). rewrite key_in_map, Hk by done. intros [? [=]].
  - intros k' it. setoid_rewrite elem_of_cons. rewrite lookup_insert_Some, (lru_map c Hc). split.
    + intros [[-> ->]|[Hne [v' Hv']]]; [exists v; by left|exists v'; by right].
    + intros [v' [[= -> -> ->]|Hv']]; [by left|]. right. split; [|by exists v'].
      intros ->. assert (cacheItemsMap c !! k' = Some it) by (apply (lru_map c Hc); by exists v'). congruence.
Qed.

Lemma Put_alt c k v : lru_ok c → Put c k v = evict (push (Erase c k) k v).
Proof.
  intros Hc. unfold Put, Erase, push. destruct (cacheItemsMap c !! k) as [it|] eqn:Hit; [|done]. cbn [cacheItemsList cacheItemsMap maxSize next_node].
  apply (lru_map c Hc) in Hit as [v' Hv']. unfold list_erase. rewrite filter_cons_True; [done|]. cbn.
  assert (∀ n, n ∈ cacheItemsList c → (n.1 < next_node c)%positive) as Hf by (apply Forall_forall, Hc).
  specialize (Hf _ Hv'). cbn in Hf. lia.
Qed.

Lemma evict_spec c : lru_ok c → lru_ok (evict c) ∧ maxSize (evict c) = maxSize c ∧
  contents (evict c) = if maxSize c <? Z.of_nat (length (contents c)) then removelast (contents c) else contents c.
Proof.
  intros Hc. unfold evict. rewrite map_size_length by done. destruct (maxSize c <? _); [|done].
  destruct (last (cacheItemsList c)) as [[it [k v]]|] eqn:Hl.
  - apply last_Some in Hl as [l Hl].
    assert (cacheItemsMap c !! k = Some it) as Hit by (apply (lru_map c Hc); exists v; rewrite Hl, elem_of_app, list_elem_of_singleton; by right).
    assert (removelast (cacheItemsList c) = list_erase it (cacheItemsList c)) as Hr.
    { rewrite Hl, removelast_last. unfold list_erase. rewrite filter_app, filter_cons_False by (cbn; auto). rewrite filter_nil, app_nil_r.
      symmetry. apply filter_id. intros n Hn E. pose proof (lru_nodes c Hc) as Hnd. rewrite Hl, fmap_app, NoDup_app in Hnd.
      destruct Hnd as (_ & Hnd & _). apply (Hnd n.1); [by apply list_elem_of_fmap_2|]. rewrite E. cbn. left. }
    rewrite Hr. destruct (erase_ok c k it Hc Hit) as [H1 H2]. split; [done|]. split; [done|]. unfold contents at 1. cbn.
    rewrite <- Hr. unfold contents. rewrite Hl, !fmap_app. cbn. by rewrite !removelast_last.
  - apply last_None in Hl. unfold contents. by rewrite Hl.
Qed.

Lemma maxSize_Erase c k : maxSize (Erase c k) = maxSize c.
Proof. unfold Erase. by destruct (_ !! _). Qed.

Lemma Put_spec c k v : lru_ok c → lru_ok (Put c k v) ∧ maxSize (Put c k v) = maxSize c ∧
  contents (Put c k v) = put_spec (maxSize c) k v (contents c).
Proof.
  intros Hc. rewrite Put_alt by done. destruct (Erase_spec c k Hc) as [He Hw].
  assert (cacheItemsMap (Erase c k) !! k = None) as Hn.
  { destruct (_ !! k) eqn:E; [|done]. exfalso.
    assert (k ∈ (contents (Erase c k)).*1) as Hk by (apply key_in_map; [done|by eexists]).
    rewrite Hw in Hk. apply list_elem_of_fmap in Hk as ([k' v'] & -> & Hp). unfold without in Hp. apply list_elem_of_filter in Hp as [Hp _]. by cbn in Hp. }
  destruct (evict_spec _ (push_ok _ k v He Hn)) as (H1 & H2 & H3). split; [done|]. cbn in H2, H3. rewrite maxSize_Erase in H2, H3. split; [done|].
  rewrite H3. unfold put_spec. unfold contents at 1 2 3. cbn. change ((cacheItemsList (Erase c k)).*2) with (contents (Erase c k)). by rewrite Hw.
Qed.

Lemma find_Some k v l : NoDup l.*1 → find k l = Some v ↔ (k, v) ∈ l.
Proof.
  intros Hn. unfold find. split.
  - destruct (list_find _ l) as [[i [k' v']]|] eqn:Hf; [|done]. cbn. intros [= ->].
    apply list_find_Some in Hf as (Hi & <- & _). by apply list_elem_of_lookup_2 in Hi.
  - intros Hp. destruct (list_find_elem_of (fun p => p.1 = k) l (k, v)) as [[i [k' v']] Hf]; [done|done|]. rewrite Hf. cbn. f_equal.
    apply list_find_Some in Hf as (Hi & <- & _). apply list_elem_of_lookup_2 in Hi. by eapply NoDup_fst_inj.
Qed.

Lemma Get_spec c k : lru_ok c →
  match find k (contents c) with
  | Some v => ∃ c', Get c k = Ok (v, c') ∧ lru_ok c' ∧ maxSize c' = maxSize c ∧ contents c' = (k, v) :: without k (contents c)
  | None => Get c k = Err NoSuchKey
  end.
Proof.
  intros Hc. unfold Get. destruct (find k (contents c)) as [v|] eqn:Hf.
  - apply find_Some in Hf; [|apply Hc]. apply list_elem_of_fmap in Hf as ([it q] & Hq & Hin). cbn in Hq. subst q.
    assert (cacheItemsMap c !! k = Some it) as Hit by (apply (lru_map c Hc); by exists v). rewrite Hit.
    destruct (list_find_elem_of (fun n => n.1 = it) (cacheItemsList c) (it, (k, v))) as [[i n] Hl]; [done|done|]. rewrite Hl.
    apply list_find_Some in Hl as (Hi & Hn & _). apply list_elem_of_lookup_2 in Hi. destruct n as [it' q]. cbn in Hn. subst it'.
    assert (q = (k, v)) as -> by (eapply NoDup_fst_inj; [apply (lru_nodes c Hc)|done|done]). cbn.
    destruct (erase_ok c k it Hc Hit) as [He Hw]. eexists. split; [done|]. split; [|split; [done|]]; [|unfold contents at 1; cbn; by rewrite Hw].
    constructor; cbn.
    + constructor; [|apply He]. exact (proj1 (Forall_forall _ _) (lru_fresh c Hc) _ Hi).
    + apply NoDup_cons. split; [|apply He]. intros Hx. apply list_elem_of_fmap in Hx as (n & Hn & Hx). apply elem_of_list_erase in Hx as [Hx _]. auto.
    + unfold contents. cbn. rewrite Hw. apply NoDup_cons. split; [|rewrite <- Hw; apply He].
      intros Hx. apply list_elem_of_fmap in Hx as ([k' v'] & -> & Hx). unfold without in Hx. apply list_elem_of_filter in Hx as [Hx _]. by cbn in Hx.
    + intros k' it'. rewrite (lru_map c Hc). setoid_rewrite elem_of_cons. setoid_rewrite elem_of_list_erase. cbn. split.
      * intros [v' Hv']. exists v'. destruct (decide (it' = it)) as [->|]; [|by right]. left. f_equal. by eapply NoDup_fst_inj; [apply (lru_nodes c Hc)|..].
      * intros [v' [[= -> -> ->]|[_ Hv']]]; eauto.
  - destruct (cacheItemsMap c !! k) as [it|] eqn:Hit; [|done]. apply (lru_map c Hc) in Hit as [v Hv].
    apply (list_elem_of_fmap_2 snd), (find_Some k v (contents c)) in Hv; [congruence|apply Hc].
Qed.

(** ** Sequences of operations *)

Inductive lru_op := OpPut (k : K) (v : V) | OpGet (k : K) | OpErase (k : K).
Definition lru_step (c : CLRUCache) (o : lru_op) : CLRUCache :=
  match o with
  | OpPut k v => Put c k v
  | OpGet k => match Get c k with Ok (_, c') => c' | Err _ => c end
  | OpErase k => Erase c k
  end.
Definition lru_run (c : CLRUCache) (ops : list lru_op) : CLRUCache := fold_left lru_step ops c.

Definition step_spec (max : Z) (l : items) (o : lru_op) : items :=
  match o with
  | OpPut k v => put_spec max k v l
  | OpGet k => match find k l with Some v => (k, v) :: without k l | None => l end
  | OpErase k => without k l
  end.
Definition run_spec (max : Z) (l : items) (ops : list lru_op) : items := fold_left (step_spec max) ops l.

Lemma lru_step_spec c o : lru_ok c →
  lru_ok (lru_step c o) ∧ maxSize (lru_step c o) = maxSize c ∧ contents (lru_step c o) = step_spec (maxSize c) (contents c) o.
Proof.
  intros Hc. destruct o as [k v|k|k]; cbn.
  - by apply Put_spec.
  - pose proof (Get_spec c k Hc) as Hg. destruct (find k (contents c)) as [v|]; [|by rewrite Hg].
    destruct Hg as (c' & -> & H1 & H2 & H3). done.
  - destruct (Erase_spec c k Hc). rewrite maxSize_Erase. done.
Qed.

Lemma lru_run_spec ops : ∀ c, lru_ok c →
  lru_ok (lru_run c ops) ∧ maxSize (lru_run c ops) = maxSize c ∧ contents (lru_run c ops) = run_spec (maxSize c) (contents c) ops.
Proof.
  induction ops as [|o ops IH]; intros c Hc; [done|]. cbn. destruct (lru_step_spec c o Hc) as (H1 & H2 & H3).
  destruct (IH _ H1) as (H4 & H5 & H6). change (fold_left lru_step ops (lru_step c o)) with (lru_run (lru_step c o) ops).
  split; [done|]. split; [congruence|]. rewrite H6, H2, H3. done.
Qed.

Lemma length_without k l : (length (without k l) <= length l)%nat.
Proof. unfold without. apply length_filter. Qed.

Lemma step_spec_length max l o : 0 <= max → Z.of_nat (length l) <= max → NoDup l.*1 → Z.of_nat (length (step_spec max l o)) <= max.
Proof.
  intros Hm Hl Hn. destruct o as [k v|k|k]; cbn.
  - unfold put_spec. cbn [length]. pose proof (length_without k l). destruct (Z.ltb_spec max (Z.of_nat (S (length (without k l))))); [|cbn [length]; lia].
    rewrite removelast_firstn_len, length_take. cbn [length]. lia.
  - destruct (find k l) as [v|] eqn:Hf; [|done]. apply find_Some in Hf; [|done].
    assert (length (without k l) < length l)%nat; [|cbn [length]; lia]. unfold without.
    apply list_elem_of_split in Hf as (l1 & l2 & ->). rewrite filter_app, filter_cons_False by (cbn; auto).
    rewrite !length_app. cbn [length]. pose proof (length_without k l1). pose proof (length_without k l2). unfold without in *. lia.
  - pose proof (length_without k l). lia.
Qed.

Lemma without_app k l1 l2 : without k (l1 ++ l2) = without k l1 ++ without k l2.
Proof. apply filter_app. Qed.

Lemma without_cons_ne k k' v l : k' ≠ k → without k ((k', v) :: l) = (k', v) :: without k l.
Proof. intros Hk. unfold without. by rewrite filter_cons_True. Qed.

Lemma elem_of_without k x l : x ∈ (without k l).*1 → x ≠ k ∧ x ∈ l.*1.
Proof.
  intros Hx. apply list_elem_of_fmap in Hx as (p & -> & Hp). unfold without in Hp. apply list_elem_of_filter in Hp as [H1 H2].
  split; [done|by apply list_elem_of_fmap_2].
Qed.

Lemma NoDup_without k l : NoDup l.*1 → NoDup (without k l).*1.
Proof. intros Hn. eapply sublist_NoDup; [exact Hn|]. apply fmap_sublist, sublist_filter. Qed.

(** The keys an operation moves to the front. *)
Definition op_used (o : lru_op) : list K := match o with OpPut k _ | OpGet k => [k] | OpErase _ => [] end.
Definition keeps (k : K) (o : lru_op) : Prop := match o with OpPut k' _ | OpErase k' => k' ≠ k | OpGet _ => True end.

(** [k] with [v] is in the list, and before it only keys of [S]. *)
Definition held_behind (S : gset K) (k : K) (v : V) (l : items) : Prop :=
  NoDup l.*1 ∧ ∃ pre post, l = pre ++ (k, v) :: post ∧ ∀ x, x ∈ pre.*1 → x ∈ S.

Lemma held_without S k v l k' : k' ≠ k → held_behind S k v l → held_behind S k v (without k' l).
Proof.
  intros Hk (Hn & pre & post & -> & Hpre). split; [by apply NoDup_without|]. exists (without k' pre), (without k' post).
  split; [rewrite without_app, without_cons_ne by auto; done|]. intros x Hx. by apply elem_of_without in Hx as [_ Hx]; auto.
Qed.

Lemma held_front S k v l k' v' : k' ≠ k → k' ∈ S → held_behind S k v l → held_behind S k v ((k', v') :: without k' l).
Proof.
  intros Hk HS Hh. destruct (held_without S k v l k' Hk Hh) as (Hn & pre & post & E & Hpre). rewrite E in Hn |- *. split.
  - cbn. apply NoDup_cons. split; [|exact Hn]. rewrite <- E. intros Hx. apply elem_of_without in Hx as [Hx _]. done.
  - exists ((k', v') :: pre), post. split; [done|]. intros x Hx. cbn in Hx. apply elem_of_cons in Hx as [->|Hx]; auto.
Qed.

Lemma held_evict S max k v l : Z.of_nat (size S) < max → held_behind S k v l →
  held_behind S k v (if max <? Z.of_nat (length l) then removelast l else l).
Proof.
  intros HS (Hn & pre & post & -> & Hpre). destruct (Z.ltb_spec max (Z.of_nat (length (pre ++ (k, v) :: post)))) as [Hl|]; [|split; [done|by exists pre, post]].
  assert (length pre <= size S)%nat as Hlen.
  { rewrite <- (length_fmap fst pre), <- (size_list_to_set (C := gset K)).
    - apply subseteq_size. intros x Hx. rewrite elem_of_list_to_set in Hx. auto.
    - rewrite fmap_app in Hn. by apply NoDup_app in Hn as [? _]. }
  destruct post as [|q post _] using rev_ind; [rewrite length_app in Hl; cbn in Hl; lia|].
  change (pre ++ (k, v) :: post ++ [q]) with (pre ++ ((k, v) :: post) ++ [q]). rewrite app_assoc, removelast_last. split; [|by exists pre, post].
  change ((k, v) :: post ++ [q]) with (((k, v) :: post) ++ [q]) in Hn. rewrite app_assoc, fmap_app in Hn. by apply NoDup_app in Hn as [? _].
Qed.

Lemma held_step S max k v l o : Z.of_nat (size S) < max → keeps k o → (∀ x, x ∈ op_used o → x ≠ k → x ∈ S) →
  held_behind S k v l → held_behind S k v (step_spec max l o).
Proof.
  intros HS Hk Hu Hh. destruct o as [k' v'|k'|k']; cbn in *.
  - unfold put_spec. apply held_evict; [done|]. apply held_front; [done| |done]. apply Hu; [by left|done].
  - destruct (find k' l) as [v'|] eqn:Hf; [|done]. destruct (decide (k' = k)) as [->|Hne].
    + pose proof Hh as (Hn & pre & post & E & Hpre). apply find_Some in Hf; [|done].
      assert (v' = v) as ->. { eapply NoDup_fst_inj; [exact Hn|exact Hf|]. rewrite E, elem_of_app, elem_of_cons. auto. }
      split; [|exists [], (without k l); split; [done|]; intros x Hx; by apply elem_of_nil in Hx].
      cbn. apply NoDup_cons. split; [|by apply NoDup_without]. intros Hx. by apply elem_of_without in Hx as [Hx _].
    + apply held_front; [done| |done]. apply Hu; [by left|done].
  - by apply held_without.
Qed.

Lemma held_run S max k v ops : Z.of_nat (size S) < max → Forall (keeps k) ops →
  (∀ o x, o ∈ ops → x ∈ op_used o → x ≠ k → x ∈ S) →
  ∀ l, held_behind S k v l → held_behind S k v (run_spec max l ops).
Proof.
  intros HS Hk Hu. induction ops as [|o ops IH]; intros l Hh; [done|]. inv Hk. cbn. apply IH; [done| |].
  - intros o' x Ho. apply Hu. by right.
  - apply held_step; [done..| |done]. intros x. apply Hu. by left.
Qed.

Lemma run_spec_length max ops : 0 <= max → ∀ c, maxSize c = max → lru_ok c → Z.of_nat (length (contents c)) <= max →
  Z.of_nat (length (contents (lru_run c ops))) <= max.
Proof.
  intros Hm. induction ops as [|o ops IH]; intros c Hmax Hc Hl; [done|]. destruct (lru_step_spec c o Hc) as (H1 & H2 & H3). apply IH; [congruence|done|].
  rewrite H3, Hmax. apply step_spec_length; [done..|apply Hc].
Qed.

(** C16: The least-recently-used cache behaves as a list of pairs in order of use, whatever
    sequence of Put, Get and Erase has run on a new cache: no iterator of its map is ever
    invalid, it never holds more than the allowed number of entries, and an entry that
    was put is returned by Get as long as it is neither overwritten nor erased and fewer
    than that number of other keys have been used since. *)
Theorem lru_cache_correct max ops : 0 <= max → let c := lru_run (LRU_new max) ops in
  (contents c = run_spec max [] ops ∧ Size c <= max) ∧
  (∀ k, match Get c k with Ok (v, _) => (k, v) ∈ contents c | Err e => e = NoSuchKey ∧ k ∉ (contents c).*1 end) ∧
  (∀ k v ops2 (S : gset K), Forall (keeps k) ops2 → (∀ o x, o ∈ ops2 → x ∈ op_used o → x ≠ k → x ∈ S) →
     Z.of_nat (size S) < max → ∃ c', Get (lru_run (Put c k v) ops2) k = Ok (v, c')).
Proof.
  intros Hm c. destruct (lru_run_spec ops (LRU_new max) (lru_new_ok max)) as (Hc & Hmax & Hcont). fold c in Hc, Hmax, Hcont. cbn in Hmax, Hcont.
  assert (Z.of_nat (length (contents c)) <= max) as Hlen by (apply run_spec_length; [done|done|apply lru_new_ok|cbn; lia]).
  split; [split; [done|]; unfold Size; by rewrite map_size_length|]. split.
  - intros k. pose proof (Get_spec c k Hc) as Hg. destruct (find k (contents c)) as [v|] eqn:Hf.
    + destruct Hg as (c' & -> & _). apply find_Some; [apply Hc|done].
    + rewrite Hg. split; [done|]. intros Hk. apply list_elem_of_fmap in Hk as ([k' v] & -> & Hp).
      apply find_Some in Hp; [|apply Hc]. cbn in Hf. congruence.
  - intros k v ops2 S Hk Hu HS. destruct (Put_spec c k v Hc) as (Hp & Hmp & Hcp). rewrite Hmax in Hmp, Hcp.
    destruct (lru_run_spec ops2 _ Hp) as (Hr & Hmr & Hcr). rewrite Hmp, Hcp in Hcr.
    assert (held_behind S k v (put_spec max k v (contents c))) as Hh.
    { apply held_evict; [done|]. split; [|exists [], (without k (contents c)); split; [done|]; intros x Hx; by apply elem_of_nil in Hx].
      cbn. apply NoDup_cons. split; [|apply NoDup_without, Hc]. intros Hx. by apply elem_of_without in Hx as [Hx _]. }
    apply (held_run S max k v ops2 HS Hk Hu) in Hh. rewrite <- Hcr in Hh. destruct Hh as (Hn & pre & post & E & _).
    pose proof (Get_spec _ k Hr) as Hg. rewrite (proj2 (find_Some k v _ Hn)) in Hg.
    + destruct Hg as (c' & Hg & _). by exists c'.
    + rewrite E, elem_of_app, elem_of_cons. auto.
Qed.
End lru.
Arguments CLRUCache K {_ _} V.

Lemma lru_cache_correct_witness :
  ∃ c', Get (lru_run (Put (LRU_new 2) 7 70) [OpPut 8 80; OpGet 8; OpPut 8 81; OpErase 9]) 7 = Ok (70, c').
Proof.
  destruct (lru_cache_correct (K := Z) (V := Z) 2 [] ltac:(lia)) as (_ & _ & Hr).
  apply (Hr 7 70 [OpPut 8 80; OpGet 8; OpPut 8 81; OpErase 9] {[8]}).
  - repeat constructor; cbn; lia.
  - intros o x Ho Hx _. apply elem_of_singleton.
    repeat (apply elem_of_cons in Ho as [->|Ho]; [cbn in Hx; apply elem_of_cons in Hx as [Hx|Hx]; [done|by apply elem_of_nil in Hx]|]).
    apply elem_of_cons in Ho as [->|Ho]; [by apply elem_of_nil in Hx|by apply elem_of_nil in Ho].
  - vm_compute. reflexivity.
Defined.

(** A copy of a cache with one entry, made while the original is alive: its map points
    into the list of the original. *)
Lemma copy_dangles : Get (LRU_copy (Put (LRU_new 2) 7 70) 100) 7 = Err DanglingIterator.
Proof. vm_compute. reflexivity. Qed.
End LRU.
