(* ===== verification/Coins.v ===== *)
(** * Unspent coins: src/src/coins.{h,cpp} and the coin database of txdb.cpp

    The views on the set of unspent transaction outputs.  [CCoinsView] is a class of
    operations on a state; [CCoinsViewDB] implements it over a key-value store and
    [CCoinsViewCache] over any other view, so caches stack.  [CoinsViewLaws] is what
    a view promises: it stands for one map from outpoints to coins, reading does not
    change it, and [BatchWrite] applies exactly the dirty entries.

    The methods fill caches when they read, so every operation returns the new
    state.  The memory accounting ([cachedCoinsUsage]) depends on the allocator and
    is left out.  The iteration order of an [unordered_map] is a parameter. *)

From stdpp Require Import gmap.
From S2P Require Import Prelude Serialize Transaction Script AssetTypes.

(** ** Coins and cache entries *)

Record Coin := mkCoin { c_out : CTxOut; c_fCoinBase : bool; c_nHeight : Z }.
(** The height is a bit field of 31 bits. *)
Definition Coin_make (o : CTxOut) (nHeightIn : Z) (fCoinBaseIn : bool) : Coin := mkCoin o fCoinBaseIn (uwrap 31 nHeightIn).
(** [Coin()], and a coin after [Clear] *)
Definition coinEmpty : Coin := mkCoin TxOut_null false 0.
Definition IsSpent (c : Coin) : bool := TxOut_IsNull (c_out c).

Record CCoinsCacheEntry := mkEntry { e_coin : Coin; e_flags : Z }.
Definition DIRTY : Z := Z.shiftl 1 0.
Definition FRESH : Z := Z.shiftl 1 1.

#[global] Instance COutPoint_eq_dec : EqDecision COutPoint.
Proof. solve_decision. Defined.
#[global] Instance COutPoint_countable : Countable COutPoint.
Proof.
  apply (inj_countable' (fun o => (op_hash o, op_n o)) (fun p => mkOutPoint p.1 p.2)). by intros [].
Defined.

Abbreviation CCoinsMap := (gmap COutPoint CCoinsCacheEntry).
Abbreviation entries := (list (COutPoint * CCoinsCacheEntry)).

(** A read past the end of a script, a failed assertion, a [std::logic_error]. *)
Inductive coins_error := ReadPastEnd (i : nat) | AssertionFailed | LogicError.

Definition script_read {A} (r : result nat A) : result coins_error A :=
  match r with Ok a => Ok a | Err i => Err (ReadPastEnd i) end.

(** ** Views *)

Class CCoinsView (V : Type) := {
  GetCoin : V → COutPoint → option Coin * V;
  HaveCoin : V → COutPoint → bool * V;
  GetBestBlock : V → uint256 * V;
  BatchWrite : V → entries → uint256 → result coins_error (bool * V)
}.

(** The order in which an [unordered_map] is walked. *)
Class MapOrder := {
  map_order : CCoinsMap → entries;
  map_order_perm : ∀ m, map_order m ≡ₚ map_to_list m
}.

(** The base class itself has no coins. *)
Definition CCoinsView_default : CCoinsView () := {|
  GetCoin v _ := (None, v);
  HaveCoin v _ := (false, v);
  GetBestBlock v := (blob_null, v);
  BatchWrite v _ _ := Ok (false, v)
|}.

(** ** CCoinsViewCache *)

Record CCoinsViewCache (V : Type) := mkCache { base : V; hashBlock : uint256; cacheCoins : CCoinsMap }.
Arguments mkCache {V} _ _ _.
Arguments base {V} _.
Arguments hashBlock {V} _.
Arguments cacheCoins {V} _.

(** The asset state that [SpendCoin] keeps in step. *)
Class AssetSpending (A : Type) := {
  TrySpendCoin : A → COutPoint → CTxOut → result coins_error (bool * A)
}.

Section cache.
  Context {V : Type} `{View : CCoinsView V}.
  Implicit Types (c : CCoinsViewCache V) (o : COutPoint).

Definition Cache_new (baseIn : V) : CCoinsViewCache V := mkCache baseIn blob_null ∅.
Definition set_coins c (m : CCoinsMap) : CCoinsViewCache V := mkCache (base c) (hashBlock c) m.

Definition FetchCoin c o : option CCoinsCacheEntry * CCoinsViewCache V :=
  match cacheCoins c !! o with
  | Some e => (Some e, c)
  | None =>
      let '(r, b) := GetCoin (base c) o in
      match r with
      | None => (None, mkCache b (hashBlock c) (cacheCoins c))
      | Some tmp =>
          let e := mkEntry tmp (if IsSpent tmp then FRESH else 0) in
          (Some e, mkCache b (hashBlock c) (<[o := e]> (cacheCoins c)))
      end
  end.

Definition Cache_GetCoin c o : option Coin * CCoinsViewCache V :=
  let '(it, c) := FetchCoin c o in
  match it with
  | Some e => (if IsSpent (e_coin e) then None else Some (e_coin e), c)
  | None => (None, c)
  end.

Definition AddCoin c o (coin : Coin) (possible_overwrite : bool) : result coins_error (CCoinsViewCache V) :=
  if IsSpent coin then Err AssertionFailed
  else
    let? unspendable := script_read (IsUnspendable (scriptPubKey (c_out coin))) in
    if unspendable then Ok c
    else
      let e := default (mkEntry coinEmpty 0) (cacheCoins c !! o) in
      if negb possible_overwrite && negb (IsSpent (e_coin e)) then Err LogicError
      else
        let fresh := negb possible_overwrite && negb (flag_set (e_flags e) DIRTY) in
        let flags := Z.lor (e_flags e) (Z.lor DIRTY (if fresh then FRESH else 0)) in
        Ok (set_coins c (<[o := mkEntry coin flags]> (cacheCoins c))).

Definition AccessCoin c o : Coin * CCoinsViewCache V :=
  let '(it, c) := FetchCoin c o in
  (match it with Some e => e_coin e | None => coinEmpty end, c).

Definition Cache_HaveCoin c o : bool * CCoinsViewCache V :=
  let '(it, c) := FetchCoin c o in
  (match it with Some e => negb (IsSpent (e_coin e)) | None => false end, c).

Definition HaveCoinInCache c o : bool :=
  match cacheCoins c !! o with Some e => negb (IsSpent (e_coin e)) | None => false end.

Definition Cache_GetBestBlock c : uint256 * CCoinsViewCache V :=
  if blob_IsNull (hashBlock c) then
    let '(h, b) := GetBestBlock (base c) in (h, mkCache b h (cacheCoins c))
  else (hashBlock c, c).
Definition SetBestBlock c (h : uint256) : CCoinsViewCache V := mkCache (base c) h (cacheCoins c).

(** One entry of a child cache, written to this one. *)
Definition write_entry (m : CCoinsMap) o (it : CCoinsCacheEntry) : result coins_error CCoinsMap :=
  if negb (flag_set (e_flags it) DIRTY) then Ok m
  else
    match m !! o with
    | None =>
        if flag_set (e_flags it) FRESH && IsSpent (e_coin it) then Ok m
        else Ok (<[o := mkEntry (e_coin it) (Z.lor DIRTY (if flag_set (e_flags it) FRESH then FRESH else 0))]> m)
    | Some itUs =>
        if flag_set (e_flags it) FRESH && negb (IsSpent (e_coin itUs)) then Err LogicError
        else if flag_set (e_flags itUs) FRESH && IsSpent (e_coin it) then Ok (delete o m)
        else Ok (<[o := mkEntry (e_coin it) (Z.lor (e_flags itUs) DIRTY)]> m)
    end.
Fixpoint write_entries (m : CCoinsMap) (mapCoins : entries) : result coins_error CCoinsMap :=
  match mapCoins with
  | [] => Ok m
  | (o, it) :: rest => let? m := write_entry m o it in write_entries m rest
  end.
Definition Cache_BatchWrite c (mapCoins : entries) (hashBlockIn : uint256) : result coins_error (bool * CCoinsViewCache V) :=
  let? m := write_entries (cacheCoins c) mapCoins in
  Ok (true, mkCache (base c) hashBlockIn m).

Definition Flush `{MapOrder} c : result coins_error (bool * CCoinsViewCache V) :=
  let? r := BatchWrite (base c) (map_order (cacheCoins c)) (hashBlock c) in
  Ok (fst r, mkCache (snd r) (hashBlock c) ∅).

Definition Uncache c o : CCoinsViewCache V :=
  match cacheCoins c !! o with
  | Some e => if e_flags e =? 0 then set_coins c (delete o (cacheCoins c)) else c
  | None => c
  end.

Definition GetCacheSize c : nat := base.size (cacheCoins c).

(** With an asset cache the spent output is taken off the asset state too; the first
    component is [false] when there is no entry or the asset state refuses. *)
Definition SpendCoin {A} `{AssetSpending A} (assets_deployed : bool) c o (assetsCache : option A)
    : result coins_error (bool * Coin * CCoinsViewCache V * option A) :=
  let '(it, c) := FetchCoin c o in
  match it with
  | None => Ok (false, coinEmpty, c, assetsCache)
  | Some e =>
      let c := set_coins c (if flag_set (e_flags e) FRESH then delete o (cacheCoins c)
                            else <[o := mkEntry coinEmpty (Z.lor (e_flags e) DIRTY)]> (cacheCoins c)) in
      match assets_deployed, assetsCache with
      | true, Some a =>
          let? r := TrySpendCoin a o (c_out (e_coin e)) in
          Ok (fst r, e_coin e, c, Some (snd r))
      | _, _ => Ok (true, e_coin e, c, assetsCache)
      end
  end.

(** The sums and searches over the coins of a transaction. *)
Fixpoint value_in c (ins : list CTxIn) (nResult : Z) : Z * CCoinsViewCache V :=
  match ins with
  | [] => (nResult, c)
  | i :: ins =>
      let '(coin, c) := AccessCoin c (prevout i) in value_in c ins (i64 (nResult + nValue (c_out coin)))
  end.
Definition GetValueIn c (tx : CTransaction) : Z * CCoinsViewCache V :=
  if IsCoinBase tx then (0, c) else value_in c (vin tx) 0.

Fixpoint have_inputs c (ins : list CTxIn) : bool * CCoinsViewCache V :=
  match ins with
  | [] => (true, c)
  | i :: ins => let '(have, c) := Cache_HaveCoin c (prevout i) in if have then have_inputs c ins else (false, c)
  end.
Definition HaveInputs c (tx : CTransaction) : bool * CCoinsViewCache V :=
  if IsCoinBase tx then (true, c) else have_inputs c (vin tx).

Definition MAX_BLOCK_WEIGHT_RIP2 : Z := 4000000.
Definition GetMaxBlockWeight : Z := MAX_BLOCK_WEIGHT_RIP2.
Definition WITNESS_SCALE_FACTOR : Z := 4.
Definition MIN_TRANSACTION_OUTPUT_WEIGHT : Z := WITNESS_SCALE_FACTOR * Z.of_nat (length (ser_TxOut TxOut_null)).

(** [fuel] outputs of the transaction are left to look at from index [n]. *)
Fixpoint access_by_txid (fuel : nat) c (txid : uint256) (n : Z) : Coin * CCoinsViewCache V :=
  match fuel with
  | O => (coinEmpty, c)
  | S fuel =>
      let '(alternate, c) := AccessCoin c (mkOutPoint txid n) in
      if negb (IsSpent alternate) then (alternate, c) else access_by_txid fuel c txid (n + 1)
  end.
Definition AccessByTxid c (txid : uint256) : Coin * CCoinsViewCache V :=
  access_by_txid (Z.to_nat (GetMaxBlockWeight / MIN_TRANSACTION_OUTPUT_WEIGHT)) c txid 0.

#[global] Instance CCoinsViewCache_view : CCoinsView (CCoinsViewCache V) := {|
  GetCoin := Cache_GetCoin;
  HaveCoin := Cache_HaveCoin;
  GetBestBlock := Cache_GetBestBlock;
  BatchWrite := Cache_BatchWrite
|}.
End cache.

(** ** CCoinsViewDB *)

(** The chain state database: one coin per key, the best block, and while a write is
    in progress the new and the old best block. *)
Record coins_db := mkCoinsDB { db_coins : gmap COutPoint Coin; db_best : option uint256; db_heads : list uint256 }.

Inductive db_op :=
| EraseBest | WriteBest (h : uint256) | EraseHeads | WriteHeads (hs : list uint256)
| EraseCoin (o : COutPoint) | WriteCoin (o : COutPoint) (c : Coin).

Definition apply_op (d : coins_db) (op : db_op) : coins_db :=
  match op with
  | EraseBest => mkCoinsDB (db_coins d) None (db_heads d)
  | WriteBest h => mkCoinsDB (db_coins d) (Some h) (db_heads d)
  | EraseHeads => mkCoinsDB (db_coins d) (db_best d) []
  | WriteHeads hs => mkCoinsDB (db_coins d) (db_best d) hs
  | EraseCoin o => mkCoinsDB (delete o (db_coins d)) (db_best d) (db_heads d)
  | WriteCoin o c => mkCoinsDB (<[o := c]> (db_coins d)) (db_best d) (db_heads d)
  end.
(** [db.WriteBatch(batch)]: a batch is written as a whole. *)
Definition WriteBatch (d : coins_db) (batch : list db_op) : coins_db := fold_left apply_op batch d.

Definition DB_GetCoin (d : coins_db) (o : COutPoint) : option Coin := db_coins d !! o.
Definition DB_HaveCoin (d : coins_db) (o : COutPoint) : bool := bool_decide (is_Some (db_coins d !! o)).
Definition DB_GetBestBlock (d : coins_db) : uint256 := default blob_null (db_best d).
Definition GetHeadBlocks (d : coins_db) : list uint256 := db_heads d.

Definition entry_op (o : COutPoint) (e : CCoinsCacheEntry) : list db_op :=
  if flag_set (e_flags e) DIRTY then [if IsSpent (e_coin e) then EraseCoin o else WriteCoin o (e_coin e)] else [].

(** [full]: the size estimate of a batch exceeds the limit. *)
Class BatchLimit := { batch_full : list db_op → bool }.

Section database.
  Context `{BatchLimit}.

(** The batches of one [BatchWrite], in the order in which they are written. *)
Fixpoint entry_batches (batch : list db_op) (mapCoins : entries) (final : list db_op) : list (list db_op) :=
  match mapCoins with
  | [] => [batch ++ final]
  | (o, e) :: rest =>
      let batch := batch ++ entry_op o e in
      if batch_full batch then batch :: entry_batches [] rest final else entry_batches batch rest final
  end.

Definition DB_batches (d : coins_db) (mapCoins : entries) (h : uint256) : result coins_error (list (list db_op)) :=
  if blob_IsNull h then Err AssertionFailed
  else
    let? old_tip :=
      if blob_IsNull (DB_GetBestBlock d) then
        match GetHeadBlocks d with
        | [new_head; old_head] => if blob_eqb new_head h then Ok old_head else Err AssertionFailed
        | _ => Ok (DB_GetBestBlock d)
        end
      else Ok (DB_GetBestBlock d) in
    Ok (entry_batches [EraseBest; WriteHeads [h; old_tip]] mapCoins [EraseHeads; WriteBest h]).

Definition DB_BatchWrite (d : coins_db) (mapCoins : entries) (h : uint256) : result coins_error (bool * coins_db) :=
  let? batches := DB_batches d mapCoins h in
  Ok (true, fold_left WriteBatch batches d).

(** The database after a crash between two of the writes: [k] batches are on disk. *)
Definition DB_crash (d : coins_db) (mapCoins : entries) (h : uint256) (k : nat) : result coins_error coins_db :=
  let? batches := DB_batches d mapCoins h in
  Ok (fold_left WriteBatch (take k batches) d).

#[global] Instance CCoinsViewDB_view : CCoinsView coins_db := {|
  GetCoin d o := (DB_GetCoin d o, d);
  HaveCoin d o := (DB_HaveCoin d o, d);
  GetBestBlock d := (DB_GetBestBlock d, d);
  BatchWrite := DB_BatchWrite
|}.
End database.

(** ** What a view promises *)

Definition live (c : Coin) : option Coin := if IsSpent c then None else Some c.

(** The dirty entries, applied to a map of coins. *)
Fixpoint find_entry (es : entries) (o : COutPoint) : option CCoinsCacheEntry :=
  match es with
  | [] => None
  | (p, e) :: es => if decide (p = o) then Some e else find_entry es o
  end.
Definition apply_entries (es : entries) (U : COutPoint → option Coin) (o : COutPoint) : option Coin :=
  match find_entry es o with
  | Some e => if flag_set (e_flags e) DIRTY then live (e_coin e) else U o
  | None => U o
  end.

Class CoinsViewLaws (V : Type) `{CCoinsView V} := {
  view_ok : V → Prop;
  utxo : V → COutPoint → option Coin;
  best : V → uint256;
  writable : V → uint256 → Prop;   (* the block that a write may move to *)
  utxo_unspent v o c : view_ok v → utxo v o = Some c → IsSpent c = false;
  GetCoin_law v o : view_ok v → ∃ v', GetCoin v o = (utxo v o, v') ∧
    view_ok v' ∧ (∀ p, utxo v' p = utxo v p) ∧ best v' = best v ∧ (∀ h, writable v h → writable v' h);
  HaveCoin_law v o : view_ok v → ∃ v', HaveCoin v o = (bool_decide (is_Some (utxo v o)), v') ∧
    view_ok v' ∧ (∀ p, utxo v' p = utxo v p) ∧ best v' = best v ∧ (∀ h, writable v h → writable v' h);
  GetBestBlock_law v : view_ok v → ∃ v', GetBestBlock v = (best v, v') ∧
    view_ok v' ∧ (∀ p, utxo v' p = utxo v p) ∧ best v' = best v ∧ (∀ h, writable v h → writable v' h);
  BatchWrite_law v es h : view_ok v → writable v h → NoDup es.*1 → blob_IsNull h = false →
    (∀ o e, (o, e) ∈ es → flag_set (e_flags e) FRESH = true → utxo v o = None) →
    ∃ v', BatchWrite v es h = Ok (true, v') ∧ view_ok v' ∧ best v' = h ∧
      ∀ o, utxo v' o = apply_entries es (utxo v) o
}.

(** ** Lemmas: flags *)

Definition flags_ok (f : Z) : Prop := f = 0 ∨ f = 1 ∨ f = 3.

Lemma flags_dirty f : flags_ok f → flags_ok (Z.lor f DIRTY) ∧ flag_set (Z.lor f DIRTY) DIRTY = true ∧
  flag_set (Z.lor f DIRTY) FRESH = flag_set f FRESH.
Proof. intros [->|[->| ->]]; vm_compute; unfold flags_ok; auto. Qed.

Lemma flags_add f b : flags_ok f → flags_ok (Z.lor f (Z.lor DIRTY (if b : bool then FRESH else 0))) ∧
  flag_set (Z.lor f (Z.lor DIRTY (if b then FRESH else 0))) DIRTY = true ∧
  flag_set (Z.lor f (Z.lor DIRTY (if b then FRESH else 0))) FRESH = flag_set f FRESH || b.
Proof. intros [->|[->| ->]]; destruct b; vm_compute; unfold flags_ok; auto. Qed.

Lemma flags_new b : flags_ok (Z.lor DIRTY (if b : bool then FRESH else 0)) ∧
  flag_set (Z.lor DIRTY (if b then FRESH else 0)) DIRTY = true ∧
  flag_set (Z.lor DIRTY (if b then FRESH else 0)) FRESH = b.
Proof. destruct b; vm_compute; unfold flags_ok; auto. Qed.

Lemma flags_fresh_dirty f : flags_ok f → flag_set f FRESH = true → flag_set f DIRTY = true.
Proof. intros [->|[->| ->]]; by vm_compute. Qed.

Lemma live_empty : live coinEmpty = None.
Proof. done. Qed.
Lemma live_spent c : IsSpent c = true → live c = None.
Proof. intros H. unfold live. by rewrite H. Qed.
Lemma live_unspent c : IsSpent c = false → live c = Some c.
Proof. intros H. unfold live. by rewrite H. Qed.

(** ** A cache over a lawful view is lawful *)

Section cache_laws.
  Context {V : Type} {View : CCoinsView V} {Laws : CoinsViewLaws V}.
  Implicit Types (c : CCoinsViewCache V) (o : COutPoint).

(** A clean entry repeats the base; a fresh one is absent there. *)
Definition entry_ok (U : COutPoint → option Coin) o (e : CCoinsCacheEntry) : Prop :=
  flags_ok (e_flags e) ∧ (flag_set (e_flags e) FRESH = true → U o = None) ∧
  (flag_set (e_flags e) DIRTY = false → U o = Some (e_coin e)).
Definition cache_ok c : Prop :=
  view_ok (base c) ∧ ∀ o e, cacheCoins c !! o = Some e → entry_ok (utxo (base c)) o e.
Definition overlay (m : CCoinsMap) (U : COutPoint → option Coin) o : option Coin :=
  match m !! o with Some e => live (e_coin e) | None => U o end.
Definition cache_utxo c : COutPoint → option Coin := overlay (cacheCoins c) (utxo (base c)).
Definition cache_best c : uint256 := if blob_IsNull (hashBlock c) then best (base c) else hashBlock c.

(** Reading: the same coins and best block, and a valid cache. *)
Definition same_cache c c' : Prop :=
  cache_ok c' ∧ (∀ p, cache_utxo c' p = cache_utxo c p) ∧ cache_best c' = cache_best c ∧
  (∀ p, utxo (base c') p = utxo (base c) p) ∧ (∀ h, writable (base c) h → writable (base c') h).

Lemma cache_entry_ok_ext U U' o e : (∀ p, U' p = U p) → entry_ok U o e → entry_ok U' o e.
Proof. unfold entry_ok. intros H. by rewrite H. Qed.

Lemma same_cache_refl c : cache_ok c → same_cache c c.
Proof. intros H. unfold same_cache. by split_and!. Qed.
Lemma same_cache_trans c1 c2 c3 : same_cache c1 c2 → same_cache c2 c3 → same_cache c1 c3.
Proof.
  intros (_ & H1 & H2 & H3 & H4) (Hok & H5 & H6 & H7 & H8). split_and!; [done|by intros p; rewrite H5|congruence| |auto].
  intros p. by rewrite H7.
Qed.

(** What [FetchCoin] returns. *)
Definition fetched c o (r : option CCoinsCacheEntry) c' : Prop :=
  same_cache c c' ∧ cacheCoins c' !! o = r ∧ hashBlock c' = hashBlock c ∧
  match r with Some e => live (e_coin e) = cache_utxo c o | None => cache_utxo c o = None end.

Lemma FetchCoin_spec c o : cache_ok c → ∃ r c', FetchCoin c o = (r, c') ∧ fetched c o r c'.
Proof.
  intros Hok. unfold FetchCoin. destruct (cacheCoins c !! o) as [e|] eqn:He.
  - exists (Some e), c. split; [done|]. split_and!; [by apply same_cache_refl|done|done|].
    unfold cache_utxo, overlay. by rewrite He.
  - destruct Hok as [Hb He']. destruct (GetCoin_law (base c) o Hb) as (b & -> & Hb' & Hu & Hbest & Hwr).
    assert (cache_utxo c o = utxo (base c) o) as Hco by (unfold cache_utxo, overlay; by rewrite He).
    destruct (utxo (base c) o) as [tmp|] eqn:Ht.
    + pose proof (utxo_unspent _ _ _ Hb Ht) as Hns. rewrite Hns. do 2 eexists. split; [done|].
      split_and!; [|cbn; by rewrite lookup_insert_eq|done|rewrite Hco; by apply live_unspent].
      split_and!; cbn.
      * split; [done|]. intros p e. cbn. rewrite lookup_insert_Some. intros [[<- <-]|[Hne Hp]].
        -- split_and!; [by left|done|]. cbn. intros _. by rewrite Hu.
        -- eapply cache_entry_ok_ext; [|by apply He']. done.
      * intros p. unfold cache_utxo, overlay. cbn. destruct (decide (p = o)) as [->|Hne].
        -- rewrite lookup_insert_eq, He, Ht. by apply live_unspent.
        -- rewrite lookup_insert_ne by done. by rewrite Hu.
      * unfold cache_best. cbn. by rewrite Hbest.
      * done.
      * done.
    + do 2 eexists. split; [done|]. split_and!; [|done|done|done]. split_and!; cbn.
      * split; [done|]. intros p e Hp. eapply cache_entry_ok_ext; [|by apply He']. done.
      * intros p. unfold cache_utxo, overlay. cbn. by rewrite Hu.
      * unfold cache_best. cbn. by rewrite Hbest.
      * done.
      * done.
Qed.

Lemma AccessCoin_spec c o : cache_ok c →
  ∃ coin c', AccessCoin c o = (coin, c') ∧ same_cache c c' ∧ live coin = cache_utxo c o ∧ hashBlock c' = hashBlock c.
Proof.
  intros Hok. destruct (FetchCoin_spec c o Hok) as (r & c' & Hf & Hs & _ & Hh & Hr). unfold AccessCoin. rewrite Hf.
  do 2 eexists. split; [done|]. split_and!; [done| |done]. by destruct r.
Qed.

Lemma Cache_GetCoin_spec c o : cache_ok c → ∃ c', Cache_GetCoin c o = (cache_utxo c o, c') ∧ same_cache c c'.
Proof.
  intros Hok. destruct (FetchCoin_spec c o Hok) as (r & c' & Hf & Hs & _ & Hh & Hr). unfold Cache_GetCoin. rewrite Hf.
  exists c'. split; [|done]. destruct r as [e|]; [by rewrite <- Hr|by rewrite Hr].
Qed.

Lemma Cache_HaveCoin_spec c o : cache_ok c →
  ∃ c', Cache_HaveCoin c o = (bool_decide (is_Some (cache_utxo c o)), c') ∧ same_cache c c'.
Proof.
  intros Hok. destruct (FetchCoin_spec c o Hok) as (r & c' & Hf & Hs & _ & Hh & Hr). unfold Cache_HaveCoin. rewrite Hf.
  exists c'. split; [|done]. f_equal. destruct r as [e|]; [rewrite <- Hr; unfold live; by destruct (IsSpent (e_coin e))|].
  by rewrite Hr.
Qed.

Lemma Cache_GetBestBlock_spec c : cache_ok c → ∃ c', Cache_GetBestBlock c = (cache_best c, c') ∧ same_cache c c'.
Proof.
  intros [Hb He]. unfold Cache_GetBestBlock, cache_best. destruct (blob_IsNull (hashBlock c)) eqn:Hn.
  - destruct (GetBestBlock_law (base c) Hb) as (b & -> & Hb' & Hu & Hbest & Hwr). eexists. split; [done|]. split_and!; cbn.
    + split; [done|]. intros p e Hp. eapply cache_entry_ok_ext; [|by apply He]. done.
    + intros p. unfold cache_utxo, overlay. cbn. by rewrite Hu.
    + unfold cache_best. cbn [hashBlock base]. rewrite Hn, Hbest. by destruct (blob_IsNull (best (base c))).
    + done.
    + done.
  - exists c. split; [done|]. by apply same_cache_refl.
Qed.

(** ** Lemmas: writing *)

Definition entries_ok (U : COutPoint → option Coin) (m : CCoinsMap) : Prop := ∀ o e, m !! o = Some e → entry_ok U o e.

(** A change at one outpoint of the cache. *)
Lemma entries_ok_insert U m o e : entries_ok U m → entry_ok U o e → entries_ok U (<[o := e]> m).
Proof. intros Hm He p e'. rewrite lookup_insert_Some. intros [[<- <-]|[_ Hp]]; [done|by apply Hm]. Qed.
Lemma entries_ok_delete U m o : entries_ok U m → entries_ok U (delete o m).
Proof. intros Hm p e'. rewrite lookup_delete_Some. intros [_ Hp]. by apply Hm. Qed.

Lemma overlay_insert U m o e p : overlay (<[o := e]> m) U p = if decide (p = o) then live (e_coin e) else overlay m U p.
Proof.
  unfold overlay. destruct (decide (p = o)) as [->|Hne]; [by rewrite lookup_insert_eq|by rewrite lookup_insert_ne].
Qed.
Lemma overlay_delete U m o p : overlay (delete o m) U p = if decide (p = o) then U p else overlay m U p.
Proof.
  unfold overlay. destruct (decide (p = o)) as [->|Hne]; [by rewrite lookup_delete_eq|by rewrite lookup_delete_ne].
Qed.

(** A dirty entry that is fresh only when the base has no coin. *)
Lemma entry_ok_dirty U o coin f : flags_ok f → flag_set f DIRTY = true → (flag_set f FRESH = true → U o = None) →
  entry_ok U o (mkEntry coin f).
Proof. intros Hf Hd Hu. split_and!; cbn; [done|done|congruence]. Qed.

Lemma write_entry_spec U m o it : entries_ok U m →
  (flag_set (e_flags it) FRESH = true → overlay m U o = None) →
  ∃ m', write_entry m o it = Ok m' ∧ entries_ok U m' ∧
    ∀ p, overlay m' U p = if decide (p = o) then (if flag_set (e_flags it) DIRTY then live (e_coin it) else overlay m U o)
                          else overlay m U p.
Proof.
  intros Hm Hf. unfold write_entry. destruct (flag_set (e_flags it) DIRTY) eqn:Hd; cbn [negb].
  2: { exists m. split_and!; [done|done|]. intros p. by case_decide as Hp; [subst|]. }
  destruct (m !! o) as [us|] eqn:Hus.
  - destruct (Hm o us Hus) as (Hfl & Hfr & Hcl).
    assert (overlay m U o = live (e_coin us)) as Hov by (unfold overlay; by rewrite Hus).
    assert (flag_set (e_flags it) FRESH && negb (IsSpent (e_coin us)) = false) as ->.
    { destruct (flag_set (e_flags it) FRESH) eqn:Hff; [|done]. specialize (Hf eq_refl). rewrite Hov in Hf. unfold live in Hf.
      by destruct (IsSpent (e_coin us)). }
    destruct (flag_set (e_flags us) FRESH && IsSpent (e_coin it)) eqn:Hdel.
    + apply andb_prop in Hdel as [Hfus Hsp]. exists (delete o m). split_and!; [done|by apply entries_ok_delete|].
      intros p. rewrite overlay_delete. case_decide; [subst|done]. by rewrite (live_spent _ Hsp), Hfr.
    + eexists. split_and!; [done| |intros p; by rewrite overlay_insert].
      destruct (flags_dirty (e_flags us) Hfl) as (H1 & H2 & H3).
      apply entries_ok_insert; [done|]. apply entry_ok_dirty; [done|done|]. by rewrite H3.
  - assert (overlay m U o = U o) as Hov by (unfold overlay; by rewrite Hus). rewrite Hov in Hf.
    destruct (flag_set (e_flags it) FRESH && IsSpent (e_coin it)) eqn:Hskip.
    + apply andb_prop in Hskip as [Hff Hsp]. exists m. split_and!; [done|done|]. intros p. case_decide; [subst|done].
      by rewrite Hov, (live_spent _ Hsp), Hf.
    + eexists. split_and!; [done| |intros p; by rewrite overlay_insert].
      destruct (flags_new (flag_set (e_flags it) FRESH)) as (H1 & H2 & H3).
      apply entries_ok_insert; [done|]. apply entry_ok_dirty; [done|done|]. rewrite H3. done.
Qed.

Lemma find_entry_None es o : o ∉ es.*1 → find_entry es o = None.
Proof.
  induction es as [|[p e] es IH]; [done|]. cbn. rewrite elem_of_cons. intros Hn. rewrite decide_False by (intros ->; tauto).
  apply IH. tauto.
Qed.

Lemma write_entries_spec U es : ∀ m, entries_ok U m → NoDup es.*1 →
  (∀ o e, (o, e) ∈ es → flag_set (e_flags e) FRESH = true → overlay m U o = None) →
  ∃ m', write_entries m es = Ok m' ∧ entries_ok U m' ∧ ∀ p, overlay m' U p = apply_entries es (overlay m U) p.
Proof.
  induction es as [|[o it] es IH]; intros m Hm Hnd Hf; cbn.
  - exists m. by split_and!.
  - cbn in Hnd. apply NoDup_cons in Hnd as [Hni Hnd].
    destruct (write_entry_spec U m o it Hm) as (m1 & -> & Hm1 & Hov1); [apply Hf; by left|].
    cbn [rbind]. destruct (IH m1 Hm1 Hnd) as (m2 & -> & Hm2 & Hov2).
    { intros p e Hp Hfr. rewrite Hov1, decide_False; [apply (Hf p e); [by right|done]|].
      intros ->. apply Hni, list_elem_of_fmap. by exists (o, e). }
    exists m2. split_and!; [done|done|]. intros p. rewrite Hov2. unfold apply_entries. cbn [find_entry].
    destruct (decide (o = p)) as [<-|Hne].
    + rewrite find_entry_None by done. by rewrite Hov1, decide_True.
    + rewrite Hov1. by rewrite decide_False by congruence.
Qed.

#[global] Instance CCoinsViewCache_laws : CoinsViewLaws (CCoinsViewCache V).
Proof.
  refine {| view_ok := cache_ok; utxo := cache_utxo; best := cache_best; writable _ _ := True |}.
  - intros c o coin [Hb He]. unfold cache_utxo, overlay. destruct (cacheCoins c !! o) as [e|] eqn:Heq; [|by apply utxo_unspent].
    unfold live. destruct (IsSpent (e_coin e)) eqn:Hs; [done|]. by intros [= <-].
  - intros c o Hok. destruct (Cache_GetCoin_spec c o Hok) as (c' & Hg & H1 & H2 & H3 & _). by exists c'.
  - intros c o Hok. destruct (Cache_HaveCoin_spec c o Hok) as (c' & Hg & H1 & H2 & H3 & _). by exists c'.
  - intros c Hok. destruct (Cache_GetBestBlock_spec c Hok) as (c' & Hg & H1 & H2 & H3 & _). by exists c'.
  - intros c es h [Hb He] _ Hnd Hh Hf. cbn [BatchWrite CCoinsViewCache_view]. unfold Cache_BatchWrite.
    destruct (write_entries_spec (utxo (base c)) es (cacheCoins c)) as (m' & -> & Hm' & Hov); [done|done|done|].
    eexists. split; [done|]. split_and!; [by split|unfold cache_best; cbn [hashBlock]; by rewrite Hh|done].
Defined.

(** ** Lemmas: the operations of a cache *)

Lemma AddCoin_spec c o coin po : cache_ok c → IsSpent coin = false →
  IsUnspendable (scriptPubKey (c_out coin)) = Ok false → (po = false → cache_utxo c o = None) →
  ∃ c', AddCoin c o coin po = Ok c' ∧ cache_ok c' ∧ cache_best c' = cache_best c ∧ base c' = base c ∧
    ∀ p, cache_utxo c' p = if decide (p = o) then Some coin else cache_utxo c p.
Proof.
  intros [Hb He] Hs Hu Hpo. unfold AddCoin. rewrite Hs, Hu. cbn [script_read rbind].
  set (e := default (mkEntry coinEmpty 0) (cacheCoins c !! o)).
  assert (flags_ok (e_flags e) ∧ (flag_set (e_flags e) FRESH = true → utxo (base c) o = None)) as [Hfl Hfr].
  { subst e. destruct (cacheCoins c !! o) as [e|] eqn:Heq; [|by split; [left|]].
    by destruct (He o e Heq) as (? & ? & _). }
  assert (negb po && negb (IsSpent (e_coin e)) = false) as ->.
  { destruct po; [done|]. specialize (Hpo eq_refl). unfold cache_utxo, overlay, live in Hpo. subst e.
    destruct (cacheCoins c !! o) as [e|] eqn:Heq; [|done]. cbn. by destruct (IsSpent (e_coin e)). }
  eexists. split; [done|]. split_and!; [split; [done|]|done|done|].
  - apply entries_ok_insert; [done|]. destruct (flags_add (e_flags e) (negb po && negb (flag_set (e_flags e) DIRTY)) Hfl) as (H1 & H2 & H3).
    apply entry_ok_dirty; [done|done|]. rewrite H3, orb_true_iff, andb_true_iff, !negb_true_iff. intros [?|[Hp Hd]]; [by apply Hfr|].
    specialize (Hpo Hp). unfold cache_utxo, overlay in Hpo. subst e. destruct (cacheCoins c !! o) as [e|] eqn:Heq; [|done].
    destruct (He o e Heq) as (_ & _ & Hcl). specialize (Hcl Hd).
    rewrite (live_unspent (e_coin e)) in Hpo; [done|]. by apply (utxo_unspent (base c) o).
  - intros p. unfold cache_utxo. cbn. rewrite overlay_insert. cbn. by rewrite (live_unspent coin).
Qed.

(** Spending a coin removes it, whether or not it was there. *)
Lemma SpendCoin_spec {A} `{AssetSpending A} c o : cache_ok c →
  ∃ found coin c', SpendCoin (A := A) false c o None = Ok (found, coin, c', None) ∧ cache_ok c' ∧ cache_best c' = cache_best c ∧
    live coin = cache_utxo c o ∧ (is_Some (cache_utxo c o) → found = true) ∧
    (∀ h, writable (base c) h → writable (base c') h) ∧
    ∀ p, cache_utxo c' p = if decide (p = o) then None else cache_utxo c p.
Proof.
  intros Hok. destruct (FetchCoin_spec c o Hok) as (r & c1 & Hf & (Hok1 & Hu1 & Hb1 & Hub & Hwr) & Hr & _ & Hl). unfold SpendCoin. rewrite Hf.
  destruct r as [e|].
  - do 3 eexists. split; [done|]. destruct Hok1 as [Hb He]. destruct (He o e Hr) as (Hfl & Hfr & Hcl).
    split_and!; [|by rewrite <- Hb1|done|done|done|].
    + split; [done|]. cbn. destruct (flag_set (e_flags e) FRESH) eqn:Hfe; [by apply entries_ok_delete|].
      destruct (flags_dirty (e_flags e) Hfl) as (H1 & H2 & H3). apply entries_ok_insert; [done|].
      apply entry_ok_dirty; [done|done|]. congruence.
    + intros p. rewrite <- Hu1. unfold cache_utxo. cbn. destruct (flag_set (e_flags e) FRESH) eqn:Hfe.
      * rewrite overlay_delete. case_decide; [subst; by apply Hfr|done].
      * rewrite overlay_insert. by case_decide.
  - exists false, coinEmpty, c1. split_and!; [done|done|done|by rewrite Hl|by rewrite Hl; intros []|done|].
    intros p. rewrite Hu1. case_decide; [by subst|done].
Qed.

Lemma find_entry_perm (es : entries) (m : CCoinsMap) o : es ≡ₚ map_to_list m → find_entry es o = m !! o.
Proof.
  intros Hp. assert (NoDup es.*1) as Hnd by (rewrite Hp; apply NoDup_fst_map_to_list).
  assert (∀ e, (o, e) ∈ es ↔ m !! o = Some e) as Hin by (intros e; by rewrite Hp, elem_of_map_to_list).
  assert (∀ es : entries, NoDup es.*1 → ∀ e, find_entry es o = Some e ↔ (o, e) ∈ es) as Hfind.
  { clear. induction es as [|[p e] es IH]; cbn; intros Hnd e'; [by rewrite elem_of_nil|].
    apply NoDup_cons in Hnd as [Hni Hnd]. rewrite elem_of_cons. case_decide; subst.
    - split; [intros [= ->]; by left|]. intros [[= ->]|Hin]; [done|]. exfalso. apply Hni, list_elem_of_fmap. by exists (o, e').
    - rewrite IH by done. naive_solver. }
  apply option_eq. intros e. by rewrite Hfind, Hin.
Qed.

Lemma apply_entries_overlay U es (m : CCoinsMap) o : es ≡ₚ map_to_list m → entries_ok U m →
  (∀ p coin, U p = Some coin → IsSpent coin = false) → apply_entries es U o = overlay m U o.
Proof.
  intros Hp Hm Hun. unfold apply_entries, overlay. rewrite (find_entry_perm es m) by done.
  destruct (m !! o) as [e|] eqn:He; [|done]. destruct (flag_set (e_flags e) DIRTY) eqn:Hd; [done|].
  destruct (Hm o e He) as (_ & _ & Hcl). rewrite (Hcl Hd). symmetry. apply live_unspent. eauto.
Qed.

Lemma Flush_spec `{MapOrder} c : cache_ok c → writable (base c) (hashBlock c) → blob_IsNull (hashBlock c) = false →
  ∃ c', Flush c = Ok (true, c') ∧ cache_ok c' ∧ cacheCoins c' = ∅ ∧ best (base c') = hashBlock c ∧ cache_best c' = cache_best c ∧
    (∀ p, utxo (base c') p = cache_utxo c p) ∧ (∀ p, cache_utxo c' p = cache_utxo c p).
Proof.
  intros [Hb He] Hw Hh. unfold Flush. pose proof (map_order_perm (cacheCoins c)) as Hp.
  destruct (BatchWrite_law (base c) (map_order (cacheCoins c)) (hashBlock c)) as (b & -> & Hb' & Hbest & Hu); [done|done| |done| |].
  { rewrite Hp. apply NoDup_fst_map_to_list. }
  { intros o e Hin Hf. rewrite Hp, elem_of_map_to_list in Hin. by apply (He o e). }
  cbn [rbind fst snd]. eexists. split; [done|]. split_and!; [by split|done|done| | |].
  - unfold cache_best. cbn [hashBlock base]. by rewrite Hh.
  - intros p. cbn. rewrite Hu. apply apply_entries_overlay; [done|done|]. intros q coin. by apply utxo_unspent.
  - intros p. unfold cache_utxo at 1, overlay. cbn. rewrite lookup_empty, Hu. apply apply_entries_overlay; [done|done|].
    intros q coin. by apply utxo_unspent.
Qed.

Lemma Uncache_spec c o : cache_ok c → same_cache c (Uncache c o) ∧
  (∀ e, cacheCoins c !! o = Some e → e_flags e ≠ 0 → Uncache c o = c).
Proof.
  intros [Hb He]. unfold Uncache. destruct (cacheCoins c !! o) as [e|] eqn:Heq; [|split; [by apply same_cache_refl|done]].
  destruct (Z.eqb_spec (e_flags e) 0) as [H0|H0].
  - split; [|by intros e' [= <-] ?]. destruct (He o e Heq) as (_ & _ & Hcl). rewrite H0 in Hcl. specialize (Hcl eq_refl).
    split_and!; [split; [done|by apply entries_ok_delete]| |done|done|done].
    intros p. unfold cache_utxo. cbn. rewrite overlay_delete. case_decide; [subst|done]. unfold overlay. rewrite Heq, Hcl.
    symmetry. apply live_unspent. by apply (utxo_unspent (base c) o).
  - split; [by apply same_cache_refl|]. done.
Qed.
End cache_laws.

(** ** The database is a lawful view, and a crash loses nothing *)

Section database_laws.
  Context `{Limit : BatchLimit}.
  Implicit Types (d : coins_db) (o : COutPoint).

Definition entry_ops (es : entries) : list db_op := concat (map (fun p => entry_op p.1 p.2) es).

Lemma entry_batches_concat es final : ∀ batch, concat (entry_batches batch es final) = batch ++ entry_ops es ++ final.
Proof.
  unfold entry_ops. induction es as [|[o e] es IH]; intros batch; cbn; [by rewrite app_nil_r|].
  destruct (batch_full (batch ++ entry_op o e)); cbn; rewrite IH; by rewrite <- !app_assoc.
Qed.

Lemma WriteBatch_concat bs : ∀ d, fold_left WriteBatch bs d = WriteBatch d (concat bs).
Proof. unfold WriteBatch. induction bs as [|b bs IH]; intros d; cbn; [done|]. by rewrite IH, fold_left_app. Qed.

(** Writing entries touches coins only. *)
Lemma write_entry_ops es : ∀ d, ∃ m, WriteBatch d (entry_ops es) = mkCoinsDB m (db_best d) (db_heads d) ∧
  (NoDup es.*1 → ∀ o, m !! o = apply_entries es (fun p => db_coins d !! p) o).
Proof.
  induction es as [|[o e] es IH]; intros d.
  - exists (db_coins d). split; [by destruct d|done].
  - change (entry_ops ((o, e) :: es)) with (entry_op o e ++ entry_ops es). unfold WriteBatch. rewrite fold_left_app.
    set (d1 := fold_left apply_op (entry_op o e) d).
    assert (db_best d1 = db_best d ∧ db_heads d1 = db_heads d ∧
      ∀ p, db_coins d1 !! p = if decide (p = o) then (if flag_set (e_flags e) DIRTY then live (e_coin e) else db_coins d !! o)
                              else db_coins d !! p) as (H1 & H2 & H3).
    { subst d1. unfold entry_op, live. destruct (flag_set (e_flags e) DIRTY); cbn [fold_left]; [destruct (IsSpent (e_coin e)); cbn|].
      - split_and!; [done..|]. intros p. case_decide; [subst; apply lookup_delete_eq|by apply lookup_delete_ne].
      - split_and!; [done..|]. intros p. case_decide; [subst; apply lookup_insert_eq|by apply lookup_insert_ne].
      - split_and!; [done..|]. intros p. by case_decide; [subst|]. }
    destruct (IH d1) as (m & Hm & Hl). exists m. unfold WriteBatch in Hm. rewrite Hm, H1, H2. split; [done|].
    cbn. intros [Hni Hnd]%NoDup_cons p. rewrite Hl by done. unfold apply_entries. cbn [find_entry]. case_decide as Hp; subst.
    + rewrite find_entry_None by done. by rewrite H3, decide_True.
    + rewrite H3. by rewrite decide_False by congruence.
Qed.

(** The old best block, as [BatchWrite] finds it. *)
Definition old_tip_of d (h : uint256) : result coins_error uint256 :=
  if blob_IsNull (DB_GetBestBlock d) then
    match GetHeadBlocks d with
    | [new_head; old_head] => if blob_eqb new_head h then Ok old_head else Err AssertionFailed
    | _ => Ok (DB_GetBestBlock d)
    end
  else Ok (DB_GetBestBlock d).

Lemma DB_batches_ok d es h old : blob_IsNull h = false → old_tip_of d h = Ok old →
  DB_batches d es h = Ok (entry_batches [EraseBest; WriteHeads [h; old]] es [EraseHeads; WriteBest h]).
Proof. intros Hh Ho. unfold DB_batches. rewrite Hh. unfold old_tip_of in Ho. by rewrite Ho. Qed.

(** A complete write. *)
Lemma DB_BatchWrite_ok d es h old : blob_IsNull h = false → old_tip_of d h = Ok old → NoDup es.*1 →
  ∃ m, DB_BatchWrite d es h = Ok (true, mkCoinsDB m (Some h) []) ∧ ∀ o, m !! o = apply_entries es (fun p => db_coins d !! p) o.
Proof.
  intros Hh Ho Hnd. unfold DB_BatchWrite. rewrite (DB_batches_ok d es h old) by done. cbn [rbind].
  rewrite WriteBatch_concat, entry_batches_concat. unfold WriteBatch. rewrite !fold_left_app. cbn [fold_left].
  destruct (write_entry_ops es (apply_op (apply_op d EraseBest) (WriteHeads [h; old]))) as (m & Hm & Hl).
  exists m. unfold WriteBatch in Hm. rewrite Hm. split; [done|]. intros o. by rewrite Hl.
Qed.

(** The batches that are on disk after [k] of them: a prefix of the entries. *)
Lemma entry_batches_take es final k : ∀ batch, (0 < k)%nat →
  concat (take k (entry_batches batch es final)) = batch ++ entry_ops es ++ final ∨
  ∃ es1 es2, es = es1 ++ es2 ∧ concat (take k (entry_batches batch es final)) = batch ++ entry_ops es1.
Proof.
  unfold entry_ops. revert k. induction es as [|[o e] es IH]; intros [|k] batch Hk; try lia; cbn.
  - left. by rewrite take_nil, app_nil_r.
  - destruct (batch_full (batch ++ entry_op o e)).
    + cbn. destruct k as [|k].
      * right. exists [(o, e)], es. cbn. by rewrite !app_nil_r.
      * destruct (IH (S k) [] ltac:(lia)) as [->|(es1 & es2 & -> & ->)].
        -- left. cbn. by rewrite <- !app_assoc.
        -- right. exists ((o, e) :: es1), es2. split; [done|]. cbn. by rewrite <- !app_assoc.
    + destruct (IH (S k) (batch ++ entry_op o e) ltac:(lia)) as [->|(es1 & es2 & -> & ->)].
      * left. by rewrite <- !app_assoc.
      * right. exists ((o, e) :: es1), es2. split; [done|]. cbn. by rewrite <- !app_assoc.
Qed.

Lemma apply_entries_prefix es1 es2 U o : NoDup (es1 ++ es2).*1 →
  apply_entries es1 U o = U o ∨ apply_entries es1 U o = apply_entries (es1 ++ es2) U o.
Proof.
  intros Hnd. unfold apply_entries. assert (find_entry (es1 ++ es2) o = match find_entry es1 o with Some e => Some e | None => find_entry es2 o end) as ->.
  { clear. induction es1 as [|[p e] es1 IH]; [done|]. cbn. by case_decide. }
  destruct (find_entry es1 o); auto.
Qed.

Definition db_ok d : Prop := ∀ o c, db_coins d !! o = Some c → IsSpent c = false.

Lemma apply_entries_unspent es U o c : (∀ p c, U p = Some c → IsSpent c = false) → apply_entries es U o = Some c → IsSpent c = false.
Proof.
  intros HU. unfold apply_entries, live. destruct (find_entry es o) as [e|]; [|apply HU].
  destruct (flag_set (e_flags e) DIRTY); [|apply HU]. destruct (IsSpent (e_coin e)) eqn:Hs; [done|]. by intros [= <-].
Qed.

Lemma old_tip_consistent d h : db_heads d = [] → old_tip_of d h = Ok (DB_GetBestBlock d).
Proof. intros Hh. unfold old_tip_of, GetHeadBlocks. rewrite Hh. by destruct (blob_IsNull _). Qed.

#[global] Instance CCoinsViewDB_laws : CoinsViewLaws coins_db.
Proof.
  refine {| view_ok := db_ok; utxo d o := db_coins d !! o; best := DB_GetBestBlock;
            writable d h := is_ok (old_tip_of d h) = true |}.
  - intros d o c H. apply H.
  - intros d o Hok. by exists d.
  - intros d o Hok. by exists d.
  - intros d Hok. by exists d.
  - intros d es h Hun Hwr Hnd Hnull _. cbn [BatchWrite CCoinsViewDB_view].
    destruct (old_tip_of d h) as [old|] eqn:Hold; [|done].
    destruct (DB_BatchWrite_ok d es h old) as (m & -> & Hm); [done..|].
    eexists. split; [done|]. split_and!; [|done|done]. intros o c. cbn. rewrite Hm. by apply apply_entries_unspent.
Defined.
End database_laws.

(** The state after a crash: nothing written, everything written, or marked as being
    between two best blocks with every coin old or new. *)
Lemma DB_crash_states `{BatchLimit} (d : coins_db) es h k old : blob_IsNull h = false → old_tip_of d h = Ok old → NoDup es.*1 →
  ∃ d' final, DB_crash d es h k = Ok d' ∧ DB_BatchWrite d es h = Ok (true, final) ∧
    (d' = d ∨ d' = final ∨
     (db_best d' = None ∧ db_heads d' = [h; old] ∧
      ∀ o, db_coins d' !! o = db_coins d !! o ∨ db_coins d' !! o = db_coins final !! o)).
Proof.
  intros Hh Ho Hnd. destruct (DB_BatchWrite_ok d es h old Hh Ho Hnd) as (m & Hw & Hm).
  unfold DB_crash. rewrite (DB_batches_ok d es h old) by done. cbn [rbind]. do 2 eexists. split; [done|]. split; [done|].
  rewrite WriteBatch_concat. destruct (decide (k = 0%nat)) as [->|Hk]; [by left|]. right.
  destruct (entry_batches_take es [EraseHeads; WriteBest h] k [EraseBest; WriteHeads [h; old]] ltac:(lia))
    as [Hall|(es1 & es2 & -> & Hpre)].
  - left. rewrite Hall, <- entry_batches_concat, <- WriteBatch_concat. unfold DB_BatchWrite in Hw.
    rewrite (DB_batches_ok d es h old) in Hw by done. cbn [rbind] in Hw. by injection Hw.
  - right. rewrite Hpre. unfold WriteBatch. rewrite fold_left_app. cbn [fold_left].
    destruct (write_entry_ops es1 (apply_op (apply_op d EraseBest) (WriteHeads [h; old]))) as (m1 & Hm1 & Hl1).
    unfold WriteBatch in Hm1. rewrite Hm1. split_and!; [done|done|]. intros o. cbn [db_coins]. rewrite Hm.
    rewrite Hl1 by (rewrite fmap_app in Hnd; by apply NoDup_app in Hnd as [? _]). by apply apply_entries_prefix.
Qed.

(** ** Instances for concrete runs *)

#[global] Instance map_to_list_order : MapOrder := {| map_order := map_to_list; map_order_perm m := reflexivity _ |}.
#[global] Instance no_limit : BatchLimit := {| batch_full _ := false |}.
#[global] Instance no_assets : AssetSpending () := {| TrySpendCoin a _ _ := Ok (true, a) |}.

Definition empty_db : coins_db := mkCoinsDB ∅ None [].
Definition coin_example : Coin := Coin_make (mkTxOut 5000 [OP_1]) 7 false.
Definition outpoint_example : COutPoint := mkOutPoint (replicate 32 1) 0.
Definition hash_example : uint256 := replicate 32 2.

(** ** Properties *)

(** C14: a cache over any view that keeps its promises keeps them too, so a stack of
    caches is one map of unspent coins: [GetCoin] and [HaveCoin] read it, [AddCoin]
    sets one coin (when the caller does not hide an overwrite), [SpendCoin] removes
    one and returns it, and [Flush] moves exactly this map to the base and leaves an
    empty cache, in whatever order the entries are walked. *)
Theorem coins_cache_refines {V : Type} {View : CCoinsView V} {Laws : CoinsViewLaws V} {A : Type} `{AssetSpending A}
    `{MapOrder} (c : CCoinsViewCache V) o : view_ok c →
  (∃ c', GetCoin c o = (utxo c o, c') ∧ view_ok c' ∧ ∀ p, utxo c' p = utxo c p) ∧
  (∃ c', HaveCoin c o = (bool_decide (is_Some (utxo c o)), c') ∧ view_ok c' ∧ ∀ p, utxo c' p = utxo c p) ∧
  (∀ coin po, IsSpent coin = false → IsUnspendable (scriptPubKey (c_out coin)) = Ok false → (po = false → utxo c o = None) →
     ∃ c', AddCoin c o coin po = Ok c' ∧ view_ok c' ∧ ∀ p, utxo c' p = if decide (p = o) then Some coin else utxo c p) ∧
  (∃ found coin c', SpendCoin (A := A) false c o None = Ok (found, coin, c', None) ∧ view_ok c' ∧ live coin = utxo c o ∧
     (is_Some (utxo c o) → found = true) ∧ ∀ p, utxo c' p = if decide (p = o) then None else utxo c p) ∧
  (writable (base c) (hashBlock c) → blob_IsNull (hashBlock c) = false → ∃ c', Flush c = Ok (true, c') ∧ view_ok c' ∧ cacheCoins c' = ∅ ∧
     best (base c') = hashBlock c ∧ (∀ p, utxo (base c') p = utxo c p) ∧ ∀ p, utxo c' p = utxo c p).
Proof.
  intros Hok. split_and!.
  - destruct (Cache_GetCoin_spec c o Hok) as (c' & Hg & Hs & Hu & _). by exists c'.
  - destruct (Cache_HaveCoin_spec c o Hok) as (c' & Hg & Hs & Hu & _). by exists c'.
  - intros coin po Hs Hu Hpo. destruct (AddCoin_spec c o coin po Hok Hs Hu Hpo) as (c' & Ha & Hc & _ & _ & Hut). by exists c'.
  - destruct (SpendCoin_spec (A := A) c o Hok) as (f & coin & c' & Hsp & Hc & _ & Hl & Hfd & _ & Hut). by exists f, coin, c'.
  - intros Hw Hh. destruct (Flush_spec c Hok Hw Hh) as (c' & Hf & Hc & He & Hb & _ & Hu & Hut). by exists c'.
Qed.

Lemma empty_db_ok : db_ok empty_db.
Proof. intros o c Hc. change (db_coins empty_db) with (∅ : gmap COutPoint Coin) in Hc. by rewrite lookup_empty in Hc. Qed.

Lemma coins_cache_refines_witness :
  ∃ c', AddCoin (Cache_new empty_db) outpoint_example coin_example false = Ok c' ∧ utxo c' outpoint_example = Some coin_example.
Proof.
  destruct (coins_cache_refines (A := ()) (Cache_new empty_db) outpoint_example) as (_ & _ & Hadd & _).
  { split; [exact empty_db_ok|]. intros o e He. change (cacheCoins (Cache_new empty_db)) with (∅ : CCoinsMap) in He.
    rewrite lookup_empty in He. discriminate He. }
  destruct (Hadd coin_example false) as (c' & H1 & _ & H2); [reflexivity|vm_compute; reflexivity|reflexivity|].
  exists c'. split; [exact H1|]. rewrite H2. by rewrite decide_True.
Defined.

(** C15: the coin database survives a crash between any two of the batches of a
    write: it is then unchanged, completely written, or has no best block but the new
    and the old one as head blocks, and every coin is in its old or its new state, so
    that the write can be finished by replaying the blocks between the two. *)
Theorem coins_crash_safe `{BatchLimit} (d : coins_db) es h k : db_heads d = [] → NoDup es.*1 → blob_IsNull h = false →
  ∃ d' final, DB_crash d es h k = Ok d' ∧ DB_BatchWrite d es h = Ok (true, final) ∧ db_best final = Some h ∧ db_heads final = [] ∧
    (∀ o, db_coins final !! o = apply_entries es (fun p => db_coins d !! p) o) ∧
    (d' = d ∨ d' = final ∨
     (db_best d' = None ∧ GetHeadBlocks d' = [h; DB_GetBestBlock d] ∧
      ∀ o, db_coins d' !! o = db_coins d !! o ∨ db_coins d' !! o = db_coins final !! o)).
Proof.
  intros Hh Hnd Hn. pose proof (old_tip_consistent d h Hh) as Ho.
  destruct (DB_crash_states d es h k _ Hn Ho Hnd) as (d' & final & Hc & Hw & Hcases).
  destruct (DB_BatchWrite_ok d es h _ Hn Ho Hnd) as (m & Hw' & Hm). rewrite Hw in Hw'. injection Hw' as ->.
  exists d', (mkCoinsDB m (Some h) []). by split_and!.
Qed.

Lemma coins_crash_safe_witness :
  let es := [(outpoint_example, mkEntry coin_example DIRTY)] in
  ∃ d' final, DB_crash empty_db es hash_example 1 = Ok d' ∧ DB_BatchWrite empty_db es hash_example = Ok (true, final) ∧
    db_best final = Some hash_example.
Proof.
  intros es. destruct (coins_crash_safe empty_db es hash_example 1 eq_refl) as (d' & final & H1 & H2 & H3 & _).
  - repeat constructor. intros H. by apply elem_of_nil in H.
  - reflexivity.
  - exists d', final. split; [exact H1|]. split; [exact H2|exact H3].
Defined.
