(* ===== verification/Chainstate.v ===== *)
(** * Blocks and the unspent coins: src/src/validation.cpp and coins.cpp

    How the transactions of a block change the set of unspent coins, how the changes are
    undone from the undo data, and how a database that was being written during a crash is
    brought to a block: [AddCoins], [RollforwardBlock] and the rolling forward of
    [ReplayBlocks], which the code calls without an asset cache, and the part that
    [UpdateCoins], [ApplyTxInUndo] and [DisconnectBlock] have on the coins ([update_coins],
    [undo_coin], [disconnect_txs]).  The functions themselves, with the asset cache, are in
    ConnectBlock.v and Disconnect.v.

    Undo data and blocks are arguments where the code reads them from disk.  The hash
    of a transaction is a parameter. *)

From stdpp Require Import gmap.
From S2P Require Import Prelude Serialize Transaction Script AssetTypes Coins.

Class TxHash := { tx_GetHash : CTransaction → uint256 }.

Inductive DisconnectResult := DISCONNECT_OK | DISCONNECT_UNCLEAN | DISCONNECT_FAILED.

#[global] Instance CTxOut_eq_dec : EqDecision CTxOut.
Proof. solve_decision. Defined.

Section chainstate.
  Context {V : Type} {View : CCoinsView V} {Hash : TxHash}.
  Abbreviation cache := (CCoinsViewCache V).
  Implicit Types (c : cache).

(** [SpendCoin(out, &coin)] without an asset cache *)
Definition spend c (o : COutPoint) : result coins_error (bool * Coin * cache) :=
  let? r := SpendCoin (A := ()) false c o None in Ok (fst r).

(** ** Adding a transaction *)

Fixpoint add_outputs c (txid : uint256) (outs : list CTxOut) (i nHeight : Z) (fCoinbase check : bool) : result coins_error cache :=
  match outs with
  | [] => Ok c
  | out :: outs =>
      let o := mkOutPoint txid (u32 i) in
      let '(overwrite, c) := if check then Cache_HaveCoin c o else (fCoinbase, c) in
      let? c := AddCoin c o (Coin_make out nHeight fCoinbase) overwrite in
      add_outputs c txid outs (i + 1) nHeight fCoinbase check
  end.
Definition AddCoins c (tx : CTransaction) (nHeight : Z) (check : bool) : result coins_error cache :=
  add_outputs c (tx_GetHash tx) (vout tx) 0 nHeight (IsCoinBase tx) check.

(** [UpdateCoins] on the coins: the spent ones, in the order of the inputs, are the undo data. *)
Fixpoint spend_inputs c (ins : list CTxIn) : result coins_error (list Coin * cache) :=
  match ins with
  | [] => Ok ([], c)
  | i :: ins =>
      let? r := spend c (prevout i) in
      let '(is_spent, coin, c) := r in
      if negb is_spent then Err AssertionFailed
      else let? r := spend_inputs c ins in Ok (coin :: fst r, snd r)
  end.
Definition update_coins c (tx : CTransaction) (nHeight : Z) : result coins_error (list Coin * cache) :=
  let? r := if IsCoinBase tx then Ok ([], c) else spend_inputs c (vin tx) in
  let? c := AddCoins (snd r) tx nHeight false in
  Ok (fst r, c).

(** The calls of [UpdateCoins] in [ConnectBlock], on the coins. *)
Fixpoint connect_txs c (txs : list CTransaction) (nHeight : Z) : result coins_error (list (list Coin) * cache) :=
  match txs with
  | [] => Ok ([], c)
  | tx :: txs =>
      let? r := update_coins c tx nHeight in
      let? r' := connect_txs (snd r) txs nHeight in
      Ok (fst r :: fst r', snd r')
  end.

(** ** Removing a transaction *)

(** [ApplyTxInUndo] on the coins. *)
Definition undo_coin (undo : Coin) c (out : COutPoint) : result coins_error (DisconnectResult * cache) :=
  let? _ := script_read (IsAssetScript (scriptPubKey (c_out undo))) in
  let '(have, c) := Cache_HaveCoin c out in
  let fClean := negb have in
  let '(restored, c) :=
    if c_nHeight undo =? 0 then
      let '(alternate, c) := AccessByTxid c (op_hash out) in
      (if negb (IsSpent alternate) then Some (mkCoin (c_out undo) (c_fCoinBase alternate) (c_nHeight alternate)) else None, c)
    else (Some undo, c) in
  match restored with
  | None => Ok (DISCONNECT_FAILED, c)
  | Some undo =>
      let? c := AddCoin c out undo (negb fClean) in
      Ok (if fClean then DISCONNECT_OK else DISCONNECT_UNCLEAN, c)
  end.

(** Check that all outputs are available and match the outputs in the block. *)
Fixpoint spend_outputs c (txid : uint256) (outs : list CTxOut) (i nHeight : Z) (is_coinbase fClean : bool)
    : result coins_error (bool * cache) :=
  match outs with
  | [] => Ok (fClean, c)
  | out :: outs =>
      let? unspendable := script_read (IsUnspendable (scriptPubKey out)) in
      if unspendable then spend_outputs c txid outs (i + 1) nHeight is_coinbase fClean
      else
        let? r := spend c (mkOutPoint txid (u32 i)) in
        let '(is_spent, coin, c) := r in
        let mismatch := negb is_spent || negb (bool_decide (out = c_out coin)) || negb (nHeight =? c_nHeight coin)
                        || negb (Bool.eqb is_coinbase (c_fCoinBase coin)) in
        spend_outputs c txid outs (i + 1) nHeight is_coinbase (if mismatch then false else fClean)
  end.

(** Restore the inputs from the last to the first; [None] is [DISCONNECT_FAILED]. *)
Fixpoint restore_inputs c (ins : list (CTxIn * Coin)) (fClean : bool) : result coins_error (option bool * cache) :=
  match ins with
  | [] => Ok (Some fClean, c)
  | (i, undo) :: ins =>
      let? r := undo_coin undo c (prevout i) in
      match fst r with
      | DISCONNECT_FAILED => Ok (None, snd r)
      | res => restore_inputs (snd r) ins (fClean && match res with DISCONNECT_UNCLEAN => false | _ => true end)
      end
  end.

(** One transaction; [txundo] is [None] for the first of the block. *)
Definition disconnect_tx c (tx : CTransaction) (txundo : option (list Coin)) (nHeight : Z) (fClean : bool)
    : result coins_error (option bool * cache) :=
  let? r := spend_outputs c (tx_GetHash tx) (vout tx) 0 nHeight (IsCoinBase tx) fClean in
  match txundo with
  | None => Ok (Some (fst r), snd r)
  | Some vprevout =>
      if negb (Nat.eqb (length vprevout) (length (vin tx))) then Ok (None, snd r)
      else restore_inputs (snd r) (rev (zip (vin tx) vprevout)) (fst r)
  end.

Fixpoint disconnect_txs c (txs : list (CTransaction * option (list Coin))) (nHeight : Z) (fClean : bool)
    : result coins_error (option bool * cache) :=
  match txs with
  | [] => Ok (Some fClean, c)
  | (tx, txundo) :: txs =>
      let? r := disconnect_tx c tx txundo nHeight fClean in
      match fst r with
      | None => Ok r
      | Some fClean => disconnect_txs (snd r) txs nHeight fClean
      end
  end.

(** ** Rolling forward *)

Fixpoint spend_all c (ins : list CTxIn) : result coins_error cache :=
  match ins with
  | [] => Ok c
  | i :: ins => let? r := spend c (prevout i) in spend_all (snd r) ins
  end.
Fixpoint RollforwardBlock c (block : list CTransaction) (nHeight : Z) : result coins_error cache :=
  match block with
  | [] => Ok c
  | tx :: block =>
      let? c := if IsCoinBase tx then Ok c else spend_all c (vin tx) in
      let? c := AddCoins c tx nHeight true in
      RollforwardBlock c block nHeight
  end.

(** [ReplayBlocks] where the old tip is an ancestor of the new one: the blocks after
    the old tip with their heights, then the new tip's hash. *)
Fixpoint rollforward_blocks c (blocks : list (list CTransaction * Z)) : result coins_error cache :=
  match blocks with
  | [] => Ok c
  | (block, nHeight) :: blocks => let? c := RollforwardBlock c block nHeight in rollforward_blocks c blocks
  end.
Definition replay_forward `{MapOrder} (view : V) (blocks : list (list CTransaction * Z)) (newTip : uint256)
    : result coins_error cache :=
  let? c := rollforward_blocks (Cache_new view) blocks in
  let? r := Flush (SetBestBlock c newTip) in
  Ok (snd r).
End chainstate.

Lemma elem_of_rev {A} (x : A) l : x ∈ rev l ↔ x ∈ l.
Proof. by rewrite !list_elem_of_In, <- in_rev. Qed.

Lemma Forall2_impl_mem {A B} (P Q : A → B → Prop) l k : Forall2 P l k → (∀ x y, x ∈ l → P x y → Q x y) → Forall2 Q l k.
Proof.
  induction 1 as [|x y l k Hxy _ IH]; intros Hi; constructor; [apply Hi; [by left|done]|]. apply IH. intros. apply Hi; [by right|done].
Qed.

(** ** The blocks' effect on a map of coins *)

Abbreviation utxo_map := (COutPoint → option Coin).

Definition spendable (out : CTxOut) : bool :=
  match IsUnspendable (scriptPubKey out) with Ok b => negb b | Err _ => false end.
(** Outputs that the code classifies without reading past the script, with a value. *)
Definition out_ok (out : CTxOut) : Prop := nValue out ≠ -1 ∧ is_ok (IsUnspendable (scriptPubKey out)) = true.

(** The coin created at an outpoint by the outputs from index [i] on. *)
Definition created_from (txid : uint256) (outs : list CTxOut) (i nHeight : Z) (fCoinbase : bool) : utxo_map := fun p =>
  if decide (op_hash p = txid ∧ i <= op_n p) then
    match outs !! Z.to_nat (op_n p - i) with
    | Some out => if spendable out then Some (Coin_make out nHeight fCoinbase) else None
    | None => None
    end
  else None.
Definition overwrite_with (new U : utxo_map) : utxo_map := fun p => match new p with Some c => Some c | None => U p end.
Definition remove_all (ps : list COutPoint) (U : utxo_map) : utxo_map := fun p => if decide (p ∈ ps) then None else U p.

Definition prevouts (tx : CTransaction) : list COutPoint := if IsCoinBase tx then [] else map prevout (vin tx).
Definition created `{TxHash} (tx : CTransaction) (nHeight : Z) : utxo_map :=
  created_from (tx_GetHash tx) (vout tx) 0 nHeight (IsCoinBase tx).
Definition connect_map `{TxHash} (nHeight : Z) (U : utxo_map) (tx : CTransaction) : utxo_map :=
  overwrite_with (created tx nHeight) (remove_all (prevouts tx) U).

Lemma created_from_cons txid out outs i nHeight cb p : 0 <= i →
  created_from txid (out :: outs) i nHeight cb p =
  if decide (p = mkOutPoint txid i) then (if spendable out then Some (Coin_make out nHeight cb) else None)
  else created_from txid outs (i + 1) nHeight cb p.
Proof.
  intros Hi. unfold created_from. destruct (decide (p = mkOutPoint txid i)) as [->|Hne].
  - cbn [op_hash op_n]. rewrite decide_True by (split; [done|lia]). by rewrite Z.sub_diag.
  - destruct (decide (op_hash p = txid ∧ i <= op_n p)) as [[Hh Hn]|Hno].
    + assert (op_n p ≠ i) by (intros Heq; apply Hne; destruct p; cbn in *; congruence).
      rewrite (decide_True (P := op_hash p = txid ∧ i + 1 <= op_n p)) by (split; [done|lia]).
      replace (Z.to_nat (op_n p - i)) with (S (Z.to_nat (op_n p - (i + 1)))) by lia. done.
    + rewrite decide_False; [done|]. intros [? ?]. apply Hno. split; [done|lia].
Qed.

Lemma created_from_past txid outs i nHeight cb n : n < i → created_from txid outs i nHeight cb (mkOutPoint txid n) = None.
Proof. intros Hn. unfold created_from. rewrite decide_False; [done|]. cbn. lia. Qed.

Lemma remove_nil U p : remove_all [] U p = U p.
Proof. unfold remove_all. rewrite decide_False; [done|]. apply not_elem_of_nil. Qed.

Lemma remove_one o U p : remove_all [o] U p = if decide (p = o) then None else U p.
Proof.
  unfold remove_all. destruct (decide (p = o)) as [->|Hne]; [by rewrite decide_True by (by left)|].
  rewrite decide_False; [done|]. by rewrite list_elem_of_singleton.
Qed.

Lemma spendable_ok out : spendable out = true → IsUnspendable (scriptPubKey out) = Ok false.
Proof. unfold spendable. destruct (IsUnspendable (scriptPubKey out)) as [[]|]; done. Qed.
Lemma unspendable_ok out : out_ok out → spendable out = false → IsUnspendable (scriptPubKey out) = Ok true.
Proof. intros [_ Hok]. unfold spendable. destruct (IsUnspendable (scriptPubKey out)) as [[]|]; done. Qed.

Section laws.
  Context {V : Type} {View : CCoinsView V} {Laws : CoinsViewLaws V} {Hash : TxHash}.
  Implicit Types (c : CCoinsViewCache V) (U : utxo_map).

(** A valid cache that stands for the map. *)
Definition holds c U : Prop := cache_ok c ∧ ∀ p, cache_utxo c p = U p.
(** Steps keep the base writable and the best block. *)
Definition step_ok c c' : Prop := cache_best c' = cache_best c ∧ ∀ h, writable (base c) h → writable (base c') h.

Lemma step_refl c : step_ok c c.
Proof. split; auto. Qed.
Lemma step_trans c1 c2 c3 : step_ok c1 c2 → step_ok c2 c3 → step_ok c1 c3.
Proof. intros [H1 H2] [H3 H4]. split; [congruence|auto]. Qed.
Lemma holds_ext c U U' : (∀ p, U p = U' p) → holds c U → holds c U'.
Proof. intros He [Hok Hu]. split; [done|]. intros p. by rewrite Hu. Qed.
Lemma same_holds c c' U : same_cache c c' → holds c U → holds c' U ∧ step_ok c c'.
Proof.
  intros (Hok & Hu & Hb & _ & Hw) [_ HU]. split; [|done]. split; [done|]. intros p. by rewrite Hu.
Qed.

Lemma spend_spec c U o : holds c U →
  ∃ f coin c', spend c o = Ok (f, coin, c') ∧ live coin = U o ∧ (is_Some (U o) → f = true) ∧
    holds c' (remove_all [o] U) ∧ step_ok c c'.
Proof.
  intros [Hok HU]. destruct (SpendCoin_spec (A := ()) c o Hok) as (f & coin & c' & Hs & Hc & Hb & Hl & Hf & Hw & Hu).
  unfold spend. rewrite Hs. cbn [rbind fst]. exists f, coin, c'. rewrite <- HU. split_and!; [done|done|done| |done].
  split; [done|]. intros p. by rewrite Hu, remove_one, HU.
Qed.

Lemma add_coin_spec c U o coin po : holds c U → IsSpent coin = false → IsUnspendable (scriptPubKey (c_out coin)) = Ok false →
  (po = false → U o = None) →
  ∃ c', AddCoin c o coin po = Ok c' ∧ holds c' (fun p => if decide (p = o) then Some coin else U p) ∧ step_ok c c'.
Proof.
  intros [Hok HU] Hs Hu Hpo. destruct (AddCoin_spec c o coin po Hok Hs Hu) as (c' & Ha & Hc & Hb & Hbase & Hut).
  { intros ->. rewrite HU. auto. }
  exists c'. split_and!; [done| |split; [done|by rewrite Hbase]]. split; [done|]. intros p. by rewrite Hut, HU.
Qed.

Lemma have_spec c U o : holds c U →
  ∃ c', Cache_HaveCoin c o = (bool_decide (is_Some (U o)), c') ∧ holds c' U ∧ step_ok c c'.
Proof.
  intros HU. destruct (Cache_HaveCoin_spec c o (proj1 HU)) as (c' & Hh & Hs). exists c'. rewrite Hh.
  destruct HU as [Hok HU]. rewrite HU. split; [done|]. by apply same_holds.
Qed.

Lemma add_outputs_spec txid outs nHeight cb check : ∀ c U i, holds c U → Forall out_ok outs →
  0 <= i → i + Z.of_nat (length outs) <= 2 ^ 32 →
  (check = true ∨ cb = true ∨ ∀ n, i <= n → U (mkOutPoint txid n) = None) →
  ∃ c', add_outputs c txid outs i nHeight cb check = Ok c' ∧
    holds c' (overwrite_with (created_from txid outs i nHeight cb) U) ∧ step_ok c c'.
Proof.
  induction outs as [|out outs IH]; intros c U i HU Hok Hi Hlen Hfresh; cbn [add_outputs].
  - exists c. split_and!; [done| |apply step_refl]. eapply holds_ext, HU. intros p. unfold overwrite_with, created_from.
    by case_decide.
  - apply Forall_cons in Hok as [Hout Hok]. cbn [length] in Hlen.
    assert (u32 i = i) as -> by (apply uwrap_id; unfold ufits; lia). set (o := mkOutPoint txid i).
    assert (∃ po c1, (if check then Cache_HaveCoin c o else (cb, c)) = (po, c1) ∧ holds c1 U ∧ step_ok c c1 ∧
      (po = false → U o = None)) as (po & c1 & -> & HU1 & Hs1 & Hpo).
    { destruct check.
      - destruct (have_spec c U o HU) as (c1 & -> & H1 & H2). do 2 eexists. split_and!; [done..|].
        intros Hn%bool_decide_eq_false. by apply eq_None_not_Some.
      - exists cb, c. split_and!; [done|done|apply step_refl|]. intros ->. destruct Hfresh as [?|[?|Hf]]; try done.
        apply Hf. lia. }
    assert (∃ c2, AddCoin c1 o (Coin_make out nHeight cb) po = Ok c2 ∧
      holds c2 (fun p => if decide (p = o) then (if spendable out then Some (Coin_make out nHeight cb) else U p) else U p) ∧
      step_ok c1 c2) as (c2 & -> & HU2 & Hs2).
    { assert (IsSpent (Coin_make out nHeight cb) = false) as Hns by (apply Z.eqb_neq; by destruct Hout).
      destruct (spendable out) eqn:Hsp.
      - destruct (add_coin_spec c1 U o (Coin_make out nHeight cb) po HU1 Hns) as (c2 & Ha & H2 & H3); [by apply spendable_ok|done|].
        by exists c2.
      - exists c1. unfold AddCoin. rewrite Hns. cbn [c_out Coin_make]. rewrite (unspendable_ok out Hout Hsp). cbn.
        split_and!; [done| |apply step_refl]. eapply holds_ext, HU1. intros p. by case_decide. }
    cbn [rbind]. destruct (IH c2 _ (i + 1) HU2 Hok) as (c3 & -> & HU3 & Hs3); [lia|lia| |].
    { destruct Hfresh as [?|[?|Hf]]; [auto|auto|]. right. right. intros n Hn. rewrite decide_False; [apply Hf; lia|].
      intros [= ->]. lia. }
    exists c3. split_and!; [done| |eauto using step_trans]. eapply holds_ext, HU3. intros p. unfold overwrite_with.
    rewrite created_from_cons by lia. fold o. destruct (decide (p = o)) as [->|Hne]; [|done].
    subst o. rewrite created_from_past by lia. by destruct (spendable out).
Qed.

Lemma spend_inputs_spec ins : ∀ c U, holds c U → NoDup (map prevout ins) → Forall (fun i => is_Some (U (prevout i))) ins →
  ∃ coins c', spend_inputs c ins = Ok (coins, c') ∧ Forall2 (fun i coin => U (prevout i) = Some coin) ins coins ∧
    holds c' (remove_all (map prevout ins) U) ∧ step_ok c c'.
Proof.
  induction ins as [|i ins IH]; intros c U HU Hnd Hlive; cbn [spend_inputs].
  - exists [], c. split_and!; [done|constructor| |apply step_refl]. eapply holds_ext, HU. intros p. symmetry. apply remove_nil.
  - cbn in Hnd. apply NoDup_cons in Hnd as [Hni Hnd]. apply Forall_cons in Hlive as [Hi Hlive].
    destruct (spend_spec c U (prevout i) HU) as (f & coin & c1 & -> & Hl & Hf & HU1 & Hs1). cbn [rbind]. rewrite (Hf Hi). cbn [negb].
    assert (∀ j, j ∈ ins → prevout j ≠ prevout i) as Hdiff.
    { intros j Hj Heq. apply Hni. rewrite <- Heq. by apply list_elem_of_fmap_2. }
    destruct (IH c1 _ HU1 Hnd) as (coins & c2 & -> & Hcoins & HU2 & Hs2).
    { rewrite Forall_forall in *. intros j Hj. rewrite remove_one, decide_False by auto. by apply Hlive. }
    cbn [rbind fst snd]. exists (coin :: coins), c2. split_and!; [done| | |eauto using step_trans].
    + constructor.
      * destruct Hi as [coin' Hi]. rewrite Hi in *. unfold live in Hl. by destruct (IsSpent coin).
      * eapply Forall2_impl_mem; [exact Hcoins|]. intros j coin' Hj. cbn. by rewrite remove_one, decide_False by auto.
    + eapply holds_ext, HU2. intros p. cbn [map]. unfold remove_all at 1. rewrite remove_one. unfold remove_all.
      destruct (decide (p = prevout i)) as [->|Hne].
      * rewrite (decide_True (P := prevout i ∈ prevout i :: map prevout ins)) by (by left). by case_decide.
      * destruct (decide (p ∈ map prevout ins)) as [Hin|Hnin].
        -- by rewrite decide_True by (by right).
        -- rewrite decide_False; [done|]. rewrite elem_of_cons. naive_solver.
Qed.

(** ** Lemmas: connecting *)

Definition outputs_ok (tx : CTransaction) : Prop := Forall out_ok (vout tx) ∧ Z.of_nat (length (vout tx)) <= 2 ^ 32.
(** The inputs are distinct unspent coins and none of the outputs exists yet. *)
Definition tx_connects U (tx : CTransaction) : Prop :=
  outputs_ok tx ∧ NoDup (prevouts tx) ∧ Forall (fun o => is_Some (U o)) (prevouts tx) ∧
  ∀ n, U (mkOutPoint (tx_GetHash tx) n) = None.

(** The undo data of a transaction: the coins of its inputs. *)
Definition undo_of U (tx : CTransaction) (coins : list Coin) : Prop :=
  Forall2 (fun o coin => U o = Some coin) (prevouts tx) coins.

Lemma update_coins_spec c U tx nHeight : holds c U → tx_connects U tx →
  ∃ coins c', update_coins c tx nHeight = Ok (coins, c') ∧ undo_of U tx coins ∧
    holds c' (connect_map nHeight U tx) ∧ step_ok c c'.
Proof.
  intros HU ([Hout Hlen] & Hnd & Hlive & Hfresh). unfold update_coins, AddCoins, undo_of, connect_map, created, prevouts in *.
  assert (∃ coins c1, (if IsCoinBase tx then Ok ([], c) else spend_inputs c (vin tx)) = Ok (coins, c1) ∧
    Forall2 (fun o coin => U o = Some coin) (if IsCoinBase tx then [] else map prevout (vin tx)) coins ∧
    holds c1 (remove_all (if IsCoinBase tx then [] else map prevout (vin tx)) U) ∧ step_ok c c1)
    as (coins & c1 & -> & Hundo & HU1 & Hs1).
  { destruct (IsCoinBase tx).
    - exists [], c. split_and!; [done|constructor| |apply step_refl]. eapply holds_ext, HU. intros p. symmetry. apply remove_nil.
    - destruct (spend_inputs_spec (vin tx) c U HU Hnd) as (coins & c1 & -> & Hc & H1 & H2); [by rewrite Forall_map in Hlive|].
      exists coins, c1. split_and!; [done| |done|done]. by rewrite Forall2_fmap_l. }
  cbn [rbind fst snd].
  destruct (add_outputs_spec (tx_GetHash tx) (vout tx) nHeight (IsCoinBase tx) false c1 _ 0 HU1 Hout) as (c2 & -> & HU2 & Hs2);
    [lia|lia| |].
  { right. right. intros n _. unfold remove_all. case_decide; [done|apply Hfresh]. }
  cbn [rbind]. exists coins, c2. split_and!; [done|done|done|eauto using step_trans].
Qed.

(** ** Lemmas: disconnecting *)

(** Coins that can be put back: unspent, spendable, classified, with a height. *)
Definition restorable (coin : Coin) : Prop :=
  IsSpent coin = false ∧ IsUnspendable (scriptPubKey (c_out coin)) = Ok false ∧
  is_ok (IsAssetScript (scriptPubKey (c_out coin))) = true ∧ c_nHeight coin ≠ 0.
Definition utxo_valid U : Prop := ∀ o coin, U o = Some coin → restorable coin.

Lemma unspendable_classified s b : IsUnspendable s = Ok b → b = false → is_ok (IsAssetScript s) = true.
Proof.
  unfold IsUnspendable, GetAssetAmountFromScript. intros H ->. repeat (case_match; [done|]).
  by destruct (IsAssetScript s).
Qed.

Lemma created_restorable tx nHeight o coin : outputs_ok tx → 0 < nHeight < 2 ^ 31 → created tx nHeight o = Some coin → restorable coin.
Proof.
  intros [Hout _] Hh. unfold created, created_from. case_decide; [|done].
  destruct (vout tx !! Z.to_nat (op_n o - 0)) as [out|] eqn:Ho; [|done]. destruct (spendable out) eqn:Hsp; [|done]. intros [= <-].
  pose proof (proj1 (Forall_lookup _ _) Hout _ _ Ho) as [Hv _]. pose proof (spendable_ok _ Hsp) as Hu.
  split_and!; cbn; [by apply Z.eqb_neq|done|by eapply unspendable_classified|].
  rewrite uwrap_id by (unfold ufits; lia). lia.
Qed.

Lemma connect_map_valid U tx nHeight : outputs_ok tx → 0 < nHeight < 2 ^ 31 → utxo_valid U → utxo_valid (connect_map nHeight U tx).
Proof.
  intros Hout Hh HU o coin. unfold connect_map, overwrite_with, remove_all.
  destruct (created tx nHeight o) as [coin'|] eqn:Hc; [intros [= <-]; by eapply created_restorable|].
  case_decide; [done|apply HU].
Qed.

Lemma spend_outputs_spec txid outs nHeight cb fClean : 0 <= nHeight < 2 ^ 31 → ∀ c W i, holds c W → Forall out_ok outs →
  0 <= i → i + Z.of_nat (length outs) <= 2 ^ 32 →
  (∀ p coin, created_from txid outs i nHeight cb p = Some coin → W p = Some coin) →
  ∃ c', spend_outputs c txid outs i nHeight cb fClean = Ok (fClean, c') ∧
    holds c' (fun p => match created_from txid outs i nHeight cb p with Some _ => None | None => W p end) ∧ step_ok c c'.
Proof.
  intros Hh. induction outs as [|out outs IH]; intros c W i HW Hok Hi Hlen Hcr; cbn [spend_outputs].
  - exists c. split_and!; [done| |apply step_refl]. eapply holds_ext, HW. intros p. unfold created_from. by case_decide.
  - apply Forall_cons in Hok as [Hout Hok]. cbn [length] in Hlen. assert (u32 i = i) as -> by (apply uwrap_id; unfold ufits; lia).
    set (o := mkOutPoint txid i) in *. pose proof (created_from_cons txid out outs i nHeight cb) as Hcons.
    destruct (spendable out) eqn:Hsp.
    + rewrite (spendable_ok out Hsp). cbn [script_read rbind].
      destruct (spend_spec c W o HW) as (f & coin & c1 & -> & Hl & Hf & HW1 & Hs1). cbn [rbind].
      assert (W o = Some (Coin_make out nHeight cb)) as HWo by (apply Hcr; rewrite Hcons, decide_True by (done || lia); done).
      rewrite (Hf ltac:(by rewrite HWo)). rewrite HWo in Hl. unfold live in Hl. destruct (IsSpent coin); [done|]. injection Hl as ->.
      cbn [c_out c_nHeight c_fCoinBase Coin_make negb orb]. rewrite bool_decide_true by done.
      rewrite (uwrap_id 31 nHeight), Z.eqb_refl, eqb_reflx by (unfold ufits; lia). cbn [negb orb].
      destruct (IH c1 _ (i + 1) HW1 Hok) as (c2 & -> & HW2 & Hs2); [lia|lia| |].
      { intros p coin Hp. rewrite remove_one. destruct (decide (p = o)) as [->|Hne].
        - subst o. by rewrite created_from_past in Hp by lia.
        - apply Hcr. by rewrite Hcons, decide_False by (done || lia). }
      exists c2. split_and!; [done| |eauto using step_trans]. eapply holds_ext, HW2. intros p. rewrite Hcons by lia. fold o.
      rewrite remove_one. destruct (decide (p = o)) as [->|Hne]; [|done]. subst o. by rewrite created_from_past by lia.
    + rewrite (unspendable_ok out Hout Hsp). cbn [script_read rbind].
      destruct (IH c W (i + 1) HW Hok) as (c2 & -> & HW2 & Hs2); [lia|lia| |].
      { intros p coin Hp. destruct (decide (p = o)) as [->|Hne]; [subst o; by rewrite created_from_past in Hp by lia|].
        apply Hcr. by rewrite Hcons, decide_False by (done || lia). }
      exists c2. split_and!; [done| |done]. eapply holds_ext, HW2. intros p. rewrite Hcons by lia. fold o.
      destruct (decide (p = o)) as [->|Hne]; [|done]. subst o. by rewrite created_from_past by lia.
Qed.

Lemma undo_coin_spec c W o coin : holds c W → restorable coin → W o = None →
  ∃ c', undo_coin coin c o = Ok (DISCONNECT_OK, c') ∧ holds c' (fun p => if decide (p = o) then Some coin else W p) ∧ step_ok c c'.
Proof.
  intros HW (Hs & Hu & Ha & Hh) Ho. unfold undo_coin. destruct (IsAssetScript (scriptPubKey (c_out coin))); [|done].
  cbn [script_read rbind]. destruct (have_spec c W o HW) as (c1 & -> & HW1 & Hs1). rewrite Ho.
  rewrite bool_decide_false by (by intros []). cbn [negb]. destruct (Z.eqb_spec (c_nHeight coin) 0); [done|].
  destruct (add_coin_spec c1 W o coin false HW1 Hs Hu ltac:(done)) as (c2 & -> & HW2 & Hs2). cbn [rbind].
  exists c2. split_and!; [done|done|eauto using step_trans].
Qed.

Fixpoint assoc_coin (l : list (CTxIn * Coin)) (p : COutPoint) : option Coin :=
  match l with [] => None | (i, coin) :: l => if decide (p = prevout i) then Some coin else assoc_coin l p end.

Lemma assoc_coin_None l p : p ∉ map (fun x => prevout x.1) l → assoc_coin l p = None.
Proof.
  induction l as [|[i coin] l IH]; [done|]. cbn. rewrite elem_of_cons. intros Hn. rewrite decide_False by tauto. apply IH. tauto.
Qed.

Lemma restore_inputs_spec l fClean : ∀ c W, holds c W → NoDup (map (fun x => prevout x.1) l) →
  Forall (fun x => restorable x.2 ∧ W (prevout x.1) = None) l →
  ∃ c', restore_inputs c l fClean = Ok (Some fClean, c') ∧ holds c' (overwrite_with (assoc_coin l) W) ∧ step_ok c c'.
Proof.
  revert fClean. induction l as [|[i coin] l IH]; intros fClean c W HW Hnd Hl; cbn [restore_inputs].
  - exists c. split_and!; [done| |apply step_refl]. eapply holds_ext, HW. done.
  - cbn in Hnd. apply NoDup_cons in Hnd as [Hni Hnd]. apply Forall_cons in Hl as [[Hr Hn] Hl]. cbn [fst snd] in *.
    destruct (undo_coin_spec c W (prevout i) coin HW Hr Hn) as (c1 & -> & HW1 & Hs1). cbn [rbind fst snd]. rewrite andb_true_r.
    destruct (IH fClean c1 _ HW1 Hnd) as (c2 & -> & HW2 & Hs2).
    { rewrite Forall_forall in *. intros x Hx. destruct (Hl x Hx) as [H1 H2]. split; [done|]. rewrite decide_False; [done|].
      intros Heq. apply Hni. rewrite <- Heq. by apply (list_elem_of_fmap_2 (fun x => prevout x.1)). }
    exists c2. split_and!; [done| |eauto using step_trans]. eapply holds_ext, HW2. intros p. unfold overwrite_with. cbn [assoc_coin].
    destruct (decide (p = prevout i)) as [->|Hne]; [by rewrite assoc_coin_None|done].
Qed.

Lemma assoc_coin_elem l p coin : assoc_coin l p = Some coin → ∃ i, (i, coin) ∈ l ∧ p = prevout i.
Proof.
  induction l as [|[i coin'] l IH]; [done|]. cbn. case_decide; [intros [= ->]; exists i; by split; [left|]|].
  intros (j & Hj & ->)%IH. exists j. split; [by right|done].
Qed.
Lemma assoc_coin_absent l p : assoc_coin l p = None → p ∉ map (fun x => prevout x.1) l.
Proof.
  induction l as [|[i coin'] l IH]; [intros _; apply not_elem_of_nil|]. cbn. case_decide; [done|]. intros Hn.
  rewrite elem_of_cons. intros [?|?]; [done|by apply IH].
Qed.

(** What the code passes as undo data of a transaction. *)
Definition undo_arg (tx : CTransaction) (coins : list Coin) : option (list Coin) := if IsCoinBase tx then None else Some coins.

Lemma zip_prevouts ins (coins : list Coin) : length ins = length coins →
  map (fun x => prevout x.1) (rev (zip ins coins)) = rev (map prevout ins).
Proof.
  intros Hl. rewrite map_rev. f_equal. revert coins Hl. induction ins as [|i ins IH]; intros [|coin coins]; cbn; try done.
  intros Hl. f_equal. apply IH. lia.
Qed.

Lemma restore_all ins coins U W c fClean : holds c W → Forall2 (fun i coin => U (prevout i) = Some coin) ins coins →
  NoDup (map prevout ins) → utxo_valid U → (∀ p, W p = remove_all (map prevout ins) U p) →
  ∃ c', restore_inputs c (rev (zip ins coins)) fClean = Ok (Some fClean, c') ∧ holds c' U ∧ step_ok c c'.
Proof.
  intros HW Hu Hnd HU HWe. pose proof (Forall2_length _ _ _ Hu) as Hlen.
  assert (∀ i coin, (i, coin) ∈ rev (zip ins coins) → U (prevout i) = Some coin ∧ i ∈ ins) as Hin.
  { intros i coin Hx. rewrite elem_of_rev in Hx.
    apply elem_of_lookup_zip_with in Hx as (k & i' & coin' & [= -> ->] & Hi & Hc). split; [by eapply Forall2_lookup_lr in Hu|by eapply list_elem_of_lookup_2]. }
  destruct (restore_inputs_spec (rev (zip ins coins)) fClean c W HW) as (c' & -> & Hc & Hs).
  { rewrite zip_prevouts by done. by rewrite <- Permutation_rev. }
  { apply Forall_forall. intros [i coin] Hx. destruct (Hin i coin Hx) as [H1 H2]. split; [by eapply HU|].
    rewrite HWe. unfold remove_all. rewrite decide_True; [done|]. by apply list_elem_of_fmap_2. }
  exists c'. split_and!; [done| |done]. eapply holds_ext, Hc. intros p. unfold overwrite_with.
  destruct (assoc_coin (rev (zip ins coins)) p) as [coin|] eqn:Ha.
  - apply assoc_coin_elem in Ha as (i & Hx & ->). by destruct (Hin i coin Hx) as [-> _].
  - apply assoc_coin_absent in Ha. rewrite zip_prevouts in Ha by done. rewrite HWe. unfold remove_all.
    rewrite decide_False; [done|]. intros Hp. apply Ha. by apply elem_of_rev.
Qed.

Lemma disconnect_tx_spec c U tx coins nHeight fClean : 0 < nHeight < 2 ^ 31 → tx_connects U tx → utxo_valid U → undo_of U tx coins →
  holds c (connect_map nHeight U tx) →
  ∃ c', disconnect_tx c tx (undo_arg tx coins) nHeight fClean = Ok (Some fClean, c') ∧ holds c' U ∧ step_ok c c'.
Proof.
  intros Hh ([Hout Hlen] & Hnd & Hlive & Hfresh) HU Hundo HW. unfold disconnect_tx.
  destruct (spend_outputs_spec (tx_GetHash tx) (vout tx) nHeight (IsCoinBase tx) fClean ltac:(lia) c _ 0 HW Hout)
    as (c1 & -> & HW1 & Hs1); [lia|lia|by intros p coin Hp; unfold connect_map, overwrite_with, created; rewrite Hp|].
  assert (holds c1 (remove_all (prevouts tx) U)) as HW2.
  { eapply holds_ext, HW1. intros p. unfold connect_map, overwrite_with, created.
    destruct (created_from (tx_GetHash tx) (vout tx) 0 nHeight (IsCoinBase tx) p) as [coin|] eqn:Hc; [|done].
    assert (U p = None) as Hn.
    { unfold created_from in Hc. case_decide as Hp; [|done]. destruct p as [h n]. cbn in Hp. destruct Hp as [-> _]. apply Hfresh. }
    unfold remove_all. by case_decide. }
  cbn [rbind fst snd]. unfold undo_arg, undo_of, prevouts in *. destruct (IsCoinBase tx) eqn:Hcb.
  - exists c1. split_and!; [done| |done]. eapply holds_ext, HW2. intros p. apply remove_nil.
  - rewrite Forall2_fmap_l in Hundo. pose proof (Forall2_length _ _ _ Hundo) as Hl. rewrite Hl, Nat.eqb_refl. cbn [negb].
    destruct (restore_all (vin tx) coins U _ c1 fClean HW2) as (c2 & -> & Hc2 & Hs2); [done..|].
    exists c2. split_and!; [done|done|eauto using step_trans].
Qed.

(** ** Lemmas: blocks *)

Fixpoint txs_connect (nHeight : Z) U (txs : list CTransaction) : Prop :=
  match txs with [] => True | tx :: txs => tx_connects U tx ∧ txs_connect nHeight (connect_map nHeight U tx) txs end.
Fixpoint undos_of (nHeight : Z) U (txs : list CTransaction) (undos : list (list Coin)) : Prop :=
  match txs, undos with
  | [], [] => True
  | tx :: txs, u :: us => undo_of U tx u ∧ undos_of nHeight (connect_map nHeight U tx) txs us
  | _, _ => False
  end.

Lemma connect_txs_spec nHeight txs : ∀ c U, holds c U → txs_connect nHeight U txs →
  ∃ undos c', connect_txs c txs nHeight = Ok (undos, c') ∧ undos_of nHeight U txs undos ∧
    holds c' (fold_left (connect_map nHeight) txs U) ∧ step_ok c c'.
Proof.
  induction txs as [|tx txs IH]; intros c U HU Hc; cbn [connect_txs].
  - exists [], c. split_and!; [done|done|done|apply step_refl].
  - destruct Hc as [Htx Hc]. destruct (update_coins_spec c U tx nHeight HU Htx) as (coins & c1 & -> & Hu & HU1 & Hs1).
    cbn [rbind fst snd]. destruct (IH c1 _ HU1 Hc) as (us & c2 & -> & Hus & HU2 & Hs2). cbn [rbind fst snd].
    exists (coins :: us), c2. split_and!; [done|done|done|eauto using step_trans].
Qed.

Lemma disconnect_txs_app nHeight l1 l2 : ∀ c fClean, disconnect_txs c (l1 ++ l2) nHeight fClean =
  let? r := disconnect_txs c l1 nHeight fClean in
  match fst r with None => Ok r | Some f => disconnect_txs (snd r) l2 nHeight f end.
Proof.
  induction l1 as [|[tx u] l1 IH]; intros c fClean; [done|]. cbn [app disconnect_txs].
  destruct (disconnect_tx c tx u nHeight fClean) as [[[f|] c1]|]; cbn [rbind fst snd]; [apply IH|done|done].
Qed.

Lemma disconnect_txs_spec nHeight : 0 < nHeight < 2 ^ 31 → ∀ txs c U undos fClean, txs_connect nHeight U txs → utxo_valid U →
  undos_of nHeight U txs undos → holds c (fold_left (connect_map nHeight) txs U) →
  ∃ c', disconnect_txs c (rev (zip_with (fun tx u => (tx, undo_arg tx u)) txs undos)) nHeight fClean = Ok (Some fClean, c') ∧
    holds c' U ∧ step_ok c c'.
Proof.
  intros Hh. induction txs as [|tx txs IH]; intros c U [|u us] fClean Hc HU Hus HW; try done.
  - exists c. split_and!; [done|done|apply step_refl].
  - destruct Hc as [Htx Hc]. destruct Hus as [Hu Hus]. cbn [zip_with rev fold_left] in *. rewrite disconnect_txs_app.
    destruct (IH c _ us fClean Hc (connect_map_valid U tx nHeight (proj1 Htx) Hh HU) Hus HW) as (c1 & -> & HW1 & Hs1).
    cbn [rbind fst snd disconnect_txs].
    destruct (disconnect_tx_spec c1 U tx u nHeight fClean Hh Htx HU Hu HW1) as (c2 & -> & HW2 & Hs2). cbn [rbind fst snd].
    exists c2. split_and!; [done|done|eauto using step_trans].
Qed.

(** The undo data as [DisconnectBlock] pairs it with the transactions. *)
Lemma undo_zip cb txs (u : list Coin) us : IsCoinBase cb = true → Forall (fun tx => IsCoinBase tx = false) txs →
  length txs = length us →
  zip (cb :: txs) (None :: map Some us) = zip_with (fun tx u => (tx, undo_arg tx u)) (cb :: txs) (u :: us).
Proof.
  intros Hcb Htxs Hl. cbn. unfold undo_arg at 1. rewrite Hcb. f_equal. revert us Hl.
  induction Htxs as [|tx txs Htx _ IH]; intros [|v us] Hl; cbn in *; try done. unfold undo_arg at 1. rewrite Htx.
  f_equal. apply IH. lia.
Qed.

Lemma undos_of_length nHeight txs : ∀ U us, undos_of nHeight U txs us → length txs = length us.
Proof.
  induction txs as [|tx txs IH]; intros U [|u us] H; cbn in *; try done. f_equal. by eapply IH, H.
Qed.

(** ** Lemmas: rolling forward *)

Lemma spend_all_spec ins : ∀ c W, holds c W →
  ∃ c', spend_all c ins = Ok c' ∧ holds c' (remove_all (map prevout ins) W) ∧ step_ok c c'.
Proof.
  induction ins as [|i ins IH]; intros c W HW; cbn [spend_all].
  - exists c. split_and!; [done| |apply step_refl]. eapply holds_ext, HW. intros p. symmetry. apply remove_nil.
  - destruct (spend_spec c W (prevout i) HW) as (f & coin & c1 & -> & _ & _ & HW1 & Hs1). cbn [rbind snd].
    destruct (IH c1 _ HW1) as (c2 & -> & HW2 & Hs2). exists c2. split_and!; [done| |eauto using step_trans].
    eapply holds_ext, HW2. intros p. cbn [map]. unfold remove_all at 1. rewrite remove_one. unfold remove_all.
    destruct (decide (p = prevout i)) as [->|Hne].
    + rewrite (decide_True (P := prevout i ∈ prevout i :: map prevout ins)) by (by left). by case_decide.
    + destruct (decide (p ∈ map prevout ins)); [by rewrite decide_True by (by right)|].
      rewrite decide_False; [done|]. rewrite elem_of_cons. naive_solver.
Qed.

Lemma RollforwardBlock_spec nHeight block : ∀ c W, holds c W → Forall outputs_ok block →
  ∃ c', RollforwardBlock c block nHeight = Ok c' ∧ holds c' (fold_left (connect_map nHeight) block W) ∧ step_ok c c'.
Proof.
  induction block as [|tx block IH]; intros c W HW Hok; cbn [RollforwardBlock fold_left].
  - exists c. split_and!; [done|done|apply step_refl].
  - apply Forall_cons in Hok as [[Hout Hlen] Hok].
    assert (∃ c1, (if IsCoinBase tx then Ok c else spend_all c (vin tx)) = Ok c1 ∧ holds c1 (remove_all (prevouts tx) W) ∧ step_ok c c1)
      as (c1 & -> & HW1 & Hs1).
    { unfold prevouts. destruct (IsCoinBase tx); [|by apply spend_all_spec]. exists c. split_and!; [done| |apply step_refl].
      eapply holds_ext, HW. intros p. symmetry. apply remove_nil. }
    cbn [rbind]. unfold AddCoins.
    destruct (add_outputs_spec (tx_GetHash tx) (vout tx) nHeight (IsCoinBase tx) true c1 _ 0 HW1 Hout) as (c2 & -> & HW2 & Hs2);
      [lia|lia|by left|].
    cbn [rbind]. destruct (IH c2 _ HW2 Hok) as (c3 & -> & HW3 & Hs3). exists c3. split_and!; [done|done|eauto using step_trans].
Qed.

Definition block_map U (b : list CTransaction * Z) : utxo_map := fold_left (connect_map b.2) b.1 U.

Lemma rollforward_blocks_spec blocks : ∀ c W, holds c W → Forall (fun b => Forall outputs_ok b.1) blocks →
  ∃ c', rollforward_blocks c blocks = Ok c' ∧ holds c' (fold_left block_map blocks W) ∧ step_ok c c'.
Proof.
  induction blocks as [|[b h] blocks IH]; intros c W HW Hok; cbn [rollforward_blocks fold_left].
  - exists c. split_and!; [done|done|apply step_refl].
  - apply Forall_cons in Hok as [Hb Hok]. destruct (RollforwardBlock_spec h b c W HW Hb) as (c1 & -> & HW1 & Hs1). cbn [rbind].
    destruct (IH c1 _ HW1 Hok) as (c2 & -> & HW2 & Hs2). exists c2. split_and!; [done|done|eauto using step_trans].
Qed.

(** The last write at an outpoint decides: its coin does not depend on the map
    before, or it is the coin before. *)
Definition decisive (F : utxo_map → utxo_map) : Prop :=
  ∀ p, (∃ r, ∀ U, F U p = r) ∨ (∀ U, F U p = U p).

Lemma decisive_fold {B} (f : utxo_map → B → utxo_map) l : (∀ b, decisive (fun U => f U b)) → decisive (fun U => fold_left f l U).
Proof.
  intros Hf. induction l as [|b l IH]; intros p; cbn; [by right|]. destruct (IH p) as [[r Hr]|Hid].
  - left. exists r. intros U. apply Hr.
  - destruct (Hf b p) as [[r Hr]|Hid']; [left; exists r|right]; intros U; by rewrite Hid.
Qed.

Lemma connect_map_decisive nHeight tx : decisive (fun U => connect_map nHeight U tx).
Proof.
  intros p. unfold connect_map, overwrite_with, remove_all. destruct (created tx nHeight p) as [coin|]; [left; by exists (Some coin)|].
  case_decide; [left; by exists None|by right].
Qed.

Lemma blocks_decisive blocks : decisive (fold_left block_map blocks).
Proof. apply decisive_fold. intros b. apply decisive_fold. intros tx. apply connect_map_decisive. Qed.

(** Applying the blocks to any mixture of the old and the new coins gives the new ones. *)
Lemma replay_mixture blocks U P : (∀ p, P p = U p ∨ P p = fold_left block_map blocks U p) →
  ∀ p, fold_left block_map blocks P p = fold_left block_map blocks U p.
Proof.
  intros HP p. destruct (blocks_decisive blocks p) as [[r Hr]|Hid]; [by rewrite !Hr|].
  rewrite !Hid. destruct (HP p) as [->|HPp]; [done|]. by rewrite HPp, Hid.
Qed.
End laws.

Lemma blob_eqb_refl h : blob_eqb h h = true.
Proof. unfold blob_eqb. induction h as [|b h IH]; [done|]. cbn. by rewrite Z.eqb_refl. Qed.

(** ** Concrete runs *)

#[local] Instance lock_time_hash : TxHash := {| tx_GetHash tx := replicate 32 (nLockTime tx) |}.
Definition sample_coinbase : CTransaction :=
  mkTx 1 [mkTxIn OutPoint_null [OP_1] SEQUENCE_FINAL []] [mkTxOut 5000 [OP_1]; mkTxOut 0 [OP_RETURN]] 1.
Definition sample_spend : CTransaction :=
  mkTx 1 [mkTxIn (mkOutPoint (replicate 32 1) 0) [] SEQUENCE_FINAL []] [mkTxOut 4000 [OP_2]] 2.

(** ** Properties *)

(** C11: recovery from a crash while the coin cache is flushed.  The cache holds the
    coins after a sequence of blocks, the database those before it.  Whenever the
    flush stops between two batches and leaves the database marked as inconsistent,
    replaying the blocks on what is on disk, whatever part of the coins was written,
    gives a consistent database with exactly the coins of the cache and the new best
    block. *)
Theorem crash_recovery {Hash : TxHash} {Limit : BatchLimit} {Order : MapOrder} (d : coins_db) (c : CCoinsViewCache coins_db) blocks k :
  db_heads d = [] → cache_ok c → base c = d → blob_IsNull (hashBlock c) = false → Forall (fun b => Forall outputs_ok b.1) blocks →
  (∀ p, cache_utxo c p = fold_left block_map blocks (utxo d) p) →
  ∃ d', DB_crash d (map_order (cacheCoins c)) (hashBlock c) k = Ok d' ∧
    (GetHeadBlocks d' ≠ [] → ∃ c', replay_forward d' blocks (hashBlock c) = Ok c' ∧
      (∀ p, utxo (base c') p = cache_utxo c p) ∧ DB_GetBestBlock (base c') = hashBlock c) ∧
    (GetHeadBlocks d' = [] → d' = d ∨ ((∀ p, utxo d' p = cache_utxo c p) ∧ DB_GetBestBlock d' = hashBlock c)).
Proof.
  intros Hh [Hb He] <- Hn Hok Hnew. pose proof (map_order_perm (cacheCoins c)) as Hp.
  assert (NoDup (map_order (cacheCoins c)).*1) as Hnd by (rewrite Hp; apply NoDup_fst_map_to_list).
  destruct (DB_crash_states (base c) (map_order (cacheCoins c)) (hashBlock c) k _ Hn (old_tip_consistent _ _ Hh) Hnd)
    as (d' & final & Hcr & Hw & Hcases). exists d'. split; [done|].
  destruct (DB_BatchWrite_ok (base c) _ (hashBlock c) _ Hn (old_tip_consistent _ _ Hh) Hnd) as (m & Hw' & Hm).
  rewrite Hw in Hw'. injection Hw' as ->.
  assert (∀ p, m !! p = cache_utxo c p) as Hfin.
  { intros p. rewrite Hm. apply apply_entries_overlay; [done|done|]. intros q coin. apply Hb. }
  split; [intros Hne|intros Hemp].
  2: { destruct Hcases as [->|[->|(_ & Hhd & _)]]; [by left|by right|]. unfold GetHeadBlocks in Hemp. by rewrite Hhd in Hemp. }
  destruct Hcases as [->|[->|(Hbest & Hhd & Hmix)]]; [unfold GetHeadBlocks in Hne; by rewrite Hh in Hne|done|].
  assert (db_ok d') as Hok'.
  { intros o coin Ho. destruct (Hmix o) as [Heq|Heq]; rewrite Heq in Ho; [by eapply Hb|]. cbn in Ho. rewrite Hm in Ho.
    by eapply apply_entries_unspent, Ho. }
  assert (holds (Cache_new d') (utxo d')) as Hc0.
  { split; [split; [done|]|done]. intros o e Ho. change (cacheCoins (Cache_new d')) with (∅ : CCoinsMap) in Ho. by rewrite lookup_empty in Ho. }
  destruct (rollforward_blocks_spec blocks _ _ Hc0 Hok) as (c1 & Hrf & [Hc1 HU1] & [_ Hwr]). unfold replay_forward. rewrite Hrf. cbn [rbind].
  destruct (Flush_spec (SetBestBlock c1 (hashBlock c))) as (c2 & -> & _ & _ & Hb2 & _ & Hu2 & _); [|apply Hwr| done |].
  { destruct Hc1. by split. }
  { cbn. unfold old_tip_of, DB_GetBestBlock. rewrite Hbest. cbn. unfold GetHeadBlocks. rewrite Hhd. by rewrite blob_eqb_refl. }
  cbn [rbind snd]. exists c2. split_and!; [done| |exact Hb2]. intros p. rewrite Hu2.
  change (cache_utxo (SetBestBlock c1 (hashBlock c)) p) with (cache_utxo c1 p). rewrite HU1, Hnew.
  apply replay_mixture. intros q. destruct (Hmix q) as [Hq|Hq]; [left; exact Hq|right]. cbn in Hq.
  change (db_coins d' !! q = fold_left block_map blocks (utxo (base c)) q). by rewrite Hq, Hfin, Hnew.
Qed.

(** Every entry is a batch of its own. *)
Definition tiny_limit : BatchLimit := {| batch_full _ := true |}.
Definition sample_connected : CCoinsViewCache coins_db :=
  SetBestBlock (mkCache empty_db blob_null
    {[ mkOutPoint (replicate 32 1) 0 := mkEntry (Coin_make (mkTxOut 5000 [OP_1]) 1 true) DIRTY ]}) hash_example.

Lemma sample_connected_map p : cache_utxo sample_connected p = fold_left block_map [([sample_coinbase], 1)] (utxo empty_db) p.
Proof.
  assert (∀ q, db_coins empty_db !! q = None) as Hemp by (intros q; apply lookup_empty).
  cbn [fold_left block_map fst snd]. unfold block_map. cbn [fold_left fst snd].
  unfold connect_map, overwrite_with, remove_all, created, created_from, cache_utxo, overlay.
  cbn [base cacheCoins SetBestBlock sample_connected utxo CCoinsViewDB_laws]. rewrite Hemp.
  destruct (decide (p = mkOutPoint (replicate 32 1) 0)) as [->|Hne]; [by vm_compute|].
  rewrite lookup_singleton_ne by congruence. destruct (decide (op_hash p = tx_GetHash sample_coinbase ∧ 0 <= op_n p)) as [[Hh Hn]|_]; [|by case_decide].
  assert (op_n p ≠ 0) by (intros H0; apply Hne; destruct p; cbn in *; by subst).
  replace (Z.to_nat (op_n p - 0)) with (S (Z.to_nat (op_n p - 1))) by lia. cbn [vout sample_coinbase lookup list_lookup].
  destruct (Z.to_nat (op_n p - 1)) as [|[|n]]; cbn; by case_decide.
Qed.

Lemma crash_recovery_witness :
  ∃ d', DB_crash (H := tiny_limit) empty_db (map_order (cacheCoins sample_connected)) hash_example 1 = Ok d' ∧
    GetHeadBlocks d' ≠ [] ∧
    ∃ c', replay_forward (View := CCoinsViewDB_view (H := tiny_limit)) d' [([sample_coinbase], 1)] hash_example = Ok c'.
Proof.
  destruct (crash_recovery (Limit := tiny_limit) empty_db sample_connected [([sample_coinbase], 1)] 1) as (d' & H1 & H2 & _).
  - reflexivity.
  - split; [exact empty_db_ok|]. intros o e He. unfold sample_connected, SetBestBlock in He. cbn [cacheCoins] in He.
    apply lookup_singleton_Some in He as [<- <-].
    apply entry_ok_dirty; [right; left; reflexivity|reflexivity|]. intros H. discriminate H.
  - reflexivity.
  - reflexivity.
  - repeat constructor; discriminate.
  - exact sample_connected_map.
  - exists d'. assert (GetHeadBlocks d' ≠ []) as Hne by (vm_compute in H1; injection H1 as <-; discriminate).
    destruct (H2 Hne) as (c' & H3 & _). split; [exact H1|]. split; [exact Hne|]. exists c'. exact H3.
Defined.
