(* ===== verification/Base58.v ===== *)
(** * Base58: src/src/base58.{h,cpp}

    Radix conversion between bytes and base-58 digits, the checksummed format
    and the addresses built on it.  A [std::string] is the list of its bytes; a
    C string ends at the first zero byte.  The work vectors [b58] and [b256] are
    stored in the order of their reverse iterators, least significant digit
    first.  Lengths stay below 2^30, so the [int] counters do not overflow. *)

From S2P Require Import Prelude Serialize Transaction Script Interpreter.

(** ** Alphabet *)

Definition pszBase58 : list Z :=
  [49; 50; 51; 52; 53; 54; 55; 56; 57;                         (* 1-9 *)
   65; 66; 67; 68; 69; 70; 71; 72; 74; 75; 76; 77; 78;         (* A-H J-N *)
   80; 81; 82; 83; 84; 85; 86; 87; 88; 89; 90;                 (* P-Z *)
   97; 98; 99; 100; 101; 102; 103; 104; 105; 106; 107;         (* a-k *)
   109; 110; 111; 112; 113; 114; 115; 116; 117; 118; 119; 120; 121; 122].   (* m-z *)

(** [isspace] of the C locale *)
Definition isspace (c : Z) : bool := ((9 <=? c) && (c <=? 13)) || (c =? 32).

(** [strchr(pszBase58, c) - pszBase58] for a non-zero [c] *)
Fixpoint index_of (c : Z) (l : list Z) (i : Z) : option Z :=
  match l with
  | [] => None
  | x :: l' => if x =? c then Some i else index_of c l' (i + 1)
  end.

(** [str.c_str()] *)
Fixpoint c_str (s : list Z) : list Z :=
  match s with
  | [] => []
  | c :: s' => if c =? 0 then [] else c :: c_str s'
  end.

(** ** Radix conversion *)

(** [for (it = rbegin; (carry != 0 || i < length) && it != rend; ++it, ++i)]:
    the digits after the loop, [i] and [carry]. *)
Fixpoint mul_add (base mult : Z) (ds : list Z) (i length carry : Z) : list Z * Z * Z :=
  match ds with
  | [] => ([], i, carry)
  | d :: ds' =>
      if negb (carry =? 0) || (i <? length) then
        let carry := carry + mult * d in
        let '(r, i', carry') := mul_add base mult ds' (i + 1) length (carry / base) in
        (carry mod base :: r, i', carry')
      else (ds, i, carry)
  end.

(** One digit of the source after the other; [None] when [assert(carry == 0)]
    fails. *)
Fixpoint convert (base mult : Z) (src : list Z) (ds : list Z) (length : Z) : option (list Z * Z) :=
  match src with
  | [] => Some (ds, length)
  | carry :: src' =>
      let '(ds', i, carry') := mul_add base mult ds 0 length carry in
      if negb (carry' =? 0) then None else convert base mult src' ds' i
  end.

Fixpoint skip_while (p : Z → bool) (l : list Z) : list Z :=
  match l with
  | [] => []
  | x :: l' => if p x then skip_while p l' else l
  end.
Fixpoint take_while (p : Z → bool) (l : list Z) : list Z :=
  match l with
  | [] => []
  | x :: l' => if p x then x :: take_while p l' else []
  end.

(** From [begin() + (size - length)] on, without leading zeroes. *)
Definition significant (ds : list Z) (length : Z) : list Z :=
  skip_while (fun d => d =? 0) (rev (take (Z.to_nat length) ds)).

Definition EncodeBase58 (vch : list Z) : option (list Z) :=
  let zeroes := length (take_while (fun b => b =? 0) vch) in
  let rest := skip_while (fun b => b =? 0) vch in
  let size := size rest * 138 / 100 + 1 in
  match convert 58 256 rest (replicate (Z.to_nat size) 0) 0 with
  | None => None
  | Some (b58, length) =>
      Some (replicate zeroes 49 ++ map (fun d => nth (Z.to_nat d) pszBase58 0) (significant b58 length))
  end.

(** The values of the characters up to the first space; [None] for a character
    outside the alphabet. *)
Fixpoint decode_chars (psz : list Z) : option (list Z * list Z) :=
  match psz with
  | [] => Some ([], [])
  | c :: psz' =>
      if isspace c then Some ([], psz)
      else match index_of c pszBase58 0, decode_chars psz' with
           | Some v, Some (vs, rest) => Some (v :: vs, rest)
           | _, _ => None
           end
  end.

(** The outer option is the assertion, the inner one the result. *)
Definition DecodeBase58 (str : list Z) : option (option (list Z)) :=
  let psz := skip_while isspace (c_str str) in
  let zeroes := length (take_while (fun c => c =? 49) psz) in
  let psz := skip_while (fun c => c =? 49) psz in
  let size := size psz * 733 / 1000 + 1 in
  match decode_chars psz with
  | None => Some None
  | Some (vs, rest) =>
      match convert 256 58 vs (replicate (Z.to_nat size) 0) 0 with
      | None => None
      | Some (b256, length) =>
          match skip_while isspace rest with
          | [] => Some (Some (replicate zeroes 0 ++ significant b256 length))
          | _ => Some None
          end
      end
  end.

(** ** Checksums *)

Section Check.
Context `{Crypto}.

Definition EncodeBase58Check (vchIn : list Z) : option (list Z) :=
  EncodeBase58 (vchIn ++ take 4 (CHash256 vchIn)).

Definition DecodeBase58Check (str : list Z) : option (option (list Z)) :=
  match DecodeBase58 str with
  | None => None
  | Some None => Some None
  | Some (Some vchRet) =>
      if size vchRet <? 4 then Some None
      else
        let data := take (length vchRet - 4) vchRet in
        if negb (bool_decide (take 4 (CHash256 data) = drop (length vchRet - 4) vchRet)) then Some None
        else Some (Some data)
  end.

(** ** Addresses *)

Inductive CTxDestination := CNoDestination | CKeyID (id : list Z) | CScriptID (id : list Z).
#[global] Instance CTxDestination_eq_dec : EqDecision CTxDestination.
Proof. solve_decision. Defined.

(** [boost::variant::which()] *)
Definition IsValidDestination (dest : CTxDestination) : bool :=
  match dest with CNoDestination => false | _ => true end.

Record CBase58Data := mkBase58Data { vchVersion : list Z; vchData : list Z }.
Definition Base58Data_null : CBase58Data := mkBase58Data [] [].

(** The prefixes of the network in use. *)
Record Base58Prefixes := mkPrefixes {
  PUBKEY_ADDRESS : list Z; SCRIPT_ADDRESS : list Z; SECRET_KEY : list Z;
  EXT_PUBLIC_KEY : list Z; EXT_SECRET_KEY : list Z
}.
Definition main_prefixes : Base58Prefixes :=
  mkPrefixes [56] [16] [128] [0x04; 0x88; 0xB2; 0x1E] [0x04; 0x88; 0xAD; 0xE4].
Definition testnet_prefixes : Base58Prefixes :=
  mkPrefixes [66] [66] [239] [0x04; 0x35; 0x87; 0xCF] [0x04; 0x35; 0x83; 0x94].
Definition regtest_prefixes : Base58Prefixes :=
  mkPrefixes [66] [66] [239] [0x04; 0x35; 0x87; 0xCF] [0x04; 0x35; 0x83; 0x94].

Definition SetString (psz : list Z) (nVersionBytes : Z) : option (bool * CBase58Data) :=
  match DecodeBase58Check psz with
  | None => None
  | Some None => Some (false, Base58Data_null)
  | Some (Some vchTemp) =>
      if size vchTemp <? nVersionBytes then Some (false, Base58Data_null)
      else Some (true, mkBase58Data (take (Z.to_nat nVersionBytes) vchTemp) (drop (Z.to_nat nVersionBytes) vchTemp))
  end.

Definition Base58Data_ToString (d : CBase58Data) : option (list Z) :=
  EncodeBase58Check (vchVersion d ++ vchData d).

Variable params : Base58Prefixes.

Definition Address_Set (dest : CTxDestination) : CBase58Data :=
  match dest with
  | CNoDestination => Base58Data_null
  | CKeyID id => mkBase58Data (PUBKEY_ADDRESS params) (take 20 id)
  | CScriptID id => mkBase58Data (SCRIPT_ADDRESS params) (take 20 id)
  end.

Definition Address_IsValid (a : CBase58Data) : bool :=
  (size (vchData a) =? 20) &&
  (bool_decide (vchVersion a = PUBKEY_ADDRESS params) || bool_decide (vchVersion a = SCRIPT_ADDRESS params)).

Definition Address_Get (a : CBase58Data) : CTxDestination :=
  if negb (Address_IsValid a) then CNoDestination
  else if bool_decide (vchVersion a = PUBKEY_ADDRESS params) then CKeyID (vchData a)
  else if bool_decide (vchVersion a = SCRIPT_ADDRESS params) then CScriptID (vchData a)
  else CNoDestination.

(** [GetIndexKey]: the hash and its type, [None] when it returns false *)
Definition Address_GetIndexKey (a : CBase58Data) : option (list Z * Z) :=
  if negb (Address_IsValid a) then None
  else if bool_decide (vchVersion a = PUBKEY_ADDRESS params) then Some (vchData a, 1)
  else if bool_decide (vchVersion a = SCRIPT_ADDRESS params) then Some (vchData a, 2)
  else None.

Definition EncodeDestination (dest : CTxDestination) : option (list Z) :=
  let addr := Address_Set dest in
  if negb (Address_IsValid addr) then Some [] else Base58Data_ToString addr.

Definition DecodeDestination (str : list Z) : option CTxDestination :=
  match SetString str 1 with
  | None => None
  | Some (_, a) => Some (Address_Get a)
  end.

Definition IsValidDestinationString (str : list Z) : option bool :=
  match SetString str 1 with
  | None => None
  | Some (_, a) => Some (Address_IsValid a)
  end.

(** [CPHICOINSecret]: the version byte, the key and a 1 for compressed keys. *)
Definition Secret_SetKey (key : list Z) (fCompressed : bool) : CBase58Data :=
  mkBase58Data (SECRET_KEY params) (key ++ if fCompressed then [1] else []).
Definition Secret_GetKey (d : CBase58Data) : option (list Z * bool) :=
  if negb (size (vchData d) >=? 32) then None
  else Some (take 32 (vchData d), (size (vchData d) >? 32) && (nth 32 (vchData d) 0 =? 1)).
Definition Secret_IsValid (d : CBase58Data) : bool :=
  ((size (vchData d) =? 32) || ((size (vchData d) =? 33) && (nth 32 (vchData d) 0 =? 1)))
  && bool_decide (vchVersion d = SECRET_KEY params).
Definition Secret_SetString (str : list Z) : option (bool * CBase58Data) :=
  match SetString str 1 with
  | None => None
  | Some (ok, d) => Some (ok && Secret_IsValid d, d)
  end.

End Check.

(** ** Lemmas: positional notation *)

(** The value of digits, most significant first and least significant first. *)
Definition be_val (b : Z) (l : list Z) : Z := fold_left (fun v d => v * b + d) l 0.
Fixpoint le_val (b : Z) (l : list Z) : Z :=
  match l with [] => 0 | d :: l' => d + b * le_val b l' end.
Definition digit (b d : Z) : Prop := 0 <= d < b.

Lemma fold_be b l v : fold_left (fun v d => v * b + d) l v = v * b ^ size l + be_val b l.
Proof.
  unfold be_val, size. revert v. induction l as [|d l IH]; intros v; [cbn; lia|].
  cbn [fold_left length]. rewrite (IH (v * b + d)), (IH (0 * b + d)).
  rewrite Nat2Z.inj_succ, Z.pow_succ_r by lia. ring.
Qed.

Lemma be_val_cons b d l : be_val b (d :: l) = d * b ^ size l + be_val b l.
Proof. unfold be_val at 1. cbn [fold_left]. rewrite fold_be. ring. Qed.

Lemma be_val_app b l1 l2 : be_val b (l1 ++ l2) = be_val b l1 * b ^ size l2 + be_val b l2.
Proof. unfold be_val at 1. by rewrite fold_left_app, fold_be. Qed.

Lemma le_val_rev b l : le_val b l = be_val b (rev l).
Proof.
  induction l as [|d l IH]; [done|]. cbn [le_val rev]. rewrite be_val_app, IH, be_val_cons.
  change (size [d]) with 1. change (size (@nil Z)) with 0. change (be_val b []) with 0. lia.
Qed.

Lemma be_val_bound b l : 0 < b → Forall (digit b) l → 0 <= be_val b l < b ^ size l.
Proof.
  intros Hb. induction 1 as [|d l Hd Hl IH]; [change (size (@nil Z)) with 0; rewrite Z.pow_0_r; unfold be_val; cbn; lia|].
  rewrite be_val_cons. unfold size in *. cbn [length]. rewrite Nat2Z.inj_succ, Z.pow_succ_r by lia. unfold digit in Hd. nia.
Qed.

Lemma le_val_bound b l : 0 < b → Forall (digit b) l → 0 <= le_val b l < b ^ size l.
Proof.
  intros Hb Hl. rewrite le_val_rev. assert (size (rev l) = size l) as <- by (unfold size; by rewrite length_rev).
  apply be_val_bound; [done|]. by apply Forall_rev.
Qed.

Lemma le_val_zeros b l : Forall (eq 0) l → le_val b l = 0.
Proof. induction 1 as [|d l <- _ IH]; [done|]. cbn. rewrite IH. lia. Qed.

(** No leading zero *)
Definition canonical (l : list Z) : Prop := match l with d :: _ => d ≠ 0 | [] => True end.

Lemma be_val_lower b l : 1 < b → Forall (digit b) l → canonical l → l ≠ [] → b ^ (size l - 1) <= be_val b l.
Proof.
  intros Hb Hl Hc Hne. destruct l as [|d l]; [done|]. inv Hl. rewrite be_val_cons.
  replace (size (d :: l) - 1) with (size l) by (unfold size; cbn [length]; lia).
  pose proof (be_val_bound b l ltac:(lia) ltac:(done)). cbn in Hc. unfold digit in *.
  assert (0 < b ^ size l) by (apply Z.pow_pos_nonneg; unfold size; lia). nia.
Qed.

(** Canonical digits are determined by their value. *)
Lemma be_val_inj b l1 l2 : 1 < b → Forall (digit b) l1 → Forall (digit b) l2 → canonical l1 → canonical l2 →
  be_val b l1 = be_val b l2 → l1 = l2.
Proof.
  intros Hb H1 H2 Hc1 Hc2 He.
  assert (size l1 = size l2) as Hsz.
  { assert (∀ a c, Forall (digit b) a → Forall (digit b) c → canonical a → be_val b a = be_val b c → size a <= size c) as Hle.
    { intros a c Ha Hc Hca Hac. destruct (decide (a = [])) as [->|Hne]; [unfold size; cbn; lia|].
      pose proof (be_val_lower b a Hb Ha Hca Hne) as Hl. pose proof (be_val_bound b c ltac:(lia) Hc) as Hu.
      rewrite Hac in Hl. assert (b ^ (size a - 1) < b ^ size c) as Hlt by lia.
      apply Z.pow_lt_mono_r_iff in Hlt; unfold size in *; lia. }
    pose proof (Hle l1 l2 H1 H2 Hc1 He). pose proof (Hle l2 l1 H2 H1 Hc2 (eq_sym He)). lia. }
  clear Hc1 Hc2. revert l2 H2 He Hsz. induction H1 as [|d l1 Hd H1 IH]; intros l2 H2 He Hsz.
  - destruct l2; [done|]. unfold size in Hsz. cbn in Hsz. lia.
  - destruct H2 as [|e l2 Hde H2]; [unfold size in Hsz; cbn in Hsz; lia|].
    assert (size l1 = size l2) as Hs by (unfold size in *; cbn in *; lia).
    rewrite !be_val_cons, Hs in He. pose proof (be_val_bound b l1 ltac:(lia) H1).
    pose proof (be_val_bound b l2 ltac:(lia) H2). rewrite Hs in *. unfold digit in *.
    assert (d = e) as -> by nia. f_equal. apply IH; [done|lia|done].
Qed.

(** ** Lemmas: the conversion loop *)

Section Conversion.
Variables base mult : Z.
Hypothesis Hbase : 1 < base.
Hypothesis Hmult : 1 < mult.

Lemma mul_add_spec ds i L carry : 0 <= carry → 0 <= i → Forall (digit base) ds →
  Forall (eq 0) (drop (Z.to_nat (L - i)) ds) →
  ∃ r i' c', mul_add base mult ds i L carry = (r, i', c') ∧ length r = length ds ∧ Forall (digit base) r ∧
    le_val base r + base ^ size ds * c' = mult * le_val base ds + carry ∧ 0 <= c' ∧
    i <= i' <= i + size ds ∧ Forall (eq 0) (drop (Z.to_nat (i' - i)) r).
Proof.
  revert i carry. induction ds as [|d ds IH]; intros i carry Hc Hi Hds Hz; cbn [mul_add].
  - exists [], i, carry. unfold size. cbn. split_and!; try done; try lia. by rewrite drop_nil.
  - inv Hds. destruct (negb (carry =? 0) || (i <? L)) eqn:Hcond.
    + assert (0 <= carry + mult * d) by (unfold digit in *; nia).
      destruct (IH (i + 1) ((carry + mult * d) / base)) as (r & i' & c' & -> & Hlen & Hr & Hval & Hc' & Hi' & Hz');
        [apply Z.div_pos; lia|lia|done| |].
      { destruct (Z_lt_dec i L) as [Hlt|Hge].
        - replace (Z.to_nat (L - i)) with (S (Z.to_nat (L - (i + 1)))) in Hz by lia. done.
        - replace (Z.to_nat (L - i)) with 0%nat in Hz by lia. replace (Z.to_nat (L - (i + 1))) with 0%nat by lia.
          by inv Hz. }
      exists ((carry + mult * d) mod base :: r), i', c'. pose proof (Z.mod_pos_bound (carry + mult * d) base ltac:(lia)).
      split_and!; [done|cbn; lia|by constructor| |done|unfold size in *; cbn [length]; lia|unfold size in *; cbn [length]; lia|].
      * cbn [le_val]. unfold size in *. cbn [length]. rewrite Nat2Z.inj_succ, Z.pow_succ_r by lia.
        pose proof (Z.div_mod (carry + mult * d) base ltac:(lia)). nia.
      * replace (Z.to_nat (i' - i)) with (S (Z.to_nat (i' - (i + 1)))) by lia. done.
    + apply orb_false_elim in Hcond as [Hc0 HiL]. apply negb_false_iff, Z.eqb_eq in Hc0 as ->. apply Z.ltb_ge in HiL.
      replace (Z.to_nat (L - i)) with 0%nat in Hz by lia. cbn [drop] in Hz.
      exists (d :: ds), i, 0. rewrite (le_val_zeros base (d :: ds)) by done.
      split_and!; try done; try lia; [by constructor|unfold size; lia|].
      by replace (Z.to_nat (i - i)) with 0%nat by lia.
Qed.

Lemma convert_spec src ds L : Forall (digit mult) src → Forall (digit base) ds → 0 <= L →
  Forall (eq 0) (drop (Z.to_nat L) ds) →
  le_val base ds * mult ^ size src + be_val mult src < base ^ size ds →
  ∃ r L', convert base mult src ds L = Some (r, L') ∧ Forall (digit base) r ∧ 0 <= L' ∧
    Forall (eq 0) (drop (Z.to_nat L') r) ∧ le_val base r = le_val base ds * mult ^ size src + be_val mult src.
Proof.
  intros Hsrc. revert ds L. induction Hsrc as [|s src Hs Hsrc IH]; intros ds L Hds HL Hz Hfit; cbn [convert].
  - exists ds, L. split_and!; try done. unfold size. cbn. unfold be_val. cbn. lia.
  - unfold digit in Hs. destruct (mul_add_spec ds 0 L s) as (r & i' & c' & -> & Hlen & Hr & Hval & Hc' & Hi' & Hz');
      [lia|lia|done|by rewrite Z.sub_0_r|].
    rewrite Z.sub_0_r in Hz'. rewrite be_val_cons in *.
    replace (mult ^ size (s :: src)) with (mult * mult ^ size src) in *
      by (unfold size; cbn [length]; rewrite Nat2Z.inj_succ, Z.pow_succ_r by lia; ring).
    pose proof (be_val_bound mult src ltac:(lia) Hsrc). pose proof (le_val_bound base r ltac:(lia) Hr).
    pose proof (le_val_bound base ds ltac:(lia) Hds).
    assert (0 < mult ^ size src) by (apply Z.pow_pos_nonneg; unfold size; lia).
    assert (size r = size ds) as Hsz by (unfold size; by rewrite Hlen). rewrite Hsz in *.
    assert (0 < base ^ size ds) by (apply Z.pow_pos_nonneg; unfold size; lia).
    assert (c' = 0) as -> by nia. cbn [Z.eqb negb].
    assert (le_val base r = mult * le_val base ds + s) as Hr' by lia.
    destruct (IH r i') as (r' & L' & -> & Hd & HL' & Hzz & Hv); [done|lia|done|rewrite Hsz; nia|].
    exists r', L'. split_and!; try done. rewrite Hv, Hr'. ring.
Qed.
End Conversion.

Lemma skip_while_split p l : l = take_while p l ++ skip_while p l.
Proof. induction l as [|x l IH]; [done|]. cbn. destruct (p x); [cbn; by f_equal|done]. Qed.

Lemma take_while_forall p l : Forall (λ x, p x = true) (take_while p l).
Proof. induction l as [|x l IH]; [done|]. cbn. destruct (p x) eqn:E; by constructor. Qed.

Lemma skip_while_head p l : match skip_while p l with [] => True | x :: _ => p x = false end.
Proof. induction l as [|x l IH]; [done|]. cbn. by destruct (p x) eqn:E. Qed.

Lemma skip_while_app p l1 l2 : Forall (λ x, p x = true) l1 → skip_while p (l1 ++ l2) = skip_while p l2.
Proof. induction 1 as [|x l Hx Hl IH]; [done|]. cbn. by rewrite Hx. Qed.

Lemma take_while_app p l1 l2 : Forall (λ x, p x = true) l1 → take_while p (l1 ++ l2) = l1 ++ take_while p l2.
Proof. induction 1 as [|x l Hx Hl IH]; [done|]. cbn. rewrite Hx. by f_equal. Qed.

Lemma skip_while_stop p l : match l with [] => True | x :: _ => p x = false end →
  skip_while p l = l ∧ take_while p l = [].
Proof. destruct l as [|x l]; [done|]. cbn. by intros ->. Qed.

Lemma equal_replicate {A} (x : A) l : Forall (eq x) l → l = replicate (length l) x.
Proof. induction 1 as [|y l <- Hl IH]; [done|]. cbn. by f_equal. Qed.

Lemma take_while_replicate c l : take_while (fun x => x =? c) l = replicate (length (take_while (fun x => x =? c) l)) c.
Proof.
  apply equal_replicate. eapply Forall_impl; [apply take_while_forall|]. cbn. intros x Hx. by apply Z.eqb_eq in Hx.
Qed.

Lemma be_val_skip b l : be_val b (skip_while (fun d => d =? 0) l) = be_val b l.
Proof.
  induction l as [|d l IH]; [done|]. cbn [skip_while]. destruct (Z.eqb_spec d 0) as [->|]; [|done].
  rewrite IH, be_val_cons. lia.
Qed.

Lemma skip_zero_canonical l : canonical (skip_while (fun d => d =? 0) l).
Proof.
  pose proof (skip_while_head (fun d => d =? 0) l) as Hh. unfold canonical.
  destruct (skip_while _ l); [done|]. cbn in Hh. by apply Z.eqb_neq.
Qed.

Lemma skip_while_Forall (P : Z → Prop) p l : Forall P l → Forall P (skip_while p l).
Proof. rewrite (skip_while_split p l) at 1. by intros [_ ?]%Forall_app. Qed.

Lemma significant_spec b ds L : Forall (digit b) ds → Forall (eq 0) (drop (Z.to_nat L) ds) →
  Forall (digit b) (significant ds L) ∧ canonical (significant ds L) ∧ be_val b (significant ds L) = le_val b ds.
Proof.
  intros Hds Hz. unfold significant. split_and!; [|apply skip_zero_canonical|].
  - apply skip_while_Forall, Forall_rev. by apply Forall_take.
  - rewrite be_val_skip, <- le_val_rev. rewrite <- (take_drop (Z.to_nat L) ds) at 2.
    rewrite (le_val_rev b (_ ++ _)), rev_app_distr, be_val_app, <- !le_val_rev.
    by rewrite (le_val_zeros b (drop _ ds)) by done.
Qed.

(** ** Lemmas: enough room *)

Lemma pow_ratio a b N D n : 1 < a → 1 < b → 0 <= N → 0 < D → a ^ D <= b ^ N → 0 <= n → a ^ n <= b ^ (n * N / D + 1).
Proof.
  intros Ha Hb HN HD Hr Hn. apply Z.le_ngt. intros Hlt.
  assert (0 <= n * N / D) by (apply Z.div_pos; nia). set (k := n * N / D + 1) in *.
  assert (n * N <= k * D) by (pose proof (Z.div_mod (n * N) D ltac:(lia)); pose proof (Z.mod_pos_bound (n * N) D HD); unfold k; nia).
  assert ((b ^ k) ^ D < (a ^ n) ^ D) as H1.
  { apply Z.pow_lt_mono_l; [lia|]. split; [apply Z.pow_nonneg; lia|done]. }
  rewrite <- !Z.pow_mul_r in H1 by lia. rewrite (Z.mul_comm n D), (Z.pow_mul_r a D n) in H1 by lia.
  assert ((a ^ D) ^ n <= (b ^ N) ^ n) as H2 by (apply Z.pow_le_mono_l; split; [apply Z.pow_nonneg; lia|done]).
  rewrite <- (Z.pow_mul_r b N n) in H2 by lia.
  assert (b ^ (N * n) <= b ^ (k * D)) by (apply Z.pow_le_mono_r; lia). lia.
Qed.

(** [138/100] is more than log 256 / log 58, and [733/1000] more than log 58 / log 256. *)
Lemma b58_room n : 0 <= n → 256 ^ n <= 58 ^ (n * 138 / 100 + 1).
Proof. apply (pow_ratio _ _ _ _ n); [lia..|]. vm_compute. discriminate. Qed.
Lemma b256_room n : 0 <= n → 58 ^ n <= 256 ^ (n * 733 / 1000 + 1).
Proof. apply (pow_ratio _ _ _ _ n); [lia..|]. vm_compute. discriminate. Qed.

(** Converting into a fresh vector with enough room. *)
Lemma convert_fresh base mult src room : 1 < base → 1 < mult → 0 <= room → Forall (digit mult) src →
  mult ^ size src <= base ^ room →
  ∃ r L, convert base mult src (replicate (Z.to_nat room) 0) 0 = Some (r, L) ∧
    Forall (digit base) (significant r L) ∧ canonical (significant r L) ∧
    be_val base (significant r L) = be_val mult src.
Proof.
  intros Hb Hm Hr Hsrc Hroom. pose proof (be_val_bound mult src ltac:(lia) Hsrc).
  assert (le_val base (replicate (Z.to_nat room) 0) = 0) as Hz.
  { apply le_val_zeros, Forall_forall. by intros x [-> _]%elem_of_replicate. }
  destruct (convert_spec base mult Hb Hm src (replicate (Z.to_nat room) 0) 0) as (r & L & -> & Hd & HL & Hzz & Hv).
  - done.
  - apply Forall_forall. intros x [-> _]%elem_of_replicate. unfold digit. lia.
  - lia.
  - apply Forall_drop, Forall_forall. by intros x [-> _]%elem_of_replicate.
  - rewrite Hz. unfold size at 2. rewrite length_replicate, Z2Nat.id by lia. lia.
  - exists r, L. destruct (significant_spec base r L Hd Hzz) as (H1 & H2 & H3). split_and!; try done.
    rewrite H3, Hv, Hz. lia.
Qed.

(** ** Lemmas: characters *)

Definition b58_char (d : Z) : Z := nth (Z.to_nat d) pszBase58 0.

Lemma b58_char_spec d : digit 58 d →
  index_of (b58_char d) pszBase58 0 = Some d ∧ isspace (b58_char d) = false ∧ b58_char d ≠ 0 ∧
  (b58_char d =? 49) = (d =? 0).
Proof.
  intros Hd. assert (Forall (λ d, index_of (b58_char d) pszBase58 0 = Some d ∧ isspace (b58_char d) = false ∧
    b58_char d ≠ 0 ∧ (b58_char d =? 49) = (d =? 0)) (seqZ 0 58)) as Hall.
  { apply (bool_decide_unpack _). vm_compute. exact I. }
  rewrite Forall_forall in Hall. apply Hall, elem_of_seqZ. unfold digit in Hd. lia.
Qed.

Lemma index_of_spec c l i v : index_of c l i = Some v → i <= v < i + size l ∧ nth (Z.to_nat (v - i)) l 0 = c.
Proof.
  revert i. induction l as [|x l IH]; intros i; [done|]. cbn [index_of].
  destruct (Z.eqb_spec x c) as [->|].
  - intros [= ->]. rewrite Z.sub_diag. unfold size. cbn [length]. split; [lia|done].
  - intros Hi%IH. unfold size in *. cbn [length]. destruct Hi as [Hr Hn]. split; [lia|].
    replace (Z.to_nat (v - i)) with (S (Z.to_nat (v - (i + 1)))) by lia. done.
Qed.

Lemma index_of_char c v : index_of c pszBase58 0 = Some v → digit 58 v ∧ b58_char v = c.
Proof. intros Hi. apply index_of_spec in Hi. rewrite Z.sub_0_r in Hi. done. Qed.

Lemma decode_chars_spec psz vs rest : decode_chars psz = Some (vs, rest) →
  psz = map b58_char vs ++ rest ∧ Forall (digit 58) vs ∧ match rest with [] => True | c :: _ => isspace c = true end.
Proof.
  revert vs rest. induction psz as [|c psz IH]; intros vs rest; cbn [decode_chars].
  - by intros [= <- <-].
  - destruct (isspace c) eqn:Hsp; [by intros [= <- <-]|].
    destruct (index_of c pszBase58 0) as [v|] eqn:Hi; [|done].
    destruct (decode_chars psz) as [[vs' rest']|]; [|done]. intros [= <- <-].
    destruct (IH vs' rest' eq_refl) as (-> & Hvs & Hr). apply index_of_char in Hi as [Hd <-].
    split_and!; [done|by constructor|done].
Qed.

Lemma decode_chars_map vs : Forall (digit 58) vs → decode_chars (map b58_char vs) = Some (vs, []).
Proof.
  induction 1 as [|d vs Hd Hvs IH]; [done|]. cbn [map decode_chars].
  destruct (b58_char_spec d Hd) as (-> & -> & _ & _). by rewrite IH.
Qed.

Lemma c_str_id s : Forall (λ c, c ≠ 0) s → c_str s = s.
Proof. induction 1 as [|c s Hc Hs IH]; [done|]. cbn. destruct (Z.eqb_spec c 0); [done|]. by rewrite IH. Qed.

Lemma EncodeBase58_spec v : bytes_ok v → ∃ D,
  EncodeBase58 v = Some (replicate (length (take_while (fun b => b =? 0) v)) 49 ++ map b58_char D) ∧
  Forall (digit 58) D ∧ canonical D ∧ be_val 58 D = be_val 256 (skip_while (fun b => b =? 0) v).
Proof.
  intros Hv. unfold EncodeBase58.
  destruct (convert_fresh 58 256 (skip_while (fun b => b =? 0) v) (size (skip_while (fun b => b =? 0) v) * 138 / 100 + 1))
    as (r & L & -> & Hd & Hc & Hval); [lia|lia| |by apply skip_while_Forall|by apply b58_room; unfold size; lia|].
  - enough (0 <= size (skip_while (λ b : Z, b =? 0) v) * 138 / 100) by lia.
    apply Z.div_pos; unfold size; lia.
  - by exists (significant r L).
Qed.

Lemma DecodeBase58_spec str psz vs rest : 
  let psz0 := skip_while isspace (c_str str) in
  psz = skip_while (fun c => c =? 49) psz0 → decode_chars psz = Some (vs, rest) →
  ∃ V, DecodeBase58 str = Some (match skip_while isspace rest with
      [] => Some (replicate (length (take_while (fun c => c =? 49) psz0)) 0 ++ V) | _ => None end) ∧
    Forall (digit 256) V ∧ canonical V ∧ be_val 256 V = be_val 58 vs.
Proof.
  intros psz0 -> Hdec. destruct (decode_chars_spec _ _ _ Hdec) as (Hpsz & Hvs & _).
  unfold DecodeBase58. fold psz0. rewrite Hdec. set (n := size (skip_while (λ c : Z, c =? 49) psz0)).
  assert (size vs <= n) as Hn by (unfold n; rewrite Hpsz; unfold size; rewrite length_app, length_map; lia).
  assert (0 <= n * 733 / 1000) by (apply Z.div_pos; unfold n, size; lia).
  destruct (convert_fresh 256 58 vs (n * 733 / 1000 + 1)) as (r & L & -> & Hd & Hc & Hval); [lia|lia|lia|done| |].
  - etrans; [|apply b256_room; unfold n, size; lia]. apply Z.pow_le_mono_r; lia.
  - exists (significant r L). by destruct (skip_while isspace rest).
Qed.

Lemma map_char_head D : Forall (digit 58) D → canonical D →
  match map b58_char D with [] => True | c :: _ => (c =? 49) = false end.
Proof.
  intros HD Hc. destruct HD as [|d D Hd HD]; [done|]. cbn [map]. destruct (b58_char_spec d Hd) as (_ & _ & _ & ->).
  by apply Z.eqb_neq.
Qed.

Lemma DecodeBase58_encoded v s : bytes_ok v → EncodeBase58 v = Some s → DecodeBase58 s = Some (Some v).
Proof.
  intros Hv He. destruct (EncodeBase58_spec v Hv) as (D & Hs & HD & Hc & Hval). rewrite He in Hs. injection Hs as ->.
  set (z := length (take_while (λ b : Z, b =? 0) v)) in *.
  assert (Forall (λ c, c ≠ 0) (replicate z 49 ++ map b58_char D)) as Hnz.
  { apply Forall_app. split; [apply Forall_forall; by intros x [-> _]%elem_of_replicate|].
    apply Forall_map. eapply Forall_impl; [exact HD|]. intros d Hd. apply (b58_char_spec d Hd). }
  assert (skip_while isspace (c_str (replicate z 49 ++ map b58_char D)) = replicate z 49 ++ map b58_char D) as Hsp.
  { rewrite c_str_id by done. apply skip_while_stop. destruct z; [|done]. cbn [replicate app].
    destruct HD as [|d D Hd HD]; [done|]. apply (b58_char_spec d Hd). }
  assert (Forall (λ x, (x =? 49) = true) (replicate z 49)) as Hones.
  { apply Forall_forall. by intros x [-> _]%elem_of_replicate. }
  destruct (skip_while_stop (fun c => c =? 49) _ (map_char_head D HD Hc)) as [Hsk Htk].
  edestruct (DecodeBase58_spec (replicate z 49 ++ map b58_char D)) as (V & -> & HV & HcV & HvV).
  { reflexivity. } { rewrite Hsp, skip_while_app, Hsk by done. by apply decode_chars_map. }
  cbn [skip_while]. rewrite Hsp, take_while_app, Htk, app_nil_r, length_replicate by done.
  do 2 f_equal. rewrite (skip_while_split (fun b => b =? 0) v), take_while_replicate. unfold z. f_equal.
  apply (be_val_inj 256); [lia|done|by apply skip_while_Forall|done|apply skip_zero_canonical|congruence].
Qed.

Lemma EncodeBase58_decoded str v : DecodeBase58 str = Some (Some v) →
  bytes_ok v ∧ ∃ pre core post, c_str str = pre ++ core ++ post ∧ Forall (λ c, isspace c = true) pre ∧
    Forall (λ c, isspace c = true) post ∧ EncodeBase58 v = Some core.
Proof.
  intros Hd. set (psz0 := skip_while isspace (c_str str)). set (psz := skip_while (fun c => c =? 49) psz0).
  destruct (decode_chars psz) as [[vs rest]|] eqn:Hdec; [|by unfold DecodeBase58 in Hd; fold psz0 psz in Hd; rewrite Hdec in Hd].
  destruct (DecodeBase58_spec str psz vs rest eq_refl Hdec) as (V & Hr & HV & HcV & HvV). rewrite Hd in Hr.
  pose proof (skip_while_split isspace rest) as Hrest. destruct (skip_while isspace rest); [|done]. injection Hr as ->. fold psz0.
  set (z := length (take_while (λ c : Z, c =? 49) psz0)).
  assert (bytes_ok (replicate z 0 ++ V)) as Hok.
  { apply Forall_app. split; [|done]. apply Forall_forall. intros x [-> _]%elem_of_replicate. unfold is_byte. lia. }
  split; [done|]. destruct (decode_chars_spec _ _ _ Hdec) as (Hpsz & Hvs & _).
  exists (take_while isspace (c_str str)), (replicate z 49 ++ map b58_char vs), rest. split_and!.
  - rewrite (skip_while_split isspace (c_str str)) at 1. f_equal. fold psz0.
    rewrite (skip_while_split (fun c => c =? 49) psz0), take_while_replicate at 1. fold psz. by rewrite Hpsz, app_assoc.
  - apply take_while_forall.
  - rewrite Hrest, app_nil_r. apply take_while_forall.
  - destruct (EncodeBase58_spec _ Hok) as (D & -> & HD & HcD & HvD). clear Hd.
    assert (Forall (λ x, (x =? 0) = true) (replicate z 0)) as Hzs by (apply Forall_forall; by intros x [-> _]%elem_of_replicate).
    destruct (skip_while_stop (fun b => b =? 0) V) as [Hsk Htk].
    { destruct V; [done|]. by apply Z.eqb_neq. }
    rewrite skip_while_app, Hsk in HvD by done. rewrite take_while_app, Htk, app_nil_r, length_replicate by done.
    do 3 f_equal. apply (be_val_inj 58); [lia|done|done|done| |congruence].
    pose proof (skip_while_head (fun c => c =? 49) psz0) as Hh. fold psz in Hh. rewrite Hpsz in Hh.
    destruct Hvs as [|d vs Hd Hvs]; [done|]. cbn [map app] in Hh. destruct (b58_char_spec d Hd) as (_ & _ & _ & Heq).
    rewrite Heq in Hh. by apply Z.eqb_neq.
Qed.

Lemma DecodeBase58_total str : ∃ r, DecodeBase58 str = Some r.
Proof.
  set (psz := skip_while (fun c => c =? 49) (skip_while isspace (c_str str))).
  destruct (decode_chars psz) as [[vs rest]|] eqn:Hdec.
  - destruct (DecodeBase58_spec str psz vs rest eq_refl Hdec) as (V & -> & _). by eexists.
  - unfold DecodeBase58. fold psz. rewrite Hdec. by eexists.
Qed.

(** ** Lemmas: checksums and addresses *)

Section CheckFacts.
Context `{Crypto}.

Lemma checksum_ok v : length (take 4 (CHash256 v)) = 4%nat ∧ bytes_ok (take 4 (CHash256 v)).
Proof.
  unfold CHash256. destruct (sha256_output (CSHA256 v)) as [Hl Hb]. split; [rewrite length_take; lia|by apply Forall_take].
Qed.

Lemma Base58Check_roundtrip v : bytes_ok v →
  ∃ s, EncodeBase58Check v = Some s ∧ DecodeBase58Check s = Some (Some v).
Proof.
  intros Hv. destruct (checksum_ok v) as [Hl Hb]. assert (bytes_ok (v ++ take 4 (CHash256 v))) as Hok by by apply Forall_app.
  destruct (EncodeBase58_spec _ Hok) as (D & Hs & _). exists (replicate (length (take_while (λ b : Z, b =? 0) (v ++ take 4 (CHash256 v)))) 49 ++ map b58_char D).
  split; [done|]. unfold DecodeBase58Check. rewrite (DecodeBase58_encoded _ _ Hok Hs).
  unfold size. rewrite length_app, Hl. destruct (Z.ltb_spec (Z.of_nat (length v + 4)) 4); [lia|].
  replace (length v + 4 - 4)%nat with (length v) by lia. rewrite take_app_length, drop_app_length.
  by rewrite bool_decide_true.
Qed.

(** A key or script identifier has 20 bytes. *)
Definition dest_ok (dest : CTxDestination) : Prop :=
  match dest with CNoDestination => True | CKeyID id | CScriptID id => length id = 20%nat ∧ bytes_ok id end.

Lemma DecodeDestination_encoded params version id : length version = 1%nat → bytes_ok version →
  length id = 20%nat → bytes_ok id →
  ∃ s, Base58Data_ToString (mkBase58Data version id) = Some s ∧
    DecodeDestination params s = Some (Address_Get params (mkBase58Data version id)).
Proof.
  intros Hvl Hv Hl Hid. destruct (Base58Check_roundtrip (version ++ id)) as (s & Hs & Hd); [by apply Forall_app|].
  exists s. split; [done|]. unfold DecodeDestination, SetString. rewrite Hd. unfold size. rewrite length_app, Hvl.
  destruct (Z.ltb_spec (Z.of_nat (1 + length id)) 1); [lia|]. change (Z.to_nat 1) with 1%nat. rewrite <- Hvl. by rewrite take_app_length, drop_app_length.
Qed.

(** What an address decodes to, for any pair of one-byte prefixes. *)
Lemma address_decoded params dest s : length (PUBKEY_ADDRESS params) = 1%nat → bytes_ok (PUBKEY_ADDRESS params) →
  length (SCRIPT_ADDRESS params) = 1%nat → bytes_ok (SCRIPT_ADDRESS params) → dest_ok dest → IsValidDestination dest = true →
  EncodeDestination params dest = Some s →
  DecodeDestination params s = Some (match dest with
    | CScriptID id => if bool_decide (SCRIPT_ADDRESS params = PUBKEY_ADDRESS params) then CKeyID id else dest
    | _ => dest end).
Proof.
  intros Hp1 Hp2 Hs1 Hs2 Hd Hv. destruct dest as [|id|id]; [done|..]; destruct Hd as [Hl Hb];
    unfold EncodeDestination, Address_Set, Address_IsValid; cbn [vchData vchVersion];
    rewrite take_ge by lia; unfold size; rewrite Hl; change (Z.of_nat 20 =? 20) with true.
  - rewrite bool_decide_true by done. cbn [andb orb negb]. intros He.
    destruct (DecodeDestination_encoded params (PUBKEY_ADDRESS params) id) as (s' & He' & Hdd); try done.
    assert (s' = s) as -> by congruence. rewrite Hdd. unfold Address_Get, Address_IsValid, size. cbn [vchData vchVersion]. rewrite Hl.
    by rewrite (bool_decide_true (_ = _)) by done.
  - rewrite (bool_decide_true (SCRIPT_ADDRESS params = SCRIPT_ADDRESS params)) by done. rewrite orb_true_r. cbn [andb negb]. intros He.
    destruct (DecodeDestination_encoded params (SCRIPT_ADDRESS params) id) as (s' & He' & Hdd); try done.
    assert (s' = s) as -> by congruence. rewrite Hdd. unfold Address_Get, Address_IsValid, size. cbn [vchData vchVersion]. rewrite Hl.
    rewrite (bool_decide_true (SCRIPT_ADDRESS params = SCRIPT_ADDRESS params)) by done. rewrite orb_true_r. cbn.
    by case_bool_decide.
Qed.

Lemma EncodeDestination_some params dest : dest_ok dest → IsValidDestination dest = true →
  length (PUBKEY_ADDRESS params) = 1%nat → bytes_ok (PUBKEY_ADDRESS params) →
  length (SCRIPT_ADDRESS params) = 1%nat → bytes_ok (SCRIPT_ADDRESS params) →
  ∃ s, EncodeDestination params dest = Some s.
Proof.
  intros Hd Hv Hp1 Hp2 Hs1 Hs2. unfold EncodeDestination, Base58Data_ToString.
  destruct dest as [|id|id]; [done|..]; destruct Hd as [Hl Hb]; (case_match; [by eexists|]);
    cbn [Address_Set vchVersion vchData]; rewrite take_ge by lia;
    (edestruct Base58Check_roundtrip as (s & Hs & _); [|by exists s]); by apply Forall_app.
Qed.
End CheckFacts.

(** ** Properties *)

(** Base58 loses nothing and both directions always terminate without a
    failed assertion: every byte string is encoded and decodes to itself, and a
    string that decodes is, apart from surrounding spaces, the one encoding of
    its value. *)
Theorem base58_roundtrip :
  (∀ v, bytes_ok v → ∃ s, EncodeBase58 v = Some s ∧ DecodeBase58 s = Some (Some v)) ∧
  (∀ str, ∃ r, DecodeBase58 str = Some r ∧
     ∀ v, r = Some v → bytes_ok v ∧ ∃ pre core post, c_str str = pre ++ core ++ post ∧
       Forall (λ c, isspace c = true) pre ∧ Forall (λ c, isspace c = true) post ∧ EncodeBase58 v = Some core).
Proof.
  split.
  - intros v Hv. destruct (EncodeBase58_spec v Hv) as (D & Hs & _). eexists. split; [exact Hs|].
    by apply DecodeBase58_encoded.
  - intros str. destruct (DecodeBase58_total str) as [r Hr]. exists r. split; [done|]. intros v ->.
    by apply EncodeBase58_decoded.
Qed.

(** An address names its destination on the main network: encoding a key or
    script identifier and decoding the address gives the identifier back.  On the
    test networks both kinds share one prefix, and the address of a script decodes
    to the key with the same identifier. *)
Theorem address_roundtrip `{Crypto} dest : dest_ok dest → IsValidDestination dest = true →
  (∃ s, EncodeDestination main_prefixes dest = Some s ∧ DecodeDestination main_prefixes s = Some dest) ∧
  (∃ s, EncodeDestination testnet_prefixes dest = Some s ∧
     DecodeDestination testnet_prefixes s = Some (match dest with CScriptID id => CKeyID id | _ => dest end)).
Proof.
  intros Hd Hv.
  assert (∀ params, length (PUBKEY_ADDRESS params) = 1%nat → bytes_ok (PUBKEY_ADDRESS params) →
    length (SCRIPT_ADDRESS params) = 1%nat → bytes_ok (SCRIPT_ADDRESS params) →
    ∃ s, EncodeDestination params dest = Some s) as Henc.
  { intros params. apply EncodeDestination_some; done. }
  split.
  - destruct (Henc main_prefixes) as [s Hs]; try (by repeat constructor). exists s. split; [done|].
    erewrite address_decoded; try done; try (by repeat constructor); by destruct dest.
  - destruct (Henc testnet_prefixes) as [s Hs]; try (by repeat constructor). exists s. split; [done|].
    erewrite address_decoded; try done; try (by repeat constructor); by destruct dest.
Qed.

Lemma address_roundtrip_witness :
  (∃ s, EncodeDestination (H := toy_crypto) main_prefixes (CScriptID (replicate 20 7)) = Some s ∧
     DecodeDestination (H := toy_crypto) main_prefixes s = Some (CScriptID (replicate 20 7))) ∧
  (∃ s, EncodeDestination (H := toy_crypto) testnet_prefixes (CScriptID (replicate 20 7)) = Some s ∧
     DecodeDestination (H := toy_crypto) testnet_prefixes s = Some (CKeyID (replicate 20 7))).
Proof.
  apply (address_roundtrip (H := toy_crypto) (CScriptID (replicate 20 7))); [|reflexivity].
  split; [reflexivity|]. repeat constructor; done.
Defined.
