(* ===== verification/Standard.v ===== *)
(** * Standard scripts: src/src/script/standard.{h,cpp}

    [Solver] classifies an output script and extracts its hashes and keys;
    [ExtractDestination] turns the classification into an address, and the
    builders go back from addresses to scripts.  A script on which
    [IsAssetScript] reads past its end has no result ([Err]). *)

From S2P Require Import Prelude Serialize Transaction Script Interpreter SigHash Base58.

Inductive txnouttype :=
| TX_NONSTANDARD | TX_PUBKEY | TX_PUBKEYHASH | TX_SCRIPTHASH | TX_MULTISIG | TX_NULL_DATA
| TX_WITNESS_V0_SCRIPTHASH | TX_WITNESS_V0_KEYHASH
| TX_NEW_ASSET_OUT | TX_REISSUE_ASSET_OUT | TX_TRANSFER_ASSET_OUT | TX_RESTRICTED_ASSET_DATA.
#[global] Instance txnouttype_eq_dec : EqDecision txnouttype.
Proof. solve_decision. Defined.

(** [(txnouttype)nType] for the types [IsAssetScript] returns *)
Definition txnouttype_of (nType : Z) : txnouttype :=
  if nType =? TX_NEW_ASSET then TX_NEW_ASSET_OUT
  else if nType =? TX_REISSUE_ASSET then TX_REISSUE_ASSET_OUT
  else if nType =? TX_TRANSFER_ASSET then TX_TRANSFER_ASSET_OUT
  else TX_NONSTANDARD.

(** ** Templates *)

Definition mTemplates : list (txnouttype * CScript) :=
  [(TX_PUBKEY, [OP_PUBKEY; OP_CHECKSIG]);
   (TX_PUBKEYHASH, [OP_DUP; OP_HASH160; OP_PUBKEYHASH; OP_EQUALVERIFY; OP_CHECKSIG]);
   (TX_MULTISIG, [OP_SMALLINTEGER; OP_PUBKEYS; OP_SMALLINTEGER; OP_CHECKMULTISIG])].

(** [while (vch1.size() >= 33 && vch1.size() <= 65)]: the opcode, data and
    position after the loop, and the solutions. *)
Fixpoint pubkeys_loop (fuel : nat) (opcode1 : Z) (vch1 : valtype) (pc1 : CScript) (sols : list valtype)
    : Z * valtype * CScript * list valtype :=
  if (size vch1 >=? 33) && (size vch1 <=? 65) then
    match fuel with
    | O => (opcode1, vch1, pc1, sols)
    | S f =>
        let sols := sols ++ [vch1] in
        match GetOp2 pc1 with
        | NoOp pc1 => (OP_INVALIDOPCODE, [], pc1, sols)
        | GotOp opcode1 vch1 pc1 => pubkeys_loop f opcode1 vch1 pc1 sols
        end
    end
  else (opcode1, vch1, pc1, sols).

(** The outcome of one template. *)
Inductive template_result :=
| Match (sols : list valtype)
| BadMultisig (sols : list valtype)   (* return false *)
| NoMatch.

(** The comparison of one operation; [None] is [break]. *)
Definition match_op (opcode1 opcode2 : Z) (vch1 vch2 : valtype) (sols : list valtype) : option (list valtype) :=
  if opcode2 =? OP_PUBKEY then
    if (size vch1 <? 33) || (size vch1 >? 65) then None else Some (sols ++ [vch1])
  else if opcode2 =? OP_PUBKEYHASH then
    if negb (size vch1 =? 20) then None else Some (sols ++ [vch1])
  else if opcode2 =? OP_SMALLINTEGER then
    match DecodeOP_N opcode1 with Some n => Some (sols ++ [[n]]) | None => None end
  else if negb (opcode1 =? opcode2) || negb (bool_decide (vch1 = vch2)) then None
  else Some sols.

(** The additional checks of TX_MULTISIG *)
Definition check_multisig (sols : list valtype) : template_result :=
  let m := nth 0 (nth 0 sols []) 0 in
  let n := nth 0 (List.last sols []) 0 in
  if (m <? 1) || (n <? 1) || (m >? n) || negb (size sols - 2 =? n) then BadMultisig sols else Match sols.

(** [while (true)] of the template scan; every iteration consumes an operation of
    the template. *)
Fixpoint match_template (fuel : nat) (t : txnouttype) (pc1 pc2 : CScript) (sols : list valtype) : template_result :=
  match fuel with
  | O => NoMatch
  | S f =>
      match pc1, pc2 with
      | [], [] => match t with TX_MULTISIG => check_multisig sols | _ => Match sols end
      | _, _ =>
          match GetOp2 pc1, GetOp2 pc2 with
          | GotOp opcode1 vch1 pc1, GotOp opcode2 vch2 pc2 =>
              if opcode2 =? OP_PUBKEYS then
                let '(opcode1, vch1, pc1, sols) := pubkeys_loop (S (length pc1)) opcode1 vch1 pc1 sols in
                match GetOp2 pc2 with
                | NoOp _ => NoMatch
                | GotOp opcode2 vch2 pc2 =>
                    match match_op opcode1 opcode2 vch1 vch2 sols with
                    | None => NoMatch
                    | Some sols => match_template f t pc1 pc2 sols
                    end
                end
              else
                match match_op opcode1 opcode2 vch1 vch2 sols with
                | None => NoMatch
                | Some sols => match_template f t pc1 pc2 sols
                end
          | _, _ => NoMatch
          end
      end
  end.

(** What [Solver] returns, [typeRet] ([None] when it is not assigned) and
    [vSolutionsRet]. *)
Record solution := mkSolution { sol_ok : bool; sol_type : option txnouttype; sol_data : list valtype }.

Fixpoint scan_templates (script : CScript) (ts : list (txnouttype * CScript)) : solution :=
  match ts with
  | [] => mkSolution false (Some TX_NONSTANDARD) []
  | (t, script2) :: ts' =>
      match match_template (S (length script2)) t script script2 [] with
      | Match sols => mkSolution true (Some t) sols
      | BadMultisig sols => mkSolution false (Some t) sols
      | NoMatch => scan_templates script ts'
      end
  end.

Definition Solver (s : CScript) : result nat solution :=
  if IsPayToScriptHash s then Ok (mkSolution true (Some TX_SCRIPTHASH) [take 20 (drop 2 s)])
  else
    let? asset := IsAssetScript s in
    match asset with
    | Some a => Ok (mkSolution true (Some (txnouttype_of (as_nType a))) [take 20 (drop 3 s)])
    | None =>
        Ok (match IsWitnessProgram s with
            | Some (witnessversion, witnessprogram) =>
                if (witnessversion =? 0) && (size witnessprogram =? 20)
                then mkSolution true (Some TX_WITNESS_V0_KEYHASH) [witnessprogram]
                else if (witnessversion =? 0) && (size witnessprogram =? 32)
                then mkSolution true (Some TX_WITNESS_V0_SCRIPTHASH) [witnessprogram]
                else mkSolution false None []
            | None =>
                if (size s >=? 1) && (at_ s 0 =? OP_RETURN) && IsPushOnly (drop 1 s)
                then mkSolution true (Some TX_NULL_DATA) []
                else if (size s >=? 1) && (at_ s 0 =? OP_PHI_ASSET) && IsPushOnly (drop 1 s)
                then mkSolution true (Some TX_RESTRICTED_ASSET_DATA)
                       (if (size s >=? 23) && negb (at_ s 1 =? OP_RESERVED) then [take 20 (drop 2 s)] else [])
                else scan_templates s mTemplates
            end)
    end.

(** ** Destinations *)

Section Destinations.
Context `{Crypto}.

(** [pubKey.GetID()] *)
Definition PubKey_GetID (pubkey : valtype) : list Z := CHash160 pubkey.

Definition ExtractDestination (s : CScript) : result nat (option CTxDestination) :=
  let? sol := Solver s in
  let v0 := nth 0 (sol_data sol) [] in
  Ok (if negb (sol_ok sol) then None
      else match sol_type sol with
           | Some TX_PUBKEY =>
               match PubKey_Set v0 with Some pubKey => Some (CKeyID (PubKey_GetID pubKey)) | None => None end
           | Some TX_PUBKEYHASH => Some (CKeyID v0)
           | Some TX_SCRIPTHASH => Some (CScriptID v0)
           | Some TX_NEW_ASSET_OUT | Some TX_REISSUE_ASSET_OUT | Some TX_TRANSFER_ASSET_OUT => Some (CKeyID v0)
           | Some TX_RESTRICTED_ASSET_DATA => match sol_data sol with [] => None | _ => Some (CKeyID v0) end
           | _ => None
           end).

(** The keys of a multisig output that are valid. *)
Fixpoint multisig_addresses (keys : list valtype) : list CTxDestination :=
  match keys with
  | [] => []
  | k :: keys' =>
      match PubKey_Set k with
      | Some pubKey => CKeyID (PubKey_GetID pubKey) :: multisig_addresses keys'
      | None => multisig_addresses keys'
      end
  end.

(** The type, the addresses and [nRequiredRet]; [None] when it returns false. *)
Definition ExtractDestinations (s : CScript) : result nat (option (txnouttype * list CTxDestination * Z)) :=
  let? sol := Solver s in
  match sol_ok sol, sol_type sol with
  | true, Some TX_NULL_DATA => Ok None
  | true, Some TX_MULTISIG =>
      let nRequired := nth 0 (nth 0 (sol_data sol) []) 0 in
      match multisig_addresses (removelast (drop 1 (sol_data sol))) with
      | [] => Ok None
      | addresses => Ok (Some (TX_MULTISIG, addresses, nRequired))
      end
  | true, Some t =>
      let? dest := ExtractDestination s in
      Ok (match dest with Some d => Some (t, [d], 1) | None => None end)
  | _, _ => Ok None
  end.

(** ** Scripts for destinations *)

(** [CScript() << ... << ToByteVector(b) << ...]; the 20-, 32-, 33- and 65-byte
    vectors used here are short pushes. *)
Definition GetScriptForDestination (dest : CTxDestination) : option CScript :=
  match dest with
  | CNoDestination => Some []
  | CKeyID id =>
      match push_data id with
      | Some p => Some ([OP_DUP; OP_HASH160] ++ p ++ [OP_EQUALVERIFY; OP_CHECKSIG])
      | None => None
      end
  | CScriptID id =>
      match push_data id with Some p => Some ([OP_HASH160] ++ p ++ [OP_EQUAL]) | None => None end
  end.

Definition GetScriptForNullAssetDataDestination (dest : CTxDestination) : option CScript :=
  match dest with
  | CNoDestination => Some []
  | CKeyID id | CScriptID id => match push_data id with Some p => Some (OP_PHI_ASSET :: p) | None => None end
  end.

Definition GetScriptForRawPubKey (pubKey : valtype) : option CScript :=
  match push_data pubKey with Some p => Some (p ++ [OP_CHECKSIG]) | None => None end.

Fixpoint push_all (keys : list valtype) : option CScript :=
  match keys with
  | [] => Some []
  | k :: keys' =>
      match push_data k, push_all keys' with Some p, Some ps => Some (p ++ ps) | _, _ => None end
  end.

Definition GetScriptForMultisig (nRequired : Z) (keys : list valtype) : option CScript :=
  match EncodeOP_N nRequired, push_all keys, EncodeOP_N (size keys) with
  | Some m, Some ps, Some n => Some (m :: ps ++ [n; OP_CHECKMULTISIG])
  | _, _, _ => None
  end.

Definition GetScriptForWitness (redeemscript : CScript) : result nat (option CScript) :=
  let? sol := Solver redeemscript in
  let v0 := nth 0 (sol_data sol) [] in
  let push b := match push_data b with Some p => Some (OP_0 :: p) | None => None end in
  Ok (match sol_ok sol, sol_type sol with
      | true, Some TX_PUBKEY => push (CHash160 v0)
      | true, Some TX_PUBKEYHASH => push v0
      | _, _ => push (CSHA256 redeemscript)
      end).

End Destinations.

(** ** Lemmas: fuel *)

Lemma match_template_fuel f1 f2 t pc1 pc2 sols : (length pc2 < f1)%nat → (length pc2 < f2)%nat →
  match_template f1 t pc1 pc2 sols = match_template f2 t pc1 pc2 sols.
Proof.
  revert f2 pc1 pc2 sols. induction f1 as [|f1 IH]; intros [|f2] pc1 pc2 sols H1 H2; try lia. cbn [match_template].
  destruct pc1, pc2; try done; destruct (GetOp2 (_ :: _)) as [op1 v1 q1|] eqn:E1; try done;
    destruct (GetOp2 (_ :: _)) as [op2 v2 q2|] eqn:E2 in |- *; try done; apply GetOp2_length in E2;
    (destruct (op2 =? OP_PUBKEYS); [|case_match; [apply IH; lia|done]]);
    destruct (pubkeys_loop _ _ _ _ _) as [[[]]]; destruct (GetOp2 q2) as [op3 v3 q3|] eqn:E3; try done;
    apply GetOp2_length in E3; (case_match; [apply IH; lia|done]).
Qed.

(** ** Lemmas: single-key scripts *)

Lemma push_data_short b : size b < OP_PUSHDATA1 → push_data b = Some (size b :: b).
Proof. intros Hb. unfold push_data. destruct (Z.ltb_spec (size b) OP_PUSHDATA1); [done|lia]. Qed.

Ltac destruct_bytes id := do 20 (destruct id as [|? id]; [done|]); destruct id; [|done].

Section Roundtrip.
Context `{Crypto}.

Lemma ExtractDestination_script dest : dest_ok dest → IsValidDestination dest = true →
  ∃ s, GetScriptForDestination dest = Some s ∧ ExtractDestination s = Ok (Some dest).
Proof.
  intros Hd Hv. destruct dest as [|id|id]; [done|..]; destruct Hd as [Hl _]; cbn [GetScriptForDestination].
  - rewrite push_data_short by (unfold size; lia). eexists. split; [done|]. destruct_bytes id. vm_compute. reflexivity.
  - rewrite push_data_short by (unfold size; lia). eexists. split; [done|]. destruct_bytes id. vm_compute. reflexivity.
Qed.
End Roundtrip.

(** ** Lemmas: multisig scripts *)

Definition key_ok (k : valtype) : Prop := 33 <= size k <= 65.

Lemma push_all_cons k ks : key_ok k → push_all (k :: ks) =
  match push_all ks with Some ps => Some (size k :: k ++ ps) | None => None end.
Proof. intros Hk. cbn [push_all]. rewrite push_data_short by (unfold key_ok in Hk; lia). by destruct (push_all ks). Qed.

Lemma GetOp2_key k rest : key_ok k → GetOp2 (size k :: k ++ rest) = GotOp (size k) k rest.
Proof.
  intros Hk. unfold key_ok in Hk. unfold GetOp2, read_push_size.
  destruct (Z.leb_spec (size k) OP_PUSHDATA4); [|lia]. destruct (Z.ltb_spec (size k) OP_PUSHDATA1); [|lia].
  rewrite size_app. destruct (Z.ltb_spec (size k + size rest) (size k)); [pose proof (size_nonneg rest); lia|].
  unfold size. rewrite Nat2Z.id, take_app_length, drop_app_length. done.
Qed.

Lemma GetOp2_small n rest : OP_1 <= n <= OP_16 → GetOp2 (n :: rest) = GotOp n [] rest.
Proof.
  intros Hn. unfold GetOp2. destruct (Z.leb_spec n OP_PUSHDATA4); [lia|]. by destruct (Z.eqb_spec n OP_PHI_ASSET); [lia|].
Qed.

Lemma pubkeys_loop_spec fuel k ks ps n rest sols : Forall key_ok (k :: ks) → push_all ks = Some ps → OP_1 <= n <= OP_16 →
  (length ks < fuel)%nat →
  pubkeys_loop fuel (size k) k (ps ++ n :: rest) sols = (n, [], rest, sols ++ k :: ks).
Proof.
  revert k ps fuel sols. induction ks as [|k' ks IH]; intros k ps [|f] sols Hks Hps Hn Hf; try (cbn in Hf; lia);
    inv Hks; cbn [pubkeys_loop]; unfold key_ok in *.
  - cbn in Hps. injection Hps as <-. destruct (Z.geb_spec (size k) 33); [|lia]. destruct (Z.leb_spec (size k) 65); [|lia].
    cbn [andb app]. rewrite GetOp2_small by done. by destruct f.
  - destruct (Z.geb_spec (size k) 33); [|lia]. destruct (Z.leb_spec (size k) 65); [|lia]. cbn [andb].
    rewrite push_all_cons in Hps by (by inv H2). destruct (push_all ks) as [ps'|] eqn:Hp; [|done]. injection Hps as <-.
    cbn [app]. rewrite <- app_assoc, GetOp2_key by (by inv H2).
    rewrite (IH k' ps' f (sols ++ [k])) by (try done; cbn in Hf; lia). by rewrite <- app_assoc.
Qed.

Lemma EncodeOP_N_range n : 1 <= n <= 16 → EncodeOP_N n = Some (OP_1 + n - 1) ∧ DecodeOP_N (OP_1 + n - 1) = Some n.
Proof.
  intros Hn. unfold EncodeOP_N, DecodeOP_N. split.
  - destruct (Z.geb_spec n 0), (Z.leb_spec n 16), (Z.eqb_spec n 0); try lia. done.
  - destruct (Z.eqb_spec (OP_1 + n - 1) OP_0), (Z.geb_spec (OP_1 + n - 1) OP_1), (Z.leb_spec (OP_1 + n - 1) OP_16); try lia.
    cbn [andb]. f_equal. lia.
Qed.

Lemma push_all_some keys : Forall key_ok keys → ∃ ps, push_all keys = Some ps ∧ size keys * 34 <= size ps.
Proof.
  induction 1 as [|k ks Hk Hks (ps & Hps & Hl)]; [exists []; split; [done|unfold size; cbn; lia]|].
  rewrite push_all_cons, Hps by done. eexists. split; [done|]. unfold key_ok in Hk.
  unfold size in *. cbn [length]. rewrite length_app. lia.
Qed.

Lemma match_op_small n v1 v2 sols : 1 <= n <= 16 →
  match_op (OP_1 + n - 1) OP_SMALLINTEGER v1 v2 sols = Some (sols ++ [[n]]).
Proof. intros Hn. unfold match_op. cbn [Z.eqb Pos.eqb]. by rewrite (proj2 (EncodeOP_N_range n Hn)). Qed.

Lemma match_template_step f t pc1 pc2 sols op1 v1 q1 op2 v2 q2 :
  GetOp2 pc1 = GotOp op1 v1 q1 → GetOp2 pc2 = GotOp op2 v2 q2 → op2 ≠ OP_PUBKEYS →
  match_template (S f) t pc1 pc2 sols =
  match match_op op1 op2 v1 v2 sols with None => NoMatch | Some sols => match_template f t q1 q2 sols end.
Proof.
  intros H1 H2 Hne. cbn [match_template]. rewrite H1, H2. apply Z.eqb_neq in Hne as ->.
  destruct pc1; [done|]. by destruct pc2.
Qed.

Lemma match_multisig m n keys ps : Forall key_ok keys → push_all keys = Some ps → keys ≠ [] →
  1 <= m <= n → n = size keys → n <= 16 →
  match_template 5 TX_MULTISIG (OP_1 + m - 1 :: ps ++ [OP_1 + n - 1; OP_CHECKMULTISIG])
    [OP_SMALLINTEGER; OP_PUBKEYS; OP_SMALLINTEGER; OP_CHECKMULTISIG] [] = Match ([m] :: keys ++ [[n]]).
Proof.
  intros Hk Hps Hne Hm Hn Hn16. destruct keys as [|k ks]; [done|]. pose proof Hk as Hk'. inv Hk.
  rewrite push_all_cons in Hps by done. destruct (push_all ks) as [ps'|] eqn:Hp; [|done]. injection Hps as <-.
  erewrite match_template_step; [|apply GetOp2_small; lia|done|done]. rewrite match_op_small by lia.
  cbn [match_template app]. rewrite <- app_assoc, GetOp2_key by done. cbn [GetOp2 Z.leb Z.eqb Z.compare Pos.compare Pos.compare_cont Pos.eqb].
  rewrite (pubkeys_loop_spec _ k ks ps') by (try done; try lia; rewrite length_app;
    destruct (push_all_some ks ltac:(done)) as (q & Hq & Hqs); rewrite Hp in Hq; injection Hq as ->; unfold size in *; lia).
  rewrite match_op_small by lia. cbn [app].
  change (GetOp2 [OP_CHECKMULTISIG]) with (GotOp OP_CHECKMULTISIG [] []). cbv iota.
  unfold match_op. cbn [Z.eqb Pos.eqb negb orb]. rewrite bool_decide_true by done. cbn [negb].
  unfold check_multisig. rewrite !app_comm_cons, last_last. cbn [app nth].
  unfold size in *. cbn [length] in *. rewrite length_app. cbn [length].
  repeat match goal with |- context [?a <? ?b] => destruct (Z.ltb_spec a b); [lia|]
    | |- context [?a >? ?b] => destruct (Z.gtb_spec a b); [lia|] end.
  destruct (Z.eqb_spec (Z.of_nat (S (S (length ks + 1))) - 2) (Z.of_nat (S (length ks)))); [done|lia].
Qed.

(** ** Lemmas: asset scripts *)

Lemma read_byte_suffix p1 p2 t i : length p1 = length p2 → (length p1 <= i)%nat → read_byte (p1 ++ t) i = read_byte (p2 ++ t) i.
Proof. intros Hl Hi. unfold read_byte. rewrite !lookup_app_r by lia. by rewrite Hl. Qed.

(** Only the bytes from 25 on decide whether a script is an asset script. *)
Lemma IsAssetScript_suffix p1 p2 t : length p1 = 25%nat → length p2 = 25%nat → IsAssetScript (p1 ++ t) = IsAssetScript (p2 ++ t).
Proof.
  intros H1 H2. assert (∀ i, (25 <= i)%nat → read_byte (p1 ++ t) i = read_byte (p2 ++ t) i) as Hr.
  { intros i Hi. apply read_byte_suffix; lia. }
  assert (∀ i, (25 <= i)%nat → asset_marker (p1 ++ t) i = asset_marker (p2 ++ t) i) as Hm.
  { intros i Hi. unfold asset_marker. by rewrite !Hr by lia. }
  assert (asset_index (p1 ++ t) = asset_index (p2 ++ t)) as Hi by (unfold asset_index; by rewrite Hr, !Hm by lia).
  unfold IsAssetScript. rewrite !size_app. replace (size p1) with (size p2) by (unfold size; lia).
  rewrite Hi, (Hr 25%nat) by lia. case_match; [done|]. destruct (read_byte (p2 ++ t) 25); [|done]. cbn [rbind].
  case_match; [done|]. destruct (asset_index (p2 ++ t)) as [[index|]|] eqn:Hidx; try done. cbn [rbind].
  assert (25 <= index)%nat as Hge; [|by rewrite Hr].
  unfold asset_index in Hidx. destruct (read_byte _ 26); [|done]. cbn [rbind] in Hidx.
  assert (∀ j, asset_marker (p2 ++ t) j = Ok (Some index) → index = (j + 3)%nat) as Hj.
  { intros j Hjj. unfold asset_marker in Hjj.
    repeat (destruct (read_byte (p2 ++ t) _) in Hjj; [|done]; cbn [rbind] in Hjj; case_match; [done|]). by injection Hjj. }
  repeat case_match; try done; apply Hj in Hidx; lia.
Qed.

Lemma IsWitnessProgram_multisig m k rest : key_ok k → 2 <= size rest →
  IsWitnessProgram (OP_1 + m - 1 :: size k :: k ++ rest) = None.
Proof.
  intros Hk Hr. unfold IsWitnessProgram. unfold size in *. cbn [length nth]. rewrite length_app.
  case_match; [done|]. case_match; [done|]. case_match eqn:E; [|done]. apply Z.eqb_eq in E. lia.
Qed.

Lemma Solver_multisig m keys ps : Forall key_ok keys → push_all keys = Some ps → keys ≠ [] →
  1 <= m <= size keys → size keys <= 16 →
  let s := OP_1 + m - 1 :: ps ++ [OP_1 + size keys - 1; OP_CHECKMULTISIG] in
  IsAssetScript s = Ok None →
  Solver s = Ok (mkSolution true (Some TX_MULTISIG) ([m] :: keys ++ [[size keys]])).
Proof.
  intros Hk Hps Hne Hm Hn s Ha.
  assert (match_template 5 TX_MULTISIG s [OP_SMALLINTEGER; OP_PUBKEYS; OP_SMALLINTEGER; OP_CHECKMULTISIG] []
    = Match ([m] :: keys ++ [[size keys]])) as Hmatch by by apply match_multisig.
  assert (GetOp2 s = GotOp (OP_1 + m - 1) [] (ps ++ [OP_1 + size keys - 1; OP_CHECKMULTISIG])) as Hop by (apply GetOp2_small; lia).
  unfold Solver. assert (IsPayToScriptHash s = false) as ->.
  { unfold IsPayToScriptHash, s. cbn [nth]. destruct (Z.eqb_spec (OP_1 + m - 1) OP_HASH160); [lia|]. by rewrite andb_false_r. }
  rewrite Ha. cbn [rbind]. assert (IsWitnessProgram s = None) as ->.
  { destruct keys as [|k ks]; [done|]. unfold s. inv Hk. rewrite push_all_cons in Hps by done.
    destruct (push_all ks) as [q|]; [|done]. injection Hps as <-. cbn [app]. rewrite <- app_assoc.
    apply IsWitnessProgram_multisig; [done|]. rewrite size_app. unfold size. cbn [length]. lia. }
  assert (at_ s 0 = OP_1 + m - 1) as -> by done.
  destruct (Z.eqb_spec (OP_1 + m - 1) OP_RETURN); [lia|]. destruct (Z.eqb_spec (OP_1 + m - 1) OP_PHI_ASSET); [lia|].
  rewrite !andb_false_r. cbn [andb]. unfold mTemplates. cbn [scan_templates length].
  erewrite match_template_step; [|exact Hop|done|done]. unfold match_op at 1. cbn [Z.eqb Pos.eqb size length].
  erewrite match_template_step; [|exact Hop|done|done]. unfold match_op at 1.
  change (OP_DUP =? OP_PUBKEY) with false. change (OP_DUP =? OP_PUBKEYHASH) with false. change (OP_DUP =? OP_SMALLINTEGER) with false.
  cbv iota. destruct (Z.eqb_spec (OP_1 + m - 1) OP_DUP); [lia|]. cbn [negb orb]. by rewrite Hmatch.
Qed.

Lemma IsAssetScript_type s a : IsAssetScript s = Ok (Some a) →
  as_nType a = TX_NEW_ASSET ∨ as_nType a = TX_REISSUE_ASSET ∨ as_nType a = TX_TRANSFER_ASSET.
Proof.
  unfold IsAssetScript. intros Ha. case_match; [done|].
  destruct (read_byte s 25); [|done]. cbn [rbind] in Ha. case_match; [done|].
  destruct (asset_index s) as [[i|]|]; try done. cbn [rbind] in Ha. destruct (read_byte s i); [|done]. cbn [rbind] in Ha.
  repeat (case_match; [injection Ha as <-; cbn; auto|]). done.
Qed.

(** ** Properties *)

(** Destinations survive scripts: the output script of a valid key or script
    identifier is recognised as paying to it. *)
Theorem destination_roundtrip `{Crypto} dest : dest_ok dest → IsValidDestination dest = true →
  ∃ s, GetScriptForDestination dest = Some s ∧ ExtractDestination s = Ok (Some dest).
Proof. apply ExtractDestination_script. Qed.

Lemma destination_roundtrip_witness :
  ∃ s, GetScriptForDestination (CKeyID (replicate 20 7)) = Some s ∧
       ExtractDestination (H := toy_crypto) s = Ok (Some (CKeyID (replicate 20 7))).
Proof. apply (destination_roundtrip (H := toy_crypto)); [split; [reflexivity|repeat constructor; done]|reflexivity]. Defined.

(** A bare multisig script built from [m] of [n] keys is solved as exactly
    those keys and numbers, unless its bytes happen to form an asset script. *)
Theorem multisig_solved m keys s : Forall key_ok keys → keys ≠ [] → 1 <= m <= size keys → size keys <= 16 →
  GetScriptForMultisig m keys = Some s → IsAssetScript s = Ok None →
  Solver s = Ok (mkSolution true (Some TX_MULTISIG) ([m] :: keys ++ [[size keys]])).
Proof.
  intros Hk Hne Hm Hn Hs Ha. unfold GetScriptForMultisig in Hs.
  rewrite (proj1 (EncodeOP_N_range m ltac:(lia))), (proj1 (EncodeOP_N_range (size keys) ltac:(lia))) in Hs.
  destruct (push_all keys) as [ps|] eqn:Hp; [|done]. injection Hs as <-. by apply Solver_multisig.
Qed.

Lemma multisig_solved_witness :
  ∃ s, GetScriptForMultisig 1 [replicate 33 2; replicate 65 4] = Some s ∧
    Solver s = Ok (mkSolution true (Some TX_MULTISIG) [[1]; replicate 33 2; replicate 65 4; [2]]).
Proof.
  eexists. split; [reflexivity|]. apply (multisig_solved 1 [replicate 33 2; replicate 65 4]); try reflexivity; try done.
  repeat constructor; done.
Defined.

(** A key whose bytes spell an asset marker *)
Definition marker_key : valtype := 2 :: replicate 22 9 ++ [OP_PHI_ASSET; 16; PHI_R; PHI_V; PHI_N; PHI_T; 1; 1; 1; 1].

(** The asset marker is not anchored to a pay-to-pubkey-hash script.  Whether a
    script is an asset script depends only on its bytes from 25 on, and its
    destination is then the key hash made of the bytes 3 to 22, whatever script
    they belong to: a one-of-one multisig output is taken for an asset transfer
    when its key contains the marker. *)
Theorem asset_script_unanchored `{Crypto} :
  (∀ p1 p2 t, length p1 = 25%nat → length p2 = 25%nat → IsAssetScript (p1 ++ t) = IsAssetScript (p2 ++ t)) ∧
  (∀ s a, IsAssetScript s = Ok (Some a) → ExtractDestination s = Ok (Some (CKeyID (take 20 (drop 3 s))))) ∧
  (∃ s, GetScriptForMultisig 1 [marker_key] = Some s ∧ ExtractDestination s = Ok (Some (CKeyID (replicate 20 9)))).
Proof.
  split_and!; [apply IsAssetScript_suffix| |eexists; split; [reflexivity|vm_compute; reflexivity]].
  intros s a Ha. unfold ExtractDestination, Solver.
  assert (IsPayToScriptHash s = false) as ->.
  { unfold IsAssetScript in Ha. destruct (Z.gtb_spec (size s) 31); [|done]. unfold IsPayToScriptHash.
    destruct (Z.eqb_spec (size s) 23); [lia|done]. }
  rewrite Ha. cbn [rbind sol_ok sol_type sol_data negb nth].
  by destruct (IsAssetScript_type s a Ha) as [-> | [-> | ->]].
Qed.
