(* ===== verification/AssetScripts.v ===== *)
(** * Asset transactions: src/src/assets/assets.cpp

    How asset data and the address it belongs to are read from output scripts, which
    transactions issue or reissue assets, the outputs such a transaction must have, and
    the limits on the data itself.

    [GetParams()] and the state of the deployments are the class [AssetEnv].  A reject
    reason is the text of the source without the parts it fills in.  An [AssetType]
    variable that is read although [IsAssetNameValid] did not set it, which happens for
    names of more than 266 bytes, has the value [indeterminate]. *)

From Stdlib Require Import String.
From S2P Require Import Prelude Serialize Transaction Script Interpreter Regex AssetTypes AssetNames Verifier Base58 Standard.

Open Scope string_scope.
Open Scope list_scope.
Open Scope Z_scope.

(** ** Parameters of the network *)

Record BurnParams := mkBurnParams {
  nIssueAssetBurnAmount : Z; nReissueAssetBurnAmount : Z; nIssueSubAssetBurnAmount : Z;
  nIssueUniqueAssetBurnAmount : Z; nIssueMsgChannelAssetBurnAmount : Z; nIssueQualifierAssetBurnAmount : Z;
  nIssueSubQualifierAssetBurnAmount : Z; nIssueRestrictedAssetBurnAmount : Z; nAddNullQualifierTagBurnAmount : Z;
  strIssueAssetBurnAddress : list Z; strReissueAssetBurnAddress : list Z; strIssueSubAssetBurnAddress : list Z;
  strIssueUniqueAssetBurnAddress : list Z; strIssueMsgChannelAssetBurnAddress : list Z;
  strIssueQualifierAssetBurnAddress : list Z; strIssueSubQualifierAssetBurnAddress : list Z;
  strIssueRestrictedAssetBurnAddress : list Z; strAddNullQualifierTagBurnAddress : list Z
}.

(** The main network: "PkC3bSAjN99cFg9yQbPYn5sQ89Gnvnnmcf" and a tenth of a coin each. *)
Definition main_burn_address : list Z :=
  [80; 107; 67; 51; 98; 83; 65; 106; 78; 57; 57; 99; 70; 103; 57; 121; 81; 98; 80; 89; 110; 53; 115; 81; 56; 57; 71; 110;
   118; 110; 110; 109; 99; 102].
Definition main_burns : BurnParams :=
  let a := COIN / 10 in let s := main_burn_address in
  mkBurnParams a a a a a a a a a s s s s s s s s s.

Class AssetEnv := {
  prefixes : Base58Prefixes;
  burns : BurnParams;
  is_testnet : bool;
  AreAssetsDeployed : bool;
  AreMessagesDeployed : bool;
  AreRestrictedAssetsDeployed : bool;
  AreTransferScriptsSizeDeployed : bool;
  AreEnforcedValuesDeployed : bool;
  AreCoinbaseCheckAssetsDeployed : bool;
  indeterminate : AssetType
}.

(** The main network with all deployments active. *)
Definition main_env : AssetEnv := {|
  prefixes := main_prefixes; burns := main_burns; is_testnet := false;
  AreAssetsDeployed := true; AreMessagesDeployed := true; AreRestrictedAssetsDeployed := true;
  AreTransferScriptsSizeDeployed := true; AreEnforcedValuesDeployed := true; AreCoinbaseCheckAssetsDeployed := true;
  indeterminate := INVALID
|}.

(** How a check ends other than with its value: rejected with a reason, or stopped. *)
Inductive tx_error :=
  | Reject (nDoS : Z) (reason : string)
  | ReadPastEnd (index : nat)
  | AssertFailed
  | Thrown
  | NullPointer
  | UndefinedArithmetic.

Definition read {A} (r : result nat A) : result tx_error A :=
  match r with Ok a => Ok a | Err n => Err (ReadPastEnd n) end.
Definition assert_some {A} (o : option A) : result tx_error A :=
  match o with Some a => Ok a | None => Err AssertFailed end.
Definition require (b : bool) (nDoS : Z) (reason : string) : result tx_error () :=
  if b then Ok () else Err (Reject nDoS reason).

(** The first element of a vector that passes a test, scanning until it is found. *)
Fixpoint any_out (p : CTxOut → result tx_error bool) (vout : list CTxOut) : result tx_error bool :=
  match vout with
  | [] => Ok false
  | out :: vout => let? b := p out in if b then Ok true else any_out p vout
  end.

(** [vout[vout.size() - i]] *)
Definition out_back (vout : list CTxOut) (i : nat) : result tx_error CTxOut :=
  match nth_error vout (length vout - i) with Some o => Ok o | None => Err (ReadPastEnd (length vout - i)) end.

Section asset_scripts.
Context {Cry : Crypto} {Split : BoostSplit} {Env : AssetEnv}.

(** [AssetType t; IsAssetNameValid(name, t);] *)
Definition name_type (init : AssetType) (name : list Z) : AssetType :=
  match IsAssetNameValid name with Ok t => t | Err None => init | Err (Some _) => INVALID end.

(** ** Reading asset scripts *)

Definition script_address (s : CScript) : result tx_error (list Z) :=
  let? d := read (ExtractDestination s) in
  assert_some (EncodeDestination prefixes (default CNoDestination d)).

(** The data at an index of a script, with the address of the script. *)
Definition from_script {A} (start : result tx_error (option nat)) (r : reader A) (s : CScript)
    : result tx_error (option (A * list Z)) :=
  let? i := start in
  match i with
  | None => Ok None
  | Some i =>
      let? address := script_address s in
      Ok (match parse_from r (drop i s) with Some a => Some (a, address) | None => None end)
  end.

Definition IsScriptNewAsset (s : CScript) : result tx_error (option nat) :=
  read (asset_start (fun a => (as_nType a =? TX_NEW_ASSET) && negb (as_fIsOwner a)) s).
Definition IsScriptOwnerAsset (s : CScript) : result tx_error (option nat) :=
  read (asset_start (fun a => (as_nType a =? TX_NEW_ASSET) && as_fIsOwner a) s).
Definition IsScriptReissueAsset (s : CScript) : result tx_error (option nat) :=
  read (asset_start (fun a => as_nType a =? TX_REISSUE_ASSET) s).
Definition IsScriptTransferAsset (s : CScript) : result tx_error (option nat) :=
  read (asset_start (fun a => as_nType a =? TX_TRANSFER_ASSET) s).

Definition AssetFromScript (s : CScript) : result tx_error (option (CNewAsset * list Z)) :=
  from_script (IsScriptNewAsset s) deser_NewAsset s.
Definition OwnerAssetFromScript (s : CScript) : result tx_error (option (list Z * list Z)) :=
  from_script (IsScriptOwnerAsset s) Unserialize_string s.
Definition ReissueAssetFromScript (s : CScript) : result tx_error (option (CReissueAsset * list Z)) :=
  from_script (IsScriptReissueAsset s) deser_Reissue s.
Definition TransferAssetFromScript (s : CScript) : result tx_error (option (CAssetTransfer * list Z)) :=
  from_script
    (let? i := IsScriptTransferAsset s in
     Ok (match i with Some i => Some (if AreTransferScriptsSizeDeployed then i else 31%nat) | None => None end))
    deser_Transfer s.

(** An issuing script whose asset name is of one of some types. *)
Definition issue_of_type (p : AssetType → bool) (s : CScript) : result tx_error (option nat) :=
  let? a := read (IsAssetScript s) in
  match a with
  | None => Ok None
  | Some a =>
      let? r := AssetFromScript s in
      Ok (match r with
          | None => None
          | Some (asset, _) =>
              match IsAssetNameValid (na_strName asset) with
              | Ok t => if p t then Some (Z.to_nat (as_nStartingIndex a)) else None
              | Err _ => None
              end
          end)
  end.
Definition IsScriptNewUniqueAsset : CScript → result tx_error (option nat) :=
  issue_of_type (fun t => bool_decide (t = UNIQUE)).
Definition IsScriptNewMsgChannelAsset : CScript → result tx_error (option nat) :=
  issue_of_type (fun t => bool_decide (t = MSGCHANNEL)).
Definition IsScriptNewQualifierAsset : CScript → result tx_error (option nat) :=
  issue_of_type (fun t => bool_decide (t = QUALIFIER) || bool_decide (t = SUB_QUALIFIER)).
Definition IsScriptNewRestrictedAsset : CScript → result tx_error (option nat) :=
  issue_of_type (fun t => bool_decide (t = RESTRICTED)).

Definition MsgChannelAssetFromScript (s : CScript) : result tx_error (option (CNewAsset * list Z)) :=
  from_script (IsScriptNewMsgChannelAsset s) deser_NewAsset s.
Definition QualifierAssetFromScript (s : CScript) : result tx_error (option (CNewAsset * list Z)) :=
  from_script (IsScriptNewQualifierAsset s) deser_NewAsset s.
Definition RestrictedAssetFromScript (s : CScript) : result tx_error (option (CNewAsset * list Z)) :=
  from_script (IsScriptNewRestrictedAsset s) deser_NewAsset s.

Definition AssetNullDataFromScript (s : CScript) : result tx_error (option (CNullAssetTxData * list Z)) :=
  if negb (IsNullAssetTxDataScript s) then Ok None
  else
    let? address := script_address s in
    Ok (match parse_from deser_NullData (drop OFFSET_TWENTY_THREE s) with Some d => Some (d, address) | None => None end).

(** ** What an output holds *)

Record CAssetOutputEntry := mkAssetEntry {
  ae_type : Z; ae_assetName : list Z; ae_destination : CTxDestination; ae_nAmount : Z;
  ae_message : list Z; ae_expireTime : Z
}.

Definition entry_at_address (type : Z) (name address : list Z) (nAmount : Z) (message : list Z) (expire : Z)
    : result tx_error (option CAssetOutputEntry) :=
  let? d := assert_some (DecodeDestination prefixes address) in
  Ok (Some (mkAssetEntry type name d nAmount message expire)).

(** [GetAssetData].  When [AssetFromScript] fails on an issuing script so do the three
    readers that are tried after it: they read the same script as the same type. *)
Definition GetAssetData (script : CScript) : result tx_error (option CAssetOutputEntry) :=
  let? a := read (IsAssetScript script) in
  match a with
  | None => Ok None
  | Some a =>
      if (as_nType a =? TX_NEW_ASSET) && negb (as_fIsOwner a) then
        let? r := AssetFromScript script in
        match r with
        | Some (asset, address) => entry_at_address TX_NEW_ASSET (na_strName asset) address (na_nAmount asset) [] 0
        | None => Ok None
        end
      else if as_nType a =? TX_TRANSFER_ASSET then
        let? r := TransferAssetFromScript script in
        match r with
        | Some (t, address) =>
            entry_at_address TX_TRANSFER_ASSET (tr_strName t) address (tr_nAmount t) (tr_message t) (tr_nExpireTime t)
        | None => Ok None
        end
      else if (as_nType a =? TX_NEW_ASSET) && as_fIsOwner a then
        let? r := OwnerAssetFromScript script in
        match r with
        | Some (name, address) => entry_at_address TX_NEW_ASSET name address OWNER_ASSET_AMOUNT [] 0
        | None => Ok None
        end
      else if as_nType a =? TX_REISSUE_ASSET then
        let? r := ReissueAssetFromScript script in
        match r with
        | Some (reissue, address) =>
            entry_at_address TX_REISSUE_ASSET (re_strName reissue) address (re_nAmount reissue) [] 0
        | None => Ok None
        end
      else Ok None
  end.

Record asset_counts := mkCounts { n_issues : Z; n_reissues : Z; n_transfers : Z; n_owners : Z }.

Fixpoint GetTxOutAssetTypes (vout : list CTxOut) (c : asset_counts) : result tx_error asset_counts :=
  match vout with
  | [] => Ok c
  | out :: vout =>
      let? a := read (IsAssetScript (scriptPubKey out)) in
      let '(mkCounts i r t o) := c in
      GetTxOutAssetTypes vout
        (match a with
         | None => c
         | Some a =>
             if (as_nType a =? TX_NEW_ASSET) && negb (as_fIsOwner a) then mkCounts (i + 1) r t o
             else if (as_nType a =? TX_NEW_ASSET) && as_fIsOwner a then mkCounts i r t (o + 1)
             else if as_nType a =? TX_TRANSFER_ASSET then mkCounts i r (t + 1) o
             else if as_nType a =? TX_REISSUE_ASSET then mkCounts i (r + 1) t o
             else c
         end)
  end.
Definition asset_types_of (vout : list CTxOut) : result tx_error asset_counts := GetTxOutAssetTypes vout (mkCounts 0 0 0 0).

(** ** Burned fees *)

Definition GetBurnAmount (type : AssetType) : Z :=
  match type with
  | ROOT => nIssueAssetBurnAmount burns
  | SUB => nIssueSubAssetBurnAmount burns
  | MSGCHANNEL => nIssueMsgChannelAssetBurnAmount burns
  | OWNER => 0
  | UNIQUE => nIssueUniqueAssetBurnAmount burns
  | VOTE => 0
  | REISSUE => nReissueAssetBurnAmount burns
  | QUALIFIER => nIssueQualifierAssetBurnAmount burns
  | SUB_QUALIFIER => nIssueSubQualifierAssetBurnAmount burns
  | RESTRICTED => nIssueRestrictedAssetBurnAmount burns
  | NULL_ADD_QUALIFIER => nAddNullQualifierTagBurnAmount burns
  | INVALID => 0
  end.
Definition GetBurnAddress (type : AssetType) : list Z :=
  match type with
  | ROOT => strIssueAssetBurnAddress burns
  | SUB => strIssueSubAssetBurnAddress burns
  | MSGCHANNEL => strIssueMsgChannelAssetBurnAddress burns
  | OWNER => []
  | UNIQUE => strIssueUniqueAssetBurnAddress burns
  | VOTE => []
  | REISSUE => strReissueAssetBurnAddress burns
  | QUALIFIER => strIssueQualifierAssetBurnAddress burns
  | SUB_QUALIFIER => strIssueSubQualifierAssetBurnAddress burns
  | RESTRICTED => strIssueRestrictedAssetBurnAddress burns
  | NULL_ADD_QUALIFIER => strAddNullQualifierTagBurnAddress burns
  | INVALID => []
  end.

Definition pays_to (out : CTxOut) (address : list Z) : result tx_error bool :=
  let? d := read (ExtractDestination (scriptPubKey out)) in
  match d with
  | None => Ok false
  | Some d =>
      if negb (IsValidDestination d) then Ok false
      else let? s := assert_some (EncodeDestination prefixes d) in Ok (bool_decide (s = address))
  end.

Definition CheckIssueBurnTx (type : AssetType) (numberIssued : Z) (out : CTxOut) : result tx_error bool :=
  match type with
  | REISSUE | VOTE | OWNER | INVALID => Ok false
  | _ =>
      if negb (nValue out =? i64 (GetBurnAmount type * numberIssued)) then Ok false
      else pays_to out (GetBurnAddress type)
  end.
Definition CheckReissueBurnTx (out : CTxOut) : result tx_error bool :=
  if negb (nValue out =? nReissueAssetBurnAmount burns) then Ok false
  else pays_to out (strReissueAssetBurnAddress burns).

Definition is_some {A} (o : option A) : bool := match o with Some _ => true | None => false end.
Definition CheckIssueDataTx (out : CTxOut) : result tx_error bool :=
  let? i := IsScriptNewAsset (scriptPubKey out) in Ok (is_some i).
Definition CheckReissueDataTx (out : CTxOut) : result tx_error bool :=
  let? i := IsScriptReissueAsset (scriptPubKey out) in Ok (is_some i).
Definition CheckOwnerDataTx (out : CTxOut) : result tx_error bool :=
  let? i := IsScriptOwnerAsset (scriptPubKey out) in Ok (is_some i).

(** An output that transfers an asset of the given name. *)
Definition transfers_name (name : list Z) (out : CTxOut) : result tx_error bool :=
  let? r := TransferAssetFromScript (scriptPubKey out) in
  Ok (match r with Some (t, _) => bool_decide (name = tr_strName t) | None => false end).

(** ** Kinds of transactions *)

Definition last_out_is (p : CScript → result tx_error (option nat)) (tx : CTransaction) : result tx_error bool :=
  let? out := out_back (vout tx) 1 in
  let? b := CheckIssueDataTx out in
  if negb b then Ok false else let? i := p (scriptPubKey out) in Ok (is_some i).
Definition IsNewUniqueAsset : CTransaction → result tx_error bool := last_out_is IsScriptNewUniqueAsset.
Definition IsNewMsgChannelAsset : CTransaction → result tx_error bool := last_out_is IsScriptNewMsgChannelAsset.
Definition IsNewQualifierAsset : CTransaction → result tx_error bool := last_out_is IsScriptNewQualifierAsset.
Definition IsNewRestrictedAsset : CTransaction → result tx_error bool := last_out_is IsScriptNewRestrictedAsset.

Definition IsNewAsset (tx : CTransaction) : result tx_error bool :=
  if (length (vout tx) <? 3)%nat then Ok false
  else
    let? out := out_back (vout tx) 1 in
    let? issue := CheckIssueDataTx out in
    if negb issue then Ok false
    else
      let? owner_out := out_back (vout tx) 2 in
      let? owner := CheckOwnerDataTx owner_out in
      if negb owner then Ok false
      else
        let? unique := IsScriptNewUniqueAsset (scriptPubKey out) in
        if is_some unique then Ok false
        else
          let? restricted := IsScriptNewRestrictedAsset (scriptPubKey out) in
          Ok (negb (is_some restricted)).

Definition IsReissueAsset (tx : CTransaction) : result tx_error bool :=
  let? out := out_back (vout tx) 1 in CheckReissueDataTx out.

(** The data in the last output of a transaction of a kind. *)
Definition from_transaction {A} (kind : CTransaction → result tx_error bool) (i : nat)
    (f : CScript → result tx_error (option A)) (tx : CTransaction) : result tx_error (option A) :=
  let? b := kind tx in
  if negb b then Ok None else let? out := out_back (vout tx) i in f (scriptPubKey out).
Definition AssetFromTransaction : CTransaction → result tx_error (option (CNewAsset * list Z)) :=
  from_transaction IsNewAsset 1 AssetFromScript.
Definition OwnerFromTransaction : CTransaction → result tx_error (option (list Z * list Z)) :=
  from_transaction IsNewAsset 2 OwnerAssetFromScript.
Definition MsgChannelAssetFromTransaction : CTransaction → result tx_error (option (CNewAsset * list Z)) :=
  from_transaction IsNewMsgChannelAsset 1 MsgChannelAssetFromScript.
Definition QualifierAssetFromTransaction : CTransaction → result tx_error (option (CNewAsset * list Z)) :=
  from_transaction IsNewQualifierAsset 1 QualifierAssetFromScript.
Definition RestrictedAssetFromTransaction : CTransaction → result tx_error (option (CNewAsset * list Z)) :=
  from_transaction IsNewRestrictedAsset 1 RestrictedAssetFromScript.
Definition ReissueAssetFromTransaction : CTransaction → result tx_error (option (CReissueAsset * list Z)) :=
  from_transaction IsReissueAsset 1 ReissueAssetFromScript.
Definition UniqueAssetFromTransaction : CTransaction → result tx_error (option (CNewAsset * list Z)) :=
  from_transaction IsNewUniqueAsset 1 AssetFromScript.

(** ** Outputs an issuing transaction must have

    A check that fails with an error text is rejected with that text and 100 points,
    as every caller does. *)

Definition check (b : bool) (reason : string) : result tx_error () := require b 100 reason.
Definition check_r (b : result tx_error bool) (reason : string) : result tx_error () := let? b := b in check b reason.
Definition get {A} (r : result tx_error (option A)) (reason : string) : result tx_error A :=
  let? o := r in match o with Some a => Ok a | None => Err (Reject 100 reason) end.
Definition prefixed {A} (prefix : string) (r : result tx_error A) : result tx_error A :=
  match r with Err (Reject d s) => Err (Reject d (prefix ++ s)) | r => r end.

Definition has_size (tx : CTransaction) (n : nat) : bool := negb (length (vout tx) <? n)%nat.
Definition last_script (tx : CTransaction) : result tx_error CScript :=
  let? out := out_back (vout tx) 1 in Ok (scriptPubKey out).

(** The loop of [VerifyNewUniqueAsset] over the outputs: the names found so far, the
    common parent and the number of new unique assets. *)
Fixpoint collect_unique (vout : list CTxOut) (names : list (list Z)) (assetRoot : list Z) (count : Z)
    : result tx_error (list Z * Z) :=
  match vout with
  | [] => Ok (assetRoot, count)
  | out :: vout =>
      let? i := IsScriptNewUniqueAsset (scriptPubKey out) in
      if negb (is_some i) then collect_unique vout names assetRoot count
      else
        let? a := get (AssetFromScript (scriptPubKey out)) "bad-txns-issue-unique-asset-from-script" in
        let name := na_strName (fst a) in
        let root := GetParentName name in
        let assetRoot := if decide (assetRoot = []) then root else assetRoot in
        let? _ := check (bool_decide (assetRoot = root)) "bad-txns-issue-unique-asset-compare-failed" in
        let? _ := check (negb (bool_decide (name ∈ names))) "bad-txns-issue-unique-duplicate-name-in-same-tx" in
        collect_unique vout (name :: names) assetRoot (count + 1)
  end.

Definition VerifyNewUniqueAsset (tx : CTransaction) : result tx_error () :=
  let? _ := check (has_size tx 3) "bad-txns-unique-vout-size-to-small" in
  let? rc := collect_unique (vout tx) [] [] 0 in
  let '(assetRoot, assetOutpointCount) := rc in
  let? _ := check (negb (assetOutpointCount =? 0)) "bad-txns-issue-unique-asset-bad-outpoint-count" in
  let? _ := check_r (any_out (CheckIssueBurnTx UNIQUE assetOutpointCount) (vout tx))
                    "bad-txns-issue-unique-asset-burn-outpoints-not-found" in
  let? _ := check_r (any_out (transfers_name (assetRoot ++ OWNER_TAG)) (vout tx))
                    "bad-txns-issue-unique-asset-missing-owner-asset" in
  let? n := asset_types_of (vout tx) in
  check (negb ((n_owners n >? 0) || (n_reissues n >? 0) || negb (n_issues n =? assetOutpointCount)))
        "bad-txns-failed-unique-asset-formatting-check".

Definition VerifyNewAsset (tx : CTransaction) : result tx_error () :=
  let? _ := check (has_size tx 3) "bad-txns-issue-vout-size-to-small" in
  let? out := out_back (vout tx) 1 in
  let? _ := check_r (CheckIssueDataTx out) "bad-txns-issue-data-not-found" in
  let? owner_out := out_back (vout tx) 2 in
  let? _ := check_r (CheckOwnerDataTx owner_out) "bad-txns-issue-owner-data-not-found" in
  let? a := get (AssetFromScript (scriptPubKey out)) "bad-txns-issue-serialzation-failed" in
  let name := na_strName (fst a) in
  let assetType := name_type indeterminate name in
  let? o := get (OwnerAssetFromScript (scriptPubKey owner_out)) "bad-txns-issue-owner-serialzation-failed" in
  let? _ := check (bool_decide (fst o = name ++ OWNER_TAG)) "bad-txns-issue-owner-name-doesn't-match" in
  let? _ := check_r (any_out (CheckIssueBurnTx assetType 1) (vout tx)) "bad-txns-issue-burn-not-found" in
  let? _ :=
    if decide (assetType = SUB) then
      check_r (any_out (transfers_name (GetParentName name ++ OWNER_TAG)) (vout tx))
              "bad-txns-issue-new-asset-missing-owner-asset"
    else Ok () in
  let? n := asset_types_of (vout tx) in
  check (negb (negb (n_owners n =? 1) || negb (n_issues n =? 1) || (n_reissues n >? 0)))
        "bad-txns-failed-issue-asset-formatting-check".

Definition VerifyNewMsgChannelAsset (tx : CTransaction) : result tx_error () :=
  let? _ := check (has_size tx 3) "bad-txns-issue-msgchannel-vout-size-to-small" in
  let? out := out_back (vout tx) 1 in
  let? _ := check_r (CheckIssueDataTx out) "bad-txns-issue-data-not-found" in
  let? a := get (MsgChannelAssetFromScript (scriptPubKey out)) "bad-txns-issue-msgchannel-serialzation-failed" in
  let name := na_strName (fst a) in
  let? _ := check_r (any_out (CheckIssueBurnTx MSGCHANNEL 1) (vout tx)) "bad-txns-issue-msgchannel-burn-not-found" in
  let? _ := check_r (any_out (transfers_name (GetParentName name ++ OWNER_TAG)) (vout tx))
                    "bad-txns-issue-msg-channel-asset-bad-owner-asset" in
  let? n := asset_types_of (vout tx) in
  check (negb (negb (n_owners n =? 0) || negb (n_issues n =? 1) || (n_reissues n >? 0)))
        "bad-txns-failed-issue-msgchannel-asset-formatting-check".

Definition VerifyNewQualfierAsset (tx : CTransaction) : result tx_error () :=
  let? _ := check (has_size tx 2) "bad-txns-issue-qualifier-vout-size-to-small" in
  let? out := out_back (vout tx) 1 in
  let? _ := check_r (CheckIssueDataTx out) "bad-txns-issue-qualifider-data-not-found" in
  let? a := get (QualifierAssetFromScript (scriptPubKey out)) "bad-txns-issue-qualifier-serialzation-failed" in
  let name := na_strName (fst a) in
  let assetType := name_type indeterminate name in
  let? _ := check_r (any_out (CheckIssueBurnTx assetType 1) (vout tx)) "bad-txns-issue-qualifier-burn-not-found" in
  let? _ :=
    if decide (assetType = SUB_QUALIFIER) then
      check_r (any_out (transfers_name (GetParentName name)) (vout tx))
              "bad-txns-issue-sub-qualifier-parent-outpoint-not-found"
    else Ok () in
  let? n := asset_types_of (vout tx) in
  check (negb (negb (n_owners n =? 0) || negb (n_issues n =? 1) || (n_reissues n >? 0)))
        "bad-txns-failed-issue-asset-formatting-check".

(** [GetVerifierStringFromTx]: the verifier string of the only output that carries
    one; [None] when there is none ([fNotFound]). *)
Fixpoint find_verifier (vout : list CTxOut) (found : option (list Z)) : result tx_error (option (list Z)) :=
  match vout with
  | [] => Ok found
  | out :: vout =>
      if negb (IsNullAssetVerifierTxDataScript (scriptPubKey out)) then find_verifier vout found
      else
        let? _ := check (negb (is_some found)) "Multiple verifier strings found in transaction" in
        let? v := get (Ok (AssetNullVerifierDataFromScript (scriptPubKey out))) "Failed to get verifier string from output: " in
        find_verifier vout (Some v)
  end.
Definition GetVerifierStringFromTx (tx : CTransaction) : result tx_error (option (list Z)) := find_verifier (vout tx) None.

Definition VerifyNewRestrictedAsset (tx : CTransaction) : result tx_error () :=
  let? _ := check (has_size tx 4) "bad-txns-issue-restricted-vout-size-to-small" in
  let? out := out_back (vout tx) 1 in
  let? _ := check_r (CheckIssueDataTx out) "bad-txns-issue-restricted-data-not-found" in
  let? a := get (RestrictedAssetFromScript (scriptPubKey out)) "bad-txns-issue-restricted-serialization-failed" in
  let name := na_strName (fst a) in
  let assetType := name_type indeterminate name in
  let? _ := check_r (any_out (CheckIssueBurnTx assetType 1) (vout tx)) "bad-txns-issue-restricted-burn-not-found" in
  let root := GetParentName name in
  if decide (root = []) then Err Thrown
  else
    let? _ := check_r (any_out (transfers_name (drop 1 root ++ OWNER_TAG)) (vout tx))
                      "bad-txns-issue-restricted-root-owner-token-outpoint-not-found" in
    let? _ := get (GetVerifierStringFromTx tx) "Verifier string not found" in
    let? n := asset_types_of (vout tx) in
    check (negb (negb (n_owners n =? 0) || negb (n_issues n =? 1) || (n_reissues n >? 0)))
          "bad-txns-failed-issue-asset-formatting-check".

Definition VerifyReissueAsset (tx : CTransaction) : result tx_error () :=
  let? _ := check (has_size tx 3) "bad-txns-vout-size-to-small" in
  let? out := out_back (vout tx) 1 in
  let? _ := check_r (CheckReissueDataTx out) "bad-txns-reissue-data-not-found" in
  let? r := get (ReissueAssetFromScript (scriptPubKey out)) "bad-txns-reissue-serialization-failed" in
  let name := re_strName (fst r) in
  let asset_type := name_type INVALID name in
  let asset_name_to_check := if decide (asset_type = RESTRICTED) then drop 1 name else name in
  let? _ := check_r (any_out (transfers_name (asset_name_to_check ++ OWNER_TAG)) (vout tx))
                    "bad-txns-reissue-owner-outpoint-not-found" in
  let? _ := check_r (any_out CheckReissueBurnTx (vout tx)) "bad-txns-reissue-burn-outpoint-not-found" in
  let? n := asset_types_of (vout tx) in
  check (negb ((n_owners n >? 0) || negb (n_reissues n =? 1) || (n_issues n >? 0)))
        "bad-txns-failed-reissue-asset-formatting-check".

Definition CheckAddingTagBurnFee (tx : CTransaction) (count : Z) : result tx_error bool :=
  any_out (CheckIssueBurnTx NULL_ADD_QUALIFIER count) (vout tx).

Definition IsNewOwnerTxValid (tx : CTransaction) (assetName address : list Z) : result tx_error () :=
  let? o := get (OwnerFromTransaction tx) "bad-txns-bad-owner" in
  let '(ownerName, ownerAddress) := o in
  let? _ := check (bool_decide (ownerAddress = address)) "bad-txns-owner-address-mismatch" in
  let? _ := check (negb (size ownerName <? OWNER_LENGTH + MIN_ASSET_LENGTH)) "bad-txns-owner-asset-length" in
  check (bool_decide (ownerName = assetName ++ OWNER_TAG)) "bad-txns-owner-name-mismatch".

(** ** Limits on the data *)

(** [nAmount % int64_t(pow(10, MAX_UNIT - nUnits)) == 0]: the power is zero for a
    negative exponent, and does not fit 64 bits from [10^19] on. *)
Definition CheckAmountWithUnits (nAmount nUnits : Z) : result tx_error bool :=
  let e := MAX_UNIT - nUnits in
  if (e <? 0) || (e >? 18) then Err UndefinedArithmetic else Ok (Z.rem nAmount (10 ^ e) =? 0).

Definition QUALIFIER_ASSET_UNITS : Z := 0.

Definition CheckNewAsset (a : CNewAsset) : result tx_error () :=
  let name := na_strName a in
  let? assetType :=
    match IsAssetNameValid name with
    | Ok t => Ok t
    | Err _ => Err (Reject 100 "Invalid parameter: asset_name must only consist of valid characters and have a size between 3 and 30 characters. See help for more details.")
    end in
  let? _ :=
    if decide (assetType = UNIQUE ∨ assetType = MSGCHANNEL) then
      let? _ := check (na_units a =? UNIQUE_ASSET_UNITS) "Invalid parameter: units must be " in
      let? _ := check (na_nAmount a =? UNIQUE_ASSET_AMOUNT) "Invalid parameter: amount must be " in
      check (na_nReissuable a =? 0) "Invalid parameter: reissuable must be 0"
    else Ok () in
  let? _ :=
    if decide (assetType = QUALIFIER ∨ assetType = SUB_QUALIFIER) then
      let? _ := check (na_units a =? QUALIFIER_ASSET_UNITS) "Invalid parameter: units must be " in
      let? _ := check (negb ((na_nAmount a <? QUALIFIER_ASSET_MIN_AMOUNT) || (na_nAmount a >? QUALIFIER_ASSET_MAX_AMOUNT)))
                      "Invalid parameter: amount must be between " in
      check (na_nReissuable a =? 0) "Invalid parameter: reissuable must be 0"
    else Ok () in
  let? _ := check (negb (IsAssetNameAnOwner name)) "Invalid parameters: asset_name can't have a '!' at the end of it. See help for more details." in
  let? _ := check (negb (na_nAmount a <=? 0)) "Invalid parameter: asset amount can't be equal to or less than zero." in
  let? _ := check (negb (na_nAmount a >? MAX_MONEY)) "Invalid parameter: asset amount greater than max money: " in
  let? _ := check (negb ((na_units a <? 0) || (na_units a >? 8))) "Invalid parameter: units must be between 0-8." in
  let? _ := check_r (CheckAmountWithUnits (na_nAmount a) (na_units a))
                    "Invalid parameter: amount must be divisible by the smaller unit assigned to the asset" in
  let? _ := check ((na_nReissuable a =? 0) || (na_nReissuable a =? 1)) "Invalid parameter: reissuable must be 0 or 1" in
  check ((na_nHasIPFS a =? 0) || (na_nHasIPFS a =? 1)) "Invalid parameter: has_ipfs must be 0 or 1.".

(** The two test network assets exempt from the rule on [nReissuable]: "GAMINGWEB"
    and "UINT8". *)
Definition reissue_exempt (r : CReissueAsset) : bool :=
  is_testnet
  && ((bool_decide (re_strName r = [71; 65; 77; 73; 78; 71; 87; 69; 66]) && (re_nReissuable r =? 109))
      || (bool_decide (re_strName r = [85; 73; 78; 84; 56]) && (re_nReissuable r =? -47))).

Definition CheckReissueAsset (r : CReissueAsset) : result tx_error () :=
  let? _ := check (negb ((re_nAmount r <? 0) || (re_nAmount r >=? MAX_MONEY))) "Unable to reissue asset: amount must be 0 or larger" in
  let? _ := check (negb ((re_nUnits r >? MAX_UNIT) || (re_nUnits r <? -1))) "Unable to reissue asset: unit must be between 8 and -1" in
  check (reissue_exempt r || (re_nReissuable r =? 0) || (re_nReissuable r =? 1)) "Unable to reissue asset: reissuable must be 0 or 1".

Definition VerifyNullAssetDataFlag (flag : Z) : result tx_error () :=
  check ((flag =? 0) || (flag =? 1)) "bad-txns-null-data-flag-must-be-0-or-1".

(** The text for a verifier string that is not accepted. *)
Definition verifier_reason (e : verifier_error) : string :=
  match e with
  | VerifierEmpty => "Verifier string can not be empty. To default to true, use true"
  | VerifierTooLong => "Verifier string has length greater than 80 after whitespaces and '#' are removed"
  | VerifierInvalidName _ => "bad-txns-null-verifier-invalid-asset-name-"
  | VerifierSyntax _ => "bad-txns-null-verifier-failed-syntax-check"
  end.
Definition CheckVerifierAssetTxOut (out : CTxOut) : result tx_error () :=
  let? v := get (Ok (AssetNullVerifierDataFromScript (scriptPubKey out))) "bad-txns-null-verifier-data-serialization" in
  let? _ := check (negb (bool_decide (32 ∈ v))) "bad-txns-null-verifier-data-contained-whitespaces" in
  let? _ := check (negb (bool_decide (35 ∈ v))) "bad-txns-null-verifier-data-contained-qualifier-character-#" in
  match CheckVerifierString v [] with Ok _ => Ok () | Err e => Err (Reject 100 (verifier_reason e)) end.
End asset_scripts.
