(* ===== verification/AssetChecks.v ===== *)
(** * Checks of asset data against the current state: src/src/assets/assets.cpp

    What a transaction may do depends on the assets that exist, on the qualifiers and
    restrictions of addresses and on verifier strings.  [AssetsView] is what these
    checks ask of [CAssetsCache] and of the memory pool. *)

From Stdlib Require Import String.
From S2P Require Import Prelude Serialize Transaction Script Interpreter Regex AssetTypes AssetNames Verifier Base58 Standard AssetScripts.

Open Scope string_scope.
Open Scope list_scope.
Open Scope Z_scope.

Class AssetsView := {
  view_qualifiers : QualifierView;
  CheckForAddressRestriction : list Z → list Z → bool;
  CheckForGlobalRestriction : list Z → bool;
  GetAssetMetaDataIfExists : list Z → option CNewAsset;
  GetAssetVerifierStringIfExists : list Z → bool → option (list Z);
  mempool_has_asset : list Z → bool
}.
#[global] Existing Instance view_qualifiers.

(** ** Hashes attached to assets *)

(** [HexDigit(c) >= 0] *)
Definition is_hex_digit (c : Z) : bool := in_range 48 57 c || in_range 97 102 c || in_range 65 70 c.
Definition IsHex (str : list Z) : bool := forallb is_hex_digit str && (0 <? size str) && (Z.rem (size str) 2 =? 0).
Definition hexmap (n : Z) : Z := if n <? 10 then 48 + n else 87 + n.
Definition HexStr (vch : list Z) : list Z := flat_map (fun b => [hexmap (Z.shiftr b 4); hexmap (Z.land b 15)]) vch.

(** [EncodeIPFS] is [EncodeBase58]. *)
Definition EncodeAssetData (decoded : list Z) : result tx_error (list Z) :=
  if (length decoded =? 34)%nat then assert_some (EncodeBase58 decoded)
  else if (length decoded =? 32)%nat then Ok (HexStr decoded)
  else Ok [].

Section asset_checks.
Context {Cry : Crypto} {Split : BoostSplit} {Env : AssetEnv} {AV : AssetsView}.

Definition CheckEncoded (hash : list Z) : result tx_error () :=
  let? encodedStr := EncodeAssetData hash in
  if bool_decide (take 2 encodedStr = [81; 109]) && (length encodedStr =? 46)%nat then Ok ()
  else if AreMessagesDeployed && IsHex encodedStr && (length encodedStr =? 64)%nat then Ok ()
  else Err (Reject 100 "Invalid parameter: ipfs_hash is not valid, or txid hash is not the right length").

(** ** Qualifiers and restrictions *)

Definition VerifyQualifierChange (data : CNullAssetTxData) (address : list Z) : result tx_error () :=
  let? _ := VerifyNullAssetDataFlag (nd_flag data) in
  let fHasQualifier := CheckForAddressQualifier (nd_asset_name data) address in
  if negb (nd_flag data =? 0)
  then check (negb fHasQualifier) "bad-txns-null-data-add-qualifier-when-already-assigned"
  else check fHasQualifier "bad-txns-null-data-removing-qualifier-when-not-assigned".

Definition VerifyRestrictedAddressChange (data : CNullAssetTxData) (address : list Z) : result tx_error () :=
  let? _ := VerifyNullAssetDataFlag (nd_flag data) in
  let fIsFrozen := CheckForAddressRestriction (nd_asset_name data) address in
  if negb (nd_flag data =? 0)
  then check (negb fIsFrozen) "bad-txns-null-data-freeze-address-when-already-frozen"
  else check fIsFrozen "bad-txns-null-data-unfreeze-address-when-not-frozen".

Definition VerifyGlobalRestrictedChange (data : CNullAssetTxData) : result tx_error () :=
  let? _ := VerifyNullAssetDataFlag (nd_flag data) in
  let fIsGloballyFrozen := CheckForGlobalRestriction (nd_asset_name data) in
  if negb (nd_flag data =? 0)
  then check (negb fIsGloballyFrozen) "bad-txns-null-data-global-freeze-when-already-frozen"
  else check fIsGloballyFrozen "bad-txns-null-data-global-unfreeze-when-not-frozen".

(** The data and the address it is about, which the caller may record for the wallet. *)
Definition ContextualCheckNullAssetTxOut (out : CTxOut) (fCache : bool) : result tx_error (CNullAssetTxData * list Z) :=
  let? r := get (AssetNullDataFromScript (scriptPubKey out)) "bad-txns-null-asset-data-serialization" in
  let '(data, address) := r in
  let? _ :=
    if fCache then
      if IsAssetNameAQualifier (nd_asset_name data) false then VerifyQualifierChange data address
      else if IsAssetNameAnRestricted (nd_asset_name data) then VerifyRestrictedAddressChange data address
      else Err (Reject 100 "bad-txns-null-asset-data-on-non-restricted-or-qualifier-asset")
    else Ok () in
  Ok (data, address).

Definition ContextualCheckGlobalAssetTxOut (out : CTxOut) (fCache : bool) : result tx_error () :=
  let? data := get (Ok (GlobalAssetNullDataFromScript (scriptPubKey out))) "bad-txns-null-global-asset-data-serialization" in
  if fCache then VerifyGlobalRestrictedChange data else Ok ().

Definition context_reason (e : context_error) : string :=
  match e with
  | ContextCheck e => verifier_reason e
  | NonIssuedQualifier => "bad-txns-null-verifier-contains-non-issued-qualifier"
  | AddressFailedVerification => "bad-txns-null-verifier-address-failed-verification"
  | ContextSyntax _ => "bad-txns-null-verifier-failed-contexual-syntax-check"
  end.
Definition check_verifier (verifier address : list Z) : result tx_error () :=
  match ContextualCheckVerifierString verifier address with
  | Ok _ => Ok ()
  | Err e => Err (Reject 100 (context_reason e))
  end.

(** The error text is that of an inner variable and is lost. *)
Definition ContextualCheckVerifierAssetTxOut (out : CTxOut) (fCache : bool) : result tx_error () :=
  let? v := get (Ok (AssetNullVerifierDataFromScript (scriptPubKey out))) "bad-txns-null-verifier-data-serialization" in
  if fCache then match check_verifier v [] with Err (Reject d _) => Err (Reject d EmptyString) | r => r end else Ok ().

(** ** Transfers *)

Definition ContextualCheckAgainstVerifyString (t : CAssetTransfer) (address : list Z) (fCache : bool) : result tx_error () :=
  if negb fCache then Err NullPointer
  else
    match GetAssetVerifierStringIfExists (tr_strName t) true with
    | None => Err (Reject 100 "Verifier String doesn't exist for asset: ")
    | Some verifier => check_verifier verifier address
    end.

Definition ContextualCheckTransferAsset (t : CAssetTransfer) (address : list Z) (fCache : bool) : result tx_error () :=
  let? assetType :=
    match IsAssetNameValid (tr_strName t) with
    | Ok ty => Ok ty
    | Err _ => Err (Reject 100 "Invalid parameter: asset_name must only consist of valid characters and have a size between 3 and 30 characters. See help for more details.")
    end in
  let? _ := check (negb (tr_nAmount t <=? 0)) "Invalid parameter: asset amount can't be equal to or less than zero." in
  let? _ :=
    if AreMessagesDeployed then
      let? _ := check (negb (bool_decide (tr_message t = []) && (tr_nExpireTime t >? 0)))
        "Invalid parameter: asset transfer expiration time requires a message to be attached to the transfer" in
      let? _ := check (negb (tr_nExpireTime t <? 0)) "Invalid parameter: expiration time must be a positive value" in
      if decide (tr_message t = []) then Ok () else CheckEncoded (tr_message t)
    else Ok () in
  let? _ :=
    if decide (assetType = MSGCHANNEL) then check AreMessagesDeployed "bad-txns-transfer-msgchannel-before-messaging-is-active"
    else Ok () in
  let? _ :=
    if decide (assetType = RESTRICTED) then
      let? _ := check AreRestrictedAssetsDeployed "bad-txns-transfer-restricted-before-it-is-active" in
      let? _ :=
        if fCache then check (negb (CheckForGlobalRestriction (tr_strName t)))
                             "bad-txns-transfer-restricted-asset-that-is-globally-restricted"
        else Ok () in
      match ContextualCheckAgainstVerifyString t address fCache with Err (Reject d _) => Err (Reject d EmptyString) | r => r end
    else Ok () in
  if decide (assetType = QUALIFIER ∨ assetType = SUB_QUALIFIER)
  then check AreRestrictedAssetsDeployed "bad-txns-transfer-qualifier-before-it-is-active"
  else Ok ().

(** ** New assets ([fUnitTest] is false outside the unit tests) *)

Definition ContextualCheckNewAsset (a : CNewAsset) (fCheckMempool : bool) : result tx_error () :=
  let? _ := check AreAssetsDeployed "bad-txns-new-asset-when-assets-is-not-active" in
  let? _ := CheckNewAsset a in
  let? _ := check (negb (CheckIfAssetExists (na_strName a))) "Invalid parameter: asset_name '' has already been used" in
  let? _ := check (negb (fCheckMempool && mempool_has_asset (na_strName a))) "Asset with this name is already in the mempool" in
  let hasIPFS := negb (na_nHasIPFS a =? 0) in
  let? _ := check (negb (hasIPFS && negb (length (na_strIPFSHash a) =? 34)%nat
                         && negb (AreMessagesDeployed && (length (na_strIPFSHash a) =? 32)%nat)))
                  "Invalid parameter: ipfs_hash must be 46 characters. Txid must be valid 64 character hash" in
  if hasIPFS then CheckEncoded (na_strIPFSHash a) else Ok ().

Fixpoint check_unique_outs (vout : list CTxOut) : result tx_error () :=
  match vout with
  | [] => Ok ()
  | out :: vout =>
      let? i := IsScriptNewUniqueAsset (scriptPubKey out) in
      if negb (is_some i) then check_unique_outs vout
      else
        let? a := get (AssetFromScript (scriptPubKey out)) "bad-txns-issue-unique-serialization-failed" in
        let? _ := ContextualCheckNewAsset (fst a) false in
        check_unique_outs vout
  end.
Definition ContextualCheckUniqueAssetTx (tx : CTransaction) : result tx_error () := check_unique_outs (vout tx).

(** ** Reissues *)

(** The checks on amounts, units and hashes that both overloads end with. *)
Definition check_reissue_data (prev : option CNewAsset) (r : CReissueAsset) : result tx_error () :=
  let? _ :=
    match prev with
    | None => Ok ()
    | Some p =>
        let? _ := check (negb (i64 (na_nAmount p + re_nAmount r) >? MAX_MONEY)) "Unable to reissue asset: asset_name '' the amount trying to reissue is too large" in
        let? _ := check_r (CheckAmountWithUnits (re_nAmount r) (na_units p))
                          "Unable to reissue asset: amount must be divisible by the smaller unit assigned to the asset" in
        check (negb ((re_nUnits r <? na_units p) && negb (re_nUnits r =? -1)))
              "Unable to reissue asset: unit must be larger than current unit selection"
    end in
  let n := length (re_strIPFSHash r) in
  let? _ := check (negb (negb (n =? 0)%nat && negb (n =? 34)%nat && (AreMessagesDeployed && negb (n =? 32)%nat)))
                  "Invalid parameter: ipfs_hash must be 34 bytes, Txid must be 32 bytes" in
  if (n =? 0)%nat then Ok () else CheckEncoded (re_strIPFSHash r).

(** The overload used for the blocks and transactions of the network. *)
Definition ContextualCheckReissueAsset (tx : CTransaction) (r : CReissueAsset) : result tx_error () :=
  let? o := get (ReissueAssetFromTransaction tx) "bad-txns-reissue-asset-contextual-check" in
  let strAddress := snd o in
  let? _ := CheckReissueAsset r in
  let? p := get (Ok (GetAssetMetaDataIfExists (re_strName r))) "Unable to reissue asset: asset_name '' doesn't exist in the database" in
  let? _ :=
    if (na_nReissuable p =? 0) && negb (bool_decide (re_strIPFSHash r = na_strIPFSHash p)) then
      check (negb (negb (re_nAmount r =? 0) || negb (re_nUnits r =? -1)))
            "Unable to reissue asset: only IPFS hash modification is allowed for unissuable assets"
    else check (negb (na_nReissuable p =? 0)) "Unable to reissue asset: reissuable is set to false" in
  let? _ := check_reissue_data (Some p) r in
  if IsAssetNameAnRestricted (re_strName r) then
    let? new_verifier := GetVerifierStringFromTx tx in
    if re_nAmount r >? 0 then
      match new_verifier with
      | Some v => check_verifier v strAddress
      | None =>
          match GetAssetVerifierStringIfExists (re_strName r) false with
          | Some v => check_verifier v strAddress
          | None => Err (Reject 100 "failed to get verifier string from a restricted asset, database is out of sync. Reindex required. Please report this to the development team")
          end
      end
    else Ok ()
  else Ok ().

(** The overload without a transaction, used before one is built. *)
Definition ContextualCheckReissueAsset_data (fCache : bool) (r : CReissueAsset) : result tx_error () :=
  let? _ := CheckReissueAsset r in
  let? prev :=
    if fCache then
      let? p := get (Ok (GetAssetMetaDataIfExists (re_strName r))) "Unable to reissue asset: asset_name '' doesn't exist in the database" in
      let? _ :=
        if na_nReissuable p =? 0 then
          let? _ := check (negb (negb (re_nAmount r =? 0) || negb (re_nUnits r =? -1)))
            "Unable to reissue asset: only IPFS hash modification is allowed for unissuable assets" in
          check (negb (re_nReissuable r =? 1)) "Unable to reissue asset: cannot change unissuable asset to reissuable"
        else Ok () in
      Ok (Some p)
    else Ok None in
  check_reissue_data prev r.
End asset_checks.
