(* ===== verification/AssetsCache.v ===== *)
(** * The asset cache: class [CAssetsCache] of assets/assets.{h,cpp}

    Assets, owner tokens, tags, freezes and verifier strings that blocks add or that
    disconnected blocks take away are collected in a cache per block; [Flush] moves them
    to the global cache [passets], and [DumpCacheToDatabase] from there to two databases.
    Look-ups go through the block's cache, the global one, a cache of recent database
    reads and the database.

    A [std::set] whose elements are compared by some of their fields holds at most one
    element for these fields: it is a finite map from the fields to the element, and
    inserting does nothing when there is one already.  Each [setNew...ToAdd] comes with
    a [setNew...ToRemove]; the two are one field of type [dirty] here. *)

From stdpp Require Import gmap sorting.
From S2P Require Import Prelude Serialize Transaction Script Interpreter Regex AssetTypes AssetNames Verifier LRUCache Coins Base58 Standard AssetScripts AssetChecks.

(** ** Cache entries *)

Record CAssetCacheNewAsset := mkCacheNewAsset { cn_asset : CNewAsset; cn_address : list Z; cn_blockHash : uint256; cn_blockHeight : Z }.
Record CAssetCacheReissueAsset := mkCacheReissue {
  cr_reissue : CReissueAsset; cr_address : list Z; cr_out : COutPoint; cr_blockHash : uint256; cr_blockHeight : Z
}.
Record CAssetCacheNewTransfer := mkCacheTransfer { ct_transfer : CAssetTransfer; ct_address : list Z; ct_out : COutPoint }.
Record CAssetCacheNewOwner := mkCacheOwner { co_assetName : list Z; co_address : list Z }.
(** [CAssetCacheUndoAssetAmount] and [CAssetCacheSpendAsset] *)
Record CAssetCacheAmount := mkCacheAmount { ca_assetName : list Z; ca_address : list Z; ca_nAmount : Z }.
Record CAssetCacheRestrictedVerifiers := mkCacheVerifier { cv_verifier : list Z; cv_fUndoingRessiue : bool }.

(** The two sets of one kind of change. *)
Record dirty (K : Type) `{Countable K} (E : Type) := mkDirty { ToAdd : gmap K E; ToRemove : gmap K E }.
Arguments mkDirty {K _ _ E}.
Arguments ToAdd {K _ _ E}.
Arguments ToRemove {K _ _ E}.

Section dirty.
Context {K : Type} `{Countable K} {E : Type}.
Implicit Types (d : dirty K E) (k : K) (x : E).

Definition kset_insert (k : K) (x : E) (s : gmap K E) : gmap K E :=
  match s !! k with Some _ => s | None => <[k := x]> s end.
(** An element moves from one set to the other; [insert] does not replace. *)
Definition note_add k x d : dirty K E := mkDirty (kset_insert k x (ToAdd d)) (delete k (ToRemove d)).
Definition note_remove k x d : dirty K E := mkDirty (delete k (ToAdd d)) (kset_insert k x (ToRemove d)).
(** The same with the element erased first, so that it is replaced. *)
Definition write_add k x d : dirty K E := mkDirty (<[k := x]> (ToAdd d)) (delete k (ToRemove d)).
Definition write_remove k x d : dirty K E := mkDirty (delete k (ToAdd d)) (<[k := x]> (ToRemove d)).

(** The loops of [Flush] over the two sets of one kind, [p] being the sets of [passets]. *)
Definition flush_with (add remove : K → E → dirty K E → dirty K E) (d p : dirty K E) : dirty K E :=
  let p := map_fold add p (ToAdd d) in
  map_fold remove p (ToRemove d).
Definition empty_dirty : dirty K E := mkDirty ∅ ∅.
End dirty.

(** ** The cache *)

Record CAssetsCache := mkAssetsCache {
  mapAssetsAddressAmount : gmap (list Z * list Z) Z;
  mapReissuedAssetData : gmap (list Z) CNewAsset;
  vUndoAssetAmount : list CAssetCacheAmount;
  vSpentAssets : list CAssetCacheAmount;
  setNewAssets : dirty (list Z) CAssetCacheNewAsset;
  setNewReissue : dirty COutPoint CAssetCacheReissueAsset;
  setNewOwnerAssets : dirty (list Z) CAssetCacheNewOwner;
  setNewTransferAssets : dirty COutPoint CAssetCacheNewTransfer;
  setNewQualifierAddress : dirty (list Z * list Z) QualifierType;
  setNewRestrictedAddress : dirty (list Z * list Z) RestrictedType;
  setNewRestrictedGlobal : dirty (list Z) RestrictedType;
  setNewRestrictedVerifier : dirty (list Z) CAssetCacheRestrictedVerifiers;
  mapRootQualifierAddressesAdd : gmap (list Z * list Z) (gset (list Z));
  mapRootQualifierAddressesRemove : gmap (list Z * list Z) (gset (list Z))
}.

Definition AssetsCache_new : CAssetsCache :=
  mkAssetsCache ∅ ∅ [] [] empty_dirty empty_dirty empty_dirty empty_dirty empty_dirty empty_dirty empty_dirty empty_dirty ∅ ∅.
(** [ClearDirtyCache] empties every container of the cache. *)
Definition ClearDirtyCache (c : CAssetsCache) : CAssetsCache := AssetsCache_new.

Definition set_amounts (x : gmap (list Z * list Z) Z) (c : CAssetsCache) : CAssetsCache :=
  mkAssetsCache x (mapReissuedAssetData c) (vUndoAssetAmount c) (vSpentAssets c) (setNewAssets c) (setNewReissue c)
    (setNewOwnerAssets c) (setNewTransferAssets c) (setNewQualifierAddress c) (setNewRestrictedAddress c)
    (setNewRestrictedGlobal c) (setNewRestrictedVerifier c) (mapRootQualifierAddressesAdd c)
    (mapRootQualifierAddressesRemove c).
Definition set_reissued (x : gmap (list Z) CNewAsset) (c : CAssetsCache) : CAssetsCache :=
  mkAssetsCache (mapAssetsAddressAmount c) x (vUndoAssetAmount c) (vSpentAssets c) (setNewAssets c)
    (setNewReissue c) (setNewOwnerAssets c) (setNewTransferAssets c) (setNewQualifierAddress c)
    (setNewRestrictedAddress c) (setNewRestrictedGlobal c) (setNewRestrictedVerifier c)
    (mapRootQualifierAddressesAdd c) (mapRootQualifierAddressesRemove c).
Definition set_undo (x : list CAssetCacheAmount) (c : CAssetsCache) : CAssetsCache :=
  mkAssetsCache (mapAssetsAddressAmount c) (mapReissuedAssetData c) x (vSpentAssets c) (setNewAssets c)
    (setNewReissue c) (setNewOwnerAssets c) (setNewTransferAssets c) (setNewQualifierAddress c)
    (setNewRestrictedAddress c) (setNewRestrictedGlobal c) (setNewRestrictedVerifier c)
    (mapRootQualifierAddressesAdd c) (mapRootQualifierAddressesRemove c).
Definition set_spent (x : list CAssetCacheAmount) (c : CAssetsCache) : CAssetsCache :=
  mkAssetsCache (mapAssetsAddressAmount c) (mapReissuedAssetData c) (vUndoAssetAmount c) x (setNewAssets c)
    (setNewReissue c) (setNewOwnerAssets c) (setNewTransferAssets c) (setNewQualifierAddress c)
    (setNewRestrictedAddress c) (setNewRestrictedGlobal c) (setNewRestrictedVerifier c)
    (mapRootQualifierAddressesAdd c) (mapRootQualifierAddressesRemove c).
Definition set_assets (x : dirty (list Z) CAssetCacheNewAsset) (c : CAssetsCache) : CAssetsCache :=
  mkAssetsCache (mapAssetsAddressAmount c) (mapReissuedAssetData c) (vUndoAssetAmount c) (vSpentAssets c) x
    (setNewReissue c) (setNewOwnerAssets c) (setNewTransferAssets c) (setNewQualifierAddress c)
    (setNewRestrictedAddress c) (setNewRestrictedGlobal c) (setNewRestrictedVerifier c)
    (mapRootQualifierAddressesAdd c) (mapRootQualifierAddressesRemove c).
Definition set_reissues (x : dirty COutPoint CAssetCacheReissueAsset) (c : CAssetsCache) : CAssetsCache :=
  mkAssetsCache (mapAssetsAddressAmount c) (mapReissuedAssetData c) (vUndoAssetAmount c) (vSpentAssets c)
    (setNewAssets c) x (setNewOwnerAssets c) (setNewTransferAssets c) (setNewQualifierAddress c)
    (setNewRestrictedAddress c) (setNewRestrictedGlobal c) (setNewRestrictedVerifier c)
    (mapRootQualifierAddressesAdd c) (mapRootQualifierAddressesRemove c).
Definition set_owners (x : dirty (list Z) CAssetCacheNewOwner) (c : CAssetsCache) : CAssetsCache :=
  mkAssetsCache (mapAssetsAddressAmount c) (mapReissuedAssetData c) (vUndoAssetAmount c) (vSpentAssets c)
    (setNewAssets c) (setNewReissue c) x (setNewTransferAssets c) (setNewQualifierAddress c)
    (setNewRestrictedAddress c) (setNewRestrictedGlobal c) (setNewRestrictedVerifier c)
    (mapRootQualifierAddressesAdd c) (mapRootQualifierAddressesRemove c).
Definition set_transfers (x : dirty COutPoint CAssetCacheNewTransfer) (c : CAssetsCache) : CAssetsCache :=
  mkAssetsCache (mapAssetsAddressAmount c) (mapReissuedAssetData c) (vUndoAssetAmount c) (vSpentAssets c)
    (setNewAssets c) (setNewReissue c) (setNewOwnerAssets c) x (setNewQualifierAddress c)
    (setNewRestrictedAddress c) (setNewRestrictedGlobal c) (setNewRestrictedVerifier c)
    (mapRootQualifierAddressesAdd c) (mapRootQualifierAddressesRemove c).
Definition set_qualifiers (x : dirty (list Z * list Z) QualifierType) (c : CAssetsCache) : CAssetsCache :=
  mkAssetsCache (mapAssetsAddressAmount c) (mapReissuedAssetData c) (vUndoAssetAmount c) (vSpentAssets c)
    (setNewAssets c) (setNewReissue c) (setNewOwnerAssets c) (setNewTransferAssets c) x (setNewRestrictedAddress c)
    (setNewRestrictedGlobal c) (setNewRestrictedVerifier c) (mapRootQualifierAddressesAdd c)
    (mapRootQualifierAddressesRemove c).
Definition set_restricted (x : dirty (list Z * list Z) RestrictedType) (c : CAssetsCache) : CAssetsCache :=
  mkAssetsCache (mapAssetsAddressAmount c) (mapReissuedAssetData c) (vUndoAssetAmount c) (vSpentAssets c)
    (setNewAssets c) (setNewReissue c) (setNewOwnerAssets c) (setNewTransferAssets c) (setNewQualifierAddress c) x
    (setNewRestrictedGlobal c) (setNewRestrictedVerifier c) (mapRootQualifierAddressesAdd c)
    (mapRootQualifierAddressesRemove c).
Definition set_globals (x : dirty (list Z) RestrictedType) (c : CAssetsCache) : CAssetsCache :=
  mkAssetsCache (mapAssetsAddressAmount c) (mapReissuedAssetData c) (vUndoAssetAmount c) (vSpentAssets c)
    (setNewAssets c) (setNewReissue c) (setNewOwnerAssets c) (setNewTransferAssets c) (setNewQualifierAddress c)
    (setNewRestrictedAddress c) x (setNewRestrictedVerifier c) (mapRootQualifierAddressesAdd c)
    (mapRootQualifierAddressesRemove c).
Definition set_verifiers (x : dirty (list Z) CAssetCacheRestrictedVerifiers) (c : CAssetsCache) : CAssetsCache :=
  mkAssetsCache (mapAssetsAddressAmount c) (mapReissuedAssetData c) (vUndoAssetAmount c) (vSpentAssets c)
    (setNewAssets c) (setNewReissue c) (setNewOwnerAssets c) (setNewTransferAssets c) (setNewQualifierAddress c)
    (setNewRestrictedAddress c) (setNewRestrictedGlobal c) x (mapRootQualifierAddressesAdd c)
    (mapRootQualifierAddressesRemove c).
Definition set_rootAdd (x : gmap (list Z * list Z) (gset (list Z))) (c : CAssetsCache) : CAssetsCache :=
  mkAssetsCache (mapAssetsAddressAmount c) (mapReissuedAssetData c) (vUndoAssetAmount c) (vSpentAssets c)
    (setNewAssets c) (setNewReissue c) (setNewOwnerAssets c) (setNewTransferAssets c) (setNewQualifierAddress c)
    (setNewRestrictedAddress c) (setNewRestrictedGlobal c) (setNewRestrictedVerifier c) x
    (mapRootQualifierAddressesRemove c).
Definition set_rootRemove (x : gmap (list Z * list Z) (gset (list Z))) (c : CAssetsCache) : CAssetsCache :=
  mkAssetsCache (mapAssetsAddressAmount c) (mapReissuedAssetData c) (vUndoAssetAmount c) (vSpentAssets c)
    (setNewAssets c) (setNewReissue c) (setNewOwnerAssets c) (setNewTransferAssets c) (setNewQualifierAddress c)
    (setNewRestrictedAddress c) (setNewRestrictedGlobal c) (setNewRestrictedVerifier c)
    (mapRootQualifierAddressesAdd c) x.

(** ** The databases and the caches of database reads *)

(** [CAssetsDB]: the entries under the keys 'A' (assets), 'B' and 'C' (balances). *)
Record CAssetsDB := mkAssetsDB {
  db_assets : gmap (list Z) CDatabasedAssetData;
  db_asset_address : gmap (list Z * list Z) Z;
  db_address_asset : gmap (list Z * list Z) Z
}.
(** [CRestrictedDB]: 'V' (verifiers), 'T' (address, tag), 'Q' (tag, address), 'R'
    (address, asset) and 'G' (assets frozen everywhere). *)
Record CRestrictedDB := mkRestrictedDB {
  db_verifiers : gmap (list Z) (list Z);
  db_address_qualifiers : gset (list Z * list Z);
  db_qualifier_addresses : gset (list Z * list Z);
  db_restricted_addresses : gset (list Z * list Z);
  db_global_restrictions : gset (list Z)
}.

(** The caches have no room limit of their own here: it is the [maxSize] of each. *)
Record asset_store := mkStore {
  passets : CAssetsCache;
  passetsCache : LRU.CLRUCache (list Z) CDatabasedAssetData;
  passetsVerifierCache : LRU.CLRUCache (list Z) (list Z);
  passetsQualifierCache : LRU.CLRUCache (list Z) Z;
  passetsRestrictionCache : LRU.CLRUCache (list Z) Z;
  passetsGlobalRestrictionCache : LRU.CLRUCache (list Z) Z;
  passetsdb : CAssetsDB;
  prestricteddb : CRestrictedDB
}.

Definition set_passets (x : CAssetsCache) (s : asset_store) : asset_store :=
  mkStore x (passetsCache s) (passetsVerifierCache s) (passetsQualifierCache s) (passetsRestrictionCache s)
    (passetsGlobalRestrictionCache s) (passetsdb s) (prestricteddb s).
Definition set_passetsCache (x : LRU.CLRUCache (list Z) CDatabasedAssetData) (s : asset_store) : asset_store :=
  mkStore (passets s) x (passetsVerifierCache s) (passetsQualifierCache s) (passetsRestrictionCache s)
    (passetsGlobalRestrictionCache s) (passetsdb s) (prestricteddb s).
Definition set_verifierCache (x : LRU.CLRUCache (list Z) (list Z)) (s : asset_store) : asset_store :=
  mkStore (passets s) (passetsCache s) x (passetsQualifierCache s) (passetsRestrictionCache s)
    (passetsGlobalRestrictionCache s) (passetsdb s) (prestricteddb s).
Definition set_qualifierCache (x : LRU.CLRUCache (list Z) Z) (s : asset_store) : asset_store :=
  mkStore (passets s) (passetsCache s) (passetsVerifierCache s) x (passetsRestrictionCache s)
    (passetsGlobalRestrictionCache s) (passetsdb s) (prestricteddb s).
Definition set_restrictionCache (x : LRU.CLRUCache (list Z) Z) (s : asset_store) : asset_store :=
  mkStore (passets s) (passetsCache s) (passetsVerifierCache s) (passetsQualifierCache s) x
    (passetsGlobalRestrictionCache s) (passetsdb s) (prestricteddb s).
Definition set_globalCache (x : LRU.CLRUCache (list Z) Z) (s : asset_store) : asset_store :=
  mkStore (passets s) (passetsCache s) (passetsVerifierCache s) (passetsQualifierCache s) (passetsRestrictionCache s)
    x (passetsdb s) (prestricteddb s).
Definition set_assetsdb (x : CAssetsDB) (s : asset_store) : asset_store :=
  mkStore (passets s) (passetsCache s) (passetsVerifierCache s) (passetsQualifierCache s) (passetsRestrictionCache s)
    (passetsGlobalRestrictionCache s) x (prestricteddb s).
Definition set_restricteddb (x : CRestrictedDB) (s : asset_store) : asset_store :=
  mkStore (passets s) (passetsCache s) (passetsVerifierCache s) (passetsQualifierCache s) (passetsRestrictionCache s)
    (passetsGlobalRestrictionCache s) (passetsdb s) x.

(** [fAssetIndex]: balances per address are kept; [fReindex]: the databases are being
    rebuilt; [unset_height]: the value of an [int] nobody has assigned. *)
Class AssetFlags := { fAssetIndex : bool; fReindex : bool; unset_height : Z }.

Section cache.
Context {Cry : Crypto} {Split : BoostSplit} {Env : AssetEnv} {Flags : AssetFlags}.

(** [CAssetCacheQualifierAddress(name, address, ...).GetHash().GetHex()] *)
Definition pair_key (name address : list Z) : list Z := HexStr (rev (CHash256 (name ++ address))).

(** ** Look-ups

    [c] is the cache the method is called on; the others are in the store. *)

Definition has {K} `{Countable K} {E} (k : K) (s : gmap K E) : bool := bool_decide (is_Some (s !! k)).

(** What [ReadAssetData] finds goes into the cache of reads. *)
Definition read_asset (s : asset_store) (name : list Z) : option CDatabasedAssetData * asset_store :=
  match db_assets (passetsdb s) !! name with
  | Some data => (Some data, set_passetsCache (LRU.Put (passetsCache s) (na_strName (da_asset data)) data) s)
  | None => (None, s)
  end.

Definition CheckIfAssetExists (c : CAssetsCache) (s : asset_store) (name : list Z) (fForceDuplicateCheck : bool) : bool * asset_store :=
  if fReindex then (true, s)
  else if has name (ToRemove (setNewAssets c)) then (false, s)
  else if has name (ToRemove (setNewAssets (passets s))) then (false, s)
  else if has name (ToAdd (setNewAssets c)) && fForceDuplicateCheck then (true, s)
  else if has name (ToAdd (setNewAssets (passets s))) && fForceDuplicateCheck then (true, s)
  else if LRU.Exists (passetsCache s) name then (fForceDuplicateCheck, s)
  else match read_asset s name with
       | (Some _, s) => (fForceDuplicateCheck, s)
       | (None, s) => (false, s)
       end.

(** [passetsCache->Exists(name)] and then [Get(name)] *)
Definition cached {V} (l : LRU.CLRUCache (list Z) V) (k : list Z) : option (V * LRU.CLRUCache (list Z) V) :=
  if LRU.Exists l k then match LRU.Get l k with Ok r => Some r | Err _ => None end else None.

(** The asset and, unless it comes from the reissue maps, the block it was issued in: in
    that case the two output parameters keep their values. *)
Definition GetAssetMetaDataIfExists (c : CAssetsCache) (s : asset_store) (name : list Z)
    : option (CNewAsset * option (Z * uint256)) * asset_store :=
  match mapReissuedAssetData c !! name with
  | Some asset => (Some (asset, None), s)
  | None =>
  match mapReissuedAssetData (passets s) !! name with
  | Some asset => (Some (asset, None), s)
  | None =>
  if has name (ToRemove (setNewAssets c)) then (None, s)
  else if has name (ToRemove (setNewAssets (passets s))) then (None, s)
  else
  match ToAdd (setNewAssets c) !! name with
  | Some e => (Some (cn_asset e, Some (cn_blockHeight e, cn_blockHash e)), s)
  | None =>
  match ToAdd (setNewAssets (passets s)) !! name with
  | Some e => (Some (cn_asset e, Some (cn_blockHeight e, cn_blockHash e)), s)
  | None =>
  match cached (passetsCache s) name with
  | Some (data, l) => (Some (da_asset data, Some (da_nHeight data, da_blockHash data)), set_passetsCache l s)
  | None =>
  match read_asset s name with
  | (Some data, s) => (Some (da_asset data, Some (da_nHeight data, da_blockHash data)), s)
  | (None, s) => (None, s)
  end end end end end end.

(** The verifier string an entry for removal stands for. *)
Definition removed_verifier (e : CAssetCacheRestrictedVerifiers) : option (list Z) :=
  if cv_fUndoingRessiue e then Some (cv_verifier e) else None.

Definition GetAssetVerifierStringIfExists (c : CAssetsCache) (s : asset_store) (name : list Z) (fSkipTempCache : bool)
    : option (list Z) * asset_store :=
  let own (m : gmap (list Z) CAssetCacheRestrictedVerifiers) := if fSkipTempCache then None else m !! name in
  match own (ToRemove (setNewRestrictedVerifier c)) with
  | Some e => (removed_verifier e, s)
  | None =>
  match ToRemove (setNewRestrictedVerifier (passets s)) !! name with
  | Some e => (removed_verifier e, s)
  | None =>
  match own (ToAdd (setNewRestrictedVerifier c)) with
  | Some e => (Some (cv_verifier e), s)
  | None =>
  match ToAdd (setNewRestrictedVerifier (passets s)) !! name with
  | Some e => (Some (cv_verifier e), s)
  | None =>
  match cached (passetsVerifierCache s) name with
  | Some (v, l) => (Some v, set_verifierCache l s)
  | None =>
  match db_verifiers (prestricteddb s) !! name with
  | Some v => (Some v, set_verifierCache (LRU.Put (passetsVerifierCache s) name v) s)
  | None => (None, s)
  end end end end end end.

(** [address] has a tag below [qualifier] in the database.  The keys of one address are
    contiguous, and a tag sorts after the tags that are shorter, so the scan from
    [(address, qualifier)] meets every tag that starts with [qualifier + "/"]. *)
Definition CheckForAddressRootQualifier (db : CRestrictedDB) (address qualifier : list Z) : bool :=
  existsb (fun key => bool_decide (fst key = address) &&
                      (bool_decide (snd key = qualifier) || bool_decide (qualifier ++ [47] `prefix_of` snd key)))
          (elements (db_address_qualifiers db)).

(** [map.count(checker) && map.at(checker).size()] *)
Definition has_sub_qualifier (m : gmap (list Z * list Z) (gset (list Z))) (name address : list Z) : bool :=
  match m !! (name, address) with Some tags => negb (bool_decide (tags = ∅)) | None => false end.

Definition CheckForAddressQualifier (c : CAssetsCache) (s : asset_store) (qualifier_name address : list Z) (fSkipTempCache : bool)
    : bool * asset_store :=
  let k := (qualifier_name, address) in
  let own (m : gmap (list Z * list Z) QualifierType) := if fSkipTempCache then None else m !! k in
  match own (ToRemove (setNewQualifierAddress c)) with
  | Some t => (bool_decide (t = REMOVE_QUALIFIER), s)
  | None =>
  match ToRemove (setNewQualifierAddress (passets s)) !! k with
  | Some t => (bool_decide (t = REMOVE_QUALIFIER), s)
  | None =>
  match own (ToAdd (setNewQualifierAddress c)) with
  | Some t => (bool_decide (t = ADD_QUALIFIER), s)
  | None =>
  match ToAdd (setNewQualifierAddress (passets s)) !! k with
  | Some ADD_QUALIFIER => (true, s)
  | Some REMOVE_QUALIFIER => (has_sub_qualifier (mapRootQualifierAddressesAdd (passets s)) qualifier_name address, s)
  | None =>
      if negb fSkipTempCache && has_sub_qualifier (mapRootQualifierAddressesAdd c) qualifier_name address then (true, s)
      else if has_sub_qualifier (mapRootQualifierAddressesAdd (passets s)) qualifier_name address then (true, s)
      else if LRU.Exists (passetsQualifierCache s) (pair_key qualifier_name address) then (true, s)
      else if bool_decide ((address, qualifier_name) ∈ db_address_qualifiers (prestricteddb s))
      then (true, set_qualifierCache (LRU.Put (passetsQualifierCache s) (pair_key qualifier_name address) 1) s)
      else (CheckForAddressRootQualifier (prestricteddb s) address qualifier_name, s)
  end end end end.

Definition CheckForAddressRestriction (c : CAssetsCache) (s : asset_store) (restricted_name address : list Z) (fSkipTempCache : bool)
    : bool * asset_store :=
  let k := (restricted_name, address) in
  let own (m : gmap (list Z * list Z) RestrictedType) := if fSkipTempCache then None else m !! k in
  match own (ToRemove (setNewRestrictedAddress c)) with
  | Some t => (bool_decide (t = UNFREEZE_ADDRESS), s)
  | None =>
  match ToRemove (setNewRestrictedAddress (passets s)) !! k with
  | Some t => (bool_decide (t = UNFREEZE_ADDRESS), s)
  | None =>
  match own (ToAdd (setNewRestrictedAddress c)) with
  | Some t => (bool_decide (t = FREEZE_ADDRESS), s)
  | None =>
  match ToAdd (setNewRestrictedAddress (passets s)) !! k with
  | Some t => (bool_decide (t = FREEZE_ADDRESS), s)
  | None =>
      if LRU.Exists (passetsRestrictionCache s) (pair_key restricted_name address) then (true, s)
      else if bool_decide ((address, restricted_name) ∈ db_restricted_addresses (prestricteddb s))
      then (true, set_restrictionCache (LRU.Put (passetsRestrictionCache s) (pair_key restricted_name address) 1) s)
      else (false, s)
  end end end end.

Definition CheckForGlobalRestriction (c : CAssetsCache) (s : asset_store) (restricted_name : list Z) (fSkipTempCache : bool)
    : bool * asset_store :=
  let k := restricted_name in
  let own (m : gmap (list Z) RestrictedType) := if fSkipTempCache then None else m !! k in
  match own (ToRemove (setNewRestrictedGlobal c)) with
  | Some t => (bool_decide (t = GLOBAL_UNFREEZE), s)
  | None =>
  match ToRemove (setNewRestrictedGlobal (passets s)) !! k with
  | Some t => (bool_decide (t = GLOBAL_UNFREEZE), s)
  | None =>
  match own (ToAdd (setNewRestrictedGlobal c)) with
  | Some t => (bool_decide (t = GLOBAL_FREEZE), s)
  | None =>
  match ToAdd (setNewRestrictedGlobal (passets s)) !! k with
  | Some t => (bool_decide (t = GLOBAL_FREEZE), s)
  | None =>
      if LRU.Exists (passetsGlobalRestrictionCache s) k then (true, s)
      else if bool_decide (k ∈ db_global_restrictions (prestricteddb s))
      then (true, set_globalCache (LRU.Put (passetsGlobalRestrictionCache s) k 1) s)
      else (false, s)
  end end end end.

(** ** Balances *)

(** Put the best known balance into the cache, if there is one. *)
Definition GetBestAssetAddressAmount (c : CAssetsCache) (s : asset_store) (assetName address : list Z) : bool * CAssetsCache :=
  if fAssetIndex then
    let pair := (assetName, address) in
    let m := mapAssetsAddressAmount c in
    if has pair m then (true, c)
    else match mapAssetsAddressAmount (passets s) !! pair with
         | Some n => (true, set_amounts (<[pair := n]> m) c)
         | None =>
             match db_asset_address (passetsdb s) !! pair with
             | Some n => (true, set_amounts (<[pair := n]> m) c)
             | None => (false, c)
             end
         end
  else (false, c).

(** [if (!GetBestAssetAddressAmount(...)) mapAssetsAddressAmount.insert(make_pair(pair, 0));]
    and the amount there. *)
Definition best_or_zero (c : CAssetsCache) (s : asset_store) (assetName address : list Z) : Z * CAssetsCache :=
  let '(found, c) := GetBestAssetAddressAmount c s assetName address in
  let m := mapAssetsAddressAmount c in
  let m := if found then m else kset_insert (assetName, address) 0 m in
  (default 0 (m !! (assetName, address)), set_amounts m c).
Definition put_amount (assetName address : list Z) (n : Z) (c : CAssetsCache) : CAssetsCache :=
  set_amounts (<[(assetName, address) := n]> (mapAssetsAddressAmount c)) c.

Definition AddToAssetBalance (c : CAssetsCache) (s : asset_store) (strName address : list Z) (nAmount : Z) : CAssetsCache :=
  if fAssetIndex then
    let '(n, c) := best_or_zero c s strName address in
    put_amount strName address (if IsAssetNameAnOwner strName then OWNER_ASSET_AMOUNT else i64 (n + nAmount)) c
  else c.

Definition AddTransferAsset (c : CAssetsCache) (s : asset_store) (t : CAssetTransfer) (address : list Z) (out : COutPoint) : CAssetsCache :=
  let c := AddToAssetBalance c s (tr_strName t) address (tr_nAmount t) in
  set_transfers (note_add out (mkCacheTransfer t address out) (setNewTransferAssets c)) c.

(** The asset, address and amount of an output: [None] without an asset script, [Some None]
    when its data cannot be read. *)
Definition output_asset (script : CScript) : result tx_error (option (option (list Z * list Z * Z))) :=
  let? a := read (IsAssetScript script) in
  match a with
  | None => Ok None
  | Some a =>
      if (as_nType a =? TX_NEW_ASSET) && negb (as_fIsOwner a) then
        let? r := AssetFromScript script in
        Ok (Some (match r with Some (x, address) => Some (na_strName x, address, na_nAmount x) | None => None end))
      else if as_nType a =? TX_TRANSFER_ASSET then
        let? r := TransferAssetFromScript script in
        Ok (Some (match r with Some (x, address) => Some (tr_strName x, address, tr_nAmount x) | None => None end))
      else if (as_nType a =? TX_NEW_ASSET) && as_fIsOwner a then
        let? r := OwnerAssetFromScript script in
        Ok (Some (match r with Some (name, address) => Some (name, address, OWNER_ASSET_AMOUNT) | None => None end))
      else if as_nType a =? TX_REISSUE_ASSET then
        let? r := ReissueAssetFromScript script in
        Ok (Some (match r with Some (x, address) => Some (re_strName x, address, re_nAmount x) | None => None end))
      else Ok (Some None)
  end.

Definition TrySpendCoin (c : CAssetsCache) (s : asset_store) (out : COutPoint) (txOut : CTxOut) : result tx_error (bool * CAssetsCache) :=
  let? r := output_asset (scriptPubKey txOut) in
  match r with
  | None => Ok (true, c)
  | Some None => Ok (false, c)
  | Some (Some (assetName, address, nAmount)) =>
      if decide (address = []) then Ok (false, c)
      else if decide (assetName = []) then Ok (false, c)
      else if fAssetIndex && (0 <? nAmount) then
        let '(found, c) := GetBestAssetAddressAmount c s assetName address in
        if found then
          let n := i64 (default 0 (mapAssetsAddressAmount c !! (assetName, address)) - nAmount) in
          let c := put_amount assetName address (if n <? 0 then 0 else n) c in
          Ok (true, set_spent (vSpentAssets c ++ [mkCacheAmount assetName address nAmount]) c)
        else Ok (true, c)
      else Ok (true, c)
  end.

Definition AddBackSpentAsset (c : CAssetsCache) (s : asset_store) (assetName address : list Z) (nAmount : Z) : CAssetsCache :=
  let c :=
    if fAssetIndex then
      let '(n, c) := best_or_zero c s assetName address in put_amount assetName address (i64 (n + nAmount)) c
    else c in
  set_undo (vUndoAssetAmount c ++ [mkCacheAmount assetName address nAmount]) c.

Definition UndoAssetCoin (c : CAssetsCache) (s : asset_store) (coin : Coin) : result tx_error (bool * CAssetsCache) :=
  let? r := output_asset (scriptPubKey (c_out coin)) in
  match r with
  | Some (Some (assetName, address, nAmount)) =>
      if decide (assetName = []) then Ok (false, c)
      else if decide (address = []) then Ok (false, c)
      else if nAmount =? 0 then Ok (false, c)
      else Ok (true, AddBackSpentAsset c s assetName address nAmount)
  | _ => Ok (false, c)
  end.

Definition UndoTransfer (c : CAssetsCache) (s : asset_store) (t : CAssetTransfer) (address : list Z) : bool * CAssetsCache :=
  if fAssetIndex then
    let '(found, c) := GetBestAssetAddressAmount c s (tr_strName t) address in
    match mapAssetsAddressAmount c !! (tr_strName t, address) with
    | Some n =>
        if negb found then (false, c)
        else if n <? tr_nAmount t then (false, c)
        else (true, put_amount (tr_strName t) address (i64 (n - tr_nAmount t)) c)
    | None => (false, c)
    end
  else (true, c).

Definition RemoveTransfer (c : CAssetsCache) (s : asset_store) (t : CAssetTransfer) (address : list Z) (out : COutPoint) : bool * CAssetsCache :=
  let '(done, c) := UndoTransfer c s t address in
  if done then (true, set_transfers (note_remove out (mkCacheTransfer t address out) (setNewTransferAssets c)) c)
  else (false, c).

(** ** Issues, owner tokens and reissues *)

Definition if_index (f : CAssetsCache → CAssetsCache) (c : CAssetsCache) : CAssetsCache := if fAssetIndex then f c else c.

Definition AddNewAsset (c : CAssetsCache) (s : asset_store) (asset : CNewAsset) (address : list Z) (nHeight : Z) (blockHash : uint256)
    : bool * CAssetsCache * asset_store :=
  let name := na_strName asset in
  let '(exists_, s) := CheckIfAssetExists c s name true in
  if exists_ then (false, c, s)
  else
    let c := set_assets (note_add name (mkCacheNewAsset asset address blockHash nHeight) (setNewAssets c)) c in
    (true, if_index (put_amount name address (na_nAmount asset)) c, s).

Definition RemoveNewAsset (c : CAssetsCache) (s : asset_store) (asset : CNewAsset) (address : list Z) : bool * CAssetsCache * asset_store :=
  let name := na_strName asset in
  let '(exists_, s) := CheckIfAssetExists c s name true in
  if negb exists_ then (false, c, s)
  else
    let c := set_assets (note_remove name (mkCacheNewAsset asset address blob_null 0) (setNewAssets c)) c in
    (true, if_index (put_amount name address 0) c, s).

Definition AddOwnerAsset (c : CAssetsCache) (assetsName address : list Z) : CAssetsCache :=
  let c := set_owners (note_add assetsName (mkCacheOwner assetsName address) (setNewOwnerAssets c)) c in
  if_index (put_amount assetsName address OWNER_ASSET_AMOUNT) c.
Definition RemoveOwnerAsset (c : CAssetsCache) (assetsName address : list Z) : CAssetsCache :=
  let c := set_owners (note_remove assetsName (mkCacheOwner assetsName address) (setNewOwnerAssets c)) c in
  if_index (put_amount assetsName address 0) c.

(** The data of an asset after a reissue. *)
Definition reissued_data (asset : CNewAsset) (r : CReissueAsset) : CNewAsset :=
  let units := if re_nUnits r =? -1 then na_units asset else re_nUnits r in
  let '(has_hash, hash) := if decide (re_strIPFSHash r = []) then (na_nHasIPFS asset, na_strIPFSHash asset) else (1, re_strIPFSHash r) in
  mkNewAsset (na_strName asset) (i64 (na_nAmount asset + re_nAmount r)) units (re_nReissuable r) has_hash hash.

(** The block of the original issue; not assigned when the asset was found in a reissue map. *)
Definition issue_block (b : option (Z * uint256)) : Z * uint256 := default (unset_height, blob_null) b.

Definition AddReissueAsset (c : CAssetsCache) (s : asset_store) (r : CReissueAsset) (address : list Z) (out : COutPoint)
    : bool * CAssetsCache * asset_store :=
  let name := re_strName r in
  match GetAssetMetaDataIfExists c s name with
  | (None, s) => (false, c, s)
  | (Some (asset, b), s) =>
      let asset := default asset (mapReissuedAssetData c !! name) in
      let c := set_reissued (<[name := reissued_data asset r]> (mapReissuedAssetData c)) c in
      let '(h, bh) := issue_block b in
      let c := set_reissues (note_add out (mkCacheReissue r address out bh h) (setNewReissue c)) c in
      (true, if_index (fun c => let '(n, c) := best_or_zero c s name address in
                                put_amount name address (i64 (n + re_nAmount r)) c) c, s)
  end.

(** ** Verifier strings, tags and freezes *)

Definition AddRestrictedVerifier (c : CAssetsCache) (assetName verifier : list Z) : CAssetsCache :=
  set_verifiers (note_add assetName (mkCacheVerifier verifier false) (setNewRestrictedVerifier c)) c.
Definition RemoveRestrictedVerifier (c : CAssetsCache) (assetName verifier : list Z) (fUndoingReissue : bool) : CAssetsCache :=
  set_verifiers (note_remove assetName (mkCacheVerifier verifier fUndoingReissue) (setNewRestrictedVerifier c)) c.

(** [m[key].insert(name)] and [m[key].erase(name)] *)
Definition root_insert (k : list Z * list Z) (name : list Z) (m : gmap (list Z * list Z) (gset (list Z))) : gmap (list Z * list Z) (gset (list Z)) :=
  <[k := {[name]} ∪ default ∅ (m !! k)]> m.
Definition root_erase (k : list Z * list Z) (name : list Z) (m : gmap (list Z * list Z) (gset (list Z))) : gmap (list Z * list Z) (gset (list Z)) :=
  <[k := default ∅ (m !! k) ∖ {[name]}]> m.

(** The maps of sub-qualifiers below a root, changed by a tag that is set or taken away. *)
Definition note_root (assetName address : list Z) (adding : bool) (c : CAssetsCache) : CAssetsCache :=
  if IsAssetNameASubQualifier assetName then
    let k := (GetParentName assetName, address) in
    let add := mapRootQualifierAddressesAdd c in
    let remove := mapRootQualifierAddressesRemove c in
    if adding then set_rootRemove (root_erase k assetName remove) (set_rootAdd (root_insert k assetName add) c)
    else set_rootRemove (root_insert k assetName remove) (set_rootAdd (root_erase k assetName add) c)
  else c.

Definition AddQualifierAddress (c : CAssetsCache) (assetName address : list Z) (type : QualifierType) : CAssetsCache :=
  let c := note_root assetName address (bool_decide (type = ADD_QUALIFIER)) c in
  set_qualifiers (write_add (assetName, address) type (setNewQualifierAddress c)) c.
Definition RemoveQualifierAddress (c : CAssetsCache) (assetName address : list Z) (type : QualifierType) : CAssetsCache :=
  let c := note_root assetName address (bool_decide (type ≠ ADD_QUALIFIER)) c in
  set_qualifiers (write_remove (assetName, address) type (setNewQualifierAddress c)) c.

Definition AddRestrictedAddress (c : CAssetsCache) (assetName address : list Z) (type : RestrictedType) : CAssetsCache :=
  set_restricted (write_add (assetName, address) type (setNewRestrictedAddress c)) c.
Definition RemoveRestrictedAddress (c : CAssetsCache) (assetName address : list Z) (type : RestrictedType) : CAssetsCache :=
  set_restricted (write_remove (assetName, address) type (setNewRestrictedAddress c)) c.
Definition AddGlobalRestricted (c : CAssetsCache) (assetName : list Z) (type : RestrictedType) : CAssetsCache :=
  set_globals (write_add assetName type (setNewRestrictedGlobal c)) c.
Definition RemoveGlobalRestricted (c : CAssetsCache) (assetName : list Z) (type : RestrictedType) : CAssetsCache :=
  set_globals (write_remove assetName type (setNewRestrictedGlobal c)) c.

(** ** Undoing a reissue *)

(** What a block records about the asset a reissue changes. *)
Record CBlockAssetUndo := mkAssetUndo {
  au_fChangedIPFS : bool; au_fChangedUnits : bool; au_strIPFS : list Z; au_nUnits : Z; au_version : Z;
  au_fChangedVerifierString : bool; au_verifierString : list Z
}.

(** The asset before the reissue, from the asset after it and the first record for it. *)
Definition undone_data (asset : CNewAsset) (r : CReissueAsset) (u : option CBlockAssetUndo) : CNewAsset :=
  let amount := i64 (na_nAmount asset - re_nAmount r) in
  match u with
  | None => mkNewAsset (na_strName asset) amount (na_units asset) 1 (na_nHasIPFS asset) (na_strIPFSHash asset)
  | Some u =>
      let hash := if au_fChangedIPFS u then au_strIPFS u else na_strIPFSHash asset in
      let units := if au_fChangedUnits u then swrap 8 (au_nUnits u) else na_units asset in
      mkNewAsset (na_strName asset) amount units 1 (if decide (hash = []) then 0 else na_nHasIPFS asset) hash
  end.

Definition find_undo (name : list Z) (vUndoIPFS : list (list Z * CBlockAssetUndo)) : option CBlockAssetUndo :=
  snd <$> (snd <$> list_find (fun u => fst u = name) vUndoIPFS).

Definition RemoveReissueAsset (c : CAssetsCache) (s : asset_store) (r : CReissueAsset) (address : list Z) (out : COutPoint)
    (vUndoIPFS : list (list Z * CBlockAssetUndo)) : bool * CAssetsCache * asset_store :=
  let name := re_strName r in
  match GetAssetMetaDataIfExists c s name with
  | (None, s) => (false, c, s)
  | (Some (asset, b), s) =>
      let u := find_undo name vUndoIPFS in
      let c := set_reissued (<[na_strName asset := undone_data asset r u]> (mapReissuedAssetData c)) c in
      let '(h, bh) := issue_block b in
      let c := set_reissues (note_remove out (mkCacheReissue r address out bh h) (setNewReissue c)) c in
      let c :=
        match u with
        | Some u => if au_fChangedVerifierString u then RemoveRestrictedVerifier c (na_strName asset) (au_verifierString u) true else c
        | None => c
        end in
      if fAssetIndex then
        let '(found, c) := GetBestAssetAddressAmount c s name address in
        if negb found && negb (re_nAmount r =? 0) then (false, c, s)
        else
          let n := i64 (default 0 (mapAssetsAddressAmount c !! (name, address)) - re_nAmount r) in
          (negb (n <? 0), put_amount name address n c, s)
      else (true, c, s)
  end.

(** ** Flushing to the global cache *)

(** [passets->map[item.first].insert(asset)] for every element of a map of sets. *)
Definition flush_roots (from to : gmap (list Z * list Z) (gset (list Z))) : gmap (list Z * list Z) (gset (list Z)) :=
  map_fold (fun k tags m => if decide (tags = ∅) then m else <[k := tags ∪ default ∅ (m !! k)]> m) to from.

Definition Flush_to (c p : CAssetsCache) : CAssetsCache :=
  mkAssetsCache
    (mapAssetsAddressAmount c ∪ mapAssetsAddressAmount p)
    (mapReissuedAssetData c ∪ mapReissuedAssetData p)
    (vUndoAssetAmount p ++ vUndoAssetAmount c)
    (vSpentAssets p ++ vSpentAssets c)
    (flush_with note_add note_remove (setNewAssets c) (setNewAssets p))
    (flush_with note_add note_remove (setNewReissue c) (setNewReissue p))
    (flush_with note_add note_remove (setNewOwnerAssets c) (setNewOwnerAssets p))
    (flush_with note_add note_remove (setNewTransferAssets c) (setNewTransferAssets p))
    (flush_with write_add write_remove (setNewQualifierAddress c) (setNewQualifierAddress p))
    (flush_with write_add write_remove (setNewRestrictedAddress c) (setNewRestrictedAddress p))
    (flush_with write_add write_remove (setNewRestrictedGlobal c) (setNewRestrictedGlobal p))
    (flush_with write_add write_remove (setNewRestrictedVerifier c) (setNewRestrictedVerifier p))
    (flush_roots (mapRootQualifierAddressesRemove c) (flush_roots (mapRootQualifierAddressesAdd c) (mapRootQualifierAddressesAdd p)))
    (mapRootQualifierAddressesRemove p).
Definition Flush (c : CAssetsCache) (s : asset_store) : asset_store := set_passets (Flush_to c (passets s)) s.

(** ** Writing to the databases

    [DumpCacheToDatabase] is a sequence of updates of the databases and of the caches of
    reads; none of them depends on what is there.  A write that fails throws
    ([CDBWrapper::WriteBatch] never returns false): the updates before it are done, the
    caches of changes stay as they are, and the function returns false. *)

Inductive dump_action :=
  | PutAsset (name : list Z) (data : CDatabasedAssetData)          (* passetsCache *)
  | DropAsset (name : list Z)
  | WriteAssetData (asset : CNewAsset) (nHeight : Z) (blockHash : uint256)
  | EraseAssetData (name : list Z)
  | WriteAssetAddressQuantity (name address : list Z) (n : Z)
  | EraseAssetAddressQuantity (name address : list Z)
  | WriteAddressAssetQuantity (address name : list Z) (n : Z)
  | EraseAddressAssetQuantity (address name : list Z)
  | DropVerifier (name : list Z)                                   (* passetsVerifierCache *)
  | WriteVerifier (name verifier : list Z)
  | EraseVerifier (name : list Z)
  | PutQualifier (name address : list Z)                           (* passetsQualifierCache *)
  | DropQualifier (name address : list Z)
  | WriteAddressQualifier (address tag : list Z)
  | EraseAddressQualifier (address tag : list Z)
  | WriteQualifierAddress (address tag : list Z)
  | EraseQualifierAddress (address tag : list Z)
  | PutRestriction (name address : list Z)                         (* passetsRestrictionCache *)
  | DropRestriction (name address : list Z)
  | WriteRestrictedAddress (address name : list Z)
  | EraseRestrictedAddress (address name : list Z)
  | PutGlobal (name : list Z)                                      (* passetsGlobalRestrictionCache *)
  | DropGlobal (name : list Z)
  | WriteGlobalRestriction (name : list Z)
  | EraseGlobalRestriction (name : list Z).

Definition run_assetsdb (d : CAssetsDB) (a : dump_action) : CAssetsDB :=
  let '(mkAssetsDB assets by_asset by_address) := d in
  match a with
  | WriteAssetData asset h b => mkAssetsDB (<[na_strName asset := mkDatabasedAsset asset h b]> assets) by_asset by_address
  | EraseAssetData name => mkAssetsDB (delete name assets) by_asset by_address
  | WriteAssetAddressQuantity name address n => mkAssetsDB assets (<[(name, address) := n]> by_asset) by_address
  | EraseAssetAddressQuantity name address => mkAssetsDB assets (delete (name, address) by_asset) by_address
  | WriteAddressAssetQuantity address name n => mkAssetsDB assets by_asset (<[(address, name) := n]> by_address)
  | EraseAddressAssetQuantity address name => mkAssetsDB assets by_asset (delete (address, name) by_address)
  | _ => d
  end.

Definition run_restricteddb (d : CRestrictedDB) (a : dump_action) : CRestrictedDB :=
  let '(mkRestrictedDB v t q r g) := d in
  match a with
  | WriteVerifier name verifier => mkRestrictedDB (<[name := verifier]> v) t q r g
  | EraseVerifier name => mkRestrictedDB (delete name v) t q r g
  | WriteAddressQualifier address tag => mkRestrictedDB v ({[(address, tag)]} ∪ t) q r g
  | EraseAddressQualifier address tag => mkRestrictedDB v (t ∖ {[(address, tag)]}) q r g
  | WriteQualifierAddress address tag => mkRestrictedDB v t ({[(tag, address)]} ∪ q) r g
  | EraseQualifierAddress address tag => mkRestrictedDB v t (q ∖ {[(tag, address)]}) r g
  | WriteRestrictedAddress address name => mkRestrictedDB v t q ({[(address, name)]} ∪ r) g
  | EraseRestrictedAddress address name => mkRestrictedDB v t q (r ∖ {[(address, name)]}) g
  | WriteGlobalRestriction name => mkRestrictedDB v t q r ({[name]} ∪ g)
  | EraseGlobalRestriction name => mkRestrictedDB v t q r (g ∖ {[name]})
  | _ => d
  end.

Definition run_action (s : asset_store) (a : dump_action) : asset_store :=
  mkStore (passets s)
    (match a with PutAsset k d => LRU.Put (passetsCache s) k d | DropAsset k => LRU.Erase (passetsCache s) k | _ => passetsCache s end)
    (match a with DropVerifier k => LRU.Erase (passetsVerifierCache s) k | _ => passetsVerifierCache s end)
    (match a with
     | PutQualifier n a => LRU.Put (passetsQualifierCache s) (pair_key n a) 1
     | DropQualifier n a => LRU.Erase (passetsQualifierCache s) (pair_key n a)
     | _ => passetsQualifierCache s
     end)
    (match a with
     | PutRestriction n a => LRU.Put (passetsRestrictionCache s) (pair_key n a) 1
     | DropRestriction n a => LRU.Erase (passetsRestrictionCache s) (pair_key n a)
     | _ => passetsRestrictionCache s
     end)
    (match a with PutGlobal k => LRU.Put (passetsGlobalRestrictionCache s) k 1 | DropGlobal k => LRU.Erase (passetsGlobalRestrictionCache s) k
     | _ => passetsGlobalRestrictionCache s end)
    (run_assetsdb (passetsdb s) a) (run_restricteddb (prestricteddb s) a).

(** Only with [fAssetIndex]. *)
Definition indexed (l : list dump_action) : list dump_action := if fAssetIndex then l else [].
Definition write_quantity (name address : list Z) (n : Z) : list dump_action :=
  [WriteAssetAddressQuantity name address n; WriteAddressAssetQuantity address name n].
Definition erase_quantity (name address : list Z) : list dump_action :=
  [EraseAssetAddressQuantity name address; EraseAddressAssetQuantity address name].
(** [if (map.count(pair)) ...], erasing a balance of zero or writing it. *)
Definition quantity_or_erase (c : CAssetsCache) (name address : list Z) : list dump_action :=
  match mapAssetsAddressAmount c !! (name, address) with
  | None => []
  | Some n => if n =? 0 then erase_quantity name address else write_quantity name address n
  end.
Definition quantity (c : CAssetsCache) (name address : list Z) : list dump_action :=
  match mapAssetsAddressAmount c !! (name, address) with None => [] | Some n => write_quantity name address n end.
Definition positive_quantity (c : CAssetsCache) (name address : list Z) : list dump_action :=
  match mapAssetsAddressAmount c !! (name, address) with
  | None => []
  | Some n => if 0 <? n then write_quantity name address n else []
  end.

Definition dump_removed_asset (e : CAssetCacheNewAsset) : list dump_action :=
  let name := na_strName (cn_asset e) in
  [DropAsset name; EraseAssetData name; EraseVerifier name] ++ indexed (erase_quantity name (cn_address e)).
Definition dump_new_asset (e : CAssetCacheNewAsset) : list dump_action :=
  let a := cn_asset e in
  [PutAsset (na_strName a) (mkDatabasedAsset a (cn_blockHeight e) (cn_blockHash e));
   WriteAssetData a (cn_blockHeight e) (cn_blockHash e)] ++ indexed (write_quantity (na_strName a) (cn_address e) (na_nAmount a)).
Definition dump_reissue (c : CAssetsCache) (e : CAssetCacheReissueAsset) : list dump_action :=
  let name := re_strName (cr_reissue e) in
  match mapReissuedAssetData c !! name with
  | None => []
  | Some a =>
      [WriteAssetData a (cr_blockHeight e) (cr_blockHash e); DropAsset name] ++ indexed (positive_quantity c name (cr_address e))
  end.
Definition dump_removed_reissue (c : CAssetsCache) (e : CAssetCacheReissueAsset) : list dump_action :=
  let name := re_strName (cr_reissue e) in
  if has name (ToRemove (setNewAssets c)) then []
  else match mapReissuedAssetData c !! name with
       | None => []
       | Some a =>
           [WriteAssetData a (cr_blockHeight e) (cr_blockHash e)] ++ indexed (quantity_or_erase c name (cr_address e)) ++ [DropAsset name]
       end.
Definition dump_verifier (k : list Z) (e : CAssetCacheRestrictedVerifiers) : list dump_action :=
  [WriteVerifier k (cv_verifier e); DropVerifier k].
Definition dump_removed_verifier (k : list Z) (e : CAssetCacheRestrictedVerifiers) : list dump_action :=
  [if cv_fUndoingRessiue e then WriteVerifier k (cv_verifier e) else EraseVerifier k; DropVerifier k].
Definition write_tag (k : list Z * list Z) : list dump_action :=
  let '(name, address) := k in [PutQualifier name address; WriteAddressQualifier address name] ++ indexed [WriteQualifierAddress address name].
Definition erase_tag (k : list Z * list Z) : list dump_action :=
  let '(name, address) := k in [DropQualifier name address; EraseAddressQualifier address name] ++ indexed [EraseQualifierAddress address name].
Definition write_freeze (k : list Z * list Z) : list dump_action :=
  let '(name, address) := k in [PutRestriction name address; WriteRestrictedAddress address name].
Definition erase_freeze (k : list Z * list Z) : list dump_action :=
  let '(name, address) := k in [DropRestriction name address; EraseRestrictedAddress address name].
Definition write_global (k : list Z) : list dump_action := [PutGlobal k; WriteGlobalRestriction k].
Definition erase_global (k : list Z) : list dump_action := [DropGlobal k; EraseGlobalRestriction k].

Definition dump_tag (k : list Z * list Z) (t : QualifierType) : list dump_action :=
  match t with REMOVE_QUALIFIER => erase_tag k | ADD_QUALIFIER => write_tag k end.
Definition dump_removed_tag (k : list Z * list Z) (t : QualifierType) : list dump_action :=
  match t with REMOVE_QUALIFIER => write_tag k | ADD_QUALIFIER => erase_tag k end.
Definition dump_freeze (k : list Z * list Z) (t : RestrictedType) : list dump_action :=
  match t with UNFREEZE_ADDRESS => erase_freeze k | FREEZE_ADDRESS => write_freeze k | _ => [] end.
Definition dump_removed_freeze (k : list Z * list Z) (t : RestrictedType) : list dump_action :=
  match t with UNFREEZE_ADDRESS => write_freeze k | FREEZE_ADDRESS => erase_freeze k | _ => [] end.
Definition dump_global (k : list Z) (t : RestrictedType) : list dump_action :=
  match t with GLOBAL_UNFREEZE => erase_global k | GLOBAL_FREEZE => write_global k | _ => [] end.
Definition dump_removed_global (k : list Z) (t : RestrictedType) : list dump_action :=
  match t with GLOBAL_UNFREEZE => write_global k | GLOBAL_FREEZE => erase_global k | _ => [] end.

(** The loops, over a set in any order: elements with different keys update different
    entries.  Reissues are walked in the order of their outpoints, since two of them may
    be about one asset. *)
Definition each {K} `{Countable K} {E} (f : K → E → list dump_action) (m : gmap K E) : list dump_action :=
  flat_map (fun p => f p.1 p.2) (map_to_list m).
Definition outpoint_leb (a b : COutPoint) : bool :=
  string_ltb (Transaction.op_hash a) (Transaction.op_hash b) || (bool_decide (Transaction.op_hash a = Transaction.op_hash b) && (op_n a <=? op_n b)).
Definition outpoint_le {E} (p q : COutPoint * E) : Prop := outpoint_leb p.1 q.1 = true.
#[global] Instance outpoint_le_dec {E} : RelDecision (@outpoint_le E).
Proof. intros p q. unfold outpoint_le. apply _. Defined.
Definition by_outpoint {E} (m : gmap COutPoint E) : list E := (merge_sort outpoint_le (map_to_list m)).*2.

Definition dump_actions (c : CAssetsCache) : list dump_action :=
  each (fun _ => dump_removed_asset) (ToRemove (setNewAssets c)) ++
  each (fun _ => dump_new_asset) (ToAdd (setNewAssets c)) ++
  indexed (
    each (fun _ e => erase_quantity (co_assetName e) (co_address e)) (ToRemove (setNewOwnerAssets c)) ++
    each (fun _ e => positive_quantity c (co_assetName e) (co_address e)) (ToAdd (setNewOwnerAssets c)) ++
    flat_map (fun e => quantity_or_erase c (tr_strName (ct_transfer e)) (ct_address e)) (by_outpoint (ToRemove (setNewTransferAssets c))) ++
    flat_map (fun e => quantity c (tr_strName (ct_transfer e)) (ct_address e)) (by_outpoint (ToAdd (setNewTransferAssets c)))) ++
  flat_map (dump_reissue c) (by_outpoint (ToAdd (setNewReissue c))) ++
  flat_map (dump_removed_reissue c) (by_outpoint (ToRemove (setNewReissue c))) ++
  each dump_verifier (ToAdd (setNewRestrictedVerifier c)) ++
  each dump_removed_verifier (ToRemove (setNewRestrictedVerifier c)) ++
  each dump_tag (ToAdd (setNewQualifierAddress c)) ++
  each dump_removed_tag (ToRemove (setNewQualifierAddress c)) ++
  each dump_freeze (ToAdd (setNewRestrictedAddress c)) ++
  each dump_removed_freeze (ToRemove (setNewRestrictedAddress c)) ++
  each dump_global (ToAdd (setNewRestrictedGlobal c)) ++
  each dump_removed_global (ToRemove (setNewRestrictedGlobal c)) ++
  indexed (
    flat_map (fun e => quantity c (ca_assetName e) (ca_address e)) (vUndoAssetAmount c) ++
    flat_map (fun e => quantity_or_erase c (ca_assetName e) (ca_address e)) (vSpentAssets c)).

(** [passets->DumpCacheToDatabase()]; [fails] is the number of updates done before a
    write that throws, if there is one. *)
Definition DumpCacheToDatabase (s : asset_store) (fails : option nat) : bool * asset_store :=
  let actions := dump_actions (passets s) in
  match fails with
  | Some n => (false, fold_left run_action (take n actions) s)
  | None =>
      let s := fold_left run_action actions s in
      (true, set_passets (ClearDirtyCache (passets s)) s)
  end.
End cache.
