(* ===== verification/AssetStore.v ===== *)
(** * The asset cache against the state it stands for: assets/assets.cpp

    The look-ups of AssetsCache.v return what the changes in the two caches and the
    databases determine; flushing a block's cache, writing the global cache to the
    databases and disconnecting a block keep or restore these answers.  The last part
    shows the cases in which the code does not. *)

From stdpp Require Import gmap sorting.
From S2P Require Import Prelude Serialize Transaction Script Interpreter Regex AssetTypes AssetNames Verifier LRUCache Coins Base58 Standard AssetScripts AssetChecks AssetsCache.

(** ** Two layers of changes over a base *)

Section layers.
Context {K : Type} `{Countable K} {E A : Type}.
Implicit Types (c p d : dirty K E) (k : K) (x : E).

(** The answer for a key: [on_remove] for an element taken away, [on_add] for one added. *)
Definition layered (on_remove on_add : E → A) (c p : dirty K E) (k : K) (base : A) : A :=
  match ToRemove c !! k with Some x => on_remove x | None =>
  match ToRemove p !! k with Some x => on_remove x | None =>
  match ToAdd c !! k with Some x => on_add x | None =>
  match ToAdd p !! k with Some x => on_add x | None => base
  end end end end.

Lemma kset_insert_lookup k x (s : gmap K E) k' :
  kset_insert k x s !! k' = match s !! k' with Some y => Some y | None => if decide (k' = k) then Some x else None end.
Proof.
  unfold kset_insert. destruct (decide (k' = k)) as [->|Hk].
  - destruct (s !! k) eqn:E1; [by rewrite E1|by rewrite lookup_insert_eq].
  - destruct (s !! k); [by destruct (s !! k')|]. rewrite lookup_insert_ne by done. by destruct (s !! k').
Qed.

(** The loop of [Flush] over the elements to add, and the one over those to remove. *)
Lemma fold_write_add p (m : gmap K E) k :
  ToAdd (map_fold write_add p m) !! k = match m !! k with Some x => Some x | None => ToAdd p !! k end ∧
  ToRemove (map_fold write_add p m) !! k = match m !! k with Some _ => None | None => ToRemove p !! k end.
Proof.
  revert k. apply (map_fold_weak_ind (fun d (m : gmap K E) => ∀ k,
    ToAdd d !! k = match m !! k with Some x => Some x | None => ToAdd p !! k end ∧
    ToRemove d !! k = match m !! k with Some _ => None | None => ToRemove p !! k end)); [intros k; by rewrite lookup_empty|].
  intros i x m' d Hi IH k. cbn. destruct (decide (i = k)) as [->|Hk].
  - by rewrite !lookup_insert_eq, lookup_delete_eq.
  - rewrite !lookup_insert_ne, lookup_delete_ne by done. apply IH.
Qed.

Lemma fold_write_remove p (m : gmap K E) k :
  ToRemove (map_fold write_remove p m) !! k = match m !! k with Some x => Some x | None => ToRemove p !! k end ∧
  ToAdd (map_fold write_remove p m) !! k = match m !! k with Some _ => None | None => ToAdd p !! k end.
Proof.
  revert k. apply (map_fold_weak_ind (fun d (m : gmap K E) => ∀ k,
    ToRemove d !! k = match m !! k with Some x => Some x | None => ToRemove p !! k end ∧
    ToAdd d !! k = match m !! k with Some _ => None | None => ToAdd p !! k end)); [intros k; by rewrite lookup_empty|].
  intros i x m' d Hi IH k. cbn. destruct (decide (i = k)) as [->|Hk].
  - by rewrite !lookup_insert_eq, lookup_delete_eq.
  - rewrite !lookup_insert_ne, lookup_delete_ne by done. apply IH.
Qed.

Lemma fold_note_add p (m : gmap K E) k :
  ToAdd (map_fold note_add p m) !! k = match ToAdd p !! k with Some x => Some x | None => m !! k end ∧
  ToRemove (map_fold note_add p m) !! k = match m !! k with Some _ => None | None => ToRemove p !! k end.
Proof.
  revert k. apply (map_fold_weak_ind (fun d (m : gmap K E) => ∀ k,
    ToAdd d !! k = match ToAdd p !! k with Some x => Some x | None => m !! k end ∧
    ToRemove d !! k = match m !! k with Some _ => None | None => ToRemove p !! k end)); [intros k; rewrite lookup_empty; by destruct (ToAdd p !! k)|].
  intros i x m' d Hi IH k. cbn. rewrite kset_insert_lookup. destruct (IH k) as [-> H2]. destruct (decide (k = i)) as [->|Hk].
  - rewrite lookup_insert_eq, lookup_delete_eq, Hi. by destruct (ToAdd p !! i).
  - rewrite lookup_insert_ne, lookup_delete_ne, H2 by done. destruct (ToAdd p !! k), (m' !! k); done.
Qed.

Lemma fold_note_remove p (m : gmap K E) k :
  ToRemove (map_fold note_remove p m) !! k = match ToRemove p !! k with Some x => Some x | None => m !! k end ∧
  ToAdd (map_fold note_remove p m) !! k = match m !! k with Some _ => None | None => ToAdd p !! k end.
Proof.
  revert k. apply (map_fold_weak_ind (fun d (m : gmap K E) => ∀ k,
    ToRemove d !! k = match ToRemove p !! k with Some x => Some x | None => m !! k end ∧
    ToAdd d !! k = match m !! k with Some _ => None | None => ToAdd p !! k end)); [intros k; rewrite lookup_empty; by destruct (ToRemove p !! k)|].
  intros i x m' d Hi IH k. cbn. rewrite kset_insert_lookup. destruct (IH k) as [-> H2]. destruct (decide (k = i)) as [->|Hk].
  - rewrite lookup_insert_eq, lookup_delete_eq, Hi. by destruct (ToRemove p !! i).
  - rewrite lookup_insert_ne, lookup_delete_ne, H2 by done. destruct (ToRemove p !! k), (m' !! k); done.
Qed.

Lemma flush_write c p k :
  ToRemove (flush_with write_add write_remove c p) !! k =
    match ToRemove c !! k with Some x => Some x | None => match ToAdd c !! k with Some _ => None | None => ToRemove p !! k end end ∧
  ToAdd (flush_with write_add write_remove c p) !! k =
    match ToRemove c !! k with Some _ => None | None => match ToAdd c !! k with Some x => Some x | None => ToAdd p !! k end end.
Proof.
  unfold flush_with. cbn zeta. destruct (fold_write_remove (map_fold write_add p (ToAdd c)) (ToRemove c) k) as [-> ->].
  destruct (fold_write_add p (ToAdd c) k) as [-> ->]. done.
Qed.

Lemma flush_note c p k :
  ToRemove (flush_with note_add note_remove c p) !! k =
    match ToAdd c !! k with Some _ => ToRemove c !! k
    | None => match ToRemove p !! k with Some x => Some x | None => ToRemove c !! k end end ∧
  ToAdd (flush_with note_add note_remove c p) !! k =
    match ToRemove c !! k with Some _ => None | None => match ToAdd p !! k with Some x => Some x | None => ToAdd c !! k end end.
Proof.
  unfold flush_with. cbn zeta. destruct (fold_note_remove (map_fold note_add p (ToAdd c)) (ToRemove c) k) as [-> ->].
  destruct (fold_note_add p (ToAdd c) k) as [-> ->]. split; [by destruct (ToAdd c !! k)|done].
Qed.

(** No key is both added by [c] and marked as removed in [p]. *)
Definition no_readd (c p : dirty K E) (k : K) : Prop := is_Some (ToAdd c !! k) → ToRemove p !! k = None.

Lemma layered_flush_write r a c p k b : no_readd c p k →
  layered r a empty_dirty (flush_with write_add write_remove c p) k b = layered r a c p k b.
Proof.
  intros Hn. unfold layered. cbn. rewrite !lookup_empty. destruct (flush_write c p k) as [-> ->]. unfold no_readd in Hn.
  destruct (ToRemove c !! k); [done|]. destruct (ToAdd c !! k); [|done]. by rewrite Hn.
Qed.

Lemma layered_flush_note (r : E → A) a c p k b : (∀ x y, r x = r y) → no_readd c p k →
  (is_Some (ToAdd c !! k) → ToAdd p !! k = None) →
  layered r a empty_dirty (flush_with note_add note_remove c p) k b = layered r a c p k b.
Proof.
  intros Hr Hn Hd. unfold layered. cbn. rewrite !lookup_empty. destruct (flush_note c p k) as [-> ->]. unfold no_readd in Hn.
  destruct (ToAdd c !! k); [rewrite Hn, Hd by done; by destruct (ToRemove c !! k)|].
  destruct (ToRemove c !! k), (ToRemove p !! k); try apply Hr; try done. by destruct (ToAdd p !! k).
Qed.

(** Changes made one after the other on an empty cache. *)
Definition write_all (f : K → E → dirty K E → dirty K E) (l : list (K * E)) (d : dirty K E) : dirty K E :=
  fold_left (fun d (q : K * E) => f q.1 q.2 d) l d.

Lemma write_all_add l : ∀ d k,
  (k ∈ l.*1 → ∃ x, (k, x) ∈ l ∧ ToAdd (write_all write_add l d) !! k = Some x ∧ ToRemove (write_all write_add l d) !! k = None) ∧
  (k ∉ l.*1 → ToAdd (write_all write_add l d) !! k = ToAdd d !! k ∧ ToRemove (write_all write_add l d) !! k = ToRemove d !! k).
Proof.
  induction l as [|[k1 x1] l IH]; intros d k; cbn; [split; [by intros ?%elem_of_nil|done]|].
  destruct (IH (write_add k1 x1 d) k) as [H1 H2]. split.
  - intros Hk. destruct (decide (k ∈ l.*1)) as [Hl|Hl].
    + destruct (H1 Hl) as (x & Hx & Ha & Hr). exists x. split; [by right|done].
    + apply elem_of_cons in Hk as [->|]; [|done]. exists x1. destruct (H2 Hl) as [Ha Hr]. split; [by left|].
      change (fold_left _ l _) with (write_all write_add l (write_add k1 x1 d)). rewrite Ha, Hr. cbn. by rewrite lookup_insert_eq, lookup_delete_eq.
  - intros Hk. apply not_elem_of_cons in Hk as [Hne Hl]. destruct (H2 Hl) as [Ha Hr].
    change (fold_left _ l _) with (write_all write_add l (write_add k1 x1 d)). rewrite Ha, Hr. cbn. by rewrite lookup_insert_ne, lookup_delete_ne.
Qed.

Lemma write_all_remove l : ∀ d k,
  (k ∈ l.*1 → ∃ x, (k, x) ∈ l ∧ ToRemove (write_all write_remove l d) !! k = Some x ∧ ToAdd (write_all write_remove l d) !! k = None) ∧
  (k ∉ l.*1 → ToAdd (write_all write_remove l d) !! k = ToAdd d !! k ∧ ToRemove (write_all write_remove l d) !! k = ToRemove d !! k).
Proof.
  induction l as [|[k1 x1] l IH]; intros d k; cbn; [split; [by intros ?%elem_of_nil|done]|].
  destruct (IH (write_remove k1 x1 d) k) as [H1 H2]. split.
  - intros Hk. destruct (decide (k ∈ l.*1)) as [Hl|Hl].
    + destruct (H1 Hl) as (x & Hx & Ha & Hr). exists x. split; [by right|done].
    + apply elem_of_cons in Hk as [->|]; [|done]. exists x1. destruct (H2 Hl) as [Ha Hr]. split; [by left|].
      change (fold_left _ l _) with (write_all write_remove l (write_remove k1 x1 d)). rewrite Ha, Hr. cbn. by rewrite lookup_insert_eq, lookup_delete_eq.
  - intros Hk. apply not_elem_of_cons in Hk as [Hne Hl]. destruct (H2 Hl) as [Ha Hr].
    change (fold_left _ l _) with (write_all write_remove l (write_remove k1 x1 d)). rewrite Ha, Hr. cbn. by rewrite lookup_insert_ne, lookup_delete_ne.
Qed.

(** A block whose changes all turn the answer round, connected and then disconnected
    over a state [p'], [b'] with the answers it left. *)
Lemma undo_write (r a : E → A) p p' l l' k b b' : (∀ x, (k, x) ∈ l' ↔ (k, x) ∈ l) →
  (∀ x, (k, x) ∈ l → layered r a empty_dirty p k b = r x) →
  layered r a empty_dirty p' k b' = layered r a (write_all write_add l empty_dirty) p k b →
  layered r a (write_all write_remove l' empty_dirty) p' k b' = layered r a empty_dirty p k b.
Proof.
  intros Hl' Hl Hs. destruct (write_all_add l empty_dirty k) as [_ H2]. destruct (write_all_remove l' empty_dirty k) as [H3 H4].
  unfold layered in *. cbn in *. rewrite !lookup_empty in *. destruct (decide (k ∈ l'.*1)) as [Hk|Hk].
  - destruct (H3 Hk) as (y & Hy & -> & _). symmetry. by apply Hl, Hl'.
  - destruct (H4 Hk) as [-> ->]. rewrite Hs. destruct H2 as [-> ->]; [|done]. intros Hin. apply Hk.
    apply list_elem_of_fmap in Hin as ([k1 x] & -> & Hx). apply Hl' in Hx. by apply (list_elem_of_fmap_2 fst) in Hx.
Qed.
End layers.

(** ** What the look-ups answer *)

Section answers.
Context {Cry : Crypto} {Split : BoostSplit} {Env : AssetEnv} {Flags : AssetFlags}.

(** [own skip c]: the changes of the block's cache, or none when they are skipped. *)
Definition own {K} `{Countable K} {E} (skip : bool) (d : dirty K E) : dirty K E := if skip then empty_dirty else d.

Definition exists_in (c p : CAssetsCache) (db : CAssetsDB) (name : list Z) : bool :=
  fReindex || layered (fun _ => false) (fun _ => true) (setNewAssets c) (setNewAssets p) name (has name (db_assets db)).
Definition meta_in (c p : CAssetsCache) (db : CAssetsDB) (name : list Z) : option CNewAsset :=
  match (mapReissuedAssetData c ∪ mapReissuedAssetData p) !! name with
  | Some a => Some a
  | None => layered (fun _ => None) (fun e => Some (cn_asset e)) (setNewAssets c) (setNewAssets p) name (da_asset <$> db_assets db !! name)
  end.
Definition verifier_in (skip : bool) (c p : CAssetsCache) (db : CRestrictedDB) (name : list Z) : option (list Z) :=
  layered removed_verifier (fun e => Some (cv_verifier e)) (own skip (setNewRestrictedVerifier c)) (setNewRestrictedVerifier p) name
    (db_verifiers db !! name).
Definition frozen_in (skip : bool) (c p : CAssetsCache) (db : CRestrictedDB) (name address : list Z) : bool :=
  layered (fun t => bool_decide (t = UNFREEZE_ADDRESS)) (fun t => bool_decide (t = FREEZE_ADDRESS))
    (own skip (setNewRestrictedAddress c)) (setNewRestrictedAddress p) (name, address)
    (bool_decide ((address, name) ∈ db_restricted_addresses db)).
Definition globally_frozen_in (skip : bool) (c p : CAssetsCache) (db : CRestrictedDB) (name : list Z) : bool :=
  layered (fun t => bool_decide (t = GLOBAL_UNFREEZE)) (fun t => bool_decide (t = GLOBAL_FREEZE))
    (own skip (setNewRestrictedGlobal c)) (setNewRestrictedGlobal p) name
    (bool_decide (name ∈ db_global_restrictions db)).
(** A tag that the global cache takes away still holds when a tag below it was set. *)
Definition tagged_in (skip : bool) (c p : CAssetsCache) (db : CRestrictedDB) (name address : list Z) : bool :=
  let d := own skip (setNewQualifierAddress c) in
  let sub (m : CAssetsCache) := has_sub_qualifier (mapRootQualifierAddressesAdd m) name address in
  match ToRemove d !! (name, address), ToRemove (setNewQualifierAddress p) !! (name, address),
        ToAdd d !! (name, address), ToAdd (setNewQualifierAddress p) !! (name, address) with
  | Some t, _, _, _ | None, Some t, _, _ => bool_decide (t = REMOVE_QUALIFIER)
  | None, None, Some t, _ => bool_decide (t = ADD_QUALIFIER)
  | None, None, None, Some t => bool_decide (t = ADD_QUALIFIER) || sub p
  | None, None, None, None =>
      (negb skip && sub c) || sub p || bool_decide ((address, name) ∈ db_address_qualifiers db) || CheckForAddressRootQualifier db address name
  end.

(** ** The caches of database reads *)

Definition agrees {K} `{Countable K} {V} (P : K → V → Prop) (l : LRU.CLRUCache K V) : Prop :=
  LRU.lru_ok l ∧ ∀ k v, (k, v) ∈ LRU.contents l → P k v.

(** [D] is a set of pairs of a name and an address whose hashes are different. *)
Record store_ok (D : gset (list Z * list Z)) (s : asset_store) : Prop := {
  so_assets : agrees (fun k d => db_assets (passetsdb s) !! k = Some d) (passetsCache s);
  so_named : ∀ k d, db_assets (passetsdb s) !! k = Some d → na_strName (da_asset d) = k;
  so_verifiers : agrees (fun k v => db_verifiers (prestricteddb s) !! k = Some v) (passetsVerifierCache s);
  so_globals : agrees (fun k _ => k ∈ db_global_restrictions (prestricteddb s)) (passetsGlobalRestrictionCache s);
  so_freezes : agrees (fun h _ => ∀ n a, (n, a) ∈ D → pair_key n a = h → (a, n) ∈ db_restricted_addresses (prestricteddb s)) (passetsRestrictionCache s);
  so_tags : agrees (fun h _ => ∀ n a, (n, a) ∈ D → pair_key n a = h → (a, n) ∈ db_address_qualifiers (prestricteddb s)) (passetsQualifierCache s)
}.
Definition keys_distinct (D : gset (list Z * list Z)) : Prop :=
  ∀ n a n' a', (n, a) ∈ D → (n', a') ∈ D → pair_key n a = pair_key n' a' → n = n' ∧ a = a'.

Section agrees.
Context {K : Type} `{Countable K} {V : Type} (P : K → V → Prop).
Implicit Types (l : LRU.CLRUCache K V).

Lemma put_contents_in max k v (l : list (K * V)) k' v' : (k', v') ∈ LRU.put_spec max k v l → (k', v') = (k, v) ∨ k' ≠ k ∧ (k', v') ∈ l.
Proof.
  unfold LRU.put_spec. intros Hin.
  assert ((k', v') ∈ (k, v) :: LRU.without k l) as Hin'.
  { destruct (max <? _); [|done]. rewrite removelast_firstn_len in Hin. by apply elem_of_take in Hin as (i & Hi & _); apply list_elem_of_lookup_2 in Hi. }
  apply elem_of_cons in Hin' as [->|Hin']; [by left|]. right. unfold LRU.without in Hin'. by apply list_elem_of_filter in Hin' as [? ?].
Qed.

Lemma agrees_put l k v : agrees P l → P k v → agrees P (LRU.Put l k v).
Proof.
  intros [Hl Ha] Hp. destruct (LRU.Put_spec l k v Hl) as (H1 & _ & H2). split; [done|]. rewrite H2. intros k' v' Hin.
  apply put_contents_in in Hin as [[= -> ->]|[_ Hin]]; auto.
Qed.

Lemma agrees_erase l k : agrees P l → agrees P (LRU.Erase l k).
Proof.
  intros [Hl Ha]. destruct (LRU.Erase_spec l k Hl) as [H1 H2]. split; [done|]. rewrite H2. intros k' v' Hin.
  unfold LRU.without in Hin. apply list_elem_of_filter in Hin as [_ Hin]. auto.
Qed.

Lemma cached_spec l k : agrees P l →
  (LRU.Exists l k = true → ∃ v, P k v) ∧
  (∀ v l', (if LRU.Exists l k then match LRU.Get l k with Ok r => Some r | Err _ => None end else None) = Some (v, l') → P k v ∧ agrees P l').
Proof.
  intros [Hl Ha]. unfold LRU.Exists. split.
  - intros Hs. apply bool_decide_eq_true, LRU.key_in_map in Hs; [|done]. apply list_elem_of_fmap in Hs as ([k' v] & -> & Hin). eauto.
  - intros v l' Hg. destruct (bool_decide _); [|done]. pose proof (LRU.Get_spec l k Hl) as Hs. destruct (LRU.find k (LRU.contents l)) as [v'|] eqn:Hf.
    + destruct Hs as (c' & Hc & H1 & H2 & H3). rewrite Hc in Hg. injection Hg as -> ->. apply LRU.find_Some in Hf; [|apply Hl].
      split; [eauto|]. split; [done|]. rewrite H3. intros k' v'' Hin. apply elem_of_cons in Hin as [[= -> ->]|Hin]; [eauto|].
      unfold LRU.without in Hin. apply list_elem_of_filter in Hin as [_ Hin]. auto.
    + by rewrite Hs in Hg.
Qed.

Lemma not_cached l k : LRU.lru_ok l →
  (if LRU.Exists l k then match LRU.Get l k with Ok r => Some r | Err _ => None end else None) = None → LRU.Exists l k = false.
Proof.
  intros Hl Hn. destruct (LRU.Exists l k) eqn:He; [|done]. exfalso. unfold LRU.Exists in He. apply bool_decide_eq_true, LRU.key_in_map in He; [|done].
  apply list_elem_of_fmap in He as ([k' v] & -> & Hin). apply LRU.find_Some in Hin; [|apply Hl].
  pose proof (LRU.Get_spec l k' Hl) as Hs. rewrite Hin in Hs. destruct Hs as (c' & Hc & _). cbn in Hn. by rewrite Hc in Hn.
Qed.
End agrees.

(** A look-up changes nothing but the caches of reads. *)
Definition same_state (s s' : asset_store) : Prop := passets s' = passets s ∧ passetsdb s' = passetsdb s ∧ prestricteddb s' = prestricteddb s.

Lemma own_remove {K} `{Countable K} {E} skip (d : dirty K E) k : (if skip : bool then None else ToRemove d !! k) = ToRemove (own skip d) !! k.
Proof. destruct skip; [cbn; by rewrite lookup_empty|done]. Qed.
Lemma own_add {K} `{Countable K} {E} skip (d : dirty K E) k : (if skip : bool then None else ToAdd d !! k) = ToAdd (own skip d) !! k.
Proof. destruct skip; [cbn; by rewrite lookup_empty|done]. Qed.

(** A branch that answers from the caches of changes. *)
Ltac answered Hs := by repeat split; try apply Hs.

Variable D : gset (list Z * list Z).

Lemma read_asset_spec s name : store_ok D s → let '(r, s') := read_asset s name in
  r = db_assets (passetsdb s) !! name ∧ store_ok D s' ∧ same_state s s'.
Proof.
  intros Hs. unfold read_asset. destruct (db_assets (passetsdb s) !! name) as [d|] eqn:Hd; [|answered Hs].
  split; [done|]. split; [|by repeat split]. constructor; try apply Hs. cbn. apply agrees_put; [apply Hs|]. by rewrite (so_named D s Hs name d).
Qed.

Lemma CheckIfAssetExists_spec c s name : store_ok D s → let '(r, s') := CheckIfAssetExists c s name true in
  r = exists_in c (passets s) (passetsdb s) name ∧ store_ok D s' ∧ same_state s s'.
Proof.
  intros Hs. unfold CheckIfAssetExists, exists_in, layered, has. destruct fReindex; [answered Hs|]. cbn [orb].
  rewrite !andb_true_r.
  destruct (ToRemove (setNewAssets c) !! name); [answered Hs|].
  destruct (ToRemove (setNewAssets (passets s)) !! name); [answered Hs|].
  destruct (ToAdd (setNewAssets c) !! name); [answered Hs|].
  destruct (ToAdd (setNewAssets (passets s)) !! name); [answered Hs|].
  destruct (cached_spec _ (passetsCache s) name (so_assets D s Hs)) as [Hc _].
  rewrite !bool_decide_eq_false_2 by (intros [? [=]]).
  destruct (LRU.Exists (passetsCache s) name).
  - destruct Hc as [d Hd]; [done|]. rewrite Hd, bool_decide_eq_true_2 by by eexists. answered Hs.
  - pose proof (read_asset_spec s name Hs) as Hr. destruct (read_asset s name) as [[d|] s']; destruct Hr as (<- & H1 & H2).
    + rewrite bool_decide_eq_true_2 by by eexists. done.
    + rewrite bool_decide_eq_false_2 by (intros [? [=]]). done.
Qed.

Lemma GetAssetMetaData_spec c s name : store_ok D s → let '(r, s') := GetAssetMetaDataIfExists c s name in
  fst <$> r = meta_in c (passets s) (passetsdb s) name ∧ store_ok D s' ∧ same_state s s'.
Proof.
  intros Hs. unfold GetAssetMetaDataIfExists, meta_in, layered, has. rewrite lookup_union.
  destruct (mapReissuedAssetData c !! name); [by destruct (mapReissuedAssetData (passets s) !! name); repeat split; try apply Hs|].
  rewrite option_union_left_id. destruct (mapReissuedAssetData (passets s) !! name); [answered Hs|].
  destruct (ToRemove (setNewAssets c) !! name); [answered Hs|].
  destruct (ToRemove (setNewAssets (passets s)) !! name); [answered Hs|].
  rewrite !bool_decide_eq_false_2 by (intros [? [=]]).
  destruct (ToAdd (setNewAssets c) !! name); [answered Hs|].
  destruct (ToAdd (setNewAssets (passets s)) !! name); [answered Hs|].
  unfold cached. pose proof (proj2 (cached_spec _ (passetsCache s) name (so_assets D s Hs))) as Hc.
  destruct (if LRU.Exists (passetsCache s) name then _ else _) as [[d l]|].
  - destruct (Hc d l eq_refl) as [Hd Ha]. rewrite Hd. split; [done|]. split; [|done]. constructor; try apply Hs. exact Ha.
  - pose proof (read_asset_spec s name Hs) as Hr. destruct (read_asset s name) as [[d|] s']; destruct Hr as (<- & H1 & H2); done.
Qed.

Lemma GetAssetVerifier_spec c s name skip : store_ok D s → let '(r, s') := GetAssetVerifierStringIfExists c s name skip in
  r = verifier_in skip c (passets s) (prestricteddb s) name ∧ store_ok D s' ∧ same_state s s'.
Proof.
  intros Hs. unfold GetAssetVerifierStringIfExists, verifier_in, layered.
  rewrite own_remove, own_add.
  destruct (ToRemove (own skip _) !! name); [answered Hs|].
  destruct (ToRemove (setNewRestrictedVerifier (passets s)) !! name); [answered Hs|].
  destruct (ToAdd (own skip _) !! name); [answered Hs|].
  destruct (ToAdd (setNewRestrictedVerifier (passets s)) !! name); [answered Hs|].
  unfold cached. pose proof (proj2 (cached_spec _ (passetsVerifierCache s) name (so_verifiers D s Hs))) as Hc.
  destruct (if LRU.Exists (passetsVerifierCache s) name then _ else _) as [[v l]|].
  - destruct (Hc v l eq_refl) as [Hd Ha]. rewrite Hd. split; [done|]. split; [|done]. constructor; try apply Hs. exact Ha.
  - destruct (db_verifiers (prestricteddb s) !! name) as [v|] eqn:Hv; [|answered Hs].
    split; [done|]. split; [|done]. constructor; try apply Hs. cbn. by apply agrees_put; [apply Hs|].
Qed.

Lemma CheckForAddressRestriction_spec c s name address skip : store_ok D s → keys_distinct D → (name, address) ∈ D →
  let '(r, s') := CheckForAddressRestriction c s name address skip in
  r = frozen_in skip c (passets s) (prestricteddb s) name address ∧ store_ok D s' ∧ same_state s s'.
Proof.
  intros Hs Hk HD. unfold CheckForAddressRestriction, frozen_in, layered.
  rewrite own_remove, own_add.
  destruct (ToRemove (own skip _) !! _); [answered Hs|].
  destruct (ToRemove (setNewRestrictedAddress (passets s)) !! _); [answered Hs|].
  destruct (ToAdd (own skip _) !! _); [answered Hs|].
  destruct (ToAdd (setNewRestrictedAddress (passets s)) !! _); [answered Hs|].
  destruct (cached_spec _ (passetsRestrictionCache s) (pair_key name address) (so_freezes D s Hs)) as [Hc _].
  destruct (LRU.Exists (passetsRestrictionCache s) (pair_key name address)).
  - destruct (Hc eq_refl) as [v Hv]. rewrite bool_decide_eq_true_2 by by apply Hv. answered Hs.
  - destruct (bool_decide_reflect ((address, name) ∈ db_restricted_addresses (prestricteddb s))) as [Hin|]; [|answered Hs].
    split; [done|]. split; [|done]. constructor; try apply Hs. cbn. apply agrees_put; [apply Hs|].
    intros n a Hna He. by destruct (Hk n a name address Hna HD He) as [-> ->].
Qed.

Lemma CheckForGlobalRestriction_spec c s name skip : store_ok D s →
  let '(r, s') := CheckForGlobalRestriction c s name skip in
  r = globally_frozen_in skip c (passets s) (prestricteddb s) name ∧ store_ok D s' ∧ same_state s s'.
Proof.
  intros Hs. unfold CheckForGlobalRestriction, globally_frozen_in, layered.
  rewrite own_remove, own_add.
  destruct (ToRemove (own skip _) !! _); [answered Hs|].
  destruct (ToRemove (setNewRestrictedGlobal (passets s)) !! _); [answered Hs|].
  destruct (ToAdd (own skip _) !! _); [answered Hs|].
  destruct (ToAdd (setNewRestrictedGlobal (passets s)) !! _); [answered Hs|].
  destruct (cached_spec _ (passetsGlobalRestrictionCache s) name (so_globals D s Hs)) as [Hc _].
  destruct (LRU.Exists (passetsGlobalRestrictionCache s) name).
  - destruct (Hc eq_refl) as [v Hv]. rewrite bool_decide_eq_true_2 by done. answered Hs.
  - destruct (bool_decide_reflect (name ∈ db_global_restrictions (prestricteddb s))) as [Hin|]; [|answered Hs].
    split; [done|]. split; [|done]. constructor; try apply Hs. cbn. by apply agrees_put; [apply Hs|].
Qed.

Lemma CheckForAddressQualifier_spec c s name address skip : store_ok D s → keys_distinct D → (name, address) ∈ D →
  let '(r, s') := CheckForAddressQualifier c s name address skip in
  r = tagged_in skip c (passets s) (prestricteddb s) name address ∧ store_ok D s' ∧ same_state s s'.
Proof.
  intros Hs Hk HD. unfold CheckForAddressQualifier, tagged_in.
  rewrite own_remove, own_add. cbn zeta.
  destruct (ToRemove (own skip _) !! _); [answered Hs|].
  destruct (ToRemove (setNewQualifierAddress (passets s)) !! _); [answered Hs|].
  destruct (ToAdd (own skip _) !! _); [answered Hs|].
  destruct (ToAdd (setNewQualifierAddress (passets s)) !! _) as [[]|]; [answered Hs..|].
  destruct (negb skip && _); [answered Hs|]. cbn [orb].
  destruct (has_sub_qualifier (mapRootQualifierAddressesAdd (passets s)) name address); [answered Hs|]. cbn [orb].
  destruct (cached_spec _ (passetsQualifierCache s) (pair_key name address) (so_tags D s Hs)) as [Hc _].
  destruct (LRU.Exists (passetsQualifierCache s) (pair_key name address)).
  - destruct (Hc eq_refl) as [v Hv]. rewrite bool_decide_eq_true_2 by by apply Hv. answered Hs.
  - destruct (bool_decide_reflect ((address, name) ∈ db_address_qualifiers (prestricteddb s))) as [Hin|]; [|answered Hs].
    split; [done|]. split; [|done]. constructor; try apply Hs. cbn. apply agrees_put; [apply Hs|].
    intros n a Hna He. by destruct (Hk n a name address Hna HD He) as [-> ->].
Qed.

(** ** Flushing *)

(** All answers for a name and an address; the answers about tags are for names without
    tags below them in the caches. *)
Definition no_sub_tags (m : gmap (list Z * list Z) (gset (list Z))) (name address : list Z) : Prop := default ∅ (m !! (name, address)) = ∅.
Definition same_answers (c p : CAssetsCache) (db : CAssetsDB) (rdb : CRestrictedDB) (c' p' : CAssetsCache) (db' : CAssetsDB) (rdb' : CRestrictedDB) : Prop :=
  ∀ name address,
    exists_in c' p' db' name = exists_in c p db name ∧
    meta_in c' p' db' name = meta_in c p db name ∧
    verifier_in false c' p' rdb' name = verifier_in false c p rdb name ∧
    frozen_in false c' p' rdb' name address = frozen_in false c p rdb name address ∧
    globally_frozen_in false c' p' rdb' name = globally_frozen_in false c p rdb name.

(** What [c] adds is neither removed nor, for assets, added in [p]. *)
Record fresh_changes (c p : CAssetsCache) : Prop := {
  fc_assets : ∀ k, is_Some (ToAdd (setNewAssets c) !! k) → ToRemove (setNewAssets p) !! k = None ∧ ToAdd (setNewAssets p) !! k = None;
  fc_verifiers : ∀ k, no_readd (setNewRestrictedVerifier c) (setNewRestrictedVerifier p) k;
  fc_freezes : ∀ k, no_readd (setNewRestrictedAddress c) (setNewRestrictedAddress p) k;
  fc_globals : ∀ k, no_readd (setNewRestrictedGlobal c) (setNewRestrictedGlobal p) k;
  fc_tags : ∀ k, no_readd (setNewQualifierAddress c) (setNewQualifierAddress p) k
}.

Lemma Flush_answers c p db rdb : fresh_changes c p → same_answers c p db rdb AssetsCache_new (Flush_to c p) db rdb.
Proof.
  intros [Ha Hv Hf Hg _] name address. unfold exists_in, meta_in, verifier_in, frozen_in, globally_frozen_in. cbn.
  rewrite map_empty_union, !layered_flush_write by auto.
  rewrite !layered_flush_note; try done; try (intros Hk; by apply Ha).
Qed.

Lemma flush_roots_lookup (from to : gmap (list Z * list Z) (gset (list Z))) k :
  default ∅ (flush_roots from to !! k) = default ∅ (from !! k) ∪ default ∅ (to !! k).
Proof.
  revert k. unfold flush_roots. apply (map_fold_weak_ind (fun r (m : gmap (list Z * list Z) (gset (list Z))) => ∀ k,
    default ∅ (r !! k) = default ∅ (m !! k) ∪ default ∅ (to !! k))).
  - intros k. rewrite lookup_empty. cbn. set_solver.
  - intros i tags m r Hi IH k. destruct (decide (i = k)) as [->|Hk].
    + rewrite lookup_insert_eq. specialize (IH k). rewrite Hi in IH. cbn in IH |- *. case_decide as Ht; [rewrite Ht, IH; set_solver|].
      rewrite lookup_insert_eq. cbn. rewrite IH. set_solver.
    + rewrite lookup_insert_ne by done. case_decide; [apply IH|]. rewrite lookup_insert_ne by done. apply IH.
Qed.

Lemma has_sub_false m name address : has_sub_qualifier m name address = false ↔ no_sub_tags m name address.
Proof.
  unfold has_sub_qualifier, no_sub_tags. destruct (m !! (name, address)); cbn; [|done]. by rewrite negb_false_iff, bool_decide_eq_true.
Qed.

Lemma Flush_tagged c p rdb name address : fresh_changes c p →
  no_sub_tags (mapRootQualifierAddressesAdd c) name address → no_sub_tags (mapRootQualifierAddressesRemove c) name address →
  no_sub_tags (mapRootQualifierAddressesAdd p) name address →
  tagged_in false AssetsCache_new (Flush_to c p) rdb name address = tagged_in false c p rdb name address.
Proof.
  intros Hf Hc Hr Hp. unfold tagged_in, own. cbn [setNewQualifierAddress AssetsCache_new Flush_to ToRemove ToAdd empty_dirty mapRootQualifierAddressesAdd negb andb].
  assert (no_sub_tags (flush_roots (mapRootQualifierAddressesRemove c) (flush_roots (mapRootQualifierAddressesAdd c) (mapRootQualifierAddressesAdd p))) name address) as Hn
    by (unfold no_sub_tags in *; rewrite !flush_roots_lookup, Hc, Hr, Hp; set_solver).
  assert (no_sub_tags ∅ name address) as He by (unfold no_sub_tags; by rewrite lookup_empty).
  apply has_sub_false in Hc, Hp, Hn, He. rewrite Hc, Hp, Hn, He. rewrite !lookup_empty.
  destruct (flush_write (setNewQualifierAddress c) (setNewQualifierAddress p) (name, address)) as [-> ->].
  pose proof (fc_tags c p Hf (name, address)) as Ht. unfold no_readd in Ht.
  destruct (ToRemove (setNewQualifierAddress c) !! _); [done|]. destruct (ToAdd (setNewQualifierAddress c) !! _).
  - rewrite Ht by done. by rewrite orb_false_r.
  - done.
Qed.

(** The cache of a block that is being connected to the chain of [s], and of one that is
    being disconnected. *)
Inductive connecting (s : asset_store) : CAssetsCache → Prop :=
  | conn_new : connecting s AssetsCache_new
  | conn_asset c s1 asset address h b c' s2 : connecting s c → store_ok D s1 → same_state s s1 →
      AddNewAsset c s1 asset address h b = (true, c', s2) → connecting s c'
  | conn_owner c name address : connecting s c → connecting s (AddOwnerAsset c name address)
  | conn_reissue c s1 r address out c' s2 : connecting s c → AddReissueAsset c s1 r address out = (true, c', s2) → connecting s c'
  | conn_verifier c name v : connecting s c → connecting s (AddRestrictedVerifier c name v)
  | conn_transfer c s1 t address out : connecting s c → connecting s (AddTransferAsset c s1 t address out)
  | conn_spend c s1 out txout b c' : connecting s c → TrySpendCoin c s1 out txout = Ok (b, c') → connecting s c'
  | conn_tag c name address t : connecting s c → connecting s (AddQualifierAddress c name address t)
  | conn_freeze c name address t : connecting s c → connecting s (AddRestrictedAddress c name address t)
  | conn_global c name t : connecting s c → connecting s (AddGlobalRestricted c name t).

Inductive disconnecting (s : asset_store) : CAssetsCache → Prop :=
  | disc_new : disconnecting s AssetsCache_new
  | disc_asset c s1 asset address c' s2 : disconnecting s c → RemoveNewAsset c s1 asset address = (true, c', s2) → disconnecting s c'
  | disc_owner c name address : disconnecting s c → disconnecting s (RemoveOwnerAsset c name address)
  | disc_reissue c s1 r address out u b c' s2 : disconnecting s c → RemoveReissueAsset c s1 r address out u = (b, c', s2) → disconnecting s c'
  | disc_verifier c name v : disconnecting s c → disconnecting s (RemoveRestrictedVerifier c name v false)
  | disc_transfer c s1 t address out b c' : disconnecting s c → RemoveTransfer c s1 t address out = (b, c') → disconnecting s c'
  | disc_coin c s1 coin b c' : disconnecting s c → UndoAssetCoin c s1 coin = Ok (b, c') → disconnecting s c'
  | disc_tag c name address t : disconnecting s c → disconnecting s (RemoveQualifierAddress c name address t)
  | disc_freeze c name address t : disconnecting s c → disconnecting s (RemoveRestrictedAddress c name address t)
  | disc_global c name t : disconnecting s c → disconnecting s (RemoveGlobalRestricted c name t).

(** No block was disconnected since the caches were last written to the databases. *)
Definition nothing_removed (p : CAssetsCache) : Prop :=
  ToRemove (setNewAssets p) = ∅ ∧ ToRemove (setNewRestrictedVerifier p) = ∅ ∧ ToRemove (setNewRestrictedAddress p) = ∅ ∧
  ToRemove (setNewRestrictedGlobal p) = ∅ ∧ ToRemove (setNewQualifierAddress p) = ∅.
Definition nothing_added (p : CAssetsCache) : Prop :=
  ToAdd (setNewAssets p) = ∅ ∧ ToAdd (setNewRestrictedVerifier p) = ∅ ∧ ToAdd (setNewRestrictedAddress p) = ∅ ∧
  ToAdd (setNewRestrictedGlobal p) = ∅ ∧ ToAdd (setNewQualifierAddress p) = ∅.

(** Balances are a field of their own. *)
Definition marks (c : CAssetsCache) := (setNewAssets c, setNewRestrictedVerifier c, setNewRestrictedAddress c, setNewRestrictedGlobal c, setNewQualifierAddress c).

(** The fields that balances do not touch. *)
Definition core (c : CAssetsCache) := (mapReissuedAssetData c, marks c).
Lemma core_marks c c' : core c' = core c → marks c' = marks c.
Proof. intros Hc. exact (f_equal snd Hc). Qed.

Lemma best_core c s name address : core (snd (GetBestAssetAddressAmount c s name address)) = core c.
Proof. unfold GetBestAssetAddressAmount. repeat case_match; done. Qed.
Lemma best_or_zero_core c s name address : core (snd (best_or_zero c s name address)) = core c.
Proof.
  unfold best_or_zero. pose proof (best_core c s name address) as Hb. destruct (GetBestAssetAddressAmount c s name address) as [f c1]. done.
Qed.
Lemma if_index_core f c : (∀ c, core (f c) = core c) → core (if_index f c) = core c.
Proof. intros Hf. unfold if_index. destruct fAssetIndex; auto. Qed.
Lemma AddTransferAsset_core c s t address out : core (AddTransferAsset c s t address out) = core c.
Proof.
  unfold AddTransferAsset, AddToAssetBalance. destruct fAssetIndex; [|done].
  pose proof (best_or_zero_core c s (tr_strName t) address). destruct (best_or_zero _ _ _ _). done.
Qed.
Lemma TrySpendCoin_core c s out txout b c' : TrySpendCoin c s out txout = Ok (b, c') → core c' = core c.
Proof.
  unfold TrySpendCoin. destruct (output_asset _) as [[[[[name address] n]|]|]|]; try done; cbn [rbind]; [|by intros [= _ <-]..].
  destruct (decide (address = [])); [by intros [= _ <-]|]. destruct (decide (name = [])); [by intros [= _ <-]|].
  destruct (fAssetIndex && _); [|by intros [= _ <-]]. pose proof (best_core c s name address).
  destruct (GetBestAssetAddressAmount c s name address) as [[] c1]; by intros [= _ <-].
Qed.
Lemma RemoveTransfer_core c s t address out b c' : RemoveTransfer c s t address out = (b, c') → core c' = core c.
Proof.
  unfold RemoveTransfer, UndoTransfer. destruct fAssetIndex; [|by intros [= _ <-]].
  pose proof (best_core c s (tr_strName t) address) as Hb. destruct (GetBestAssetAddressAmount _ _ _ _) as [f c1]. cbn in Hb.
  destruct (mapAssetsAddressAmount c1 !! _); [|by intros [= _ <-]]. destruct f; cbn [negb]; [|by intros [= _ <-]].
  destruct (_ <? _); by intros [= _ <-].
Qed.
Lemma UndoAssetCoin_core c s coin b c' : UndoAssetCoin c s coin = Ok (b, c') → core c' = core c.
Proof.
  unfold UndoAssetCoin. destruct (output_asset _) as [[[[[name address] n]|]|]|]; try done; cbn [rbind]; [|by intros [= _ <-]..].
  destruct (decide (name = [])); [by intros [= _ <-]|]. destruct (decide (address = [])); [by intros [= _ <-]|].
  destruct (n =? 0); [by intros [= _ <-]|]. intros [= _ <-]. unfold AddBackSpentAsset. destruct fAssetIndex; [|done].
  pose proof (best_or_zero_core c s name address) as Hb. by destruct (best_or_zero _ _ _ _).
Qed.
Lemma AddReissueAsset_core c s r address out : let '(ok, c', s') := AddReissueAsset c s r address out in
  let '(o, s1) := GetAssetMetaDataIfExists c s (re_strName r) in s' = s1 ∧
  match o with
  | Some (a, _) => ok = true ∧ marks c' = marks c ∧ mapReissuedAssetData c' =
      <[re_strName r := reissued_data (default a (mapReissuedAssetData c !! re_strName r)) r]> (mapReissuedAssetData c)
  | None => ok = false ∧ c' = c
  end.
Proof.
  unfold AddReissueAsset. destruct (GetAssetMetaDataIfExists _ _ _) as [[[a o]|] s1]; [|done].
  destruct (issue_block o) as [h bh].
  match goal with |- context [if_index ?f ?c1] => assert (core (if_index f c1) = core c1) as Hc end.
  { apply if_index_core. intros c1. pose proof (best_or_zero_core c1 s1 (re_strName r) address). by destruct (best_or_zero _ _ _ _). }
  split; [done|]. split; [done|]. split; [exact (f_equal snd Hc)|exact (f_equal fst Hc)].
Qed.

Lemma AddReissueAsset_marks c s r address out b c' s' : AddReissueAsset c s r address out = (b, c', s') → marks c' = marks c.
Proof.
  intros Ha. pose proof (AddReissueAsset_core c s r address out) as Hc. rewrite Ha in Hc.
  destruct (GetAssetMetaDataIfExists _ _ _) as [[[a o]|] s1]; destruct Hc as [_ Hc]; [apply Hc|by destruct Hc as [_ ->]].
Qed.

Lemma RemoveReissueAsset_added c s r address out u b c' s' : RemoveReissueAsset c s r address out u = (b, c', s') →
  nothing_added c → nothing_added c'.
Proof.
  unfold RemoveReissueAsset. destruct (GetAssetMetaDataIfExists _ _ _) as [[[a o]|] s1]; [|by intros [= _ <- _]].
  destruct (issue_block o) as [h bh]. intros Hr Hn.
  match type of Hr with context [if fAssetIndex then let '(_, _) := GetBestAssetAddressAmount ?c2 _ _ _ in _ else _] => set (c1 := c2) in Hr end.
  assert (nothing_added c1) as Hc1.
  { destruct Hn as (H1 & H2 & H3 & H4 & H5). subst c1. destruct (find_undo (re_strName r) u) as [x|]; [destruct (au_fChangedVerifierString x)|]; split_and!; try done.
    cbn. rewrite H2. apply delete_empty. }
  clearbody c1. destruct fAssetIndex; [|by injection Hr as <- <- <-].
  pose proof (best_core c1 s1 (re_strName r) address) as Hb. destruct (GetBestAssetAddressAmount _ _ _ _) as [f c2]. cbn in Hb.
  assert (nothing_added c2) by (unfold nothing_added in *; injection Hb as _ -> -> -> -> ->; done).
  destruct (negb f && _); by injection Hr as <- <- <-.
Qed.

Lemma marks_same c c' : marks c' = marks c → (nothing_added c → nothing_added c') ∧ (nothing_removed c → nothing_removed c').
Proof. intros [= H1 H2 H3 H4 H5]. unfold nothing_added, nothing_removed. by rewrite H1, H2, H3, H4, H5. Qed.

Lemma marks_assets c c' : marks c' = marks c → setNewAssets c' = setNewAssets c.
Proof. by intros [=]. Qed.

Lemma disconnecting_adds_nothing s c : disconnecting s c → nothing_added c.
Proof.
  induction 1 as [|c s1 a ad c' s2 _ IH Hr|c name ad _ IH|c s1 r ad out u b c' s2 _ IH Hr|c name v _ IH|c s1 t ad out b c' _ IH Hr|c s1 coin b c' _ IH Hr|c name ad t _ IH|c name ad t _ IH|c name t _ IH].
  - done.
  - unfold RemoveNewAsset in Hr. destruct (CheckIfAssetExists _ _ _ _) as [[] s3]; [|done]. injection Hr as <- _.
    apply (marks_same (set_assets (note_remove (na_strName a) (mkCacheNewAsset a ad blob_null 0) (setNewAssets c)) c)); [by apply core_marks, if_index_core|].
    destruct IH as (H1 & H2 & H3 & H4 & H5). split_and!; try done. cbn. rewrite H1. apply delete_empty.
  - apply (marks_same c); [|done]. apply core_marks. unfold RemoveOwnerAsset. by rewrite if_index_core.
  - by eapply RemoveReissueAsset_added.
  - destruct IH as (H1 & H2 & H3 & H4 & H5). split_and!; try done. cbn. rewrite H2. apply delete_empty.
  - by apply RemoveTransfer_core, core_marks, marks_same in Hr as [Hr _]; auto.
  - by apply UndoAssetCoin_core, core_marks, marks_same in Hr as [Hr _]; auto.
  - destruct IH as (H1 & H2 & H3 & H4 & H5). unfold RemoveQualifierAddress, note_root. destruct (IsAssetNameASubQualifier name); [destruct (bool_decide _)|];
      split_and!; try done; cbn; rewrite H5; apply delete_empty.
  - destruct IH as (H1 & H2 & H3 & H4 & H5). split_and!; try done. cbn. rewrite H3. apply delete_empty.
  - destruct IH as (H1 & H2 & H3 & H4 & H5). split_and!; try done. cbn. rewrite H4. apply delete_empty.
Qed.

Lemma connecting_fresh s c : nothing_removed (passets s) → connecting s c →
  nothing_removed c ∧ ∀ k, is_Some (ToAdd (setNewAssets c) !! k) → ToAdd (setNewAssets (passets s)) !! k = None.
Proof.
  intros Hp. induction 1 as [|c s1 a ad h b c' s2 _ [IH Hd] Hs Hsame Hr|c name ad _ IH|c s1 r ad out c' s2 _ IH Hr|c name v _ IH|c s1 t ad out _ IH|c s1 out txo b c' _ IH Hr|c name ad t _ IH|c name ad t _ IH|c name t _ IH].
  - split; [done|]. intros k. cbn. rewrite lookup_empty. by intros [? [=]].
  - unfold AddNewAsset in Hr. pose proof (CheckIfAssetExists_spec c s1 (na_strName a) Hs) as He.
    destruct (CheckIfAssetExists _ _ _ _) as [[] s3]; [done|]. destruct He as (He & _ & _). injection Hr as <- _.
    destruct Hsame as (Hp1 & _ & _). rewrite Hp1 in He. unfold exists_in, layered in He.
    destruct IH as (H1 & H2 & H3 & H4 & H5), Hp as (P1 & _). rewrite H1, P1, lookup_empty in He.
    set (c1 := set_assets _ c). assert (marks (if_index (put_amount (na_strName a) ad (na_nAmount a)) c1) = marks c1) as Hm by by apply core_marks, if_index_core.
    split.
    + apply (proj2 (marks_same c1 _ Hm)). split_and!; try done. cbn. rewrite H1. apply delete_empty.
    + injection Hm as -> _ _ _ _. intros k. cbn. rewrite kset_insert_lookup. destruct (ToAdd (setNewAssets c) !! k) eqn:E1; [intros _; apply Hd; by rewrite E1|].
      destruct (decide (k = na_strName a)) as [->|]; [|by intros [? [=]]]. intros _. rewrite E1 in He.
      destruct (ToAdd (setNewAssets (passets s)) !! na_strName a); [|done]. by rewrite orb_true_r in He.
  - assert (marks (AddOwnerAsset c name ad) = marks c) as Hm by (apply core_marks; unfold AddOwnerAsset; by rewrite if_index_core). destruct (marks_same _ _ Hm).
    rewrite (marks_assets _ _ Hm). naive_solver.
  - apply AddReissueAsset_marks in Hr as Hm. destruct (marks_same _ _ Hm). rewrite (marks_assets _ _ Hm). naive_solver.
  - destruct IH as [(H1 & H2 & H3 & H4 & H5) Hd]. split; [|done]. split_and!; try done. cbn. rewrite H2. apply delete_empty.
  - pose proof (core_marks _ _ (AddTransferAsset_core c s1 t ad out)) as Hm. destruct (marks_same _ _ Hm). rewrite (marks_assets _ _ Hm). naive_solver.
  - apply TrySpendCoin_core, core_marks in Hr as Hm. destruct (marks_same _ _ Hm). rewrite (marks_assets _ _ Hm). naive_solver.
  - destruct IH as [(H1 & H2 & H3 & H4 & H5) Hd]. unfold AddQualifierAddress, note_root.
    destruct (IsAssetNameASubQualifier name); [destruct (bool_decide _)|]; (split; [|done]); split_and!; try done; cbn; rewrite H5; apply delete_empty.
  - destruct IH as [(H1 & H2 & H3 & H4 & H5) Hd]. split; [|done]. split_and!; try done. cbn. rewrite H3. apply delete_empty.
  - destruct IH as [(H1 & H2 & H3 & H4 & H5) Hd]. split; [|done]. split_and!; try done. cbn. rewrite H4. apply delete_empty.
Qed.

(** What [Flush] needs to keep the answers. *)
Definition flushable (s : asset_store) (c : CAssetsCache) : Prop :=
  disconnecting s c ∨ (connecting s c ∧ nothing_removed (passets s)).

Lemma flushable_fresh s c : flushable s c → fresh_changes c (passets s).
Proof.
  intros [Hd%disconnecting_adds_nothing|[Hc Hn]].
  - destruct Hd as (H1 & H2 & H3 & H4 & H5).
    constructor; unfold no_readd; intros k; rewrite ?H1, ?H2, ?H3, ?H4, ?H5, lookup_empty; by intros [? [=]].
  - apply connecting_fresh in Hc as [_ Hc]; [|done]. destruct Hn as (H1 & H2 & H3 & H4 & H5).
    constructor; unfold no_readd; intros k; rewrite ?H1, ?H2, ?H3, ?H4, ?H5, lookup_empty; auto.
Qed.
End answers.

(** ** The properties of the look-ups and of [Flush] *)

(** C12: The six look-ups of the asset cache (does an asset exist, its data, its verifier
    string, is an address frozen, is an asset frozen everywhere, is an address tagged)
    answer exactly what the changes in the block's cache, the changes in the global cache
    and the databases determine, and they change nothing but the caches of database
    reads, which keep agreeing with the databases.  [D] is a set of pairs of a name and
    an address, among them the pair asked for, whose hashes differ: two of the caches of
    reads are keyed by that hash. *)
Theorem asset_lookups_correct {Cry : Crypto} {Split : BoostSplit} {Flags : AssetFlags} (D : gset (list Z * list Z)) c s name address skip :
  store_ok D s → keys_distinct D → (name, address) ∈ D →
  (let '(r, s') := CheckIfAssetExists c s name true in
   r = exists_in c (passets s) (passetsdb s) name ∧ store_ok D s' ∧ same_state s s') ∧
  (let '(r, s') := GetAssetMetaDataIfExists c s name in
   fst <$> r = meta_in c (passets s) (passetsdb s) name ∧ store_ok D s' ∧ same_state s s') ∧
  (let '(r, s') := GetAssetVerifierStringIfExists c s name skip in
   r = verifier_in skip c (passets s) (prestricteddb s) name ∧ store_ok D s' ∧ same_state s s') ∧
  (let '(r, s') := CheckForAddressRestriction c s name address skip in
   r = frozen_in skip c (passets s) (prestricteddb s) name address ∧ store_ok D s' ∧ same_state s s') ∧
  (let '(r, s') := CheckForGlobalRestriction c s name skip in
   r = globally_frozen_in skip c (passets s) (prestricteddb s) name ∧ store_ok D s' ∧ same_state s s') ∧
  (let '(r, s') := CheckForAddressQualifier c s name address skip in
   r = tagged_in skip c (passets s) (prestricteddb s) name address ∧ store_ok D s' ∧ same_state s s').
Proof.
  intros Hs Hk HD. split_and!.
  - by apply CheckIfAssetExists_spec.
  - by apply GetAssetMetaData_spec.
  - by apply GetAssetVerifier_spec.
  - by apply CheckForAddressRestriction_spec.
  - by apply CheckForGlobalRestriction_spec.
  - by apply CheckForAddressQualifier_spec.
Qed.

(** C13: [Flush] moves the changes of a block's cache to the global cache without changing
    an answer: after flushing the cache of a block that was disconnected, or of a block
    that was connected when nothing had been disconnected since the last write to the
    databases, an empty block cache over the new global cache gives the answers that the
    block's cache gave over the old one.  For tags the address must have no tag below the
    one asked for in the caches. *)
Theorem flush_keeps_answers {Cry : Crypto} {Split : BoostSplit} {Env : AssetEnv} {Flags : AssetFlags} (D : gset (list Z * list Z)) s c :
  flushable D s c →
  same_answers c (passets s) (passetsdb s) (prestricteddb s)
    AssetsCache_new (passets (Flush c s)) (passetsdb (Flush c s)) (prestricteddb (Flush c s)) ∧
  ∀ name address, no_sub_tags (mapRootQualifierAddressesAdd c) name address →
    no_sub_tags (mapRootQualifierAddressesRemove c) name address → no_sub_tags (mapRootQualifierAddressesAdd (passets s)) name address →
    tagged_in false AssetsCache_new (passets (Flush c s)) (prestricteddb (Flush c s)) name address =
    tagged_in false c (passets s) (prestricteddb s) name address.
Proof.
  intros Hf%flushable_fresh. split; [by apply Flush_answers|]. intros name address. by apply Flush_tagged.
Qed.
