(* ===== verification/AssetConnect.v ===== *)
(** * Blocks and the asset cache: coins.cpp and validation.cpp

    What connecting a transaction does to a block's asset cache ([AddCoins], [SpendCoin]
    and [UpdateCoins] of coins.cpp and validation.cpp, called with an asset cache), and
    what [DisconnectBlock] does to it.  The coins themselves are in Chainstate.v: neither
    side reads what the other changes.  The wallet's subscription to message channels and
    the address indexes are left out.

    Disconnecting a block restores the answers about issued assets, freezes and tags that
    held before the block. *)

From stdpp Require Import gmap sorting.
From S2P Require Import Prelude Serialize Transaction Script Interpreter Regex AssetTypes AssetNames Verifier LRUCache Coins Chainstate Base58 Standard AssetScripts AssetChecks AssetsCache AssetStore.

Definition ASSET_UNDO_INCLUDES_VERIFIER_STRING : Z := -1.

(** The cache of the block and the global state. *)
Abbreviation asset_state := (CAssetsCache * asset_store)%type.

Section connect.
Context {Cry : Crypto} {Hash : TxHash} {Split : BoostSplit} {Env : AssetEnv} {Flags : AssetFlags}.
Implicit Types (st : asset_state) (tx : CTransaction).

(** The data of an issue or reissue.  Where the code ignores that it could not be read it
    goes on with a partly filled object; [CheckTransaction] has read it before. *)
Definition must {A} (r : result tx_error (option A)) : result tx_error A :=
  let? o := r in assert_some o.

(** A call whose failure is only logged. *)
Definition add_new st (a : CNewAsset) (address : list Z) (nHeight : Z) (blockHash : uint256) : asset_state :=
  let '(_, c, s) := AddNewAsset st.1 st.2 a address nHeight blockHash in (c, s).

Definition freeze_type (flag : Z) : RestrictedType := if flag =? 0 then UNFREEZE_ADDRESS else FREEZE_ADDRESS.
Definition global_type (flag : Z) : RestrictedType := if flag =? 0 then GLOBAL_UNFREEZE else GLOBAL_FREEZE.
Definition tag_type (flag : Z) : QualifierType := if flag =? 0 then REMOVE_QUALIFIER else ADD_QUALIFIER.

(** The verifier string in the first output that has one. *)
Fixpoint first_verifier (vout : list CTxOut) : option (option (list Z)) :=
  match vout with
  | [] => None
  | out :: vout =>
      if IsNullAssetVerifierTxDataScript (scriptPubKey out) then Some (AssetNullVerifierDataFromScript (scriptPubKey out))
      else first_verifier vout
  end.

(** ** Connecting *)

(** A reissue, with what the block has to remember to undo it; [verifier] is the new
    verifier string, if the transaction has one that can be read. *)
Definition reissue_step st (reissue : CReissueAsset) (address : list Z) (out : COutPoint) (verifier : option (list Z))
    : asset_state * option (list Z * CBlockAssetUndo) :=
  let '(c, s) := st in
  let '(found, s) := GetAssetMetaDataIfExists c s (re_strName reissue) in
  let asset := default NewAsset_null (fst <$> found) in
  let '(_, c, s) := AddReissueAsset c s reissue address out in
  let fIPFSChanged := negb (bool_decide (re_strIPFSHash reissue = [])) in
  let fUnitsChanged := negb (re_nUnits reissue =? -1) in
  let '(changed, old, c, s) :=
    match verifier with
    | Some v =>
        if bool_decide (name_type indeterminate (na_strName asset) = RESTRICTED) then
          let '(old, s) := GetAssetVerifierStringIfExists c s (na_strName asset) false in
          (true, default [] old, AddRestrictedVerifier c (na_strName asset) v, s)
        else (false, [], c, s)
    | None => (false, [], c, s)
    end in
  let undo := mkAssetUndo fIPFSChanged fUnitsChanged (na_strIPFSHash asset) (na_units asset)
                ASSET_UNDO_INCLUDES_VERIFIER_STRING changed old in
  ((c, s), if fIPFSChanged || fUnitsChanged || changed then Some (re_strName reissue, undo) else None).
Definition reissue_outpoint tx : COutPoint := mkOutPoint (tx_GetHash tx) (u32 (size (vout tx) - 1)).
Definition connect_reissue st tx : result tx_error (asset_state * option (list Z * CBlockAssetUndo)) :=
  let? r := must (ReissueAssetFromTransaction tx) in
  Ok (reissue_step st r.1 r.2 (reissue_outpoint tx) (default None (first_verifier (vout tx)))).

Fixpoint connect_unique st (outs : list CTxOut) (nHeight : Z) (blockHash : uint256) : result tx_error asset_state :=
  match outs with
  | [] => Ok st
  | out :: outs =>
      let? u := IsScriptNewUniqueAsset (scriptPubKey out) in
      let? st :=
        if is_some u then
          let? r := must (AssetFromScript (scriptPubKey out)) in Ok (add_new st r.1 r.2 nHeight blockHash)
        else Ok st in
      connect_unique st outs nHeight blockHash
  end.

Definition connect_restricted st tx (nHeight : Z) (blockHash : uint256) : result tx_error asset_state :=
  let? r := must (RestrictedAssetFromTransaction tx) in
  let '(c, s) := add_new st r.1 r.2 nHeight blockHash in
  match first_verifier (vout tx) with
  | None => Ok (c, s)
  | Some v => let? v := assert_some v in Ok (AddRestrictedVerifier c (na_strName r.1) v, s)
  end.

(** The issue or reissue a transaction makes: the first part of [AddCoins]. *)
Definition connect_issue st tx (nHeight : Z) (blockHash : uint256) : result tx_error (asset_state * option (list Z * CBlockAssetUndo)) :=
  let? new := IsNewAsset tx in
  if new then
    let? r := must (AssetFromTransaction tx) in
    let? o := must (OwnerFromTransaction tx) in
    let '(c, s) := add_new st r.1 r.2 nHeight blockHash in
    Ok ((AddOwnerAsset c o.1 o.2, s), None)
  else
  let? re := IsReissueAsset tx in
  if re then connect_reissue st tx
  else
  let? unique := IsNewUniqueAsset tx in
  if unique then let? st := connect_unique st (vout tx) nHeight blockHash in Ok (st, None)
  else
  let? channel := IsNewMsgChannelAsset tx in
  if channel then let? r := must (MsgChannelAssetFromTransaction tx) in Ok (add_new st r.1 r.2 nHeight blockHash, None)
  else
  let? qualifier := IsNewQualifierAsset tx in
  if qualifier then let? r := must (QualifierAssetFromTransaction tx) in Ok (add_new st r.1 r.2 nHeight blockHash, None)
  else
  let? restricted := IsNewRestrictedAsset tx in
  if restricted then let? st := connect_restricted st tx nHeight blockHash in Ok (st, None)
  else Ok (st, None).

(** A transfer, a tag or a freeze in one output: the loop of [AddCoins]. *)
Definition connect_output st (o : COutPoint) (script : CScript) : result tx_error asset_state :=
  let '(c, s) := st in
  let? d := GetAssetData script in
  let? c :=
    match d with
    | Some d =>
        if (ae_type d =? TX_TRANSFER_ASSET) && (0 <? ae_nAmount d) then
          let? address := assert_some (EncodeDestination prefixes (ae_destination d)) in
          Ok (AddTransferAsset c s (Transfer_make (ae_assetName d) (ae_nAmount d) (ae_message d) (ae_expireTime d)) address o)
        else Ok c
    | None => Ok c
    end in
  if IsNullAssetTxDataScript script then
    let? r := must (AssetNullDataFromScript script) in
    let '(data, address) := r in
    let name := nd_asset_name data in
    let type := name_type indeterminate name in
    Ok (if bool_decide (type = RESTRICTED) then AddRestrictedAddress c name address (freeze_type (nd_flag data))
        else if bool_decide (type = QUALIFIER) || bool_decide (type = SUB_QUALIFIER)
        then AddQualifierAddress c name address (tag_type (nd_flag data))
        else c, s)
  else if IsNullGlobalRestrictionAssetTxDataScript script then
    let? data := must (Ok (GlobalAssetNullDataFromScript script)) in
    Ok (AddGlobalRestricted c (nd_asset_name data) (global_type (nd_flag data)), s)
  else Ok (c, s).
Fixpoint connect_outputs st (txid : uint256) (outs : list CTxOut) (i : Z) : result tx_error asset_state :=
  match outs with
  | [] => Ok st
  | out :: outs => let? st := connect_output st (mkOutPoint txid (u32 i)) (scriptPubKey out) in connect_outputs st txid outs (i + 1)
  end.

Definition AddCoins_assets st tx (nHeight : Z) (blockHash : uint256) : result tx_error (asset_state * option (list Z * CBlockAssetUndo)) :=
  if AreAssetsDeployed then
    let? r := connect_issue st tx nHeight blockHash in
    let? st := connect_outputs r.1 (tx_GetHash tx) (vout tx) 0 in
    Ok (st, r.2)
  else Ok (st, None).

(** The coins a transaction spends, in the order of its inputs ([assert(is_spent)]). *)
Fixpoint spend_asset_inputs st (ins : list (CTxIn * Coin)) : result tx_error asset_state :=
  match ins with
  | [] => Ok st
  | (i, coin) :: ins =>
      let? r := TrySpendCoin st.1 st.2 (prevout i) (c_out coin) in
      if fst r then spend_asset_inputs (snd r, st.2) ins else Err AssertFailed
  end.
Definition UpdateCoins_assets st tx (spent : list Coin) (nHeight : Z) (blockHash : uint256) : result tx_error (asset_state * option (list Z * CBlockAssetUndo)) :=
  let? st := if AreAssetsDeployed then spend_asset_inputs st (zip (vin tx) spent) else Ok st in
  AddCoins_assets st tx nHeight blockHash.

(** The transactions of a block with the coins they spend: the first spends none. *)
Fixpoint connect_assets st (txs : list (CTransaction * list Coin)) (nHeight : Z) (blockHash : uint256)
    : result tx_error (asset_state * list (list Z * CBlockAssetUndo)) :=
  match txs with
  | [] => Ok (st, [])
  | (tx, spent) :: txs =>
      let? r := UpdateCoins_assets st tx spent nHeight blockHash in
      let? r' := connect_assets r.1 txs nHeight blockHash in
      Ok (r'.1, match r.2 with Some u => u :: r'.2 | None => r'.2 end)
  end.

(** ** Disconnecting

    [None] is [DISCONNECT_FAILED].  [SpendCoin] runs on a copy of the cache that is thrown
    away; only whether it succeeds matters, and that does not depend on the copy
    ([TrySpendCoin_verdict]). *)

Definition tri (A : Type) : Type := result tx_error (option A).
Definition tri_bind {A B} (r : tri A) (k : A → tri B) : tri B :=
  let? o := r in match o with Some a => k a | None => Ok None end.
Definition found {A} (r : result tx_error (option A)) : tri A := r.
Definition disconnected (r : bool * CAssetsCache * asset_store) : tri asset_state :=
  let '(ok, c, s) := r in Ok (if ok then Some (c, s) else None).

(** What the outputs of a transaction are about. *)
Record output_kinds := mkKinds { ok_transfers : list (Z * CScript); ok_null : list CScript; ok_verifier : option CScript; ok_clean : bool }.
Fixpoint sort_outputs (temp : asset_state) (txid : uint256) (outs : list CTxOut) (i : Z) (k : output_kinds) : result tx_error output_kinds :=
  match outs with
  | [] => Ok k
  | out :: outs =>
      let script := scriptPubKey out in
      let '(mkKinds transfers null verifier clean) := k in
      let? unspendable := read (IsUnspendable script) in
      if negb unspendable then
        let? r := if AreAssetsDeployed then TrySpendCoin temp.1 temp.2 (mkOutPoint txid (u32 i)) out else Ok (true, temp.1) in
        let? t := if AreAssetsDeployed then IsScriptTransferAsset script else Ok None in
        sort_outputs (snd r, temp.2) txid outs (i + 1)
          (mkKinds (if is_some t then transfers ++ [(i, script)] else transfers) null verifier (clean && fst r))
      else
        sort_outputs temp txid outs (i + 1)
          (if AreRestrictedAssetsDeployed && IsNullAsset script then
             if IsNullAssetVerifierTxDataScript script then mkKinds transfers null (Some script) clean
             else mkKinds transfers (null ++ [script]) verifier clean
           else k)
  end.

(** Take an issued asset away, when it is there. *)
Definition remove_new st (a : CNewAsset) (address : list Z) : tri asset_state :=
  let '(b, s) := CheckIfAssetExists st.1 st.2 (na_strName a) true in
  if b then disconnected (RemoveNewAsset st.1 s a address) else Ok (Some (st.1, s)).

Fixpoint disconnect_unique st (outs : list CTxOut) : tri asset_state :=
  match outs with
  | [] => Ok (Some st)
  | out :: outs =>
      let? u := IsScriptNewUniqueAsset (scriptPubKey out) in
      tri_bind (if is_some u then tri_bind (found (AssetFromScript (scriptPubKey out))) (fun r => remove_new st r.1 r.2) else Ok (Some st))
        (fun st => disconnect_unique st outs)
  end.

Definition disconnect_issue st tx (k : output_kinds) (vUndoData : list (list Z * CBlockAssetUndo)) : tri asset_state :=
  let? new := IsNewAsset tx in
  if new then
    tri_bind (found (AssetFromTransaction tx)) (fun r =>
    tri_bind (remove_new st r.1 r.2) (fun st =>
    tri_bind (found (OwnerFromTransaction tx)) (fun o => Ok (Some (RemoveOwnerAsset st.1 o.1 o.2, st.2)))))
  else
  let? re := IsReissueAsset tx in
  if re then
    tri_bind (found (ReissueAssetFromTransaction tx)) (fun r =>
      let '(b, s) := CheckIfAssetExists st.1 st.2 (re_strName r.1) true in
      if b then disconnected (RemoveReissueAsset st.1 s r.1 r.2 (reissue_outpoint tx) vUndoData)
      else Ok (Some (st.1, s)))
  else
  let? unique := IsNewUniqueAsset tx in
  if unique then disconnect_unique st (vout tx)
  else
  let? channel := IsNewMsgChannelAsset tx in
  if channel then tri_bind (found (MsgChannelAssetFromTransaction tx)) (fun r => remove_new st r.1 r.2)
  else
  let? qualifier := IsNewQualifierAsset tx in
  if qualifier then tri_bind (found (QualifierAssetFromTransaction tx)) (fun r => remove_new st r.1 r.2)
  else
  let? restricted := IsNewRestrictedAsset tx in
  if restricted then
    tri_bind (found (RestrictedAssetFromTransaction tx)) (fun r =>
    tri_bind (remove_new st r.1 r.2) (fun st =>
    tri_bind (Ok (ok_verifier k)) (fun script =>
    tri_bind (Ok (AssetNullVerifierDataFromScript script)) (fun v =>
      Ok (Some (RemoveRestrictedVerifier st.1 (na_strName r.1) v false, st.2))))))
  else Ok (Some st).

Fixpoint disconnect_transfers st (txid : uint256) (outs : list (Z * CScript)) : tri asset_state :=
  match outs with
  | [] => Ok (Some st)
  | (i, script) :: outs =>
      tri_bind (found (TransferAssetFromScript script)) (fun r =>
        let '(ok, c) := RemoveTransfer st.1 st.2 r.1 r.2 (mkOutPoint txid (u32 i)) in
        if ok then disconnect_transfers (c, st.2) txid outs else Ok None)
  end.

Fixpoint disconnect_null st (scripts : list CScript) : tri asset_state :=
  match scripts with
  | [] => Ok (Some st)
  | script :: scripts =>
      tri_bind (
        if IsNullAssetTxDataScript script then
          tri_bind (found (AssetNullDataFromScript script)) (fun r =>
            let '(data, address) := r in
            let name := nd_asset_name data in
            let type := name_type indeterminate name in
            let c := st.1 in
            Ok (Some (if bool_decide (type = QUALIFIER) || bool_decide (type = SUB_QUALIFIER)
                      then RemoveQualifierAddress c name address (tag_type (nd_flag data))
                      else if bool_decide (type = RESTRICTED) then RemoveRestrictedAddress c name address (freeze_type (nd_flag data))
                      else c, st.2)))
        else if IsNullGlobalRestrictionAssetTxDataScript script then
          tri_bind (Ok (GlobalAssetNullDataFromScript script)) (fun data =>
            Ok (Some (RemoveGlobalRestricted st.1 (nd_asset_name data) (global_type (nd_flag data)), st.2)))
        else Ok (Some st))
      (fun st => disconnect_null st scripts)
  end.

(** The spent coins come back, from the last to the first; those that carry an asset
    change the balances. *)
Fixpoint restore_asset_inputs st (coins : list Coin) (fClean : bool) : result tx_error (asset_state * bool) :=
  match coins with
  | [] => Ok (st, fClean)
  | coin :: coins =>
      let? a := read (IsAssetScript (scriptPubKey (c_out coin))) in
      if AreAssetsDeployed && is_some a then
        let? r := UndoAssetCoin st.1 st.2 coin in
        restore_asset_inputs (snd r, st.2) coins (fClean && fst r)
      else restore_asset_inputs st coins fClean
  end.

Definition disconnect_asset_tx temp st tx (spent : list Coin) (vUndoData : list (list Z * CBlockAssetUndo)) (fClean : bool)
    : tri (asset_state * bool) :=
  let? k := sort_outputs temp (tx_GetHash tx) (vout tx) 0 (mkKinds [] [] None fClean) in
  tri_bind
    (if AreAssetsDeployed then
       tri_bind (disconnect_issue st tx k vUndoData) (fun st =>
       tri_bind (disconnect_transfers st (tx_GetHash tx) (ok_transfers k)) (fun st =>
       if AreRestrictedAssetsDeployed then disconnect_null st (ok_null k) else Ok (Some st)))
     else Ok (Some st))
    (fun st => let? r := restore_asset_inputs st (rev spent) (ok_clean k) in Ok (Some r)).

(** The transactions from the last to the first. *)
Fixpoint disconnect_assets temp st (txs : list (CTransaction * list Coin)) (vUndoData : list (list Z * CBlockAssetUndo)) (fClean : bool)
    : tri (asset_state * bool) :=
  match txs with
  | [] => Ok (Some (st, fClean))
  | (tx, spent) :: txs =>
      tri_bind (disconnect_asset_tx temp st tx spent vUndoData fClean)
        (fun r => disconnect_assets temp r.1 txs vUndoData r.2)
  end.
End connect.
