(* ===== verification/TxVerify.v ===== *)
(** * Transaction checks: src/src/consensus/tx_verify.cpp

    The rules a transaction must follow: lock times, signature operation counts, the
    checks without context ([CheckTransaction]), the amounts of its inputs
    ([CheckTxInputs]) and the balance of the assets it moves ([CheckTxAssets]).

    Reading coins fills the cache, so the cache is passed through.  A rejection carries
    the points and the text of [CValidationState]; the debug texts are left out. *)

From Stdlib Require Import String.
From stdpp Require Import gmap.
From S2P Require Import Prelude Serialize Transaction Chain Script Interpreter Regex AssetTypes AssetNames Verifier Coins Chainstate Base58 Standard AssetScripts AssetChecks.

Open Scope string_scope.
Open Scope list_scope.
Open Scope Z_scope.

(** ** Lock times *)

Definition LOCKTIME_VERIFY_SEQUENCE : Z := Z.shiftl 1 0.

Definition IsFinalTx (tx : CTransaction) (nBlockHeight nBlockTime : Z) : bool :=
  if nLockTime tx =? 0 then true
  else if nLockTime tx <? (if nLockTime tx <? LOCKTIME_THRESHOLD then nBlockHeight else nBlockTime) then true
  else forallb (fun txin => nSequence txin =? SEQUENCE_FINAL) (vin tx).

(** The loop of [CalculateSequenceLocks] over the inputs and the heights of their
    coins; the height of an input without a relative lock is set to 0. *)
Fixpoint sequence_locks (st : heap) (block : ptr) (ins : list (CTxIn * Z)) (nMinHeight nMinTime : Z)
    : result chain_error (list Z * (Z * Z)) :=
  match ins with
  | [] => Ok ([], (nMinHeight, nMinTime))
  | (txin, nCoinHeight) :: ins =>
      if flag_set (nSequence txin) SEQUENCE_LOCKTIME_DISABLE_FLAG then
        let? r := sequence_locks st block ins nMinHeight nMinTime in Ok (0 :: fst r, snd r)
      else
        let? locks :=
          if flag_set (nSequence txin) SEQUENCE_LOCKTIME_TYPE_FLAG then
            let? a := GetAncestor st block (Z.max (nCoinHeight - 1) 0) in
            match a with
            | None => Err NullDereference
            | Some p =>
                let? nCoinTime := GetMedianTimePast st p in
                let lock := u32 (Z.shiftl (Z.land (nSequence txin) SEQUENCE_LOCKTIME_MASK) SEQUENCE_LOCKTIME_GRANULARITY) in
                Ok (nMinHeight, Z.max nMinTime (nCoinTime + lock - 1))
            end
          else Ok (Z.max nMinHeight (nCoinHeight + Z.land (nSequence txin) SEQUENCE_LOCKTIME_MASK - 1), nMinTime) in
        let? r := sequence_locks st block ins (fst locks) (snd locks) in Ok (nCoinHeight :: fst r, snd r)
  end.

Definition CalculateSequenceLocks (st : heap) (tx : CTransaction) (flags : Z) (prevHeights : list Z) (block : ptr)
    : result chain_error (list Z * (Z * Z)) :=
  if negb (length prevHeights =? length (vin tx))%nat then Err ChainAssert
  else
    let fEnforceBIP68 := (u32 (tx_nVersion tx) >=? 2) && flag_set flags LOCKTIME_VERIFY_SEQUENCE in
    if negb fEnforceBIP68 then Ok (prevHeights, (-1, -1))
    else sequence_locks st block (zip (vin tx) prevHeights) (-1) (-1).

Definition EvaluateSequenceLocks (st : heap) (block : ptr) (lockPair : Z * Z) : result chain_error bool :=
  let? b := deref st block in
  match pprev b with
  | None => Err ChainAssert
  | Some prev =>
      let? nBlockTime := GetMedianTimePast st prev in
      Ok (negb ((fst lockPair >=? bi_nHeight b) || (snd lockPair >=? nBlockTime)))
  end.

Definition SequenceLocks (st : heap) (tx : CTransaction) (flags : Z) (prevHeights : list Z) (block : ptr)
    : result chain_error (list Z * bool) :=
  let? r := CalculateSequenceLocks st tx flags prevHeights block in
  let? b := EvaluateSequenceLocks st block (snd r) in
  Ok (fst r, b).

(** ** Signature operations *)

Definition GetLegacySigOpCount (tx : CTransaction) : Z :=
  let n := fold_left (fun n txin => u32 (n + GetSigOpCount (scriptSig txin) false)) (vin tx) 0 in
  fold_left (fun n txout => u32 (n + GetSigOpCount (scriptPubKey txout) false)) (vout tx) n.

Section coins.
Context {V : Type} {View : CCoinsView V}.
Abbreviation cache := (CCoinsViewCache V).

(** [const Coin& coin = inputs.AccessCoin(out); assert(!coin.IsSpent());] *)
Definition unspent_coin (c : cache) (o : COutPoint) : result tx_error (Coin * cache) :=
  let '(coin, c) := AccessCoin c o in
  if IsSpent coin then Err AssertFailed else Ok (coin, c).

Fixpoint p2sh_sigops (c : cache) (ins : list CTxIn) (nSigOps : Z) : result tx_error (Z * cache) :=
  match ins with
  | [] => Ok (nSigOps, c)
  | i :: ins =>
      let? r := unspent_coin c (prevout i) in
      let '(coin, c) := r in
      let script := scriptPubKey (c_out coin) in
      p2sh_sigops c ins (if IsPayToScriptHash script then u32 (nSigOps + GetSigOpCountP2SH script (scriptSig i)) else nSigOps)
  end.
Definition GetP2SHSigOpCount (c : cache) (tx : CTransaction) : result tx_error (Z * cache) :=
  if IsCoinBase tx then Ok (0, c) else p2sh_sigops c (vin tx) 0.

Fixpoint witness_sigops (flags : Z) (c : cache) (ins : list CTxIn) (nSigOps : Z) : result tx_error (Z * cache) :=
  match ins with
  | [] => Ok (nSigOps, c)
  | i :: ins =>
      let? r := unspent_coin c (prevout i) in
      let '(coin, c) := r in
      match CountWitnessSigOps flags (scriptSig i) (scriptPubKey (c_out coin)) (scriptWitness i) with
      | Ok n => witness_sigops flags c ins (i64 (nSigOps + n))
      | Err _ => Err AssertFailed
      end
  end.
Definition GetTransactionSigOpCost (c : cache) (tx : CTransaction) (flags : Z) : result tx_error (Z * cache) :=
  let nSigOps := u32 (GetLegacySigOpCount tx * WITNESS_SCALE_FACTOR) in
  if IsCoinBase tx then Ok (nSigOps, c)
  else
    let? r :=
      if flag_set flags SCRIPT_VERIFY_P2SH then
        let? r := GetP2SHSigOpCount c tx in Ok (nSigOps + u32 (fst r * WITNESS_SCALE_FACTOR), snd r)
      else Ok (nSigOps, c) in
    witness_sigops flags (snd r) (vin tx) (fst r).
End coins.

(** ** Checks without context *)

(** [std::map<std::pair<std::string, std::string>, int>] holds each pair once: a
    second occurrence is rejected.  It is iterated in the order of the pairs. *)
Definition pair_ltb (a b : list Z * list Z) : bool :=
  string_ltb (fst a) (fst b) || (bool_decide (fst a = fst b) && string_ltb (snd a) (snd b)).
Fixpoint pair_insert (x : list Z * list Z) (s : list (list Z * list Z)) : list (list Z * list Z) :=
  match s with
  | [] => [x]
  | y :: s' => if pair_ltb x y then x :: s else y :: pair_insert x s'
  end.

Record out_state := mkOutState {
  os_nValueOut : Z;
  os_transfers : list (list Z);            (* setAssetTransferNames *)
  os_null_data : list (list Z * list Z);   (* mapNullDataTxCount *)
  os_global : list (list Z);               (* setNullGlobalAssetChanges *)
  os_verifier : bool;                      (* fContainsNullAssetVerifierTx *)
  os_tags : Z                              (* nCountAddTagOuts *)
}.
Definition out_state_init : out_state := mkOutState 0 [] [] [] false 0.

Section checks.
Context {Cry : Crypto} {Split : BoostSplit} {Env : AssetEnv}.

Definition check_null_asset (out : CTxOut) (st : out_state) : result tx_error out_state :=
  let '(mkOutState v tr nd gl ve tags) := st in
  let s := scriptPubKey out in
  if negb (IsNullAsset s) then Ok st
  else if IsNullAssetTxDataScript s then
    let? r := get (AssetNullDataFromScript s) "bad-txns-null-asset-data-serialization" in
    let '(data, address) := r in
    let? _ := VerifyNullAssetDataFlag (nd_flag data) in
    let? _ := check (negb (bool_decide ((nd_asset_name data, address) ∈ nd))) "bad-txns-null-data-only-one-change-per-asset-address" in
    let tag := IsAssetNameAQualifier (nd_asset_name data) false && (nd_flag data =? 1) in
    Ok (mkOutState v tr (pair_insert (nd_asset_name data, address) nd) gl ve (if tag then tags + 1 else tags))
  else if IsNullGlobalRestrictionAssetTxDataScript s then
    let? data := get (Ok (GlobalAssetNullDataFromScript s)) "bad-txns-null-global-asset-data-serialization" in
    let? _ := VerifyNullAssetDataFlag (nd_flag data) in
    let? _ := check (negb (bool_decide (nd_asset_name data ∈ gl))) "bad-txns-null-data-only-one-global-change-per-asset-name" in
    Ok (mkOutState v tr nd (set_insert (nd_asset_name data) gl) ve tags)
  else if IsNullAssetVerifierTxDataScript s then
    let? _ := CheckVerifierAssetTxOut out in
    let? _ := check (negb ve) "bad-txns-null-data-only-one-verifier-per-tx" in
    Ok (mkOutState v tr nd gl true tags)
  else Ok st.

(** The data of a transfer output. *)
Definition check_transfer (out : CTxOut) (t : CAssetTransfer) : result tx_error () :=
  let? assetType :=
    match IsAssetNameValid (tr_strName t) with
    | Ok ty => Ok ty
    | Err _ => Err (Reject 100 "bad-txns-transfer-asset-name-invalid")
    end in
  let? _ := check (negb (IsAssetNameAnOwner (tr_strName t) && negb (tr_nAmount t =? OWNER_ASSET_AMOUNT)))
                  "bad-txns-transfer-owner-amount-was-not-1" in
  let? _ := check (negb (bool_decide (assetType = UNIQUE) && negb (tr_nAmount t =? UNIQUE_ASSET_AMOUNT)))
                  "bad-txns-transfer-unique-amount-was-not-1" in
  let? _ := check (negb ((bool_decide (assetType = QUALIFIER) || bool_decide (assetType = SUB_QUALIFIER))
                         && ((tr_nAmount t <? QUALIFIER_ASSET_MIN_AMOUNT) || (tr_nAmount t >? QUALIFIER_ASSET_MAX_AMOUNT))))
                  "bad-txns-transfer-qualifier-amount-must be between 1 - 100" in
  check (nValue out =? 0) "bad-txns-asset-transfer-amount-isn't-zero".

Definition add_transfer (st : out_state) (name : list Z) : out_state :=
  mkOutState (os_nValueOut st) (set_insert name (os_transfers st)) (os_null_data st) (os_global st) (os_verifier st) (os_tags st).

Definition check_asset_out (fMempoolCheck fBlockCheck : bool) (out : CTxOut) (st : out_state) : result tx_error out_state :=
  let? a := read (IsAssetScript (scriptPubKey out)) in
  match a with
  | None => Ok st
  | Some a =>
      if as_nType a =? TX_TRANSFER_ASSET then
        let? r := get (TransferAssetFromScript (scriptPubKey out)) "bad-txns-transfer-asset-bad-deserialize" in
        let? _ := check_transfer out (fst r) in
        Ok (add_transfer st (tr_strName (fst r)))
      else if as_nType a =? TX_NEW_ASSET then
        let? _ := check (nValue out =? 0) "bad-txns-asset-issued-amount-isn't-zero" in Ok st
      else if as_nType a =? TX_REISSUE_ASSET then
        let? _ := require (negb (AreEnforcedValuesDeployed && fBlockCheck && negb (nValue out =? 0))) 0
                          "bad-txns-asset-reissued-amount-isn't-zero" in
        let? _ := require (negb (fMempoolCheck && negb (nValue out =? 0))) 0
                          "bad-mempool-txns-asset-reissued-amount-isn't-zero" in
        Ok st
      else Err (Reject 0 "bad-asset-type-not-any-of-the-main-three")
  end.

Fixpoint check_outputs (fMempoolCheck fBlockCheck : bool) (outs : list CTxOut) (st : out_state) : result tx_error out_state :=
  match outs with
  | [] => Ok st
  | out :: outs =>
      let? _ := check (negb (nValue out <? 0)) "bad-txns-vout-negative" in
      let? _ := check (negb (nValue out >? MAX_MONEY)) "bad-txns-vout-toolarge" in
      let nValueOut := i64 (os_nValueOut st + nValue out) in
      let? _ := check (MoneyRange nValueOut) "bad-txns-txouttotal-toolarge" in
      let st := mkOutState nValueOut (os_transfers st) (os_null_data st) (os_global st) (os_verifier st) (os_tags st) in
      let? st := check_null_asset out st in
      let? st := check_asset_out fMempoolCheck fBlockCheck out st in
      check_outputs fMempoolCheck fBlockCheck outs st
  end.

(** Changes of tags and restrictions need a transfer of the qualifier or the owner
    token.  The first byte of an empty name is the terminator. *)
Definition null_data_authorised (transfers : list (list Z)) (entry : list Z * list Z) : result tx_error () :=
  let name := fst entry in
  if nth 0 name 0 =? 36
  then check (bool_decide (drop 1 name ++ OWNER_TAG ∈ transfers)) "bad-txns-tx-contains-restricted-asset-null-tx-without-asset-transfer"
  else check (bool_decide (name ∈ transfers)) "bad-txns-tx-contains-qualifier-asset-null-tx-without-asset-transfer".
Definition global_authorised (transfers : list (list Z)) (name : list Z) : result tx_error () :=
  let? _ := check (negb (bool_decide (name = []))) "bad-txns-tx-contains-global-asset-null-tx-with-null-asset-name" in
  check (bool_decide (drop 1 name ++ OWNER_TAG ∈ transfers)) "bad-txns-tx-contains-global-asset-null-tx-without-asset-transfer".
Fixpoint for_all {A} (f : A → result tx_error ()) (l : list A) : result tx_error () :=
  match l with [] => Ok () | a :: l => let? _ := f a in for_all f l end.

Fixpoint check_duplicates (ins : list CTxIn) (seen : list COutPoint) : result tx_error () :=
  match ins with
  | [] => Ok ()
  | i :: ins =>
      let? _ := check (negb (bool_decide (prevout i ∈ seen))) "bad-txns-inputs-duplicate" in
      check_duplicates ins (prevout i :: seen)
  end.

(** [vout.scriptPubKey.IsAssetScript() || vout.scriptPubKey.IsNullAsset()] *)
Definition coinbase_out_ok (out : CTxOut) : result tx_error () :=
  let? a := read (IsAssetScript (scriptPubKey out)) in
  require (negb (is_some a || IsNullAsset (scriptPubKey out))) 0 "bad-txns-coinbase-contains-asset-txes".

Definition check_inputs (tx : CTransaction) : result tx_error () :=
  if IsCoinBase tx then
    let n := size (scriptSig (nth 0 (vin tx) (mkTxIn OutPoint_null [] 0 []))) in
    let? _ := check (negb ((n <? 2) || (n >? 100))) "bad-cb-length" in
    if AreCoinbaseCheckAssetsDeployed then for_all coinbase_out_ok (vout tx) else Ok ()
  else for_all (fun i => require (negb (OutPoint_IsNull (prevout i))) 10 "bad-txns-prevout-null") (vin tx).

(** The unique assets of a transaction that issues some. *)
Definition check_unique_out (out : CTxOut) : result tx_error () :=
  let? i := IsScriptNewUniqueAsset (scriptPubKey out) in
  if negb (is_some i) then Ok ()
  else
    let? a := get (AssetFromScript (scriptPubKey out)) "bad-txns-check-transaction-issue-unique-asset-serialization" in
    prefixed "bad-txns-issue-unique" (CheckNewAsset (fst a)).

(** Outputs of a transaction that neither issues nor reissues. *)
Definition check_plain_out (out : CTxOut) : result tx_error () :=
  let? a := read (IsAssetScript (scriptPubKey out)) in
  match a with
  | Some a => check (as_nType a =? TX_TRANSFER_ASSET) "bad-txns-bad-asset-transaction"
  | None =>
      check (negb (negb (Find (scriptPubKey out) OP_PHI_ASSET =? 0) && negb (nth 0 (scriptPubKey out) 0 =? OP_PHI_ASSET)))
            "bad-txns-op-PHI-asset-not-in-right-script-location"
  end.

(** The checks of the kind of asset transaction, in the order the kinds are tried:
    whether a restricted asset is issued and whether one is reissued. *)
Definition check_asset_kind (tx : CTransaction) : result tx_error (bool * bool) :=
  let? new := IsNewAsset tx in
  if new then
    let? _ := VerifyNewAsset tx in
    let? a := get (AssetFromTransaction tx) "bad-txns-issue-asset-from-transaction" in
    let? _ := IsNewOwnerTxValid tx (na_strName (fst a)) (snd a) in
    let? _ := CheckNewAsset (fst a) in
    Ok (false, false)
  else
    let? re := IsReissueAsset tx in
    if re then
      let? _ := VerifyReissueAsset tx in
      let? r := get (ReissueAssetFromTransaction tx) "bad-txns-reissue-asset" in
      let? _ := CheckReissueAsset (fst r) in
      if decide (name_type indeterminate (re_strName (fst r)) = RESTRICTED) then
        let? _ := prefixed "bad-txns-reissue-restricted-verifier-" (GetVerifierStringFromTx tx) in
        Ok (false, true)
      else Ok (false, false)
    else
      let? unique := IsNewUniqueAsset tx in
      if unique then
        let? _ := VerifyNewUniqueAsset tx in
        let? _ := for_all check_unique_out (vout tx) in
        Ok (false, false)
      else
        let? channel := IsNewMsgChannelAsset tx in
        if channel then
          let? _ := VerifyNewMsgChannelAsset tx in
          let? a := get (MsgChannelAssetFromTransaction tx) "bad-txns-issue-msgchannel-from-transaction" in
          let? _ := prefixed "bad-txns-issue-msgchannel" (CheckNewAsset (fst a)) in
          Ok (false, false)
        else
          let? qualifier := IsNewQualifierAsset tx in
          if qualifier then
            let? _ := VerifyNewQualfierAsset tx in
            let? a := get (QualifierAssetFromTransaction tx) "bad-txns-issue-qualifier-from-transaction" in
            let? _ := prefixed "bad-txns-issue-qualfier" (CheckNewAsset (fst a)) in
            Ok (false, false)
          else
            let? restricted := IsNewRestrictedAsset tx in
            if restricted then
              let? _ := VerifyNewRestrictedAsset tx in
              let? a := get (RestrictedAssetFromTransaction tx) "bad-txns-issue-restricted-from-transaction" in
              let? _ := prefixed "bad-txns-issue-restricted" (CheckNewAsset (fst a)) in
              let? _ := prefixed "bad-txns-issue-restricted-verifier-search-" (get (GetVerifierStringFromTx tx) "Verifier string not found") in
              Ok (true, false)
            else
              let? _ := for_all check_plain_out (vout tx) in
              Ok (false, false).

Definition CheckTransaction (tx : CTransaction) (fCheckDuplicateInputs fMempoolCheck fBlockCheck : bool) : result tx_error () :=
  let? _ := require (negb (bool_decide (vin tx = []))) 10 "bad-txns-vin-empty" in
  let? _ := require (negb (bool_decide (vout tx = []))) 10 "bad-txns-vout-empty" in
  let? _ := check (negb (size (SerializeTransaction false tx) * WITNESS_SCALE_FACTOR >? GetMaxBlockWeight)) "bad-txns-oversize" in
  let? st := check_outputs fMempoolCheck fBlockCheck (vout tx) out_state_init in
  let? _ :=
    if os_tags st =? 0 then Ok ()
    else check_r (CheckAddingTagBurnFee tx (os_tags st)) "bad-txns-tx-doesn't-contain-required-burn-fee-for-adding-tags" in
  let? _ := for_all (null_data_authorised (os_transfers st)) (os_null_data st) in
  let? _ := for_all (global_authorised (os_transfers st)) (os_global st) in
  let? _ := if fCheckDuplicateInputs then check_duplicates (vin tx) [] else Ok () in
  let? _ := check_inputs tx in
  let? k := check_asset_kind tx in
  let '(fContainsNewRestrictedAsset, fContainsRestrictedAssetReissue) := k in
  let? _ := check (negb (os_verifier st && negb fContainsRestrictedAssetReissue && negb fContainsNewRestrictedAsset))
                  "bad-txns-tx-cointains-verifier-string-without-restricted-asset-issuance-or-reissuance" in
  check (negb (fContainsNewRestrictedAsset && negb (os_verifier st)))
        "bad-txns-tx-cointains-restricted-asset-issuance-without-verifier".
End checks.

(** ** Amounts of the inputs *)

Definition COINBASE_MATURITY : Z := 100.

Section inputs.
Context {V : Type} {View : CCoinsView V} {Hash : TxHash}.
Context {Cry : Crypto} {Split : BoostSplit} {Env : AssetEnv}.
Abbreviation cache := (CCoinsViewCache V).

Fixpoint sum_inputs (c : cache) (ins : list CTxIn) (nSpendHeight nValueIn : Z) : result tx_error (Z * cache) :=
  match ins with
  | [] => Ok (nValueIn, c)
  | i :: ins =>
      let? r := unspent_coin c (prevout i) in
      let '(coin, c) := r in
      let? _ := require (negb (c_fCoinBase coin && (nSpendHeight - c_nHeight coin <? COINBASE_MATURITY))) 0
                        "bad-txns-premature-spend-of-coinbase" in
      let nValueIn := i64 (nValueIn + nValue (c_out coin)) in
      let? _ := check (MoneyRange (nValue (c_out coin)) && MoneyRange nValueIn) "bad-txns-inputvalues-outofrange" in
      sum_inputs c ins nSpendHeight nValueIn
  end.

(** [tx.GetValueOut(AreEnforcedValuesDeployed())]; without enforced values the outputs
    of asset scripts are skipped. *)
Fixpoint value_out (outs : list CTxOut) (nValueOut : Z) : result tx_error Z :=
  match outs with
  | [] => Ok nValueOut
  | o :: outs =>
      let? skip := if AreEnforcedValuesDeployed then Ok false
                   else let? a := read (IsAssetScript (scriptPubKey o)) in Ok (is_some a) in
      if skip then value_out outs nValueOut
      else
        let nValueOut := i64 (nValueOut + nValue o) in
        if negb (MoneyRange (nValue o)) || negb (MoneyRange nValueOut) then Err Thrown
        else value_out outs nValueOut
  end.

Definition CheckTxInputs (c : cache) (tx : CTransaction) (nSpendHeight : Z) : result tx_error (Z * cache) :=
  let '(have, c) := HaveInputs c tx in
  let? _ := check have "bad-txns-inputs-missingorspent" in
  let? r := sum_inputs c (vin tx) nSpendHeight 0 in
  let '(nValueIn, c) := r in
  let? value_out := value_out (vout tx) 0 in
  let? _ := check (negb (nValueIn <? value_out)) "bad-txns-in-belowout" in
  let txfee_aux := i64 (nValueIn - value_out) in
  let? _ := check (MoneyRange txfee_aux) "bad-txns-fee-out-of-range" in
  Ok (txfee_aux, c).

(** ** Balance of assets *)

(** [COIN.out.scriptPubKey.IsAssetScript()] *)
Definition Coin_IsAsset (coin : Coin) : result tx_error bool :=
  let? a := read (IsAssetScript (scriptPubKey (c_out coin))) in Ok (is_some a).

Abbreviation totals := (gmap (list Z) Z).
(** [if (m.count(name)) m.at(name) += n; else m.insert(make_pair(name, n));] *)
Definition add_total (m : totals) (name : list Z) (n : Z) : totals :=
  <[name := match m !! name with Some v => i64 (v + n) | None => n end]> m.

(** A message attached to a transfer, as [CMessage] records it. *)
Record CMessage := mkMessage { ms_out : COutPoint; ms_name : list Z; ms_ipfsHash : list Z; ms_expire : Z; ms_time : Z }.

Section assets.
Context {AV : AssetsView}.
Variable fCache : bool.                       (* assetCache != nullptr *)
Variable fRunningUnitTests : bool.
Variable fMessaging : bool.                   (* fMessaging and setMessages != nullptr *)
Variable currentTime nBlocktime : Z.
Variable mapReissuedAssets : gmap (list Z) uint256.
Variable is_mine : list Z → bool.             (* myNullAssetData != nullptr and the wallet owns the address *)

(** The inputs: how much of each asset, and the address of the first coin of each. *)
Fixpoint asset_inputs (c : cache) (ins : list CTxIn) (totalInputs : totals) (mapAddresses : gmap (list Z) (list Z))
    : result tx_error (totals * gmap (list Z) (list Z) * cache) :=
  match ins with
  | [] => Ok (totalInputs, mapAddresses, c)
  | i :: ins =>
      let? r := unspent_coin c (prevout i) in
      let '(coin, c) := r in
      let? isAsset := Coin_IsAsset coin in
      if negb isAsset then asset_inputs c ins totalInputs mapAddresses
      else
        let? data := get (GetAssetData (scriptPubKey (c_out coin))) "bad-txns-failed-to-get-asset-from-script" in
        let? address := assert_some (EncodeDestination prefixes (ae_destination data)) in
        let name := ae_assetName data in
        let mapAddresses :=
          if AreMessagesDeployed then
            match mapAddresses !! name with Some _ => mapAddresses | None => <[name := address]> mapAddresses end
          else mapAddresses in
        let? _ :=
          if IsAssetNameAnRestricted name then
            if negb fCache then Err NullPointer
            else check (negb (CheckForAddressRestriction name address)) "bad-txns-restricted-asset-transfer-from-frozen-address"
          else Ok () in
        asset_inputs c ins (add_total totalInputs name (ae_nAmount data)) mapAddresses
  end.

(** What the loop over the outputs collects. *)
Record asset_outs := mkAssetOuts {
  ao_totals : totals;
  ao_messages : list CMessage;
  ao_null_data : list (list Z * CNullAssetTxData);
  ao_reissues : list (list Z * uint256)
}.

Definition check_null_out (out : CTxOut) (st : asset_outs) : result tx_error asset_outs :=
  let s := scriptPubKey out in
  if negb (fCache && IsNullAsset s) then Ok st
  else
    let? _ := check AreRestrictedAssetsDeployed "bad-tx-null-asset-data-before-restricted-assets-activated" in
    if IsNullAssetTxDataScript s then
      let? r := ContextualCheckNullAssetTxOut out fCache in
      let '(data, address) := r in
      Ok (if is_mine address
          then mkAssetOuts (ao_totals st) (ao_messages st) (ao_null_data st ++ [(address, data)]) (ao_reissues st) else st)
    else if IsNullGlobalRestrictionAssetTxDataScript s then
      let? _ := ContextualCheckGlobalAssetTxOut out fCache in Ok st
    else if IsNullAssetVerifierTxDataScript s then
      let? _ := ContextualCheckVerifierAssetTxOut out fCache in Ok st
    else Err (Reject 100 "bad-tx-null-asset-data-unknown-type").

(** The units of a transferred asset. *)
Definition check_units (t : CAssetTransfer) : result tx_error () :=
  if fRunningUnitTests then Ok ()
  else if IsAssetNameAnOwner (tr_strName t) then
    check (tr_nAmount t =? OWNER_ASSET_AMOUNT) "bad-txns-transfer-owner-amount-was-not-1"
  else if negb fCache then Err NullPointer
  else
    let? asset := get (Ok (GetAssetMetaDataIfExists (tr_strName t))) "bad-txns-transfer-asset-not-exist" in
    let? _ := check (bool_decide (na_strName asset = tr_strName t)) "bad-txns-asset-database-corrupted" in
    check_r (CheckAmountWithUnits (tr_nAmount t) (na_units asset)) "bad-txns-transfer-asset-amount-not-match-units".

Definition message_of (tx : CTransaction) (index : Z) (t : CAssetTransfer) (address : list Z) (mapAddresses : gmap (list Z) (list Z))
    : list CMessage :=
  if AreMessagesDeployed && fMessaging
     && (IsAssetNameAnOwner (tr_strName t) || IsAssetNameAnMsgChannel (tr_strName t))
     && negb (bool_decide (tr_message t = []))
     && ((tr_nExpireTime t =? 0) || (tr_nExpireTime t >? currentTime))
     && bool_decide (mapAddresses !! tr_strName t = Some address)
  then [mkMessage (mkOutPoint (tx_GetHash tx) (u32 index)) (tr_strName t) (tr_message t) (tr_nExpireTime t) nBlocktime]
  else [].

Definition check_asset_move (tx : CTransaction) (mapAddresses : gmap (list Z) (list Z)) (index : Z) (out : CTxOut) (nType : Z)
    (st : asset_outs) : result tx_error asset_outs :=
  if nType =? TX_TRANSFER_ASSET then
    let? r := get (TransferAssetFromScript (scriptPubKey out)) "bad-tx-asset-transfer-bad-deserialize" in
    let '(t, address) := r in
    let? _ := ContextualCheckTransferAsset t address fCache in
    let? _ := check_units t in
    Ok (mkAssetOuts (add_total (ao_totals st) (tr_strName t) (tr_nAmount t))
          (ao_messages st ++ message_of tx index t address mapAddresses) (ao_null_data st) (ao_reissues st))
  else if nType =? TX_REISSUE_ASSET then
    let? r := get (ReissueAssetFromScript (scriptPubKey out)) "bad-tx-asset-reissue-bad-deserialize" in
    match mapReissuedAssets !! re_strName (fst r) with
    | Some h => let? _ := check (bool_decide (h = tx_GetHash tx)) "bad-tx-reissue-chaining-not-allowed" in Ok st
    | None => Ok (mkAssetOuts (ao_totals st) (ao_messages st) (ao_null_data st)
                    (ao_reissues st ++ [(re_strName (fst r), tx_GetHash tx)]))
    end
  else Ok st.

Fixpoint asset_outputs (tx : CTransaction) (mapAddresses : gmap (list Z) (list Z)) (outs : list CTxOut) (index : Z)
    (st : asset_outs) : result tx_error asset_outs :=
  match outs with
  | [] => Ok st
  | out :: outs =>
      let? a := read (IsAssetScript (scriptPubKey out)) in
      let nType := match a with Some a => as_nType a | None => 0 end in
      let? _ := check (negb (fCache && is_some a && negb AreAssetsDeployed)) "bad-txns-is-asset-and-asset-not-active" in
      let? st := check_null_out out st in
      let? st := check_asset_move tx mapAddresses index out nType st in
      asset_outputs tx mapAddresses outs (index + 1) st
  end.

(** The contextual checks of the kind of asset transaction. *)
Definition check_plain_asset_out (out : CTxOut) : result tx_error () :=
  let? a := read (IsAssetScript (scriptPubKey out)) in
  match a with
  | Some a => check (as_nType a =? TX_TRANSFER_ASSET) "bad-txns-bad-asset-transaction"
  | None =>
      if Find (scriptPubKey out) OP_PHI_ASSET =? 0 then Ok ()
      else if AreRestrictedAssetsDeployed then
        check (nth 0 (scriptPubKey out) 0 =? OP_PHI_ASSET) "bad-txns-op-PHI-asset-not-in-right-script-location"
      else Err (Reject 100 "bad-txns-bad-asset-script")
  end.

Definition check_contextual_kind (tx : CTransaction) (fCheckMempool : bool) : result tx_error () :=
  let? new := IsNewAsset tx in
  if new then
    let? s := last_script tx in
    let? a := get (AssetFromScript s) "bad-txns-issue-serialzation-failed" in
    ContextualCheckNewAsset (fst a) fCheckMempool
  else
    let? re := IsReissueAsset tx in
    if re then
      let? s := last_script tx in
      let? r := get (ReissueAssetFromScript s) "bad-txns-reissue-serialzation-failed" in
      prefixed "bad-txns-reissue-contextual-" (ContextualCheckReissueAsset tx (fst r))
    else
      let? unique := IsNewUniqueAsset tx in
      if unique then prefixed "bad-txns-issue-unique-contextual-" (ContextualCheckUniqueAssetTx tx)
      else
        let? channel := IsNewMsgChannelAsset tx in
        if channel then
          let? _ := check AreMessagesDeployed "bad-txns-issue-msgchannel-before-messaging-is-active" in
          let? a := get (MsgChannelAssetFromTransaction tx) "bad-txns-issue-msgchannel-serialzation-failed" in
          prefixed "bad-txns-issue-msgchannel-contextual-" (ContextualCheckNewAsset (fst a) fCheckMempool)
        else
          let? qualifier := IsNewQualifierAsset tx in
          if qualifier then
            let? _ := check AreRestrictedAssetsDeployed "bad-txns-issue-qualifier-before-it-is-active" in
            let? a := get (QualifierAssetFromTransaction tx) "bad-txns-issue-qualifier-serialzation-failed" in
            prefixed "bad-txns-issue-qualfier-contextual" (ContextualCheckNewAsset (fst a) fCheckMempool)
          else
            let? restricted := IsNewRestrictedAsset tx in
            if restricted then
              let? _ := check AreRestrictedAssetsDeployed "bad-txns-issue-restricted-before-it-is-active" in
              let? a := get (RestrictedAssetFromTransaction tx) "bad-txns-issue-restricted-serialzation-failed" in
              let? _ := prefixed "bad-txns-issue-restricted-contextual" (ContextualCheckNewAsset (fst a) fCheckMempool) in
              let? v := prefixed "bad-txns-issue-restricted-verifier-search-" (get (GetVerifierStringFromTx tx) "Verifier string not found") in
              check_verifier v (snd a)
            else for_all check_plain_asset_out (vout tx).

(** Every asset of the outputs is in the inputs with the same amount, and there are
    as many assets in the inputs as in the outputs. *)
Definition check_balance (totalInputs totalOutputs : totals) : result tx_error () :=
  let? _ := check (bool_decide (map_Forall (fun name n => totalInputs !! name = Some n) totalOutputs)) "bad-tx-inputs-outputs-mismatch " in
  check (map_size totalOutputs =? map_size totalInputs)%nat "bad-tx-asset-inputs-size-does-not-match-outputs-size".

Definition CheckTxAssets (c : cache) (tx : CTransaction) (fCheckMempool : bool) : result tx_error (asset_outs * cache) :=
  let '(have, c) := HaveInputs c tx in
  let? _ := check have "bad-txns-inputs-missing-or-spent" in
  let? r := asset_inputs c (vin tx) ∅ ∅ in
  let '(totalInputs, mapAddresses, c) := r in
  let? st := asset_outputs tx mapAddresses (vout tx) 0 (mkAssetOuts ∅ [] [] []) in
  let? _ := if fCache then check_contextual_kind tx fCheckMempool else Ok () in
  let? _ := check_balance totalInputs (ao_totals st) in
  Ok (st, c).
End assets.
End inputs.

(** ** Reading coins *)

Section input_facts.
Context {V : Type} {View : CCoinsView V} {Laws : CoinsViewLaws V}.
Implicit Types (c : CCoinsViewCache V).

Lemma unspent_coin_spec c U o : holds c U →
  match U o with
  | Some coin => ∃ c', unspent_coin c o = Ok (coin, c') ∧ holds c' U
  | None => unspent_coin c o = Err AssertFailed
  end.
Proof.
  intros Hh. destruct (AccessCoin_spec c o (proj1 Hh)) as (coin & c' & Ha & Hs & Hl & _).
  destruct (same_holds c c' U Hs Hh) as [Hh' _]. unfold unspent_coin. rewrite Ha, <- (proj2 Hh o), <- Hl. unfold live.
  destruct (IsSpent coin); [done|]. by exists c'.
Qed.

Lemma have_inputs_spec U ins : ∀ c, holds c U →
  ∃ c', have_inputs c ins = (bool_decide (Forall (fun i => is_Some (U (prevout i))) ins), c') ∧ holds c' U.
Proof.
  induction ins as [|i ins IH]; intros c Hh; cbn [have_inputs]; [by exists c|].
  destruct (Cache_HaveCoin_spec c (prevout i) (proj1 Hh)) as (c1 & -> & Hs). rewrite (proj2 Hh).
  destruct (same_holds c c1 U Hs Hh) as [Hh1 _]. destruct (IH c1 Hh1) as (c2 & Hi & Hh2).
  destruct (bool_decide_reflect (is_Some (U (prevout i)))) as [Hy|Hn].
  - exists c2. rewrite Hi. split; [|done]. f_equal. apply bool_decide_ext. rewrite Forall_cons. tauto.
  - exists c1. split; [|done]. f_equal. symmetry. apply bool_decide_eq_false. by intros [? _]%Forall_cons.
Qed.

Definition coin_value (coin : Coin) : Z := nValue (c_out coin).
Definition sum_coins (coins : list Coin) : Z := foldr (fun k s => coin_value k + s) 0 coins.
(** A coin that may be spent at a height, with an amount in range. *)
Definition spendable (h : Z) (coin : Coin) : Prop :=
  0 <= coin_value coin <= MAX_MONEY ∧ (c_fCoinBase coin = true → COINBASE_MATURITY <= h - c_nHeight coin).

Lemma sum_coins_nonneg h coins : Forall (spendable h) coins → 0 <= sum_coins coins.
Proof. induction 1 as [|k coins [[Hk _] _] _ IH]; [done|]. change (0 <= coin_value k + sum_coins coins). lia. Qed.

Definition input_coins (U : utxo_map) (ins : list CTxIn) : option (list Coin) := mapM (fun i => U (prevout i)) ins.

Lemma input_coins_cons U i ins coin : U (prevout i) = Some coin → ∀ coins,
  input_coins U (i :: ins) = Some coins ↔ ∃ coins', input_coins U ins = Some coins' ∧ coins = coin :: coins'.
Proof.
  intros Hu coins. unfold input_coins. cbn. rewrite Hu. cbn. destruct (mapM _ ins) as [coins'|]; cbn.
  - split; [intros [= <-]; by exists coins'|by intros (? & [= <-] & ->)].
  - split; [done|by intros (? & ? & _)].
Qed.
Lemma input_coins_missing U i ins : U (prevout i) = None → input_coins U (i :: ins) = None.
Proof. intros Hu. unfold input_coins. cbn. by rewrite Hu. Qed.

(** The sum over the inputs: what it is when it is reached, and when it is reached. *)
Lemma sum_inputs_spec h U ins : ∀ c acc, holds c U → 0 <= acc <= MAX_MONEY → ∀ r,
  (∃ c', sum_inputs c ins h acc = Ok (r, c')) ↔
  ∃ coins, input_coins U ins = Some coins ∧ Forall (spendable h) coins ∧ r = acc + sum_coins coins ∧ r <= MAX_MONEY.
Proof.
  induction ins as [|i ins IH]; intros c acc Hh Hacc r; cbn [sum_inputs].
  - split; [intros (c' & [= <- _]); exists []; cbn; split_and!; [done..|lia|lia]|].
    intros (coins & [= <-] & _ & -> & _). exists c. cbn. by rewrite Z.add_0_r.
  - pose proof (unspent_coin_spec c U (prevout i) Hh) as Hc.
    destruct (U (prevout i)) as [coin|] eqn:Hu; [|rewrite Hc; split; [by intros (c' & ?)|intros (coins & Hn & _); by rewrite input_coins_missing in Hn]].
    setoid_rewrite (input_coins_cons U i ins coin Hu).
    destruct Hc as (c1 & -> & Hh1). cbn [rbind].
    destruct (c_fCoinBase coin && (h - c_nHeight coin <? COINBASE_MATURITY)) eqn:Hm; cbn [negb require rbind].
    { split; [by intros (c' & ?)|]. intros (coins & Hcs & Hsp & _). exfalso.
      destruct Hcs as (coins' & _ & ->). apply Forall_cons in Hsp as [[_ Hsp] _].
      apply andb_true_iff in Hm as [Hm1 Hm2]. apply Z.ltb_lt in Hm2. specialize (Hsp Hm1). lia. }
    assert (c_fCoinBase coin = true → COINBASE_MATURITY <= h - c_nHeight coin) as Hmature.
    { intros Hcb. rewrite Hcb in Hm. by apply Z.ltb_ge in Hm. }
    destruct (MoneyRange (nValue (c_out coin))) eqn:Hv; cbn [andb].
    2:{ split; [by intros (c' & ?)|]. intros (coins & Hcs & Hsp & _). exfalso. apply MoneyRange_false in Hv.
        destruct Hcs as (coins' & _ & ->). apply Forall_cons in Hsp as [[Hsp _] _]. done. }
    apply MoneyRange_true in Hv. destruct (wrapped_sum_range acc (nValue (c_out coin)) Hacc Hv) as [Hr Hid]. rewrite Hr.
    destruct (Z.leb_spec (acc + nValue (c_out coin)) MAX_MONEY) as [Hle|Hgt].
    + cbn [check require rbind]. rewrite Hid by lia. rewrite (IH c1 (acc + nValue (c_out coin)) Hh1 ltac:(lia) r). clear IH.
      split.
      * intros (coins & Hcs & Hsp & Hr1 & Hr2). exists (coin :: coins).
        split_and!; [by exists coins|by constructor; [split|]| |done]. change (sum_coins (coin :: coins)) with (coin_value coin + sum_coins coins).
        unfold coin_value. lia.
      * intros (coins & Hcs & Hsp & Hr1 & Hr2). destruct Hcs as (coins' & Hcs' & ->).
        apply Forall_cons in Hsp as [_ Hsp]. exists coins'. split_and!; [done|done| |done].
        change (sum_coins (coin :: coins')) with (coin_value coin + sum_coins coins') in Hr1. unfold coin_value in Hr1. lia.
    + split; [by intros (c' & ?)|]. intros (coins & Hcs & Hsp & Hr1 & Hr2). exfalso.
      destruct Hcs as (coins' & _ & ->). apply Forall_cons in Hsp as [_ Hsp].
      apply sum_coins_nonneg in Hsp. change (sum_coins (coin :: coins')) with (coin_value coin + sum_coins coins') in Hr1.
      unfold coin_value in Hr1. lia.
Qed.

Lemma sum_inputs_holds h U ins : ∀ c acc r c', holds c U → sum_inputs c ins h acc = Ok (r, c') → holds c' U.
Proof.
  induction ins as [|i ins IH]; intros c acc r c' Hh Hs; cbn [sum_inputs] in Hs; [by injection Hs as _ <-|].
  pose proof (unspent_coin_spec c U (prevout i) Hh) as Hc. destruct (U (prevout i)); [|by rewrite Hc in Hs].
  destruct Hc as (c1 & Hc1 & Hh1). rewrite Hc1 in Hs. cbn [rbind] in Hs. unfold check, require in Hs.
  destruct (negb _); [|done]. cbn [rbind] in Hs. destruct (_ && _); [|done]. by eapply IH.
Qed.

Lemma out_sum_nonneg outs : Forall (fun o => 0 <= nValue o <= MAX_MONEY) outs → 0 <= sum_values outs.
Proof. induction 1 as [|o l Ho _ IH]; [done|]. change (0 <= nValue o + sum_values l). lia. Qed.

Lemma value_out_spec {Env : AssetEnv} outs : AreEnforcedValuesDeployed = true → ∀ acc r, 0 <= acc <= MAX_MONEY →
  value_out outs acc = Ok r ↔ Forall (fun o => 0 <= nValue o <= MAX_MONEY) outs ∧ r = acc + sum_values outs ∧ r <= MAX_MONEY.
Proof.
  intros He. induction outs as [|o outs IH]; intros acc r Hacc; cbn [value_out].
  - cbn. split; [intros [= <-]; split_and!; [done|lia..]|]. intros (_ & -> & _). by rewrite Z.add_0_r.
  - rewrite He. cbn [rbind]. rewrite Forall_cons. change (sum_values (o :: outs)) with (nValue o + sum_values outs).
    destruct (MoneyRange (nValue o)) eqn:Hv; cbn [negb orb]; [|apply MoneyRange_false in Hv; split; [done|tauto]].
    apply MoneyRange_true in Hv. destruct (wrapped_sum_range acc (nValue o) Hacc Hv) as [-> Hid].
    destruct (Z.leb_spec (acc + nValue o) MAX_MONEY) as [Hle|Hgt]; cbn [negb].
    + rewrite Hid, IH by lia. split; [intros (? & ? & ?); split_and!; try done; lia|intros ([_ ?] & ? & ?); split_and!; try done; lia].
    + split; [done|]. intros ([_ Hall] & -> & Hle). apply out_sum_nonneg in Hall. lia.
Qed.

Definition asset_output (o : CTxOut) : bool := match IsAssetScript (scriptPubKey o) with Ok (Some _) => true | _ => false end.
(** The value of the outputs that [GetValueOut] leaves out: none with enforced values. *)
Definition uncounted {Env : AssetEnv} (outs : list CTxOut) : Z :=
  if AreEnforcedValuesDeployed then 0
  else foldr (fun o s => (if asset_output o then nValue o else 0) + s) 0 outs.

Lemma value_out_counted {Env : AssetEnv} outs : ∀ acc r, 0 <= acc <= MAX_MONEY → Forall (fun o => 0 <= nValue o <= MAX_MONEY) outs →
  value_out outs acc = Ok r → r = acc + sum_values outs - uncounted outs ∧ acc <= r <= MAX_MONEY.
Proof.
  destruct AreEnforcedValuesDeployed eqn:He.
  { intros acc r Hacc Hok H. apply value_out_spec in H as (_ & -> & Hm); [|done..]. apply out_sum_nonneg in Hok. unfold uncounted. rewrite He. lia. }
  unfold uncounted. rewrite He. induction outs as [|o outs IH]; intros acc r Hacc Hok; cbn [value_out]; [intros [= <-]; cbn; lia|].
  apply Forall_cons in Hok as [Ho Hok]. rewrite He. cbn [foldr]. unfold asset_output at 1. change (sum_values (o :: outs)) with (nValue o + sum_values outs).
  destruct (IsAssetScript (scriptPubKey o)) as [[k|]|n]; cbn [read rbind is_some]; [| |done].
  - intros H%IH; [|done..]. lia.
  - rewrite (proj2 (MoneyRange_true (nValue o)) Ho). cbn [negb orb].
    destruct (wrapped_sum_range acc (nValue o) Hacc Ho) as [-> Hid]. destruct (Z.leb_spec (acc + nValue o) MAX_MONEY); [|done]. cbn [negb].
    rewrite Hid by done. intros Hr%IH; [|lia|done]. lia.
Qed.

Lemma input_coins_Some U ins : is_Some (input_coins U ins) ↔ Forall (fun i => is_Some (U (prevout i))) ins.
Proof. apply mapM_is_Some. Qed.
End input_facts.

(** ** Relative lock times *)

Definition relative_lock (i : CTxIn) : Z := nSequence i mod 2 ^ 16.
(** What the lock of an input asks of a block at height [H] whose parent has median
    time [T], when the coin of the input was made at height [h]. *)
Definition lock_met (st : heap) (block : ptr) (H T : Z) (ih : CTxIn * Z) : Prop :=
  let '(i, h) := ih in
  if flag_set (nSequence i) SEQUENCE_LOCKTIME_DISABLE_FLAG then True
  else if flag_set (nSequence i) SEQUENCE_LOCKTIME_TYPE_FLAG then
    ∃ p t, ancestor_at st block (Z.max (h - 1) 0) = Some p ∧ GetMedianTimePast st p = Ok t ∧ t + 512 * relative_lock i <= T
  else h + relative_lock i <= H.

Lemma lock_seconds i : u32 (Z.shiftl (Z.land (nSequence i) SEQUENCE_LOCKTIME_MASK) SEQUENCE_LOCKTIME_GRANULARITY) = 512 * relative_lock i.
Proof.
  unfold relative_lock. change SEQUENCE_LOCKTIME_MASK with (2 ^ 16 - 1). rewrite land_ones_mod by lia.
  pose proof (Z.mod_pos_bound (nSequence i) (2 ^ 16) ltac:(lia)) as Hb. rewrite Z.shiftl_mul_pow2 by (vm_compute; congruence).
  change (2 ^ SEQUENCE_LOCKTIME_GRANULARITY) with 512. unfold u32. rewrite uwrap_id; [lia|]. unfold ufits. change (2 ^ 16) with 65536 in *. lia.
Qed.
Lemma lock_blocks i : Z.land (nSequence i) SEQUENCE_LOCKTIME_MASK = relative_lock i.
Proof. unfold relative_lock. change SEQUENCE_LOCKTIME_MASK with (2 ^ 16 - 1). by rewrite land_ones_mod by lia. Qed.

Lemma sequence_locks_spec st block b H T ins : heap_ok st → st !! block = Some b →
  Forall (fun ih => 0 <= snd ih <= bi_nHeight b) ins → ∀ mh mt,
  ∃ hs mh' mt', sequence_locks st block ins mh mt = Ok (hs, (mh', mt')) ∧
    (mh' < H ∧ mt' < T ↔ mh < H ∧ mt < T ∧ Forall (lock_met st block H T) ins).
Proof.
  intros Hok Hb. induction 1 as [|[i h] ins Hh _ IH]; intros mh mt; cbn [sequence_locks].
  - exists [], mh, mt. split; [done|]. rewrite Forall_nil. tauto.
  - cbn [snd] in Hh. setoid_rewrite Forall_cons. unfold lock_met at 1.
    destruct (flag_set (nSequence i) SEQUENCE_LOCKTIME_DISABLE_FLAG).
    { destruct (IH mh mt) as (hs & mh' & mt' & -> & Hiff). exists (0 :: hs), mh', mt'. split; [done|]. rewrite Hiff. tauto. }
    destruct (flag_set (nSequence i) SEQUENCE_LOCKTIME_TYPE_FLAG).
    + rewrite (GetAncestor_spec st Hok block b _ Hb).
      destruct (ancestor_at_spec st Hok block b (Z.max (h - 1) 0) Hb) as (p & bp & Hp & Hbp & _); [lia|].
      rewrite Hp. cbn [rbind]. destruct (GetMedianTimePast_spec st p bp Hok Hbp) as (ts & t & _ & _ & Ht & _). rewrite Ht. cbn [rbind fst snd].
      rewrite lock_seconds. destruct (IH mh (Z.max mt (t + 512 * relative_lock i - 1))) as (hs & mh' & mt' & -> & Hiff).
      exists (h :: hs), mh', mt'. split; [done|]. rewrite Hiff. split.
      * intros (H1 & H2 & H3). split_and!; [done|lia| |done]. exists p, t. split_and!; [done|done|lia].
      * intros (H1 & H2 & (p' & t' & Hp' & Ht' & Hle) & H3). split_and!; [done| |done].
        injection Hp' as <-. rewrite Ht in Ht'. injection Ht' as <-. lia.
    + cbn [rbind fst snd]. rewrite lock_blocks.
      destruct (IH (Z.max mh (h + relative_lock i - 1)) mt) as (hs & mh' & mt' & -> & Hiff).
      exists (h :: hs), mh', mt'. split; [done|]. rewrite Hiff. split; intros; split_and!; try lia; tauto.
Qed.

(** ** Concrete runs *)

(** A database with the given coins. *)
Definition db_with (coins : list (COutPoint * Coin)) : coins_db := mkCoinsDB (list_to_map coins) None [].

Lemma db_with_holds coins : forallb (fun p => negb (IsSpent (snd p))) coins = true →
  holds (Cache_new (db_with coins)) (fun o => (list_to_map coins : gmap COutPoint Coin) !! o).
Proof.
  intros Hall. split; [split|done].
  - intros o coin Hc. apply elem_of_list_to_map_2 in Hc. rewrite forallb_forall in Hall.
    apply list_elem_of_In in Hc. apply Hall, negb_true_iff in Hc. done.
  - intros o e He. change (cacheCoins (Cache_new _)) with (∅ : CCoinsMap) in He. by rewrite lookup_empty in He.
Qed.

Definition sample_outpoint : COutPoint := mkOutPoint (replicate 32 1) 0.
Definition sample_coin : Coin := mkCoin (mkTxOut 5000 [OP_1]) true 1.

Lemma CheckTxInputs_values {V} {View : CCoinsView V} {Laws : CoinsViewLaws V} {Env : AssetEnv} c U tx nSpendHeight fee c' :
  holds c U → IsCoinBase tx = false → CheckTxInputs c tx nSpendHeight = Ok (fee, c') →
  holds c' U ∧ ∃ coins vo, input_coins U (vin tx) = Some coins ∧ Forall (spendable nSpendHeight) coins ∧
    value_out (vout tx) 0 = Ok vo ∧ vo <= sum_coins coins <= MAX_MONEY ∧ fee = i64 (sum_coins coins - vo).
Proof.
  intros Hh Hcb. unfold CheckTxInputs, HaveInputs. rewrite Hcb.
  destruct (have_inputs_spec U (vin tx) c Hh) as (c1 & -> & Hh1).
  pose proof (sum_inputs_spec nSpendHeight U (vin tx) c1 0 Hh1 ltac:(done)) as Hsum.
  intros Hr. destruct (bool_decide _); [|done]. cbn [check require rbind] in Hr.
  destruct (sum_inputs _ _ _ _) as [[nValueIn c2]|] eqn:Hs; [|done]. cbn [rbind] in Hr.
  destruct (value_out _ _) as [vo|] eqn:Hv; [|done]. cbn [rbind] in Hr.
  destruct (proj1 (Hsum nValueIn) (ex_intro _ c2 eq_refl)) as (coins & Hc & Hsp & -> & Hle). rewrite Z.add_0_l in *.
  unfold check, require in Hr. destruct (Z.ltb_spec (sum_coins coins) vo); [done|]. cbn [negb rbind] in Hr.
  destruct (MoneyRange _) eqn:Hm; [|done]. cbn [rbind] in Hr. injection Hr as <- <-. split; [by eapply sum_inputs_holds|]. by exists coins, vo.
Qed.

Lemma money_diff a b : 0 <= b <= a → a <= MAX_MONEY → i64 (a - b) = a - b.
Proof. intros. unfold i64. rewrite swrap_id; [done|lia|]. unfold sfits. change MAX_MONEY with 5000000000000000000 in *. cbn. lia. Qed.

Lemma CheckTxInputs_sound {V} {View : CCoinsView V} {Laws : CoinsViewLaws V} {Env : AssetEnv} c U tx nSpendHeight fee c' :
  holds c U → IsCoinBase tx = false → AreEnforcedValuesDeployed = true → CheckTxInputs c tx nSpendHeight = Ok (fee, c') →
  holds c' U ∧ ∃ coins, input_coins U (vin tx) = Some coins ∧ Forall (spendable nSpendHeight) coins ∧
    Forall (fun o => 0 <= nValue o <= MAX_MONEY) (vout tx) ∧
    sum_coins coins <= MAX_MONEY ∧ 0 <= fee ∧ sum_coins coins = sum_values (vout tx) + fee.
Proof.
  intros Hh Hcb He (Hh' & coins & vo & Hc & Hsp & Hv & Hle & ->)%(CheckTxInputs_values c U); [|done..]. split; [done|].
  apply value_out_spec in Hv as (Hvo & -> & Hmax); [|done..]. pose proof (out_sum_nonneg _ Hvo). exists coins. rewrite money_diff by lia. split_and!; try done; lia.
Qed.

(** Without the hypothesis on the deployment, for outputs in the range of amounts. *)
Lemma CheckTxInputs_counted {V} {View : CCoinsView V} {Laws : CoinsViewLaws V} {Env : AssetEnv} c U tx nSpendHeight fee c' :
  holds c U → IsCoinBase tx = false → Forall (fun o => 0 <= nValue o <= MAX_MONEY) (vout tx) → CheckTxInputs c tx nSpendHeight = Ok (fee, c') →
  holds c' U ∧ ∃ coins, input_coins U (vin tx) = Some coins ∧ 0 <= fee <= MAX_MONEY ∧ sum_coins coins + uncounted (vout tx) = sum_values (vout tx) + fee.
Proof.
  intros Hh Hcb Hok (Hh' & coins & vo & Hc & Hsp & Hv & Hle & ->)%(CheckTxInputs_values c U); [|done..]. split; [done|].
  apply value_out_counted in Hv as [-> Hr]; [|done..]. exists coins. rewrite money_diff by lia. split_and!; [done|lia..].
Qed.

(** ** Properties *)

(** C26: no money is made.  With enforced values, [CheckTxInputs] accepts a transaction
    that is not a coinbase at a height exactly when every input names an unspent coin,
    every coin is in the range of amounts and, if it comes from a coinbase, 100 blocks
    old, the coins and the outputs add up within the range, and the outputs do not
    exceed the coins.  The fee it returns is then the exact difference: no sum wraps
    around.  The set of unspent coins is left as it was. *)
Theorem CheckTxInputs_exact {V} {View : CCoinsView V} {Laws : CoinsViewLaws V} {Env : AssetEnv} c U tx nSpendHeight fee :
  holds c U → IsCoinBase tx = false → AreEnforcedValuesDeployed = true →
  (∃ c', CheckTxInputs c tx nSpendHeight = Ok (fee, c') ∧ holds c' U) ↔
  ∃ coins, input_coins U (vin tx) = Some coins ∧ Forall (spendable nSpendHeight) coins ∧
    Forall (fun o => 0 <= nValue o <= MAX_MONEY) (vout tx) ∧
    sum_coins coins <= MAX_MONEY ∧ 0 <= fee ∧ sum_coins coins = sum_values (vout tx) + fee.
Proof.
  intros Hh Hcb He. split.
  { intros (c' & Hr & _). by apply (CheckTxInputs_sound c U) in Hr as [_ Hr]. }
  unfold CheckTxInputs, HaveInputs. rewrite Hcb. destruct (have_inputs_spec U (vin tx) c Hh) as (c1 & -> & Hh1).
  pose proof (sum_inputs_spec nSpendHeight U (vin tx) c1 0 Hh1 ltac:(done)) as Hsum.
  intros (coins & Hc & Hsp & Hvo & Hmax & Hfee & Heq).
    rewrite bool_decide_eq_true_2 by (apply (input_coins_Some U); by rewrite Hc). cbn [check require rbind].
    destruct (proj2 (Hsum (sum_coins coins))) as (c2 & Hs); [exists coins; by rewrite Z.add_0_l|]. rewrite Hs. cbn [rbind].
    apply sum_coins_nonneg in Hsp as Hnn.
    pose proof (out_sum_nonneg _ Hvo) as Hnv.
    rewrite (proj2 (value_out_spec (vout tx) He 0 (sum_values (vout tx)) ltac:(done))) by (split_and!; [done|lia..]). cbn [rbind].
    rewrite (proj2 (Z.ltb_ge _ _)) by lia. cbn [negb check require rbind].
    assert (i64 (sum_coins coins - sum_values (vout tx)) = fee) as ->.
    { unfold i64. rewrite swrap_id; [lia..|]. unfold sfits. change MAX_MONEY with 5000000000000000000 in *. cbn. lia. }
    rewrite (proj2 (MoneyRange_true fee)) by lia. cbn [rbind]. exists c2. split; [done|]. by eapply sum_inputs_holds.
Qed.

Lemma CheckTxInputs_exact_witness :
  ∃ c', CheckTxInputs (Env := main_env) (Cache_new (db_with [(sample_outpoint, sample_coin)])) sample_spend 101 = Ok (1000, c').
Proof.
  destruct (proj2 (CheckTxInputs_exact (Env := main_env) (Cache_new (db_with [(sample_outpoint, sample_coin)])) _ sample_spend 101 1000
    (db_with_holds [(sample_outpoint, sample_coin)] eq_refl) eq_refl eq_refl)) as (c' & Hc & _); [|exists c'; exact Hc].
  exists [sample_coin]. split; [vm_compute; reflexivity|].
  split; [constructor; [|constructor]; split; [split; vm_compute; congruence|intros _; vm_compute; congruence]|].
  split; [constructor; [|constructor]; split; vm_compute; congruence|].
  split; [vm_compute; congruence|]. split; [lia|vm_compute; reflexivity].
Defined.

(** C33: relative lock times.  On every reachable block tree, for a block with a parent
    and coins not above it, [SequenceLocks] never fails, and it holds exactly when the
    rule does not apply (transaction version 0 or 1, or the flag is off) or every input
    whose lock is not disabled satisfies it: a height lock of [n] is met [n] blocks
    after the coin, a time lock of [n] when [512 n] seconds lie between the median time
    of the block before the coin and that of the parent. *)
Theorem SequenceLocks_exact GetHash t tx flags heights block b prev T :
  rtc (tree_step GetHash) empty_tree t → tree_heap t !! block = Some b → pprev b = Some prev →
  GetMedianTimePast (tree_heap t) prev = Ok T → 0 <= T →
  length heights = length (vin tx) → Forall (fun h => 0 <= h <= bi_nHeight b) heights →
  ∃ hs r, SequenceLocks (tree_heap t) tx flags heights block = Ok (hs, r) ∧
    (r = true ↔ u32 (tx_nVersion tx) < 2 ∨ flag_set flags LOCKTIME_VERIFY_SEQUENCE = false ∨
                Forall (lock_met (tree_heap t) block (bi_nHeight b) T) (zip (vin tx) heights)).
Proof.
  intros Hr Hb Hprev HT HT0 Hlen Hhs. pose proof (ok_heap t (reachable_ok GetHash t Hr)) as Hok.
  assert (0 < bi_nHeight b) as Hpos.
  { destruct (Hok _ _ Hb) as [_ He]. rewrite Hprev in He. destruct He as (bq & _ & ? & ? & _). lia. }
  unfold SequenceLocks, CalculateSequenceLocks, EvaluateSequenceLocks, deref.
  rewrite Hlen, Nat.eqb_refl, Hb. cbn [negb rbind]. rewrite Hprev, HT. cbn [rbind].
  destruct (Z.geb_spec (u32 (tx_nVersion tx)) 2) as [Hv|Hv], (flag_set flags LOCKTIME_VERIFY_SEQUENCE); cbn [andb negb rbind fst snd].
  2-4: do 2 eexists; split; [done|]; rewrite !Z.geb_leb, !(proj2 (Z.leb_gt _ _)) by lia; cbn; split; auto.
  assert (Forall (fun ih => 0 <= snd ih <= bi_nHeight b) (zip (vin tx) heights)) as Hall.
  { apply Forall_forall. intros [i h] Hin. apply elem_of_zip_r in Hin. rewrite Forall_forall in Hhs. by apply Hhs. }
  destruct (sequence_locks_spec _ block b (bi_nHeight b) T _ Hok Hb Hall (-1) (-1)) as (hs & mh & mt & -> & Hiff).
  cbn [rbind fst snd]. do 2 eexists. split; [done|]. rewrite negb_true_iff, orb_false_iff, !Z.geb_leb, !Z.leb_gt, Hiff.
  split; [intros (_ & _ & ?); by right; right|intros [?|[?|?]]; [lia|done|split_and!; [lia..|done]]].
Qed.

Lemma SequenceLocks_exact_witness : ∃ hs,
  SequenceLocks (tree_heap sample_tree) (mkTx 2 [mkTxIn sample_outpoint [] 1 []] [] 0) LOCKTIME_VERIFY_SEQUENCE [0] 2%positive = Ok (hs, true).
Proof.
  destruct (SequenceLocks_exact nonce_hash sample_tree (mkTx 2 [mkTxIn sample_outpoint [] 1 []] [] 0) LOCKTIME_VERIFY_SEQUENCE [0]
    2%positive (entry_at sample_tree 2%positive) 1%positive
    (match GetMedianTimePast (tree_heap sample_tree) 1%positive with Ok m => m | Err _ => 0 end) sample_tree_reachable)
    as (hs & r & H1 & H2); [vm_compute; reflexivity..|vm_compute; congruence|reflexivity| |].
  - constructor; [|constructor]. vm_compute. split; congruence.
  - exists hs. rewrite H1. do 2 f_equal. apply H2. right; right. constructor; [|constructor]. vm_compute. congruence.
Defined.
