(* ===== verification/BlockChecks.v ===== *)
(** * Block checks: src/src/validation.cpp

    The rules a block must follow that do not need the unspent coins: [CheckBlockHeader],
    [CheckBlock], [ContextualCheckBlockHeader], [ContextualCheckBlock], the witness
    commitment of the coinbase and the script flags of a block.

    The proof-of-work hashes are a class.  What the checks read of the running node (the
    clock, the number of peers, the active chain) is a record.  A rejection carries the
    points, the text and the corruption flag of [CValidationState]. *)

From Stdlib Require Import String.
From stdpp Require Import gmap.
From S2P Require Import Prelude Serialize ArithUint256 Transaction Chain Pow VersionBits Merkle Script Interpreter Regex AssetTypes AssetNames Verifier Coins Chainstate Base58 Standard AssetScripts AssetChecks TxVerify.

Open Scope string_scope.
Open Scope list_scope.
Open Scope Z_scope.

(** ** Errors *)

Inductive block_error :=
  | BlockReject (nDoS : Z) (reason : string) (corruption : bool)
  | BlockStopped (e : tx_error)       (* an assertion or a bad read in a transaction check *)
  | BlockChain (e : chain_error)
  | BlockCoins (e : coins_error)
  | VectorRead (index : nat).         (* a vector indexed past its end *)

Definition dos (b : bool) (nDoS : Z) (reason : string) : result block_error () :=
  if b then Ok () else Err (BlockReject nDoS reason false).
Definition corrupt (b : bool) (nDoS : Z) (reason : string) : result block_error () :=
  if b then Ok () else Err (BlockReject nDoS reason true).
Definition invalid (b : bool) (reason : string) : result block_error () := dos b 0 reason.
(** The state a transaction check leaves, for the block. *)
Definition in_block {A} (r : result tx_error A) : result block_error A :=
  match r with
  | Ok a => Ok a
  | Err (Reject nDoS reason) => Err (BlockReject nDoS reason false)
  | Err e => Err (BlockStopped e)
  end.
Definition in_chain {A} (r : result chain_error A) : result block_error A :=
  match r with Ok a => Ok a | Err e => Err (BlockChain e) end.
Definition in_coins {A} (r : result coins_error A) : result block_error A :=
  match r with Ok a => Ok a | Err e => Err (BlockCoins e) end.
Definition vector_at {A} (l : list A) (i : nat) : result block_error A :=
  match nth_error l i with Some a => Ok a | None => Err (VectorRead i) end.
(** A check of every element, in order. *)
Fixpoint each_ok {A} (f : A → result block_error ()) (l : list A) : result block_error () :=
  match l with
  | [] => Ok ()
  | a :: l => let? _ := f a in each_ok f l
  end.

(** ** Parameters *)

Record CChainParams := mkChainParams {
  GetConsensus : Params;
  hashGenesisBlock : uint256;
  nSubsidyHalvingInterval : Z;
  nBIP34Enabled : bool;
  nBIP65Enabled : bool;
  nBIP66Enabled : bool;
  nSegwitEnabled : bool;
  nCSVEnabled : bool;
  mapCheckpoints : list (Z * uint256);      (* by height *)
  DevAddress : list Z
}.

(** The hash functions of block headers: x16r before the activation time, then PHIHASH;
    [PHIHASHHash] computes the mix hash, [PHIHASHHash_OnlyMix] takes it from the header. *)
Class PowHash := {
  HashX16R : CBlockHeader → uint256;
  PHIHASHHash_OnlyMix : CBlockHeader → uint256;
  PHIHASHHash : CBlockHeader → uint256 * uint256      (* hash, mix hash *)
}.

(** What the header checks read of the node. *)
Record node_context := mkNode {
  nc_chainActive : CChain;
  nc_nMaxReorgDepth : Z;
  nc_nMinReorgPeers : Z;
  nc_nMinReorgAge : Z;
  nc_connman : option Z;         (* [g_connman], with its number of connections *)
  nc_time : Z;                   (* [GetTime()] *)
  nc_fCheckpointsEnabled : bool
}.

Definition MAX_FUTURE_BLOCK_TIME : Z := 1800.
Definition MAX_FUTURE_BLOCK_TIME_DGW : Z := 180.
Definition MAX_BLOCK_SIGOPS_COST : Z := 80000.
Definition LOCKTIME_MEDIAN_TIME_PAST : Z := Z.shiftl 1 1.

Section checks.
Context {Cry : Crypto} {Pow : PowHash} {Split : BoostSplit} {Env : AssetEnv}.

(** ** Hashes *)

Definition GetHash (h : CBlockHeader) : uint256 :=
  if nTime h <? nPHIHASHActivationTime then HashX16R h else PHIHASHHash_OnlyMix h.
(** The hash and the mix hash that [GetHashFull] sets. *)
Definition GetHashFull (h : CBlockHeader) : uint256 * uint256 :=
  if nTime h <? nPHIHASHActivationTime then (HashX16R h, blob_null) else PHIHASHHash h.

(** [CTransaction::ComputeHash] and [GetWitnessHash] *)
#[global] Instance ComputeHash : TxHash := {| tx_GetHash tx := CHash256 (SerializeTransaction false tx) |}.
Definition GetWitnessHash (tx : CTransaction) : uint256 :=
  if HasWitness tx then CHash256 (SerializeTransaction true tx) else tx_GetHash tx.
Definition merkle_hash (a b : uint256) : uint256 := CHash256 (a ++ b).

(** ** Headers *)

(** [Checkpoints::GetLastCheckpoint]: the highest checkpoint in the block index. *)
Definition GetLastCheckpoint (checkpoints : list (Z * uint256)) (t : BlockTree) : option ptr :=
  head (omap (fun i => mapBlockIndex t !! snd i) (rev checkpoints)).

Definition CheckBlockHeader (t : BlockTree) (block : CBlockHeader) (params : CChainParams) (fCheckPOW : bool) : result block_error () :=
  let? below :=
    if fCheckPOW && (nTime block >=? nPHIHASHActivationTime) then
      match GetLastCheckpoint (mapCheckpoints params) t with
      | Some p => let? b := in_chain (deref (tree_heap t) p) in Ok (nHeight block <=? u32 (bi_nHeight b))
      | None => Ok false
      end
    else Ok false in
  if below then dos (CheckProofOfWork (GetHash block) (nBits block) (GetConsensus params)) 50 "high-hash1"
  else
    let '(full_hash, mix) := GetHashFull block in
    let? _ := dos (negb (fCheckPOW && negb (CheckProofOfWork full_hash (nBits block) (GetConsensus params)))) 50 "high-hash2" in
    dos (negb (fCheckPOW && (nTime block >=? nPHIHASHActivationTime) && negb (blob_eqb mix (mix_hash block)))) 50 "invalid-mix-hash".

Definition reorg_too_deep (ctx : node_context) (t : BlockTree) (h : Z) : result block_error bool :=
  let fGreaterThanMaxReorg := Height (nc_chainActive ctx) - (h - 1) >=? nc_nMaxReorgDepth ctx in
  match fGreaterThanMaxReorg, nc_connman ctx with
  | true, Some nCurrentNodeCount =>
      match Tip (nc_chainActive ctx) with
      | None => Err (BlockChain NullDereference)
      | Some tip =>
          let? b := in_chain (deref (tree_heap t) tip) in
          let bIsCurrentChainCaughtUp := nc_time ctx - bi_nTime b <=? nc_nMinReorgAge ctx in
          Ok ((nCurrentNodeCount >=? nc_nMinReorgPeers ctx) && bIsCurrentChainCaughtUp)
      end
  | _, _ => Ok false
  end.

Definition ContextualCheckBlockHeader (ctx : node_context) (t : BlockTree) (block : CBlockHeader) (params : CChainParams)
    (pindexPrev : ptr) (nAdjustedTime : Z) : result block_error () :=
  let st := tree_heap t in
  let? prev := in_chain (deref st pindexPrev) in
  let h := bi_nHeight prev + 1 in
  let? deep := reorg_too_deep ctx t h in
  let? _ := dos (negb deep) 10 "bad-fork-prior-to-maxreorgdepth" in
  let? work := in_chain (GetNextWorkRequired st pindexPrev block (GetConsensus params)) in
  let? _ := dos (nBits block =? work) 100 "bad-diffbits" in
  let? _ :=
    if nc_fCheckpointsEnabled ctx then
      match GetLastCheckpoint (mapCheckpoints params) t with
      | Some p => let? b := in_chain (deref st p) in dos (negb (h <? bi_nHeight b)) 100 "bad-fork-prior-to-checkpoint"
      | None => Ok ()
      end
    else Ok () in
  let? median := in_chain (GetMedianTimePast st pindexPrev) in
  let? _ := invalid (negb (nTime block <=? median)) "time-too-old" in
  let window := if IsDGWActive (GetConsensus params) (bi_nHeight prev + 1) then MAX_FUTURE_BLOCK_TIME_DGW else MAX_FUTURE_BLOCK_TIME in
  let? _ := invalid (negb (nTime block >? nAdjustedTime + window)) "time-too-new" in
  invalid (negb (AreAssetsDeployed && (nVersion block <? VERSIONBITS_TOP_BITS_ASSETS))) "bad-version".

(** ** Blocks without context *)

Definition GetBlockWeight (block : CBlock) : Z :=
  size (ser_block false block) * (WITNESS_SCALE_FACTOR - 1) + size (ser_block true block).

(** [block.fChecked] is the argument and, with the new value, the result. *)
Definition CheckBlock (t : BlockTree) (fChecked : bool) (block : CBlock) (params : CChainParams) (fCheckPOW fCheckMerkleRoot fDBCheck : bool)
    : result block_error bool :=
  if fChecked then Ok true
  else
    let? _ := CheckBlockHeader t (blk_header block) params fCheckPOW in
    let? _ :=
      if fCheckMerkleRoot then
        match BlockMerkleRoot merkle_hash tx_GetHash block with
        | Some (hashMerkleRoot2, mutated) =>
            let? _ := corrupt (blob_eqb (hashMerkleRoot (blk_header block)) hashMerkleRoot2) 100 "bad-txnmrklroot" in
            corrupt (negb mutated) 100 "bad-txns-duplicate"
        | None => Err (BlockStopped AssertFailed)
        end
      else Ok () in
    let? _ := dos (negb (bool_decide (vtx block = []) || (size (vtx block) * WITNESS_SCALE_FACTOR >? GetMaxBlockWeight) ||
                         (size (ser_block false block) * WITNESS_SCALE_FACTOR >? GetMaxBlockWeight))) 100 "bad-blk-length" in
    let? cb := vector_at (vtx block) 0 in
    let? _ := dos (IsCoinBase cb) 100 "bad-cb-missing" in
    let? _ := each_ok (fun tx => dos (negb (IsCoinBase tx)) 100 "bad-cb-multiple") (tail (vtx block)) in
    let? _ := each_ok (fun tx => in_block (CheckTransaction tx true false (negb fDBCheck))) (vtx block) in
    let nSigOps := fold_left (fun n tx => u32 (n + GetLegacySigOpCount tx)) (vtx block) 0 in
    let? _ := dos (negb (u32 (nSigOps * WITNESS_SCALE_FACTOR) >? MAX_BLOCK_SIGOPS_COST)) 100 "bad-blk-sigops" in
    Ok (fCheckPOW && fCheckMerkleRoot).

(** ** The witness commitment *)

Definition witness_header : list Z := [OP_RETURN; 0x24; 0xaa; 0x21; 0xa9; 0xed].
Definition is_commitment (o : CTxOut) : bool :=
  (38 <=? size (scriptPubKey o)) && bool_decide (take 6 (scriptPubKey o) = witness_header).
(** The last matching output of the coinbase. *)
Definition GetWitnessCommitmentIndex (block : CBlock) : option nat :=
  match vtx block with
  | [] => None
  | cb :: _ => fst <$> last (filter (fun p => is_commitment p.2 = true) (imap pair (vout cb)))
  end.

Definition set_first_witness (nonce : list Z) (tx : CTransaction) : option CTransaction :=
  match vin tx with
  | [] => None
  | i :: ins => Some (mkTx (tx_nVersion tx) (mkTxIn (prevout i) (scriptSig i) (nSequence i) [nonce] :: ins) (vout tx) (nLockTime tx))
  end.

Definition UpdateUncommittedBlockStructures (block : CBlock) (params : CChainParams) : result block_error CBlock :=
  match GetWitnessCommitmentIndex block, vtx block with
  | Some _, cb :: txs =>
      if nSegwitEnabled params && negb (HasWitness cb) then
        match set_first_witness (replicate 32 0) cb with
        | Some cb => Ok (mkBlock (blk_header block) (cb :: txs))
        | None => Err (VectorRead 0)
        end
      else Ok block
  | _, _ => Ok block
  end.

(** The commitment script and the block with it. *)
Definition GenerateCoinbaseCommitment (block : CBlock) (params : CChainParams) : result block_error (CScript * CBlock) :=
  let? r :=
    match nSegwitEnabled params, GetWitnessCommitmentIndex block with
    | true, None =>
        match BlockWitnessMerkleRoot merkle_hash GetWitnessHash block, vtx block with
        | Some (root, _), cb :: txs =>
            let script := witness_header ++ CHash256 (root ++ replicate 32 0) in
            let cb := mkTx (tx_nVersion cb) (vin cb) (vout cb ++ [mkTxOut 0 script]) (nLockTime cb) in
            Ok (script, mkBlock (blk_header block) (cb :: txs))
        | _, _ => Err (VectorRead 0)
        end
    | _, _ => Ok ([], block)
    end in
  let? block := UpdateUncommittedBlockStructures (snd r) params in
  Ok (fst r, block).

(** ** Blocks in their context *)

(** [None]: the block has no commitment. *)
Definition check_witness (block : CBlock) (params : CChainParams) : result block_error bool :=
  if negb (nSegwitEnabled params) then Ok false
  else
    match GetWitnessCommitmentIndex block with
    | None => Ok false
    | Some commitpos =>
        match BlockWitnessMerkleRoot merkle_hash GetWitnessHash block with
        | None => Err (VectorRead 0)
        | Some (hashWitness, _) =>
            let? cb := vector_at (vtx block) 0 in
            let? i := vector_at (vin cb) 0 in
            let? _ := corrupt (match scriptWitness i with [nonce] => size nonce =? 32 | _ => false end) 100 "bad-witness-nonce-size" in
            let? nonce := vector_at (scriptWitness i) 0 in
            let? out := vector_at (vout cb) commitpos in
            let? _ := corrupt (bool_decide (CHash256 (hashWitness ++ nonce) = take 32 (drop 6 (scriptPubKey out)))) 100 "bad-witness-merkle-match" in
            Ok true
        end
    end.

Definition ContextualCheckBlock (st : heap) (block : CBlock) (params : CChainParams) (pindexPrev : option ptr) : result block_error () :=
  let? context :=
    match pindexPrev with
    | None => Ok (0, nTime (blk_header block))
    | Some p =>
        let? prev := in_chain (deref st p) in
        let? cutoff := if nCSVEnabled params then in_chain (GetMedianTimePast st p) else Ok (nTime (blk_header block)) in
        Ok (bi_nHeight prev + 1, cutoff)
    end in
  let '(h, nLockTimeCutoff) := context in
  let? _ := each_ok (fun tx => dos (IsFinalTx tx h nLockTimeCutoff) 10 "bad-txns-nonfinal") (vtx block) in
  let? _ :=
    if nBIP34Enabled params then
      let? cb := vector_at (vtx block) 0 in
      let? i := vector_at (vin cb) 0 in
      let? expect := in_block (assert_some (push_int64 h)) in
      dos (bool_decide (expect `prefix_of` scriptSig i)) 100 "bad-cb-height"
    else Ok () in
  let? fHaveWitness := check_witness block params in
  let? _ := if fHaveWitness then Ok () else each_ok (fun tx => corrupt (negb (HasWitness tx)) 100 "unexpected-witness") (vtx block) in
  dos (negb (GetBlockWeight block >? GetMaxBlockWeight)) 100 "bad-blk-weight".

Definition GetBlockScriptFlags (b : CBlockIndex) (params : CChainParams) : Z :=
  let flag (on : bool) (f : Z) := if on then f else 0 in
  Z.lor (flag (bi_nTime b >=? 1333238400) SCRIPT_VERIFY_P2SH)
    (Z.lor (flag (nBIP66Enabled params) SCRIPT_VERIFY_DERSIG)
    (Z.lor (flag (nBIP65Enabled params) SCRIPT_VERIFY_CHECKLOCKTIMEVERIFY)
    (Z.lor (flag (nCSVEnabled params) SCRIPT_VERIFY_CHECKSEQUENCEVERIFY)
           (flag (nSegwitEnabled params) (Z.lor SCRIPT_VERIFY_WITNESS SCRIPT_VERIFY_NULLDUMMY))))).
End checks.
