(* ===== verification/AssetBalance.v ===== *)
(** * What the asset checks guarantee: consensus/tx_verify.cpp, assets/assets.cpp

    Facts about [CheckTransaction] and [CheckTxAssets] together: transactions neither
    make nor destroy assets, and issuing under a name, reissuing, tagging and freezing
    need the token that stands for the right to do so.  The last section shows where
    the checks stop short of that. *)

From Stdlib Require Import String.
From stdpp Require Import gmap.
From S2P Require Import Prelude Serialize Transaction Chain Script Interpreter Regex AssetTypes AssetNames Verifier Coins Chainstate Base58 Standard AssetScripts AssetChecks TxVerify.

Open Scope string_scope.
Open Scope list_scope.
Open Scope Z_scope.

(** ** Sums per asset *)

Abbreviation holding := (list Z * Z)%type.
Definition sum_for (name : list Z) (l : list holding) : Z :=
  foldr (fun p s => if decide (p.1 = name) then p.2 + s else s) 0 l.

Lemma fold_add_total l : ∀ (m : gmap (list Z) Z) name,
  let m' := fold_left (fun m p => add_total m p.1 p.2) l m in
  (m' !! name = None ↔ m !! name = None ∧ name ∉ l.*1) ∧
  i64 (default 0 (m' !! name)) = i64 (default 0 (m !! name) + sum_for name l).
Proof.
  induction l as [|[n a] l IH]; intros m name; cbn [fold_left fmap list_fmap sum_for foldr fst snd].
  - split; [|f_equal; lia]. split; [intros ->; split; [done|apply not_elem_of_nil]|by intros [-> _]].
  - cbn zeta in IH. destruct (IH (add_total m n a) name) as [H1 H2]. cbn zeta. rewrite H1, H2. unfold add_total.
    change (foldr (λ (p : holding) (s : Z), if decide (p.1 = name) then p.2 + s else s) 0 l) with (sum_for name l).
    destruct (decide (n = name)) as [->|Hn].
    + rewrite lookup_insert_eq, not_elem_of_cons. split; [naive_solver|]. cbn [default].
      destruct (m !! name) as [v|]; cbn; [rewrite i64_add_l|]; f_equal; lia.
    + rewrite lookup_insert_ne, not_elem_of_cons by done. split; [naive_solver|done].
Qed.

(** ** Stepping through checks *)

Lemma rbind_Ok {E A B} (r : result E A) (k : A → result E B) b : rbind r k = Ok b → ∃ a, r = Ok a ∧ k a = Ok b.
Proof. destruct r as [a|]; [|done]. intros H. by exists a. Qed.

Lemma check_Ok b s u : check b s = Ok u → b = true.
Proof. unfold check, require. by destruct b. Qed.
Lemma check_r_Ok r s u : check_r r s = Ok u → r = Ok true.
Proof. unfold check_r, check, require. by destruct r as [[]|]. Qed.
Lemma get_Ok {A} (r : result tx_error (option A)) s a : get r s = Ok a → r = Ok (Some a).
Proof. unfold get. destruct r as [[]|]; cbn; [|done|done]. by intros [= ->]. Qed.
Lemma prefixed_Ok {A} p (r : result tx_error A) a : prefixed p r = Ok a → r = Ok a.
Proof. unfold prefixed. destruct r as [|[]]; try done. Qed.
Lemma read_Ok {A} (r : result nat A) a : read r = Ok a → r = Ok a.
Proof. unfold read. by destruct r; intros [= ->]. Qed.

(** One bind of a successful computation. *)
Ltac bind_in H :=
  let a := fresh "a" in let Ha := fresh "Hstep" in
  apply rbind_Ok in H as (a & Ha & H);
  first [apply check_r_Ok in Ha | apply check_Ok in Ha | apply get_Ok in Ha | apply prefixed_Ok in Ha | idtac].

Lemma any_out_true p l : any_out p l = Ok true → ∃ o, o ∈ l ∧ p o = Ok true.
Proof.
  induction l as [|o l IH]; [done|]. cbn [any_out]. intros H. apply rbind_Ok in H as (b & Hb & H).
  destruct b; [exists o; split; [by constructor|done]|]. destruct (IH H) as (o' & Ho & Hp). exists o'. split; [by constructor|done].
Qed.

Lemma for_all_Ok {A} (g : A → result tx_error ()) l : for_all g l = Ok () → ∀ a, a ∈ l → g a = Ok ().
Proof.
  induction l as [|x l IH]; cbn [for_all]; intros H a Ha; [by apply elem_of_nil in Ha|].
  apply rbind_Ok in H as ([] & Hx & H). apply elem_of_cons in Ha as [->|Ha]; auto.
Qed.

Lemma elem_of_set_insert x y s : x ∈ set_insert y s ↔ x = y ∨ x ∈ s.
Proof.
  induction s as [|z s IH]; cbn [set_insert]; [by rewrite list_elem_of_singleton, elem_of_nil; tauto|].
  destruct (string_ltb y z); [by rewrite elem_of_cons|]. case_decide as Hd; [|rewrite !elem_of_cons, IH; tauto].
  rewrite elem_of_cons. subst. tauto.
Qed.
Lemma elem_of_pair_insert x y s : x ∈ pair_insert y s ↔ x = y ∨ x ∈ s.
Proof.
  induction s as [|z s IH]; cbn [pair_insert]; [by rewrite list_elem_of_singleton, elem_of_nil; tauto|].
  destruct (pair_ltb y z); [by rewrite elem_of_cons|]. rewrite !elem_of_cons, IH. tauto.
Qed.

Section balance.
Context {V : Type} {View : CCoinsView V} {Laws : CoinsViewLaws V} {Hash : TxHash}.
Context {Cry : Crypto} {Split : BoostSplit} {Env : AssetEnv}.

(** The asset and amount that a coin holds, and that an output transfers. *)
Definition coin_asset (coin : Coin) : option holding :=
  match GetAssetData (scriptPubKey (c_out coin)) with
  | Ok (Some e) => Some (ae_assetName e, ae_nAmount e)
  | _ => None
  end.
Definition out_transfer (out : CTxOut) : option holding :=
  match TransferAssetFromScript (scriptPubKey out) with
  | Ok (Some (t, _)) => Some (tr_strName t, tr_nAmount t)
  | _ => None
  end.
Definition held (coins : list Coin) : list holding := omap coin_asset coins.
Definition moved (tx : CTransaction) : list holding := omap out_transfer (vout tx).

(** ** Kinds of asset transactions *)

Lemma transfers_name_moved tx name : any_out (transfers_name name) (vout tx) = Ok true → name ∈ (moved tx).*1.
Proof.
  intros H. apply any_out_true in H as (o & Ho & Hp). unfold transfers_name in Hp. apply rbind_Ok in Hp as (r & Hr & Hp).
  destruct r as [[t a]|]; [|done]. injection Hp as Hp. apply bool_decide_eq_true in Hp.
  apply list_elem_of_fmap. exists (tr_strName t, tr_nAmount t). split; [done|].
  apply list_elem_of_omap. exists o. split; [done|]. unfold out_transfer. by rewrite Hr.
Qed.

Lemma issue_of_type_Ok p s i : issue_of_type p s = Ok (Some i) →
  ∃ a adr t, AssetFromScript s = Ok (Some (a, adr)) ∧ IsAssetNameValid (na_strName a) = Ok t ∧ p t = true ∧
    ∀ q, issue_of_type q s = Ok (if q t then Some i else None).
Proof.
  unfold issue_of_type. destruct (IsAssetScript s) as [[a|]|]; [|done|done]. cbn [read rbind].
  destruct (AssetFromScript s) as [[[b adr]|]|]; [|done|done]. cbn [rbind].
  destruct (IsAssetNameValid (na_strName b)) as [t|] eqn:Ht; [|done]. destruct (p t) eqn:Hp; [|done].
  intros [= <-]. exists b, adr, t. rewrite Ht. split_and!; [done..|]. intros q. by destruct (q t).
Qed.

Lemma issue_not_reissue out : CheckIssueDataTx out = Ok true → CheckReissueDataTx out = Ok false.
Proof.
  unfold CheckIssueDataTx, CheckReissueDataTx, IsScriptNewAsset, IsScriptReissueAsset, asset_start.
  destruct (IsAssetScript (scriptPubKey out)) as [[a|]|]; [|done|done]. cbn [read rbind is_some].
  destruct (Z.eqb_spec (as_nType a) TX_NEW_ASSET) as [->|]; [|done]. done.
Qed.

Lemma last_out_is_Ok p tx : last_out_is (issue_of_type p) tx = Ok true →
  ∃ out a adr t, out_back (vout tx) 1 = Ok out ∧ AssetFromScript (scriptPubKey out) = Ok (Some (a, adr)) ∧
    IsAssetNameValid (na_strName a) = Ok t ∧ p t = true ∧ IsReissueAsset tx = Ok false ∧
    (IsNewUniqueAsset tx = Ok (bool_decide (t = UNIQUE)) ∧ IsNewMsgChannelAsset tx = Ok (bool_decide (t = MSGCHANNEL)) ∧
     IsNewQualifierAsset tx = Ok (bool_decide (t = QUALIFIER) || bool_decide (t = SUB_QUALIFIER)) ∧
     IsNewRestrictedAsset tx = Ok (bool_decide (t = RESTRICTED))) ∧
    ((t = UNIQUE ∨ t = RESTRICTED) → ∀ b, IsNewAsset tx = Ok b → b = false).
Proof.
  unfold IsNewUniqueAsset, IsNewMsgChannelAsset, IsNewQualifierAsset, IsNewRestrictedAsset, last_out_is, IsReissueAsset. intros H. apply rbind_Ok in H as (out & Hout & H). apply rbind_Ok in H as (b & Hb & H).
  destruct b; [|done]. cbn [negb] in H. apply rbind_Ok in H as (i & Hi & H). destruct i as [i|]; [|done].
  destruct (issue_of_type_Ok p _ i Hi) as (a & adr & t & Ha & Ht & Hp & Hq). exists out, a, adr, t.
  rewrite Hout. cbn [rbind]. rewrite (issue_not_reissue out Hb), Hb. cbn [negb rbind].
  unfold IsScriptNewUniqueAsset, IsScriptNewMsgChannelAsset, IsScriptNewQualifierAsset, IsScriptNewRestrictedAsset. rewrite !Hq.
  cbn [rbind]. split_and!; try done; [by case_match..|].
  - intros Hty b. unfold IsNewAsset. rewrite Hout. destruct (_ <? 3)%nat; [by intros [= <-]|]. cbn [rbind]. rewrite Hb. cbn [negb rbind].
    destruct (out_back (vout tx) 2); [|done]. cbn [rbind]. destruct (CheckOwnerDataTx _) as [[]|]; [|by intros [= <-]|done]. cbn [rbind negb].
    unfold IsScriptNewUniqueAsset, IsScriptNewRestrictedAsset. rewrite !Hq. cbn [rbind].
    destruct Hty as [-> | ->]; rewrite ?bool_decide_eq_true_2 by done; rewrite ?bool_decide_eq_false_2 by done; cbn; by intros [= <-].
Qed.

Lemma reissue_not_new tx b : IsReissueAsset tx = Ok true → IsNewAsset tx = Ok b → b = false.
Proof.
  unfold IsReissueAsset, IsNewAsset. intros H. apply rbind_Ok in H as (out & Hout & H). rewrite Hout. cbn [rbind].
  destruct (_ <? 3)%nat; [by intros [= <-]|]. destruct (CheckIssueDataTx out) as [[]|] eqn:Hi; cbn [rbind negb]; [|by intros [= <-]|done].
  by rewrite (issue_not_reissue out Hi) in H.
Qed.

(** The token that gives the right to what a transaction does: the owner token of the
    parent to issue under a name, the owner token of an asset to reissue or freeze it,
    the qualifier itself to issue below it or to tag with it. *)
Inductive requires_token (tx : CTransaction) : list Z → Prop :=
  | rt_sub a adr : AssetFromTransaction tx = Ok (Some (a, adr)) → IsAssetNameValid (na_strName a) = Ok SUB →
      requires_token tx (GetParentName (na_strName a) ++ OWNER_TAG)
  | rt_reissue r adr : ReissueAssetFromTransaction tx = Ok (Some (r, adr)) →
      requires_token tx ((if decide (name_type INVALID (re_strName r) = RESTRICTED) then drop 1 (re_strName r) else re_strName r) ++ OWNER_TAG)
  | rt_unique out i a adr : IsNewUniqueAsset tx = Ok true → out ∈ vout tx →
      IsScriptNewUniqueAsset (scriptPubKey out) = Ok (Some i) → AssetFromScript (scriptPubKey out) = Ok (Some (a, adr)) →
      requires_token tx (GetParentName (na_strName a) ++ OWNER_TAG)
  | rt_channel a adr : IsNewAsset tx = Ok false → MsgChannelAssetFromTransaction tx = Ok (Some (a, adr)) →
      requires_token tx (GetParentName (na_strName a) ++ OWNER_TAG)
  | rt_sub_qualifier a adr : IsNewAsset tx = Ok false → QualifierAssetFromTransaction tx = Ok (Some (a, adr)) →
      IsAssetNameValid (na_strName a) = Ok SUB_QUALIFIER → requires_token tx (GetParentName (na_strName a))
  | rt_restricted a adr : RestrictedAssetFromTransaction tx = Ok (Some (a, adr)) →
      requires_token tx (drop 1 (GetParentName (na_strName a)) ++ OWNER_TAG)
  | rt_tag out d adr : out ∈ vout tx → AssetNullDataFromScript (scriptPubKey out) = Ok (Some (d, adr)) →
      requires_token tx (if nth 0 (nd_asset_name d) 0 =? 36 then drop 1 (nd_asset_name d) ++ OWNER_TAG else nd_asset_name d)
  | rt_freeze out d : out ∈ vout tx → GlobalAssetNullDataFromScript (scriptPubKey out) = Some d →
      requires_token tx (drop 1 (nd_asset_name d) ++ OWNER_TAG).

Lemma name_type_Ok init name t : IsAssetNameValid name = Ok t → name_type init name = t.
Proof. unfold name_type. by intros ->. Qed.

Lemma from_transaction_Ok {A} kind i (g : CScript → result tx_error (option A)) tx a :
  from_transaction kind i g tx = Ok (Some a) → kind tx = Ok true ∧ ∃ out, out_back (vout tx) i = Ok out ∧ g (scriptPubKey out) = Ok (Some a).
Proof.
  unfold from_transaction. intros H. apply rbind_Ok in H as (b & Hb & H). destruct b; [|done]. cbn [negb] in H.
  apply rbind_Ok in H as (out & Ho & H). split; [done|]. eauto.
Qed.

(** The collected parent is that of every unique asset. *)
Lemma collect_unique_root outs : ∀ names root count root' count', collect_unique outs names root count = Ok (root', count') →
  (root ≠ [] → root' = root) ∧
  ∀ out i a adr, out ∈ outs → IsScriptNewUniqueAsset (scriptPubKey out) = Ok (Some i) →
    AssetFromScript (scriptPubKey out) = Ok (Some (a, adr)) → GetParentName (na_strName a) ≠ [] → GetParentName (na_strName a) = root'.
Proof.
  induction outs as [|o outs IH]; intros names root count root' count' H; cbn [collect_unique] in H.
  - injection H as <- _. split; [done|]. intros out i a adr Hin. by apply elem_of_nil in Hin.
  - apply rbind_Ok in H as (io & Hio & H). destruct io as [io|]; cbn [is_some negb] in H.
    + bind_in H. cbn zeta in H. bind_in H. apply bool_decide_eq_true in Hstep0. bind_in H.
      destruct (IH _ _ _ _ _ H) as [Hr Hall]. split.
      * intros Hn. rewrite Hr; rewrite decide_False by done; done.
      * intros out i b adr Hin Hi Ha Hne. apply elem_of_cons in Hin as [->|Hin]; [|eauto].
        rewrite Ha in Hstep. injection Hstep as <-. cbn [fst] in *. rewrite <- Hstep0. symmetry. apply Hr. by rewrite Hstep0.
    + destruct (IH _ _ _ _ _ H) as [Hr Hall]. split; [done|]. intros out i b adr Hin Hi Ha Hne.
      apply elem_of_cons in Hin as [->|Hin]; [by rewrite Hio in Hi|eauto].
Qed.

Lemma unique_parent name : IsAssetNameValid name = Ok UNIQUE → GetParentName name ≠ [].
Proof.
  intros Hv. destruct (valid_name_sound _ _ Hv) as (_ & p & tag & Hn & Hp & _ & Ht).
  rewrite (parent_before_mark 35 name UNIQUE p tag Hv (fun _ => eq_refl) Hn) by (by apply (all_free unique_char)).
  apply (path_before_tag p Hp).
Qed.

(** Each kind of transaction brings the token it requires into the outputs. *)
Lemma VerifyNewAsset_token tx a adr : VerifyNewAsset tx = Ok () → AssetFromTransaction tx = Ok (Some (a, adr)) →
  IsAssetNameValid (na_strName a) = Ok SUB → GetParentName (na_strName a) ++ OWNER_TAG ∈ (moved tx).*1.
Proof.
  intros Hv Ha Hsub. apply from_transaction_Ok in Ha as (_ & out & Hout & Ha). unfold VerifyNewAsset in Hv.
  rewrite Hout in Hv. cbn [rbind] in Hv. bind_in Hv. bind_in Hv. apply rbind_Ok in Hv as (oo & _ & Hv). bind_in Hv. bind_in Hv.
  rewrite Ha in Hstep2. injection Hstep2 as <-. cbn zeta in Hv. bind_in Hv. bind_in Hv. bind_in Hv. cbn [fst] in Hv.
  rewrite (name_type_Ok _ _ _ Hsub) in Hv. rewrite decide_True in Hv by done. bind_in Hv. by apply transfers_name_moved.
Qed.

Lemma VerifyReissueAsset_token tx r adr : VerifyReissueAsset tx = Ok () → ReissueAssetFromTransaction tx = Ok (Some (r, adr)) →
  (if decide (name_type INVALID (re_strName r) = RESTRICTED) then drop 1 (re_strName r) else re_strName r) ++ OWNER_TAG ∈ (moved tx).*1.
Proof.
  intros Hv Hr. apply from_transaction_Ok in Hr as (_ & out & Hout & Hr). unfold VerifyReissueAsset in Hv.
  rewrite Hout in Hv. cbn [rbind] in Hv. bind_in Hv. bind_in Hv. bind_in Hv. rewrite Hr in Hstep1. injection Hstep1 as <-.
  cbn zeta in Hv. bind_in Hv. by apply transfers_name_moved.
Qed.

Lemma VerifyNewUniqueAsset_token tx out i a adr : VerifyNewUniqueAsset tx = Ok () → out ∈ vout tx →
  IsScriptNewUniqueAsset (scriptPubKey out) = Ok (Some i) → AssetFromScript (scriptPubKey out) = Ok (Some (a, adr)) →
  GetParentName (na_strName a) ++ OWNER_TAG ∈ (moved tx).*1.
Proof.
  intros Hv Hin Hi Ha. unfold VerifyNewUniqueAsset in Hv. bind_in Hv. apply rbind_Ok in Hv as ([root count] & Hc & Hv).
  destruct (issue_of_type_Ok _ _ _ Hi) as (a' & adr' & t & Ha' & Hv' & Ht' & _). rewrite Ha in Ha'. injection Ha' as <- <-.
  apply bool_decide_eq_true in Ht'. subst t. destruct (collect_unique_root _ _ _ _ _ _ Hc) as [_ Hroot].
  rewrite (Hroot out i a adr Hin Hi Ha (unique_parent _ Hv')). bind_in Hv. bind_in Hv. bind_in Hv. by apply transfers_name_moved.
Qed.

Lemma VerifyNewMsgChannelAsset_token tx a adr : VerifyNewMsgChannelAsset tx = Ok () →
  MsgChannelAssetFromTransaction tx = Ok (Some (a, adr)) → GetParentName (na_strName a) ++ OWNER_TAG ∈ (moved tx).*1.
Proof.
  intros Hv Ha. apply from_transaction_Ok in Ha as (_ & out & Hout & Ha). unfold VerifyNewMsgChannelAsset in Hv.
  rewrite Hout in Hv. cbn [rbind] in Hv. bind_in Hv. bind_in Hv. bind_in Hv. rewrite Ha in Hstep1. injection Hstep1 as <-.
  cbn zeta in Hv. bind_in Hv. bind_in Hv. by apply transfers_name_moved.
Qed.

Lemma VerifyNewQualfierAsset_token tx a adr : VerifyNewQualfierAsset tx = Ok () →
  QualifierAssetFromTransaction tx = Ok (Some (a, adr)) → IsAssetNameValid (na_strName a) = Ok SUB_QUALIFIER →
  GetParentName (na_strName a) ∈ (moved tx).*1.
Proof.
  intros Hv Ha Hsub. apply from_transaction_Ok in Ha as (_ & out & Hout & Ha). unfold VerifyNewQualfierAsset in Hv.
  rewrite Hout in Hv. cbn [rbind] in Hv. bind_in Hv. bind_in Hv. bind_in Hv. rewrite Ha in Hstep1. injection Hstep1 as <-.
  cbn zeta in Hv. bind_in Hv. cbn [fst] in Hv. rewrite (name_type_Ok _ _ _ Hsub) in Hv. rewrite decide_True in Hv by done.
  bind_in Hv. by apply transfers_name_moved.
Qed.

Lemma VerifyNewRestrictedAsset_token tx a adr : VerifyNewRestrictedAsset tx = Ok () →
  RestrictedAssetFromTransaction tx = Ok (Some (a, adr)) → drop 1 (GetParentName (na_strName a)) ++ OWNER_TAG ∈ (moved tx).*1.
Proof.
  intros Hv Ha. apply from_transaction_Ok in Ha as (_ & out & Hout & Ha). unfold VerifyNewRestrictedAsset in Hv.
  rewrite Hout in Hv. cbn [rbind] in Hv. bind_in Hv. bind_in Hv. bind_in Hv. rewrite Ha in Hstep1. injection Hstep1 as <-.
  cbn zeta in Hv. bind_in Hv. case_decide; [done|]. bind_in Hv. by apply transfers_name_moved.
Qed.

(** Which checks a kind of transaction went through. *)
Lemma kind_verified tx k : check_asset_kind tx = Ok k →
  (IsNewAsset tx = Ok true → VerifyNewAsset tx = Ok ()) ∧
  (IsReissueAsset tx = Ok true → VerifyReissueAsset tx = Ok ()) ∧
  (IsNewUniqueAsset tx = Ok true → VerifyNewUniqueAsset tx = Ok ()) ∧
  (IsNewAsset tx = Ok false → IsNewMsgChannelAsset tx = Ok true → VerifyNewMsgChannelAsset tx = Ok ()) ∧
  (IsNewAsset tx = Ok false → IsNewQualifierAsset tx = Ok true → VerifyNewQualfierAsset tx = Ok ()) ∧
  (IsNewRestrictedAsset tx = Ok true → VerifyNewRestrictedAsset tx = Ok ()).
Proof.
  intros Hk. unfold check_asset_kind in Hk. apply rbind_Ok in Hk as (new & Hnew & Hk). rewrite Hnew. split_and!.
  - intros [= ->]. by apply rbind_Ok in Hk as ([] & Hv & _).
  - intros Hre. rewrite (reissue_not_new tx new Hre Hnew), Hre in Hk. cbn [rbind] in Hk. by apply rbind_Ok in Hk as ([] & Hv & _).
  - intros Hu. pose proof (last_out_is_Ok _ _ Hu) as (_ & _ & _ & t & _ & _ & _ & Ht & Hre & _ & Hn). apply bool_decide_eq_true in Ht.
    rewrite (Hn (or_introl Ht) new Hnew), Hre, Hu in Hk. cbn [rbind] in Hk. by apply rbind_Ok in Hk as ([] & Hv & _).
  - intros [= ->] Hc. pose proof (last_out_is_Ok _ _ Hc) as (_ & _ & _ & t & _ & _ & _ & Ht & Hre & (Hu & _) & _). apply bool_decide_eq_true in Ht.
    subst t. rewrite Hre, Hu, Hc in Hk. cbn in Hk. by apply rbind_Ok in Hk as ([] & Hv & _).
  - intros [= ->] Hc. pose proof (last_out_is_Ok _ _ Hc) as (_ & _ & _ & t & _ & _ & _ & Ht & Hre & (Hu & Hm & _) & _).
    apply orb_true_iff in Ht as [Ht|Ht]; apply bool_decide_eq_true in Ht; subst t; rewrite Hre, Hu, Hm, Hc in Hk; cbn in Hk;
      by apply rbind_Ok in Hk as ([] & Hv & _).
  - intros Hc. pose proof (last_out_is_Ok _ _ Hc) as (_ & _ & _ & t & _ & _ & _ & Ht & Hre & (Hu & Hm & Hq & _) & Hn). apply bool_decide_eq_true in Ht.
    rewrite (Hn (or_intror Ht) new Hnew), Hre, Hu, Hm, Hq, Hc in Hk. subst t. cbn in Hk. by apply rbind_Ok in Hk as ([] & Hv & _).
Qed.

(** ** The loop over the outputs *)

Lemma check_null_asset_Ok out st st' : check_null_asset out st = Ok st' →
  os_transfers st' = os_transfers st ∧
  (∀ p, p ∈ os_null_data st → p ∈ os_null_data st') ∧ (∀ n, n ∈ os_global st → n ∈ os_global st') ∧
  (∀ d adr, AssetNullDataFromScript (scriptPubKey out) = Ok (Some (d, adr)) → (nd_asset_name d, adr) ∈ os_null_data st') ∧
  (∀ d, GlobalAssetNullDataFromScript (scriptPubKey out) = Some d → nd_asset_name d ∈ os_global st').
Proof.
  unfold check_null_asset. destruct st as [v tr nd gl ve tags]. unfold IsNullAsset.
  destruct (IsNullAssetTxDataScript (scriptPubKey out)) eqn:H1.
  { cbn [orb negb]. intros H. bind_in H. destruct a as [d adr]. bind_in H. bind_in H. injection H as <-. cbn.
    split_and!; [done|intros p Hp; apply elem_of_pair_insert; by right|done| |].
    - intros d' adr' Hd. rewrite Hd in Hstep. injection Hstep as <- <-. apply elem_of_pair_insert. by left.
    - intros d'. unfold GlobalAssetNullDataFromScript, IsNullGlobalRestrictionAssetTxDataScript, IsNullAssetTxDataScript in *.
      apply andb_true_iff in H1 as [_ H1]. apply Z.eqb_eq in H1. rewrite H1. cbn. by rewrite andb_false_r. }
  assert (∀ d adr, AssetNullDataFromScript (scriptPubKey out) ≠ Ok (Some (d, adr))) as Hno
    by (intros d adr; unfold AssetNullDataFromScript; by rewrite H1).
  destruct (IsNullGlobalRestrictionAssetTxDataScript (scriptPubKey out)) eqn:H2.
  { cbn [orb negb]. intros H. bind_in H. bind_in H. bind_in H. injection H as <-. cbn.
    split_and!; [done|done|intros n Hn; apply elem_of_set_insert; by right|by intros d adr ?%Hno|].
    intros d Hd. injection Hstep as Hstep. rewrite Hd in Hstep. injection Hstep as <-. apply elem_of_set_insert. by left. }
  assert (∀ d, GlobalAssetNullDataFromScript (scriptPubKey out) ≠ Some d) as Hno2
    by (intros d; unfold GlobalAssetNullDataFromScript; by rewrite H2).
  cbn [orb]. destruct (IsNullAssetVerifierTxDataScript (scriptPubKey out)); cbn [negb].
  - intros H. bind_in H. bind_in H. injection H as <-. cbn. split_and!; try done; [by intros d adr ?%Hno|by intros d ?%Hno2].
  - intros [= <-]. cbn. split_and!; try done; [by intros d adr ?%Hno|by intros d ?%Hno2].
Qed.

Lemma check_asset_out_Ok fm fb out st st' : check_asset_out fm fb out st = Ok st' →
  os_null_data st' = os_null_data st ∧ os_global st' = os_global st ∧
  ∀ n, n ∈ os_transfers st' → n ∈ os_transfers st ∨ ∃ p, out_transfer out = Some p ∧ p.1 = n.
Proof.
  unfold check_asset_out, out_transfer. intros H. apply rbind_Ok in H as (a & _ & H). destruct a as [a|]; [|injection H as <-; auto].
  destruct (as_nType a =? TX_TRANSFER_ASSET).
  { bind_in H. bind_in H. injection H as <-. cbn. split_and!; [done..|]. intros n [->|Hn]%elem_of_set_insert; [|by left]. right.
    destruct a0 as [t adr]. rewrite Hstep. by eexists. }
  destruct (as_nType a =? TX_NEW_ASSET); [bind_in H; injection H as <-; auto|].
  destruct (as_nType a =? TX_REISSUE_ASSET); [|done]. bind_in H. bind_in H. injection H as <-; auto.
Qed.

Lemma check_outputs_Ok fm fb outs : ∀ st st', check_outputs fm fb outs st = Ok st' →
  (∀ n, n ∈ os_transfers st' → n ∈ os_transfers st ∨ n ∈ (omap out_transfer outs).*1) ∧
  (∀ p, p ∈ os_null_data st → p ∈ os_null_data st') ∧ (∀ n, n ∈ os_global st → n ∈ os_global st') ∧
  (∀ out d adr, out ∈ outs → AssetNullDataFromScript (scriptPubKey out) = Ok (Some (d, adr)) → (nd_asset_name d, adr) ∈ os_null_data st') ∧
  (∀ out d, out ∈ outs → GlobalAssetNullDataFromScript (scriptPubKey out) = Some d → nd_asset_name d ∈ os_global st').
Proof.
  induction outs as [|out outs IH]; intros st st' H; cbn [check_outputs] in H.
  - injection H as <-. split_and!; auto; intros * Hin; by apply elem_of_nil in Hin.
  - bind_in H. bind_in H. cbn zeta in H. bind_in H. apply rbind_Ok in H as (st1 & H1 & H). apply rbind_Ok in H as (st2 & H2 & H).
    destruct (check_null_asset_Ok _ _ _ H1) as (Ht1 & Hn1 & Hg1 & Hd1 & Hf1). cbn in Ht1, Hn1, Hg1.
    destruct (check_asset_out_Ok _ _ _ _ _ H2) as (Hn2 & Hg2 & Ht2). rewrite Ht1 in Ht2.
    destruct (IH _ _ H) as (Ht3 & Hn3 & Hg3 & Hd3 & Hf3). rewrite Hn2 in Hn3. rewrite Hg2 in Hg3. split_and!; auto.
    + intros n Hn. cbn. destruct (Ht3 n Hn) as [Ha|Ha].
      * destruct (Ht2 n Ha) as [?|(p & -> & <-)]; [by left|right; by constructor].
      * right. destruct (out_transfer out); [by constructor|done].
    + intros o d adr [->|Hin]%elem_of_cons Hd; [eauto|eauto].
    + intros o d [->|Hin]%elem_of_cons Hd; [eauto|eauto].
Qed.

Lemma CheckTransaction_tokens tx fd fm fb tok : CheckTransaction tx fd fm fb = Ok () → requires_token tx tok → tok ∈ (moved tx).*1.
Proof.
  intros Hc Ht. unfold CheckTransaction in Hc. do 3 (apply rbind_Ok in Hc as ([] & _ & Hc)).
  apply rbind_Ok in Hc as (st & Hst & Hc). apply rbind_Ok in Hc as ([] & _ & Hc).
  apply rbind_Ok in Hc as ([] & Hnull & Hc). apply rbind_Ok in Hc as ([] & Hglobal & Hc).
  do 2 (apply rbind_Ok in Hc as ([] & _ & Hc)). apply rbind_Ok in Hc as (k & Hk & _).
  destruct (check_outputs_Ok _ _ _ _ _ Hst) as (Htr & _ & _ & Hd & Hf). cbn in Htr.
  assert (∀ n, n ∈ os_transfers st → n ∈ (moved tx).*1) as Hmoved by (intros n Hn; by destruct (Htr n Hn) as [?%elem_of_nil|]).
  destruct (kind_verified tx k Hk) as (Hv1 & Hv2 & Hv3 & Hv4 & Hv5 & Hv6).
  destruct Ht as [a adr Ha Hsub|r adr Hr|out i a adr Hu Hin Hi Ha|a adr Hn Ha|a adr Hn Ha Hsub|a adr Ha|out d adr Hin Hnd|out d Hin Hgd].
  - eapply VerifyNewAsset_token; eauto. apply Hv1. by apply from_transaction_Ok in Ha as [? _].
  - eapply VerifyReissueAsset_token; eauto. apply Hv2. by apply from_transaction_Ok in Hr as [? _].
  - eapply VerifyNewUniqueAsset_token; eauto.
  - eapply VerifyNewMsgChannelAsset_token; eauto. apply Hv4; [done|]. by apply from_transaction_Ok in Ha as [? _].
  - eapply VerifyNewQualfierAsset_token; eauto. apply Hv5; [done|]. by apply from_transaction_Ok in Ha as [? _].
  - eapply VerifyNewRestrictedAsset_token; eauto. apply Hv6. by apply from_transaction_Ok in Ha as [? _].
  - specialize (for_all_Ok _ _ Hnull _ (Hd out d adr Hin Hnd)). unfold null_data_authorised. cbn [fst].
    destruct (_ =? 36); intros H%check_Ok%bool_decide_eq_true; by apply Hmoved.
  - specialize (for_all_Ok _ _ Hglobal _ (Hf out d Hin Hgd)). unfold global_authorised. intros H. bind_in H.
    apply check_Ok, bool_decide_eq_true in H. by apply Hmoved.
Qed.

Section checked.
Context {AV : AssetsView}.
Variables (fCache fUnit fMsg : bool) (now btime : Z) (reissued : gmap (list Z) uint256) (is_mine : list Z → bool).

Lemma asset_inputs_spec U ins : ∀ c tin addr tin' addr' c', holds c U →
  asset_inputs fCache c ins tin addr = Ok (tin', addr', c') →
  ∃ coins, input_coins U ins = Some coins ∧ holds c' U ∧ tin' = fold_left (fun m p => add_total m p.1 p.2) (held coins) tin.
Proof.
  induction ins as [|i ins IH]; intros c tin addr tin' addr' c' Hh Hr; cbn [asset_inputs] in Hr.
  - injection Hr as <- _ <-. by exists [].
  - pose proof (unspent_coin_spec c U (prevout i) Hh) as Hc.
    destruct (U (prevout i)) as [coin|] eqn:Hu; [|by rewrite Hc in Hr]. destruct Hc as (c1 & Hc1 & Hh1).
    rewrite Hc1 in Hr. cbn [rbind] in Hr. unfold Coin_IsAsset in Hr.
    destruct (IsAssetScript (scriptPubKey (c_out coin))) as [[a|]|] eqn:Ha; cbn [rbind read is_some negb] in Hr; [|..|done].
    + unfold get in Hr. destruct (GetAssetData (scriptPubKey (c_out coin))) as [[d|]|] eqn:Hd; [|done|done]. cbn [rbind] in Hr.
      destruct (EncodeDestination prefixes (ae_destination d)) as [adr|]; [|done]. cbn [assert_some rbind] in Hr.
      match type of Hr with rbind ?r _ = _ => destruct r as [[]|]; [|done] end. cbn [rbind] in Hr.
      destruct (IH _ _ _ _ _ _ Hh1 Hr) as (coins & Hcs & Hh' & ->). exists (coin :: coins).
      split; [apply (input_coins_cons U i ins coin Hu); eauto|]. split; [done|]. unfold held. cbn. unfold coin_asset at 2. by rewrite Hd.
    + destruct (IH _ _ _ _ _ _ Hh1 Hr) as (coins & Hcs & Hh' & ->). exists (coin :: coins).
      split; [apply (input_coins_cons U i ins coin Hu); eauto|]. split; [done|]. unfold held. cbn. unfold coin_asset at 2, GetAssetData.
      by rewrite Ha.
Qed.

Lemma transfer_none s : (∀ a, IsAssetScript s = Ok (Some a) → (as_nType a =? TX_TRANSFER_ASSET) = false) →
  is_ok (IsAssetScript s) = true → TransferAssetFromScript s = Ok None.
Proof.
  intros Ha Hok. unfold TransferAssetFromScript, IsScriptTransferAsset, asset_start, from_script, read.
  destruct (IsAssetScript s) as [[a|]|]; [|done|done]. cbn. by rewrite (Ha a eq_refl).
Qed.

Lemma check_null_out_totals out st st' : check_null_out fCache is_mine out st = Ok st' → ao_totals st' = ao_totals st.
Proof.
  unfold check_null_out. destruct (negb _); [by intros [= <-]|]. unfold check, require.
  destruct AreRestrictedAssetsDeployed; [|done]. cbn [rbind].
  destruct (IsNullAssetTxDataScript _).
  { destruct (ContextualCheckNullAssetTxOut _ _) as [[d a]|]; [|done]. cbn [rbind]. destruct (is_mine a); by intros [= <-]. }
  destruct (IsNullGlobalRestrictionAssetTxDataScript _).
  { destruct (ContextualCheckGlobalAssetTxOut _ _) as [[]|]; [|done]. by intros [= <-]. }
  destruct (IsNullAssetVerifierTxDataScript _); [|done].
  destruct (ContextualCheckVerifierAssetTxOut _ _) as [[]|]; [|done]. by intros [= <-].
Qed.

Lemma check_asset_move_totals tx addr i out nType st st' :
  (nType =? TX_TRANSFER_ASSET) = false ∧ TransferAssetFromScript (scriptPubKey out) = Ok None ∨ (nType =? TX_TRANSFER_ASSET) = true →
  check_asset_move fCache fUnit fMsg now btime reissued tx addr i out nType st = Ok st' →
  ao_totals st' = match out_transfer out with Some p => add_total (ao_totals st) p.1 p.2 | None => ao_totals st end ∧
  (∀ p, out_transfer out = Some p → 0 < p.2).
Proof.
  intros Hty. unfold check_asset_move, out_transfer. destruct Hty as [[-> ->]| ->].
  - intros Hr. split; [|done]. destruct (nType =? TX_REISSUE_ASSET); [|by injection Hr as <-].
    unfold get in Hr. destruct (ReissueAssetFromScript _) as [[[r a]|]|]; [|done|done]. cbn [rbind fst] in Hr.
    destruct (reissued !! re_strName r); [|by injection Hr as <-]. unfold check, require in Hr.
    destruct (bool_decide _); [|done]. by injection Hr as <-.
  - unfold get. destruct (TransferAssetFromScript _) as [[[t a]|]|]; [|done|done]. cbn [rbind].
    destruct (ContextualCheckTransferAsset t a fCache) as [[]|] eqn:Hc; [|done]. cbn [rbind].
    destruct (check_units _ _ t) as [[]|]; [|done]. cbn [rbind]. intros [= <-]. cbn. split; [done|]. intros p [= <-]. cbn.
    unfold ContextualCheckTransferAsset in Hc. destruct (IsAssetNameValid _); [|done]. cbn [rbind] in Hc. unfold check, require in Hc.
    destruct (Z.leb_spec (tr_nAmount t) 0); [done|]. lia.
Qed.

Lemma asset_outputs_spec tx addr outs : ∀ i st st',
  asset_outputs fCache fUnit fMsg now btime reissued is_mine tx addr outs i st = Ok st' →
  ao_totals st' = fold_left (fun m p => add_total m p.1 p.2) (omap out_transfer outs) (ao_totals st) ∧
  Forall (fun p => 0 < p.2) (omap out_transfer outs).
Proof.
  induction outs as [|out outs IH]; intros i st st' Hr; cbn [asset_outputs] in Hr; [by injection Hr as <-|].
  destruct (IsAssetScript (scriptPubKey out)) as [a|] eqn:Ha; [|done]. cbn [read rbind] in Hr.
  unfold check, require in Hr. destruct (negb (_ && _ && _)); [|done]. cbn [rbind] in Hr.
  destruct (check_null_out _ _ _ _) as [st1|] eqn:H1; [|done]. cbn [rbind] in Hr.
  destruct (check_asset_move _ _ _ _ _ _ _ _ _ _ _ _) as [st2|] eqn:H2; [|done]. cbn [rbind] in Hr.
  apply check_null_out_totals in H1. apply check_asset_move_totals in H2 as [H2 Hpos].
  - destruct (IH _ _ _ Hr) as [H3 Hall]. rewrite H3, H2, H1. cbn. destruct (out_transfer out) as [p|]; [|done].
    split; [done|]. constructor; auto.
  - destruct a as [a|]; [destruct (as_nType a =? TX_TRANSFER_ASSET) eqn:Ht|]; [by right|left..]; split; try done;
      apply transfer_none; rewrite ?Ha; try done. by intros a' [= <-].
Qed.

Lemma check_balance_spec tin tout : check_balance tin tout = Ok () → ∀ name, tin !! name = tout !! name.
Proof.
  unfold check_balance, check, require. destruct (bool_decide_reflect (map_Forall (fun name n => tin !! name = Some n) tout)) as [Hall|]; [|done].
  cbn [rbind]. destruct (Nat.eqb_spec (map_size tout) (map_size tin)) as [Hs|]; [|done]. intros _.
  assert (tout = tin) as ->; [|done]. apply map_subseteq_size_eq; [apply map_subseteq_spec, Hall|].
  unfold base.size. by rewrite Hs.
Qed.

(** What acceptance by [CheckTxAssets] means for the holdings. *)
Lemma CheckTxAssets_balance U c tx fMem st c' : holds c U →
  CheckTxAssets fCache fUnit fMsg now btime reissued is_mine c tx fMem = Ok (st, c') → IsCoinBase tx = false →
  ∃ coins, input_coins U (vin tx) = Some coins ∧ holds c' U ∧ Forall (fun p => 0 < p.2) (moved tx) ∧
    ∀ name, (name ∈ (held coins).*1 ↔ name ∈ (moved tx).*1) ∧
      i64 (sum_for name (held coins)) = i64 (sum_for name (moved tx)).
Proof.
  intros Hh Hr Hcb. unfold CheckTxAssets, HaveInputs in Hr. rewrite Hcb in Hr.
  destruct (have_inputs_spec U (vin tx) c Hh) as (c1 & Hc1 & Hh1). rewrite Hc1 in Hr.
  unfold check at 1, require in Hr. destruct (bool_decide _); [|done]. cbn [rbind] in Hr.
  destruct (asset_inputs _ _ _ _ _) as [[[tin addr] c2]|] eqn:Hin; [|done]. cbn [rbind] in Hr.
  destruct (asset_outputs _ _ _ _ _ _ _ _ _ _ _ _) as [st1|] eqn:Hout; [|done]. cbn [rbind] in Hr.
  match type of Hr with rbind ?r _ = _ => destruct r as [[]|]; [|done] end. cbn [rbind] in Hr.
  destruct (check_balance tin (ao_totals st1)) as [[]|] eqn:Hbal; [|done]. cbn [rbind] in Hr. injection Hr as -> <-.
  destruct (asset_inputs_spec U _ _ _ _ _ _ _ Hh1 Hin) as (coins & Hcs & Hh2 & ->).
  destruct (asset_outputs_spec _ _ _ _ _ _ Hout) as [Htot Hpos]. exists coins. split_and!; [done..|].
  intros name. pose proof (check_balance_spec _ _ Hbal name) as Heq. rewrite Htot in Heq. cbn [ao_totals] in Heq.
  destruct (fold_add_total (held coins) ∅ name) as [H1 H2]. destruct (fold_add_total (moved tx) ∅ name) as [H3 H4].
  unfold moved in *. cbn zeta in *. rewrite Heq in H1, H2. rewrite lookup_empty in H1, H2, H3, H4. cbn [default] in *. rewrite Z.add_0_l in H2, H4.
  split; [|congruence]. destruct (decide (name ∈ (held coins).*1)), (decide (name ∈ (omap out_transfer (vout tx)).*1)); tauto.
Qed.

(** C4: A transaction that passes CheckTxAssets moves exactly the assets its inputs hold:
    the same names, every moved amount positive, and for each name the amounts of the
    outputs and of the inputs agree modulo 2^64; so they are equal when both sums are
    below 2^63.  The coins of the view are not changed. *)
Theorem asset_balance U c tx fMem st c' : holds c U →
  CheckTxAssets fCache fUnit fMsg now btime reissued is_mine c tx fMem = Ok (st, c') → IsCoinBase tx = false →
  ∃ coins, input_coins U (vin tx) = Some coins ∧ holds c' U ∧ Forall (fun p => 0 < p.2) (moved tx) ∧
    ∀ name, (name ∈ (held coins).*1 ↔ name ∈ (moved tx).*1) ∧
      sum_for name (held coins) mod 2 ^ 64 = sum_for name (moved tx) mod 2 ^ 64 ∧
      (0 <= sum_for name (held coins) < 2 ^ 63 → 0 <= sum_for name (moved tx) < 2 ^ 63 →
       sum_for name (held coins) = sum_for name (moved tx)).
Proof.
  intros Hh Hr Hcb. destruct (CheckTxAssets_balance U c tx fMem st c' Hh Hr Hcb) as (coins & H1 & H2 & H3 & H4).
  exists coins. split_and!; [done..|]. intros name. destruct (H4 name) as [Hn Hi]. split_and!; [done| |].
  - by apply i64_eq_mod.
  - intros Ha Hb. by rewrite !i64_small in Hi.
Qed.

(** C5: Issuing a sub-asset, a unique asset, a message channel or sub-qualifier (in a
    transaction that is not taken for a plain issue), a restricted asset, reissuing,
    tagging an address and freezing: a transaction that does one of these and passes
    CheckTransaction and CheckTxAssets spends a coin that holds the token this needs. *)
Theorem issue_authority U c tx fDup fPool fBlock fMem st c' tok : holds c U →
  CheckTransaction tx fDup fPool fBlock = Ok () →
  CheckTxAssets fCache fUnit fMsg now btime reissued is_mine c tx fMem = Ok (st, c') → IsCoinBase tx = false →
  requires_token tx tok →
  ∃ coins coin n, input_coins U (vin tx) = Some coins ∧ coin ∈ coins ∧ coin_asset coin = Some (tok, n).
Proof.
  intros Hh Hct Hr Hcb Htok. destruct (CheckTxAssets_balance U c tx fMem st c' Hh Hr Hcb) as (coins & H1 & _ & _ & H4).
  pose proof (CheckTransaction_tokens _ _ _ _ _ Hct Htok) as Hm. apply H4 in Hm. exists coins.
  apply list_elem_of_fmap in Hm as ([tok' n] & -> & Hm). apply list_elem_of_omap in Hm as (coin & Hc & Ha). by exists coin, n.
Qed.
End checked.
End balance.

(** ** Concrete transactions *)

Definition with_script (build : CScript → option CScript) : CTxOut :=
  mkTxOut 0 (default [] (GetScriptForDestination (CKeyID (replicate 20 7)) ≫= build)).
Definition transfer_out (name : list Z) (n : Z) : CTxOut := with_script (Transfer_ConstructTransaction (mkTransfer name n [] 0)).

(** The main network with a burn address made with the sample hash function. *)
Definition burn_key : CTxDestination := CKeyID (replicate 20 9).
Definition sample_burns : BurnParams :=
  let a := COIN / 10 in let s := default [] (EncodeDestination (H := toy_crypto) main_prefixes burn_key) in
  mkBurnParams a a a a a a a a a s s s s s s s s s.
Definition sample_env : AssetEnv := {|
  prefixes := main_prefixes; burns := sample_burns; is_testnet := false;
  AreAssetsDeployed := true; AreMessagesDeployed := true; AreRestrictedAssetsDeployed := true;
  AreTransferScriptsSizeDeployed := true; AreEnforcedValuesDeployed := true; AreCoinbaseCheckAssetsDeployed := true;
  indeterminate := INVALID
|}.
Definition burn_out : CTxOut := mkTxOut (COIN / 10) (default [] (GetScriptForDestination burn_key)).

(** A chain with one asset. *)
Definition one_asset (a : CNewAsset) : AssetsView := {|
  view_qualifiers := {| CheckIfAssetExists name := bool_decide (name = na_strName a); CheckForAddressQualifier _ _ := false |};
  CheckForAddressRestriction _ _ := false; CheckForGlobalRestriction _ := false;
  GetAssetMetaDataIfExists name := if decide (name = na_strName a) then Some a else None;
  GetAssetVerifierStringIfExists _ _ := None; mempool_has_asset _ := false
|}.

#[local] Existing Instance lock_time_hash.
Definition asset_AAA : list Z := [65; 65; 65].
Definition token_AAA : list Z := asset_AAA ++ [33].
Definition spend (outs : list CTxOut) : CTransaction := mkTx 2 [mkTxIn sample_outpoint [] SEQUENCE_FINAL []] outs 0.
Definition funded (out : CTxOut) : coins_db := db_with [(sample_outpoint, mkCoin out false 1)].
Definition AAA_with (amount units reissuable : Z) : CNewAsset := mkNewAsset asset_AAA amount units reissuable 0 [].

(** Both checks, the way [AcceptToMemoryPool] and [ConnectBlock] call them. *)
Definition accepted (a : CNewAsset) (coin : CTxOut) (tx : CTransaction) : bool :=
  match CheckTransaction (Cry := toy_crypto) (Env := sample_env) tx true false true,
        CheckTxAssets (Cry := toy_crypto) (Env := sample_env) (AV := one_asset a) true false false 0 0 ∅ (fun _ => true)
          (Cache_new (funded coin)) tx false with
  | Ok _, Ok _ => true
  | _, _ => false
  end.

Definition mint_tx : CTransaction := spend [transfer_out asset_AAA (2 ^ 63 - 1); transfer_out asset_AAA (2 ^ 63 - 1); transfer_out asset_AAA 3].
Definition channel_asset : CNewAsset := mkNewAsset (asset_AAA ++ [126; 67; 72]) COIN 0 0 0 [].
Definition channel_tx : CTransaction :=
  spend [burn_out; with_script (NewAsset_ConstructOwnerTransaction channel_asset); with_script (NewAsset_ConstructTransaction channel_asset)].
Definition reissue_tx (r : CReissueAsset) : CTransaction :=
  spend [burn_out; transfer_out token_AAA COIN; with_script (Reissue_ConstructTransaction r)].


(** ** The rule of reissues *)

(** What is asked of a reissue [r] of an asset with the data [p]; [unissuable] is asked in
    addition when the asset is not reissuable. *)
Definition reissue_allowed {Env : AssetEnv} (unissuable : Prop) (p : CNewAsset) (r : CReissueAsset) : Prop :=
  (0 <= re_nAmount r < MAX_MONEY ∧ -1 <= re_nUnits r <= MAX_UNIT ∧ (reissue_exempt r = true ∨ re_nReissuable r = 0 ∨ re_nReissuable r = 1)) ∧
  (na_nReissuable p = 0 → unissuable) ∧
  (na_nAmount p + re_nAmount r <= MAX_MONEY ∨ 2 ^ 63 <= na_nAmount p + re_nAmount r) ∧
  (10 ^ (MAX_UNIT - na_units p) | re_nAmount r) ∧ (re_nUnits r = -1 ∨ na_units p <= re_nUnits r) ∧
  (re_strIPFSHash r = [] ∨ CheckEncoded (re_strIPFSHash r) = Ok () ∧
     (length (re_strIPFSHash r) = 34%nat ∨ length (re_strIPFSHash r) = 32%nat ∨ AreMessagesDeployed = false)).

Lemma bind_unit (m k : result tx_error ()) : (let? _ := m in k) = Ok () ↔ m = Ok () ∧ k = Ok ().
Proof. destruct m as [[]|]; cbn; [tauto|]. split; [done|]. by intros []. Qed.
Lemma check_iff b s : check b s = Ok () ↔ b = true.
Proof. unfold check, require. by destruct b. Qed.

Lemma CheckReissueAsset_iff {Env : AssetEnv} r : CheckReissueAsset r = Ok () ↔
  0 <= re_nAmount r < MAX_MONEY ∧ -1 <= re_nUnits r <= MAX_UNIT ∧ (reissue_exempt r = true ∨ re_nReissuable r = 0 ∨ re_nReissuable r = 1).
Proof. unfold CheckReissueAsset. rewrite !bind_unit, !check_iff. destruct (reissue_exempt r); lia. Qed.

(** The sum of the amounts is taken in 64 bits. *)
Lemma reissue_sum a n : sfits 64 a → 0 <= n < MAX_MONEY → (i64 (a + n) >? MAX_MONEY) = false ↔ a + n <= MAX_MONEY ∨ 2 ^ 63 <= a + n.
Proof.
  intros Ha Hn. change (- 9223372036854775808 <= a < 9223372036854775808) in Ha. change (2 ^ 63) with 9223372036854775808. change MAX_MONEY with 5000000000000000000 in *.
  rewrite Z.gtb_ltb, Z.ltb_ge. unfold i64, swrap. change (2 ^ (64 - 1)) with 9223372036854775808. change (2 ^ 64) with 18446744073709551616.
  destruct (Z_lt_ge_dec (a + n) 9223372036854775808).
  - rewrite Z.mod_small by lia. lia.
  - rewrite <- (Z.mod_unique (a + n + 9223372036854775808) 18446744073709551616 1 (a + n + 9223372036854775808 - 18446744073709551616)) by lia. lia.
Qed.

Lemma check_reissue_data_iff {Env : AssetEnv} {Cry : Crypto} p r : 0 <= na_units p <= MAX_UNIT → sfits 64 (na_nAmount p) → 0 <= re_nAmount r < MAX_MONEY →
  check_reissue_data (Some p) r = Ok () ↔
  (na_nAmount p + re_nAmount r <= MAX_MONEY ∨ 2 ^ 63 <= na_nAmount p + re_nAmount r) ∧
  (10 ^ (MAX_UNIT - na_units p) | re_nAmount r) ∧ (re_nUnits r = -1 ∨ na_units p <= re_nUnits r) ∧
  (re_strIPFSHash r = [] ∨ CheckEncoded (re_strIPFSHash r) = Ok () ∧
     (length (re_strIPFSHash r) = 34%nat ∨ length (re_strIPFSHash r) = 32%nat ∨ AreMessagesDeployed = false)).
Proof.
  intros Hu Hf Hr. unfold check_reissue_data. rewrite !bind_unit, !check_iff, negb_true_iff, reissue_sum by done.
  unfold check_r, CheckAmountWithUnits. rewrite (proj2 (orb_false_iff _ _)) by (unfold MAX_UNIT in *; lia). cbn [rbind]. rewrite check_iff, Z.eqb_eq.
  assert (Z.rem (re_nAmount r) (10 ^ (MAX_UNIT - na_units p)) = 0 ↔ (10 ^ (MAX_UNIT - na_units p) | re_nAmount r)) as ->.
  { rewrite <- Z.rem_divide by (apply Z.pow_nonzero; unfold MAX_UNIT in *; lia). done. }
  assert (∀ b, negb (b && negb (re_nUnits r =? -1)) = true ↔ re_nUnits r = -1 ∨ b = false) as -> by (intros []; lia). rewrite Z.ltb_ge.
  destruct (re_strIPFSHash r) as [|x l] eqn:Hh; [cbn; tauto|]. set (n := length (x :: l)). assert (n ≠ 0%nat) as Hn by done.
  destruct (n =? 0)%nat eqn:E; [apply Nat.eqb_eq in E; done|]. cbn [negb andb].
  assert (negb (negb (n =? 34)%nat && (AreMessagesDeployed && negb (n =? 32)%nat)) = true ↔ n = 34%nat ∨ n = 32%nat ∨ AreMessagesDeployed = false) as ->.
  { destruct (Nat.eqb_spec n 34), (Nat.eqb_spec n 32), AreMessagesDeployed; cbn; naive_solver. }
  assert (x :: l ≠ []) by done. tauto.
Qed.

(** C35: the rule of reissues.  For an asset whose name is not restricted and a transaction
    with a reissue, the check used for blocks and for the transactions of the network accepts
    exactly what [reissue_allowed] says: the new amount, units and flag in their ranges, the
    amount a multiple of the old unit, the units not below the old ones or left alone, a
    hash that is empty or valid, the sum of the amounts within 5e18 units or at least 2^63,
    where the 64-bit sum has wrapped around; and for an asset that is not reissuable only a
    new hash, with the amount zero and the units left alone.  So the limit on the amount can
    be passed, and a change of the hash can make an asset reissuable that is not.  The check
    used before a transaction is built differs in one condition: there an asset that is not
    reissuable must not be made reissuable, and its hash need not change. *)
Theorem reissue_rules {Cry : Crypto} {Split : BoostSplit} {Env : AssetEnv} {AV : AssetsView} tx r r' address p :
  ReissueAssetFromTransaction tx = Ok (Some (r', address)) → IsAssetNameAnRestricted (re_strName r) = false →
  GetAssetMetaDataIfExists (re_strName r) = Some p → 0 <= na_units p <= MAX_UNIT → sfits 64 (na_nAmount p) →
  (ContextualCheckReissueAsset tx r = Ok () ↔
     reissue_allowed (re_strIPFSHash r ≠ na_strIPFSHash p ∧ re_nAmount r = 0 ∧ re_nUnits r = -1) p r) ∧
  (ContextualCheckReissueAsset_data true r = Ok () ↔
     reissue_allowed (re_nReissuable r ≠ 1 ∧ re_nAmount r = 0 ∧ re_nUnits r = -1) p r).
Proof.
  intros Hr Hn Hp Hu Hf. unfold ContextualCheckReissueAsset, ContextualCheckReissueAsset_data, reissue_allowed. rewrite Hr, Hn, Hp. cbn [get rbind snd].
  rewrite !bind_unit, CheckReissueAsset_iff. destruct (decide (0 <= re_nAmount r < MAX_MONEY)) as [Ha|Ha]; [|tauto]. split.
  - rewrite check_reissue_data_iff by done. destruct (Z.eqb_spec (na_nReissuable p) 0) as [H0|H0]; [|cbn; tauto].
    destruct (bool_decide_reflect (re_strIPFSHash r = na_strIPFSHash p)); cbn [negb andb]; rewrite check_iff; [cbn; naive_solver|].
    destruct (Z.eqb_spec (re_nAmount r) 0), (Z.eqb_spec (re_nUnits r) (-1)); cbn; naive_solver.
  - destruct (Z.eqb_spec (na_nReissuable p) 0) as [H0|H0]; [|cbn [rbind]; rewrite check_reissue_data_iff by done; tauto].
    destruct (Z.eqb_spec (re_nAmount r) 0), (Z.eqb_spec (re_nUnits r) (-1)), (Z.eqb_spec (re_nReissuable r) 1); cbn [check require negb orb rbind];
      rewrite ?check_reissue_data_iff by done; try tauto; split; try done; naive_solver.
Qed.

(** Four transactions that both checks accept, against the intent of the rules.
    Transfers whose amounts add up to 2^64 more than the spent coin holds; a message
    channel issued with an owner token in the place before it, spending no asset at all;
    a reissue that turns an asset that is not reissuable into one that is; and a reissue
    that takes the supply of an asset beyond the 5e18 units allowed, the sum having
    overflowed.  The plain versions of the first two (one unit too many; no owner output)
    are refused. *)
Lemma asset_rule_examples :
  (accepted (AAA_with COIN 8 1) (transfer_out asset_AAA 1) mint_tx = true ∧
   sum_for asset_AAA (moved (Cry := toy_crypto) (Env := sample_env) mint_tx) = 2 ^ 64 + 1 ∧
   accepted (AAA_with COIN 8 1) (transfer_out asset_AAA 1) (spend [transfer_out asset_AAA 2]) = false) ∧
  (accepted (AAA_with COIN 8 1) burn_out channel_tx = true ∧
   IsAssetNameValid (na_strName channel_asset) = Ok MSGCHANNEL ∧
   held (Cry := toy_crypto) (Env := sample_env) [mkCoin burn_out false 1] = [] ∧
   accepted (AAA_with COIN 8 1) burn_out (spend [burn_out; with_script (NewAsset_ConstructTransaction channel_asset)]) = false) ∧
  (let r := mkReissue asset_AAA 0 (-1) 1 (replicate 32 1) in
   accepted (AAA_with COIN 0 0) (transfer_out token_AAA COIN) (reissue_tx r) = true) ∧
  (let r := mkReissue asset_AAA (MAX_MONEY - 1) (-1) 1 [] in
   accepted (AAA_with MAX_MONEY 8 1) (transfer_out token_AAA COIN) (reissue_tx r) = true).
Proof. vm_compute. repeat split. Qed.

(** ** Witnesses *)

Lemma asset_balance_witness :
  let tx := spend [transfer_out asset_AAA 30; transfer_out asset_AAA 12] in
  ∃ coins, sum_for asset_AAA (held (Cry := toy_crypto) (Env := sample_env) coins) = 42 ∧
    sum_for asset_AAA (moved (Cry := toy_crypto) (Env := sample_env) tx) = 42.
Proof.
  set (coin := transfer_out asset_AAA 42). cbn zeta. set (tx := spend _).
  destruct (CheckTxAssets (Cry := toy_crypto) (Env := sample_env) (AV := one_asset (AAA_with COIN 8 1)) true false false 0 0 ∅
    (fun _ => true) (Cache_new (funded coin)) tx false) as [[st c']|] eqn:Hr; [|exfalso; revert Hr; by vm_compute].
  destruct (asset_balance (Cry := toy_crypto) (Env := sample_env) (AV := one_asset (AAA_with COIN 8 1)) true false false 0 0 ∅
    (fun _ => true) _ (Cache_new (funded coin)) tx false st c'
    (db_with_holds [(sample_outpoint, mkCoin coin false 1)] eq_refl) Hr eq_refl) as (coins & Hc & _ & _ & Hn).
  exists coins. assert (sum_for asset_AAA (moved (Cry := toy_crypto) (Env := sample_env) tx) = 42) as Hm by (vm_compute; reflexivity).
  split; [|exact Hm]. rewrite <- Hm. apply (Hn asset_AAA); [|rewrite Hm; lia].
  replace coins with [mkCoin coin false 1] by (revert Hc; vm_compute; congruence). vm_compute. split; [discriminate|reflexivity].
Defined.

Lemma issue_authority_witness :
  let r := mkReissue asset_AAA COIN (-1) 1 [] in let coin := transfer_out token_AAA COIN in
  ∃ coins coin' n, input_coins (fun o => (list_to_map [(sample_outpoint, mkCoin coin false 1)] : gmap COutPoint Coin) !! o)
      (vin (reissue_tx r)) = Some coins ∧ coin' ∈ coins ∧
    coin_asset (Cry := toy_crypto) (Env := sample_env) coin' = Some (token_AAA, n).
Proof.
  cbn zeta. set (r := mkReissue _ _ _ _ _). set (coin := transfer_out token_AAA COIN).
  destruct (CheckTxAssets (Cry := toy_crypto) (Env := sample_env) (AV := one_asset (AAA_with COIN 0 1)) true false false 0 0 ∅
    (fun _ => true) (Cache_new (funded coin)) (reissue_tx r) false) as [[st c']|] eqn:Hr; [|exfalso; revert Hr; by vm_compute].
  apply (issue_authority (Cry := toy_crypto) (Env := sample_env) (AV := one_asset (AAA_with COIN 0 1)) true false false 0 0 ∅
    (fun _ => true) _ (Cache_new (funded coin)) (reissue_tx r) true false true false st c' token_AAA
    (db_with_holds [(sample_outpoint, mkCoin coin false 1)] eq_refl)); [vm_compute; reflexivity|exact Hr|reflexivity|].
  change token_AAA with ((if decide (name_type INVALID (re_strName r) = RESTRICTED) then drop 1 (re_strName r) else re_strName r) ++ OWNER_TAG).
  eapply rt_reissue. vm_compute. reflexivity.
Defined.

Lemma reissue_rules_witness :
  let r := mkReissue asset_AAA 0 (-1) 1 (replicate 32 1) in
  ContextualCheckReissueAsset (Cry := toy_crypto) (Env := sample_env) (AV := one_asset (AAA_with COIN 0 0)) (reissue_tx r) r = Ok ().
Proof.
  cbn zeta. set (r := mkReissue _ _ _ _ _).
  destruct (ReissueAssetFromTransaction (Cry := toy_crypto) (Env := sample_env) (reissue_tx r)) as [[[r' address]|]|] eqn:Hr; [|exfalso; revert Hr; by vm_compute..].
  destruct (reissue_rules (Cry := toy_crypto) (Split := split_at_instance) (Env := sample_env) (AV := one_asset (AAA_with COIN 0 0)) (reissue_tx r) r r' address
    (AAA_with COIN 0 0) Hr) as [Hiff _]; [vm_compute; reflexivity|reflexivity|split; discriminate|split; [discriminate|reflexivity]|]. apply Hiff.
  split; [vm_compute; split; [split; [discriminate|reflexivity]|]; split; [split; discriminate|right; right; reflexivity]|].
  split; [intros _; split; [discriminate|split; reflexivity]|]. split; [left; vm_compute; discriminate|]. split; [exists 0; reflexivity|]. split; [left; reflexivity|].
  right. split; [vm_compute; reflexivity|right; left; reflexivity].
Defined.
