(* ===== verification/ConnectBlock.v ===== *)
(** * Connecting a block: src/src/validation.cpp

    [CheckInputs], the checks and updates of [ConnectBlock] on the coins, the assets and
    the script cache, and the rule on the coinbase.  The block is read from memory: undo
    data and the changed index entry are part of the result, not written to disk.  Left
    out are the address, spent and timestamp indexes, the messages and the wallet.

    A block adds at most its subsidy to the amount of all unspent coins. *)

From Stdlib Require Import String.
From stdpp Require Import gmap.
From S2P Require Import Prelude Serialize ArithUint256 Transaction Chain Pow VersionBits Merkle Script Interpreter SigHash Regex AssetTypes AssetNames Verifier LRUCache Coins Chainstate Base58 Standard AssetScripts AssetChecks AssetsCache AssetStore AssetConnect TxVerify BlockChecks.
Import base_uint.

Open Scope string_scope.
Open Scope list_scope.
Open Scope Z_scope.

(** ** The cache of script verdicts

    [CuckooCache::cache] drops entries at will; what it promises is that it holds nothing
    but what was inserted. *)
Class ExecutionCache (C : Type) := {
  contains : C → uint256 → bool → bool * C;      (* the last argument allows the entry to be dropped *)
  insert : C → uint256 → C;
  cached_in : C → uint256 → Prop;
  contains_cached : ∀ c h erase c', contains c h erase = (true, c') → cached_in c h;
  contains_keeps : ∀ c h erase b c' h', contains c h erase = (b, c') → cached_in c' h' → cached_in c h';
  insert_adds : ∀ c h h', cached_in (insert c h) h' → h' = h ∨ cached_in c h'
}.

Definition MANDATORY_SCRIPT_VERIFY_FLAGS : Z := SCRIPT_VERIFY_P2SH.
Definition STANDARD_SCRIPT_VERIFY_FLAGS : Z :=
  fold_right Z.lor 0 [MANDATORY_SCRIPT_VERIFY_FLAGS; SCRIPT_VERIFY_DERSIG; SCRIPT_VERIFY_STRICTENC; SCRIPT_VERIFY_MINIMALDATA; SCRIPT_VERIFY_NULLDUMMY;
    SCRIPT_VERIFY_DISCOURAGE_UPGRADABLE_NOPS; SCRIPT_VERIFY_CLEANSTACK; SCRIPT_VERIFY_MINIMALIF; SCRIPT_VERIFY_NULLFAIL; SCRIPT_VERIFY_CHECKLOCKTIMEVERIFY;
    SCRIPT_VERIFY_CHECKSEQUENCEVERIFY; SCRIPT_VERIFY_LOW_S; SCRIPT_VERIFY_WITNESS; SCRIPT_VERIFY_DISCOURAGE_UPGRADABLE_WITNESS_PROGRAM;
    SCRIPT_VERIFY_WITNESS_PUBKEYTYPE].
Definition STANDARD_NOT_MANDATORY_VERIFY_FLAGS : Z := Z.land STANDARD_SCRIPT_VERIFY_FLAGS (Z.lnot MANDATORY_SCRIPT_VERIFY_FLAGS).

(** [CScriptCheck]: the output being spent, the transaction and the index of the input.
    The signature cache of the checker does not change a verdict and is left out. *)
Record CScriptCheck := mkScriptCheck { sc_out : CTxOut; sc_tx : CTransaction; sc_nIn : nat; sc_flags : Z }.

Section connect.
Context {V : Type} {View : CCoinsView V} {C : Type} {EC : ExecutionCache C}.
Context {Cry : Crypto} {Pow : PowHash} {Split : BoostSplit} {Env : AssetEnv} {Flags : AssetFlags}.
Variable scriptExecutionCacheNonce : uint256.
Abbreviation cache := (CCoinsViewCache V).

(** [CScriptCheck::operator()] *)
Definition run_check (k : CScriptCheck) : result block_error bool :=
  match nth_error (vin (sc_tx k)) (sc_nIn k) with
  | None => Err (VectorRead (sc_nIn k))
  | Some i =>
      let checker := TransactionSignatureChecker (sc_tx k) (sc_nIn k) (nValue (sc_out k)) (Some (precompute (sc_tx k))) in
      match VerifyScript (H0 := checker) (sc_flags k) (scriptSig i) (scriptPubKey (sc_out k)) (scriptWitness i) with
      | Ok _ => Ok true
      | Err (Fail _) => Ok false
      | Err _ => Err (BlockStopped AssertFailed)
      end
  end.

(** A check that failed: not mandatory if the script passes without the other flags. *)
Definition rejected_check (k : CScriptCheck) : result block_error () :=
  let? soft :=
    if negb (Z.land (sc_flags k) STANDARD_NOT_MANDATORY_VERIFY_FLAGS =? 0)
    then run_check (mkScriptCheck (sc_out k) (sc_tx k) (sc_nIn k) (Z.land (sc_flags k) (Z.lnot STANDARD_NOT_MANDATORY_VERIFY_FLAGS)))
    else Ok false in
  Err (if soft then BlockReject 0 "non-mandatory-script-verify-flag" false else BlockReject 100 "mandatory-script-verify-flag-failed" false).

(** The loop over the inputs; with a queue ([pvChecks]) the checks are only collected. *)
Fixpoint check_scripts (c : cache) (tx : CTransaction) (ins : list CTxIn) (i : nat) (flags : Z) (queue : bool)
    : result block_error (list CScriptCheck * cache) :=
  match ins with
  | [] => Ok ([], c)
  | txin :: ins =>
      let? r := in_block (unspent_coin c (prevout txin)) in
      let '(coin, c) := r in
      let k := mkScriptCheck (c_out coin) tx i flags in
      let? ks :=
        if queue then Ok [k]
        else let? good := run_check k in if good then Ok [] else let? _ := rejected_check k in Ok [] in
      let? r := check_scripts c tx ins (S i) flags queue in
      Ok (ks ++ fst r, snd r)
  end.

(** The key of a transaction in the cache: the first 19 bytes of the nonce, the hash with
    the witness and the flags. *)
Definition cache_entry (tx : CTransaction) (flags : Z) : uint256 :=
  CSHA256 (take 19 scriptExecutionCacheNonce ++ GetWitnessHash tx ++ ser_writedata32 flags).

Definition CheckInputs (c : cache) (e : C) (tx : CTransaction) (fScriptChecks : bool) (flags : Z) (cacheFullScriptStore queue : bool)
    : result block_error (list CScriptCheck * cache * C) :=
  if IsCoinBase tx || negb fScriptChecks then Ok ([], c, e)
  else
    let '(known, e) := contains e (cache_entry tx flags) (negb cacheFullScriptStore) in
    if known then Ok ([], c, e)
    else
      let? r := check_scripts c tx (vin tx) 0 flags queue in
      Ok (fst r, snd r, if cacheFullScriptStore && negb queue then insert e (cache_entry tx flags) else e).

(** ** One transaction *)

(** The asset cache of the block as the contextual checks read it. *)
Definition cache_view (st : asset_state) : AssetsView :=
  let '(a, s) := st in {|
  view_qualifiers := {| Verifier.CheckIfAssetExists name := fst (AssetsCache.CheckIfAssetExists a s name true);
                        Verifier.CheckForAddressQualifier name address := fst (AssetsCache.CheckForAddressQualifier a s name address true) |};
  AssetChecks.CheckForAddressRestriction name address := fst (AssetsCache.CheckForAddressRestriction a s name address true);
  AssetChecks.CheckForGlobalRestriction name := fst (AssetsCache.CheckForGlobalRestriction a s name true);
  AssetChecks.GetAssetMetaDataIfExists name := fst <$> fst (AssetsCache.GetAssetMetaDataIfExists a s name);
  AssetChecks.GetAssetVerifierStringIfExists name skip := fst (AssetsCache.GetAssetVerifierStringIfExists a s name skip);
  mempool_has_asset _ := false
|}.

Record connect_state := mkConnect {
  cs_coins : cache;
  cs_assets : asset_state;
  cs_exec : C;
  cs_nFees : Z;
  cs_nSigOpsCost : Z;
  cs_undo : list (list Coin);                        (* one per transaction *)
  cs_asset_undo : list (list Z * CBlockAssetUndo);
  cs_checks : list CScriptCheck                      (* handed to the script threads *)
}.

(** What [ConnectBlock] reads of the node: script threads, the switches of the message
    store and the wallet, the pending reissues of the memory pool. *)
Record connect_context := mkContext {
  cc_nScriptCheckThreads : bool;
  cc_fMessaging : bool;
  cc_time : Z;
  cc_mapReissuedAssets : gmap (list Z) uint256;
  cc_is_mine : list Z → bool
}.

Fixpoint prev_heights (c : cache) (ins : list CTxIn) : list Z * cache :=
  match ins with
  | [] => ([], c)
  | i :: ins =>
      let '(coin, c) := AccessCoin c (prevout i) in
      let '(hs, c) := prev_heights c ins in (c_nHeight coin :: hs, c)
  end.

Definition no_assets (out : CTxOut) : result block_error () :=
  let? a := in_block (read (IsAssetScript (scriptPubKey out))) in
  let? _ := dos (negb (is_some a)) 100 "bad-txns-assets-not-active" in
  dos (negb (IsNullAsset (scriptPubKey out))) 100 "bad-txns-null-data-assets-not-active".

(** The checks of a transaction that is not the coinbase: the fees with its own, and the
    coins. *)
Definition check_tx (ctx : connect_context) (st : heap) (params : CChainParams) (pindex : ptr) (b : CBlockIndex) (nFees : Z) (c : cache) (a : asset_state)
    (tx : CTransaction) (nTime : Z) : result block_error (Z * cache) :=
  let? r := in_block (CheckTxInputs c tx (bi_nHeight b)) in
  let '(txfee, c) := r in
  let nFees := i64 (nFees + txfee) in
  let? _ := dos (MoneyRange nFees) 100 "bad-txns-accumulated-fee-outofrange" in
  let? c :=
    if AreAssetsDeployed then
      let? r := in_block (CheckTxAssets (AV := cache_view a) true false (cc_fMessaging ctx) (cc_time ctx) nTime (cc_mapReissuedAssets ctx) (cc_is_mine ctx) c tx false) in
      Ok (snd r)
    else let? _ := each_ok no_assets (vout tx) in Ok c in
  let '(prevheights, c) := prev_heights c (vin tx) in
  let nLockTimeFlags := if nCSVEnabled params then LOCKTIME_VERIFY_SEQUENCE else 0 in
  let? r := in_chain (SequenceLocks st tx nLockTimeFlags prevheights pindex) in
  let? _ := dos (snd r) 100 "bad-txns-nonfinal" in
  Ok (nFees, c).

(** [SpendCoin] and [UpdateCoins] with an asset cache.  A coin whose asset cannot be spent
    counts as not spent, and is gone. *)
Definition SpendCoin_assets (c : cache) (st : asset_state) (o : COutPoint) : result block_error (bool * Coin * cache * asset_state) :=
  let? r := in_coins (spend c o) in
  let '(found, coin, c) := r in
  if found && AreAssetsDeployed then
    let? t := in_block (TrySpendCoin st.1 st.2 o (c_out coin)) in Ok (fst t, coin, c, (snd t, st.2))
  else Ok (found, coin, c, st).
Fixpoint spend_inputs_assets (c : cache) (st : asset_state) (ins : list CTxIn) : result block_error (list Coin * cache * asset_state) :=
  match ins with
  | [] => Ok ([], c, st)
  | i :: ins =>
      let? r := SpendCoin_assets c st (prevout i) in
      let '(is_spent, coin, c, st) := r in
      if negb is_spent then Err (BlockCoins AssertionFailed)
      else let? r := spend_inputs_assets c st ins in let '(coins, c, st) := r in Ok (coin :: coins, c, st)
  end.
Definition UpdateCoins (c : cache) (st : asset_state) (tx : CTransaction) (nHeight : Z) (blockHash : uint256)
    : result block_error (list Coin * cache * asset_state * option (list Z * CBlockAssetUndo)) :=
  let? r := if IsCoinBase tx then Ok ([], c, st) else spend_inputs_assets c st (vin tx) in
  let '(spent, c, st) := r in
  let? a := in_block (AddCoins_assets st tx nHeight blockHash) in
  let? c := in_coins (AddCoins c tx nHeight false) in
  Ok (spent, c, fst a, snd a).

Definition connect_tx (ctx : connect_context) (st : heap) (params : CChainParams) (pindex : ptr) (b : CBlockIndex) (block : CBlock)
    (fScriptChecks fJustCheck : bool) (s : connect_state) (tx : CTransaction) : result block_error connect_state :=
  let flags := GetBlockScriptFlags b params in
  let? r :=
    if IsCoinBase tx then Ok (cs_nFees s, cs_coins s)
    else check_tx ctx st params pindex b (cs_nFees s) (cs_coins s) (cs_assets s) tx (nTime (blk_header block)) in
  let '(nFees, c) := r in
  let? r := in_block (GetTransactionSigOpCost c tx flags) in
  let '(cost, c) := r in
  let nSigOpsCost := i64 (cs_nSigOpsCost s + cost) in
  let? _ := dos (negb (nSigOpsCost >? MAX_BLOCK_SIGOPS_COST)) 100 "bad-blk-sigops" in
  let? r :=
    if IsCoinBase tx then Ok ([], c, cs_exec s)
    else CheckInputs c (cs_exec s) tx fScriptChecks flags fJustCheck (cc_nScriptCheckThreads ctx) in
  let '(checks, c, e) := r in
  let? r := UpdateCoins c (cs_assets s) tx (bi_nHeight b) (GetHash (blk_header block)) in
  let '(spent, c, a, undo) := r in
  Ok (mkConnect c a e nFees nSigOpsCost (cs_undo s ++ [spent])
        (cs_asset_undo s ++ match undo with Some u => [u] | None => [] end) (cs_checks s ++ checks)).

Fixpoint connect_loop (ctx : connect_context) (st : heap) (params : CChainParams) (pindex : ptr) (b : CBlockIndex) (block : CBlock)
    (fScriptChecks fJustCheck : bool) (s : connect_state) (txs : list CTransaction) : result block_error connect_state :=
  match txs with
  | [] => Ok s
  | tx :: txs =>
      let? s := connect_tx ctx st params pindex b block fScriptChecks fJustCheck s tx in
      connect_loop ctx st params pindex b block fScriptChecks fJustCheck s txs
  end.

(** ** The coinbase *)

Definition dev_subsidy (h nSubsidy : Z) : Z :=
  if h =? 1 then 320000000 * COIN
  else nSubsidy - Z.quot (50 * nSubsidy) 100.

(** The whole coinbase pays at most the reward, and its second output the developers. *)
Definition check_coinbase (cb : CTransaction) (h nFees : Z) (params : CChainParams) : result block_error () :=
  let nSubsidy := GetBlockSubsidy h (nSubsidyHalvingInterval params) in
  let blockReward := i64 (nFees + nSubsidy) in
  let? value := in_block (value_out (vout cb) 0) in
  let? _ := dos (negb (value >? blockReward)) 100 "bad-cb-amount" in
  let? dest := in_block (assert_some (DecodeDestination prefixes (DevAddress params))) in
  let? script := in_block (assert_some (GetScriptForDestination dest)) in
  let? out := vector_at (vout cb) 1 in
  let? _ := dos (negb (nValue out <? dev_subsidy h nSubsidy)) 100 "bad-cb-community-autonomous-amount" in
  dos (bool_decide (HexStr (scriptPubKey out) = HexStr script)) 100 "bad-cb-community-autonomous-address".

(** ** The block *)

(** Scripts are not run below a block that is assumed valid, two weeks deep. *)
Definition script_checks_needed (t : BlockTree) (params : CChainParams) (pindex : ptr) (b : CBlockIndex) (hashAssumeValid : uint256) (nMinimumChainWork : uint)
    : result block_error bool :=
  match mapBlockIndex t !! hashAssumeValid with
  | Some it =>
      if blob_IsNull hashAssumeValid then Ok true
      else
        let? a := in_chain (GetAncestor (tree_heap t) it (bi_nHeight b)) in
        if negb (bool_decide (a = Some pindex)) then Ok true
        else
          match pindexBestHeader t with
          | None => Err (BlockChain NullDereference)
          | Some best =>
              let? a := in_chain (GetAncestor (tree_heap t) best (bi_nHeight b)) in
              let? bb := in_chain (deref (tree_heap t) best) in
              if negb (bool_decide (a = Some pindex)) || ltb (nChainWork bb) nMinimumChainWork then Ok true
              else
                match GetBlockProofEquivalentTime (nChainWork bb) (nChainWork b) (bi_nBits bb) (nPowTargetSpacing (GetConsensus params)) with
                | Ok time => Ok (time <=? 60 * 60 * 24 * 7 * 2)
                | Err _ => Err (BlockChain UintError)
                end
          end
  | None => Ok true
  end.

(** What a connected block leaves behind: the caches, the undo data of the transactions
    after the first, the undo data of reissues, the index entry, and whether the two kinds
    of undo data go to disk. *)
Record connected_block := mkConnected {
  cb_coins : cache;
  cb_assets : asset_state;
  cb_exec : C;
  cb_undo : list (list Coin);
  cb_asset_undo : list (list Z * CBlockAssetUndo);
  cb_entry : CBlockIndex;
  cb_undo_written : bool;
  cb_asset_undo_written : bool
}.

(** The undo data of a block is written when it connects for the first time; the entry
    says so. *)
Definition write_undo (b : CBlockIndex) : result block_error (CBlockIndex * bool * bool) :=
  let fNoUndo := Z.land (nStatus b) BLOCK_HAVE_UNDO =? 0 in
  let? valid := in_chain (IsValid b BLOCK_VALID_SCRIPTS) in
  if fNoUndo || negb valid then
    let b := if fNoUndo then set_nStatus b (Z.lor (nStatus b) BLOCK_HAVE_UNDO) else b in
    let? r := in_chain (RaiseValidity b BLOCK_VALID_SCRIPTS) in
    Ok (snd r, fNoUndo, true)
  else Ok (b, false, false).

(** [control.Wait()] *)
Definition wait_checks (checks : list CScriptCheck) : result block_error () :=
  each_ok (fun k => let? good := run_check k in dos good 100 "block-validation-failed") checks.

(** An index entry made for a block that is only being checked has no hash. *)
Definition assert_that (b : bool) : result block_error () := if b then Ok () else Err (BlockStopped AssertFailed).

Definition ConnectBlock (ctx : connect_context) (t : BlockTree) (params : CChainParams) (hashAssumeValid : uint256) (nMinimumChainWork : uint)
    (fChecked : bool) (block : CBlock) (pindex : ptr) (c : cache) (a : asset_state) (e : C) (fJustCheck : bool) : result block_error connected_block :=
  let st := tree_heap t in
  let? b := in_chain (deref st pindex) in
  let? _ := assert_that (bool_decide (phashBlock b = []) || blob_eqb (phashBlock b) (GetHash (blk_header block))) in
  let? _ := CheckBlock t fChecked block params (negb fJustCheck) (negb fJustCheck) false in
  let? hashPrevBlock :=
    match pprev b with
    | None => Ok blob_null
    | Some q => let? bq := in_chain (deref st q) in Ok (phashBlock bq)
    end in
  let '(best, c) := Cache_GetBestBlock c in
  let? _ := assert_that (blob_eqb hashPrevBlock best) in
  if blob_eqb (GetHash (blk_header block)) (hashGenesisBlock params) then
    Ok (mkConnected (if fJustCheck then c else SetBestBlock c (phashBlock b)) a e [] [] b false false)
  else
    let? fScriptChecks := script_checks_needed t params pindex b hashAssumeValid nMinimumChainWork in
    let? s := connect_loop ctx st params pindex b block fScriptChecks fJustCheck (mkConnect c a e 0 0 [] [] []) (vtx block) in
    let? cb := vector_at (vtx block) 0 in
    let? _ := check_coinbase cb (bi_nHeight b) (cs_nFees s) params in
    let? _ := wait_checks (cs_checks s) in
    if fJustCheck then Ok (mkConnected (cs_coins s) (cs_assets s) (cs_exec s) (tail (cs_undo s)) (cs_asset_undo s) b false false)
    else
      let? r := write_undo b in
      let '(entry, undo, assets) := r in
      let? _ := assert_that (negb (bool_decide (phashBlock b = []))) in
      Ok (mkConnected (SetBestBlock (cs_coins s) (phashBlock b)) (cs_assets s) (cs_exec s) (tail (cs_undo s)) (cs_asset_undo s) entry undo assets).

(** ** The two parts of [UpdateCoins] *)

Lemma in_coins_Ok {A} (r : result coins_error A) a : in_coins r = Ok a → r = Ok a.
Proof. destruct r; cbn; congruence. Qed.
Lemma in_block_Ok {A} (r : result tx_error A) a : in_block r = Ok a → r = Ok a.
Proof. destruct r as [|[]]; cbn; congruence. Qed.

Lemma spend_inputs_parts ins : ∀ c st spent c' st', spend_inputs_assets c st ins = Ok (spent, c', st') →
  spend_inputs c ins = Ok (spent, c') ∧ (if AreAssetsDeployed then spend_asset_inputs st (zip ins spent) else Ok st) = Ok st'.
Proof.
  induction ins as [|i ins IH]; intros c st spent c' st'; cbn [spend_inputs_assets spend_inputs]; [intros [= <- <- <-]; by destruct AreAssetsDeployed|].
  unfold SpendCoin_assets. destruct (in_coins (spend c (prevout i))) as [[[found coin] c1]|] eqn:Hs; cbn [rbind]; [|done]. apply in_coins_Ok in Hs. rewrite Hs. cbn [rbind].
  destruct found; cbn [negb andb]; [|done]. destruct AreAssetsDeployed eqn:Hd.
  - destruct (in_block (TrySpendCoin st.1 st.2 (prevout i) (c_out coin))) as [[b a]|] eqn:Ht; cbn [rbind]; [|done]. apply in_block_Ok in Ht.
    destruct b; cbn [fst snd negb]; [|done]. destruct (spend_inputs_assets c1 (a, st.2) ins) as [[[coins c2] st2]|] eqn:Hr; cbn [rbind]; [|done].
    intros [= <- <- <-]. apply IH in Hr as [-> Hr]. cbn [rbind fst snd]. split; [done|]. cbn [zip zip_with spend_asset_inputs]. rewrite Ht. exact Hr.
  - cbn [rbind negb]. destruct (spend_inputs_assets c1 st ins) as [[[coins c2] st2]|] eqn:Hr; cbn [rbind]; [|done].
    intros [= <- <- <-]. apply IH in Hr as [-> Hr]. done.
Qed.

Lemma UpdateCoins_parts c st tx nHeight blockHash spent c' st' u : UpdateCoins c st tx nHeight blockHash = Ok (spent, c', st', u) →
  update_coins c tx nHeight = Ok (spent, c') ∧ UpdateCoins_assets st tx spent nHeight blockHash = Ok (st', u).
Proof.
  unfold UpdateCoins, update_coins, UpdateCoins_assets.
  destruct (if IsCoinBase tx then _ else _) as [[[spent1 c1] st1]|] eqn:Hr; cbn [rbind]; [|done].
  assert ((if IsCoinBase tx then Ok ([], c) else spend_inputs c (vin tx)) = Ok (spent1, c1) ∧
    (if AreAssetsDeployed then spend_asset_inputs st (zip (vin tx) spent1) else Ok st) = Ok st1) as [-> Hst].
  { destruct (IsCoinBase tx); [|by apply spend_inputs_parts]. injection Hr as <- <- <-. split; [done|]. destruct AreAssetsDeployed; [|done]. by destruct (vin tx). }
  cbn [rbind fst snd]. destruct (in_block (AddCoins_assets st1 tx nHeight blockHash)) as [a|] eqn:Ha; cbn [rbind]; [|done]. apply in_block_Ok in Ha.
  destruct (in_coins (AddCoins c1 tx nHeight false)) as [c2|] eqn:Hc; cbn [rbind]; [|done]. apply in_coins_Ok in Hc. rewrite Hc. cbn [rbind].
  intros [= <- <- <- <-]. rewrite Hst. cbn [rbind]. rewrite Ha. by destruct a.
Qed.
End connect.
