(* ===== verification/AssetUndo.v ===== *)
(** * Disconnecting a block restores the assets

    [disconnect_assets] takes back what [connect_assets] did to the answers of the look-ups:
    which assets exist, their data, their verifier strings, and who is frozen or tagged.
    The two are first shown to depend on a transaction only through its [effect_of] and
    through the tags and freezes in its outputs. *)

From stdpp Require Import gmap sorting.
From S2P Require Import Prelude Serialize Transaction Script Interpreter Regex AssetTypes AssetNames Verifier LRUCache Coins Chainstate Base58 Standard AssetScripts AssetChecks AssetsCache AssetStore AssetConnect TxVerify AssetBalance.

(** Issues, owner token and verifier string; or a reissue with its new verifier string. *)
Inductive issue_effect :=
  | NoIssue
  | Issue (assets : list (CNewAsset * list Z)) (owner : option (list Z * list Z)) (verifier : option (list Z * list Z))
  | Reissue (r : CReissueAsset) (address : list Z) (out : COutPoint) (verifier : option (list Z)).

Section effects.
Context {Cry : Crypto} {Hash : TxHash} {Split : BoostSplit} {Env : AssetEnv} {Flags : AssetFlags}.
Implicit Types (st : asset_state) (tx : CTransaction).

Fixpoint unique_issues (outs : list CTxOut) : result tx_error (list (CNewAsset * list Z)) :=
  match outs with
  | [] => Ok []
  | out :: outs =>
      let? u := IsScriptNewUniqueAsset (scriptPubKey out) in
      let? l := if is_some u then let? r := must (AssetFromScript (scriptPubKey out)) in Ok [r] else Ok [] in
      let? l' := unique_issues outs in Ok (l ++ l')
  end.
Definition effect_of tx : result tx_error issue_effect :=
  let? new := IsNewAsset tx in
  if new then
    let? r := must (AssetFromTransaction tx) in
    let? o := must (OwnerFromTransaction tx) in
    Ok (Issue [r] (Some o) None)
  else
  let? re := IsReissueAsset tx in
  if re then
    let? r := must (ReissueAssetFromTransaction tx) in
    Ok (Reissue r.1 r.2 (reissue_outpoint tx) (default None (first_verifier (vout tx))))
  else
  let? unique := IsNewUniqueAsset tx in
  if unique then let? l := unique_issues (vout tx) in Ok (Issue l None None)
  else
  let? channel := IsNewMsgChannelAsset tx in
  if channel then let? r := must (MsgChannelAssetFromTransaction tx) in Ok (Issue [r] None None)
  else
  let? qualifier := IsNewQualifierAsset tx in
  if qualifier then let? r := must (QualifierAssetFromTransaction tx) in Ok (Issue [r] None None)
  else
  let? restricted := IsNewRestrictedAsset tx in
  if restricted then
    let? r := must (RestrictedAssetFromTransaction tx) in
    match first_verifier (vout tx) with
    | None => Ok (Issue [r] None None)
    | Some v => let? v := assert_some v in Ok (Issue [r] None (Some (na_strName r.1, v)))
    end
  else Ok NoIssue.

Definition apply_effect st (e : issue_effect) (nHeight : Z) (blockHash : uint256) : asset_state * option (list Z * CBlockAssetUndo) :=
  match e with
  | NoIssue => (st, None)
  | Issue l owner verifier =>
      let '(c, s) := fold_left (fun st r => add_new st r.1 r.2 nHeight blockHash) l st in
      let c := match owner with Some o => AddOwnerAsset c o.1 o.2 | None => c end in
      let c := match verifier with Some v => AddRestrictedVerifier c v.1 v.2 | None => c end in
      ((c, s), None)
  | Reissue r address out v => reissue_step st r address out v
  end.

(** Case-splits the next result both sides bind. *)
Ltac step_result :=
  match goal with |- context [rbind ?r _] => is_var r || destruct r as [?x|?]; cbn [rbind]; [|done] end.

Lemma connect_unique_effect outs nHeight blockHash : ∀ st,
  connect_unique st outs nHeight blockHash =
  let? l := unique_issues outs in Ok (fold_left (fun st r => add_new st r.1 r.2 nHeight blockHash) l st).
Proof.
  induction outs as [|out outs IH]; intros st; [done|]. cbn [connect_unique unique_issues].
  destruct (IsScriptNewUniqueAsset _) as [u|]; cbn [rbind]; [|done]. destruct (is_some u); cbn [rbind].
  - destruct (must _) as [r|]; cbn [rbind]; [|done]. rewrite IH. by destruct (unique_issues outs).
  - rewrite IH. by destruct (unique_issues outs).
Qed.

Lemma connect_issue_effect st tx nHeight blockHash :
  connect_issue st tx nHeight blockHash = let? e := effect_of tx in Ok (apply_effect st e nHeight blockHash).
Proof.
  unfold connect_issue, effect_of, connect_reissue, connect_restricted. step_result. destruct x.
  { do 2 step_result. cbn. by destruct (add_new _ _ _ _ _). }
  step_result. destruct x; [by step_result|].
  step_result. destruct x; [rewrite connect_unique_effect; step_result; cbn; by destruct (fold_left _ _ _)|].
  do 2 (step_result; destruct x; [step_result; cbn; by destruct (add_new _ _ _ _ _)|]).
  step_result. destruct x; [|done]. step_result. destruct (first_verifier _) as [v|].
  - destruct (assert_some v); cbn; by destruct (add_new _ _ _ _ _).
  - cbn. by destruct (add_new _ _ _ _ _).
Qed.

(** ** What a transaction undoes *)

Fixpoint remove_all_new st (l : list (CNewAsset * list Z)) : tri asset_state :=
  match l with
  | [] => Ok (Some st)
  | r :: l => tri_bind (remove_new st r.1 r.2) (fun st => remove_all_new st l)
  end.
Definition undo_effect st (e : issue_effect) (vUndoData : list (list Z * CBlockAssetUndo)) : tri asset_state :=
  match e with
  | NoIssue => Ok (Some st)
  | Issue l owner verifier =>
      tri_bind (remove_all_new st l) (fun st =>
        let c := match owner with Some o => RemoveOwnerAsset st.1 o.1 o.2 | None => st.1 end in
        let c := match verifier with Some v => RemoveRestrictedVerifier c v.1 v.2 false | None => c end in
        Ok (Some (c, st.2)))
  | Reissue r address out _ =>
      let '(b, s) := CheckIfAssetExists st.1 st.2 (re_strName r) true in
      if b then disconnected (RemoveReissueAsset st.1 s r address out vUndoData) else Ok (Some (st.1, s))
  end.

Lemma tri_bind_assoc {A B C} (r : tri A) (f : A → tri B) (g : B → tri C) : tri_bind (tri_bind r f) g = tri_bind r (fun a => tri_bind (f a) g).
Proof. unfold tri_bind. destruct r as [[a|]|]; [|done|done]. cbn [rbind]. by destruct (f a) as [[]|]. Qed.
Lemma must_Ok {A} (r : result tx_error (option A)) a : must r = Ok a → r = Ok (Some a).
Proof. unfold must. destruct r as [[]|]; cbn; congruence. Qed.

Ltac take_must He :=
  match type of He with context [must ?r] =>
    let H := fresh "Hm" in destruct (must r) eqn:H; cbn [rbind] in He; [|done]; apply must_Ok in H; rewrite ?H; cbn [tri_bind rbind] end.

Lemma disconnect_unique_effect outs l : unique_issues outs = Ok l → ∀ st, disconnect_unique st outs = remove_all_new st l.
Proof.
  revert l. induction outs as [|out outs IH]; cbn [unique_issues disconnect_unique]; intros l; [by intros [= <-]|].
  destruct (IsScriptNewUniqueAsset _) as [u|]; cbn [rbind]; [|done]. destruct (is_some u); cbn [rbind].
  - destruct (must _) as [r|] eqn:Hr; cbn [rbind]; [|done]. apply must_Ok in Hr. unfold found. rewrite Hr. cbn [tri_bind rbind].
    destruct (unique_issues outs) as [l'|]; cbn [rbind]; [|done]. intros [= <-] st. cbn. unfold tri_bind.
    destruct (remove_new _ _ _) as [[st'|]|]; cbn [rbind]; [|done|done]. by apply IH.
  - destruct (unique_issues outs) as [l'|]; cbn [rbind]; [|done]. intros [= <-] st. cbn. by apply IH.
Qed.

(** The only verifier output of a restricted issue is also the last. *)
Lemma disconnect_issue_effect st tx e k vUndoData : effect_of tx = Ok e →
  (∀ l o v, e = Issue l o (Some v) → ok_verifier k ≫= AssetNullVerifierDataFromScript = Some v.2) →
  (IsNewRestrictedAsset tx = Ok true → is_Some (first_verifier (vout tx))) →
  disconnect_issue st tx k vUndoData = undo_effect st e vUndoData.
Proof.
  assert (∀ r : tri asset_state, tri_bind r (fun st => Ok (Some (st.1, st.2))) = r) as Hid by by intros [[[]|]|].
  unfold effect_of, disconnect_issue, found. intros He Hv Hr.
  destruct (IsNewAsset tx) as [[]|]; cbn [rbind] in *; [| |done].
  { take_must He. take_must He. injection He as <-. cbn. by destruct (remove_new _ _ _) as [[[]|]|]. }
  destruct (IsReissueAsset tx) as [[]|]; cbn [rbind] in *; [| |done].
  { take_must He. by injection He as <-. }
  destruct (IsNewUniqueAsset tx) as [[]|]; cbn [rbind] in *; [| |done].
  { destruct (unique_issues (vout tx)) as [l|] eqn:Hu; cbn [rbind] in He; [|done]. injection He as <-. cbn. by rewrite Hid, (disconnect_unique_effect _ _ Hu). }
  destruct (IsNewMsgChannelAsset tx) as [[]|]; cbn [rbind] in *; [| |done].
  { take_must He. injection He as <-. cbn. rewrite Hid. by destruct (remove_new _ _ _) as [[[]|]|]. }
  destruct (IsNewQualifierAsset tx) as [[]|]; cbn [rbind] in *; [| |done].
  { take_must He. injection He as <-. cbn. rewrite Hid. by destruct (remove_new _ _ _) as [[[]|]|]. }
  destruct (IsNewRestrictedAsset tx) as [[]|]; cbn [rbind] in *; [| |done]; [|by injection He as <-].
  take_must He. destruct (Hr eq_refl) as [v Hf]. rewrite Hf in He. destruct v as [v|]; [|done]. injection He as <-.
  specialize (Hv _ _ _ eq_refl). destruct (ok_verifier k) as [script|]; [|done]. cbn in Hv |- *. rewrite Hv. by destruct (remove_new _ _ _) as [[[]|]|].
Qed.

(** ** Tags and freezes in outputs *)

Definition null_data (script : CScript) : option (CNullAssetTxData * list Z) :=
  match AssetNullDataFromScript script with Ok r => r | Err _ => None end.
Definition freeze_of (script : CScript) : option (list Z * list Z * RestrictedType) :=
  d ← null_data script;
  if bool_decide (name_type indeterminate (nd_asset_name d.1) = RESTRICTED)
  then Some ((nd_asset_name d.1, d.2), freeze_type (nd_flag d.1)) else None.
Definition tag_of (script : CScript) : option (list Z * list Z * QualifierType) :=
  d ← null_data script;
  let type := name_type indeterminate (nd_asset_name d.1) in
  if bool_decide (type = QUALIFIER) || bool_decide (type = SUB_QUALIFIER)
  then Some ((nd_asset_name d.1, d.2), tag_type (nd_flag d.1)) else None.
Definition global_of (script : CScript) : option (list Z * RestrictedType) :=
  d ← GlobalAssetNullDataFromScript script; Some (nd_asset_name d, global_type (nd_flag d)).

(** The two groups of fields. *)
Definition issues (c : CAssetsCache) := (mapReissuedAssetData c, setNewAssets c, setNewRestrictedVerifier c).
Definition limits (c : CAssetsCache) := (setNewRestrictedAddress c, setNewRestrictedGlobal c, setNewQualifierAddress c).
Abbreviation limit_sets := (dirty (list Z * list Z) RestrictedType * dirty (list Z) RestrictedType * dirty (list Z * list Z) QualifierType)%type.
Definition limits_with (f : ∀ K (EK : EqDecision K) (CK : Countable K) E, K → E → dirty K E → dirty K E) (scripts : list CScript) (l : limit_sets) : limit_sets :=
  (write_all (f _ _ _ _) (omap freeze_of scripts) l.1.1, write_all (f _ _ _ _) (omap global_of scripts) l.1.2,
   write_all (f _ _ _ _) (omap tag_of scripts) l.2).
Abbreviation limits_add := (limits_with (@write_add)).
Abbreviation limits_remove := (limits_with (@write_remove)).

Lemma limits_with_app f s1 s2 l : limits_with f (s1 ++ s2) l = limits_with f s2 (limits_with f s1 l).
Proof. unfold limits_with, write_all. cbn. by rewrite !omap_app, !fold_left_app. Qed.
Lemma core_issues c c' : core c' = core c → issues c' = issues c ∧ limits c' = limits c.
Proof. intros [= H1 H2 H3 H4 H5 H6]. unfold issues, limits. by rewrite H1, H2, H3, H4, H5, H6. Qed.

(** The two kinds of data exclude each other. *)
Lemma null_kinds script : IsNullAssetTxDataScript script = true → GlobalAssetNullDataFromScript script = None.
Proof.
  unfold GlobalAssetNullDataFromScript, IsNullGlobalRestrictionAssetTxDataScript, IsNullAssetTxDataScript.
  rewrite !andb_true_iff. intros [[_ H1] H2]. apply Z.eqb_eq in H2. rewrite H2. cbn. by rewrite !andb_false_r.
Qed.
Lemma null_data_none script : IsNullAssetTxDataScript script = false → null_data script = None.
Proof. unfold null_data, AssetNullDataFromScript. by intros ->. Qed.
Lemma name_type_restricted name : name_type indeterminate name = RESTRICTED →
  bool_decide (name_type indeterminate name = QUALIFIER) || bool_decide (name_type indeterminate name = SUB_QUALIFIER) = false.
Proof. by intros ->. Qed.

Lemma AddQualifier_fields c name address t : issues (AddQualifierAddress c name address t) = issues c ∧
  limits (AddQualifierAddress c name address t) =
    (setNewRestrictedAddress c, setNewRestrictedGlobal c, write_add (name, address) t (setNewQualifierAddress c)).
Proof. unfold AddQualifierAddress, note_root. destruct (IsAssetNameASubQualifier name); [destruct (bool_decide _)|]; done. Qed.
Lemma RemoveQualifier_fields c name address t : issues (RemoveQualifierAddress c name address t) = issues c ∧
  limits (RemoveQualifierAddress c name address t) =
    (setNewRestrictedAddress c, setNewRestrictedGlobal c, write_remove (name, address) t (setNewQualifierAddress c)).
Proof. unfold RemoveQualifierAddress, note_root. destruct (IsAssetNameASubQualifier name); [destruct (bool_decide _)|]; done. Qed.

Lemma connect_output_fields st o script st' : connect_output st o script = Ok st' →
  st'.2 = st.2 ∧ issues st'.1 = issues st.1 ∧ limits st'.1 = limits_add [script] (limits st.1).
Proof.
  destruct st as [c s]. unfold connect_output. intros Hc.
  destruct (GetAssetData script) as [d|]; cbn [rbind] in Hc; [|done].
  match type of Hc with rbind ?r _ = _ => destruct r as [c1|] eqn:Hr; cbn [rbind] in Hc; [|done] end.
  assert (core c1 = core c) as Hcore.
  { destruct d as [d|]; [|by injection Hr as <-]. destruct (_ && _); [|by injection Hr as <-].
    destruct (assert_some _); cbn [rbind] in Hr; [|done]. injection Hr as <-. apply AddTransferAsset_core. }
  apply core_issues in Hcore as [Hi Hl]. unfold limits_with. cbn [omap list_omap].
  unfold freeze_of, tag_of, global_of. cbn [fst snd]. rewrite <- Hi, <- Hl. clear Hi Hl Hr.
  destruct (IsNullAssetTxDataScript script) eqn:Hn.
  - rewrite (null_kinds _ Hn). destruct (must _) as [[d1 ad]|] eqn:Hm; cbn [rbind] in Hc; [|done]. apply must_Ok in Hm.
    unfold null_data. rewrite Hm. cbn. injection Hc as <-. cbn [fst snd]. split; [done|].
    destruct (bool_decide_reflect (name_type indeterminate (nd_asset_name d1) = RESTRICTED)) as [Ht|Ht]; [by rewrite Ht|].
    destruct (_ || _); [|done]. apply AddQualifier_fields.
  - rewrite (null_data_none _ Hn). cbn. destruct (IsNullGlobalRestrictionAssetTxDataScript script) eqn:Hg.
    + destruct (GlobalAssetNullDataFromScript script) as [d1|]; [|done]. by injection Hc as <-.
    + assert (GlobalAssetNullDataFromScript script = None) as -> by (unfold GlobalAssetNullDataFromScript; by rewrite Hg). by injection Hc as <-.
Qed.

Lemma connect_outputs_fields txid outs : ∀ st i st', connect_outputs st txid outs i = Ok st' →
  st'.2 = st.2 ∧ issues st'.1 = issues st.1 ∧ limits st'.1 = limits_add (map scriptPubKey outs) (limits st.1).
Proof.
  induction outs as [|out outs IH]; intros st i st'; cbn [connect_outputs map]; [by intros [= <-]|].
  destruct (connect_output _ _ _) as [st1|] eqn:Ho; cbn [rbind]; [|done]. intros (H1 & H2 & H3)%IH.
  apply connect_output_fields in Ho as (H4 & H5 & H6). rewrite H1, H2, H3, H4, H5, H6. split; [done|]. split; [done|].
  symmetry. apply (limits_with_app _ [_]).
Qed.

Lemma spend_asset_inputs_fields ins : ∀ st st', spend_asset_inputs st ins = Ok st' → st'.2 = st.2 ∧ core st'.1 = core st.1.
Proof.
  induction ins as [|[i coin] ins IH]; intros st st'; cbn [spend_asset_inputs]; [by intros [= <-]|].
  destruct (TrySpendCoin _ _ _ _) as [[b c]|] eqn:Ht; cbn [rbind fst snd]; [|done]. apply TrySpendCoin_core in Ht.
  destruct b; [|done]. intros [H1 H2]%IH. cbn in *. split; congruence.
Qed.

Lemma disconnect_null_fields scripts : ∀ st st', disconnect_null st scripts = Ok (Some st') →
  st'.2 = st.2 ∧ issues st'.1 = issues st.1 ∧ limits st'.1 = limits_remove scripts (limits st.1).
Proof.
  induction scripts as [|script scripts IH]; intros [c s] st'; cbn [disconnect_null]; [by intros [= <-]|]. intros Hd.
  match type of Hd with tri_bind ?r _ = _ => destruct r as [[st1|]|] eqn:Hr; cbn [tri_bind rbind] in Hd; [|done|done] end.
  apply IH in Hd as (H1 & H2 & H3). rewrite H1, H2, H3. change (script :: scripts) with ([script] ++ scripts). rewrite limits_with_app. clear H1 H2 H3.
  cut (st1.2 = s ∧ issues st1.1 = issues c ∧ limits st1.1 = limits_remove [script] (limits c)); [by intros (-> & -> & ->)|].
  unfold limits_with, freeze_of, tag_of, global_of. cbn [omap list_omap fst snd]. destruct (IsNullAssetTxDataScript script) eqn:Hn.
  - rewrite (null_kinds _ Hn). unfold found in Hr. destruct (AssetNullDataFromScript script) as [[[d ad]|]|] eqn:Hm; cbn [tri_bind rbind] in Hr; [|done|done].
    unfold null_data. rewrite Hm. cbn. injection Hr as <-. cbn [fst snd]. split; [done|].
    destruct (bool_decide_reflect (name_type indeterminate (nd_asset_name d) = RESTRICTED)) as [Ht|Ht]; [by rewrite Ht|].
    destruct (_ || _); [|done]. apply RemoveQualifier_fields.
  - rewrite (null_data_none _ Hn). cbn. destruct (IsNullGlobalRestrictionAssetTxDataScript script) eqn:Hg.
    + destruct (GlobalAssetNullDataFromScript script) as [d|]; [|done]. by injection Hr as <-.
    + assert (GlobalAssetNullDataFromScript script = None) as -> by (unfold GlobalAssetNullDataFromScript; by rewrite Hg). by injection Hr as <-.
Qed.

Lemma disconnect_transfers_fields txid outs : ∀ st st', disconnect_transfers st txid outs = Ok (Some st') → st'.2 = st.2 ∧ core st'.1 = core st.1.
Proof.
  induction outs as [|[i script] outs IH]; intros st st'; cbn [disconnect_transfers]; [by intros [= <-]|]. unfold found.
  destruct (TransferAssetFromScript script) as [[r|]|]; cbn [tri_bind rbind]; [|done|done].
  destruct (RemoveTransfer _ _ _ _ _) as [ok c] eqn:Hr. apply RemoveTransfer_core in Hr. destruct ok; [|done].
  intros [H1 H2]%IH. cbn in *. split; congruence.
Qed.

Lemma restore_fields coins : ∀ st b r, restore_asset_inputs st coins b = Ok r → r.1.2 = st.2 ∧ core r.1.1 = core st.1.
Proof.
  induction coins as [|coin coins IH]; intros st b r; cbn [restore_asset_inputs]; [by intros [= <-]|].
  destruct (read _) as [a|]; cbn [rbind]; [|done]. destruct (_ && _); [|apply IH].
  destruct (UndoAssetCoin _ _ _) as [[ok c]|] eqn:Hu; cbn [rbind fst snd]; [|done]. apply UndoAssetCoin_core in Hu.
  intros [H1 H2]%IH. cbn in *. split; congruence.
Qed.

(** ** The outputs as [DisconnectBlock] sorts them *)

Definition verifier_scripts (outs : list CTxOut) : list CScript := List.filter IsNullAssetVerifierTxDataScript (map scriptPubKey outs).

Lemma null_unspendable script : IsNullAsset script = true → IsUnspendable script = Ok true.
Proof.
  unfold IsNullAsset, IsNullAssetTxDataScript, IsNullGlobalRestrictionAssetTxDataScript, IsNullAssetVerifierTxDataScript, IsUnspendable.
  intros Hn. assert ((size script >? 0) && (at_ script 0 =? OP_PHI_ASSET) = true) as ->; [|by case_match].
  rewrite !orb_true_iff, !andb_true_iff, !Z.gtb_lt in Hn. rewrite andb_true_iff, Z.gtb_lt. destruct Hn as [[|]|]; split; (lia || tauto).
Qed.
Lemma no_limits f script l : (IsNullAsset script = false ∨ IsNullAssetVerifierTxDataScript script = true) → limits_with f [script] l = l.
Proof.
  intros Hn. assert (IsNullAssetTxDataScript script = false ∧ IsNullGlobalRestrictionAssetTxDataScript script = false) as [H1 H2].
  { unfold IsNullAsset, IsNullAssetTxDataScript, IsNullGlobalRestrictionAssetTxDataScript, IsNullAssetVerifierTxDataScript in *. destruct Hn as [Hn|Hn].
    - rewrite !orb_false_iff in Hn. tauto.
    - rewrite !andb_true_iff, negb_true_iff in Hn. destruct Hn as [[_ Ha] Hb]. rewrite Hb, andb_false_r. apply Z.eqb_eq in Ha. rewrite Ha. cbn. by rewrite !andb_false_r. }
  unfold limits_with, freeze_of, tag_of, global_of. cbn. rewrite (null_data_none _ H1). cbn.
  assert (GlobalAssetNullDataFromScript script = None) as -> by (unfold GlobalAssetNullDataFromScript; by rewrite H2). by destruct l as [[]].
Qed.

Lemma sort_outputs_spec txid outs : AreRestrictedAssetsDeployed = true → ∀ temp i k k', sort_outputs temp txid outs i k = Ok k' →
  (∀ f l, limits_with f (ok_null k') l = limits_with f (ok_null k ++ map scriptPubKey outs) l) ∧
  ok_verifier k' = match last (verifier_scripts outs) with Some v => Some v | None => ok_verifier k end.
Proof.
  intros Hd. induction outs as [|out outs IH]; intros temp i k k'; cbn [sort_outputs map].
  { intros [= <-]. split; [intros; by rewrite app_nil_r|done]. }
  destruct k as [tr nl ve cl]. destruct (read (IsUnspendable _)) as [u|] eqn:Hu; cbn [rbind]; [|done].
  unfold verifier_scripts. cbn [map List.filter]. fold (verifier_scripts outs).
  set (script := scriptPubKey out) in *. assert (map scriptPubKey outs = [] ++ map scriptPubKey outs) as Happ by done.
  destruct (IsNullAsset script) eqn:Hn.
  - unfold read in Hu. rewrite null_unspendable in Hu by done. injection Hu as <-. cbn [negb]. rewrite Hd. cbn [andb].
    destruct (IsNullAssetVerifierTxDataScript script) eqn:Hv; intros [H1 H2]%IH; cbn [ok_null ok_verifier] in *.
    + split; [|rewrite H2; rewrite last_cons; by destruct (last _)]. intros f l. rewrite H1. change (script :: ?x) with ([script] ++ x).
      rewrite !limits_with_app. by rewrite (no_limits f script) by auto.
    + split; [|done]. intros f l. by rewrite H1, <- app_assoc.
  - assert (IsNullAssetVerifierTxDataScript script = false) as Hv by (unfold IsNullAsset in Hn; rewrite !orb_false_iff in Hn; tauto).
    rewrite Hv, andb_false_r. assert (∀ k2, ok_null k2 = nl → ok_verifier k2 = ve → ∀ temp, sort_outputs temp txid outs (i + 1) k2 = Ok k' →
      (∀ f l, limits_with f (ok_null k') l = limits_with f (nl ++ script :: map scriptPubKey outs) l) ∧
      ok_verifier k' = match last (verifier_scripts outs) with Some v => Some v | None => ve end) as Hstep.
    { intros k2 <- <- temp2 [H1 H2]%IH. split; [|done]. intros f l. rewrite H1. change (script :: ?x) with ([script] ++ x).
      rewrite !limits_with_app. by rewrite (no_limits f script) by auto. }
    destruct u; cbn [negb]; [by apply Hstep|].
    destruct (if AreAssetsDeployed then _ else _) as [r|]; cbn [rbind]; [|done]. destruct (if AreAssetsDeployed then _ else _) as [t|]; cbn [rbind]; [|done].
    by apply Hstep.
Qed.

Lemma find_verifier_single outs v : find_verifier outs None = Ok (Some v) →
  ∃ script, verifier_scripts outs = [script] ∧ AssetNullVerifierDataFromScript script = Some v ∧ first_verifier outs = Some (Some v).
Proof.
  assert (∀ outs v0 r, find_verifier outs (Some v0) = Ok r → verifier_scripts outs = [] ∧ r = Some v0) as Hsome.
  { clear. induction outs as [|out outs IH]; cbn [find_verifier]; intros v0 r; [by intros [= <-]|].
    unfold verifier_scripts. cbn [map List.filter]. destruct (IsNullAssetVerifierTxDataScript _); cbn [negb]; [done|apply IH]. }
  induction outs as [|out outs IH]; cbn [find_verifier first_verifier]; [done|].
  unfold verifier_scripts. cbn [map List.filter]. destruct (IsNullAssetVerifierTxDataScript _); cbn [negb]; [|apply IH].
  cbn [is_some negb check require rbind get]. destruct (AssetNullVerifierDataFromScript _) as [v1|] eqn:Hv; cbn [rbind]; [|done].
  intros [H1 [= ->]]%Hsome. unfold verifier_scripts in H1. rewrite H1. by eexists.
Qed.

Lemma effect_verifier tx l o v : effect_of tx = Ok (Issue l o (Some v)) →
  IsNewRestrictedAsset tx = Ok true ∧ first_verifier (vout tx) = Some (Some v.2) ∧ v.1 ∈ map (fun r => na_strName r.1) l.
Proof.
  unfold effect_of. intros He.
  destruct (IsNewAsset tx) as [[]|]; cbn [rbind] in *; [by do 2 take_must He| |done].
  destruct (IsReissueAsset tx) as [[]|]; cbn [rbind] in *; [by take_must He| |done].
  destruct (IsNewUniqueAsset tx) as [[]|]; cbn [rbind] in *; [by destruct (unique_issues _)| |done].
  destruct (IsNewMsgChannelAsset tx) as [[]|]; cbn [rbind] in *; [by take_must He| |done].
  destruct (IsNewQualifierAsset tx) as [[]|]; cbn [rbind] in *; [by take_must He| |done].
  destruct (IsNewRestrictedAsset tx) as [[]|]; cbn [rbind] in *; [|done|done].
  take_must He. destruct (first_verifier _) as [[v1|]|]; [|done|done]. injection He as <- <- <-. cbn. split; [done|]. split; [done|]. by left.
Qed.
End effects.

(** ** Issues and reissues of a block *)

Definition issue_names (e : issue_effect) : list (list Z) :=
  match e with Issue l _ _ => map (fun r => na_strName r.1) l | _ => [] end.
Definition reissue_names (e : issue_effect) : list (list Z) :=
  match e with Reissue r _ _ _ => [re_strName r] | _ => [] end.

(** The amount and the units are those of a [CAmount] and an [int8_t]. *)
Definition typed (a : CNewAsset) : Prop := sfits 64 (na_nAmount a) ∧ sfits 8 (na_units a).
(** The flag says whether the asset has a hash. *)
Definition hash_flag (a : CNewAsset) : Prop := na_nHasIPFS a = if decide (na_strIPFSHash a = []) then 0 else 1.
(** What undoing a reissue makes of the data [a] before it: everything comes back, but the
    asset can be reissued, and the flag is right if it was. *)
Definition restored (a a' : CNewAsset) : Prop :=
  na_strName a' = na_strName a ∧ na_nAmount a' = na_nAmount a ∧ na_units a' = na_units a ∧ na_strIPFSHash a' = na_strIPFSHash a ∧
  na_nReissuable a' = 1 ∧ (hash_flag a → na_nHasIPFS a' = na_nHasIPFS a).

Section undo.
Context {Cry : Crypto} {Hash : TxHash} {Split : BoostSplit} {Env : AssetEnv} {Flags : AssetFlags}.
Context (D : gset (list Z * list Z)).
Implicit Types (st : asset_state) (tx : CTransaction) (e : issue_effect).

Definition verifier_change e : option (list Z * list Z) :=
  match e with
  | Issue _ _ v => v
  | Reissue r _ _ (Some v) => if bool_decide (name_type indeterminate (re_strName r) = RESTRICTED) then Some (re_strName r, v) else None
  | _ => None
  end.

(** The answers of a state without a block's cache. *)
Definition exists_at (s : asset_store) := exists_in AssetsCache_new (passets s) (passetsdb s).
Definition meta_at (s : asset_store) := meta_in AssetsCache_new (passets s) (passetsdb s).
Definition verifier_at (s : asset_store) := verifier_in false AssetsCache_new (passets s) (prestricteddb s).
Definition same_store (s0 s : asset_store) : Prop := store_ok D s ∧ same_state s0 s.

(** What a block remembers about a reissue. *)
Definition undo_record (s : asset_store) e : option (list Z * CBlockAssetUndo) :=
  match e with
  | Reissue r _ _ _ =>
      a ← meta_at s (re_strName r);
      let ipfs := negb (bool_decide (re_strIPFSHash r = [])) in
      let units := negb (re_nUnits r =? -1) in
      let ver := is_some (verifier_change e) in
      if ipfs || units || ver
      then Some (re_strName r, mkAssetUndo ipfs units (na_strIPFSHash a) (na_units a) ASSET_UNDO_INCLUDES_VERIFIER_STRING ver
                                 (if ver then default [] (verifier_at s (re_strName r)) else []))
      else None
  | _ => None
  end.

(** The effects of a block that the checks accept over [s]. *)
Record block_ok (s : asset_store) (es : list issue_effect) : Prop := {
  bo_nodup : NoDup (flat_map (fun e => issue_names e ++ reissue_names e) es);
  bo_issue : ∀ k, k ∈ flat_map issue_names es →
    exists_at s k = false ∧ verifier_at s k = None ∧ meta_at s k = None ∧ ToRemove (setNewAssets (passets s)) !! k = None;
  bo_reissue : ∀ r address out v, Reissue r address out v ∈ es → ∃ a,
    meta_at s (re_strName r) = Some a ∧ na_strName a = re_strName r ∧ exists_at s (re_strName r) = true ∧ typed a;
  bo_verifier : ∀ e k v, e ∈ es → verifier_change e = Some (k, v) →
    k ∈ issue_names e ++ reissue_names e ∧ (k ∈ reissue_names e → is_Some (verifier_at s k))
}.

(** *** A cache that does not mention a name *)

Lemma exists_untouched c s k : ToAdd (setNewAssets c) !! k = None → ToRemove (setNewAssets c) !! k = None →
  exists_in c (passets s) (passetsdb s) k = exists_at s k.
Proof. intros H1 H2. unfold exists_at, exists_in, layered. rewrite H1, H2. cbn. by rewrite !lookup_empty. Qed.
Lemma meta_untouched c s k : mapReissuedAssetData c !! k = None →
  ToAdd (setNewAssets c) !! k = None → ToRemove (setNewAssets c) !! k = None →
  meta_in c (passets s) (passetsdb s) k = meta_at s k.
Proof.
  intros H0 H1 H2. unfold meta_at, meta_in, layered. rewrite !lookup_union, H0, H1, H2. cbn. rewrite !lookup_empty. by destruct (mapReissuedAssetData _ !! k).
Qed.
Lemma verifier_untouched c s k : ToAdd (setNewRestrictedVerifier c) !! k = None → ToRemove (setNewRestrictedVerifier c) !! k = None →
  verifier_in false c (passets s) (prestricteddb s) k = verifier_at s k.
Proof. intros H1 H2. unfold verifier_at, verifier_in, layered, own. rewrite H1, H2. cbn. by rewrite !lookup_empty. Qed.

Lemma same_store_step s0 s s' : same_store s0 s → store_ok D s' → same_state s s' → same_store s0 s'.
Proof. intros [_ (H1 & H2 & H3)] Hs (H4 & H5 & H6). split; [done|]. unfold same_state. split_and!; congruence. Qed.

(** *** Issues *)

Definition added_assets (I : list (list Z)) c : Prop :=
  ∀ k, ToRemove (setNewAssets c) !! k = None ∧ (is_Some (ToAdd (setNewAssets c) !! k) ↔ k ∈ I).
Definition removed_assets (I : list (list Z)) c : Prop :=
  ∀ k, ToAdd (setNewAssets c) !! k = None ∧ (is_Some (ToRemove (setNewAssets c) !! k) ↔ k ∈ I).

(** The other fields that matter. *)
Definition besides (c : CAssetsCache) := (mapReissuedAssetData c, setNewRestrictedVerifier c, limits c).

Lemma add_new_spec s0 I st a address h b : same_store s0 st.2 → added_assets I st.1 → exists_at s0 (na_strName a) = false →
  let st' := add_new st a address h b in
  same_store s0 st'.2 ∧ added_assets (I ++ [na_strName a]) st'.1 ∧ besides st'.1 = besides st.1.
Proof.
  intros Hs Hi He. unfold add_new, AddNewAsset. destruct st as [c s]. cbn [fst snd] in *.
  pose proof (CheckIfAssetExists_spec D c s (na_strName a) (proj1 Hs)) as Hc. destruct (CheckIfAssetExists c s (na_strName a) true) as [x s'].
  destruct Hc as (Hx & H1 & H2). pose proof (same_store_step _ _ _ Hs H1 H2) as Hs'. cbn zeta.
  assert (x = true → na_strName a ∈ I) as Hin.
  { intros ->. destruct Hs as [_ (E1 & E2 & _)]. rewrite E1, E2 in Hx. destruct (decide (na_strName a ∈ I)) as [|Hn]; [done|].
    destruct (Hi (na_strName a)) as [Hr Ha]. rewrite exists_untouched in Hx; [congruence|apply eq_None_not_Some; tauto|done]. }
  destruct x; cbn [fst snd].
  - split; [done|]. split; [|done]. intros k. destruct (Hi k) as [Hr Ha]. split; [done|]. rewrite Ha, elem_of_app, list_elem_of_singleton.
    split; [auto|]. intros [Hk| ->]; auto.
  - set (c1 := set_assets _ c). assert (core (if_index (put_amount (na_strName a) address (na_nAmount a)) c1) = core c1) as Hcore by by apply if_index_core.
    split; [done|]. split.
    + intros k. rewrite (marks_assets _ _ (core_marks _ _ Hcore)). cbn. destruct (Hi k) as [Hr Ha]. rewrite kset_insert_lookup, elem_of_app, list_elem_of_singleton, <- Ha.
      split; [apply lookup_delete_None; by right|]. destruct (ToAdd (setNewAssets c) !! k); [split; eauto|].
      destruct (decide (k = na_strName a)); [split; eauto|]. split; [by intros [? [=]]|]. by intros [[? [=]]|].
    + injection Hcore as H3 H4 H5 H6 H7 H8. unfold besides, limits. by rewrite H3, H5, H6, H7, H8.
Qed.

Lemma add_all_spec s0 h b l : ∀ I st, same_store s0 st.2 → added_assets I st.1 → (∀ k, k ∈ issue_names (Issue l None None) → exists_at s0 k = false) →
  let st' := fold_left (fun st r => add_new st r.1 r.2 h b) l st in
  same_store s0 st'.2 ∧ added_assets (I ++ issue_names (Issue l None None)) st'.1 ∧ besides st'.1 = besides st.1.
Proof.
  induction l as [|r l IH]; intros I st Hs Hi He; cbn [fold_left issue_names map].
  - split; [done|]. split; [by rewrite app_nil_r|done].
  - destruct (add_new_spec s0 I st r.1 r.2 h b Hs Hi) as (H1 & H2 & H3); [apply He; by left|].
    destruct (IH _ _ H1 H2) as (H4 & H5 & H6); [intros k Hk; apply He; by right|].
    split; [done|]. split; [by rewrite <- app_assoc in H5|congruence].
Qed.

Lemma remove_new_spec s0 I st a address : same_store s0 st.2 → removed_assets I st.1 → exists_at s0 (na_strName a) = true → na_strName a ∉ I →
  ∃ st', remove_new st a address = Ok (Some st') ∧
    same_store s0 st'.2 ∧ removed_assets (I ++ [na_strName a]) st'.1 ∧ besides st'.1 = besides st.1.
Proof.
  intros Hs Hi He Hn. destruct st as [c s]. cbn [fst snd] in *. destruct (Hi (na_strName a)) as [Ha Hr].
  assert (exists_in c (passets s) (passetsdb s) (na_strName a) = true) as Hx.
  { destruct Hs as [_ (E1 & E2 & _)]. rewrite E1, E2, exists_untouched; [done|done|apply eq_None_not_Some; tauto]. }
  unfold remove_new, RemoveNewAsset. cbn [fst snd].
  pose proof (CheckIfAssetExists_spec D c s (na_strName a) (proj1 Hs)) as Hc. destruct (CheckIfAssetExists c s (na_strName a) true) as [x s1].
  destruct Hc as (-> & H1 & H2). rewrite Hx. pose proof (same_store_step _ _ _ Hs H1 H2) as Hs1.
  pose proof (CheckIfAssetExists_spec D c s1 (na_strName a) (proj1 Hs1)) as Hc. destruct (CheckIfAssetExists c s1 (na_strName a) true) as [x2 s2].
  destruct Hc as (-> & H3 & H4). destruct H2 as (E1 & E2 & _). rewrite E1, E2, Hx. cbn [negb disconnected].
  pose proof (same_store_step _ _ _ Hs1 H3 H4) as Hs2. eexists. split; [done|]. cbn [fst snd]. split; [done|].
  set (c1 := set_assets _ c). assert (core (if_index (put_amount (na_strName a) address 0) c1) = core c1) as Hcore by by apply if_index_core.
  split.
  - intros k. rewrite (marks_assets _ _ (core_marks _ _ Hcore)). cbn. destruct (Hi k) as [Hak Hrk]. rewrite kset_insert_lookup, elem_of_app, list_elem_of_singleton, <- Hrk.
    split; [apply lookup_delete_None; by right|]. destruct (ToRemove (setNewAssets c) !! k); [split; eauto|].
    destruct (decide (k = na_strName a)); [split; eauto|]. split; [by intros [? [=]]|]. by intros [[? [=]]|].
  - injection Hcore as H5 H6 H7 H8 H9 H10. unfold besides, limits. by rewrite H5, H7, H8, H9, H10.
Qed.

Lemma remove_all_spec s0 l : ∀ I st, same_store s0 st.2 → removed_assets I st.1 →
  (∀ k, k ∈ issue_names (Issue l None None) → exists_at s0 k = true) → NoDup (I ++ issue_names (Issue l None None)) →
  ∃ st', remove_all_new st l = Ok (Some st') ∧
    same_store s0 st'.2 ∧ removed_assets (I ++ issue_names (Issue l None None)) st'.1 ∧ besides st'.1 = besides st.1.
Proof.
  induction l as [|r l IH]; intros I st Hs Hi He Hnd; cbn [remove_all_new issue_names map] in *.
  - eexists. split; [done|]. split; [done|]. split; [by rewrite app_nil_r|done].
  - destruct (remove_new_spec s0 I st r.1 r.2 Hs Hi) as (st1 & -> & H1 & H2 & H3); [apply He; by left| |].
    { intros Hin. apply NoDup_app in Hnd as (_ & Hd & _). apply (Hd _ Hin). by left. }
    cbn [tri_bind rbind]. destruct (IH _ _ H1 H2) as (st2 & -> & H4 & H5 & H6); [intros k Hk; apply He; by right|by rewrite <- app_assoc|].
    eexists. split; [done|]. split; [done|]. split; [by rewrite <- app_assoc in H5|congruence].
Qed.

(** *** Reissues *)

Lemma undone_reissue s r address out v a : typed a → meta_at s (re_strName r) = Some a →
  restored a (undone_data (reissued_data a r) r (snd <$> undo_record s (Reissue r address out v))).
Proof.
  intros (Hn & Hu) Ha. assert (i64 (i64 (na_nAmount a + re_nAmount r) - re_nAmount r) = na_nAmount a) as Hamount.
  { rewrite i64_sub_l. replace (na_nAmount a + re_nAmount r - re_nAmount r) with (na_nAmount a) by lia. by apply swrap_id. }
  assert (swrap 8 (na_units a) = na_units a) as Hunits by by apply swrap_id.
  unfold undo_record, restored, hash_flag. rewrite Ha. cbn [mbind option_bind]. unfold reissued_data. destruct a as [n am u re hi h]. cbn in *.
  destruct (bool_decide_reflect (re_strIPFSHash r = [])) as [Hi|Hi]; destruct (Z.eqb_spec (re_nUnits r) (-1)) as [Hun|Hun]; cbn.
  all: rewrite ?(decide_True _ _ Hi), ?(decide_False _ _ Hi).
  all: try (destruct (is_some _)); cbn; rewrite ?Hamount, ?Hunits; split_and!; try done.
  all: intros ->; by destruct (decide (h = [])).
Qed.

(** *** One effect after another *)

Definition names e : list (list Z) := issue_names e ++ reissue_names e.
Definition verifier_names (es : list issue_effect) : list (list Z) := (omap verifier_change es).*1.
Definition reissued_as (f : CNewAsset → CReissueAsset → CNewAsset) (s : asset_store) (es : list issue_effect) (c : CAssetsCache) : Prop :=
  (∀ k, k ∉ flat_map reissue_names es → mapReissuedAssetData c !! k = None) ∧
  (∀ r address out v a, Reissue r address out v ∈ es → meta_at s (re_strName r) = Some a → mapReissuedAssetData c !! re_strName r = Some (f a r)).
Definition verifiers_added (es : list issue_effect) (c : CAssetsCache) : Prop :=
  ∀ k, ToRemove (setNewRestrictedVerifier c) !! k = None ∧ (k ∉ verifier_names es → ToAdd (setNewRestrictedVerifier c) !! k = None).
Definition verifiers_removed (s : asset_store) (es : list issue_effect) (c : CAssetsCache) : Prop :=
  ∀ k, ToAdd (setNewRestrictedVerifier c) !! k = None ∧ (k ∉ verifier_names es → ToRemove (setNewRestrictedVerifier c) !! k = None) ∧
    (k ∈ verifier_names es → ∃ x, ToRemove (setNewRestrictedVerifier c) !! k = Some x ∧ removed_verifier x = verifier_at s k).

Lemma names_app (f : issue_effect → list (list Z)) es e : flat_map f (es ++ [e]) = flat_map f es ++ f e.
Proof. rewrite flat_map_app. cbn. by rewrite app_nil_r. Qed.
Lemma verifier_names_app es e : verifier_names (es ++ [e]) = verifier_names es ++ (fst <$> option_list (verifier_change e)).
Proof. unfold verifier_names. rewrite omap_app, fmap_app. cbn. by destruct (verifier_change e). Qed.
Lemma elem_of_flat_map {A B} (f : A → list B) l y : y ∈ flat_map f l ↔ ∃ x, x ∈ l ∧ y ∈ f x.
Proof. rewrite list_elem_of_In, in_flat_map. by setoid_rewrite <- list_elem_of_In. Qed.

Lemma names_fresh all done e rest k : NoDup (flat_map names all) → all ≡ₚ done ++ e :: rest → k ∈ names e →
  k ∉ flat_map issue_names done ∧ k ∉ flat_map reissue_names done ∧ (∀ e', e' ∈ done → k ∉ names e').
Proof.
  intros Hnd Hp Hk. assert (NoDup (flat_map names (done ++ e :: rest))) as Hnd2.
  { eapply (NoDup_Permutation_proper); [|exact Hnd]. symmetry. by apply Permutation_flat_map. }
  rewrite flat_map_app in Hnd2. apply NoDup_app in Hnd2 as (_ & Hd & _).
  assert (∀ e', e' ∈ done → k ∉ names e') as He.
  { intros e' He' Hke. apply (Hd k). - apply elem_of_flat_map. eauto. - cbn. apply elem_of_app. by left. }
  split_and!; [| |done]; intros (e' & H1 & H2)%elem_of_flat_map; apply (He e' H1); apply elem_of_app; auto.
Qed.

Lemma verifier_fresh s all done e rest k : block_ok s all → all ≡ₚ done ++ e :: rest → k ∈ names e → k ∉ verifier_names done.
Proof.
  intros Hb Hp Hk Hin. unfold verifier_names in Hin. apply list_elem_of_fmap in Hin as ([k' v] & -> & Hv). apply list_elem_of_omap in Hv as (e' & He' & Hv).
  destruct (names_fresh all done e rest k') as (_ & _ & Hf); [apply Hb|done|done|]. apply (Hf e' He').
  eapply (bo_verifier s all Hb e' k' v); [|done]. rewrite Hp. apply elem_of_app. by left.
Qed.

Lemma reissue_step_spec s0 c s r address out v a : same_store s0 s → meta_at s0 (re_strName r) = Some a → na_strName a = re_strName r →
  mapReissuedAssetData c !! re_strName r = None →
  ToAdd (setNewAssets c) !! re_strName r = None → ToRemove (setNewAssets c) !! re_strName r = None →
  ToAdd (setNewRestrictedVerifier c) !! re_strName r = None → ToRemove (setNewRestrictedVerifier c) !! re_strName r = None →
  let '(c', s', u) := reissue_step (c, s) r address out v in
  same_store s0 s' ∧ setNewAssets c' = setNewAssets c ∧ limits c' = limits c ∧
  mapReissuedAssetData c' = <[re_strName r := reissued_data a r]> (mapReissuedAssetData c) ∧
  setNewRestrictedVerifier c' =
    match verifier_change (Reissue r address out v) with
    | Some (k, v) => note_add k (mkCacheVerifier v false) (setNewRestrictedVerifier c)
    | None => setNewRestrictedVerifier c
    end ∧ u = undo_record s0 (Reissue r address out v).
Proof.
  intros Hs Ha Hn Hr Ha1 Hr1 Hv1 Hv2. unfold reissue_step.
  assert (∀ s, same_store s0 s → meta_in c (passets s) (passetsdb s) (re_strName r) = Some a) as Hmeta.
  { intros s1 [_ (E1 & E2 & _)]. by rewrite E1, E2, meta_untouched. }
  pose proof (GetAssetMetaData_spec D c s (re_strName r) (proj1 Hs)) as Hg. destruct (GetAssetMetaDataIfExists c s (re_strName r)) as [o s1].
  destruct Hg as (Ho & H1 & H2). rewrite (Hmeta s Hs) in Ho. rewrite Ho. cbn [default]. unfold id. pose proof (same_store_step _ _ _ Hs H1 H2) as Hs1.
  pose proof (AddReissueAsset_core c s1 r address out) as Hadd. destruct (AddReissueAsset c s1 r address out) as [[ok c2] s2].
  pose proof (GetAssetMetaData_spec D c s1 (re_strName r) (proj1 Hs1)) as Hg. destruct (GetAssetMetaDataIfExists c s1 (re_strName r)) as [o2 s3].
  destruct Hg as (Ho2 & H3 & H4). rewrite (Hmeta s1 Hs1) in Ho2. destruct o2 as [[a2 b2]|]; [|done]. injection Ho2 as ->.
  destruct Hadd as (-> & _ & Hm & Hre). rewrite Hr in Hre. cbn [default] in Hre. pose proof (same_store_step _ _ _ Hs1 H3 H4) as Hs3.
  injection Hm as M1 M2 M3 M4 M5. unfold undo_record. rewrite Ha. cbn [mbind option_bind]. rewrite Hn. unfold verifier_change.
  assert (limits c2 = limits c) as Hl by (unfold limits; by rewrite M3, M4, M5).
  destruct v as [v|]; [|done]. destruct (bool_decide _); [|done]. rewrite <- M2.
  pose proof (GetAssetVerifier_spec D c2 s3 (re_strName r) false (proj1 Hs3)) as Hg.
  destruct (GetAssetVerifierStringIfExists c2 s3 (re_strName r) false) as [old s4]. destruct Hg as (-> & H5 & H6).
  assert (verifier_in false c2 (passets s3) (prestricteddb s3) (re_strName r) = verifier_at s0 (re_strName r)) as ->.
  { destruct Hs3 as [_ (E1 & _ & E3)]. rewrite E1, E3, verifier_untouched; [done|by rewrite M2..]. }
  split_and!; try done. by eapply same_store_step.
Qed.

Definition connected (s : asset_store) (es : list issue_effect) (c : CAssetsCache) : Prop :=
  added_assets (flat_map issue_names es) c ∧ reissued_as reissued_data s es c ∧ verifiers_added es c.

Lemma verifiers_note_add es c k x d : verifiers_added es c → d = note_add k x (setNewRestrictedVerifier c) →
  ∀ k', ToRemove d !! k' = None ∧ (k' ∉ verifier_names es ++ [k] → ToAdd d !! k' = None).
Proof.
  intros Hv -> k'. cbn. destruct (Hv k') as [H1 H2]. split; [apply lookup_delete_None; by right|].
  rewrite kset_insert_lookup, not_elem_of_app, list_elem_of_singleton. intros [H3 H4]. rewrite H2 by done. by rewrite decide_False.
Qed.

Lemma connect_effect_spec s0 all done e rest st h b : block_ok s0 all → all = done ++ e :: rest → same_store s0 st.2 → connected s0 done st.1 →
  let '(st', u) := apply_effect st e h b in
  same_store s0 st'.2 ∧ connected s0 (done ++ [e]) st'.1 ∧ limits st'.1 = limits st.1 ∧ u = undo_record s0 e.
Proof.
  intros Hb Hall Hs (HA & HR & HV). assert (all ≡ₚ done ++ e :: rest) as Hperm by by rewrite Hall.
  assert (e ∈ all) as He by (rewrite Hall; apply elem_of_app; right; by left).
  assert (∀ c, connected s0 done c → connected s0 (done ++ [NoIssue]) c) as Hno.
  { intros c (H1 & [H2 H3] & H4). unfold connected, added_assets, reissued_as, verifiers_added. rewrite !names_app, verifier_names_app. cbn. rewrite !app_nil_r.
    split_and!; try done. intros r ad out v a Hin. apply (H3 r ad out v a). apply elem_of_app in Hin as [|Hin]; [done|]. by apply list_elem_of_singleton in Hin. }
  destruct e as [|l owner ver|r address out v]; cbn [apply_effect].
  - split_and!; try done. by apply Hno.
  - destruct (add_all_spec s0 h b l _ _ Hs HA) as (H1 & H2 & H3).
    { intros k Hk. apply (bo_issue s0 all Hb). apply elem_of_flat_map. eauto. }
    cbn zeta in *. destruct (fold_left _ l st) as [c s]. cbn [fst snd] in *.
    set (c1 := match owner with Some o => _ | None => c end). set (c2 := match ver with Some v => _ | None => c1 end).
    assert (core c1 = core c) as Hc1 by (subst c1; destruct owner; [unfold AddOwnerAsset; by rewrite if_index_core|done]).
    injection H3 as B1 B2 B3 B4 B5. injection Hc1 as C1 C2 C3 C4 C5 C6.
    assert (besides c2 = (mapReissuedAssetData c1, setNewRestrictedVerifier c2, limits c1) ∧ setNewAssets c2 = setNewAssets c1) as [Hb2 Ha2] by (subst c2; by destruct ver).
    injection Hb2 as D1 D2 D3 D4. unfold connected, added_assets, reissued_as, verifiers_added.
    rewrite !names_app, verifier_names_app. cbn [issue_names reissue_names verifier_change]. rewrite app_nil_r, Ha2, C2, D1, C1, B1.
    split; [done|]. split; [|split; [unfold limits; congruence|done]]. split; [apply H2|]. split.
    + split; [apply HR|]. intros r ad out v a Hin. apply (proj2 HR r ad out v a). apply elem_of_app in Hin as [|Hin]; [done|]. by apply list_elem_of_singleton in Hin.
    + assert (verifiers_added done c1) as HV1 by (unfold verifiers_added; by rewrite C3, B2). subst c2. destruct ver as [[k v]|]; cbn [option_list fmap list_fmap fst].
      * by eapply verifiers_note_add.
      * rewrite app_nil_r. apply HV1.
  - destruct (bo_reissue s0 all Hb r address out v He) as (a & Ha & Hn & _ & _). destruct st as [c s]. cbn [fst snd] in *.
    destruct (names_fresh all done _ rest (re_strName r) (bo_nodup s0 all Hb) Hperm) as (F1 & F2 & _); [by left|].
    destruct (HA (re_strName r)) as [A1 A2]. destruct (HV (re_strName r)) as [V1 V2].
    pose proof (reissue_step_spec s0 c s r address out v a Hs Ha Hn) as Hstep. destruct (reissue_step (c, s) r address out v) as [[c' s'] u].
    destruct Hstep as (H1 & H2 & H3 & H4 & H5 & H6); [by apply HR|apply eq_None_not_Some; tauto|done| |done|].
    { apply V2. eapply verifier_fresh; [done..|]. by left. }
    cbn [fst snd]. split; [done|]. split; [|done]. unfold connected, added_assets, reissued_as, verifiers_added.
    rewrite !names_app, verifier_names_app. cbn [issue_names reissue_names]. rewrite app_nil_r, H2, H4. split; [done|]. split; [split|].
    + intros k. rewrite not_elem_of_app, list_elem_of_singleton. intros [K1 K2]. rewrite lookup_insert_ne by done. by apply HR.
    + intros r' ad out' v' a' Hin Ha'. apply elem_of_app in Hin as [Hin|Hin].
      * rewrite lookup_insert_ne; [by eapply HR|]. intros Heq. apply F2. apply elem_of_flat_map. eexists. split; [exact Hin|]. cbn. rewrite Heq. by left.
      * apply list_elem_of_singleton in Hin. injection Hin as -> -> -> ->. rewrite lookup_insert_eq. congruence.
    + rewrite H5. destruct (verifier_change _) as [[k x]|]; cbn [option_list fmap list_fmap fst]; [by eapply verifiers_note_add|]. rewrite app_nil_r. apply HV.
Qed.

(** *** Undoing *)

(** The data of an asset after its reissue was undone with the records [u]. *)
Definition undone_with (u : list (list Z * CBlockAssetUndo)) (a : CNewAsset) (r : CReissueAsset) : CNewAsset :=
  undone_data (reissued_data a r) r (find_undo (re_strName r) u).
Definition undone (s : asset_store) (u : list (list Z * CBlockAssetUndo)) (es : list issue_effect) (c : CAssetsCache) : Prop :=
  removed_assets (flat_map issue_names es) c ∧ reissued_as (undone_with u) s es c ∧ verifiers_removed s es c.

(** A state [s1] that answers as the block left it. *)
Record after_block (s0 : asset_store) (all : list issue_effect) (s1 : asset_store) : Prop := {
  ab_exists : ∀ e k, e ∈ all → k ∈ names e → exists_at s1 k = true;
  ab_meta : ∀ r address out v a, Reissue r address out v ∈ all → meta_at s0 (re_strName r) = Some a →
    meta_at s1 (re_strName r) = Some (reissued_data a r)
}.

Lemma RemoveReissueAsset_fields s1 c s r address out u asset : same_store s1 s → meta_in c (passets s) (passetsdb s) (re_strName r) = Some asset →
  let '(ok, c', s') := RemoveReissueAsset c s r address out u in
  same_store s1 s' ∧ setNewAssets c' = setNewAssets c ∧ limits c' = limits c ∧
  mapReissuedAssetData c' = <[na_strName asset := undone_data asset r (find_undo (re_strName r) u)]> (mapReissuedAssetData c) ∧
  setNewRestrictedVerifier c' =
    match find_undo (re_strName r) u with
    | Some x => if au_fChangedVerifierString x then note_remove (na_strName asset) (mkCacheVerifier (au_verifierString x) true) (setNewRestrictedVerifier c)
                else setNewRestrictedVerifier c
    | None => setNewRestrictedVerifier c
    end ∧ (fAssetIndex = false → ok = true).
Proof.
  intros Hs Ha. unfold RemoveReissueAsset.
  pose proof (GetAssetMetaData_spec D c s (re_strName r) (proj1 Hs)) as Hg. destruct (GetAssetMetaDataIfExists c s (re_strName r)) as [o s2].
  destruct Hg as (Ho & H1 & H2). rewrite Ha in Ho. destruct o as [[a b]|]; [|done]. injection Ho as ->. pose proof (same_store_step _ _ _ Hs H1 H2) as Hs2.
  destruct (issue_block b) as [h bh].
  match goal with |- context [if fAssetIndex then let '(_, _) := GetBestAssetAddressAmount ?c2 _ _ _ in _ else _] => set (c1 := c2) end.
  assert (setNewAssets c1 = setNewAssets c ∧ limits c1 = limits c ∧
    mapReissuedAssetData c1 = <[na_strName asset := undone_data asset r (find_undo (re_strName r) u)]> (mapReissuedAssetData c) ∧
    setNewRestrictedVerifier c1 = match find_undo (re_strName r) u with
    | Some x => if au_fChangedVerifierString x then note_remove (na_strName asset) (mkCacheVerifier (au_verifierString x) true) (setNewRestrictedVerifier c)
                else setNewRestrictedVerifier c
    | None => setNewRestrictedVerifier c end) as Hc1.
  { subst c1. destruct (find_undo (re_strName r) u) as [x|]; [destruct (au_fChangedVerifierString x)|]; done. }
  clearbody c1. destruct fAssetIndex; [|by destruct Hc1 as (-> & -> & -> & ->)].
  pose proof (best_core c1 s2 (re_strName r) address) as Hb. destruct (GetBestAssetAddressAmount c1 s2 (re_strName r) address) as [f c2].
  injection Hb as B1 B2 B3 B4 B5 B6. destruct Hc1 as (C1 & C2 & C3 & C4).
  destruct (negb f && _); cbn; unfold limits in *; cbn; rewrite ?B1, ?B2, ?B3, ?B4, ?B5, ?B6; split_and!; done.
Qed.

Lemma find_undo_record s0 all r address out v : NoDup (flat_map names all) → Reissue r address out v ∈ all →
  find_undo (re_strName r) (omap (undo_record s0) all) = snd <$> undo_record s0 (Reissue r address out v).
Proof.
  assert (∀ e x, undo_record s0 e = Some x → x.1 ∈ names e) as Hname.
  { intros [| |r' ad o v'] x; cbn [undo_record]; [done|done|]. destruct (meta_at s0 _); cbn; [|done]. destruct (_ || _); [|done]. intros [= <-]. by left. }
  assert (∀ k l, k ∉ flat_map names l → find_undo k (omap (undo_record s0) l) = None) as Hnone.
  { intros k l Hk. unfold find_undo. destruct (list_find _ _) as [[i x]|] eqn:Hf; [|done]. apply list_find_Some in Hf as (Hi & Hx & _).
    apply list_elem_of_lookup_2, list_elem_of_omap in Hi as (e & He & Hu). exfalso. apply Hk, elem_of_flat_map. exists e. split; [done|]. rewrite <- Hx. by apply Hname. }
  induction all as [|e all IH]; [by intros _ ?%not_elem_of_nil|]. cbn [flat_map]. rewrite NoDup_app, elem_of_cons. intros (_ & Hd & Hnd) [<-|Hin].
  - cbn [omap list_omap]. assert (re_strName r ∉ flat_map names all) as Hn by (apply Hd; by left).
    pose proof (Hname (Reissue r address out v)) as Hx. destruct (undo_record s0 (Reissue r address out v)) as [[k u]|]; [|by apply Hnone].
    specialize (Hx _ eq_refl). cbn in Hx. apply list_elem_of_singleton in Hx as ->. unfold find_undo. cbn. by rewrite decide_True.
  - specialize (IH Hnd Hin). cbn [omap list_omap]. destruct (undo_record s0 e) as [[k u]|] eqn:He; [|done].
    assert (k ≠ re_strName r) as Hk.
    { intros ->. apply (Hd (re_strName r)); [by apply (Hname e _ He)|]. apply elem_of_flat_map. eexists. split; [exact Hin|]. by left. }
    unfold find_undo in *. cbn. rewrite decide_False by done. etrans; [|exact IH]. by destruct (list_find _ _) as [[]|].
Qed.

Lemma verifiers_note_remove s0 es c k x d : verifiers_removed s0 es c → k ∉ verifier_names es → removed_verifier x = verifier_at s0 k →
  d = note_remove k x (setNewRestrictedVerifier c) →
  ∀ k', ToAdd d !! k' = None ∧ (k' ∉ verifier_names es ++ [k] → ToRemove d !! k' = None) ∧
    (k' ∈ verifier_names es ++ [k] → ∃ x, ToRemove d !! k' = Some x ∧ removed_verifier x = verifier_at s0 k').
Proof.
  intros Hv Hk Hx -> k'. cbn. destruct (Hv k') as (H1 & H2 & H3). split; [apply lookup_delete_None; by right|].
  rewrite kset_insert_lookup, not_elem_of_app, elem_of_app, list_elem_of_singleton. split.
  - intros [H4 H5]. rewrite H2 by done. by rewrite decide_False.
  - destruct (decide (k' = k)) as [->|Hne]; [rewrite H2 by done; eauto|]. intros [Hin|]; [|done]. destruct (H3 Hin) as (y & -> & Hy). eauto.
Qed.

Lemma issue_names_nodup all done e rest : NoDup (flat_map names all) → all ≡ₚ done ++ e :: rest → NoDup (flat_map issue_names done ++ issue_names e).
Proof.
  intros Hnd Hp. assert (NoDup (flat_map names (done ++ e :: rest))) as Hnd2.
  { eapply (NoDup_Permutation_proper); [|exact Hnd]. symmetry. by apply Permutation_flat_map. }
  eapply sublist_NoDup; [exact Hnd2|]. assert (∀ l, sublist (flat_map issue_names l) (flat_map names l)) as Hs.
  { induction l as [|x l IH]; [done|]. cbn. apply sublist_app; [|done]. apply sublist_inserts_r. done. }
  rewrite flat_map_app. cbn [flat_map]. apply sublist_app; [apply Hs|]. unfold names. rewrite <- app_assoc. by apply sublist_inserts_r.
Qed.

(** Effects without a reissue leave the record of reissues alone. *)
Lemma reissued_keep f s0 es e c c' : reissued_as f s0 es c → reissue_names e = [] → mapReissuedAssetData c' = mapReissuedAssetData c → reissued_as f s0 (es ++ [e]) c'.
Proof.
  intros [H1 H2] Hn Hc. unfold reissued_as. rewrite names_app, Hn, app_nil_r, Hc. split; [done|]. intros r ad out v a Hin. apply (H2 r ad out v a).
  apply elem_of_app in Hin as [|Hin]; [done|]. apply list_elem_of_singleton in Hin. by subst e.
Qed.

Lemma record_verifier {A} s0 r address out v a (f : list Z → A) (y : A) : meta_at s0 (re_strName r) = Some a →
  match snd <$> undo_record s0 (Reissue r address out v) with
  | Some x => if au_fChangedVerifierString x then f (au_verifierString x) else y
  | None => y
  end = match verifier_change (Reissue r address out v) with Some _ => f (default [] (verifier_at s0 (re_strName r))) | None => y end.
Proof.
  intros Ha. unfold undo_record. rewrite Ha. cbn [mbind option_bind]. destruct (verifier_change _); cbn [is_some].
  - by rewrite orb_true_r.
  - by destruct (_ || _).
Qed.

Section undo_step.
Context (s0 : asset_store) (all : list issue_effect) (s1 : asset_store) (done : list issue_effect) (rest : list issue_effect).
Context (Hb : block_ok s0 all) (Hab : after_block s0 all s1).

Definition undo_spec st e : Prop :=
  ∃ o, undo_effect st e (omap (undo_record s0) all) = Ok o ∧ (fAssetIndex = false → is_Some o) ∧
    ∀ st', o = Some st' → same_store s1 st'.2 ∧ undone s0 (omap (undo_record s0) all) (done ++ [e]) st'.1 ∧ limits st'.1 = limits st.1.

Lemma undo_issue st l owner ver : let e := Issue l owner ver in all ≡ₚ done ++ e :: rest → same_store s1 st.2 → undone s0 (omap (undo_record s0) all) done st.1 → undo_spec st e.
Proof.
  intros e Hperm Hs (HA & HR & HV). assert (e ∈ all) as He by (rewrite Hperm; apply elem_of_app; right; by left). unfold undo_spec. cbn [undo_effect e].
  destruct (remove_all_spec s1 l _ _ Hs HA) as (st1 & -> & H1 & H2 & H3).
  { intros k Hk. apply (ab_exists s0 all s1 Hab _ k He). apply elem_of_app. by left. }
  { eapply (issue_names_nodup all done e rest); [apply Hb|done]. }
  cbn [tri_bind rbind]. destruct st1 as [c s]. cbn [fst snd] in *.
  set (c1 := match owner with Some o => _ | None => c end). set (c2 := match ver with Some v => _ | None => c1 end).
  assert (core c1 = core c) as Hc1 by (subst c1; destruct owner; [unfold RemoveOwnerAsset; by rewrite if_index_core|done]).
  injection H3 as B1 B2 B3 B4 B5. injection Hc1 as C1 C2 C3 C4 C5 C6.
  assert (besides c2 = (mapReissuedAssetData c1, setNewRestrictedVerifier c2, limits c1) ∧ setNewAssets c2 = setNewAssets c1) as [Hb2 Ha2] by (subst c2; by destruct ver).
  injection Hb2 as D1 D2 D3 D4. eexists. split; [done|]. split; [eauto|]. intros st' [= <-]. cbn [fst snd].
  split; [done|]. split; [|unfold limits; congruence]. split_and!.
  - unfold removed_assets. rewrite names_app, Ha2, C2. apply H2.
  - eapply reissued_keep; [exact HR|done|congruence].
  - unfold verifiers_removed. rewrite verifier_names_app. cbn [verifier_change e].
    assert (verifiers_removed s0 done c1) as HV1 by (unfold verifiers_removed; by rewrite C3, B2). subst c2. destruct ver as [[k v]|]; cbn [option_list fmap list_fmap fst].
    + destruct (bo_verifier s0 all Hb _ k v He eq_refl) as [Hk _]. eapply verifiers_note_remove; [done|by eapply verifier_fresh| |done].
      cbn. symmetry. apply (bo_issue s0 all Hb). apply elem_of_flat_map. eexists. split; [exact He|]. cbn in *. by rewrite app_nil_r in Hk.
    + rewrite app_nil_r. apply HV1.
Qed.

Lemma undo_reissue st r address out v : let e := Reissue r address out v in all ≡ₚ done ++ e :: rest → same_store s1 st.2 → undone s0 (omap (undo_record s0) all) done st.1 → undo_spec st e.
Proof.
  intros e Hperm Hs (HA & HR & HV). assert (e ∈ all) as He by (rewrite Hperm; apply elem_of_app; right; by left). unfold undo_spec. cbn [undo_effect e].
  destruct (bo_reissue s0 all Hb r address out v He) as (a & Ha & Hn & _ & Hu). destruct st as [c s]. cbn [fst snd] in *.
  destruct (names_fresh all done _ rest (re_strName r) (bo_nodup s0 all Hb) Hperm) as (F1 & F2 & _); [by left|].
  destruct (HA (re_strName r)) as [A1 A2]. assert (ToRemove (setNewAssets c) !! re_strName r = None) as A3 by (apply eq_None_not_Some; tauto).
  pose proof (CheckIfAssetExists_spec D c s (re_strName r) (proj1 Hs)) as Hc. destruct (CheckIfAssetExists c s (re_strName r) true) as [x s2].
  destruct Hc as (-> & H1 & H2). pose proof (same_store_step _ _ _ Hs H1 H2) as Hs2. destruct Hs as [_ (E1 & E2 & _)].
  rewrite E1, E2, exists_untouched, (ab_exists s0 all s1 Hab _ _ He) by (done || by left).
  assert (meta_in c (passets s2) (passetsdb s2) (re_strName r) = Some (reissued_data a r)) as Hm.
  { destruct Hs2 as [_ (E3 & E4 & _)]. rewrite E3, E4, meta_untouched; [by eapply (ab_meta s0 all s1 Hab)|by apply HR|done|done]. }
  pose proof (RemoveReissueAsset_fields s1 c s2 r address out (omap (undo_record s0) all) _ Hs2 Hm) as Hf.
  destruct (RemoveReissueAsset _ _ _ _ _ _) as [[ok c'] s3]. destruct Hf as (R1 & R2 & R3 & R4 & R5 & R6). cbn [disconnected].
  assert (na_strName (reissued_data a r) = re_strName r) as Hn2 by (rewrite <- Hn; unfold reissued_data; by destruct (decide _)).
  rewrite Hn2 in R4, R5. rewrite (find_undo_record s0 all r address out v) in R5 by (done || apply Hb).
  eexists. split; [done|]. split; [intros Hi; rewrite R6 by done; eauto|]. intros st' Hst. destruct ok; [|done]. injection Hst as <-. cbn [fst snd].
  split; [done|]. split; [|done]. split_and!.
  - unfold removed_assets. rewrite names_app, R2. cbn. rewrite app_nil_r. apply HA.
  - unfold reissued_as. rewrite names_app, R4. cbn [reissue_names e]. split.
    + intros k. rewrite not_elem_of_app, list_elem_of_singleton. intros [K1 K2]. rewrite lookup_insert_ne by done. by apply HR.
    + intros r' ad out' v' a' Hin Ha'. apply elem_of_app in Hin as [Hin|Hin].
      * rewrite lookup_insert_ne; [by eapply HR|]. intros Heq. apply F2. apply elem_of_flat_map. eexists. split; [exact Hin|]. cbn. rewrite Heq. by left.
      * apply list_elem_of_singleton in Hin. injection Hin as -> -> -> ->. rewrite lookup_insert_eq. unfold undone_with. congruence.
  - pose proof (record_verifier s0 r address out v a (fun w => note_remove (re_strName r) (mkCacheVerifier w true) (setNewRestrictedVerifier c))
      (setNewRestrictedVerifier c) Ha) as Hrec. cbn beta in Hrec. rewrite Hrec in R5. unfold verifiers_removed. rewrite verifier_names_app, R5.
    assert (∀ k x, verifier_change e = Some (k, x) → k = re_strName r) as Hk by (intros k x; unfold e; cbn; destruct v; [destruct (bool_decide _)|]; congruence).
    fold e. destruct (verifier_change e) as [[k x]|] eqn:Hv; cbn [option_list fmap list_fmap fst]; [|rewrite app_nil_r; apply HV].
    rewrite (Hk k x eq_refl) in *. eapply verifiers_note_remove; [exact HV|eapply (verifier_fresh s0 all done e rest); [done|done|by left]| |done].
    destruct (bo_verifier s0 all Hb e _ _ He Hv) as [_ Hsome]. destruct Hsome as [y Hy]; [by left|]. cbn. by rewrite Hy.
Qed.

Lemma undo_effect_spec st e : all ≡ₚ done ++ e :: rest → same_store s1 st.2 → undone s0 (omap (undo_record s0) all) done st.1 → undo_spec st e.
Proof.
  destruct e as [|l owner ver|r address out v]; [|apply undo_issue|apply undo_reissue]. intros _ Hs (HA & HR & HV).
  eexists. split; [done|]. split; [eauto|]. intros st' [= <-]. split; [done|]. split; [|done]. split_and!.
  - unfold removed_assets. rewrite names_app, app_nil_r. apply HA.
  - by eapply reissued_keep.
  - unfold verifiers_removed. rewrite verifier_names_app, app_nil_r. apply HV.
Qed.
End undo_step.

(** ** Blocks *)

Abbreviation limits_add := (limits_with (@write_add)).
Abbreviation limits_remove := (limits_with (@write_remove)).

Fixpoint effects_of (txs : list (CTransaction * list Coin)) : result tx_error (list issue_effect) :=
  match txs with
  | [] => Ok []
  | p :: txs => let? e := effect_of p.1 in let? es := effects_of txs in Ok (e :: es)
  end.
Definition scripts_of (txs : list (CTransaction * list Coin)) : list CScript := flat_map (fun p => map scriptPubKey (vout p.1)) txs.

Lemma connected_issues s es c c' : issues c' = issues c → connected s es c → connected s es c'.
Proof. intros [= H1 H2 H3]. unfold connected, added_assets, reissued_as, verifiers_added. by rewrite H1, H2, H3. Qed.
Lemma undone_issues s u es c c' : issues c' = issues c → undone s u es c → undone s u es c'.
Proof. intros [= H1 H2 H3]. unfold undone, removed_assets, reissued_as, verifiers_removed. by rewrite H1, H2, H3. Qed.

Lemma UpdateCoins_assets_spec s0 all done e rest st tx spent h b r : AreAssetsDeployed = true → block_ok s0 all → all = done ++ e :: rest →
  effect_of tx = Ok e → same_store s0 st.2 → connected s0 done st.1 → UpdateCoins_assets st tx spent h b = Ok r →
  same_store s0 r.1.2 ∧ connected s0 (done ++ [e]) r.1.1 ∧ limits r.1.1 = limits_add (map scriptPubKey (vout tx)) (limits st.1) ∧ r.2 = undo_record s0 e.
Proof.
  intros Hd Hb Hall He Hs Hc. unfold UpdateCoins_assets, AddCoins_assets. rewrite Hd.
  destruct (spend_asset_inputs st _) as [st1|] eqn:H1; cbn [rbind]; [|done]. apply spend_asset_inputs_fields in H1 as [H1 H2].
  rewrite connect_issue_effect, He. cbn [rbind]. apply core_issues in H2 as [H2 H3]. rewrite <- H1 in Hs. apply (connected_issues _ _ _ _ H2) in Hc.
  pose proof (connect_effect_spec s0 all done e rest st1 h b Hb Hall Hs Hc) as Hstep. destruct (apply_effect st1 e h b) as [st2 u].
  destruct Hstep as (S1 & S2 & S3 & S4). cbn [fst snd]. destruct (connect_outputs _ _ _ _) as [st3|] eqn:H4; cbn [rbind]; [|done].
  apply connect_outputs_fields in H4 as (O1 & O2 & O3). intros [= <-]. cbn [fst snd]. rewrite O1, O3, S3, H3.
  split; [done|]. split; [by eapply connected_issues|done].
Qed.

Lemma connect_assets_spec s0 all h b txs : AreAssetsDeployed = true → block_ok s0 all → ∀ done es st r, all = done ++ es → effects_of txs = Ok es →
  same_store s0 st.2 → connected s0 done st.1 → connect_assets st txs h b = Ok r →
  same_store s0 r.1.2 ∧ connected s0 all r.1.1 ∧ limits r.1.1 = limits_add (scripts_of txs) (limits st.1) ∧ r.2 = omap (undo_record s0) es.
Proof.
  intros Hd Hb. induction txs as [|[tx spent] txs IH]; intros done es st r Hall; cbn [effects_of connect_assets].
  { intros [= <-] Hs Hc [= <-]. rewrite app_nil_r in Hall. subst all. by split_and!. }
  cbn [fst]. destruct (effect_of tx) as [e|] eqn:He; cbn [rbind]; [|done]. destruct (effects_of txs) as [es'|]; cbn [rbind]; [|done].
  intros [= <-] Hs Hc. destruct (UpdateCoins_assets st tx spent h b) as [r1|] eqn:Hu; cbn [rbind]; [|done].
  destruct (UpdateCoins_assets_spec _ _ _ _ _ _ _ _ _ _ _ Hd Hb Hall He Hs Hc Hu) as (U1 & U2 & U3 & U4).
  destruct (connect_assets r1.1 txs h b) as [r2|] eqn:Hr2; cbn [rbind]; [|done]. intros [= <-]. cbn [fst snd].
  destruct (IH (done ++ [e]) es' r1.1 r2) as (I1 & I2 & I3 & I4); [by rewrite Hall, <- app_assoc|done..|].
  split; [done|]. split; [done|]. split; [|cbn; rewrite U4, I4; by destruct (undo_record s0 e)].
  rewrite I3, U3. unfold scripts_of. cbn [flat_map fst]. by rewrite limits_with_app.
Qed.

(** *** What [CheckTransaction] has read before *)

Record readable_out (out : CTxOut) : Prop := {
  ro_unspendable : is_ok (IsUnspendable (scriptPubKey out)) = true;
  ro_asset : is_ok (output_asset (scriptPubKey out)) = true;
  ro_transfer : ∀ i, IsScriptTransferAsset (scriptPubKey out) = Ok (Some i) → ∃ r, TransferAssetFromScript (scriptPubKey out) = Ok (Some r);
  ro_data : IsNullAssetTxDataScript (scriptPubKey out) = true → ∃ r, AssetNullDataFromScript (scriptPubKey out) = Ok (Some r);
  ro_global : IsNullGlobalRestrictionAssetTxDataScript (scriptPubKey out) = true → is_Some (GlobalAssetNullDataFromScript (scriptPubKey out))
}.
Record readable_tx (p : CTransaction * list Coin) : Prop := {
  rt_outs : Forall readable_out (vout p.1);
  rt_coins : Forall (fun coin => is_ok (output_asset (scriptPubKey (c_out coin))) = true) p.2;
  rt_verifier : IsNewRestrictedAsset p.1 = Ok true → ∃ v, GetVerifierStringFromTx p.1 = Ok (Some v)
}.

Lemma is_ok_Ok {E A} (r : result E A) : is_ok r = true → ∃ a, r = Ok a.
Proof. destruct r; [eauto|done]. Qed.
Lemma output_asset_read script : is_ok (output_asset script) = true → is_ok (read (IsAssetScript script)) = true.
Proof. unfold output_asset. by destruct (read (IsAssetScript script)). Qed.
Lemma transfer_script_read script : is_ok (output_asset script) = true → is_ok (IsScriptTransferAsset script) = true.
Proof.
  intros H%output_asset_read. unfold IsScriptTransferAsset, asset_start, read in *. destruct (IsAssetScript script) as [[a|]|]; cbn; done.
Qed.
Lemma TrySpendCoin_total c s o out : is_ok (output_asset (scriptPubKey out)) = true → is_ok (TrySpendCoin c s o out) = true.
Proof.
  intros [r Hr]%is_ok_Ok. unfold TrySpendCoin. rewrite Hr. cbn [rbind]. destruct r as [[[[n a] x]|]|]; [|done|done].
  destruct (decide (a = [])); [done|]. destruct (decide (n = [])); [done|]. destruct (fAssetIndex && _); [|done]. by destruct (GetBestAssetAddressAmount _ _ _ _) as [[] ?].
Qed.
Lemma UndoAssetCoin_total c s coin : is_ok (output_asset (scriptPubKey (c_out coin))) = true → is_ok (UndoAssetCoin c s coin) = true.
Proof.
  intros [r Hr]%is_ok_Ok. unfold UndoAssetCoin. rewrite Hr. cbn [rbind]. destruct r as [[[[n a] x]|]|]; [|done|done].
  destruct (decide (n = [])); [done|]. destruct (decide (a = [])); [done|]. by destruct (x =? 0).
Qed.

(** [SpendCoin] on the copy: the verdict does not depend on the cache. *)
Lemma TrySpendCoin_verdict c s c' s' o out b c1 : TrySpendCoin c s o out = Ok (b, c1) → ∃ c2, TrySpendCoin c' s' o out = Ok (b, c2).
Proof.
  unfold TrySpendCoin. destruct (output_asset _) as [[[[[n a] x]|]|]|]; cbn [rbind]; [|intros [= <- <-]; eauto..|done].
  destruct (decide (a = [])); [intros [= <- <-]; eauto|]. destruct (decide (n = [])); [intros [= <- <-]; eauto|].
  destruct (fAssetIndex && _); [|intros [= <- <-]; eauto]. intros Hc.
  assert (b = true) as -> by (destruct (GetBestAssetAddressAmount c s n a) as [[] ?]; congruence).
  destruct (GetBestAssetAddressAmount c' s' n a) as [[] ?]; eauto.
Qed.

Lemma sort_outputs_total txid outs : Forall readable_out outs → ∀ temp i k, ∃ k', sort_outputs temp txid outs i k = Ok k' ∧
  (∀ t, t ∈ ok_transfers k' → t ∈ ok_transfers k ∨ ∃ r, TransferAssetFromScript t.2 = Ok (Some r)) ∧
  (∀ script, script ∈ ok_null k' → script ∈ ok_null k ∨ ∃ out, out ∈ outs ∧ script = scriptPubKey out).
Proof.
  induction 1 as [|out outs Ho Houts IH]; intros temp i k; cbn [sort_outputs]; [exists k; split; [done|]; auto|].
  destruct k as [tr nl ve cl]. destruct (is_ok_Ok _ (ro_unspendable _ Ho)) as [u Hu]. unfold read. rewrite Hu. cbn [rbind].
  destruct (negb u).
  - destruct (is_ok_Ok (if AreAssetsDeployed then TrySpendCoin temp.1 temp.2 (mkOutPoint txid (u32 i)) out else Ok (true, temp.1))) as [r ->].
    { destruct AreAssetsDeployed; [|done]. apply TrySpendCoin_total, Ho. }
    destruct (is_ok_Ok (if AreAssetsDeployed then IsScriptTransferAsset (scriptPubKey out) else Ok None)) as [t Ht].
    { destruct AreAssetsDeployed; [|done]. apply transfer_script_read, Ho. }
    rewrite Ht. cbn [rbind]. edestruct IH as (k' & -> & H1 & H2). exists k'. split; [done|]. split.
    + intros t1 [Hin|]%H1; [|by right]. cbn in Hin. destruct t as [t|]; cbn in Hin; [|by left]. apply elem_of_app in Hin as [|Hin]; [by left|].
      apply list_elem_of_singleton in Hin as ->. right. cbn. apply (ro_transfer _ Ho t). by destruct AreAssetsDeployed.
    + intros sc [|(o & ? & ?)]%H2; [by left|]. right. exists o. split; [by right|done].
  - edestruct IH as (k' & -> & H1 & H2). exists k'. split; [done|]. split.
    + intros t1 [Hin|]%H1; [|by right]. left. destruct (_ && _); [|done]. by destruct (IsNullAssetVerifierTxDataScript _).
    + intros sc [Hin|(o & ? & ?)]%H2; [|right; exists o; split; [by right|done]]. destruct (_ && _); [|by left].
      destruct (IsNullAssetVerifierTxDataScript _); [by left|]. cbn in Hin. apply elem_of_app in Hin as [|Hin]; [by left|].
      apply list_elem_of_singleton in Hin as ->. right. exists out. split; [by left|done].
Qed.

Lemma disconnect_transfers_total txid outs : (∀ t, t ∈ outs → ∃ r, TransferAssetFromScript t.2 = Ok (Some r)) → ∀ st,
  ∃ o, disconnect_transfers st txid outs = Ok o ∧ (fAssetIndex = false → is_Some o).
Proof.
  induction outs as [|[i script] outs IH]; intros Hr st; cbn [disconnect_transfers]; [eauto|]. unfold found.
  destruct (Hr (i, script)) as [r Hr1]; [by left|]. cbn in Hr1. rewrite Hr1. cbn [tri_bind rbind].
  destruct (RemoveTransfer _ _ _ _ _) as [ok c] eqn:He. destruct ok; [apply IH; intros t Ht; apply Hr; by right|].
  eexists. split; [done|]. intros Hi. unfold RemoveTransfer, UndoTransfer in He. by rewrite Hi in He.
Qed.

Lemma disconnect_null_total scripts : (∀ script, script ∈ scripts → ∃ out, readable_out out ∧ script = scriptPubKey out) → ∀ st,
  ∃ st', disconnect_null st scripts = Ok (Some st').
Proof.
  induction scripts as [|script scripts IH]; intros Hr st; cbn [disconnect_null]; [eauto|].
  assert (∀ st, ∃ st', disconnect_null st scripts = Ok (Some st')) as Hrest by (apply IH; intros; apply Hr; by right).
  destruct (Hr script) as (out & Ho & ->); [by left|]. unfold found. destruct (IsNullAssetTxDataScript (scriptPubKey out)) eqn:Hn.
  - destruct (ro_data _ Ho Hn) as [[d ad] ->]. cbn [tri_bind rbind]. apply Hrest.
  - destruct (IsNullGlobalRestrictionAssetTxDataScript (scriptPubKey out)) eqn:Hg; [|cbn [tri_bind rbind]; apply Hrest].
    destruct (ro_global _ Ho Hg) as [d ->]. cbn [tri_bind rbind]. apply Hrest.
Qed.

Lemma restore_total coins : Forall (fun coin => is_ok (output_asset (scriptPubKey (c_out coin))) = true) coins → ∀ st b,
  ∃ r, restore_asset_inputs st coins b = Ok r.
Proof.
  induction 1 as [|coin coins Hc _ IH]; intros st b; cbn [restore_asset_inputs]; [eauto|].
  destruct (is_ok_Ok _ (output_asset_read _ Hc)) as [a ->]. cbn [rbind]. destruct (_ && _); [|apply IH].
  destruct (is_ok_Ok _ (UndoAssetCoin_total st.1 st.2 coin Hc)) as [r ->]. cbn [rbind]. apply IH.
Qed.

Lemma disconnect_asset_tx_spec s0 all s1 done e rest temp st p b : AreAssetsDeployed = true → AreRestrictedAssetsDeployed = true →
  block_ok s0 all → after_block s0 all s1 → all ≡ₚ done ++ e :: rest → effect_of p.1 = Ok e → readable_tx p →
  same_store s1 st.2 → undone s0 (omap (undo_record s0) all) done st.1 →
  ∃ o, disconnect_asset_tx temp st p.1 p.2 (omap (undo_record s0) all) b = Ok o ∧ (fAssetIndex = false → is_Some o) ∧
    ∀ r, o = Some r → same_store s1 r.1.2 ∧ undone s0 (omap (undo_record s0) all) (done ++ [e]) r.1.1 ∧ limits r.1.1 = limits_remove (map scriptPubKey (vout p.1)) (limits st.1).
Proof.
  intros Hd Hd2 Hb Hab Hperm He Hp Hs Hu. unfold disconnect_asset_tx. rewrite Hd, Hd2.
  destruct (sort_outputs_total (tx_GetHash p.1) (vout p.1) (rt_outs _ Hp) temp 0 (mkKinds [] [] None b)) as (k & Hk & Ht & Hn). rewrite Hk. cbn [rbind].
  destruct (sort_outputs_spec _ _ Hd2 _ _ _ _ Hk) as [Hl Hv]. cbn [ok_null ok_verifier] in Hl, Hv. clear Hk.
  rewrite (disconnect_issue_effect st p.1 e k _ He).
  2: { intros l o v ->. apply effect_verifier in He as (H1 & H2 & _). destruct (rt_verifier _ Hp H1) as [v1 Hf]. apply find_verifier_single in Hf as (sc & F1 & F2 & F3).
       rewrite F1 in Hv. cbn in Hv. rewrite Hv. cbn. rewrite F2. congruence. }
  2: { intros H1. destruct (rt_verifier _ Hp H1) as [v1 Hf]. apply find_verifier_single in Hf as (sc & F1 & F2 & F3). eauto. }
  destruct (undo_effect_spec s0 all s1 done rest Hb Hab st e Hperm Hs Hu) as (o1 & -> & S1 & S2).
  destruct o1 as [st1|]; cbn [tri_bind rbind]; [|exists None; split; [done|]; split; [by intros [? [=]]%S1|done]]. destruct (S2 st1 eq_refl) as (A1 & A2 & A3).
  destruct (disconnect_transfers_total (tx_GetHash p.1) (ok_transfers k)) with (st := st1) as (o2 & Ho2 & T1).
  { intros t [?%not_elem_of_nil|]%Ht; done. }
  rewrite Ho2. destruct o2 as [st2|]; cbn [tri_bind rbind]; [|exists None; split; [done|]; split; [by intros [? [=]]%T1|done]]. apply disconnect_transfers_fields in Ho2 as [B1 B2].
  destruct (disconnect_null_total (ok_null k)) with (st := st2) as [st3 Ho3].
  { intros sc [?%not_elem_of_nil|(out & H1 & ->)]%Hn; [done|]. exists out. split; [|done]. pose proof (rt_outs _ Hp) as Hall. rewrite Forall_forall in Hall. by apply Hall. }
  rewrite Ho3. cbn [tri_bind rbind]. apply disconnect_null_fields in Ho3 as (C1 & C2 & C3).
  destruct (restore_total (rev p.2)) with (st := st3) (b := ok_clean k) as [r Hr]; [apply Forall_rev, Hp|]. rewrite Hr. cbn [rbind].
  apply restore_fields in Hr as [D1 D2]. apply core_issues in B2 as [B2 B3], D2 as [D2 D3].
  eexists. split; [done|]. split; [eauto|]. intros r' [= <-]. split; [by rewrite D1, C1, B1|]. split.
  - eapply undone_issues; [|exact A2]. congruence.
  - by rewrite D3, C3, B3, A3, Hl.
Qed.

Lemma effects_app t1 t2 : effects_of (t1 ++ t2) = let? l1 := effects_of t1 in let? l2 := effects_of t2 in Ok (l1 ++ l2).
Proof.
  induction t1 as [|p t1 IH]; cbn [app effects_of rbind]; [by destruct (effects_of t2)|]. destruct (effect_of p.1) as [e|]; cbn [rbind]; [|done].
  rewrite IH. destruct (effects_of t1); cbn [rbind]; [|done]. by destruct (effects_of t2).
Qed.
Lemma effects_reverse txs es : effects_of txs = Ok es → effects_of (reverse txs) = Ok (reverse es).
Proof.
  revert es. induction txs as [|p txs IH]; cbn [effects_of]; intros es; [by intros [= <-]|].
  destruct (effect_of p.1) as [e|] eqn:He; cbn [rbind]; [|done]. destruct (effects_of txs) as [es'|]; cbn [rbind]; [|done]. intros [= <-].
  rewrite !reverse_cons, effects_app, (IH es') by done. cbn. by rewrite He.
Qed.

Lemma disconnect_assets_spec s0 all s1 temp txs : AreAssetsDeployed = true → AreRestrictedAssetsDeployed = true →
  block_ok s0 all → after_block s0 all s1 → Forall readable_tx txs →
  ∀ done es st b, all ≡ₚ done ++ es → effects_of txs = Ok es → same_store s1 st.2 → undone s0 (omap (undo_record s0) all) done st.1 →
  ∃ o, disconnect_assets temp st txs (omap (undo_record s0) all) b = Ok o ∧ (fAssetIndex = false → is_Some o) ∧
    ∀ r, o = Some r → same_store s1 r.1.2 ∧ undone s0 (omap (undo_record s0) all) (done ++ es) r.1.1 ∧ limits r.1.1 = limits_remove (scripts_of txs) (limits st.1).
Proof.
  intros Hd Hd2 Hb Hab. induction 1 as [|[tx spent] txs Hp _ IH]; intros done es st b Hperm; cbn [effects_of disconnect_assets].
  { intros [= <-] Hs Hu. eexists. split; [done|]. split; [eauto|]. intros r [= <-]. split; [done|]. split; [by rewrite app_nil_r|done]. }
  cbn [fst]. destruct (effect_of tx) as [e|] eqn:He; cbn [rbind]; [|done]. destruct (effects_of txs) as [es'|]; cbn [rbind]; [|done].
  intros [= <-] Hs Hu.
  destruct (disconnect_asset_tx_spec s0 all s1 done e es' temp st (tx, spent) b Hd Hd2 Hb Hab Hperm He Hp Hs Hu) as (o & Ho & S1 & S2). cbn [fst snd] in Ho.
  rewrite Ho. destruct o as [r1|]; cbn [tri_bind rbind]; [|exists None; split; [done|]; split; [done|done]].
  destruct (S2 r1 eq_refl) as (A1 & A2 & A3).
  destruct (IH (done ++ [e]) es' r1.1 r1.2) as (o & -> & T1 & T2); [by rewrite <- app_assoc|done..|].
  eexists. split; [done|]. split; [done|]. intros r Hr. destruct (T2 r Hr) as (B1 & B2 & B3). split; [done|]. split; [by rewrite <- app_assoc in B2|].
  rewrite B3, A3. unfold scripts_of. cbn [flat_map fst]. by rewrite limits_with_app.
Qed.

(** ** The answers before and after *)

(** The state at the start of a block as the contextual checks see it. *)
Definition block_view (s : asset_store) (pool : list Z → bool) : AssetsView := {|
  view_qualifiers := {| Verifier.CheckIfAssetExists := exists_at s;
                        Verifier.CheckForAddressQualifier := tagged_in true AssetsCache_new (passets s) (prestricteddb s) |};
  AssetChecks.CheckForAddressRestriction := frozen_in true AssetsCache_new (passets s) (prestricteddb s);
  AssetChecks.CheckForGlobalRestriction := globally_frozen_in true AssetsCache_new (passets s) (prestricteddb s);
  AssetChecks.GetAssetMetaDataIfExists := meta_at s;
  AssetChecks.GetAssetVerifierStringIfExists name skip := verifier_at s name;
  mempool_has_asset := pool
|}.

(** The checks of a block's tags and freezes. *)
Record limits_accepted (s : asset_store) (pool : list Z → bool) (scripts : list CScript) : Prop := {
  la_freeze : ∀ script d address, script ∈ scripts → null_data script = Some (d, address) →
    name_type indeterminate (nd_asset_name d) = RESTRICTED → VerifyRestrictedAddressChange (AV := block_view s pool) d address = Ok ();
  la_tag : ∀ script d address, script ∈ scripts → null_data script = Some (d, address) →
    name_type indeterminate (nd_asset_name d) = QUALIFIER ∨ name_type indeterminate (nd_asset_name d) = SUB_QUALIFIER →
    VerifyQualifierChange (AV := block_view s pool) d address = Ok ();
  la_global : ∀ script d, script ∈ scripts → GlobalAssetNullDataFromScript script = Some d →
    VerifyGlobalRestrictedChange (AV := block_view s pool) d = Ok ()
}.

Lemma after_block_intro s0 all c1 s1 : block_ok s0 all → connected s0 all c1 →
  same_answers c1 (passets s0) (passetsdb s0) (prestricteddb s0) AssetsCache_new (passets s1) (passetsdb s1) (prestricteddb s1) → after_block s0 all s1.
Proof.
  intros Hb (HA & HR & HV) Hs. constructor.
  - intros e k He Hk. destruct (Hs k []) as (Hx & _). unfold exists_at. rewrite Hx. destruct (HA k) as [A1 A2]. apply elem_of_app in Hk as [Hk|Hk].
    + assert (k ∈ flat_map issue_names all) as Hin by (apply elem_of_flat_map; eauto). destruct (bo_issue s0 all Hb k Hin) as (_ & _ & _ & Hr).
      unfold exists_in, layered. rewrite A1, Hr. destruct (proj2 A2 Hin) as [x ->]. apply orb_true_r.
    + destruct e as [| |r ad out v]; [by apply not_elem_of_nil in Hk..|]. apply list_elem_of_singleton in Hk as ->.
      destruct (bo_reissue s0 all Hb r ad out v He) as (a & _ & _ & E1 & _). rewrite exists_untouched; [done| |done]. apply eq_None_not_Some. intros Hin%A2.
      pose proof (bo_nodup s0 all Hb) as Hnd. apply elem_of_Permutation in He as [rest Hp].
      destruct (names_fresh all rest (Reissue r ad out v) [] (re_strName r) Hnd) as (F1 & _ & _); [by rewrite Hp, Permutation_app_comm|by left|].
      rewrite Hp in Hin. by apply F1 in Hin.
  - intros r ad out v a Hin Ha. destruct (Hs (re_strName r) []) as (_ & Hm & _). unfold meta_at at 1. rewrite Hm. unfold meta_in.
    rewrite lookup_union, (proj2 HR r ad out v a Hin Ha). by destruct (mapReissuedAssetData (passets s0) !! _).
Qed.

(** The answers about assets after the block was disconnected. *)
Lemma undone_answers s0 all c1 s1 c2 k : block_ok s0 all → connected s0 all c1 → undone s0 (omap (undo_record s0) all) all c2 →
  same_answers c1 (passets s0) (passetsdb s0) (prestricteddb s0) AssetsCache_new (passets s1) (passetsdb s1) (prestricteddb s1) →
  (∀ k, k ∈ flat_map issue_names all → mapReissuedAssetData (passets s1) !! k = None) →
  exists_in c2 (passets s1) (passetsdb s1) k = exists_at s0 k ∧
  (k ∉ flat_map reissue_names all → meta_in c2 (passets s1) (passetsdb s1) k = meta_at s0 k) ∧
  (k ∈ flat_map reissue_names all → ∃ a a', meta_at s0 k = Some a ∧ meta_in c2 (passets s1) (passetsdb s1) k = Some a' ∧ restored a a') ∧
  verifier_in false c2 (passets s1) (prestricteddb s1) k = verifier_at s0 k.
Proof.
  intros Hb (HA & [HR1 HR2] & HV) (UA & [UR1 UR2] & UV) Hs Hre. destruct (Hs k []) as (Hx & Hm & Hv & _).
  destruct (HA k) as [A1 A2], (UA k) as [B1 B2], (HV k) as [V1 V2], (UV k) as (W1 & W2 & W3). split_and!.
  - destruct (decide (k ∈ flat_map issue_names all)) as [Hk|Hk].
    + destruct (bo_issue s0 all Hb k Hk) as (E0 & _). rewrite E0. unfold exists_at, exists_in, layered in *. destruct (proj2 B2 Hk) as [x ->]. by destruct fReindex.
    + rewrite exists_untouched by (done || apply eq_None_not_Some; tauto). unfold exists_at at 1. rewrite Hx. by rewrite exists_untouched by (done || apply eq_None_not_Some; tauto).
  - intros Hk. destruct (decide (k ∈ flat_map issue_names all)) as [Hi|Hi].
    + destruct (bo_issue s0 all Hb k Hi) as (_ & _ & -> & _). unfold meta_in, layered. rewrite lookup_union, UR1, Hre by done. by destruct (proj2 B2 Hi) as [x ->].
    + rewrite meta_untouched by (auto || apply eq_None_not_Some; tauto). unfold meta_at at 1. rewrite Hm. by rewrite meta_untouched by (auto || apply eq_None_not_Some; tauto).
  - intros Hk. apply elem_of_flat_map in Hk as (e & He & Hk). destruct e as [| |r ad out v]; [by apply not_elem_of_nil in Hk..|]. apply list_elem_of_singleton in Hk as ->.
    destruct (bo_reissue s0 all Hb r ad out v He) as (a & Ha & _ & _ & Ht). exists a, (undone_with (omap (undo_record s0) all) a r). split; [done|]. split.
    + unfold meta_in. rewrite lookup_union, (UR2 r ad out v a He Ha). by destruct (mapReissuedAssetData (passets s1) !! _).
    + unfold undone_with. rewrite (find_undo_record s0 all r ad out v) by (done || apply Hb). by apply undone_reissue.
  - destruct (decide (k ∈ verifier_names all)) as [Hk|Hk].
    + destruct (W3 Hk) as (x & Hx1 & <-). unfold verifier_in, layered, own. by rewrite Hx1.
    + rewrite verifier_untouched by auto. unfold verifier_at at 1. rewrite Hv. by rewrite verifier_untouched by auto.
Qed.

Lemma elem_of_verifier_reverse es k : k ∈ verifier_names (reverse es) ↔ k ∈ verifier_names es.
Proof. unfold verifier_names. rewrite !list_elem_of_fmap. setoid_rewrite list_elem_of_omap. by setoid_rewrite elem_of_reverse. Qed.
Lemma elem_of_scripts_reverse txs script : script ∈ scripts_of (reverse txs) ↔ script ∈ scripts_of txs.
Proof. unfold scripts_of. rewrite !elem_of_flat_map. by setoid_rewrite elem_of_reverse. Qed.
Lemma elem_of_omap_reverse {A} (f : CScript → option A) txs x : x ∈ omap f (scripts_of (reverse txs)) ↔ x ∈ omap f (scripts_of txs).
Proof. rewrite !list_elem_of_omap. by setoid_rewrite elem_of_scripts_reverse. Qed.

(** A change is accepted when it turns the answer round. *)
Lemma accepted_change (flag : Z) b m1 m2 (r : result tx_error ()) :
  (let? _ := r in if negb (flag =? 0) then check (negb b) m1 else check b m2) = Ok () → b = (flag =? 0).
Proof. destruct r; cbn [rbind]; [|done]. by destruct (flag =? 0), b. Qed.
Lemma freeze_of_inv s pool scripts k x : limits_accepted s pool scripts → (k, x) ∈ omap freeze_of scripts →
  frozen_in true AssetsCache_new (passets s) (prestricteddb s) k.1 k.2 = bool_decide (x = UNFREEZE_ADDRESS).
Proof.
  intros Ha (script & Hin & Hx)%list_elem_of_omap. unfold freeze_of in Hx. destruct (null_data script) as [[d ad]|] eqn:Hd; [|done]. cbn in Hx.
  destruct (bool_decide_reflect (name_type indeterminate (nd_asset_name d) = RESTRICTED)) as [Ht|]; [|done]. injection Hx as <- <-. cbn [fst snd].
  pose proof (accepted_change _ _ _ _ _ (la_freeze _ _ _ Ha script d ad Hin Hd Ht)) as Hv. cbn in Hv. rewrite Hv. unfold freeze_type. by destruct (nd_flag d =? 0).
Qed.
Lemma global_of_inv s pool scripts k x : limits_accepted s pool scripts → (k, x) ∈ omap global_of scripts →
  globally_frozen_in true AssetsCache_new (passets s) (prestricteddb s) k = bool_decide (x = GLOBAL_UNFREEZE).
Proof.
  intros Ha (script & Hin & Hx)%list_elem_of_omap. unfold global_of in Hx. destruct (GlobalAssetNullDataFromScript script) as [d|] eqn:Hd; [|done]. cbn in Hx.
  injection Hx as <- <-. pose proof (accepted_change _ _ _ _ _ (la_global _ _ _ Ha script d Hin Hd)) as Hv. cbn in Hv. rewrite Hv. unfold global_type. by destruct (nd_flag d =? 0).
Qed.
Lemma tag_of_inv s pool scripts k x : limits_accepted s pool scripts → (k, x) ∈ omap tag_of scripts →
  tagged_in true AssetsCache_new (passets s) (prestricteddb s) k.1 k.2 = bool_decide (x = REMOVE_QUALIFIER).
Proof.
  intros Ha (script & Hin & Hx)%list_elem_of_omap. unfold tag_of in Hx. destruct (null_data script) as [[d ad]|] eqn:Hd; [|done]. cbn in Hx.
  destruct (_ || _) eqn:Ht; [|done]. apply orb_true_iff in Ht. rewrite !bool_decide_eq_true in Ht. injection Hx as <- <-. cbn [fst snd].
  pose proof (accepted_change _ _ _ _ _ (la_tag _ _ _ Ha script d ad Hin Hd Ht)) as Hv. cbn in Hv. rewrite Hv. unfold tag_type. by destruct (nd_flag d =? 0).
Qed.

Lemma undone_freezes s0 s1 pool txs c1 c2 name address : limits_accepted s0 pool (scripts_of txs) →
  limits c1 = limits_add (scripts_of txs) (limits AssetsCache_new) → limits c2 = limits_remove (scripts_of (reverse txs)) (limits AssetsCache_new) →
  same_answers c1 (passets s0) (passetsdb s0) (prestricteddb s0) AssetsCache_new (passets s1) (passetsdb s1) (prestricteddb s1) →
  frozen_in false c2 (passets s1) (prestricteddb s1) name address = frozen_in false AssetsCache_new (passets s0) (prestricteddb s0) name address ∧
  globally_frozen_in false c2 (passets s1) (prestricteddb s1) name = globally_frozen_in false AssetsCache_new (passets s0) (prestricteddb s0) name.
Proof.
  intros Ha [= F1 G1 _] [= F2 G2 _] Hs. destruct (Hs name address) as (_ & _ & _ & Hf & Hg).
  unfold frozen_in, globally_frozen_in, own in *. rewrite F1 in Hf. rewrite G1 in Hg. rewrite F2, G2. split.
  - eapply undo_write; [intros x; apply elem_of_omap_reverse| |exact Hf]. intros x Hx. exact (freeze_of_inv _ _ _ _ _ Ha Hx).
  - eapply undo_write; [intros x; apply elem_of_omap_reverse| |exact Hg]. intros x Hx. exact (global_of_inv _ _ _ _ _ Ha Hx).
Qed.

(** Without tags below a name, a tag is a change like the others. *)
Lemma tagged_layered c s name address : no_sub_tags (mapRootQualifierAddressesAdd c) name address → no_sub_tags (mapRootQualifierAddressesAdd (passets s)) name address →
  tagged_in false c (passets s) (prestricteddb s) name address =
  layered (fun t => bool_decide (t = REMOVE_QUALIFIER)) (fun t => bool_decide (t = ADD_QUALIFIER)) (setNewQualifierAddress c) (setNewQualifierAddress (passets s)) (name, address)
    (bool_decide ((address, name) ∈ db_address_qualifiers (prestricteddb s)) || CheckForAddressRootQualifier (prestricteddb s) address name).
Proof.
  intros Hc%has_sub_false Hp%has_sub_false. unfold tagged_in, layered, own. rewrite Hc, Hp. cbn [negb andb orb].
  repeat case_match; try done. by rewrite orb_false_r.
Qed.

Lemma undone_tags s0 s1 pool txs c1 c2 name address : limits_accepted s0 pool (scripts_of txs) →
  limits c1 = limits_add (scripts_of txs) (limits AssetsCache_new) → limits c2 = limits_remove (scripts_of (reverse txs)) (limits AssetsCache_new) →
  (∀ c, c ∈ [c1; c2; passets s0; passets s1] → no_sub_tags (mapRootQualifierAddressesAdd c) name address) →
  tagged_in false AssetsCache_new (passets s1) (prestricteddb s1) name address = tagged_in false c1 (passets s0) (prestricteddb s0) name address →
  tagged_in false c2 (passets s1) (prestricteddb s1) name address = tagged_in false AssetsCache_new (passets s0) (prestricteddb s0) name address.
Proof.
  intros Ha [= _ _ T1] [= _ _ T2] Hsub. assert (no_sub_tags (mapRootQualifierAddressesAdd AssetsCache_new) name address) as Hnew by (unfold no_sub_tags; cbn; by rewrite lookup_empty).
  rewrite !tagged_layered by (done || apply Hsub; set_solver). rewrite T1, T2. intros Ht.
  eapply undo_write; [intros x; apply elem_of_omap_reverse| |exact Ht]. intros x Hx.
  pose proof (tag_of_inv _ _ _ _ _ Ha Hx) as Hx2. cbn [fst snd] in Hx2. rewrite <- Hx2.
  change (setNewQualifierAddress AssetsCache_new) with (own true (setNewQualifierAddress AssetsCache_new)).
  change (tagged_in true AssetsCache_new) with (tagged_in false AssetsCache_new). by rewrite tagged_layered by (done || apply Hsub; set_solver).
Qed.
End undo.

(** The answers of [s0] for a name and an address, given by the cache [c] over [s] after the
    block with the effects [es] was disconnected. *)
Definition undone_answer {Flags : AssetFlags} (s0 : asset_store) (es : list issue_effect)
    (c : CAssetsCache) (s : asset_store) (name address : list Z) : Prop :=
  exists_in c (passets s) (passetsdb s) name = exists_at s0 name ∧
  verifier_in false c (passets s) (prestricteddb s) name = verifier_at s0 name ∧
  frozen_in false c (passets s) (prestricteddb s) name address = frozen_in false AssetsCache_new (passets s0) (prestricteddb s0) name address ∧
  globally_frozen_in false c (passets s) (prestricteddb s) name = globally_frozen_in false AssetsCache_new (passets s0) (prestricteddb s0) name ∧
  (name ∉ flat_map reissue_names es → meta_in c (passets s) (passetsdb s) name = meta_at s0 name) ∧
  (name ∈ flat_map reissue_names es → ∃ a a', meta_at s0 name = Some a ∧ meta_in c (passets s) (passetsdb s) name = Some a' ∧ restored a a').

Lemma assets_undone {Cry : Crypto} {Hash : TxHash} {Split : BoostSplit} {Env : AssetEnv} {Flags : AssetFlags}
    (D : gset (list Z * list Z)) pool s0 s1 txs es h b c1 s' u temp :
  AreAssetsDeployed = true → AreRestrictedAssetsDeployed = true → store_ok D s0 → store_ok D s1 →
  effects_of txs = Ok es → block_ok s0 es → Forall readable_tx txs → limits_accepted s0 pool (scripts_of txs) →
  connect_assets (AssetsCache_new, s0) txs h b = Ok ((c1, s'), u) →
  same_answers c1 (passets s0) (passetsdb s0) (prestricteddb s0) AssetsCache_new (passets s1) (passetsdb s1) (prestricteddb s1) →
  (∀ k, k ∈ flat_map issue_names es → mapReissuedAssetData (passets s1) !! k = None) →
  ∃ o, disconnect_assets temp (AssetsCache_new, s1) (reverse txs) u true = Ok o ∧ (fAssetIndex = false → is_Some o) ∧
    ∀ c2 s2 clean, o = Some ((c2, s2), clean) → same_state s1 s2 ∧
      (∀ name address, undone_answer s0 es c2 s2 name address) ∧
      ∀ name address, (∀ c, c ∈ [c1; c2; passets s0; passets s1] → no_sub_tags (mapRootQualifierAddressesAdd c) name address) →
        tagged_in false AssetsCache_new (passets s1) (prestricteddb s1) name address = tagged_in false c1 (passets s0) (prestricteddb s0) name address →
        tagged_in false c2 (passets s2) (prestricteddb s2) name address = tagged_in false AssetsCache_new (passets s0) (prestricteddb s0) name address.
Proof.
  intros Hd Hd2 Hs0 Hs1 He Hb Hr Hl Hc Hans Hre.
  assert (connected s0 [] AssetsCache_new ∧ undone s0 (omap (undo_record s0) es) [] AssetsCache_new) as [Hc0 Hu0].
  { split; split_and!; try (split; [done|by intros ????? ?%not_elem_of_nil]); intros k; cbn; rewrite ?lookup_empty; split_and!; try done.
    all: try (split; [by intros [? [=]]|by intros ?%not_elem_of_nil]). by intros ?%not_elem_of_nil. }
  destruct (connect_assets_spec D s0 es h b txs Hd Hb [] es (AssetsCache_new, s0) ((c1, s'), u) eq_refl He) as (_ & C1 & C2 & C3); [by split|done|done|].
  cbn [fst snd] in *. subst u. pose proof (after_block_intro s0 es c1 s1 Hb C1 Hans) as Hab.
  destruct (disconnect_assets_spec D s0 es s1 temp (reverse txs) Hd Hd2 Hb Hab) with (done := @nil issue_effect) (es := reverse es) (st := (AssetsCache_new, s1)) (b := true)
    as (o & Ho & Ho1 & Ho2); [by apply Forall_reverse|by rewrite reverse_Permutation|by apply effects_reverse|by split|done|].
  exists o. split; [done|]. split; [done|]. intros c2 s2 clean Heq. destruct (Ho2 _ Heq) as (A1 & A2 & A3). cbn [fst snd app] in *.
  destruct A1 as [_ Hsame]. pose proof Hsame as (E1 & E2 & E3). split; [done|]. unfold undone_answer. rewrite E1, E2, E3.
  assert (undone s0 (omap (undo_record s0) es) es c2) as A4.
  { destruct A2 as (U1 & U2 & U3). split_and!.
    - intros k. destruct (U1 k) as [H1 H2]. split; [done|]. rewrite H2, !elem_of_flat_map. by setoid_rewrite elem_of_reverse.
    - destruct U2 as [V1 V2]. split; [|intros r ad out v a Hin; apply (V2 r ad out v a); by apply elem_of_reverse].
      intros k Hk. apply V1. rewrite elem_of_flat_map in Hk |- *. by setoid_rewrite elem_of_reverse.
    - intros k. destruct (U3 k) as (W1 & W2 & W3). rewrite elem_of_verifier_reverse in W2, W3. done. }
  split.
  - intros name address. destruct (undone_answers s0 es c1 s1 c2 name Hb C1 A4 Hans Hre) as (X1 & X2 & X2' & X3).
    destruct (undone_freezes s0 s1 pool txs c1 c2 name address Hl C2 A3 Hans) as [X4 X5]. done.
  - intros name address Hsub Ht. by eapply undone_tags.
Qed.

(** C8: disconnecting a block restores the assets, but for the flag of reissues.  With assets
    and restricted assets deployed, let a block be connected over a state [s0], with these
    conditions on it: its scripts can be read; it issues or reissues no name twice; the
    names it issues do not exist, wait for no removal in the global cache and have no data
    or verifier string left; the assets it reissues exist, with a verifier string where it
    changes that; its freezes and tags pass the checks against [s0].  Disconnect it over
    any state [s1] that answers as the block left it and whose global cache has no reissue
    data of the names issued, with the undo data the block recorded.  Then the
    disconnection stops at no assertion, without the index of balances it does not fail,
    and the cache it leaves gives, over [s1], the answers of [s0]: which assets exist, the
    verifier strings, who is frozen, what is frozen everywhere, for names without tags
    below them in the caches who is tagged, and the data of the assets.  The data of a
    reissued asset come back in name, amount, units and hash, and in the flag of the hash
    when that was right; whether it can be reissued does not: the asset can be reissued
    afterwards even if it could not before. *)
Theorem block_assets_undone {Cry : Crypto} {Hash : TxHash} {Split : BoostSplit} {Env : AssetEnv} {Flags : AssetFlags}
    (D : gset (list Z * list Z)) pool s0 s1 txs es h b c1 s' u temp :
  AreAssetsDeployed = true → AreRestrictedAssetsDeployed = true → store_ok D s0 → store_ok D s1 →
  effects_of txs = Ok es → block_ok s0 es → Forall readable_tx txs → limits_accepted s0 pool (scripts_of txs) →
  connect_assets (AssetsCache_new, s0) txs h b = Ok ((c1, s'), u) →
  same_answers c1 (passets s0) (passetsdb s0) (prestricteddb s0) AssetsCache_new (passets s1) (passetsdb s1) (prestricteddb s1) →
  (∀ k, k ∈ flat_map issue_names es → mapReissuedAssetData (passets s1) !! k = None) →
  ∃ o, disconnect_assets temp (AssetsCache_new, s1) (reverse txs) u true = Ok o ∧ (fAssetIndex = false → is_Some o) ∧
    ∀ c2 s2 clean, o = Some ((c2, s2), clean) → same_state s1 s2 ∧
      (∀ name address, undone_answer s0 es c2 s2 name address) ∧
      ∀ name address, (∀ c, c ∈ [c1; c2; passets s0; passets s1] → no_sub_tags (mapRootQualifierAddressesAdd c) name address) →
        tagged_in false AssetsCache_new (passets s1) (prestricteddb s1) name address = tagged_in false c1 (passets s0) (prestricteddb s0) name address →
        tagged_in false c2 (passets s2) (prestricteddb s2) name address = tagged_in false AssetsCache_new (passets s0) (prestricteddb s0) name address.
Proof. apply assets_undone. Qed.

(** ** A block that reissues AAA, issues BBB and freezes an address *)

Definition plain_flags : AssetFlags := {| fAssetIndex := false; fReindex := false; unset_height := 0 |}.
Definition store_of (p : CAssetsCache) (db : CAssetsDB) (rdb : CRestrictedDB) : asset_store :=
  mkStore p (LRU.LRU_new 10) (LRU.LRU_new 10) (LRU.LRU_new 10) (LRU.LRU_new 10) (LRU.LRU_new 10) db rdb.
Definition store_with_AAA : asset_store :=
  store_of AssetsCache_new (mkAssetsDB {[asset_AAA := mkDatabasedAsset (AAA_with COIN 0 1) 1 blob_null]} ∅ ∅) (mkRestrictedDB ∅ ∅ ∅ ∅ ∅).

Lemma store_of_ok {Cry : Crypto} D p db rdb : (∀ k d, db_assets db !! k = Some d → na_strName (da_asset d) = k) → store_ok D (store_of p db rdb).
Proof. intros Hn. constructor; try done; (split; [apply LRU.lru_new_ok|by intros ?? ?%not_elem_of_nil]). Qed.

Lemma store_ok_flush {Cry : Crypto} D c s : store_ok D s → store_ok D (Flush c s).
Proof. intros []. by constructor. Qed.

Definition asset_BBB : CNewAsset := mkNewAsset [66; 66; 66] COIN 0 1 0 [].
Definition issue_BBB_tx : CTransaction :=
  spend [burn_out; with_script (NewAsset_ConstructOwnerTransaction asset_BBB); with_script (NewAsset_ConstructTransaction asset_BBB)].
Definition freeze_tx : CTransaction :=
  spend [mkTxOut 0 (default [] (NullData_ConstructTransaction (mkNullData (36 :: asset_AAA) 1) ([OP_PHI_ASSET; 20] ++ replicate 20 7)))].
#[local] Existing Instance lock_time_hash.
Definition sample_block : list (CTransaction * list Coin) :=
  [(reissue_tx (mkReissue asset_AAA COIN 8 0 ([18; 32] ++ replicate 32 1)), [mkCoin (transfer_out token_AAA COIN) false 1]);
   (issue_BBB_tx, [mkCoin burn_out false 1]); (freeze_tx, [mkCoin burn_out false 1])].
Definition sample_effects : list issue_effect :=
  match effects_of (Cry := toy_crypto) (Env := sample_env) sample_block with Ok es => es | Err _ => [] end.

Lemma sample_effects_ok : effects_of (Cry := toy_crypto) (Env := sample_env) sample_block = Ok sample_effects.
Proof. vm_compute. reflexivity. Qed.
Ltac compute_effects H := let l := eval vm_compute in sample_effects in replace sample_effects with l in H by (vm_compute; reflexivity).
Lemma sample_block_ok : block_ok (Env := sample_env) (Flags := plain_flags) store_with_AAA sample_effects.
Proof.
  constructor.
  - apply (bool_decide_unpack _). vm_compute. exact I.
  - replace (flat_map issue_names sample_effects) with [[66; 66; 66]] by (vm_compute; reflexivity). intros k ->%list_elem_of_singleton. vm_compute. done.
  - intros r ad out v Hin. exists (AAA_with COIN 0 1). assert (r = mkReissue asset_AAA COIN 8 0 ([18; 32] ++ replicate 32 1)) as ->.
    { compute_effects Hin. repeat (apply elem_of_cons in Hin as [Hin|Hin]; [first [discriminate|injection Hin as -> _ _ _; reflexivity]|]). by apply not_elem_of_nil in Hin. }
    split; [vm_compute; reflexivity|]. split; [reflexivity|]. split; [vm_compute; reflexivity|]. unfold typed, sfits. vm_compute. repeat split; discriminate.
  - intros e k v Hin Hv. exfalso. revert Hv. compute_effects Hin.
    repeat (apply elem_of_cons in Hin as [->|Hin]; [done|]). by apply not_elem_of_nil in Hin.
Qed.

Lemma sample_outs_readable : Forall (readable_out (Cry := toy_crypto) (Env := sample_env)) (flat_map (fun p => vout p.1) sample_block).
Proof.
  assert (∀ out, out ∈ flat_map (fun p => vout p.1) sample_block → readable_out (Cry := toy_crypto) (Env := sample_env) out) as H; [|by apply Forall_forall].
  intros out Hin. cbn [flat_map sample_block fst vout reissue_tx issue_BBB_tx freeze_tx spend app] in Hin.
  repeat (apply elem_of_cons in Hin as [->|Hin];
    [constructor; try (vm_compute; reflexivity); vm_compute; intros; try discriminate; eauto|]). by apply not_elem_of_nil in Hin.
Qed.

Lemma sample_readable : Forall (readable_tx (Cry := toy_crypto) (Env := sample_env)) sample_block.
Proof.
  pose proof sample_outs_readable as Ho. rewrite Forall_forall in Ho. apply Forall_forall. intros p Hp. constructor.
  - apply Forall_forall. intros out Hin. apply Ho, elem_of_flat_map. eauto.
  - apply Forall_forall. intros coin Hin. apply elem_of_cons in Hp as [->|Hp]; [|apply elem_of_cons in Hp as [->|Hp]; [|apply list_elem_of_singleton in Hp as ->]].
    all: apply list_elem_of_singleton in Hin as ->; vm_compute; reflexivity.
  - intros Hr. exfalso. revert Hr. apply elem_of_cons in Hp as [->|Hp]; [|apply elem_of_cons in Hp as [->|Hp]; [|apply list_elem_of_singleton in Hp as ->]]; vm_compute; discriminate.
Qed.

Lemma sample_limits : limits_accepted (Cry := toy_crypto) (Env := sample_env) (Flags := plain_flags) store_with_AAA (fun _ => false) (scripts_of sample_block).
Proof.
  assert (∀ script, script ∈ scripts_of sample_block → script = scriptPubKey (default (mkTxOut 0 []) (head (vout freeze_tx))) ∨
    (null_data (Cry := toy_crypto) (Env := sample_env) script = None ∧ GlobalAssetNullDataFromScript script = None)) as Hs.
  { intros script Hin. cbn [scripts_of flat_map sample_block fst vout reissue_tx issue_BBB_tx freeze_tx spend app map] in Hin.
    do 6 (apply elem_of_cons in Hin as [->|Hin]; [right; vm_compute; done|]). apply elem_of_cons in Hin as [->|Hin]; [by left|]. by apply not_elem_of_nil in Hin. }
  assert (null_data (Cry := toy_crypto) (Env := sample_env) (scriptPubKey (default (mkTxOut 0 []) (head (vout freeze_tx)))) =
    Some (mkNullData (36 :: asset_AAA) 1, default [] (EncodeDestination (H := toy_crypto) main_prefixes (CKeyID (replicate 20 7))))) as Hf by (vm_compute; reflexivity).
  assert (name_type (Split := split_at_instance) (indeterminate (AssetEnv := sample_env)) (nd_asset_name (mkNullData (36 :: asset_AAA) 1)) = RESTRICTED) as Ht by (vm_compute; reflexivity).
  constructor.
  - intros script d ad [->|[Hn _]]%Hs Hd _; [|congruence]. rewrite Hf in Hd. apply (inj Some), pair_equal_spec in Hd as [<- <-]. vm_compute. reflexivity.
  - intros script d ad [->|[Hn _]]%Hs Hd Hq; [|congruence]. exfalso. rewrite Hf in Hd. apply (inj Some), pair_equal_spec in Hd as [<- _].
    destruct Hq as [Hq|Hq]; rewrite Ht in Hq; discriminate.
  - intros script d [->|[_ Hn]]%Hs Hd; [|congruence]. exfalso. revert Hd. vm_compute. discriminate.
Qed.

Definition sample_connect : result tx_error (asset_state * list (list Z * CBlockAssetUndo)) :=
  connect_assets (Cry := toy_crypto) (Env := sample_env) (Flags := plain_flags) (AssetsCache_new, store_with_AAA) sample_block 2 blob_null.
Definition ok_or {E A} (a : A) (r : result E A) : A := match r with Ok a => a | Err _ => a end.
Definition sample_connected : asset_state * list (list Z * CBlockAssetUndo) := ok_or ((AssetsCache_new, store_with_AAA), []) sample_connect.
Lemma sample_connected_ok : sample_connect = Ok (sample_connected.1.1, sample_connected.1.2, sample_connected.2).
Proof.
  assert (is_ok sample_connect = true) as H by (vm_compute; reflexivity).
  unfold sample_connected, ok_or. destruct sample_connect as [[[? ?] ?]|]; [reflexivity|discriminate].
Qed.
Abbreviation flushed_block := (Flush sample_connected.1.1 store_with_AAA).

Lemma Flush_store_answers {Flags : AssetFlags} c s : fresh_changes c (passets s) →
  same_answers c (passets s) (passetsdb s) (prestricteddb s) AssetsCache_new (passets (Flush c s)) (passetsdb (Flush c s)) (prestricteddb (Flush c s)).
Proof. apply Flush_answers. Qed.
Lemma fresh_over_new c : fresh_changes c AssetsCache_new.
Proof. constructor; intros k _; try split; apply lookup_empty. Qed.

Lemma block_assets_undone_witness :
  ∃ c2 s2 clean,
    disconnect_assets (Cry := toy_crypto) (Env := sample_env) (Flags := plain_flags) (AssetsCache_new, flushed_block) (AssetsCache_new, flushed_block)
      (reverse sample_block) sample_connected.2 true = Ok (Some ((c2, s2), clean)) ∧
    ∃ a, meta_in c2 (passets s2) (passetsdb s2) asset_AAA = Some a ∧ na_nAmount a = COIN ∧ na_units a = 0 ∧ na_nReissuable a = 1.
Proof.
  assert (store_ok (Cry := toy_crypto) ∅ store_with_AAA) as Hs0.
  { apply store_of_ok. intros k d Hd. cbn in Hd. apply lookup_singleton_Some in Hd as [<- <-]. reflexivity. }
  destruct (block_assets_undone (Cry := toy_crypto) (Env := sample_env) (Flags := plain_flags) ∅ (fun _ => false) store_with_AAA flushed_block sample_block
    sample_effects 2 blob_null sample_connected.1.1 sample_connected.1.2 sample_connected.2 (AssetsCache_new, flushed_block) eq_refl eq_refl Hs0) as (o & Ho & Hsome & Hans).
  - by apply store_ok_flush.
  - apply sample_effects_ok.
  - apply sample_block_ok.
  - apply sample_readable.
  - apply sample_limits.
  - exact sample_connected_ok.
  - apply Flush_store_answers, fresh_over_new.
  - replace (flat_map issue_names sample_effects) with [[66; 66; 66]] by (vm_compute; reflexivity). intros k ->%list_elem_of_singleton. vm_compute. reflexivity.
  - destruct Hsome as [[[c2 s2] clean] ->]; [reflexivity|]. exists c2, s2, clean. split; [exact Ho|].
    destruct (Hans c2 s2 clean eq_refl) as (_ & Ha & _). destruct (Ha asset_AAA []) as (_ & _ & _ & _ & _ & Hm).
    replace (flat_map reissue_names sample_effects) with [asset_AAA] in Hm by (vm_compute; reflexivity).
    destruct (Hm (list_elem_of_here _ _)) as (a & a' & Ha1 & Ha2 & _ & R1 & R2 & _ & R3 & _). exists a'.
    replace (meta_at store_with_AAA asset_AAA) with (Some (AAA_with COIN 0 1)) in Ha1 by (vm_compute; reflexivity). injection Ha1 as <-.
    split; [exact Ha2|]. split; [exact R1|]. split; [exact R2|exact R3].
Defined.
