(* ===== verification/Disconnect.v ===== *)
(** * Disconnecting a block: [ApplyTxInUndo] and [DisconnectBlock] of src/src/validation.cpp

    The coins and the asset cache together, in the order in which the code changes them;
    the parts are in Chainstate.v (coins) and AssetConnect.v (assets).  Arguments are what
    the code reads from disk: the undo data of the block, the undo data of its reissues,
    each [None] when it is missing or cannot be read.  Left out are the address, spent and
    timestamp indexes ([fAddressIndex], [fSpentIndex] off) and the message store.

    Disconnecting undoes connecting, and the verdict is [DISCONNECT_OK] exactly when the
    asset outputs can be read and no coin with the amount zero was spent. *)

From stdpp Require Import gmap.
From S2P Require Import Prelude Serialize Transaction Script Interpreter Regex AssetTypes AssetNames Verifier LRUCache Coins Chainstate Base58 Standard AssetScripts AssetChecks AssetsCache AssetStore AssetConnect TxVerify BlockChecks AssetBalance ConnectBlock AssetUndo.

Open Scope Z_scope.

Section disconnect.
Context {V : Type} {View : CCoinsView V} {Cry : Crypto} {Split : BoostSplit} {Env : AssetEnv} {Flags : AssetFlags}.
Abbreviation cache := (CCoinsViewCache V).
Implicit Types (c : cache) (st temp : asset_state) (tx : CTransaction).

(** The coin comes back, and with it the balance of its asset. *)
Definition ApplyTxInUndo (undo : Coin) c st (out : COutPoint) : result block_error (DisconnectResult * cache * asset_state) :=
  let? fIsAsset := in_block (read (IsAssetScript (scriptPubKey (c_out undo)))) in
  let? r := in_coins (undo_coin undo c out) in
  match fst r with
  | DISCONNECT_FAILED => Ok (DISCONNECT_FAILED, snd r, st)
  | res =>
      if AreAssetsDeployed && is_some fIsAsset then
        let? u := in_block (UndoAssetCoin st.1 st.2 undo) in
        Ok (if fst u then res else DISCONNECT_UNCLEAN, snd r, (snd u, st.2))
      else Ok (res, snd r, st)
  end.

(** The loop over the outputs: they are spent, on the copy [temp] of the asset cache, and
    sorted; [ok_clean] is [fClean]. *)
Fixpoint remove_outputs c temp (txid : uint256) (outs : list CTxOut) (i nHeight : Z) (is_coinbase : bool) (k : output_kinds)
    : result block_error (cache * asset_state * output_kinds) :=
  match outs with
  | [] => Ok (c, temp, k)
  | out :: outs =>
      let script := scriptPubKey out in
      let '(mkKinds transfers null verifier clean) := k in
      let? unspendable := in_block (read (IsUnspendable script)) in
      if negb unspendable then
        let? r := SpendCoin_assets c temp (mkOutPoint txid (u32 i)) in
        let '(is_spent, coin, c, temp) := r in
        let mismatch := negb is_spent || negb (bool_decide (out = c_out coin)) || negb (nHeight =? c_nHeight coin)
                        || negb (Bool.eqb is_coinbase (c_fCoinBase coin)) in
        let? t := if AreAssetsDeployed then in_block (IsScriptTransferAsset script) else Ok None in
        remove_outputs c temp txid outs (i + 1) nHeight is_coinbase
          (mkKinds (if is_some t then transfers ++ [(i, script)] else transfers) null verifier (if mismatch then false else clean))
      else
        remove_outputs c temp txid outs (i + 1) nHeight is_coinbase
          (if AreRestrictedAssetsDeployed && IsNullAsset script then
             if IsNullAssetVerifierTxDataScript script then mkKinds transfers null (Some script) clean
             else mkKinds transfers (null ++ [script]) verifier clean
           else k)
  end.

(** Issues, transfers, tags and freezes of a transaction. *)
Definition undo_assets st tx (k : output_kinds) (vUndoData : list (list Z * CBlockAssetUndo)) : tri asset_state :=
  if AreAssetsDeployed then
    tri_bind (disconnect_issue st tx k vUndoData) (fun st =>
    tri_bind (disconnect_transfers st (tx_GetHash tx) (ok_transfers k)) (fun st =>
    if AreRestrictedAssetsDeployed then disconnect_null st (ok_null k) else Ok (Some st)))
  else Ok (Some st).

(** The inputs from the last to the first; [None] is [DISCONNECT_FAILED]. *)
Fixpoint undo_inputs c st (ins : list (CTxIn * Coin)) (fClean : bool) : result block_error (option (cache * asset_state * bool)) :=
  match ins with
  | [] => Ok (Some (c, st, fClean))
  | (i, undo) :: ins =>
      let? r := ApplyTxInUndo undo c st (prevout i) in
      let '(res, c, st) := r in
      match res with
      | DISCONNECT_FAILED => Ok None
      | _ => undo_inputs c st ins (fClean && match res with DISCONNECT_UNCLEAN => false | _ => true end)
      end
  end.

(** One transaction; [txundo] is [None] for the first of the block. *)
Definition undo_tx c temp st tx (txundo : option (list Coin)) (vUndoData : list (list Z * CBlockAssetUndo)) (nHeight : Z) (fClean : bool)
    : result block_error (option (cache * asset_state * asset_state * bool)) :=
  let? r := remove_outputs c temp (tx_GetHash tx) (vout tx) 0 nHeight (IsCoinBase tx) (mkKinds [] [] None fClean) in
  let '(c, temp, k) := r in
  let? o := in_block (undo_assets st tx k vUndoData) in
  match o with
  | None => Ok None
  | Some st =>
      match txundo with
      | None => Ok (Some (c, temp, st, ok_clean k))
      | Some vprevout =>
          if negb (Nat.eqb (length vprevout) (length (vin tx))) then Ok None
          else
            let? o := undo_inputs c st (rev (zip (vin tx) vprevout)) (ok_clean k) in
            Ok (match o with Some (c, st, fClean) => Some (c, temp, st, fClean) | None => None end)
      end
  end.

Fixpoint undo_txs c temp st (txs : list (CTransaction * option (list Coin))) (vUndoData : list (list Z * CBlockAssetUndo)) (nHeight : Z) (fClean : bool)
    : result block_error (option (cache * asset_state * bool)) :=
  match txs with
  | [] => Ok (Some (c, st, fClean))
  | (tx, txundo) :: txs =>
      let? o := undo_tx c temp st tx txundo vUndoData nHeight fClean in
      match o with
      | None => Ok None
      | Some (c, temp, st, fClean) => undo_txs c temp st txs vUndoData nHeight fClean
      end
  end.

(** Without a state when the view is left in an indeterminate one. *)
Definition DisconnectBlock (block : list CTransaction) (blockUndo : option (list (list Coin))) (vUndoData : option (list (list Z * CBlockAssetUndo)))
    (nHeight : Z) (prevHash : uint256) c st : result block_error (DisconnectResult * option (cache * asset_state)) :=
  match blockUndo with
  | None => Ok (DISCONNECT_FAILED, None)
  | Some vtxundo =>
      if negb (Nat.eqb (length vtxundo + 1) (length block)) then Ok (DISCONNECT_FAILED, None)
      else
        match vUndoData with
        | None => Ok (DISCONNECT_FAILED, None)
        | Some vUndoData =>
            let? o := undo_txs c st st (rev (zip block (None :: map Some vtxundo))) vUndoData nHeight true in
            match o with
            | None => Ok (DISCONNECT_FAILED, None)
            | Some (c, st, fClean) => Ok (if fClean then DISCONNECT_OK else DISCONNECT_UNCLEAN, Some (SetBestBlock c prevHash, st))
            end
        end
  end.

(** The calls of [UpdateCoins] by which [ConnectBlock] changes the coins and the assets. *)
Fixpoint update_all c st (txs : list CTransaction) (nHeight : Z) (blockHash : uint256)
    : result block_error (list (list Coin) * cache * asset_state * list (list Z * CBlockAssetUndo)) :=
  match txs with
  | [] => Ok ([], c, st, [])
  | tx :: txs =>
      let? r := UpdateCoins c st tx nHeight blockHash in
      let '(spent, c, st, u) := r in
      let? r := update_all c st txs nHeight blockHash in
      let '(undos, c, st, us) := r in
      Ok (spent :: undos, c, st, match u with Some u => u :: us | None => us end)
  end.

(** ** The parts of a clean removal *)

Lemma spend_outputs_unclean txid outs h cb : ∀ c i r, spend_outputs c txid outs i h cb false = Ok r → r.1 = false.
Proof.
  induction outs as [|out outs IH]; intros c i r; cbn [spend_outputs]; [by intros [= <-]|].
  destruct (script_read _) as [[]|]; cbn [rbind]; [apply IH| |done]. destruct (Chainstate.spend c _) as [[[s coin] c1]|]; cbn [rbind]; [|done].
  destruct (_ || _); apply IH.
Qed.
Lemma restore_inputs_unclean ins : ∀ c r c', restore_inputs c ins false = Ok (Some r, c') → r = false.
Proof.
  induction ins as [|[i undo] ins IH]; intros c r c'; cbn [restore_inputs]; [by intros [= <- _]|].
  destruct (undo_coin undo c (prevout i)) as [[res c1]|]; cbn [rbind fst snd]; [|done]. destruct res; [apply IH|apply IH|done].
Qed.

Lemma rev_zip_snd {A B} (l : list A) (k : list B) : length l = length k → (rev (zip l k)).*2 = rev k.
Proof. intros Hl. change ((rev (zip l k)).*2) with (map snd (rev (zip l k))). rewrite map_rev. f_equal. apply snd_zip. lia. Qed.
Lemma forallb_rev {A} (f : A → bool) l : forallb f (rev l) = forallb f l.
Proof. induction l as [|a l IH]; [done|]. cbn [rev forallb]. rewrite forallb_app, IH. cbn. rewrite andb_true_r. apply andb_comm. Qed.
Lemma read_script {A} (r : result nat A) a : script_read r = Ok a → read r = Ok a.
Proof. destruct r; cbn; congruence. Qed.
Lemma in_block_read {A} (r : result tx_error A) a : r = Ok a → in_block r = Ok a.
Proof. by intros ->. Qed.

Section deployed.
Hypothesis Hd : AreAssetsDeployed = true.

(** Coins that match the outputs are spent as the outputs are. *)
Lemma remove_outputs_parts txid outs h cb : ∀ c temp temp0 i k c' k', spend_outputs c txid outs i h cb true = Ok (true, c') → sort_outputs temp0 txid outs i k = Ok k' →
  ∃ temp', remove_outputs c temp txid outs i h cb k = Ok (c', temp', k').
Proof.
  induction outs as [|out outs IH]; intros c temp temp0 i k c' k' Hs Hk; cbn [spend_outputs sort_outputs remove_outputs] in *.
  { injection Hs as <-. injection Hk as <-. by exists temp. }
  destruct k as [transfers null verifier clean]. destruct (script_read (IsUnspendable (scriptPubKey out))) as [un|] eqn:Hu; [|done].
  rewrite (in_block_read _ _ (read_script _ _ Hu)). rewrite (read_script _ _ Hu) in Hk. cbn [rbind] in *. destruct un; cbn [negb] in *; [by eapply IH|].
  rewrite Hd in *. destruct (Chainstate.spend c (mkOutPoint txid (u32 i))) as [[[found coin] c1]|] eqn:Hc; [|done]. cbn [rbind] in Hs.
  destruct (negb found || _ || _ || _) eqn:Hm; [by apply spend_outputs_unclean in Hs|]. apply orb_false_elim in Hm as [Hm Hm4]. apply orb_false_elim in Hm as [Hm Hm3].
  apply orb_false_elim in Hm as [Hm1 Hm2]. apply negb_false_iff in Hm1, Hm2. subst found. apply bool_decide_eq_true in Hm2 as Hout.
  destruct (TrySpendCoin temp0.1 temp0.2 _ out) as [[b a]|] eqn:Ht; [|done]. cbn [rbind fst snd] in Hk.
  destruct (TrySpendCoin_verdict _ _ temp.1 temp.2 _ _ _ _ Ht) as [a' Ht']. unfold SpendCoin_assets. rewrite Hc, Hd. cbn [in_coins rbind andb]. rewrite <- Hout, Ht'. cbn [in_block rbind fst snd].
  destruct (IsScriptTransferAsset (scriptPubKey out)) as [t|]; [|done]. cbn [in_block rbind] in *.
  rewrite bool_decide_eq_true_2, Hm3, Hm4 by done. cbn [negb orb]. rewrite !orb_false_r. replace (if negb b then false else clean) with (clean && b) by (by destruct b, clean). by eapply IH.
Qed.

Lemma undo_inputs_parts ins : ∀ c st fClean c' st' b, restore_inputs c ins true = Ok (Some true, c') → restore_asset_inputs st ins.*2 fClean = Ok (st', b) →
  undo_inputs c st ins fClean = Ok (Some (c', st', b)).
Proof.
  induction ins as [|[i undo] ins IH]; intros c st fClean c' st' b; cbn [restore_inputs restore_asset_inputs undo_inputs fmap list_fmap snd].
  { by intros [= <-] [= <- <-]. }
  unfold ApplyTxInUndo. destruct (undo_coin undo c (prevout i)) as [[res c1]|] eqn:Hu; [|done]. cbn [rbind fst snd in_coins]. intros Hr.
  destruct (read (IsAssetScript (scriptPubKey (c_out undo)))) as [a|] eqn:Ha; [|done]. rewrite (in_block_read _ _ eq_refl). cbn [rbind]. rewrite Hd. cbn [andb].
  destruct res; [|by apply restore_inputs_unclean in Hr|done]. destruct (is_some a).
  - destruct (UndoAssetCoin st.1 st.2 undo) as [[ok a1]|]; [|done]. cbn [in_block rbind fst snd]. intros Hs. destruct ok; by apply IH.
  - cbn [rbind]. rewrite andb_true_r. by apply IH.
Qed.

Lemma undo_tx_parts c temp temp0 st tx spent u h fClean c' o :
  (if IsCoinBase tx then spent = [] else length spent = length (vin tx)) →
  disconnect_tx c tx (undo_arg tx spent) h true = Ok (Some true, c') → disconnect_asset_tx temp0 st tx spent u fClean = Ok o →
  ∃ temp', undo_tx c temp st tx (undo_arg tx spent) u h fClean = Ok (match o with Some (st', b) => Some (c', temp', st', b) | None => None end).
Proof.
  intros Hl Hc Ha. unfold disconnect_tx, disconnect_asset_tx, undo_tx in *.
  destruct (spend_outputs c (tx_GetHash tx) (vout tx) 0 h (IsCoinBase tx) true) as [[f c1]|] eqn:Hs; [|done]. cbn [rbind fst snd] in Hc.
  assert (f = true) as ->.
  { unfold undo_arg in Hc. destruct (IsCoinBase tx); [by injection Hc|]. destruct f; [done|]. destruct (negb _); [done|]. by apply restore_inputs_unclean in Hc. }
  destruct (sort_outputs temp0 _ _ 0 _) as [k|] eqn:Hk; [|done]. cbn [rbind] in Ha.
  destruct (remove_outputs_parts _ _ _ _ c temp temp0 0 _ c1 k Hs Hk) as [temp' ->]. cbn [rbind]. exists temp'.
  fold (undo_assets st tx k u) in Ha. destruct (undo_assets st tx k u) as [[st1|]|]; cbn [in_block rbind tri_bind] in *; [|by injection Ha as <-|done].
  unfold undo_arg in *. destruct (IsCoinBase tx).
  - subst spent. cbn [rev restore_asset_inputs rbind] in Ha. injection Ha as <-. by injection Hc as ->.
  - rewrite Hl, Nat.eqb_refl in *. cbn [negb] in *. destruct (restore_asset_inputs st1 (rev spent) (ok_clean k)) as [[st' b]|] eqn:Hr; [|done]. cbn [rbind] in Ha. injection Ha as <-.
    rewrite (undo_inputs_parts _ _ _ _ c' st' b); [done|done|]. rewrite <- Hr. by rewrite rev_zip_snd by lia.
Qed.

Lemma disconnect_tx_unclean c tx u h r c' : disconnect_tx c tx u h false = Ok (Some r, c') → r = false.
Proof.
  unfold disconnect_tx. destruct (spend_outputs _ _ _ _ _ _ _) as [[f c1]|] eqn:Hs; cbn [rbind fst snd]; [|done]. apply spend_outputs_unclean in Hs. cbn in Hs. subst f.
  destruct u; [|by intros [= <- _]]. destruct (negb _); [done|]. apply restore_inputs_unclean.
Qed.
Lemma disconnect_txs_unclean txs h : ∀ c r c', disconnect_txs c txs h false = Ok (Some r, c') → r = false.
Proof.
  induction txs as [|[tx u] txs IH]; intros c r c'; cbn [disconnect_txs]; [by intros [= <- _]|].
  destruct (disconnect_tx c tx u h false) as [[[f|] c1]|] eqn:Ht; cbn [rbind fst snd]; [|done..]. apply disconnect_tx_unclean in Ht as ->. apply IH.
Qed.

Abbreviation with_undo := (map (fun p : CTransaction * list Coin => (p.1, undo_arg p.1 p.2))).
Definition undo_matches (p : CTransaction * list Coin) : Prop := if IsCoinBase p.1 then p.2 = [] else length p.2 = length (vin p.1).

Lemma undo_txs_parts temp0 u h l : Forall undo_matches l → ∀ c temp st fClean c' o,
  disconnect_txs c (with_undo l) h true = Ok (Some true, c') → disconnect_assets temp0 st l u fClean = Ok o →
  undo_txs c temp st (with_undo l) u h fClean = Ok (match o with Some (st', b) => Some (c', st', b) | None => None end).
Proof.
  induction 1 as [|[tx spent] l Hl _ IH]; intros c temp st fClean c' o; cbn [map disconnect_txs disconnect_assets undo_txs fst snd].
  { intros [= <-] [= <-]. done. }
  destruct (disconnect_tx c tx (undo_arg tx spent) h true) as [[[f|] c1]|] eqn:Ht; cbn [rbind fst snd]; [|done..]. intros Hr.
  destruct f; [|by apply disconnect_txs_unclean in Hr]. destruct (disconnect_asset_tx temp0 st tx spent u fClean) as [o1|] eqn:Ha; [|done].
  destruct (undo_tx_parts c temp temp0 st tx spent u h fClean c1 o1 Hl Ht Ha) as [temp' ->]. cbn [rbind tri_bind]. destruct o1 as [[st1 b1]|]; [|by intros [= <-]]. by apply IH.
Qed.

(** ** The verdict *)

(** An output that can be taken away, and a coin that can be given back, without a trace. *)
Definition out_clean (out : CTxOut) : bool :=
  match IsUnspendable (scriptPubKey out), output_asset (scriptPubKey out) with
  | Ok false, Ok (Some (Some (name, address, _))) => negb (bool_decide (address = [])) && negb (bool_decide (name = []))
  | Ok false, Ok (Some None) => false
  | _, _ => true
  end.
Definition coin_clean (coin : Coin) : bool :=
  match output_asset (scriptPubKey (c_out coin)) with
  | Ok (Some (Some (name, address, amount))) => negb (bool_decide (name = [])) && negb (bool_decide (address = [])) && negb (amount =? 0)
  | Ok (Some None) => false
  | _ => true
  end.
Definition tx_clean (p : CTransaction * list Coin) : bool := forallb out_clean (vout p.1) && forallb coin_clean p.2.

Lemma TrySpendCoin_clean a s o out b a' : IsUnspendable (scriptPubKey out) = Ok false → TrySpendCoin a s o out = Ok (b, a') → b = out_clean out.
Proof.
  intros Hu. unfold TrySpendCoin, out_clean. rewrite Hu. destruct (output_asset _) as [[[[[n ad] x]|]|]|]; cbn [rbind]; [|by intros [= <- _]..|done].
  destruct (decide (ad = [])) as [Ha|Ha]; [intros [= <- _]; by rewrite bool_decide_eq_true_2|]. rewrite (bool_decide_eq_false_2 _ Ha).
  destruct (decide (n = [])) as [Hn|Hn]; [intros [= <- _]; by rewrite bool_decide_eq_true_2|]. rewrite (bool_decide_eq_false_2 _ Hn).
  destruct (fAssetIndex && _); [|by intros [= <- _]]. destruct (GetBestAssetAddressAmount _ _ _ _) as [[] ?]; by intros [= <- _].
Qed.

Lemma sort_outputs_clean txid outs : ∀ temp i k k', sort_outputs temp txid outs i k = Ok k' → ok_clean k' = ok_clean k && forallb out_clean outs.
Proof.
  induction outs as [|out outs IH]; intros temp i [ts nl v clean] k'; cbn [sort_outputs]; [intros [= <-]; by rewrite andb_true_r|]. rewrite Hd.
  destruct (read (IsUnspendable (scriptPubKey out))) as [un|] eqn:Hu; cbn [rbind]; [|done]. assert (IsUnspendable (scriptPubKey out) = Ok un) as Hu' by (by destruct (IsUnspendable _); [injection Hu as ->|]).
  destruct un; cbn [negb].
  - intros ->%IH. cbn [forallb]. replace (out_clean out) with true by (unfold out_clean; by rewrite Hu'). by repeat case_match.
  - destruct (TrySpendCoin _ _ _ _) as [[b a]|] eqn:Ht; cbn [rbind fst snd]; [|done]. apply TrySpendCoin_clean in Ht as ->; [|done].
    destruct (IsScriptTransferAsset _); cbn [rbind]; [|done]. intros ->%IH. cbn. by rewrite andb_assoc.
Qed.

Lemma output_asset_some script a : read (IsAssetScript script) = Ok (Some a) → output_asset script ≠ Ok None.
Proof.
  intros Ha. unfold output_asset. rewrite Ha. cbn [rbind].
  repeat (match goal with |- (if ?b then _ else _) ≠ _ => destruct b end; [match goal with |- rbind ?r _ ≠ _ => destruct r end; cbn [rbind]; discriminate|]). discriminate.
Qed.
Lemma UndoAssetCoin_clean a s coin b a' x : read (IsAssetScript (scriptPubKey (c_out coin))) = Ok (Some x) → UndoAssetCoin a s coin = Ok (b, a') → b = coin_clean coin.
Proof.
  intros Hx%output_asset_some. unfold UndoAssetCoin, coin_clean. destruct (output_asset _) as [[[[[n ad] amount]|]|]|]; cbn [rbind]; [|by intros [= <- _]|done|done].
  destruct (decide (n = [])) as [Hn|Hn]; [intros [= <- _]; by rewrite bool_decide_eq_true_2|]. rewrite (bool_decide_eq_false_2 _ Hn).
  destruct (decide (ad = [])) as [Ha|Ha]; [intros [= <- _]; by rewrite bool_decide_eq_true_2|]. rewrite (bool_decide_eq_false_2 _ Ha).
  destruct (amount =? 0); by intros [= <- _].
Qed.

Lemma restore_clean coins : ∀ st b st' b', restore_asset_inputs st coins b = Ok (st', b') → b' = b && forallb coin_clean coins.
Proof.
  induction coins as [|coin coins IH]; intros st b st' b'; cbn [restore_asset_inputs]; [intros [= _ <-]; by rewrite andb_true_r|]. rewrite Hd. cbn [andb forallb].
  destruct (read (IsAssetScript _)) as [[a|]|] eqn:Ha; cbn [rbind is_some]; [| |done].
  - destruct (UndoAssetCoin _ _ _) as [[ok a1]|] eqn:Hu; cbn [rbind fst snd]; [|done]. apply (UndoAssetCoin_clean _ _ _ _ _ a Ha) in Hu as ->. intros ->%IH. by rewrite andb_assoc.
  - replace (coin_clean coin) with true by (unfold coin_clean, output_asset; by rewrite Ha). apply IH.
Qed.

Lemma disconnect_assets_clean temp u txs : ∀ st b st' b', disconnect_assets temp st txs u b = Ok (Some (st', b')) → b' = b && forallb tx_clean txs.
Proof.
  induction txs as [|[tx spent] txs IH]; intros st b st' b'; cbn [disconnect_assets]; [intros [= _ <-]; by rewrite andb_true_r|].
  unfold disconnect_asset_tx. destruct (sort_outputs _ _ _ _ _) as [k|] eqn:Hk; cbn [rbind tri_bind]; [|done]. apply sort_outputs_clean in Hk. cbn [ok_clean] in Hk.
  fold (undo_assets st tx k u). destruct (undo_assets st tx k u) as [[st1|]|]; cbn [rbind tri_bind]; [|done..].
  destruct (restore_asset_inputs st1 (rev spent) (ok_clean k)) as [[st2 b2]|] eqn:Hr; cbn [rbind tri_bind fst snd]; [|done]. apply restore_clean in Hr as ->. intros ->%IH. rewrite Hk.
  cbn [forallb]. unfold tx_clean at 2. cbn [fst snd]. rewrite forallb_rev, !andb_assoc. done.
Qed.
End deployed.

(** ** Connecting *)

Lemma update_all_parts txs h b : ∀ c st undos c' st' u, update_all c st txs h b = Ok (undos, c', st', u) →
  connect_txs c txs h = Ok (undos, c') ∧ connect_assets st (zip txs undos) h b = Ok (st', u).
Proof.
  induction txs as [|tx txs IH]; intros c st undos c' st' u; cbn [update_all connect_txs]; [by intros [= <- <- <- <-]|].
  destruct (UpdateCoins c st tx h b) as [[[[spent c1] st1] u1]|] eqn:Hu; cbn [rbind]; [|done]. apply UpdateCoins_parts in Hu as [-> Ha]. cbn [rbind fst snd].
  destruct (update_all c1 st1 txs h b) as [[[[us c2] st2] u2]|] eqn:Hr; cbn [rbind]; [|done]. intros [= <- <- <- <-]. apply IH in Hr as [-> Hr].
  split; [done|]. cbn [zip zip_with connect_assets]. rewrite Ha. cbn [rbind fst snd]. rewrite Hr. done.
Qed.

Lemma undos_match h txs : ∀ U undos, undos_of h U txs undos → Forall undo_matches (zip txs undos).
Proof.
  induction txs as [|tx txs IH]; intros U [|u us] H; try done. destruct H as [Hu Hus]. cbn. constructor; [|by eapply IH].
  unfold undo_matches, undo_of, prevouts in *. cbn [fst snd]. destruct (IsCoinBase tx); [by apply Forall2_nil_inv_l in Hu|].
  apply Forall2_length in Hu. by rewrite length_map in Hu.
Qed.
Lemma zip_undo txs : ∀ undos, zip_with (fun tx u => (tx, undo_arg tx u)) txs undos = map (fun p => (p.1, undo_arg p.1 p.2)) (zip txs undos).
Proof. induction txs as [|tx txs IH]; intros [|u us]; cbn; [done..|]. f_equal. apply IH. Qed.

(** ** What is asked of the assets of a block *)

Record assets_accepted (D : gset (list Z * list Z)) (pool : list Z → bool) (s0 : asset_store) (txs : list (CTransaction * list Coin)) (es : list issue_effect) : Prop := {
  aa_store : store_ok D s0;
  aa_effects : effects_of txs = Ok es;
  aa_block : block_ok s0 es;
  aa_readable : Forall readable_tx txs;
  aa_limits : limits_accepted s0 pool (scripts_of txs)
}.
(** A state that answers as a block with the cache [a] over [s0] left it. *)
Record left_by (D : gset (list Z * list Z)) (s0 : asset_store) (a : CAssetsCache) (es : list issue_effect) (s1 : asset_store) : Prop := {
  lb_store : store_ok D s1;
  lb_answers : same_answers a (passets s0) (passetsdb s0) (prestricteddb s0) AssetsCache_new (passets s1) (passetsdb s1) (prestricteddb s1);
  lb_reissued : ∀ k, k ∈ flat_map issue_names es → mapReissuedAssetData (passets s1) !! k = None
}.
End disconnect.

(** ** Properties *)

(** C10: disconnecting a block undoes connecting it.  Let the calls of [UpdateCoins] for a
    block succeed, over coins that each transaction spends once and whose outpoints it does
    not create again, and over a state [s0] of the assets; let assets and restricted assets
    be deployed, and the block be one whose asset transactions the checks accept over [s0]
    (the conditions of C8).  Run [DisconnectBlock], with the undo data that connecting gave,
    on any cache of the coins the block left and any state [s1] that answers as the block
    left it.  Then it stops at no assertion; unless it returns [DISCONNECT_FAILED], which
    happens only with the index of balances, every coin and the previous best block are
    back, and the cache of assets gives over [s1] the answers of [s0] ([undone_answer]).
    Without the index it returns [DISCONNECT_OK] exactly when the asset data of every
    spendable output can be read and no spent coin carries the amount zero of an asset; a
    block that spends the output of a reissue of amount zero gives [DISCONNECT_UNCLEAN],
    which [DisconnectTip] takes for an error. *)
Theorem block_disconnect_roundtrip {V : Type} {View : CCoinsView V} {Laws : CoinsViewLaws V} {Cry : Crypto} {Split : BoostSplit} {Env : AssetEnv} {Flags : AssetFlags}
    D pool (c : CCoinsViewCache V) s0 cb txs es nHeight blockHash prevHash undos c1 a1 s' u (c1' : CCoinsViewCache V) s1 :
  AreAssetsDeployed = true → AreRestrictedAssetsDeployed = true →
  cache_ok c → utxo_valid (cache_utxo c) → 0 < nHeight < 2 ^ 31 →
  IsCoinBase cb = true → Forall (fun tx => IsCoinBase tx = false) txs → txs_connect nHeight (cache_utxo c) (cb :: txs) →
  update_all c (AssetsCache_new, s0) (cb :: txs) nHeight blockHash = Ok (undos, c1, (a1, s'), u) →
  assets_accepted D pool s0 (zip (cb :: txs) undos) es →
  cache_ok c1' → (∀ p, cache_utxo c1' p = cache_utxo c1 p) → left_by D s0 a1 es s1 →
  (∀ p, cache_utxo c1 p = fold_left (connect_map nHeight) (cb :: txs) (cache_utxo c) p) ∧
  ∃ res o, DisconnectBlock (cb :: txs) (Some (tail undos)) (Some u) nHeight prevHash c1' (AssetsCache_new, s1) = Ok (res, o) ∧
    (fAssetIndex = false → res = if forallb tx_clean (zip (cb :: txs) undos) then DISCONNECT_OK else DISCONNECT_UNCLEAN) ∧
    (res = DISCONNECT_FAILED ↔ o = None) ∧
    ∀ c2 a2 s2, o = Some (c2, (a2, s2)) → cache_ok c2 ∧ (∀ p, cache_utxo c2 p = cache_utxo c p) ∧ hashBlock c2 = prevHash ∧
      ∀ name address, undone_answer s0 es a2 s2 name address.
Proof.
  intros Hd Hd2 Hok HU Hh Hcb Htxs Hc Hup [A1 A2 A3 A4 A5] Hok1 Hsame [L1 L2 L3]. assert (holds c (cache_utxo c)) as HUc by done.
  apply update_all_parts in Hup as [Hcoins Hassets].
  destruct (connect_txs_spec nHeight (cb :: txs) c _ HUc Hc) as (undos' & c1b & Hcon & Hus & HU1 & _). rewrite Hcoins in Hcon. injection Hcon as <- <-.
  split; [apply HU1|]. pose proof (undos_of_length _ _ _ _ Hus) as Hl. destruct undos as [|u0 us]; [done|]. cbn [length tail] in *.
  destruct (disconnect_txs_spec nHeight Hh (cb :: txs) c1' _ (u0 :: us) true Hc HU Hus) as (c2 & Hdis & HU2 & _).
  { split; [done|]. intros p. rewrite Hsame. apply HU1. }
  destruct (assets_undone D pool s0 s1 (zip (cb :: txs) (u0 :: us)) es nHeight blockHash a1 s' u (AssetsCache_new, s1) Hd Hd2 A1 L1 A2 A3 A4 A5 Hassets L2 L3) as (o & Ho & Hfail & Hres).
  set (l := zip (cb :: txs) (u0 :: us)) in *. rewrite zip_undo, <- map_rev in Hdis. fold l in Hdis. unfold reverse in Ho. rewrite rev_append_rev, app_nil_r in Ho.
  assert (Forall undo_matches (rev l)) as Hm by (apply Forall_rev; by eapply undos_match).
  pose proof (undo_txs_parts Hd _ u nHeight (rev l) Hm c1' (AssetsCache_new, s1) (AssetsCache_new, s1) true c2 o Hdis Ho) as Hrun.
  unfold DisconnectBlock. rewrite (undo_zip cb txs u0 us), zip_undo, <- map_rev by (done || lia). fold l. rewrite Hrun. cbn [rbind length].
  replace (length us + 1)%nat with (S (length txs)) by lia. rewrite Nat.eqb_refl. cbn [negb].
  destruct o as [[[a2 s2] clean]|].
  - eexists _, _. split; [done|]. apply (disconnect_assets_clean Hd) in Ho as Hcl. rewrite andb_true_l, forallb_rev in Hcl. rewrite Hcl.
    split; [done|]. split; [split; [by destruct (forallb _ _)|done]|]. intros c3 a3 s3 [= <- <- <-]. destruct (Hres a2 s2 clean eq_refl) as (_ & Hans & _).
    split; [by destruct HU2 as [[Hb He] _]|]. split; [apply HU2|]. split; [done|]. exact Hans.
  - eexists _, _. split; [done|]. split; [|split; [done|done]]. intros Hi. by destruct (Hfail Hi).
Qed.

(** ** A block that reissues AAA *)

Definition token_coin : Coin := mkCoin (transfer_out token_AAA COIN) false 1.
Definition reissue_block : list CTransaction := [sample_coinbase; reissue_tx (mkReissue asset_AAA COIN 8 0 ([18; 32] ++ replicate 32 1))].
Definition reissue_pairs : list (CTransaction * list Coin) := zip reissue_block [[]; [token_coin]].
Definition token_cache : CCoinsViewCache coins_db := Cache_new (db_with [(sample_outpoint, token_coin)]).
Definition reissue_run : result block_error (list (list Coin) * CCoinsViewCache coins_db * asset_state * list (list Z * CBlockAssetUndo)) :=
  update_all (Cry := toy_crypto) (Env := sample_env) (Flags := plain_flags) token_cache (AssetsCache_new, store_with_AAA) reissue_block 2 blob_null.
Definition reissue_effects : list issue_effect :=
  match effects_of (Hash := ComputeHash (Cry := toy_crypto)) (Cry := toy_crypto) (Env := sample_env) reissue_pairs with Ok es => es | Err _ => [] end.

Lemma reissue_accepted : assets_accepted (Cry := toy_crypto) (Env := sample_env) (Flags := plain_flags) ∅ (fun _ => false) store_with_AAA reissue_pairs reissue_effects.
Proof.
  assert (∀ p, p ∈ reissue_pairs → p = (sample_coinbase, []) ∨ p = (reissue_tx (mkReissue asset_AAA COIN 8 0 ([18; 32] ++ replicate 32 1)), [token_coin])) as Hp.
  { intros p Hin. apply elem_of_cons in Hin as [->|Hin]; [by left|]. apply list_elem_of_singleton in Hin as ->. by right. }
  constructor.
  - apply store_of_ok. intros k d Hd. cbn in Hd. apply lookup_singleton_Some in Hd as [<- <-]. reflexivity.
  - vm_compute. reflexivity.
  - constructor.
    + apply (bool_decide_unpack _). vm_compute. exact I.
    + replace (flat_map issue_names reissue_effects) with (@nil (list Z)) by (vm_compute; reflexivity). intros k Hk. by apply not_elem_of_nil in Hk.
    + intros r ad out v Hin. exists (AAA_with COIN 0 1). assert (r = mkReissue asset_AAA COIN 8 0 ([18; 32] ++ replicate 32 1)) as ->.
      { let l := eval vm_compute in reissue_effects in replace reissue_effects with l in Hin by (vm_compute; reflexivity).
        repeat (apply elem_of_cons in Hin as [Hin|Hin]; [first [discriminate|injection Hin as -> _ _ _; reflexivity]|]). by apply not_elem_of_nil in Hin. }
      split; [vm_compute; reflexivity|]. split; [reflexivity|]. split; [vm_compute; reflexivity|]. unfold typed, sfits. vm_compute. repeat split; discriminate.
    + intros e k v Hin Hv. exfalso. revert Hv. let l := eval vm_compute in reissue_effects in replace reissue_effects with l in Hin by (vm_compute; reflexivity).
      repeat (apply elem_of_cons in Hin as [->|Hin]; [vm_compute; discriminate|]). by apply not_elem_of_nil in Hin.
  - apply Forall_forall. intros p Hin. apply Hp in Hin as [-> | ->]; constructor.
    + repeat constructor; vm_compute; try reflexivity; intros; discriminate.
    + constructor.
    + intros Hr. exfalso. revert Hr. vm_compute. discriminate.
    + apply Forall_forall. intros out Hin. cbn [fst vout reissue_tx AssetBalance.spend] in Hin.
      repeat (apply elem_of_cons in Hin as [->|Hin]; [constructor; try (vm_compute; reflexivity); vm_compute; intros; try discriminate; eauto|]). by apply not_elem_of_nil in Hin.
    + constructor; [vm_compute; reflexivity|constructor].
    + intros Hr. exfalso. revert Hr. vm_compute. discriminate.
  - assert (∀ script, script ∈ scripts_of reissue_pairs →
      null_data (Cry := toy_crypto) (Env := sample_env) script = None ∧ GlobalAssetNullDataFromScript script = None) as Hn.
    { intros script Hin. unfold scripts_of in Hin. apply elem_of_flat_map in Hin as (p & Hp1 & Hin). apply Hp in Hp1 as [-> | ->];
        cbn [fst vout map reissue_tx AssetBalance.spend sample_coinbase] in Hin;
        repeat (apply elem_of_cons in Hin as [->|Hin]; [vm_compute; done|]); by apply not_elem_of_nil in Hin. }
    constructor; [intros sc d ad [H _]%Hn; congruence|intros sc d ad [H _]%Hn; congruence|intros sc d [_ H]%Hn; congruence].
Qed.

Lemma token_utxo o coin : cache_utxo token_cache o = Some coin → o = sample_outpoint ∧ coin = token_coin.
Proof. intros Ho. change (({[sample_outpoint := token_coin]} : gmap COutPoint Coin) !! o = Some coin) in Ho. by apply lookup_singleton_Some in Ho as [<- <-]. Qed.

Lemma token_connect : txs_connect (Hash := ComputeHash (Cry := toy_crypto)) 2 (cache_utxo token_cache) reissue_block.
Proof.
  split; [|split; [|exact I]].
  - split_and!; [split; [repeat constructor; discriminate|vm_compute; discriminate]|constructor|constructor|].
    intros n. destruct (cache_utxo token_cache _) as [coin|] eqn:Ho; [|done]. apply token_utxo in Ho as [Ho _]. exfalso. revert Ho. vm_compute. discriminate.
  - split_and!; [split; [repeat constructor; discriminate|vm_compute; discriminate]|apply NoDup_singleton| |].
    + repeat constructor. vm_compute. by eexists.
    + intros n. unfold connect_map, overwrite_with, created, created_from. rewrite decide_False by (vm_compute; intros [H _]; discriminate H).
      unfold remove_all. case_decide; [done|]. destruct (cache_utxo token_cache _) as [coin|] eqn:Ho; [|done].
      apply token_utxo in Ho as [Ho _]. exfalso. revert Ho. vm_compute. discriminate.
Qed.

Lemma block_disconnect_roundtrip_witness :
  ∃ undos c1 a1 s' u c2 a2 s2 a, reissue_run = Ok (undos, c1, (a1, s'), u) ∧
    DisconnectBlock (Cry := toy_crypto) (Env := sample_env) (Flags := plain_flags) reissue_block (Some (tail undos)) (Some u) 2 hash_example c1
      (AssetsCache_new, Flush a1 store_with_AAA) = Ok (DISCONNECT_OK, Some (c2, (a2, s2))) ∧
    cache_utxo c2 sample_outpoint = Some token_coin ∧ meta_in a2 (passets s2) (passetsdb s2) asset_AAA = Some a ∧ na_nAmount a = COIN.
Proof.
  destruct reissue_run as [[[[undos c1] [a1 s']] u]|] eqn:Hrun; [|exfalso; revert Hrun; by vm_compute].
  assert (undos = [[]; [token_coin]]) as Hundos.
  { assert (match reissue_run with Ok (us, _, _, _) => us | Err _ => [] end = [[]; [token_coin]]) as H by (vm_compute; reflexivity). by rewrite Hrun in H. }
  pose proof (db_with_holds [(sample_outpoint, token_coin)] eq_refl) as [Hok _].
  assert (store_ok (Cry := toy_crypto) ∅ store_with_AAA) as Hs0 by apply reissue_accepted.
  pose proof (update_all_parts (Cry := toy_crypto) (Env := sample_env) (Flags := plain_flags) reissue_block 2 blob_null _ _ _ _ _ _ Hrun) as [Hcoins _].
  destruct (connect_txs_spec (Hash := ComputeHash (Cry := toy_crypto)) 2 reissue_block token_cache (cache_utxo token_cache) (Logic.conj Hok (fun _ => eq_refl)) token_connect)
    as (us & c & Hc & _ & [Hok1 _] & _).
  rewrite Hcoins in Hc. injection Hc as <- <-.
  destruct (block_disconnect_roundtrip (Cry := toy_crypto) (Env := sample_env) (Flags := plain_flags) ∅ (fun _ => false) token_cache store_with_AAA
    sample_coinbase (tail reissue_block) reissue_effects 2 blob_null hash_example undos c1 a1 s' u c1 (Flush a1 store_with_AAA)) as (_ & res & o & Hd & Hres & Hnone & Hans).
  - reflexivity.
  - reflexivity.
  - exact Hok.
  - intros o coin Ho. apply token_utxo in Ho as [_ ->]. split_and!; [vm_compute; reflexivity..|discriminate].
  - lia.
  - reflexivity.
  - repeat constructor.
  - exact token_connect.
  - exact Hrun.
  - rewrite Hundos. exact reissue_accepted.
  - exact Hok1.
  - reflexivity.
  - split; [by apply store_ok_flush|apply Flush_store_answers, fresh_over_new|].
    replace (flat_map issue_names reissue_effects) with (@nil (list Z)) by (vm_compute; reflexivity). intros k Hk. destruct (not_elem_of_nil k Hk).
  - rewrite Hundos in Hres. specialize (Hres eq_refl). replace (forallb _ _) with true in Hres by (vm_compute; reflexivity). subst res.
    destruct o as [[c2 [a2 s2]]|]; [|discriminate (proj2 Hnone eq_refl)]. destruct (Hans c2 a2 s2 eq_refl) as (_ & Hu & _ & Ha). clear Hans.
    destruct (Ha asset_AAA []) as (_ & _ & _ & _ & _ & Hm).
    replace (flat_map reissue_names reissue_effects) with [asset_AAA] in Hm by (vm_compute; reflexivity).
    destruct (Hm (list_elem_of_here _ _)) as (a & a' & Ha1 & Ha2 & _ & R1 & _).
    replace (meta_at store_with_AAA asset_AAA) with (Some (AAA_with COIN 0 1)) in Ha1 by (vm_compute; reflexivity). injection Ha1 as <-.
    exists undos, c1, a1, s', u, c2, a2, s2, a'. split; [reflexivity|]. split; [exact Hd|]. split; [rewrite Hu; vm_compute; reflexivity|]. split; [exact Ha2|exact R1].
Defined.
