(* ===== verification/Supply.v ===== *)
(** * What a connected block does to the money

    The amount of all unspent coins grows by at most the subsidy of a block that
    [ConnectBlock] accepts, whatever the block contains, once the deployment of enforced
    values is active; before, also by the values of the asset outputs that [GetValueOut]
    leaves out.  The coinbase pays the share of the developers, half of the subsidy. *)

From Stdlib Require Import String.
From stdpp Require Import gmap.
From S2P Require Import Prelude Serialize ArithUint256 Transaction Chain Pow VersionBits Merkle Script Interpreter SigHash Regex AssetTypes AssetNames Verifier LRUCache Coins Chainstate Base58 Standard AssetScripts AssetChecks AssetsCache AssetStore AssetConnect TxVerify BlockChecks AssetBalance ConnectBlock AssetUndo.

Open Scope Z_scope.

(** ** The amount of all coins *)

Section supply.
Implicit Types (M : gmap COutPoint Coin) (U : utxo_map).

Definition supply M : Z := map_fold (fun _ coin s => coin_value coin + s) 0 M.
Definition represents M U : Prop := ∀ p, U p = M !! p.
Definition no_debt M : Prop := map_Forall (fun _ coin => 0 <= coin_value coin) M.

Lemma supply_insert M p coin : M !! p = None → supply (<[p := coin]> M) = coin_value coin + supply M.
Proof. intros Hp. unfold supply. rewrite map_fold_insert_L; [done|intros; lia|done]. Qed.
Lemma supply_delete M p coin : M !! p = Some coin → supply (delete p M) = supply M - coin_value coin.
Proof.
  intros Hp. rewrite <- (insert_delete_id M p coin Hp) at 2. rewrite supply_insert by apply lookup_delete_eq. lia.
Qed.
Lemma supply_overwrite M p coin : no_debt M → 0 <= coin_value coin → no_debt (<[p := coin]> M) ∧ supply (<[p := coin]> M) <= supply M + coin_value coin.
Proof.
  intros Hn Hc. split; [by apply map_Forall_insert_2|]. destruct (M !! p) as [old|] eqn:Hp; [|rewrite supply_insert by done; lia].
  rewrite <- insert_delete_eq, supply_insert by apply lookup_delete_eq. rewrite (supply_delete M p old Hp). specialize (Hn p old Hp). cbn in Hn. lia.
Qed.

Lemma mapM_map {A B D} (g : A → B) (f : B → option D) l : mapM f (map g l) = mapM (fun x => f (g x)) l.
Proof. induction l as [|x l IH]; [done|]. cbn. by rewrite IH. Qed.

Lemma mapM_ext_in {A B} (f g : A → option B) l : (∀ x, x ∈ l → f x = g x) → mapM f l = mapM g l.
Proof.
  induction l as [|x l IH]; intros He; [done|]. cbn. rewrite (He x) by by left. rewrite IH; [done|]. intros y Hy. apply He. by right.
Qed.

(** Spending distinct coins takes their values out. *)
Lemma supply_spend ps : ∀ M U coins, NoDup ps → represents M U → no_debt M → mapM U ps = Some coins →
  ∃ M', represents M' (remove_all ps U) ∧ no_debt M' ∧ supply M' = supply M - sum_coins coins.
Proof.
  induction ps as [|p ps IH]; intros M U coins Hnd Hr Hn Hm.
  - injection Hm as <-. exists M. split_and!; [|done|cbn; lia]. intros q. by rewrite remove_nil.
  - apply NoDup_cons in Hnd as [Hp Hnd]. cbn in Hm. destruct (U p) as [coin|] eqn:Hu; [|done]. cbn in Hm.
    destruct (mapM U ps) as [rest|] eqn:Hrest; [|done]. injection Hm as <-.
    destruct (IH (delete p M) (remove_all [p] U) rest Hnd) as (M' & R1 & R2 & R3).
    + intros q. rewrite remove_one. destruct (decide (q = p)) as [->|Hne]; [by rewrite lookup_delete_eq|]. rewrite lookup_delete_ne by done. apply Hr.
    + by apply map_Forall_delete.
    + rewrite <- Hrest. apply mapM_ext_in. intros q Hq. rewrite remove_one, decide_False; [done|]. intros ->. done.
    + exists M'. split_and!; [|done|].
      * intros q. rewrite <- R1. unfold remove_all at 1 2. rewrite remove_one.
        destruct (decide (q = p)) as [->|Hne]; [rewrite decide_True by (by left); by case_decide|].
        destruct (decide (q ∈ ps)); [by rewrite decide_True by (by right)|]. rewrite decide_False; [done|]. rewrite elem_of_cons. tauto.
      * rewrite R3, (supply_delete M p coin) by by rewrite <- Hr. change (sum_coins (coin :: rest)) with (coin_value coin + sum_coins rest). lia.
Qed.

(** Creating coins adds at most the values of the outputs. *)
Lemma supply_create txid h cb outs : ∀ i M U, 0 <= i → represents M U → no_debt M → Forall (fun o => 0 <= nValue o <= MAX_MONEY) outs →
  ∃ M', represents M' (overwrite_with (created_from txid outs i h cb) U) ∧ no_debt M' ∧ supply M' <= supply M + sum_values outs.
Proof.
  induction outs as [|out outs IH]; intros i M U Hi Hr Hn Hv.
  - exists M. split_and!; [|done|cbn; lia]. intros q. rewrite <- Hr. unfold overwrite_with, created_from. by case_decide.
  - apply Forall_cons in Hv as [Ho Hv]. set (p := mkOutPoint txid i). set (coin := Coin_make out h cb).
    set (M1 := if Chainstate.spendable out then <[p := coin]> M else M).
    assert (no_debt M1 ∧ supply M1 <= supply M + nValue out) as [N1 S1].
    { unfold M1. destruct (Chainstate.spendable out); [|split; [done|lia]]. apply supply_overwrite; [done|]. apply Ho. }
    destruct (IH (i + 1) M1 (fun q => M1 !! q)) as (M' & R1 & R2 & R3); [lia|done|done|done|]. exists M'.
    split_and!; [|done|change (sum_values (out :: outs)) with (nValue out + sum_values outs); lia].
    intros q. rewrite <- R1. unfold overwrite_with. rewrite created_from_cons by lia. fold p. destruct (decide (q = p)) as [->|Hne].
    + unfold p. rewrite created_from_past by lia. fold p. unfold M1. destruct (Chainstate.spendable out); [by rewrite lookup_insert_eq|apply Hr].
    + destruct (created_from txid outs (i + 1) h cb q); [done|]. unfold M1. destruct (Chainstate.spendable out); [rewrite lookup_insert_ne by done|]; apply Hr.
Qed.

(** A transaction: what goes in comes out or is the fee. *)
Lemma supply_connect `{TxHash} h M U tx coins : represents M U → no_debt M → NoDup (prevouts tx) → mapM U (prevouts tx) = Some coins →
  Forall (fun o => 0 <= nValue o <= MAX_MONEY) (vout tx) →
  ∃ M', represents M' (connect_map h U tx) ∧ no_debt M' ∧ supply M' <= supply M - sum_coins coins + sum_values (vout tx).
Proof.
  intros Hr Hn Hnd Hm Hv. destruct (supply_spend (prevouts tx) M U coins Hnd Hr Hn Hm) as (M1 & R1 & N1 & S1).
  destruct (supply_create (tx_GetHash tx) h (IsCoinBase tx) (vout tx) 0 M1 _ ltac:(lia) R1 N1 Hv) as (M2 & R2 & N2 & S2).
  exists M2. split_and!; [done|done|lia].
Qed.
End supply.

(** ** Reading coins changes nothing *)

Section connecting.
Context {V : Type} {View : CCoinsView V} {Laws : CoinsViewLaws V} {C : Type} {EC : ExecutionCache C}.
Context {Cry : Crypto} {Pow : PowHash} {Split : BoostSplit} {Env : AssetEnv} {Flags : AssetFlags}.
Implicit Types (c : CCoinsViewCache V) (U : utxo_map).

Lemma unspent_coin_holds c U o coin c' : holds c U → unspent_coin c o = Ok (coin, c') → holds c' U ∧ U o = Some coin.
Proof.
  intros Hh Hu. pose proof (unspent_coin_spec c U o Hh) as Hs. destruct (U o); [|by rewrite Hs in Hu].
  destruct Hs as (c1 & Hs & H1). rewrite Hs in Hu. by injection Hu as -> ->.
Qed.
Lemma in_chain_Ok {A} (r : result chain_error A) a : in_chain r = Ok a → r = Ok a.
Proof. destruct r; cbn; by intros [= ->]. Qed.
Lemma dos_Ok b n s u : dos b n s = Ok u → b = true.
Proof. unfold dos. by destruct b. Qed.
Lemma each_ok_Ok {A} (f : A → result block_error ()) l u : each_ok f l = Ok u → ∀ a, a ∈ l → f a = Ok ().
Proof.
  induction l as [|x l IH]; cbn [each_ok]; intros H a Ha; [by apply elem_of_nil in Ha|].
  apply rbind_Ok in H as ([] & Hx & H). apply elem_of_cons in Ha as [->|Ha]; auto.
Qed.

Lemma prev_heights_holds U ins : ∀ c hs c', holds c U → prev_heights c ins = (hs, c') → holds c' U.
Proof.
  induction ins as [|i ins IH]; intros c hs c' Hh Hp; cbn [prev_heights] in Hp; [by injection Hp as _ <-|].
  destruct (AccessCoin_spec c (prevout i) (proj1 Hh)) as (coin & c1 & Ha & Hs & _). rewrite Ha in Hp.
  destruct (prev_heights c1 ins) as [hs1 c2] eqn:Hr. injection Hp as _ <-. eapply IH; [|exact Hr]. by destruct (same_holds c c1 U Hs Hh).
Qed.
Lemma p2sh_sigops_holds U ins : ∀ c n r c', holds c U → p2sh_sigops c ins n = Ok (r, c') → holds c' U.
Proof.
  induction ins as [|i ins IH]; intros c n r c' Hh Hp; cbn [p2sh_sigops] in Hp; [by injection Hp as _ <-|].
  apply rbind_Ok in Hp as ([coin c1] & Hu & Hp). apply (unspent_coin_holds c U) in Hu as [H1 _]; [|done]. by eapply IH.
Qed.
Lemma witness_sigops_holds U flags ins : ∀ c n r c', holds c U → witness_sigops flags c ins n = Ok (r, c') → holds c' U.
Proof.
  induction ins as [|i ins IH]; intros c n r c' Hh Hp; cbn [witness_sigops] in Hp; [by injection Hp as _ <-|].
  apply rbind_Ok in Hp as ([coin c1] & Hu & Hp). apply (unspent_coin_holds c U) in Hu as [H1 _]; [|done].
  destruct (CountWitnessSigOps _ _ _ _); [|done]. by eapply IH.
Qed.
Lemma sigop_cost_holds U c tx flags r c' : holds c U → GetTransactionSigOpCost c tx flags = Ok (r, c') → holds c' U.
Proof.
  intros Hh. unfold GetTransactionSigOpCost, GetP2SHSigOpCount. destruct (IsCoinBase tx); [by intros [= _ <-]|]. intros Hr.
  apply rbind_Ok in Hr as ([n c1] & H1 & Hr). cbn [fst snd] in Hr. apply (witness_sigops_holds U) in Hr; [done|].
  destruct (flag_set flags SCRIPT_VERIFY_P2SH); [|by injection H1 as _ <-]. apply rbind_Ok in H1 as ([n1 c2] & H2 & H1). injection H1 as _ <-.
  by eapply p2sh_sigops_holds.
Qed.
Lemma check_scripts_holds U tx ins : ∀ c i flags queue ks c', holds c U → check_scripts c tx ins i flags queue = Ok (ks, c') → holds c' U.
Proof.
  induction ins as [|txin ins IH]; intros c i flags queue ks c' Hh Hr; cbn [check_scripts] in Hr; [by injection Hr as _ <-|].
  apply rbind_Ok in Hr as ([coin c1] & Hu%in_block_Ok & Hr). apply (unspent_coin_holds c U) in Hu as [H1 _]; [|done].
  apply rbind_Ok in Hr as (ks1 & _ & Hr). apply rbind_Ok in Hr as ([ks2 c2] & H2 & Hr). injection Hr as _ <-. by eapply IH.
Qed.
Lemma CheckInputs_holds U nonce c e tx scripts flags store queue ks c' e' : holds c U →
  CheckInputs nonce c e tx scripts flags store queue = Ok (ks, c', e') → holds c' U.
Proof.
  intros Hh. unfold CheckInputs. destruct (IsCoinBase tx || negb scripts); [by intros [= _ <- _]|].
  destruct (contains _ _ _) as [[] e1]; [by intros [= _ <- _]|]. intros Hr. apply rbind_Ok in Hr as ([ks1 c1] & H1 & Hr).
  injection Hr as _ <- _. by eapply check_scripts_holds.
Qed.

(** ** What [CheckTransaction] and [CheckBlock] have established *)

Record tx_checked (tx : CTransaction) : Prop := {
  tc_values : Forall (fun o => 0 <= nValue o <= MAX_MONEY) (vout tx);
  tc_nodup : NoDup (map prevout (vin tx));
  tc_outs : Z.of_nat (length (vout tx)) <= 2 ^ 32
}.

Lemma check_outputs_values fm fb outs : ∀ st st', check_outputs fm fb outs st = Ok st' → Forall (fun o => 0 <= nValue o <= MAX_MONEY) outs.
Proof.
  induction outs as [|o outs IH]; intros st st' H; cbn [check_outputs] in H; constructor.
  - bind_in H. bind_in H. breflect. lia.
  - do 3 bind_in H. bind_in H. bind_in H. by eapply IH.
Qed.
Lemma check_duplicates_NoDup ins : ∀ seen, check_duplicates ins seen = Ok () → NoDup (map prevout ins) ∧ ∀ i, i ∈ ins → prevout i ∉ seen.
Proof.
  induction ins as [|i ins IH]; intros seen H; cbn [check_duplicates] in H.
  - split; [constructor|]. by intros i ?%elem_of_nil.
  - bind_in H. apply negb_true_iff, bool_decide_eq_false in Hstep. destruct (IH _ H) as [H1 H2]. split.
    + cbn. apply NoDup_cons. split; [|done]. intros (j & Hj & Hin)%list_elem_of_fmap. apply H2 in Hin. rewrite Hj in Hin. apply Hin. by left.
    + intros j [->|Hj]%elem_of_cons; [done|]. apply H2 in Hj. intros Hs. apply Hj. by right.
Qed.
Lemma flat_map_length {A} (f : A → list Z) l : (∀ a, f a ≠ []) → (length l <= length (flat_map f l))%nat.
Proof.
  intros Hf. induction l as [|a l IH]; [done|]. cbn. rewrite length_app. specialize (Hf a). destruct (f a); [done|]. cbn. lia.
Qed.
Lemma vout_length tx b : (length (vout tx) <= length (SerializeTransaction b tx))%nat.
Proof.
  assert (length (vout tx) <= length (Serialize_vector ser_TxOut (vout tx)))%nat as Hv.
  { unfold Serialize_vector. rewrite length_app. pose proof (flat_map_length ser_TxOut (vout tx) ltac:(discriminate)). lia. }
  unfold SerializeTransaction. rewrite !length_app. lia.
Qed.

Lemma CheckTransaction_checked tx fm fb : CheckTransaction tx true fm fb = Ok () → tx_checked tx.
Proof.
  intros H. unfold CheckTransaction in H. do 3 bind_in H. apply rbind_Ok in H as (st & Hout & H). do 3 (apply rbind_Ok in H as ([] & _ & H)).
  apply rbind_Ok in H as ([] & Hdup & _). constructor; [by eapply check_outputs_values|by apply check_duplicates_NoDup in Hdup as [? _]|].
  pose proof (vout_length tx false). breflect. unfold size, WITNESS_SCALE_FACTOR, GetMaxBlockWeight, MAX_BLOCK_WEIGHT_RIP2 in *. lia.
Qed.

Lemma CheckBlock_checked t block params pow merkle db r : CheckBlock t false block params pow merkle db = Ok r →
  ∃ cb txs, vtx block = cb :: txs ∧ IsCoinBase cb = true ∧ Forall (fun tx => IsCoinBase tx = false) txs ∧ Forall tx_checked (vtx block).
Proof.
  intros H. unfold CheckBlock in H. do 3 (apply rbind_Ok in H as (? & _ & H)). apply rbind_Ok in H as (cb & Hcb & H).
  apply rbind_Ok in H as (? & Hc%dos_Ok & H). apply rbind_Ok in H as (? & Hone & H). apply rbind_Ok in H as (? & Htx & _).
  unfold vector_at in Hcb. destruct (vtx block) as [|cb' txs] eqn:Hv; [done|]. injection Hcb as ->. exists cb, txs. split_and!; [done|done| |].
  - apply Forall_forall. intros tx Hin. apply (each_ok_Ok _ _ _ Hone), dos_Ok, negb_true_iff in Hin. done.
  - apply Forall_forall. intros tx Hin. apply (each_ok_Ok _ _ _ Htx), in_block_Ok, CheckTransaction_checked in Hin. done.
Qed.

(** ** Updating the coins *)

Lemma add_outputs_readable txid outs h cb : ∀ c i c', add_outputs c txid outs i h cb false = Ok c' →
  Forall (fun o => is_ok (IsUnspendable (scriptPubKey o)) = true) outs.
Proof.
  induction outs as [|o outs IH]; intros c i c' H; cbn [add_outputs] in H; constructor.
  - apply rbind_Ok in H as (c1 & Ha & _). unfold AddCoin in Ha. destruct (IsSpent _); [done|]. cbn [c_out Coin_make] in Ha.
    by destruct (IsUnspendable (scriptPubKey o)).
  - apply rbind_Ok in H as (c1 & _ & H). by eapply IH.
Qed.

Lemma update_coins_success c U tx h coins spent c' : holds c U → tx_checked tx → mapM U (prevouts tx) = Some coins →
  (IsCoinBase tx = false → ∀ n, U (mkOutPoint (tx_GetHash tx) n) = None) → update_coins c tx h = Ok (spent, c') →
  holds c' (connect_map h U tx).
Proof.
  intros HU [Hv Hnd Hlen] Hm Hfresh Hu. unfold update_coins, AddCoins in Hu.
  assert (∃ r, (if IsCoinBase tx then Ok ([], c) else spend_inputs c (vin tx)) = Ok r ∧ holds (snd r) (remove_all (prevouts tx) U)) as ([s1 c1] & Hr & H1).
  { unfold prevouts in *. destruct (IsCoinBase tx).
    - exists ([], c). split; [done|]. eapply holds_ext, HU. intros p. symmetry. apply remove_nil.
    - destruct (spend_inputs_spec (vin tx) c U HU Hnd) as (cs & c1 & Hs & _ & H1 & _); [|by exists (cs, c1)].
      assert (is_Some (mapM U (map prevout (vin tx)))) as Hs by by rewrite Hm. apply mapM_is_Some in Hs. by rewrite Forall_map in Hs. }
  rewrite Hr in Hu. cbn [rbind fst snd] in Hu, H1. apply rbind_Ok in Hu as (c2 & Ha & Hu). injection Hu as _ <-.
  apply add_outputs_readable in Ha as Hok. assert (Forall out_ok (vout tx)) as Hout.
  { apply Forall_forall. intros o Ho. rewrite Forall_forall in Hok, Hv. split; [specialize (Hv o Ho); lia|by apply Hok]. }
  destruct (add_outputs_spec (tx_GetHash tx) (vout tx) h (IsCoinBase tx) false c1 _ 0 H1 Hout) as (c3 & Ha3 & H3 & _); [lia|lia| |].
  - destruct (IsCoinBase tx); [by auto|]. right. right. intros n _. unfold remove_all. case_decide; [done|by apply Hfresh].
  - rewrite Ha in Ha3. by injection Ha3 as ->.
Qed.

(** ** The transactions of a block *)

(** No coin has the id of a transaction that is not a coinbase: the check of BIP30, which
    [ConnectBlock] leaves out. *)
Fixpoint ids_new (h : Z) U (txs : list CTransaction) : Prop :=
  match txs with
  | [] => True
  | tx :: txs => (IsCoinBase tx = false → ∀ n, U (mkOutPoint (tx_GetHash tx) n) = None) ∧ ids_new h (connect_map h U tx) txs
  end.

(** The value of the outputs that no sum of [ConnectBlock] counts. *)
Definition uncounted_values {E : AssetEnv} (txs : list CTransaction) : Z := foldr (fun tx s => uncounted (vout tx) + s) 0 txs.

Lemma uncounted_nonneg {E : AssetEnv} txs : Forall tx_checked txs → 0 <= uncounted_values txs.
Proof.
  induction 1 as [|tx txs [Hv _ _] _ IH]; [done|]. change (0 <= uncounted (vout tx) + uncounted_values txs).
  assert (0 <= uncounted (vout tx)); [|lia]. unfold uncounted. destruct AreEnforcedValuesDeployed; [done|].
  induction Hv as [|o l Ho _ IHl]; [done|]. cbn [foldr]. destruct (asset_output o); lia.
Qed.
Lemma uncounted_enforced {E : AssetEnv} txs : AreEnforcedValuesDeployed = true → uncounted_values txs = 0.
Proof. intros He. induction txs as [|tx txs IH]; [done|]. cbn [uncounted_values foldr]. unfold uncounted at 1. rewrite He. exact IH. Qed.

Section block.
Variables (nonce : uint256) (ctx : connect_context) (st : heap) (params : CChainParams) (pindex : ptr) (b : CBlockIndex) (block : CBlock).
Variables (fScriptChecks fJustCheck : bool).
Abbreviation step := (connect_tx nonce ctx st params pindex b block fScriptChecks fJustCheck).
Abbreviation h := (bi_nHeight b).

Lemma check_tx_money c U a tx nTime nFees nFees' c' : holds c U → IsCoinBase tx = false → Forall (fun o => 0 <= nValue o <= MAX_MONEY) (vout tx) → check_tx ctx st params pindex b nFees c a tx nTime = Ok (nFees', c') →
  holds c' U ∧ ∃ coins fee, mapM U (prevouts tx) = Some coins ∧ 0 <= fee <= MAX_MONEY ∧ sum_coins coins + uncounted (vout tx) = sum_values (vout tx) + fee ∧
    nFees' = i64 (nFees + fee) ∧ MoneyRange nFees' = true.
Proof.
  intros Hh Hcb Hok H. unfold check_tx in H. apply rbind_Ok in H as ([fee1 c1] & H1%in_block_Ok & H).
  apply (CheckTxInputs_counted c U) in H1 as (Hh1 & coins & Hc & Hfee & Heq); [|done..].
  apply rbind_Ok in H as (? & Hrange%dos_Ok & H). apply rbind_Ok in H as (c2 & H2 & H).
  assert (holds c2 U) as Hh2.
  { destruct AreAssetsDeployed; apply rbind_Ok in H2 as (r & Hr & H2).
    - destruct r as [o c3]. injection H2 as <-. apply in_block_Ok in Hr. apply (CheckTxAssets_balance (AV := cache_view a)) with (U := U) in Hr; [|done|done].
      destruct Hr as (? & _ & ? & _). done.
    - by injection H2 as <-. }
  destruct (prev_heights c2 (vin tx)) as [hs c3] eqn:Hp. apply (prev_heights_holds U) in Hp; [|done].
  apply rbind_Ok in H as (r & _ & H). apply rbind_Ok in H as (? & _ & H). injection H as <- <-. split; [done|]. exists coins, fee1.
  split; [|split_and!; try done; lia]. unfold prevouts. rewrite Hcb. by rewrite mapM_map.
Qed.

Lemma connect_tx_money s U M tx s' : holds (cs_coins s) U → represents M U → no_debt M → tx_checked tx → 0 <= cs_nFees s <= MAX_MONEY →
  (IsCoinBase tx = false → ∀ n, U (mkOutPoint (tx_GetHash tx) n) = None) → step s tx = Ok s' →
  ∃ M', holds (cs_coins s') (connect_map h U tx) ∧ represents M' (connect_map h U tx) ∧ no_debt M' ∧ 0 <= cs_nFees s' <= MAX_MONEY ∧
    if IsCoinBase tx then cs_nFees s' = cs_nFees s ∧ supply M' <= supply M + sum_values (vout tx)
    else supply M' + cs_nFees s' <= supply M + cs_nFees s + uncounted (vout tx).
Proof.
  intros Hh HM Hn Hc Hf Hfresh H. unfold connect_tx in H. apply rbind_Ok in H as ([nFees c1] & Hfee & H).
  assert (holds c1 U ∧ 0 <= nFees <= MAX_MONEY ∧ ∃ coins, mapM U (prevouts tx) = Some coins ∧
    if IsCoinBase tx then nFees = cs_nFees s else nFees = cs_nFees s + (sum_coins coins + uncounted (vout tx) - sum_values (vout tx))) as (Hh1 & Hr & coins & Hm & Hfees).
  { unfold prevouts. destruct (IsCoinBase tx) eqn:Hcb; [injection Hfee as <- <-; split_and!; try done; try lia; by exists []|].
    apply (check_tx_money _ U) in Hfee as (Hh2 & coins & fee & Hm & H0 & Heq & -> & Hrange); [|done|done|apply Hc].
    destruct (wrapped_sum_range (cs_nFees s) fee) as [Hw1 Hw2]; [done|done|].
    rewrite Hrange in Hw1. symmetry in Hw1. apply Z.leb_le in Hw1. rewrite Hw2 by done. split_and!; [done|lia|done|]. exists coins. unfold prevouts in Hm. rewrite Hcb in Hm.
    split; [done|lia]. }
  apply rbind_Ok in H as ([cost c2] & Hcost%in_block_Ok & H). apply (sigop_cost_holds U) in Hcost as Hh2; [|done].
  apply rbind_Ok in H as (? & _ & H). apply rbind_Ok in H as ([[ks c3] e3] & Hin & H).
  assert (holds c3 U) as Hh3 by (destruct (IsCoinBase tx); [by injection Hin as _ <- _|by eapply CheckInputs_holds]).
  apply rbind_Ok in H as ([[[spent c4] a4] u] & [Hup _]%UpdateCoins_parts & H). injection H as <-. cbn [cs_coins cs_nFees].
  apply (update_coins_success c3 U tx h coins) in Hup; [|done..].
  assert (NoDup (prevouts tx)) as Hnd by (unfold prevouts; destruct (IsCoinBase tx); [constructor|apply Hc]).
  destruct (supply_connect h M U tx coins HM Hn Hnd Hm (tc_values tx Hc)) as (M' & R1 & R2 & R3). exists M'. split_and!; try done; try lia.
  unfold prevouts in Hm. destruct (IsCoinBase tx); [|lia]. injection Hm as <-. cbn in R3. split; [done|lia].
Qed.

Lemma connect_loop_money txs : ∀ s U M s', holds (cs_coins s) U → represents M U → no_debt M → Forall tx_checked txs → 0 <= cs_nFees s <= MAX_MONEY →
  ids_new h U txs → Forall (fun tx => IsCoinBase tx = false) txs → connect_loop nonce ctx st params pindex b block fScriptChecks fJustCheck s txs = Ok s' →
  ∃ M', holds (cs_coins s') (fold_left (connect_map h) txs U) ∧ represents M' (fold_left (connect_map h) txs U) ∧ no_debt M' ∧
    0 <= cs_nFees s' <= MAX_MONEY ∧ supply M' + cs_nFees s' <= supply M + cs_nFees s + uncounted_values txs.
Proof.
  induction txs as [|tx txs IH]; intros s U M s' Hh HM Hn Hc Hf Hid Hcb H; cbn [connect_loop] in H.
  - injection H as <-. exists M. cbn [uncounted_values foldr]. split_and!; try done; lia.
  - change (uncounted_values (tx :: txs)) with (uncounted (vout tx) + uncounted_values txs). apply Forall_cons in Hc as [Hc1 Hc], Hcb as [Hcb1 Hcb]. destruct Hid as [Hid1 Hid]. apply rbind_Ok in H as (s1 & H1 & H).
    apply (connect_tx_money s U M) in H1 as (M1 & A1 & A2 & A3 & A4 & A5); [|done..]. rewrite Hcb1 in A5.
    destruct (IH s1 _ M1 s' A1 A2 A3 Hc A4 Hid Hcb H) as (M2 & B1 & B2 & B3 & B4 & B5). exists M2. cbn [fold_left]. split_and!; try done; lia.
Qed.
End block.

Lemma SetBestBlock_holds c U x : holds c U → holds (SetBestBlock c x) U.
Proof. done. Qed.
Lemma holds_represents c U M : holds c U → represents M U → holds c (fun p => M !! p).
Proof. intros [Hok Hu] HM. split; [done|]. intros p. by rewrite Hu, HM. Qed.
Lemma subsidy_nonneg h i : 0 <= GetBlockSubsidy h i.
Proof. unfold GetBlockSubsidy, COIN. repeat case_match; lia. Qed.

Lemma subsidy_max h i : GetBlockSubsidy h i <= 320000005 * COIN.
Proof. unfold GetBlockSubsidy, COIN. repeat case_match; lia. Qed.
(** The reward fits a [CAmount]. *)
Lemma reward_no_wrap fees h i : 0 <= fees <= MAX_MONEY → i64 (fees + GetBlockSubsidy h i) = fees + GetBlockSubsidy h i.
Proof.
  intros Hf. unfold i64. apply swrap_id; [lia|]. change (- 9223372036854775808 <= fees + GetBlockSubsidy h i < 9223372036854775808).
  pose proof (subsidy_max h i). pose proof (subsidy_nonneg h i). change MAX_MONEY with 5000000000000000000 in Hf. unfold COIN in *. lia.
Qed.

(** ** The block *)

Lemma ConnectBlock_money nonce ctx t params assume work block pindex b c a e just r U M :
  holds c U → represents M U → no_debt M →
  tree_heap t !! pindex = Some b → ids_new (bi_nHeight b) U (vtx block) →
  ConnectBlock nonce ctx t params assume work false block pindex c a e just = Ok r →
  ∃ M', holds (cb_coins r) (fun p => M' !! p) ∧ no_debt M' ∧ supply M' <= supply M + GetBlockSubsidy (bi_nHeight b) (nSubsidyHalvingInterval params) + uncounted_values (vtx block).
Proof.
  intros Hh HM Hn Hb Hid H. unfold ConnectBlock, deref in H. rewrite Hb in H. cbn [in_chain rbind] in H.
  apply rbind_Ok in H as (? & _ & H). apply rbind_Ok in H as (ch & Hcheck & H). apply rbind_Ok in H as (prev & _ & H).
  destruct (Cache_GetBestBlock_spec c (proj1 Hh)) as (c0 & Hbest & Hsame). rewrite Hbest in H. destruct (same_holds c c0 U Hsame Hh) as [Hh0 _].
  apply rbind_Ok in H as (? & _ & H). pose proof (subsidy_nonneg (bi_nHeight b) (nSubsidyHalvingInterval params)) as Hsub.
  destruct (CheckBlock_checked _ _ _ _ _ _ _ Hcheck) as (cb' & txs & Hv & C1 & C2 & C3). pose proof (uncounted_nonneg _ C3) as Hun.
  destruct (blob_eqb (GetHash (blk_header block)) (hashGenesisBlock params)).
  { injection H as <-. exists M. cbn [cb_coins]. split_and!; [|done|lia]. apply (holds_represents _ U); [|done]. by destruct just. }
  apply rbind_Ok in H as (scripts & _ & H). apply rbind_Ok in H as (s & Hloop & H). apply rbind_Ok in H as (cb & Hcb & H).
  apply rbind_Ok in H as (? & Hpay & H). apply rbind_Ok in H as (? & _ & H).
  rewrite Hv in *. injection Hcb as ->.
  apply Forall_cons in C3 as [C3 C4]. destruct Hid as [_ Hid]. cbn [connect_loop] in Hloop. apply rbind_Ok in Hloop as (s1 & H1 & Hloop).
  apply (connect_tx_money _ _ _ _ _ _ _ _ _ _ U M) in H1 as (M1 & A1 & A2 & A3 & A4 & A5); [|done|done|done|done|done|by rewrite C1].
  rewrite C1 in A5. destruct A5 as [A5 A6]. cbn [cs_nFees] in A5.
  destruct (connect_loop_money _ _ _ _ _ _ _ _ _ txs s1 _ M1 s A1 A2 A3 C4 A4 Hid C2 Hloop) as (M2 & B1 & B2 & B3 & B4 & B5).
  exists M2. unfold check_coinbase in Hpay. apply rbind_Ok in Hpay as (v & Hval%in_block_Ok & Hpay). apply value_out_counted in Hval as [-> _]; [|done|apply C3].
  apply rbind_Ok in Hpay as (? & Hle%dos_Ok & _). apply negb_true_iff in Hle. rewrite Z.gtb_ltb in Hle. apply Z.ltb_ge in Hle.
  change (uncounted_values (cb :: txs)) with (uncounted (vout cb) + uncounted_values txs).
  rewrite reward_no_wrap in Hle by done. split_and!; [|done|lia]. eapply holds_represents; [|done].
  destruct just; [by injection H as <-|]. apply rbind_Ok in H as ([[? ?] ?] & _ & H). apply rbind_Ok in H as (? & _ & H). by injection H as <-.
Qed.

(** ** The chain *)

(** The amounts of the subsidies of the blocks 1 to [n]. *)
Fixpoint issued (interval : Z) (n : nat) : Z :=
  match n with O => 0 | S n' => issued interval n' + GetBlockSubsidy (Z.of_nat n) interval end.

(** The coins after [n] blocks on the genesis block, each connected by [ConnectBlock]
    under the deployments of its own time; in between, the coins may move to another
    cache, as [Flush] does.  [extra] is the value that the blocks did not count. *)
Inductive connected_chain (params : CChainParams) : nat → Z → CCoinsViewCache V → Prop :=
  | chain_genesis c : holds c (fun _ => None) → connected_chain params 0 0 c
  | chain_connect {E : AssetEnv} {F : AssetFlags} n extra c nonce ctx t assume work block pindex b a e r :
      connected_chain params n extra c → tree_heap t !! pindex = Some b → bi_nHeight b = Z.of_nat (S n) → ids_new (bi_nHeight b) (cache_utxo c) (vtx block) →
      ConnectBlock (Env := E) (Flags := F) nonce ctx t params assume work false block pindex c a e false = Ok r →
      connected_chain params (S n) (extra + uncounted_values (E := E) (vtx block)) (cb_coins r)
  | chain_moved n extra c c' : connected_chain params n extra c → holds c' (cache_utxo c) → connected_chain params n extra c'.

Lemma holds_self c U : holds c U → holds c (cache_utxo c).
Proof. by intros [? _]. Qed.
End connecting.

Section chain.
Context {V : Type} {View : CCoinsView V} {Laws : CoinsViewLaws V} {C : Type} {EC : ExecutionCache C}.
Context {Cry : Crypto} {Pow : PowHash} {Split : BoostSplit}.

Lemma chain_money params n extra (c : CCoinsViewCache V) : connected_chain (C := C) params n extra c →
  ∃ M, holds c (fun p => M !! p) ∧ no_debt M ∧ supply M <= issued (nSubsidyHalvingInterval params) n + extra.
Proof.
  induction 1 as [c Hh|E F n extra c nonce ctx t assume work block pindex b a e r _ (M & Hh & Hn & Hs) Hb Hheight Hid H|n extra c c' _ (M & Hh & Hn & Hs) Hm].
  - exists ∅. split_and!; [|done|done]. destruct Hh as [? Hu]. split; [done|]. intros p. by rewrite Hu, lookup_empty.
  - destruct (ConnectBlock_money nonce ctx t params assume work block pindex b c a e false r (cache_utxo c) M (holds_self _ _ Hh) (proj2 Hh) Hn Hb Hid H)
      as (M' & A1 & A2 & A3). exists M'. split_and!; [done|done|]. cbn [issued]. rewrite <- Hheight. lia.
  - exists M. split_and!; [|done|done]. destruct Hm as [? Hm], Hh as [_ Hu]. split; [done|]. intros p. by rewrite Hm, Hu.
Qed.

Lemma issued_bound i n : (0 < n)%nat → issued i n <= 320000005 * COIN + 5 * COIN * (Z.of_nat n - 1).
Proof.
  induction n as [|[|n] IH]; intros Hn; [lia|done|]. change (issued i (S (S n))) with (issued i (S n) + GetBlockSubsidy (Z.of_nat (S (S n))) i).
  assert (GetBlockSubsidy (Z.of_nat (S (S n))) i <= 5 * COIN); [|lia]. unfold GetBlockSubsidy. rewrite (proj2 (Z.eqb_neq _ _)) by lia.
  unfold COIN. case_match; lia.
Qed.
Lemma supply_nonneg M : no_debt M → 0 <= supply M.
Proof.
  induction M as [|p coin M Hp IH] using map_ind; intros Hn; [done|]. rewrite supply_insert by done.
  apply map_Forall_insert in Hn as [H1 H2]; [|done]. specialize (IH H2). cbn in H1. lia.
Qed.
End chain.

(** ** A run: two blocks on the genesis block *)

(** The hash of a header is its nonce. *)
#[global] Instance nonce_pow : PowHash := {|
  HashX16R h := nNonce h :: replicate 31 0; PHIHASHHash_OnlyMix h := nNonce h :: replicate 31 0; PHIHASHHash h := (nNonce h :: replicate 31 0, mix_hash h)
|}.
(** Script verdicts kept in a set. *)
#[global] Instance set_cache : ExecutionCache (gset (list Z)).
Proof.
  refine {| contains c h _ := (bool_decide (h ∈ c), c); insert c h := {[h]} ∪ c; cached_in c h := h ∈ c |}.
  - intros c h _ c' [= H <-]. by apply bool_decide_eq_true in H.
  - by intros c h _ b c' h' [= _ <-].
  - set_solver.
Defined.

Definition dev_key : CTxDestination := CKeyID (replicate 20 5).
Definition run_params : CChainParams :=
  mkChainParams main_params (7 :: replicate 31 0) 2100000 true true true true true [] (default [] (EncodeDestination (H := toy_crypto) main_prefixes dev_key)).
Definition run_coinbase (height miner dev : Z) : CTransaction :=
  mkTx 2 [mkTxIn OutPoint_null (default [] (push_int64 height) ++ [OP_0]) SEQUENCE_FINAL []]
    [mkTxOut miner [OP_1]; mkTxOut dev (default [] (GetScriptForDestination dev_key))] 0.
Definition run_block (height miner dev : Z) : CBlock :=
  let cb := run_coinbase height miner dev in
  mkBlock (mkHeader 4 ((height + 6) :: replicate 31 0) (tx_GetHash (TxHash := ComputeHash (Cry := toy_crypto)) cb) (1600000000 + height) 0x1d00ffff (height + 7) height 0 blob_null) [cb].
Definition run_block1 : CBlock := run_block 1 (5 * COIN) (320000000 * COIN).
Definition run_block2 : CBlock := run_block 2 (5 * COIN / 2) (5 * COIN / 2).
Definition run_tree : BlockTree :=
  foldl (fun t h => match AddToBlockIndex GetHash t h with Ok (t', _) => t' | Err _ => t end) empty_tree
    [mkHeader 4 blob_null blob_null 1600000000 0x1d00ffff 7 0 0 blob_null;
     blk_header run_block1; blk_header run_block2].
Definition run_context : connect_context := mkContext false false 0 ∅ (fun _ => false).
Definition run_connect (c : CCoinsViewCache coins_db) (block : CBlock) (pindex : ptr) : result block_error (connected_block (V := coins_db) (C := gset (list Z))) :=
  ConnectBlock (Cry := toy_crypto) (Env := sample_env) (Flags := plain_flags) blob_null run_context run_tree run_params blob_null (base_uint.of_u64 0) false
    block pindex c (AssetsCache_new, store_with_AAA) ∅ false.
Definition run_start : CCoinsViewCache coins_db := SetBestBlock (Cache_new (db_with [])) (7 :: replicate 31 0).
Definition run_after (r : result block_error (connected_block (V := coins_db) (C := gset (list Z)))) : CCoinsViewCache coins_db :=
  match r with Ok r => cb_coins r | Err _ => run_start end.
Definition run_coins1 : CCoinsViewCache coins_db := run_after (run_connect run_start run_block1 2%positive).
Definition run_coins2 : CCoinsViewCache coins_db := run_after (run_connect run_coins1 run_block2 3%positive).

Lemma run_start_holds : holds run_start (fun _ => None).
Proof. apply (SetBestBlock_holds (Cache_new (db_with [])) _), (db_with_holds []). reflexivity. Qed.

Abbreviation run_chain n c := (connected_chain (Cry := toy_crypto) (C := gset (list Z)) run_params n 0 c).
Lemma run_chain_step n c block pindex b : run_chain n c → tree_heap run_tree !! pindex = Some b → bi_nHeight b = Z.of_nat (S n) →
  (∃ cb, vtx block = [cb] ∧ IsCoinBase cb = true) → is_ok (run_connect c block pindex) = true → run_chain (S n) (run_after (run_connect c block pindex)).
Proof.
  intros Hc Hb Hh (cb & Hv & Hcb) Hok. destruct (run_connect c block pindex) as [r|e] eqn:H; [|discriminate]. unfold run_connect in H.
  rewrite <- (uncounted_enforced (E := sample_env) (vtx block) eq_refl), <- (Z.add_0_l (uncounted_values _)).
  refine (chain_connect run_params n 0 c _ _ _ _ _ _ _ b _ _ r Hc Hb Hh _ H). rewrite Hv. cbn [ids_new]. rewrite Hcb. split; [discriminate|exact I].
Qed.
Definition run_entry (pindex : ptr) : option Z := bi_nHeight <$> tree_heap run_tree !! pindex.
Lemma run_entry_ok pindex h : run_entry pindex = Some h → ∃ b, tree_heap run_tree !! pindex = Some b ∧ bi_nHeight b = h.
Proof. unfold run_entry. destruct (tree_heap run_tree !! pindex) as [b|]; [|done]. intros [= <-]. by exists b. Qed.
Lemma run_chain1 : run_chain 1 run_coins1.
Proof.
  destruct (run_entry_ok 2%positive 1) as (b & Hb & Hh); [vm_compute; reflexivity|].
  refine (run_chain_step 0 run_start run_block1 2%positive b _ Hb Hh _ _).
  - apply chain_genesis, run_start_holds.
  - exists (run_coinbase 1 (5 * COIN) (320000000 * COIN)). split; reflexivity.
  - vm_compute. reflexivity.
Qed.
Lemma run_chain2 : run_chain 2 run_coins2.
Proof.
  destruct (run_entry_ok 3%positive 2) as (b & Hb & Hh); [vm_compute; reflexivity|].
  refine (run_chain_step 1 run_coins1 run_block2 3%positive b run_chain1 Hb Hh _ _).
  - exists (run_coinbase 2 (5 * COIN / 2) (5 * COIN / 2)). split; reflexivity.
  - vm_compute. reflexivity.
Qed.

Lemma hexmap_inj a b : 0 <= a < 16 → 0 <= b < 16 → hexmap a = hexmap b → a = b.
Proof. unfold hexmap. intros Ha Hb. repeat case_match; lia. Qed.
Lemma HexStr_inj v : ∀ w, bytes_ok v → bytes_ok w → HexStr v = HexStr w → v = w.
Proof.
  induction v as [|a v IH]; intros [|b w] Hv Hw; try done. apply Forall_cons in Hv as [Ha Hv], Hw as [Hb Hw]. cbn [HexStr flat_map app].
  intros [= H1 H2 H3].
  assert (∀ x, 0 <= x < 256 → 0 <= Z.shiftr x 4 < 16 ∧ 0 <= Z.land x 15 < 16 ∧ x = Z.shiftr x 4 * 16 + Z.land x 15) as Hx.
  { intros x Hx. change 15 with (Z.ones 4). rewrite Z.shiftr_div_pow2, Z.land_ones by lia. change (2 ^ 4) with 16. pose proof (Z.div_mod x 16 ltac:(lia)). pose proof (Z.mod_pos_bound x 16 ltac:(lia)). split_and!; lia. }
  destruct (Hx a Ha) as (? & ? & Ea), (Hx b Hb) as (? & ? & Eb). apply hexmap_inj in H1, H2; [|done..]. f_equal; [lia|]. by apply IH.
Qed.

(** The second output of a coinbase pays the script of the developers' address their
    share of the subsidy at height [h]. *)
Definition pays_developers {Cry : Crypto} {Env : AssetEnv} (params : CChainParams) (h : Z) (cb : CTransaction) : Prop :=
  ∃ out dest script, nth_error (vout cb) 1 = Some out ∧
    DecodeDestination prefixes (DevAddress params) = Some dest ∧ GetScriptForDestination dest = Some script ∧
    (bytes_ok (scriptPubKey out) → bytes_ok script → scriptPubKey out = script) ∧
    (if h =? 1 then 320000000 * COIN <= nValue out else GetBlockSubsidy h (nSubsidyHalvingInterval params) <= 2 * nValue out).

Lemma ConnectBlock_pays_developers {V : Type} {View : CCoinsView V} {C : Type} {EC : ExecutionCache C}
    {Cry : Crypto} {Pow : PowHash} {Split : BoostSplit} {Env : AssetEnv} {Flags : AssetFlags}
    nonce ctx t params assume work checked block pindex b (c : CCoinsViewCache V) a e just r :
  tree_heap t !! pindex = Some b → blob_eqb (GetHash (blk_header block)) (hashGenesisBlock params) = false →
  ConnectBlock nonce ctx t params assume work checked block pindex c a e just = Ok r →
  ∃ cb txs, vtx block = cb :: txs ∧ pays_developers params (bi_nHeight b) cb.
Proof.
  intros Hb Hg H. unfold ConnectBlock, deref in H. rewrite Hb in H. cbn [in_chain rbind] in H.
  apply rbind_Ok in H as (? & _ & H). apply rbind_Ok in H as (? & _ & H). apply rbind_Ok in H as (? & _ & H).
  destruct (Cache_GetBestBlock c) as [best c']. apply rbind_Ok in H as (? & _ & H).
  rewrite Hg in H.
  apply rbind_Ok in H as (? & _ & H). apply rbind_Ok in H as (s & _ & H). apply rbind_Ok in H as (cb & Hcb & H). apply rbind_Ok in H as (? & Hpay & _).
  unfold check_coinbase in Hpay. apply rbind_Ok in Hpay as (? & _ & Hpay). apply rbind_Ok in Hpay as (? & _ & Hpay).
  apply rbind_Ok in Hpay as (dest & Hd & Hpay). apply rbind_Ok in Hpay as (script & Hsc & Hpay). apply rbind_Ok in Hpay as (out & Ho & Hpay).
  apply rbind_Ok in Hpay as (? & Hv%dos_Ok & Hpay%dos_Ok). unfold vector_at in Hcb, Ho. 
  destruct (vtx block) as [|cb' txs]; [done|]. injection Hcb as ->. destruct (nth_error (vout cb) 1) as [out'|] eqn:Hout; [|done]. injection Ho as ->.
  destruct (DecodeDestination _ _) as [dest'|] eqn:Hdd; [|done]. injection Hd as ->. destruct (GetScriptForDestination dest) as [script'|] eqn:Hs; [|done]. injection Hsc as ->.
  exists cb, txs. split; [done|]. exists out, dest, script. split_and!; try done.
  - intros H1 H2. apply bool_decide_eq_true in Hpay. by apply HexStr_inj.
  - apply negb_true_iff, Z.ltb_ge in Hv. unfold dev_subsidy in Hv. destruct (bi_nHeight b =? 1); [lia|].
    pose proof (subsidy_nonneg (bi_nHeight b) (nSubsidyHalvingInterval params)).
    rewrite Z.quot_div_nonneg in Hv by lia. set (y := GetBlockSubsidy _ _) in *. pose proof (Z.div_mod (50 * y) 100 ltac:(lia)). pose proof (Z.mod_pos_bound (50 * y) 100 ltac:(lia)). lia.
Qed.

(** ** Properties *)

(** C6: no more money than the subsidies and the uncounted outputs.  The blocks of a chain
    are connected one after the other by [ConnectBlock], with any transactions, each under
    the deployments of its own time; no transaction repeats the id of one whose coins are
    unspent (BIP30, which the code does not check).  After [n] blocks no unspent coin is
    negative, and together they are worth at most the subsidies of the blocks 1 to [n] and
    the values of the asset outputs in the blocks that were connected while the deployment
    of enforced values was not active, which [GetValueOut] leaves out.  When there were no
    such values, as when the deployment is active from block 1, the total is at most
    320,000,005 coins and 5 for each block after the first, and while heights fit an [int]
    it is in the money range. *)
Theorem money_supply {V : Type} {View : CCoinsView V} {Laws : CoinsViewLaws V} {C : Type} {EC : ExecutionCache C}
    {Cry : Crypto} {Pow : PowHash} {Split : BoostSplit} params n extra (c : CCoinsViewCache V) :
  connected_chain (C := C) params n extra c →
  ∃ M, holds c (fun p => M !! p) ∧ no_debt M ∧ supply M <= issued (nSubsidyHalvingInterval params) n + extra ∧
    (extra = 0 → (0 < n)%nat → supply M <= 320000005 * COIN + 5 * COIN * (Z.of_nat n - 1)) ∧
    (extra = 0 → Z.of_nat n < 2 ^ 31 → MoneyRange (supply M) = true).
Proof.
  intros Hc. destruct (chain_money params n extra c Hc) as (M & Hh & Hn & Hs). exists M.
  assert (extra = 0 → (0 < n)%nat → supply M <= 320000005 * COIN + 5 * COIN * (Z.of_nat n - 1)) as Hb.
  { intros He H. pose proof (issued_bound (nSubsidyHalvingInterval params) n H). lia. }
  split_and!; [done|done|done|done|]. intros He Hi. change (2 ^ 31) with 2147483648 in Hi. pose proof (supply_nonneg M Hn).
  unfold MoneyRange. change MAX_MONEY with 5000000000000000000. unfold COIN in Hb.
  destruct n as [|n]; [cbn [issued] in Hs; apply andb_true_intro; split; lia|]. specialize (Hb He ltac:(lia)). apply andb_true_intro. split; lia.
Qed.

Lemma money_supply_witness : ∃ M, holds run_coins2 (fun p => M !! p) ∧ supply M <= 320000010 * COIN.
Proof.
  destruct (money_supply (Cry := toy_crypto) (C := gset (list Z)) run_params 2 0 run_coins2 run_chain2)
    as (M & Hh & _ & Hs & _). exists M. split; [exact Hh|]. exact Hs.
Defined.

(** C18: the developers' share is half of the subsidy, not the announced tenth.  A block
    other than the genesis block that [ConnectBlock] accepts has a coinbase whose second
    output pays the script of the developers' address at least 320,000,000 coins at height
    1 and half of the subsidy at every other height.  The comments of [ConnectBlock] (10%,
    and "Check 5%") and the help of getblocktemplate (10%) announce less: a coinbase that
    is right in every other respect and pays the announced tenth is rejected with
    "bad-cb-community-autonomous-amount". *)
Theorem developer_share {V : Type} {View : CCoinsView V} {C : Type} {EC : ExecutionCache C}
    {Cry : Crypto} {Pow : PowHash} {Split : BoostSplit} {Env : AssetEnv} {Flags : AssetFlags}
    nonce ctx t params assume work checked block pindex b (c : CCoinsViewCache V) a e just :
  tree_heap t !! pindex = Some b → blob_eqb (GetHash (blk_header block)) (hashGenesisBlock params) = false →
  (∀ r, ConnectBlock nonce ctx t params assume work checked block pindex c a e just = Ok r →
    ∃ cb txs, vtx block = cb :: txs ∧ pays_developers params (bi_nHeight b) cb) ∧
  (∀ cb h nFees value dest script out, h ≠ 1 → value_out (vout cb) 0 = Ok value →
    value <= i64 (nFees + GetBlockSubsidy h (nSubsidyHalvingInterval params)) →
    DecodeDestination prefixes (DevAddress params) = Some dest → GetScriptForDestination dest = Some script →
    nth_error (vout cb) 1 = Some out → scriptPubKey out = script → nValue out = GetBlockSubsidy h (nSubsidyHalvingInterval params) / 10 →
    check_coinbase cb h nFees params = Err (BlockReject 100 "bad-cb-community-autonomous-amount" false)).
Proof.
  intros Hb Hg. split; [intros r H; by eapply ConnectBlock_pays_developers|].
  intros cb h nFees value dest script out Hh Hval Hle Hd Hs Ho _ Hv. unfold check_coinbase, vector_at. rewrite Hval, Hd. cbn [in_block rbind assert_some].
  unfold dos at 1. rewrite (proj2 (negb_true_iff _)) by (rewrite Z.gtb_ltb; apply Z.ltb_ge; done). cbn [rbind]. rewrite Hs, Ho. cbn [in_block rbind assert_some].
  assert (dev_subsidy h (GetBlockSubsidy h (nSubsidyHalvingInterval params)) > nValue out) as Hlt; [|unfold dos at 1; rewrite (proj2 (Z.ltb_lt _ _)) by lia; done].
  rewrite Hv. unfold dev_subsidy, GetBlockSubsidy. rewrite (proj2 (Z.eqb_neq h 1)) by done. case_match; vm_compute; reflexivity.
Qed.

Lemma developer_share_witness :
  (∃ cb txs out, vtx run_block1 = cb :: txs ∧ nth_error (vout cb) 1 = Some out ∧ 320000000 * COIN <= nValue out) ∧
  check_coinbase (Cry := toy_crypto) (Env := sample_env) (run_coinbase 2 (5 * COIN / 2) (COIN / 2)) 2 0 run_params
    = Err (BlockReject 100 "bad-cb-community-autonomous-amount" false).
Proof.
  destruct (run_entry_ok 2%positive 1) as (b & Hb & Hh); [vm_compute; reflexivity|].
  assert (is_ok (run_connect run_start run_block1 2%positive) = true) as Hok by (vm_compute; reflexivity).
  destruct (run_connect run_start run_block1 2%positive) as [r|e] eqn:H; [|discriminate]. unfold run_connect in H.
  assert (blob_eqb (GetHash (blk_header run_block1)) (hashGenesisBlock run_params) = false) as Hg by (vm_compute; reflexivity).
  destruct (developer_share (EC := set_cache) (Cry := toy_crypto) (Env := sample_env) (Flags := plain_flags) blob_null run_context run_tree run_params blob_null (base_uint.of_u64 0)
    false run_block1 2%positive b run_start (AssetsCache_new, store_with_AAA) ∅ false Hb Hg) as [Hyes Hno]. split.
  - destruct (Hyes r H) as (cb & txs & Hv & out & _ & _ & Ho & _ & _ & _ & Hpay). rewrite Hh in Hpay. exists cb, txs, out. split; [exact Hv|]. split; [exact Ho|exact Hpay].
  - refine (Hno _ 2 0 (3 * COIN) dev_key (default [] (GetScriptForDestination dev_key)) _ _ _ _ _ _ _ _ _); [discriminate|vm_compute; reflexivity|vm_compute; discriminate|vm_compute; reflexivity..].
Defined.
