(* ===== verification/BlockRules.v ===== *)
(** * Properties of the block rules: src/src/validation.cpp

    The witness commitment that a miner adds is the one the checks look for; the cache of
    script verdicts does not change what [CheckInputs] accepts; the count of signature
    operations of a block does not wrap around; and what the rules leave open. *)

From Stdlib Require Import String.
From stdpp Require Import gmap.
From S2P Require Import Prelude Serialize ArithUint256 Transaction Chain Pow VersionBits Merkle Script Interpreter SigHash Regex AssetTypes AssetNames Verifier LRUCache Coins Chainstate Base58 Standard AssetScripts AssetChecks AssetsCache AssetStore AssetConnect TxVerify BlockChecks AssetBalance ConnectBlock AssetUndo Supply.

Open Scope string_scope.
Open Scope list_scope.
Open Scope Z_scope.

(** ** The witness commitment *)

Section commitment.
Context {Cry : Crypto}.

Lemma CHash256_length m : length (CHash256 m) = 32%nat.
Proof. apply sha256_output. Qed.
Lemma GetWitnessHash_length tx : length (GetWitnessHash tx) = 32%nat.
Proof. unfold GetWitnessHash. case_match; apply CHash256_length. Qed.

(** A block as a miner assembles it: the coinbase has an input, and neither a witness nor
    a commitment. *)
Definition uncommitted (block : CBlock) (cb : CTransaction) (i : CTxIn) (ins : list CTxIn) (txs : list CTransaction) : Prop :=
  vtx block = cb :: txs ∧ vin cb = i :: ins ∧ HasWitness cb = false ∧ GetWitnessCommitmentIndex block = None ∧ Z.of_nat (length (vtx block)) <= 2 ^ 31.

(** The coinbase with the commitment [script] and the reserved witness. *)
Definition committed (cb : CTransaction) (i : CTxIn) (ins : list CTxIn) (script : CScript) : CTransaction :=
  mkTx (tx_nVersion cb) (mkTxIn (prevout i) (scriptSig i) (nSequence i) [replicate 32 0] :: ins) (vout cb ++ [mkTxOut 0 script]) (nLockTime cb).

Lemma witness_root_total txs : 1 + Z.of_nat (length txs) <= 2 ^ 31 →
  ∃ root mutated, ComputeMerkleRoot merkle_hash (blob_null :: map GetWitnessHash txs) = Some (root, mutated) ∧
    ∀ h cb', BlockWitnessMerkleRoot merkle_hash GetWitnessHash (mkBlock h (cb' :: txs)) = Some (root, mutated).
Proof.
  intros Hlen. destruct (ComputeMerkleRoot_spec merkle_hash (fun a b => CHash256_length (a ++ b)) (blob_null :: map GetWitnessHash txs)) as (m & Hm & _).
  - cbn [length]. rewrite length_map. lia.
  - constructor; [done|]. apply Forall_map, Forall_true. intros tx. apply GetWitnessHash_length.
  - eexists _, _. split; [exact Hm|]. done.
Qed.

(** The commitment is found at the end of the outputs. *)
Lemma commitment_found h cb txs script : is_commitment (mkTxOut 0 script) = true → 
  GetWitnessCommitmentIndex (mkBlock h (mkTx (tx_nVersion cb) (vin cb) (vout cb ++ [mkTxOut 0 script]) (nLockTime cb) :: txs)) = Some (length (vout cb)).
Proof.
  intros Hc. unfold GetWitnessCommitmentIndex. cbn [vtx vout]. rewrite imap_app, filter_app.
  replace (filter _ (imap _ [mkTxOut 0 script])) with [((length (vout cb) + 0)%nat, mkTxOut 0 script)].
  - rewrite last_snoc. cbn. by rewrite Nat.add_0_r.
  - cbn [imap]. by rewrite filter_cons_True.
Qed.
Lemma commitment_script h : length h = 32%nat → is_commitment (mkTxOut 0 (witness_header ++ h)) = true ∧ take 32 (drop 6 (witness_header ++ h)) = h.
Proof.
  intros Hl. split; [|by rewrite (drop_app_length' witness_header h), take_ge by (done || lia)]. unfold is_commitment. cbn [scriptPubKey]. unfold size. rewrite length_app, Hl.
  apply bool_decide_eq_true. by rewrite (take_app_length' witness_header h).
Qed.
End commitment.

(** ** Scripts and their cache *)

Section scripts.
Context {V : Type} {View : CCoinsView V} {Laws : CoinsViewLaws V} {C : Type} {EC : ExecutionCache C} {Cry : Crypto}.
Implicit Types (c : CCoinsViewCache V) (U : utxo_map) (e : C).

(** The script of the coin that input [i] spends accepts the input. *)
Definition input_verified U tx flags (i : nat) (txin : CTxIn) : Prop :=
  ∃ coin, U (prevout txin) = Some coin ∧ run_check (mkScriptCheck (c_out coin) tx i flags) = Ok true.
Definition all_verified U tx flags : Prop := ∀ i txin, nth_error (vin tx) i = Some txin → input_verified U tx flags i txin.
Definition available U tx : Prop := ∀ i txin, nth_error (vin tx) i = Some txin → is_Some (U (prevout txin)).
(** The transactions, with the flags, whose verdict was stored in the cache; each was
    verified, unless a coin it spends is gone. *)
Definition filled_from nonce e (past : list (CTransaction * Z)) : Prop :=
  ∀ key, cached_in e key → ∃ tx flags, (tx, flags) ∈ past ∧ key = cache_entry nonce tx flags.
Definition verified_past U (past : list (CTransaction * Z)) : Prop :=
  ∀ tx flags, (tx, flags) ∈ past → available U tx → all_verified U tx flags.
(** No stored transaction other than [tx] has the key of [tx]. *)
Definition no_collision nonce (past : list (CTransaction * Z)) tx flags : Prop :=
  ∀ tx' flags', (tx', flags') ∈ past → cache_entry nonce tx' flags' = cache_entry nonce tx flags → tx' = tx ∧ flags' = flags.

Lemma wait_checks_app ks ks' : wait_checks (ks ++ ks') = Ok () ↔ wait_checks ks = Ok () ∧ wait_checks ks' = Ok ().
Proof.
  unfold wait_checks. induction ks as [|k ks IH]; cbn [app each_ok]; [naive_solver|].
  destruct (run_check k) as [[]|]; cbn [rbind dos]; naive_solver.
Qed.
Lemma wait_checks_one k : wait_checks [k] = Ok () ↔ run_check k = Ok true.
Proof. unfold wait_checks. cbn [each_ok]. destruct (run_check k) as [[]|]; cbn; naive_solver. Qed.

Lemma check_scripts_exact tx flags queue U ins : ∀ c i, holds c U →
  (∃ ks c', check_scripts c tx ins i flags queue = Ok (ks, c') ∧ wait_checks ks = Ok ()) ↔
  ∀ j txin, nth_error ins j = Some txin → input_verified U tx flags (i + j) txin.
Proof.
  induction ins as [|txin ins IH]; intros c i Hh; cbn [check_scripts].
  { split; [by intros _ [] ?|]. intros _. by exists [], c. }
  assert (∀ P : nat → CTxIn → Prop, (∀ j t, nth_error (txin :: ins) j = Some t → P j t) ↔ P 0%nat txin ∧ ∀ j t, nth_error ins j = Some t → P (S j) t) as Hcons.
  { intros P. split; [intros HP; split; [by apply HP|intros j; apply (HP (S j))]|]. intros [H0 HS] [|j] t Ht; [by injection Ht as <-|by apply HS]. }
  rewrite (Hcons (fun j t => input_verified U tx flags (i + j) t)). clear Hcons. rewrite Nat.add_0_r.
  setoid_rewrite <- Nat.add_succ_comm. pose proof (unspent_coin_spec c U (prevout txin) Hh) as Hu. unfold input_verified at 1.
  destruct (U (prevout txin)) as [coin|] eqn:Hcoin.
  2:{ rewrite Hu. cbn. split; [by intros (? & ? & ? & _)|by intros [(? & ? & _) _]]. }
  destruct Hu as (c1 & -> & H1). cbn [in_block rbind fst snd]. rewrite <- (IH c1 (S i) H1). set (k := mkScriptCheck (c_out coin) tx i flags).
  assert (∀ P : Prop, (∃ coin0, Some coin = Some coin0 ∧ run_check (mkScriptCheck (c_out coin0) tx i flags) = Ok true) ∧ P ↔ run_check k = Ok true ∧ P) as -> by naive_solver.
  destruct (check_scripts c1 tx ins (S i) flags queue) as [[ks c2]|err] eqn:Hr; destruct queue; cbn [rbind fst snd].
  - split; [intros (? & ? & [= <- <-] & Hw%(wait_checks_app [k] ks))|intros [Hk (? & ? & [= <- <-] & Hw)]].
    + destruct Hw as [Hk%wait_checks_one Hw]. split; [done|]. by exists ks, c2.
    + exists ([k] ++ ks), c2. split; [done|]. apply wait_checks_app. split; [by apply wait_checks_one|done].
  - unfold rejected_check. destruct (run_check k) as [[]|]; cbn [rbind]; [naive_solver| |naive_solver]. 
    split; [|naive_solver]. intros (? & ? & H & _). repeat case_match; try done. destruct (run_check _); done.
  - naive_solver.
  - split; [|naive_solver]. intros (? & ? & H & _). destruct (run_check k) as [[]|]; [done| |done]. cbn in H. unfold rejected_check in H.
    repeat case_match; try done. destruct (run_check _); done.
Qed.
(** Without a queue nothing is left to check. *)
Lemma check_scripts_empty tx flags ins : ∀ c i ks c', check_scripts c tx ins i flags false = Ok (ks, c') → wait_checks ks = Ok ().
Proof.
  induction ins as [|txin ins IH]; intros c i ks c' H; cbn [check_scripts] in H; [by injection H as <- _|].
  apply rbind_Ok in H as ([coin c1] & _ & H). apply rbind_Ok in H as (ks1 & H1 & H). apply rbind_Ok in H as ([ks2 c2] & H2 & H).
  injection H as <- _. cbn [fst]. assert (ks1 = []) as ->; [|by eapply IH]. apply rbind_Ok in H1 as ([] & _ & H1); [by injection H1|].
  apply rbind_Ok in H1 as (? & _ & H1). by injection H1.
Qed.
End scripts.

(** ** Signature operations *)

Section sigops.
Definition sum_by {A} (f : A → Z) (l : list A) : Z := fold_right (fun x s => f x + s) 0 l.
(** The signature operations of the scripts of a transaction, without wrapping. *)
Definition script_sigops (script : CScript) : Z := GetSigOpCount script false.
Definition tx_sigops (tx : CTransaction) : Z :=
  sum_by (fun i => script_sigops (scriptSig i)) (vin tx) + sum_by (fun o => script_sigops (scriptPubKey o)) (vout tx).

Lemma sum_by_bound {A} (f : A → Z) (g : A → list Z) l : (∀ x, x ∈ l → 0 <= f x <= 20 * size (g x)) → 0 <= sum_by f l <= 20 * size (flat_map g l).
Proof.
  induction l as [|x l IH]; intros Hf; [done|]. cbn [sum_by fold_right flat_map]. pose proof (Hf x ltac:(by left)).
  assert (0 <= sum_by f l <= 20 * size (flat_map g l)) by (apply IH; intros y Hy; apply Hf; by right). unfold size, sum_by in *. rewrite length_app. lia.
Qed.
Lemma fold_wrapped {A} (f : A → Z) l : ∀ a, 0 <= a → (∀ x, x ∈ l → 0 <= f x) → a + sum_by f l < 2 ^ 32 → fold_left (fun n x => u32 (n + f x)) l a = a + sum_by f l.
Proof.
  induction l as [|x l IH]; intros a Ha Hf Hs; cbn [fold_left sum_by fold_right] in *; [lia|].
  assert (0 <= sum_by f l). { clear -Hf. induction l as [|y l IH]; [done|]. cbn. pose proof (Hf y ltac:(by right; left)). unfold sum_by in IH.
    assert (0 <= fold_right (fun x s => f x + s) 0 l); [|lia]. apply IH. intros z [->|Hz]%elem_of_cons; apply Hf; [by left|by right; right]. }
  pose proof (Hf x ltac:(by left)). unfold sum_by in *. unfold u32. rewrite uwrap_id by (unfold ufits; lia).
  rewrite IH; [lia|lia|intros y Hy; apply Hf; by right|lia].
Qed.

Lemma script_sigops_bound s : size s < 2 ^ 27 → 0 <= script_sigops s <= 20 * size s.
Proof.
  intros Hs. unfold script_sigops, GetSigOpCount, size in *. destruct (GetSigOpCount_loop_bounds (length s) s OP_INVALIDOPCODE 0 0) as [? ?]; lia.
Qed.

Lemma size_flat_map {A} (g : A → list Z) l x : x ∈ l → size (g x) <= size (flat_map g l).
Proof.
  intros Hin. induction l as [|y l IH]; [by apply elem_of_nil in Hin|]. cbn [flat_map]. rewrite size_app.
  pose proof (size_nonneg (flat_map g l)). pose proof (size_nonneg (g y)). apply elem_of_cons in Hin as [->|Hin]; [lia|]. specialize (IH Hin). lia.
Qed.
Lemma vector_size {A} (g : A → list Z) l : size (flat_map g l) <= size (Serialize_vector g l).
Proof. unfold Serialize_vector. rewrite size_app. pose proof (size_nonneg (WriteCompactSize (Z.of_nat (length l)))). lia. Qed.
Lemma bytes_size s : size s <= size (Serialize_bytes s).
Proof. unfold Serialize_bytes. rewrite size_app. pose proof (size_nonneg (WriteCompactSize (Z.of_nat (length s)))). lia. Qed.
Lemma TxIn_size i : size (scriptSig i) <= size (ser_TxIn i).
Proof.
  unfold ser_TxIn. rewrite !size_app. pose proof (bytes_size (scriptSig i)). pose proof (size_nonneg (ser_OutPoint (prevout i))).
  pose proof (size_nonneg (ser_writedata32 (nSequence i))). lia.
Qed.
Lemma TxOut_size o : size (scriptPubKey o) <= size (ser_TxOut o).
Proof. unfold ser_TxOut. rewrite size_app. pose proof (bytes_size (scriptPubKey o)). pose proof (size_nonneg (ser_int64 (nValue o))). lia. Qed.
Lemma tx_parts_size tx : size (flat_map ser_TxIn (vin tx)) + size (flat_map ser_TxOut (vout tx)) <= size (SerializeTransaction false tx).
Proof.
  unfold SerializeTransaction. rewrite !size_app. pose proof (vector_size ser_TxIn (vin tx)). pose proof (vector_size ser_TxOut (vout tx)).
  repeat match goal with |- context [size ?l + _] => lazymatch goal with H : 0 <= size l |- _ => fail | _ => pose proof (size_nonneg l) end end.
  pose proof (size_nonneg (ser_writedata32 (nLockTime tx))). lia.
Qed.

Lemma tx_sigops_exact tx : size (SerializeTransaction false tx) < 2 ^ 27 →
  GetLegacySigOpCount tx = tx_sigops tx ∧ 0 <= tx_sigops tx <= 20 * size (SerializeTransaction false tx).
Proof.
  intros Hs. pose proof (tx_parts_size tx) as Hp. unfold tx_sigops.
  pose proof (size_nonneg (flat_map ser_TxIn (vin tx))). pose proof (size_nonneg (flat_map ser_TxOut (vout tx))).
  assert (∀ i, i ∈ vin tx → 0 <= script_sigops (scriptSig i) <= 20 * size (ser_TxIn i)) as Hi.
  { intros i Hin. pose proof (TxIn_size i). pose proof (size_flat_map ser_TxIn _ _ Hin). pose proof (script_sigops_bound (scriptSig i) ltac:(lia)). lia. }
  assert (∀ o, o ∈ vout tx → 0 <= script_sigops (scriptPubKey o) <= 20 * size (ser_TxOut o)) as Ho.
  { intros o Hin. pose proof (TxOut_size o). pose proof (size_flat_map ser_TxOut _ _ Hin). pose proof (script_sigops_bound (scriptPubKey o) ltac:(lia)). lia. }
  pose proof (sum_by_bound _ _ _ Hi) as Bi. pose proof (sum_by_bound _ _ _ Ho) as Bo. split; [|lia]. unfold GetLegacySigOpCount.
  rewrite (fold_wrapped (fun i => script_sigops (scriptSig i))), (fold_wrapped (fun o => script_sigops (scriptPubKey o)));
    [lia|lia|intros o Hin; by apply Ho|lia|lia|intros i Hin; by apply Hi|lia].
Qed.
Lemma fold_left_ext_in {A B} (f g : A → B → A) l : (∀ a x, x ∈ l → f a x = g a x) → ∀ a, fold_left f l a = fold_left g l a.
Proof. intros He. induction l as [|x l IH]; intros a; [done|]. cbn [fold_left]. rewrite He by by left. apply IH. intros b y Hy. apply He. by right. Qed.
End sigops.

(** ** Properties *)

(** C19: the commitment of a miner is accepted.  With segregated witness enabled in the
    parameters (the setting of every network unless it is turned off), and for a block whose coinbase has an input and
    neither a witness nor a commitment, [GenerateCoinbaseCommitment] changes nothing but
    the coinbase: it appends one output, and gives the first input a witness of 32 zero
    bytes.  The result passes the witness check of [ContextualCheckBlock], whatever the
    witnesses of the other transactions. *)
Theorem commitment_roundtrip {Cry : Crypto} params block cb i ins txs :
  nSegwitEnabled params = true → uncommitted block cb i ins txs →
  ∃ script, let block' := mkBlock (blk_header block) (committed cb i ins script :: txs) in
    GenerateCoinbaseCommitment block params = Ok (script, block') ∧ check_witness block' params = Ok true.
Proof.
  intros Hseg (Hv & Hi & Hw & Hnone & Hlen). rewrite Hv in Hlen. cbn [length] in Hlen.
  destruct (witness_root_total txs) as (root & m & _ & Hroot); [lia|].
  unfold GenerateCoinbaseCommitment. rewrite Hseg, Hnone.
  assert (BlockWitnessMerkleRoot merkle_hash GetWitnessHash block = Some (root, m)) as ->.
  { specialize (Hroot (blk_header block) cb). unfold BlockWitnessMerkleRoot in *. by rewrite Hv. }
  rewrite Hv. set (h := CHash256 (root ++ replicate 32 0)). destruct (commitment_script h) as [Hc Ht]; [apply CHash256_length|].
  cbn [rbind fst snd]. unfold UpdateUncommittedBlockStructures. rewrite commitment_found by done. cbn [vtx]. rewrite Hseg.
  assert (HasWitness (mkTx (tx_nVersion cb) (vin cb) (vout cb ++ [mkTxOut 0 (witness_header ++ h)]) (nLockTime cb)) = false) as -> by done.
  unfold set_first_witness. cbn [andb negb vin]. rewrite Hi. cbn [rbind tx_nVersion vout nLockTime blk_header].
  exists (witness_header ++ h). cbv zeta. split; [done|]. unfold check_witness, committed. rewrite Hseg. cbn [negb].
  pose proof (commitment_found (blk_header block) (mkTx (tx_nVersion cb) (mkTxIn (prevout i) (scriptSig i) (nSequence i) [replicate 32 0] :: ins) (vout cb) (nLockTime cb))
    txs _ Hc) as Hf. cbn [tx_nVersion vin vout nLockTime] in Hf. rewrite Hf, Hroot. cbn [vector_at nth_error vtx vin rbind scriptWitness vout].
  unfold vector_at at 1. rewrite nth_error_app2, Nat.sub_diag by done. cbn [nth_error rbind scriptPubKey]. rewrite Ht, bool_decide_true by done. done.
Qed.

Lemma commitment_roundtrip_witness : ∃ script cb',
  GenerateCoinbaseCommitment (Cry := toy_crypto) run_block1 run_params = Ok (script, mkBlock (blk_header run_block1) [cb']) ∧
  check_witness (Cry := toy_crypto) (mkBlock (blk_header run_block1) [cb']) run_params = Ok true.
Proof.
  destruct (commitment_roundtrip (Cry := toy_crypto) run_params run_block1 (run_coinbase 1 (5 * COIN) (320000000 * COIN))
    (mkTxIn OutPoint_null (default [] (push_int64 1) ++ [OP_0]) SEQUENCE_FINAL []) [] []) as (script & H1 & H2);
    [reflexivity|split; [reflexivity|]; split; [reflexivity|]; split; [reflexivity|]; split; [vm_compute; reflexivity|vm_compute; discriminate]|].
  eexists script, _. split; [exact H1|exact H2].
Defined.

(** C17: the cache of script verdicts changes no verdict.  Let the cache hold verdicts of
    past transactions that were verified, none of which shares its key with [tx] unless
    it is [tx] under the same flags, and let the coins that [tx] spends be available.
    Then [CheckInputs] and the checks it queues accept [tx] exactly when the script of
    every coin it spends accepts the input, with and without the cache, the queue and the
    storing of the verdict.  Afterwards the cache again holds verdicts of verified
    transactions, the past ones and at most [tx]. *)
Theorem CheckInputs_exact {V : Type} {View : CCoinsView V} {Laws : CoinsViewLaws V} {C : Type} {EC : ExecutionCache C} {Cry : Crypto}
    nonce (c : CCoinsViewCache V) U (e : C) past tx flags store queue :
  holds c U → IsCoinBase tx = false → available U tx → filled_from nonce e past → verified_past U past → no_collision nonce past tx flags →
  ((∃ ks c' e', CheckInputs nonce c e tx true flags store queue = Ok (ks, c', e') ∧ wait_checks ks = Ok ()) ↔ all_verified U tx flags) ∧
  (∀ ks c' e', CheckInputs nonce c e tx true flags store queue = Ok (ks, c', e') →
    ∃ past', past' ⊆ (tx, flags) :: past ∧ filled_from nonce e' past' ∧ verified_past U past').
Proof.
  intros Hh Hcb Hav Hf Hv Hnc. unfold CheckInputs. rewrite Hcb. cbn [orb negb].
  destruct (contains e (cache_entry nonce tx flags) (negb store)) as [known e1] eqn:Hc.
  assert (filled_from nonce e1 past) as Hf1 by (intros k Hin; eapply Hf, contains_keeps; [exact Hc|done]).
  assert (past ⊆ (tx, flags) :: past) as Hsub by set_solver.
  destruct known; [split; [|intros ? ? ? [= _ _ <-]; by exists past]|].
  - apply contains_cached, Hf in Hc as (tx' & flags' & Hin & Hk). destruct (Hnc tx' flags' Hin (eq_sym Hk)) as [-> ->].
    split; [intros _; by apply Hv|]. intros _. by exists [], c, e1.
  - pose proof (check_scripts_exact tx flags queue U (vin tx) c 0 Hh) as Hx. change (all_verified U tx flags) with
      (∀ j txin, nth_error (vin tx) j = Some txin → input_verified U tx flags (0 + j) txin). rewrite <- Hx.
    split; [|intros ks c' e' H; apply rbind_Ok in H as ([ks1 c1] & H1 & H); injection H as <- <- <-].
    + split; [intros (ks & c' & e' & H & Hw); apply rbind_Ok in H as ([ks1 c1] & H1 & H); injection H as <- <- <-; by exists ks1, c1|].
      intros (ks & c' & -> & Hw). by eexists _, _, _.
    + destruct store; [|by exists past]. destruct queue; [by exists past|]. cbn [andb negb]. exists ((tx, flags) :: past). split; [done|]. split.
      * intros k [->|Hin]%insert_adds; [exists tx, flags; split; [by left|done]|]. destruct (Hf1 k Hin) as (tx' & f' & ? & ?). exists tx', f'. split; [by right|done].
      * intros tx' f' [[= -> ->]|Hin]%elem_of_cons; [|by apply Hv]. intros _. refine (proj1 Hx _). exists ks1, c1. split; [done|]. by eapply check_scripts_empty.
Qed.

(** A coin anyone can spend, and its spending: with an empty cache and with the verdict in
    the cache. *)
Lemma CheckInputs_exact_witness :
  (∃ ks c' e', CheckInputs (EC := set_cache) (Cry := toy_crypto) blob_null (Cache_new (db_with [(sample_outpoint, sample_coin)])) (∅ : gset (list Z)) sample_spend true 0 true false
    = Ok (ks, c', e') ∧ wait_checks (Cry := toy_crypto) ks = Ok ()) ∧
  (∃ ks c' e', CheckInputs (EC := set_cache) (Cry := toy_crypto) blob_null (Cache_new (db_with [(sample_outpoint, sample_coin)]))
    ({[cache_entry (Cry := toy_crypto) blob_null sample_spend 0]} : gset (list Z)) sample_spend true 0 true false
    = Ok (ks, c', e') ∧ wait_checks (Cry := toy_crypto) ks = Ok ()).
Proof.
  set (U := fun o => (list_to_map [(sample_outpoint, sample_coin)] : gmap COutPoint Coin) !! o).
  assert (available U sample_spend) as Ha by (intros [|[|i]] txin H; [|discriminate|discriminate]; injection H as <-; exists sample_coin; reflexivity).
  assert (all_verified (Cry := toy_crypto) U sample_spend 0) as Hv.
  { intros [|[|i]] txin H; [|discriminate|discriminate]. injection H as <-. exists sample_coin. split; [reflexivity|]. vm_compute. reflexivity. }
  split.
  - apply (proj1 (CheckInputs_exact (EC := set_cache) (Cry := toy_crypto) blob_null (Cache_new (db_with [(sample_outpoint, sample_coin)]))
      U (∅ : gset (list Z)) [] sample_spend 0 true false (db_with_holds [(sample_outpoint, sample_coin)] eq_refl) eq_refl Ha
      (fun k Hk => False_ind _ (not_elem_of_empty k Hk)) (fun tx f H => False_ind _ (not_elem_of_nil _ H)) (fun tx f H => False_ind _ (not_elem_of_nil _ H)))). exact Hv.
  - apply (proj1 (CheckInputs_exact (EC := set_cache) (Cry := toy_crypto) blob_null (Cache_new (db_with [(sample_outpoint, sample_coin)]))
      U ({[cache_entry (Cry := toy_crypto) blob_null sample_spend 0]} : gset (list Z)) [(sample_spend, 0)] sample_spend 0 true false
      (db_with_holds [(sample_outpoint, sample_coin)] eq_refl) eq_refl Ha
      ltac:(intros k Hk%elem_of_singleton; exists sample_spend, 0; split; [by left|exact Hk])
      ltac:(intros tx f [[= -> ->]|H%elem_of_nil]%elem_of_cons _; [exact Hv|done]) ltac:(intros tx f [[= -> ->]|H%elem_of_nil]%elem_of_cons _; done))). exact Hv.
Defined.

(** C20: the limit on signature operations holds without wrapping.  In a block that
    [CheckBlock] accepts, four times the number of signature operations in all scripts,
    counted without a machine width, is at most [MAX_BLOCK_SIGOPS_COST]: the 32-bit
    counters of the block and of each transaction cannot wrap around below the limit. *)
Theorem sigops_limit_exact {Cry : Crypto} {Pow : PowHash} {Split : BoostSplit} {Env : AssetEnv} t block params pow merkle db r :
  CheckBlock t false block params pow merkle db = Ok r → 4 * sum_by tx_sigops (vtx block) <= MAX_BLOCK_SIGOPS_COST.
Proof.
  intros H. unfold CheckBlock in H. do 2 (apply rbind_Ok in H as (? & _ & H)). apply rbind_Ok in H as (? & Hsize%dos_Ok & H).
  do 4 (apply rbind_Ok in H as (? & _ & H)). apply rbind_Ok in H as (? & Hops%dos_Ok & _).
  apply negb_true_iff, orb_false_iff in Hsize as [_ Hsize]. rewrite Z.gtb_ltb in Hsize. apply Z.ltb_ge in Hsize.
  unfold GetMaxBlockWeight, MAX_BLOCK_WEIGHT_RIP2, WITNESS_SCALE_FACTOR in *. change (2 ^ 27) with 134217728 in *.
  assert (size (flat_map (SerializeTransaction false) (vtx block)) <= 1000000) as Hb.
  { unfold ser_block in Hsize. rewrite size_app in Hsize. pose proof (vector_size (SerializeTransaction false) (vtx block)).
    pose proof (size_nonneg (ser_header (blk_header block))). lia. }
  assert (∀ tx, tx ∈ vtx block → GetLegacySigOpCount tx = tx_sigops tx ∧ 0 <= tx_sigops tx <= 20 * size (SerializeTransaction false tx)) as Htx.
  { intros tx Hin. apply tx_sigops_exact. pose proof (size_flat_map (SerializeTransaction false) _ _ Hin). lia. }
  pose proof (sum_by_bound tx_sigops (SerializeTransaction false) (vtx block) (fun tx Hin => proj2 (Htx tx Hin))) as Hsum.
  apply negb_true_iff in Hops. rewrite Z.gtb_ltb in Hops. apply Z.ltb_ge in Hops.
  rewrite (fold_left_ext_in _ (fun n tx => u32 (n + tx_sigops tx))) in Hops by (intros n tx Hin; by destruct (Htx tx Hin) as [-> _]).
  rewrite fold_wrapped in Hops; [|lia|intros tx Hin; by apply Htx|lia]. unfold u32 in Hops. rewrite uwrap_id in Hops by (unfold ufits; lia). lia.
Qed.

Lemma sigops_limit_exact_witness : 4 * sum_by tx_sigops (vtx run_block1) <= MAX_BLOCK_SIGOPS_COST.
Proof.
  assert (is_ok (CheckBlock (Cry := toy_crypto) (Env := sample_env) run_tree false run_block1 run_params true true false) = true) as Hok by (vm_compute; reflexivity).
  destruct (CheckBlock (Cry := toy_crypto) (Env := sample_env) run_tree false run_block1 run_params true true false) as [r|e] eqn:H; [|discriminate].
  exact (sigops_limit_exact (Cry := toy_crypto) (Env := sample_env) run_tree run_block1 run_params true true false r H).
Defined.

(** The header [h] with another height, another mix hash and another nonce. *)
Definition reclaim (h : CBlockHeader) (height nonce64 : Z) (mix : uint256) : CBlockHeader :=
  mkHeader (nVersion h) (hashPrevBlock h) (hashMerkleRoot h) (nTime h) (nBits h) (nNonce h) height nonce64 mix.

(** C21: the height a header claims decides how its work is checked.  A header that claims
    a height up to that of the last checkpoint in the index is accepted on the hash
    computed from the mix hash it carries; the mix hash is never recomputed.  The checks
    against its parent accept the header with any claimed height, mix hash and nonce
    alike, so a header on top of the chain can claim a low height. *)
Theorem claimed_height_trusted {Pow : PowHash} {Env : AssetEnv} t h params p b ctx prev time height nonce64 mix :
  nPHIHASHActivationTime <= nTime h → GetLastCheckpoint (mapCheckpoints params) t = Some p → tree_heap t !! p = Some b → 0 <= bi_nHeight b < 2 ^ 31 →
  (height <= bi_nHeight b →
    CheckBlockHeader t (reclaim h height nonce64 mix) params true =
    dos (CheckProofOfWork (PHIHASHHash_OnlyMix (reclaim h height nonce64 mix)) (nBits h) (GetConsensus params)) 50 "high-hash1") ∧
  ContextualCheckBlockHeader ctx t (reclaim h height nonce64 mix) params prev time = ContextualCheckBlockHeader ctx t h params prev time.
Proof.
  intros Ht Hp Hb Hh. split.
  - intros Hle. unfold CheckBlockHeader, GetHash. rewrite Hp. unfold deref. rewrite Hb. cbn [reclaim nTime nHeight nBits in_chain rbind andb].
    rewrite (proj2 (Z.geb_le _ _)) by lia. unfold u32. rewrite uwrap_id by (unfold ufits; lia). rewrite (proj2 (Z.leb_le _ _)) by lia.
    by rewrite (proj2 (Z.ltb_ge _ _)) by lia.
  - destruct h. reflexivity.
Qed.

Lemma claimed_height_trusted_witness :
  let params := mkChainParams main_params (7 :: replicate 31 0) 2100000 true true true true true [(1, 8 :: replicate 31 0)] [] in
  CheckBlockHeader run_tree (reclaim (mkHeader 4 blob_null blob_null 1800000000 0x1d00ffff 1 3 0 blob_null) 1 0 (replicate 32 9)) params true = Ok ().
Proof.
  intros params. destruct (run_entry_ok 2%positive 1) as (b & Hb & Hh); [vm_compute; reflexivity|].
  destruct (claimed_height_trusted (Env := sample_env) run_tree (mkHeader 4 blob_null blob_null 1800000000 0x1d00ffff 1 3 0 blob_null) params 2%positive b
    (mkNode [] 60 4 0 None 0 true) 2%positive 0 1 0 (replicate 32 9)) as [H _].
  - vm_compute. discriminate.
  - vm_compute. reflexivity.
  - exact Hb.
  - rewrite Hh. lia.
  - rewrite H by (rewrite Hh; lia). vm_compute. reflexivity.
Defined.
