(* ===== verification/AssetDump.v ===== *)
(** * Writing the asset cache to the databases: [CAssetsCache::DumpCacheToDatabase]

    A completed write keeps the answers of the look-ups, but for reissue data of assets that
    are gone, and the caches of database reads keep agreeing with the databases.  The last
    part shows in which states the look-ups, [Flush] or an interrupted write give a wrong
    answer. *)

From stdpp Require Import gmap sorting.
From S2P Require Import Prelude Serialize Transaction Script Interpreter Regex AssetTypes AssetNames Verifier LRUCache Coins Chainstate Base58 Standard AssetScripts AssetChecks AssetsCache AssetStore AssetConnect TxVerify AssetBalance AssetUndo.

(** ** The last update of a key decides *)

Section last_update.
Context {Cry : Crypto} {A : Type}.
Implicit Types (f : asset_store → A) (e : dump_action → option A).

Definition updates f e : Prop := ∀ s a, f (run_action s a) = default (f s) (e a).

Lemma run_last f e l : updates f e → ∀ s, f (fold_left run_action l s) = default (f s) (last (omap e l)).
Proof.
  intros Hu. induction l as [|a l IH] using rev_ind; intros s; [done|]. rewrite fold_left_app. cbn [fold_left]. rewrite Hu, IH, omap_app. cbn.
  destruct (e a); [by rewrite last_snoc|]. by rewrite app_nil_r.
Qed.

Lemma omap_flat_map {X} (e : dump_action → option A) (g : X → list dump_action) l : omap e (flat_map g l) = flat_map (fun x => omap e (g x)) l.
Proof. induction l as [|x l IH]; [done|]. cbn. by rewrite omap_app, IH. Qed.

(** Only the element of the key itself contributes. *)
Lemma each_key {K} `{Countable K} {E} e (g : K → E → list dump_action) (m : gmap K E) k :
  (∀ k' x, m !! k' = Some x → k' ≠ k → omap e (g k' x) = []) →
  omap e (each g m) = match m !! k with Some x => omap e (g k x) | None => [] end.
Proof.
  intros Hg. unfold each. rewrite omap_flat_map.
  assert (∀ l, (∀ p, p ∈ l → m !! p.1 = Some p.2) → k ∉ l.*1 → flat_map (fun p => omap e (g p.1 p.2)) l = []) as Hnil.
  { induction l as [|p l IH]; intros Hl Hk; [done|]. cbn in Hk |- *. apply not_elem_of_cons in Hk as [Hk1 Hk2].
    rewrite Hg, IH; [done|intros q Hq; apply Hl; by right|done|apply Hl; by left|congruence]. }
  pose proof (NoDup_fst_map_to_list m) as Hnd. assert (∀ p, p ∈ map_to_list m → m !! p.1 = Some p.2) as Hl by (intros [k' x]; apply elem_of_map_to_list).
  destruct (m !! k) as [x|] eqn:Hk.
  - apply elem_of_map_to_list in Hk. apply list_elem_of_split in Hk as (l1 & l2 & Hs). rewrite Hs in *. rewrite flat_map_app. cbn.
    rewrite fmap_app in Hnd. cbn in Hnd. apply NoDup_app in Hnd as (_ & Hd & Hn2). apply NoDup_cons in Hn2 as [Hn2 _].
    rewrite (Hnil l1), (Hnil l2); [by rewrite app_nil_r|..].
    + intros p Hp. apply Hl, elem_of_app. right. by right.
    + done.
    + intros p Hp. apply Hl, elem_of_app. by left.
    + intros Hin. apply (Hd k Hin). by left.
  - apply Hnil; [done|]. intros Hin. apply list_elem_of_fmap in Hin as ([k' x] & -> & Hin). apply elem_of_map_to_list in Hin. cbn in Hk. congruence.
Qed.

Lemma each_none {K} `{Countable K} {E} e (g : K → E → list dump_action) (m : gmap K E) : (∀ k x, omap e (g k x) = []) → omap e (each g m) = [].
Proof. intros Hg. unfold each. rewrite omap_flat_map. induction (map_to_list m) as [|p l IH]; [done|]. cbn. by rewrite Hg, IH. Qed.
Lemma flat_map_none {X} e (g : X → list dump_action) l : (∀ x, omap e (g x) = []) → omap e (flat_map g l) = [].
Proof. intros Hg. rewrite omap_flat_map. induction l as [|p l IH]; [done|]. cbn. by rewrite Hg, IH. Qed.
End last_update.

(** ** The updates of each answer *)

Section dump.
Context {Cry : Crypto} {Split : BoostSplit} {Env : AssetEnv} {Flags : AssetFlags}.
Implicit Types (p : CAssetsCache) (s : asset_store) (name address : list Z).

Definition asset_update name (a : dump_action) : option (option CNewAsset) :=
  match a with
  | WriteAssetData x _ _ => if decide (na_strName x = name) then Some (Some x) else None
  | EraseAssetData n => if decide (n = name) then Some None else None
  | _ => None
  end.
Definition verifier_update name (a : dump_action) : option (option (list Z)) :=
  match a with
  | WriteVerifier n v => if decide (n = name) then Some (Some v) else None
  | EraseVerifier n => if decide (n = name) then Some None else None
  | _ => None
  end.
Definition freeze_update (k : list Z * list Z) (a : dump_action) : option bool :=
  match a with
  | WriteRestrictedAddress address n => if decide ((n, address) = k) then Some true else None
  | EraseRestrictedAddress address n => if decide ((n, address) = k) then Some false else None
  | _ => None
  end.
Definition global_update name (a : dump_action) : option bool :=
  match a with
  | WriteGlobalRestriction n => if decide (n = name) then Some true else None
  | EraseGlobalRestriction n => if decide (n = name) then Some false else None
  | _ => None
  end.
Definition tag_update (k : list Z * list Z) (a : dump_action) : option bool :=
  match a with
  | WriteAddressQualifier address n => if decide ((n, address) = k) then Some true else None
  | EraseAddressQualifier address n => if decide ((n, address) = k) then Some false else None
  | _ => None
  end.

Lemma asset_updates name : updates (fun s => da_asset <$> db_assets (passetsdb s) !! name) (asset_update name).
Proof.
  intros s a. unfold run_action, run_assetsdb. cbn [passetsdb]. destruct (passetsdb s) as [x y z]. destruct a; cbn; try done; case_decide as H; subst.
  - by rewrite lookup_insert_eq.
  - by rewrite lookup_insert_ne.
  - by rewrite lookup_delete_eq.
  - by rewrite lookup_delete_ne.
Qed.
Lemma verifier_updates name : updates (fun s => db_verifiers (prestricteddb s) !! name) (verifier_update name).
Proof.
  intros s a. unfold run_action, run_restricteddb. cbn [prestricteddb]. destruct (prestricteddb s) as [v t q r g]. destruct a; cbn; try done; case_decide as H; subst.
  - by rewrite lookup_insert_eq.
  - by rewrite lookup_insert_ne.
  - by rewrite lookup_delete_eq.
  - by rewrite lookup_delete_ne.
Qed.
Ltac set_update :=
  first [ by apply bool_decide_eq_true_2, elem_of_union_l, elem_of_singleton
        | apply bool_decide_eq_false_2; rewrite elem_of_difference, elem_of_singleton; tauto
        | apply bool_decide_ext; rewrite ?elem_of_union, ?elem_of_difference, elem_of_singleton; naive_solver ].
Lemma freeze_updates k : updates (fun s => bool_decide ((k.2, k.1) ∈ db_restricted_addresses (prestricteddb s))) (freeze_update k).
Proof.
  intros s a. unfold run_action, run_restricteddb. cbn [prestricteddb]. destruct (prestricteddb s) as [v t q r g]. destruct k as [n ad].
  destruct a; cbn; try done; case_decide as H; try (injection H as -> ->); cbn; set_update.
Qed.
Lemma global_updates name : updates (fun s => bool_decide (name ∈ db_global_restrictions (prestricteddb s))) (global_update name).
Proof.
  intros s a. unfold run_action, run_restricteddb. cbn [prestricteddb]. destruct (prestricteddb s) as [v t q r g].
  destruct a; cbn; try done; case_decide as H; subst; cbn; set_update.
Qed.
Lemma tag_updates k : updates (fun s => bool_decide ((k.2, k.1) ∈ db_address_qualifiers (prestricteddb s))) (tag_update k).
Proof.
  intros s a. unfold run_action, run_restricteddb. cbn [prestricteddb]. destruct (prestricteddb s) as [v t q r g]. destruct k as [n ad].
  destruct a; cbn; try done; case_decide as H; try (injection H as -> ->); cbn; set_update.
Qed.

(** A part of the sequence that does not touch the key. *)
Ltac quiet :=
  intros; unfold dump_removed_asset, dump_new_asset, dump_reissue, dump_removed_reissue, dump_verifier, dump_removed_verifier, dump_tag, dump_removed_tag,
    dump_freeze, dump_removed_freeze, dump_global, dump_removed_global, write_tag, erase_tag, write_freeze, erase_freeze, write_global, erase_global, indexed,
    quantity, quantity_or_erase, positive_quantity, write_quantity, erase_quantity;
  repeat case_match; reflexivity.
Ltac quiet_part := first [rewrite each_none by quiet | rewrite flat_map_none by quiet].

Lemma omap_indexed {A} (e : dump_action → option A) l : omap e (indexed l) = if fAssetIndex then omap e l else [].
Proof. unfold indexed. by destruct fAssetIndex. Qed.

(** What [DumpCacheToDatabase] needs to find in the cache: elements under their own keys, no
    key added and removed at once, and flags of the right kind; a removed asset's verifier
    string goes with it. *)
Definition disjoint_marks {K} `{Countable K} {E} (d : dirty K E) : Prop := ∀ k, ToAdd d !! k = None ∨ ToRemove d !! k = None.
Record dump_ok (p : CAssetsCache) (rdb : CRestrictedDB) : Prop := {
  do_assets : disjoint_marks (setNewAssets p) ∧ (∀ k x, ToAdd (setNewAssets p) !! k = Some x → na_strName (cn_asset x) = k) ∧
    (∀ k x, ToRemove (setNewAssets p) !! k = Some x → na_strName (cn_asset x) = k);
  do_reissued : ∀ k a, mapReissuedAssetData p !! k = Some a → na_strName a = k;
  do_verifiers : disjoint_marks (setNewRestrictedVerifier p) ∧ (∀ k, is_Some (ToRemove (setNewAssets p) !! k) →
    is_Some (ToAdd (setNewRestrictedVerifier p) !! k) ∨ is_Some (ToRemove (setNewRestrictedVerifier p) !! k) ∨ db_verifiers rdb !! k = None);
  do_freezes : disjoint_marks (setNewRestrictedAddress p) ∧ (∀ k t, ToAdd (setNewRestrictedAddress p) !! k = Some t ∨ ToRemove (setNewRestrictedAddress p) !! k = Some t →
    t = FREEZE_ADDRESS ∨ t = UNFREEZE_ADDRESS);
  do_globals : disjoint_marks (setNewRestrictedGlobal p) ∧ (∀ k t, ToAdd (setNewRestrictedGlobal p) !! k = Some t ∨ ToRemove (setNewRestrictedGlobal p) !! k = Some t →
    t = GLOBAL_FREEZE ∨ t = GLOBAL_UNFREEZE);
  do_tags : disjoint_marks (setNewQualifierAddress p)
}.
(** The data of a reissue of [k] are those of an asset that exists, and come with the
    reissue. *)
Definition reissue_kept (p : CAssetsCache) (db : CAssetsDB) (k : list Z) : Prop :=
  is_Some (mapReissuedAssetData p !! k) → ToRemove (setNewAssets p) !! k = None ∧
    (is_Some (ToAdd (setNewAssets p) !! k) ∨ is_Some (db_assets db !! k)) ∧
    ∃ o x, (ToAdd (setNewReissue p) !! o = Some x ∨ ToRemove (setNewReissue p) !! o = Some x) ∧ re_strName (cr_reissue x) = k.
(** Some reissue of [k] waits to be written. *)
Definition reissue_pending (p : CAssetsCache) (k : list Z) : Prop := ∃ e, e ∈ by_outpoint (ToAdd (setNewReissue p)) ∧ re_strName (cr_reissue e) = k.

(** Elements of other keys. *)
Ltac other_key := intros k' x _ Hne; unfold dump_freeze, dump_removed_freeze, dump_global, dump_removed_global, dump_tag, dump_removed_tag, dump_verifier,
    dump_removed_verifier, write_tag, erase_tag, write_freeze, erase_freeze, write_global, erase_global, indexed;
  try (destruct k' as [n' a']); repeat case_match; cbn; repeat (rewrite decide_False by congruence); reflexivity.

Lemma dump_freezes p k : omap (freeze_update k) (dump_actions p) =
  match ToAdd (setNewRestrictedAddress p) !! k with Some t => omap (freeze_update k) (dump_freeze k t) | None => [] end ++
  match ToRemove (setNewRestrictedAddress p) !! k with Some t => omap (freeze_update k) (dump_removed_freeze k t) | None => [] end.
Proof.
  unfold dump_actions. rewrite !omap_app, !omap_indexed, !omap_app. rewrite (each_key _ dump_freeze _ k), (each_key _ dump_removed_freeze _ k) by other_key.
  do 20 (try quiet_part). by destruct fAssetIndex; cbn; rewrite app_nil_r.
Qed.
Lemma dump_globals p k : omap (global_update k) (dump_actions p) =
  match ToAdd (setNewRestrictedGlobal p) !! k with Some t => omap (global_update k) (dump_global k t) | None => [] end ++
  match ToRemove (setNewRestrictedGlobal p) !! k with Some t => omap (global_update k) (dump_removed_global k t) | None => [] end.
Proof.
  unfold dump_actions. rewrite !omap_app, !omap_indexed, !omap_app. rewrite (each_key _ dump_global _ k), (each_key _ dump_removed_global _ k) by other_key.
  do 20 (try quiet_part). by destruct fAssetIndex; cbn; rewrite app_nil_r.
Qed.
Lemma dump_tags p k : omap (tag_update k) (dump_actions p) =
  match ToAdd (setNewQualifierAddress p) !! k with Some t => omap (tag_update k) (dump_tag k t) | None => [] end ++
  match ToRemove (setNewQualifierAddress p) !! k with Some t => omap (tag_update k) (dump_removed_tag k t) | None => [] end.
Proof.
  unfold dump_actions. rewrite !omap_app, !omap_indexed, !omap_app. rewrite (each_key _ dump_tag _ k), (each_key _ dump_removed_tag _ k) by other_key.
  do 20 (try quiet_part). by destruct fAssetIndex; cbn; rewrite app_nil_r.
Qed.

Lemma last_marks {K} `{Countable K} {E B} (d : dirty K E) k (ga gr : E → list B) : disjoint_marks d →
  last (match ToAdd d !! k with Some x => ga x | None => [] end ++ match ToRemove d !! k with Some x => gr x | None => [] end) =
  match ToRemove d !! k with Some x => last (gr x) | None => match ToAdd d !! k with Some x => last (ga x) | None => None end end.
Proof.
  intros Hd. destruct (Hd k) as [-> | ->]; [by destruct (ToRemove d !! k)|]. rewrite app_nil_r. by destruct (ToAdd d !! k).
Qed.

(** The updates of a freeze, a tag or a global freeze reproduce the answer. *)
Lemma frozen_dumped s k : dump_ok (passets s) (prestricteddb s) → let s' := fold_left run_action (dump_actions (passets s)) s in
  bool_decide ((k.2, k.1) ∈ db_restricted_addresses (prestricteddb s')) = frozen_in false AssetsCache_new (passets s) (prestricteddb s) k.1 k.2.
Proof.
  intros Hok. cbn zeta. destruct Hok as [_ _ _ [Hd Ht] _ _]. rewrite (run_last _ _ _ (freeze_updates k)), dump_freezes, last_marks by done.
  unfold frozen_in, layered, own. cbn [setNewRestrictedAddress AssetsCache_new ToRemove ToAdd empty_dirty]. rewrite !lookup_empty. specialize (Ht k). destruct k as [n ad]. cbn [fst snd].
  destruct (ToRemove (setNewRestrictedAddress (passets s)) !! (n, ad)) as [t|].
  - destruct (Ht t (or_intror eq_refl)) as [-> | ->]; cbn; by rewrite decide_True.
  - destruct (ToAdd (setNewRestrictedAddress (passets s)) !! (n, ad)) as [t|]; [|done]. destruct (Ht t (or_introl eq_refl)) as [-> | ->]; cbn; by rewrite decide_True.
Qed.
Lemma global_dumped s k : dump_ok (passets s) (prestricteddb s) → let s' := fold_left run_action (dump_actions (passets s)) s in
  bool_decide (k ∈ db_global_restrictions (prestricteddb s')) = globally_frozen_in false AssetsCache_new (passets s) (prestricteddb s) k.
Proof.
  intros Hok. cbn zeta. destruct Hok as [_ _ _ _ [Hd Ht] _]. rewrite (run_last _ _ _ (global_updates k)), dump_globals, last_marks by done.
  unfold globally_frozen_in, layered, own. cbn [setNewRestrictedGlobal AssetsCache_new ToRemove ToAdd empty_dirty]. rewrite !lookup_empty. specialize (Ht k).
  destruct (ToRemove (setNewRestrictedGlobal (passets s)) !! k) as [t|].
  - destruct (Ht t (or_intror eq_refl)) as [-> | ->]; cbn; by rewrite decide_True.
  - destruct (ToAdd (setNewRestrictedGlobal (passets s)) !! k) as [t|]; [|done]. destruct (Ht t (or_introl eq_refl)) as [-> | ->]; cbn; by rewrite decide_True.
Qed.
Lemma tag_dumped s k : dump_ok (passets s) (prestricteddb s) → let s' := fold_left run_action (dump_actions (passets s)) s in
  bool_decide ((k.2, k.1) ∈ db_address_qualifiers (prestricteddb s')) =
  layered (fun t => bool_decide (t = REMOVE_QUALIFIER)) (fun t => bool_decide (t = ADD_QUALIFIER)) empty_dirty (setNewQualifierAddress (passets s)) k
    (bool_decide ((k.2, k.1) ∈ db_address_qualifiers (prestricteddb s))).
Proof.
  intros Hok. cbn zeta. destruct Hok as [_ _ _ _ _ Hd]. rewrite (run_last _ _ _ (tag_updates k)), dump_tags, last_marks by done.
  unfold layered. cbn [ToRemove ToAdd empty_dirty]. rewrite !lookup_empty. destruct k as [n ad]. cbn [fst snd].
  destruct (ToRemove (setNewQualifierAddress (passets s)) !! (n, ad)) as [[]|]; [| |destruct (ToAdd (setNewQualifierAddress (passets s)) !! (n, ad)) as [[]|]; [| |done]].
  all: unfold dump_tag, dump_removed_tag, write_tag, erase_tag; rewrite omap_app, omap_indexed; destruct fAssetIndex; cbn; by rewrite decide_True.
Qed.

(** Assets that were removed or added, under their own names. *)
Ltac own_name Hn := intros k' x Hx Hne; apply Hn in Hx; unfold dump_removed_asset, dump_new_asset, indexed, erase_quantity, write_quantity;
  rewrite ?Hx; destruct fAssetIndex; cbn; repeat (rewrite decide_False by congruence); reflexivity.

Lemma dump_verifiers p k : (∀ k x, ToRemove (setNewAssets p) !! k = Some x → na_strName (cn_asset x) = k) →
  omap (verifier_update k) (dump_actions p) =
  (match ToRemove (setNewAssets p) !! k with Some _ => [None] | None => [] end) ++
  match ToAdd (setNewRestrictedVerifier p) !! k with Some e => [Some (cv_verifier e)] | None => [] end ++
  match ToRemove (setNewRestrictedVerifier p) !! k with Some e => [removed_verifier e] | None => [] end.
Proof.
  intros Hn. unfold dump_actions. rewrite !omap_app, !omap_indexed, !omap_app.
  rewrite (each_key _ (fun _ => dump_removed_asset) _ k) by own_name Hn. rewrite (each_key _ dump_verifier _ k), (each_key _ dump_removed_verifier _ k) by other_key.
  do 20 (try quiet_part).
  assert (∀ x, ToRemove (setNewAssets p) !! k = Some x → omap (verifier_update k) (dump_removed_asset x) = [None]) as Hr.
  { intros x Hx. apply Hn in Hx. unfold dump_removed_asset. rewrite omap_app, omap_indexed, Hx. cbn. rewrite decide_True by done. by destruct fAssetIndex. }
  assert ((if fAssetIndex then [] ++ [] ++ [] ++ [] else []) = @nil (option (list Z))) as -> by by destruct fAssetIndex.
  assert ((if fAssetIndex then [] ++ [] else []) = @nil (option (list Z))) as -> by by destruct fAssetIndex.
  cbn [app]. rewrite !app_nil_r. f_equal; [destruct (ToRemove (setNewAssets p) !! k) eqn:E1; [by apply Hr|done]|]. f_equal.
  - destruct (ToAdd (setNewRestrictedVerifier p) !! k); [|done]. cbn. by rewrite decide_True.
  - destruct (ToRemove (setNewRestrictedVerifier p) !! k) as [x|]; [|done]. unfold dump_removed_verifier, removed_verifier.
    destruct (cv_fUndoingRessiue x); cbn; by rewrite decide_True.
Qed.

Lemma verifier_dumped s k : dump_ok (passets s) (prestricteddb s) → let s' := fold_left run_action (dump_actions (passets s)) s in
  db_verifiers (prestricteddb s') !! k = verifier_in false AssetsCache_new (passets s) (prestricteddb s) k.
Proof.
  intros Hok. cbn zeta. destruct Hok as [(_ & _ & Hn) _ [Hd Hv] _ _ _]. rewrite (run_last _ _ _ (verifier_updates k)), dump_verifiers by done.
  rewrite last_app, last_marks by done. unfold verifier_in, layered, own. cbn [setNewRestrictedVerifier AssetsCache_new ToRemove ToAdd empty_dirty]. rewrite !lookup_empty.
  specialize (Hv k). destruct (ToRemove (setNewRestrictedVerifier (passets s)) !! k) as [x|]; [done|].
  destruct (ToAdd (setNewRestrictedVerifier (passets s)) !! k) as [x|]; [done|].
  destruct (ToRemove (setNewAssets (passets s)) !! k); [|done]. cbn. destruct Hv as [[? [=]]|[[? [=]]|Hv]]; [done|]. by rewrite Hv.
Qed.

(** *** Assets and reissues *)

Lemma last_const {A} (l : list A) (a : A) : l ≠ [] → (∀ x, x ∈ l → x = a) → last l = Some a.
Proof. intros Hl Ha. destruct l as [|x l _] using rev_ind; [done|]. rewrite last_snoc. f_equal. apply Ha. set_solver. Qed.

Section reissues.
Variables (p : CAssetsCache) (k : list Z).
Hypothesis Hown : ∀ k a, mapReissuedAssetData p !! k = Some a → na_strName a = k.

Lemma dump_reissue_updates e : omap (asset_update k) (dump_reissue p e) =
  match mapReissuedAssetData p !! k with Some a => if decide (re_strName (cr_reissue e) = k) then [Some a] else [] | None => [] end.
Proof.
  unfold dump_reissue. destruct (decide (re_strName (cr_reissue e) = k)) as [He|Hne].
  - rewrite He. destruct (mapReissuedAssetData p !! k) as [a|] eqn:Ha; [|done]. apply Hown in Ha. rewrite omap_app, omap_indexed.
    unfold positive_quantity. cbn. rewrite decide_True by done. by repeat case_match.
  - destruct (mapReissuedAssetData p !! re_strName _) as [a|] eqn:Ha; [|by case_match]. apply Hown in Ha. rewrite omap_app, omap_indexed.
    unfold positive_quantity. cbn. rewrite decide_False by congruence. by repeat case_match.
Qed.
Lemma dump_removed_reissue_updates e : omap (asset_update k) (dump_removed_reissue p e) =
  if has k (ToRemove (setNewAssets p)) then []
  else match mapReissuedAssetData p !! k with Some a => if decide (re_strName (cr_reissue e) = k) then [Some a] else [] | None => [] end.
Proof.
  unfold dump_removed_reissue. destruct (decide (re_strName (cr_reissue e) = k)) as [He|Hne].
  - rewrite He. destruct (has k _); [done|]. destruct (mapReissuedAssetData p !! k) as [a|] eqn:Ha; [|done]. apply Hown in Ha. rewrite !omap_app, omap_indexed.
    unfold quantity_or_erase. cbn. rewrite decide_True by done. by repeat case_match.
  - assert (∀ o : option CNewAsset, (if has k (ToRemove (setNewAssets p)) then [] else match o with Some a => [] | None => [] end) = @nil (option CNewAsset)) as ->
      by (intros [a|]; by destruct (has k _)).
    destruct (has _ _); [done|]. destruct (mapReissuedAssetData p !! re_strName _) as [a|] eqn:Ha; [|done]. apply Hown in Ha. rewrite !omap_app, omap_indexed.
    unfold quantity_or_erase. cbn. rewrite decide_False by congruence. by repeat case_match.
Qed.

Lemma reissues_last (g : CAssetCacheReissueAsset → list dump_action) l :
  (∀ e, omap (asset_update k) (g e) =
    match mapReissuedAssetData p !! k with Some a => if decide (re_strName (cr_reissue e) = k) then [Some a] else [] | None => [] end) →
  (∀ x, x ∈ omap (asset_update k) (flat_map g l) → x = mapReissuedAssetData p !! k ∧ x ≠ None) ∧
  (is_Some (mapReissuedAssetData p !! k) → (∃ e, e ∈ l ∧ re_strName (cr_reissue e) = k) → omap (asset_update k) (flat_map g l) ≠ []) ∧
  (¬ (∃ e, e ∈ l ∧ re_strName (cr_reissue e) = k) → omap (asset_update k) (flat_map g l) = []).
Proof.
  intros Hg. rewrite omap_flat_map. split; [|split].
  - intros x Hx. apply list_elem_of_In, in_flat_map in Hx as (e & _ & Hx%list_elem_of_In). rewrite Hg in Hx.
    destruct (mapReissuedAssetData p !! k); [case_decide; [|by apply elem_of_nil in Hx]|by apply elem_of_nil in Hx].
    by apply list_elem_of_singleton in Hx as ->.
  - intros [a Ha] (e & He%list_elem_of_In & Hk) Hnil.
    assert (In (Some a) (flat_map (fun x => omap (asset_update k) (g x)) l)) as Hin; [|by rewrite Hnil in Hin].
    apply in_flat_map. exists e. split; [done|]. rewrite Hg, Ha, decide_True by done. by left.
  - intros Hn. destruct (flat_map _ l) as [|x t] eqn:E; [done|]. exfalso.
    assert (In x (flat_map (fun e => omap (asset_update k) (g e)) l)) as (e & He & Hx)%in_flat_map by (rewrite E; by left).
    rewrite Hg in Hx. destruct (mapReissuedAssetData p !! k); [|done]. case_decide; [|done]. apply Hn. exists e. by rewrite list_elem_of_In.
Qed.
End reissues.

Lemma elem_of_by_outpoint {E} (m : gmap COutPoint E) o x : m !! o = Some x → x ∈ by_outpoint m.
Proof.
  intros Hx. unfold by_outpoint. apply (list_elem_of_fmap_2 snd _ (o, x)). rewrite merge_sort_Permutation. by apply elem_of_map_to_list.
Qed.

Lemma dump_assets p k : (∀ k x, ToAdd (setNewAssets p) !! k = Some x → na_strName (cn_asset x) = k) →
  (∀ k x, ToRemove (setNewAssets p) !! k = Some x → na_strName (cn_asset x) = k) →
  omap (asset_update k) (dump_actions p) =
  (match ToRemove (setNewAssets p) !! k with Some _ => [None] | None => [] end ++
   match ToAdd (setNewAssets p) !! k with Some e => [Some (cn_asset e)] | None => [] end) ++
  omap (asset_update k) (flat_map (dump_reissue p) (by_outpoint (ToAdd (setNewReissue p)))) ++
  omap (asset_update k) (flat_map (dump_removed_reissue p) (by_outpoint (ToRemove (setNewReissue p)))).
Proof.
  intros Ha Hr. unfold dump_actions. rewrite !omap_app, !omap_indexed, !omap_app.
  rewrite (each_key _ (fun _ => dump_removed_asset) _ k) by own_name Hr. rewrite (each_key _ (fun _ => dump_new_asset) _ k) by own_name Ha.
  set (L2 := omap _ (flat_map (dump_reissue p) _)). set (L3 := omap _ (flat_map (dump_removed_reissue p) _)).
  do 20 (try quiet_part).
  assert ((if fAssetIndex then [] ++ [] ++ [] ++ [] else []) = @nil (option CNewAsset)) as -> by by destruct fAssetIndex.
  assert ((if fAssetIndex then [] ++ [] else []) = @nil (option CNewAsset)) as -> by by destruct fAssetIndex.
  cbn [app]. rewrite !app_nil_r, <-app_assoc. f_equal; [|f_equal].
  - destruct (ToRemove (setNewAssets p) !! k) as [x|] eqn:Hx; [|done]. apply Hr in Hx. unfold dump_removed_asset.
    rewrite omap_app, omap_indexed, Hx. cbn. rewrite decide_True by done. by destruct fAssetIndex.
  - destruct (ToAdd (setNewAssets p) !! k) as [x|] eqn:Hx; [|done]. apply Ha in Hx. unfold dump_new_asset.
    rewrite omap_app, omap_indexed. cbn. rewrite decide_True by done. by destruct fAssetIndex.
Qed.

(** The updates of an asset by the reissues. *)
Lemma reissue_parts p k : (∀ k a, mapReissuedAssetData p !! k = Some a → na_strName a = k) →
  let L2 := omap (asset_update k) (flat_map (dump_reissue p) (by_outpoint (ToAdd (setNewReissue p)))) in
  let L3 := omap (asset_update k) (flat_map (dump_removed_reissue p) (by_outpoint (ToRemove (setNewReissue p)))) in
  (∀ x, x ∈ L2 ++ L3 → x = mapReissuedAssetData p !! k ∧ x ≠ None) ∧
  (is_Some (ToRemove (setNewAssets p) !! k) → L3 = [] ∧ (is_Some (mapReissuedAssetData p !! k) → reissue_pending p k → L2 ≠ []) ∧ (¬ reissue_pending p k → L2 = [])) ∧
  (ToRemove (setNewAssets p) !! k = None → is_Some (mapReissuedAssetData p !! k) →
    (∃ o x, (ToAdd (setNewReissue p) !! o = Some x ∨ ToRemove (setNewReissue p) !! o = Some x) ∧ re_strName (cr_reissue x) = k) → L2 ++ L3 ≠ []).
Proof.
  intros Hown. cbn zeta. destruct (reissues_last p k _ (by_outpoint (ToAdd (setNewReissue p))) (dump_reissue_updates _ k Hown)) as (A1 & A2 & A3).
  destruct (decide (is_Some (ToRemove (setNewAssets p) !! k))) as [Hr|Hr].
  - assert (omap (asset_update k) (flat_map (dump_removed_reissue p) (by_outpoint (ToRemove (setNewReissue p)))) = []) as H3.
    { apply flat_map_none. intros e. rewrite dump_removed_reissue_updates by done. unfold has. by rewrite bool_decide_eq_true_2. }
    rewrite H3, app_nil_r. split; [done|]. split; [done|]. intros Hn. rewrite Hn in Hr. by destruct Hr.
  - destruct (reissues_last p k (dump_removed_reissue p) (by_outpoint (ToRemove (setNewReissue p)))) as (B1 & B2 & _).
    { intros e. rewrite dump_removed_reissue_updates by done. unfold has. by rewrite bool_decide_eq_false_2. }
    split; [intros x [Hx|Hx]%elem_of_app; auto|]. split; [done|]. intros _ Ha (o & x & [Hx|Hx] & Hn) [H2 H3]%app_nil; apply elem_of_by_outpoint in Hx; [by apply A2; eauto|by apply B2; eauto].
Qed.

Lemma asset_dumped s k : dump_ok (passets s) (prestricteddb s) → reissue_kept (passets s) (passetsdb s) k →
  let s' := fold_left run_action (dump_actions (passets s)) s in
  da_asset <$> db_assets (passetsdb s') !! k = meta_in AssetsCache_new (passets s) (passetsdb s) k.
Proof.
  intros Hok Hkept. cbn zeta. destruct Hok as [(Hd & Ha & Hr) Hre _ _ _ _]. rewrite (run_last _ _ _ (asset_updates k)), dump_assets by done.
  destruct (reissue_parts (passets s) k Hre) as (P1 & _ & P3).
  set (L2 := omap _ (flat_map (dump_reissue _) _)) in *. set (L3 := omap _ (flat_map (dump_removed_reissue _) _)) in *.
  unfold meta_in. change (mapReissuedAssetData AssetsCache_new) with (∅ : gmap (list Z) CNewAsset). rewrite map_empty_union.
  rewrite last_app. destruct (mapReissuedAssetData (passets s) !! k) as [a|] eqn:Hk.
  - rewrite (last_const _ (Some a)); [done| |intros x Hx; by apply P1].
    destruct (Hkept ltac:(rewrite Hk; by eexists)) as (K1 & _ & K3). by apply P3.
  - assert (L2 ++ L3 = []) as ->.
    { destruct (L2 ++ L3) as [|x l] eqn:E; [done|]. exfalso. destruct (P1 x) as [-> Hx]; [by left|done]. }
    cbn [last]. unfold layered. cbn [setNewAssets AssetsCache_new ToRemove ToAdd empty_dirty]. rewrite !lookup_empty.
    destruct (Hd k) as [-> | ->].
    + rewrite app_nil_r. by destruct (ToRemove (setNewAssets (passets s)) !! k).
    + by destruct (ToAdd (setNewAssets (passets s)) !! k).
Qed.

(** The data of a reissue whose asset is removed: they are written when a reissue waits, and
    dropped otherwise. *)
Lemma orphan_dumped s k a : dump_ok (passets s) (prestricteddb s) → mapReissuedAssetData (passets s) !! k = Some a →
  is_Some (ToRemove (setNewAssets (passets s)) !! k) → let s' := fold_left run_action (dump_actions (passets s)) s in
  (reissue_pending (passets s) k → da_asset <$> db_assets (passetsdb s') !! k = Some a) ∧
  (¬ reissue_pending (passets s) k → db_assets (passetsdb s') !! k = None).
Proof.
  intros Hok Hk Hrem. cbn zeta. destruct Hok as [(Hd & Ha & Hr) Hre _ _ _ _]. destruct (reissue_parts (passets s) k Hre) as (P1 & P2 & _).
  destruct (P2 Hrem) as (H3 & H4 & H5). rewrite H3, app_nil_r in P1. rewrite Hk in P1, H4.
  assert (∀ s', da_asset <$> db_assets (passetsdb s') !! k = None → db_assets (passetsdb s') !! k = None) as Hnone by (by intros s' ?%fmap_None).
  split; intros Hp; [|apply Hnone]; rewrite (run_last _ _ _ (asset_updates k)), dump_assets, H3, app_nil_r, last_app by done.
  - rewrite (last_const _ (Some a)); [done|by apply H4|intros x Hx; by apply P1].
  - rewrite (H5 Hp). cbn [last]. destruct Hrem as [x Hx]. rewrite Hx. destruct (Hd k) as [-> |Hn]; [done|congruence].
Qed.

Lemma exists_dumped s k : dump_ok (passets s) (prestricteddb s) → reissue_kept (passets s) (passetsdb s) k →
  let s' := fold_left run_action (dump_actions (passets s)) s in
  fReindex || has k (db_assets (passetsdb s')) = exists_in AssetsCache_new (passets s) (passetsdb s) k.
Proof.
  intros Hok Hkept. pose proof (asset_dumped s k Hok Hkept) as Hm. cbn zeta in *. set (s' := fold_left _ _ _) in *.
  destruct Hok as [(Hd & _ & _) Hre _ _ _ _]. unfold exists_in. f_equal. unfold has at 1.
  assert (is_Some (db_assets (passetsdb s') !! k) ↔ is_Some (meta_in AssetsCache_new (passets s) (passetsdb s) k)) as Hi by by rewrite <- Hm, fmap_is_Some.
  rewrite (bool_decide_ext _ _ Hi). unfold meta_in, layered. change (mapReissuedAssetData AssetsCache_new) with (∅ : gmap (list Z) CNewAsset).
  rewrite map_empty_union. cbn [setNewAssets AssetsCache_new ToRemove ToAdd empty_dirty]. rewrite !lookup_empty.
  destruct (mapReissuedAssetData (passets s) !! k) as [a|] eqn:Ha.
  - destruct (Hkept ltac:(rewrite Ha; by eexists)) as (-> & Hs & _). rewrite bool_decide_eq_true_2 by done. destruct (ToAdd (setNewAssets (passets s)) !! k); [done|].
    destruct Hs as [[? [=]]|Hs]. unfold has. by rewrite bool_decide_eq_true_2.
  - destruct (ToRemove (setNewAssets (passets s)) !! k); [done|]. destruct (ToAdd (setNewAssets (passets s)) !! k); [done|].
    unfold has. apply bool_decide_ext. by rewrite fmap_is_Some.
Qed.

(** Tags, for a name under which the address has no other tag. *)
Definition no_tag_below (p : CAssetsCache) (rdb : CRestrictedDB) (name address : list Z) : Prop :=
  no_sub_tags (mapRootQualifierAddressesAdd p) name address ∧
  ∀ k, name ++ [47] `prefix_of` k → (address, k) ∉ db_address_qualifiers rdb ∧
    ToAdd (setNewQualifierAddress p) !! (k, address) = None ∧ ToRemove (setNewQualifierAddress p) !! (k, address) = None.

Lemma root_qualifier_plain rdb name address : (∀ k, name ++ [47] `prefix_of` k → (address, k) ∉ db_address_qualifiers rdb) →
  bool_decide ((address, name) ∈ db_address_qualifiers rdb) || CheckForAddressRootQualifier rdb address name =
  bool_decide ((address, name) ∈ db_address_qualifiers rdb).
Proof.
  intros Hn. destruct (bool_decide_reflect ((address, name) ∈ db_address_qualifiers rdb)) as [|Hni]; [done|]. cbn [orb].
  apply not_true_is_false. intros ([a k] & Hin & Hk)%existsb_exists. apply list_elem_of_In, elem_of_elements in Hin. cbn in Hk.
  apply andb_prop in Hk as [->%bool_decide_eq_true Hk]. apply orb_prop in Hk as [->%bool_decide_eq_true|Hk%bool_decide_eq_true]; [done|].
  by apply (Hn k).
Qed.

Lemma tagged_dumped s name address : dump_ok (passets s) (prestricteddb s) → no_tag_below (passets s) (prestricteddb s) name address →
  let s' := fold_left run_action (dump_actions (passets s)) s in
  bool_decide ((address, name) ∈ db_address_qualifiers (prestricteddb s')) || CheckForAddressRootQualifier (prestricteddb s') address name =
  tagged_in false AssetsCache_new (passets s) (prestricteddb s) name address.
Proof.
  intros Hok [Hsub Hb]. cbn zeta. set (s' := fold_left _ _ _).
  assert (∀ k, bool_decide ((k.2, k.1) ∈ db_address_qualifiers (prestricteddb s')) = _) as Ht by (intros k; apply (tag_dumped s k Hok)).
  rewrite root_qualifier_plain.
  - rewrite tagged_layered by (done || (unfold no_sub_tags; cbn; by rewrite lookup_empty)). rewrite root_qualifier_plain by (intros k Hk; apply Hb, Hk).
    apply (Ht (name, address)).
  - intros k Hk Hin. specialize (Ht (k, address)). cbn [fst snd] in Ht. rewrite bool_decide_eq_true_2 in Ht by done.
    destruct (Hb k Hk) as (H1 & H2 & H3). unfold layered in Ht. cbn [ToRemove ToAdd empty_dirty] in Ht. rewrite !lookup_empty, H2, H3, bool_decide_eq_false_2 in Ht by done. done.
Qed.

(** ** The caches of reads after a write *)

Definition keeps (P : asset_store → Prop) (l : list dump_action) : Prop := ∀ s, P s → P (fold_left run_action l s).

Lemma keeps_nil P : keeps P [].
Proof. by intros s. Qed.
Lemma keeps_app P l l' : keeps P l → keeps P l' → keeps P (l ++ l').
Proof. intros H1 H2 s Hs. rewrite fold_left_app. auto. Qed.
Lemma keeps_indexed P l : keeps P l → keeps P (indexed l).
Proof. intros H. unfold indexed. destruct fAssetIndex; [done|apply keeps_nil]. Qed.
Lemma keeps_flat_map {X} P (g : X → list dump_action) l : (∀ x, x ∈ l → keeps P (g x)) → keeps P (flat_map g l).
Proof.
  induction l as [|x l IH]; intros Hg; [apply keeps_nil|]. cbn. apply keeps_app; [apply Hg; by left|]. apply IH. intros y Hy. apply Hg. by right.
Qed.
Lemma keeps_each {K} `{Countable K} {E} P (g : K → E → list dump_action) (m : gmap K E) : (∀ k x, m !! k = Some x → keeps P (g k x)) → keeps P (each g m).
Proof. intros Hg. apply keeps_flat_map. intros [k x] Hin. by apply Hg, elem_of_map_to_list. Qed.

(** The verifier strings apart: [EraseVerifier] comes long before [DropVerifier]. *)
Record reads_ok (D : gset (list Z * list Z)) (s : asset_store) : Prop := {
  ro_assets : agrees (fun k d => db_assets (passetsdb s) !! k = Some d) (passetsCache s);
  ro_named : ∀ k d, db_assets (passetsdb s) !! k = Some d → na_strName (da_asset d) = k;
  ro_globals : agrees (fun k _ => k ∈ db_global_restrictions (prestricteddb s)) (passetsGlobalRestrictionCache s);
  ro_freezes : agrees (fun h _ => ∀ n a, (n, a) ∈ D → pair_key n a = h → (a, n) ∈ db_restricted_addresses (prestricteddb s)) (passetsRestrictionCache s);
  ro_tags : agrees (fun h _ => ∀ n a, (n, a) ∈ D → pair_key n a = h → (a, n) ∈ db_address_qualifiers (prestricteddb s)) (passetsQualifierCache s)
}.

Section agrees_after.
Context {K : Type} `{Countable K} {V : Type}.
Implicit Types (P Q : K → V → Prop) (l : LRU.CLRUCache K V).

Lemma agrees_weaken P Q l : agrees P l → (∀ k v, P k v → Q k v) → agrees Q l.
Proof. intros [Hl Ha] Hw. split; [done|]. auto. Qed.
Lemma agrees_put_after P Q l k v : agrees P l → Q k v → (∀ k' v', k' ≠ k → P k' v' → Q k' v') → agrees Q (LRU.Put l k v).
Proof.
  intros [Hl Ha] Hk Hq. destruct (LRU.Put_spec l k v Hl) as (H1 & _ & H2). split; [done|]. rewrite H2. intros k' v' Hin.
  apply put_contents_in in Hin as [[= -> ->]|[Hne Hin]]; auto.
Qed.
Lemma agrees_erase_after P Q l k : agrees P l → (∀ k' v', k' ≠ k → P k' v' → Q k' v') → agrees Q (LRU.Erase l k).
Proof.
  intros [Hl Ha] Hq. destruct (LRU.Erase_spec l k Hl) as [H1 H2]. split; [done|]. rewrite H2. intros k' v' Hin.
  unfold LRU.without in Hin. apply list_elem_of_filter in Hin as [Hne Hin]. auto.
Qed.
End agrees_after.

Section reads.
Variable D : gset (list Z * list Z).
Hypothesis Hdist : keys_distinct D.

(** Updates of the verifier strings, the index of balances and the index of tags. *)
Definition unread (a : dump_action) : bool :=
  match a with
  | WriteAssetAddressQuantity _ _ _ | EraseAssetAddressQuantity _ _ | WriteAddressAssetQuantity _ _ _ | EraseAddressAssetQuantity _ _
  | DropVerifier _ | WriteVerifier _ _ | EraseVerifier _ | WriteQualifierAddress _ _ | EraseQualifierAddress _ _ => true
  | _ => false
  end.
Lemma keeps_unread l : forallb unread l = true → keeps (reads_ok D) l.
Proof.
  induction l as [|a l IH]; intros Hl; [apply keeps_nil|]. apply andb_prop in Hl as [Ha Hl]. apply (keeps_app _ [a]); [|auto].
  intros s [H1 H2 H3 H4 H5]. destruct s as [p lc lv lq lr lg [x y z] [v t q r g]]. destruct a; try done; by constructor.
Qed.
Ltac unread := apply keeps_unread; unfold dump_removed_verifier; repeat case_match; reflexivity.

Ltac opened := intros s [H1 H2 H3 H4 H5]; destruct s as [p0 lc lv lq lr lg [x y z] [v t q r g]]; cbn in *; constructor; cbn; try done.

Lemma keeps_erase_asset name : keeps (reads_ok D) [DropAsset name; EraseAssetData name].
Proof.
  opened.
  - eapply agrees_erase_after; [done|]. intros k' d Hne Hk. by rewrite lookup_delete_ne.
  - intros k d [_ Hk]%lookup_delete_Some. auto.
Qed.
Lemma keeps_write_asset a h b : keeps (reads_ok D) [PutAsset (na_strName a) (mkDatabasedAsset a h b); WriteAssetData a h b].
Proof.
  opened.
  - eapply agrees_put_after; [done|by rewrite lookup_insert_eq|]. intros k' d Hne Hk. by rewrite lookup_insert_ne.
  - intros k d [[<- <-]|[_ Hk]]%lookup_insert_Some; [done|auto].
Qed.
Lemma keeps_rewrite_asset a h b l : forallb unread l = true → keeps (reads_ok D) ([WriteAssetData a h b] ++ l ++ [DropAsset (na_strName a)]).
Proof.
  intros Hl s Hs. rewrite !fold_left_app. cbn [fold_left].
  assert (keeps (fun s => reads_ok D (run_action s (DropAsset (na_strName a)))) l) as Hk.
  { clear s Hs. induction l as [|x l IH]; [apply keeps_nil|]. apply andb_prop in Hl as [Hx Hl]. apply (keeps_app _ [x]); [|auto]. clear -Hx.
    intros s [H1 H2 H3 H4 H5]. destruct s as [p lc lv lq lr lg [y z w] [v t q r g]]. destruct x; try done; by constructor. }
  apply Hk. revert s Hs. change (keeps (reads_ok D) [WriteAssetData a h b; DropAsset (na_strName a)]). opened.
  - eapply agrees_erase_after; [done|]. intros k' d Hne Hk'. by rewrite lookup_insert_ne.
  - intros k d [[<- <-]|[_ Hk']]%lookup_insert_Some; [done|auto].
Qed.
Lemma keeps_write_global k : keeps (reads_ok D) (write_global k).
Proof. opened. eapply agrees_put_after; [done|set_solver|]. set_solver. Qed.
Lemma keeps_erase_global k : keeps (reads_ok D) (erase_global k).
Proof. opened. eapply agrees_erase_after; [done|]. set_solver. Qed.

Ltac hashed_put Hk := eapply agrees_put_after; [done| |intros h v0 Hne Hh n' a' Hin He; apply elem_of_union_r; by apply Hh];
  intros n' a' Hin He; destruct (Hdist _ _ _ _ Hin Hk He) as [-> ->]; set_solver.
Ltac hashed_erase := eapply agrees_erase_after; [done|]; intros h v0 Hne Hh n' a' Hin He; apply elem_of_difference; split; [by apply Hh|];
  intros [= -> ->]%elem_of_singleton; congruence.
Lemma keeps_write_freeze k : k ∈ D → keeps (reads_ok D) (write_freeze k).
Proof. destruct k as [n a]. intros Hk. opened. hashed_put Hk. Qed.
Lemma keeps_erase_freeze k : keeps (reads_ok D) (erase_freeze k).
Proof. destruct k as [n a]. opened. hashed_erase. Qed.
Lemma keeps_write_tag k : k ∈ D → keeps (reads_ok D) (write_tag k).
Proof.
  destruct k as [n a]. intros Hk. unfold write_tag. apply keeps_app; [|apply keeps_indexed, keeps_unread; done]. opened. hashed_put Hk.
Qed.
Lemma keeps_erase_tag k : keeps (reads_ok D) (erase_tag k).
Proof.
  destruct k as [n a]. unfold erase_tag. apply keeps_app; [|apply keeps_indexed, keeps_unread; done]. opened. hashed_erase.
Qed.

Lemma keeps_dump p : (∀ k a, mapReissuedAssetData p !! k = Some a → na_strName a = k) →
  (∀ k, is_Some (ToAdd (setNewRestrictedAddress p) !! k) ∨ is_Some (ToRemove (setNewRestrictedAddress p) !! k) → k ∈ D) →
  (∀ k, is_Some (ToAdd (setNewQualifierAddress p) !! k) ∨ is_Some (ToRemove (setNewQualifierAddress p) !! k) → k ∈ D) →
  keeps (reads_ok D) (dump_actions p).
Proof.
  intros Hr Hf Ht. unfold dump_actions, quantity, quantity_or_erase, positive_quantity, write_quantity, erase_quantity.
  repeat apply keeps_app; try (apply keeps_indexed; repeat apply keeps_app); try (first [apply keeps_each|apply keeps_flat_map]; intros; unread).
  - apply keeps_each. intros k x _. apply (keeps_app _ [_; _] (_ :: _)); [apply keeps_erase_asset|]. unfold indexed, erase_quantity. unread.
  - apply keeps_each. intros k x _. apply keeps_app; [apply keeps_write_asset|]. unfold indexed, write_quantity. unread.
  - apply keeps_flat_map. intros e _. unfold dump_reissue. destruct (mapReissuedAssetData p !! _) as [a|] eqn:Ha; [|apply keeps_nil]. apply Hr in Ha. rewrite <- Ha.
    apply keeps_app; [by apply (keeps_rewrite_asset a _ _ [])|]. unfold indexed, positive_quantity, write_quantity. unread.
  - apply keeps_flat_map. intros e _. unfold dump_removed_reissue. destruct (has _ _); [apply keeps_nil|].
    destruct (mapReissuedAssetData p !! _) as [a|] eqn:Ha; [|apply keeps_nil]. apply Hr in Ha. rewrite <- Ha. apply keeps_rewrite_asset.
    unfold indexed, quantity_or_erase, write_quantity, erase_quantity. by repeat case_match.
  - apply keeps_each. intros k t Hk. destruct t; [apply keeps_erase_tag|apply keeps_write_tag]. eauto.
  - apply keeps_each. intros k t Hk. destruct t; [apply keeps_write_tag|apply keeps_erase_tag]. eauto.
  - apply keeps_each. intros k t Hk. destruct t; try apply keeps_nil; [apply keeps_erase_freeze|apply keeps_write_freeze]. eauto.
  - apply keeps_each. intros k t Hk. destruct t; try apply keeps_nil; [apply keeps_write_freeze|apply keeps_erase_freeze]. eauto.
  - apply keeps_each. intros k t Hk. destruct t; try apply keeps_nil; [apply keeps_erase_global|apply keeps_write_global].
  - apply keeps_each. intros k t Hk. destruct t; try apply keeps_nil; [apply keeps_write_global|apply keeps_erase_global].
Qed.
End reads.

(** The cache of verifier strings only loses entries. *)
Lemma verifier_cache_run l : ∀ s, LRU.lru_ok (passetsVerifierCache s) → let s' := fold_left run_action l s in
  LRU.lru_ok (passetsVerifierCache s') ∧
  ∀ k v, (k, v) ∈ LRU.contents (passetsVerifierCache s') → (k, v) ∈ LRU.contents (passetsVerifierCache s) ∧ DropVerifier k ∉ l.
Proof.
  induction l as [|a l IH]; intros s Hs; cbn zeta; [split; [done|]; intros k v Hk; split; [done|apply not_elem_of_nil]|]. cbn [fold_left].
  assert (LRU.lru_ok (passetsVerifierCache (run_action s a)) ∧ ∀ k v, (k, v) ∈ LRU.contents (passetsVerifierCache (run_action s a)) →
    (k, v) ∈ LRU.contents (passetsVerifierCache s) ∧ DropVerifier k ≠ a) as [H1 H2].
  { destruct a; try (split; [done|]; cbn; intros; by split). destruct (LRU.Erase_spec (passetsVerifierCache s) name Hs) as [E1 E2]. split; [done|]. cbn. rewrite E2.
    intros k v. unfold LRU.without. intros [Hne Hin]%list_elem_of_filter. split; [done|]. cbn in Hne. congruence. }
  destruct (IH _ H1) as [H3 H4]. split; [done|]. intros k v Hk. apply H4 in Hk as [Hk Hd]. apply H2 in Hk as [Hk Hne]. split; [done|]. by apply not_elem_of_cons.
Qed.

Lemma drop_verifier_marked p k : (is_Some (ToAdd (setNewRestrictedVerifier p) !! k) ∨ is_Some (ToRemove (setNewRestrictedVerifier p) !! k)) →
  DropVerifier k ∈ dump_actions p.
Proof.
  intros Hk. unfold dump_actions. assert (DropVerifier k ∈ each dump_verifier (ToAdd (setNewRestrictedVerifier p)) ++ each dump_removed_verifier (ToRemove (setNewRestrictedVerifier p))) as Hin.
  { apply elem_of_app. destruct Hk as [[x Hx]|[x Hx]]; [left|right]; apply elem_of_map_to_list in Hx; apply list_elem_of_In, in_flat_map; exists (k, x);
      (split; [by apply list_elem_of_In|cbn; auto]). }
  rewrite elem_of_app in Hin. repeat (rewrite elem_of_app). tauto.
Qed.

Lemma dump_store_ok D s : store_ok D s → keys_distinct D → dump_ok (passets s) (prestricteddb s) →
  (∀ k, is_Some (ToAdd (setNewRestrictedAddress (passets s)) !! k) ∨ is_Some (ToRemove (setNewRestrictedAddress (passets s)) !! k) → k ∈ D) →
  (∀ k, is_Some (ToAdd (setNewQualifierAddress (passets s)) !! k) ∨ is_Some (ToRemove (setNewQualifierAddress (passets s)) !! k) → k ∈ D) →
  store_ok D (fold_left run_action (dump_actions (passets s)) s).
Proof.
  intros [S1 S2 S3 S4 S5 S6] Hd Hok Hf Ht. pose proof (verifier_dumped s) as Hv. cbn zeta in Hv.
  assert (reads_ok D (fold_left run_action (dump_actions (passets s)) s)) as [R1 R2 R3 R4 R5].
  { apply keeps_dump; [done| |done|done|by constructor]. intros k a Hk. by apply (do_reissued _ _ Hok). }
  constructor; try done. destruct (verifier_cache_run (dump_actions (passets s)) s (proj1 S3)) as [H1 H2]. split; [done|].
  intros k v [Hin Hnd]%H2. rewrite Hv by done. apply S3 in Hin. unfold verifier_in, layered, own.
  cbn [setNewRestrictedVerifier AssetsCache_new ToRemove ToAdd empty_dirty]. rewrite !lookup_empty.
  destruct (ToRemove (setNewRestrictedVerifier (passets s)) !! k) eqn:Er; [exfalso; apply Hnd, drop_verifier_marked; eauto|].
  destruct (ToAdd (setNewRestrictedVerifier (passets s)) !! k) eqn:Ea; [exfalso; apply Hnd, drop_verifier_marked; eauto|done].
Qed.

End dump.

(** The answers over the empty cache that a write leaves. *)
Lemma dumped_exists {Flags : AssetFlags} p' s k : exists_in AssetsCache_new (passets (set_passets (ClearDirtyCache p') s)) (passetsdb (set_passets (ClearDirtyCache p') s)) k
  = fReindex || has k (db_assets (passetsdb s)).
Proof. reflexivity. Qed.
Lemma dumped_meta p' s k : meta_in AssetsCache_new (passets (set_passets (ClearDirtyCache p') s)) (passetsdb (set_passets (ClearDirtyCache p') s)) k
  = da_asset <$> db_assets (passetsdb s) !! k.
Proof. reflexivity. Qed.

(** C9: writing the asset cache to the databases keeps the answers, but for reissue data
    of assets that are gone.  Let the caches of database reads agree with the databases
    and the keys that hash tags and freezes be distinct, and let the global cache be one in
    which every element is under its own name, no name is to be added and removed at once
    and the verifier string of an asset to be removed is not left in the database.  When no
    write fails, [DumpCacheToDatabase] returns true and leaves an empty global cache, and
    the caches of reads agree with the new databases.  The look-ups then answer from the
    databases what they answered from the global cache over the old databases: verifier
    strings, which addresses and which assets are frozen, for names under which the address
    has no other tag who is tagged, and which assets exist and their data for all names but
    those whose reissue data belong to no asset or come without a reissue.  For an asset
    that is to be removed while its reissue data are still in the cache, which the look-up
    of data still finds, the outcome is another: they are written and the asset exists
    again when a reissue of it waits to be written, and otherwise they are dropped. *)
Theorem dump_keeps_answers {Cry : Crypto} {Split : BoostSplit} {Env : AssetEnv} {Flags : AssetFlags} (D : gset (list Z * list Z)) s :
  store_ok D s → keys_distinct D → dump_ok (passets s) (prestricteddb s) →
  (∀ k, is_Some (ToAdd (setNewRestrictedAddress (passets s)) !! k) ∨ is_Some (ToRemove (setNewRestrictedAddress (passets s)) !! k) ∨
        is_Some (ToAdd (setNewQualifierAddress (passets s)) !! k) ∨ is_Some (ToRemove (setNewQualifierAddress (passets s)) !! k) → k ∈ D) →
  let '(written, s') := DumpCacheToDatabase s None in
  let p := passets s in let p' := passets s' in let db := passetsdb s in let db' := passetsdb s' in let rdb := prestricteddb s in let rdb' := prestricteddb s' in
  written = true ∧ p' = AssetsCache_new ∧ store_ok D s' ∧
  (∀ name address, verifier_in false AssetsCache_new p' rdb' name = verifier_in false AssetsCache_new p rdb name ∧
    frozen_in false AssetsCache_new p' rdb' name address = frozen_in false AssetsCache_new p rdb name address ∧
    globally_frozen_in false AssetsCache_new p' rdb' name = globally_frozen_in false AssetsCache_new p rdb name ∧
    (no_tag_below p rdb name address → tagged_in false AssetsCache_new p' rdb' name address = tagged_in false AssetsCache_new p rdb name address)) ∧
  (∀ name, reissue_kept p db name → exists_in AssetsCache_new p' db' name = exists_in AssetsCache_new p db name ∧
    meta_in AssetsCache_new p' db' name = meta_in AssetsCache_new p db name) ∧
  (∀ name a, mapReissuedAssetData p !! name = Some a → is_Some (ToRemove (setNewAssets p) !! name) →
    meta_in AssetsCache_new p db name = Some a ∧
    (reissue_pending p name → exists_in AssetsCache_new p' db' name = true ∧ meta_in AssetsCache_new p' db' name = Some a) ∧
    (¬ reissue_pending p name → exists_in AssetsCache_new p' db' name = fReindex ∧ meta_in AssetsCache_new p' db' name = None)).
Proof.
  intros Hs Hd Hok HD. unfold DumpCacheToDatabase. cbv zeta. split; [done|]. split; [done|]. split.
  { assert (store_ok D (fold_left run_action (dump_actions (passets s)) s)) as [] by (apply dump_store_ok; [done..|naive_solver|naive_solver]). by constructor. }
  split; [|split].
  - intros name address. pose proof (verifier_dumped s name Hok) as H3.
    pose proof (frozen_dumped s (name, address) Hok) as H4. pose proof (global_dumped s name Hok) as H5. pose proof (tagged_dumped s name address Hok) as Ht.
    cbn zeta in *. cbn [fst snd] in H4. rewrite <- H3, <- H4, <- H5. unfold verifier_in, frozen_in, globally_frozen_in, layered, own. cbn [set_passets passets passetsdb
      prestricteddb ClearDirtyCache AssetsCache_new setNewRestrictedVerifier setNewRestrictedAddress setNewRestrictedGlobal ToRemove ToAdd empty_dirty].
    rewrite !lookup_empty. split; [done|]. split; [done|]. split; [done|]. intros Hn. rewrite <- (Ht Hn). unfold tagged_in, own, has_sub_qualifier.
    cbn [set_passets passets prestricteddb ClearDirtyCache AssetsCache_new setNewQualifierAddress mapRootQualifierAddressesAdd ToRemove ToAdd empty_dirty negb andb].
    by rewrite !lookup_empty.
  - intros name Hk. pose proof (exists_dumped s name Hok Hk) as H1. pose proof (asset_dumped s name Hok Hk) as H2. cbn zeta in *.
    rewrite dumped_exists, dumped_meta. done.
  - intros name a Ha Hr. destruct (orphan_dumped s name a Hok Ha Hr) as [H1 H2]. split; [|rewrite dumped_exists, dumped_meta; split].
    + unfold meta_in. by rewrite lookup_union, Ha.
    + intros Hp%H1. split; [|done]. unfold has. rewrite bool_decide_eq_true_2; [apply orb_true_r|]. by rewrite <- (fmap_is_Some da_asset), Hp.
    + intros Hp%H2. unfold has. rewrite Hp. split; [|done]. rewrite bool_decide_eq_false_2 by (by intros [? [=]]). apply orb_false_r.
Qed.

(** ** A frozen address and a new asset, looked up, flushed and written *)

Definition freeze_key : list Z * list Z := (36 :: asset_AAA, [7]).
Definition frozen_cache : CAssetsCache := AddRestrictedAddress AssetsCache_new freeze_key.1 freeze_key.2 FREEZE_ADDRESS.
Definition new_BBB : CAssetsCache := set_assets (note_add [66; 66; 66] (mkCacheNewAsset asset_BBB [7] blob_null 2) empty_dirty) frozen_cache.
Definition store_with_changes : asset_store := set_passets new_BBB store_with_AAA.

Lemma store_with_AAA_ok {Cry : Crypto} D p : store_ok D (set_passets p store_with_AAA).
Proof. apply store_of_ok. intros k d Hd. cbn in Hd. apply lookup_singleton_Some in Hd as [<- <-]. reflexivity. Qed.
Lemma one_key_distinct {Cry : Crypto} k : keys_distinct {[k]}.
Proof. intros n a n' a' H1%elem_of_singleton H2%elem_of_singleton _. split; congruence. Qed.

Lemma asset_lookups_correct_witness :
  fst (CheckForAddressRestriction (Cry := toy_crypto) frozen_cache store_with_AAA freeze_key.1 freeze_key.2 false) = true.
Proof.
  destruct (asset_lookups_correct (Cry := toy_crypto) (Flags := plain_flags) {[freeze_key]} frozen_cache store_with_AAA freeze_key.1 freeze_key.2 false)
    as (_ & _ & _ & Hf & _).
  - apply (store_with_AAA_ok _ AssetsCache_new).
  - apply one_key_distinct.
  - apply elem_of_singleton. reflexivity.
  - destruct (CheckForAddressRestriction _ _ _ _ _) as [r s']. destruct Hf as [-> _]. vm_compute. reflexivity.
Defined.

Lemma flush_keeps_answers_witness :
  frozen_in false AssetsCache_new (passets (Flush frozen_cache store_with_AAA)) (prestricteddb (Flush frozen_cache store_with_AAA)) freeze_key.1 freeze_key.2 = true.
Proof.
  destruct (flush_keeps_answers (Cry := toy_crypto) (Env := sample_env) (Flags := plain_flags) ∅ store_with_AAA frozen_cache) as [Hf _].
  - right. split; [apply conn_freeze, conn_new|]. repeat split.
  - destruct (Hf freeze_key.1 freeze_key.2) as (_ & _ & _ & -> & _). vm_compute. reflexivity.
Defined.

Lemma sample_dump_ok : dump_ok (passets store_with_changes) (prestricteddb store_with_changes).
Proof.
  assert (∀ {A} (k : list Z), (∅ : gmap (list Z) A) !! k = None) as He by (intros; apply lookup_empty).
  constructor.
  - split_and!; [intros k; right; apply He| |intros k x Hx; by rewrite He in Hx].
    intros k x Hx. cbn in Hx. rewrite kset_insert_lookup, He in Hx. case_decide as Hk; [|done]. injection Hx as <-. by rewrite Hk.
  - intros k a Ha. by rewrite He in Ha.
  - split; [intros k; right; apply He|]. intros k [x Hx]. by rewrite He in Hx.
  - split; [intros k; right; cbn; by rewrite delete_empty, lookup_empty|]. intros k t [Ht|Ht]; [|cbn in Ht; by rewrite delete_empty, lookup_empty in Ht].
    cbn in Ht. apply lookup_insert_Some in Ht as [[_ <-]|[_ Ht]]; [by left|by rewrite lookup_empty in Ht].
  - split; [intros k; right; apply He|]. intros k t [Ht|Ht]; by rewrite He in Ht.
  - intros k. right. apply lookup_empty.
Qed.

Lemma dump_keeps_answers_witness :
  (DumpCacheToDatabase (Cry := toy_crypto) (Flags := plain_flags) store_with_changes None).1 = true ∧
  let s := (DumpCacheToDatabase (Cry := toy_crypto) (Flags := plain_flags) store_with_changes None).2 in
  frozen_in false AssetsCache_new (passets s) (prestricteddb s) freeze_key.1 freeze_key.2 = true ∧
  meta_in AssetsCache_new (passets s) (passetsdb s) [66; 66; 66] = Some asset_BBB.
Proof.
  pose proof (dump_keeps_answers (Cry := toy_crypto) (Split := split_at_instance) (Env := sample_env) (Flags := plain_flags) {[freeze_key]} store_with_changes) as H.
  destruct (DumpCacheToDatabase store_with_changes None) as [w s']. destruct H as (-> & _ & _ & Hf & Ha & _).
  - apply store_with_AAA_ok.
  - apply one_key_distinct.
  - apply sample_dump_ok.
  - intros k [Hk|[Hk|[Hk|Hk]]]; destruct Hk as [t Hk]; try (cbn in Hk; by rewrite ?delete_empty, lookup_empty in Hk).
    cbn in Hk. apply lookup_insert_Some in Hk as [[<- _]|[_ Hk]]; [by apply elem_of_singleton|by rewrite lookup_empty in Hk].
  - split; [reflexivity|]. cbn [snd]. destruct (Hf freeze_key.1 freeze_key.2) as (_ & -> & _). destruct (Ha [66; 66; 66]) as [_ ->]; [intros [a Hn]; discriminate|].
    split; vm_compute; reflexivity.
Defined.

(** ** Where the caches go wrong *)

Section gaps.
Context {Cry : Crypto} {Split : BoostSplit} {Env : AssetEnv} {Flags : AssetFlags} (D : gset (list Z * list Z)).




End gaps.



