(* ===== verification/ChainSelect.v ===== *)
(** * Choosing the active chain: src/src/validation.cpp

    The candidates for the tip of the active chain, the search for the chain with the most
    work, and the steps that disconnect and connect blocks until it is active; marking
    blocks invalid and valid again; receiving headers and blocks.

    The state is the block tree, the active chain, the candidates, the blocks that wait
    for a parent's data, the blocks found invalid, the counters and the fork warnings.
    The coins and assets are behind the class [ChainStore]: what [ConnectTip] and
    [DisconnectTip] do to them.  Notifications, the memory pool and the block files are
    left out. *)

From Stdlib Require Import String.
From stdpp Require Import gmap.
From S2P Require Import Prelude Serialize ArithUint256 Transaction Chain Pow Interpreter AssetTypes AssetNames AssetScripts TxVerify BlockChecks.
Import base_uint.

Open Scope string_scope.
Open Scope list_scope.
Open Scope Z_scope.

Definition BLOCK_OPT_WITNESS : Z := 128.
Definition MIN_BLOCKS_TO_KEEP : Z := 288.

(** ** Entries *)

Definition set_nTx (b : CBlockIndex) (n : Z) : CBlockIndex :=
  mkIndex (phashBlock b) (pprev b) (pskip b) (bi_nHeight b) (nChainWork b) n (nChainTx b)
    (nStatus b) (bi_header b) (nSequenceId b) (nTimeMax b).
Definition set_nChainTx (b : CBlockIndex) (n : Z) : CBlockIndex :=
  mkIndex (phashBlock b) (pprev b) (pskip b) (bi_nHeight b) (nChainWork b) (nTx b) n
    (nStatus b) (bi_header b) (nSequenceId b) (nTimeMax b).
Definition set_nSequenceId (b : CBlockIndex) (n : Z) : CBlockIndex :=
  mkIndex (phashBlock b) (pprev b) (pskip b) (bi_nHeight b) (nChainWork b) (nTx b) (nChainTx b)
    (nStatus b) (bi_header b) n (nTimeMax b).
Definition or_status (f : Z) (b : CBlockIndex) : CBlockIndex := set_nStatus b (Z.lor (nStatus b) f).
Definition clear_failed (b : CBlockIndex) : CBlockIndex := set_nStatus b (Z.land (nStatus b) (Z.lnot BLOCK_FAILED_MASK)).
Definition is_failed (b : CBlockIndex) : bool := flag_set (nStatus b) BLOCK_FAILED_MASK.
Definition has_data (b : CBlockIndex) : bool := flag_set (nStatus b) BLOCK_HAVE_DATA.

(** [CBlockIndexWorkComparator]: whether the first sorts before the second. *)
Definition work_less (pa : ptr) (a : CBlockIndex) (pb : ptr) (b : CBlockIndex) : bool :=
  if gtb (nChainWork a) (nChainWork b) then false
  else if ltb (nChainWork a) (nChainWork b) then true
  else if nSequenceId a <? nSequenceId b then false
  else if nSequenceId a >? nSequenceId b then true
  else if (pa <? pb)%positive then false
  else (pb <? pa)%positive.
Definition less (st : heap) (pa pb : ptr) : bool :=
  match st !! pa, st !! pb with Some a, Some b => work_less pa a pb b | _, _ => false end.

(** [rbegin()] of the set of candidates: the fields the comparator reads do not change
    while an entry is in the set, so the order is the one at the time of the call. *)
Definition better (st : heap) (p : ptr) (acc : option ptr) : option ptr :=
  match acc with
  | None => Some p
  | Some q => if less st q p then Some p else Some q
  end.
Definition best_candidate (st : heap) (candidates : gset ptr) : option ptr := foldr (better st) None (elements candidates).

(** ** The coins and assets of the tip *)

(** What becomes of a block: the new state and index entry, a violated rule (with the
    corruption flag), or a failure of the node. *)
Inductive connect_verdict (CS : Type) :=
  | Connected (s : CS) (entry : CBlockIndex)
  | ConsensusInvalid (corruption : bool)
  | SystemFailure.
Arguments Connected {CS} _ _.
Arguments ConsensusInvalid {CS} _.
Arguments SystemFailure {CS}.

Class ChainStore (CS : Type) := {
  store_connect : CS → BlockTree → ptr → connect_verdict CS;
  store_disconnect : CS → BlockTree → ptr → option CS
}.

(** ** The state *)

Record fork_warnings := mkWarnings {
  pindexBestForkTip : option ptr;
  pindexBestForkBase : option ptr;
  fLargeWorkForkFound : bool;
  fLargeWorkInvalidChainFound : bool
}.

Record chain_state (CS : Type) := mkChainState {
  tree : BlockTree;
  chainActive : CChain;
  setBlockIndexCandidates : gset ptr;
  mapBlocksUnlinked : list (ptr * ptr);       (* a multimap: equal keys in the order of insertion *)
  pindexBestInvalid : option ptr;
  g_failed_blocks : gset ptr;
  nBlockSequenceId : Z;
  nBlockReverseSequenceId : Z;
  nLastPreciousChainwork : uint;
  warnings : fork_warnings;
  store : CS
}.
Arguments mkChainState {CS} _ _ _ _ _ _ _ _ _ _ _.
Arguments tree {CS} _.
Arguments chainActive {CS} _.
Arguments setBlockIndexCandidates {CS} _.
Arguments mapBlocksUnlinked {CS} _.
Arguments pindexBestInvalid {CS} _.
Arguments g_failed_blocks {CS} _.
Arguments nBlockSequenceId {CS} _.
Arguments nBlockReverseSequenceId {CS} _.
Arguments nLastPreciousChainwork {CS} _.
Arguments warnings {CS} _.
Arguments store {CS} _.

Section select.
Context {CS : Type} {Store : ChainStore CS}.
Implicit Types (s : chain_state CS) (p : ptr).

Definition with_tree s (x : BlockTree) : chain_state CS :=
  mkChainState x (chainActive s) (setBlockIndexCandidates s) (mapBlocksUnlinked s) (pindexBestInvalid s) (g_failed_blocks s) (nBlockSequenceId s) (nBlockReverseSequenceId s) (nLastPreciousChainwork s) (warnings s) (store s).
Definition with_active s (x : CChain) : chain_state CS :=
  mkChainState (tree s) x (setBlockIndexCandidates s) (mapBlocksUnlinked s) (pindexBestInvalid s) (g_failed_blocks s) (nBlockSequenceId s) (nBlockReverseSequenceId s) (nLastPreciousChainwork s) (warnings s) (store s).
Definition with_candidates s (x : gset ptr) : chain_state CS :=
  mkChainState (tree s) (chainActive s) x (mapBlocksUnlinked s) (pindexBestInvalid s) (g_failed_blocks s) (nBlockSequenceId s) (nBlockReverseSequenceId s) (nLastPreciousChainwork s) (warnings s) (store s).
Definition with_unlinked s (x : list (ptr * ptr)) : chain_state CS :=
  mkChainState (tree s) (chainActive s) (setBlockIndexCandidates s) x (pindexBestInvalid s) (g_failed_blocks s) (nBlockSequenceId s) (nBlockReverseSequenceId s) (nLastPreciousChainwork s) (warnings s) (store s).
Definition with_best_invalid s (x : option ptr) : chain_state CS :=
  mkChainState (tree s) (chainActive s) (setBlockIndexCandidates s) (mapBlocksUnlinked s) x (g_failed_blocks s) (nBlockSequenceId s) (nBlockReverseSequenceId s) (nLastPreciousChainwork s) (warnings s) (store s).
Definition with_failed s (x : gset ptr) : chain_state CS :=
  mkChainState (tree s) (chainActive s) (setBlockIndexCandidates s) (mapBlocksUnlinked s) (pindexBestInvalid s) x (nBlockSequenceId s) (nBlockReverseSequenceId s) (nLastPreciousChainwork s) (warnings s) (store s).
Definition with_sequence s (x : Z) : chain_state CS :=
  mkChainState (tree s) (chainActive s) (setBlockIndexCandidates s) (mapBlocksUnlinked s) (pindexBestInvalid s) (g_failed_blocks s) x (nBlockReverseSequenceId s) (nLastPreciousChainwork s) (warnings s) (store s).
Definition with_reverse_sequence s (x : Z) : chain_state CS :=
  mkChainState (tree s) (chainActive s) (setBlockIndexCandidates s) (mapBlocksUnlinked s) (pindexBestInvalid s) (g_failed_blocks s) (nBlockSequenceId s) x (nLastPreciousChainwork s) (warnings s) (store s).
Definition with_precious s (x : uint) : chain_state CS :=
  mkChainState (tree s) (chainActive s) (setBlockIndexCandidates s) (mapBlocksUnlinked s) (pindexBestInvalid s) (g_failed_blocks s) (nBlockSequenceId s) (nBlockReverseSequenceId s) x (warnings s) (store s).
Definition with_warnings s (x : fork_warnings) : chain_state CS :=
  mkChainState (tree s) (chainActive s) (setBlockIndexCandidates s) (mapBlocksUnlinked s) (pindexBestInvalid s) (g_failed_blocks s) (nBlockSequenceId s) (nBlockReverseSequenceId s) (nLastPreciousChainwork s) x (store s).
Definition with_store s (x : CS) : chain_state CS :=
  mkChainState (tree s) (chainActive s) (setBlockIndexCandidates s) (mapBlocksUnlinked s) (pindexBestInvalid s) (g_failed_blocks s) (nBlockSequenceId s) (nBlockReverseSequenceId s) (nLastPreciousChainwork s) (warnings s) x.

Definition index s : heap := tree_heap (tree s).
Definition tip s : option ptr := Tip (chainActive s).
(** A change of the entry at [p]. *)
Definition update_entry s p (f : CBlockIndex → CBlockIndex) : chain_state CS :=
  let t := tree s in
  with_tree s (mkTree (mapBlockIndex t) (alter f p (tree_heap t)) (next_ptr t) (pindexBestHeader t) (setDirtyBlockIndex t)).
Definition mark_dirty s p : chain_state CS :=
  let t := tree s in
  with_tree s (mkTree (mapBlockIndex t) (tree_heap t) (next_ptr t) (pindexBestHeader t) ({[p]} ∪ setDirtyBlockIndex t)).
Definition erase_candidate s p : chain_state CS := with_candidates s (setBlockIndexCandidates s ∖ {[p]}).
Definition insert_candidate s p : chain_state CS := with_candidates s ({[p]} ∪ setBlockIndexCandidates s).

(** ** Fork warnings *)

Variable fInitialDownload : bool.            (* [IsInitialBlockDownload()] *)

Definition proof_times (b : CBlockIndex) (n : Z) : result chain_error uint :=
  match GetBlockProof (bi_nBits b) with Ok w => Ok (mul_u32 w n) | Err _ => Err UintError end.
Definition entry_of s p : result chain_error CBlockIndex := deref (index s) p.
Definition opt_entry s (o : option ptr) : result chain_error (option CBlockIndex) :=
  match o with None => Ok None | Some p => let? b := entry_of s p in Ok (Some b) end.
Definition tip_entry s : result chain_error CBlockIndex :=
  match tip s with None => Err NullDereference | Some p => entry_of s p end.

Definition CheckForkWarningConditions s : result chain_error (chain_state CS) :=
  if fInitialDownload then Ok s
  else
    let w := warnings s in
    let? fork := opt_entry s (pindexBestForkTip w) in
    let forktip := match fork with
                   | Some b => if Height (chainActive s) - bi_nHeight b >=? 72 then None else pindexBestForkTip w
                   | None => None
                   end in
    let? large :=
      match forktip, pindexBestInvalid s with
      | Some _, _ => Ok true
      | None, None => Ok false
      | None, Some i =>
          let? bi := entry_of s i in
          let? bt := tip_entry s in
          let? proof := proof_times bt 6 in
          Ok (gtb (nChainWork bi) (add (nChainWork bt) proof))
      end in
    let w := mkWarnings forktip (pindexBestForkBase w) (fLargeWorkForkFound w) (fLargeWorkInvalidChainFound w) in
    Ok (with_warnings s
          (if large : bool then
             if bool_decide (is_Some forktip) && bool_decide (is_Some (pindexBestForkBase w))
             then mkWarnings forktip (pindexBestForkBase w) true (fLargeWorkInvalidChainFound w)
             else mkWarnings forktip (pindexBestForkBase w) (fLargeWorkForkFound w) true
           else mkWarnings forktip (pindexBestForkBase w) false false)).

(** The last block of the active chain that is an ancestor of [pfork]; each round lowers
    one of the two. *)
Fixpoint lower_to (fuel : nat) (st : heap) (plonger : option ptr) (height : Z) : result chain_error (option ptr) :=
  match plonger with
  | None => Ok None
  | Some q =>
      let? b := deref st q in
      if bi_nHeight b >? height then
        match fuel with O => Err Chain.OutOfFuel | S f => lower_to f st (pprev b) height end
      else Ok plonger
  end.
Fixpoint find_pfork (fuel : nat) (st : heap) (pfork plonger : option ptr) : result chain_error (option ptr) :=
  match pfork with
  | None => Ok None
  | Some p =>
      if bool_decide (pfork = plonger) then Ok pfork
      else
        let? b := deref st p in
        let? n := match plonger with None => Ok O | Some q => let? bq := deref st q in Ok (Z.to_nat (bi_nHeight bq)) end in
        let? plonger := lower_to n st plonger (bi_nHeight b) in
        if bool_decide (pfork = plonger) then Ok pfork
        else match fuel with O => Err Chain.OutOfFuel | S f => find_pfork f st (pprev b) plonger end
  end.

Definition CheckForkWarningConditionsOnNewFork s p : result chain_error (chain_state CS) :=
  let? new := entry_of s p in
  let? pfork := find_pfork (S (Z.to_nat (bi_nHeight new))) (index s) (Some p) (tip s) in
  let w := warnings s in
  let? s :=
    match pfork with
    | None => Ok s
    | Some f =>
        let? bf := entry_of s f in
        let? old := opt_entry s (pindexBestForkTip w) in
        let? proof := proof_times bf 7 in
        if match old with None => true | Some b => bi_nHeight new >? bi_nHeight b end &&
           gtb (sub (nChainWork new) (nChainWork bf)) proof &&
           (Height (chainActive s) - bi_nHeight new <? 72)
        then Ok (with_warnings s (mkWarnings (Some p) (Some f) (fLargeWorkForkFound w) (fLargeWorkInvalidChainFound w)))
        else Ok s
    end in
  CheckForkWarningConditions s.

(** ** Invalid blocks *)

Definition note_invalid s p : result chain_error (chain_state CS) :=
  let? new := entry_of s p in
  let? old := opt_entry s (pindexBestInvalid s) in
  Ok (if match old with None => true | Some b => gtb (nChainWork new) (nChainWork b) end then with_best_invalid s (Some p) else s).

Definition InvalidChainFound s p : result chain_error (chain_state CS) :=
  let? s := note_invalid s p in
  match tip s with
  | None => Err ChainAssert
  | Some _ => CheckForkWarningConditions s
  end.

Definition InvalidBlockFound s p (corruption : bool) : result chain_error (chain_state CS) :=
  if corruption then Ok s
  else
    let s := update_entry s p (or_status BLOCK_FAILED_VALID) in
    let s := with_failed s ({[p]} ∪ g_failed_blocks s) in
    let s := erase_candidate (mark_dirty s p) p in
    InvalidChainFound s p.

(** ** The tip *)

Definition UpdateTip s (p : option ptr) : result chain_error (chain_state CS) :=
  let? c := SetTip (index s) (chainActive s) p in Ok (with_active s c).

(** [Some] with the new state; [None]: the node fails to disconnect. *)
Definition DisconnectTip s : result chain_error (option (chain_state CS)) :=
  match tip s with
  | None => Err ChainAssert
  | Some p =>
      let? b := entry_of s p in
      match store_disconnect (store s) (tree s) p with
      | None => Ok None
      | Some st => let? s := UpdateTip (with_store s st) (pprev b) in Ok (Some s)
      end
  end.

(** [ConnectTip] and what it leaves in [state]. *)
Inductive tip_result := TipConnected | TipInvalid (corruption : bool) | TipFailed.

Definition ConnectTip s p : result chain_error (tip_result * chain_state CS) :=
  let? b := entry_of s p in
  if negb (bool_decide (pprev b = tip s)) then Err ChainAssert
  else
    match store_connect (store s) (tree s) p with
    | ConsensusInvalid corruption => let? s := InvalidBlockFound s p corruption in Ok (TipInvalid corruption, s)
    | SystemFailure => Ok (TipFailed, s)
    | Connected st entry =>
        let s := mark_dirty (update_entry (with_store s st) p (fun _ => entry)) p in
        let? s := UpdateTip s (Some p) in
        Ok (TipConnected, s)
    end.

(** ** The chain with the most work *)

(** The first block on the way down to the active chain that is failed or without data,
    and which of the two it is. *)
Fixpoint check_path (fuel : nat) (st : heap) (c : CChain) (pindexTest : option ptr) : result chain_error (option (ptr * bool * bool)) :=
  match pindexTest with
  | None => Ok None
  | Some p =>
      let? active := Contains st c p in
      if active then Ok None
      else
        let? b := deref st p in
        if (nChainTx b =? 0) && negb (bi_nHeight b =? 0) then Err ChainAssert
        else if is_failed b || negb (has_data b) then Ok (Some (p, is_failed b, negb (has_data b)))
        else match fuel with O => Err Chain.OutOfFuel | S f => check_path f st c (pprev b) end
  end.

(** The blocks above an unusable block leave the candidates. *)
Fixpoint remove_path (fuel : nat) s (pindexTest pindexFailed : ptr) (fFailedChain fMissingData : bool) : result chain_error (chain_state CS) :=
  if bool_decide (pindexTest = pindexFailed) then Ok s
  else
    let? b := entry_of s pindexFailed in
    match pprev b, fuel with
    | Some q, S f =>
        let s :=
          if fFailedChain then update_entry s pindexFailed (or_status BLOCK_FAILED_CHILD)
          else if fMissingData then with_unlinked s (mapBlocksUnlinked s ++ [(q, pindexFailed)])
          else s in
        remove_path f (erase_candidate s pindexFailed) pindexTest q fFailedChain fMissingData
    | None, _ => Err NullDereference
    | Some _, O => Err Chain.OutOfFuel
    end.

(** Each round removes a candidate, so their number bounds the rounds. *)
Fixpoint find_most_work (fuel : nat) s : result chain_error (option ptr * chain_state CS) :=
  match best_candidate (index s) (setBlockIndexCandidates s) with
  | None => Ok (None, s)
  | Some p =>
      let? b := entry_of s p in
      let n := S (Z.to_nat (bi_nHeight b)) in
      let? bad := check_path n (index s) (chainActive s) (Some p) in
      match bad with
      | None => Ok (Some p, s)
      | Some (pindexTest, fFailedChain, fMissingData) =>
          let? s := if fFailedChain then note_invalid s p else Ok s in
          let? s := remove_path n s pindexTest p fFailedChain fMissingData in
          let s := erase_candidate s pindexTest in
          match fuel with O => Err Chain.OutOfFuel | S f => find_most_work f s end
      end
  end.
Definition FindMostWorkChain s : result chain_error (option ptr * chain_state CS) := find_most_work (set_size (setBlockIndexCandidates s)) s.

Definition PruneBlockIndexCandidates s : result chain_error (chain_state CS) :=
  match tip s with
  | None => Err NullDereference
  | Some t =>
      let c := filter (fun p => less (index s) p t = false) (setBlockIndexCandidates s) in
      if bool_decide (c = ∅) then Err ChainAssert else Ok (with_candidates s c)
  end.

(** ** Activating a chain *)

(** Whether every block was disconnected. *)
Fixpoint disconnect_to (fuel : nat) s (pindexFork : option ptr) : result chain_error (bool * chain_state CS) :=
  match tip s with
  | None => Ok (true, s)
  | Some p =>
      if bool_decide (Some p = pindexFork) then Ok (true, s)
      else
        match fuel with
        | O => Err Chain.OutOfFuel
        | S f =>
            let? r := DisconnectTip s in
            match r with
            | None => Ok (false, s)
            | Some s => disconnect_to f s pindexFork
            end
        end
  end.

(** The blocks above [nHeight] on the way down from [pindexIter], the lowest last. *)
Fixpoint collect_path (fuel : nat) (st : heap) (pindexIter : option ptr) (nHeight : Z) : result chain_error (list ptr) :=
  match pindexIter with
  | None => Ok []
  | Some p =>
      let? b := deref st p in
      if bi_nHeight b =? nHeight then Ok []
      else
        match fuel with
        | O => Err Chain.OutOfFuel
        | S f => let? rest := collect_path f st (pprev b) nHeight in Ok (p :: rest)
        end
  end.

(** How the connection of blocks ends: all connected; a better tip than before; an invalid
    block; a failure of the node. *)
Inductive connect_end := AllConnected | BetterTip | InvalidFound | NodeFailed.

(** The loop over [vpindexToConnect] from the lowest block up; [lowest] is its last
    element. *)
Fixpoint connect_blocks s (pindexOldTip : option ptr) (lowest : ptr) (blocks : list ptr) : result chain_error (connect_end * chain_state CS) :=
  match blocks with
  | [] => Ok (AllConnected, s)
  | p :: blocks =>
      let? r := ConnectTip s p in
      match r with
      | (TipInvalid corruption, s) =>
          let? s := if corruption then Ok s else InvalidChainFound s lowest in
          Ok (InvalidFound, s)
      | (TipFailed, s) => Ok (NodeFailed, s)
      | (TipConnected, s) =>
          let? s := PruneBlockIndexCandidates s in
          let? now := tip_entry s in
          let? old := opt_entry s pindexOldTip in
          if match old with None => true | Some b => gtb (nChainWork now) (nChainWork b) end
          then Ok (BetterTip, s)
          else connect_blocks s pindexOldTip lowest blocks
      end
  end.

(** Blocks are connected in groups of up to 32; the result has the lowest block of the last
    group. *)
Fixpoint connect_groups (fuel : nat) s (pindexOldTip : option ptr) (pindexMostWork : ptr) (nHeight : Z) (last : option ptr)
    : result chain_error (connect_end * option ptr * chain_state CS) :=
  let? most := entry_of s pindexMostWork in
  if nHeight =? bi_nHeight most then Ok (AllConnected, last, s)
  else
    match fuel with
    | O => Err Chain.OutOfFuel
    | S f =>
        let nTargetHeight := Z.min (nHeight + 32) (bi_nHeight most) in
        let? start := GetAncestor (index s) pindexMostWork nTargetHeight in
        let? vpindexToConnect := collect_path (Z.to_nat (nTargetHeight + 1)) (index s) start nHeight in
        match List.last (map Some vpindexToConnect) None with
        | None => connect_groups f s pindexOldTip pindexMostWork nTargetHeight None
        | Some lowest =>
            let? r := connect_blocks s pindexOldTip lowest (rev vpindexToConnect) in
            match r with
            | (AllConnected, s) => connect_groups f s pindexOldTip pindexMostWork nTargetHeight (Some lowest)
            | (e, s) => Ok (e, Some lowest, s)
            end
        end
    end.

(** The result: whether the node goes on, and [fInvalidFound]. *)
Definition ActivateBestChainStep s (pindexMostWork : ptr) : result chain_error (bool * bool * chain_state CS) :=
  let pindexOldTip := tip s in
  let? pindexFork := FindFork (index s) (chainActive s) (Some pindexMostWork) in
  let? r := disconnect_to (length (chainActive s)) s pindexFork in
  match r with
  | (false, s) => Ok (false, false, s)
  | (true, s) =>
      let? fork := opt_entry s pindexFork in
      let nHeight := match fork with Some b => bi_nHeight b | None => -1 end in
      let? most := entry_of s pindexMostWork in
      let? r := connect_groups (Z.to_nat (bi_nHeight most - nHeight)) s pindexOldTip pindexMostWork nHeight None in
      match r with
      | (NodeFailed, _, s) => Ok (false, false, s)
      | (InvalidFound, Some lowest, s) => let? s := CheckForkWarningConditionsOnNewFork s lowest in Ok (true, true, s)
      | (InvalidFound, None, s) => Err NullDereference
      | (_, _, s) => let? s := CheckForkWarningConditions s in Ok (true, false, s)
      end
  end.

(** The loop of [ActivateBestChain]; no shutdown is requested meanwhile. *)
Fixpoint activate_loop (fuel : nat) s (pindexMostWork : option ptr) : result chain_error (bool * chain_state CS) :=
  let? r := match pindexMostWork with Some p => Ok (Some p, s) | None => FindMostWorkChain s end in
  match r with
  | (None, s) => Ok (true, s)
  | (Some p, s) =>
      if bool_decide (Some p = tip s) then Ok (true, s)
      else
        let? r := ActivateBestChainStep s p in
        match r with
        | (false, _, s) => Ok (false, s)
        | (true, fInvalidFound, s) =>
            let pindexMostWork := if fInvalidFound : bool then None else Some p in
            if bool_decide (tip s = pindexMostWork) then Ok (true, s)
            else match fuel with O => Err Chain.OutOfFuel | S f => activate_loop f s pindexMostWork end
        end
  end.

(** Each round ends on a better tip or finds an invalid block. *)
Definition activate_fuel s : nat := let n := S (size (index s)) in (n * n)%nat.
Definition ActivateBestChain s : result chain_error (bool * chain_state CS) := activate_loop (activate_fuel s) s None.

(** ** Marking blocks *)

(** Valid up to its transactions, with the transactions of all ancestors. *)
Definition is_candidate (b : CBlockIndex) : result chain_error bool :=
  let? valid := IsValid b BLOCK_VALID_TRANSACTIONS in Ok (valid && negb (nChainTx b =? 0)).

Definition PreciousBlock s p : result chain_error (bool * chain_state CS) :=
  let? b := entry_of s p in
  let? t := tip_entry s in
  if ltb (nChainWork b) (nChainWork t) then Ok (true, s)
  else
    let s := if gtb (nChainWork t) (nLastPreciousChainwork s) then with_reverse_sequence s (-1) else s in
    let s := erase_candidate (with_precious s (nChainWork t)) p in
    let s := update_entry s p (fun b => set_nSequenceId b (nBlockReverseSequenceId s)) in
    let s := if nBlockReverseSequenceId s >? - 2 ^ 31 then with_reverse_sequence s (nBlockReverseSequenceId s - 1) else s in
    let? good := is_candidate b in
    let? s := if good : bool then PruneBlockIndexCandidates (insert_candidate s p) else Ok s in
    ActivateBestChain s.

Fixpoint disconnect_through (fuel : nat) s p (was_in_chain : bool) : result chain_error (bool * bool * chain_state CS) :=
  let? c := Contains (index s) (chainActive s) p in
  if negb c then Ok (true, was_in_chain, s)
  else
    match fuel with
    | O => Err Chain.OutOfFuel
    | S f =>
        let? r := DisconnectTip s in
        match r with
        | None => Ok (false, true, s)
        | Some s => disconnect_through f s p true
        end
    end.

(** From the old tip down to [p], exclusive. *)
Fixpoint fail_children (fuel : nat) s (invalid_walk_tip p : ptr) : result chain_error (chain_state CS) :=
  if bool_decide (invalid_walk_tip = p) then Ok s
  else
    let? b := entry_of s invalid_walk_tip in
    match pprev b, fuel with
    | Some q, S f =>
        fail_children f (erase_candidate (mark_dirty (update_entry s invalid_walk_tip (or_status BLOCK_FAILED_CHILD)) invalid_walk_tip) invalid_walk_tip) q p
    | None, _ => Err NullDereference
    | Some _, O => Err Chain.OutOfFuel
    end.

(** Every entry as good as the tip is a candidate. *)
Fixpoint readd_candidates s (entries : list ptr) : result chain_error (chain_state CS) :=
  match entries with
  | [] => Ok s
  | p :: entries =>
      let? b := entry_of s p in
      let? good := is_candidate b in
      let? s :=
        if good : bool then
          match tip s with
          | None => Err NullDereference
          | Some t => Ok (if less (index s) p t then s else insert_candidate s p)
          end
        else Ok s in
      readd_candidates s entries
  end.
Definition block_map s : list ptr := map snd (map_to_list (mapBlockIndex (tree s))).

Definition InvalidateBlock s p : result chain_error (bool * chain_state CS) :=
  let invalid_walk_tip := tip s in
  let? r := disconnect_through (length (chainActive s)) s p false in
  match r with
  | (false, _, s) => Ok (false, s)
  | (true, pindex_was_in_chain, s) =>
      let? s :=
        match pindex_was_in_chain, invalid_walk_tip with
        | true, Some t => let? b := entry_of s t in fail_children (Z.to_nat (bi_nHeight b)) s t p
        | true, None => Err NullDereference
        | false, _ => Ok s
        end in
      let s := erase_candidate (mark_dirty (update_entry s p (or_status BLOCK_FAILED_VALID)) p) p in
      let s := with_failed s ({[p]} ∪ g_failed_blocks s) in
      let? s := readd_candidates s (block_map s) in
      let? s := InvalidChainFound s p in
      Ok (true, s)
  end.

(** The entry, if it is failed and a descendant of [pindex] (at height [h]), is valid
    again. *)
Definition reset_entry s p (pindex : ptr) (h : Z) : result chain_error (chain_state CS) :=
  let? b := entry_of s p in
  let? valid := IsValid b BLOCK_VALID_TRANSACTIONS in
  if valid : bool then Ok s
  else
    let? a := GetAncestor (index s) p h in
    if negb (bool_decide (a = Some pindex)) then Ok s
    else
      let s := mark_dirty (update_entry s p clear_failed) p in
      let? good := is_candidate (clear_failed b) in
      let? s :=
        if good : bool then
          match tip s with
          | None => Err NullDereference
          | Some t => Ok (if less (index s) t p then insert_candidate s p else s)
          end
        else Ok s in
      let s := if bool_decide (Some p = pindexBestInvalid s) then with_best_invalid s None else s in
      Ok (with_failed s (g_failed_blocks s ∖ {[p]})).
Fixpoint reset_entries s (entries : list ptr) (pindex : ptr) (h : Z) : result chain_error (chain_state CS) :=
  match entries with
  | [] => Ok s
  | p :: entries => let? s := reset_entry s p pindex h in reset_entries s entries pindex h
  end.
Fixpoint reset_ancestors (fuel : nat) s (pindex : option ptr) : result chain_error (chain_state CS) :=
  match pindex with
  | None => Ok s
  | Some p =>
      let? b := entry_of s p in
      let s := if is_failed b then mark_dirty (update_entry s p clear_failed) p else s in
      match fuel with O => Err Chain.OutOfFuel | S f => reset_ancestors f s (pprev b) end
  end.
Definition ResetBlockFailureFlags s p : result chain_error (chain_state CS) :=
  let? b := entry_of s p in
  let? s := reset_entries s (block_map s) p (bi_nHeight b) in
  reset_ancestors (S (Z.to_nat (bi_nHeight b))) s (Some p).

(** ** Receiving blocks *)

(** The blocks whose parents have all arrived, and the blocks that wait for them. *)
Fixpoint link_queue (fuel : nat) s (queue : list ptr) : result chain_error (chain_state CS) :=
  match queue, fuel with
  | [], _ => Ok s
  | _ :: _, O => Err Chain.OutOfFuel
  | p :: queue, S f =>
      let? b := entry_of s p in
      let? parent := opt_entry s (pprev b) in
      let s := update_entry s p (fun b => set_nChainTx b (u32 (match parent with Some q => nChainTx q | None => 0 end + nTx b))) in
      let s := update_entry s p (fun b => set_nSequenceId b (nBlockSequenceId s)) in
      let s := with_sequence s (i32 (nBlockSequenceId s + 1)) in
      let s := match tip s with
               | None => insert_candidate s p
               | Some t => if less (index s) p t then s else insert_candidate s p
               end in
      let waiting := filter (fun e => fst e = p) (mapBlocksUnlinked s) in
      link_queue f (with_unlinked s (filter (fun e => fst e ≠ p) (mapBlocksUnlinked s))) (queue ++ map snd waiting)
  end.

Definition ReceivedBlockTransactions s p (nTransactions : Z) (fSegwit : bool) : result chain_error (chain_state CS) :=
  let? b := entry_of s p in
  let b := set_nChainTx (set_nTx b (u32 nTransactions)) 0 in
  let b := or_status BLOCK_HAVE_DATA b in
  let b := if fSegwit then or_status BLOCK_OPT_WITNESS b else b in
  let? r := RaiseValidity b BLOCK_VALID_TRANSACTIONS in
  let s := mark_dirty (update_entry s p (fun _ => snd r)) p in
  let? parent := opt_entry s (pprev b) in
  match parent, pprev b with
  | Some bq, Some q =>
      if negb (nChainTx bq =? 0) then link_queue (S (length (mapBlocksUnlinked s))) s [p]
      else
        let? valid := IsValid bq BLOCK_VALID_TREE in
        Ok (if valid : bool then with_unlinked s (mapBlocksUnlinked s ++ [(q, p)]) else s)
  | _, _ => link_queue (S (length (mapBlocksUnlinked s))) s [p]
  end.
End select.

(** ** Headers and blocks from the network *)

Section receive.
Context {CS : Type} {Store : ChainStore CS} {Cry : Crypto} {Pow : PowHash} {Split : BoostSplit} {Env : AssetEnv}.
Implicit Types (s : chain_state CS) (p : ptr).
Variables (fInitialDownload : bool) (ctx : node_context) (params : CChainParams) (nAdjustedTime : Z).

(** A rejection leaves the state behind. *)
Inductive outcome (A : Type) := Accepted (a : A) | Rejected (nDoS : Z) (reason : string) (corruption : bool).
Arguments Accepted {A} _.
Arguments Rejected {A} _ _ _.
Definition judge {A} (r : result block_error A) : result block_error (outcome A) :=
  match r with
  | Ok a => Ok (Accepted a)
  | Err (BlockReject nDoS reason corruption) => Ok (Rejected nDoS reason corruption)
  | Err e => Err e
  end.

(** What the checks read of the node follows the active chain. *)
Definition node_now s : node_context :=
  mkNode (chainActive s) (nc_nMaxReorgDepth ctx) (nc_nMinReorgPeers ctx) (nc_nMinReorgAge ctx) (nc_connman ctx) (nc_time ctx) (nc_fCheckpointsEnabled ctx).

(** The blocks from [invalid_walk] down to the failed block, exclusive. *)
Fixpoint fail_walk (fuel : nat) s (invalid_walk failedit : ptr) : result block_error (chain_state CS) :=
  if bool_decide (invalid_walk = failedit) then Ok s
  else
    let? b := in_chain (entry_of s invalid_walk) in
    match pprev b, fuel with
    | Some q, S f => fail_walk f (mark_dirty (update_entry s invalid_walk (or_status BLOCK_FAILED_CHILD)) invalid_walk) q failedit
    | None, _ => Err (BlockChain NullDereference)
    | Some _, O => Err (BlockChain Chain.OutOfFuel)
    end.

(** [Some] with the marks set: the parent descends from a block found invalid. *)
Fixpoint failed_ancestor s (prev : ptr) (height : Z) (failed : list ptr) : result block_error (option (chain_state CS)) :=
  match failed with
  | [] => Ok None
  | f :: failed =>
      let? bf := in_chain (entry_of s f) in
      let? a := in_chain (GetAncestor (index s) prev (bi_nHeight bf)) in
      if bool_decide (a = Some f) then
        let? _ := if flag_set (nStatus bf) BLOCK_FAILED_VALID then Ok () else Err (BlockChain ChainAssert) in
        let? s := fail_walk (Z.to_nat height) s prev f in Ok (Some s)
      else failed_ancestor s prev height failed
  end.

Definition add_header s (block : CBlockHeader) : result block_error (outcome ptr * chain_state CS) :=
  let? r := in_chain (AddToBlockIndex GetHash (tree s) block) in
  Ok (Accepted (snd r), with_tree s (fst r)).

Definition AcceptBlockHeader s (block : CBlockHeader) : result block_error (outcome ptr * chain_state CS) :=
  let hash := GetHash block in
  if blob_eqb hash (hashGenesisBlock params) then add_header s block
  else
    match mapBlockIndex (tree s) !! hash with
    | Some p =>
        let? b := in_chain (entry_of s p) in
        Ok (if is_failed b then Rejected 0 "duplicate" false else Accepted p, s)
    | None =>
        let? r := judge (CheckBlockHeader (tree s) block params true) in
        match r with
        | Rejected n m c => Ok (Rejected n m c, s)
        | Accepted _ =>
            match mapBlockIndex (tree s) !! hashPrevBlock block with
            | None => Ok (Rejected 10 "prev-blk-not-found" false, s)
            | Some prev =>
                let? bp := in_chain (entry_of s prev) in
                if is_failed bp then Ok (Rejected 100 "bad-prevblk" false, s)
                else
                  let? r := judge (ContextualCheckBlockHeader (node_now s) (tree s) block params prev nAdjustedTime) in
                  match r with
                  | Rejected n m c => Ok (Rejected n m c, s)
                  | Accepted _ =>
                      let? scripts := in_chain (IsValid bp BLOCK_VALID_SCRIPTS) in
                      let? r := if scripts : bool then Ok None else failed_ancestor s prev (bi_nHeight bp) (elements (g_failed_blocks s)) in
                      match r with
                      | Some s => Ok (Rejected 100 "bad-prevblk" false, s)
                      | None => add_header s block
                      end
                  end
            end
        end
    end.

(** The state after the headers, the last entry, and the first invalid header. *)
Fixpoint ProcessNewBlockHeaders s (headers : list CBlockHeader) (last : option ptr)
    : result block_error (chain_state CS * option ptr * option CBlockHeader) :=
  match headers with
  | [] => Ok (s, last, None)
  | header :: headers =>
      let? r := AcceptBlockHeader s header in
      match r with
      | (Accepted p, s) => ProcessNewBlockHeaders s headers (Some p)
      | (Rejected _ _ _, s) => Ok (s, last, Some header)
      end
  end.

(** A block that was not asked for is taken only if it is new, has more work than the tip,
    and is not far ahead. *)
Definition wanted s (b : CBlockIndex) (nMinimumChainWork : uint) : result block_error bool :=
  let? more := match tip s with
               | None => Ok true
               | Some t => let? bt := in_chain (entry_of s t) in Ok (gtb (nChainWork b) (nChainWork bt))
               end in
  Ok ((nTx b =? 0) && more && negb (bi_nHeight b >? Height (chainActive s) + MIN_BLOCKS_TO_KEEP) && negb (ltb (nChainWork b) nMinimumChainWork)).

(** [fNewBlock] and the state; [fFromLoad] skips one reason to reject. *)
Definition AcceptBlock s (fChecked : bool) (block : CBlock) (fRequested fFromLoad : bool) (nMinimumChainWork : uint)
    : result block_error (outcome bool * chain_state CS) :=
  let? r := AcceptBlockHeader s (blk_header block) in
  match r with
  | (Rejected n m c, s) => Ok (Rejected n m c, s)
  | (Accepted p, s) =>
      let? b := in_chain (entry_of s p) in
      let? take := if has_data b then Ok false else if fRequested then Ok true else wanted s b nMinimumChainWork in
      if negb take then Ok (Accepted false, s)
      else
        let? r := judge (CheckBlock (tree s) fChecked block params true true false) in
        let? r := match r with
                  | Accepted _ => judge (ContextualCheckBlock (index s) block params (pprev b))
                  | Rejected n m c => Ok (Rejected n m c)
                  end in
        match r with
        | Rejected n m c =>
            if fFromLoad && String.eqb m "bad-txns-transfer-asset-bad-deserialize" then
              let? s := in_chain (ReceivedBlockTransactions s p (Z.of_nat (length (vtx block))) (nSegwitEnabled params)) in Ok (Accepted true, s)
            else Ok (Rejected n m c, if c then s else mark_dirty (update_entry s p (or_status BLOCK_FAILED_VALID)) p)
        | Accepted _ =>
            let? s := in_chain (ReceivedBlockTransactions s p (Z.of_nat (length (vtx block))) (nSegwitEnabled params)) in Ok (Accepted true, s)
        end
  end.

Definition ProcessNewBlock s (block : CBlock) (fForceProcessing : bool) (nMinimumChainWork : uint) : result block_error (outcome bool * chain_state CS) :=
  let? r := judge (CheckBlock (tree s) false block params true true false) in
  match r with
  | Rejected n m c => Ok (Rejected n m c, s)
  | Accepted fChecked =>
      let? r := AcceptBlock s fChecked block fForceProcessing false nMinimumChainWork in
      match r with
      | (Rejected n m c, s) => Ok (Rejected n m c, s)
      | (Accepted fNewBlock, s) => let? r := in_chain (ActivateBestChain fInitialDownload s) in Ok (Accepted (fst r), snd r)
      end
  end.
End receive.
