(* ===== verification/ChainLive.v ===== *)
(** * The active chain becomes the best valid chain

    [ActivateBestChain] returns, over any store of coins and assets that does not take a
    block for corrupted, and no remaining candidate that can be connected is better than
    the tip it leaves: more work, or the same work and received earlier.  A candidate can
    be connected when it and its ancestors have their data and are not marked failed.  If
    the store always gives the same verdict on a block over the state of its parent, then
    the tip is as good as every connectable block that the store accepts.  Conversely a
    block taken for corrupted is tried again without end. *)

From Stdlib Require Import String.
From stdpp Require Import gmap.
From S2P Require Import Prelude Serialize ArithUint256 Transaction Chain ChainSelect.
Import base_uint arith_uint256 uint_facts.

Open Scope Z_scope.

(** ** The order of candidates *)

(** Work first, then the earlier, then the lower address. *)
Definition key_less (pa : ptr) (a : CBlockIndex) (pb : ptr) (b : CBlockIndex) : Prop :=
  val (nChainWork a) < val (nChainWork b) ∨
  (val (nChainWork a) = val (nChainWork b) ∧
   (nSequenceId b < nSequenceId a ∨ (nSequenceId a = nSequenceId b ∧ (pb < pa)%positive))).

Lemma work_less_key pa a pb b : wf (nChainWork a) → wf (nChainWork b) → work_less pa a pb b = true ↔ key_less pa a pb b.
Proof.
  intros Ha Hb. unfold work_less, key_less. rewrite gtb_spec, ltb_spec by done. rewrite !Z.gtb_ltb.
  repeat case_match; repeat match goal with
    | H : (_ <? _) = true |- _ => apply Z.ltb_lt in H
    | H : (_ <? _) = false |- _ => apply Z.ltb_ge in H
    | H : (_ <? _)%positive = true |- _ => apply Pos.ltb_lt in H
    | H : (_ <? _)%positive = false |- _ => apply Pos.ltb_ge in H end; rewrite ?Pos.ltb_lt; try (split; [done|]); try (split; intros; [lia|done]); lia.
Qed.

Section order.
Context (st : heap) (Hst : heap_ok st).
Implicit Types p q r : ptr.

Lemma entry_work p b : st !! p = Some b → wf (nChainWork b).
Proof. intros H. by destruct (Hst p b H) as [[? _] _]. Qed.
Lemma less_key p q a b : st !! p = Some a → st !! q = Some b → less st p q = true ↔ key_less p a q b.
Proof. intros Ha Hb. unfold less. rewrite Ha, Hb. apply work_less_key; by eapply entry_work. Qed.
Lemma less_dom p q : less st p q = true → is_Some (st !! p) ∧ is_Some (st !! q).
Proof. unfold less. destruct (st !! p), (st !! q); naive_solver. Qed.
Lemma less_irrefl p : less st p p = false.
Proof.
  destruct (less st p p) eqn:H; [|done]. destruct (less_dom p p H) as [[a Ha] _]. apply (less_key p p a a) in H; [|done..]. unfold key_less in H. lia.
Qed.
Lemma less_trans p q r : less st p q = true → less st q r = true → less st p r = true.
Proof.
  intros H1 H2. destruct (less_dom p q H1) as [[a Ha] [b Hb]], (less_dom q r H2) as [_ [c Hc]].
  rewrite (less_key p q a b) in H1 by done. rewrite (less_key q r b c) in H2 by done. apply (less_key p r a c); [done..|]. unfold key_less in *. lia.
Qed.
(** Not being worse is transitive. *)
Lemma geq_trans p q r : is_Some (st !! p) → is_Some (st !! q) → is_Some (st !! r) → less st q p = false → less st r q = false → less st r p = false.
Proof.
  intros [a Ha] [b Hb] [c Hc] H1 H2. destruct (less st r p) eqn:H; [|done]. rewrite (less_key r p c a) in H by done.
  assert (¬ key_less q b p a) as N1 by (rewrite <- (less_key q p b a), H1 by done; done).
  assert (¬ key_less r c q b) as N2 by (rewrite <- (less_key r q c b), H2 by done; done). unfold key_less in *. lia.
Qed.
Lemma less_work p q a b : st !! p = Some a → st !! q = Some b → less st p q = false → val (nChainWork b) <= val (nChainWork a).
Proof. intros Ha Hb H. destruct (Z.lt_ge_cases (val (nChainWork a)) (val (nChainWork b))); [|done]. assert (less st p q = true); [|congruence]. apply (less_key p q a b); [done..|]. by left. Qed.
Lemma less_lt p q a b : st !! p = Some a → st !! q = Some b → val (nChainWork a) < val (nChainWork b) → less st q p = false.
Proof.
  intros Ha Hb Hlt. destruct (less st q p) eqn:H; [|done]. apply (less_key q p b a) in H; [|done..]. unfold key_less in H. lia.
Qed.

Lemma best_in_list l : (∀ p, p ∈ l → is_Some (st !! p)) →
  match foldr (better st) None l with
  | None => l = []
  | Some p => p ∈ l ∧ ∀ q, q ∈ l → less st p q = false
  end.
Proof.
  induction l as [|x l IH]; intros Hd; [done|]. cbn [foldr]. specialize (IH (fun p Hp => Hd p (list_elem_of_further _ _ _ Hp))).
  destruct (foldr (better st) None l) as [p|]; unfold better.
  - destruct IH as [Hin Hmax]. destruct (less st p x) eqn:Hl.
    + split; [by left|]. intros q [->|Hq]%elem_of_cons; [apply less_irrefl|]. destruct (less st x q) eqn:Hxq; [|done].
      specialize (Hmax q Hq). assert (less st p q = true) by by eapply less_trans. congruence.
    + split; [by right|]. intros q [->|Hq]%elem_of_cons; [done|by apply Hmax].
  - subst l. split; [by left|]. intros q ->%list_elem_of_singleton. apply less_irrefl.
Qed.
Lemma best_candidate_spec (c : gset ptr) : (∀ p, p ∈ c → is_Some (st !! p)) →
  match best_candidate st c with
  | None => c = ∅
  | Some p => p ∈ c ∧ ∀ q, q ∈ c → less st p q = false
  end.
Proof.
  intros Hd. unfold best_candidate. pose proof (best_in_list (elements c)) as H.
  destruct (foldr (better st) None (elements c)) as [p|].
  - destruct H as [Hin Hm]; [intros p' Hp'; apply Hd; by apply elem_of_elements|]. split; [by apply elem_of_elements|]. intros q Hq. apply Hm. by apply elem_of_elements.
  - apply elements_empty_inv, leibniz_equiv in H; [done|]. intros p' Hp'; apply Hd; by apply elem_of_elements.
Qed.
End order.

(** ** Changes of the status *)

(** Two heaps that differ in [nStatus] only. *)
Definition skel (b : CBlockIndex) : CBlockIndex := set_nStatus b 0.
Definition same_skel (st st' : heap) : Prop := ∀ p, skel <$> st !! p = skel <$> st' !! p.

Section skeletons.
Context (st st' : heap) (Hs : same_skel st st').

Lemma skel_some p b : st !! p = Some b → ∃ b', st' !! p = Some b' ∧ ∃ n, b' = set_nStatus b n.
Proof.
  intros Hb. specialize (Hs p). rewrite Hb in Hs. destruct (st' !! p) as [b'|]; [|done]. exists b'. split; [done|].
  exists (nStatus b'). injection Hs as Hs. unfold skel in Hs. destruct b, b'. cbn in *. by simplify_eq.
Qed.
Lemma skel_none p : st !! p = None → st' !! p = None.
Proof. intros Hb. specialize (Hs p). rewrite Hb in Hs. by destruct (st' !! p). Qed.

Lemma up_skel n : ∀ p, up st' n p = up st n p.
Proof.
  induction n as [|n IH]; intros p; cbn [up]; [done|]. destruct (st !! p) as [b|] eqn:Hb.
  - destruct (skel_some p b Hb) as (b' & -> & k & ->). cbn. destruct (pprev b); [apply IH|done].
  - by rewrite (skel_none p Hb).
Qed.
Lemma ancestor_at_skel p h : ancestor_at st' p h = ancestor_at st p h.
Proof.
  unfold ancestor_at. destruct (st !! p) as [b|] eqn:Hb; [|by rewrite (skel_none p Hb)].
  destruct (skel_some p b Hb) as (b' & -> & k & ->). cbn. by rewrite up_skel.
Qed.
Lemma less_skel p q : less st' p q = less st p q.
Proof.
  unfold less. destruct (st !! p) as [a|] eqn:Ha; [|by rewrite (skel_none p Ha)]. destruct (skel_some p a Ha) as (a' & -> & k & ->).
  destruct (st !! q) as [b|] eqn:Hb; [|by rewrite (skel_none q Hb)]. by destruct (skel_some q b Hb) as (b' & -> & k' & ->).
Qed.
Lemma is_chain_skel c t : is_chain st c t → is_chain st' c t.
Proof.
  intros (b & Hb & Hl & Hc). destruct (skel_some t b Hb) as (b' & Hb' & k & ->). exists (set_nStatus b k). split_and!; [done|done|].
  intros i Hi. rewrite ancestor_at_skel. by apply Hc.
Qed.
End skeletons.

Lemma same_skel_refl st : same_skel st st.
Proof. done. Qed.
Lemma same_skel_sym st st' : same_skel st st' → same_skel st' st.
Proof. intros H p. by rewrite H. Qed.
Lemma same_skel_trans st1 st2 st3 : same_skel st1 st2 → same_skel st2 st3 → same_skel st1 st3.
Proof. intros H1 H2 p. by rewrite H1. Qed.
Lemma heap_ok_skel st st' : same_skel st st' → heap_ok st → heap_ok st'.
Proof.
  intros Hs Hok p b Hb. destruct (skel_some st' st (same_skel_sym _ _ Hs) p b Hb) as (b' & Hb' & k & ->). destruct (Hok p _ Hb') as [Hw He]. split; [exact Hw|].
  cbn [pprev set_nStatus] in He. destruct (pprev b) as [q|]; [|exact He]. destruct He as (bq & Hq & R1 & R2 & R3 & R4 & R5). destruct (skel_some st st' Hs q bq Hq) as (bq' & Hq' & k' & ->).
  exists (set_nStatus bq k'). rewrite (ancestor_at_skel st st' Hs). exact (conj Hq' (conj R1 (conj R2 (conj R3 (conj R4 R5))))).
Qed.
Lemma same_skel_alter st p f : (∀ b, ∃ n, f b = set_nStatus b n) → same_skel st (alter f p st).
Proof.
  intros Hf q. destruct (decide (q = p)) as [->|Hne]; [rewrite lookup_alter_eq|by rewrite lookup_alter_ne]. destruct (st !! p) as [b|]; [|done].
  cbn. destruct (Hf b) as [n ->]. by destruct b.
Qed.

(** Work grows from a block to its child; there is one block without a parent. *)
Definition work_grows (st : heap) : Prop :=
  ∀ p b q bq, st !! p = Some b → pprev b = Some q → st !! q = Some bq → val (nChainWork bq) < val (nChainWork b).
Definition one_root (st : heap) : Prop := ∀ p b q bq, st !! p = Some b → st !! q = Some bq → pprev b = None → pprev bq = None → p = q.

Lemma work_grows_skel st st' : same_skel st st' → work_grows st → work_grows st'.
Proof.
  intros Hs Hw p b q bq Hb Hq Hbq. apply same_skel_sym in Hs. destruct (skel_some st' st Hs p b Hb) as (b' & Hb' & k & ->), (skel_some st' st Hs q bq Hbq) as (bq' & Hbq' & k' & ->).
  apply (Hw p _ q _ Hb' Hq Hbq').
Qed.
Lemma one_root_skel st st' : same_skel st st' → one_root st → one_root st'.
Proof.
  intros Hs Hr p b q bq Hb Hbq Hp Hq. apply same_skel_sym in Hs. destruct (skel_some st' st Hs p b Hb) as (b' & Hb' & k & ->), (skel_some st' st Hs q bq Hbq) as (bq' & Hbq' & k' & ->).
  apply (Hr p _ q _ Hb' Hbq' Hp Hq).
Qed.

(** ** Ancestors *)

Section ancestors.
Context (st : heap) (Hst : heap_ok st).

(** The first is the second, or is reached from it by [pprev]. *)
Inductive ancestor : ptr → ptr → Prop :=
  | ancestor_refl p b : st !! p = Some b → ancestor p p
  | ancestor_step p b q r : st !! p = Some b → pprev b = Some q → ancestor r q → ancestor r p.

Lemma ancestor_dom q p : ancestor q p → ∃ b bq, st !! p = Some b ∧ st !! q = Some bq ∧ bi_nHeight bq <= bi_nHeight b.
Proof.
  induction 1 as [p b Hb|p b q r Hb Hq Hr (bq & br & Hbq & Hbr & Hh)]; [by exists b, b|].
  destruct (pprev_entry st Hst p b q Hb Hq) as (bq' & Hbq' & Hh'). assert (bq' = bq) as -> by congruence. exists b, br. split_and!; [done|done|lia].
Qed.
Lemma ancestor_trans p q r : ancestor r q → ancestor q p → ancestor r p.
Proof. intros H1. induction 1 as [|p b q' r' Hb Hq _ IH]; [done|]. eapply ancestor_step; eauto. Qed.
Lemma ancestor_at_iff p b q bq : st !! p = Some b → st !! q = Some bq → ancestor q p ↔ ancestor_at st p (bi_nHeight bq) = Some q.
Proof.
  intros Hb Hbq. split.
  - intros H. revert b Hb. induction H as [p b' Hb'|p b' q' r Hb' Hq' Hr IH]; intros b Hb; [by apply ancestor_at_self|].
    destruct (pprev_entry st Hst p b q' Hb ltac:(congruence)) as (bq' & Hbq' & Hh). specialize (IH Hbq bq' Hbq').
    destruct (ancestor_dom _ _ Hr) as (? & ? & E1 & E2 & Hle). assert (x = bq') as -> by congruence. assert (x0 = bq) as -> by congruence.
    rewrite <- IH. symmetry. apply (ancestor_at_prev st Hst p b q'); [done|congruence|]. pose proof (entry_height st Hst r bq Hbq). lia.
  - intros H. unfold ancestor_at in H. rewrite Hb in H. case_match; [|done]. clear Hb. revert p H.
    induction (Z.to_nat (bi_nHeight b - bi_nHeight bq)) as [|n IH]; intros p H; cbn [up] in H; [injection H as ->; by eapply ancestor_refl|].
    destruct (st !! p) as [b'|] eqn:Hb'; [|done]. destruct (pprev b') as [q'|] eqn:Hq'; [|done]. eapply ancestor_step; eauto.
Qed.
(** Two ancestors of one block are in line. *)
Lemma ancestor_linear p q r : ancestor q p → ancestor r p → ancestor q r ∨ ancestor r q.
Proof.
  induction 1 as [p b Hb|p b q' q Hb Hq Hanc IH]; intros Hr; [by right|]. inversion Hr as [? b' Hb'|? b' q2 ? Hb' Hq2 Hr2]; subst.
  - left. exact (ancestor_step p b q' q Hb Hq Hanc).
  - assert (b' = b) as -> by congruence. assert (q2 = q') as -> by congruence. auto.
Qed.
Lemma ancestor_antisym p q : ancestor q p → ancestor p q → p = q.
Proof.
  intros H1 H2. inversion H1 as [|? b q' ? Hb Hq Hr]; subst; [done|]. destruct (ancestor_dom _ _ Hr) as (bq' & bq & E1 & E2 & E3).
  destruct (pprev_entry st Hst p b q' Hb Hq) as (? & E4 & E5). destruct (ancestor_dom _ _ H2) as (? & ? & E6 & E7 & E8). simplify_eq. lia.
Qed.
Lemma chain_member c t p b : is_chain st c t → st !! p = Some b → ∃ r, Contains st c p = Ok r ∧ (r = true ↔ ancestor p t).
Proof.
  intros Hc Hb. exists (bool_decide (ancestor_at st t (bi_nHeight b) = Some p)). split; [by apply (Contains_spec st)|].
  destruct Hc as (bt & Hbt & _). rewrite bool_decide_eq_true. symmetry. by eapply ancestor_at_iff.
Qed.
Lemma ancestor_work p q b bq : work_grows st → ancestor q p → st !! p = Some b → st !! q = Some bq → val (nChainWork bq) <= val (nChainWork b) ∧ (p ≠ q → val (nChainWork bq) < val (nChainWork b)).
Proof.
  intros Hw H. revert b. induction H as [p b' Hb'|p b' q' r Hb' Hq' Hr IH]; intros b Hb Hbq; [split; [simplify_eq; lia|done]|].
  destruct (ancestor_dom _ _ Hr) as (bq' & ? & E1 & _). assert (b' = b) as -> by congruence. specialize (IH bq' E1 Hbq) as [IH _]. pose proof (Hw p b q' bq' Hb Hq' E1). lia.
Qed.
Lemma root_reached p b : st !! p = Some b → ∃ r br, ancestor r p ∧ st !! r = Some br ∧ pprev br = None.
Proof.
  intros Hb. remember (Z.to_nat (bi_nHeight b)) as n eqn:Hn. revert p b Hb Hn. induction n as [|n IH]; intros p b Hb Hn; pose proof (entry_height st Hst p b Hb).
  - exists p, b. split_and!; [by eapply ancestor_refl|done|]. destruct (pprev b) as [q|] eqn:Hq; [|done].
    destruct (pprev_entry st Hst p b q Hb Hq) as (bq & Hbq & Hh). pose proof (entry_height st Hst q bq Hbq). lia.
  - destruct (pprev b) as [q|] eqn:Hq; [|exists p, b; split_and!; [by eapply ancestor_refl|done|done]].
    destruct (pprev_entry st Hst p b q Hb Hq) as (bq & Hbq & Hh). destruct (IH q bq Hbq ltac:(lia)) as (r & br & Hr & Hbr & Hp).
    exists r, br. split_and!; [by eapply ancestor_step|done|done].
Qed.
End ancestors.
Lemma ancestor_skel st st' q p : same_skel st st' → ancestor st q p → ancestor st' q p.
Proof.
  intros Hs. induction 1 as [p b Hb|p b q r Hb Hq _ IH].
  - destruct (skel_some st st' Hs p b Hb) as (b' & Hb' & k & ->). by eapply ancestor_refl.
  - destruct (skel_some st st' Hs p b Hb) as (b' & Hb' & k & ->). by eapply ancestor_step.
Qed.

(** ** What the store promises *)

(** The entry of a connected block changes in its status only, and keeps its data and its
    failure flags. *)
Definition kept_entry (b e : CBlockIndex) : Prop :=
  ∃ n, e = set_nStatus b n ∧ is_failed e = is_failed b ∧ has_data e = has_data b.

(** What the search is proved against: a store that never takes a block for corrupted.  The
    node may fail at any time.  Where [stable] holds the verdicts are those of
    [valid_block], whatever was connected and disconnected before. *)
Class ChainStoreLaws (CS : Type) {Store : ChainStore CS} := {
  stable : Prop;
  valid_block : ptr → Prop;
  store_at : CS → ptr → Prop;
  connect_law : ∀ s t p b q, tree_heap t !! p = Some b → pprev b = Some q → store_at s q →
    match store_connect s t p with
    | Connected s' e => kept_entry b e ∧ store_at s' p ∧ (stable → valid_block p)
    | ConsensusInvalid corruption => corruption = false ∧ (stable → ¬ valid_block p)
    | SystemFailure => True
    end;
  disconnect_law : ∀ s t p b q, tree_heap t !! p = Some b → pprev b = Some q → store_at s p →
    match store_disconnect s t p with Some s' => store_at s' q | None => True end
}.
(** The store failed: an error that is not the block's. *)
Definition node_failure (CS : Type) {Store : ChainStore CS} : Prop :=
  ∃ s t p, store_connect s t p = SystemFailure ∨ store_disconnect s t p = None.

(** ** Blocks that can be connected *)

Definition good (b : CBlockIndex) : Prop := is_failed b = false ∧ has_data b = true ∧ nChainTx b ≠ 0.
(** The block and its ancestors are not failed, and have their data. *)
Definition eligible (st : heap) (p : ptr) : Prop := is_Some (st !! p) ∧ ∀ q bq, ancestor st q p → st !! q = Some bq → good bq.
Definition linked (st : heap) (p : ptr) : Prop := is_Some (st !! p) ∧ ∀ q bq, ancestor st q p → st !! q = Some bq → nChainTx bq ≠ 0.
Definition accepted_path (valid : ptr → Prop) (st : heap) (p : ptr) : Prop := ∀ q, ancestor st q p → valid q.

(** Status changes that keep the data and the failures. *)
Record evolves (st st' : heap) : Prop := {
  ev_skel : same_skel st st';
  ev_entry : ∀ p b b', st !! p = Some b → st' !! p = Some b' → has_data b' = has_data b ∧ (is_failed b = true → is_failed b' = true)
}.
Lemma evolves_refl st : evolves st st.
Proof. split; [done|]. intros p b b' H H'. by simplify_eq. Qed.
Lemma evolves_trans st1 st2 st3 : evolves st1 st2 → evolves st2 st3 → evolves st1 st3.
Proof.
  intros [S1 E1] [S2 E2]. split; [by eapply same_skel_trans|]. intros p b b'' H1 H3. destruct (skel_some _ _ S1 p b H1) as (b' & H2 & _).
  destruct (E1 p b b' H1 H2), (E2 p b' b'' H2 H3). split; [congruence|auto].
Qed.
Lemma evolves_eligible st st' p : evolves st st' → eligible st' p → eligible st p.
Proof.
  intros [Hs He] [Hp Hg]. apply same_skel_sym in Hs as Hs'. split.
  - destruct Hp as [b' Hb']. destruct (skel_some _ _ Hs' p b' Hb') as (b & Hb & _). by exists b.
  - intros q bq Hq Hbq. destruct (skel_some _ _ Hs q bq Hbq) as (bq' & Hbq' & n & ->). destruct (Hg q _ (ancestor_skel _ _ _ _ Hs Hq) Hbq') as (G1 & G2 & G3).
    destruct (He q _ _ Hbq Hbq') as [E1 E2]. split_and!; [|congruence|done]. destruct (is_failed bq) eqn:Hf; [|done]. by rewrite E2 in G1.
Qed.
Lemma linked_skel st st' p : same_skel st st' → linked st p → linked st' p.
Proof.
  intros Hs [[b Hb] Hl]. destruct (skel_some _ _ Hs p b Hb) as (b' & Hb' & _). split; [by exists b'|]. intros q bq Hq Hbq. apply same_skel_sym in Hs.
  destruct (skel_some _ _ Hs q bq Hbq) as (bq' & Hbq' & n & ->). specialize (Hl q _ (ancestor_skel _ _ _ _ Hs Hq) Hbq'). done.
Qed.
Lemma eligible_linked st p : eligible st p → linked st p.
Proof. intros [Hp Hg]. split; [done|]. intros q bq Hq Hbq. by apply (Hg q bq). Qed.
Lemma eligible_ancestor st p q : heap_ok st → eligible st p → ancestor st q p → eligible st q.
Proof.
  intros Hst [_ Hg] Hq. split; [destruct (ancestor_dom st Hst q p Hq) as (? & bq & _ & ? & _); by exists bq|]. intros r br Hr. apply Hg. by eapply ancestor_trans.
Qed.

Lemma failed_or b f : is_failed b = true → is_failed (or_status f b) = true.
Proof.
  unfold is_failed, flag_set, or_status. cbn [nStatus set_nStatus]. rewrite !negb_true_iff, !Z.eqb_neq. intros H H0. apply H. apply Z.bits_inj_0. intros n.
  assert (Z.testbit (Z.land (Z.lor (nStatus b) f) BLOCK_FAILED_MASK) n = false) as Hn by (rewrite H0; apply Z.bits_0).
  rewrite Z.land_spec, Z.lor_spec in *. destruct (Z.testbit (nStatus b) n), (Z.testbit f n), (Z.testbit BLOCK_FAILED_MASK n); done.
Qed.
Lemma data_or b f : Z.land f BLOCK_HAVE_DATA = 0 → has_data (or_status f b) = has_data b.
Proof. intros Hf. unfold has_data, flag_set, or_status. cbn [nStatus set_nStatus]. by rewrite Z.land_lor_distr_l, Hf, Z.lor_0_r. Qed.
Lemma evolves_or st p f : Z.land f BLOCK_HAVE_DATA = 0 → evolves st (alter (or_status f) p st).
Proof.
  intros Hf. split; [apply same_skel_alter; intros b; by exists (Z.lor (nStatus b) f)|]. intros q b b' Hb Hb'. destruct (decide (q = p)) as [->|Hne].
  - rewrite lookup_alter_eq, Hb in Hb'. injection Hb' as <-. split; [by apply data_or|apply failed_or].
  - rewrite lookup_alter_ne in Hb' by done. by simplify_eq.
Qed.

(** ** The search *)

Section search.
Context {CS : Type} {Store : ChainStore CS}.
Implicit Types (s : chain_state CS) (p q t x : ptr).

Lemma check_path_spec st c t (Hst : heap_ok st) : is_chain st c t → eligible st t → ∀ fuel p b, st !! p = Some b → (Z.to_nat (bi_nHeight b) < fuel)%nat → linked st p →
  ∃ r, check_path fuel st c (Some p) = Ok r ∧
    match r with
    | None => eligible st p
    | Some (x, f, m) => ∃ bx, ancestor st x p ∧ ¬ ancestor st x t ∧ st !! x = Some bx ∧ f = is_failed bx ∧ m = negb (has_data bx) ∧ (f = true ∨ m = true)
    end.
Proof.
  intros Hc Ht. induction fuel as [|fuel IH]; intros p b Hb Hf [Hp Hl]; [lia|]. cbn [check_path].
  destruct (chain_member st Hst c t p b Hc Hb) as ([] & -> & Hin); cbn [rbind].
  { exists None. split; [done|]. by eapply eligible_ancestor, Hin. }
  assert (¬ ancestor st p t) as Hnt by (intros H; by apply Hin in H). unfold deref. rewrite Hb. cbn [rbind].
  assert (ancestor st p p) as Hpp by by eapply ancestor_refl.
  rewrite (proj2 (Z.eqb_neq _ _)) by by apply (Hl p). cbn [andb]. destruct (is_failed b || negb (has_data b)) eqn:Hbad.
  { exists (Some (p, is_failed b, negb (has_data b))). split; [done|]. exists b. apply orb_true_iff in Hbad. done. }
  apply orb_false_iff in Hbad as [Hf0 Hd0%negb_false_iff]. assert (good b) as Hg by (split_and!; [done|done|by apply (Hl p)]).
  destruct (pprev b) as [q|] eqn:Hq.
  - destruct (pprev_entry st Hst p b q Hb Hq) as (bq & Hbq & Hh). pose proof (entry_height st Hst q bq Hbq).
    destruct (IH q bq Hbq ltac:(lia)) as (r & -> & Hr).
    { split; [by exists bq|]. intros r br Hr. apply Hl. by eapply ancestor_step. }
    exists r. split; [done|]. destruct r as [[[x f] m]|].
    + destruct Hr as (bx & R1 & R2). exists bx. split; [by eapply ancestor_step|done].
    + split; [done|]. intros r br Hr' Hbr. inversion Hr' as [? b1 Hb1|? b1 q1 ? Hb1 Hq1 Hr1]; simplify_eq; [done|]. by apply (proj2 Hr r).
  - exists None. split; [by destruct fuel|]. split; [done|]. intros r br Hr' Hbr. inversion Hr' as [? b1 Hb1|? b1 q1 ? Hb1 Hq1 Hr1]; simplify_eq. done.
Qed.

(** Trimming the candidates above an unusable block [x]. *)
Record trimmed x s s' : Prop := {
  tr_evolves : evolves (index s) (index s');
  tr_entry : ∀ q, index s' !! q = index s !! q ∨ (ancestor (index s) x q ∧ q ≠ x);
  tr_subset : setBlockIndexCandidates s' ⊆ setBlockIndexCandidates s;
  tr_removed : ∀ q, q ∈ setBlockIndexCandidates s → q ∈ setBlockIndexCandidates s' ∨ ancestor (index s) x q;
  tr_active : chainActive s' = chainActive s;
  tr_store : store s' = store s;
  tr_warnings : warnings s' = warnings s;
  tr_invalid : pindexBestInvalid s' = pindexBestInvalid s
}.
Lemma trimmed_refl x s : trimmed x s s.
Proof. constructor; try done; [apply evolves_refl|by left|by left]. Qed.
Lemma trimmed_trans x s1 s2 s3 : trimmed x s1 s2 → trimmed x s2 s3 → trimmed x s1 s3.
Proof.
  intros [A1 A2 A3 A4 A5 A6 A7 A8] [B1 B2 B3 B4 B5 B6 B7 B8]. pose proof (same_skel_sym _ _ (ev_skel _ _ A1)) as Hsk.
  constructor; try congruence; [by eapply evolves_trans| |set_solver|].
  - intros q. destruct (B2 q) as [->|[H Hne]]; [apply A2|]. right. split; [|done]. by eapply ancestor_skel.
  - intros q Hq. destruct (A4 q Hq) as [H|H]; [|by right]. destruct (B4 q H) as [|H']; [by left|]. right. by eapply ancestor_skel.
Qed.
Lemma trimmed_erase x s q : ancestor (index s) x q → trimmed x s (erase_candidate s q).
Proof. intros Hq. constructor; try done; [apply evolves_refl|by left|set_solver|]. intros r Hr. destruct (decide (r = q)) as [->|]; [by right|]. left. cbn. set_solver. Qed.
Lemma trimmed_fail x s q : ancestor (index s) x q → q ≠ x → trimmed x s (update_entry s q (or_status BLOCK_FAILED_CHILD)).
Proof.
  intros Hq Hne. constructor; try done; [by apply evolves_or| |by left]. intros r. destruct (decide (r = q)) as [->|Hr]; [by right|]. left.
  cbn. by rewrite lookup_alter_ne.
Qed.
Lemma trimmed_unlinked x s l : trimmed x s (with_unlinked s l).
Proof. constructor; try done; [apply evolves_refl|by left|by left]. Qed.

Lemma remove_path_spec x f m : ∀ fuel s p b, heap_ok (index s) → index s !! p = Some b → (Z.to_nat (bi_nHeight b) < fuel)%nat → ancestor (index s) x p →
  ∃ s', remove_path fuel s x p f m = Ok s' ∧ trimmed x s s' ∧ (x ≠ p → p ∉ setBlockIndexCandidates s').
Proof.
  induction fuel as [|fuel IH]; intros s p b Hst Hb Hf Hx; [lia|]. cbn [remove_path]. case_bool_decide as Hxp; [exists s; split_and!; [done|apply trimmed_refl|done]|].
  unfold entry_of, deref. rewrite Hb. cbn [rbind]. inversion Hx as [|? b1 q ? Hb1 Hq Hxq]; simplify_eq. rewrite Hq.
  set (s1 := if f then _ else _). assert (trimmed x s s1) as T1.
  { unfold s1. destruct f; [by apply trimmed_fail|]. destruct m; [apply trimmed_unlinked|apply trimmed_refl]. }
  assert (ancestor (index s1) x p) as Hx1 by (eapply ancestor_skel, Hx; apply T1).
  assert (trimmed x s (erase_candidate s1 p)) as T2 by (eapply trimmed_trans, trimmed_erase; done).
  destruct (pprev_entry _ Hst p b q Hb Hq) as (bq & Hbq & Hh). pose proof (ev_skel _ _ (tr_evolves _ _ _ T2)) as Hsk.
  destruct (skel_some _ _ Hsk q bq Hbq) as (bq' & Hbq' & n & ->). pose proof (entry_height _ Hst q bq Hbq).
  destruct (IH (erase_candidate s1 p) q _ (heap_ok_skel _ _ Hsk Hst) Hbq') as (s' & Hs' & T3 & _); [cbn; lia|by eapply ancestor_skel|].
  exists s'. split_and!; [done|by eapply trimmed_trans|]. intros _ Hin. apply (tr_subset _ _ _ T3) in Hin. cbn in Hin. set_solver.
Qed.

(** What the search may change. *)
Record searched s s' : Prop := {
  se_evolves : evolves (index s) (index s');
  se_eligible : ∀ q, eligible (index s) q → eligible (index s') q;
  se_subset : setBlockIndexCandidates s' ⊆ setBlockIndexCandidates s;
  se_kept : ∀ q, q ∈ setBlockIndexCandidates s → eligible (index s) q → q ∈ setBlockIndexCandidates s';
  se_active : chainActive s' = chainActive s;
  se_store : store s' = store s;
  se_warnings : warnings s' = warnings s;
  se_invalid : (∀ i, pindexBestInvalid s = Some i → is_Some (index s !! i)) → ∀ i, pindexBestInvalid s' = Some i → is_Some (index s' !! i)
}.
Lemma searched_refl s : searched s s.
Proof. constructor; try done. apply evolves_refl. Qed.
Lemma searched_trans s1 s2 s3 : searched s1 s2 → searched s2 s3 → searched s1 s3.
Proof.
  intros [A1 A2 A3 A4 A5 A6 A7 A8] [B1 B2 B3 B4 B5 B6 B7 B8]. constructor; try congruence; auto; [by eapply evolves_trans|set_solver].
Qed.
Lemma trimmed_searched x bx s s' : heap_ok (index s) → index s !! x = Some bx → ¬ good bx → trimmed x s s' → searched s s'.
Proof.
  intros Hst Hbx Hbad [A1 A2 A3 A4 A5 A6 A7 A8]. pose proof (ev_skel _ _ A1) as Hsk.
  assert (∀ q, eligible (index s) q → ¬ ancestor (index s) x q) as Hno by (intros q [_ Hg] Hx; by apply Hbad, (Hg x)).
  constructor; try done.
  - intros q Hel. split.
    + destruct Hel as [[b Hb] _]. destruct (skel_some _ _ Hsk q b Hb) as (b' & Hb' & _). by exists b'.
    + intros r br Hr Hbr. apply (ancestor_skel _ _ _ _ (same_skel_sym _ _ Hsk)) in Hr. destruct (A2 r) as [He|[Hx _]].
      * rewrite He in Hbr. by apply (proj2 Hel r).
      * exfalso. apply (Hno q Hel). by eapply ancestor_trans.
  - intros q Hq Hel. destruct (A4 q Hq) as [|Hx]; [done|]. by apply Hno in Hx.
  - intros Hi i. rewrite A8. intros Hs%Hi. destruct Hs as [b Hb]. destruct (skel_some _ _ Hsk i b Hb) as (b' & Hb' & _). by exists b'.
Qed.
Lemma note_invalid_spec s p : heap_ok (index s) → is_Some (index s !! p) → (∀ i, pindexBestInvalid s = Some i → is_Some (index s !! i)) →
  ∃ i, note_invalid s p = Ok (with_best_invalid s i) ∧ ∀ j, i = Some j → is_Some (index s !! j).
Proof.
  intros Hst [b Hb] Hi. unfold note_invalid, entry_of, deref, opt_entry. rewrite Hb. cbn [rbind]. destruct (pindexBestInvalid s) as [j|] eqn:Hj.
  - destruct (Hi j eq_refl) as [bj Hbj]. unfold entry_of, deref. rewrite Hbj. cbn [rbind]. destruct (gtb _ _).
    + exists (Some p). split; [done|]. intros ? [= <-]. by exists b.
    + exists (Some j). split; [by destruct s; cbn in *; rewrite Hj|]. intros ? [= <-]. by exists bj.
  - cbn [rbind]. exists (Some p). split; [done|]. intros ? [= <-]. by exists b.
Qed.

Lemma find_most_work_spec t : ∀ fuel s, heap_ok (index s) → is_chain (index s) (chainActive s) t → eligible (index s) t →
  (∀ p, p ∈ setBlockIndexCandidates s → linked (index s) p) → (∀ i, pindexBestInvalid s = Some i → is_Some (index s !! i)) →
  (set_size (setBlockIndexCandidates s) <= fuel)%nat →
  ∃ o s', find_most_work fuel s = Ok (o, s') ∧ searched s s' ∧
    match o with
    | Some p => p ∈ setBlockIndexCandidates s' ∧ eligible (index s') p ∧ ∀ q, q ∈ setBlockIndexCandidates s' → less (index s') p q = false
    | None => setBlockIndexCandidates s' = ∅
    end.
Proof.
  induction fuel as [|fuel IH]; intros s Hst Hc Ht Hl Hi Hf; cbn [find_most_work];
    pose proof (best_candidate_spec (index s) Hst (setBlockIndexCandidates s) (fun p Hp => proj1 (Hl p Hp))) as Hbest;
    (destruct (best_candidate (index s) (setBlockIndexCandidates s)) as [p|]; [|exists None, s; split_and!; [done|apply searched_refl|set_solver]]); destruct Hbest as [Hp Hmax].
  { assert (set_size (setBlockIndexCandidates s) = 0)%nat as H0 by lia. apply size_empty_inv in H0. set_solver. }
  destruct (Hl p Hp) as [[b Hb] _]. unfold entry_of, deref. rewrite Hb. cbn [rbind]. set (n := S (Z.to_nat (bi_nHeight b))).
  destruct (check_path_spec (index s) (chainActive s) t Hst Hc Ht n p b Hb ltac:(lia) (Hl p Hp)) as (r & -> & Hr). cbn [rbind].
  destruct r as [[[x f] m]|]; [|exists (Some p), s; split_and!; [done|apply searched_refl|done|done|done]].
  destruct Hr as (bx & Hx & _ & Hbx & Hfm & Hmm & Hbad). assert (¬ good bx) as Hng by (intros (G1 & G2 & _); rewrite Hfm, Hmm, G1, G2 in Hbad; naive_solver).
  assert (∃ i, (if f then note_invalid s p else Ok s) = Ok (with_best_invalid s i) ∧ ∀ j, i = Some j → is_Some (index s !! j)) as (i & Hn & Hid).
  { destruct f; [apply note_invalid_spec; [done|by exists b|done]|]. exists (pindexBestInvalid s). split; [by destruct s|done]. }
  rewrite Hn. cbn [rbind]. destruct (remove_path_spec x f m n (with_best_invalid s i) p b Hst Hb ltac:(lia) Hx) as (s1 & -> & T1 & Hrem). cbn [rbind].
  assert (trimmed x (with_best_invalid s i) (erase_candidate s1 x)) as T2.
  { eapply trimmed_trans; [exact T1|]. apply trimmed_erase. eapply ancestor_skel; [apply (ev_skel _ _ (tr_evolves _ _ _ T1))|]. by eapply ancestor_refl. }
  assert (searched s (erase_candidate s1 x)) as Hse.
  { apply searched_trans with (s2 := with_best_invalid s i); [constructor; try done; apply evolves_refl|]. by apply (trimmed_searched x bx). }
  pose proof (ev_skel _ _ (se_evolves _ _ Hse)) as Hsk. pose proof (heap_ok_skel _ _ Hsk Hst) as Hst'.
  destruct (IH (erase_candidate s1 x)) as (o & s' & -> & Hse' & R).
  - done.
  - rewrite (se_active _ _ Hse). by apply (is_chain_skel _ _ Hsk).
  - by apply (se_eligible _ _ Hse).
  - intros q Hq. apply (linked_skel _ _ _ Hsk), Hl. by apply (se_subset _ _ Hse).
  - apply (se_invalid _ _ Hse). done.
  - assert (setBlockIndexCandidates (erase_candidate s1 x) ⊂ setBlockIndexCandidates s) as Hss.
    { split; [apply Hse|]. intros H. destruct (decide (x = p)) as [->|Hne].
      - specialize (H p Hp). cbn in H. set_solver.
      - specialize (H p Hp). cbn in H. apply (Hrem Hne). set_solver. }
    apply subset_size in Hss. unfold size in *. unfold set_size in *. lia.
  - exists o, s'. split_and!; [done|by eapply searched_trans|done].
Qed.
End search.

(** ** Fork warnings do not fail *)

Section warnings.
Context {CS : Type} {Store : ChainStore CS} (fInitialDownload : bool).
Implicit Types (s : chain_state CS) (p q t : ptr).

Definition opt_dom (st : heap) (o : option ptr) : Prop := ∀ i, o = Some i → is_Some (st !! i).
Lemma opt_dom_skel st st' o : same_skel st st' → opt_dom st o → opt_dom st' o.
Proof. intros Hs H i Hi. destruct (H i Hi) as [b Hb]. destruct (skel_some _ _ Hs i b Hb) as (b' & Hb' & _). by exists b'. Qed.
Lemma chain_tip st c t : heap_ok st → is_chain st c t → Tip c = Some t.
Proof.
  intros Hst (b & Hb & Hl & Hc). pose proof (entry_height st Hst t b Hb).
  assert (Tip c = nth (length c - 1) c None) as -> by (by destruct c). rewrite Hc by lia.
  replace (Z.of_nat (length c - 1)) with (bi_nHeight b) by lia. by apply ancestor_at_self.
Qed.
Lemma proof_times_ok st p b n : heap_ok st → st !! p = Some b → ∃ w, proof_times b n = Ok w.
Proof.
  intros Hst Hb. destruct (Hst p b Hb) as [[_ Hbits] _]. unfold proof_times. destruct (GetBlockProof_spec (bi_nBits b) Hbits) as (w & -> & _). by eexists.
Qed.
Lemma opt_entry_ok s o : opt_dom (index s) o → ∃ r, opt_entry s o = Ok r ∧ (is_Some r ↔ is_Some o).
Proof.
  intros Hd. destruct o as [i|]; [|by exists None]. destruct (Hd i eq_refl) as [b Hb]. unfold opt_entry, entry_of, deref. rewrite Hb. exists (Some b). by split.
Qed.

Lemma CheckForkWarningConditions_ok s t : heap_ok (index s) → is_chain (index s) (chainActive s) t → opt_dom (index s) (pindexBestInvalid s) →
  opt_dom (index s) (pindexBestForkTip (warnings s)) →
  ∃ w, CheckForkWarningConditions fInitialDownload s = Ok (with_warnings s w) ∧ opt_dom (index s) (pindexBestForkTip w).
Proof.
  intros Hst Hc Hi Hw. unfold CheckForkWarningConditions. destruct fInitialDownload; [exists (warnings s); split; [by destruct s|done]|].
  destruct (opt_entry_ok s _ Hw) as (r & -> & _). cbn [rbind]. set (forktip := match r with Some b => _ | None => None end).
  assert (opt_dom (index s) forktip) as Hft by (unfold forktip; destruct r; [case_match; [done|exact Hw]|done]).
  assert (∃ large, match forktip, pindexBestInvalid s with
    | Some _, _ => Ok true | None, None => Ok false
    | None, Some i => let? bi := entry_of s i in let? bt := tip_entry s in let? proof := proof_times bt 6 in Ok (gtb (nChainWork bi) (add (nChainWork bt) proof)) end = Ok large) as (large & ->).
  { destruct forktip; [by eexists|]. destruct (pindexBestInvalid s) as [i|] eqn:Hii; [|by eexists]. destruct (Hi i eq_refl) as [b Hb].
    unfold tip_entry, tip. rewrite (chain_tip _ _ _ Hst Hc). destruct Hc as (bt & Hbt & _). unfold entry_of, deref. rewrite Hb, Hbt. cbn [rbind].
    destruct (proof_times_ok _ t bt 6 Hst Hbt) as (w & ->). by eexists. }
  cbn [rbind]. eexists. split; [done|]. destruct large; [case_match|]; done.
Qed.

Lemma lower_to_ok st h : heap_ok st → ∀ fuel q b, st !! q = Some b → bi_nHeight b <= Z.of_nat fuel → 0 <= h → ∃ r, lower_to fuel st (Some q) h = Ok r ∧ opt_dom st r.
Proof.
  intros Hst. induction fuel as [|fuel IH]; intros q b Hb Hf Hh; cbn [lower_to]; unfold deref; rewrite Hb; cbn [rbind]; destruct (Z.gtb_spec (bi_nHeight b) h).
  - lia.
  - exists (Some q). split; [done|]. intros ? [= <-]. by exists b.
  - destruct (pprev b) as [q'|] eqn:Hq; [|exists None; by destruct fuel]. destruct (pprev_entry st Hst q b q' Hb Hq) as (b' & Hb' & Hh'). apply (IH q' b'); [done|lia|done].
  - exists (Some q). split; [done|]. intros ? [= <-]. by exists b.
Qed.
Lemma find_pfork_ok st : heap_ok st → ∀ fuel p b o, st !! p = Some b → bi_nHeight b < Z.of_nat fuel → opt_dom st o → ∃ r, find_pfork fuel st (Some p) o = Ok r ∧ opt_dom st r.
Proof.
  intros Hst. induction fuel as [|fuel IH]; intros p b o Hb Hf Ho; pose proof (entry_height st Hst p b Hb); [lia|]. cbn [find_pfork].
  case_bool_decide; [exists (Some p); split; [done|]; intros ? [= <-]; by exists b|]. unfold deref. rewrite Hb. cbn [rbind].
  assert (∃ n r, (match o with None => Ok O | Some q => let? bq := deref st q in Ok (Z.to_nat (bi_nHeight bq)) end) = Ok n ∧ lower_to n st o (bi_nHeight b) = Ok r ∧ opt_dom st r) as (n & r & Hn & Hr & Hd).
  { destruct o as [q|]; [|by exists O, None]. destruct (Ho q eq_refl) as [bq Hbq]. pose proof (entry_height st Hst q bq Hbq). unfold deref. rewrite Hbq.
    destruct (lower_to_ok st (bi_nHeight b) Hst (Z.to_nat (bi_nHeight bq)) q bq Hbq) as (r & Hr & Hd); [lia|done|]. by exists (Z.to_nat (bi_nHeight bq)), r. }
  unfold deref in Hn. rewrite Hn. cbn [rbind]. rewrite Hr. cbn [rbind]. case_bool_decide; [exists (Some p); split; [done|]; intros ? [= <-]; by exists b|].
  destruct (pprev b) as [q|] eqn:Hq; [|exists None; by destruct fuel]. destruct (pprev_entry st Hst p b q Hb Hq) as (b' & Hb' & Hh'). apply (IH q b'); [done|lia|done].
Qed.
Lemma CheckForkWarningConditionsOnNewFork_ok s t p : heap_ok (index s) → is_chain (index s) (chainActive s) t → opt_dom (index s) (pindexBestInvalid s) →
  opt_dom (index s) (pindexBestForkTip (warnings s)) → is_Some (index s !! p) →
  ∃ w, CheckForkWarningConditionsOnNewFork fInitialDownload s p = Ok (with_warnings s w) ∧ opt_dom (index s) (pindexBestForkTip w).
Proof.
  intros Hst Hc Hi Hw [b Hb]. unfold CheckForkWarningConditionsOnNewFork, entry_of, deref. rewrite Hb. cbn [rbind]. pose proof (entry_height _ Hst p b Hb).
  destruct (find_pfork_ok _ Hst (S (Z.to_nat (bi_nHeight b))) p b (tip s) Hb) as (pf & -> & Hpf); [lia| |].
  { unfold tip. rewrite (chain_tip _ _ _ Hst Hc). intros ? [= <-]. destruct Hc as (bt & Hbt & _). by exists bt. }
  cbn [rbind]. set (m := match pf with None => Ok s | Some f => _ end). assert (∃ w, m = Ok (with_warnings s w) ∧ opt_dom (index s) (pindexBestForkTip w)) as (w & -> & Hw').
  { unfold m. destruct pf as [f|]; [|exists (warnings s); split; [by destruct s|done]]. destruct (Hpf f eq_refl) as [bf Hbf]. rewrite Hbf. cbn [rbind].
    destruct (opt_entry_ok s _ Hw) as (r & -> & _). cbn [rbind]. destruct (proof_times_ok _ f bf 7 Hst Hbf) as (pr & ->). cbn [rbind]. case_match.
    - eexists. split; [done|]. cbn. intros ? [= <-]. by exists b.
    - exists (warnings s). split; [by destruct s|done]. }
  cbn [rbind]. destruct (CheckForkWarningConditions_ok (with_warnings s w) t Hst Hc Hi Hw') as (w' & -> & Hd). exists w'. split; [by destruct s|done].
Qed.
End warnings.

(** ** The invariant *)

(** The candidates include every block that can be connected and is at least as good as
    some block [m] that is accepted: the best tip so far. *)
Definition kept_best {CS : Type} (valid : ptr → Prop) (s : chain_state CS) : Prop :=
  ∃ m, eligible (index s) m ∧ accepted_path valid (index s) m ∧
    ∀ q, eligible (index s) q → less (index s) q m = false → q ∈ setBlockIndexCandidates s.

Section activate.
Context {CS : Type} {Store : ChainStore CS} {Laws : ChainStoreLaws CS} (fInitialDownload : bool).
Implicit Types (s : chain_state CS) (p q t w x m : ptr).

(** [t] is the tip.  With stable verdicts the store accepted it, and [kept_best] holds. *)
Record select_inv s t : Prop := {
  si_heap : heap_ok (index s);
  si_work : work_grows (index s);
  si_root : one_root (index s);
  si_chain : is_chain (index s) (chainActive s) t;
  si_tip : eligible (index s) t;
  si_accepted : stable → accepted_path valid_block (index s) t;
  si_linked : ∀ p, p ∈ setBlockIndexCandidates s → linked (index s) p;
  si_store : store_at (store s) t;
  si_invalid : opt_dom (index s) (pindexBestInvalid s);
  si_fork : opt_dom (index s) (pindexBestForkTip (warnings s));
  si_mark : stable → kept_best valid_block s
}.

(** Blocks that the store accepts stay eligible. *)
Definition progress s s' : Prop :=
  evolves (index s) (index s') ∧ (stable → ∀ q, eligible (index s) q → accepted_path valid_block (index s) q → eligible (index s') q).
(** Every block stays eligible, and none becomes a candidate. *)
Definition steady s s' : Prop :=
  evolves (index s) (index s') ∧ (∀ q, eligible (index s) q → eligible (index s') q) ∧ setBlockIndexCandidates s' ⊆ setBlockIndexCandidates s.
(** No candidate that can be connected is better than [p]; with stable verdicts no block. *)
Definition best s p : Prop :=
  (∀ q, q ∈ setBlockIndexCandidates s → eligible (index s) q → less (index s) p q = false) ∧
  (stable → ∀ q, eligible (index s) q → less (index s) p q = false).
(** The block to switch to. *)
Definition target s p : Prop := p ∈ setBlockIndexCandidates s ∧ eligible (index s) p ∧ best s p.

Lemma accepted_skel valid st st' p : same_skel st st' → accepted_path valid st p → accepted_path valid st' p.
Proof. intros Hs Ha q Hq. apply Ha. by eapply ancestor_skel, Hq; apply same_skel_sym. Qed.
Lemma progress_refl s : progress s s.
Proof. split; [apply evolves_refl|done]. Qed.
Lemma progress_trans s1 s2 s3 : progress s1 s2 → progress s2 s3 → progress s1 s3.
Proof.
  intros [E1 P1] [E2 P2]. split; [by eapply evolves_trans|]. intros Hst q H1 H2. apply P2; [done|by apply P1|]. by eapply accepted_skel, H2; apply E1.
Qed.
Lemma steady_progress s s' : steady s s' → progress s s'.
Proof. intros (E & H & _). split; [done|]. intros _ q Hq _. by apply H. Qed.
Lemma steady_refl s : steady s s.
Proof. split; [apply evolves_refl|done]. Qed.
Lemma steady_trans s1 s2 s3 : steady s1 s2 → steady s2 s3 → steady s1 s3.
Proof. intros (E1 & P1 & C1) (E2 & P2 & C2). split; [by eapply evolves_trans|]. split; [auto|set_solver]. Qed.
Lemma target_steady s s' p : steady s s' → target s p → p ∈ setBlockIndexCandidates s' → target s' p.
Proof.
  intros (E & H & Hc) (_ & He & Hb1 & Hb2) Hp. split; [done|]. split; [by apply H|]. split.
  - intros q Hq He'. rewrite (less_skel _ _ (ev_skel _ _ E)). apply Hb1; [by apply Hc|by eapply evolves_eligible].
  - intros Hst q Hq. rewrite (less_skel _ _ (ev_skel _ _ E)). apply Hb2; [done|by eapply evolves_eligible].
Qed.

Lemma inv_searched s s' t : select_inv s t → searched s s' → select_inv s' t.
Proof.
  intros [A1 A2 A3 A4 A5 A6 A7 A8 A9 A10 A11] Hse. pose proof (ev_skel _ _ (se_evolves _ _ Hse)) as Hsk.
  constructor.
  - by eapply heap_ok_skel.
  - by eapply work_grows_skel.
  - by eapply one_root_skel.
  - rewrite (se_active _ _ Hse). by apply (is_chain_skel _ _ Hsk).
  - by apply (se_eligible _ _ Hse).
  - intros H. by eapply accepted_skel, A6.
  - intros p Hp. apply (linked_skel _ _ _ Hsk), A7. by apply (se_subset _ _ Hse).
  - by rewrite (se_store _ _ Hse).
  - exact (se_invalid _ _ Hse A9).
  - rewrite (se_warnings _ _ Hse). by eapply opt_dom_skel.
  - intros H. destruct (A11 H) as (m & M1 & M2 & M3). exists m. split; [by apply (se_eligible _ _ Hse)|]. split; [by eapply accepted_skel|]. intros q Hq Hl. rewrite (less_skel _ _ Hsk) in Hl.
    pose proof (evolves_eligible _ _ _ (se_evolves _ _ Hse) Hq) as Hq'. apply (se_kept _ _ Hse); [by apply M3|done].
Qed.
Lemma inv_warnings s t (w : fork_warnings) : select_inv s t → opt_dom (index s) (pindexBestForkTip w) → select_inv (with_warnings s w) t.
Proof. intros [] Hw. by constructor. Qed.

Lemma FindMostWorkChain_ok s t : select_inv s t →
  ∃ o s', FindMostWorkChain s = Ok (o, s') ∧ select_inv s' t ∧ steady s s' ∧
    match o with Some p => target s' p | None => setBlockIndexCandidates s' = ∅ ∧ ¬ stable end.
Proof.
  intros Hinv. pose proof (si_heap _ _ Hinv) as Hst.
  destruct (find_most_work_spec t (set_size (setBlockIndexCandidates s)) s) as (o & s' & Hf & Hse & Ho);
    [done|exact (si_chain _ _ Hinv)|exact (si_tip _ _ Hinv)|exact (si_linked _ _ Hinv)|exact (si_invalid _ _ Hinv)|done|].
  exists o, s'. pose proof (inv_searched _ _ _ Hinv Hse) as Hinv'. split; [done|]. split; [done|]. split; [split; [apply Hse|split; apply Hse]|].
  assert (∀ m, eligible (index s) m → (∀ q, eligible (index s) q → less (index s) q m = false → q ∈ setBlockIndexCandidates s) → m ∈ setBlockIndexCandidates s') as Hkept.
  { intros m M1 M3. apply (se_kept _ _ Hse); [|done]. by apply M3; [|apply less_irrefl]. }
  destruct o as [p|]; [|split; [done|]; intros H; destruct (si_mark _ _ Hinv H) as (m & M1 & _ & M3); specialize (Hkept m M1 M3); set_solver].
  destruct Ho as (Hp & He & Hmax). split; [done|]. split; [done|]. split; [auto|]. intros Hstab q Hq.
  destruct (si_mark _ _ Hinv Hstab) as (m & M1 & _ & M3). specialize (Hkept m M1 M3).
  pose proof (ev_skel _ _ (se_evolves _ _ Hse)) as Hsk. pose proof (evolves_eligible _ _ _ (se_evolves _ _ Hse) Hq) as Hq0.
  destruct (less (index s) q m) eqn:Hl.
  - assert (less (index s') m q = false) as Hmq.
    { destruct (less (index s') m q) eqn:Hmq; [|done]. rewrite (less_skel _ _ Hsk) in Hmq. pose proof (less_trans _ Hst _ _ _ Hl Hmq). by rewrite less_irrefl in H. }
    apply (geq_trans _ (si_heap _ _ Hinv') q m p); [apply Hq|apply (se_eligible _ _ Hse m M1)|apply He|done|]. by apply Hmax.
  - apply Hmax, (se_kept _ _ Hse); [|done]. by apply M3.
Qed.

(** ** Moving the tip *)

Lemma tip_of s t : select_inv s t → tip s = Some t.
Proof. intros H. unfold tip. apply (chain_tip (index s)); [exact (si_heap _ _ H)|exact (si_chain _ _ H)]. Qed.

(** The steps down change the chain and the store only. *)
Definition moved s s' : Prop :=
  index s' = index s ∧ setBlockIndexCandidates s' = setBlockIndexCandidates s ∧ tree s' = tree s.

Lemma inv_move s t q c' st' : select_inv s t → ancestor (index s) q t → is_chain (index s) c' q → store_at st' q →
  select_inv (with_active (with_store s st') c') q.
Proof.
  intros [] Hq Hc Hs. constructor; try done.
  - by eapply eligible_ancestor.
  - intros H r Hr. apply (si_accepted0 H). by eapply ancestor_trans.
Qed.
Lemma DisconnectTip_ok s t b q : select_inv s t → index s !! t = Some b → pprev b = Some q →
  (∃ s', DisconnectTip s = Ok (Some s') ∧ select_inv s' q ∧ moved s s') ∨ (DisconnectTip s = Ok None ∧ node_failure CS).
Proof.
  intros Hinv Hb Hq. unfold DisconnectTip. rewrite (tip_of s t Hinv). unfold entry_of, deref. rewrite Hb. cbn [rbind].
  pose proof (disconnect_law (store s) (tree s) t b q Hb Hq (si_store _ _ Hinv)) as Hat.
  destruct (store_disconnect (store s) (tree s) t) as [st'|] eqn:Hdis; [left|right; split; [done|by exists (store s), (tree s), t; right]]. rewrite Hq. unfold UpdateTip.
  destruct (pprev_entry _ (si_heap _ _ Hinv) t b q Hb Hq) as (bq & Hbq & _).
  destruct (SetTip_spec _ (si_heap _ _ Hinv) (chainActive s) q bq (or_intror (ex_intro _ t (si_chain _ _ Hinv))) Hbq) as (c' & Hc & Hch).
  change (index (with_store s st')) with (index s). change (chainActive (with_store s st')) with (chainActive s). rewrite Hc. cbn [rbind].
  eexists. split; [done|]. split; [|done]. apply (inv_move s t); [done| |done|done]. eapply ancestor_step; [done|done|by eapply ancestor_refl].
Qed.

Lemma disconnect_to_ok f : ∀ fuel s t b, select_inv s t → index s !! t = Some b → bi_nHeight b <= Z.of_nat fuel → ancestor (index s) f t →
  ∃ r s' t', disconnect_to fuel s (Some f) = Ok (r, s') ∧ select_inv s' t' ∧ moved s s' ∧ if r : bool then t' = f else node_failure CS.
Proof.
  induction fuel as [|fuel IH]; intros s t b Hinv Hb Hf Hanc; cbn [disconnect_to]; rewrite (tip_of s t Hinv); case_bool_decide as Heq.
  1, 3: injection Heq as ->; exists true, s, f; repeat (split; [done|]); done.
  - inversion Hanc as [|? b' q ? Hb' Hq Hr]; simplify_eq. destruct (pprev_entry _ (si_heap _ _ Hinv) t b q Hb Hq) as (bq & Hbq & Hh).
    pose proof (entry_height _ (si_heap _ _ Hinv) q bq Hbq). lia.
  - inversion Hanc as [|? b' q ? Hb' Hq Hr]; simplify_eq. destruct (pprev_entry _ (si_heap _ _ Hinv) t b q Hb Hq) as (bq & Hbq & Hh).
    destruct (DisconnectTip_ok s t b q Hinv Hb Hq) as [(s1 & -> & Hinv1 & M1 & M2 & M3)|[-> Hfail]]; cbn [rbind];
      [|exists false, s, t; by repeat (split; [done|])].
    destruct (IH s1 q bq Hinv1) as (r & s' & t' & -> & Hinv' & (N1 & N2 & N3) & Hend); [by rewrite M1|lia|by rewrite M1|].
    exists r, s', t'. split; [done|]. split; [done|]. split; [|done]. unfold moved. by rewrite N1, N2, N3.
Qed.

Lemma FindFork_ok s t p : select_inv s t → is_Some (index s !! p) →
  ∃ f, FindFork (index s) (chainActive s) (Some p) = Ok (Some f) ∧ ancestor (index s) f p ∧ ancestor (index s) f t.
Proof.
  intros Hinv [b Hb]. pose proof (si_heap _ _ Hinv) as Hst. destruct (FindFork_spec _ Hst _ t p b (si_chain _ _ Hinv) Hb) as (r & Hr & Hcom). rewrite Hr.
  assert (∀ a h q, ancestor_at (index s) a h = Some q → ancestor (index s) q a) as Hanc.
  { intros a h q Ha. destruct (ancestor_at_range _ Hst a h q Ha) as (ba & bq & Hba & _ & Hbq & <-). by apply (ancestor_at_iff _ Hst a ba q bq). }
  destruct r as [f|]; [destruct Hcom as (h & H1 & H2 & _); exists f; eauto|]. exfalso.
  destruct (si_chain _ _ Hinv) as (bt & Hbt & _). destruct (root_reached _ Hst p b Hb) as (r & br & Hr1 & Hbr & Hpr), (root_reached _ Hst t bt Hbt) as (r' & br' & Hr2 & Hbr' & Hpr').
  assert (r' = r) as -> by by apply (si_root _ _ Hinv r' br' r br). simplify_eq. apply (ancestor_at_iff _ Hst p b r br) in Hr1; [|done..]. apply (ancestor_at_iff _ Hst t bt r br) in Hr2; [|done..].
  assert (ancestor_at (index s) p (bi_nHeight br) = None) by (apply Hcom; congruence). congruence.
Qed.

(** ** Connecting *)

Lemma eligible_good st p b : eligible st p → st !! p = Some b → good b.
Proof. intros [_ Hg] Hb. apply (Hg p); [by eapply ancestor_refl|done]. Qed.

(** A new status of one block that keeps its data and failures. *)
Lemma steady_entry s s' p b n : index s !! p = Some b → index s' = alter (fun _ => set_nStatus b n) p (index s) →
  is_failed (set_nStatus b n) = is_failed b → has_data (set_nStatus b n) = has_data b → setBlockIndexCandidates s' = setBlockIndexCandidates s → steady s s'.
Proof.
  intros Hb Hi Hf Hd Hcs. assert (∀ q bq', index s' !! q = Some bq' → ∃ bq, index s !! q = Some bq ∧ is_failed bq' = is_failed bq ∧ has_data bq' = has_data bq ∧ ∃ k, bq' = set_nStatus bq k) as Hall.
  { intros q bq' Hq. rewrite Hi in Hq. destruct (decide (q = p)) as [->|Hne].
    - rewrite lookup_alter_eq, Hb in Hq. injection Hq as <-. exists b. split_and!; try done. by eexists.
    - rewrite lookup_alter_ne in Hq by done. exists bq'. split_and!; try done. exists (nStatus bq'). by destruct bq'. }
  assert (same_skel (index s) (index s')) as Hsk.
  { rewrite Hi. intros q. destruct (decide (q = p)) as [->|Hne]; [rewrite lookup_alter_eq, Hb|by rewrite lookup_alter_ne]. by destruct b. }
  split; [|split; [|by rewrite Hcs]].
  - split; [done|]. intros q bq bq' Hq Hq'. destruct (Hall q bq' Hq') as (b0 & ? & -> & -> & _). by simplify_eq.
  - intros q [[bq Hbq] Hg]. split; [destruct (skel_some _ _ Hsk q bq Hbq) as (? & ? & _); by eexists|]. intros r br' Hr Hbr'.
    destruct (Hall r br' Hbr') as (br & Hbr & F & D & k & ->). destruct (Hg r br) as (G1 & G2 & G3); [by eapply ancestor_skel, Hr; apply same_skel_sym|done|].
    unfold good. rewrite F, D. done.
Qed.

Lemma inv_connected s t p b s1 : select_inv s t → index s !! p = Some b → pprev b = Some t → eligible (index s) p → (stable → valid_block p) →
  steady s s1 → is_chain (index s1) (chainActive s1) p → store_at (store s1) p → setBlockIndexCandidates s1 = setBlockIndexCandidates s →
  pindexBestInvalid s1 = pindexBestInvalid s → warnings s1 = warnings s → select_inv s1 p.
Proof.
  intros [A1 A2 A3 A4 A5 A6 A7 A8 A9 A10 A11] Hb Hp He Hv (Hev & Hel & _) Hc Hs Hcs Hi Hw. pose proof (ev_skel _ _ Hev) as Hsk. constructor.
  - by eapply heap_ok_skel.
  - by eapply work_grows_skel.
  - by eapply one_root_skel.
  - done.
  - by apply Hel.
  - intros H. eapply accepted_skel; [done|]. intros q Hq. inversion Hq as [? b1 Hb1|? b1 t1 ? Hb1 Ht1 Hq1]; simplify_eq; [by apply Hv|]. by apply (A6 H).
  - rewrite Hcs. intros q Hq. by eapply linked_skel, A7.
  - done.
  - rewrite Hi. by eapply opt_dom_skel.
  - rewrite Hw. by eapply opt_dom_skel.
  - intros H. destruct (A11 H) as (m & M1 & M2 & M3). exists m. split; [by apply Hel|]. split; [by eapply accepted_skel|]. intros q Hq Hl. rewrite Hcs. rewrite (less_skel _ _ Hsk) in Hl.
    apply M3; [by eapply evolves_eligible|done].
Qed.

Lemma Prune_ok s p w : select_inv s p → w ∈ setBlockIndexCandidates s → less (index s) w p = false →
  ∃ s', PruneBlockIndexCandidates s = Ok s' ∧ select_inv s' p ∧ steady s s' ∧ w ∈ setBlockIndexCandidates s' ∧ index s' = index s.
Proof.
  intros Hinv Hw Hl. unfold PruneBlockIndexCandidates. rewrite (tip_of s p Hinv). set (c := filter _ _). assert (w ∈ c) as Hwc by (by apply elem_of_filter).
  rewrite bool_decide_false by set_solver. eexists. split; [done|]. split; [|split; [split; [apply evolves_refl|split; [done|unfold c; cbn; set_solver]]|done]].
  destruct Hinv as [A1 A2 A3 A4 A5 A6 A7 A8 A9 A10 A11]. constructor; try done.
  - intros q Hq. apply A7. cbn in Hq. set_solver.
  - intros H. destruct (A11 H) as (m & M1 & M2 & M3). specialize (A6 H).
    destruct (less (index s) p m) eqn:Hpm; [exists m|exists p]; (split; [done|]; split; [done|]); intros q Hq Hlq; change (index (with_candidates s c)) with (index s) in *; apply elem_of_filter; cbn.
    + split; [|by apply M3]. destruct (less (index s) q p) eqn:Hqp; [|done]. by rewrite (less_trans _ A1 _ _ _ Hqp Hpm) in Hlq.
    + split; [done|]. apply M3; [done|]. apply (geq_trans _ A1 m p q); [apply M1|apply A5|apply Hq|done|done].
Qed.

(** A block the store rejects. *)
Lemma inv_invalid s t p b : select_inv s t → index s !! p = Some b → pprev b = Some t → ¬ ancestor (index s) p t → (stable → ¬ valid_block p) →
  let s1 := erase_candidate (mark_dirty (with_failed (update_entry s p (or_status BLOCK_FAILED_VALID)) ({[p]} ∪ g_failed_blocks s)) p) p in
  select_inv s1 t ∧ progress s s1.
Proof.
  intros [A1 A2 A3 A4 A5 A6 A7 A8 A9 A10 A11] Hb Hp Hnt Hv s1. assert (evolves (index s) (index s1)) as Hev by by apply evolves_or.
  pose proof (ev_skel _ _ Hev) as Hsk.
  assert (∀ q, eligible (index s) q → ¬ ancestor (index s) p q → eligible (index s1) q) as Hkeep.
  { intros q [[bq Hbq] Hg] Hn. split; [destruct (skel_some _ _ Hsk q bq Hbq) as (? & ? & _); by eexists|]. intros r br Hr Hbr.
    apply (ancestor_skel _ _ _ _ (same_skel_sym _ _ Hsk)) in Hr. apply (Hg r); [done|]. rewrite <- Hbr. symmetry. apply lookup_alter_ne. by intros ->. }
  assert (stable → ∀ q, accepted_path valid_block (index s) q → ¬ ancestor (index s) p q) as Hacc by (intros H q Hq Ha; by apply (Hv H), Hq).
  split; [|split; [done|auto]]. constructor.
  - by eapply heap_ok_skel.
  - by eapply work_grows_skel.
  - by eapply one_root_skel.
  - by apply (is_chain_skel _ _ Hsk).
  - auto.
  - intros H. by eapply accepted_skel, A6.
  - intros q Hq. eapply linked_skel, A7; [done|]. cbn in Hq. set_solver.
  - done.
  - by eapply opt_dom_skel.
  - by eapply opt_dom_skel.
  - intros H. destruct (A11 H) as (m & M1 & M2 & M3). exists m. split; [auto|]. split; [by eapply accepted_skel|]. intros q Hq Hl. rewrite (less_skel _ _ Hsk) in Hl. cbn.
    pose proof (evolves_eligible _ _ _ Hev Hq) as Hq0. apply elem_of_difference. split; [by apply M3|]. intros ->%elem_of_singleton.
    assert (index s1 !! p = Some (or_status BLOCK_FAILED_VALID b)) as Hb1.
    { change (index s1) with (alter (or_status BLOCK_FAILED_VALID) p (index s)). by rewrite lookup_alter_eq, Hb. }
    destruct (eligible_good _ _ _ Hq Hb1) as (G & _).
    unfold is_failed, flag_set, or_status in G. cbn [nStatus set_nStatus] in G. apply negb_false_iff, Z.eqb_eq in G. rewrite Z.land_lor_distr_l in G. apply Z.lor_eq_0_iff in G as [_ G]. done.
Qed.

Lemma InvalidChainFound_ok s t p : select_inv s t → is_Some (index s !! p) →
  ∃ s', InvalidChainFound fInitialDownload s p = Ok s' ∧ select_inv s' t ∧ index s' = index s ∧ setBlockIndexCandidates s' = setBlockIndexCandidates s.
Proof.
  intros Hinv Hp. unfold InvalidChainFound. destruct (note_invalid_spec s p (si_heap _ _ Hinv) Hp (si_invalid _ _ Hinv)) as (i & -> & Hi). cbn [rbind].
  change (tip (with_best_invalid s i)) with (tip s). rewrite (tip_of s t Hinv).
  assert (select_inv (with_best_invalid s i) t) as Hinv1 by (destruct Hinv; by constructor).
  destruct (CheckForkWarningConditions_ok fInitialDownload _ t (si_heap _ _ Hinv1) (si_chain _ _ Hinv1) (si_invalid _ _ Hinv1) (si_fork _ _ Hinv1)) as (w & -> & Hw).
  eexists. split; [done|]. split; [by apply inv_warnings|done].
Qed.

(** ** A measure *)

Definition unfailed (st : heap) : gset ptr := dom (filter (fun kv => is_failed kv.2 = false) st).
Definition higher (st : heap) (w : Z) : gset ptr := dom (filter (fun kv => w < val (nChainWork kv.2)) st).
Lemma elem_unfailed st p : p ∈ unfailed st ↔ ∃ b, st !! p = Some b ∧ is_failed b = false.
Proof. unfold unfailed. rewrite elem_of_dom. unfold is_Some. setoid_rewrite map_lookup_filter_Some. naive_solver. Qed.
Lemma elem_higher st (w : Z) p : p ∈ higher st w ↔ ∃ b, st !! p = Some b ∧ w < val (nChainWork b).
Proof. unfold higher. rewrite elem_of_dom. unfold is_Some. setoid_rewrite map_lookup_filter_Some. naive_solver. Qed.
Lemma evolves_unfailed st st' : evolves st st' → unfailed st' ⊆ unfailed st.
Proof.
  intros [Hs He] p. rewrite !elem_unfailed. intros (b' & Hb' & Hf). destruct (skel_some _ _ (same_skel_sym _ _ Hs) p b' Hb') as (b & Hb & _). exists b. split; [done|].
  destruct (is_failed b) eqn:E; [|done]. destruct (He p b b' Hb Hb') as [_ H]. by rewrite H in Hf.
Qed.
Lemma higher_skel st st' (w : Z) : same_skel st st' → higher st' w = higher st w.
Proof.
  intros Hs. apply leibniz_equiv. intros p. rewrite !elem_higher. split; intros (b & Hb & Hw).
  - destruct (skel_some _ _ (same_skel_sym _ _ Hs) p b Hb) as (b' & Hb' & n & ->). by eexists.
  - destruct (skel_some _ _ Hs p b Hb) as (b' & Hb' & n & ->). by eexists.
Qed.
Lemma size_skel st st' : same_skel st st' → size st' = size st.
Proof.
  intros Hs. rewrite <- !size_dom. f_equal. apply leibniz_equiv. intros p. rewrite !elem_of_dom. split; intros [b Hb].
  - destruct (skel_some _ _ (same_skel_sym _ _ Hs) p b Hb) as (b' & Hb' & _). by eexists.
  - destruct (skel_some _ _ Hs p b Hb) as (b' & Hb' & _). by eexists.
Qed.
Lemma unfailed_size st : (size (unfailed st) <= size st)%nat.
Proof. rewrite <- size_dom. apply subseteq_size. unfold unfailed. apply subseteq_dom, map_filter_subseteq. Qed.
Lemma higher_size st (w : Z) : (size (higher st w) <= size st)%nat.
Proof. rewrite <- size_dom. apply subseteq_size. unfold higher. apply subseteq_dom, map_filter_subseteq. Qed.

Definition measure_of (st : heap) (w : Z) : nat := (size (unfailed st) * S (size st) + size (higher st w))%nat.
(** A new failure, or a better tip, lowers the measure. *)
Lemma measure_failed st st' (w w' : Z) p : evolves st st' → p ∈ unfailed st → p ∉ unfailed st' → (measure_of st' w' < measure_of st w)%nat.
Proof.
  intros He Hp Hp'. assert (unfailed st' ⊂ unfailed st) as Hss%subset_size by (split; [by apply evolves_unfailed|set_solver]).
  unfold measure_of. rewrite (size_skel _ _ (ev_skel _ _ He)). pose proof (higher_size st' w') as Hh. rewrite (size_skel _ _ (ev_skel _ _ He)) in Hh. nia.
Qed.
Lemma measure_better st st' (w w' : Z) p b : evolves st st' → st !! p = Some b → val (nChainWork b) = w' → w < w' → (measure_of st' w' < measure_of st w)%nat.
Proof.
  intros He Hb Hw' Hlt. pose proof (subseteq_size _ _ (evolves_unfailed _ _ He)) as Hu. unfold measure_of. rewrite (size_skel _ _ (ev_skel _ _ He)), (higher_skel _ _ _ (ev_skel _ _ He)).
  assert (higher st w' ⊂ higher st w) as Hss%subset_size; [|nia]. split.
  - intros q. rewrite !elem_higher. intros (bq & Hbq & Hq). exists bq. split; [done|lia].
  - intros H. specialize (H p). rewrite !elem_higher in H. destruct H as (b' & Hb' & H); [exists b; split; [done|lia]|]. simplify_eq. lia.
Qed.
Lemma measure_bound st (w : Z) : (measure_of st w < S (size st) * S (size st))%nat.
Proof. unfold measure_of. pose proof (unfailed_size st). pose proof (higher_size st w). nia. Qed.

Definition tip_work s t : Z := match index s !! t with Some b => val (nChainWork b) | None => 0 end.

(** ** One block *)

Lemma or_failed b : is_failed (or_status BLOCK_FAILED_VALID b) = true.
Proof.
  unfold is_failed, flag_set, or_status. cbn [nStatus set_nStatus]. apply negb_true_iff, Z.eqb_neq. rewrite Z.land_lor_distr_l. intros [_ H]%Z.lor_eq_0_iff. done.
Qed.

Lemma child_above st p b t : heap_ok st → st !! p = Some b → pprev b = Some t → ¬ ancestor st p t.
Proof.
  intros Hst Hb Hp Ha. destruct (pprev_entry _ Hst p b t Hb Hp) as (bt & Hbt & Hh), (ancestor_dom _ Hst p t Ha) as (? & ? & ? & ? & ?). simplify_eq. lia.
Qed.
Lemma ConnectTip_ok s t p b w : select_inv s t → index s !! p = Some b → pprev b = Some t → ancestor (index s) p w → eligible (index s) w → w ∈ setBlockIndexCandidates s →
  (∃ s1, ConnectTip fInitialDownload s p = Ok (TipConnected, s1) ∧ select_inv s1 p ∧ steady s s1 ∧ w ∈ setBlockIndexCandidates s1) ∨
  (∃ s1, ConnectTip fInitialDownload s p = Ok (TipInvalid false, s1) ∧ select_inv s1 t ∧ progress s s1 ∧ p ∈ unfailed (index s) ∧ p ∉ unfailed (index s1)) ∨
  (ConnectTip fInitialDownload s p = Ok (TipFailed, s) ∧ node_failure CS).
Proof.
  intros Hinv Hb Hp Ha He Hw. pose proof (si_heap _ _ Hinv) as Hst. pose proof (eligible_ancestor _ _ _ Hst He Ha) as Hep. unfold ConnectTip, entry_of, deref. rewrite Hb. cbn [rbind].
  rewrite (tip_of s t Hinv), Hp, bool_decide_true by done. cbn [negb].
  pose proof (connect_law (store s) (tree s) p b t Hb Hp (si_store _ _ Hinv)) as Hlaw.
  destruct (store_connect (store s) (tree s) p) as [st' e|corruption|] eqn:Hcon; [| |right; right; split; [done|by exists (store s), (tree s), p; left]].
  - left. destruct Hlaw as ((n & -> & Hf & Hd) & Hat & Hv). set (s1 := mark_dirty _ p). assert (steady s s1) as Hsd by by apply (steady_entry s s1 p b n).
    pose proof (heap_ok_skel _ _ (ev_skel _ _ (proj1 Hsd)) Hst) as Hst1. unfold UpdateTip.
    assert (index s1 !! p = Some (set_nStatus b n)) as Hb1 by (change (index s1) with (alter (fun _ => set_nStatus b n) p (index s)); by rewrite lookup_alter_eq, Hb).
    destruct (SetTip_spec _ Hst1 (chainActive s1) p _ (or_intror (ex_intro _ t (is_chain_skel _ _ (ev_skel _ _ (proj1 Hsd)) _ _ (si_chain _ _ Hinv)))) Hb1) as (c' & -> & Hc). cbn [rbind].
    exists (with_active s1 c'). split; [done|]. split; [|done]. by apply (inv_connected s t p b).
  - right. left. destruct Hlaw as [-> Hv]. unfold InvalidBlockFound.
    destruct (inv_invalid s t p b Hinv Hb Hp (child_above _ _ _ _ Hst Hb Hp) Hv) as [Hinv1 Hpr]. set (s1 := erase_candidate _ p) in *.
    assert (index s1 !! p = Some (or_status BLOCK_FAILED_VALID b)) as Hb1 by (change (index s1) with (alter (or_status BLOCK_FAILED_VALID) p (index s)); by rewrite lookup_alter_eq, Hb).
    change (erase_candidate (mark_dirty _ p) p) with s1. destruct (InvalidChainFound_ok s1 t p Hinv1 (mk_is_Some _ _ Hb1)) as (s2 & -> & Hinv2 & Hi & Hc). cbn [rbind].
    exists s2. split; [done|]. split; [done|]. unfold progress. rewrite Hi. split; [done|]. rewrite !elem_unfailed. split; [exists b; split; [done|apply (eligible_good _ _ _ Hep Hb)]|].
    intros (b' & Hb' & Hf'). simplify_eq. by rewrite or_failed in Hf'.
Qed.

(** ** A path of blocks *)

(** Each block is the parent of the next, from [t] up to [top]. *)
Fixpoint climbs (st : heap) t (blocks : list ptr) (top : ptr) : Prop :=
  match blocks with
  | [] => t = top
  | p :: blocks => (∃ b, st !! p = Some b ∧ pprev b = Some t) ∧ climbs st p blocks top
  end.
Lemma climbs_skel st st' blocks top : same_skel st st' → ∀ t, climbs st t blocks top → climbs st' t blocks top.
Proof.
  intros Hs. induction blocks as [|p blocks IH]; intros t; [done|]. intros ((b & Hb & Hp) & Hc). destruct (skel_some _ _ Hs p b Hb) as (b' & Hb' & n & ->).
  split; [by eexists|by apply IH].
Qed.
Lemma climbs_ancestor st blocks top : ∀ t, is_Some (st !! t) → climbs st t blocks top → ancestor st t top.
Proof.
  induction blocks as [|p blocks IH]; intros t [bt Ht] Hc; [rewrite <- Hc; by eapply ancestor_refl|]. destruct Hc as ((b & Hb & Hp) & Hc).
  eapply ancestor_trans; [|by apply IH, Hc; eexists]. eapply ancestor_step; [done|done|by eapply ancestor_refl].
Qed.
Lemma climbs_app st l1 l2 top : ∀ t mid, climbs st t l1 mid → climbs st mid l2 top → climbs st t (l1 ++ l2) top.
Proof. induction l1 as [|p l1 IH]; intros t mid; cbn; [by intros ->|]. intros [Hp H1] H2. split; [done|by eapply IH]. Qed.

Lemma ancestor_geq s t p w : select_inv s t → ancestor (index s) p w → less (index s) w p = false.
Proof.
  intros Hinv Ha. pose proof (si_heap _ _ Hinv) as Hst. destruct (ancestor_dom _ Hst p w Ha) as (bw & bp & Hbw & Hbp & _).
  destruct (decide (w = p)) as [->|Hne]; [by apply less_irrefl|]. eapply (less_lt _ Hst p w bp bw); [done|done|]. by apply (ancestor_work _ Hst w p bw bp (si_work _ _ Hinv)).
Qed.

Definition outcome_ok s w (e : connect_end) s' t' (top : ptr) (work : Z) : Prop :=
  match e with
  | AllConnected => t' = top ∧ steady s s' ∧ target s' w
  | BetterTip => steady s s' ∧ target s' w ∧ ancestor (index s') t' w ∧ work < tip_work s' t'
  | InvalidFound => progress s s' ∧ ∃ x, x ∈ unfailed (index s) ∧ x ∉ unfailed (index s')
  | NodeFailed => progress s s' ∧ node_failure CS
  end.
Lemma outcome_steady s0 s w e s' t' top work : steady s0 s → outcome_ok s w e s' t' top work → outcome_ok s0 w e s' t' top work.
Proof.
  intros Hs. destruct e; cbn.
  - intros (? & ? & ?). split; [done|]. split; [by eapply steady_trans|done].
  - intros (? & ? & ? & ?). split; [by eapply steady_trans|done].
  - intros (? & x & Hx & ?). split; [eapply progress_trans; [by apply steady_progress|done]|]. exists x. split; [|done]. by apply (evolves_unfailed _ _ (proj1 Hs)).
  - intros [? ?]. split; [eapply progress_trans; [by apply steady_progress|done]|done].
Qed.

Lemma connect_blocks_ok o lowest top w work : ∀ blocks s t, select_inv s t → climbs (index s) t blocks top → ancestor (index s) top w → target s w →
  (∃ bo, index s !! o = Some bo ∧ val (nChainWork bo) = work) → is_Some (index s !! lowest) →
  ∃ e s' t', connect_blocks fInitialDownload s (Some o) lowest blocks = Ok (e, s') ∧ select_inv s' t' ∧ outcome_ok s w e s' t' top work.
Proof.
  induction blocks as [|p blocks IH]; intros s t Hinv Hc Ha Ht (bo & Hbo & Hwo) Hlow; cbn [connect_blocks].
  { rewrite <- Hc. exists AllConnected, s, t. split; [done|]. split; [done|]. split; [done|]. split; [apply steady_refl|done]. }
  destruct Hc as ((b & Hb & Hp) & Hc). pose proof (climbs_ancestor _ _ _ _ (mk_is_Some _ _ Hb) Hc) as Hpt.
  destruct Ht as (Hw & He & Hmax). pose proof (ancestor_trans _ _ _ _ Hpt Ha) as Hpw.
  destruct (ConnectTip_ok s t p b w Hinv Hb Hp Hpw He Hw) as [(s1 & -> & Hinv1 & Hsd & Hw1)|[(s1 & -> & Hinv1 & Hpr & Hx1 & Hx2)|[-> Hfail]]]; cbn [rbind].
  - pose proof (ev_skel _ _ (proj1 Hsd)) as Hsk. assert (less (index s1) w p = false) as Hl by (eapply ancestor_geq; [done|by eapply ancestor_skel]).
    destruct (Prune_ok s1 p w Hinv1 Hw1 Hl) as (s2 & -> & Hinv2 & Hsd2 & Hw2 & Hi2). cbn [rbind].
    pose proof (steady_trans _ _ _ Hsd Hsd2) as Hsd'. pose proof (ev_skel _ _ (proj1 Hsd')) as Hsk'. pose proof (target_steady s s2 w Hsd' (conj Hw (conj He Hmax)) Hw2) as Ht2.
    unfold tip_entry. rewrite (tip_of s2 p Hinv2). unfold entry_of, deref. destruct (skel_some _ _ Hsk' p b Hb) as (bp & Hbp & n & ->). rewrite Hbp. cbn [rbind].
    destruct (skel_some _ _ Hsk' o bo Hbo) as (bo' & Hbo' & n' & ->). unfold opt_entry, entry_of, deref. rewrite Hbo'. cbn [rbind].
    destruct (gtb _ _) eqn:Hg.
    + exists BetterTip, s2, p. split; [done|]. split; [done|]. split; [done|]. split; [done|]. split; [by eapply ancestor_skel|].
      unfold tip_work. rewrite Hbp. cbn [nChainWork set_nStatus] in *.
      rewrite gtb_spec in Hg; [|by eapply (entry_work (index s) (si_heap _ _ Hinv)), Hb|by eapply (entry_work (index s) (si_heap _ _ Hinv)), Hbo]. apply Z.gtb_lt in Hg. lia.
    + destruct (IH s2 p Hinv2) as (e & s' & t' & -> & Hinv' & Ho); [by eapply climbs_skel|by eapply ancestor_skel|done|by exists (set_nStatus bo n')| |].
      { destruct Hlow as [bl Hbl]. destruct (skel_some _ _ Hsk' lowest bl Hbl) as (? & ? & _). by eexists. }
      exists e, s', t'. split; [done|]. split; [done|]. by eapply outcome_steady.
  - destruct (InvalidChainFound_ok s1 t lowest Hinv1) as (s2 & -> & Hinv2 & Hi & _).
    { destruct Hlow as [bl Hbl]. destruct (skel_some _ _ (ev_skel _ _ (proj1 Hpr)) lowest bl Hbl) as (? & ? & _). by eexists. }
    exists InvalidFound, s2, t. split; [done|]. split; [done|]. cbn. unfold progress. rewrite Hi. split; [done|]. by exists p.
  - exists NodeFailed, s, t. split; [done|]. split; [done|]. split; [apply progress_refl|done].
Qed.

(** From [a] down to its ancestor [f]: a path from [f] up to [a]. *)
Lemma collect_path_ok st f bf (Hst : heap_ok st) : st !! f = Some bf → ∀ fuel a ba, st !! a = Some ba → ancestor st f a → bi_nHeight ba - bi_nHeight bf <= Z.of_nat fuel →
  ∃ l, collect_path fuel st (Some a) (bi_nHeight bf) = Ok l ∧ climbs st f (rev l) a.
Proof.
  intros Hbf. induction fuel as [|fuel IH]; intros a ba Hba Ha Hf; cbn [collect_path]; unfold deref; rewrite Hba; cbn [rbind];
    destruct (ancestor_dom st Hst f a Ha) as (? & ? & ? & ? & Hle); simplify_eq; destruct (Z.eqb_spec (bi_nHeight ba) (bi_nHeight bf)) as [Heq|Hne].
  1, 3: exists []; split; [done|]; inversion Ha as [|? b1 q ? Hb1 Hq Hr]; simplify_eq; [done|]; exfalso;
    destruct (pprev_entry st Hst a ba q Hba Hq) as (bq & Hbq & Hh), (ancestor_dom st Hst f q Hr) as (? & ? & ? & ? & ?); simplify_eq; lia.
  - lia.
  - inversion Ha as [|? b1 q ? Hb1 Hq Hr]; simplify_eq. rewrite Hq. destruct (pprev_entry st Hst a ba q Hba Hq) as (bq & Hbq & Hh).
    destruct (IH q bq Hbq Hr ltac:(lia)) as (l & -> & Hl). cbn [rbind]. exists (a :: l). split; [done|]. cbn [rev]. eapply climbs_app; [done|]. cbn. split; [by eexists|done].
Qed.

Lemma collect_group s t bt w bw : select_inv s t → index s !! t = Some bt → index s !! w = Some bw → ancestor (index s) t w → bi_nHeight bt <> bi_nHeight bw →
  let target := Z.min (bi_nHeight bt + 32) (bi_nHeight bw) in
  ∃ a ba l x, GetAncestor (index s) w target = Ok (Some a) ∧ index s !! a = Some ba ∧ bi_nHeight ba = target ∧ ancestor (index s) a w ∧
    collect_path (Z.to_nat (target + 1)) (index s) (Some a) (bi_nHeight bt) = Ok l ∧ climbs (index s) t (rev l) a ∧ List.last (map Some l) None = Some x ∧ is_Some (index s !! x).
Proof.
  intros Hinv Hbt Hbw Ha Hne. pose proof (si_heap _ _ Hinv) as Hst. destruct (ancestor_dom _ Hst t w Ha) as (? & ? & ? & ? & Hle). simplify_eq. intros tgt.
  pose proof (entry_height _ Hst t bt Hbt). rewrite (GetAncestor_spec _ Hst w bw) by done.
  destruct (ancestor_at_spec _ Hst w bw tgt Hbw ltac:(unfold tgt; lia)) as (a & ba & Hat & Hba & Hh & _).
  assert (ancestor (index s) a w) as Haw by (apply (ancestor_at_iff _ Hst w bw a ba); [done|done|by rewrite Hh]).
  assert (ancestor (index s) t a) as Hta.
  { destruct (ancestor_linear _ w t a Ha Haw) as [|Hat']; [done|]. destruct (ancestor_dom _ Hst a t Hat') as (b1 & b2 & Hb1 & Hb2 & ?). rewrite Hbt in Hb1. rewrite Hba in Hb2. injection Hb1 as <-. injection Hb2 as <-. unfold tgt in *. lia. }
  destruct (collect_path_ok _ t bt Hst Hbt (Z.to_nat (tgt + 1)) a ba Hba Hta) as (l & Hl & Hc); [unfold tgt in *; lia|].
  destruct (rev l) as [|x xs] eqn:Hrev; [cbn in Hc; rewrite Hc, Hba in Hbt; injection Hbt as ->; unfold tgt in *; lia|]. exists a, ba, l, x. rewrite Hat.
  assert (l = rev xs ++ [x]) as -> by (rewrite <- (rev_involutive l), Hrev; done). destruct Hc as ((b & Hb & Hp) & Hc).
  split; [done|]. split; [done|]. split; [done|]. split; [done|]. split; [done|]. split; [rewrite Hrev; split; [by eexists|done]|]. split; [rewrite map_app; apply List.last_last|by eexists].
Qed.

Lemma connect_groups_ok o w work : ∀ fuel s t bt bw last, select_inv s t → index s !! t = Some bt → index s !! w = Some bw → ancestor (index s) t w → target s w →
  bi_nHeight bw - bi_nHeight bt <= Z.of_nat fuel → (∃ bo, index s !! o = Some bo ∧ val (nChainWork bo) = work) →
  ∃ e last' s' t', connect_groups fInitialDownload fuel s (Some o) w (bi_nHeight bt) last = Ok (e, last', s') ∧ select_inv s' t' ∧ outcome_ok s w e s' t' w work ∧
    (e = InvalidFound → ∃ x, last' = Some x ∧ is_Some (index s' !! x)).
Proof.
  induction fuel as [|fuel IH]; intros s t bt bw last Hinv Hbt Hbw Ha Ht Hf Ho; cbn [connect_groups]; unfold entry_of, deref; rewrite Hbw; cbn [rbind];
    pose proof (si_heap _ _ Hinv) as Hst; destruct (ancestor_dom _ Hst t w Ha) as (? & ? & ? & ? & Hle); simplify_eq; destruct (Z.eqb_spec (bi_nHeight bt) (bi_nHeight bw)) as [Heq|Hne].
  1, 3: exists AllConnected, last, s, t; split; [done|]; split; [done|]; split; [|done]; split; [|split; [apply steady_refl|done]];
    apply (ancestor_at_iff _ Hst w bw t bt) in Ha; [|done..]; rewrite Heq, (ancestor_at_self _ Hst w bw Hbw) in Ha; by simplify_eq.
  { lia. }
  destruct (collect_group s t bt w bw Hinv Hbt Hbw Ha Hne) as (a & ba & l & x & -> & Hba & Hh & Haw & Hcp & Hc & Hlast & Hx). cbn [rbind]. rewrite Hcp. cbn [rbind]. rewrite Hlast.
  destruct (connect_blocks_ok o x a w work (rev l) s t Hinv Hc Haw Ht Ho Hx) as (e & s1 & t1 & -> & Hinv1 & Hout). cbn [rbind].
  assert (same_skel (index s) (index s1)) as Hsk by (destruct e; cbn in Hout; apply Hout).
  assert (is_Some (index s1 !! x)) as Hx1 by (destruct Hx as [bx Hbx]; destruct (skel_some _ _ Hsk x bx Hbx) as (? & ? & _); by eexists).
  destruct e; cbn in Hout.
  - destruct Hout as (-> & Hsd & Ht1). destruct (skel_some _ _ Hsk a ba Hba) as (ba' & Hba' & n & ->), (skel_some _ _ Hsk w bw Hbw) as (bw' & Hbw' & n' & ->).
    change (Z.min _ _) with (Z.min (bi_nHeight bt + 32) (bi_nHeight bw)). rewrite <- Hh. change (bi_nHeight ba) with (bi_nHeight (set_nStatus ba n)).
    destruct (IH s1 a _ _ (Some x) Hinv1 Hba' Hbw') as (e & last' & s' & t' & -> & Hinv' & Hout & Hi).
    + by eapply ancestor_skel.
    + done.
    + cbn. lia.
    + destruct Ho as (bo & Hbo & Hw). destruct (skel_some _ _ Hsk o bo Hbo) as (? & ? & k & ->). by eexists.
    + exists e, last', s', t'. split; [done|]. split; [done|]. split; [by eapply outcome_steady|done].
  - exists BetterTip, (Some x), s1, t1. split; [done|]. split; [done|]. split; [done|done].
  - exists InvalidFound, (Some x), s1, t1. split; [done|]. split; [done|]. split; [done|]. intros _. by exists x.
  - exists NodeFailed, (Some x), s1, t1. split; [done|]. split; [done|]. done.
Qed.

Lemma target_same s s' p : index s' = index s → setBlockIndexCandidates s' = setBlockIndexCandidates s → target s p → target s' p.
Proof. unfold target, best. by intros -> ->. Qed.

Lemma ActivateBestChainStep_ok s t p : select_inv s t → target s p →
  ∃ r fInvalid s' t', ActivateBestChainStep fInitialDownload s p = Ok (r, fInvalid, s') ∧ select_inv s' t' ∧
    if negb r then progress s s' ∧ node_failure CS
    else if fInvalid : bool then progress s s' ∧ ∃ x, x ∈ unfailed (index s) ∧ x ∉ unfailed (index s')
    else steady s s' ∧ target s' p ∧ (t' = p ∨ tip_work s t < tip_work s' t').
Proof.
  intros Hinv Ht. unfold ActivateBestChainStep. pose proof Ht as (Hp & He & Hmax). destruct He as [[bp Hbp] _]. destruct (si_chain _ _ Hinv) as (bt & Hbt & Hlen & _).
  destruct (FindFork_ok s t p Hinv (mk_is_Some _ _ Hbp)) as (f & -> & Hfp & Hft). cbn [rbind].
  destruct (disconnect_to_ok f (length (chainActive s)) s t bt Hinv Hbt ltac:(lia) Hft) as (r & s1 & f' & -> & Hinv1 & (Hi & Hcs & Htr) & Hend). cbn [rbind].
  assert (steady s s1) as Hsd by (split; [rewrite Hi; apply evolves_refl|split; [by rewrite Hi|by rewrite Hcs]]).
  destruct r; [subst f'|exists false, false, s1, f'; split; [done|]; split; [done|]; split; [by apply steady_progress|done]].
  destruct (ancestor_dom _ (si_heap _ _ Hinv) f p Hfp) as (? & bf & ? & Hbf & Hle). simplify_eq. unfold opt_entry, entry_of, deref. rewrite Hi, Hbf. cbn [rbind]. rewrite Hbp. cbn [rbind].
  rewrite (tip_of s t Hinv). destruct (connect_groups_ok t p (val (nChainWork bt)) (Z.to_nat (bi_nHeight bp - bi_nHeight bf)) s1 f bf bp None Hinv1) as (e & last & s2 & t2 & -> & Hinv2 & Hout & Hlast);
    [by rewrite Hi|by rewrite Hi|by rewrite Hi|by eapply target_same|lia|rewrite Hi; by eexists|]. cbn [rbind].
  apply (outcome_steady s _ _ _ _ _ _ _ Hsd) in Hout.
  pose proof (CheckForkWarningConditions_ok fInitialDownload s2 t2 (si_heap _ _ Hinv2) (si_chain _ _ Hinv2) (si_invalid _ _ Hinv2) (si_fork _ _ Hinv2)) as (wn & Hwn & Hd).
  destruct e; cbn in Hout; [| | |by exists false, false, s2, t2].
  - destruct Hout as (-> & Hsd2 & Ht2). rewrite Hwn. cbn [rbind]. exists true, false, (with_warnings s2 wn), p. split; [done|]. split; [by apply inv_warnings|]. split; [done|]. split; [done|]. by left.
  - destruct Hout as (Hsd2 & Ht2 & _ & Hlt). rewrite Hwn. cbn [rbind]. exists true, false, (with_warnings s2 wn), t2. split; [done|]. split; [by apply inv_warnings|]. split; [done|]. split; [done|]. right.
    unfold tip_work at 1. by rewrite Hbt.
  - destruct (Hlast eq_refl) as (x & -> & Hx). destruct (CheckForkWarningConditionsOnNewFork_ok fInitialDownload s2 t2 x (si_heap _ _ Hinv2) (si_chain _ _ Hinv2) (si_invalid _ _ Hinv2) (si_fork _ _ Hinv2) Hx) as (wn' & -> & Hd').
    cbn [rbind]. exists true, true, (with_warnings s2 wn'), t2. split; [done|]. split; [by apply inv_warnings|done].
Qed.

(** ** The loop *)

Lemma activate_loop_ok : ∀ fuel s t o, select_inv s t → (∀ p, o = Some p → target s p) → (measure_of (index s) (tip_work s t) <= fuel)%nat →
  ∃ r s' t', activate_loop fInitialDownload fuel s o = Ok (r, s') ∧ select_inv s' t' ∧ progress s s' ∧ if r : bool then best s' t' else node_failure CS.
Proof.
  induction fuel as [fuel IH] using lt_wf_ind; intros s t o Hinv Ho Hf.
  assert (∃ mw s1, match o with Some p => Ok (Some p, s) | None => FindMostWorkChain s end = Ok (mw, s1) ∧ select_inv s1 t ∧ steady s s1 ∧
    match mw with Some p => target s1 p | None => setBlockIndexCandidates s1 = ∅ ∧ ¬ stable end) as (mw & s1 & Hr & Hinv1 & Hsd & Ht).
  { destruct o as [p|]; [|by apply FindMostWorkChain_ok]. exists (Some p), s. split; [done|]. split; [done|]. split; [apply steady_refl|]. by apply Ho. }
  destruct mw as [p|].
  2: { exists true, s1, t. split; [destruct fuel; cbn [activate_loop]; by rewrite Hr|]. split; [done|]. split; [by apply steady_progress|].
    destruct Ht as [He Hns]. split; [rewrite He; set_solver|done]. }
  assert (tip_work s1 t = tip_work s t) as Htw.
  { unfold tip_work. destruct (si_chain _ _ Hinv) as (bt & Hbt & _). destruct (skel_some _ _ (ev_skel _ _ (proj1 Hsd)) t bt Hbt) as (b' & -> & n & ->). by rewrite Hbt. }
  assert (activate_loop fInitialDownload fuel s o = activate_loop fInitialDownload fuel s1 (Some p)) as -> by (destruct fuel; cbn [activate_loop]; by rewrite Hr).
  assert (measure_of (index s1) (tip_work s1 t) <= fuel)%nat as Hf1.
  { rewrite Htw. pose proof (subseteq_size _ _ (evolves_unfailed _ _ (proj1 Hsd))) as Hu. unfold measure_of in *.
    rewrite (size_skel _ _ (ev_skel _ _ (proj1 Hsd))), (higher_skel _ _ _ (ev_skel _ _ (proj1 Hsd))). nia. }
  destruct (decide (p = t)) as [->|Hne].
  { exists true, s1, t. split; [destruct fuel; cbn [activate_loop rbind]; by rewrite (tip_of s1 t Hinv1), bool_decide_true|]. split; [done|]. split; [by apply steady_progress|]. exact (proj2 (proj2 Ht)). }
  destruct (ActivateBestChainStep_ok s1 t p Hinv1 Ht) as (r & fInv & s2 & t2 & Hstep & Hinv2 & Hout).
  assert (activate_loop fInitialDownload fuel s1 (Some p) = if negb r then Ok (false, s2) else
    if bool_decide (tip s2 = if fInv then None else Some p) then Ok (true, s2) else match fuel with O => Err Chain.OutOfFuel | S f => activate_loop fInitialDownload f s2 (if fInv then None else Some p) end) as ->.
  { destruct fuel; cbn [activate_loop rbind]; rewrite (tip_of s1 t Hinv1), bool_decide_false by congruence; rewrite Hstep; by destruct r. }
  destruct r; [|exists false, s2, t2; split; [done|]; split; [done|]; split; [|apply Hout]; eapply progress_trans; [by apply steady_progress|apply Hout]]. cbn [negb] in *.
  rewrite (tip_of s2 t2 Hinv2). destruct fInv.
  - destruct Hout as (Hpr & x & Hx1 & Hx2). rewrite bool_decide_false by done.
    pose proof (measure_failed _ _ (tip_work s1 t) (tip_work s2 t2) x (proj1 Hpr) Hx1 Hx2). destruct fuel as [|fuel]; [lia|].
    destruct (IH fuel ltac:(lia) s2 t2 None Hinv2 ltac:(done) ltac:(lia)) as (r & s' & t' & -> & Hinv' & Hpr' & Hb). exists r, s', t'. split; [done|]. split; [done|]. split; [|done].
    eapply progress_trans; [by apply steady_progress|]. by eapply progress_trans.
  - destruct Hout as (Hsd2 & Ht2 & [->|Hlt]); [rewrite bool_decide_true by done|case_bool_decide as Heq].
    1, 2: try (injection Heq as ->); exists true, s2, p; split; [done|]; split; [done|]; split; [apply steady_progress; by eapply steady_trans|exact (proj2 (proj2 Ht2))].
    destruct (si_chain _ _ Hinv2) as (b2 & Hb2 & _). destruct (skel_some _ _ (same_skel_sym _ _ (ev_skel _ _ (proj1 Hsd2))) t2 b2 Hb2) as (b1 & Hb1 & n & Hn).
    assert (measure_of (index s2) (tip_work s2 t2) < measure_of (index s1) (tip_work s1 t))%nat as Hm.
    { apply (measure_better _ _ _ _ t2 b1 (proj1 Hsd2) Hb1); [|done]. unfold tip_work. by rewrite Hb2, Hn. }
    destruct fuel as [|fuel]; [lia|]. destruct (IH fuel ltac:(lia) s2 t2 (Some p) Hinv2) as (r & s' & t' & -> & Hinv' & Hpr' & Hb); [by intros ? [= <-]|lia|].
    exists r, s', t'. split; [done|]. split; [done|]. split; [|done]. eapply progress_trans; [apply steady_progress; by eapply steady_trans|done].
Qed.
End activate.

(** ** The theorem *)

(** The tree, the active chain and the candidates, over any store. *)
Record chain_inv {CS : Type} (s : chain_state CS) (t : ptr) : Prop := {
  ci_heap : heap_ok (index s);
  ci_work : work_grows (index s);
  ci_root : one_root (index s);
  ci_chain : is_chain (index s) (chainActive s) t;
  ci_tip : eligible (index s) t;
  ci_linked : ∀ p, p ∈ setBlockIndexCandidates s → linked (index s) p;
  ci_invalid : opt_dom (index s) (pindexBestInvalid s);
  ci_fork : opt_dom (index s) (pindexBestForkTip (warnings s))
}.
(** Connecting a block changes its entry in the status only. *)
Definition entries_kept (CS : Type) {Store : ChainStore CS} : Prop :=
  ∀ s t p b s' e, tree_heap t !! p = Some b → store_connect s t p = Connected s' e → kept_entry b e.
(** No block is taken for one that the disk or the network damaged. *)
Definition never_corrupted (CS : Type) {Store : ChainStore CS} : Prop := ∀ s t p, store_connect s t p ≠ ConsensusInvalid true.
(** On a store that is at the parent of a block, the verdict on the block is [valid]'s. *)
Record stable_verdicts {CS : Type} {Store : ChainStore CS} (valid : ptr → Prop) (at_ : CS → ptr → Prop) : Prop := {
  sv_connect : ∀ s t p b q, tree_heap t !! p = Some b → pprev b = Some q → at_ s q →
    match store_connect s t p with Connected s' _ => at_ s' p ∧ valid p | ConsensusInvalid _ => ¬ valid p | SystemFailure => True end;
  sv_disconnect : ∀ s t p b q, tree_heap t !! p = Some b → pprev b = Some q → at_ s p →
    ∀ s', store_disconnect s t p = Some s' → at_ s' q
}.

Section laws.
Context {CS : Type} {Store : ChainStore CS} (Hkept : entries_kept CS) (Hcorrupt : never_corrupted CS).

#[program] Definition any_verdict : ChainStoreLaws CS := {| stable := False; valid_block := fun _ => True; store_at := fun _ _ => True |}.
Next Obligation.
  intros s t p b q Hb _ _. destruct (store_connect s t p) as [s' e|[]|] eqn:Hc; [split; [by eapply Hkept|done]|by destruct (Hcorrupt s t p)|done|done].
Qed.
Next Obligation. intros. by case_match. Qed.

#[program] Definition same_verdict valid at_ (Hs : stable_verdicts valid at_) : ChainStoreLaws CS := {| stable := True; valid_block := valid; store_at := at_ |}.
Next Obligation.
  intros valid at_ [Hs _] s t p b q Hb Hq Hat. specialize (Hs s t p b q Hb Hq Hat). destruct (store_connect s t p) as [s' e|[]|] eqn:Hc;
    [split; [by eapply Hkept|split; [apply Hs|intros _; apply Hs]]|by destruct (Hcorrupt s t p)|done|done].
Qed.
Next Obligation. intros valid at_ [_ Hs] s t p b q Hb Hq Hat. case_match; [by eapply Hs|done]. Qed.

Lemma inv_of (L : ChainStoreLaws CS) s t : chain_inv s t → store_at (store s) t → (stable → accepted_path valid_block (index s) t) → (stable → kept_best valid_block s) → select_inv s t.
Proof. intros [] Hs Ha Hm. by constructor. Qed.
Lemma inv_chain (L : ChainStoreLaws CS) s t : select_inv s t → chain_inv s t.
Proof. intros []. by constructor. Qed.
Lemma ActivateBestChain_ok (L : ChainStoreLaws CS) fInitialDownload s t : select_inv s t →
  ∃ r s' t', ActivateBestChain fInitialDownload s = Ok (r, s') ∧ select_inv s' t' ∧ progress s s' ∧ if r : bool then best s' t' else node_failure CS.
Proof.
  intros Hinv. unfold ActivateBestChain, activate_fuel. apply (activate_loop_ok fInitialDownload _ s t None Hinv); [done|].
  pose proof (measure_bound (index s) (tip_work s t)). lia.
Qed.
End laws.

(** C7: [ActivateBestChain] returns, within [activate_fuel] rounds, however many blocks turn
    out invalid on the way.  Asked of the store are two things: connecting a block changes
    its index entry in the status only, and never ends with the mark that the block may be
    corrupted (with it the call need not return: C22).  The call returns false only where
    the store failed to connect or to disconnect a block for a reason that is not the
    block's.  The tip it leaves was connectable before the call.  When it returns true, no
    remaining candidate that can be connected is better: none has more work, or the same
    work and an earlier arrival.  If moreover the verdict on a block over the state of its
    parent is always the same, and the candidates included the blocks at least as good as
    some accepted one, then the tip is an accepted chain, no accepted and connectable block
    at all is better, and both conditions hold again for the next call. *)
Theorem best_chain_activated `{Store : ChainStore CS} fInitialDownload s t : chain_inv s t → entries_kept CS → never_corrupted CS →
  ∃ r s' t', ActivateBestChain fInitialDownload s = Ok (r, s') ∧ chain_inv s' t' ∧ tip s' = Some t' ∧ eligible (index s) t' ∧
    (r = false → node_failure CS) ∧
    (r = true → ∀ q, q ∈ setBlockIndexCandidates s' → eligible (index s') q → less (index s') t' q = false) ∧
    ∀ valid at_, stable_verdicts valid at_ → at_ (store s) t → accepted_path valid (index s) t → kept_best valid s →
      at_ (store s') t' ∧ accepted_path valid (index s) t' ∧ kept_best valid s' ∧
      (r = true → ∀ q, eligible (index s) q → accepted_path valid (index s) q → less (index s') t' q = false).
Proof.
  intros Hc Hkept Hcor. set (L := any_verdict Hkept Hcor).
  destruct (ActivateBestChain_ok L fInitialDownload s t (inv_of L s t Hc I (fun H => match H with end) (fun H => match H with end))) as (r & s' & t' & Hr & Hinv & [Hev _] & Hb).
  pose proof (inv_chain L s' t' Hinv) as Hc'. pose proof (chain_tip _ _ _ (ci_heap _ _ Hc') (ci_chain _ _ Hc')) as Htip.
  exists r, s', t'. split; [done|]. split; [done|]. split; [done|]. split; [exact (evolves_eligible _ _ _ Hev (ci_tip _ _ Hc'))|].
  split; [by intros ->|]. split; [intros ->; apply Hb|]. intros valid at_ Hs Hat Ha Hm. set (L' := same_verdict Hkept Hcor valid at_ Hs).
  destruct (ActivateBestChain_ok L' fInitialDownload s t (inv_of L' s t Hc Hat (fun _ => Ha) (fun _ => Hm))) as (r2 & s2 & t2 & Hr2 & Hinv2 & [_ Hel] & Hb2).
  rewrite Hr in Hr2. injection Hr2 as <- <-. pose proof (chain_tip _ _ _ (si_heap _ _ Hinv2) (si_chain _ _ Hinv2)) as Htip2. rewrite Htip in Htip2. injection Htip2 as <-.
  split; [exact (si_store _ _ Hinv2)|]. split; [exact (accepted_skel _ _ _ _ (same_skel_sym _ _ (ev_skel _ _ Hev)) (si_accepted _ _ Hinv2 I))|].
  split; [exact (si_mark _ _ Hinv2 I)|]. intros -> q Hq Haq. apply Hb2; [done|]. by apply Hel.
Qed.

(** A store that keeps the tip and rejects block 4. *)
Definition tip_connect (corrupt : bool) (_ : ptr) (t : BlockTree) (p : ptr) : connect_verdict ptr :=
  match tree_heap t !! p with
  | Some b => if (p =? 4)%positive then ConsensusInvalid corrupt else Connected p (or_status BLOCK_VALID_SCRIPTS b)
  | None => SystemFailure
  end.
#[local] Instance tip_store : ChainStore ptr := {
  store_connect := tip_connect false;
  store_disconnect := fun _ t p => b ← tree_heap t !! p; pprev b
}.
Lemma tip_entries_kept : entries_kept ptr.
Proof.
  intros s t p b s' e Hb. cbn. unfold tip_connect. rewrite Hb. destruct (p =? 4)%positive; [done|]. intros [= <- <-]. exists (Z.lor (nStatus b) BLOCK_VALID_SCRIPTS). split; [done|].
  unfold or_status, is_failed, has_data, flag_set. cbn [nStatus set_nStatus]. by rewrite !Z.land_lor_distr_l, !Z.lor_0_r.
Qed.
Lemma tip_never_corrupted : never_corrupted ptr.
Proof. intros s t p. cbn. unfold tip_connect. destruct (tree_heap t !! p), (p =? 4)%positive; discriminate. Qed.
Lemma tip_verdicts : stable_verdicts (fun p => p ≠ 4%positive) eq.
Proof.
  constructor; cbn.
  - intros s t p b q Hb Hq ->. unfold tip_connect. rewrite Hb. destruct (Pos.eqb_spec p 4); naive_solver.
  - intros s t p b q Hb Hq -> s'. rewrite Hb. cbn. congruence.
Qed.

(** Blocks 2 and 3 on block 1, and block 4 on block 2, all with their transactions. *)
Definition live_tree : BlockTree := Eval vm_compute in
  let t := Chain.add_header sample_tree (sample_header 4 2 300) in
  mkTree (mapBlockIndex t) ((fun b => set_nChainTx (or_status BLOCK_HAVE_DATA b) 1) <$> tree_heap t) (next_ptr t) (pindexBestHeader t) ∅.
Definition live_state : chain_state ptr :=
  mkChainState live_tree [Some 1%positive] {[1; 2; 3; 4]}%positive [] None ∅ 1 0 (replicate 8 0) (mkWarnings None None false false) 1%positive.

Lemma live_all (P : ptr → CBlockIndex → Prop) : P 1%positive (entry_at live_tree 1%positive) → P 2%positive (entry_at live_tree 2%positive) →
  P 3%positive (entry_at live_tree 3%positive) → P 4%positive (entry_at live_tree 4%positive) → ∀ p b, tree_heap live_tree !! p = Some b → P p b.
Proof.
  intros ? ? ? ? p b H. assert (p ∈ dom (tree_heap live_tree)) as Hp by by eapply elem_of_dom_2.
  assert (b = entry_at live_tree p) as -> by (unfold entry_at; by rewrite H).
  apply elem_of_elements in Hp. change (p ∈ [3; 4; 2; 1]%positive) in Hp. set_solver.
Qed.

Lemma live_root : ∀ q, ancestor (tree_heap live_tree) q 1%positive → q = 1%positive.
Proof. intros q H. inversion H as [|p b r q' Hb Hr]; [done|]. subst. vm_compute in Hb. injection Hb as <-. discriminate. Qed.

Lemma live_eligible p : is_Some (tree_heap live_tree !! p) → eligible (tree_heap live_tree) p.
Proof. intros Hp. split; [done|]. intros q bq _. revert q bq. refine (live_all (fun _ b => good b) _ _ _ _); (split; [|split]); vm_compute; congruence. Qed.

Lemma live_child p q : bool_decide (pprev (entry_at live_tree p) = Some q) = true → tree_heap live_tree !! q = Some (entry_at live_tree q) →
  (wf (nChainWork (entry_at live_tree p)) ∧ ufits 32 (bi_nBits (entry_at live_tree p))) →
  match GetBlockProof (bi_nBits (entry_at live_tree p)) with Ok w =>
    (0 <=? bi_nHeight (entry_at live_tree q)) && (bi_nHeight (entry_at live_tree p) =? bi_nHeight (entry_at live_tree q) + 1) &&
    bool_decide (pskip (entry_at live_tree p) = ancestor_at (tree_heap live_tree) q (GetSkipHeight (bi_nHeight (entry_at live_tree p)))) &&
    (nTimeMax (entry_at live_tree p) =? Z.max (nTimeMax (entry_at live_tree q)) (bi_nTime (entry_at live_tree p))) &&
    bool_decide (nChainWork (entry_at live_tree p) = add (nChainWork (entry_at live_tree q)) w) | Err _ => false end = true →
  entry_ok (tree_heap live_tree) (entry_at live_tree p).
Proof.
  intros Hp H1 Hw H. split; [exact Hw|]. apply bool_decide_eq_true in Hp. rewrite Hp. exists (entry_at live_tree q). destruct (GetBlockProof _) as [w|]; [|discriminate].
  rewrite !andb_true_iff, !bool_decide_eq_true, !Z.eqb_eq, Z.leb_le in H. destruct H as ((((H2 & H3) & H4) & H5) & H6). repeat (split; [assumption|]). exists w. split; [reflexivity|assumption].
Qed.

Lemma wf_check l : length l = WIDTH → forallb (fun z => (0 <=? z) && (z <? 2 ^ 32)) l = true → wf l.
Proof.
  intros Hl H. split; [done|]. unfold digits_ok. apply Forall_forall. intros z Hz. rewrite forallb_forall in H. apply list_elem_of_In in Hz. specialize (H z Hz).
  apply andb_true_iff in H as [H1%Z.leb_le H2%Z.ltb_lt]. done.
Qed.
Lemma live_heap_ok : heap_ok (tree_heap live_tree).
Proof.
  refine (live_all (fun _ b => entry_ok (tree_heap live_tree) b) _ _ _ _); [split|apply (live_child _ 1%positive)|apply (live_child _ 1%positive)|apply (live_child _ 2%positive)].
  2: vm_compute; repeat split; reflexivity.
  2, 3, 6, 7, 10, 11: vm_compute; reflexivity.
  1, 2, 4, 6: split; [apply wf_check; [reflexivity|vm_compute; reflexivity]|split; [discriminate|reflexivity]].
  all: vm_compute; reflexivity.
Qed.

Lemma live_inv : chain_inv live_state 1%positive.
Proof.
  constructor.
  - exact live_heap_ok.
  - intros p b q bq Hb. revert q bq. revert p b Hb.
    refine (live_all (fun _ b => ∀ q bq, pprev b = Some q → tree_heap live_tree !! q = Some bq → val (nChainWork bq) < val (nChainWork b)) _ _ _ _); intros q bq Hq Hb;
      [discriminate Hq|..]; vm_compute in Hq; injection Hq as <-; vm_compute in Hb; injection Hb as <-; vm_compute; reflexivity.
  - unfold one_root. intros p b q bq Hb Hbq. assert (∀ p b, tree_heap live_tree !! p = Some b → pprev b = None → p = 1%positive) as H by (refine (live_all (fun p b => pprev b = None → p = 1%positive) _ _ _ _); [reflexivity|discriminate..]).
    intros. rewrite (H p b), (H q bq) by done. done.
  - eexists. split; [vm_compute; done|]. split; [done|]. intros [|i]; [done|cbn; lia].
  - apply live_eligible. by eexists.
  - intros p Hp. apply eligible_linked, live_eligible. cbn in Hp. rewrite !elem_of_union, !elem_of_singleton in Hp.
    destruct Hp as [[[->| ->]| ->]| ->]; by eexists.
  - intros i. done.
  - intros i. done.
Qed.
Lemma live_best : kept_best (fun p => p ≠ 4%positive) live_state.
Proof.
  exists 1%positive. split; [apply live_eligible; by eexists|]. split; [intros q Hq; by rewrite (live_root q Hq)|].
  intros q [[bq Hq] _] _. revert q bq Hq. refine (live_all (fun q _ => q ∈ setBlockIndexCandidates live_state) _ _ _ _); cbn [setBlockIndexCandidates live_state]; set_solver.
Qed.

Lemma best_chain_activated_witness : ∃ s', ActivateBestChain false live_state = Ok (true, s') ∧ tip s' = Some 2%positive ∧
  ∀ q, eligible (index live_state) q → accepted_path (fun p => p ≠ 4%positive) (index live_state) q → less (index s') 2%positive q = false.
Proof.
  destruct (best_chain_activated false live_state 1%positive live_inv tip_entries_kept tip_never_corrupted) as (r & s' & t' & H & _ & Ht & _ & _ & _ & Hs).
  assert (accepted_path (fun p => p ≠ 4%positive) (index live_state) 1%positive) as Ha by (intros q Hq; rewrite (live_root q Hq); discriminate).
  destruct (Hs (fun p => p ≠ 4%positive) eq tip_verdicts eq_refl Ha live_best) as (_ & _ & _ & Hbest).
  assert (match ActivateBestChain false live_state with Ok (r, s) => (r, tip s) | Err _ => (false, None) end = (true, Some 2%positive)) as E by (vm_compute; reflexivity).
  rewrite H in E. injection E as -> E. rewrite Ht in E. injection E as ->. exists s'. split; [exact H|]. split; [exact Ht|]. exact (Hbest eq_refl).
Defined.

(** ** A block that may be corrupted *)

Section corrupted.
Context {CS : Type} {Store : ChainStore CS} (fInitialDownload : bool).
Implicit Types (s : chain_state CS) (p q t : ptr).

(** The best candidate is a child of the tip that the store takes for corrupted. *)
Record stuck s t p : Prop := {
  sk_heap : heap_ok (index s);
  sk_chain : is_chain (index s) (chainActive s) t;
  sk_invalid : opt_dom (index s) (pindexBestInvalid s);
  sk_fork : opt_dom (index s) (pindexBestForkTip (warnings s));
  sk_best : best_candidate (index s) (setBlockIndexCandidates s) = Some p;
  sk_entry : ∃ b, index s !! p = Some b ∧ pprev b = Some t ∧ good b;
  sk_connect : store_connect (store s) (tree s) p = ConsensusInvalid true
}.

Lemma stuck_above s t p : stuck s t p → ∃ b bt, index s !! p = Some b ∧ index s !! t = Some bt ∧ bi_nHeight b = bi_nHeight bt + 1 ∧ 0 <= bi_nHeight bt ∧
  pprev b = Some t ∧ good b ∧ ancestor (index s) t p ∧ ¬ ancestor (index s) p t ∧ tip s = Some t.
Proof.
  intros [Hst Hc _ _ _ (b & Hb & Hp & Hg) _]. destruct (pprev_entry _ Hst p b t Hb Hp) as (bt & Hbt & Hh). exists b, bt.
  pose proof (entry_height _ Hst t bt Hbt). repeat (split; [done || lia|]). split; [eapply ancestor_step; [done|done|by eapply ancestor_refl]|].
  split; [|unfold tip; by apply (chain_tip (index s))]. intros Ha. destruct (ancestor_dom _ Hst p t Ha) as (? & ? & ? & ? & ?). simplify_eq. lia.
Qed.

Lemma stuck_found s t p : stuck s t p → FindMostWorkChain s = Ok (Some p, s).
Proof.
  intros Hs. destruct (stuck_above s t p Hs) as (b & bt & Hb & Hbt & Hh & H0 & Hp & (Hf & Hd & Hn) & Ha & Hna & _). destruct Hs as [Hst Hc _ _ Hbest _ _].
  assert (∀ n, check_path (S n) (index s) (chainActive s) (Some p) = Ok None) as Hcp.
  { intros n. cbn [check_path]. destruct (chain_member _ Hst _ t p b Hc Hb) as ([] & -> & Hin); cbn [rbind]; [done|]. unfold deref. rewrite Hb. cbn [rbind].
    rewrite (proj2 (Z.eqb_neq (nChainTx b) 0)) by done. rewrite Hf, Hd, Hp. cbn [andb orb negb].
    destruct n; cbn [check_path]; destruct (chain_member _ Hst _ t t bt Hc Hbt) as ([] & -> & Hin'); cbn [rbind]; try done;
      assert (false = true) by (apply Hin'; by eapply ancestor_refl); discriminate. }
  unfold FindMostWorkChain. destruct (set_size (setBlockIndexCandidates s)); cbn [find_most_work]; rewrite Hbest; unfold entry_of, deref; rewrite Hb; cbn [rbind]; by rewrite Hcp.
Qed.

Lemma stuck_forks s t p : stuck s t p → FindFork (index s) (chainActive s) (Some p) = Ok (Some t).
Proof.
  intros Hs. destruct (stuck_above s t p Hs) as (b & bt & Hb & Hbt & Hh & H0 & _ & _ & Ha & _). destruct Hs as [Hst Hc _ _ _ _ _].
  destruct (FindFork_spec _ Hst _ t p b Hc Hb) as (r & -> & Hr). pose proof (ancestor_at_self _ Hst t bt Hbt) as Htt. apply (ancestor_at_iff _ Hst p b t bt Hb Hbt) in Ha.
  destruct r as [q|]; [|pose proof (Hr (bi_nHeight bt) ltac:(congruence)); congruence]. destruct Hr as (h & _ & Hq & Hmax). destruct (Z.lt_trichotomy h (bi_nHeight bt)) as [Hlt|[->|Hgt]].
  - pose proof (Hmax (bi_nHeight bt) Hlt ltac:(congruence)). congruence.
  - congruence.
  - destruct (ancestor_at_range _ Hst t h q Hq) as (? & ? & ? & ? & ? & ?). simplify_eq. lia.
Qed.

Lemma stuck_step s t p : stuck s t p → ∃ s', ActivateBestChainStep fInitialDownload s p = Ok (true, true, s') ∧ stuck s' t p.
Proof.
  intros Hs. destruct (stuck_above s t p Hs) as (b & bt & Hb & Hbt & Hh & H0 & Hp & _ & _ & _ & Htip). unfold ActivateBestChainStep. rewrite (stuck_forks s t p Hs). cbn [rbind].
  replace (disconnect_to (length (chainActive s)) s (Some t)) with (@Ok chain_error _ (true, s)) by (destruct (length (chainActive s)); cbn [disconnect_to]; by rewrite Htip, bool_decide_true).
  cbn [rbind]. unfold opt_entry, entry_of, deref. rewrite Hbt. cbn [rbind]. rewrite Hb. cbn [rbind]. replace (Z.to_nat (bi_nHeight b - bi_nHeight bt)) with 1%nat by lia.
  cbn [connect_groups]. unfold entry_of, deref. rewrite Hb. cbn [rbind]. rewrite (proj2 (Z.eqb_neq (bi_nHeight bt) (bi_nHeight b))) by lia.
  replace (Z.min (bi_nHeight bt + 32) (bi_nHeight b)) with (bi_nHeight b) by lia. pose proof (sk_heap _ _ _ Hs) as Hst.
  rewrite (GetAncestor_spec _ Hst p b _ Hb), (ancestor_at_self _ Hst p b Hb). cbn [rbind]. replace (Z.to_nat (bi_nHeight b + 1)) with (S (S (Z.to_nat (bi_nHeight bt)))) by lia.
  cbn [collect_path]. unfold deref. rewrite Hb. cbn [rbind]. rewrite (proj2 (Z.eqb_neq (bi_nHeight b) (bi_nHeight bt))), Hp by lia.
  cbn [collect_path]. unfold deref. rewrite Hbt. cbn [rbind]. rewrite Z.eqb_refl. cbn [rbind map List.last rev app connect_blocks].
  unfold ConnectTip, entry_of, deref. rewrite Hb. cbn [rbind]. rewrite Hp, Htip, bool_decide_true by done. cbn [negb]. rewrite (sk_connect _ _ _ Hs). unfold InvalidBlockFound. cbn [rbind].
  destruct (CheckForkWarningConditionsOnNewFork_ok fInitialDownload s t p Hst (sk_chain _ _ _ Hs) (sk_invalid _ _ _ Hs) (sk_fork _ _ _ Hs) (mk_is_Some _ _ Hb)) as (w & -> & Hw). cbn [rbind].
  eexists. split; [done|]. by destruct Hs; constructor.
Qed.
End corrupted.

(** C22: When the best candidate is a child of the tip, and connecting it fails with the mark
    that the block may be corrupted, [ActivateBestChain] tries the same block again in
    every round: no number of rounds is enough, for any store of coins and assets.
    [InvalidBlockFound] leaves such a block among the candidates. *)
Theorem corruption_retried_forever `{Store : ChainStore CS} fInitialDownload s t p : stuck s t p →
  ∀ fuel, activate_loop fInitialDownload fuel s None = Err Chain.OutOfFuel.
Proof.
  intros Hs fuel. revert s Hs. induction fuel as [|fuel IH]; intros s Hs; cbn [activate_loop]; rewrite (stuck_found s t p Hs); cbn [rbind];
    destruct (stuck_above s t p Hs) as (b & bt & Hb & Hbt & Hh & _ & _ & _ & _ & _ & Htip); rewrite Htip, bool_decide_false by (intros [= ->]; simplify_eq; lia);
    destruct (stuck_step fInitialDownload s t p Hs) as (s' & -> & Hs'); cbn [rbind];
    destruct (stuck_above s' t p Hs') as (_ & _ & _ & _ & _ & _ & _ & _ & _ & _ & Htip'); rewrite Htip', bool_decide_false by done; [done|by apply IH].
Qed.

(** The tip is block 2, and block 4 on it was damaged on the disk. *)
Definition damaged_store : ChainStore ptr := {|
  store_connect := tip_connect true;
  store_disconnect := fun _ t p => b ← tree_heap t !! p; pprev b
|}.
Definition damaged_state : chain_state ptr :=
  with_active (with_candidates live_state {[2; 4]}%positive) [Some 1; Some 2]%positive.

Lemma corruption_retried_forever_witness : activate_loop (Store := damaged_store) false 1000 damaged_state None = Err Chain.OutOfFuel.
Proof.
  apply (corruption_retried_forever (Store := damaged_store) false damaged_state 2%positive 4%positive). constructor.
  - exact live_heap_ok.
  - exists (entry_at live_tree 2%positive). split; [reflexivity|]. split; [reflexivity|]. intros [|[|i]]; [reflexivity|reflexivity|cbn; lia].
  - intros i. done.
  - intros i. done.
  - vm_compute. reflexivity.
  - exists (entry_at live_tree 4%positive). split; [reflexivity|]. split; [reflexivity|]. split; [reflexivity|]. split; [reflexivity|]. vm_compute. congruence.
  - reflexivity.
Defined.
