(* ===== verification/HashStream.v ===== *)
(** * Hash functions that read a message in pieces

    The objects [CSHA1], [CSHA256], [CSHA512] and [CRIPEMD160] of src/src/crypto keep the
    chaining value, a buffer for an incomplete block and the number of bytes.  Whatever the
    pieces of a message are, the object goes through the blocks of the whole message, and
    [Finalize] goes through those of the padded message. *)

From S2P Require Import Prelude Serialize.

Open Scope Z_scope.

(** [memcpy(dst + off, src, length src)] *)
Definition memcpy_at (dst : list Z) (off : nat) (src : list Z) : list Z :=
  take off dst ++ src ++ drop (off + length src) dst.

(** The fields [s], [buf] and [bytes]; the constructors leave [buf] as it is. *)
Record hasher := mkHasher { h_s : list Z; h_buf : list Z; h_bytes : Z }.

Section stream.
Context (B : nat) (Transform : list Z → list Z → list Z).

Definition bufsize_of (o : hasher) : nat := Z.to_nat (h_bytes o mod Z.of_nat B).

(** Fill the buffer, and process it. *)
Definition fill_buffer (o : hasher) (data : list Z) : hasher * list Z :=
  let bufsize := bufsize_of o in
  let n := (B - bufsize)%nat in
  let buf := memcpy_at (h_buf o) bufsize (take n data) in
  (mkHasher (Transform (h_s o) buf) buf (u64 (h_bytes o + Z.of_nat n)), drop n data).

(** Process full chunks directly from the source. *)
Fixpoint process_while (fuel : nat) (o : hasher) (data : list Z) : hasher * list Z :=
  match fuel with
  | O => (o, data)
  | S f =>
      if (B <=? length data)%nat
      then process_while f (mkHasher (Transform (h_s o) (take B data)) (h_buf o) (u64 (h_bytes o + Z.of_nat B))) (drop B data)
      else (o, data)
  end.

(** Fill the buffer with what remains. *)
Definition keep_rest (o : hasher) (bufsize : nat) (data : list Z) : hasher :=
  match data with
  | [] => o
  | _ => mkHasher (h_s o) (memcpy_at (h_buf o) bufsize data) (u64 (h_bytes o + Z.of_nat (length data)))
  end.

Definition hash_Write (o : hasher) (data : list Z) : hasher :=
  let bufsize := bufsize_of o in
  let '(o, data, bufsize) :=
    if negb (bufsize =? 0)%nat && (B <=? bufsize + length data)%nat
    then let '(o, data) := fill_buffer o data in (o, data, O)
    else (o, data, bufsize) in
  let '(o, data) := process_while (length data) o data in
  keep_rest o bufsize data.

(** [K] is 119 for blocks of 64 bytes and 239 for blocks of 128 bytes. *)
Definition hash_Finalize (K : Z) (sizedesc : Z → list Z) (o : hasher) : hasher :=
  let pad := 0x80 :: replicate (B - 1) 0 in
  let desc := sizedesc (u64 (Z.shiftl (h_bytes o) 3)) in
  let o := hash_Write o (take (Z.to_nat (1 + (K - h_bytes o mod Z.of_nat B) mod Z.of_nat B)) pad) in
  hash_Write o desc.

(** ** What the object has read *)

(** [n] blocks of a message. *)
Fixpoint compress (n : nat) (s : list Z) (l : list Z) : list Z :=
  match n with
  | O => s
  | S n => compress n (Transform s (take B l)) (drop B l)
  end.

Record reads (init msg : list Z) (o : hasher) : Prop := {
  rd_buf : length (h_buf o) = B;
  rd_bytes : h_bytes o = u64 (Z.of_nat (length msg));
  rd_s : h_s o = compress (length msg / B) init msg;
  rd_rest : take (length msg mod B) (h_buf o) = drop (length msg / B * B) msg
}.

Context (HB : (0 < B)%nat) (Hdiv : (Z.of_nat B | 2 ^ 64)).

Lemma compress_app n s l1 l2 : (n * B <= length l1)%nat → compress n s (l1 ++ l2) = compress n s l1.
Proof.
  revert s l1. induction n as [|n IH]; intros s l1 Hn; cbn [compress]; [done|]. rewrite take_app_le, drop_app_le by lia. apply IH. rewrite length_drop. lia.
Qed.
Lemma compress_plus n m s l : compress (n + m) s l = compress m (compress n s l) (drop (n * B) l).
Proof.
  revert s l. induction n as [|n IH]; intros s l; cbn [compress Nat.add]; [done|]. by rewrite IH, drop_drop.
Qed.

Lemma bytes_mod n : u64 n mod Z.of_nat B = n mod Z.of_nat B.
Proof.
  unfold u64, uwrap. destruct Hdiv as [k Hk]. rewrite Hk. rewrite (Z.mod_eq n (k * Z.of_nat B)) by nia.
  replace (n - k * Z.of_nat B * (n / (k * Z.of_nat B))) with (n + (- k * (n / (k * Z.of_nat B))) * Z.of_nat B) by lia. apply Z.mod_add. lia.
Qed.
Lemma u64_add a b : u64 (u64 a + b) = u64 (a + b).
Proof. apply Zplus_mod_idemp_l. Qed.
Lemma bufsize_reads init msg o : reads init msg o → bufsize_of o = (length msg mod B)%nat.
Proof. intros H. unfold bufsize_of. rewrite (rd_bytes _ _ _ H), bytes_mod, <- Nat2Z.inj_mod. lia. Qed.

(** The three steps of [Write]. *)
Lemma fill_reads init msg o data o' data' : reads init msg o → (length msg mod B ≠ 0)%nat → (B <= length msg mod B + length data)%nat → fill_buffer o data = (o', data') →
  ∃ d, data = d ++ data' ∧ reads init (msg ++ d) o' ∧ (length (msg ++ d) mod B = 0)%nat.
Proof.
  intros H Hr Hl. unfold fill_buffer. rewrite (bufsize_reads init msg o H). set (r := (length msg mod B)%nat) in *. set (q := (length msg / B)%nat).
  pose proof (Nat.div_mod (length msg) B ltac:(lia)) as Hdm. pose proof (Nat.mod_upper_bound (length msg) B ltac:(lia)) as Hub. fold r q in Hdm, Hub. intros [= <- <-].
  exists (take (B - r) data). split; [by rewrite take_drop|]. assert (length (take (B - r) data) = B - r)%nat as Hlt by (rewrite length_take; lia).
  assert (length (msg ++ take (B - r) data) = S q * B)%nat as Hlen by (rewrite length_app; lia). destruct H as [H1 H2 H3 H4]. fold r q in H3, H4.
  assert (memcpy_at (h_buf o) r (take (B - r) data) = drop (q * B) msg ++ take (B - r) data) as Hm.
  { unfold memcpy_at. by rewrite (drop_ge (h_buf o)), H4, app_nil_r by lia. }
  split; [constructor; cbn [h_buf h_bytes h_s]|rewrite Hlen; apply Nat.Div0.mod_mul].
  - rewrite Hm, length_app, length_drop. lia.
  - rewrite H2, u64_add, <- Nat2Z.inj_add. do 2 f_equal. rewrite Hlen. lia.
  - rewrite Hlen, Nat.div_mul, Hm, H3 by lia. replace (S q) with (q + 1)%nat by lia. rewrite compress_plus, compress_app by lia. cbn [compress].
    rewrite drop_app_le by lia. rewrite (take_ge (drop _ _ ++ _)); [done|]. rewrite length_app, length_drop. lia.
  - rewrite Hlen, Nat.Div0.mod_mul, Nat.div_mul by lia. rewrite drop_ge by lia. done.
Qed.
Lemma process_short n o data : (length data < B)%nat → process_while n o data = (o, data).
Proof. intros H. destruct n; cbn [process_while]; [done|]. by rewrite (proj2 (Nat.leb_gt B (length data))). Qed.

(** [n] full chunks at once. *)
Lemma process_blocks : ∀ fuel o data, (length data <= fuel)%nat →
  process_while fuel o data =
    (mkHasher (compress (length data / B) (h_s o) data) (h_buf o) (if (length data / B =? 0)%nat then h_bytes o else u64 (h_bytes o + Z.of_nat (length data / B * B))),
     drop (length data / B * B) data).
Proof.
  induction fuel as [|fuel IH]; intros o data Hf.
  - assert (length data = 0)%nat as -> by lia. rewrite Nat.Div0.div_0_l. cbn. by destruct o.
  - destruct (Nat.leb_spec B (length data)) as [Hle|Hlt]; cbn [process_while].
    + rewrite (proj2 (Nat.leb_le B (length data)) Hle), IH by (rewrite length_drop; lia). rewrite length_drop. cbn [h_s h_buf h_bytes].
      assert (length data / B = S ((length data - B) / B))%nat as -> by (replace (length data) with (length data - B + 1 * B)%nat at 1 by lia; rewrite Nat.div_add; lia).
      set (k := ((length data - B) / B)%nat). cbn [compress Nat.eqb]. rewrite drop_drop. f_equal. f_equal. destruct (Nat.eqb_spec k 0) as [->|_]; [f_equal; lia|].
      rewrite u64_add. f_equal. lia.
    + rewrite (proj2 (Nat.leb_gt B (length data)) Hlt), Nat.div_small by done. cbn. by destruct o.
Qed.

Lemma process_reads init msg o data o' data' : reads init msg o → (length msg mod B = 0)%nat → process_while (length data) o data = (o', data') →
  ∃ d, data = d ++ data' ∧ reads init (msg ++ d) o' ∧ (length (msg ++ d) mod B = 0)%nat ∧ (length data' < B)%nat.
Proof.
  intros H Hr. rewrite process_blocks by done. set (k := (length data / B)%nat). intros [= <- <-]. exists (take (k * B) data). rewrite take_drop. split; [done|].
  pose proof (Nat.div_mod (length data) B ltac:(lia)) as Hd. pose proof (Nat.mod_upper_bound (length data) B ltac:(lia)). fold k in Hd.
  assert (length (take (k * B) data) = k * B)%nat as Hlt by (rewrite length_take; lia). pose proof (Nat.div_mod (length msg) B ltac:(lia)) as Hm. rewrite Hr in Hm. set (q := (length msg / B)%nat) in *.
  assert (length (msg ++ take (k * B) data) = (q + k) * B)%nat as Hlen by (rewrite length_app; lia). destruct H as [H1 H2 H3 H4]. fold q in H3.
  split; [|split; [rewrite Hlen; apply Nat.Div0.mod_mul|rewrite length_drop; lia]]. constructor; cbn [h_buf h_bytes h_s]; rewrite ?Hlen, ?Nat.div_mul, ?Nat.Div0.mod_mul by lia.
  - done.
  - destruct (Nat.eqb_spec k 0) as [Hk|_]; [rewrite H2; f_equal; lia|]. rewrite H2, u64_add. f_equal. lia.
  - rewrite compress_plus, compress_app, drop_app_le, (drop_ge msg), app_nil_l, H3 by lia. rewrite <- (take_drop (k * B) data) at 1. by rewrite compress_app by lia.
  - by rewrite drop_ge by lia.
Qed.

Lemma rest_reads init msg o data : reads init msg o → (length msg mod B + length data < B)%nat → reads init (msg ++ data) (keep_rest o (length msg mod B) data).
Proof.
  intros H Hl. unfold keep_rest. destruct data as [|x data']; [by rewrite app_nil_r|]. set (data := x :: data') in *.
  pose proof (Nat.div_mod (length msg) B ltac:(lia)) as Hm. set (q := (length msg / B)%nat) in *. set (r := (length msg mod B)%nat) in *.
  assert (length (msg ++ data) = (r + length data) + q * B)%nat as Hlen by (rewrite length_app; lia). destruct H as [H1 H2 H3 H4]. fold q in H3. fold q r in H4.
  assert (length (take r (h_buf o)) = r) as Hlr by (rewrite length_take; lia).
  constructor; cbn [h_buf h_bytes h_s]; rewrite ?Hlen, ?Nat.div_add, ?(Nat.div_small (r + length data)), ?Nat.Div0.mod_add, ?(Nat.mod_small (r + length data)) by lia.
  - unfold memcpy_at. rewrite !length_app, Hlr, length_drop. lia.
  - rewrite H2, u64_add, <- Nat2Z.inj_add. do 2 f_equal. lia.
  - by rewrite H3, compress_app by lia.
  - unfold memcpy_at. rewrite app_assoc, take_app_le, take_ge by (rewrite length_app; lia). rewrite H4. cbn [Nat.add]. by rewrite drop_app_le by lia.
Qed.

Lemma Write_reads init msg o data : reads init msg o → reads init (msg ++ data) (hash_Write o data).
Proof.
  intros H. unfold hash_Write. rewrite (bufsize_reads init msg o H). pose proof (Nat.mod_upper_bound (length msg) B ltac:(lia)) as Hub.
  assert (∀ msg o data, reads init msg o → (length msg mod B = 0)%nat → reads init (msg ++ data) (let '(o, data) := process_while (length data) o data in keep_rest o 0 data)) as Haligned.
  { clear -HB Hdiv. intros msg o data H Hr. destruct (process_while _ _ _) as [o1 data1] eqn:Hp. destruct (process_reads _ _ _ _ _ _ H Hr Hp) as (d & -> & H1 & Hr1 & Hl).
    rewrite app_assoc. pose proof (rest_reads _ _ _ data1 H1) as H2. rewrite Hr1 in H2. apply H2. lia. }
  destruct (Nat.eqb_spec (length msg mod B) 0) as [Hr|Hr]; cbn [negb andb].
  - rewrite Hr. by apply Haligned.
  - destruct (Nat.leb_spec B (length msg mod B + length data)) as [Hle|Hlt].
    + destruct (fill_buffer o data) as [o1 data1] eqn:Hf. destruct (fill_reads _ _ _ _ _ _ H Hr Hle Hf) as (d & -> & H1 & Hr1). rewrite app_assoc. by apply Haligned.
    + rewrite process_short by lia. by apply rest_reads.
Qed.

Lemma writes_read init msg o pieces : reads init msg o → reads init (msg ++ concat pieces) (foldl hash_Write o pieces).
Proof.
  revert msg o. induction pieces as [|d pieces IH]; intros msg o H; cbn [concat foldl]; [by rewrite app_nil_r|]. rewrite app_assoc. by apply IH, Write_reads.
Qed.

Lemma init_reads init buf : length buf = B → reads init [] (mkHasher init buf 0).
Proof. intros H. constructor; cbn; rewrite ?Nat.Div0.div_0_l, ?Nat.Div0.mod_0_l; done. Qed.

(** ** Padding *)

(** A one bit, the fewest zero bytes that leave room for the size, and the size in bits. *)
Definition zeros (L n : nat) : nat := Z.to_nat ((2 * Z.of_nat B - 1 - Z.of_nat L - Z.of_nat n) mod Z.of_nat B).
Definition padded (sizedesc : Z → list Z) (L : nat) (msg : list Z) : list Z :=
  msg ++ 0x80 :: replicate (zeros L (length msg)) 0 ++ sizedesc (u64 (8 * Z.of_nat (length msg))).

Lemma zeros_spec L n : (zeros L n < B)%nat ∧ ((n + 1 + zeros L n + L) mod B = 0)%nat.
Proof.
  unfold zeros. set (x := 2 * Z.of_nat B - 1 - Z.of_nat L - Z.of_nat n). pose proof (Z.mod_pos_bound x (Z.of_nat B) ltac:(lia)). pose proof (Z.div_mod x (Z.of_nat B) ltac:(lia)). split; [lia|].
  apply Nat2Z.inj. rewrite Nat2Z.inj_mod, !Nat2Z.inj_add, Z2Nat.id by lia. replace (_ + _) with ((2 - x / Z.of_nat B) * Z.of_nat B) by lia. apply Z.mod_mul. lia.
Qed.

Lemma Finalize_reads init msg o L sizedesc : (∀ x, length (sizedesc x) = L) → (L + 1 <= B)%nat → reads init msg o →
  h_s (hash_Finalize (2 * Z.of_nat B - 1 - Z.of_nat L) sizedesc o) = compress (length (padded sizedesc L msg) / B) init (padded sizedesc L msg).
Proof.
  intros Hd HL H. unfold hash_Finalize. pose proof (rd_bytes _ _ _ H) as Hb. pose proof (zeros_spec L (length msg)) as [Hz _].
  assert ((2 * Z.of_nat B - 1 - Z.of_nat L - h_bytes o mod Z.of_nat B) mod Z.of_nat B = Z.of_nat (zeros L (length msg))) as Hpad.
  { unfold zeros. rewrite Hb, bytes_mod, Z2Nat.id by (apply Z.mod_pos_bound; lia). apply Zminus_mod_idemp_r. }
  rewrite Hpad. replace (Z.to_nat (1 + Z.of_nat (zeros L (length msg)))) with (S (zeros L (length msg))) by lia. cbn [take]. rewrite take_replicate, Nat.min_l by lia.
  assert (u64 (Z.shiftl (h_bytes o) 3) = u64 (8 * Z.of_nat (length msg))) as ->.
  { rewrite Hb, Z.shiftl_mul_pow2 by lia. unfold u64, uwrap. rewrite Zmult_mod_idemp_l. f_equal. lia. }
  pose proof (Write_reads _ _ _ (sizedesc (u64 (8 * Z.of_nat (length msg)))) (Write_reads _ _ _ (0x80 :: replicate (zeros L (length msg)) 0) H)) as [_ _ -> _].
  unfold padded. by rewrite <- app_assoc.
Qed.
End stream.
