(* ===== verification/Sha2.v ===== *)
(** * SHA-256 and SHA-512: src/src/crypto/sha256.cpp, sha512.cpp

    The unrolled rounds of the two [Transform] functions against the loop of the standard
    (FIPS 180-4). *)

From S2P Require Import Prelude Serialize HashStream.

Open Scope Z_scope.

(** ** Rounds over a window of 16 words *)

Section window.
Context {R C : Type} (step : R → C * Z → R) (next : list Z → Z).

(** A round for each constant; the window holds the next 16 words. *)
Fixpoint rounds (cs : list C) (window : list Z) (r : R) : R :=
  match cs, window with
  | c :: cs, w :: rest => rounds cs (rest ++ [next window]) (step r (c, w))
  | _, _ => r
  end.
(** The window [n] rounds later. *)
Fixpoint slide (n : nat) (window : list Z) : list Z :=
  match n with O => window | S n => slide n (tail window ++ [next window]) end.

Lemma slide_length n window : window ≠ [] → length (slide n window) = length window.
Proof.
  revert window. induction n as [|n IH]; intros window Hw; cbn [slide]; [done|]. destruct window as [|x l]; [done|]. cbn [tail]. rewrite IH by (by destruct l). rewrite length_app. cbn. lia.
Qed.
Lemma rounds_prefix cs : ∀ window more r, (length cs <= length window)%nat → rounds cs (window ++ more) r = foldl step r (zip cs window).
Proof.
  induction cs as [|c cs IH]; intros window more r Hl; [by destruct window|]. destruct window as [|x l]; cbn in Hl; [lia|]. cbn [rounds app zip zip_with foldl].
  rewrite <- app_assoc. apply IH. lia.
Qed.
Lemma rounds_app cs1 cs2 : ∀ window r, window ≠ [] → rounds (cs1 ++ cs2) window r = rounds cs2 (slide (length cs1) window) (rounds cs1 window r).
Proof.
  induction cs1 as [|c cs IH]; intros window r Hw; [by destruct window|]. destruct window as [|x l]; [done|]. cbn [rounds app length slide tail]. apply IH. by destruct l.
Qed.
Lemma rounds_last cs window r : (length cs <= length window)%nat → rounds cs window r = foldl step r (zip cs window).
Proof. intros H. rewrite <- (app_nil_r window) at 1. by apply rounds_prefix. Qed.
(** Sixteen rounds at a time. *)
Lemma rounds_group cs1 cs2 window r : length cs1 = 16%nat → length window = 16%nat →
  rounds (cs1 ++ cs2) window r = rounds cs2 (slide 16 window) (foldl step r (zip cs1 window)).
Proof. intros Hk Hw. rewrite rounds_app by (by destruct window). rewrite Hk. f_equal. apply rounds_last. lia. Qed.
End window.

Lemma rounds_sim {R C1 C2} (P : C1 → C2 → Prop) (step1 : R → C1 * Z → R) (step2 : R → C2 * Z → R) next cs1 cs2 : Forall2 P cs1 cs2 →
  (∀ r c1 c2 w, P c1 c2 → step1 r (c1, w) = step2 r (c2, w)) → ∀ window r, rounds step1 next cs1 window r = rounds step2 next cs2 window r.
Proof.
  intros HP Hs. induction HP as [|c1 c2 cs1 cs2 H _ IH]; intros window r; [done|]. destruct window as [|x l]; [done|]. cbn [rounds]. by rewrite (Hs r c1 c2 x H), IH.
Qed.

(** ** The standard *)

(** The constants are the first [w] bits of the fractional parts of roots of the first
    primes: cube roots for the rounds, square roots for the initial value. *)
Definition is_prime (p : nat) : bool := forallb (fun d => negb (p mod d =? 0)%nat) (seq 2 (p - 2)).
Definition primes (n : nat) : list Z := take n (map Z.of_nat (List.filter is_prime (seq 2 420))).

(** The largest number of [n] more bits whose cube is at most [x]. *)
Fixpoint cube_root (n : nat) (acc x : Z) : Z :=
  match n with
  | O => acc
  | S n => let t := acc + 2 ^ Z.of_nat n in cube_root n (if t ^ 3 <=? x then t else acc) x
  end.
Definition cube_constants (w : Z) (n : nat) : list Z :=
  map (fun p => cube_root (Z.to_nat w + 3) 0 (p * 2 ^ (3 * w)) mod 2 ^ w) (primes n).
Definition square_constants (w : Z) (n : nat) : list Z :=
  map (fun p => Z.sqrt (p * 2 ^ (2 * w)) mod 2 ^ w) (primes n).

Lemma cube_root_spec n : ∀ acc x, acc ^ 3 <= x < (acc + 2 ^ Z.of_nat n) ^ 3 →
  let r := cube_root n acc x in r ^ 3 <= x < (r + 1) ^ 3.
Proof.
  induction n as [|n IH]; intros acc x H; cbn [cube_root]; [done|]. apply IH. rewrite Nat2Z.inj_succ, Z.pow_succ_r in H by lia.
  destruct (Z.leb_spec ((acc + 2 ^ Z.of_nat n) ^ 3) x) as [Hle|Hlt]; [|lia]. split; [done|].
  replace (acc + 2 ^ Z.of_nat n + 2 ^ Z.of_nat n) with (acc + 2 * 2 ^ Z.of_nat n) by lia. lia.
Qed.

Definition registers : Type := Z * Z * Z * Z * Z * Z * Z * Z.

Definition fips_Ch (x y z : Z) : Z := Z.lxor (Z.land x y) (Z.land (Z.lnot x) z).
Definition fips_Maj (x y z : Z) : Z := Z.lxor (Z.lxor (Z.land x y) (Z.land x z)) (Z.land y z).

(** Rotation to the right of a word of [w] bits, and the functions of three rotations or
    shifts: bit [i] of the result is bit [i + n] of the word, around the end. *)
Definition ROTR (w n x : Z) : Z := Z.lor (Z.shiftr x n) (uwrap w (Z.shiftl x (w - n))).
Definition fips_Sigma (w i j k x : Z) : Z := Z.lxor (Z.lxor (ROTR w i x) (ROTR w j x)) (ROTR w k x).
Definition fips_sigma (w i j k x : Z) : Z := Z.lxor (Z.lxor (ROTR w i x) (ROTR w j x)) (Z.shiftr x k).
Lemma ROTR_bit w n x i : 0 <= x < 2 ^ w → 0 < n < w → 0 <= i < w → Z.testbit (ROTR w n x) i = Z.testbit x ((i + n) mod w).
Proof.
  intros Hx Hn Hi. unfold ROTR, uwrap. rewrite Z.lor_spec, Z.shiftr_spec, Z.mod_pow2_bits_low, Z.shiftl_spec by lia.
  destruct (Z.lt_ge_cases (i + n) w) as [Hlt|Hge].
  - rewrite Z.mod_small, (Z.testbit_neg_r x (i - (w - n))), orb_false_r by lia. done.
  - replace ((i + n) mod w) with (i - (w - n)) by (apply (Z.mod_unique_pos _ _ 1); lia).
    replace (Z.testbit x (i + n)) with false; [done|]. symmetry. apply Z.testbit_false; [lia|]. rewrite Z.div_small; [done|].
    split; [lia|]. eapply Z.lt_le_trans; [apply Hx|]. apply Z.pow_le_mono_r; lia.
Qed.

Section fips.
Context (w : Z) (Sigma0 Sigma1 sigma0 sigma1 : Z → Z).

Definition step (r : registers) (kw : Z * Z) : registers :=
  let '(a, b, c, d, e, f, g, h) := r in
  let t1 := uwrap w (h + Sigma1 e + fips_Ch e f g + kw.1 + kw.2) in
  let t2 := uwrap w (Sigma0 a + fips_Maj a b c) in
  (uwrap w (t1 + t2), a, b, c, uwrap w (d + t1), e, f, g).

(** The word after the last 16 of them. *)
Definition next_word (window : list Z) : Z :=
  uwrap w (nth 0 window 0 + (sigma1 (nth 14 window 0) + nth 9 window 0 + sigma0 (nth 1 window 0))).

Definition hash_block (ks s words : list Z) : list Z :=
  match s with
  | [a; b; c; d; e; f; g; h] =>
      let '(a', b', c', d', e', f', g', h') := rounds step next_word ks words (a, b, c, d, e, f, g, h) in
      [uwrap w (a + a'); uwrap w (b + b'); uwrap w (c + c'); uwrap w (d + d');
       uwrap w (e + e'); uwrap w (f + f'); uwrap w (g + g'); uwrap w (h + h')]
  | _ => s
  end.
End fips.

Lemma named (x : Z) : ∃ y, x = y.
Proof. by exists x. Qed.

Ltac name_fold r x := lazymatch goal with |- context [foldl ?f r ?l] => set (x := foldl f r l) end.
Ltac name_slide ws x := lazymatch goal with |- context [slide ?f 16 ws] => set (x := slide f 16 ws) end.
Ltac by_bits := apply Z.bits_inj'; intros n Hn; repeat rewrite ?Z.lxor_spec, ?Z.land_spec, ?Z.lor_spec, ?Z.lnot_spec by lia.

Lemma Ch_eq x y z : Z.lxor z (Z.land x (Z.lxor y z)) = fips_Ch x y z.
Proof. unfold fips_Ch. by_bits. by destruct (Z.testbit x n), (Z.testbit y n), (Z.testbit z n). Qed.
Lemma Maj_eq x y z : Z.lor (Z.land x y) (Z.land z (Z.lor x y)) = fips_Maj x y z.
Proof. unfold fips_Maj. by_bits. by destruct (Z.testbit x n), (Z.testbit y n), (Z.testbit z n). Qed.

Module sha256.

Definition Ch (x y z : Z) : Z := Z.lxor z (Z.land x (Z.lxor y z)).
Definition Maj (x y z : Z) : Z := Z.lor (Z.land x y) (Z.land z (Z.lor x y)).
Definition Sigma0 (x : Z) : Z :=
  Z.lxor (Z.lxor (Z.lor (Z.shiftr x 2) (u32 (Z.shiftl x 30))) (Z.lor (Z.shiftr x 13) (u32 (Z.shiftl x 19)))) (Z.lor (Z.shiftr x 22) (u32 (Z.shiftl x 10))).
Definition Sigma1 (x : Z) : Z :=
  Z.lxor (Z.lxor (Z.lor (Z.shiftr x 6) (u32 (Z.shiftl x 26))) (Z.lor (Z.shiftr x 11) (u32 (Z.shiftl x 21)))) (Z.lor (Z.shiftr x 25) (u32 (Z.shiftl x 7))).
Definition sigma0 (x : Z) : Z :=
  Z.lxor (Z.lxor (Z.lor (Z.shiftr x 7) (u32 (Z.shiftl x 25))) (Z.lor (Z.shiftr x 18) (u32 (Z.shiftl x 14)))) (Z.shiftr x 3).
Definition sigma1 (x : Z) : Z :=
  Z.lxor (Z.lxor (Z.lor (Z.shiftr x 17) (u32 (Z.shiftl x 15))) (Z.lor (Z.shiftr x 19) (u32 (Z.shiftl x 13)))) (Z.shiftr x 10).

(** One round; the new values of [d] and [h]. *)
Definition Round (a b c d e f g h k w : Z) : Z * Z :=
  let t1 := u32 (h + Sigma1 e + Ch e f g + k + w) in
  let t2 := u32 (Sigma0 a + Maj a b c) in
  (u32 (d + t1), u32 (t1 + t2)).

Definition Initialize : list Z :=
  [0x6a09e667; 0xbb67ae85; 0x3c6ef372; 0xa54ff53a;
   0x510e527f; 0x9b05688c; 0x1f83d9ab; 0x5be0cd19].

(** The loop is unrolled: groups of 16 rounds, after which the registers have their names
    again.  The words of the schedule replace each other. *)
Definition group0 (r : registers) (chunk : list Z) : registers * list Z :=
  let '(a, b, c, d, e, f, g, h) := r in
  let w0 := ReadBE32 (drop 0 chunk) in
  let '(d, h) := Round a b c d e f g h 0x428a2f98 w0 in
  let w1 := ReadBE32 (drop 4 chunk) in
  let '(c, g) := Round h a b c d e f g 0x71374491 w1 in
  let w2 := ReadBE32 (drop 8 chunk) in
  let '(b, f) := Round g h a b c d e f 0xb5c0fbcf w2 in
  let w3 := ReadBE32 (drop 12 chunk) in
  let '(a, e) := Round f g h a b c d e 0xe9b5dba5 w3 in
  let w4 := ReadBE32 (drop 16 chunk) in
  let '(h, d) := Round e f g h a b c d 0x3956c25b w4 in
  let w5 := ReadBE32 (drop 20 chunk) in
  let '(g, c) := Round d e f g h a b c 0x59f111f1 w5 in
  let w6 := ReadBE32 (drop 24 chunk) in
  let '(f, b) := Round c d e f g h a b 0x923f82a4 w6 in
  let w7 := ReadBE32 (drop 28 chunk) in
  let '(e, a) := Round b c d e f g h a 0xab1c5ed5 w7 in
  let w8 := ReadBE32 (drop 32 chunk) in
  let '(d, h) := Round a b c d e f g h 0xd807aa98 w8 in
  let w9 := ReadBE32 (drop 36 chunk) in
  let '(c, g) := Round h a b c d e f g 0x12835b01 w9 in
  let w10 := ReadBE32 (drop 40 chunk) in
  let '(b, f) := Round g h a b c d e f 0x243185be w10 in
  let w11 := ReadBE32 (drop 44 chunk) in
  let '(a, e) := Round f g h a b c d e 0x550c7dc3 w11 in
  let w12 := ReadBE32 (drop 48 chunk) in
  let '(h, d) := Round e f g h a b c d 0x72be5d74 w12 in
  let w13 := ReadBE32 (drop 52 chunk) in
  let '(g, c) := Round d e f g h a b c 0x80deb1fe w13 in
  let w14 := ReadBE32 (drop 56 chunk) in
  let '(f, b) := Round c d e f g h a b 0x9bdc06a7 w14 in
  let w15 := ReadBE32 (drop 60 chunk) in
  let '(e, a) := Round b c d e f g h a 0xc19bf174 w15 in
  ((a, b, c, d, e, f, g, h), [w0; w1; w2; w3; w4; w5; w6; w7; w8; w9; w10; w11; w12; w13; w14; w15]).

Definition group1 (r : registers) (w : list Z) : registers * list Z :=
  match r, w with
  | (a, b, c, d, e, f, g, h), [w0; w1; w2; w3; w4; w5; w6; w7; w8; w9; w10; w11; w12; w13; w14; w15] =>
      let w0 := u32 (w0 + (sigma1 w14 + w9 + sigma0 w1)) in
      let '(d, h) := Round a b c d e f g h 0xe49b69c1 w0 in
      let w1 := u32 (w1 + (sigma1 w15 + w10 + sigma0 w2)) in
      let '(c, g) := Round h a b c d e f g 0xefbe4786 w1 in
      let w2 := u32 (w2 + (sigma1 w0 + w11 + sigma0 w3)) in
      let '(b, f) := Round g h a b c d e f 0x0fc19dc6 w2 in
      let w3 := u32 (w3 + (sigma1 w1 + w12 + sigma0 w4)) in
      let '(a, e) := Round f g h a b c d e 0x240ca1cc w3 in
      let w4 := u32 (w4 + (sigma1 w2 + w13 + sigma0 w5)) in
      let '(h, d) := Round e f g h a b c d 0x2de92c6f w4 in
      let w5 := u32 (w5 + (sigma1 w3 + w14 + sigma0 w6)) in
      let '(g, c) := Round d e f g h a b c 0x4a7484aa w5 in
      let w6 := u32 (w6 + (sigma1 w4 + w15 + sigma0 w7)) in
      let '(f, b) := Round c d e f g h a b 0x5cb0a9dc w6 in
      let w7 := u32 (w7 + (sigma1 w5 + w0 + sigma0 w8)) in
      let '(e, a) := Round b c d e f g h a 0x76f988da w7 in
      let w8 := u32 (w8 + (sigma1 w6 + w1 + sigma0 w9)) in
      let '(d, h) := Round a b c d e f g h 0x983e5152 w8 in
      let w9 := u32 (w9 + (sigma1 w7 + w2 + sigma0 w10)) in
      let '(c, g) := Round h a b c d e f g 0xa831c66d w9 in
      let w10 := u32 (w10 + (sigma1 w8 + w3 + sigma0 w11)) in
      let '(b, f) := Round g h a b c d e f 0xb00327c8 w10 in
      let w11 := u32 (w11 + (sigma1 w9 + w4 + sigma0 w12)) in
      let '(a, e) := Round f g h a b c d e 0xbf597fc7 w11 in
      let w12 := u32 (w12 + (sigma1 w10 + w5 + sigma0 w13)) in
      let '(h, d) := Round e f g h a b c d 0xc6e00bf3 w12 in
      let w13 := u32 (w13 + (sigma1 w11 + w6 + sigma0 w14)) in
      let '(g, c) := Round d e f g h a b c 0xd5a79147 w13 in
      let w14 := u32 (w14 + (sigma1 w12 + w7 + sigma0 w15)) in
      let '(f, b) := Round c d e f g h a b 0x06ca6351 w14 in
      let w15 := u32 (w15 + (sigma1 w13 + w8 + sigma0 w0)) in
      let '(e, a) := Round b c d e f g h a 0x14292967 w15 in
      ((a, b, c, d, e, f, g, h), [w0; w1; w2; w3; w4; w5; w6; w7; w8; w9; w10; w11; w12; w13; w14; w15])
  | _, _ => (r, w)
  end.

Definition group2 (r : registers) (w : list Z) : registers * list Z :=
  match r, w with
  | (a, b, c, d, e, f, g, h), [w0; w1; w2; w3; w4; w5; w6; w7; w8; w9; w10; w11; w12; w13; w14; w15] =>
      let w0 := u32 (w0 + (sigma1 w14 + w9 + sigma0 w1)) in
      let '(d, h) := Round a b c d e f g h 0x27b70a85 w0 in
      let w1 := u32 (w1 + (sigma1 w15 + w10 + sigma0 w2)) in
      let '(c, g) := Round h a b c d e f g 0x2e1b2138 w1 in
      let w2 := u32 (w2 + (sigma1 w0 + w11 + sigma0 w3)) in
      let '(b, f) := Round g h a b c d e f 0x4d2c6dfc w2 in
      let w3 := u32 (w3 + (sigma1 w1 + w12 + sigma0 w4)) in
      let '(a, e) := Round f g h a b c d e 0x53380d13 w3 in
      let w4 := u32 (w4 + (sigma1 w2 + w13 + sigma0 w5)) in
      let '(h, d) := Round e f g h a b c d 0x650a7354 w4 in
      let w5 := u32 (w5 + (sigma1 w3 + w14 + sigma0 w6)) in
      let '(g, c) := Round d e f g h a b c 0x766a0abb w5 in
      let w6 := u32 (w6 + (sigma1 w4 + w15 + sigma0 w7)) in
      let '(f, b) := Round c d e f g h a b 0x81c2c92e w6 in
      let w7 := u32 (w7 + (sigma1 w5 + w0 + sigma0 w8)) in
      let '(e, a) := Round b c d e f g h a 0x92722c85 w7 in
      let w8 := u32 (w8 + (sigma1 w6 + w1 + sigma0 w9)) in
      let '(d, h) := Round a b c d e f g h 0xa2bfe8a1 w8 in
      let w9 := u32 (w9 + (sigma1 w7 + w2 + sigma0 w10)) in
      let '(c, g) := Round h a b c d e f g 0xa81a664b w9 in
      let w10 := u32 (w10 + (sigma1 w8 + w3 + sigma0 w11)) in
      let '(b, f) := Round g h a b c d e f 0xc24b8b70 w10 in
      let w11 := u32 (w11 + (sigma1 w9 + w4 + sigma0 w12)) in
      let '(a, e) := Round f g h a b c d e 0xc76c51a3 w11 in
      let w12 := u32 (w12 + (sigma1 w10 + w5 + sigma0 w13)) in
      let '(h, d) := Round e f g h a b c d 0xd192e819 w12 in
      let w13 := u32 (w13 + (sigma1 w11 + w6 + sigma0 w14)) in
      let '(g, c) := Round d e f g h a b c 0xd6990624 w13 in
      let w14 := u32 (w14 + (sigma1 w12 + w7 + sigma0 w15)) in
      let '(f, b) := Round c d e f g h a b 0xf40e3585 w14 in
      let w15 := u32 (w15 + (sigma1 w13 + w8 + sigma0 w0)) in
      let '(e, a) := Round b c d e f g h a 0x106aa070 w15 in
      ((a, b, c, d, e, f, g, h), [w0; w1; w2; w3; w4; w5; w6; w7; w8; w9; w10; w11; w12; w13; w14; w15])
  | _, _ => (r, w)
  end.

Definition group3 (r : registers) (w : list Z) : registers :=
  match r, w with
  | (a, b, c, d, e, f, g, h), [w0; w1; w2; w3; w4; w5; w6; w7; w8; w9; w10; w11; w12; w13; w14; w15] =>
      let w0 := u32 (w0 + (sigma1 w14 + w9 + sigma0 w1)) in
      let '(d, h) := Round a b c d e f g h 0x19a4c116 w0 in
      let w1 := u32 (w1 + (sigma1 w15 + w10 + sigma0 w2)) in
      let '(c, g) := Round h a b c d e f g 0x1e376c08 w1 in
      let w2 := u32 (w2 + (sigma1 w0 + w11 + sigma0 w3)) in
      let '(b, f) := Round g h a b c d e f 0x2748774c w2 in
      let w3 := u32 (w3 + (sigma1 w1 + w12 + sigma0 w4)) in
      let '(a, e) := Round f g h a b c d e 0x34b0bcb5 w3 in
      let w4 := u32 (w4 + (sigma1 w2 + w13 + sigma0 w5)) in
      let '(h, d) := Round e f g h a b c d 0x391c0cb3 w4 in
      let w5 := u32 (w5 + (sigma1 w3 + w14 + sigma0 w6)) in
      let '(g, c) := Round d e f g h a b c 0x4ed8aa4a w5 in
      let w6 := u32 (w6 + (sigma1 w4 + w15 + sigma0 w7)) in
      let '(f, b) := Round c d e f g h a b 0x5b9cca4f w6 in
      let w7 := u32 (w7 + (sigma1 w5 + w0 + sigma0 w8)) in
      let '(e, a) := Round b c d e f g h a 0x682e6ff3 w7 in
      let w8 := u32 (w8 + (sigma1 w6 + w1 + sigma0 w9)) in
      let '(d, h) := Round a b c d e f g h 0x748f82ee w8 in
      let w9 := u32 (w9 + (sigma1 w7 + w2 + sigma0 w10)) in
      let '(c, g) := Round h a b c d e f g 0x78a5636f w9 in
      let w10 := u32 (w10 + (sigma1 w8 + w3 + sigma0 w11)) in
      let '(b, f) := Round g h a b c d e f 0x84c87814 w10 in
      let w11 := u32 (w11 + (sigma1 w9 + w4 + sigma0 w12)) in
      let '(a, e) := Round f g h a b c d e 0x8cc70208 w11 in
      let w12 := u32 (w12 + (sigma1 w10 + w5 + sigma0 w13)) in
      let '(h, d) := Round e f g h a b c d 0x90befffa w12 in
      let w13 := u32 (w13 + (sigma1 w11 + w6 + sigma0 w14)) in
      let '(g, c) := Round d e f g h a b c 0xa4506ceb w13 in
      let '(f, b) := Round c d e f g h a b 0xbef9a3f7 (u32 (w14 + sigma1 w12 + w7 + sigma0 w15)) in
      let '(e, a) := Round b c d e f g h a 0xc67178f2 (u32 (w15 + sigma1 w13 + w8 + sigma0 w0)) in
      (a, b, c, d, e, f, g, h)
  | _, _ => r
  end.

Definition Transform (s chunk : list Z) : list Z :=
  match s with
  | [a; b; c; d; e; f; g; h] =>
      let '(r, w) := group0 (a, b, c, d, e, f, g, h) chunk in
      let '(r, w) := group1 r w in
      let '(r, w) := group2 r w in
      let '(a', b', c', d', e', f', g', h') := group3 r w in
      [u32 (a + a'); u32 (b + b'); u32 (c + c'); u32 (d + d'); u32 (e + e'); u32 (f + f'); u32 (g + g'); u32 (h + h')]
  | _ => s
  end.

(** ** The standard: constants, words and blocks *)

Definition K : list Z := Eval vm_compute in cube_constants 32 64.
Definition K0 : list Z := Eval vm_compute in take 16 (drop 0 K).
Definition K1 : list Z := Eval vm_compute in take 16 (drop 16 K).
Definition K2 : list Z := Eval vm_compute in take 16 (drop 32 K).
Definition K3 : list Z := Eval vm_compute in take 16 (drop 48 K).
Definition IV : list Z := Eval vm_compute in square_constants 32 8.
Definition words (chunk : list Z) : list Z := map (fun i => ReadBE32 (drop (4 * i) chunk)) (seq 0 16).
Definition block (s chunk : list Z) : list Z :=
  hash_block 32 (fips_Sigma 32 2 13 22) (fips_Sigma 32 6 11 25) (fips_sigma 32 7 18 3) (fips_sigma 32 17 19 10) K s (words chunk).

Lemma sha256_Initialize : Initialize = IV.
Proof. reflexivity. Qed.

Lemma sha256_sum a b c d : uwrap 32 (a + b + c + d) = uwrap 32 (a + (b + c + d)).
Proof. f_equal. lia. Qed.
Lemma sha256_step k wt a b c d e f g h :
  step 32 Sigma0 Sigma1 (a, b, c, d, e, f, g, h) (k, wt) = let '(d, h) := Round a b c d e f g h k wt in (h, a, b, c, d, e, f, g).
Proof. unfold step, Round, Ch, Maj. cbn [fst snd]. by rewrite Ch_eq, Maj_eq. Qed.

Lemma sha256_straight {A} (F : registers → A) k0 k1 k2 k3 k4 k5 k6 k7 k8 k9 k10 k11 k12 k13 k14 k15 v0 v1 v2 v3 v4 v5 v6 v7 v8 v9 v10 v11 v12 v13 v14 v15 a b c d e f g h :
  F (foldl (step 32 Sigma0 Sigma1) (a, b, c, d, e, f, g, h) (zip [k0; k1; k2; k3; k4; k5; k6; k7; k8; k9; k10; k11; k12; k13; k14; k15] [v0; v1; v2; v3; v4; v5; v6; v7; v8; v9; v10; v11; v12; v13; v14; v15])) =
    let '(d, h) := Round a b c d e f g h k0 v0 in
    let '(c, g) := Round h a b c d e f g k1 v1 in
    let '(b, f) := Round g h a b c d e f k2 v2 in
    let '(a, e) := Round f g h a b c d e k3 v3 in
    let '(h, d) := Round e f g h a b c d k4 v4 in
    let '(g, c) := Round d e f g h a b c k5 v5 in
    let '(f, b) := Round c d e f g h a b k6 v6 in
    let '(e, a) := Round b c d e f g h a k7 v7 in
    let '(d, h) := Round a b c d e f g h k8 v8 in
    let '(c, g) := Round h a b c d e f g k9 v9 in
    let '(b, f) := Round g h a b c d e f k10 v10 in
    let '(a, e) := Round f g h a b c d e k11 v11 in
    let '(h, d) := Round e f g h a b c d k12 v12 in
    let '(g, c) := Round d e f g h a b c k13 v13 in
    let '(f, b) := Round c d e f g h a b k14 v14 in
    let '(e, a) := Round b c d e f g h a k15 v15 in
    F (a, b, c, d, e, f, g, h).
Proof. cbn [zip zip_with foldl]. do 16 (rewrite sha256_step; match goal with |- context [Round ?a ?b ?c ?d ?e ?f ?g ?h ?k ?v] => destruct (Round a b c d e f g h k v) end). reflexivity. Qed.

Lemma sha256_group0 r chunk : group0 r chunk = (foldl (step 32 Sigma0 Sigma1) r (zip K0 (words chunk)), words chunk).
Proof. destruct r as [[[[[[[a b] c] d] e] f] g] h]. symmetry. exact (sha256_straight (fun r => (r, words chunk)) _ _ _ _ _ _ _ _ _ _ _ _ _ _ _ _ _ _ _ _ _ _ _ _ _ _ _ _ _ _ _ _ a b c d e f g h). Qed.
Lemma sha256_group1 r w : length w = 16%nat →
  group1 r w = (foldl (step 32 Sigma0 Sigma1) r (zip K1 (slide (next_word 32 sigma0 sigma1) 16 w)), slide (next_word 32 sigma0 sigma1) 16 w).
Proof.
  intros Hw. destruct w as [|z0 [|z1 [|z2 [|z3 [|z4 [|z5 [|z6 [|z7 [|z8 [|z9 [|z10 [|z11 [|z12 [|z13 [|z14 [|z15 [|]]]]]]]]]]]]]]]]]; try discriminate Hw. clear Hw.
  destruct r as [[[[[[[a b] c] d] e] f] g] h]. symmetry.
  destruct (named (uwrap 32 (z0 + (sigma1 z14 + z9 + sigma0 z1)))) as [v0 E0].
  destruct (named (uwrap 32 (z1 + (sigma1 z15 + z10 + sigma0 z2)))) as [v1 E1].
  destruct (named (uwrap 32 (z2 + (sigma1 v0 + z11 + sigma0 z3)))) as [v2 E2].
  destruct (named (uwrap 32 (z3 + (sigma1 v1 + z12 + sigma0 z4)))) as [v3 E3].
  destruct (named (uwrap 32 (z4 + (sigma1 v2 + z13 + sigma0 z5)))) as [v4 E4].
  destruct (named (uwrap 32 (z5 + (sigma1 v3 + z14 + sigma0 z6)))) as [v5 E5].
  destruct (named (uwrap 32 (z6 + (sigma1 v4 + z15 + sigma0 z7)))) as [v6 E6].
  destruct (named (uwrap 32 (z7 + (sigma1 v5 + v0 + sigma0 z8)))) as [v7 E7].
  destruct (named (uwrap 32 (z8 + (sigma1 v6 + v1 + sigma0 z9)))) as [v8 E8].
  destruct (named (uwrap 32 (z9 + (sigma1 v7 + v2 + sigma0 z10)))) as [v9 E9].
  destruct (named (uwrap 32 (z10 + (sigma1 v8 + v3 + sigma0 z11)))) as [v10 E10].
  destruct (named (uwrap 32 (z11 + (sigma1 v9 + v4 + sigma0 z12)))) as [v11 E11].
  destruct (named (uwrap 32 (z12 + (sigma1 v10 + v5 + sigma0 z13)))) as [v12 E12].
  destruct (named (uwrap 32 (z13 + (sigma1 v11 + v6 + sigma0 z14)))) as [v13 E13].
  destruct (named (uwrap 32 (z14 + (sigma1 v12 + v7 + sigma0 z15)))) as [v14 E14].
  destruct (named (uwrap 32 (z15 + (sigma1 v13 + v8 + sigma0 v0)))) as [v15 E15].
  cbv beta iota zeta delta [group1 slide next_word nth tail app u32]. rewrite E0, E1, E2, E3, E4, E5, E6, E7, E8, E9, E10, E11, E12, E13, E14, E15.
  exact (sha256_straight (fun r => (r, [v0; v1; v2; v3; v4; v5; v6; v7; v8; v9; v10; v11; v12; v13; v14; v15])) 0xe49b69c1 0xefbe4786 0x0fc19dc6 0x240ca1cc 0x2de92c6f 0x4a7484aa 0x5cb0a9dc 0x76f988da 0x983e5152 0xa831c66d 0xb00327c8 0xbf597fc7 0xc6e00bf3 0xd5a79147 0x06ca6351 0x14292967 v0 v1 v2 v3 v4 v5 v6 v7 v8 v9 v10 v11 v12 v13 v14 v15 a b c d e f g h).
Qed.
Lemma sha256_group2 r w : length w = 16%nat →
  group2 r w = (foldl (step 32 Sigma0 Sigma1) r (zip K2 (slide (next_word 32 sigma0 sigma1) 16 w)), slide (next_word 32 sigma0 sigma1) 16 w).
Proof.
  intros Hw. destruct w as [|z0 [|z1 [|z2 [|z3 [|z4 [|z5 [|z6 [|z7 [|z8 [|z9 [|z10 [|z11 [|z12 [|z13 [|z14 [|z15 [|]]]]]]]]]]]]]]]]]; try discriminate Hw. clear Hw.
  destruct r as [[[[[[[a b] c] d] e] f] g] h]. symmetry.
  destruct (named (uwrap 32 (z0 + (sigma1 z14 + z9 + sigma0 z1)))) as [v0 E0].
  destruct (named (uwrap 32 (z1 + (sigma1 z15 + z10 + sigma0 z2)))) as [v1 E1].
  destruct (named (uwrap 32 (z2 + (sigma1 v0 + z11 + sigma0 z3)))) as [v2 E2].
  destruct (named (uwrap 32 (z3 + (sigma1 v1 + z12 + sigma0 z4)))) as [v3 E3].
  destruct (named (uwrap 32 (z4 + (sigma1 v2 + z13 + sigma0 z5)))) as [v4 E4].
  destruct (named (uwrap 32 (z5 + (sigma1 v3 + z14 + sigma0 z6)))) as [v5 E5].
  destruct (named (uwrap 32 (z6 + (sigma1 v4 + z15 + sigma0 z7)))) as [v6 E6].
  destruct (named (uwrap 32 (z7 + (sigma1 v5 + v0 + sigma0 z8)))) as [v7 E7].
  destruct (named (uwrap 32 (z8 + (sigma1 v6 + v1 + sigma0 z9)))) as [v8 E8].
  destruct (named (uwrap 32 (z9 + (sigma1 v7 + v2 + sigma0 z10)))) as [v9 E9].
  destruct (named (uwrap 32 (z10 + (sigma1 v8 + v3 + sigma0 z11)))) as [v10 E10].
  destruct (named (uwrap 32 (z11 + (sigma1 v9 + v4 + sigma0 z12)))) as [v11 E11].
  destruct (named (uwrap 32 (z12 + (sigma1 v10 + v5 + sigma0 z13)))) as [v12 E12].
  destruct (named (uwrap 32 (z13 + (sigma1 v11 + v6 + sigma0 z14)))) as [v13 E13].
  destruct (named (uwrap 32 (z14 + (sigma1 v12 + v7 + sigma0 z15)))) as [v14 E14].
  destruct (named (uwrap 32 (z15 + (sigma1 v13 + v8 + sigma0 v0)))) as [v15 E15].
  cbv beta iota zeta delta [group2 slide next_word nth tail app u32]. rewrite E0, E1, E2, E3, E4, E5, E6, E7, E8, E9, E10, E11, E12, E13, E14, E15.
  exact (sha256_straight (fun r => (r, [v0; v1; v2; v3; v4; v5; v6; v7; v8; v9; v10; v11; v12; v13; v14; v15])) 0x27b70a85 0x2e1b2138 0x4d2c6dfc 0x53380d13 0x650a7354 0x766a0abb 0x81c2c92e 0x92722c85 0xa2bfe8a1 0xa81a664b 0xc24b8b70 0xc76c51a3 0xd192e819 0xd6990624 0xf40e3585 0x106aa070 v0 v1 v2 v3 v4 v5 v6 v7 v8 v9 v10 v11 v12 v13 v14 v15 a b c d e f g h).
Qed.
Lemma sha256_group3 r w : length w = 16%nat →
  group3 r w = foldl (step 32 Sigma0 Sigma1) r (zip K3 (slide (next_word 32 sigma0 sigma1) 16 w)).
Proof.
  intros Hw. destruct w as [|z0 [|z1 [|z2 [|z3 [|z4 [|z5 [|z6 [|z7 [|z8 [|z9 [|z10 [|z11 [|z12 [|z13 [|z14 [|z15 [|]]]]]]]]]]]]]]]]]; try discriminate Hw. clear Hw.
  destruct r as [[[[[[[a b] c] d] e] f] g] h]. symmetry.
  destruct (named (uwrap 32 (z0 + (sigma1 z14 + z9 + sigma0 z1)))) as [v0 E0].
  destruct (named (uwrap 32 (z1 + (sigma1 z15 + z10 + sigma0 z2)))) as [v1 E1].
  destruct (named (uwrap 32 (z2 + (sigma1 v0 + z11 + sigma0 z3)))) as [v2 E2].
  destruct (named (uwrap 32 (z3 + (sigma1 v1 + z12 + sigma0 z4)))) as [v3 E3].
  destruct (named (uwrap 32 (z4 + (sigma1 v2 + z13 + sigma0 z5)))) as [v4 E4].
  destruct (named (uwrap 32 (z5 + (sigma1 v3 + z14 + sigma0 z6)))) as [v5 E5].
  destruct (named (uwrap 32 (z6 + (sigma1 v4 + z15 + sigma0 z7)))) as [v6 E6].
  destruct (named (uwrap 32 (z7 + (sigma1 v5 + v0 + sigma0 z8)))) as [v7 E7].
  destruct (named (uwrap 32 (z8 + (sigma1 v6 + v1 + sigma0 z9)))) as [v8 E8].
  destruct (named (uwrap 32 (z9 + (sigma1 v7 + v2 + sigma0 z10)))) as [v9 E9].
  destruct (named (uwrap 32 (z10 + (sigma1 v8 + v3 + sigma0 z11)))) as [v10 E10].
  destruct (named (uwrap 32 (z11 + (sigma1 v9 + v4 + sigma0 z12)))) as [v11 E11].
  destruct (named (uwrap 32 (z12 + (sigma1 v10 + v5 + sigma0 z13)))) as [v12 E12].
  destruct (named (uwrap 32 (z13 + (sigma1 v11 + v6 + sigma0 z14)))) as [v13 E13].
  destruct (named (uwrap 32 (z14 + (sigma1 v12 + v7 + sigma0 z15)))) as [v14 E14].
  destruct (named (uwrap 32 (z15 + (sigma1 v13 + v8 + sigma0 v0)))) as [v15 E15].
  cbv beta iota zeta delta [group3 slide next_word nth tail app u32]. rewrite !sha256_sum. rewrite E0, E1, E2, E3, E4, E5, E6, E7, E8, E9, E10, E11, E12, E13, E14, E15.
  exact (sha256_straight (fun r => r) 0x19a4c116 0x1e376c08 0x2748774c 0x34b0bcb5 0x391c0cb3 0x4ed8aa4a 0x5b9cca4f 0x682e6ff3 0x748f82ee 0x78a5636f 0x84c87814 0x8cc70208 0x90befffa 0xa4506ceb 0xbef9a3f7 0xc67178f2 v0 v1 v2 v3 v4 v5 v6 v7 v8 v9 v10 v11 v12 v13 v14 v15 a b c d e f g h).
Qed.

(** The unrolled loop computes the rounds of the standard. *)
Lemma sha256_unrolled s chunk : Transform s chunk = block s chunk.
Proof.
  destruct s as [|a [|b [|c [|d [|e [|f [|g [|h [|]]]]]]]]]; [reflexivity|reflexivity|reflexivity|reflexivity|reflexivity|reflexivity|reflexivity|reflexivity| |reflexivity].
  unfold Transform, block, hash_block. change (fips_Sigma 32 2 13 22) with Sigma0. change (fips_Sigma 32 6 11 25) with Sigma1.
  change (fips_sigma 32 7 18 3) with sigma0. change (fips_sigma 32 17 19 10) with sigma1. change K with (K0 ++ K1 ++ K2 ++ K3). set (r := (a, b, c, d, e, f, g, h)). set (ws := words chunk). assert (length ws = 16%nat) as Hw by reflexivity.
  rewrite sha256_group0. fold ws. rewrite rounds_group by done. name_fold r r0. clearbody r0 ws r. cbv beta iota.
  rewrite sha256_group1 by done. name_slide ws ws1. assert (length ws1 = 16%nat) as Hw1 by (unfold ws1; rewrite slide_length; [done|by destruct ws]). rewrite rounds_group by done. name_fold r0 r1. clearbody r1 ws1. clear ws Hw. rename ws1 into ws, Hw1 into Hw. cbv beta iota.
  rewrite sha256_group2 by done. name_slide ws ws2. assert (length ws2 = 16%nat) as Hw2 by (unfold ws2; rewrite slide_length; [done|by destruct ws]). rewrite rounds_group by done. name_fold r1 r2. clearbody r2 ws2. clear ws Hw. rename ws2 into ws, Hw2 into Hw. cbv beta iota.
  rewrite sha256_group3 by done. rewrite rounds_last by (rewrite slide_length by (by destruct ws); rewrite Hw; unfold K3; cbn [length]; lia). reflexivity.
Qed.

End sha256.

Module sha512.

Definition Ch (x y z : Z) : Z := Z.lxor z (Z.land x (Z.lxor y z)).
Definition Maj (x y z : Z) : Z := Z.lor (Z.land x y) (Z.land z (Z.lor x y)).
Definition Sigma0 (x : Z) : Z :=
  Z.lxor (Z.lxor (Z.lor (Z.shiftr x 28) (u64 (Z.shiftl x 36))) (Z.lor (Z.shiftr x 34) (u64 (Z.shiftl x 30)))) (Z.lor (Z.shiftr x 39) (u64 (Z.shiftl x 25))).
Definition Sigma1 (x : Z) : Z :=
  Z.lxor (Z.lxor (Z.lor (Z.shiftr x 14) (u64 (Z.shiftl x 50))) (Z.lor (Z.shiftr x 18) (u64 (Z.shiftl x 46)))) (Z.lor (Z.shiftr x 41) (u64 (Z.shiftl x 23))).
Definition sigma0 (x : Z) : Z :=
  Z.lxor (Z.lxor (Z.lor (Z.shiftr x 1) (u64 (Z.shiftl x 63))) (Z.lor (Z.shiftr x 8) (u64 (Z.shiftl x 56)))) (Z.shiftr x 7).
Definition sigma1 (x : Z) : Z :=
  Z.lxor (Z.lxor (Z.lor (Z.shiftr x 19) (u64 (Z.shiftl x 45))) (Z.lor (Z.shiftr x 61) (u64 (Z.shiftl x 3)))) (Z.shiftr x 6).

(** One round; the new values of [d] and [h]. *)
Definition Round (a b c d e f g h k w : Z) : Z * Z :=
  let t1 := u64 (h + Sigma1 e + Ch e f g + k + w) in
  let t2 := u64 (Sigma0 a + Maj a b c) in
  (u64 (d + t1), u64 (t1 + t2)).

Definition Initialize : list Z :=
  [0x6a09e667f3bcc908; 0xbb67ae8584caa73b; 0x3c6ef372fe94f82b; 0xa54ff53a5f1d36f1;
   0x510e527fade682d1; 0x9b05688c2b3e6c1f; 0x1f83d9abfb41bd6b; 0x5be0cd19137e2179].

(** The loop is unrolled: groups of 16 rounds, after which the registers have their names
    again.  The words of the schedule replace each other. *)
Definition group0 (r : registers) (chunk : list Z) : registers * list Z :=
  let '(a, b, c, d, e, f, g, h) := r in
  let w0 := ReadBE64 (drop 0 chunk) in
  let '(d, h) := Round a b c d e f g h 0x428a2f98d728ae22 w0 in
  let w1 := ReadBE64 (drop 8 chunk) in
  let '(c, g) := Round h a b c d e f g 0x7137449123ef65cd w1 in
  let w2 := ReadBE64 (drop 16 chunk) in
  let '(b, f) := Round g h a b c d e f 0xb5c0fbcfec4d3b2f w2 in
  let w3 := ReadBE64 (drop 24 chunk) in
  let '(a, e) := Round f g h a b c d e 0xe9b5dba58189dbbc w3 in
  let w4 := ReadBE64 (drop 32 chunk) in
  let '(h, d) := Round e f g h a b c d 0x3956c25bf348b538 w4 in
  let w5 := ReadBE64 (drop 40 chunk) in
  let '(g, c) := Round d e f g h a b c 0x59f111f1b605d019 w5 in
  let w6 := ReadBE64 (drop 48 chunk) in
  let '(f, b) := Round c d e f g h a b 0x923f82a4af194f9b w6 in
  let w7 := ReadBE64 (drop 56 chunk) in
  let '(e, a) := Round b c d e f g h a 0xab1c5ed5da6d8118 w7 in
  let w8 := ReadBE64 (drop 64 chunk) in
  let '(d, h) := Round a b c d e f g h 0xd807aa98a3030242 w8 in
  let w9 := ReadBE64 (drop 72 chunk) in
  let '(c, g) := Round h a b c d e f g 0x12835b0145706fbe w9 in
  let w10 := ReadBE64 (drop 80 chunk) in
  let '(b, f) := Round g h a b c d e f 0x243185be4ee4b28c w10 in
  let w11 := ReadBE64 (drop 88 chunk) in
  let '(a, e) := Round f g h a b c d e 0x550c7dc3d5ffb4e2 w11 in
  let w12 := ReadBE64 (drop 96 chunk) in
  let '(h, d) := Round e f g h a b c d 0x72be5d74f27b896f w12 in
  let w13 := ReadBE64 (drop 104 chunk) in
  let '(g, c) := Round d e f g h a b c 0x80deb1fe3b1696b1 w13 in
  let w14 := ReadBE64 (drop 112 chunk) in
  let '(f, b) := Round c d e f g h a b 0x9bdc06a725c71235 w14 in
  let w15 := ReadBE64 (drop 120 chunk) in
  let '(e, a) := Round b c d e f g h a 0xc19bf174cf692694 w15 in
  ((a, b, c, d, e, f, g, h), [w0; w1; w2; w3; w4; w5; w6; w7; w8; w9; w10; w11; w12; w13; w14; w15]).

Definition group1 (r : registers) (w : list Z) : registers * list Z :=
  match r, w with
  | (a, b, c, d, e, f, g, h), [w0; w1; w2; w3; w4; w5; w6; w7; w8; w9; w10; w11; w12; w13; w14; w15] =>
      let w0 := u64 (w0 + (sigma1 w14 + w9 + sigma0 w1)) in
      let '(d, h) := Round a b c d e f g h 0xe49b69c19ef14ad2 w0 in
      let w1 := u64 (w1 + (sigma1 w15 + w10 + sigma0 w2)) in
      let '(c, g) := Round h a b c d e f g 0xefbe4786384f25e3 w1 in
      let w2 := u64 (w2 + (sigma1 w0 + w11 + sigma0 w3)) in
      let '(b, f) := Round g h a b c d e f 0x0fc19dc68b8cd5b5 w2 in
      let w3 := u64 (w3 + (sigma1 w1 + w12 + sigma0 w4)) in
      let '(a, e) := Round f g h a b c d e 0x240ca1cc77ac9c65 w3 in
      let w4 := u64 (w4 + (sigma1 w2 + w13 + sigma0 w5)) in
      let '(h, d) := Round e f g h a b c d 0x2de92c6f592b0275 w4 in
      let w5 := u64 (w5 + (sigma1 w3 + w14 + sigma0 w6)) in
      let '(g, c) := Round d e f g h a b c 0x4a7484aa6ea6e483 w5 in
      let w6 := u64 (w6 + (sigma1 w4 + w15 + sigma0 w7)) in
      let '(f, b) := Round c d e f g h a b 0x5cb0a9dcbd41fbd4 w6 in
      let w7 := u64 (w7 + (sigma1 w5 + w0 + sigma0 w8)) in
      let '(e, a) := Round b c d e f g h a 0x76f988da831153b5 w7 in
      let w8 := u64 (w8 + (sigma1 w6 + w1 + sigma0 w9)) in
      let '(d, h) := Round a b c d e f g h 0x983e5152ee66dfab w8 in
      let w9 := u64 (w9 + (sigma1 w7 + w2 + sigma0 w10)) in
      let '(c, g) := Round h a b c d e f g 0xa831c66d2db43210 w9 in
      let w10 := u64 (w10 + (sigma1 w8 + w3 + sigma0 w11)) in
      let '(b, f) := Round g h a b c d e f 0xb00327c898fb213f w10 in
      let w11 := u64 (w11 + (sigma1 w9 + w4 + sigma0 w12)) in
      let '(a, e) := Round f g h a b c d e 0xbf597fc7beef0ee4 w11 in
      let w12 := u64 (w12 + (sigma1 w10 + w5 + sigma0 w13)) in
      let '(h, d) := Round e f g h a b c d 0xc6e00bf33da88fc2 w12 in
      let w13 := u64 (w13 + (sigma1 w11 + w6 + sigma0 w14)) in
      let '(g, c) := Round d e f g h a b c 0xd5a79147930aa725 w13 in
      let w14 := u64 (w14 + (sigma1 w12 + w7 + sigma0 w15)) in
      let '(f, b) := Round c d e f g h a b 0x06ca6351e003826f w14 in
      let w15 := u64 (w15 + (sigma1 w13 + w8 + sigma0 w0)) in
      let '(e, a) := Round b c d e f g h a 0x142929670a0e6e70 w15 in
      ((a, b, c, d, e, f, g, h), [w0; w1; w2; w3; w4; w5; w6; w7; w8; w9; w10; w11; w12; w13; w14; w15])
  | _, _ => (r, w)
  end.

Definition group2 (r : registers) (w : list Z) : registers * list Z :=
  match r, w with
  | (a, b, c, d, e, f, g, h), [w0; w1; w2; w3; w4; w5; w6; w7; w8; w9; w10; w11; w12; w13; w14; w15] =>
      let w0 := u64 (w0 + (sigma1 w14 + w9 + sigma0 w1)) in
      let '(d, h) := Round a b c d e f g h 0x27b70a8546d22ffc w0 in
      let w1 := u64 (w1 + (sigma1 w15 + w10 + sigma0 w2)) in
      let '(c, g) := Round h a b c d e f g 0x2e1b21385c26c926 w1 in
      let w2 := u64 (w2 + (sigma1 w0 + w11 + sigma0 w3)) in
      let '(b, f) := Round g h a b c d e f 0x4d2c6dfc5ac42aed w2 in
      let w3 := u64 (w3 + (sigma1 w1 + w12 + sigma0 w4)) in
      let '(a, e) := Round f g h a b c d e 0x53380d139d95b3df w3 in
      let w4 := u64 (w4 + (sigma1 w2 + w13 + sigma0 w5)) in
      let '(h, d) := Round e f g h a b c d 0x650a73548baf63de w4 in
      let w5 := u64 (w5 + (sigma1 w3 + w14 + sigma0 w6)) in
      let '(g, c) := Round d e f g h a b c 0x766a0abb3c77b2a8 w5 in
      let w6 := u64 (w6 + (sigma1 w4 + w15 + sigma0 w7)) in
      let '(f, b) := Round c d e f g h a b 0x81c2c92e47edaee6 w6 in
      let w7 := u64 (w7 + (sigma1 w5 + w0 + sigma0 w8)) in
      let '(e, a) := Round b c d e f g h a 0x92722c851482353b w7 in
      let w8 := u64 (w8 + (sigma1 w6 + w1 + sigma0 w9)) in
      let '(d, h) := Round a b c d e f g h 0xa2bfe8a14cf10364 w8 in
      let w9 := u64 (w9 + (sigma1 w7 + w2 + sigma0 w10)) in
      let '(c, g) := Round h a b c d e f g 0xa81a664bbc423001 w9 in
      let w10 := u64 (w10 + (sigma1 w8 + w3 + sigma0 w11)) in
      let '(b, f) := Round g h a b c d e f 0xc24b8b70d0f89791 w10 in
      let w11 := u64 (w11 + (sigma1 w9 + w4 + sigma0 w12)) in
      let '(a, e) := Round f g h a b c d e 0xc76c51a30654be30 w11 in
      let w12 := u64 (w12 + (sigma1 w10 + w5 + sigma0 w13)) in
      let '(h, d) := Round e f g h a b c d 0xd192e819d6ef5218 w12 in
      let w13 := u64 (w13 + (sigma1 w11 + w6 + sigma0 w14)) in
      let '(g, c) := Round d e f g h a b c 0xd69906245565a910 w13 in
      let w14 := u64 (w14 + (sigma1 w12 + w7 + sigma0 w15)) in
      let '(f, b) := Round c d e f g h a b 0xf40e35855771202a w14 in
      let w15 := u64 (w15 + (sigma1 w13 + w8 + sigma0 w0)) in
      let '(e, a) := Round b c d e f g h a 0x106aa07032bbd1b8 w15 in
      ((a, b, c, d, e, f, g, h), [w0; w1; w2; w3; w4; w5; w6; w7; w8; w9; w10; w11; w12; w13; w14; w15])
  | _, _ => (r, w)
  end.

Definition group3 (r : registers) (w : list Z) : registers * list Z :=
  match r, w with
  | (a, b, c, d, e, f, g, h), [w0; w1; w2; w3; w4; w5; w6; w7; w8; w9; w10; w11; w12; w13; w14; w15] =>
      let w0 := u64 (w0 + (sigma1 w14 + w9 + sigma0 w1)) in
      let '(d, h) := Round a b c d e f g h 0x19a4c116b8d2d0c8 w0 in
      let w1 := u64 (w1 + (sigma1 w15 + w10 + sigma0 w2)) in
      let '(c, g) := Round h a b c d e f g 0x1e376c085141ab53 w1 in
      let w2 := u64 (w2 + (sigma1 w0 + w11 + sigma0 w3)) in
      let '(b, f) := Round g h a b c d e f 0x2748774cdf8eeb99 w2 in
      let w3 := u64 (w3 + (sigma1 w1 + w12 + sigma0 w4)) in
      let '(a, e) := Round f g h a b c d e 0x34b0bcb5e19b48a8 w3 in
      let w4 := u64 (w4 + (sigma1 w2 + w13 + sigma0 w5)) in
      let '(h, d) := Round e f g h a b c d 0x391c0cb3c5c95a63 w4 in
      let w5 := u64 (w5 + (sigma1 w3 + w14 + sigma0 w6)) in
      let '(g, c) := Round d e f g h a b c 0x4ed8aa4ae3418acb w5 in
      let w6 := u64 (w6 + (sigma1 w4 + w15 + sigma0 w7)) in
      let '(f, b) := Round c d e f g h a b 0x5b9cca4f7763e373 w6 in
      let w7 := u64 (w7 + (sigma1 w5 + w0 + sigma0 w8)) in
      let '(e, a) := Round b c d e f g h a 0x682e6ff3d6b2b8a3 w7 in
      let w8 := u64 (w8 + (sigma1 w6 + w1 + sigma0 w9)) in
      let '(d, h) := Round a b c d e f g h 0x748f82ee5defb2fc w8 in
      let w9 := u64 (w9 + (sigma1 w7 + w2 + sigma0 w10)) in
      let '(c, g) := Round h a b c d e f g 0x78a5636f43172f60 w9 in
      let w10 := u64 (w10 + (sigma1 w8 + w3 + sigma0 w11)) in
      let '(b, f) := Round g h a b c d e f 0x84c87814a1f0ab72 w10 in
      let w11 := u64 (w11 + (sigma1 w9 + w4 + sigma0 w12)) in
      let '(a, e) := Round f g h a b c d e 0x8cc702081a6439ec w11 in
      let w12 := u64 (w12 + (sigma1 w10 + w5 + sigma0 w13)) in
      let '(h, d) := Round e f g h a b c d 0x90befffa23631e28 w12 in
      let w13 := u64 (w13 + (sigma1 w11 + w6 + sigma0 w14)) in
      let '(g, c) := Round d e f g h a b c 0xa4506cebde82bde9 w13 in
      let w14 := u64 (w14 + (sigma1 w12 + w7 + sigma0 w15)) in
      let '(f, b) := Round c d e f g h a b 0xbef9a3f7b2c67915 w14 in
      let w15 := u64 (w15 + (sigma1 w13 + w8 + sigma0 w0)) in
      let '(e, a) := Round b c d e f g h a 0xc67178f2e372532b w15 in
      ((a, b, c, d, e, f, g, h), [w0; w1; w2; w3; w4; w5; w6; w7; w8; w9; w10; w11; w12; w13; w14; w15])
  | _, _ => (r, w)
  end.

Definition group4 (r : registers) (w : list Z) : registers :=
  match r, w with
  | (a, b, c, d, e, f, g, h), [w0; w1; w2; w3; w4; w5; w6; w7; w8; w9; w10; w11; w12; w13; w14; w15] =>
      let w0 := u64 (w0 + (sigma1 w14 + w9 + sigma0 w1)) in
      let '(d, h) := Round a b c d e f g h 0xca273eceea26619c w0 in
      let w1 := u64 (w1 + (sigma1 w15 + w10 + sigma0 w2)) in
      let '(c, g) := Round h a b c d e f g 0xd186b8c721c0c207 w1 in
      let w2 := u64 (w2 + (sigma1 w0 + w11 + sigma0 w3)) in
      let '(b, f) := Round g h a b c d e f 0xeada7dd6cde0eb1e w2 in
      let w3 := u64 (w3 + (sigma1 w1 + w12 + sigma0 w4)) in
      let '(a, e) := Round f g h a b c d e 0xf57d4f7fee6ed178 w3 in
      let w4 := u64 (w4 + (sigma1 w2 + w13 + sigma0 w5)) in
      let '(h, d) := Round e f g h a b c d 0x06f067aa72176fba w4 in
      let w5 := u64 (w5 + (sigma1 w3 + w14 + sigma0 w6)) in
      let '(g, c) := Round d e f g h a b c 0x0a637dc5a2c898a6 w5 in
      let w6 := u64 (w6 + (sigma1 w4 + w15 + sigma0 w7)) in
      let '(f, b) := Round c d e f g h a b 0x113f9804bef90dae w6 in
      let w7 := u64 (w7 + (sigma1 w5 + w0 + sigma0 w8)) in
      let '(e, a) := Round b c d e f g h a 0x1b710b35131c471b w7 in
      let w8 := u64 (w8 + (sigma1 w6 + w1 + sigma0 w9)) in
      let '(d, h) := Round a b c d e f g h 0x28db77f523047d84 w8 in
      let w9 := u64 (w9 + (sigma1 w7 + w2 + sigma0 w10)) in
      let '(c, g) := Round h a b c d e f g 0x32caab7b40c72493 w9 in
      let w10 := u64 (w10 + (sigma1 w8 + w3 + sigma0 w11)) in
      let '(b, f) := Round g h a b c d e f 0x3c9ebe0a15c9bebc w10 in
      let w11 := u64 (w11 + (sigma1 w9 + w4 + sigma0 w12)) in
      let '(a, e) := Round f g h a b c d e 0x431d67c49c100d4c w11 in
      let w12 := u64 (w12 + (sigma1 w10 + w5 + sigma0 w13)) in
      let '(h, d) := Round e f g h a b c d 0x4cc5d4becb3e42b6 w12 in
      let w13 := u64 (w13 + (sigma1 w11 + w6 + sigma0 w14)) in
      let '(g, c) := Round d e f g h a b c 0x597f299cfc657e2a w13 in
      let '(f, b) := Round c d e f g h a b 0x5fcb6fab3ad6faec (u64 (w14 + sigma1 w12 + w7 + sigma0 w15)) in
      let '(e, a) := Round b c d e f g h a 0x6c44198c4a475817 (u64 (w15 + sigma1 w13 + w8 + sigma0 w0)) in
      (a, b, c, d, e, f, g, h)
  | _, _ => r
  end.

Definition Transform (s chunk : list Z) : list Z :=
  match s with
  | [a; b; c; d; e; f; g; h] =>
      let '(r, w) := group0 (a, b, c, d, e, f, g, h) chunk in
      let '(r, w) := group1 r w in
      let '(r, w) := group2 r w in
      let '(r, w) := group3 r w in
      let '(a', b', c', d', e', f', g', h') := group4 r w in
      [u64 (a + a'); u64 (b + b'); u64 (c + c'); u64 (d + d'); u64 (e + e'); u64 (f + f'); u64 (g + g'); u64 (h + h')]
  | _ => s
  end.

(** ** The standard: constants, words and blocks *)

Definition K : list Z := Eval vm_compute in cube_constants 64 80.
Definition K0 : list Z := Eval vm_compute in take 16 (drop 0 K).
Definition K1 : list Z := Eval vm_compute in take 16 (drop 16 K).
Definition K2 : list Z := Eval vm_compute in take 16 (drop 32 K).
Definition K3 : list Z := Eval vm_compute in take 16 (drop 48 K).
Definition K4 : list Z := Eval vm_compute in take 16 (drop 64 K).
Definition IV : list Z := Eval vm_compute in square_constants 64 8.
Definition words (chunk : list Z) : list Z := map (fun i => ReadBE64 (drop (8 * i) chunk)) (seq 0 16).
Definition block (s chunk : list Z) : list Z :=
  hash_block 64 (fips_Sigma 64 28 34 39) (fips_Sigma 64 14 18 41) (fips_sigma 64 1 8 7) (fips_sigma 64 19 61 6) K s (words chunk).

Lemma sha512_Initialize : Initialize = IV.
Proof. reflexivity. Qed.

Lemma sha512_sum a b c d : uwrap 64 (a + b + c + d) = uwrap 64 (a + (b + c + d)).
Proof. f_equal. lia. Qed.
Lemma sha512_step k wt a b c d e f g h :
  step 64 Sigma0 Sigma1 (a, b, c, d, e, f, g, h) (k, wt) = let '(d, h) := Round a b c d e f g h k wt in (h, a, b, c, d, e, f, g).
Proof. unfold step, Round, Ch, Maj. cbn [fst snd]. by rewrite Ch_eq, Maj_eq. Qed.

Lemma sha512_straight {A} (F : registers → A) k0 k1 k2 k3 k4 k5 k6 k7 k8 k9 k10 k11 k12 k13 k14 k15 v0 v1 v2 v3 v4 v5 v6 v7 v8 v9 v10 v11 v12 v13 v14 v15 a b c d e f g h :
  F (foldl (step 64 Sigma0 Sigma1) (a, b, c, d, e, f, g, h) (zip [k0; k1; k2; k3; k4; k5; k6; k7; k8; k9; k10; k11; k12; k13; k14; k15] [v0; v1; v2; v3; v4; v5; v6; v7; v8; v9; v10; v11; v12; v13; v14; v15])) =
    let '(d, h) := Round a b c d e f g h k0 v0 in
    let '(c, g) := Round h a b c d e f g k1 v1 in
    let '(b, f) := Round g h a b c d e f k2 v2 in
    let '(a, e) := Round f g h a b c d e k3 v3 in
    let '(h, d) := Round e f g h a b c d k4 v4 in
    let '(g, c) := Round d e f g h a b c k5 v5 in
    let '(f, b) := Round c d e f g h a b k6 v6 in
    let '(e, a) := Round b c d e f g h a k7 v7 in
    let '(d, h) := Round a b c d e f g h k8 v8 in
    let '(c, g) := Round h a b c d e f g k9 v9 in
    let '(b, f) := Round g h a b c d e f k10 v10 in
    let '(a, e) := Round f g h a b c d e k11 v11 in
    let '(h, d) := Round e f g h a b c d k12 v12 in
    let '(g, c) := Round d e f g h a b c k13 v13 in
    let '(f, b) := Round c d e f g h a b k14 v14 in
    let '(e, a) := Round b c d e f g h a k15 v15 in
    F (a, b, c, d, e, f, g, h).
Proof. cbn [zip zip_with foldl]. do 16 (rewrite sha512_step; match goal with |- context [Round ?a ?b ?c ?d ?e ?f ?g ?h ?k ?v] => destruct (Round a b c d e f g h k v) end). reflexivity. Qed.

Lemma sha512_group0 r chunk : group0 r chunk = (foldl (step 64 Sigma0 Sigma1) r (zip K0 (words chunk)), words chunk).
Proof. destruct r as [[[[[[[a b] c] d] e] f] g] h]. symmetry. exact (sha512_straight (fun r => (r, words chunk)) _ _ _ _ _ _ _ _ _ _ _ _ _ _ _ _ _ _ _ _ _ _ _ _ _ _ _ _ _ _ _ _ a b c d e f g h). Qed.
Lemma sha512_group1 r w : length w = 16%nat →
  group1 r w = (foldl (step 64 Sigma0 Sigma1) r (zip K1 (slide (next_word 64 sigma0 sigma1) 16 w)), slide (next_word 64 sigma0 sigma1) 16 w).
Proof.
  intros Hw. destruct w as [|z0 [|z1 [|z2 [|z3 [|z4 [|z5 [|z6 [|z7 [|z8 [|z9 [|z10 [|z11 [|z12 [|z13 [|z14 [|z15 [|]]]]]]]]]]]]]]]]]; try discriminate Hw. clear Hw.
  destruct r as [[[[[[[a b] c] d] e] f] g] h]. symmetry.
  destruct (named (uwrap 64 (z0 + (sigma1 z14 + z9 + sigma0 z1)))) as [v0 E0].
  destruct (named (uwrap 64 (z1 + (sigma1 z15 + z10 + sigma0 z2)))) as [v1 E1].
  destruct (named (uwrap 64 (z2 + (sigma1 v0 + z11 + sigma0 z3)))) as [v2 E2].
  destruct (named (uwrap 64 (z3 + (sigma1 v1 + z12 + sigma0 z4)))) as [v3 E3].
  destruct (named (uwrap 64 (z4 + (sigma1 v2 + z13 + sigma0 z5)))) as [v4 E4].
  destruct (named (uwrap 64 (z5 + (sigma1 v3 + z14 + sigma0 z6)))) as [v5 E5].
  destruct (named (uwrap 64 (z6 + (sigma1 v4 + z15 + sigma0 z7)))) as [v6 E6].
  destruct (named (uwrap 64 (z7 + (sigma1 v5 + v0 + sigma0 z8)))) as [v7 E7].
  destruct (named (uwrap 64 (z8 + (sigma1 v6 + v1 + sigma0 z9)))) as [v8 E8].
  destruct (named (uwrap 64 (z9 + (sigma1 v7 + v2 + sigma0 z10)))) as [v9 E9].
  destruct (named (uwrap 64 (z10 + (sigma1 v8 + v3 + sigma0 z11)))) as [v10 E10].
  destruct (named (uwrap 64 (z11 + (sigma1 v9 + v4 + sigma0 z12)))) as [v11 E11].
  destruct (named (uwrap 64 (z12 + (sigma1 v10 + v5 + sigma0 z13)))) as [v12 E12].
  destruct (named (uwrap 64 (z13 + (sigma1 v11 + v6 + sigma0 z14)))) as [v13 E13].
  destruct (named (uwrap 64 (z14 + (sigma1 v12 + v7 + sigma0 z15)))) as [v14 E14].
  destruct (named (uwrap 64 (z15 + (sigma1 v13 + v8 + sigma0 v0)))) as [v15 E15].
  cbv beta iota zeta delta [group1 slide next_word nth tail app u64]. rewrite E0, E1, E2, E3, E4, E5, E6, E7, E8, E9, E10, E11, E12, E13, E14, E15.
  exact (sha512_straight (fun r => (r, [v0; v1; v2; v3; v4; v5; v6; v7; v8; v9; v10; v11; v12; v13; v14; v15])) 0xe49b69c19ef14ad2 0xefbe4786384f25e3 0x0fc19dc68b8cd5b5 0x240ca1cc77ac9c65 0x2de92c6f592b0275 0x4a7484aa6ea6e483 0x5cb0a9dcbd41fbd4 0x76f988da831153b5 0x983e5152ee66dfab 0xa831c66d2db43210 0xb00327c898fb213f 0xbf597fc7beef0ee4 0xc6e00bf33da88fc2 0xd5a79147930aa725 0x06ca6351e003826f 0x142929670a0e6e70 v0 v1 v2 v3 v4 v5 v6 v7 v8 v9 v10 v11 v12 v13 v14 v15 a b c d e f g h).
Qed.
Lemma sha512_group2 r w : length w = 16%nat →
  group2 r w = (foldl (step 64 Sigma0 Sigma1) r (zip K2 (slide (next_word 64 sigma0 sigma1) 16 w)), slide (next_word 64 sigma0 sigma1) 16 w).
Proof.
  intros Hw. destruct w as [|z0 [|z1 [|z2 [|z3 [|z4 [|z5 [|z6 [|z7 [|z8 [|z9 [|z10 [|z11 [|z12 [|z13 [|z14 [|z15 [|]]]]]]]]]]]]]]]]]; try discriminate Hw. clear Hw.
  destruct r as [[[[[[[a b] c] d] e] f] g] h]. symmetry.
  destruct (named (uwrap 64 (z0 + (sigma1 z14 + z9 + sigma0 z1)))) as [v0 E0].
  destruct (named (uwrap 64 (z1 + (sigma1 z15 + z10 + sigma0 z2)))) as [v1 E1].
  destruct (named (uwrap 64 (z2 + (sigma1 v0 + z11 + sigma0 z3)))) as [v2 E2].
  destruct (named (uwrap 64 (z3 + (sigma1 v1 + z12 + sigma0 z4)))) as [v3 E3].
  destruct (named (uwrap 64 (z4 + (sigma1 v2 + z13 + sigma0 z5)))) as [v4 E4].
  destruct (named (uwrap 64 (z5 + (sigma1 v3 + z14 + sigma0 z6)))) as [v5 E5].
  destruct (named (uwrap 64 (z6 + (sigma1 v4 + z15 + sigma0 z7)))) as [v6 E6].
  destruct (named (uwrap 64 (z7 + (sigma1 v5 + v0 + sigma0 z8)))) as [v7 E7].
  destruct (named (uwrap 64 (z8 + (sigma1 v6 + v1 + sigma0 z9)))) as [v8 E8].
  destruct (named (uwrap 64 (z9 + (sigma1 v7 + v2 + sigma0 z10)))) as [v9 E9].
  destruct (named (uwrap 64 (z10 + (sigma1 v8 + v3 + sigma0 z11)))) as [v10 E10].
  destruct (named (uwrap 64 (z11 + (sigma1 v9 + v4 + sigma0 z12)))) as [v11 E11].
  destruct (named (uwrap 64 (z12 + (sigma1 v10 + v5 + sigma0 z13)))) as [v12 E12].
  destruct (named (uwrap 64 (z13 + (sigma1 v11 + v6 + sigma0 z14)))) as [v13 E13].
  destruct (named (uwrap 64 (z14 + (sigma1 v12 + v7 + sigma0 z15)))) as [v14 E14].
  destruct (named (uwrap 64 (z15 + (sigma1 v13 + v8 + sigma0 v0)))) as [v15 E15].
  cbv beta iota zeta delta [group2 slide next_word nth tail app u64]. rewrite E0, E1, E2, E3, E4, E5, E6, E7, E8, E9, E10, E11, E12, E13, E14, E15.
  exact (sha512_straight (fun r => (r, [v0; v1; v2; v3; v4; v5; v6; v7; v8; v9; v10; v11; v12; v13; v14; v15])) 0x27b70a8546d22ffc 0x2e1b21385c26c926 0x4d2c6dfc5ac42aed 0x53380d139d95b3df 0x650a73548baf63de 0x766a0abb3c77b2a8 0x81c2c92e47edaee6 0x92722c851482353b 0xa2bfe8a14cf10364 0xa81a664bbc423001 0xc24b8b70d0f89791 0xc76c51a30654be30 0xd192e819d6ef5218 0xd69906245565a910 0xf40e35855771202a 0x106aa07032bbd1b8 v0 v1 v2 v3 v4 v5 v6 v7 v8 v9 v10 v11 v12 v13 v14 v15 a b c d e f g h).
Qed.
Lemma sha512_group3 r w : length w = 16%nat →
  group3 r w = (foldl (step 64 Sigma0 Sigma1) r (zip K3 (slide (next_word 64 sigma0 sigma1) 16 w)), slide (next_word 64 sigma0 sigma1) 16 w).
Proof.
  intros Hw. destruct w as [|z0 [|z1 [|z2 [|z3 [|z4 [|z5 [|z6 [|z7 [|z8 [|z9 [|z10 [|z11 [|z12 [|z13 [|z14 [|z15 [|]]]]]]]]]]]]]]]]]; try discriminate Hw. clear Hw.
  destruct r as [[[[[[[a b] c] d] e] f] g] h]. symmetry.
  destruct (named (uwrap 64 (z0 + (sigma1 z14 + z9 + sigma0 z1)))) as [v0 E0].
  destruct (named (uwrap 64 (z1 + (sigma1 z15 + z10 + sigma0 z2)))) as [v1 E1].
  destruct (named (uwrap 64 (z2 + (sigma1 v0 + z11 + sigma0 z3)))) as [v2 E2].
  destruct (named (uwrap 64 (z3 + (sigma1 v1 + z12 + sigma0 z4)))) as [v3 E3].
  destruct (named (uwrap 64 (z4 + (sigma1 v2 + z13 + sigma0 z5)))) as [v4 E4].
  destruct (named (uwrap 64 (z5 + (sigma1 v3 + z14 + sigma0 z6)))) as [v5 E5].
  destruct (named (uwrap 64 (z6 + (sigma1 v4 + z15 + sigma0 z7)))) as [v6 E6].
  destruct (named (uwrap 64 (z7 + (sigma1 v5 + v0 + sigma0 z8)))) as [v7 E7].
  destruct (named (uwrap 64 (z8 + (sigma1 v6 + v1 + sigma0 z9)))) as [v8 E8].
  destruct (named (uwrap 64 (z9 + (sigma1 v7 + v2 + sigma0 z10)))) as [v9 E9].
  destruct (named (uwrap 64 (z10 + (sigma1 v8 + v3 + sigma0 z11)))) as [v10 E10].
  destruct (named (uwrap 64 (z11 + (sigma1 v9 + v4 + sigma0 z12)))) as [v11 E11].
  destruct (named (uwrap 64 (z12 + (sigma1 v10 + v5 + sigma0 z13)))) as [v12 E12].
  destruct (named (uwrap 64 (z13 + (sigma1 v11 + v6 + sigma0 z14)))) as [v13 E13].
  destruct (named (uwrap 64 (z14 + (sigma1 v12 + v7 + sigma0 z15)))) as [v14 E14].
  destruct (named (uwrap 64 (z15 + (sigma1 v13 + v8 + sigma0 v0)))) as [v15 E15].
  cbv beta iota zeta delta [group3 slide next_word nth tail app u64]. rewrite E0, E1, E2, E3, E4, E5, E6, E7, E8, E9, E10, E11, E12, E13, E14, E15.
  exact (sha512_straight (fun r => (r, [v0; v1; v2; v3; v4; v5; v6; v7; v8; v9; v10; v11; v12; v13; v14; v15])) 0x19a4c116b8d2d0c8 0x1e376c085141ab53 0x2748774cdf8eeb99 0x34b0bcb5e19b48a8 0x391c0cb3c5c95a63 0x4ed8aa4ae3418acb 0x5b9cca4f7763e373 0x682e6ff3d6b2b8a3 0x748f82ee5defb2fc 0x78a5636f43172f60 0x84c87814a1f0ab72 0x8cc702081a6439ec 0x90befffa23631e28 0xa4506cebde82bde9 0xbef9a3f7b2c67915 0xc67178f2e372532b v0 v1 v2 v3 v4 v5 v6 v7 v8 v9 v10 v11 v12 v13 v14 v15 a b c d e f g h).
Qed.
Lemma sha512_group4 r w : length w = 16%nat →
  group4 r w = foldl (step 64 Sigma0 Sigma1) r (zip K4 (slide (next_word 64 sigma0 sigma1) 16 w)).
Proof.
  intros Hw. destruct w as [|z0 [|z1 [|z2 [|z3 [|z4 [|z5 [|z6 [|z7 [|z8 [|z9 [|z10 [|z11 [|z12 [|z13 [|z14 [|z15 [|]]]]]]]]]]]]]]]]]; try discriminate Hw. clear Hw.
  destruct r as [[[[[[[a b] c] d] e] f] g] h]. symmetry.
  destruct (named (uwrap 64 (z0 + (sigma1 z14 + z9 + sigma0 z1)))) as [v0 E0].
  destruct (named (uwrap 64 (z1 + (sigma1 z15 + z10 + sigma0 z2)))) as [v1 E1].
  destruct (named (uwrap 64 (z2 + (sigma1 v0 + z11 + sigma0 z3)))) as [v2 E2].
  destruct (named (uwrap 64 (z3 + (sigma1 v1 + z12 + sigma0 z4)))) as [v3 E3].
  destruct (named (uwrap 64 (z4 + (sigma1 v2 + z13 + sigma0 z5)))) as [v4 E4].
  destruct (named (uwrap 64 (z5 + (sigma1 v3 + z14 + sigma0 z6)))) as [v5 E5].
  destruct (named (uwrap 64 (z6 + (sigma1 v4 + z15 + sigma0 z7)))) as [v6 E6].
  destruct (named (uwrap 64 (z7 + (sigma1 v5 + v0 + sigma0 z8)))) as [v7 E7].
  destruct (named (uwrap 64 (z8 + (sigma1 v6 + v1 + sigma0 z9)))) as [v8 E8].
  destruct (named (uwrap 64 (z9 + (sigma1 v7 + v2 + sigma0 z10)))) as [v9 E9].
  destruct (named (uwrap 64 (z10 + (sigma1 v8 + v3 + sigma0 z11)))) as [v10 E10].
  destruct (named (uwrap 64 (z11 + (sigma1 v9 + v4 + sigma0 z12)))) as [v11 E11].
  destruct (named (uwrap 64 (z12 + (sigma1 v10 + v5 + sigma0 z13)))) as [v12 E12].
  destruct (named (uwrap 64 (z13 + (sigma1 v11 + v6 + sigma0 z14)))) as [v13 E13].
  destruct (named (uwrap 64 (z14 + (sigma1 v12 + v7 + sigma0 z15)))) as [v14 E14].
  destruct (named (uwrap 64 (z15 + (sigma1 v13 + v8 + sigma0 v0)))) as [v15 E15].
  cbv beta iota zeta delta [group4 slide next_word nth tail app u64]. rewrite !sha512_sum. rewrite E0, E1, E2, E3, E4, E5, E6, E7, E8, E9, E10, E11, E12, E13, E14, E15.
  exact (sha512_straight (fun r => r) 0xca273eceea26619c 0xd186b8c721c0c207 0xeada7dd6cde0eb1e 0xf57d4f7fee6ed178 0x06f067aa72176fba 0x0a637dc5a2c898a6 0x113f9804bef90dae 0x1b710b35131c471b 0x28db77f523047d84 0x32caab7b40c72493 0x3c9ebe0a15c9bebc 0x431d67c49c100d4c 0x4cc5d4becb3e42b6 0x597f299cfc657e2a 0x5fcb6fab3ad6faec 0x6c44198c4a475817 v0 v1 v2 v3 v4 v5 v6 v7 v8 v9 v10 v11 v12 v13 v14 v15 a b c d e f g h).
Qed.

(** The unrolled loop computes the rounds of the standard. *)
Lemma sha512_unrolled s chunk : Transform s chunk = block s chunk.
Proof.
  destruct s as [|a [|b [|c [|d [|e [|f [|g [|h [|]]]]]]]]]; [reflexivity|reflexivity|reflexivity|reflexivity|reflexivity|reflexivity|reflexivity|reflexivity| |reflexivity].
  unfold Transform, block, hash_block. change (fips_Sigma 64 28 34 39) with Sigma0. change (fips_Sigma 64 14 18 41) with Sigma1.
  change (fips_sigma 64 1 8 7) with sigma0. change (fips_sigma 64 19 61 6) with sigma1. change K with (K0 ++ K1 ++ K2 ++ K3 ++ K4). set (r := (a, b, c, d, e, f, g, h)). set (ws := words chunk). assert (length ws = 16%nat) as Hw by reflexivity.
  rewrite sha512_group0. fold ws. rewrite rounds_group by done. name_fold r r0. clearbody r0 ws r. cbv beta iota.
  rewrite sha512_group1 by done. name_slide ws ws1. assert (length ws1 = 16%nat) as Hw1 by (unfold ws1; rewrite slide_length; [done|by destruct ws]). rewrite rounds_group by done. name_fold r0 r1. clearbody r1 ws1. clear ws Hw. rename ws1 into ws, Hw1 into Hw. cbv beta iota.
  rewrite sha512_group2 by done. name_slide ws ws2. assert (length ws2 = 16%nat) as Hw2 by (unfold ws2; rewrite slide_length; [done|by destruct ws]). rewrite rounds_group by done. name_fold r1 r2. clearbody r2 ws2. clear ws Hw. rename ws2 into ws, Hw2 into Hw. cbv beta iota.
  rewrite sha512_group3 by done. name_slide ws ws3. assert (length ws3 = 16%nat) as Hw3 by (unfold ws3; rewrite slide_length; [done|by destruct ws]). rewrite rounds_group by done. name_fold r2 r3. clearbody r3 ws3. clear ws Hw. rename ws3 into ws, Hw3 into Hw. cbv beta iota.
  rewrite sha512_group4 by done. rewrite rounds_last by (rewrite slide_length by (by destruct ws); rewrite Hw; unfold K4; cbn [length]; lia). reflexivity.
Qed.

End sha512.
