(* ===== verification/Sha1.v ===== *)
(** * SHA-1: src/src/crypto/sha1.cpp

    The unrolled rounds of [Transform] against the loop of the standard (FIPS 180-4). *)

From S2P Require Import Prelude Serialize HashStream Sha2.

Open Scope Z_scope.

Definition registers5 : Type := Z * Z * Z * Z * Z.

Module sha1.

(** One round; the new values of [b] and [e]. *)
Definition Round (a b c d e f k w : Z) : Z * Z :=
  (Z.lor (u32 (Z.shiftl b 30)) (Z.shiftr b 2),
   u32 (e + (Z.lor (u32 (Z.shiftl a 5)) (Z.shiftr a 27) + f + k + w))).

Definition f1 (b c d : Z) : Z := Z.lxor d (Z.land b (Z.lxor c d)).
Definition f2 (b c d : Z) : Z := Z.lxor (Z.lxor b c) d.
Definition f3 (b c d : Z) : Z := Z.lor (Z.land b c) (Z.land d (Z.lor b c)).

Definition left (x : Z) : Z := Z.lor (u32 (Z.shiftl x 1)) (Z.shiftr x 31).

Definition Initialize : list Z := [0x67452301; 0xEFCDAB89; 0x98BADCFE; 0x10325476; 0xC3D2E1F0].

Definition k1 : Z := 0x5A827999.
Definition k2 : Z := 0x6ED9EBA1.
Definition k3 : Z := 0x8F1BBCDC.
Definition k4 : Z := 0xCA62C1D6.

(** The unrolled loop, in groups of 16 rounds. *)
Definition group0 (r : registers5) (chunk : list Z) : registers5 * list Z :=
  let '(a, b, c, d, e) := r in
  let w0 := ReadBE32 (drop 0 chunk) in
  let '(b, e) := Round a b c d e (f1 b c d) k1 w0 in
  let w1 := ReadBE32 (drop 4 chunk) in
  let '(a, d) := Round e a b c d (f1 a b c) k1 w1 in
  let w2 := ReadBE32 (drop 8 chunk) in
  let '(e, c) := Round d e a b c (f1 e a b) k1 w2 in
  let w3 := ReadBE32 (drop 12 chunk) in
  let '(d, b) := Round c d e a b (f1 d e a) k1 w3 in
  let w4 := ReadBE32 (drop 16 chunk) in
  let '(c, a) := Round b c d e a (f1 c d e) k1 w4 in
  let w5 := ReadBE32 (drop 20 chunk) in
  let '(b, e) := Round a b c d e (f1 b c d) k1 w5 in
  let w6 := ReadBE32 (drop 24 chunk) in
  let '(a, d) := Round e a b c d (f1 a b c) k1 w6 in
  let w7 := ReadBE32 (drop 28 chunk) in
  let '(e, c) := Round d e a b c (f1 e a b) k1 w7 in
  let w8 := ReadBE32 (drop 32 chunk) in
  let '(d, b) := Round c d e a b (f1 d e a) k1 w8 in
  let w9 := ReadBE32 (drop 36 chunk) in
  let '(c, a) := Round b c d e a (f1 c d e) k1 w9 in
  let w10 := ReadBE32 (drop 40 chunk) in
  let '(b, e) := Round a b c d e (f1 b c d) k1 w10 in
  let w11 := ReadBE32 (drop 44 chunk) in
  let '(a, d) := Round e a b c d (f1 a b c) k1 w11 in
  let w12 := ReadBE32 (drop 48 chunk) in
  let '(e, c) := Round d e a b c (f1 e a b) k1 w12 in
  let w13 := ReadBE32 (drop 52 chunk) in
  let '(d, b) := Round c d e a b (f1 d e a) k1 w13 in
  let w14 := ReadBE32 (drop 56 chunk) in
  let '(c, a) := Round b c d e a (f1 c d e) k1 w14 in
  let w15 := ReadBE32 (drop 60 chunk) in
  let '(b, e) := Round a b c d e (f1 b c d) k1 w15 in
  ((a, b, c, d, e), [w0; w1; w2; w3; w4; w5; w6; w7; w8; w9; w10; w11; w12; w13; w14; w15]).

Definition group1 (r : registers5) (w : list Z) : registers5 * list Z :=
  match r, w with
  | (a, b, c, d, e), [w0; w1; w2; w3; w4; w5; w6; w7; w8; w9; w10; w11; w12; w13; w14; w15] =>
      let w0 := left (Z.lxor (Z.lxor (Z.lxor w0 w13) w8) w2) in
      let '(a, d) := Round e a b c d (f1 a b c) k1 w0 in
      let w1 := left (Z.lxor (Z.lxor (Z.lxor w1 w14) w9) w3) in
      let '(e, c) := Round d e a b c (f1 e a b) k1 w1 in
      let w2 := left (Z.lxor (Z.lxor (Z.lxor w2 w15) w10) w4) in
      let '(d, b) := Round c d e a b (f1 d e a) k1 w2 in
      let w3 := left (Z.lxor (Z.lxor (Z.lxor w3 w0) w11) w5) in
      let '(c, a) := Round b c d e a (f1 c d e) k1 w3 in
      let w4 := left (Z.lxor (Z.lxor (Z.lxor w4 w1) w12) w6) in
      let '(b, e) := Round a b c d e (f2 b c d) k2 w4 in
      let w5 := left (Z.lxor (Z.lxor (Z.lxor w5 w2) w13) w7) in
      let '(a, d) := Round e a b c d (f2 a b c) k2 w5 in
      let w6 := left (Z.lxor (Z.lxor (Z.lxor w6 w3) w14) w8) in
      let '(e, c) := Round d e a b c (f2 e a b) k2 w6 in
      let w7 := left (Z.lxor (Z.lxor (Z.lxor w7 w4) w15) w9) in
      let '(d, b) := Round c d e a b (f2 d e a) k2 w7 in
      let w8 := left (Z.lxor (Z.lxor (Z.lxor w8 w5) w0) w10) in
      let '(c, a) := Round b c d e a (f2 c d e) k2 w8 in
      let w9 := left (Z.lxor (Z.lxor (Z.lxor w9 w6) w1) w11) in
      let '(b, e) := Round a b c d e (f2 b c d) k2 w9 in
      let w10 := left (Z.lxor (Z.lxor (Z.lxor w10 w7) w2) w12) in
      let '(a, d) := Round e a b c d (f2 a b c) k2 w10 in
      let w11 := left (Z.lxor (Z.lxor (Z.lxor w11 w8) w3) w13) in
      let '(e, c) := Round d e a b c (f2 e a b) k2 w11 in
      let w12 := left (Z.lxor (Z.lxor (Z.lxor w12 w9) w4) w14) in
      let '(d, b) := Round c d e a b (f2 d e a) k2 w12 in
      let w13 := left (Z.lxor (Z.lxor (Z.lxor w13 w10) w5) w15) in
      let '(c, a) := Round b c d e a (f2 c d e) k2 w13 in
      let w14 := left (Z.lxor (Z.lxor (Z.lxor w14 w11) w6) w0) in
      let '(b, e) := Round a b c d e (f2 b c d) k2 w14 in
      let w15 := left (Z.lxor (Z.lxor (Z.lxor w15 w12) w7) w1) in
      let '(a, d) := Round e a b c d (f2 a b c) k2 w15 in
      ((a, b, c, d, e), [w0; w1; w2; w3; w4; w5; w6; w7; w8; w9; w10; w11; w12; w13; w14; w15])
  | _, _ => (r, w)
  end.

Definition group2 (r : registers5) (w : list Z) : registers5 * list Z :=
  match r, w with
  | (a, b, c, d, e), [w0; w1; w2; w3; w4; w5; w6; w7; w8; w9; w10; w11; w12; w13; w14; w15] =>
      let w0 := left (Z.lxor (Z.lxor (Z.lxor w0 w13) w8) w2) in
      let '(e, c) := Round d e a b c (f2 e a b) k2 w0 in
      let w1 := left (Z.lxor (Z.lxor (Z.lxor w1 w14) w9) w3) in
      let '(d, b) := Round c d e a b (f2 d e a) k2 w1 in
      let w2 := left (Z.lxor (Z.lxor (Z.lxor w2 w15) w10) w4) in
      let '(c, a) := Round b c d e a (f2 c d e) k2 w2 in
      let w3 := left (Z.lxor (Z.lxor (Z.lxor w3 w0) w11) w5) in
      let '(b, e) := Round a b c d e (f2 b c d) k2 w3 in
      let w4 := left (Z.lxor (Z.lxor (Z.lxor w4 w1) w12) w6) in
      let '(a, d) := Round e a b c d (f2 a b c) k2 w4 in
      let w5 := left (Z.lxor (Z.lxor (Z.lxor w5 w2) w13) w7) in
      let '(e, c) := Round d e a b c (f2 e a b) k2 w5 in
      let w6 := left (Z.lxor (Z.lxor (Z.lxor w6 w3) w14) w8) in
      let '(d, b) := Round c d e a b (f2 d e a) k2 w6 in
      let w7 := left (Z.lxor (Z.lxor (Z.lxor w7 w4) w15) w9) in
      let '(c, a) := Round b c d e a (f2 c d e) k2 w7 in
      let w8 := left (Z.lxor (Z.lxor (Z.lxor w8 w5) w0) w10) in
      let '(b, e) := Round a b c d e (f3 b c d) k3 w8 in
      let w9 := left (Z.lxor (Z.lxor (Z.lxor w9 w6) w1) w11) in
      let '(a, d) := Round e a b c d (f3 a b c) k3 w9 in
      let w10 := left (Z.lxor (Z.lxor (Z.lxor w10 w7) w2) w12) in
      let '(e, c) := Round d e a b c (f3 e a b) k3 w10 in
      let w11 := left (Z.lxor (Z.lxor (Z.lxor w11 w8) w3) w13) in
      let '(d, b) := Round c d e a b (f3 d e a) k3 w11 in
      let w12 := left (Z.lxor (Z.lxor (Z.lxor w12 w9) w4) w14) in
      let '(c, a) := Round b c d e a (f3 c d e) k3 w12 in
      let w13 := left (Z.lxor (Z.lxor (Z.lxor w13 w10) w5) w15) in
      let '(b, e) := Round a b c d e (f3 b c d) k3 w13 in
      let w14 := left (Z.lxor (Z.lxor (Z.lxor w14 w11) w6) w0) in
      let '(a, d) := Round e a b c d (f3 a b c) k3 w14 in
      let w15 := left (Z.lxor (Z.lxor (Z.lxor w15 w12) w7) w1) in
      let '(e, c) := Round d e a b c (f3 e a b) k3 w15 in
      ((a, b, c, d, e), [w0; w1; w2; w3; w4; w5; w6; w7; w8; w9; w10; w11; w12; w13; w14; w15])
  | _, _ => (r, w)
  end.

Definition group3 (r : registers5) (w : list Z) : registers5 * list Z :=
  match r, w with
  | (a, b, c, d, e), [w0; w1; w2; w3; w4; w5; w6; w7; w8; w9; w10; w11; w12; w13; w14; w15] =>
      let w0 := left (Z.lxor (Z.lxor (Z.lxor w0 w13) w8) w2) in
      let '(d, b) := Round c d e a b (f3 d e a) k3 w0 in
      let w1 := left (Z.lxor (Z.lxor (Z.lxor w1 w14) w9) w3) in
      let '(c, a) := Round b c d e a (f3 c d e) k3 w1 in
      let w2 := left (Z.lxor (Z.lxor (Z.lxor w2 w15) w10) w4) in
      let '(b, e) := Round a b c d e (f3 b c d) k3 w2 in
      let w3 := left (Z.lxor (Z.lxor (Z.lxor w3 w0) w11) w5) in
      let '(a, d) := Round e a b c d (f3 a b c) k3 w3 in
      let w4 := left (Z.lxor (Z.lxor (Z.lxor w4 w1) w12) w6) in
      let '(e, c) := Round d e a b c (f3 e a b) k3 w4 in
      let w5 := left (Z.lxor (Z.lxor (Z.lxor w5 w2) w13) w7) in
      let '(d, b) := Round c d e a b (f3 d e a) k3 w5 in
      let w6 := left (Z.lxor (Z.lxor (Z.lxor w6 w3) w14) w8) in
      let '(c, a) := Round b c d e a (f3 c d e) k3 w6 in
      let w7 := left (Z.lxor (Z.lxor (Z.lxor w7 w4) w15) w9) in
      let '(b, e) := Round a b c d e (f3 b c d) k3 w7 in
      let w8 := left (Z.lxor (Z.lxor (Z.lxor w8 w5) w0) w10) in
      let '(a, d) := Round e a b c d (f3 a b c) k3 w8 in
      let w9 := left (Z.lxor (Z.lxor (Z.lxor w9 w6) w1) w11) in
      let '(e, c) := Round d e a b c (f3 e a b) k3 w9 in
      let w10 := left (Z.lxor (Z.lxor (Z.lxor w10 w7) w2) w12) in
      let '(d, b) := Round c d e a b (f3 d e a) k3 w10 in
      let w11 := left (Z.lxor (Z.lxor (Z.lxor w11 w8) w3) w13) in
      let '(c, a) := Round b c d e a (f3 c d e) k3 w11 in
      let w12 := left (Z.lxor (Z.lxor (Z.lxor w12 w9) w4) w14) in
      let '(b, e) := Round a b c d e (f2 b c d) k4 w12 in
      let w13 := left (Z.lxor (Z.lxor (Z.lxor w13 w10) w5) w15) in
      let '(a, d) := Round e a b c d (f2 a b c) k4 w13 in
      let w14 := left (Z.lxor (Z.lxor (Z.lxor w14 w11) w6) w0) in
      let '(e, c) := Round d e a b c (f2 e a b) k4 w14 in
      let w15 := left (Z.lxor (Z.lxor (Z.lxor w15 w12) w7) w1) in
      let '(d, b) := Round c d e a b (f2 d e a) k4 w15 in
      ((a, b, c, d, e), [w0; w1; w2; w3; w4; w5; w6; w7; w8; w9; w10; w11; w12; w13; w14; w15])
  | _, _ => (r, w)
  end.

Definition group4 (r : registers5) (w : list Z) : registers5 :=
  match r, w with
  | (a, b, c, d, e), [w0; w1; w2; w3; w4; w5; w6; w7; w8; w9; w10; w11; w12; w13; w14; w15] =>
      let w0 := left (Z.lxor (Z.lxor (Z.lxor w0 w13) w8) w2) in
      let '(c, a) := Round b c d e a (f2 c d e) k4 w0 in
      let w1 := left (Z.lxor (Z.lxor (Z.lxor w1 w14) w9) w3) in
      let '(b, e) := Round a b c d e (f2 b c d) k4 w1 in
      let w2 := left (Z.lxor (Z.lxor (Z.lxor w2 w15) w10) w4) in
      let '(a, d) := Round e a b c d (f2 a b c) k4 w2 in
      let w3 := left (Z.lxor (Z.lxor (Z.lxor w3 w0) w11) w5) in
      let '(e, c) := Round d e a b c (f2 e a b) k4 w3 in
      let w4 := left (Z.lxor (Z.lxor (Z.lxor w4 w1) w12) w6) in
      let '(d, b) := Round c d e a b (f2 d e a) k4 w4 in
      let w5 := left (Z.lxor (Z.lxor (Z.lxor w5 w2) w13) w7) in
      let '(c, a) := Round b c d e a (f2 c d e) k4 w5 in
      let w6 := left (Z.lxor (Z.lxor (Z.lxor w6 w3) w14) w8) in
      let '(b, e) := Round a b c d e (f2 b c d) k4 w6 in
      let w7 := left (Z.lxor (Z.lxor (Z.lxor w7 w4) w15) w9) in
      let '(a, d) := Round e a b c d (f2 a b c) k4 w7 in
      let w8 := left (Z.lxor (Z.lxor (Z.lxor w8 w5) w0) w10) in
      let '(e, c) := Round d e a b c (f2 e a b) k4 w8 in
      let w9 := left (Z.lxor (Z.lxor (Z.lxor w9 w6) w1) w11) in
      let '(d, b) := Round c d e a b (f2 d e a) k4 w9 in
      let w10 := left (Z.lxor (Z.lxor (Z.lxor w10 w7) w2) w12) in
      let '(c, a) := Round b c d e a (f2 c d e) k4 w10 in
      let w11 := left (Z.lxor (Z.lxor (Z.lxor w11 w8) w3) w13) in
      let '(b, e) := Round a b c d e (f2 b c d) k4 w11 in
      let w12 := left (Z.lxor (Z.lxor (Z.lxor w12 w9) w4) w14) in
      let '(a, d) := Round e a b c d (f2 a b c) k4 w12 in
      let '(e, c) := Round d e a b c (f2 e a b) k4 (left (Z.lxor (Z.lxor (Z.lxor w13 w10) w5) w15)) in
      let '(d, b) := Round c d e a b (f2 d e a) k4 (left (Z.lxor (Z.lxor (Z.lxor w14 w11) w6) w0)) in
      let '(c, a) := Round b c d e a (f2 c d e) k4 (left (Z.lxor (Z.lxor (Z.lxor w15 w12) w7) w1)) in
      (a, b, c, d, e)
  | _, _ => r
  end.

Definition Transform (s chunk : list Z) : list Z :=
  match s with
  | [a; b; c; d; e] =>
      let '(r, w) := group0 (a, b, c, d, e) chunk in
      let '(r, w) := group1 r w in
      let '(r, w) := group2 r w in
      let '(r, w) := group3 r w in
      let '(a', b', c', d', e') := group4 r w in
      [u32 (a + a'); u32 (b + b'); u32 (c + c'); u32 (d + d'); u32 (e + e')]
  | _ => s
  end.

(** ** The standard *)

Definition rotl (n x : Z) : Z := Z.lor (u32 (Z.shiftl x n)) (Z.shiftr x (32 - n)).
Definition parity (x y z : Z) : Z := Z.lxor (Z.lxor x y) z.
Definition schedule : list ((Z → Z → Z → Z) * Z) :=
  replicate 20 (fips_Ch, 0x5A827999) ++ replicate 20 (parity, 0x6ED9EBA1) ++
  replicate 20 (fips_Maj, 0x8F1BBCDC) ++ replicate 20 (parity, 0xCA62C1D6).

Definition fips_step (r : registers5) (x : (Z → Z → Z → Z) * Z * Z) : registers5 :=
  let '(a, b, c, d, e) := r in
  let '(f, k, w) := x in
  (u32 (rotl 5 a + f b c d + e + k + w), a, rotl 30 b, c, d).

Definition next_word5 (window : list Z) : Z :=
  left (Z.lxor (Z.lxor (Z.lxor (nth 0 window 0) (nth 13 window 0)) (nth 8 window 0)) (nth 2 window 0)).
Definition words (chunk : list Z) : list Z := map (fun i => ReadBE32 (drop (4 * i) chunk)) (seq 0 16).
Definition block (s chunk : list Z) : list Z :=
  match s with
  | [a; b; c; d; e] =>
      let '(a', b', c', d', e') := rounds fips_step next_word5 schedule (words chunk) (a, b, c, d, e) in
      [u32 (a + a'); u32 (b + b'); u32 (c + c'); u32 (d + d'); u32 (e + e')]
  | _ => s
  end.

(** ** The unrolled loop *)

(** A round with the functions of the code. *)
Definition step5 (r : registers5) (x : (Z → Z → Z → Z) * Z * Z) : registers5 :=
  let '(a, b, c, d, e) := r in
  let '(b, e) := Round a b c d e (fst (fst x) b c d) (snd (fst x)) (snd x) in (e, a, b, c, d).
Definition code_schedule : list ((Z → Z → Z → Z) * Z) :=
  replicate 20 (f1, k1) ++ replicate 20 (f2, k2) ++ replicate 20 (f3, k3) ++ replicate 20 (f2, k4).
Definition group_rounds (i : nat) : list ((Z → Z → Z → Z) * Z) := take 16 (drop (16 * i) code_schedule).
Lemma sha1_straight {A} (F : registers5 → A) p0 p1 p2 p3 p4 p5 p6 p7 p8 p9 p10 p11 p12 p13 p14 p15 v0 v1 v2 v3 v4 v5 v6 v7 v8 v9 v10 v11 v12 v13 v14 v15 a b c d e :
  F (foldl step5 (a, b, c, d, e) (zip [p0; p1; p2; p3; p4; p5; p6; p7; p8; p9; p10; p11; p12; p13; p14; p15] [v0; v1; v2; v3; v4; v5; v6; v7; v8; v9; v10; v11; v12; v13; v14; v15])) =
    let '(b, e) := Round a b c d e (fst p0 b c d) (snd p0) v0 in
    let '(a, d) := Round e a b c d (fst p1 a b c) (snd p1) v1 in
    let '(e, c) := Round d e a b c (fst p2 e a b) (snd p2) v2 in
    let '(d, b) := Round c d e a b (fst p3 d e a) (snd p3) v3 in
    let '(c, a) := Round b c d e a (fst p4 c d e) (snd p4) v4 in
    let '(b, e) := Round a b c d e (fst p5 b c d) (snd p5) v5 in
    let '(a, d) := Round e a b c d (fst p6 a b c) (snd p6) v6 in
    let '(e, c) := Round d e a b c (fst p7 e a b) (snd p7) v7 in
    let '(d, b) := Round c d e a b (fst p8 d e a) (snd p8) v8 in
    let '(c, a) := Round b c d e a (fst p9 c d e) (snd p9) v9 in
    let '(b, e) := Round a b c d e (fst p10 b c d) (snd p10) v10 in
    let '(a, d) := Round e a b c d (fst p11 a b c) (snd p11) v11 in
    let '(e, c) := Round d e a b c (fst p12 e a b) (snd p12) v12 in
    let '(d, b) := Round c d e a b (fst p13 d e a) (snd p13) v13 in
    let '(c, a) := Round b c d e a (fst p14 c d e) (snd p14) v14 in
    let '(b, e) := Round a b c d e (fst p15 b c d) (snd p15) v15 in
    F (e, a, b, c, d).
Proof.
  cbn [zip zip_with foldl]. do 16 (cbn [step5 fst snd]; match goal with |- _ = (let '(_, _) := ?R in _) => destruct R end). reflexivity.
Qed.
Lemma sha1_group0 a b c d e chunk :
  group0 (a, b, c, d, e) chunk =
  let '(e, a, b, c, d) := foldl step5 (a, b, c, d, e) (zip (group_rounds 0) (words chunk)) in ((a, b, c, d, e), words chunk).
Proof.
  symmetry. exact (sha1_straight (fun x => let '(e, a, b, c, d) := x in ((a, b, c, d, e), words chunk)) (f1, k1) (f1, k1) (f1, k1) (f1, k1) (f1, k1) (f1, k1) (f1, k1) (f1, k1) (f1, k1) (f1, k1) (f1, k1) (f1, k1) (f1, k1) (f1, k1) (f1, k1) (f1, k1) (ReadBE32 (drop 0 chunk)) (ReadBE32 (drop 4 chunk)) (ReadBE32 (drop 8 chunk)) (ReadBE32 (drop 12 chunk)) (ReadBE32 (drop 16 chunk)) (ReadBE32 (drop 20 chunk)) (ReadBE32 (drop 24 chunk)) (ReadBE32 (drop 28 chunk)) (ReadBE32 (drop 32 chunk)) (ReadBE32 (drop 36 chunk)) (ReadBE32 (drop 40 chunk)) (ReadBE32 (drop 44 chunk)) (ReadBE32 (drop 48 chunk)) (ReadBE32 (drop 52 chunk)) (ReadBE32 (drop 56 chunk)) (ReadBE32 (drop 60 chunk)) a b c d e).
Qed.
Lemma sha1_group1 a b c d e w : length w = 16%nat →
  group1 (a, b, c, d, e) w =
  let '(d, e, a, b, c) := foldl step5 (e, a, b, c, d) (zip (group_rounds 1) (slide next_word5 16 w)) in ((a, b, c, d, e), slide next_word5 16 w).
Proof.
  intros Hw. destruct w as [|z0 [|z1 [|z2 [|z3 [|z4 [|z5 [|z6 [|z7 [|z8 [|z9 [|z10 [|z11 [|z12 [|z13 [|z14 [|z15 [|]]]]]]]]]]]]]]]]]; try discriminate Hw. clear Hw.
  destruct (named (left (Z.lxor (Z.lxor (Z.lxor z0 z13) z8) z2))) as [v0 E0].
  destruct (named (left (Z.lxor (Z.lxor (Z.lxor z1 z14) z9) z3))) as [v1 E1].
  destruct (named (left (Z.lxor (Z.lxor (Z.lxor z2 z15) z10) z4))) as [v2 E2].
  destruct (named (left (Z.lxor (Z.lxor (Z.lxor z3 v0) z11) z5))) as [v3 E3].
  destruct (named (left (Z.lxor (Z.lxor (Z.lxor z4 v1) z12) z6))) as [v4 E4].
  destruct (named (left (Z.lxor (Z.lxor (Z.lxor z5 v2) z13) z7))) as [v5 E5].
  destruct (named (left (Z.lxor (Z.lxor (Z.lxor z6 v3) z14) z8))) as [v6 E6].
  destruct (named (left (Z.lxor (Z.lxor (Z.lxor z7 v4) z15) z9))) as [v7 E7].
  destruct (named (left (Z.lxor (Z.lxor (Z.lxor z8 v5) v0) z10))) as [v8 E8].
  destruct (named (left (Z.lxor (Z.lxor (Z.lxor z9 v6) v1) z11))) as [v9 E9].
  destruct (named (left (Z.lxor (Z.lxor (Z.lxor z10 v7) v2) z12))) as [v10 E10].
  destruct (named (left (Z.lxor (Z.lxor (Z.lxor z11 v8) v3) z13))) as [v11 E11].
  destruct (named (left (Z.lxor (Z.lxor (Z.lxor z12 v9) v4) z14))) as [v12 E12].
  destruct (named (left (Z.lxor (Z.lxor (Z.lxor z13 v10) v5) z15))) as [v13 E13].
  destruct (named (left (Z.lxor (Z.lxor (Z.lxor z14 v11) v6) v0))) as [v14 E14].
  destruct (named (left (Z.lxor (Z.lxor (Z.lxor z15 v12) v7) v1))) as [v15 E15].
  cbv beta iota zeta delta [group1 slide next_word5 nth tail app]. rewrite E0, E1, E2, E3, E4, E5, E6, E7, E8, E9, E10, E11, E12, E13, E14, E15.
  symmetry. exact (sha1_straight (fun x => let '(d, e, a, b, c) := x in ((a, b, c, d, e), [v0; v1; v2; v3; v4; v5; v6; v7; v8; v9; v10; v11; v12; v13; v14; v15])) (f1, k1) (f1, k1) (f1, k1) (f1, k1) (f2, k2) (f2, k2) (f2, k2) (f2, k2) (f2, k2) (f2, k2) (f2, k2) (f2, k2) (f2, k2) (f2, k2) (f2, k2) (f2, k2) v0 v1 v2 v3 v4 v5 v6 v7 v8 v9 v10 v11 v12 v13 v14 v15 e a b c d).
Qed.
Lemma sha1_group2 a b c d e w : length w = 16%nat →
  group2 (a, b, c, d, e) w =
  let '(c, d, e, a, b) := foldl step5 (d, e, a, b, c) (zip (group_rounds 2) (slide next_word5 16 w)) in ((a, b, c, d, e), slide next_word5 16 w).
Proof.
  intros Hw. destruct w as [|z0 [|z1 [|z2 [|z3 [|z4 [|z5 [|z6 [|z7 [|z8 [|z9 [|z10 [|z11 [|z12 [|z13 [|z14 [|z15 [|]]]]]]]]]]]]]]]]]; try discriminate Hw. clear Hw.
  destruct (named (left (Z.lxor (Z.lxor (Z.lxor z0 z13) z8) z2))) as [v0 E0].
  destruct (named (left (Z.lxor (Z.lxor (Z.lxor z1 z14) z9) z3))) as [v1 E1].
  destruct (named (left (Z.lxor (Z.lxor (Z.lxor z2 z15) z10) z4))) as [v2 E2].
  destruct (named (left (Z.lxor (Z.lxor (Z.lxor z3 v0) z11) z5))) as [v3 E3].
  destruct (named (left (Z.lxor (Z.lxor (Z.lxor z4 v1) z12) z6))) as [v4 E4].
  destruct (named (left (Z.lxor (Z.lxor (Z.lxor z5 v2) z13) z7))) as [v5 E5].
  destruct (named (left (Z.lxor (Z.lxor (Z.lxor z6 v3) z14) z8))) as [v6 E6].
  destruct (named (left (Z.lxor (Z.lxor (Z.lxor z7 v4) z15) z9))) as [v7 E7].
  destruct (named (left (Z.lxor (Z.lxor (Z.lxor z8 v5) v0) z10))) as [v8 E8].
  destruct (named (left (Z.lxor (Z.lxor (Z.lxor z9 v6) v1) z11))) as [v9 E9].
  destruct (named (left (Z.lxor (Z.lxor (Z.lxor z10 v7) v2) z12))) as [v10 E10].
  destruct (named (left (Z.lxor (Z.lxor (Z.lxor z11 v8) v3) z13))) as [v11 E11].
  destruct (named (left (Z.lxor (Z.lxor (Z.lxor z12 v9) v4) z14))) as [v12 E12].
  destruct (named (left (Z.lxor (Z.lxor (Z.lxor z13 v10) v5) z15))) as [v13 E13].
  destruct (named (left (Z.lxor (Z.lxor (Z.lxor z14 v11) v6) v0))) as [v14 E14].
  destruct (named (left (Z.lxor (Z.lxor (Z.lxor z15 v12) v7) v1))) as [v15 E15].
  cbv beta iota zeta delta [group2 slide next_word5 nth tail app]. rewrite E0, E1, E2, E3, E4, E5, E6, E7, E8, E9, E10, E11, E12, E13, E14, E15.
  symmetry. exact (sha1_straight (fun x => let '(c, d, e, a, b) := x in ((a, b, c, d, e), [v0; v1; v2; v3; v4; v5; v6; v7; v8; v9; v10; v11; v12; v13; v14; v15])) (f2, k2) (f2, k2) (f2, k2) (f2, k2) (f2, k2) (f2, k2) (f2, k2) (f2, k2) (f3, k3) (f3, k3) (f3, k3) (f3, k3) (f3, k3) (f3, k3) (f3, k3) (f3, k3) v0 v1 v2 v3 v4 v5 v6 v7 v8 v9 v10 v11 v12 v13 v14 v15 d e a b c).
Qed.
Lemma sha1_group3 a b c d e w : length w = 16%nat →
  group3 (a, b, c, d, e) w =
  let '(b, c, d, e, a) := foldl step5 (c, d, e, a, b) (zip (group_rounds 3) (slide next_word5 16 w)) in ((a, b, c, d, e), slide next_word5 16 w).
Proof.
  intros Hw. destruct w as [|z0 [|z1 [|z2 [|z3 [|z4 [|z5 [|z6 [|z7 [|z8 [|z9 [|z10 [|z11 [|z12 [|z13 [|z14 [|z15 [|]]]]]]]]]]]]]]]]]; try discriminate Hw. clear Hw.
  destruct (named (left (Z.lxor (Z.lxor (Z.lxor z0 z13) z8) z2))) as [v0 E0].
  destruct (named (left (Z.lxor (Z.lxor (Z.lxor z1 z14) z9) z3))) as [v1 E1].
  destruct (named (left (Z.lxor (Z.lxor (Z.lxor z2 z15) z10) z4))) as [v2 E2].
  destruct (named (left (Z.lxor (Z.lxor (Z.lxor z3 v0) z11) z5))) as [v3 E3].
  destruct (named (left (Z.lxor (Z.lxor (Z.lxor z4 v1) z12) z6))) as [v4 E4].
  destruct (named (left (Z.lxor (Z.lxor (Z.lxor z5 v2) z13) z7))) as [v5 E5].
  destruct (named (left (Z.lxor (Z.lxor (Z.lxor z6 v3) z14) z8))) as [v6 E6].
  destruct (named (left (Z.lxor (Z.lxor (Z.lxor z7 v4) z15) z9))) as [v7 E7].
  destruct (named (left (Z.lxor (Z.lxor (Z.lxor z8 v5) v0) z10))) as [v8 E8].
  destruct (named (left (Z.lxor (Z.lxor (Z.lxor z9 v6) v1) z11))) as [v9 E9].
  destruct (named (left (Z.lxor (Z.lxor (Z.lxor z10 v7) v2) z12))) as [v10 E10].
  destruct (named (left (Z.lxor (Z.lxor (Z.lxor z11 v8) v3) z13))) as [v11 E11].
  destruct (named (left (Z.lxor (Z.lxor (Z.lxor z12 v9) v4) z14))) as [v12 E12].
  destruct (named (left (Z.lxor (Z.lxor (Z.lxor z13 v10) v5) z15))) as [v13 E13].
  destruct (named (left (Z.lxor (Z.lxor (Z.lxor z14 v11) v6) v0))) as [v14 E14].
  destruct (named (left (Z.lxor (Z.lxor (Z.lxor z15 v12) v7) v1))) as [v15 E15].
  cbv beta iota zeta delta [group3 slide next_word5 nth tail app]. rewrite E0, E1, E2, E3, E4, E5, E6, E7, E8, E9, E10, E11, E12, E13, E14, E15.
  symmetry. exact (sha1_straight (fun x => let '(b, c, d, e, a) := x in ((a, b, c, d, e), [v0; v1; v2; v3; v4; v5; v6; v7; v8; v9; v10; v11; v12; v13; v14; v15])) (f3, k3) (f3, k3) (f3, k3) (f3, k3) (f3, k3) (f3, k3) (f3, k3) (f3, k3) (f3, k3) (f3, k3) (f3, k3) (f3, k3) (f2, k4) (f2, k4) (f2, k4) (f2, k4) v0 v1 v2 v3 v4 v5 v6 v7 v8 v9 v10 v11 v12 v13 v14 v15 c d e a b).
Qed.
Lemma sha1_group4 a b c d e w : length w = 16%nat →
  group4 (a, b, c, d, e) w =
  let '(a, b, c, d, e) := foldl step5 (b, c, d, e, a) (zip (group_rounds 4) (slide next_word5 16 w)) in (a, b, c, d, e).
Proof.
  intros Hw. destruct w as [|z0 [|z1 [|z2 [|z3 [|z4 [|z5 [|z6 [|z7 [|z8 [|z9 [|z10 [|z11 [|z12 [|z13 [|z14 [|z15 [|]]]]]]]]]]]]]]]]]; try discriminate Hw. clear Hw.
  destruct (named (left (Z.lxor (Z.lxor (Z.lxor z0 z13) z8) z2))) as [v0 E0].
  destruct (named (left (Z.lxor (Z.lxor (Z.lxor z1 z14) z9) z3))) as [v1 E1].
  destruct (named (left (Z.lxor (Z.lxor (Z.lxor z2 z15) z10) z4))) as [v2 E2].
  destruct (named (left (Z.lxor (Z.lxor (Z.lxor z3 v0) z11) z5))) as [v3 E3].
  destruct (named (left (Z.lxor (Z.lxor (Z.lxor z4 v1) z12) z6))) as [v4 E4].
  destruct (named (left (Z.lxor (Z.lxor (Z.lxor z5 v2) z13) z7))) as [v5 E5].
  destruct (named (left (Z.lxor (Z.lxor (Z.lxor z6 v3) z14) z8))) as [v6 E6].
  destruct (named (left (Z.lxor (Z.lxor (Z.lxor z7 v4) z15) z9))) as [v7 E7].
  destruct (named (left (Z.lxor (Z.lxor (Z.lxor z8 v5) v0) z10))) as [v8 E8].
  destruct (named (left (Z.lxor (Z.lxor (Z.lxor z9 v6) v1) z11))) as [v9 E9].
  destruct (named (left (Z.lxor (Z.lxor (Z.lxor z10 v7) v2) z12))) as [v10 E10].
  destruct (named (left (Z.lxor (Z.lxor (Z.lxor z11 v8) v3) z13))) as [v11 E11].
  destruct (named (left (Z.lxor (Z.lxor (Z.lxor z12 v9) v4) z14))) as [v12 E12].
  destruct (named (left (Z.lxor (Z.lxor (Z.lxor z13 v10) v5) z15))) as [v13 E13].
  destruct (named (left (Z.lxor (Z.lxor (Z.lxor z14 v11) v6) v0))) as [v14 E14].
  destruct (named (left (Z.lxor (Z.lxor (Z.lxor z15 v12) v7) v1))) as [v15 E15].
  cbv beta iota zeta delta [group4 slide next_word5 nth tail app]. rewrite E0, E1, E2, E3, E4, E5, E6, E7, E8, E9, E10, E11, E12, E13, E14, E15.
  symmetry. exact (sha1_straight (fun x => let '(a, b, c, d, e) := x in (a, b, c, d, e)) (f2, k4) (f2, k4) (f2, k4) (f2, k4) (f2, k4) (f2, k4) (f2, k4) (f2, k4) (f2, k4) (f2, k4) (f2, k4) (f2, k4) (f2, k4) (f2, k4) (f2, k4) (f2, k4) v0 v1 v2 v3 v4 v5 v6 v7 v8 v9 v10 v11 v12 v13 v14 v15 b c d e a).
Qed.

Lemma sha1_schedule : Forall2 (fun p q => (∀ x y z, p.1 x y z = q.1 x y z) ∧ p.2 = q.2) code_schedule schedule.
Proof.
  assert (∀ n (p q : (Z → Z → Z → Z) * Z), (∀ x y z, p.1 x y z = q.1 x y z) ∧ p.2 = q.2 →
    Forall2 (fun p q => (∀ x y z, p.1 x y z = q.1 x y z) ∧ p.2 = q.2) (replicate n p) (replicate n q)) as H by (intros n p q Hpq; induction n; cbn; by constructor).
  repeat apply Forall2_app; apply H; (split; [|reflexivity]); intros x y z; [apply Ch_eq|reflexivity|apply Maj_eq|reflexivity].
Qed.
Lemma sha1_step r c1 c2 w : (∀ x y z, c1.1 x y z = c2.1 x y z) ∧ c1.2 = c2.2 → step5 r (c1, w) = fips_step r (c2, w).
Proof.
  intros [Hf Hk]. destruct r as [[[[a b] c] d] e], c1 as [f k], c2 as [f' k']. cbn in *. subst. unfold step5, fips_step, Round, rotl. cbn [fst snd]. rewrite Hf. change (32 - 5) with 27. change (32 - 30) with 2.
  match goal with |- (u32 ?x, _, _, _, _) = (u32 ?y, _, _, _, _) => replace x with y by lia end. reflexivity.
Qed.
Ltac next_window ws Hw :=
  let ws' := fresh ws in
  name_slide ws ws'; assert (length ws' = 16%nat) by (unfold ws'; rewrite slide_length; [done|by destruct ws]); clearbody ws'; clear ws Hw; rename ws' into ws;
  match goal with H : length ws = 16%nat |- _ => rename H into Hw end.

(** The unrolled loop computes the rounds of the standard. *)
Lemma sha1_unrolled s chunk : Transform s chunk = block s chunk.
Proof.
  destruct s as [|a [|b [|c [|d [|e [|]]]]]]; [reflexivity|reflexivity|reflexivity|reflexivity|reflexivity| |reflexivity]. unfold block.
  rewrite <- (rounds_sim _ _ _ next_word5 _ _ sha1_schedule sha1_step). change code_schedule with (group_rounds 0 ++ group_rounds 1 ++ group_rounds 2 ++ group_rounds 3 ++ group_rounds 4).
  unfold Transform. rewrite sha1_group0. set (ws := words chunk). assert (length ws = 16%nat) as Hw by reflexivity. clearbody ws. rewrite rounds_group by done.
  destruct (foldl step5 (a, b, c, d, e) _) as [[[[a1 b1] c1] d1] e1]. cbv beta iota.
  rewrite sha1_group1 by done. next_window ws Hw. rewrite rounds_group by done. destruct (foldl step5 _ _) as [[[[a2 b2] c2] d2] e2]. cbv beta iota.
  rewrite sha1_group2 by done. next_window ws Hw. rewrite rounds_group by done. destruct (foldl step5 _ _) as [[[[a3 b3] c3] d3] e3]. cbv beta iota.
  rewrite sha1_group3 by done. next_window ws Hw. rewrite rounds_group by done. destruct (foldl step5 _ _) as [[[[a4 b4] c4] d4] e4]. cbv beta iota.
  rewrite sha1_group4 by done. next_window ws Hw. rewrite rounds_last by (rewrite Hw; cbn; lia). destruct (foldl step5 _ _) as [[[[a5 b5] c5] d5] e5]. reflexivity.
Qed.
End sha1.
