(* ===== verification/Ripemd160.v ===== *)
(** * RIPEMD-160: src/src/crypto/ripemd160.cpp

    The two interleaved lines of unrolled rounds of [Transform] against the tables of the
    standard. *)

From S2P Require Import Prelude Serialize HashStream Sha2 Sha1.

Open Scope Z_scope.

Module ripemd160.

Definition f1 (x y z : Z) : Z := Z.lxor (Z.lxor x y) z.
Definition f2 (x y z : Z) : Z := Z.lor (Z.land x y) (Z.land (u32 (Z.lnot x)) z).
Definition f3 (x y z : Z) : Z := Z.lxor (Z.lor x (u32 (Z.lnot y))) z.
Definition f4 (x y z : Z) : Z := Z.lor (Z.land x z) (Z.land y (u32 (Z.lnot z))).
Definition f5 (x y z : Z) : Z := Z.lxor x (Z.lor y (u32 (Z.lnot z))).

Definition Initialize : list Z := [0x67452301; 0xEFCDAB89; 0x98BADCFE; 0x10325476; 0xC3D2E1F0].

Definition rol (x i : Z) : Z := Z.lor (u32 (Z.shiftl x i)) (Z.shiftr x (32 - i)).

(** One round; the new values of [a] and [c]. *)
Definition Round (a b c d e f x k r : Z) : Z * Z := (u32 (rol (u32 (a + f + x + k)) r + e), rol c 10).

Definition R11 (a b c d e x r : Z) : Z * Z := Round a b c d e (f1 b c d) x 0 r.
Definition R21 (a b c d e x r : Z) : Z * Z := Round a b c d e (f2 b c d) x 0x5A827999 r.
Definition R31 (a b c d e x r : Z) : Z * Z := Round a b c d e (f3 b c d) x 0x6ED9EBA1 r.
Definition R41 (a b c d e x r : Z) : Z * Z := Round a b c d e (f4 b c d) x 0x8F1BBCDC r.
Definition R51 (a b c d e x r : Z) : Z * Z := Round a b c d e (f5 b c d) x 0xA953FD4E r.

Definition R12 (a b c d e x r : Z) : Z * Z := Round a b c d e (f5 b c d) x 0x50A28BE6 r.
Definition R22 (a b c d e x r : Z) : Z * Z := Round a b c d e (f4 b c d) x 0x5C4DD124 r.
Definition R32 (a b c d e x r : Z) : Z * Z := Round a b c d e (f3 b c d) x 0x6D703EF3 r.
Definition R42 (a b c d e x r : Z) : Z * Z := Round a b c d e (f2 b c d) x 0x7A6D76E9 r.
Definition R52 (a b c d e x r : Z) : Z * Z := Round a b c d e (f1 b c d) x 0 r.

(** The unrolled loops, in groups of 16 rounds of each line. *)
Definition group0 (r1 r2 : registers5) (w : list Z) : registers5 * registers5 :=
  match r1, r2, w with
  | (a1, b1, c1, d1, e1), (a2, b2, c2, d2, e2), [w0; w1; w2; w3; w4; w5; w6; w7; w8; w9; w10; w11; w12; w13; w14; w15] =>
      let '(a1, c1) := R11 a1 b1 c1 d1 e1 w0 11 in
      let '(a2, c2) := R12 a2 b2 c2 d2 e2 w5 8 in
      let '(e1, b1) := R11 e1 a1 b1 c1 d1 w1 14 in
      let '(e2, b2) := R12 e2 a2 b2 c2 d2 w14 9 in
      let '(d1, a1) := R11 d1 e1 a1 b1 c1 w2 15 in
      let '(d2, a2) := R12 d2 e2 a2 b2 c2 w7 9 in
      let '(c1, e1) := R11 c1 d1 e1 a1 b1 w3 12 in
      let '(c2, e2) := R12 c2 d2 e2 a2 b2 w0 11 in
      let '(b1, d1) := R11 b1 c1 d1 e1 a1 w4 5 in
      let '(b2, d2) := R12 b2 c2 d2 e2 a2 w9 13 in
      let '(a1, c1) := R11 a1 b1 c1 d1 e1 w5 8 in
      let '(a2, c2) := R12 a2 b2 c2 d2 e2 w2 15 in
      let '(e1, b1) := R11 e1 a1 b1 c1 d1 w6 7 in
      let '(e2, b2) := R12 e2 a2 b2 c2 d2 w11 15 in
      let '(d1, a1) := R11 d1 e1 a1 b1 c1 w7 9 in
      let '(d2, a2) := R12 d2 e2 a2 b2 c2 w4 5 in
      let '(c1, e1) := R11 c1 d1 e1 a1 b1 w8 11 in
      let '(c2, e2) := R12 c2 d2 e2 a2 b2 w13 7 in
      let '(b1, d1) := R11 b1 c1 d1 e1 a1 w9 13 in
      let '(b2, d2) := R12 b2 c2 d2 e2 a2 w6 7 in
      let '(a1, c1) := R11 a1 b1 c1 d1 e1 w10 14 in
      let '(a2, c2) := R12 a2 b2 c2 d2 e2 w15 8 in
      let '(e1, b1) := R11 e1 a1 b1 c1 d1 w11 15 in
      let '(e2, b2) := R12 e2 a2 b2 c2 d2 w8 11 in
      let '(d1, a1) := R11 d1 e1 a1 b1 c1 w12 6 in
      let '(d2, a2) := R12 d2 e2 a2 b2 c2 w1 14 in
      let '(c1, e1) := R11 c1 d1 e1 a1 b1 w13 7 in
      let '(c2, e2) := R12 c2 d2 e2 a2 b2 w10 14 in
      let '(b1, d1) := R11 b1 c1 d1 e1 a1 w14 9 in
      let '(b2, d2) := R12 b2 c2 d2 e2 a2 w3 12 in
      let '(a1, c1) := R11 a1 b1 c1 d1 e1 w15 8 in
      let '(a2, c2) := R12 a2 b2 c2 d2 e2 w12 6 in
      ((a1, b1, c1, d1, e1), (a2, b2, c2, d2, e2))
  | _, _, _ => (r1, r2)
  end.

Definition group1 (r1 r2 : registers5) (w : list Z) : registers5 * registers5 :=
  match r1, r2, w with
  | (a1, b1, c1, d1, e1), (a2, b2, c2, d2, e2), [w0; w1; w2; w3; w4; w5; w6; w7; w8; w9; w10; w11; w12; w13; w14; w15] =>
      let '(e1, b1) := R21 e1 a1 b1 c1 d1 w7 7 in
      let '(e2, b2) := R22 e2 a2 b2 c2 d2 w6 9 in
      let '(d1, a1) := R21 d1 e1 a1 b1 c1 w4 6 in
      let '(d2, a2) := R22 d2 e2 a2 b2 c2 w11 13 in
      let '(c1, e1) := R21 c1 d1 e1 a1 b1 w13 8 in
      let '(c2, e2) := R22 c2 d2 e2 a2 b2 w3 15 in
      let '(b1, d1) := R21 b1 c1 d1 e1 a1 w1 13 in
      let '(b2, d2) := R22 b2 c2 d2 e2 a2 w7 7 in
      let '(a1, c1) := R21 a1 b1 c1 d1 e1 w10 11 in
      let '(a2, c2) := R22 a2 b2 c2 d2 e2 w0 12 in
      let '(e1, b1) := R21 e1 a1 b1 c1 d1 w6 9 in
      let '(e2, b2) := R22 e2 a2 b2 c2 d2 w13 8 in
      let '(d1, a1) := R21 d1 e1 a1 b1 c1 w15 7 in
      let '(d2, a2) := R22 d2 e2 a2 b2 c2 w5 9 in
      let '(c1, e1) := R21 c1 d1 e1 a1 b1 w3 15 in
      let '(c2, e2) := R22 c2 d2 e2 a2 b2 w10 11 in
      let '(b1, d1) := R21 b1 c1 d1 e1 a1 w12 7 in
      let '(b2, d2) := R22 b2 c2 d2 e2 a2 w14 7 in
      let '(a1, c1) := R21 a1 b1 c1 d1 e1 w0 12 in
      let '(a2, c2) := R22 a2 b2 c2 d2 e2 w15 7 in
      let '(e1, b1) := R21 e1 a1 b1 c1 d1 w9 15 in
      let '(e2, b2) := R22 e2 a2 b2 c2 d2 w8 12 in
      let '(d1, a1) := R21 d1 e1 a1 b1 c1 w5 9 in
      let '(d2, a2) := R22 d2 e2 a2 b2 c2 w12 7 in
      let '(c1, e1) := R21 c1 d1 e1 a1 b1 w2 11 in
      let '(c2, e2) := R22 c2 d2 e2 a2 b2 w4 6 in
      let '(b1, d1) := R21 b1 c1 d1 e1 a1 w14 7 in
      let '(b2, d2) := R22 b2 c2 d2 e2 a2 w9 15 in
      let '(a1, c1) := R21 a1 b1 c1 d1 e1 w11 13 in
      let '(a2, c2) := R22 a2 b2 c2 d2 e2 w1 13 in
      let '(e1, b1) := R21 e1 a1 b1 c1 d1 w8 12 in
      let '(e2, b2) := R22 e2 a2 b2 c2 d2 w2 11 in
      ((a1, b1, c1, d1, e1), (a2, b2, c2, d2, e2))
  | _, _, _ => (r1, r2)
  end.

Definition group2 (r1 r2 : registers5) (w : list Z) : registers5 * registers5 :=
  match r1, r2, w with
  | (a1, b1, c1, d1, e1), (a2, b2, c2, d2, e2), [w0; w1; w2; w3; w4; w5; w6; w7; w8; w9; w10; w11; w12; w13; w14; w15] =>
      let '(d1, a1) := R31 d1 e1 a1 b1 c1 w3 11 in
      let '(d2, a2) := R32 d2 e2 a2 b2 c2 w15 9 in
      let '(c1, e1) := R31 c1 d1 e1 a1 b1 w10 13 in
      let '(c2, e2) := R32 c2 d2 e2 a2 b2 w5 7 in
      let '(b1, d1) := R31 b1 c1 d1 e1 a1 w14 6 in
      let '(b2, d2) := R32 b2 c2 d2 e2 a2 w1 15 in
      let '(a1, c1) := R31 a1 b1 c1 d1 e1 w4 7 in
      let '(a2, c2) := R32 a2 b2 c2 d2 e2 w3 11 in
      let '(e1, b1) := R31 e1 a1 b1 c1 d1 w9 14 in
      let '(e2, b2) := R32 e2 a2 b2 c2 d2 w7 8 in
      let '(d1, a1) := R31 d1 e1 a1 b1 c1 w15 9 in
      let '(d2, a2) := R32 d2 e2 a2 b2 c2 w14 6 in
      let '(c1, e1) := R31 c1 d1 e1 a1 b1 w8 13 in
      let '(c2, e2) := R32 c2 d2 e2 a2 b2 w6 6 in
      let '(b1, d1) := R31 b1 c1 d1 e1 a1 w1 15 in
      let '(b2, d2) := R32 b2 c2 d2 e2 a2 w9 14 in
      let '(a1, c1) := R31 a1 b1 c1 d1 e1 w2 14 in
      let '(a2, c2) := R32 a2 b2 c2 d2 e2 w11 12 in
      let '(e1, b1) := R31 e1 a1 b1 c1 d1 w7 8 in
      let '(e2, b2) := R32 e2 a2 b2 c2 d2 w8 13 in
      let '(d1, a1) := R31 d1 e1 a1 b1 c1 w0 13 in
      let '(d2, a2) := R32 d2 e2 a2 b2 c2 w12 5 in
      let '(c1, e1) := R31 c1 d1 e1 a1 b1 w6 6 in
      let '(c2, e2) := R32 c2 d2 e2 a2 b2 w2 14 in
      let '(b1, d1) := R31 b1 c1 d1 e1 a1 w13 5 in
      let '(b2, d2) := R32 b2 c2 d2 e2 a2 w10 13 in
      let '(a1, c1) := R31 a1 b1 c1 d1 e1 w11 12 in
      let '(a2, c2) := R32 a2 b2 c2 d2 e2 w0 13 in
      let '(e1, b1) := R31 e1 a1 b1 c1 d1 w5 7 in
      let '(e2, b2) := R32 e2 a2 b2 c2 d2 w4 7 in
      let '(d1, a1) := R31 d1 e1 a1 b1 c1 w12 5 in
      let '(d2, a2) := R32 d2 e2 a2 b2 c2 w13 5 in
      ((a1, b1, c1, d1, e1), (a2, b2, c2, d2, e2))
  | _, _, _ => (r1, r2)
  end.

Definition group3 (r1 r2 : registers5) (w : list Z) : registers5 * registers5 :=
  match r1, r2, w with
  | (a1, b1, c1, d1, e1), (a2, b2, c2, d2, e2), [w0; w1; w2; w3; w4; w5; w6; w7; w8; w9; w10; w11; w12; w13; w14; w15] =>
      let '(c1, e1) := R41 c1 d1 e1 a1 b1 w1 11 in
      let '(c2, e2) := R42 c2 d2 e2 a2 b2 w8 15 in
      let '(b1, d1) := R41 b1 c1 d1 e1 a1 w9 12 in
      let '(b2, d2) := R42 b2 c2 d2 e2 a2 w6 5 in
      let '(a1, c1) := R41 a1 b1 c1 d1 e1 w11 14 in
      let '(a2, c2) := R42 a2 b2 c2 d2 e2 w4 8 in
      let '(e1, b1) := R41 e1 a1 b1 c1 d1 w10 15 in
      let '(e2, b2) := R42 e2 a2 b2 c2 d2 w1 11 in
      let '(d1, a1) := R41 d1 e1 a1 b1 c1 w0 14 in
      let '(d2, a2) := R42 d2 e2 a2 b2 c2 w3 14 in
      let '(c1, e1) := R41 c1 d1 e1 a1 b1 w8 15 in
      let '(c2, e2) := R42 c2 d2 e2 a2 b2 w11 14 in
      let '(b1, d1) := R41 b1 c1 d1 e1 a1 w12 9 in
      let '(b2, d2) := R42 b2 c2 d2 e2 a2 w15 6 in
      let '(a1, c1) := R41 a1 b1 c1 d1 e1 w4 8 in
      let '(a2, c2) := R42 a2 b2 c2 d2 e2 w0 14 in
      let '(e1, b1) := R41 e1 a1 b1 c1 d1 w13 9 in
      let '(e2, b2) := R42 e2 a2 b2 c2 d2 w5 6 in
      let '(d1, a1) := R41 d1 e1 a1 b1 c1 w3 14 in
      let '(d2, a2) := R42 d2 e2 a2 b2 c2 w12 9 in
      let '(c1, e1) := R41 c1 d1 e1 a1 b1 w7 5 in
      let '(c2, e2) := R42 c2 d2 e2 a2 b2 w2 12 in
      let '(b1, d1) := R41 b1 c1 d1 e1 a1 w15 6 in
      let '(b2, d2) := R42 b2 c2 d2 e2 a2 w13 9 in
      let '(a1, c1) := R41 a1 b1 c1 d1 e1 w14 8 in
      let '(a2, c2) := R42 a2 b2 c2 d2 e2 w9 12 in
      let '(e1, b1) := R41 e1 a1 b1 c1 d1 w5 6 in
      let '(e2, b2) := R42 e2 a2 b2 c2 d2 w7 5 in
      let '(d1, a1) := R41 d1 e1 a1 b1 c1 w6 5 in
      let '(d2, a2) := R42 d2 e2 a2 b2 c2 w10 15 in
      let '(c1, e1) := R41 c1 d1 e1 a1 b1 w2 12 in
      let '(c2, e2) := R42 c2 d2 e2 a2 b2 w14 8 in
      ((a1, b1, c1, d1, e1), (a2, b2, c2, d2, e2))
  | _, _, _ => (r1, r2)
  end.

Definition group4 (r1 r2 : registers5) (w : list Z) : registers5 * registers5 :=
  match r1, r2, w with
  | (a1, b1, c1, d1, e1), (a2, b2, c2, d2, e2), [w0; w1; w2; w3; w4; w5; w6; w7; w8; w9; w10; w11; w12; w13; w14; w15] =>
      let '(b1, d1) := R51 b1 c1 d1 e1 a1 w4 9 in
      let '(b2, d2) := R52 b2 c2 d2 e2 a2 w12 8 in
      let '(a1, c1) := R51 a1 b1 c1 d1 e1 w0 15 in
      let '(a2, c2) := R52 a2 b2 c2 d2 e2 w15 5 in
      let '(e1, b1) := R51 e1 a1 b1 c1 d1 w5 5 in
      let '(e2, b2) := R52 e2 a2 b2 c2 d2 w10 12 in
      let '(d1, a1) := R51 d1 e1 a1 b1 c1 w9 11 in
      let '(d2, a2) := R52 d2 e2 a2 b2 c2 w4 9 in
      let '(c1, e1) := R51 c1 d1 e1 a1 b1 w7 6 in
      let '(c2, e2) := R52 c2 d2 e2 a2 b2 w1 12 in
      let '(b1, d1) := R51 b1 c1 d1 e1 a1 w12 8 in
      let '(b2, d2) := R52 b2 c2 d2 e2 a2 w5 5 in
      let '(a1, c1) := R51 a1 b1 c1 d1 e1 w2 13 in
      let '(a2, c2) := R52 a2 b2 c2 d2 e2 w8 14 in
      let '(e1, b1) := R51 e1 a1 b1 c1 d1 w10 12 in
      let '(e2, b2) := R52 e2 a2 b2 c2 d2 w7 6 in
      let '(d1, a1) := R51 d1 e1 a1 b1 c1 w14 5 in
      let '(d2, a2) := R52 d2 e2 a2 b2 c2 w6 8 in
      let '(c1, e1) := R51 c1 d1 e1 a1 b1 w1 12 in
      let '(c2, e2) := R52 c2 d2 e2 a2 b2 w2 13 in
      let '(b1, d1) := R51 b1 c1 d1 e1 a1 w3 13 in
      let '(b2, d2) := R52 b2 c2 d2 e2 a2 w13 6 in
      let '(a1, c1) := R51 a1 b1 c1 d1 e1 w8 14 in
      let '(a2, c2) := R52 a2 b2 c2 d2 e2 w14 5 in
      let '(e1, b1) := R51 e1 a1 b1 c1 d1 w11 11 in
      let '(e2, b2) := R52 e2 a2 b2 c2 d2 w0 15 in
      let '(d1, a1) := R51 d1 e1 a1 b1 c1 w6 8 in
      let '(d2, a2) := R52 d2 e2 a2 b2 c2 w3 13 in
      let '(c1, e1) := R51 c1 d1 e1 a1 b1 w15 5 in
      let '(c2, e2) := R52 c2 d2 e2 a2 b2 w9 11 in
      let '(b1, d1) := R51 b1 c1 d1 e1 a1 w13 6 in
      let '(b2, d2) := R52 b2 c2 d2 e2 a2 w11 11 in
      ((a1, b1, c1, d1, e1), (a2, b2, c2, d2, e2))
  | _, _, _ => (r1, r2)
  end.

Definition Transform (s chunk : list Z) : list Z :=
  match s with
  | [s0; s1; s2; s3; s4] =>
      let r := (s0, s1, s2, s3, s4) in
      let w := map (fun i => ReadLE32 (drop (4 * i) chunk)) (seq 0 16) in
      let '(r1, r2) := group0 r r w in
      let '(r1, r2) := group1 r1 r2 w in
      let '(r1, r2) := group2 r1 r2 w in
      let '(r1, r2) := group3 r1 r2 w in
      let '((a1, b1, c1, d1, e1), (a2, b2, c2, d2, e2)) := group4 r1 r2 w in
      [u32 (s1 + c1 + d2); u32 (s2 + d1 + e2); u32 (s3 + e1 + a2); u32 (s4 + a1 + b2); u32 (s0 + b1 + c2)]
  | _ => s
  end.

(** ** The standard *)

(** The word and the rotation of each round, on the left and on the right. *)
Definition left_words : list nat :=
  [0; 1; 2; 3; 4; 5; 6; 7; 8; 9; 10; 11; 12; 13; 14; 15;
   7; 4; 13; 1; 10; 6; 15; 3; 12; 0; 9; 5; 2; 14; 11; 8;
   3; 10; 14; 4; 9; 15; 8; 1; 2; 7; 0; 6; 13; 11; 5; 12;
   1; 9; 11; 10; 0; 8; 12; 4; 13; 3; 7; 15; 14; 5; 6; 2;
   4; 0; 5; 9; 7; 12; 2; 10; 14; 1; 3; 8; 11; 6; 15; 13]%nat.
Definition right_words : list nat :=
  [5; 14; 7; 0; 9; 2; 11; 4; 13; 6; 15; 8; 1; 10; 3; 12;
   6; 11; 3; 7; 0; 13; 5; 10; 14; 15; 8; 12; 4; 9; 1; 2;
   15; 5; 1; 3; 7; 14; 6; 9; 11; 8; 12; 2; 10; 0; 4; 13;
   8; 6; 4; 1; 3; 11; 15; 0; 5; 12; 2; 13; 9; 7; 10; 14;
   12; 15; 10; 4; 1; 5; 8; 7; 6; 2; 13; 14; 0; 3; 9; 11]%nat.
Definition left_shifts : list Z :=
  [11; 14; 15; 12; 5; 8; 7; 9; 11; 13; 14; 15; 6; 7; 9; 8;
   7; 6; 8; 13; 11; 9; 7; 15; 7; 12; 15; 9; 11; 7; 13; 12;
   11; 13; 6; 7; 14; 9; 13; 15; 14; 8; 13; 6; 5; 12; 7; 5;
   11; 12; 14; 15; 14; 15; 9; 8; 9; 14; 5; 6; 8; 6; 5; 12;
   9; 15; 5; 11; 6; 8; 13; 12; 5; 12; 13; 14; 11; 8; 5; 6].
Definition right_shifts : list Z :=
  [8; 9; 9; 11; 13; 15; 15; 5; 7; 7; 8; 11; 14; 14; 12; 6;
   9; 13; 15; 7; 12; 8; 9; 11; 7; 7; 12; 7; 6; 15; 13; 11;
   9; 7; 15; 11; 8; 6; 6; 14; 12; 13; 5; 14; 13; 13; 7; 5;
   15; 5; 8; 11; 14; 14; 6; 14; 6; 9; 12; 9; 12; 5; 15; 8;
   8; 5; 12; 9; 12; 5; 14; 6; 8; 13; 6; 5; 15; 13; 11; 11].
Definition left_functions : list ((Z → Z → Z → Z) * Z) :=
  [(f1, 0); (f2, 0x5A827999); (f3, 0x6ED9EBA1); (f4, 0x8F1BBCDC); (f5, 0xA953FD4E)].
Definition right_functions : list ((Z → Z → Z → Z) * Z) :=
  [(f5, 0x50A28BE6); (f4, 0x5C4DD124); (f3, 0x6D703EF3); (f2, 0x7A6D76E9); (f1, 0)].

(** The function, the constant, the index of the word and the rotation of round [j]. *)
Definition line : Type := nat → (Z → Z → Z → Z) * Z * nat * Z.
Definition left_line : line := fun j =>
  (nth (j / 16) left_functions (f1, 0), nth j left_words 0%nat, nth j left_shifts 0).
Definition right_line : line := fun j =>
  (nth (j / 16) right_functions (f1, 0), nth j right_words 0%nat, nth j right_shifts 0).

(** A round with its word: function, constant, word, rotation. *)
Definition round_data : Type := (Z → Z → Z → Z) * Z * Z * Z.
Definition line_round (p : round_data) (a b c d e : Z) : Z * Z :=
  let '(f, k, x, s) := p in Round a b c d e (f b c d) x k s.
Definition line_step (r : registers5) (p : round_data) : registers5 :=
  let '(a, b, c, d, e) := r in let '(a, c) := line_round p a b c d e in (e, a, b, c, d).
Definition with_word (l : line) (w : list Z) (j : nat) : round_data :=
  let '(f, k, i, s) := l j in (f, k, nth i w 0, s).

Definition words (chunk : list Z) : list Z := map (fun i => ReadLE32 (drop (4 * i) chunk)) (seq 0 16).
Definition block (s chunk : list Z) : list Z :=
  match s with
  | [h0; h1; h2; h3; h4] =>
      let r := (h0, h1, h2, h3, h4) in
      let '(a, b, c, d, e) := foldl line_step r (map (with_word left_line (words chunk)) (seq 0 80)) in
      let '(a', b', c', d', e') := foldl line_step r (map (with_word right_line (words chunk)) (seq 0 80)) in
      [u32 (h1 + c + d'); u32 (h2 + d + e'); u32 (h3 + e + a'); u32 (h4 + a + b'); u32 (h0 + b + c')]
  | _ => s
  end.

(** ** The unrolled loops *)

Definition line_group (l : line) (i : nat) (w : list Z) : list round_data := map (with_word l w) (seq (16 * i) 16).
Definition no_round : round_data := (f1, 0, 0, 0).

Lemma ripemd_straight {A} (F : registers5 → registers5 → A) p0 p1 p2 p3 p4 p5 p6 p7 p8 p9 p10 p11 p12 p13 p14 p15 q0 q1 q2 q3 q4 q5 q6 q7 q8 q9 q10 q11 q12 q13 q14 q15 a1 b1 c1 d1 e1 a2 b2 c2 d2 e2 :
  F (foldl line_step (a1, b1, c1, d1, e1) [p0; p1; p2; p3; p4; p5; p6; p7; p8; p9; p10; p11; p12; p13; p14; p15]) (foldl line_step (a2, b2, c2, d2, e2) [q0; q1; q2; q3; q4; q5; q6; q7; q8; q9; q10; q11; q12; q13; q14; q15]) =
    let '(a1, c1) := line_round p0 a1 b1 c1 d1 e1 in
    let '(a2, c2) := line_round q0 a2 b2 c2 d2 e2 in
    let '(e1, b1) := line_round p1 e1 a1 b1 c1 d1 in
    let '(e2, b2) := line_round q1 e2 a2 b2 c2 d2 in
    let '(d1, a1) := line_round p2 d1 e1 a1 b1 c1 in
    let '(d2, a2) := line_round q2 d2 e2 a2 b2 c2 in
    let '(c1, e1) := line_round p3 c1 d1 e1 a1 b1 in
    let '(c2, e2) := line_round q3 c2 d2 e2 a2 b2 in
    let '(b1, d1) := line_round p4 b1 c1 d1 e1 a1 in
    let '(b2, d2) := line_round q4 b2 c2 d2 e2 a2 in
    let '(a1, c1) := line_round p5 a1 b1 c1 d1 e1 in
    let '(a2, c2) := line_round q5 a2 b2 c2 d2 e2 in
    let '(e1, b1) := line_round p6 e1 a1 b1 c1 d1 in
    let '(e2, b2) := line_round q6 e2 a2 b2 c2 d2 in
    let '(d1, a1) := line_round p7 d1 e1 a1 b1 c1 in
    let '(d2, a2) := line_round q7 d2 e2 a2 b2 c2 in
    let '(c1, e1) := line_round p8 c1 d1 e1 a1 b1 in
    let '(c2, e2) := line_round q8 c2 d2 e2 a2 b2 in
    let '(b1, d1) := line_round p9 b1 c1 d1 e1 a1 in
    let '(b2, d2) := line_round q9 b2 c2 d2 e2 a2 in
    let '(a1, c1) := line_round p10 a1 b1 c1 d1 e1 in
    let '(a2, c2) := line_round q10 a2 b2 c2 d2 e2 in
    let '(e1, b1) := line_round p11 e1 a1 b1 c1 d1 in
    let '(e2, b2) := line_round q11 e2 a2 b2 c2 d2 in
    let '(d1, a1) := line_round p12 d1 e1 a1 b1 c1 in
    let '(d2, a2) := line_round q12 d2 e2 a2 b2 c2 in
    let '(c1, e1) := line_round p13 c1 d1 e1 a1 b1 in
    let '(c2, e2) := line_round q13 c2 d2 e2 a2 b2 in
    let '(b1, d1) := line_round p14 b1 c1 d1 e1 a1 in
    let '(b2, d2) := line_round q14 b2 c2 d2 e2 a2 in
    let '(a1, c1) := line_round p15 a1 b1 c1 d1 e1 in
    let '(a2, c2) := line_round q15 a2 b2 c2 d2 e2 in
    F (e1, a1, b1, c1, d1) (e2, a2, b2, c2, d2).
Proof.
  cbn [foldl]. do 32 (cbn [line_step]; match goal with |- _ = (let '(_, _) := ?R in _) => destruct R end). reflexivity.
Qed.
Lemma ripemd_group0 a1 b1 c1 d1 e1 a2 b2 c2 d2 e2 w : length w = 16%nat →
  group0 (a1, b1, c1, d1, e1) (a2, b2, c2, d2, e2) w =
  (let '(e1, a1, b1, c1, d1) := foldl line_step (a1, b1, c1, d1, e1) (line_group left_line 0 w) in (a1, b1, c1, d1, e1),
   let '(e2, a2, b2, c2, d2) := foldl line_step (a2, b2, c2, d2, e2) (line_group right_line 0 w) in (a2, b2, c2, d2, e2)).
Proof.
  intros Hw. destruct w as [|w0 [|w1 [|w2 [|w3 [|w4 [|w5 [|w6 [|w7 [|w8 [|w9 [|w10 [|w11 [|w12 [|w13 [|w14 [|w15 [|]]]]]]]]]]]]]]]]]; try discriminate Hw. clear Hw. symmetry.
  exact (ripemd_straight (fun x y => (let '(e1, a1, b1, c1, d1) := x in (a1, b1, c1, d1, e1), let '(e2, a2, b2, c2, d2) := y in (a2, b2, c2, d2, e2))) (nth 0 (line_group left_line 0 [w0; w1; w2; w3; w4; w5; w6; w7; w8; w9; w10; w11; w12; w13; w14; w15]) no_round) (nth 1 (line_group left_line 0 [w0; w1; w2; w3; w4; w5; w6; w7; w8; w9; w10; w11; w12; w13; w14; w15]) no_round) (nth 2 (line_group left_line 0 [w0; w1; w2; w3; w4; w5; w6; w7; w8; w9; w10; w11; w12; w13; w14; w15]) no_round) (nth 3 (line_group left_line 0 [w0; w1; w2; w3; w4; w5; w6; w7; w8; w9; w10; w11; w12; w13; w14; w15]) no_round) (nth 4 (line_group left_line 0 [w0; w1; w2; w3; w4; w5; w6; w7; w8; w9; w10; w11; w12; w13; w14; w15]) no_round) (nth 5 (line_group left_line 0 [w0; w1; w2; w3; w4; w5; w6; w7; w8; w9; w10; w11; w12; w13; w14; w15]) no_round) (nth 6 (line_group left_line 0 [w0; w1; w2; w3; w4; w5; w6; w7; w8; w9; w10; w11; w12; w13; w14; w15]) no_round) (nth 7 (line_group left_line 0 [w0; w1; w2; w3; w4; w5; w6; w7; w8; w9; w10; w11; w12; w13; w14; w15]) no_round) (nth 8 (line_group left_line 0 [w0; w1; w2; w3; w4; w5; w6; w7; w8; w9; w10; w11; w12; w13; w14; w15]) no_round) (nth 9 (line_group left_line 0 [w0; w1; w2; w3; w4; w5; w6; w7; w8; w9; w10; w11; w12; w13; w14; w15]) no_round) (nth 10 (line_group left_line 0 [w0; w1; w2; w3; w4; w5; w6; w7; w8; w9; w10; w11; w12; w13; w14; w15]) no_round) (nth 11 (line_group left_line 0 [w0; w1; w2; w3; w4; w5; w6; w7; w8; w9; w10; w11; w12; w13; w14; w15]) no_round) (nth 12 (line_group left_line 0 [w0; w1; w2; w3; w4; w5; w6; w7; w8; w9; w10; w11; w12; w13; w14; w15]) no_round) (nth 13 (line_group left_line 0 [w0; w1; w2; w3; w4; w5; w6; w7; w8; w9; w10; w11; w12; w13; w14; w15]) no_round) (nth 14 (line_group left_line 0 [w0; w1; w2; w3; w4; w5; w6; w7; w8; w9; w10; w11; w12; w13; w14; w15]) no_round) (nth 15 (line_group left_line 0 [w0; w1; w2; w3; w4; w5; w6; w7; w8; w9; w10; w11; w12; w13; w14; w15]) no_round)
    (nth 0 (line_group right_line 0 [w0; w1; w2; w3; w4; w5; w6; w7; w8; w9; w10; w11; w12; w13; w14; w15]) no_round) (nth 1 (line_group right_line 0 [w0; w1; w2; w3; w4; w5; w6; w7; w8; w9; w10; w11; w12; w13; w14; w15]) no_round) (nth 2 (line_group right_line 0 [w0; w1; w2; w3; w4; w5; w6; w7; w8; w9; w10; w11; w12; w13; w14; w15]) no_round) (nth 3 (line_group right_line 0 [w0; w1; w2; w3; w4; w5; w6; w7; w8; w9; w10; w11; w12; w13; w14; w15]) no_round) (nth 4 (line_group right_line 0 [w0; w1; w2; w3; w4; w5; w6; w7; w8; w9; w10; w11; w12; w13; w14; w15]) no_round) (nth 5 (line_group right_line 0 [w0; w1; w2; w3; w4; w5; w6; w7; w8; w9; w10; w11; w12; w13; w14; w15]) no_round) (nth 6 (line_group right_line 0 [w0; w1; w2; w3; w4; w5; w6; w7; w8; w9; w10; w11; w12; w13; w14; w15]) no_round) (nth 7 (line_group right_line 0 [w0; w1; w2; w3; w4; w5; w6; w7; w8; w9; w10; w11; w12; w13; w14; w15]) no_round) (nth 8 (line_group right_line 0 [w0; w1; w2; w3; w4; w5; w6; w7; w8; w9; w10; w11; w12; w13; w14; w15]) no_round) (nth 9 (line_group right_line 0 [w0; w1; w2; w3; w4; w5; w6; w7; w8; w9; w10; w11; w12; w13; w14; w15]) no_round) (nth 10 (line_group right_line 0 [w0; w1; w2; w3; w4; w5; w6; w7; w8; w9; w10; w11; w12; w13; w14; w15]) no_round) (nth 11 (line_group right_line 0 [w0; w1; w2; w3; w4; w5; w6; w7; w8; w9; w10; w11; w12; w13; w14; w15]) no_round) (nth 12 (line_group right_line 0 [w0; w1; w2; w3; w4; w5; w6; w7; w8; w9; w10; w11; w12; w13; w14; w15]) no_round) (nth 13 (line_group right_line 0 [w0; w1; w2; w3; w4; w5; w6; w7; w8; w9; w10; w11; w12; w13; w14; w15]) no_round) (nth 14 (line_group right_line 0 [w0; w1; w2; w3; w4; w5; w6; w7; w8; w9; w10; w11; w12; w13; w14; w15]) no_round) (nth 15 (line_group right_line 0 [w0; w1; w2; w3; w4; w5; w6; w7; w8; w9; w10; w11; w12; w13; w14; w15]) no_round) a1 b1 c1 d1 e1 a2 b2 c2 d2 e2).
Qed.
Lemma ripemd_group1 a1 b1 c1 d1 e1 a2 b2 c2 d2 e2 w : length w = 16%nat →
  group1 (a1, b1, c1, d1, e1) (a2, b2, c2, d2, e2) w =
  (let '(d1, e1, a1, b1, c1) := foldl line_step (e1, a1, b1, c1, d1) (line_group left_line 1 w) in (a1, b1, c1, d1, e1),
   let '(d2, e2, a2, b2, c2) := foldl line_step (e2, a2, b2, c2, d2) (line_group right_line 1 w) in (a2, b2, c2, d2, e2)).
Proof.
  intros Hw. destruct w as [|w0 [|w1 [|w2 [|w3 [|w4 [|w5 [|w6 [|w7 [|w8 [|w9 [|w10 [|w11 [|w12 [|w13 [|w14 [|w15 [|]]]]]]]]]]]]]]]]]; try discriminate Hw. clear Hw. symmetry.
  exact (ripemd_straight (fun x y => (let '(d1, e1, a1, b1, c1) := x in (a1, b1, c1, d1, e1), let '(d2, e2, a2, b2, c2) := y in (a2, b2, c2, d2, e2))) (nth 0 (line_group left_line 1 [w0; w1; w2; w3; w4; w5; w6; w7; w8; w9; w10; w11; w12; w13; w14; w15]) no_round) (nth 1 (line_group left_line 1 [w0; w1; w2; w3; w4; w5; w6; w7; w8; w9; w10; w11; w12; w13; w14; w15]) no_round) (nth 2 (line_group left_line 1 [w0; w1; w2; w3; w4; w5; w6; w7; w8; w9; w10; w11; w12; w13; w14; w15]) no_round) (nth 3 (line_group left_line 1 [w0; w1; w2; w3; w4; w5; w6; w7; w8; w9; w10; w11; w12; w13; w14; w15]) no_round) (nth 4 (line_group left_line 1 [w0; w1; w2; w3; w4; w5; w6; w7; w8; w9; w10; w11; w12; w13; w14; w15]) no_round) (nth 5 (line_group left_line 1 [w0; w1; w2; w3; w4; w5; w6; w7; w8; w9; w10; w11; w12; w13; w14; w15]) no_round) (nth 6 (line_group left_line 1 [w0; w1; w2; w3; w4; w5; w6; w7; w8; w9; w10; w11; w12; w13; w14; w15]) no_round) (nth 7 (line_group left_line 1 [w0; w1; w2; w3; w4; w5; w6; w7; w8; w9; w10; w11; w12; w13; w14; w15]) no_round) (nth 8 (line_group left_line 1 [w0; w1; w2; w3; w4; w5; w6; w7; w8; w9; w10; w11; w12; w13; w14; w15]) no_round) (nth 9 (line_group left_line 1 [w0; w1; w2; w3; w4; w5; w6; w7; w8; w9; w10; w11; w12; w13; w14; w15]) no_round) (nth 10 (line_group left_line 1 [w0; w1; w2; w3; w4; w5; w6; w7; w8; w9; w10; w11; w12; w13; w14; w15]) no_round) (nth 11 (line_group left_line 1 [w0; w1; w2; w3; w4; w5; w6; w7; w8; w9; w10; w11; w12; w13; w14; w15]) no_round) (nth 12 (line_group left_line 1 [w0; w1; w2; w3; w4; w5; w6; w7; w8; w9; w10; w11; w12; w13; w14; w15]) no_round) (nth 13 (line_group left_line 1 [w0; w1; w2; w3; w4; w5; w6; w7; w8; w9; w10; w11; w12; w13; w14; w15]) no_round) (nth 14 (line_group left_line 1 [w0; w1; w2; w3; w4; w5; w6; w7; w8; w9; w10; w11; w12; w13; w14; w15]) no_round) (nth 15 (line_group left_line 1 [w0; w1; w2; w3; w4; w5; w6; w7; w8; w9; w10; w11; w12; w13; w14; w15]) no_round)
    (nth 0 (line_group right_line 1 [w0; w1; w2; w3; w4; w5; w6; w7; w8; w9; w10; w11; w12; w13; w14; w15]) no_round) (nth 1 (line_group right_line 1 [w0; w1; w2; w3; w4; w5; w6; w7; w8; w9; w10; w11; w12; w13; w14; w15]) no_round) (nth 2 (line_group right_line 1 [w0; w1; w2; w3; w4; w5; w6; w7; w8; w9; w10; w11; w12; w13; w14; w15]) no_round) (nth 3 (line_group right_line 1 [w0; w1; w2; w3; w4; w5; w6; w7; w8; w9; w10; w11; w12; w13; w14; w15]) no_round) (nth 4 (line_group right_line 1 [w0; w1; w2; w3; w4; w5; w6; w7; w8; w9; w10; w11; w12; w13; w14; w15]) no_round) (nth 5 (line_group right_line 1 [w0; w1; w2; w3; w4; w5; w6; w7; w8; w9; w10; w11; w12; w13; w14; w15]) no_round) (nth 6 (line_group right_line 1 [w0; w1; w2; w3; w4; w5; w6; w7; w8; w9; w10; w11; w12; w13; w14; w15]) no_round) (nth 7 (line_group right_line 1 [w0; w1; w2; w3; w4; w5; w6; w7; w8; w9; w10; w11; w12; w13; w14; w15]) no_round) (nth 8 (line_group right_line 1 [w0; w1; w2; w3; w4; w5; w6; w7; w8; w9; w10; w11; w12; w13; w14; w15]) no_round) (nth 9 (line_group right_line 1 [w0; w1; w2; w3; w4; w5; w6; w7; w8; w9; w10; w11; w12; w13; w14; w15]) no_round) (nth 10 (line_group right_line 1 [w0; w1; w2; w3; w4; w5; w6; w7; w8; w9; w10; w11; w12; w13; w14; w15]) no_round) (nth 11 (line_group right_line 1 [w0; w1; w2; w3; w4; w5; w6; w7; w8; w9; w10; w11; w12; w13; w14; w15]) no_round) (nth 12 (line_group right_line 1 [w0; w1; w2; w3; w4; w5; w6; w7; w8; w9; w10; w11; w12; w13; w14; w15]) no_round) (nth 13 (line_group right_line 1 [w0; w1; w2; w3; w4; w5; w6; w7; w8; w9; w10; w11; w12; w13; w14; w15]) no_round) (nth 14 (line_group right_line 1 [w0; w1; w2; w3; w4; w5; w6; w7; w8; w9; w10; w11; w12; w13; w14; w15]) no_round) (nth 15 (line_group right_line 1 [w0; w1; w2; w3; w4; w5; w6; w7; w8; w9; w10; w11; w12; w13; w14; w15]) no_round) e1 a1 b1 c1 d1 e2 a2 b2 c2 d2).
Qed.
Lemma ripemd_group2 a1 b1 c1 d1 e1 a2 b2 c2 d2 e2 w : length w = 16%nat →
  group2 (a1, b1, c1, d1, e1) (a2, b2, c2, d2, e2) w =
  (let '(c1, d1, e1, a1, b1) := foldl line_step (d1, e1, a1, b1, c1) (line_group left_line 2 w) in (a1, b1, c1, d1, e1),
   let '(c2, d2, e2, a2, b2) := foldl line_step (d2, e2, a2, b2, c2) (line_group right_line 2 w) in (a2, b2, c2, d2, e2)).
Proof.
  intros Hw. destruct w as [|w0 [|w1 [|w2 [|w3 [|w4 [|w5 [|w6 [|w7 [|w8 [|w9 [|w10 [|w11 [|w12 [|w13 [|w14 [|w15 [|]]]]]]]]]]]]]]]]]; try discriminate Hw. clear Hw. symmetry.
  exact (ripemd_straight (fun x y => (let '(c1, d1, e1, a1, b1) := x in (a1, b1, c1, d1, e1), let '(c2, d2, e2, a2, b2) := y in (a2, b2, c2, d2, e2))) (nth 0 (line_group left_line 2 [w0; w1; w2; w3; w4; w5; w6; w7; w8; w9; w10; w11; w12; w13; w14; w15]) no_round) (nth 1 (line_group left_line 2 [w0; w1; w2; w3; w4; w5; w6; w7; w8; w9; w10; w11; w12; w13; w14; w15]) no_round) (nth 2 (line_group left_line 2 [w0; w1; w2; w3; w4; w5; w6; w7; w8; w9; w10; w11; w12; w13; w14; w15]) no_round) (nth 3 (line_group left_line 2 [w0; w1; w2; w3; w4; w5; w6; w7; w8; w9; w10; w11; w12; w13; w14; w15]) no_round) (nth 4 (line_group left_line 2 [w0; w1; w2; w3; w4; w5; w6; w7; w8; w9; w10; w11; w12; w13; w14; w15]) no_round) (nth 5 (line_group left_line 2 [w0; w1; w2; w3; w4; w5; w6; w7; w8; w9; w10; w11; w12; w13; w14; w15]) no_round) (nth 6 (line_group left_line 2 [w0; w1; w2; w3; w4; w5; w6; w7; w8; w9; w10; w11; w12; w13; w14; w15]) no_round) (nth 7 (line_group left_line 2 [w0; w1; w2; w3; w4; w5; w6; w7; w8; w9; w10; w11; w12; w13; w14; w15]) no_round) (nth 8 (line_group left_line 2 [w0; w1; w2; w3; w4; w5; w6; w7; w8; w9; w10; w11; w12; w13; w14; w15]) no_round) (nth 9 (line_group left_line 2 [w0; w1; w2; w3; w4; w5; w6; w7; w8; w9; w10; w11; w12; w13; w14; w15]) no_round) (nth 10 (line_group left_line 2 [w0; w1; w2; w3; w4; w5; w6; w7; w8; w9; w10; w11; w12; w13; w14; w15]) no_round) (nth 11 (line_group left_line 2 [w0; w1; w2; w3; w4; w5; w6; w7; w8; w9; w10; w11; w12; w13; w14; w15]) no_round) (nth 12 (line_group left_line 2 [w0; w1; w2; w3; w4; w5; w6; w7; w8; w9; w10; w11; w12; w13; w14; w15]) no_round) (nth 13 (line_group left_line 2 [w0; w1; w2; w3; w4; w5; w6; w7; w8; w9; w10; w11; w12; w13; w14; w15]) no_round) (nth 14 (line_group left_line 2 [w0; w1; w2; w3; w4; w5; w6; w7; w8; w9; w10; w11; w12; w13; w14; w15]) no_round) (nth 15 (line_group left_line 2 [w0; w1; w2; w3; w4; w5; w6; w7; w8; w9; w10; w11; w12; w13; w14; w15]) no_round)
    (nth 0 (line_group right_line 2 [w0; w1; w2; w3; w4; w5; w6; w7; w8; w9; w10; w11; w12; w13; w14; w15]) no_round) (nth 1 (line_group right_line 2 [w0; w1; w2; w3; w4; w5; w6; w7; w8; w9; w10; w11; w12; w13; w14; w15]) no_round) (nth 2 (line_group right_line 2 [w0; w1; w2; w3; w4; w5; w6; w7; w8; w9; w10; w11; w12; w13; w14; w15]) no_round) (nth 3 (line_group right_line 2 [w0; w1; w2; w3; w4; w5; w6; w7; w8; w9; w10; w11; w12; w13; w14; w15]) no_round) (nth 4 (line_group right_line 2 [w0; w1; w2; w3; w4; w5; w6; w7; w8; w9; w10; w11; w12; w13; w14; w15]) no_round) (nth 5 (line_group right_line 2 [w0; w1; w2; w3; w4; w5; w6; w7; w8; w9; w10; w11; w12; w13; w14; w15]) no_round) (nth 6 (line_group right_line 2 [w0; w1; w2; w3; w4; w5; w6; w7; w8; w9; w10; w11; w12; w13; w14; w15]) no_round) (nth 7 (line_group right_line 2 [w0; w1; w2; w3; w4; w5; w6; w7; w8; w9; w10; w11; w12; w13; w14; w15]) no_round) (nth 8 (line_group right_line 2 [w0; w1; w2; w3; w4; w5; w6; w7; w8; w9; w10; w11; w12; w13; w14; w15]) no_round) (nth 9 (line_group right_line 2 [w0; w1; w2; w3; w4; w5; w6; w7; w8; w9; w10; w11; w12; w13; w14; w15]) no_round) (nth 10 (line_group right_line 2 [w0; w1; w2; w3; w4; w5; w6; w7; w8; w9; w10; w11; w12; w13; w14; w15]) no_round) (nth 11 (line_group right_line 2 [w0; w1; w2; w3; w4; w5; w6; w7; w8; w9; w10; w11; w12; w13; w14; w15]) no_round) (nth 12 (line_group right_line 2 [w0; w1; w2; w3; w4; w5; w6; w7; w8; w9; w10; w11; w12; w13; w14; w15]) no_round) (nth 13 (line_group right_line 2 [w0; w1; w2; w3; w4; w5; w6; w7; w8; w9; w10; w11; w12; w13; w14; w15]) no_round) (nth 14 (line_group right_line 2 [w0; w1; w2; w3; w4; w5; w6; w7; w8; w9; w10; w11; w12; w13; w14; w15]) no_round) (nth 15 (line_group right_line 2 [w0; w1; w2; w3; w4; w5; w6; w7; w8; w9; w10; w11; w12; w13; w14; w15]) no_round) d1 e1 a1 b1 c1 d2 e2 a2 b2 c2).
Qed.
Lemma ripemd_group3 a1 b1 c1 d1 e1 a2 b2 c2 d2 e2 w : length w = 16%nat →
  group3 (a1, b1, c1, d1, e1) (a2, b2, c2, d2, e2) w =
  (let '(b1, c1, d1, e1, a1) := foldl line_step (c1, d1, e1, a1, b1) (line_group left_line 3 w) in (a1, b1, c1, d1, e1),
   let '(b2, c2, d2, e2, a2) := foldl line_step (c2, d2, e2, a2, b2) (line_group right_line 3 w) in (a2, b2, c2, d2, e2)).
Proof.
  intros Hw. destruct w as [|w0 [|w1 [|w2 [|w3 [|w4 [|w5 [|w6 [|w7 [|w8 [|w9 [|w10 [|w11 [|w12 [|w13 [|w14 [|w15 [|]]]]]]]]]]]]]]]]]; try discriminate Hw. clear Hw. symmetry.
  exact (ripemd_straight (fun x y => (let '(b1, c1, d1, e1, a1) := x in (a1, b1, c1, d1, e1), let '(b2, c2, d2, e2, a2) := y in (a2, b2, c2, d2, e2))) (nth 0 (line_group left_line 3 [w0; w1; w2; w3; w4; w5; w6; w7; w8; w9; w10; w11; w12; w13; w14; w15]) no_round) (nth 1 (line_group left_line 3 [w0; w1; w2; w3; w4; w5; w6; w7; w8; w9; w10; w11; w12; w13; w14; w15]) no_round) (nth 2 (line_group left_line 3 [w0; w1; w2; w3; w4; w5; w6; w7; w8; w9; w10; w11; w12; w13; w14; w15]) no_round) (nth 3 (line_group left_line 3 [w0; w1; w2; w3; w4; w5; w6; w7; w8; w9; w10; w11; w12; w13; w14; w15]) no_round) (nth 4 (line_group left_line 3 [w0; w1; w2; w3; w4; w5; w6; w7; w8; w9; w10; w11; w12; w13; w14; w15]) no_round) (nth 5 (line_group left_line 3 [w0; w1; w2; w3; w4; w5; w6; w7; w8; w9; w10; w11; w12; w13; w14; w15]) no_round) (nth 6 (line_group left_line 3 [w0; w1; w2; w3; w4; w5; w6; w7; w8; w9; w10; w11; w12; w13; w14; w15]) no_round) (nth 7 (line_group left_line 3 [w0; w1; w2; w3; w4; w5; w6; w7; w8; w9; w10; w11; w12; w13; w14; w15]) no_round) (nth 8 (line_group left_line 3 [w0; w1; w2; w3; w4; w5; w6; w7; w8; w9; w10; w11; w12; w13; w14; w15]) no_round) (nth 9 (line_group left_line 3 [w0; w1; w2; w3; w4; w5; w6; w7; w8; w9; w10; w11; w12; w13; w14; w15]) no_round) (nth 10 (line_group left_line 3 [w0; w1; w2; w3; w4; w5; w6; w7; w8; w9; w10; w11; w12; w13; w14; w15]) no_round) (nth 11 (line_group left_line 3 [w0; w1; w2; w3; w4; w5; w6; w7; w8; w9; w10; w11; w12; w13; w14; w15]) no_round) (nth 12 (line_group left_line 3 [w0; w1; w2; w3; w4; w5; w6; w7; w8; w9; w10; w11; w12; w13; w14; w15]) no_round) (nth 13 (line_group left_line 3 [w0; w1; w2; w3; w4; w5; w6; w7; w8; w9; w10; w11; w12; w13; w14; w15]) no_round) (nth 14 (line_group left_line 3 [w0; w1; w2; w3; w4; w5; w6; w7; w8; w9; w10; w11; w12; w13; w14; w15]) no_round) (nth 15 (line_group left_line 3 [w0; w1; w2; w3; w4; w5; w6; w7; w8; w9; w10; w11; w12; w13; w14; w15]) no_round)
    (nth 0 (line_group right_line 3 [w0; w1; w2; w3; w4; w5; w6; w7; w8; w9; w10; w11; w12; w13; w14; w15]) no_round) (nth 1 (line_group right_line 3 [w0; w1; w2; w3; w4; w5; w6; w7; w8; w9; w10; w11; w12; w13; w14; w15]) no_round) (nth 2 (line_group right_line 3 [w0; w1; w2; w3; w4; w5; w6; w7; w8; w9; w10; w11; w12; w13; w14; w15]) no_round) (nth 3 (line_group right_line 3 [w0; w1; w2; w3; w4; w5; w6; w7; w8; w9; w10; w11; w12; w13; w14; w15]) no_round) (nth 4 (line_group right_line 3 [w0; w1; w2; w3; w4; w5; w6; w7; w8; w9; w10; w11; w12; w13; w14; w15]) no_round) (nth 5 (line_group right_line 3 [w0; w1; w2; w3; w4; w5; w6; w7; w8; w9; w10; w11; w12; w13; w14; w15]) no_round) (nth 6 (line_group right_line 3 [w0; w1; w2; w3; w4; w5; w6; w7; w8; w9; w10; w11; w12; w13; w14; w15]) no_round) (nth 7 (line_group right_line 3 [w0; w1; w2; w3; w4; w5; w6; w7; w8; w9; w10; w11; w12; w13; w14; w15]) no_round) (nth 8 (line_group right_line 3 [w0; w1; w2; w3; w4; w5; w6; w7; w8; w9; w10; w11; w12; w13; w14; w15]) no_round) (nth 9 (line_group right_line 3 [w0; w1; w2; w3; w4; w5; w6; w7; w8; w9; w10; w11; w12; w13; w14; w15]) no_round) (nth 10 (line_group right_line 3 [w0; w1; w2; w3; w4; w5; w6; w7; w8; w9; w10; w11; w12; w13; w14; w15]) no_round) (nth 11 (line_group right_line 3 [w0; w1; w2; w3; w4; w5; w6; w7; w8; w9; w10; w11; w12; w13; w14; w15]) no_round) (nth 12 (line_group right_line 3 [w0; w1; w2; w3; w4; w5; w6; w7; w8; w9; w10; w11; w12; w13; w14; w15]) no_round) (nth 13 (line_group right_line 3 [w0; w1; w2; w3; w4; w5; w6; w7; w8; w9; w10; w11; w12; w13; w14; w15]) no_round) (nth 14 (line_group right_line 3 [w0; w1; w2; w3; w4; w5; w6; w7; w8; w9; w10; w11; w12; w13; w14; w15]) no_round) (nth 15 (line_group right_line 3 [w0; w1; w2; w3; w4; w5; w6; w7; w8; w9; w10; w11; w12; w13; w14; w15]) no_round) c1 d1 e1 a1 b1 c2 d2 e2 a2 b2).
Qed.
Lemma ripemd_group4 a1 b1 c1 d1 e1 a2 b2 c2 d2 e2 w : length w = 16%nat →
  group4 (a1, b1, c1, d1, e1) (a2, b2, c2, d2, e2) w =
  (let '(a1, b1, c1, d1, e1) := foldl line_step (b1, c1, d1, e1, a1) (line_group left_line 4 w) in (a1, b1, c1, d1, e1),
   let '(a2, b2, c2, d2, e2) := foldl line_step (b2, c2, d2, e2, a2) (line_group right_line 4 w) in (a2, b2, c2, d2, e2)).
Proof.
  intros Hw. destruct w as [|w0 [|w1 [|w2 [|w3 [|w4 [|w5 [|w6 [|w7 [|w8 [|w9 [|w10 [|w11 [|w12 [|w13 [|w14 [|w15 [|]]]]]]]]]]]]]]]]]; try discriminate Hw. clear Hw. symmetry.
  exact (ripemd_straight (fun x y => (let '(a1, b1, c1, d1, e1) := x in (a1, b1, c1, d1, e1), let '(a2, b2, c2, d2, e2) := y in (a2, b2, c2, d2, e2))) (nth 0 (line_group left_line 4 [w0; w1; w2; w3; w4; w5; w6; w7; w8; w9; w10; w11; w12; w13; w14; w15]) no_round) (nth 1 (line_group left_line 4 [w0; w1; w2; w3; w4; w5; w6; w7; w8; w9; w10; w11; w12; w13; w14; w15]) no_round) (nth 2 (line_group left_line 4 [w0; w1; w2; w3; w4; w5; w6; w7; w8; w9; w10; w11; w12; w13; w14; w15]) no_round) (nth 3 (line_group left_line 4 [w0; w1; w2; w3; w4; w5; w6; w7; w8; w9; w10; w11; w12; w13; w14; w15]) no_round) (nth 4 (line_group left_line 4 [w0; w1; w2; w3; w4; w5; w6; w7; w8; w9; w10; w11; w12; w13; w14; w15]) no_round) (nth 5 (line_group left_line 4 [w0; w1; w2; w3; w4; w5; w6; w7; w8; w9; w10; w11; w12; w13; w14; w15]) no_round) (nth 6 (line_group left_line 4 [w0; w1; w2; w3; w4; w5; w6; w7; w8; w9; w10; w11; w12; w13; w14; w15]) no_round) (nth 7 (line_group left_line 4 [w0; w1; w2; w3; w4; w5; w6; w7; w8; w9; w10; w11; w12; w13; w14; w15]) no_round) (nth 8 (line_group left_line 4 [w0; w1; w2; w3; w4; w5; w6; w7; w8; w9; w10; w11; w12; w13; w14; w15]) no_round) (nth 9 (line_group left_line 4 [w0; w1; w2; w3; w4; w5; w6; w7; w8; w9; w10; w11; w12; w13; w14; w15]) no_round) (nth 10 (line_group left_line 4 [w0; w1; w2; w3; w4; w5; w6; w7; w8; w9; w10; w11; w12; w13; w14; w15]) no_round) (nth 11 (line_group left_line 4 [w0; w1; w2; w3; w4; w5; w6; w7; w8; w9; w10; w11; w12; w13; w14; w15]) no_round) (nth 12 (line_group left_line 4 [w0; w1; w2; w3; w4; w5; w6; w7; w8; w9; w10; w11; w12; w13; w14; w15]) no_round) (nth 13 (line_group left_line 4 [w0; w1; w2; w3; w4; w5; w6; w7; w8; w9; w10; w11; w12; w13; w14; w15]) no_round) (nth 14 (line_group left_line 4 [w0; w1; w2; w3; w4; w5; w6; w7; w8; w9; w10; w11; w12; w13; w14; w15]) no_round) (nth 15 (line_group left_line 4 [w0; w1; w2; w3; w4; w5; w6; w7; w8; w9; w10; w11; w12; w13; w14; w15]) no_round)
    (nth 0 (line_group right_line 4 [w0; w1; w2; w3; w4; w5; w6; w7; w8; w9; w10; w11; w12; w13; w14; w15]) no_round) (nth 1 (line_group right_line 4 [w0; w1; w2; w3; w4; w5; w6; w7; w8; w9; w10; w11; w12; w13; w14; w15]) no_round) (nth 2 (line_group right_line 4 [w0; w1; w2; w3; w4; w5; w6; w7; w8; w9; w10; w11; w12; w13; w14; w15]) no_round) (nth 3 (line_group right_line 4 [w0; w1; w2; w3; w4; w5; w6; w7; w8; w9; w10; w11; w12; w13; w14; w15]) no_round) (nth 4 (line_group right_line 4 [w0; w1; w2; w3; w4; w5; w6; w7; w8; w9; w10; w11; w12; w13; w14; w15]) no_round) (nth 5 (line_group right_line 4 [w0; w1; w2; w3; w4; w5; w6; w7; w8; w9; w10; w11; w12; w13; w14; w15]) no_round) (nth 6 (line_group right_line 4 [w0; w1; w2; w3; w4; w5; w6; w7; w8; w9; w10; w11; w12; w13; w14; w15]) no_round) (nth 7 (line_group right_line 4 [w0; w1; w2; w3; w4; w5; w6; w7; w8; w9; w10; w11; w12; w13; w14; w15]) no_round) (nth 8 (line_group right_line 4 [w0; w1; w2; w3; w4; w5; w6; w7; w8; w9; w10; w11; w12; w13; w14; w15]) no_round) (nth 9 (line_group right_line 4 [w0; w1; w2; w3; w4; w5; w6; w7; w8; w9; w10; w11; w12; w13; w14; w15]) no_round) (nth 10 (line_group right_line 4 [w0; w1; w2; w3; w4; w5; w6; w7; w8; w9; w10; w11; w12; w13; w14; w15]) no_round) (nth 11 (line_group right_line 4 [w0; w1; w2; w3; w4; w5; w6; w7; w8; w9; w10; w11; w12; w13; w14; w15]) no_round) (nth 12 (line_group right_line 4 [w0; w1; w2; w3; w4; w5; w6; w7; w8; w9; w10; w11; w12; w13; w14; w15]) no_round) (nth 13 (line_group right_line 4 [w0; w1; w2; w3; w4; w5; w6; w7; w8; w9; w10; w11; w12; w13; w14; w15]) no_round) (nth 14 (line_group right_line 4 [w0; w1; w2; w3; w4; w5; w6; w7; w8; w9; w10; w11; w12; w13; w14; w15]) no_round) (nth 15 (line_group right_line 4 [w0; w1; w2; w3; w4; w5; w6; w7; w8; w9; w10; w11; w12; w13; w14; w15]) no_round) b1 c1 d1 e1 a1 b2 c2 d2 e2 a2).
Qed.

(** The interleaved lines compute the rounds of the standard. *)
Lemma ripemd_unrolled s chunk : Transform s chunk = block s chunk.
Proof.
  destruct s as [|h0 [|h1 [|h2 [|h3 [|h4 [|]]]]]]; [reflexivity|reflexivity|reflexivity|reflexivity|reflexivity| |reflexivity]. unfold block, Transform. cbv zeta. fold (words chunk).
  assert (length (words chunk) = 16%nat) as Hw by reflexivity. set (ws := words chunk) in *. clearbody ws.
  change (map (with_word left_line ws) (seq 0 80)) with (line_group left_line 0 ws ++ line_group left_line 1 ws ++ line_group left_line 2 ws ++ line_group left_line 3 ws ++ line_group left_line 4 ws).
  change (map (with_word right_line ws) (seq 0 80)) with (line_group right_line 0 ws ++ line_group right_line 1 ws ++ line_group right_line 2 ws ++ line_group right_line 3 ws ++ line_group right_line 4 ws).
  rewrite !foldl_app.
  rewrite ripemd_group0 by done. destruct (foldl line_step _ (line_group left_line 0 ws)) as [[[[? ?] ?] ?] ?], (foldl line_step _ (line_group right_line 0 ws)) as [[[[? ?] ?] ?] ?]. cbv beta iota.
  rewrite ripemd_group1 by done. destruct (foldl line_step _ (line_group left_line 1 ws)) as [[[[? ?] ?] ?] ?], (foldl line_step _ (line_group right_line 1 ws)) as [[[[? ?] ?] ?] ?]. cbv beta iota.
  rewrite ripemd_group2 by done. destruct (foldl line_step _ (line_group left_line 2 ws)) as [[[[? ?] ?] ?] ?], (foldl line_step _ (line_group right_line 2 ws)) as [[[[? ?] ?] ?] ?]. cbv beta iota.
  rewrite ripemd_group3 by done. destruct (foldl line_step _ (line_group left_line 3 ws)) as [[[[? ?] ?] ?] ?], (foldl line_step _ (line_group right_line 3 ws)) as [[[[? ?] ?] ?] ?]. cbv beta iota.
  rewrite ripemd_group4 by done. destruct (foldl line_step _ (line_group left_line 4 ws)) as [[[[? ?] ?] ?] ?], (foldl line_step _ (line_group right_line 4 ws)) as [[[[? ?] ?] ?] ?]. cbv beta iota.
  reflexivity.
Qed.
End ripemd160.
