(* ===== verification/Hashers.v ===== *)
(** * The hash classes: src/src/crypto/sha*.cpp, ripemd160.cpp, hmac_*.cpp, hash.h

    [CSHA1], [CSHA256], [CSHA512] and [CRIPEMD160] compute the functions of their
    standards on a message that arrives in pieces; the message authentication codes, the
    double hashes of hash.h and the derivation hash of BIP32 are built on them.  The
    hash functions of the script interpreter are instantiated with them. *)

From S2P Require Import Prelude Serialize Transaction Script HashStream Sha2 Sha1 Ripemd160 Interpreter.

Open Scope Z_scope.

(** ** SHA-256 *)

(** [Transform(s, chunk, blocks)] *)
Definition sha256_Transform (s chunk : list Z) (blocks : nat) : list Z := compress 64 sha256.Transform blocks s chunk.

Definition CSHA256_new (buf : list Z) : hasher := mkHasher sha256.Initialize buf 0.
Definition CSHA256_Write (o : hasher) (data : list Z) : hasher :=
  let bufsize := bufsize_of 64 o in
  let '(o, data, bufsize) :=
    if negb (bufsize =? 0)%nat && (64 <=? bufsize + length data)%nat
    then let '(o, data) := fill_buffer 64 sha256.Transform o data in (o, data, O)
    else (o, data, bufsize) in
  let '(o, data) :=
    if (64 <=? length data)%nat
    then let blocks := (length data / 64)%nat in
         (mkHasher (sha256_Transform (h_s o) data blocks) (h_buf o) (u64 (h_bytes o + 64 * Z.of_nat blocks)), drop (64 * blocks) data)
    else (o, data) in
  keep_rest o bufsize data.
(** The object after [Finalize], and its output. *)
Definition CSHA256_finish (o : hasher) : hasher :=
  let pad := 0x80 :: replicate 63 0 in
  let sizedesc := WriteBE64 (u64 (Z.shiftl (h_bytes o) 3)) in
  let o := CSHA256_Write o (take (Z.to_nat (1 + (119 - h_bytes o mod 64) mod 64)) pad) in
  CSHA256_Write o sizedesc.
Definition CSHA256_Finalize (o : hasher) : list Z := concat (map WriteBE32 (h_s (CSHA256_finish o))).
Definition CSHA256_Reset (o : hasher) : hasher := mkHasher sha256.Initialize (h_buf o) 0.

(** [SelfTest] of an implementation of the transformation. *)
Definition SelfTest (tr : list Z → list Z → nat → list Z) : bool :=
  let in1 := 0x80 :: replicate 63 0 in
  let in2 := replicate 64 32 ++ 0x80 :: replicate 61 0 ++ [2; 0] in
  let out1 := [0xe3b0c442; 0x98fc1c14; 0x9afbf4c8; 0x996fb924; 0x27ae41e4; 0x649b934c; 0xa495991b; 0x7852b855] in
  let out2 := [0xce4153b0; 0x147c2a86; 0x3ed4298e; 0xe0676bc8; 0x79fc77a1; 0x2abe1f49; 0xb2b055df; 0x1069523e] in
  bool_decide (tr sha256.Initialize [] 0%nat = sha256.Initialize) &&
  bool_decide (tr sha256.Initialize in1 1%nat = out1) &&
  bool_decide (tr sha256.Initialize in2 2%nat = out2).

(** ** SHA-1, RIPEMD-160 and SHA-512 *)

Definition CSHA1_new (buf : list Z) : hasher := mkHasher sha1.Initialize buf 0.
Definition CSHA1_Write : hasher → list Z → hasher := hash_Write 64 sha1.Transform.
Definition CSHA1_Finalize (o : hasher) : list Z :=
  concat (map WriteBE32 (h_s (hash_Finalize 64 sha1.Transform 119 WriteBE64 o))).

Definition CRIPEMD160_new (buf : list Z) : hasher := mkHasher ripemd160.Initialize buf 0.
Definition CRIPEMD160_Write : hasher → list Z → hasher := hash_Write 64 ripemd160.Transform.
Definition CRIPEMD160_Finalize (o : hasher) : list Z :=
  concat (map WriteLE32 (h_s (hash_Finalize 64 ripemd160.Transform 119 WriteLE64 o))).

Definition CSHA512_new (buf : list Z) : hasher := mkHasher sha512.Initialize buf 0.
Definition CSHA512_Write : hasher → list Z → hasher := hash_Write 128 sha512.Transform.
Definition CSHA512_Finalize (o : hasher) : list Z :=
  concat (map WriteBE64 (h_s (hash_Finalize 128 sha512.Transform 239 (fun x => replicate 8 0 ++ WriteBE64 x) o))).

(** ** Message authentication codes *)

Record hmac := mkHmac { outer : hasher; inner : hasher }.

Definition xor_key (rkey : list Z) (x : Z) : list Z := map (fun b => Z.lxor b x) rkey.

(** The buffers of the objects have arbitrary contents, [stack i] for the [i]-th. *)
Definition CHMAC_SHA256_new (stack : nat → list Z) (key : list Z) : hmac :=
  let rkey :=
    if (length key <=? 64)%nat then key ++ replicate (64 - length key) 0
    else CSHA256_Finalize (CSHA256_Write (CSHA256_new (stack 2%nat)) key) ++ replicate 32 0 in
  let rkey := xor_key rkey 0x5c in
  let out := CSHA256_Write (CSHA256_new (stack 0%nat)) rkey in
  let rkey := xor_key rkey (Z.lxor 0x5c 0x36) in
  mkHmac out (CSHA256_Write (CSHA256_new (stack 1%nat)) rkey).
Definition CHMAC_SHA256_Write (o : hmac) (data : list Z) : hmac := mkHmac (outer o) (CSHA256_Write (inner o) data).
Definition CHMAC_SHA256_Finalize (o : hmac) : list Z :=
  let temp := CSHA256_Finalize (inner o) in CSHA256_Finalize (CSHA256_Write (outer o) temp).

Definition CHMAC_SHA512_new (stack : nat → list Z) (key : list Z) : hmac :=
  let rkey :=
    if (length key <=? 128)%nat then key ++ replicate (128 - length key) 0
    else CSHA512_Finalize (CSHA512_Write (CSHA512_new (stack 2%nat)) key) ++ replicate 64 0 in
  let rkey := xor_key rkey 0x5c in
  let out := CSHA512_Write (CSHA512_new (stack 0%nat)) rkey in
  let rkey := xor_key rkey (Z.lxor 0x5c 0x36) in
  mkHmac out (CSHA512_Write (CSHA512_new (stack 1%nat)) rkey).
Definition CHMAC_SHA512_Write (o : hmac) (data : list Z) : hmac := mkHmac (outer o) (CSHA512_Write (inner o) data).
Definition CHMAC_SHA512_Finalize (o : hmac) : list Z :=
  let temp := CSHA512_Finalize (inner o) in CSHA512_Finalize (CSHA512_Write (outer o) temp).

(** ** hash.h *)

(** [CHash256] and [CHash160] wrap a [CSHA256]. *)
Definition CHash256_Finalize (sha : hasher) : list Z :=
  let sha := CSHA256_finish sha in
  let buf := concat (map WriteBE32 (h_s sha)) in
  CSHA256_Finalize (CSHA256_Write (CSHA256_Reset sha) buf).
Definition CHash160_Finalize (stack : list Z) (sha : hasher) : list Z :=
  let buf := CSHA256_Finalize sha in CRIPEMD160_Finalize (CRIPEMD160_Write (CRIPEMD160_new stack) buf).

(** [Hash] of one to six ranges, and [Hash160]. *)
Definition Hash_of (stack : list Z) (ranges : list (list Z)) : list Z :=
  CHash256_Finalize (foldl CSHA256_Write (CSHA256_new stack) ranges).
Definition Hash160_of (stack : list Z) (range : list Z) : list Z :=
  CHash160_Finalize stack (CSHA256_Write (CSHA256_new stack) range).

Definition BIP32Hash (stack : nat → list Z) (chainCode : list Z) (nChild header : Z) (data : list Z) : list Z :=
  let num := [Z.land (Z.shiftr nChild 24) 0xFF; Z.land (Z.shiftr nChild 16) 0xFF; Z.land (Z.shiftr nChild 8) 0xFF; Z.land (Z.shiftr nChild 0) 0xFF] in
  CHMAC_SHA512_Finalize (CHMAC_SHA512_Write (CHMAC_SHA512_Write (CHMAC_SHA512_Write (CHMAC_SHA512_new stack chainCode) [header]) data) num).

(** ** The standards *)

Definition digest (B L : nat) (block : list Z → list Z → list Z) (init : list Z) (sizedesc : Z → list Z) (word : Z → list Z) (msg : list Z) : list Z :=
  let p := padded B sizedesc L msg in concat (map word (compress B block (length p / B) init p)).

Definition SHA256 : list Z → list Z := digest 64 8 sha256.block sha256.IV WriteBE64 WriteBE32.
Definition SHA1 : list Z → list Z := digest 64 8 sha1.block sha1.Initialize WriteBE64 WriteBE32.
Definition RIPEMD160 : list Z → list Z := digest 64 8 ripemd160.block ripemd160.Initialize WriteLE64 WriteLE32.
Definition SHA512 : list Z → list Z := digest 128 16 sha512.block sha512.IV (fun x => replicate 8 0 ++ WriteBE64 x) WriteBE64.

(** RFC 2104, for a hash function with blocks of [B] bytes. *)
Definition HMAC (B : nat) (H : list Z → list Z) (key msg : list Z) : list Z :=
  let k := if (length key <=? B)%nat then key else H key in
  let k := k ++ replicate (B - length k) 0 in
  H (xor_key k 0x5c ++ H (xor_key k 0x36 ++ msg)).

(** ** Lemmas *)

Lemma compress_ext B T1 T2 n : (∀ s c, T1 s c = T2 s c) → ∀ s l, compress B T1 n s l = compress B T2 n s l.
Proof. intros H. induction n as [|n IH]; intros s l; cbn [compress]; [done|]. by rewrite H, IH. Qed.

Lemma CSHA256_Write_eq o data : CSHA256_Write o data = hash_Write 64 sha256.Transform o data.
Proof.
  unfold CSHA256_Write, hash_Write. match goal with |- (let '(_, _) := ?t in _) = _ => destruct t as [[o1 data1] n] end. rewrite process_blocks by lia. unfold sha256_Transform.
  destruct (Nat.leb_spec 64 (length data1)) as [Hle|Hlt].
  - rewrite (proj2 (Nat.eqb_neq (length data1 / 64) 0)) by (pose proof (Nat.Div0.div_le_mono 64 (length data1) 64 Hle); rewrite Nat.div_same in *; lia).
    do 2 f_equal; [|lia]. f_equal. f_equal. lia.
  - rewrite Nat.div_small by done. cbn [compress Nat.eqb Nat.mul]. rewrite drop_0. by destruct o1.
Qed.
Lemma CSHA256_finish_eq o : CSHA256_finish o = hash_Finalize 64 sha256.Transform 119 WriteBE64 o.
Proof. unfold CSHA256_finish, hash_Finalize. by rewrite !CSHA256_Write_eq. Qed.

Section pieces.
Context (B L : nat) (T block : list Z → list Z → list Z) (init : list Z) (sizedesc : Z → list Z) (word : Z → list Z).
Context (HB : (0 < B)%nat) (Hdiv : (Z.of_nat B | 2 ^ 64)) (HL : (L + 1 <= B)%nat) (Hdesc : ∀ x, length (sizedesc x) = L) (HT : ∀ s c, T s c = block s c).

Lemma pieces_digest buf pieces : length buf = B →
  concat (map word (h_s (hash_Finalize B T (2 * Z.of_nat B - 1 - Z.of_nat L) sizedesc (foldl (hash_Write B T) (mkHasher init buf 0) pieces)))) =
  digest B L block init sizedesc word (concat pieces).
Proof.
  intros Hb. pose proof (writes_read B T HB Hdiv init [] _ pieces (init_reads B T init buf Hb)) as Hr. cbn [app] in Hr.
  rewrite (Finalize_reads B T HB Hdiv init _ _ L sizedesc Hdesc HL Hr). unfold digest. by rewrite (compress_ext B T block) by done.
Qed.
End pieces.

Lemma div_64 : (Z.of_nat 64 | 2 ^ 64).
Proof. exists (2 ^ 58). reflexivity. Qed.
Lemma div_128 : (Z.of_nat 128 | 2 ^ 64).
Proof. exists (2 ^ 57). reflexivity. Qed.
Lemma WriteBE64_length x : length (WriteBE64 x) = 8%nat.
Proof. unfold WriteBE64. by rewrite length_rev, digits_of_length. Qed.

Lemma CSHA256_pieces buf pieces : length buf = 64%nat → CSHA256_Finalize (foldl CSHA256_Write (CSHA256_new buf) pieces) = SHA256 (concat pieces).
Proof.
  intros Hb. unfold CSHA256_Finalize. rewrite CSHA256_finish_eq. replace (foldl CSHA256_Write (CSHA256_new buf) pieces) with (foldl (hash_Write 64 sha256.Transform) (CSHA256_new buf) pieces)
    by (generalize (CSHA256_new buf); clear; induction pieces as [|d l IH]; intros o; cbn [foldl]; [done|by rewrite IH, CSHA256_Write_eq]).
  exact (pieces_digest 64 8 _ _ _ _ _ ltac:(lia) div_64 ltac:(lia) WriteBE64_length sha256.sha256_unrolled buf pieces Hb).
Qed.
Lemma CSHA512_pieces buf pieces : length buf = 128%nat → CSHA512_Finalize (foldl CSHA512_Write (CSHA512_new buf) pieces) = SHA512 (concat pieces).
Proof.
  intros Hb. refine (pieces_digest 128 16 _ _ _ _ _ ltac:(lia) div_128 ltac:(lia) _ sha512.sha512_unrolled buf pieces Hb).
  intros x. by rewrite length_app, length_replicate, WriteBE64_length.
Qed.

(** C23: The hash classes compute the functions of their standards.  For every message, every
    way to cut it into pieces for [Write], and every content of the buffer at the start,
    [Finalize] of [CSHA256], [CSHA1], [CRIPEMD160] and [CSHA512] gives the digest of the
    whole message: the padding, and for each block the rounds of the standard, of which
    the code has unrolled versions.  The constants of SHA-2 in the code are the leading
    bits of the roots of the first primes. *)
Theorem hash_classes_standard buf buf' pieces : length buf = 64%nat → length buf' = 128%nat →
  CSHA256_Finalize (foldl CSHA256_Write (CSHA256_new buf) pieces) = SHA256 (concat pieces) ∧
  CSHA1_Finalize (foldl CSHA1_Write (CSHA1_new buf) pieces) = SHA1 (concat pieces) ∧
  CRIPEMD160_Finalize (foldl CRIPEMD160_Write (CRIPEMD160_new buf) pieces) = RIPEMD160 (concat pieces) ∧
  CSHA512_Finalize (foldl CSHA512_Write (CSHA512_new buf') pieces) = SHA512 (concat pieces).
Proof.
  intros Hb Hb'. split; [by apply CSHA256_pieces|]. split; [|split; [|by apply CSHA512_pieces]].
  - exact (pieces_digest 64 8 _ _ _ _ _ ltac:(lia) div_64 ltac:(lia) WriteBE64_length sha1.sha1_unrolled buf pieces Hb).
  - exact (pieces_digest 64 8 _ _ _ _ _ ltac:(lia) div_64 ltac:(lia) (digits_of_length 8 8) ripemd160.ripemd_unrolled buf pieces Hb).
Qed.

(** The bytes of "abc", in two pieces. *)
Lemma hash_classes_standard_witness :
  CSHA256_Finalize (foldl CSHA256_Write (CSHA256_new (replicate 64 7)) [[97]; [98; 99]]) =
    concat (map WriteBE32 [0xba7816bf; 0x8f01cfea; 0x414140de; 0x5dae2223; 0xb00361a3; 0x96177a9c; 0xb410ff61; 0xf20015ad]) ∧
  CSHA1_Finalize (foldl CSHA1_Write (CSHA1_new (replicate 64 7)) [[97]; [98; 99]]) = concat (map WriteBE32 [0xa9993e36; 0x4706816a; 0xba3e2571; 0x7850c26c; 0x9cd0d89d]) ∧
  CRIPEMD160_Finalize (foldl CRIPEMD160_Write (CRIPEMD160_new (replicate 64 7)) [[97]; [98; 99]]) = concat (map WriteBE32 [0x8eb208f7; 0xe05d987a; 0x9b044a8e; 0x98c6b087; 0xf15a0bfc]) ∧
  CSHA512_Finalize (foldl CSHA512_Write (CSHA512_new (replicate 128 7)) [[97]; [98; 99]]) =
    concat (map WriteBE64 [0xddaf35a193617aba; 0xcc417349ae204131; 0x12e6fa4e89a97ea2; 0x0a9eeee64b55d39a; 0x2192992a274fc1a8; 0x36ba3c23a3feebbd; 0x454d4423643ce80e; 0x2a9ac94fa54ca49f]).
Proof.
  destruct (hash_classes_standard (replicate 64 7) (replicate 128 7) [[97]; [98; 99]] eq_refl eq_refl) as (-> & -> & -> & ->).
  split; [vm_compute; reflexivity|]. split; [vm_compute; reflexivity|]. split; vm_compute; reflexivity.
Defined.

(** ** Message authentication codes and double hashes *)

Lemma xor_key_twice k x y : xor_key (xor_key k x) y = xor_key k (Z.lxor x y).
Proof. unfold xor_key. rewrite map_map. apply map_ext. intros b. by rewrite Z.lxor_assoc. Qed.
Lemma xor_key_length k x : length (xor_key k x) = length k.
Proof. apply length_map. Qed.

Lemma concat_words {A} (word : A → list Z) n l : (∀ x, length (word x) = n) → length (concat (map word l)) = (n * length l)%nat.
Proof. intros Hw. induction l as [|x l IH]; cbn [map concat length]; [lia|]. rewrite length_app, Hw, IH. lia. Qed.

Lemma compress_length B T n m : (∀ s c, length s = m → length (T s c) = m) → ∀ s l, length s = m → length (compress B T n s l) = m.
Proof. intros HT. induction n as [|n IH]; intros s l Hs; cbn [compress]; [done|]. by apply IH, HT. Qed.
Lemma hash_block_length w S0 S1 s0 s1 ks s ws : length s = 8%nat → length (hash_block w S0 S1 s0 s1 ks s ws) = 8%nat.
Proof.
  intros Hs. destruct s as [|a [|b [|c [|d [|e [|f [|g [|h [|]]]]]]]]]; try discriminate Hs. unfold hash_block. destruct (rounds _ _ _ _ _) as [[[[[[[? ?] ?] ?] ?] ?] ?] ?]. reflexivity.
Qed.

Lemma SHA256_length msg : length (SHA256 msg) = 32%nat.
Proof.
  unfold SHA256, digest. rewrite (concat_words _ 4) by (intros x; unfold WriteBE32; by rewrite length_rev, digits_of_length).
  rewrite (compress_length _ _ _ 8); [reflexivity| |reflexivity]. intros s c Hs. exact (hash_block_length _ _ _ _ _ _ s _ Hs).
Qed.
Lemma SHA512_length msg : length (SHA512 msg) = 64%nat.
Proof.
  unfold SHA512, digest. rewrite (concat_words _ 8) by apply WriteBE64_length. rewrite (compress_length _ _ _ 8); [reflexivity| |reflexivity]. intros s c Hs. exact (hash_block_length _ _ _ _ _ _ s _ Hs).
Qed.

Lemma hmac256_key stack key : length (stack 2%nat) = 64%nat →
  (if (length key <=? 64)%nat then key ++ replicate (64 - length key) 0 else CSHA256_Finalize (CSHA256_Write (CSHA256_new (stack 2%nat)) key) ++ replicate 32 0) =
  let k := if (length key <=? 64)%nat then key else SHA256 key in k ++ replicate (64 - length k) 0.
Proof.
  intros Hs. destruct (length key <=? 64)%nat; [done|]. cbv zeta. rewrite SHA256_length. f_equal.
  pose proof (CSHA256_pieces (stack 2%nat) [key] Hs) as H. cbn [foldl concat] in H. by rewrite app_nil_r in H.
Qed.
Lemma hmac512_key stack key : length (stack 2%nat) = 128%nat →
  (if (length key <=? 128)%nat then key ++ replicate (128 - length key) 0 else CSHA512_Finalize (CSHA512_Write (CSHA512_new (stack 2%nat)) key) ++ replicate 64 0) =
  let k := if (length key <=? 128)%nat then key else SHA512 key in k ++ replicate (128 - length k) 0.
Proof.
  intros Hs. destruct (length key <=? 128)%nat; [done|]. cbv zeta. rewrite SHA512_length. f_equal.
  pose proof (CSHA512_pieces (stack 2%nat) [key] Hs) as H. cbn [foldl concat] in H. by rewrite app_nil_r in H.
Qed.
Lemma hmac256_writes out inn pieces : foldl CHMAC_SHA256_Write (mkHmac out inn) pieces = mkHmac out (foldl CSHA256_Write inn pieces).
Proof. revert inn. induction pieces as [|d l IH]; intros inn; cbn [foldl]; [done|]. apply IH. Qed.
Lemma hmac512_writes out inn pieces : foldl CHMAC_SHA512_Write (mkHmac out inn) pieces = mkHmac out (foldl CSHA512_Write inn pieces).
Proof. revert inn. induction pieces as [|d l IH]; intros inn; cbn [foldl]; [done|]. apply IH. Qed.

(** C24: [CHMAC_SHA256] and [CHMAC_SHA512] compute the code of RFC 2104 for their hash
    function, for every key, short or long, and every way to cut the message into pieces:
    one buffer for the key serves both pads, turned from the outer into the inner one by
    a second exclusive or. *)
Theorem hmac_standard stack stack' key pieces : (∀ i, length (stack i) = 64%nat) → (∀ i, length (stack' i) = 128%nat) →
  CHMAC_SHA256_Finalize (foldl CHMAC_SHA256_Write (CHMAC_SHA256_new stack key) pieces) = HMAC 64 SHA256 key (concat pieces) ∧
  CHMAC_SHA512_Finalize (foldl CHMAC_SHA512_Write (CHMAC_SHA512_new stack' key) pieces) = HMAC 128 SHA512 key (concat pieces).
Proof.
  intros Hs Hs'. split.
  - unfold CHMAC_SHA256_new. rewrite (hmac256_key stack key (Hs 2%nat)). set (k := let k := _ in k ++ _). cbv zeta. rewrite hmac256_writes, xor_key_twice. unfold CHMAC_SHA256_Finalize. cbn [inner outer].
    change (foldl CSHA256_Write (CSHA256_Write ?o ?d) ?l) with (foldl CSHA256_Write o (d :: l)). rewrite (CSHA256_pieces (stack 1%nat)) by apply Hs.
    set (t := SHA256 _). pose proof (CSHA256_pieces (stack 0%nat) [xor_key k 0x5c; t] (Hs 0%nat)) as H. cbn [foldl concat] in H. rewrite app_nil_r in H. exact H.
  - unfold CHMAC_SHA512_new. rewrite (hmac512_key stack' key (Hs' 2%nat)). set (k := let k := _ in k ++ _). cbv zeta. rewrite hmac512_writes, xor_key_twice. unfold CHMAC_SHA512_Finalize. cbn [inner outer].
    change (foldl CSHA512_Write (CSHA512_Write ?o ?d) ?l) with (foldl CSHA512_Write o (d :: l)). rewrite (CSHA512_pieces (stack' 1%nat)) by apply Hs'.
    set (t := SHA512 _). pose proof (CSHA512_pieces (stack' 0%nat) [xor_key k 0x5c; t] (Hs' 0%nat)) as H. cbn [foldl concat] in H. rewrite app_nil_r in H. exact H.
Qed.

(** The second test case of RFC 4231: the key "Jefe". *)
Lemma hmac_standard_witness :
  let msg := [[119; 104; 97; 116; 32; 100; 111; 32; 121; 97]; [32; 119; 97; 110; 116; 32; 102; 111; 114; 32; 110; 111; 116; 104; 105; 110; 103; 63]] in
  CHMAC_SHA256_Finalize (foldl CHMAC_SHA256_Write (CHMAC_SHA256_new (fun _ => replicate 64 0) [74; 101; 102; 101]) msg) =
    concat (map WriteBE32 [0x5bdcc146; 0xbf60754e; 0x6a042426; 0x089575c7; 0x5a003f08; 0x9d273983; 0x9dec58b9; 0x64ec3843]) ∧
  CHMAC_SHA512_Finalize (foldl CHMAC_SHA512_Write (CHMAC_SHA512_new (fun _ => replicate 128 0) [74; 101; 102; 101]) msg) =
    concat (map WriteBE64 [0x164b7a7bfcf819e2; 0xe395fbe73b56e0a3; 0x87bd64222e831fd6; 0x10270cd7ea250554; 0x9758bf75c05a994a; 0x6d034f65f8f0e6fd; 0xcaeab1a34d4a6b4b; 0x636e070a38bce737]).
Proof.
  cbv zeta. match goal with |- context [foldl CHMAC_SHA256_Write _ ?m] =>
    destruct (hmac_standard (fun _ => replicate 64 0) (fun _ => replicate 128 0) [74; 101; 102; 101] m (fun _ => eq_refl) (fun _ => eq_refl)) as [-> ->] end.
  split; vm_compute; reflexivity.
Defined.

(** [Hash] is SHA-256 twice, over the concatenation of the ranges; [Hash160] is RIPEMD-160
    after SHA-256. *)
Lemma Hash_twice stack ranges : length stack = 64%nat → Hash_of stack ranges = SHA256 (SHA256 (concat ranges)).
Proof.
  intros Hs. unfold Hash_of, CHash256_Finalize. fold (CSHA256_Finalize (foldl CSHA256_Write (CSHA256_new stack) ranges)). rewrite CSHA256_pieces by done. set (t := SHA256 (concat ranges)).
  assert (length (h_buf (CSHA256_finish (foldl CSHA256_Write (CSHA256_new stack) ranges))) = 64%nat) as Hb.
  { rewrite CSHA256_finish_eq. replace (foldl CSHA256_Write (CSHA256_new stack) ranges) with (foldl (hash_Write 64 sha256.Transform) (CSHA256_new stack) ranges)
      by (generalize (CSHA256_new stack); clear; induction ranges as [|d l IH]; intros o; cbn [foldl]; [done|by rewrite IH, CSHA256_Write_eq]).
    pose proof (writes_read 64 sha256.Transform ltac:(lia) div_64 sha256.Initialize [] _ ranges (init_reads 64 _ _ stack Hs)) as Hr. unfold hash_Finalize.
    eapply (rd_buf 64 sha256.Transform), Write_reads, Write_reads, Hr; [lia|exact div_64|lia|exact div_64]. }
  pose proof (CSHA256_pieces _ [t] Hb) as H. cbn [foldl concat] in H. rewrite app_nil_r in H. exact H.
Qed.

Lemma Hash160_spec stack range : length stack = 64%nat → Hash160_of stack range = RIPEMD160 (SHA256 range).
Proof.
  intros Hs. unfold Hash160_of, CHash160_Finalize. pose proof (CSHA256_pieces stack [range] Hs) as H. cbn [foldl concat] in H. rewrite app_nil_r in H. rewrite H.
  pose proof (pieces_digest 64 8 _ _ ripemd160.Initialize _ WriteLE32 ltac:(lia) div_64 ltac:(lia) (digits_of_length 8 8) ripemd160.ripemd_unrolled stack [SHA256 range] Hs) as R.
  cbn [foldl concat] in R. rewrite app_nil_r in R. exact R.
Qed.

(** The transformation of the build without assembly passes the test at start-up. *)
Lemma SelfTest_passes : SelfTest sha256_Transform = true.
Proof. vm_compute. reflexivity. Qed.

(** ** The hash functions of the interpreter *)

Lemma concat_bytes {A} (word : A → list Z) l : (∀ x, bytes_ok (word x)) → bytes_ok (concat (map word l)).
Proof. intros Hw. induction l as [|x l IH]; cbn [map concat]; [constructor|]. by apply bytes_ok_app. Qed.
Lemma WriteBE32_ok x : length (WriteBE32 x) = 4%nat ∧ bytes_ok (WriteBE32 x).
Proof.
  unfold WriteBE32. rewrite length_rev, digits_of_length. split; [done|]. apply Forall_rev. by apply bytes_digits, digits_of_ok.
Qed.
Lemma WriteLE32_ok x : length (WriteLE32 x) = 4%nat ∧ bytes_ok (WriteLE32 x).
Proof. unfold WriteLE32. rewrite digits_of_length. split; [done|]. by apply bytes_digits, digits_of_ok. Qed.
Lemma sha1_block_length s c : length s = 5%nat → length (sha1.block s c) = 5%nat.
Proof.
  intros Hs. destruct s as [|a [|b [|d [|e [|f [|]]]]]]; try discriminate Hs. unfold sha1.block. destruct (rounds _ _ _ _ _) as [[[[? ?] ?] ?] ?]. reflexivity.
Qed.
Lemma ripemd_block_length s c : length s = 5%nat → length (ripemd160.block s c) = 5%nat.
Proof.
  intros Hs. destruct s as [|a [|b [|d [|e [|f [|]]]]]]; try discriminate Hs. unfold ripemd160.block. cbv zeta.
  destruct (foldl _ _ (map (ripemd160.with_word ripemd160.left_line _) _)) as [[[[? ?] ?] ?] ?], (foldl _ _ (map (ripemd160.with_word ripemd160.right_line _) _)) as [[[[? ?] ?] ?] ?]. reflexivity.
Qed.

Lemma SHA256_output m : length (SHA256 m) = 32%nat ∧ bytes_ok (SHA256 m).
Proof. split; [apply SHA256_length|]. apply concat_bytes. intros x. apply WriteBE32_ok. Qed.
Lemma SHA1_output m : length (SHA1 m) = 20%nat ∧ bytes_ok (SHA1 m).
Proof.
  unfold SHA1, digest. split; [|apply concat_bytes; intros x; apply WriteBE32_ok]. rewrite (concat_words _ 4) by (intros x; apply WriteBE32_ok).
  rewrite (compress_length _ _ _ 5); [reflexivity| |reflexivity]. intros s c Hs. by apply sha1_block_length.
Qed.
Lemma RIPEMD160_output m : length (RIPEMD160 m) = 20%nat ∧ bytes_ok (RIPEMD160 m).
Proof.
  unfold RIPEMD160, digest. split; [|apply concat_bytes; intros x; apply WriteLE32_ok]. rewrite (concat_words _ 4) by (intros x; apply WriteLE32_ok).
  rewrite (compress_length _ _ _ 5); [reflexivity| |reflexivity]. intros s c Hs. by apply ripemd_block_length.
Qed.

(** The interface of the interpreter, with the hash functions of the program; the checks of
    keys and signatures are those of the elliptic curve library. *)
Definition standard_crypto (low_s : valtype → bool) (verify : valtype → uint256 → valtype → bool) : Crypto := {|
  CRIPEMD160 := RIPEMD160; CSHA1 := SHA1; CSHA256 := SHA256;
  CheckLowS := low_s; PubKey_Verify := verify;
  ripemd160_output := RIPEMD160_output; sha1_output := SHA1_output; sha256_output := SHA256_output
|}.
